(* ===== verification/_CoqProject ===== *)
-Q . S2P
Prelude.v
GoStrings.v
Utf8.v
WireJson.v
Enums.v
Types.v
GoErrors.v
Config.v
Paths.v
GoTime.v
Model.v
Samples.v
Lifecycle.v
Store.v
StoreMerges.v
StoreTasks.v
MergeClaims.v
StoreBudget.v
StoreCapacity.v
StoreInv.v
Runtime.v
Observations.v
TaskWorkers.v
Controls.v
Recovery.v
Dependencies.v
PlanRules.v
Scheduler.v
Actions.v
NetIP.v
Wire.v
EgressPolicy.v
ClientHello.v
Runes.v
Regex.v
RegexLang.v
Redact.v
Fragment.v
Capture.v
Visible.v
Footprint.v
PlanningOrder.v
Broker.v
BrokerPlans.v
WebSocket.v
Chat.v
Strconv.v
ChatService.v
ChangeSet.v
Prompts.v
Evidence.v
Worker.v
Invocation.v
Execution.v
ExecutionSamples.v
WorkerLogic.v
ExecutionFacts.v
GitOps.v
GitHub.v
Publish.v
MergeWire.v
Actor.v
Observe.v
PlanMemory.v
AutoMerge.v
Planning.v
Outbox.v
Notify.v
Pages.v
Repositories.v
Interact.v
Leases.v
Gateway.v
GatewayServe.v
GatewayFacts.v
GatewayInv.v
