(* ===== verification/Prelude.v ===== *)
(** * Octomus: a verification development for the Go control plane

    Octomus schedules coding agents on repositories: a planning cycle proposes
    work, tasks are executed and reviewed in sandboxes, and reviewed commits
    are published as pull requests, which may then be merged automatically.
    This library translates the parts of [src/internal] that decide: what may
    be planned, started, committed, published, merged, shown and let through.
    Definitions keep the names of the Go code; a method [T.M] is [T_M] where
    [M] alone is ambiguous, and [T_F] is field [F] of the struct [T].

    ** Files

    Foundations, with no counterpart in the repository:
    - [Prelude]: results and their notation, record update, tactics, sums;
    - [GoStrings], [Utf8], [Runes], [GoTime], [Paths], [NetIP], [Regex],
      [RegexLang]: what the program uses of [strings], [unicode/utf8],
      [strconv], [time], [path/filepath], [net/netip] and [regexp], with their
      round trips and laws.  [Regex] gives leftmost-first matching as a
      function and [RegexLang] shows that an anchored pattern decides a
      language;
    - [GoErrors]: what the program observes of an [error];
    - [Samples]: records on which witnesses evaluate.

    Records and policy:
    - [WireJson], [Enums]: [wirejson/parse.go] and every enumeration.  The
      class [WireEnum] is the interface between a table of names and the
      generic codec;
    - [Types]: every record of [config] and [model];
    - [Model]: [model/model.go], [maintenance.go], [verification.go],
      [sandbox.go];
    - [Config]: [config/config.go], [maintenance_paths.go];
    - [Lifecycle]: [model/task_lifecycle.go], the policy every task write
      passes.

    The store ([internal/store]), a record of tables and transactions on it:
    - [Store]: [store.go], [queries.go] (transactions, settings, cancellation
      markers); [StoreTasks]: tasks, plans and requests; [StoreMerges]:
      [automerge.go]; [StoreBudget]: session budgets; [StoreCapacity]:
      [capacity.go];
    - [StoreInv]: all these writes as one step relation on the database;
      [MergeClaims]: a claim through the writes that follow it.

    The engine ([internal/engine]), a state and error monad over its memory
    and the database:
    - [Runtime]: [runtime.go] and the monad [Op], with the rules of its
      postconditions [wp]; [Observations]: what [observation.go] compares and
      [capacity.go];
      [TaskWorkers]: [task_commit.go], [task_worker.go]; [Controls]:
      [controls.go], [eligibility.go], [deployment.go], [timeouts.go];
      [Recovery]: [recovery.go]; [Scheduler]: [scheduler.go]; [Actions]:
      [actions.go], [requests.go];
    - [Dependencies], [PlanRules]: [plan_rules.go] and the context of
      [memory.go]; [PlanningOrder]: [planning_order.go].

    A worker of a task ([internal/engine]), beside the rest of the service:
    - [ChangeSet]: the change set of [review.go]; [Prompts]: [prompts.go],
      [maintenance_prompts.go]; [Evidence]: the output kept by
      [verification.go] and [baseline.go], [process/status.go]; [Strconv]:
      what they use of [strconv];
    - [Worker]: what a worker asks and does, its durable steps and the
      admission of a session; [Invocation]: [invocation.go] and the calls of
      [runner/runner.go]; [Execution]: [execution.go], [review.go],
      [verification.go];
    - [WorkerLogic], [ExecutionFacts]: rules for the traces of a worker and
      what they show of an execution; [ExecutionSamples]: runs on concrete
      answers.

    Git and GitHub ([internal/git]), programs that ask a machine:
    - [GitOps]: [git.go], [remote.go], [clone.go] and the credentials of
      [config/repo_env.go], with the monad [G] and the rules [says] for what a
      program sends; [GitHub]: [github.go]; [Publish]: [publish.go];
      [MergeWire]: [automerge.go], [merge_destination.go];
    - [Actor]: a goroutine beside the rest of the service, the monad [Act] and
      rules for what it does ([keeps]) and for what it sees under the gate
      ([peeks]);
    - [AutoMerge]: the merge worker, [engine/automerge.go],
      [automerge_barriers.go] and the queries it makes;
    - [Observe]: the programs of [engine/observation.go], which read the pull
      requests and give reservations back; [PlanMemory]: the snapshots and
      validations of [engine/memory.go] and the store's queries for them;
      [Planning]: the planning cycle, [engine/planning.go].

    Bookkeeping for operators ([internal/store], [internal/notifications],
    [internal/chat]):
    - [Outbox]: the notification outbox, [store/notifications.go] and the
      triggers of [schema.sql] that feed it; [Notify]: the workers that drain
      it, [notifications/notifications.go], [chat/notify.go];
    - [Pages]: the cursors of [store/pages.go]; [Repositories]: the registry
      of [store/repositories.go].

    Sandboxes, network and output:
    - [Wire]: [sandbox/wire/wire.go] (host names, frames); [EgressPolicy]:
      [egress/policy.go]; [ClientHello]: [egress/clienthello.go];
    - [Interact]: programs that ask one thing after another, and the rules for
      what they do in every world; [Leases]: [egress/lease.go] and the login
      lease of [cmd/octomus-agent/sandbox.go]; [Gateway]: the state and the
      critical sections of [egress/gateway.go] and [serve.go];
      [GatewayServe]: its goroutines and how they interleave;
      [GatewayFacts], [GatewayInv]: what each never does, and the invariants
      of all of them;
    - [Broker]: [sandbox/broker/validate.go] and [spec.go]; [BrokerPlans] says
      what they accept;
    - [Redact], [Fragment]: [redact/redact.go], [fragment.go]; [Capture],
      [Visible]: [process/capture.go]; [Footprint]: [git/footprint.go];
    - [WebSocket]: [chat/wsconn.go]; [Chat]: the parser of commands, the
      operators and the replies of [internal/chat]; [ChatService]: its commands,
      buttons and confirmations, and the routing of [engine/fleet.go].

    ** How the parts interact

    The engine asks [Dependencies] and [PlanRules] whether a plan is
    executable and commits it through [StoreTasks.CommitPlan]; a task is
    admitted through [StoreCapacity.AdmitNewPRTask] within the limit on open
    pull requests, each of its sessions is paid for through
    [StoreBudget.ReserveSession], and each of its changes goes through
    [StoreTasks.txCommitTask], which asks [Lifecycle.ValidateTaskChange].  A
    published task may be merged through [StoreMerges.ClaimMerge] when
    [Model.MaintenanceMergeAuthorized] accepts its review and the footprint
    [Footprint] parsed.  What agents print reaches an operator through
    [Capture], [Fragment] and [Redact]; what they send to the network passes
    [EgressPolicy] and [ClientHello]; where they run is decided by [Broker].

    A worker is a program over a working copy of its task: it asks git, the
    runners and the sandbox ([Worker.ask], answered by any [Worker.Outside]),
    and enters the gate of the engine for each durable step, which is an
    operation of [TaskWorkers] on the shared state; before each entry the rest
    of the service may have changed that state in any way ([Worker.others]).
    What it saved, reserved, turned, ran and published is kept in order
    ([Worker.deed]).  When it exits, [TaskWorkers.finishTaskWorker] settles its
    task; after a crash [Recovery] does.

    A planning cycle ([Planning.planCycle]) is such a goroutine too: it asks
    the agents of each role for proposals, judgements and a plan, validates
    them with [PlanRules] and [PlanMemory], and commits what is left through
    [StoreTasks.CommitPlan] in one step under the gate; what was answered and
    looked up on the way is kept among its deeds ([Planning.Looked]).  What an
    operator says in a chat is dispatched by [ChatService] to the engine of a
    repository, as one [engine_call] or as an action that waits for its
    click.  Rows of the store's
    tables feed [Outbox] by triggers, and [Notify] drains it.

    A sandbox reaches the network only through the gateway: the broker grants
    it a lease ([Leases]), each of its connections is a request of
    [GatewayServe] that reads the lease, asks [EgressPolicy] and [ClientHello],
    and accounts for itself in the sandbox's usage, which the broker collects
    when the sandbox is gone.

    How a publication and a merge speak to GitHub is in [Publish] and
    [MergeWire]: a program in [GitOps.G] asks git and gh one thing after
    another, answered by any [GitOps.Machine], and keeps every request in
    order.  The merge worker ([AutoMerge]) runs such programs between its
    accesses to the shared state; before each access outside the gate the rest
    of the service may have changed that state in any way ([Actor.Company]), and
    the store may refuse any call.  That a pass ends is proved where the rest of
    the service leaves the pass its cursor.

    ** What the theorems show

    - Life of a task: published work was reviewed at exactly its commit
      ([Lifecycle], and [StoreInv] for every reachable database), evidence
      only grows, a published task is final, a cancelled one stops, and the
      policy refines an abstract status machine.
    - The store: commits are optimistic, coupled writes are atomic, budgets
      and capacity are never overspent, a begun cycle stays funded, a merge
      claim follows an authorised delivery and is exclusive until its attempt is
      settled ([MergeClaims]).
    - An execution: in any world, a turn follows the checkpoint of its
      session and is paid for, a publication follows the checkpoint that
      authorizes exactly the reviewed commit, the verification commands passed
      at it unless the execution started with an authorized commit, and the
      execution ends within its repair budget ([ExecutionFacts]).
    - The remote: in any world, a publication writes nothing but the reviewed
      commit, to the task's own branch under its lease ([Publish]), and a merge
      is requested only after its destination was read to be enforced, and
      reported only when it was read back ([MergeWire]); a merge pass writes
      only what its last claim allows, each claim is made while everything it
      depends on holds, and the pass ends ([AutoMerge]).
    - The engine: a dispatch never oversubscribes; an exited worker leaves its
      task settled, or active for the recovery that follows an interruption, or
      its job behind the recovery barrier; an operator's action other than a
      cancellation is refused for a task something else owns; and what is shown
      as possible is carried out ([Scheduler], [TaskWorkers], [Recovery], [Actions],
      [Controls]).
    - Plans: the checks accept exactly the well-formed plans with an
      executable dependency graph; a planning cycle commits at most one plan,
      in one step, of proposals as they were returned, whose accepted work was
      reviewed and is new to the history it looked up, and always ends
      ([Planning], [PlanMemory]); a reservation is given back only for work
      that is settled ([Observe]).
    - Operators: an alert is sent at most five times, at growing pauses
      ([Outbox]); walking the pages of a history shows every row once
      ([Pages]); two repositories never share a directory ([Repositories]).
    - Confinement: what the broker accepts and mounts, which addresses and
      hosts a tunnel reaches, that a ClientHello names the tunnel's host; in
      any interleaving, the gateway looks up, dials and forwards nothing it did
      not vet, a sandbox holds at most 64 tunnels, and evidence that is not
      marked incomplete is complete ([GatewayInv]); a login leaves one
      authorization ([Leases]).
    - Output: no byte of a secret is shown, captures keep exactly the ends of
      a stream, rendered text hides nothing.
    - Protocols: frames and messages round trip and reading them ends.
    - Chat: a control, retry, cancellation or withdrawal runs once, after the
      click of the operator who asked for it; a request is filed at once
      ([ChatService]).

    ** Fuel and bounds

    Recursion that is not structural runs on fuel and answers [None] when it
    is used up; every such function has a lemma that it never is.  The
    dependency search has one unit for each node on a path
    ([Dependencies.validateDependencies_total]); the readers of
    [ClientHello], [Wire] and [WebSocket] have more units than the input has
    bytes, and each turn consumes at least one; the ring buffer and the
    elision loops of [Capture] and the scans of [Regex] are bounded by the
    text.  The drain of the active tasks has one more unit than the task table
    has rows.  The loop of [Execution.execute_loop] has no bound in the code:
    [ExecutionFacts.execute_ends] shows that any fuel above the configured
    repair rounds gives the same run, and [AutoMerge.mergePass_ends] shows it of
    seventeen turns for the loop of a merge pass: eight pages, eight returns to
    the first row and one to find nothing.  [Pages.walk_complete] gives the
    pages a walk takes; the loop of [GatewayServe.splice_loop] has a round for
    each end of a direction, for the lifetime, and for each tick of the idle
    timer within it, after which both connections have been cut.  Integers are [N] or [Z]; their width is written out where the code
    can reach it ([Broker.seconds_duration], the lengths of frames, the
    counters of [StoreBudget] and [Model]).

    ** Parameters

    What the repository does not define is an argument of what uses it: the
    letter tables of Unicode ([Unicode]), full case mapping ([TextCases]), the
    classes of invisible characters ([Invisible]), [strconv.Quote], the JSON
    text whose length or fingerprint is used, [os.Stat] and [os.Lstat], the
    clock, [crypto/rand] (masks and tokens), the environment, and the outputs
    of git.  The engine's class [Runtime.World] gives the clock, fresh
    identities, the end of the service, the reads of a task that fail and the
    order of a table scan; the
    worker's class [Worker.Outside] gives the answer to each question, which
    of them panics, and what the rest of the service does in between.
    [GitOps.Machine] gives the answers of children and of the file system, and
    the environment; [GitHub.GitHubJson] and [MergeWire.MergeJson] what
    [encoding/json] decodes; [Publish] also takes the WHATWG URL parser, and
    [AutoMerge] the sequence numbers of rows and [strings.EqualFold].
    [Planning], [PlanMemory] and [Observe] take the agents' answers, the JSON of
    plans and memory, SHA-256 and the pages of the store's queries; [Outbox] and
    [Notify] SQLite's clock, the payload's JSON, the webhook's URL parser and
    the HTTP answers; [Leases.DirWorld] gives the calls of the file system that
    fail, [GatewayServe.GatewayWorld] every answer of the network and the
    clock, [GatewayServe.AddrText] [netip.ParseAddr] and [Addr.String].
    [redact] appears as an argument of the store and the plan rules, whose
    theorems hold for any redaction.

    ** Not modelled

    Sockets, files, processes, SQL text and the Docker, Slack, Discord and
    agent protocols are effects of other programs, as are git and gh
    themselves; the JSON codec
    and reflection are the standard library's.  Two goroutines never run
    between two entries of the gate in the model of the engine.  The sessions
    and workspaces of the planning roles, the tick of the scheduler and its
    housekeeping, the HTTP handlers, the exports, the remaining read-only
    queries of the store and the calls of the broker to the Docker engine are
    not modelled. *)
From Stdlib Require Export ZArith NArith Ascii String Lia.
From stdpp Require Export base tactics list strings gmap sets.

(** ** Results

    Go functions that end in an [error] return a [result]: [Ok] for a nil
    error, [Err e] otherwise. *)

Inductive result (A E : Type) : Type :=
| Ok (a : A)
| Err (e : E).
Arguments Ok {A E} a.
Arguments Err {A E} e.

#[export] Instance result_eq_dec A E `{EqDecision A, EqDecision E} :
  EqDecision (result A E).
Proof. solve_decision. Defined.

Definition result_bind {A B E} (r : result A E) (k : A -> result B E) : result B E :=
  match r with Ok a => k a | Err e => Err e end.

Definition is_ok {A E} (r : result A E) : bool :=
  match r with Ok _ => true | Err _ => false end.

Declare Scope go_scope.
Delimit Scope go_scope with go.
Open Scope go_scope.

Notation "'let!' x := r 'in' k" := (result_bind r (fun x => k))
  (at level 10, x pattern, r at level 100, k at level 200) : go_scope.
(** [guard c else e] is Go's [if !c { return e }]. *)
Notation "'guard' c 'else' e ; k" := (if c then k else Err e)
  (at level 10, c at level 100, e at level 100, k at level 200) : go_scope.

Lemma result_bind_Ok {A B E} (r : result A E) (k : A -> result B E) b :
  result_bind r k = Ok b <-> exists a, r = Ok a /\ k a = Ok b.
Proof. destruct r; naive_solver. Qed.

Lemma guard_Ok {A E} (c : bool) (e : E) (k : result A E) a :
  (if c then k else Err e) = Ok a <-> c = true /\ k = Ok a.
Proof. destruct c; naive_solver. Qed.

Lemma refuse_Ok {A E} (c : bool) (e : E) (k : result A E) a :
  (if c then Err e else k) = Ok a <-> c = false /\ k = Ok a.
Proof. destruct c; naive_solver. Qed.

(** ** Record update

    [r <| f := v |>] is Go's [r.f = v] on a copy of [r].  A record type opts
    in with an [Eta] instance (its constructor applied to its projections);
    the update function of a field is then built by [solve_field]. *)

Class Eta (R : Type) := eta : R -> R.
Class Field {R T : Type} (proj : R -> T) := modify : (T -> T) -> R -> R.
Arguments modify {R T} proj {_} u r.

Ltac solve_field :=
  match goal with
  | |- @Field ?R ?T ?p =>
      let u := fresh "u" in
      let r := fresh "r" in
      intros u r;
      let b := eval hnf in (@eta R _ r) in
      let g := eval pattern (p r) in b in
      lazymatch g with
      | ?h _ => let v := eval cbv beta in (h (u (p r))) in exact v
      end
  end.
#[export] Hint Extern 1 (@Field _ _ _) => solve_field : typeclass_instances.

Notation "r <| f := v |>" := (modify f (fun _ => v) r)
  (at level 1, f at level 9, v at level 200, left associativity) : go_scope.


(** The two laws of an update, per field, by computation on a record in
    constructor form. *)
Ltac field_law := intros; repeat match goal with r : _ |- _ => destruct r end; reflexivity.

(** ** Case analysis on the code's conditions *)

Ltac destruct_cond :=
  match goal with
  | H : context [if ?c then _ else _] |- _ => destruct c eqn:?; try done
  | |- context [if ?c then _ else _] => destruct c eqn:?; try done
  end.

Ltac bool_hyps :=
  repeat match goal with
  | H : _ && _ = true |- _ => apply andb_true_iff in H as [? ?]
  | H : _ || _ = false |- _ => apply orb_false_iff in H as [? ?]
  | H : negb _ = true |- _ => apply negb_true_iff in H
  | H : negb _ = false |- _ => apply negb_false_iff in H
  | H : bool_decide _ = true |- _ => apply bool_decide_eq_true in H
  | H : bool_decide _ = false |- _ => apply bool_decide_eq_false in H
  | H : (_ <? _)%N = true |- _ => apply N.ltb_lt in H
  | H : (_ <? _)%N = false |- _ => apply N.ltb_ge in H
  | H : (_ <=? _)%N = true |- _ => apply N.leb_le in H
  | H : (_ <=? _)%N = false |- _ => apply N.leb_gt in H
  | H : (_ =? _)%N = true |- _ => apply N.eqb_eq in H
  | H : (_ =? _)%N = false |- _ => apply N.eqb_neq in H
  end.

(** Evaluate the decisions that compare two constants. *)
Ltac eval_decides :=
  repeat match goal with
  | |- context [bool_decide (?a = ?b)] =>
      is_constructor a; is_constructor b;
      let v := eval vm_compute in (bool_decide (a = b)) in
      change (bool_decide (a = b)) with v
  end.

(** [ok_inv H] opens a hypothesis [e = Ok a] about a chain of guards. *)
Ltac ok_inv H :=
  repeat match type of H with
  | (if ?c then _ else Err _) = Ok _ => apply guard_Ok in H as [? H]
  | (if ?c then Err _ else _) = Ok _ => apply refuse_Ok in H as [? H]
  | result_bind _ _ = Ok _ => apply result_bind_Ok in H as (? & ? & H)
  | Ok _ = Ok _ => injection H as H
  | Err _ = Ok _ => discriminate H
  end.

(** ** Unsigned machine integers

    A Go [uint64] is an [N] below [2^64]; the operations that can leave that
    range wrap. *)

Definition two64 : N := 18446744073709551616.
Definition max_uint64 : N := 18446744073709551615.
Definition u64 (n : N) : N := (n mod two64)%N.
Definition u64_add (a b : N) : N := u64 (a + b).
(** Wrap-around subtraction: [a - b mod 2^64]. *)
Definition u64_sub (a b : N) : N := u64 (a + two64 - u64 b).

(** The [int64] with the same low 64 bits. *)
Definition int64 (n : Z) : Z := ((n + 9223372036854775808) mod 18446744073709551616 - 9223372036854775808)%Z.
Lemma int64_small n : (- 9223372036854775808 <= n < 9223372036854775808)%Z -> int64 n = n.
Proof. intros L. unfold int64. rewrite Z.mod_small by lia. lia. Qed.

Lemma u64_bound n : (u64 n < two64)%N.
Proof. apply N.mod_lt. done. Qed.
Lemma u64_small n : (n < two64)%N -> u64 n = n.
Proof. apply N.mod_small. Qed.
Lemma u64_add_small a b : (a + b < two64)%N -> u64_add a b = (a + b)%N.
Proof. apply u64_small. Qed.
Lemma u64_sub_small a b : (b <= a)%N -> (a < two64)%N -> u64_sub a b = (a - b)%N.
Proof.
  intros. unfold u64_sub. rewrite (u64_small b) by lia.
  replace (a + two64 - b)%N with ((a - b) + 1 * two64)%N by lia.
  unfold u64. rewrite N.Div0.mod_add. apply N.mod_small. lia.
Qed.

(** [lenN l] is Go's [uint64(len(l))]. *)
Definition lenN {A} (l : list A) : N := N.of_nat (List.length l).

(** ** Lists *)

Definition last_of {A} (l : list A) : option A := last l.

Lemma elem_of_bfilter {A} (P : A -> bool) l x :
  x ∈ List.filter P l <-> P x = true /\ x ∈ l.
Proof. rewrite !list_elem_of_In, filter_In. tauto. Qed.

Lemma bfilter_perm {A} (P : A -> bool) l l' : l ≡ₚ l' -> List.filter P l ≡ₚ List.filter P l'.
Proof.
  induction 1 as [|x l1 l2 P1 IH|x y l1|l1 l2 l3 P1 IH1 P2 IH2]; simpl;
    repeat destruct_cond; try (by constructor); try done; by etrans.
Qed.
Lemma bfilter_all {A} (P : A -> bool) l : (forall x, x ∈ l -> P x = true) -> List.filter P l = l.
Proof.
  induction l as [|x l IH]; simpl; intros H; [done|]. rewrite H by left. f_equal. apply IH. intros. apply H. by right.
Qed.
Lemma bfilter_none {A} (P : A -> bool) l : (forall x, x ∈ l -> P x = false) -> List.filter P l = [].
Proof. induction l as [|x l IH]; simpl; intros H; [done|]. rewrite H by left. apply IH. intros. apply H. by right. Qed.
Lemma bfilter_ext {A} (P Q : A -> bool) l : (forall x, x ∈ l -> P x = Q x) -> List.filter P l = List.filter Q l.
Proof. intros E. apply filter_ext_in. intros x I. by apply E, list_elem_of_In. Qed.
Lemma omap_Some {A} (l : list A) : omap id (map Some l) = l.
Proof. induction l; simpl; by f_equal. Qed.
Lemma existsb_ext {A} (P Q : A -> bool) l : (forall x, P x = Q x) -> existsb P l = existsb Q l.
Proof. intros E. induction l as [|x l IH]; simpl; [done|]. by rewrite E, IH. Qed.

Lemma lookup_map {A B} (f : A -> B) l i : map f l !! i = f <$> l !! i.
Proof. apply (list_lookup_fmap f). Qed.
Lemma elem_of_map {A B} (f : A -> B) l y : y ∈ map f l <-> exists x, f x = y /\ x ∈ l.
Proof. rewrite list_elem_of_In, in_map_iff. by setoid_rewrite <- list_elem_of_In. Qed.

Lemma prefix_lookup_eq {A} (l k : list A) i x :
  l `prefix_of` k -> l !! i = Some x -> k !! i = Some x.
Proof. intros [m ->] H. by apply lookup_app_l_Some. Qed.

(** ** Tables whose row order is observable

    An update keeps the row's place, an insert appends. *)
Fixpoint row_put {A} (id : string) (v : A) (rows : list (string * A)) : list (string * A) :=
  match rows with
  | [] => [(id, v)]
  | (k, w) :: t => if bool_decide (k = id) then (id, v) :: t else (k, w) :: row_put id v t
  end.
Fixpoint row_get {A} (id : string) (rows : list (string * A)) : option A :=
  match rows with
  | [] => None
  | (k, v) :: t => if bool_decide (k = id) then Some v else row_get id t
  end.

Lemma row_get_put {A} id (v : A) rows : row_get id (row_put id v rows) = Some v.
Proof.
  induction rows as [|[k w] t IH]; simpl; [by rewrite bool_decide_eq_true_2|].
  case_bool_decide; simpl; [by rewrite bool_decide_eq_true_2|]. by rewrite bool_decide_eq_false_2.
Qed.
Lemma row_get_put_ne {A} id id' (v : A) rows :
  id <> id' -> row_get id' (row_put id v rows) = row_get id' rows.
Proof.
  intros N. induction rows as [|[k w] t IH]; simpl; [by rewrite bool_decide_eq_false_2|].
  case_bool_decide; subst; simpl; [by rewrite !bool_decide_eq_false_2|].
  case_bool_decide; [done|apply IH].
Qed.
Lemma row_put_keys {A} id (v : A) rows :
  (row_put id v rows).*1 = if bool_decide (id ∈ rows.*1) then rows.*1 else rows.*1 ++ [id].
Proof.
  induction rows as [|[k w] t IH]; [done|]. unfold fmap in *. simpl.
  destruct (decide (k = id)) as [->|N].
  - rewrite (bool_decide_eq_true_2 (id = id)) by done. simpl.
    rewrite bool_decide_eq_true_2; [done|by left].
  - rewrite (bool_decide_eq_false_2 (k = id)) by done. simpl. rewrite IH.
    destruct (decide (id ∈ list_fmap _ _ fst t)) as [I|I].
    + rewrite !bool_decide_eq_true_2; [done|by right|done].
    + rewrite !bool_decide_eq_false_2; [done| |done].
      rewrite elem_of_cons. intros [->|?]; done.
Qed.
Lemma elem_of_row_put {A} id (v : A) rows k w :
  NoDup rows.*1 ->
  (k, w) ∈ row_put id v rows <-> (k = id /\ w = v) \/ (k <> id /\ (k, w) ∈ rows).
Proof.
  induction rows as [|[k' w'] t IH]; simpl; intros ND.
  { rewrite list_elem_of_singleton. set_solver. }
  apply NoDup_cons in ND as [NI ND].
  case_bool_decide; subst; rewrite !elem_of_cons.
  - split.
    + intros [E|E]; [left; by injection E as -> ->|right]. split; [|by right].
      intros ->. apply NI. apply list_elem_of_fmap. by exists (id, w).
    + intros [[-> ->]|[? [E|E]]]; [by left| |by right]. congruence.
  - rewrite IH by done. split.
    + intros [E|[?|[? ?]]]; [right|by left|right; auto]. injection E as -> ->. auto.
    + intros [?|[? [?|?]]]; auto.
Qed.

Lemma alter_as_insert {K V} `{Countable K} (f : V -> V) (m : gmap K V) k v :
  m !! k = Some v -> alter f k m = <[k := f v]> m.
Proof.
  intros E. apply map_eq. intros j. destruct (decide (k = j)) as [<-|N].
  - by rewrite lookup_alter_eq, lookup_insert_eq, E.
  - by rewrite lookup_alter_ne, lookup_insert_ne.
Qed.
Lemma alter_absent {K V} `{Countable K} (f : V -> V) (m : gmap K V) k :
  m !! k = None -> alter f k m = m.
Proof.
  intros E. apply map_eq. intros j. destruct (decide (k = j)) as [<-|N].
  - by rewrite lookup_alter_eq, E.
  - by rewrite lookup_alter_ne.
Qed.

(** ** Sums over tables *)

Definition map_sum {K V} `{Countable K} (f : K -> V -> N) (m : gmap K V) : N :=
  map_fold (fun k v acc => (f k v + acc)%N) 0%N m.

Section map_sum.
  Context {K V : Type} `{Countable K} (f : K -> V -> N).
  Implicit Types m : gmap K V.

Lemma map_sum_insert_None m k v :
  m !! k = None -> map_sum f (<[k := v]> m) = (f k v + map_sum f m)%N.
Proof.
  intros E. unfold map_sum. apply (map_fold_insert_L (fun k v acc => (f k v + acc)%N)); [|done].
  intros. lia.
Qed.
Lemma map_sum_delete m k v :
  m !! k = Some v -> map_sum f m = (f k v + map_sum f (delete k m))%N.
Proof.
  intros E. rewrite <- (insert_id m k v E) at 1. rewrite <- insert_delete_eq.
  apply map_sum_insert_None, lookup_delete_eq.
Qed.
Lemma map_sum_insert_Some m k v w :
  m !! k = Some w -> (map_sum f (<[k := v]> m) + f k w = f k v + map_sum f m)%N.
Proof.
  intros E. rewrite <- insert_delete_eq, map_sum_insert_None by apply lookup_delete_eq.
  rewrite (map_sum_delete m k w E). lia.
Qed.
Lemma map_sum_delete_le m k : (map_sum f (delete k m) <= map_sum f m)%N.
Proof.
  destruct (m !! k) as [v|] eqn:E; [|by rewrite delete_id].
  rewrite (map_sum_delete m k v E). lia.
Qed.
Lemma map_sum_subseteq m1 m2 : m1 ⊆ m2 -> (map_sum f m1 <= map_sum f m2)%N.
Proof.
  revert m2. induction m1 as [|k v m1 E IH] using map_ind; intros m2 S.
  { unfold map_sum at 1. rewrite map_fold_empty. lia. }
  assert (m2 !! k = Some v) as L.
  { eapply lookup_weaken; [|exact S]. apply lookup_insert_eq. }
  rewrite map_sum_insert_None, (map_sum_delete m2 k v) by done.
  apply N.add_le_mono_l, IH. apply map_subseteq_spec. intros j w Lj.
  assert (k <> j) by congruence. rewrite lookup_delete_ne by done.
  eapply lookup_weaken; [|exact S]. by rewrite lookup_insert_ne.
Qed.
End map_sum.

Lemma map_sum_ext {K V} `{Countable K} (f g : K -> V -> N) (m : gmap K V) :
  (forall k v, m !! k = Some v -> f k v = g k v) -> map_sum f m = map_sum g m.
Proof.
  induction m as [|k v m E IH] using map_ind; [done|]. intros F.
  rewrite !map_sum_insert_None by done. f_equal.
  - apply F, lookup_insert_eq.
  - apply IH. intros j w L. apply F. rewrite lookup_insert_ne; [done|]. congruence.
Qed.
