(* ===== verification/GoStrings.v ===== *)
(** * Go strings

    A Go [string] is a byte sequence; here it is a [String.string], whose
    characters are the 256 bytes.  This file models the parts of the [strings],
    [unicode], [unicode/utf8] and [strconv] packages the program uses.  Only
    the letter tables of the Unicode standard are left open: they are the
    fields of the class [Unicode]. *)
From stdpp Require Import pretty.
From S2P Require Import Prelude.

Abbreviation chars := list_ascii_of_string.
Abbreviation str := string_of_list_ascii.

Lemma str_chars s : str (chars s) = s.
Proof. apply string_of_list_ascii_of_string. Qed.
Lemma chars_str l : chars (str l) = l.
Proof. apply list_ascii_of_string_of_list_ascii. Qed.
#[export] Instance chars_inj : Inj (=) (=) chars.
Proof. intros a b E. rewrite <- (str_chars a), <- (str_chars b). by f_equal. Qed.

Lemma chars_app s t : chars (s +:+ t) = chars s ++ chars t.
Proof. induction s; simpl; [done|]. by f_equal. Qed.
Lemma string_append_assoc (a b c : string) : (a +:+ b) +:+ c = a +:+ b +:+ c.
Proof. apply (inj chars). by rewrite !chars_app, app_assoc. Qed.
Lemma length_chars s : List.length (chars s) = String.length s.
Proof. by induction s; simpl; f_equal. Qed.
Lemma length_append s t : String.length (s +:+ t) = String.length s + String.length t.
Proof. rewrite <- !length_chars. by rewrite chars_app, length_app. Qed.

(** [len(s)], the number of bytes. *)
Definition slen (s : string) : N := N.of_nat (String.length s).

Lemma slen_chars s : slen s = lenN (chars s).
Proof. unfold slen, lenN. f_equal. by induction s; simpl; f_equal. Qed.

(** ** UTF-8 ([unicode/utf8]) *)

Definition RuneError : N := 65533.

Definition in_range (lo hi n : N) : bool := ((lo <=? n) && (n <=? hi))%N.
Definition cont_byte (n : N) : bool := in_range 128 191 n.
Definition low6 (n : N) : N := N.land n 63.

(** [DecodeRune]: the first rune and the number of bytes it takes; an invalid
    encoding is [(RuneError, 1)]. *)
Definition decode_rune (l : list ascii) : N * nat :=
  match map N_of_ascii l with
  | [] => (RuneError, 0)
  | b0 :: r1 =>
    if (b0 <? 128)%N then (b0, 1) else
    if in_range 194 223 b0 then
      match r1 with
      | b1 :: _ => if cont_byte b1
                   then (N.lor (N.shiftl (N.land b0 31) 6) (low6 b1), 2)
                   else (RuneError, 1)
      | _ => (RuneError, 1)
      end else
    if in_range 224 239 b0 then
      let lo := if (b0 =? 224)%N then 160%N else 128%N in
      let hi := if (b0 =? 237)%N then 159%N else 191%N in
      match r1 with
      | b1 :: b2 :: _ =>
          if in_range lo hi b1 && cont_byte b2
          then (N.lor (N.shiftl (N.land b0 15) 12)
                      (N.lor (N.shiftl (low6 b1) 6) (low6 b2)), 3)
          else (RuneError, 1)
      | _ => (RuneError, 1)
      end else
    if in_range 240 244 b0 then
      let lo := if (b0 =? 240)%N then 144%N else 128%N in
      let hi := if (b0 =? 244)%N then 143%N else 191%N in
      match r1 with
      | b1 :: b2 :: b3 :: _ =>
          if in_range lo hi b1 && cont_byte b2 && cont_byte b3
          then (N.lor (N.shiftl (N.land b0 7) 18)
                 (N.lor (N.shiftl (low6 b1) 12)
                        (N.lor (N.shiftl (low6 b2) 6) (low6 b3))), 4)
          else (RuneError, 1)
      | _ => (RuneError, 1)
      end
    else (RuneError, 1)
  end.

(** [range s]: the runes of [s]; [skip] counts the bytes of the current rune
    still to pass over. *)
Fixpoint runes_from (skip : nat) (l : list ascii) : list N :=
  match l with
  | [] => []
  | _ :: t => match skip with
              | S k => runes_from k t
              | O => let '(r, n) := decode_rune l in r :: runes_from (pred n) t
              end
  end.
Definition runes (s : string) : list N := runes_from 0 (chars s).

(** [utf8.ValidString]. *)
Fixpoint valid_from (skip : nat) (l : list ascii) : bool :=
  match l with
  | [] => true
  | _ :: t => match skip with
              | S k => valid_from k t
              | O => let '(r, n) := decode_rune l in
                     if bool_decide (r = RuneError /\ n = 1) then false
                     else valid_from (pred n) t
              end
  end.
Definition valid_utf8 (s : string) : bool := valid_from 0 (chars s).

(** [utf8.AppendRune], for the runes the program writes. *)
Definition byte_of (n : N) : ascii := ascii_of_N (n mod 256).
Definition encode_rune (r : N) : list ascii :=
  let r := if (in_range 55296 57343 r || (1114111 <? r)%N) then RuneError else r in
  if (r <? 128)%N then [byte_of r] else
  if (r <? 2048)%N then
    [byte_of (N.lor 192 (N.shiftr r 6)); byte_of (N.lor 128 (low6 r))] else
  if (r <? 65536)%N then
    [byte_of (N.lor 224 (N.shiftr r 12)); byte_of (N.lor 128 (low6 (N.shiftr r 6)));
     byte_of (N.lor 128 (low6 r))] else
    [byte_of (N.lor 240 (N.shiftr r 18)); byte_of (N.lor 128 (low6 (N.shiftr r 12)));
     byte_of (N.lor 128 (low6 (N.shiftr r 6))); byte_of (N.lor 128 (low6 r))].

(** ** Rune classes ([unicode]) *)

(** [unicode.IsSpace]: the White_Space property. *)
Definition is_space (r : N) : bool :=
  in_range 9 13 r || (r =? 32)%N || (r =? 133)%N || (r =? 160)%N || (r =? 5760)%N ||
  in_range 8192 8202 r || (r =? 8232)%N || (r =? 8233)%N || (r =? 8239)%N ||
  (r =? 8287)%N || (r =? 12288)%N.

(** [unicode.IsControl]: C0, DEL and C1. *)
Definition is_control (r : N) : bool := (r <=? 31)%N || in_range 127 159 r.

(** The letter tables.  [to_lower] is [unicode.ToLower]; the laws are its
    documented values on ASCII. *)
Definition ascii_lower (r : N) : N := if in_range 65 90 r then (r + 32)%N else r.
Class Unicode := {
  to_lower : N -> N;
  to_lower_ascii : forall r, (r < 128)%N -> to_lower r = ascii_lower r;
  (** [unicode.In(r, Lu, Ll, Lt, Other_Uppercase, Other_Lowercase)] *)
  in_cased : N -> bool;
  in_cased_ascii : forall r, (r < 128)%N ->
    in_cased r = in_range 65 90 r || in_range 97 122 r;
  (** [unicode.In(r, Mn, Me, Cf, Lm, Sk)]; in ASCII, the circumflex and the
      grave accent *)
  in_ignorable : N -> bool;
  in_ignorable_ascii : forall r, (r < 128)%N ->
    in_ignorable r = (r =? 94)%N || (r =? 96)%N;
}.

(** The instance in which only ASCII letters have a lower case. *)
#[export] Instance ascii_unicode : Unicode | 100.
Proof.
  by refine {| to_lower := ascii_lower;
               in_cased := fun r => in_range 65 90 r || in_range 97 122 r;
               in_ignorable := fun r => (r =? 94)%N || (r =? 96)%N |}.
Defined.

(** ** [strings] *)

Definition lower_char (c : ascii) : ascii := ascii_of_N (ascii_lower (N_of_ascii c)).
Definition is_ascii (c : ascii) : bool := (N_of_ascii c <? 128)%N.

(** [strings.ToLower]: byte by byte on ASCII text, rune by rune otherwise. *)
Definition ToLower `{Unicode} (s : string) : string :=
  if forallb is_ascii (chars s) then str (map lower_char (chars s))
  else str (flat_map (fun r => encode_rune (to_lower r)) (runes s)).

Definition HasPrefix (s p : string) : bool := bool_decide (chars p `prefix_of` chars s).
Definition HasSuffix (s p : string) : bool := bool_decide (chars p `suffix_of` chars s).

Definition TrimPrefix (s p : string) : string :=
  if HasPrefix s p then str (drop (List.length (chars p)) (chars s)) else s.
Definition TrimSuffix (s p : string) : string :=
  if HasSuffix s p then str (take (List.length (chars s) - List.length (chars p)) (chars s)) else s.
Definition CutPrefix (s p : string) : string * bool := (TrimPrefix s p, HasPrefix s p).

Fixpoint contains_chars (sub l : list ascii) : bool :=
  bool_decide (sub `prefix_of` l) ||
  match l with [] => false | _ :: t => contains_chars sub t end.
(** [strings.Contains(s, sub)]. *)
Definition Contains (s sub : string) : bool := contains_chars (chars sub) (chars s).
(** [strings.ContainsFunc]. *)
Definition ContainsFunc (s : string) (f : N -> bool) : bool := existsb f (runes s).
(** [strings.ContainsAny(s, set)] and [strings.ContainsRune(set, c)] for an
    ASCII [set]. *)
Definition char_in (c : ascii) (set : string) : bool := bool_decide (c ∈ chars set).
Definition ContainsAny (s set : string) : bool := existsb (fun c => char_in c set) (chars s).

(** [strings.Split(s, sep)] for a one-byte separator. *)
Fixpoint split_chars (f : ascii -> bool) (l : list ascii) : list (list ascii) :=
  match l with
  | [] => [[]]
  | c :: t => if f c then [] :: split_chars f t
              else match split_chars f t with
                   | h :: r => (c :: h) :: r
                   | [] => [[c]]
                   end
  end.
Definition is_char (a c : ascii) : bool := bool_decide (a = c).
Definition Split (s : string) (sep : ascii) : list string :=
  map str (split_chars (is_char sep) (chars s)).
(** [strings.SplitN(s, sep, 3)] for a one-byte separator. *)
Definition join_chars (sep : ascii) (ls : list (list ascii)) : list ascii :=
  match ls with [] => [] | h :: t => h ++ flat_map (fun x => sep :: x) t end.
Definition Split3 (s : string) (sep : ascii) : list string :=
  match split_chars (is_char sep) (chars s) with
  | a :: b :: rest => match rest with
                      | [] => [str a; str b]
                      | _ => [str a; str b; str (join_chars sep rest)]
                      end
  | l => map str l
  end.
(** [strings.Cut(s, sep)] for a one-byte separator. *)
Fixpoint cut_chars (sep : ascii) (l : list ascii) : option (list ascii * list ascii) :=
  match l with
  | [] => None
  | c :: t => if is_char sep c then Some ([], t)
              else match cut_chars sep t with
                   | Some (a, b) => Some (c :: a, b)
                   | None => None
                   end
  end.
Definition Cut (s : string) (sep : ascii) : string * string * bool :=
  match cut_chars sep (chars s) with
  | Some (a, b) => (str a, str b, true)
  | None => (s, ""%string, false)
  end.
(** [strings.FieldsFunc(s, f)] for an ASCII predicate. *)
Definition FieldsFunc (f : ascii -> bool) (s : string) : list string :=
  map str (List.filter (fun l => match l with [] => false | _ => true end) (split_chars f (chars s))).
(** [strings.Join]. *)
Fixpoint Join (ls : list string) (sep : string) : string :=
  match ls with
  | [] => ""%string
  | [h] => h
  | h :: t => (h +:+ sep +:+ Join t sep)
  end.

(** [strings.Trim(s, set)] for an ASCII [set]. *)
Fixpoint drop_set (set : string) (l : list ascii) : list ascii :=
  match l with
  | [] => []
  | c :: t => if char_in c set then drop_set set t else l
  end.
Definition Trim (s set : string) : string :=
  str (rev (drop_set set (rev (drop_set set (chars s))))).

(** [strings.TrimSpace].  White space is one, two or three bytes long in
    UTF-8; [space_at] recognises a whole encoded space. *)
Definition space_at (l : list ascii) : bool :=
  let '(r, n) := decode_rune l in (n =? List.length l)%nat && is_space r.
Fixpoint trim_left (l : list ascii) : list ascii :=
  match l with
  | [] => []
  | c1 :: t1 =>
    if space_at [c1] then trim_left t1 else
    match t1 with
    | [] => l
    | c2 :: t2 =>
      if space_at [c1; c2] then trim_left t2 else
      match t2 with
      | [] => l
      | c3 :: t3 => if space_at [c1; c2; c3] then trim_left t3 else l
      end
    end
  end.
(** The same from the end: the argument is the reversed text. *)
Fixpoint trim_right_rev (l : list ascii) : list ascii :=
  match l with
  | [] => []
  | c1 :: t1 =>
    if space_at [c1] then trim_right_rev t1 else
    match t1 with
    | [] => l
    | c2 :: t2 =>
      if space_at [c2; c1] then trim_right_rev t2 else
      match t2 with
      | [] => l
      | c3 :: t3 => if space_at [c3; c2; c1] then trim_right_rev t3 else l
      end
    end
  end.
Definition TrimSpace (s : string) : string :=
  str (rev (trim_right_rev (rev (trim_left (chars s))))).
(** [strings.TrimSpace(s) == ""]. *)
Definition blank (s : string) : bool := bool_decide (TrimSpace s = ""%string).

(** [slices.Sorted] on strings: byte-wise order. *)
Fixpoint insert_string (x : string) (l : list string) : list string :=
  match l with
  | [] => [x]
  | y :: t => if String.leb x y then x :: l else y :: insert_string x t
  end.
Definition sort_strings (l : list string) : list string := foldr insert_string [] l.

Lemma elem_of_insert_string x y l : y ∈ insert_string x l <-> y = x \/ y ∈ l.
Proof. induction l; simpl; [|destruct (String.leb _ _)]; set_solver. Qed.
Lemma elem_of_sort_strings x l : x ∈ sort_strings l <-> x ∈ l.
Proof.
  induction l as [|a l IH]; simpl; [done|].
  rewrite elem_of_insert_string, IH. set_solver.
Qed.

(** ** [strconv] and [fmt] on integers *)

(** [%d] of an unsigned integer. *)
Definition FormatUint (n : N) : string := pretty n.


Definition digit_of (c : ascii) : option N :=
  let n := N_of_ascii c in if in_range 48 57 n then Some (n - 48)%N else None.
Fixpoint parse_digits (acc : N) (l : list ascii) : option N :=
  match l with
  | [] => Some acc
  | c :: t => match digit_of c with
              | Some d => parse_digits (acc * 10 + d)%N t
              | None => None
              end
  end.
(** [strconv.ParseUint(s, 10, bits)]; [None] is a syntax or range error. *)
Definition ParseUint (s : string) (bits : N) : option N :=
  match chars s with
  | [] => None
  | l => match parse_digits 0 l with
         | Some n => if (n <? 2 ^ bits)%N then Some n else None
         | None => None
         end
  end.

Example trim_ok : TrimSpace (" a b" +:+ str [ascii_of_N 194; ascii_of_N 160; ascii_of_N 9]) = "a b"%string.
Proof. reflexivity. Qed.
Example lower_ok : ToLower "AbC.x" = "abc.x"%string.
Proof. reflexivity. Qed.
Example split_ok : Split "a/b//" "/"%char = ["a"; "b"; ""; ""]%string.
Proof. reflexivity. Qed.
Example parse_ok : ParseUint "65535" 16 = Some 65535%N /\ ParseUint "65536" 16 = None.
Proof. split; reflexivity. Qed.

(** ** Splitting *)

Lemma split_chars_nonempty f l : split_chars f l <> [].
Proof. destruct l as [|c l]; simpl; [done|]. destruct (f c); [done|]. by destruct (split_chars f l). Qed.

(** ** The digits of a number *)

Local Open Scope N_scope.

Definition is_digit (c : ascii) : bool := in_range 48 57 (N_of_ascii c).
Lemma pretty_digit x : is_digit (pretty.pretty_N_char x) = true.
Proof. unfold is_digit, pretty.pretty_N_char. by repeat case_match. Qed.
Lemma pretty_go_digits k x s :
  x < 10 ^ N.of_nat k ->
  exists l, chars (pretty.pretty_N_go x s) = l ++ chars s /\ forallb is_digit l = true /\ (List.length l <= k)%nat.
Proof.
  revert x s. induction k as [|k IH]; intros x s L.
  { replace x with 0 by (simpl in L; lia). rewrite pretty.pretty_N_go_0. by exists []. }
  destruct (N.eq_dec x 0) as [->|N]; [rewrite pretty.pretty_N_go_0; exists []; simpl; split_and!; [done|done|lia]|].
  rewrite pretty.pretty_N_go_step by lia.
  destruct (IH (x / 10) (String (pretty.pretty_N_char (x mod 10)) s)) as (l & E & D & B).
  { apply N.Div0.div_lt_upper_bound. rewrite Nat2N.inj_succ, N.pow_succ_r' in L. lia. }
  exists (l ++ [pretty.pretty_N_char (x mod 10)]). rewrite E, <- app_assoc. split_and!; [done| |rewrite length_app; simpl; lia].
  rewrite forallb_app, D. simpl. by rewrite pretty_digit.
Qed.
Lemma FormatUint_digits k x :
  x < 10 ^ N.of_nat (S k) ->
  forallb is_digit (chars (FormatUint x)) = true /\ (List.length (chars (FormatUint x)) <= S k)%nat
  /\ chars (FormatUint x) <> [].
Proof.
  intros L. unfold FormatUint, pretty, pretty.pretty_N. case_decide as Z; [simpl; split_and!; [done|lia|done]|].
  rewrite pretty.pretty_N_go_step by lia.
  destruct (pretty_go_digits k (x / 10) (String (pretty.pretty_N_char (x mod 10)) "")) as (l & -> & D & B).
  { apply N.Div0.div_lt_upper_bound. rewrite Nat2N.inj_succ, N.pow_succ_r' in L. lia. }
  rewrite forallb_app, D, length_app. simpl. rewrite pretty_digit. split_and!; [done|lia|by destruct l].
Qed.
