(* ===== verification/Utf8.v ===== *)
(** * UTF-8 round trip

    Encoding a rune and decoding it gives the rune back, and every rune that
    [range] produces can be encoded: the facts behind the truncations that
    count characters. *)
From Stdlib Require Import ZifyN.
From S2P Require Import Prelude GoStrings.
Local Open Scope list_scope.
Local Open Scope N_scope.

(** The runes UTF-8 can encode: Unicode's scalar values. *)
Definition scalar (r : N) : Prop := r <= 1114111 /\ ~ (55296 <= r <= 57343).
Definition encode_runes (rs : list N) : string := str (flat_map encode_rune rs).

(** ** Bits as arithmetic *)

Lemma in_range_spec lo hi n : in_range lo hi n = true <-> lo <= n <= hi.
Proof. unfold in_range. rewrite andb_true_iff, !N.leb_le. done. Qed.
Lemma low6_mod n : low6 n = n mod 64.
Proof. unfold low6. change 63 with (N.ones 6). by rewrite N.land_ones. Qed.
Lemma lor_shift k x y : y < 2 ^ k -> N.lor (N.shiftl x k) y = x * 2 ^ k + y.
Proof.
  intros L. rewrite <- N.lxor_lor, <- N.add_nocarry_lxor, N.shiftl_mul_pow2; [done| |];
    apply N.bits_inj_0; intros n; rewrite N.land_spec;
    (destruct (N.lt_ge_cases n k) as [A|A]; [by rewrite N.shiftl_spec_low|]);
    apply andb_false_iff; right; (destruct (N.eq_dec y 0) as [->|?]; [apply N.bits_0|]);
    apply N.bits_above_log2, N.log2_lt_pow2; try lia;
    (eapply N.lt_le_trans; [exact L|]; by apply N.pow_le_mono_r).
Qed.
(** A tag in the high bits: [N.lor tag x] is [tag + x]. *)
Lemma lor_tag k t x : x < 2 ^ k -> N.lor (t * 2 ^ k) x = t * 2 ^ k + x.
Proof. intros L. rewrite <- (lor_shift k t x) by done. by rewrite N.shiftl_mul_pow2. Qed.
Lemma lor128 x : x < 64 -> N.lor 128 x = 128 + x.
Proof. exact (lor_tag 6 2 x). Qed.
Lemma lor192 x : x < 32 -> N.lor 192 x = 192 + x.
Proof. exact (lor_tag 5 6 x). Qed.
Lemma lor224 x : x < 16 -> N.lor 224 x = 224 + x.
Proof. exact (lor_tag 4 14 x). Qed.
Lemma lor240 x : x < 8 -> N.lor 240 x = 240 + x.
Proof. exact (lor_tag 3 30 x). Qed.
Lemma land31 n : N.land n 31 = n mod 32.
Proof. exact (N.land_ones n 5). Qed.
Lemma land15 n : N.land n 15 = n mod 16.
Proof. exact (N.land_ones n 4). Qed.
Lemma land7 n : N.land n 7 = n mod 8.
Proof. exact (N.land_ones n 3). Qed.
Lemma join2 a b : N.lor (N.shiftl a 6) (b mod 64) = a * 64 + b mod 64.
Proof. apply (lor_shift 6). by apply N.mod_lt. Qed.
Lemma join3 a b : b < 4096 -> N.lor (N.shiftl a 12) b = a * 4096 + b.
Proof. apply (lor_shift 12). Qed.
Lemma join4 a b : b < 262144 -> N.lor (N.shiftl a 18) b = a * 262144 + b.
Proof. apply (lor_shift 18). Qed.
Lemma byte_of_val n : n < 256 -> N_of_ascii (byte_of n) = n.
Proof. intros L. unfold byte_of. rewrite N.mod_small by done. by apply N_ascii_embedding. Qed.

Ltac div_lia := zify; Z.to_euclidean_division_equations; lia.
Ltac in_ranges :=
  repeat match goal with
  | |- context [in_range ?lo ?hi ?n] =>
      first [ replace (in_range lo hi n) with true by (symmetry; apply in_range_spec; div_lia)
            | replace (in_range lo hi n) with false by (symmetry; apply not_true_iff_false; rewrite in_range_spec; div_lia) ]
  end.

(** Decoding what was encoded, whatever follows. *)
Lemma decode_encode r rest :
  scalar r -> decode_rune (encode_rune r ++ rest) = (r, List.length (encode_rune r)).
Proof.
  intros [M S]. unfold encode_rune.
  replace (in_range 55296 57343 r || (1114111 <? r)) with false
    by (symmetry; rewrite orb_false_iff, N.ltb_ge, <- not_true_iff_false, in_range_spec; lia).
  rewrite !low6_mod, !N.shiftr_div_pow2. change (2^6) with 64. change (2^12) with 4096. change (2^18) with 262144.
  destruct (N.ltb_spec r 128) as [A|A]; [|destruct (N.ltb_spec r 2048) as [B|B]; [|destruct (N.ltb_spec r 65536) as [C|C]]].
  - unfold decode_rune. simpl map. rewrite byte_of_val by lia. by apply N.ltb_lt in A as ->.
  - rewrite lor192, lor128 by div_lia. unfold decode_rune, cont_byte. simpl map. rewrite !byte_of_val by div_lia.
    replace (_ <? 128) with false by (symmetry; apply N.ltb_ge; div_lia). in_ranges.
    rewrite low6_mod, land31, join2. simpl. f_equal. div_lia.
  - rewrite lor224, !lor128 by div_lia. unfold decode_rune, cont_byte. simpl map. rewrite !byte_of_val by div_lia.
    replace (_ <? 128) with false by (symmetry; apply N.ltb_ge; div_lia).
    destruct (N.eqb_spec (224 + r / 4096) 224), (N.eqb_spec (224 + r / 4096) 237); [exfalso; lia|..]; in_ranges;
      rewrite !low6_mod, land15, join2, join3 by div_lia; simpl; f_equal; div_lia.
  - rewrite lor240, !lor128 by div_lia. unfold decode_rune, cont_byte. simpl map. rewrite !byte_of_val by div_lia.
    replace (_ <? 128) with false by (symmetry; apply N.ltb_ge; div_lia).
    destruct (N.eqb_spec (240 + r / 262144) 240), (N.eqb_spec (240 + r / 262144) 244); [exfalso; lia|..]; in_ranges;
      rewrite !low6_mod, land7, join2, join3, join4 by div_lia; simpl; f_equal; div_lia.
Qed.

(** What decoding produces can be encoded. *)
Lemma decode_scalar l : scalar (fst (decode_rune l)).
Proof.
  assert (scalar RuneError) as E by (unfold scalar, RuneError; lia).
  unfold decode_rune, cont_byte. destruct (map N_of_ascii l) as [|b0 r1]; [done|].
  destruct (N.ltb_spec b0 128); [unfold scalar; simpl; lia|].
  destruct (in_range 194 223 b0) eqn:R2; [|destruct (in_range 224 239 b0) eqn:R3; [|destruct (in_range 240 244 b0) eqn:R4; [|done]]].
  - apply in_range_spec in R2. destruct r1 as [|b1 r2]; [done|].
    destruct (in_range 128 191 b1); [|done]. simpl. rewrite low6_mod, land31, join2. unfold scalar. div_lia.
  - apply in_range_spec in R3. destruct r1 as [|b1 [|b2 r3]]; [done|done|].
    destruct (in_range _ _ b1 && _) eqn:C; [|done]. apply andb_true_iff in C as [C _]. apply in_range_spec in C.
    simpl. rewrite !low6_mod, land15, join2, join3 by div_lia. unfold scalar.
    destruct (N.eqb_spec b0 224), (N.eqb_spec b0 237); div_lia.
  - apply in_range_spec in R4. destruct r1 as [|b1 [|b2 [|b3 r4]]]; [done|done|done|].
    destruct (_ && _) eqn:C; [|done]. rewrite <- andb_assoc in C. apply andb_true_iff in C as [C _]. apply in_range_spec in C.
    simpl. rewrite !low6_mod, land7, join2, join3, join4 by div_lia. unfold scalar.
    destruct (N.eqb_spec b0 240), (N.eqb_spec b0 244); div_lia.
Qed.

Lemma byte_of_ascii c : byte_of (N_of_ascii c) = c.
Proof. unfold byte_of. rewrite N.mod_small by apply N_ascii_bounded. apply ascii_N_embedding. Qed.
Lemma split_at m a b : b < m -> (a * m + b) / m = a /\ (a * m + b) mod m = b.
Proof. intros L. rewrite N.add_comm, N.Div0.mod_add, N.div_add, N.div_small, N.mod_small by lia. lia. Qed.
(** The digits of a number in base 64. *)
Lemma base64_digits a b c d : b < 64 -> c < 64 -> d < 64 ->
  let x := a * 262144 + (b * 4096 + (c * 64 + d)) in
  x / 262144 = a /\ x / 4096 mod 64 = b /\ x / 64 mod 64 = c /\ x mod 64 = d.
Proof.
  intros B C D x. subst x.
  destruct (split_at 262144 a (b * 4096 + (c * 64 + d)) ltac:(lia)) as [E1 _].
  destruct (split_at 4096 (a * 64 + b) (c * 64 + d) ltac:(lia)) as [E2 _].
  destruct (split_at 64 ((a * 64 + b) * 64 + c) d ltac:(lia)) as [E3 E4].
  destruct (split_at 64 a b B) as [_ E5]. destruct (split_at 64 (a * 64 + b) c C) as [_ E6].
  replace (a * 262144 + (b * 4096 + (c * 64 + d))) with ((a * 64 + b) * 4096 + (c * 64 + d)) at 2 by lia.
  replace (a * 262144 + (b * 4096 + (c * 64 + d))) with (((a * 64 + b) * 64 + c) * 64 + d) at 2 3 by lia.
  by rewrite E1, E2, E3, E4, E5, E6.
Qed.
(** A continuation byte. *)
Lemma cont_mod c : 128 <= c <= 191 -> c mod 64 = c - 128.
Proof. intros L. replace c with (2 * 64 + (c - 128)) at 1 by lia. apply (split_at 64). lia. Qed.
(** A rune that decodes was encoded in the bytes it takes. *)
Lemma encode_decode l r n :
  decode_rune l = (r, n) -> l <> [] -> ~ (r = RuneError /\ n = 1%nat) -> encode_rune r = take n l.
Proof.
  intros E NE V. pose proof (decode_scalar l) as [M S]. rewrite E in M, S. simpl in M, S. revert E. unfold decode_rune, cont_byte.
  assert (forall x c, x = N_of_ascii c -> byte_of x = c) as B by (intros x c ->; apply byte_of_ascii).
  unfold encode_rune. replace (in_range 55296 57343 r || (1114111 <? r)) with false
    by (symmetry; rewrite orb_false_iff, N.ltb_ge, <- not_true_iff_false, in_range_spec; lia).
  assert (forall c, N_of_ascii c < 256) as LB by apply N_ascii_bounded.
  destruct l as [|c0 l]; [done|]. cbn [map]. pose proof (LB c0).
  destruct (N.ltb_spec (N_of_ascii c0) 128) as [A|A].
  { intros [= <- <-]. apply N.ltb_lt in A as ->. cbn [take]. by rewrite byte_of_ascii. }
  destruct (in_range 194 223 _) eqn:R2; [|destruct (in_range 224 239 _) eqn:R3; [|destruct (in_range 240 244 _) eqn:R4]];
    [| | |by intros [= <- <-]; destruct V].
  - apply in_range_spec in R2. destruct l as [|c1 l]; [by intros [= <- <-]; destruct V|]. cbn [map].
    destruct (in_range 128 191 _) eqn:C1; [|by intros [= <- <-]; destruct V]. apply in_range_spec in C1.
    rewrite low6_mod, land31, join2. intros [= <- <-]. cbn [take].
    destruct (N.ltb_spec (N_of_ascii c0 mod 32 * 64 + N_of_ascii c1 mod 64) 128); [div_lia|].
    destruct (N.ltb_spec (N_of_ascii c0 mod 32 * 64 + N_of_ascii c1 mod 64) 2048); [|div_lia].
    rewrite ?low6_mod, !N.shiftr_div_pow2. change (2^6) with 64. rewrite lor192, lor128 by div_lia. f_equal; [|f_equal]; apply B; div_lia.
  - apply in_range_spec in R3. destruct l as [|c1 [|c2 l]]; [by intros [= <- <-]; destruct V..|]. cbn [map].
    destruct (in_range _ _ (N_of_ascii c1) && _) eqn:C; [|by intros [= <- <-]; destruct V].
    apply andb_true_iff in C as [C1 C2]. apply in_range_spec in C1, C2.
    rewrite !low6_mod, land15, join2, join3 by div_lia.
    set (x := N_of_ascii c0 mod 16 * 4096 + (N_of_ascii c1 mod 64 * 64 + N_of_ascii c2 mod 64)). intros [= <- <-]. cbn [take].
    assert (128 <= N_of_ascii c1 <= 191) as B1 by (repeat destruct_cond; lia).
    assert (N_of_ascii c0 mod 16 = N_of_ascii c0 - 224) as B0
      by (replace (N_of_ascii c0) with (14 * 16 + (N_of_ascii c0 - 224)) at 1 by lia; apply (split_at 16); lia).
    assert (2048 <= x < 65536 /\ x / 4096 = N_of_ascii c0 - 224 /\ x / 64 mod 64 = N_of_ascii c1 - 128 /\ x mod 64 = N_of_ascii c2 - 128) as (X & X1 & X2 & X3).
    { subst x. rewrite B0, !cont_mod by lia.
      destruct (base64_digits 0 (N_of_ascii c0 - 224) (N_of_ascii c1 - 128) (N_of_ascii c2 - 128)) as (_ & E1 & E2 & E3); [lia..|].
      rewrite N.mul_0_l, N.add_0_l in E1, E2, E3. split_and!; [| | |done|done].
      - destruct (N.eqb_spec (N_of_ascii c0) 224); lia.
      - lia.
      - rewrite N.mod_small in E1; [done|]. apply N.Div0.div_lt_upper_bound. lia. }
    clearbody x. destruct (N.ltb_spec x 128); [lia|]. destruct (N.ltb_spec x 2048); [lia|]. destruct (N.ltb_spec x 65536); [|lia].
    rewrite ?low6_mod, !N.shiftr_div_pow2. change (2^6) with 64. change (2^12) with 4096. rewrite X1, X2, X3.
    assert (128 <= N_of_ascii c1 < 192) by (repeat destruct_cond; lia).
    rewrite lor224, !lor128 by lia. f_equal; [|f_equal; [|f_equal]]; apply B; lia.
  - apply in_range_spec in R4. destruct l as [|c1 [|c2 [|c3 l]]]; [by intros [= <- <-]; destruct V..|]. cbn [map].
    destruct (in_range _ _ (N_of_ascii c1) && _ && _) eqn:C; [|by intros [= <- <-]; destruct V].
    apply andb_true_iff in C as [C C3]. apply andb_true_iff in C as [C1 C2]. apply in_range_spec in C1, C2, C3.
    rewrite !low6_mod, land7, join2, join3, join4 by div_lia.
    set (x := N_of_ascii c0 mod 8 * 262144 + (N_of_ascii c1 mod 64 * 4096 + (N_of_ascii c2 mod 64 * 64 + N_of_ascii c3 mod 64))).
    intros [= <- <-]. cbn [take].
    assert (128 <= N_of_ascii c1 <= 191) as B1 by (repeat destruct_cond; lia).
    assert (N_of_ascii c0 mod 8 = N_of_ascii c0 - 240) as B0
      by (replace (N_of_ascii c0) with (30 * 8 + (N_of_ascii c0 - 240)) at 1 by lia; apply (split_at 8); lia).
    assert (65536 <= x /\ x / 262144 = N_of_ascii c0 - 240 /\ x / 4096 mod 64 = N_of_ascii c1 - 128
            /\ x / 64 mod 64 = N_of_ascii c2 - 128 /\ x mod 64 = N_of_ascii c3 - 128) as (X & X0 & X1 & X2 & X3).
    { subst x. rewrite B0, !cont_mod by lia. split; [destruct (N.eqb_spec (N_of_ascii c0) 240); lia|].
      apply base64_digits; lia. }
    clearbody x. destruct (N.ltb_spec x 128); [lia|]. destruct (N.ltb_spec x 2048); [lia|]. destruct (N.ltb_spec x 65536); [lia|].
    rewrite ?low6_mod, !N.shiftr_div_pow2. change (2^6) with 64. change (2^12) with 4096. change (2^18) with 262144. rewrite X0, X1, X2, X3.
    assert (128 <= N_of_ascii c1 < 192) by (repeat destruct_cond; lia).
    rewrite lor240, !lor128 by lia. f_equal; [|f_equal; [|f_equal; [|f_equal]]]; apply B; lia.
Qed.
Lemma decode_valid_app l r n rest :
  decode_rune l = (r, n) -> l <> [] -> ~ (r = RuneError /\ n = 1%nat) ->
  decode_rune (take n l ++ rest) = (r, List.length (take n l)).
Proof.
  intros E NE V. rewrite <- (encode_decode l r n) by done. apply decode_encode.
  pose proof (decode_scalar l) as S. by rewrite E in S.
Qed.

(** ** Strings of runes *)

Lemma runes_scalar s : Forall scalar (runes s).
Proof.
  unfold runes. generalize 0%nat. induction (chars s) as [|c l IH]; intros skip; [constructor|].
  cbn [runes_from]. destruct skip; [|apply IH]. pose proof (decode_scalar (c :: l)) as D.
  destruct (decode_rune (c :: l)). by constructor.
Qed.
Lemma runes_from_skip a rest : runes_from (List.length a) (a ++ rest) = runes_from 0 rest.
Proof. induction a; done. Qed.
Lemma encode_rune_cons r : exists c t, encode_rune r = c :: t.
Proof. unfold encode_rune. repeat destruct_cond; eauto. Qed.
Lemma runes_encode_from rs : Forall scalar rs -> runes_from 0 (flat_map encode_rune rs) = rs.
Proof.
  induction 1 as [|r rs S _ IH]; [done|]. cbn [flat_map].
  pose proof (decode_encode r (flat_map encode_rune rs) S) as D.
  destruct (encode_rune_cons r) as (c & t & E). rewrite E in *. cbn [runes_from app].
  cbn [app] in D. rewrite D. f_equal. cbn [List.length pred]. rewrite runes_from_skip. done.
Qed.
Lemma runes_encode rs : Forall scalar rs -> runes (encode_runes rs) = rs.
Proof. intros S. unfold runes, encode_runes. rewrite chars_str. by apply runes_encode_from. Qed.
