(* ===== verification/WireJson.v ===== *)
(** * Wire enumerations and string validation ([internal/wirejson])

    [EnumName], [EnumText] and [ParseEnum] are the three generic functions
    behind every enumeration of the program; the class [WireEnum] is what an
    enumeration type provides to them, and the round trip is proved once
    against that interface.  [ValidStrings] is the scan that refuses malformed
    Unicode in JSON text. *)
From S2P Require Import Prelude GoStrings.

(** ** Enumerations ([wirejson/json.go]) *)

Inductive EnumError :=
| InvalidEnumValue (value : N)
| InvalidEnumText (text : string) (names : list string).

(** The name table is indexed by the [uint8] value. *)
Definition EnumName (value : N) (names : list string) : string :=
  if (lenN names <=? value)%N then "" else names !!! N.to_nat value.

Definition EnumText (value : N) (names : list string) : result string EnumError :=
  let name := EnumName value names in
  if bool_decide (name = ""%string) then Err (InvalidEnumValue value) else Ok name.

(** The loop over [names], at index [i]; [T(i)] converts to [uint8]. *)
Fixpoint parse_enum_from (i : N) (text : string) (names : list string) : option N :=
  match names with
  | [] => None
  | allowed :: rest =>
      if bool_decide (text = allowed) then Some (i mod 256)%N
      else parse_enum_from (i + 1)%N text rest
  end.
Definition ParseEnum (text : string) (names : list string) : result N EnumError :=
  match parse_enum_from 0 text names with
  | Some v => Ok v
  | None => Err (InvalidEnumText text names)
  end.

(** What an enumeration declares: its constants in order and their names. *)
Class WireEnum (A : Type) := {
  enum_all : list A;
  enum_code : A -> N;
  enum_names : list string;
  enum_all_code : forall a, enum_all !! N.to_nat (enum_code a) = Some a;
  enum_code_all : map enum_code enum_all = map N.of_nat (seq 0 (List.length enum_all));
  enum_names_length : List.length enum_names = List.length enum_all;
  enum_names_nodup : NoDup enum_names;
  enum_names_nonempty : ""%string ∉ enum_names;
  enum_small : (lenN enum_names <= 256)%N;
}.

Ltac solve_wire_enum all code names :=
  refine {| enum_all := all; enum_code := code; enum_names := names |};
  [ by intros []
  | reflexivity
  | reflexivity
  | apply (bool_decide_unpack _); vm_compute; exact I
  | apply (bool_decide_unpack _); vm_compute; exact I
  | done ].

Section enums.
Context `{WireEnum A}.
Implicit Types a : A.

Definition enum_String a : string := EnumName (enum_code a) enum_names.
Definition enum_MarshalText a : result string EnumError := EnumText (enum_code a) enum_names.
Definition enum_UnmarshalText (text : string) : result A EnumError :=
  match ParseEnum text enum_names with
  | Ok v => match enum_all !! N.to_nat v with
            | Some a => Ok a
            | None => Err (InvalidEnumValue v)
            end
  | Err e => Err e
  end.

Lemma enum_code_lt a : (enum_code a < lenN enum_names)%N.
Proof.
  pose proof (enum_all_code a) as E. apply lookup_lt_Some in E.
  unfold lenN. rewrite enum_names_length. lia.
Qed.

Lemma enum_code_lookup i a : enum_all !! i = Some a -> enum_code a = N.of_nat i.
Proof.
  intros E. assert (map enum_code enum_all !! i = Some (enum_code a)) as F.
  { by rewrite list_lookup_fmap, E. }
  rewrite enum_code_all, list_lookup_fmap in F.
  apply lookup_lt_Some in E. rewrite lookup_seq_lt in F by done. by simplify_eq/=.
Qed.

Lemma enum_name_lookup a : enum_names !! N.to_nat (enum_code a) = Some (enum_String a).
Proof.
  pose proof (enum_code_lt a) as L. unfold enum_String, EnumName.
  destruct (lookup_lt_is_Some_2 enum_names (N.to_nat (enum_code a))) as [x E];
    [unfold lenN in L; lia|].
  destruct (N.leb_spec (lenN enum_names) (enum_code a)); [lia|].
  by rewrite (list_lookup_total_correct _ _ _ E).
Qed.

Lemma enum_MarshalText_String a : enum_MarshalText a = Ok (enum_String a).
Proof.
  unfold enum_MarshalText, EnumText. fold (enum_String a).
  case_bool_decide as E; [|done].
  pose proof (enum_name_lookup a) as L. rewrite E in L.
  by apply list_elem_of_lookup_2, enum_names_nonempty in L.
Qed.

Lemma parse_enum_from_Some i text names v :
  (i + lenN names <= 256)%N -> NoDup names ->
  parse_enum_from i text names = Some v <->
  exists k, names !! k = Some text /\ v = (i + N.of_nat k)%N.
Proof.
  unfold lenN. revert i. induction names as [|n names IH]; intros i L ND; simpl.
  { split; [done|]. by intros (? & ? & _). }
  apply NoDup_cons in ND as [Hn ND]. simpl in L. case_bool_decide as E; subst.
  - split; [intros [= <-]; exists 0; split; [done|]; rewrite N.mod_small; lia|].
    intros ([|k] & Hk & ->); simpl in Hk.
    + rewrite N.mod_small by lia. f_equal. lia.
    + by apply list_elem_of_lookup_2 in Hk.
  - rewrite IH by (done || lia). split.
    + intros (k & Hk & ->). exists (S k). split; [done|lia].
    + intros ([|k] & Hk & ->); simpl in Hk; [congruence|].
      exists k. split; [done|lia].
Qed.

(** Decoding accepts exactly the declared names, each for its own value. *)
Lemma enum_UnmarshalText_Ok text a :
  enum_UnmarshalText text = Ok a <-> text = enum_String a.
Proof.
  unfold enum_UnmarshalText, ParseEnum.
  pose proof enum_small as SM. pose proof enum_names_nodup as ND.
  destruct (parse_enum_from 0 text enum_names) as [v|] eqn:E.
  - apply parse_enum_from_Some in E as (k & Hk & ->); [|lia|done].
    rewrite N.add_0_l, Nat2N.id. split.
    + destruct (enum_all !! k) as [b|] eqn:F; [|done]. intros [= <-].
      pose proof (enum_name_lookup b) as G.
      rewrite (enum_code_lookup _ _ F), Nat2N.id in G. congruence.
    + intros ->. pose proof (enum_name_lookup a) as G.
      rewrite (NoDup_lookup _ _ _ _ ND Hk G), enum_all_code. done.
  - split; [done|]. intros ->. exfalso.
    assert (parse_enum_from 0 (enum_String a) enum_names = Some (0 + N.of_nat (N.to_nat (enum_code a)))%N).
    { apply parse_enum_from_Some; [lia|done|]. eexists. split; [apply enum_name_lookup|done]. }
    congruence.
Qed.
End enums.

(** ** [ValidStrings] ([wirejson/json.go]) *)

Inductive StringError :=
| InvalidUTF8 | InvalidUnicodeEscape | EscapeSyntax | UnpairedLow | UnpairedHigh.

Definition hex_digit (c : ascii) : option N :=
  let n := N_of_ascii c in
  if in_range 48 57 n then Some (n - 48)%N else
  if in_range 97 102 n then Some (n - 87)%N else
  if in_range 65 70 n then Some (n - 55)%N else None.
(** [strconv.ParseUint(s, 16, 16)] on four bytes. *)
Definition parse_hex4 (a b c d : ascii) : option N :=
  match hex_digit a, hex_digit b, hex_digit c, hex_digit d with
  | Some a, Some b, Some c, Some d => Some (((a * 16 + b) * 16 + c) * 16 + d)%N
  | _, _, _, _ => None
  end.

Definition quote : ascii := ascii_of_N 34.
Definition backslash : ascii := "\"%char.

Fixpoint valid_strings_from (inString : bool) (l : list ascii) : result unit StringError :=
  match l with
  | [] => Ok tt
  | c :: t =>
    if is_char quote c then valid_strings_from (negb inString) t else
    if negb inString || negb (is_char backslash c) then valid_strings_from inString t else
    match t with
    | [] => Ok tt
    | e :: t2 =>
      if negb (is_char "u"%char e) then valid_strings_from inString t2 else
      match t2 with
      | h1 :: h2 :: h3 :: h4 :: t3 =>
        match parse_hex4 h1 h2 h3 h4 with
        | None => Err EscapeSyntax
        | Some n =>
          if in_range 56320 57343 n then Err UnpairedLow else
          if in_range 55296 56319 n then
            match t3 with
            | b :: u :: l1 :: l2 :: l3 :: l4 :: t4 =>
              if is_char backslash b && is_char "u"%char u then
                match parse_hex4 l1 l2 l3 l4 with
                | Some low => if in_range 56320 57343 low then valid_strings_from inString t4
                              else Err UnpairedHigh
                | None => Err UnpairedHigh
                end
              else Err UnpairedHigh
            | _ => Err UnpairedHigh
            end
          else valid_strings_from inString t3
        end
      | _ => Err InvalidUnicodeEscape
      end
    end
  end.
Definition ValidStrings (data : string) : result unit StringError :=
  if valid_utf8 data then valid_strings_from false (chars data) else Err InvalidUTF8.

(** ** Round trip *)

(** Every enumeration round-trips through its wire text: a text decodes to
    a value exactly when the value encodes to that text, so no two values share
    a name, every constant has one, and every other text is refused. *)
Theorem enum_roundtrip `{WireEnum A} (text : string) (a : A) :
  enum_UnmarshalText text = Ok a <-> enum_MarshalText a = Ok text.
Proof.
  rewrite enum_UnmarshalText_Ok, enum_MarshalText_String. naive_solver.
Qed.
