(* ===== verification/Enums.v ===== *)
(** * Enumerations ([internal/model], [internal/config])

    Every Go enumeration is a [uint8] with named constants and a table of wire
    names.  Each is an inductive type with the same constructors in the same
    order, its value [X_code], its name table, and its [WireEnum] instance,
    which stands for the [String], [MarshalText] and [UnmarshalText] methods. *)
From S2P Require Import Prelude GoStrings WireJson.

(** ** [config/enums.go] *)

Inductive Backend :=
| BackendCodex | BackendOpencode.
#[export] Instance Backend_eq_dec : EqDecision Backend.
Proof. solve_decision. Defined.
Definition Backend_all : list Backend :=
  [BackendCodex; BackendOpencode].
Definition Backend_code (x : Backend) : N :=
  match x with
  | BackendCodex => 0 | BackendOpencode => 1
  end%N.
Definition backendNames : list string :=
  ["codex"; "opencode"]%string.
#[export] Instance Backend_wire : WireEnum Backend.
Proof. solve_wire_enum Backend_all Backend_code backendNames. Defined.

Inductive DeliveryMode :=
| DeliveryModeStandard | DeliveryModeMaintenance.
#[export] Instance DeliveryMode_eq_dec : EqDecision DeliveryMode.
Proof. solve_decision. Defined.
Definition DeliveryMode_all : list DeliveryMode :=
  [DeliveryModeStandard; DeliveryModeMaintenance].
Definition DeliveryMode_code (x : DeliveryMode) : N :=
  match x with
  | DeliveryModeStandard => 0 | DeliveryModeMaintenance => 1
  end%N.
Definition deliveryModeNames : list string :=
  ["standard"; "maintenance"]%string.
#[export] Instance DeliveryMode_wire : WireEnum DeliveryMode.
Proof. solve_wire_enum DeliveryMode_all DeliveryMode_code deliveryModeNames. Defined.

(** ** [model/enums.go] *)

Inductive Status :=
| StatusQueued | StatusExecuting | StatusReviewing | StatusRepairing
| StatusVerifying | StatusPublishing | StatusPublished | StatusBlocked
| StatusFailed | StatusCancelled.
#[export] Instance Status_eq_dec : EqDecision Status.
Proof. solve_decision. Defined.
Definition Status_all : list Status :=
  [StatusQueued; StatusExecuting; StatusReviewing; StatusRepairing; StatusVerifying;
   StatusPublishing; StatusPublished; StatusBlocked; StatusFailed; StatusCancelled].
Definition Status_code (x : Status) : N :=
  match x with
  | StatusQueued => 0 | StatusExecuting => 1 | StatusReviewing => 2
  | StatusRepairing => 3 | StatusVerifying => 4 | StatusPublishing => 5
  | StatusPublished => 6 | StatusBlocked => 7 | StatusFailed => 8
  | StatusCancelled => 9
  end%N.
Definition statusNames : list string :=
  ["queued"; "executing"; "reviewing"; "repairing"; "verifying"; "publishing";
   "published"; "blocked"; "failed"; "cancelled"]%string.
#[export] Instance Status_wire : WireEnum Status.
Proof. solve_wire_enum Status_all Status_code statusNames. Defined.

Inductive BlockedReason :=
| BlockedBudgetExhausted | BlockedStorageLimit | BlockedStaleBase | BlockedRemoteConflict
| BlockedPublicationUncertain | BlockedRunnerUnavailable | BlockedInvalidReview | BlockedVerificationFailed
| BlockedDependencyBlocked | BlockedInvalidPlan | BlockedWorkspaceInvalid | BlockedRetryLimit
| BlockedTimeout | BlockedUnknown.
#[export] Instance BlockedReason_eq_dec : EqDecision BlockedReason.
Proof. solve_decision. Defined.
Definition BlockedReason_all : list BlockedReason :=
  [BlockedBudgetExhausted; BlockedStorageLimit; BlockedStaleBase; BlockedRemoteConflict;
   BlockedPublicationUncertain; BlockedRunnerUnavailable; BlockedInvalidReview;
   BlockedVerificationFailed; BlockedDependencyBlocked; BlockedInvalidPlan;
   BlockedWorkspaceInvalid; BlockedRetryLimit; BlockedTimeout; BlockedUnknown].
Definition BlockedReason_code (x : BlockedReason) : N :=
  match x with
  | BlockedBudgetExhausted => 0 | BlockedStorageLimit => 1 | BlockedStaleBase => 2
  | BlockedRemoteConflict => 3 | BlockedPublicationUncertain => 4 | BlockedRunnerUnavailable => 5
  | BlockedInvalidReview => 6 | BlockedVerificationFailed => 7 | BlockedDependencyBlocked => 8
  | BlockedInvalidPlan => 9 | BlockedWorkspaceInvalid => 10 | BlockedRetryLimit => 11
  | BlockedTimeout => 12 | BlockedUnknown => 13
  end%N.
Definition blockedReasonNames : list string :=
  ["budget_exhausted"; "storage_limit"; "stale_base"; "remote_conflict";
   "publication_uncertain"; "runner_unavailable"; "invalid_review";
   "verification_failed"; "dependency_blocked"; "invalid_plan"; "workspace_invalid";
   "retry_limit"; "timeout"; "unknown"]%string.
#[export] Instance BlockedReason_wire : WireEnum BlockedReason.
Proof. solve_wire_enum BlockedReason_all BlockedReason_code blockedReasonNames. Defined.

Inductive CapacityStatus :=
| CapacityReady | CapacityExhausted | CapacityTooLow.
#[export] Instance CapacityStatus_eq_dec : EqDecision CapacityStatus.
Proof. solve_decision. Defined.
Definition CapacityStatus_all : list CapacityStatus :=
  [CapacityReady; CapacityExhausted; CapacityTooLow].
Definition CapacityStatus_code (x : CapacityStatus) : N :=
  match x with
  | CapacityReady => 0 | CapacityExhausted => 1 | CapacityTooLow => 2
  end%N.
Definition planningCapacityStatusNames : list string :=
  ["ready"; "daily_exhausted"; "limit_too_low"]%string.
#[export] Instance CapacityStatus_wire : WireEnum CapacityStatus.
Proof. solve_wire_enum CapacityStatus_all CapacityStatus_code planningCapacityStatusNames. Defined.

Inductive BaselineStatus :=
| BaselineStatusRunning | BaselineStatusPassed | BaselineStatusFailed | BaselineStatusCancelled
| BaselineStatusTimedOut | BaselineStatusInterrupted.
#[export] Instance BaselineStatus_eq_dec : EqDecision BaselineStatus.
Proof. solve_decision. Defined.
Definition BaselineStatus_all : list BaselineStatus :=
  [BaselineStatusRunning; BaselineStatusPassed; BaselineStatusFailed;
   BaselineStatusCancelled; BaselineStatusTimedOut; BaselineStatusInterrupted].
Definition BaselineStatus_code (x : BaselineStatus) : N :=
  match x with
  | BaselineStatusRunning => 0 | BaselineStatusPassed => 1 | BaselineStatusFailed => 2
  | BaselineStatusCancelled => 3 | BaselineStatusTimedOut => 4 | BaselineStatusInterrupted => 5
  end%N.
Definition baselineStatusNames : list string :=
  ["running"; "passed"; "failed"; "cancelled"; "timed_out"; "interrupted"]%string.
#[export] Instance BaselineStatus_wire : WireEnum BaselineStatus.
Proof. solve_wire_enum BaselineStatus_all BaselineStatus_code baselineStatusNames. Defined.

Inductive CycleStatus :=
| CycleRunning | CycleCompleted | CycleIdle | CycleFailed
| CycleInterrupted.
#[export] Instance CycleStatus_eq_dec : EqDecision CycleStatus.
Proof. solve_decision. Defined.
Definition CycleStatus_all : list CycleStatus :=
  [CycleRunning; CycleCompleted; CycleIdle; CycleFailed; CycleInterrupted].
Definition CycleStatus_code (x : CycleStatus) : N :=
  match x with
  | CycleRunning => 0 | CycleCompleted => 1 | CycleIdle => 2
  | CycleFailed => 3 | CycleInterrupted => 4
  end%N.
Definition cycleStatusNames : list string :=
  ["running"; "completed"; "idle"; "failed"; "interrupted"]%string.
#[export] Instance CycleStatus_wire : WireEnum CycleStatus.
Proof. solve_wire_enum CycleStatus_all CycleStatus_code cycleStatusNames. Defined.

Inductive SessionStatus :=
| SessionRunning | SessionCompleted | SessionFailed | SessionInterrupted.
#[export] Instance SessionStatus_eq_dec : EqDecision SessionStatus.
Proof. solve_decision. Defined.
Definition SessionStatus_all : list SessionStatus :=
  [SessionRunning; SessionCompleted; SessionFailed; SessionInterrupted].
Definition SessionStatus_code (x : SessionStatus) : N :=
  match x with
  | SessionRunning => 0 | SessionCompleted => 1 | SessionFailed => 2
  | SessionInterrupted => 3
  end%N.
Definition sessionStatusNames : list string :=
  ["running"; "completed"; "failed"; "interrupted"]%string.
#[export] Instance SessionStatus_wire : WireEnum SessionStatus.
Proof. solve_wire_enum SessionStatus_all SessionStatus_code sessionStatusNames. Defined.

Inductive CycleMode :=
| CycleModeExecution | CycleModeAudit.
#[export] Instance CycleMode_eq_dec : EqDecision CycleMode.
Proof. solve_decision. Defined.
Definition CycleMode_all : list CycleMode :=
  [CycleModeExecution; CycleModeAudit].
Definition CycleMode_code (x : CycleMode) : N :=
  match x with
  | CycleModeExecution => 0 | CycleModeAudit => 1
  end%N.
Definition cycleModeNames : list string :=
  ["execution"; "audit"]%string.
#[export] Instance CycleMode_wire : WireEnum CycleMode.
Proof. solve_wire_enum CycleMode_all CycleMode_code cycleModeNames. Defined.

Inductive OperatingMode :=
| OperatingModePaused | OperatingModeRunOnce | OperatingModeContinuous.
#[export] Instance OperatingMode_eq_dec : EqDecision OperatingMode.
Proof. solve_decision. Defined.
Definition OperatingMode_all : list OperatingMode :=
  [OperatingModePaused; OperatingModeRunOnce; OperatingModeContinuous].
Definition OperatingMode_code (x : OperatingMode) : N :=
  match x with
  | OperatingModePaused => 0 | OperatingModeRunOnce => 1 | OperatingModeContinuous => 2
  end%N.
Definition operatingModeNames : list string :=
  ["paused"; "run_once"; "continuous"]%string.
#[export] Instance OperatingMode_wire : WireEnum OperatingMode.
Proof. solve_wire_enum OperatingMode_all OperatingMode_code operatingModeNames. Defined.

Inductive BatchPhase :=
| BatchPhaseDraining | BatchPhasePlanning | BatchPhaseExecuting | BatchPhaseMerging.
#[export] Instance BatchPhase_eq_dec : EqDecision BatchPhase.
Proof. solve_decision. Defined.
Definition BatchPhase_all : list BatchPhase :=
  [BatchPhaseDraining; BatchPhasePlanning; BatchPhaseExecuting; BatchPhaseMerging].
Definition BatchPhase_code (x : BatchPhase) : N :=
  match x with
  | BatchPhaseDraining => 0 | BatchPhasePlanning => 1 | BatchPhaseExecuting => 2
  | BatchPhaseMerging => 3
  end%N.
Definition batchPhaseNames : list string :=
  ["draining"; "planning"; "executing"; "merging"]%string.
#[export] Instance BatchPhase_wire : WireEnum BatchPhase.
Proof. solve_wire_enum BatchPhase_all BatchPhase_code batchPhaseNames. Defined.

Inductive AutoMergeStatus :=
| AutoMergeWaiting | AutoMergeManual | AutoMergeMerging | AutoMergeUncertain
| AutoMergeMerged | AutoMergeClosed.
#[export] Instance AutoMergeStatus_eq_dec : EqDecision AutoMergeStatus.
Proof. solve_decision. Defined.
Definition AutoMergeStatus_all : list AutoMergeStatus :=
  [AutoMergeWaiting; AutoMergeManual; AutoMergeMerging; AutoMergeUncertain;
   AutoMergeMerged; AutoMergeClosed].
Definition AutoMergeStatus_code (x : AutoMergeStatus) : N :=
  match x with
  | AutoMergeWaiting => 0 | AutoMergeManual => 1 | AutoMergeMerging => 2
  | AutoMergeUncertain => 3 | AutoMergeMerged => 4 | AutoMergeClosed => 5
  end%N.
Definition autoMergeStatusNames : list string :=
  ["waiting"; "manual"; "merging"; "uncertain"; "merged"; "closed"]%string.
#[export] Instance AutoMergeStatus_wire : WireEnum AutoMergeStatus.
Proof. solve_wire_enum AutoMergeStatus_all AutoMergeStatus_code autoMergeStatusNames. Defined.

(** ** [model/events.go] *)

Inductive EventKind :=
| EventAttemptPolicy | EventAutomerge | EventBaseline | EventBaselineError
| EventCleanupError | EventConfiguration | EventError | EventGrounding
| EventHousekeepingError | EventInterrupted | EventMaintenance | EventOperator
| EventPlanningCapacity | EventPlanningError | EventRecovery | EventRecoveryError
| EventRunComplete | EventSandboxEvidence | EventSessionProgress | EventSessionStarted
| EventStatus | EventUpgrade | EventWorkerError | EventRequest.
#[export] Instance EventKind_eq_dec : EqDecision EventKind.
Proof. solve_decision. Defined.
Definition EventKind_all : list EventKind :=
  [EventAttemptPolicy; EventAutomerge; EventBaseline; EventBaselineError;
   EventCleanupError; EventConfiguration; EventError; EventGrounding;
   EventHousekeepingError; EventInterrupted; EventMaintenance; EventOperator;
   EventPlanningCapacity; EventPlanningError; EventRecovery; EventRecoveryError;
   EventRunComplete; EventSandboxEvidence; EventSessionProgress; EventSessionStarted;
   EventStatus; EventUpgrade; EventWorkerError; EventRequest].
Definition EventKind_code (x : EventKind) : N :=
  match x with
  | EventAttemptPolicy => 0 | EventAutomerge => 1 | EventBaseline => 2
  | EventBaselineError => 3 | EventCleanupError => 4 | EventConfiguration => 5
  | EventError => 6 | EventGrounding => 7 | EventHousekeepingError => 8
  | EventInterrupted => 9 | EventMaintenance => 10 | EventOperator => 11
  | EventPlanningCapacity => 12 | EventPlanningError => 13 | EventRecovery => 14
  | EventRecoveryError => 15 | EventRunComplete => 16 | EventSandboxEvidence => 17
  | EventSessionProgress => 18 | EventSessionStarted => 19 | EventStatus => 20
  | EventUpgrade => 21 | EventWorkerError => 22 | EventRequest => 23
  end%N.
Definition eventKindNames : list string :=
  ["attempt_policy"; "automerge"; "baseline"; "baseline_error"; "cleanup_error";
   "configuration"; "error"; "grounding"; "housekeeping_error"; "interrupted";
   "maintenance"; "operator"; "planning_capacity"; "planning_error"; "recovery";
   "recovery_error"; "run_complete"; "sandbox_evidence"; "session_progress";
   "session_started"; "status"; "upgrade"; "worker_error"; "request"]%string.
#[export] Instance EventKind_wire : WireEnum EventKind.
Proof. solve_wire_enum EventKind_all EventKind_code eventKindNames. Defined.

(** ** [model/actions.go] *)

Inductive TaskAction :=
| TaskActionCancel | TaskActionRetry | TaskActionSupersede | TaskActionArchive
| TaskActionDiscard | TaskActionReconcile.
#[export] Instance TaskAction_eq_dec : EqDecision TaskAction.
Proof. solve_decision. Defined.
Definition TaskAction_all : list TaskAction :=
  [TaskActionCancel; TaskActionRetry; TaskActionSupersede; TaskActionArchive;
   TaskActionDiscard; TaskActionReconcile].
Definition TaskAction_code (x : TaskAction) : N :=
  match x with
  | TaskActionCancel => 0 | TaskActionRetry => 1 | TaskActionSupersede => 2
  | TaskActionArchive => 3 | TaskActionDiscard => 4 | TaskActionReconcile => 5
  end%N.
Definition taskActionNames : list string :=
  ["cancel"; "retry"; "supersede"; "archive"; "discard"; "reconcile"]%string.
#[export] Instance TaskAction_wire : WireEnum TaskAction.
Proof. solve_wire_enum TaskAction_all TaskAction_code taskActionNames. Defined.

Inductive CycleAction :=
| CycleActionArchive | CycleActionDiscard.
#[export] Instance CycleAction_eq_dec : EqDecision CycleAction.
Proof. solve_decision. Defined.
Definition CycleAction_all : list CycleAction :=
  [CycleActionArchive; CycleActionDiscard].
Definition CycleAction_code (x : CycleAction) : N :=
  match x with
  | CycleActionArchive => 0 | CycleActionDiscard => 1
  end%N.
Definition cycleActionNames : list string :=
  ["archive"; "discard"]%string.
#[export] Instance CycleAction_wire : WireEnum CycleAction.
Proof. solve_wire_enum CycleAction_all CycleAction_code cycleActionNames. Defined.

Inductive RequestAction :=
| RequestActionWithdraw.
#[export] Instance RequestAction_eq_dec : EqDecision RequestAction.
Proof. solve_decision. Defined.
Definition RequestAction_all : list RequestAction :=
  [RequestActionWithdraw].
Definition RequestAction_code (x : RequestAction) : N :=
  match x with
  | RequestActionWithdraw => 0
  end%N.
Definition requestActionNames : list string :=
  ["withdraw"]%string.
#[export] Instance RequestAction_wire : WireEnum RequestAction.
Proof. solve_wire_enum RequestAction_all RequestAction_code requestActionNames. Defined.

Inductive ControlAction :=
| ControlPause | ControlResume | ControlCycle | ControlAudit.
#[export] Instance ControlAction_eq_dec : EqDecision ControlAction.
Proof. solve_decision. Defined.
Definition ControlAction_all : list ControlAction :=
  [ControlPause; ControlResume; ControlCycle; ControlAudit].
Definition ControlAction_code (x : ControlAction) : N :=
  match x with
  | ControlPause => 0 | ControlResume => 1 | ControlCycle => 2
  | ControlAudit => 3
  end%N.
Definition controlActionNames : list string :=
  ["pause"; "resume"; "cycle"; "audit"]%string.
#[export] Instance ControlAction_wire : WireEnum ControlAction.
Proof. solve_wire_enum ControlAction_all ControlAction_code controlActionNames. Defined.

(** ** [model/requests.go] *)

Inductive RequestStatus :=
| RequestPending | RequestAccepted | RequestRejected | RequestWithdrawn.
#[export] Instance RequestStatus_eq_dec : EqDecision RequestStatus.
Proof. solve_decision. Defined.
Definition RequestStatus_all : list RequestStatus :=
  [RequestPending; RequestAccepted; RequestRejected; RequestWithdrawn].
Definition RequestStatus_code (x : RequestStatus) : N :=
  match x with
  | RequestPending => 0 | RequestAccepted => 1 | RequestRejected => 2
  | RequestWithdrawn => 3
  end%N.
Definition requestStatusNames : list string :=
  ["pending"; "accepted"; "rejected"; "withdrawn"]%string.
#[export] Instance RequestStatus_wire : WireEnum RequestStatus.
Proof. solve_wire_enum RequestStatus_all RequestStatus_code requestStatusNames. Defined.

