(* ===== verification/Types.v ===== *)
(** * Records ([internal/config/types.go], [internal/model])

    The program's durable records, field for field: [T_F] is field [F] of the
    Go struct [T].  A pointer is an [option], a slice a [list], a map a
    [gmap], a [uint64] an [N], a timestamp the string the program stores.
    A nil slice or map is the empty one, as every record's [MarshalJSON]
    writes it.  Records are values: Go's [Clone] before a change is implicit.
    [wirejson.Equal], which compares the JSON of two records, is [Equal]. *)
From S2P Require Import Prelude GoStrings WireJson Enums.

(** A decoded JSON value of unknown shape (Go [any]); an object lists its
    members in key order. *)
Inductive Json :=
| JNull | JBool (b : bool) | JNumber (n : string) | JString (s : string)
| JArray (items : list Json) | JObject (members : list (string * Json)).
#[export] Instance Json_eq_dec : EqDecision Json.
Proof.
  refine (fix go a b := let _ : EqDecision Json := @go in
    match a, b with
    | JNull, JNull => left _
    | JBool x, JBool y => cast_if (decide (x = y))
    | JNumber x, JNumber y => cast_if (decide (x = y))
    | JString x, JString y => cast_if (decide (x = y))
    | JArray x, JArray y => cast_if (decide (x = y))
    | JObject x, JObject y => cast_if (decide (x = y))
    | _, _ => right _
    end); abstract congruence.
Defined.

Record Route := mkRoute {
  Route_Backend  : Backend;
  Route_Model    : string;
  Route_Effort   : string;
  Route_Provider : option string;
  Route_Variant  : option string;
}.
#[export] Instance Route_eq_dec : EqDecision Route.
Proof. solve_decision. Defined.
#[export] Instance eta_Route : Eta Route := fun r =>
  mkRoute (Route_Backend r) (Route_Model r) (Route_Effort r) (Route_Provider r)
    (Route_Variant r).

Record Config := mkConfig {
  Config_Repository             : string;
  Config_GitHubRepo             : string;
  Config_DefaultBranch          : string;
  Config_BranchPrefix           : string;
  Config_CodexBinary            : string;
  Config_OpencodeBinary         : string;
  Config_Roles                  : gmap string Route;
  Config_Tiers                  : gmap string Route;
  Config_RepairRoute            : Route;
  Config_Categories             : list string;
  Config_PlanningGuidance       : string;
  Config_DeliveryMode           : DeliveryMode;
  Config_AutoMergeMaxLines      : N;
  Config_AutoMergeMaxFiles      : N;
  Config_AutoMergeExcludedPaths : list string;
  Config_VerificationCommands   : list string;
  Config_DiscoveryAgents        : N;
  Config_ExecutionConcurrency   : N;
  Config_CycleIntervalSeconds   : N;
  Config_MaintenanceEveryCycles : N;
  Config_LargePRLines           : N;
  Config_LongLivedPRDays        : N;
  Config_MaxTasksPerCycle       : N;
  Config_MaxRepairRounds        : N;
  Config_MaxNoProgressRounds    : N;
  Config_MaxRetries             : N;
  Config_SessionTimeoutSeconds  : N;
  Config_TaskTimeoutSeconds     : N;
  Config_CommandTimeoutSeconds  : N;
  Config_MaxSessionsPerDay      : N;
  Config_MaxOpenPRs             : N;
  Config_MaxWorkspaceBytes      : N;
  Config_RunnerStoragePaths     : gmap string string;
  Config_RetainCompletedDays    : N;
  Config_RetainEvents           : N;
}.
#[export] Instance Config_eq_dec : EqDecision Config.
Proof. solve_decision. Defined.
#[export] Instance eta_Config : Eta Config := fun r =>
  mkConfig (Config_Repository r) (Config_GitHubRepo r) (Config_DefaultBranch r)
    (Config_BranchPrefix r) (Config_CodexBinary r) (Config_OpencodeBinary r) (Config_Roles r)
    (Config_Tiers r) (Config_RepairRoute r) (Config_Categories r) (Config_PlanningGuidance r)
    (Config_DeliveryMode r) (Config_AutoMergeMaxLines r) (Config_AutoMergeMaxFiles r)
    (Config_AutoMergeExcludedPaths r) (Config_VerificationCommands r) (Config_DiscoveryAgents r)
    (Config_ExecutionConcurrency r) (Config_CycleIntervalSeconds r)
    (Config_MaintenanceEveryCycles r) (Config_LargePRLines r) (Config_LongLivedPRDays r)
    (Config_MaxTasksPerCycle r) (Config_MaxRepairRounds r) (Config_MaxNoProgressRounds r)
    (Config_MaxRetries r) (Config_SessionTimeoutSeconds r) (Config_TaskTimeoutSeconds r)
    (Config_CommandTimeoutSeconds r) (Config_MaxSessionsPerDay r) (Config_MaxOpenPRs r)
    (Config_MaxWorkspaceBytes r) (Config_RunnerStoragePaths r) (Config_RetainCompletedDays r)
    (Config_RetainEvents r).

Record InstanceSettings := mkInstanceSettings {
  InstanceSettings_MaxSessionsPerDay : N;
}.
#[export] Instance InstanceSettings_eq_dec : EqDecision InstanceSettings.
Proof. solve_decision. Defined.
#[export] Instance eta_InstanceSettings : Eta InstanceSettings := fun r =>
  mkInstanceSettings (InstanceSettings_MaxSessionsPerDay r).

Record Proposal := mkProposal {
  Proposal_ID            : string;
  Proposal_Title         : string;
  Proposal_Problem       : string;
  Proposal_Evidence      : list string;
  Proposal_Benefit       : string;
  Proposal_Category      : string;
  Proposal_Target        : string;
  Proposal_Tier          : string;
  Proposal_Scope         : string;
  Proposal_Dependencies  : list string;
  Proposal_Prompt        : string;
  Proposal_Decision      : string;
  Proposal_Reason        : string;
  Proposal_ProblemKey    : string;
  Proposal_RelevantPaths : list string;
  Proposal_Reconsiders   : list string;
}.
#[export] Instance Proposal_eq_dec : EqDecision Proposal.
Proof. solve_decision. Defined.
#[export] Instance eta_Proposal : Eta Proposal := fun r =>
  mkProposal (Proposal_ID r) (Proposal_Title r) (Proposal_Problem r) (Proposal_Evidence r)
    (Proposal_Benefit r) (Proposal_Category r) (Proposal_Target r) (Proposal_Tier r)
    (Proposal_Scope r) (Proposal_Dependencies r) (Proposal_Prompt r) (Proposal_Decision r)
    (Proposal_Reason r) (Proposal_ProblemKey r) (Proposal_RelevantPaths r)
    (Proposal_Reconsiders r).

Record PlanningCapacity := mkPlanningCapacity {
  PlanningCapacity_Day         : string;
  PlanningCapacity_Limit       : N;
  PlanningCapacity_Used        : N;
  PlanningCapacity_Remaining   : N;
  PlanningCapacity_Required    : N;
  PlanningCapacity_NextResetAt : Z;
  PlanningCapacity_Status      : CapacityStatus;
}.
#[export] Instance PlanningCapacity_eq_dec : EqDecision PlanningCapacity.
Proof. solve_decision. Defined.
#[export] Instance eta_PlanningCapacity : Eta PlanningCapacity := fun r =>
  mkPlanningCapacity (PlanningCapacity_Day r) (PlanningCapacity_Limit r)
    (PlanningCapacity_Used r) (PlanningCapacity_Remaining r) (PlanningCapacity_Required r)
    (PlanningCapacity_NextResetAt r) (PlanningCapacity_Status r).

Record AttemptPolicy := mkAttemptPolicy {
  AttemptPolicy_MaxRepairRounds       : N;
  AttemptPolicy_MaxNoProgressRounds   : N;
  AttemptPolicy_MaxRetries            : N;
  AttemptPolicy_TaskTimeoutSeconds    : N;
  AttemptPolicy_SessionTimeoutSeconds : N;
  AttemptPolicy_CommandTimeoutSeconds : N;
}.
#[export] Instance AttemptPolicy_eq_dec : EqDecision AttemptPolicy.
Proof. solve_decision. Defined.
#[export] Instance eta_AttemptPolicy : Eta AttemptPolicy := fun r =>
  mkAttemptPolicy (AttemptPolicy_MaxRepairRounds r) (AttemptPolicy_MaxNoProgressRounds r)
    (AttemptPolicy_MaxRetries r) (AttemptPolicy_TaskTimeoutSeconds r)
    (AttemptPolicy_SessionTimeoutSeconds r) (AttemptPolicy_CommandTimeoutSeconds r).

Record WorkspaceLifecycle := mkWorkspaceLifecycle {
  WorkspaceLifecycle_ArchivedAt  : option string;
  WorkspaceLifecycle_DiscardedAt : option string;
}.
#[export] Instance WorkspaceLifecycle_eq_dec : EqDecision WorkspaceLifecycle.
Proof. solve_decision. Defined.
#[export] Instance eta_WorkspaceLifecycle : Eta WorkspaceLifecycle := fun r =>
  mkWorkspaceLifecycle (WorkspaceLifecycle_ArchivedAt r) (WorkspaceLifecycle_DiscardedAt r).

Record Finding := mkFinding {
  Finding_Title    : string;
  Finding_File     : string;
  Finding_Detail   : string;
  Finding_Priority : string;
}.
#[export] Instance Finding_eq_dec : EqDecision Finding.
Proof. solve_decision. Defined.
#[export] Instance eta_Finding : Eta Finding := fun r =>
  mkFinding (Finding_Title r) (Finding_File r) (Finding_Detail r) (Finding_Priority r).

Record Review := mkReview {
  Review_Completed : bool;
  Review_Summary   : string;
  Review_Findings  : list Finding;
}.
#[export] Instance Review_eq_dec : EqDecision Review.
Proof. solve_decision. Defined.
#[export] Instance eta_Review : Eta Review := fun r =>
  mkReview (Review_Completed r) (Review_Summary r) (Review_Findings r).

Record ProposalDocument := mkProposalDocument {
  ProposalDocument_Proposals : list Proposal;
}.
#[export] Instance ProposalDocument_eq_dec : EqDecision ProposalDocument.
Proof. solve_decision. Defined.
#[export] Instance eta_ProposalDocument : Eta ProposalDocument := fun r =>
  mkProposalDocument (ProposalDocument_Proposals r).

Record Assessment := mkAssessment {
  Assessment_ID       : string;
  Assessment_Decision : string;
  Assessment_Reason   : string;
}.
#[export] Instance Assessment_eq_dec : EqDecision Assessment.
Proof. solve_decision. Defined.
#[export] Instance eta_Assessment : Eta Assessment := fun r =>
  mkAssessment (Assessment_ID r) (Assessment_Decision r) (Assessment_Reason r).

Record AssessmentDocument := mkAssessmentDocument {
  AssessmentDocument_Assessments : list Assessment;
}.
#[export] Instance AssessmentDocument_eq_dec : EqDecision AssessmentDocument.
Proof. solve_decision. Defined.
#[export] Instance eta_AssessmentDocument : Eta AssessmentDocument := fun r =>
  mkAssessmentDocument (AssessmentDocument_Assessments r).

Record GroundingDocument := mkGroundingDocument {
  GroundingDocument_Context : string;
}.
#[export] Instance GroundingDocument_eq_dec : EqDecision GroundingDocument.
Proof. solve_decision. Defined.
#[export] Instance eta_GroundingDocument : Eta GroundingDocument := fun r =>
  mkGroundingDocument (GroundingDocument_Context r).

Record MaintenanceAssessment := mkMaintenanceAssessment {
  MaintenanceAssessment_Qualifies           : bool;
  MaintenanceAssessment_ManualMergeRequired : bool;
  MaintenanceAssessment_Reason              : string;
}.
#[export] Instance MaintenanceAssessment_eq_dec : EqDecision MaintenanceAssessment.
Proof. solve_decision. Defined.
#[export] Instance eta_MaintenanceAssessment : Eta MaintenanceAssessment := fun r =>
  mkMaintenanceAssessment (MaintenanceAssessment_Qualifies r)
    (MaintenanceAssessment_ManualMergeRequired r) (MaintenanceAssessment_Reason r).

Record MaintenanceReviewDocument := mkMaintenanceReviewDocument {
  MaintenanceReviewDocument_Review      : Review;
  MaintenanceReviewDocument_Maintenance : MaintenanceAssessment;
}.
#[export] Instance MaintenanceReviewDocument_eq_dec : EqDecision MaintenanceReviewDocument.
Proof. solve_decision. Defined.
#[export] Instance eta_MaintenanceReviewDocument : Eta MaintenanceReviewDocument := fun r =>
  mkMaintenanceReviewDocument (MaintenanceReviewDocument_Review r)
    (MaintenanceReviewDocument_Maintenance r).

Record MaintenanceFootprint := mkMaintenanceFootprint {
  MaintenanceFootprint_ComparisonBase : string;
  MaintenanceFootprint_Revision       : string;
  MaintenanceFootprint_ChangedLines   : option N;
  MaintenanceFootprint_ChangedFiles   : option N;
  MaintenanceFootprint_Paths          : list string;
  MaintenanceFootprint_Complete       : bool;
  MaintenanceFootprint_ManualReasons  : list string;
}.
#[export] Instance MaintenanceFootprint_eq_dec : EqDecision MaintenanceFootprint.
Proof. solve_decision. Defined.
#[export] Instance eta_MaintenanceFootprint : Eta MaintenanceFootprint := fun r =>
  mkMaintenanceFootprint (MaintenanceFootprint_ComparisonBase r)
    (MaintenanceFootprint_Revision r) (MaintenanceFootprint_ChangedLines r)
    (MaintenanceFootprint_ChangedFiles r) (MaintenanceFootprint_Paths r)
    (MaintenanceFootprint_Complete r) (MaintenanceFootprint_ManualReasons r).

Record AutoMergeState := mkAutoMergeState {
  AutoMergeState_TaskID         : string;
  AutoMergeState_Head           : string;
  AutoMergeState_HeadBranch     : string;
  AutoMergeState_BaseBranch     : string;
  AutoMergeState_ComparisonBase : string;
  AutoMergeState_PolicyRevision : string;
  AutoMergeState_Authorized     : bool;
  AutoMergeState_Footprint      : option MaintenanceFootprint;
  AutoMergeState_Status         : AutoMergeStatus;
  AutoMergeState_Reason         : string;
  AutoMergeState_ObservedAt     : string;
  AutoMergeState_AttemptID      : option string;
  AutoMergeState_AttemptedAt    : option string;
  AutoMergeState_MergeCommit    : option string;
  AutoMergeState_ResultSource   : option string;
}.
#[export] Instance AutoMergeState_eq_dec : EqDecision AutoMergeState.
Proof. solve_decision. Defined.
#[export] Instance eta_AutoMergeState : Eta AutoMergeState := fun r =>
  mkAutoMergeState (AutoMergeState_TaskID r) (AutoMergeState_Head r)
    (AutoMergeState_HeadBranch r) (AutoMergeState_BaseBranch r)
    (AutoMergeState_ComparisonBase r) (AutoMergeState_PolicyRevision r)
    (AutoMergeState_Authorized r) (AutoMergeState_Footprint r) (AutoMergeState_Status r)
    (AutoMergeState_Reason r) (AutoMergeState_ObservedAt r) (AutoMergeState_AttemptID r)
    (AutoMergeState_AttemptedAt r) (AutoMergeState_MergeCommit r)
    (AutoMergeState_ResultSource r).

Record AutoMergeSnapshot := mkAutoMergeSnapshot {
  AutoMergeSnapshot_Repository : string;
  AutoMergeSnapshot_PRNumber   : N;
  AutoMergeSnapshot_State      : AutoMergeState;
}.
#[export] Instance AutoMergeSnapshot_eq_dec : EqDecision AutoMergeSnapshot.
Proof. solve_decision. Defined.
#[export] Instance eta_AutoMergeSnapshot : Eta AutoMergeSnapshot := fun r =>
  mkAutoMergeSnapshot (AutoMergeSnapshot_Repository r) (AutoMergeSnapshot_PRNumber r)
    (AutoMergeSnapshot_State r).

Record ReviewRound := mkReviewRound {
  ReviewRound_SessionID           : string;
  ReviewRound_Revision            : string;
  ReviewRound_ComparisonBase      : string;
  ReviewRound_Result              : Review;
  ReviewRound_CreatedAt           : string;
  ReviewRound_Maintenance         : option MaintenanceAssessment;
  ReviewRound_TrustedDiffComplete : bool;
}.
#[export] Instance ReviewRound_eq_dec : EqDecision ReviewRound.
Proof. solve_decision. Defined.
#[export] Instance eta_ReviewRound : Eta ReviewRound := fun r =>
  mkReviewRound (ReviewRound_SessionID r) (ReviewRound_Revision r)
    (ReviewRound_ComparisonBase r) (ReviewRound_Result r) (ReviewRound_CreatedAt r)
    (ReviewRound_Maintenance r) (ReviewRound_TrustedDiffComplete r).

Record SandboxEgress := mkSandboxEgress {
  SandboxEgress_Allowed : gmap string N;
  SandboxEgress_Denied  : gmap string N;
  SandboxEgress_Failed  : gmap string N;
}.
#[export] Instance SandboxEgress_eq_dec : EqDecision SandboxEgress.
Proof. solve_decision. Defined.
#[export] Instance eta_SandboxEgress : Eta SandboxEgress := fun r =>
  mkSandboxEgress (SandboxEgress_Allowed r) (SandboxEgress_Denied r) (SandboxEgress_Failed r).

Record SandboxRecord := mkSandboxRecord {
  SandboxRecord_ImageID    : string;
  SandboxRecord_Runtime    : string;
  SandboxRecord_Runs       : N;
  SandboxRecord_OOM        : bool;
  SandboxRecord_Incomplete : bool;
  SandboxRecord_Egress     : SandboxEgress;
}.
#[export] Instance SandboxRecord_eq_dec : EqDecision SandboxRecord.
Proof. solve_decision. Defined.
#[export] Instance eta_SandboxRecord : Eta SandboxRecord := fun r =>
  mkSandboxRecord (SandboxRecord_ImageID r) (SandboxRecord_Runtime r) (SandboxRecord_Runs r)
    (SandboxRecord_OOM r) (SandboxRecord_Incomplete r) (SandboxRecord_Egress r).

Record Verification := mkVerification {
  Verification_Command   : string;
  Verification_Success   : bool;
  Verification_Output    : string;
  Verification_Revision  : string;
  Verification_CreatedAt : string;
  Verification_Sandbox   : option SandboxRecord;
}.
#[export] Instance Verification_eq_dec : EqDecision Verification.
Proof. solve_decision. Defined.
#[export] Instance eta_Verification : Eta Verification := fun r =>
  mkVerification (Verification_Command r) (Verification_Success r) (Verification_Output r)
    (Verification_Revision r) (Verification_CreatedAt r) (Verification_Sandbox r).

Record BaselineCommand := mkBaselineCommand {
  BaselineCommand_Command         : string;
  BaselineCommand_Success         : bool;
  BaselineCommand_Output          : string;
  BaselineCommand_OutputTruncated : bool;
  BaselineCommand_CreatedAt       : string;
  BaselineCommand_Sandbox         : option SandboxRecord;
}.
#[export] Instance BaselineCommand_eq_dec : EqDecision BaselineCommand.
Proof. solve_decision. Defined.
#[export] Instance eta_BaselineCommand : Eta BaselineCommand := fun r =>
  mkBaselineCommand (BaselineCommand_Command r) (BaselineCommand_Success r)
    (BaselineCommand_Output r) (BaselineCommand_OutputTruncated r) (BaselineCommand_CreatedAt r)
    (BaselineCommand_Sandbox r).

Record BaselineCheck := mkBaselineCheck {
  BaselineCheck_ID                : string;
  BaselineCheck_Status            : BaselineStatus;
  BaselineCheck_Config            : Config;
  BaselineCheck_ConfigFingerprint : string;
  BaselineCheck_Revision          : option string;
  BaselineCheck_StartedAt         : string;
  BaselineCheck_CompletedAt       : option string;
  BaselineCheck_Commands          : list BaselineCommand;
  BaselineCheck_Error             : option string;
  BaselineCheck_WorkspaceRemoved  : bool;
  BaselineCheck_CleanupError      : option string;
}.
#[export] Instance BaselineCheck_eq_dec : EqDecision BaselineCheck.
Proof. solve_decision. Defined.
#[export] Instance eta_BaselineCheck : Eta BaselineCheck := fun r =>
  mkBaselineCheck (BaselineCheck_ID r) (BaselineCheck_Status r) (BaselineCheck_Config r)
    (BaselineCheck_ConfigFingerprint r) (BaselineCheck_Revision r) (BaselineCheck_StartedAt r)
    (BaselineCheck_CompletedAt r) (BaselineCheck_Commands r) (BaselineCheck_Error r)
    (BaselineCheck_WorkspaceRemoved r) (BaselineCheck_CleanupError r).

Record DefaultBranchObservation := mkDefaultBranchObservation {
  DefaultBranchObservation_Repository    : string;
  DefaultBranchObservation_DefaultBranch : string;
  DefaultBranchObservation_Revision      : string;
  DefaultBranchObservation_ObservedAt    : string;
}.
#[export] Instance DefaultBranchObservation_eq_dec : EqDecision DefaultBranchObservation.
Proof. solve_decision. Defined.
#[export] Instance eta_DefaultBranchObservation : Eta DefaultBranchObservation := fun r =>
  mkDefaultBranchObservation (DefaultBranchObservation_Repository r)
    (DefaultBranchObservation_DefaultBranch r) (DefaultBranchObservation_Revision r)
    (DefaultBranchObservation_ObservedAt r).

Record Session := mkSession {
  Session_ID               : string;
  Session_Role             : string;
  Session_Route            : Route;
  Session_Status           : SessionStatus;
  Session_StartedAt        : string;
  Session_Summary          : string;
  Session_FirstTurnStarted : option bool;
  Session_Sandbox          : option SandboxRecord;
}.
#[export] Instance Session_eq_dec : EqDecision Session.
Proof. solve_decision. Defined.
#[export] Instance eta_Session : Eta Session := fun r =>
  mkSession (Session_ID r) (Session_Role r) (Session_Route r) (Session_Status r)
    (Session_StartedAt r) (Session_Summary r) (Session_FirstTurnStarted r) (Session_Sandbox r).

Record RepairProgress := mkRepairProgress {
  RepairProgress_Revision         : string;
  RepairProgress_NoProgressRounds : N;
  RepairProgress_AwaitingReview   : bool;
}.
#[export] Instance RepairProgress_eq_dec : EqDecision RepairProgress.
Proof. solve_decision. Defined.
#[export] Instance eta_RepairProgress : Eta RepairProgress := fun r =>
  mkRepairProgress (RepairProgress_Revision r) (RepairProgress_NoProgressRounds r)
    (RepairProgress_AwaitingReview r).

Record Task := mkTask {
  Task_ID                   : string;
  Task_CycleID              : string;
  Task_Proposal             : Proposal;
  Task_Status               : Status;
  Task_Route                : Route;
  Task_Config               : Config;
  Task_SourceRevision       : string;
  Task_ComparisonBase       : string;
  Task_DefaultRevision      : string;
  Task_Branch               : string;
  Task_Workspace            : string;
  Task_ExecutionSession     : option string;
  Task_RepairSession        : option string;
  Task_Sessions             : list Session;
  Task_Reviews              : list ReviewRound;
  Task_Verification         : list Verification;
  Task_OutputCommit         : option string;
  Task_PRNumber             : option N;
  Task_PRURL                : option string;
  Task_Attempts             : N;
  Task_Error                : option string;
  Task_CreatedAt            : string;
  Task_UpdatedAt            : string;
  Task_AttemptPolicy        : option AttemptPolicy;
  Task_ReviewBaseline       : N;
  Task_RepairRounds         : option N;
  Task_RepairProgress       : option RepairProgress;
  Task_BlockedReason        : option BlockedReason;
  Task_RunID                : option string;
  Task_SupersededBy         : list string;
  Task_Supersedes           : list string;
  Task_RediscoveryRequested : bool;
  Task_RediscoveryResult    : option string;
  Task_Lifecycle            : WorkspaceLifecycle;
  Task_MaintenanceFootprint : option MaintenanceFootprint;
  Task_AutoMergeSnapshot    : option AutoMergeSnapshot;
}.
#[export] Instance Task_eq_dec : EqDecision Task.
Proof. solve_decision. Defined.
#[export] Instance eta_Task : Eta Task := fun r =>
  mkTask (Task_ID r) (Task_CycleID r) (Task_Proposal r) (Task_Status r) (Task_Route r)
    (Task_Config r) (Task_SourceRevision r) (Task_ComparisonBase r) (Task_DefaultRevision r)
    (Task_Branch r) (Task_Workspace r) (Task_ExecutionSession r) (Task_RepairSession r)
    (Task_Sessions r) (Task_Reviews r) (Task_Verification r) (Task_OutputCommit r)
    (Task_PRNumber r) (Task_PRURL r) (Task_Attempts r) (Task_Error r) (Task_CreatedAt r)
    (Task_UpdatedAt r) (Task_AttemptPolicy r) (Task_ReviewBaseline r) (Task_RepairRounds r)
    (Task_RepairProgress r) (Task_BlockedReason r) (Task_RunID r) (Task_SupersededBy r)
    (Task_Supersedes r) (Task_RediscoveryRequested r) (Task_RediscoveryResult r)
    (Task_Lifecycle r) (Task_MaintenanceFootprint r) (Task_AutoMergeSnapshot r).

Record PullRequest := mkPullRequest {
  PullRequest_Number           : N;
  PullRequest_Title            : string;
  PullRequest_Branch           : string;
  PullRequest_Head             : string;
  PullRequest_Base             : string;
  PullRequest_URL              : string;
  PullRequest_Body             : string;
  PullRequest_State            : string;
  PullRequest_ChangedLines     : N;
  PullRequest_CreatedAt        : string;
  PullRequest_Owned            : bool;
  PullRequest_HeadRepository   : string;
  PullRequest_BaseRepository   : string;
  PullRequest_ReviewDecision   : string;
  PullRequest_CheckStatus      : string;
  PullRequest_Mergeability     : string;
  PullRequest_StatusSource     : string;
  PullRequest_StatusObservedAt : string;
}.
#[export] Instance PullRequest_eq_dec : EqDecision PullRequest.
Proof. solve_decision. Defined.
#[export] Instance eta_PullRequest : Eta PullRequest := fun r =>
  mkPullRequest (PullRequest_Number r) (PullRequest_Title r) (PullRequest_Branch r)
    (PullRequest_Head r) (PullRequest_Base r) (PullRequest_URL r) (PullRequest_Body r)
    (PullRequest_State r) (PullRequest_ChangedLines r) (PullRequest_CreatedAt r)
    (PullRequest_Owned r) (PullRequest_HeadRepository r) (PullRequest_BaseRepository r)
    (PullRequest_ReviewDecision r) (PullRequest_CheckStatus r) (PullRequest_Mergeability r)
    (PullRequest_StatusSource r) (PullRequest_StatusObservedAt r).

Record PRObservation := mkPRObservation {
  PRObservation_Repository           : string;
  PRObservation_PR                   : PullRequest;
  PRObservation_ObservedAt           : string;
  PRObservation_DeliveredHead        : option string;
  PRObservation_ExternalHeadMovement : bool;
  PRObservation_AutoMerge            : option AutoMergeState;
}.
#[export] Instance PRObservation_eq_dec : EqDecision PRObservation.
Proof. solve_decision. Defined.
#[export] Instance eta_PRObservation : Eta PRObservation := fun r =>
  mkPRObservation (PRObservation_Repository r) (PRObservation_PR r)
    (PRObservation_ObservedAt r) (PRObservation_DeliveredHead r)
    (PRObservation_ExternalHeadMovement r) (PRObservation_AutoMerge r).

Record ExternalPRContext := mkExternalPRContext {
  ExternalPRContext_Number             : N;
  ExternalPRContext_URL                : string;
  ExternalPRContext_Title              : string;
  ExternalPRContext_Body               : string;
  ExternalPRContext_Branch             : string;
  ExternalPRContext_Head               : string;
  ExternalPRContext_Base               : string;
  ExternalPRContext_HeadRepository     : string;
  ExternalPRContext_BaseRepository     : string;
  ExternalPRContext_TitleTruncated     : bool;
  ExternalPRContext_BodyTruncated      : bool;
  ExternalPRContext_LocalHeadAvailable : bool;
}.
#[export] Instance ExternalPRContext_eq_dec : EqDecision ExternalPRContext.
Proof. solve_decision. Defined.
#[export] Instance eta_ExternalPRContext : Eta ExternalPRContext := fun r =>
  mkExternalPRContext (ExternalPRContext_Number r) (ExternalPRContext_URL r)
    (ExternalPRContext_Title r) (ExternalPRContext_Body r) (ExternalPRContext_Branch r)
    (ExternalPRContext_Head r) (ExternalPRContext_Base r) (ExternalPRContext_HeadRepository r)
    (ExternalPRContext_BaseRepository r) (ExternalPRContext_TitleTruncated r)
    (ExternalPRContext_BodyTruncated r) (ExternalPRContext_LocalHeadAvailable r).

Record PRCoverage := mkPRCoverage {
  PRCoverage_ObservedAt       : option string;
  PRCoverage_Complete         : bool;
  PRCoverage_TotalOpen        : N;
  PRCoverage_TotalExternal    : N;
  PRCoverage_IncludedExternal : N;
  PRCoverage_OmittedExternal  : N;
  PRCoverage_MaxExternal      : N;
  PRCoverage_MaxTitleChars    : N;
  PRCoverage_MaxBodyChars     : N;
  PRCoverage_MaxContextBytes  : N;
}.
#[export] Instance PRCoverage_eq_dec : EqDecision PRCoverage.
Proof. solve_decision. Defined.
#[export] Instance eta_PRCoverage : Eta PRCoverage := fun r =>
  mkPRCoverage (PRCoverage_ObservedAt r) (PRCoverage_Complete r) (PRCoverage_TotalOpen r)
    (PRCoverage_TotalExternal r) (PRCoverage_IncludedExternal r) (PRCoverage_OmittedExternal r)
    (PRCoverage_MaxExternal r) (PRCoverage_MaxTitleChars r) (PRCoverage_MaxBodyChars r)
    (PRCoverage_MaxContextBytes r).

Record Grounding := mkGrounding {
  Grounding_Revision           : string;
  Grounding_PRs                : list PullRequest;
  Grounding_ExternalPRs        : list ExternalPRContext;
  Grounding_PRCoverage         : PRCoverage;
  Grounding_History            : Json;
  Grounding_MaintenanceDue     : bool;
  Grounding_MaintenanceTargets : list string;
}.
#[export] Instance Grounding_eq_dec : EqDecision Grounding.
Proof. solve_decision. Defined.
#[export] Instance eta_Grounding : Eta Grounding := fun r =>
  mkGrounding (Grounding_Revision r) (Grounding_PRs r) (Grounding_ExternalPRs r)
    (Grounding_PRCoverage r) (Grounding_History r) (Grounding_MaintenanceDue r)
    (Grounding_MaintenanceTargets r).

Record DecisionRecord := mkDecisionRecord {
  DecisionRecord_Kind               : string;
  DecisionRecord_ID                 : string;
  DecisionRecord_CycleMode          : CycleMode;
  DecisionRecord_Repository         : string;
  DecisionRecord_Target             : string;
  DecisionRecord_ProblemKey         : string;
  DecisionRecord_RelevantPaths      : list string;
  DecisionRecord_Decision           : string;
  DecisionRecord_Reason             : string;
  DecisionRecord_SourceRevision     : string;
  DecisionRecord_ContextFingerprint : string;
  DecisionRecord_ReconsiderAfter    : string;
  DecisionRecord_CycleID            : string;
  DecisionRecord_ReconsiderationDue : bool;
}.
#[export] Instance DecisionRecord_eq_dec : EqDecision DecisionRecord.
Proof. solve_decision. Defined.
#[export] Instance eta_DecisionRecord : Eta DecisionRecord := fun r =>
  mkDecisionRecord (DecisionRecord_Kind r) (DecisionRecord_ID r) (DecisionRecord_CycleMode r)
    (DecisionRecord_Repository r) (DecisionRecord_Target r) (DecisionRecord_ProblemKey r)
    (DecisionRecord_RelevantPaths r) (DecisionRecord_Decision r) (DecisionRecord_Reason r)
    (DecisionRecord_SourceRevision r) (DecisionRecord_ContextFingerprint r)
    (DecisionRecord_ReconsiderAfter r) (DecisionRecord_CycleID r)
    (DecisionRecord_ReconsiderationDue r).

Record Cycle := mkCycle {
  Cycle_Mode           : CycleMode;
  Cycle_DeliveryMode   : DeliveryMode;
  Cycle_ID             : string;
  Cycle_Number         : N;
  Cycle_Status         : CycleStatus;
  Cycle_StartedAt      : string;
  Cycle_CompletedAt    : option string;
  Cycle_Grounding      : option Grounding;
  Cycle_Proposals      : list Proposal;
  Cycle_Assessments    : list Json;
  Cycle_Sessions       : list Session;
  Cycle_Error          : option string;
  Cycle_Repository     : string;
  Cycle_DecisionMemory : list DecisionRecord;
  Cycle_RunID          : option string;
  Cycle_Lifecycle      : WorkspaceLifecycle;
}.
#[export] Instance Cycle_eq_dec : EqDecision Cycle.
Proof. solve_decision. Defined.
#[export] Instance eta_Cycle : Eta Cycle := fun r =>
  mkCycle (Cycle_Mode r) (Cycle_DeliveryMode r) (Cycle_ID r) (Cycle_Number r) (Cycle_Status r)
    (Cycle_StartedAt r) (Cycle_CompletedAt r) (Cycle_Grounding r) (Cycle_Proposals r)
    (Cycle_Assessments r) (Cycle_Sessions r) (Cycle_Error r) (Cycle_Repository r)
    (Cycle_DecisionMemory r) (Cycle_RunID r) (Cycle_Lifecycle r).

Record RunBatch := mkRunBatch {
  RunBatch_ID      : string;
  RunBatch_Phase   : BatchPhase;
  RunBatch_CycleID : option string;
}.
#[export] Instance RunBatch_eq_dec : EqDecision RunBatch.
Proof. solve_decision. Defined.
#[export] Instance eta_RunBatch : Eta RunBatch := fun r =>
  mkRunBatch (RunBatch_ID r) (RunBatch_Phase r) (RunBatch_CycleID r).

Record Control := mkControl {
  Control_Paused             : bool;
  Control_CycleNumber        : N;
  Control_NextCycleAt        : Z;
  Control_BudgetWaiting      : bool;
  Control_Error              : option string;
  Control_Mode               : OperatingMode;
  Control_Batch              : option RunBatch;
  Control_IdleStreak         : N;
  Control_ContextFingerprint : string;
}.
#[export] Instance Control_eq_dec : EqDecision Control.
Proof. solve_decision. Defined.
#[export] Instance eta_Control : Eta Control := fun r =>
  mkControl (Control_Paused r) (Control_CycleNumber r) (Control_NextCycleAt r)
    (Control_BudgetWaiting r) (Control_Error r) (Control_Mode r) (Control_Batch r)
    (Control_IdleStreak r) (Control_ContextFingerprint r).

Record Event := mkEvent {
  Event_ID       : Z;
  Event_At       : string;
  Event_EntityID : string;
  Event_Kind     : EventKind;
  Event_Message  : string;
}.
#[export] Instance Event_eq_dec : EqDecision Event.
Proof. solve_decision. Defined.
#[export] Instance eta_Event : Eta Event := fun r =>
  mkEvent (Event_ID r) (Event_At r) (Event_EntityID r) (Event_Kind r) (Event_Message r).

Record OpenPRInventory := mkOpenPRInventory {
  OpenPRInventory_Repository : string;
  OpenPRInventory_ObservedAt : string;
  OpenPRInventory_PRs        : list PullRequest;
}.
#[export] Instance OpenPRInventory_eq_dec : EqDecision OpenPRInventory.
Proof. solve_decision. Defined.
#[export] Instance eta_OpenPRInventory : Eta OpenPRInventory := fun r =>
  mkOpenPRInventory (OpenPRInventory_Repository r) (OpenPRInventory_ObservedAt r)
    (OpenPRInventory_PRs r).

Record PRCapacity := mkPRCapacity {
  PRCapacity_Limit      : N;
  PRCapacity_OwnedOpen  : option N;
  PRCapacity_Reserved   : N;
  PRCapacity_Remaining  : option N;
  PRCapacity_ObservedAt : option string;
  PRCapacity_Status     : string;
  PRCapacity_Reason     : option string;
}.
#[export] Instance PRCapacity_eq_dec : EqDecision PRCapacity.
Proof. solve_decision. Defined.
#[export] Instance eta_PRCapacity : Eta PRCapacity := fun r =>
  mkPRCapacity (PRCapacity_Limit r) (PRCapacity_OwnedOpen r) (PRCapacity_Reserved r)
    (PRCapacity_Remaining r) (PRCapacity_ObservedAt r) (PRCapacity_Status r)
    (PRCapacity_Reason r).

Record RequestAssessment := mkRequestAssessment {
  RequestAssessment_CycleID    : string;
  RequestAssessment_ProposalID : option string;
  RequestAssessment_Mode       : CycleMode;
  RequestAssessment_Decision   : string;
  RequestAssessment_Reason     : string;
  RequestAssessment_At         : string;
}.
#[export] Instance RequestAssessment_eq_dec : EqDecision RequestAssessment.
Proof. solve_decision. Defined.
#[export] Instance eta_RequestAssessment : Eta RequestAssessment := fun r =>
  mkRequestAssessment (RequestAssessment_CycleID r) (RequestAssessment_ProposalID r)
    (RequestAssessment_Mode r) (RequestAssessment_Decision r) (RequestAssessment_Reason r)
    (RequestAssessment_At r).

Record OperatorRequest := mkOperatorRequest {
  OperatorRequest_ID          : string;
  OperatorRequest_Repository  : string;
  OperatorRequest_Title       : string;
  OperatorRequest_Description : string;
  OperatorRequest_Target      : string;
  OperatorRequest_Status      : RequestStatus;
  OperatorRequest_CreatedAt   : string;
  OperatorRequest_UpdatedAt   : string;
  OperatorRequest_Assessment  : option RequestAssessment;
  OperatorRequest_TaskID      : option string;
}.
#[export] Instance OperatorRequest_eq_dec : EqDecision OperatorRequest.
Proof. solve_decision. Defined.
#[export] Instance eta_OperatorRequest : Eta OperatorRequest := fun r =>
  mkOperatorRequest (OperatorRequest_ID r) (OperatorRequest_Repository r)
    (OperatorRequest_Title r) (OperatorRequest_Description r) (OperatorRequest_Target r)
    (OperatorRequest_Status r) (OperatorRequest_CreatedAt r) (OperatorRequest_UpdatedAt r)
    (OperatorRequest_Assessment r) (OperatorRequest_TaskID r).

(** [wirejson.Equal] on two values of one type. *)
Definition Equal {A} `{EqDecision A} (a b : A) : bool := bool_decide (a = b).
Lemma Equal_true {A} `{EqDecision A} (a b : A) : Equal a b = true <-> a = b.
Proof. apply bool_decide_eq_true. Qed.
Lemma Equal_refl {A} `{EqDecision A} (a : A) : Equal a a = true.
Proof. by apply Equal_true. Qed.

(** Turn the record comparisons among the hypotheses into equalities. *)
Ltac equal_hyps :=
  repeat match goal with H : Equal _ _ = true |- _ => apply (proj1 (Equal_true _ _)) in H end.
