(* ===== verification/GoErrors.v ===== *)
(** * Go errors

    [error] keeps what the program observes of an error: the constant text of
    [errors.New], the format and arguments of [fmt.Errorf], which arguments
    were wrapped with [%w], and the [BlockedReason] values that are errors
    themselves ([internal/model/model.go]). *)
From S2P Require Import Prelude GoStrings WireJson Enums.

Inductive error :=
| New (msg : string)
| Reason (b : BlockedReason)
| Errorf (format : string) (args : list verb)
with verb :=
| VStr (s : string)
| VNum (n : N)
| VErr (e : error)
| VWrap (e : error).

(** [visit] walks the tree of wrapped errors in order; each [BlockedReason] it
    meets replaces the result, so the last one wins. *)
Fixpoint visit (e : error) (result : BlockedReason) : BlockedReason :=
  match e with
  | New _ => result
  | Reason b => b
  | Errorf _ args =>
      (fix children (l : list verb) (result : BlockedReason) :=
         match l with
         | [] => result
         | VWrap child :: t => children t (visit child result)
         | _ :: t => children t result
         end) args result
  end.
Definition BlockedReasonFromError (err : option error) : BlockedReason :=
  match err with None => BlockedUnknown | Some e => visit e BlockedUnknown end.

(** [errors.Is(err, target)] for a sentinel made by [errors.New]. *)
Fixpoint error_is (target : string) (e : error) : bool :=
  match e with
  | New m => bool_decide (m = target)
  | Reason _ => false
  | Errorf _ args =>
      (fix children (l : list verb) :=
         match l with
         | [] => false
         | VWrap child :: t => error_is target child || children t
         | _ :: t => children t
         end) args
  end.

Definition blockedReasonMessages (b : BlockedReason) : string :=
  match b with
  | BlockedBudgetExhausted => "Daily admission budget exhausted; adjust the current limit or wait until UTC midnight"
  | BlockedStorageLimit => "Storage admission limit reached; resolve retained workspaces or adjust the limit"
  | BlockedStaleBase => "Source or default branch moved; supersede this task and rediscover against current context"
  | BlockedRemoteConflict => "Remote branch moved outside recorded task outputs; reconcile the preserved work"
  | BlockedPublicationUncertain => "Publication result is uncertain; reconcile the preserved output commit"
  | BlockedRunnerUnavailable => "Runner request failed; inspect the saved route and runner diagnostics"
  | BlockedInvalidReview => "Incomplete or invalid review cannot authorize publication"
  | BlockedVerificationFailed => "Verification or repairs remain unresolved; evidence is preserved"
  | BlockedDependencyBlocked => "A dependency is unresolved; deliver it or rediscover dependent work"
  | BlockedInvalidPlan => "The saved dependency plan cannot execute; rediscover a valid task order"
  | BlockedWorkspaceInvalid => "Workspace initialization or recorded evidence is inconsistent; preserve and inspect it"
  | BlockedRetryLimit => "Attempt or repair limit exhausted; inspect evidence before adjusting attempt limits"
  | BlockedTimeout => "Task time limit exceeded; inspect the preserved workspace"
  | BlockedUnknown => "Unclassified task failure; inspect the recorded diagnostics"
  end.
Definition BlockedReason_Error (b : BlockedReason) : string := blockedReasonMessages b.

Lemma visit_wrapped fmt pre b post result :
  Forall (fun v => match v with VWrap _ => False | _ => True end) post ->
  visit (Errorf fmt (pre ++ VWrap (Reason b) :: post)) result = b.
Proof.
  intros Hpost. simpl. revert result. induction pre as [|v pre IH]; intros result; simpl.
  - clear result. induction Hpost as [|v post Hv _ IH]; [done|]. by destruct v.
  - destruct v; apply IH.
Qed.
