(* ===== verification/Config.v ===== *)
(** * Saved configuration ([internal/config/config.go], [maintenance_paths.go])

    Defaults, identities of repositories and paths, branch and path syntax,
    and the validation that every saved configuration passes.  [os.Stat] on
    the checkout's [.git] is the parameter [git_dir] of the functions that use
    it. *)
From S2P Require Import Prelude GoStrings WireJson Enums Types GoErrors.
Local Open Scope string_scope.
Local Open Scope list_scope.
Local Open Scope N_scope.

(** ** Constants and defaults *)

Definition TokenEnv := "OCTOMUS_TOKEN"%string.
Definition WebhookEnv := "OCTOMUS_NOTIFICATION_WEBHOOK_URL"%string.
Definition MergeTokenEnv := "OCTOMUS_MERGE_TOKEN"%string.
Definition MergeRulesetEnv := "OCTOMUS_MERGE_RULESET_ID"%string.
Definition SlackAppTokenEnv := "OCTOMUS_SLACK_APP_TOKEN"%string.
Definition SlackBotTokenEnv := "OCTOMUS_SLACK_BOT_TOKEN"%string.
Definition DiscordBotTokenEnv := "OCTOMUS_DISCORD_BOT_TOKEN"%string.
Definition IsChatSecretEnv (key : string) : bool :=
  bool_decide (key ∈ [SlackAppTokenEnv; SlackBotTokenEnv; DiscordBotTokenEnv;
    "OCTOMUS_SLACK_APP_TOKEN_FILE"; "OCTOMUS_SLACK_BOT_TOKEN_FILE";
    "OCTOMUS_DISCORD_BOT_TOKEN_FILE"]%string).

Definition Categories : list string :=
  ["features"; "correctness"; "performance"; "ux-dx"; "refactoring"; "simplification";
   "tests"; "dependencies"; "documentation"]%string.
Definition Roles : list string :=
  ["orchestrator"; "discovery"; "proposal_reviewer"; "code_reviewer"]%string.
Definition Tiers : list string := ["XS"; "S"; "M"; "L"; "XL"]%string.
Definition NewRoute (model effort : string) : Route :=
  mkRoute BackendCodex model effort None None.
Definition DefaultRepairRoute : Route := NewRoute "gpt-6.1-sol" "medium".

Definition Default : Config := {|
  Config_Repository := ""; Config_GitHubRepo := "";
  Config_DefaultBranch := "main"; Config_BranchPrefix := "octomus/";
  Config_CodexBinary := "codex"; Config_OpencodeBinary := "opencode";
  Config_Roles := list_to_map [
    ("orchestrator", NewRoute "gpt-6.1-sol" "high");
    ("discovery", NewRoute "gpt-6-luna" "high");
    ("proposal_reviewer", NewRoute "gpt-6.1-sol" "high");
    ("code_reviewer", NewRoute "gpt-6-astra" "high")]%string;
  Config_Tiers := list_to_map [
    ("XS", NewRoute "gpt-6-luna" "xhigh"); ("S", NewRoute "gpt-6-luna" "max");
    ("M", NewRoute "gpt-6.1-sol" "low"); ("L", NewRoute "gpt-6.1-sol" "medium");
    ("XL", NewRoute "gpt-6-astra" "high")]%string;
  Config_RepairRoute := DefaultRepairRoute; Config_Categories := Categories;
  Config_PlanningGuidance := "";
  Config_DeliveryMode := DeliveryModeStandard;
  Config_AutoMergeMaxLines := 500; Config_AutoMergeMaxFiles := 10;
  Config_AutoMergeExcludedPaths := []; Config_VerificationCommands := [];
  Config_DiscoveryAgents := 9; Config_ExecutionConcurrency := 2;
  Config_CycleIntervalSeconds := 1800; Config_MaintenanceEveryCycles := 3;
  Config_LargePRLines := 1000; Config_LongLivedPRDays := 7; Config_MaxTasksPerCycle := 5;
  Config_MaxRepairRounds := 4; Config_MaxNoProgressRounds := 2; Config_MaxRetries := 2;
  Config_SessionTimeoutSeconds := 1800; Config_TaskTimeoutSeconds := 14400;
  Config_CommandTimeoutSeconds := 600; Config_MaxSessionsPerDay := 150;
  Config_MaxOpenPRs := 5; Config_MaxWorkspaceBytes := 20000000000;
  Config_RunnerStoragePaths := ∅; Config_RetainCompletedDays := 14;
  Config_RetainEvents := 10000;
|}.

(** ** Routes *)

Definition Backend_Slug (b : Backend) : string := enum_String b.
Definition Backend_Display (b : Backend) : string :=
  match b with BackendCodex => "Codex" | BackendOpencode => "OpenCode" end.

Definition Route_String (r : Route) : string :=
  match Route_Backend r with
  | BackendCodex => "Codex · " +:+ Route_Model r +:+ " / " +:+ Route_Effort r
  | BackendOpencode =>
      "OpenCode · " +:+ default ""%string (Route_Provider r) +:+ "/" +:+ Route_Model r +:+ " / "
        +:+ default "provider default"%string (Route_Variant r)
  end.

Definition Route_RequireBackend (r : Route) (backend : Backend) : result unit error :=
  guard bool_decide (Route_Backend r = backend)
    else Errorf "Wrong runner for %s" [VStr (Route_String r)];
  Ok tt.

(** The closure [valid] of [Route.Validate]. *)
Definition valid_name (s : string) (max : N) : bool :=
  (slen s <=? max) && bool_decide (TrimSpace s = s) && negb (ContainsFunc s is_control).
Definition valid_opt (o : option string) (max : N) : bool :=
  match o with None => true | Some s => valid_name s max end.

Definition Route_Validate (r : Route) (ready : bool) : result unit error :=
  let max := match Route_Backend r with BackendOpencode => 512 | BackendCodex => 100 end in
  guard valid_name (Route_Model r) max
    else Errorf "Model must be at most %d bytes with no surrounding spaces or control characters" [VNum max];
  guard valid_name (Route_Effort r) 20
    else New "Effort must be at most 20 bytes with no surrounding spaces or control characters";
  guard valid_opt (Route_Provider r) 100
    else New "Provider must be at most 100 bytes with no surrounding spaces or control characters";
  guard match Route_Variant r with
        | None => true
        | Some v => negb (bool_decide (v = ""%string) || negb (valid_name v 100))
        end
    else New "Variant must be a non-empty name of at most 100 bytes with no surrounding spaces or control characters";
  match Route_Backend r with
  | BackendCodex =>
      guard negb (bool_decide (Route_Provider r <> None) || bool_decide (Route_Variant r <> None))
        else New "Codex routes use reasoning effort, not an OpenCode provider or variant";
      guard negb (ready && (bool_decide (Route_Model r = ""%string)
                            || bool_decide (Route_Effort r = ""%string)))
        else New "Set the Codex model and effort for every required route";
      Ok tt
  | BackendOpencode =>
      guard bool_decide (Route_Effort r = ""%string)
        else New "OpenCode routes use a variant, not Codex reasoning effort";
      guard negb (ready && (bool_decide (Route_Model r = ""%string)
                            || bool_decide (default ""%string (Route_Provider r) = ""%string)))
        else New "Set the OpenCode provider and model for every required route";
      Ok tt
  end.

Definition Config_Binary (c : Config) (backend : Backend) : string :=
  match backend with
  | BackendCodex => Config_CodexBinary c
  | BackendOpencode => Config_OpencodeBinary c
  end.

Record NamedRoute := mkNamedRoute { NamedRoute_Name : string; NamedRoute_Route : Route }.

(** [slices.Sorted(maps.Keys(m))], each key with its route. *)
Definition sorted_keys {A} (m : gmap string A) : list string := sort_strings (map_to_list m).*1.
Definition named_routes (m : gmap string Route) (skip : string -> bool) : list NamedRoute :=
  flat_map (fun key =>
    if skip key then [] else
    match m !! key with Some r => [mkNamedRoute key r] | None => [] end) (sorted_keys m).

Definition RoutesFor (c : Config) (audit : bool) : list NamedRoute :=
  let result := named_routes (Config_Roles c)
                  (fun key => audit && bool_decide (key = "code_reviewer"%string)) in
  if audit then result else
  result ++ named_routes (Config_Tiers c) (fun _ => false)
         ++ [mkNamedRoute "repair" (Config_RepairRoute c)].

Definition EffectiveCategories (c : Config) : list string :=
  match Config_DeliveryMode c with
  | DeliveryModeMaintenance =>
      List.filter (fun category => negb (bool_decide (category = "features"%string)))
        (Config_Categories c)
  | DeliveryModeStandard => Config_Categories c
  end.

Definition PlanningCost (c : Config) : N := u64_add (Config_DiscoveryAgents c) 4.

(** ** Identities *)

(** [EqualASCII]: equality up to the case of ASCII letters, byte by byte. *)
Definition fold_byte (x : N) : N := if in_range 65 90 x then x + 32 else x.
Fixpoint equal_ascii (a b : list ascii) : bool :=
  match a, b with
  | [], [] => true
  | x :: a, y :: b =>
      if fold_byte (N_of_ascii x) =? fold_byte (N_of_ascii y) then equal_ascii a b else false
  | _, _ => false
  end.
Definition EqualASCII (a b : string) : bool :=
  if negb (slen a =? slen b) then false else equal_ascii (chars a) (chars b).

(** [pathIdentity]: the components of a path, without empty and [.] ones; a
    leading [.] is kept. *)
Definition path_part (i : nat) (p : string) : bool :=
  negb (bool_decide (p = ""%string)) && (negb (bool_decide (p = "."%string)) || (i =? 0)%nat).
Definition path_parts (path : string) : list string :=
  (if HasPrefix path "/" then ["/"%string] else []) ++
  (List.filter (fun '(i, p) => path_part i p) (imap pair (Split path "/"%char))).*2.
Definition pathIdentity (path : string) : string := Join (path_parts path) "/".
Definition SamePath (a b : string) : bool := bool_decide (pathIdentity a = pathIdentity b).

Definition SameRemoteIdentity (c other : Config) : bool :=
  SamePath (Config_Repository c) (Config_Repository other)
  && EqualASCII (Config_GitHubRepo c) (Config_GitHubRepo other)
  && bool_decide (Config_DefaultBranch c = Config_DefaultBranch other).
Definition SamePRPolicy (a b : Config) : bool :=
  SameRemoteIdentity a b && bool_decide (Config_BranchPrefix a = Config_BranchPrefix b).

(** ** Syntax *)

Definition asciiAlphanumeric (c : ascii) : bool :=
  let n := N_of_ascii c in in_range 97 122 n || in_range 65 90 n || in_range 48 57 n.

Definition ValidGitHubRepo (repo : string) : bool :=
  let parts := Split repo "/"%char in
  (List.length parts =? 2)%nat &&
  forallb (fun part =>
    negb (bool_decide (part = ""%string)) &&
    forallb (fun b => asciiAlphanumeric b || char_in b "-_.") (chars part)) parts.

Definition ValidateBinary (binary : string) : result unit error :=
  guard negb (blank binary || (4096 <? slen binary) || ContainsFunc binary is_control)
    else New "Set a valid runner executable path";
  Ok tt.

Definition hex_set : string := "0123456789abcdefABCDEF".
Definition first_in (s set : string) : bool :=
  match chars s with [] => false | c :: _ => char_in c set end.
Definition last_in (s set : string) : bool :=
  match last (chars s) with None => false | Some c => char_in c set end.

Definition ValidBranch (s : string) : bool :=
  if HasPrefix s "refs/" || ((slen s =? 40) && bool_decide (Trim s hex_set = ""%string)) then false else
  if bool_decide (s = ""%string) || first_in s "-/." || last_in s "/." || Contains s ".."
     || Contains s "@{" || Contains s "//" then false else
  forallb (fun p => negb (HasPrefix p "." || HasSuffix p ".lock")) (Split s "/"%char)
  && forallb (fun b => asciiAlphanumeric b || char_in b "-_./") (chars s).

Definition validGuidance (guidance : string) : bool :=
  negb ((4096 <? slen guidance) || negb (valid_utf8 guidance)) &&
  negb (ContainsFunc guidance (fun r => is_control r && negb (r =? 10) && negb (r =? 9))).

(** The characters [ContainsAny] refuses in an excluded path: wildcards,
    brackets, quotes and shell or expression characters. *)
Definition expression_chars : string :=
  "*?[]{}()!&;|<>'" +:+ str [ascii_of_N 34] +:+ "\\" +:+ "`" +:+ "$~:^#@%".

Definition validExcludedPath (entry : string) : bool :=
  if bool_decide (entry = ""%string) || (4096 <? slen entry) then false else
  if HasPrefix entry "/" || ContainsFunc entry (fun r => is_control r || is_space r) then false else
  forallb (fun component =>
    negb (bool_decide (component = ""%string) || bool_decide (component = "."%string)
          || bool_decide (component = ".."%string))) (Split (TrimSuffix entry "/") "/"%char)
  && negb (ContainsAny entry expression_chars).

Fixpoint excluded_loop (seen : gset string) (paths : list string) : result unit error :=
  match paths with
  | [] => Ok tt
  | entry :: rest =>
      let key := TrimSuffix entry "/" in
      guard negb (bool_decide (key ∈ seen)) else Errorf "Duplicate manual-merge path %q" [VStr entry];
      guard validExcludedPath entry
        else Errorf "Manual-merge path %q must be a repository-relative name or subtree prefix without whitespace, control, traversal or expression characters" [VStr entry];
      excluded_loop ({[key]} ∪ seen) rest
  end.
Definition validExcludedPaths (paths : list string) : result unit error :=
  guard negb (100 <? lenN paths) else New "At most 100 additional manual-merge paths are supported";
  excluded_loop ∅ paths.

(** ** Validation *)

Definition between (v low high : N) : bool := (low <=? v) && (v <=? high).

Definition in_quotes (s : string) : string := str [ascii_of_N 34] +:+ s +:+ str [ascii_of_N 34].

(** The table of [validateMode]. *)
Definition checks (c : Config) : list (bool * string) :=
  [ (between (Config_DiscoveryAgents c) 8 10, "Discovery requires 8–10 agents");
    (between (Config_ExecutionConcurrency c) 1 8, "Execution concurrency must be 1–8");
    (between (Config_MaxTasksPerCycle c) 1 20, "Tasks per cycle must be 1–20");
    (between (Config_MaxRepairRounds c) 1 20, "Repair rounds must be 1–20");
    (0 <? Config_MaxNoProgressRounds c, "No-progress rounds must be at least 1");
    (Config_MaxRetries c <=? 10, "Retry limit must be at most 10");
    (between (Config_CycleIntervalSeconds c) 30 604800, "Cycle interval must be 30–604800 seconds");
    (between (Config_MaintenanceEveryCycles c) 1 10000, "Maintenance cadence must be 1–10000 cycles");
    (between (Config_SessionTimeoutSeconds c) 10 604800, "Session timeout must be 10–604800 seconds");
    (between (Config_CommandTimeoutSeconds c) 1 604800, "Command timeout must be 1–604800 seconds");
    (between (Config_TaskTimeoutSeconds c) (Config_SessionTimeoutSeconds c) 604800,
       "Task timeout must be at least the session timeout and at most 604800 seconds");
    (between (Config_MaxSessionsPerDay c) 1 1000000, "Daily session budget must be 1–1000000");
    (between (Config_MaxOpenPRs c) 1 1000, "Open PR capacity must be 1–1000");
    (between (Config_MaxWorkspaceBytes c) 1000000 1000000000000000,
       "Workspace budget must be 1000000–1000000000000000 bytes");
    (between (Config_RetainCompletedDays c) 1 36500, "Workspace retention must be 1–36500 days");
    (between (Config_RetainEvents c) 100 100000, "Retained activity events must be 100–100000");
    (ValidBranch (Config_DefaultBranch c), "Default branch must be a valid branch name");
    (ValidBranch (Config_BranchPrefix c +:+ "task") && HasSuffix (Config_BranchPrefix c) "/",
       "Owned branch prefix must be a valid branch path ending in " +:+ in_quotes "/");
    (negb (HasPrefix (Config_DefaultBranch c) (Config_BranchPrefix c)),
       "Owned branch prefix must exclude the default branch");
    (negb (HasPrefix (Config_BranchPrefix c) (Config_DefaultBranch c +:+ "/")),
       "Owned branch prefix cannot be nested under the default branch")
  ].

Fixpoint run_checks (l : list (bool * string)) : result unit error :=
  match l with
  | [] => Ok tt
  | (ok, message) :: rest => guard ok else Errorf "%s" [VStr message]; run_checks rest
  end.

Definition exact (routes : gmap string Route) (keys : list string) : bool :=
  (size routes =? List.length keys)%nat &&
  forallb (fun key => bool_decide (is_Some (routes !! key))) keys.

Fixpoint validate_routes (routes : list NamedRoute) (ready : bool) : result unit error :=
  match routes with
  | [] => Ok tt
  | route :: rest =>
      match Route_Validate (NamedRoute_Route route) ready with
      | Err err => Err (Errorf "%s route: %w" [VStr (NamedRoute_Name route); VWrap err])
      | Ok _ => validate_routes rest ready
      end
  end.

Definition IsAbs (path : string) : bool := HasPrefix path "/".

Section validate.
(** [os.Stat(path)] succeeds. *)
Context (git_dir : string -> bool).
Implicit Types c : Config.

Definition validateRepository c : result unit error :=
  guard IsAbs (Config_Repository c) && git_dir (Config_Repository c +:+ "/.git")
    else New "Repository must be an absolute path to a Git checkout";
  guard ValidGitHubRepo (Config_GitHubRepo c) else New "GitHub repository must be owner/name";
  Ok tt.

Definition validate_categories c : result unit error :=
  guard negb (lenN (Config_Categories c) =? 0) else New "Select valid improvement categories";
  guard forallb (fun v => bool_decide (v ∈ Categories)) (Config_Categories c)
    else New "Select valid improvement categories";
  Ok tt.

Definition validateMode c (ready audit : bool) : result unit error :=
  let! _ := run_checks (checks c) in
  let! _ := validate_categories c in
  guard match Config_DeliveryMode c with
        | DeliveryModeStandard => true
        | DeliveryModeMaintenance => negb (lenN (EffectiveCategories c) =? 0)
        end
    else New "Maintenance delivery requires at least one enabled non-feature category";
  guard between (Config_AutoMergeMaxLines c) 1 10000 else New "Auto-merge line limit must be 1–10000";
  guard between (Config_AutoMergeMaxFiles c) 1 100 else New "Auto-merge file limit must be 1–100";
  let! _ := validExcludedPaths (Config_AutoMergeExcludedPaths c) in
  guard validGuidance (Config_PlanningGuidance c)
    else New "Planning guidance must be UTF-8 text of at most 4096 bytes without control characters other than newlines and tabs";
  guard exact (Config_Roles c) Roles
    else Errorf "Configure exactly the four planning and review roles (%s)" [VStr (Join Roles ", ")];
  guard exact (Config_Tiers c) Tiers
    else Errorf "Configure exactly the five execution tiers (%s)" [VStr (Join Tiers ", ")];
  let! _ := validate_routes (RoutesFor c false) false in
  guard forallb (fun '(backend, path) =>
          (bool_decide (backend = "codex"%string) || bool_decide (backend = "opencode"%string))
          && IsAbs path) (map_to_list (Config_RunnerStoragePaths c))
    else New "Runner storage measurement requires an absolute path for Codex or OpenCode";
  let! _ := ValidateBinary (Config_CodexBinary c) in
  let! _ := ValidateBinary (Config_OpencodeBinary c) in
  guard forallb (fun command => negb (blank command || (4096 <? slen command)))
          (Config_VerificationCommands c)
    else New "Each verification command must be non-empty and at most 4096 bytes";
  if ready then
    let! _ := validate_routes (RoutesFor c audit) true in
    let! _ := validateRepository c in
    guard negb (negb audit && (lenN (Config_VerificationCommands c) =? 0))
      else New "Set at least one meaningful repository verification command";
    Ok tt
  else Ok tt.

Definition Validate c (ready : bool) : result unit error := validateMode c ready false.
Definition ValidateAudit c : result unit error := validateMode c true true.
Definition ValidateBaseline c : result unit error :=
  let! _ := Validate c false in
  let! _ := validateRepository c in
  guard negb (lenN (Config_VerificationCommands c) =? 0)
    else New "Set at least one meaningful repository verification command";
  Ok tt.
End validate.

(** ** Paths that always need a manual merge ([maintenance_paths.go]) *)

Definition manualMergeNames : list string :=
  [ ".github"; ".circleci"; ".buildkite"; ".gitlab-ci.yml"; ".travis.yml";
    "jenkinsfile"; "azure-pipelines.yml"; "makefile";
    "agents.md"; "security.md"; "codeowners"; ".devin"; ".agents"; ".claude"; ".cursor";
    "deploy"; "deployment"; "deployments"; "migrations"; "migration"; "schema.sql";
    "dockerfile"; "containerfile"; ".dockerignore"; "compose.yml"; "compose.yaml";
    "docker-compose.yml"; "docker-compose.yaml";
    ".gitmodules"; ".gitattributes" ]%string.

Section manual.
Context `{Unicode}.

Definition manual_component (component : string) : bool :=
  let lower := ToLower component in
  bool_decide (lower ∈ manualMergeNames)
  || HasPrefix lower "dockerfile." || HasSuffix lower ".dockerfile"
  || HasPrefix lower "containerfile." || HasSuffix lower ".containerfile"
  || ((HasPrefix lower "compose." || HasPrefix lower "docker-compose.")
      && (HasSuffix lower ".yml" || HasSuffix lower ".yaml")).

Definition excludes_path (components : list string) (name entry : string) : bool :=
  let entry := TrimSuffix entry "/" in
  if negb (Contains entry "/") then bool_decide (entry ∈ components)
  else bool_decide (name = entry) || HasPrefix name (entry +:+ "/").

Definition ManualMergePath (name : string) (excluded : list string) : bool :=
  let components := Split name "/"%char in
  existsb manual_component components || existsb (excludes_path components name) excluded.
End manual.

Example default_valid : Validate (fun _ => false) Default false = Ok tt.
Proof. vm_compute. reflexivity. Qed.

(** ** Prefixes and suffixes *)

Lemma HasPrefix_spec s p : HasPrefix s p = true <-> chars p `prefix_of` chars s.
Proof. apply bool_decide_eq_true. Qed.
Lemma HasSuffix_spec s p : HasSuffix s p = true <-> chars p `suffix_of` chars s.
Proof. apply bool_decide_eq_true. Qed.
Lemma HasPrefix_refl s : HasPrefix s s = true.
Proof. by apply HasPrefix_spec. Qed.
Lemma HasPrefix_trans a b c : HasPrefix b a = true -> HasPrefix c b = true -> HasPrefix c a = true.
Proof. rewrite !HasPrefix_spec. apply (transitivity (R := prefix)). Qed.
Lemma HasPrefix_app s t : HasPrefix (s +:+ t) s = true.
Proof. apply HasPrefix_spec. rewrite chars_app. by eexists. Qed.

(** A prefix of [d ++ "/"] is a prefix of [d] or all of it. *)
Lemma prefix_snoc {A} (l d : list A) (x : A) :
  l `prefix_of` d ++ [x] -> l `prefix_of` d \/ l = d ++ [x].
Proof.
  intros [k E]. destruct k as [|k0 k _] using rev_ind.
  - right. by rewrite app_nil_r in E.
  - left. rewrite app_assoc in E. apply app_inj_tail in E as [-> _]. by eexists.
Qed.

(** ** Equality up to ASCII case *)

Lemma equal_ascii_spec a b :
  equal_ascii a b = true <->
  map (fun c => fold_byte (N_of_ascii c)) a = map (fun c => fold_byte (N_of_ascii c)) b.
Proof.
  revert b. induction a as [|x a IH]; intros [|y b]; simpl; try done.
  destruct (N.eqb_spec (fold_byte (N_of_ascii x)) (fold_byte (N_of_ascii y))) as [E|E].
  - rewrite IH, E. split; [by intros -> | by intros [= ->]].
  - split; [done | by intros [= ]].
Qed.

Definition folded (s : string) : list N := map (fun c => fold_byte (N_of_ascii c)) (chars s).

Lemma EqualASCII_spec a b : EqualASCII a b = true <-> folded a = folded b.
Proof.
  unfold EqualASCII, folded. rewrite <- equal_ascii_spec.
  destruct (N.eqb_spec (slen a) (slen b)) as [E|E]; simpl; [done|].
  split; [done|]. intros F%equal_ascii_spec%(f_equal List.length).
  rewrite !length_map in F. destruct E. rewrite !slen_chars. unfold lenN. by f_equal.
Qed.

#[export] Instance EqualASCII_equivalence : Equivalence (fun a b => EqualASCII a b = true).
Proof.
  split; repeat intro; rewrite EqualASCII_spec in *; congruence.
Qed.
Lemma EqualASCII_refl a : EqualASCII a a = true.
Proof. by apply EqualASCII_spec. Qed.
Lemma EqualASCII_sym a b : EqualASCII a b = EqualASCII b a.
Proof.
  destruct (EqualASCII a b) eqn:E; symmetry.
  - apply EqualASCII_spec. symmetry. by apply EqualASCII_spec.
  - destruct (EqualASCII b a) eqn:F; [|done].
    apply EqualASCII_spec in F. symmetry in F. apply EqualASCII_spec in F. congruence.
Qed.
Lemma EqualASCII_trans a b c :
  EqualASCII a b = true -> EqualASCII b c = true -> EqualASCII a c = true.
Proof. rewrite !EqualASCII_spec. congruence. Qed.

Lemma SameRemoteIdentity_spec a b :
  SameRemoteIdentity a b = true <->
  pathIdentity (Config_Repository a) = pathIdentity (Config_Repository b) /\
  folded (Config_GitHubRepo a) = folded (Config_GitHubRepo b) /\
  Config_DefaultBranch a = Config_DefaultBranch b.
Proof.
  unfold SameRemoteIdentity, SamePath.
  rewrite !andb_true_iff, !bool_decide_eq_true, EqualASCII_spec. tauto.
Qed.

(** An observation made under one policy describes exactly the configurations
    with the same remote and prefix: the relation is an equivalence. *)
#[export] Instance SamePRPolicy_equivalence : Equivalence (fun a b => SamePRPolicy a b = true).
Proof.
  split; repeat intro; unfold SamePRPolicy in *;
    rewrite ?andb_true_iff, ?SameRemoteIdentity_spec, ?bool_decide_eq_true in *;
    intuition congruence.
Qed.

(** ** What validation guarantees *)

Lemma run_checks_Ok l : run_checks l = Ok tt <-> Forall (fun p => p.1 = true) l.
Proof.
  induction l as [|[[] m] l IH]; simpl; rewrite ?Forall_cons; [by split; [constructor|]| |].
  - rewrite IH. by split; [|intros []].
  - by split; [|intros []].
Qed.

Lemma validateMode_checks gd c ready audit :
  validateMode gd c ready audit = Ok tt -> Forall (fun p => p.1 = true) (checks c).
Proof.
  intros H. unfold validateMode in H. apply result_bind_Ok in H as ([] & H & _).
  by apply run_checks_Ok.
Qed.

Ltac forall_cons H :=
  repeat match type of H with
  | Forall _ (_ :: _) => apply Forall_cons in H as [? H]
  end.

(** The numeric part of a valid configuration. *)
Record config_bounds (c : Config) : Prop := {
  cb_agents : 8 <= Config_DiscoveryAgents c <= 10;
  cb_concurrency : 1 <= Config_ExecutionConcurrency c <= 8;
  cb_tasks : 1 <= Config_MaxTasksPerCycle c <= 20;
  cb_repairs : 1 <= Config_MaxRepairRounds c <= 20;
  cb_progress : 0 < Config_MaxNoProgressRounds c;
  cb_retries : Config_MaxRetries c <= 10;
  cb_interval : 30 <= Config_CycleIntervalSeconds c <= 604800;
  cb_session : 10 <= Config_SessionTimeoutSeconds c;
  cb_command : 1 <= Config_CommandTimeoutSeconds c <= 604800;
  cb_task : Config_SessionTimeoutSeconds c <= Config_TaskTimeoutSeconds c <= 604800;
  cb_sessions : 1 <= Config_MaxSessionsPerDay c <= 1000000;
  cb_prs : 1 <= Config_MaxOpenPRs c <= 1000;
}.

Lemma between_spec v lo hi : between v lo hi = true <-> lo <= v <= hi.
Proof. unfold between. rewrite andb_true_iff, !N.leb_le. done. Qed.

Lemma checks_bounds c : Forall (fun p => p.1 = true) (checks c) -> config_bounds c.
Proof.
  intros H. unfold checks in H. forall_cons H. simpl in *.
  rewrite ?between_spec, ?N.leb_le, ?N.ltb_lt in *. constructor; lia.
Qed.

(** Any branch under the owned prefix. *)
Definition owned_branch (c : Config) (b : string) : bool := HasPrefix b (Config_BranchPrefix c).

Lemma checks_prefix_default c :
  Forall (fun p => p.1 = true) (checks c) ->
  HasPrefix (Config_DefaultBranch c) (Config_BranchPrefix c) = false /\
  HasPrefix (Config_BranchPrefix c) (Config_DefaultBranch c +:+ "/") = false.
Proof.
  intros H. unfold checks in H. forall_cons H. simpl in *.
  by rewrite !negb_true_iff in *.
Qed.

(** A branch under the owned prefix of a valid configuration can neither be
    the default branch, nor lie below it, nor have it below: Octomus never
    writes the default branch, and no owned ref conflicts with it in Git's
    directory of refs. *)
Theorem Validate_owned_disjoint gd c ready audit b :
  validateMode gd c ready audit = Ok tt -> owned_branch c b = true ->
  b <> Config_DefaultBranch c /\
  HasPrefix b (Config_DefaultBranch c +:+ "/") = false /\
  HasPrefix (Config_DefaultBranch c) (b +:+ "/") = false.
Proof.
  intros H%validateMode_checks%checks_prefix_default Hb. destruct H as [Hd Hn].
  unfold owned_branch in Hb. split_and!.
  - intros ->. congruence.
  - apply not_true_is_false. intros E. rewrite HasPrefix_spec in Hb, E.
    destruct (prefix_weak_total _ _ _ Hb E) as [F|F].
    + rewrite chars_app in F. apply prefix_snoc in F as [F|F].
      * apply HasPrefix_spec in F. congruence.
      * assert (HasPrefix (Config_BranchPrefix c) (Config_DefaultBranch c +:+ "/") = true); [|congruence].
        apply HasPrefix_spec. by rewrite chars_app, F.
    + apply HasPrefix_spec in F. congruence.
  - apply not_true_is_false. intros E.
    assert (HasPrefix (Config_DefaultBranch c) (Config_BranchPrefix c) = true); [|congruence].
    eapply HasPrefix_trans; [|exact E]. eapply HasPrefix_trans; [exact Hb|apply HasPrefix_app].
Qed.

Lemma Validate_owned_disjoint_witness :
  "octomus/task-1" <> "main" /\
  HasPrefix "octomus/task-1" "main/" = false /\ HasPrefix "main" "octomus/task-1/" = false.
Proof.
  apply (Validate_owned_disjoint (fun _ => false) Default false false "octomus/task-1");
    vm_compute; reflexivity.
Defined.

Lemma validateMode_not_ready gd c ready audit :
  validateMode gd c ready audit = Ok tt -> validateMode gd c false false = Ok tt.
Proof.
  unfold validateMode. intros H.
  repeat match type of H with
  | result_bind ?r _ = Ok _ => apply result_bind_Ok in H as ([] & E & H); rewrite E; clear E; cbn [result_bind]
  | (if ready then _ else _) = _ => fail 1
  | (if ?c then _ else Err _) = Ok _ => apply guard_Ok in H as [E H]; rewrite E; clear E
  end. done.
Qed.

Lemma validateMode_ready gd c audit :
  validateMode gd c true audit = Ok tt <->
  validateMode gd c false false = Ok tt /\
  validate_routes (RoutesFor c audit) true = Ok tt /\ validateRepository gd c = Ok tt /\
  (audit = true \/ 0 < lenN (Config_VerificationCommands c)).
Proof.
  split.
  - intros H. split; [by eapply validateMode_not_ready|].
    unfold validateMode in H. ok_inv H.
    repeat match goal with H : validate_routes _ _ = Ok ?x |- _ => destruct x end.
    repeat match goal with H : validateRepository _ _ = Ok ?x |- _ => destruct x end.
    split_and!; [done|done|]. bool_hyps. destruct audit; [by left|right].
    simpl in *. destruct (N.eqb_spec (lenN (Config_VerificationCommands c)) 0); [done|lia].
  - intros (H & Hr & Hp & Hc). unfold validateMode in *.
    repeat match type of H with
    | result_bind ?r _ = Ok _ => apply result_bind_Ok in H as ([] & E & H); rewrite E; clear E; cbn [result_bind]
    | (if ?c then _ else Err _) = Ok _ => apply guard_Ok in H as [E H]; rewrite E; clear E
    end.
    rewrite Hr, Hp. cbn [result_bind]. destruct Hc as [->|Hc]; [done|].
    destruct (N.eqb_spec (lenN (Config_VerificationCommands c)) 0); [lia|]. by rewrite andb_false_r.
Qed.

Lemma validate_routes_Ok routes ready :
  validate_routes routes ready = Ok tt <->
  Forall (fun r => Route_Validate (NamedRoute_Route r) ready = Ok tt) routes.
Proof.
  induction routes as [|r routes IH]; simpl; [by split; [constructor|]|].
  rewrite Forall_cons, <- IH. destruct (Route_Validate _ _) as [[]|]; [tauto|].
  split; [done|]. by intros [].
Qed.

Lemma elem_of_named_routes m skip r :
  r ∈ named_routes m skip <->
  m !! NamedRoute_Name r = Some (NamedRoute_Route r) /\ skip (NamedRoute_Name r) = false.
Proof.
  unfold named_routes. rewrite list_elem_of_In, in_flat_map. setoid_rewrite <- list_elem_of_In.
  unfold sorted_keys. split.
  - intros (k & Hk & Hr). destruct (skip k) eqn:Es; [set_solver|].
    destruct (m !! k) eqn:Em; [|set_solver]. apply list_elem_of_singleton in Hr as ->. done.
  - intros [Hm Hs]. exists (NamedRoute_Name r). split.
    + apply elem_of_sort_strings, list_elem_of_fmap. exists (NamedRoute_Name r, NamedRoute_Route r).
      split; [done|]. by apply elem_of_map_to_list.
    + rewrite Hs, Hm. apply list_elem_of_singleton. by destruct r.
Qed.

(** The routes an audit needs are among those an execution needs, so a
    configuration ready to execute is also ready for an audit and for a
    baseline check, and any of the three is a savable configuration. *)
Theorem Validate_implications gd c :
  (Validate gd c true = Ok tt -> ValidateAudit gd c = Ok tt) /\
  (Validate gd c true = Ok tt -> ValidateBaseline gd c = Ok tt) /\
  (ValidateAudit gd c = Ok tt -> Validate gd c false = Ok tt) /\
  (ValidateBaseline gd c = Ok tt -> Validate gd c false = Ok tt).
Proof.
  unfold Validate, ValidateAudit, ValidateBaseline. split_and!.
  - rewrite !validateMode_ready, !validate_routes_Ok. intros (? & Hr & ? & ?).
    split_and!; [done| |done|by left]. revert Hr. rewrite !Forall_forall.
    intros Hr x Hx. apply Hr. unfold RoutesFor in *.
    apply elem_of_app. left. apply elem_of_named_routes in Hx as [Hx _].
    by apply elem_of_named_routes.
  - rewrite validateMode_ready. unfold Validate. intros (-> & _ & -> & [?|?]); [done|].
    cbn [result_bind]. destruct (N.eqb_spec (lenN (Config_VerificationCommands c)) 0); [lia|done].
  - apply validateMode_not_ready.
  - intros H. apply result_bind_Ok in H as ([] & H & _). done.
Qed.

Lemma Validate_implications_witness :
  let c := Default <| Config_GitHubRepo := "acme/widgets" |>
                   <| Config_Repository := "/srv/widgets" |>
                   <| Config_VerificationCommands := ["go test ./..."]%string |> in
  ValidateAudit (fun _ => true) c = Ok tt.
Proof.
  apply (Validate_implications (fun _ => true)). vm_compute. reflexivity.
Defined.
