(* ===== verification/Paths.v ===== *)
(** * File paths ([path/filepath] on Unix)

    The lexical operations on slash-separated paths that the program uses, and
    the absolute paths that are already clean: a slash followed by the parts of
    the path, none of them empty, a dot or two dots. *)
From S2P Require Import Prelude GoStrings Config.
Local Open Scope string_scope.
Local Open Scope list_scope.

Definition slash : ascii := "/"%char.
Definition clean_step (rooted : bool) (done_ : list string) (part : string) : list string :=
  if bool_decide (part = "") || bool_decide (part = ".") then done_ else
  if bool_decide (part = "..") then
    match done_ with
    | [] => if rooted then [] else [part]
    | top :: below => if bool_decide (top = "..") then part :: done_ else below
    end
  else part :: done_.
Definition clean_parts (rooted : bool) (parts : list string) : list string :=
  rev (foldl (clean_step rooted) [] parts).
(** [filepath.Clean]. *)
Definition Clean (path : string) : string :=
  let parts := clean_parts (IsAbs path) (Split path slash) in
  if IsAbs path then "/" +:+ Join parts "/" else
  match parts with [] => "." | _ => Join parts "/" end.
(** [filepath.Join]. *)
Definition JoinPath (elems : list string) : string :=
  match List.filter (fun e => negb (bool_decide (e = ""))) elems with
  | [] => ""
  | l => Clean (Join l "/")
  end.
(** [filepath.Dir]: what comes before the last slash, cleaned. *)
Definition Dir (path : string) : string :=
  Clean (match rev (split_chars (is_char slash) (chars path)) with
         | _ :: ((_ :: _) as above) => str (join_chars slash (rev above) ++ [slash])
         | _ => ""
         end).
(** [filepath.Base]. *)
Fixpoint drop_slashes (l : list ascii) : list ascii :=
  match l with [] => [] | c :: t => if is_char slash c then drop_slashes t else l end.
Definition Base (path : string) : string :=
  if bool_decide (path = "") then "." else
  match rev (drop_slashes (rev (chars path))) with
  | [] => "/"
  | l => str (List.last (split_chars (is_char slash) l) [])
  end.
(** [filepath.Rel(base, target)] for an absolute target; [None] is an error. *)
Fixpoint strip_common (base target : list string) : list string * list string :=
  match base, target with
  | b :: bs, t :: ts => if bool_decide (b = t) then strip_common bs ts else (base, target)
  | _, _ => (base, target)
  end.
Definition path_elems (path : string) : list string :=
  List.filter (fun e => negb (bool_decide (e = ""))) (Split path slash).
Definition Rel (base target : string) : option string :=
  if negb (IsAbs base) then None else
  let '(up, down) := strip_common (path_elems (Clean base)) (path_elems (Clean target)) in
  match map (fun _ => "..") up ++ down with
  | [] => Some "."
  | l => Some (Join l "/")
  end.

Example clean_ok : map Clean ["/a/./b//c/../d"; ""; "a/../.."; "/../x"; "/"] = ["/a/b/d"; "."; ".."; "/x"; "/"].
Proof. vm_compute. reflexivity. Qed.
Example dir_ok : map Dir ["/a/b"; "/a"; "a"; "/"; "a/b/"] = ["/a"; "/"; "."; "/"; "a/b"].
Proof. vm_compute. reflexivity. Qed.
Example base_ok : map Base ["/a/b"; "/"; ""; "a//"; "x"] = ["b"; "/"; "."; "a"; "x"].
Proof. vm_compute. reflexivity. Qed.
Example rel_ok : [Rel "/a" "/a/b/c"; Rel "/a/b" "/a/c"; Rel "/a" "/a"; Rel "/" "/x"; Rel "a" "/x"]
  = [Some "b/c"; Some "../c"; Some "."; Some "x"; None].
Proof. vm_compute. reflexivity. Qed.
Example join_ok : map JoinPath [["a"; ""; "b/../c"]; [""; ""]; ["/d"; "x"]] = ["a/c"; ""; "/d/x"].
Proof. vm_compute. reflexivity. Qed.

(** ** Clean paths *)

(** A part of a clean path. *)
Definition no_slash (part : string) : Prop := slash ∉ chars part.
Definition plain_part (part : string) : Prop :=
  no_slash part /\ part <> "" /\ part <> "." /\ part <> "..".
Definition abs_path (parts : list string) : string := "/" +:+ Join parts "/".

Lemma split_no_slash l : slash ∉ l -> split_chars (is_char slash) l = [l].
Proof.
  induction l as [|c l IH]; [done|]. intros N. cbn [split_chars].
  unfold is_char at 1. rewrite bool_decide_eq_false_2 by set_solver. by rewrite IH by set_solver.
Qed.
Lemma split_chars_sep a b : slash ∉ a ->
  split_chars (is_char slash) (a ++ slash :: b) = a :: split_chars (is_char slash) b.
Proof.
  induction a as [|c a IH]; intros N; cbn [app split_chars]; [done|].
  unfold is_char at 1. rewrite bool_decide_eq_false_2 by set_solver. by rewrite IH by set_solver.
Qed.
Lemma split_chars_lead b : split_chars (is_char slash) (slash :: b) = [] :: split_chars (is_char slash) b.
Proof. done. Qed.
Lemma Join_cons a b l : Join (a :: b :: l) "/" = a +:+ "/" +:+ Join (b :: l) "/".
Proof. done. Qed.
Lemma Split_Join l : l <> [] -> Forall no_slash l -> Split (Join l "/") slash = l.
Proof.
  intros NE F. induction F as [|a l A F IH]; [done|]. destruct l as [|b l].
  - unfold Split. simpl. rewrite split_no_slash by done. simpl. by rewrite str_chars.
  - rewrite Join_cons. unfold Split in *. rewrite !chars_app. change (chars "/") with [slash]. cbn [app].
    rewrite split_chars_sep by done. cbn [map]. rewrite IH by done. by rewrite str_chars.
Qed.
Lemma Split_abs l : l <> [] -> Forall no_slash l -> Split (abs_path l) slash = "" :: l.
Proof.
  intros NE F. unfold abs_path, Split. rewrite chars_app. change (chars "/") with [slash]. cbn [app].
  rewrite split_chars_lead. cbn [map]. f_equal. by apply Split_Join.
Qed.
Lemma plain_no_slash l : Forall plain_part l -> Forall no_slash l.
Proof. intros F. eapply Forall_impl; [exact F|]. by intros ? [? _]. Qed.
#[export] Hint Resolve plain_no_slash : core.

Lemma clean_step_plain rooted acc part : plain_part part -> clean_step rooted acc part = part :: acc.
Proof. intros (_ & ? & ? & ?). unfold clean_step. by rewrite !bool_decide_eq_false_2. Qed.
Lemma clean_plain rooted l : Forall plain_part l -> clean_parts rooted l = l.
Proof.
  intros F. unfold clean_parts. assert (forall acc, foldl (clean_step rooted) acc l = rev l ++ acc) as ->.
  { induction F as [|a l A _ IH]; intros acc; [done|]. cbn [foldl rev].
    by rewrite clean_step_plain, IH, <- app_assoc. }
  by rewrite app_nil_r, rev_involutive.
Qed.
Lemma IsAbs_abs l : IsAbs (abs_path l) = true.
Proof. apply HasPrefix_app. Qed.
Lemma IsAbs_first l : l <> [] -> Forall plain_part l -> IsAbs (Join l "/") = false.
Proof.
  intros NE F. unfold IsAbs, HasPrefix. apply bool_decide_eq_false. intros [t E].
  pose proof (Split_Join l NE (plain_no_slash _ F)) as S. unfold Split in S. rewrite E in S.
  change (chars "/" ++ t) with (slash :: t) in S. rewrite split_chars_lead in S.
  destruct F as [|a l (_ & A & _)]; [done|]. cbn [map] in S. injection S as S _. by apply A.
Qed.
Lemma Clean_abs l : Forall plain_part l -> Clean (abs_path l) = abs_path l.
Proof.
  intros F. unfold Clean. rewrite IsAbs_abs. destruct (decide (l = [])) as [->|NE]; [done|].
  rewrite Split_abs by auto. unfold abs_path. do 2 f_equal.
  change (clean_parts true ("" :: l)) with (clean_parts true l). by apply clean_plain.
Qed.
Lemma Clean_rel l : l <> [] -> Forall plain_part l -> Clean (Join l "/") = Join l "/".
Proof.
  intros NE F. unfold Clean. rewrite IsAbs_first, Split_Join, clean_plain by auto. by destruct l.
Qed.

Lemma clean_step_inv acc part :
  no_slash part -> Forall plain_part acc -> Forall plain_part (clean_step true acc part).
Proof.
  intros S F. unfold clean_step. repeat destruct_cond; bool_hyps; try done.
  - destruct acc as [|top acc]; [done|]. inversion F as [|? ? (_ & _ & _ & D) F']; subst.
    by rewrite bool_decide_eq_false_2.
  - constructor; [|done]. done.
Qed.
Lemma Split_no_slash s : Forall no_slash (Split s slash).
Proof.
  unfold Split. assert (Forall (fun l => slash ∉ l) (split_chars (is_char slash) (chars s))) as F.
  { induction (chars s) as [|c l IH]; cbn [split_chars]; [constructor; [apply not_elem_of_nil|done]|].
    unfold is_char at 1. destruct (bool_decide_reflect (slash = c)); [constructor; [apply not_elem_of_nil|done]|].
    destruct IH as [|h r]; constructor; try done; set_solver. }
  induction F; simpl; constructor; [|done]. unfold no_slash. by rewrite chars_str.
Qed.
(** The clean absolute paths are those made of plain parts. *)
Lemma Clean_abs_parts path :
  IsAbs path = true -> exists l, Forall plain_part l /\ Clean path = abs_path l.
Proof.
  intros A. unfold Clean. rewrite A. exists (clean_parts true (Split path slash)). split; [|done].
  unfold clean_parts. apply Forall_rev. pose proof (Split_no_slash path) as F.
  assert (forall acc, Forall plain_part acc -> Forall plain_part (foldl (clean_step true) acc (Split path slash))) as G.
  { induction F as [|a l NA _ IH]; intros acc FA; [done|]. cbn [foldl]. apply IH. by apply clean_step_inv. }
  by apply G.
Qed.

(** ** What the operations do to clean paths *)

Definition nonempty (part : string) : bool := negb (bool_decide (part = "")).
Lemma clean_parts_filter rooted parts : clean_parts rooted parts = clean_parts rooted (List.filter nonempty parts).
Proof.
  unfold clean_parts. f_equal. generalize (@nil string) as acc.
  induction parts as [|a parts IH]; intros acc; [done|]. cbn [foldl List.filter]. unfold nonempty at 1.
  destruct (bool_decide_reflect (a = "")) as [->|]; simpl; apply IH.
Qed.
Lemma filter_plain l : Forall plain_part l -> List.filter nonempty l = l.
Proof.
  induction 1 as [|a l (_ & A & _) _ IH]; [done|]. cbn [List.filter]. unfold nonempty at 1.
  rewrite bool_decide_eq_false_2 by done. simpl. by rewrite IH.
Qed.
Lemma Clean_split s l :
  IsAbs s = true -> List.filter nonempty (Split s slash) = l -> Forall plain_part l -> Clean s = abs_path l.
Proof.
  intros A E F. unfold Clean. by rewrite A, clean_parts_filter, E, clean_plain.
Qed.
Lemma split_Split s : split_chars (is_char slash) (chars s) = map chars (Split s slash).
Proof.
  unfold Split. rewrite map_map. rewrite <- (map_id (split_chars _ _)) at 1. apply map_ext. intros. by rewrite chars_str.
Qed.
Lemma Split_abs_nonempty l : Forall plain_part l -> List.filter nonempty (Split (abs_path l) slash) = l.
Proof.
  intros F. destruct (decide (l = [])) as [->|]; [done|]. rewrite Split_abs by auto.
  change (List.filter nonempty l = l). by apply filter_plain.
Qed.

Lemma split_tail m : Forall (fun a => slash ∉ a) m ->
  split_chars (is_char slash) (flat_map (cons slash) m ++ [slash]) = [] :: m ++ [[]].
Proof.
  induction 1 as [|a m A _ IH]; [done|]. cbn [flat_map app]. rewrite split_chars_lead, <- app_assoc. f_equal.
  destruct m as [|b m]; cbn [flat_map app] in *; [by rewrite split_chars_sep|].
  rewrite <- app_assoc in *. rewrite split_chars_lead in IH. injection IH as IH. by rewrite split_chars_sep, IH.
Qed.
Lemma Dir_snoc l x : Forall plain_part (l ++ [x]) -> Dir (abs_path (l ++ [x])) = abs_path l.
Proof.
  intros F. pose proof F as [FL _]%Forall_app. unfold Dir.
  rewrite split_Split, Split_abs by (auto; by destruct l). cbn [map rev]. rewrite map_app, rev_app_distr. cbn [map rev app].
  destruct (rev (map chars l) ++ [chars ""]) as [|y above] eqn:R; [by destruct (rev _)|]. rewrite <- R.
  rewrite rev_app_distr, rev_involutive. cbn [rev app join_chars]. change (chars "") with (@nil ascii). cbn [app].
  apply Clean_split; [| |done].
  - unfold IsAbs, HasPrefix. apply bool_decide_eq_true. rewrite chars_str. destruct l as [|a l]; [by exists []|].
    cbn [map flat_map app]. eexists. done.
  - unfold Split. rewrite chars_str, split_tail.
    + cbn [map List.filter]. rewrite map_app, map_map. cbn [map].
      rewrite (map_ext _ id), map_id by (intros; apply str_chars).
      rewrite List.filter_app. simpl. by rewrite app_nil_r, filter_plain.
    + apply Forall_map. eapply Forall_impl; [exact FL|]. by intros ? [? _].
Qed.
Lemma join_split l : join_chars slash (split_chars (is_char slash) l) = l.
Proof.
  induction l as [|c l IH]; [done|]. cbn [split_chars]. unfold is_char at 1.
  destruct (bool_decide_reflect (slash = c)) as [<-|].
  - rewrite <- IH at 2. pose proof (split_chars_nonempty (is_char slash) l). by destruct (split_chars _ l).
  - destruct (split_chars (is_char slash) l) as [|h r]; [by rewrite <- IH|]. cbn [join_chars app] in *. by rewrite IH.
Qed.
Lemma drop_slashes_id c l : c <> slash -> drop_slashes (c :: l) = c :: l.
Proof. intros N. simpl. unfold is_char. by rewrite bool_decide_eq_false_2. Qed.
Lemma Base_snoc l x : Forall plain_part (l ++ [x]) -> Base (abs_path (l ++ [x])) = x.
Proof.
  intros F. pose proof F as [_ FX]%Forall_app. apply Forall_singleton in FX as (S & N & _ & _).
  assert (split_chars (is_char slash) (chars (abs_path (l ++ [x]))) = map chars ("" :: l ++ [x])) as P.
  { rewrite split_Split, Split_abs by (auto; by destruct l). done. }
  assert (exists y, chars (abs_path (l ++ [x])) = y ++ slash :: chars x) as [y E].
  { rewrite <- (join_split (chars (abs_path _))), P. cbn [map join_chars]. rewrite map_app, flat_map_app. cbn [map flat_map].
    rewrite app_nil_r. eexists. by rewrite app_assoc. }
  unfold Base. rewrite bool_decide_eq_false_2 by (intros Z; rewrite Z in E; by destruct y).
  assert (drop_slashes (rev (chars (abs_path (l ++ [x])))) = rev (chars (abs_path (l ++ [x])))) as ->.
  { rewrite E, rev_app_distr. cbn [rev]. destruct (rev (chars x)) as [|c t] eqn:R.
    - apply (f_equal (@rev ascii)) in R. rewrite rev_involutive in R. by destruct x.
    - cbn [app]. rewrite drop_slashes_id; [done|]. intros ->. apply S. apply elem_of_reverse.
      unfold reverse. rewrite rev_append_rev, app_nil_r, R. by left. }
  rewrite rev_involutive. destruct (chars (abs_path _)) as [|c t] eqn:X; [by destruct y|]. rewrite P. clear X P E.
  cbn [map]. rewrite map_app. change (chars "" :: map chars l ++ map chars [x]) with ((chars "" :: map chars l) ++ [chars x]).
  rewrite last_last. apply str_chars.
Qed.
Lemma Base_inv ds x : Forall plain_part ds -> x <> "/" -> Base (abs_path ds) = x -> exists l, ds = l ++ [x].
Proof.
  intros F N E. destruct ds as [|a l _] using rev_ind; [by subst x|].
  rewrite Base_snoc in E by done. subst x. by exists l.
Qed.

Lemma path_elems_abs l : Forall plain_part l -> path_elems (abs_path l) = l.
Proof. apply Split_abs_nonempty. Qed.
Lemma strip_common_spec base target : exists common,
  base = common ++ fst (strip_common base target) /\ target = common ++ snd (strip_common base target).
Proof.
  revert target. induction base as [|b bs IH]; intros [|t ts]; cbn [strip_common]; try (by exists []).
  destruct (bool_decide_reflect (b = t)) as [->|]; [|by exists []].
  destruct (IH ts) as (c & E1 & E2). exists (t :: c). cbn [app]. by rewrite <- E1, <- E2.
Qed.
Lemma strip_common_app bs l : strip_common bs (bs ++ l) = ([], l).
Proof. induction bs as [|b bs IH]; [by destruct l|]. cbn [app strip_common]. by rewrite bool_decide_eq_true_2. Qed.
(** A relative path without dots leads down from its base. *)
Lemma Rel_down bs ts comps :
  Forall plain_part bs -> Forall plain_part ts -> comps <> [] -> Forall plain_part comps ->
  Rel (abs_path bs) (abs_path ts) = Some (Join comps "/") <-> ts = bs ++ comps.
Proof.
  intros FB FT NE FC. unfold Rel. rewrite IsAbs_abs, !Clean_abs, !path_elems_abs by done. cbn [negb].
  destruct (strip_common_spec bs ts) as (c & EB & ET). destruct (strip_common bs ts) as [up down] eqn:SC.
  cbn [fst snd] in *. split.
  - intros E. assert (map (fun _ => "..") up ++ down = comps) as E'.
    { assert (Some (Join comps "/") = Some (Join (map (fun _ => "..") up ++ down) "/") /\ map (fun _ => "..") up ++ down <> []) as [J N].
      { destruct (map (fun _ => "..") up ++ down) as [|x l]; [|done]. exfalso. injection E as E.
        pose proof (Split_Join comps NE (plain_no_slash _ FC)) as S. rewrite <- E in S. vm_compute in S. subst comps.
        inversion FC as [|? ? (_ & _ & D & _)]; subst. done. }
      injection J as J. rewrite <- (Split_Join comps) by auto. rewrite J. symmetry. apply Split_Join; [done|].
      apply Forall_app. split; [|rewrite ET in FT; apply Forall_app in FT as [_ FT]; auto].
      apply Forall_map, Forall_true. intros _. by apply (bool_decide_eq_false_1 (slash ∈ chars "..")). }
    destruct up as [|u up]; [|subst comps; by inversion FC as [|? ? (_ & _ & _ & D)]].
    rewrite app_nil_r in EB. subst c. cbn [map app] in E'. by rewrite ET, E'.
  - intros E. rewrite E, strip_common_app in SC. injection SC as <- <-. cbn [map app]. by destruct comps.
Qed.

(** Joining clean pieces concatenates their parts. *)
Lemma Join_nonempty l : l <> [] -> Forall plain_part l -> Join l "/" <> "".
Proof.
  intros N F E. pose proof (Split_Join l N (plain_no_slash _ F)) as S. rewrite E in S. vm_compute in S. subst l.
  inversion F as [|? ? (_ & A & _)]; by subst.
Qed.
Lemma Join_app a b : a <> [] -> b <> [] -> Join (a ++ b) "/" = Join a "/" +:+ "/" +:+ Join b "/".
Proof.
  intros NA NB. induction a as [|x a IH]; [done|]. destruct a as [|y a]; [by destruct b|].
  change ((x :: y :: a) ++ b) with (x :: y :: (a ++ b)). rewrite !Join_cons.
  change (y :: (a ++ b)) with ((y :: a) ++ b). rewrite IH by done. by rewrite !string_append_assoc.
Qed.
Definition pieces (ls : list (list string)) : list string := map (fun l => Join l "/") ls.
Definition plain_pieces (ls : list (list string)) : Prop := Forall (fun l => l <> [] /\ Forall plain_part l) ls.
Lemma Join_pieces ls : plain_pieces ls -> Join (pieces ls) "/" = Join (concat ls) "/".
Proof.
  induction 1 as [|l ls [N P] F IH]; [done|]. destruct ls as [|l' ls]; [by rewrite concat_cons, app_nil_r|].
  change (pieces (l :: l' :: ls)) with (Join l "/" :: Join l' "/" :: pieces ls). rewrite Join_cons.
  change (Join l' "/" :: pieces ls) with (pieces (l' :: ls)). rewrite IH.
  rewrite (concat_cons l). rewrite Join_app; [done|done|]. inversion F as [|? ? [N' _]]; subst. by destruct l'.
Qed.
Lemma plain_concat ls : plain_pieces ls -> Forall plain_part (concat ls).
Proof. induction 1 as [|l ls [_ P] _ IH]; [constructor|]. apply Forall_app. auto. Qed.
Lemma pieces_nonempty ls : plain_pieces ls ->
  List.filter (fun e => negb (bool_decide (e = ""))) (pieces ls) = pieces ls.
Proof.
  induction 1 as [|l ls [N P] _ IH]; [done|]. cbn [pieces map List.filter].
  rewrite bool_decide_eq_false_2 by (by apply Join_nonempty). cbn [negb]. f_equal. exact IH.
Qed.
(** A relative join. *)
Lemma JoinPath_pieces ls : ls <> [] -> plain_pieces ls -> JoinPath (pieces ls) = Join (concat ls) "/".
Proof.
  intros N P. unfold JoinPath. rewrite pieces_nonempty by done. destruct ls as [|l ls]; [done|].
  change (pieces (l :: ls)) with (Join l "/" :: pieces ls) at 1. cbv iota beta.
  change (Join l "/" :: pieces ls) with (pieces (l :: ls)). rewrite Join_pieces by done. apply Clean_rel; [|by apply plain_concat].
  inversion P as [|? ? [? _]]; subst. by destruct l.
Qed.
(** A join below an absolute path. *)
Lemma JoinPath_abs a l : Forall plain_part a -> l <> [] -> Forall plain_part l ->
  JoinPath [abs_path a; Join l "/"] = abs_path (a ++ l).
Proof.
  intros FA N FL. unfold JoinPath. cbn [List.filter].
  rewrite !bool_decide_eq_false_2; [|by apply Join_nonempty|done].
  cbn [negb]. apply Clean_split; [|  |by apply Forall_app].
  - unfold abs_path, IsAbs. cbn [Join]. rewrite string_append_assoc. apply HasPrefix_app.
  - cbn [Join]. destruct (decide (a = [])) as [->|NA].
    + change (abs_path [] +:+ "/" +:+ Join l "/") with ("/" +:+ "/" +:+ Join l "/"). unfold Split. rewrite !chars_app.
      change (chars "/") with [slash]. cbn [app]. rewrite !split_chars_lead. cbn [map List.filter].
      change (nonempty (str [])) with false. cbn iota. fold (Split (Join l "/") slash).
      rewrite Split_Join by auto. by apply filter_plain.
    + assert (abs_path a +:+ "/" +:+ Join l "/" = abs_path (a ++ l)) as ->.
      { unfold abs_path. rewrite Join_app by done. by rewrite !string_append_assoc. }
      by apply Split_abs_nonempty, Forall_app.
Qed.
Lemma Dir_rel l x : l <> [] -> Forall plain_part (l ++ [x]) -> Dir (Join (l ++ [x]) "/") = Join l "/".
Proof.
  intros NE F. pose proof F as [FL _]%Forall_app. unfold Dir.
  rewrite split_Split, Split_Join by (auto; by destruct l). rewrite map_app, rev_app_distr. cbn [map rev app].
  destruct (rev (map chars l)) as [|y above] eqn:R; [apply (f_equal (@rev _)) in R; rewrite rev_involutive in R; by destruct l|].
  rewrite <- R, rev_involutive. unfold Clean.
  assert (Split (str (join_chars slash (map chars l) ++ [slash])) slash = l ++ [""]) as S.
  { unfold Split. rewrite chars_str. destruct l as [|a l]; [done|]. cbn [map join_chars]. rewrite <- app_assoc.
    assert (flat_map (fun x : list ascii => slash :: x) (map chars l) ++ [slash]
      = slash :: tail (flat_map (cons slash) (map chars l) ++ [slash])) as E by (by destruct l).
    rewrite E, split_chars_sep by (by apply Forall_cons in FL as [[? _] _]).
    pose proof (split_tail (map chars l)) as T. specialize (T ltac:(apply Forall_map; apply Forall_cons in FL as [_ FL]; eapply Forall_impl; [exact FL|]; by intros ? [? _])).
    change (flat_map (cons slash)) with (flat_map (fun x : list ascii => slash :: x)) in *.
    rewrite E in T. rewrite split_chars_lead in T. injection T as T. rewrite T. cbn [map]. rewrite map_app, map_map. cbn [map].
    rewrite (map_ext _ id), map_id by (intros; apply str_chars). by rewrite str_chars. }
  rewrite S, clean_parts_filter, List.filter_app, filter_plain, app_nil_r, clean_plain by done.
  assert (IsAbs (str (join_chars slash (map chars l) ++ [slash])) = false) as ->; [|by destruct l].
  unfold IsAbs, HasPrefix. apply bool_decide_eq_false. intros [t E]. unfold Split in S. rewrite E in S.
  change (chars "/" ++ t) with (slash :: t) in S. rewrite split_chars_lead in S. cbn [map] in S.
  destruct l as [|a l]; [done|]. injection S as S _. apply Forall_cons in FL as [(_ & A & _) _]. by apply A.
Qed.
