(* ===== verification/GoTime.v ===== *)
(** * Time ([time] as the code uses it, [model.Timestamp], [model.UTCDay])

    An instant is a count of Unix seconds with its nanoseconds; [Timestamp]
    renders one the way saved records hold it and [parse_rfc3339] is
    [time.Parse(time.RFC3339, s)], with the layout's leniencies (a one-digit
    hour, a fraction after a dot or a comma). *)
From S2P Require Import Prelude GoStrings.
Local Open Scope string_scope.
Local Open Scope list_scope.
Local Open Scope Z_scope.

Record instant := mkInstant { unix : Z; nanos : Z }.
#[export] Instance instant_eq_dec : EqDecision instant.
Proof. solve_decision. Defined.
(** [Time.Before]. *)
Definition before (a b : instant) : bool :=
  (unix a <? unix b) || ((unix a =? unix b) && (nanos a <? nanos b)).

(** ** The Gregorian calendar *)

Definition civil_from_days (days : Z) : Z * Z * Z :=
  let z := days + 719468 in
  let era := z / 146097 in
  let doe := z mod 146097 in
  let yoe := (doe - doe / 1460 + doe / 36524 - doe / 146096) / 365 in
  let doy := doe - (365 * yoe + yoe / 4 - yoe / 100) in
  let mp := (5 * doy + 2) / 153 in
  let d := doy - (153 * mp + 2) / 5 + 1 in
  let m := if mp <? 10 then mp + 3 else mp - 9 in
  (yoe + era * 400 + (if m <=? 2 then 1 else 0), m, d).

Definition days_from_civil (y m d : Z) : Z :=
  let y := if m <=? 2 then y - 1 else y in
  let era := y / 400 in
  let yoe := y mod 400 in
  let doy := (153 * (m + (if 2 <? m then -3 else 9)) + 2) / 5 + d - 1 in
  let doe := yoe * 365 + yoe / 4 - yoe / 100 + doy in
  era * 146097 + doe - 719468.

Definition leap (y : Z) : bool :=
  (y mod 4 =? 0) && (negb (y mod 100 =? 0) || (y mod 400 =? 0)).
Definition days_in (y m : Z) : Z :=
  if m =? 2 then (if leap y then 29 else 28)
  else if (m =? 4) || (m =? 6) || (m =? 9) || (m =? 11) then 30 else 31.

(** ** Printing *)

Definition digit_char (n : Z) : ascii := ascii_of_N (Z.to_N (48 + n)).
Fixpoint pad (width : nat) (n : Z) : list ascii :=
  match width with
  | O => []
  | S w => pad w (n / 10) ++ [digit_char (n mod 10)]
  end.

Definition unix_day (at_ : instant) : Z := unix at_ / 86400.
Definition date_chars (days : Z) : list ascii :=
  let '(y, m, d) := civil_from_days days in
  pad 4 y ++ ["-"%char] ++ pad 2 m ++ ["-"%char] ++ pad 2 d.

(** [at.UTC().Format("2006-01-02")]. *)
Definition UTCDay (at_ : instant) : string := str (date_chars (unix_day at_)).

Definition fraction_chars (n : Z) : list ascii :=
  if n =? 0 then []
  else "."%char ::
    (if n mod 1000000 =? 0 then pad 3 (n / 1000000)
     else if n mod 1000 =? 0 then pad 6 (n / 1000)
     else pad 9 n).

Definition Timestamp (at_ : instant) : string :=
  let s := unix at_ mod 86400 in
  str (date_chars (unix_day at_) ++ ["T"%char] ++ pad 2 (s / 3600) ++ [":"%char]
       ++ pad 2 (s / 60 mod 60) ++ [":"%char] ++ pad 2 (s mod 60)
       ++ fraction_chars (nanos at_) ++ chars "+00:00").

(** [time.Date(year, month, day+1, 0, 0, 0, 0, time.UTC).Unix()]. *)
Definition next_midnight (at_ : instant) : Z := (unix_day at_ + 1) * 86400.

(** ** Parsing *)

Definition char_digit (c : ascii) : option Z :=
  match digit_of c with Some d => Some (Z.of_N d) | None => None end.

(** Exactly [n] digits. *)
Fixpoint take_digits (n : nat) (acc : Z) (l : list ascii) : option (Z * list ascii) :=
  match n with
  | O => Some (acc, l)
  | S n =>
      match l with
      | c :: t => match char_digit c with
                  | Some d => take_digits n (acc * 10 + d) t
                  | None => None
                  end
      | [] => None
      end
  end.
(** [getnum(value, false)]: one or two digits. *)
Definition take_hour (l : list ascii) : option (Z * list ascii) :=
  match take_digits 2 0 l with Some r => Some r | None => take_digits 1 0 l end.
Definition take_char (c : ascii) (l : list ascii) : option (list ascii) :=
  match l with x :: t => if Ascii.eqb x c then Some t else None | [] => None end.

(** The digits after the decimal separator; past nine they are dropped. *)
Fixpoint take_fraction (digits : nat) (acc : Z) (l : list ascii) : Z * nat * list ascii :=
  match l with
  | c :: t =>
      match char_digit c with
      | Some d => match digits with
                  | O => take_fraction O acc t
                  | S k => take_fraction k (acc * 10 + d) t
                  end
      | None => (acc, digits, l)
      end
  | [] => (acc, digits, l)
  end.
Definition fraction (l : list ascii) : Z * list ascii :=
  match l with
  | c :: (d :: _) as t =>
      if (Ascii.eqb c "."%char || Ascii.eqb c ","%char) && match char_digit d with Some _ => true | None => false end
      then let '(n, missing, rest) := take_fraction 9 0 t in (n * 10 ^ Z.of_nat missing, rest)
      else (0, l)
  | _ => (0, l)
  end.

(** The zone: the offset in seconds. *)
Definition zone (l : list ascii) : option Z :=
  match l with
  | ["Z"%char] => Some 0
  | sign :: t =>
      match take_digits 2 0 t with
      | Some (h, t) =>
          match take_char ":"%char t with
          | Some t =>
              match take_digits 2 0 t with
              | Some (m, []) =>
                  if (24 <? h) || (60 <? m) then None
                  else if Ascii.eqb sign "+"%char then Some (h * 3600 + m * 60)
                  else if Ascii.eqb sign "-"%char then Some (- (h * 3600 + m * 60))
                  else None
              | _ => None
              end
          | None => None
          end
      | None => None
      end
  | [] => None
  end.

Definition obind {A B} (o : option A) (k : A -> option B) : option B :=
  match o with Some a => k a | None => None end.
Notation "'let?' x := o 'in' k" := (obind o (fun x => k))
  (at level 10, x pattern, o at level 100, k at level 200) : go_scope.
Local Open Scope go_scope.

Definition parse_rfc3339 (s : string) : option instant :=
  let l := chars s in
  let? (y, l) := take_digits 4 0 l in
  let? l := take_char "-"%char l in
  let? (m, l) := take_digits 2 0 l in
  let? l := take_char "-"%char l in
  let? (d, l) := take_digits 2 0 l in
  let? l := take_char "T"%char l in
  let? (h, l) := take_hour l in
  let? l := take_char ":"%char l in
  let? (mi, l) := take_digits 2 0 l in
  let? l := take_char ":"%char l in
  let? (sec, l) := take_digits 2 0 l in
  let '(n, l) := fraction l in
  let? off := zone l in
  if ((1 <=? m) && (m <=? 12) && (1 <=? d) && (d <=? days_in y m)
      && (h <? 24) && (mi <? 60) && (sec <? 60))%Z
  then Some (mkInstant (days_from_civil y m d * 86400 + h * 3600 + mi * 60 + sec - off) n)
  else None.

Example timestamp_example : Timestamp (mkInstant 1767225600 5000000) = "2026-01-01T00:00:00.005+00:00".
Proof. vm_compute. reflexivity. Qed.
Example parse_example :
  parse_rfc3339 "2024-02-29T23:59:59.25-05:30" = Some (mkInstant 1709270999 250000000).
Proof. vm_compute. reflexivity. Qed.
Example day_example : UTCDay (mkInstant 1709270999 0) = "2024-03-01".
Proof. vm_compute. reflexivity. Qed.
