(* ===== verification/Model.v ===== *)
(** * The domain model ([internal/model])

    The pure operations on the durable records: status classes, work identity,
    review and maintenance authority, the actions offered on a task, session
    bookkeeping and the merging of sandbox records.  [cases.Lower] of
    golang.org/x/text is the parameter [cases_lower]; the current time is an
    argument of the functions that read the clock. *)
From S2P Require Import Prelude GoStrings WireJson Enums Types GoErrors Config.
Local Open Scope string_scope.
Local Open Scope list_scope.
Local Open Scope N_scope.

(** ** Status classes ([model.go]) *)

Definition ReviewerSlots : list string := ["adversary-a"; "adversary-b"].
Definition ActiveStatuses : list Status :=
  [StatusExecuting; StatusReviewing; StatusRepairing; StatusVerifying; StatusPublishing].
Definition AttentionStatuses : list Status := [StatusBlocked; StatusFailed].
Definition UnresolvedStatuses : list Status := [StatusBlocked; StatusFailed; StatusCancelled].
Definition TerminalStatuses : list Status := [StatusPublished; StatusCancelled].
(** [s >= StatusExecuting && s <= StatusPublishing] on the [uint8] values. *)
Definition Active (s : Status) : bool :=
  (Status_code StatusExecuting <=? Status_code s) && (Status_code s <=? Status_code StatusPublishing).
Definition Retryable (s : Status) : bool :=
  bool_decide (s = StatusFailed) || bool_decide (s = StatusBlocked).
Definition Pending (v : AutoMergeStatus) : bool :=
  bool_decide (v = AutoMergeWaiting) || bool_decide (v = AutoMergeMerging)
  || bool_decide (v = AutoMergeUncertain).

Definition ErrorEventKinds : list EventKind :=
  [EventError; EventPlanningError; EventWorkerError; EventRecoveryError; EventCleanupError;
   EventHousekeepingError; EventBaselineError].

Definition DecisionAccepted := "accepted".
Definition DecisionRejected := "rejected".
Definition DecisionDeferred := "deferred".
Definition DecisionCandidate := "candidate".
Definition Decisions : list string :=
  [DecisionAccepted; DecisionRejected; DecisionDeferred; DecisionCandidate].
Definition Assessments : list string := [DecisionAccepted; DecisionRejected; DecisionDeferred].

(** ** Work identity ([lowercase.go], [model.go]) *)

(** [cases.Lower(language.Und, HandleFinalSigma(false)).String]. *)
Class TextCases := { cases_lower : string -> string }.

Definition capital_sigma : N := 931.
Definition final_sigma : N := 962.

Section identity.
Context `{Unicode} `{TextCases}.

Definition isCased (r : N) : bool := in_cased r.
Definition isCaseIgnorable (r : N) : bool :=
  in_ignorable r ||
  bool_decide (r ∈ [39; 46; 58; 183; 903; 1375; 1524; 8216; 8217; 8228; 8231;
                    65043; 65106; 65109; 65287; 65294; 65306]).

(** [followedByCased], on the runes after the sigma. *)
Fixpoint followedByCased (rs : list N) : bool :=
  match rs with
  | [] => false
  | r :: t => if negb (isCaseIgnorable r) then isCased r else followedByCased t
  end.

Fixpoint mark_sigma (precededByCased : bool) (rs : list N) : list N :=
  match rs with
  | [] => []
  | r :: t =>
      let r := if (r =? capital_sigma) && precededByCased && negb (followedByCased t)
               then final_sigma else r in
      r :: mark_sigma (if negb (isCaseIgnorable r) then isCased r else precededByCased) t
  end.
Definition lowercaseIdentity (s : string) : string :=
  cases_lower (str (flat_map encode_rune (mark_sigma false (runes s)))).

Definition ProblemIdentity (title key : string) : string :=
  let key := if blank key then title else key in
  lowercaseIdentity (TrimSpace key).
Definition Proposal_ProblemIdentity (p : Proposal) : string :=
  ProblemIdentity (Proposal_Title p) (Proposal_ProblemKey p).
Definition SameWork (p other : Proposal) : bool :=
  bool_decide (Proposal_Target p = Proposal_Target other) &&
  (EqualASCII (TrimSpace (Proposal_Title p)) (TrimSpace (Proposal_Title other))
   || bool_decide (Proposal_ProblemIdentity p = Proposal_ProblemIdentity other)).
End identity.

(** ** Planning capacity and attempt policy ([model.go]) *)

Definition Capacity_Available (p : PlanningCapacity) : bool :=
  bool_decide (PlanningCapacity_Status p = CapacityReady).
Definition Capacity_guidance (p : PlanningCapacity) : string :=
  match PlanningCapacity_Status p with
  | CapacityExhausted => "Wait until UTC midnight or increase the daily limit."
  | CapacityTooLow => "The configured daily limit cannot fund a complete planning pass; increase it."
  | CapacityReady => "Planning can start."
  end.
Definition Capacity_Message (p : PlanningCapacity) : error :=
  Errorf "A complete planning pass requires %d daily admissions; %d remain (%d of %d used). %s"
    [VNum (PlanningCapacity_Required p); VNum (PlanningCapacity_Remaining p);
     VNum (PlanningCapacity_Used p); VNum (PlanningCapacity_Limit p); VStr (Capacity_guidance p)].
Definition EnsureAvailable (p : PlanningCapacity) : result unit error :=
  if Capacity_Available p then Ok tt
  else Err (Errorf "%s: %w" [VErr (Capacity_Message p); VWrap (Reason BlockedBudgetExhausted)]).

Definition PolicyOf (c : Config) : AttemptPolicy :=
  mkAttemptPolicy (Config_MaxRepairRounds c) (Config_MaxNoProgressRounds c) (Config_MaxRetries c)
    (Config_TaskTimeoutSeconds c) (Config_SessionTimeoutSeconds c) (Config_CommandTimeoutSeconds c).
Definition Policy_Apply (p : AttemptPolicy) (c : Config) : Config :=
  c <| Config_MaxRepairRounds := AttemptPolicy_MaxRepairRounds p |>
    <| Config_MaxNoProgressRounds := AttemptPolicy_MaxNoProgressRounds p |>
    <| Config_MaxRetries := AttemptPolicy_MaxRetries p |>
    <| Config_TaskTimeoutSeconds := AttemptPolicy_TaskTimeoutSeconds p |>
    <| Config_SessionTimeoutSeconds := AttemptPolicy_SessionTimeoutSeconds p |>
    <| Config_CommandTimeoutSeconds := AttemptPolicy_CommandTimeoutSeconds p |>.
Definition ExecutionConfig (t : Task) : Config :=
  match Task_AttemptPolicy t with
  | Some p => Policy_Apply p (Task_Config t)
  | None => Task_Config t
  end.

(** ** Reviews and sessions *)

Definition Review_Valid (r : Review) : bool := Review_Completed r && negb (blank (Review_Summary r)).
Definition Review_Clean (r : Review) : bool := Review_Valid r && (lenN (Review_Findings r) =? 0).

Definition Observation_Describes (o : DefaultBranchObservation) (c : Config) : bool :=
  EqualASCII (DefaultBranchObservation_Repository o) (Config_GitHubRepo c) &&
  bool_decide (DefaultBranchObservation_DefaultBranch o = Config_DefaultBranch c).

Definition NewSession (now id role : string) (route : Route) : Session :=
  mkSession id role route SessionRunning now "" None None.
Definition MarkRunning (s : Session) : Session :=
  s <| Session_Status := SessionRunning |> <| Session_Summary := "" |>.
Definition MarkCompleted (s : Session) (summary : string) : Session :=
  s <| Session_Status := SessionCompleted |> <| Session_Summary := summary |>.
Definition MarkFailed (s : Session) (summary : string) : Session :=
  s <| Session_Status := SessionFailed |> <| Session_Summary := summary |>.
Definition MarkInterrupted (s : Session) : Session := s <| Session_Status := SessionInterrupted |>.
Definition session_running (s : Session) : bool := bool_decide (Session_Status s = SessionRunning).
Definition InterruptRunning (sessions : list Session) : list Session :=
  map (fun s => if session_running s then MarkInterrupted s else s) sessions.
Definition CompletedSessions (sessions : list Session) : nat :=
  List.length (List.filter (fun s => bool_decide (Session_Status s = SessionCompleted)) sessions).
Definition FailRunning (sessions : list Session) (summary : string) : list Session :=
  map (fun s =>
    if negb (session_running s) then s else
    let s := s <| Session_Status := SessionFailed |> in
    if bool_decide (Session_Summary s = "") then s <| Session_Summary := summary |> else s) sessions.

Definition AttemptReviews (t : Task) : N :=
  if lenN (Task_Reviews t) <? Task_ReviewBaseline t then 0
  else u64_sub (lenN (Task_Reviews t)) (Task_ReviewBaseline t).

(** ** The actions a task and a cycle offer ([model.go], [actions.go]) *)

Definition isSome {A} (o : option A) : bool := match o with Some _ => true | None => false end.
Definition isNone {A} (o : option A) : bool := negb (isSome o).
Definition Archived (t : Task) : bool := isSome (WorkspaceLifecycle_ArchivedAt (Task_Lifecycle t)).
Definition Discarded (t : Task) : bool := isSome (WorkspaceLifecycle_DiscardedAt (Task_Lifecycle t)).

Definition AllowedActions (t : Task) : list TaskAction :=
  if Archived t then (if Discarded t then [] else [TaskActionDiscard]) else
  if bool_decide (Task_Status t = StatusPublished) then [TaskActionArchive] else
  if bool_decide (Task_Status t = StatusCancelled) then
    TaskActionArchive ::
    (if negb (Discarded t) && isNone (Task_OutputCommit t) && negb (Task_RediscoveryRequested t)
        && (lenN (Task_SupersededBy t) =? 0)
     then [TaskActionSupersede] else [])
  else
  if Discarded t || bool_decide (Task_Status t = StatusPublishing) then [] else
  if negb (Retryable (Task_Status t)) then
    (if isNone (Task_OutputCommit t) then [TaskActionCancel] else [])
  else
  (if isNone (Task_OutputCommit t) then [TaskActionCancel] else []) ++
  [TaskActionArchive] ++
  match default BlockedUnknown (Task_BlockedReason t) with
  | BlockedStaleBase | BlockedInvalidPlan | BlockedWorkspaceInvalid => [TaskActionSupersede]
  | BlockedRemoteConflict | BlockedPublicationUncertain => [TaskActionReconcile]
  | BlockedDependencyBlocked | BlockedRunnerUnavailable => [TaskActionRetry; TaskActionSupersede]
  | _ => [TaskActionRetry]
  end.

Definition CycleActions (status : CycleStatus) (lifecycle : WorkspaceLifecycle) : list CycleAction :=
  if bool_decide (status = CycleRunning) || isSome (WorkspaceLifecycle_DiscardedAt lifecycle) then []
  else if isNone (WorkspaceLifecycle_ArchivedAt lifecycle) then [CycleActionArchive]
  else [CycleActionDiscard].

Definition OwnedOpen (p : PullRequest) : bool :=
  PullRequest_Owned p && bool_decide (PullRequest_State p = "open").

(** ** Operator control *)

Definition DefaultControl : Control :=
  mkControl true 0 0 false None OperatingModePaused None 0 "".
Definition SetMode (c : Control) (mode : OperatingMode) : Control :=
  let c := c <| Control_Mode := mode |> <| Control_BudgetWaiting := false |>
             <| Control_Paused := bool_decide (mode = OperatingModePaused) |> in
  if bool_decide (mode = OperatingModeRunOnce) then c else c <| Control_Batch := None |>.

Definition RequestProposalPrefix := "request-".
Definition RequestPendingLimit : N := 20.
Definition RequestSeedLimit : N := 10.
Definition Request_ProposalID (r : OperatorRequest) : string :=
  RequestProposalPrefix +:+ OperatorRequest_ID r.

(** ** Verification evidence ([verification.go]) *)

Record VerificationHistory := mkVerificationHistory {
  VerificationHistory_Latest : option Verification;
  VerificationHistory_Recorded : nat;
}.
#[export] Instance eta_VerificationHistory : Eta VerificationHistory := fun r =>
  mkVerificationHistory (VerificationHistory_Latest r) (VerificationHistory_Recorded r).

Definition VerificationFor (t : Task) (command : string) : VerificationHistory :=
  foldl (fun history v =>
    if bool_decide (Verification_Command v = command)
    then mkVerificationHistory (Some v) (S (VerificationHistory_Recorded history))
    else history) (mkVerificationHistory None 0) (Task_Verification t).

(** ** Review and maintenance authority ([maintenance.go]) *)

(** [AutoMergeLimits]. *)
Definition AutoMergeLimits (saved live : Config) : N * N :=
  (N.min (Config_AutoMergeMaxLines saved) (Config_AutoMergeMaxLines live),
   N.min (Config_AutoMergeMaxFiles saved) (Config_AutoMergeMaxFiles live)).

Definition ReviewAuthorizes (t : Task) (revision : string) : bool :=
  if bool_decide (revision = "") then false else
  match last (Task_Reviews t) with
  | None => false
  | Some round =>
    if negb (bool_decide (ReviewRound_Revision round = revision))
       || negb (Review_Clean (ReviewRound_Result round)) then false else
    match Config_DeliveryMode (Task_Config t) with
    | DeliveryModeStandard => true
    | DeliveryModeMaintenance =>
      if bool_decide (Proposal_Category (Task_Proposal t) = "features")
         || negb (bool_decide (Proposal_Category (Task_Proposal t) ∈ EffectiveCategories (Task_Config t)))
         || bool_decide (Task_ComparisonBase t = "")
         || negb (bool_decide (ReviewRound_ComparisonBase round = Task_ComparisonBase t))
         || match ReviewRound_Maintenance round with
            | None => true
            | Some m => negb (MaintenanceAssessment_Qualifies m) || blank (MaintenanceAssessment_Reason m)
            end
      then false else
      existsb (fun session =>
        bool_decide (Session_ID session = ReviewRound_SessionID round)
        && bool_decide (Session_Role session = "reviewer")
        && bool_decide (Session_Status session = SessionCompleted)) (Task_Sessions t)
    end
  end.

Section maintenance.
Context `{Unicode}.

(** The footprint checks, in the order of the code. *)
Definition footprint_within (t : Task) (output : string) (live : Config)
    (footprint : MaintenanceFootprint) : bool :=
  if negb (MaintenanceFootprint_Complete footprint)
     || negb (bool_decide (MaintenanceFootprint_ComparisonBase footprint = Task_ComparisonBase t))
     || negb (bool_decide (MaintenanceFootprint_Revision footprint = output)) then false else
  match MaintenanceFootprint_ChangedLines footprint, MaintenanceFootprint_ChangedFiles footprint with
  | Some lines, Some files =>
    if (files =? 0) || negb (lenN (MaintenanceFootprint_Paths footprint) =? files)
       || negb (lenN (MaintenanceFootprint_ManualReasons footprint) =? 0) then false else
    if existsb (fun name => ManualMergePath name (Config_AutoMergeExcludedPaths live))
         (MaintenanceFootprint_Paths footprint) then false else
    let '(maxLines, maxFiles) := AutoMergeLimits (Task_Config t) live in
    negb ((maxLines =? 0) || (maxFiles =? 0) || (maxLines <? lines) || (maxFiles <? files))
  | _, _ => false
  end.

Definition verification_passed (t : Task) (output : string) (command : string) : bool :=
  match VerificationHistory_Latest (VerificationFor t command) with
  | None => false
  | Some result => Verification_Success result && bool_decide (Verification_Revision result = output)
  end.

Definition MaintenanceMergeAuthorized (t : Task) (live : Config) : bool :=
  if negb (bool_decide (Config_DeliveryMode live = DeliveryModeMaintenance))
     || negb (bool_decide (Config_DeliveryMode (Task_Config t) = DeliveryModeMaintenance))
     || negb (SameRemoteIdentity live (Task_Config t))
     || negb (bool_decide (Config_BranchPrefix live = Config_BranchPrefix (Task_Config t)))
  then false else
  match Task_OutputCommit t with
  | None => false
  | Some output =>
    if Archived t
       || negb (bool_decide (Proposal_Category (Task_Proposal t) ∈ EffectiveCategories live))
       || negb (ReviewAuthorizes t output) then false else
    match last (Task_Reviews t) with
    | None => false
    | Some round =>
      if negb (ReviewRound_TrustedDiffComplete round)
         || match ReviewRound_Maintenance round with
            | Some m => MaintenanceAssessment_ManualMergeRequired m
            | None => true
            end then false else
      match Task_MaintenanceFootprint t with
      | None => false
      | Some footprint =>
        if negb (footprint_within t output live footprint) then false else
        let commands := Config_VerificationCommands (ExecutionConfig t) in
        if lenN commands =? 0 then false
        else forallb (verification_passed t output) commands
      end
    end
  end.
End maintenance.

(** ** Sandbox records ([sandbox.go]) *)

Definition SandboxHostLimit : N := 64.

(** The loop of [addHosts] over the sorted hosts, carrying [into] and
    [named]. *)
Definition add_host (from : gmap string N) (st : gmap string N * N) (host : string) : gmap string N * N :=
  let '(into, named) := st in
  let '(key, named) :=
    if isNone (into !! host) && negb (bool_decide (host = "other")) then
      (if SandboxHostLimit <=? named then ("other", named) else (host, named + 1))
    else (host, named) in
  (<[key := u64_add (default 0 (into !! key)) (default 0 (from !! host))]> into, named).
Definition addHosts (into from : gmap string N) : gmap string N :=
  let named := N.of_nat (size into) - (if isSome (into !! "other") then 1 else 0) in
  (foldl (add_host from) (into, named) (sorted_keys from)).1.

Definition empty_sandbox : SandboxRecord := mkSandboxRecord "" "" 0 false false (mkSandboxEgress ∅ ∅ ∅).
Definition MergeSandbox (into run : option SandboxRecord) : option SandboxRecord :=
  match run with
  | None => into
  | Some run =>
    let merged := default empty_sandbox into in
    let mixed := match into with
                 | None => false
                 | Some r => bool_decide (SandboxRecord_ImageID r = "mixed")
                             || negb (bool_decide (SandboxRecord_ImageID r = SandboxRecord_ImageID run))
                             || negb (bool_decide (SandboxRecord_Runtime r = SandboxRecord_Runtime run))
                 end in
    let egress := SandboxRecord_Egress merged in
    Some {|
      SandboxRecord_ImageID := if mixed then "mixed" else SandboxRecord_ImageID run;
      SandboxRecord_Runtime := if mixed then "" else SandboxRecord_Runtime run;
      SandboxRecord_Runs := u64_add (SandboxRecord_Runs merged) (SandboxRecord_Runs run);
      SandboxRecord_OOM := SandboxRecord_OOM merged || SandboxRecord_OOM run;
      SandboxRecord_Incomplete := SandboxRecord_Incomplete merged || SandboxRecord_Incomplete run;
      SandboxRecord_Egress := mkSandboxEgress
        (addHosts (SandboxEgress_Allowed egress) (SandboxEgress_Allowed (SandboxRecord_Egress run)))
        (addHosts (SandboxEgress_Denied egress) (SandboxEgress_Denied (SandboxRecord_Egress run)))
        (addHosts (SandboxEgress_Failed egress) (SandboxEgress_Failed (SandboxRecord_Egress run)))
    |}
  end.

(** [OpenPRInventory.OwnedBranches] ([pullrequest.go]). *)
Definition OwnedBranches (v : OpenPRInventory) : gset string :=
  foldl (fun branches pr => if OwnedOpen pr then {[PullRequest_Branch pr]} ∪ branches else branches)
    ∅ (OpenPRInventory_PRs v).

(** ** Status classes *)

Lemma Active_spec s : Active s = true <-> s ∈ ActiveStatuses.
Proof. destruct s; vm_compute; split; try done; set_solver. Qed.
Lemma Retryable_spec s : Retryable s = true <-> s = StatusFailed \/ s = StatusBlocked.
Proof. destruct s; vm_compute; naive_solver. Qed.

(** ** Work identity *)

Section identity_laws.
Context `{Unicode} `{TextCases}.

Lemma SameWork_refl p : SameWork p p = true.
Proof.
  unfold SameWork. rewrite EqualASCII_refl. by rewrite bool_decide_eq_true_2.
Qed.
Lemma SameWork_sym p q : SameWork p q = SameWork q p.
Proof.
  unfold SameWork. rewrite (EqualASCII_sym (TrimSpace (Proposal_Title p))).
  f_equal; [|f_equal]; by apply bool_decide_ext.
Qed.
End identity_laws.

(** ** Verification evidence *)

Definition command_results (t : Task) (command : string) : list Verification :=
  List.filter (fun v => bool_decide (Verification_Command v = command)) (Task_Verification t).

Lemma VerificationFor_foldl command l h :
  foldl (fun history v =>
    if bool_decide (Verification_Command v = command)
    then mkVerificationHistory (Some v) (S (VerificationHistory_Recorded history))
    else history) h l =
  let rs := List.filter (fun v => bool_decide (Verification_Command v = command)) l in
  mkVerificationHistory
    (match last rs with Some v => Some v | None => VerificationHistory_Latest h end)
    (VerificationHistory_Recorded h + List.length rs).
Proof.
  revert h. induction l as [|v l IH]; intros h; simpl.
  { rewrite Nat.add_0_r. by destruct h. }
  rewrite IH. case_bool_decide as E; simpl; [|done].
  rewrite last_cons. destruct (last (List.filter _ l)); f_equal; lia.
Qed.

(** The history of a command is the results recorded for it in append
    order: the latest one is the last such record, whatever its time or
    outcome, and every one is counted. *)
Lemma VerificationFor_spec t command :
  VerificationFor t command =
  mkVerificationHistory (last (command_results t command))
    (List.length (command_results t command)).
Proof.
  unfold VerificationFor. rewrite VerificationFor_foldl. unfold command_results. simpl.
  by destruct (last _).
Qed.

Lemma verification_passed_spec t output command :
  verification_passed t output command = true <->
  exists v, last (command_results t command) = Some v /\
    Verification_Success v = true /\ Verification_Revision v = output.
Proof.
  unfold verification_passed. rewrite VerificationFor_spec. simpl.
  destruct (last _) as [v|]; [|naive_solver].
  rewrite andb_true_iff, bool_decide_eq_true. naive_solver.
Qed.

(** ** Review authority *)

(** The review evidence that lets [revision] be published. *)
Record review_authority (t : Task) (revision : string) (round : ReviewRound) : Prop := {
  ra_last : last (Task_Reviews t) = Some round;
  ra_revision : ReviewRound_Revision round = revision;
  ra_named : revision <> "";
  ra_clean : Review_Completed (ReviewRound_Result round) = true /\
             Review_Findings (ReviewRound_Result round) = [] /\
             blank (Review_Summary (ReviewRound_Result round)) = false;
}.

(** The additional evidence of maintenance delivery. *)
Record maintenance_review (t : Task) (round : ReviewRound) : Prop := {
  mr_category : Proposal_Category (Task_Proposal t) <> "features";
  mr_enabled : Proposal_Category (Task_Proposal t) ∈ EffectiveCategories (Task_Config t);
  mr_base : Task_ComparisonBase t <> "" /\ ReviewRound_ComparisonBase round = Task_ComparisonBase t;
  mr_assessment : exists m, ReviewRound_Maintenance round = Some m /\
    MaintenanceAssessment_Qualifies m = true /\ blank (MaintenanceAssessment_Reason m) = false;
  mr_session : exists s, s ∈ Task_Sessions t /\ Session_ID s = ReviewRound_SessionID round /\
    Session_Role s = "reviewer" /\ Session_Status s = SessionCompleted;
}.

Lemma Review_Clean_spec r :
  Review_Clean r = true <->
  Review_Completed r = true /\ Review_Findings r = [] /\ blank (Review_Summary r) = false.
Proof.
  unfold Review_Clean, Review_Valid. rewrite !andb_true_iff, negb_true_iff, N.eqb_eq.
  unfold lenN. destruct (Review_Findings r); naive_solver lia.
Qed.

Lemma existsb_spec {A} (f : A -> bool) l : existsb f l = true <-> exists x, x ∈ l /\ f x = true.
Proof. rewrite existsb_exists. by setoid_rewrite list_elem_of_In. Qed.
Lemma forallb_spec {A} (f : A -> bool) l : forallb f l = true <-> forall x, x ∈ l -> f x = true.
Proof. rewrite forallb_forall. by setoid_rewrite list_elem_of_In. Qed.

Lemma lenN_0 {A} (l : list A) : (lenN l =? 0) = bool_decide (l = []).
Proof. by destruct l. Qed.

(** The maintenance part of [ReviewAuthorizes] decides [maintenance_review]. *)
Lemma maintenance_bool t round :
  (if bool_decide (Proposal_Category (Task_Proposal t) = "features")
      || negb (bool_decide (Proposal_Category (Task_Proposal t) ∈ EffectiveCategories (Task_Config t)))
      || bool_decide (Task_ComparisonBase t = "")
      || negb (bool_decide (ReviewRound_ComparisonBase round = Task_ComparisonBase t))
      || match ReviewRound_Maintenance round with
         | None => true
         | Some m => negb (MaintenanceAssessment_Qualifies m) || blank (MaintenanceAssessment_Reason m)
         end
   then false else
   existsb (fun session =>
     bool_decide (Session_ID session = ReviewRound_SessionID round)
     && bool_decide (Session_Role session = "reviewer")
     && bool_decide (Session_Status session = SessionCompleted)) (Task_Sessions t)) = true
  <-> maintenance_review t round.
Proof.
  split.
  - intros H. destruct_cond. bool_hyps. apply existsb_spec in H as (s & Hs & H). bool_hyps.
    destruct (ReviewRound_Maintenance round) as [m|] eqn:Em; [|done]. bool_hyps.
    constructor; eauto 8.
  - intros [Hc He [Hb1 Hb2] (m & Em & Hq & Hr) (s & Hs & Hi & Hro & Hst)].
    rewrite Em, Hq, Hr. rewrite (bool_decide_eq_false_2 _ Hc), (bool_decide_eq_true_2 _ He),
      (bool_decide_eq_false_2 _ Hb1), (bool_decide_eq_true_2 _ Hb2). simpl.
    apply existsb_spec. exists s. split; [done|].
    by rewrite !bool_decide_eq_true_2.
Qed.

(** [ReviewAuthorizes] holds exactly when the last review round is a clean
    one of that revision and, in maintenance delivery, the category is an
    enabled non-feature, the round compares with the task's base, its
    assessment qualifies with a reason, and the session that produced it is a
    completed reviewer of this task. *)
Lemma ReviewAuthorizes_spec t revision :
  ReviewAuthorizes t revision = true <->
  exists round, review_authority t revision round /\
    (Config_DeliveryMode (Task_Config t) = DeliveryModeMaintenance -> maintenance_review t round).
Proof.
  unfold ReviewAuthorizes. case_bool_decide as Er.
  { split; [done|]. intros (r & [] & _). done. }
  destruct (last (Task_Reviews t)) as [round|] eqn:El.
  2: { split; [done|]. intros (r & [] & _). congruence. }
  case_bool_decide as Erev; simpl.
  2: { split; [done|]. intros (r & [] & _). congruence. }
  destruct (Review_Clean (ReviewRound_Result round)) eqn:Ec; simpl.
  2: { split; [done|]. intros (r & [Hl _ _ Hc] & _). rewrite El in Hl. simplify_eq.
       apply Review_Clean_spec in Hc. congruence. }
  assert (review_authority t revision round) as Ha.
  { constructor; [done|done|done|by apply Review_Clean_spec]. }
  destruct (Config_DeliveryMode (Task_Config t)) eqn:Ed.
  { split; [|done]. intros _. exists round. split; [done|]. congruence. }
  rewrite maintenance_bool. split.
  - intros Hm. exists round. by split.
  - intros (r & [Hl _ _ _] & Hm). rewrite El in Hl. simplify_eq. by apply Hm.
Qed.

(** ** Maintenance merge authority *)

Section merge_authority.
Context `{Unicode}.

(** The footprint a merge may have: measured on the delivered commit against
    the reviewed base, complete and countable, free of manual-merge reasons
    and paths, and within the tighter of the saved and live limits. *)
Record footprint_authority (t : Task) (output : string) (live : Config)
    (f : MaintenanceFootprint) : Prop := {
  fa_complete : MaintenanceFootprint_Complete f = true;
  fa_base : MaintenanceFootprint_ComparisonBase f = Task_ComparisonBase t;
  fa_revision : MaintenanceFootprint_Revision f = output;
  fa_reasons : MaintenanceFootprint_ManualReasons f = [];
  fa_paths : forall name, name ∈ MaintenanceFootprint_Paths f ->
    ManualMergePath name (Config_AutoMergeExcludedPaths live) = false;
  fa_lines : exists lines, MaintenanceFootprint_ChangedLines f = Some lines /\
    0 < Config_AutoMergeMaxLines live /\ 0 < Config_AutoMergeMaxLines (Task_Config t) /\
    lines <= Config_AutoMergeMaxLines live /\ lines <= Config_AutoMergeMaxLines (Task_Config t);
  fa_files : exists files, MaintenanceFootprint_ChangedFiles f = Some files /\ 0 < files /\
    lenN (MaintenanceFootprint_Paths f) = files /\
    files <= Config_AutoMergeMaxFiles live /\ files <= Config_AutoMergeMaxFiles (Task_Config t);
}.

Lemma footprint_within_spec t output live f :
  footprint_within t output live f = true <-> footprint_authority t output live f.
Proof.
  unfold footprint_within, AutoMergeLimits. rewrite lenN_0. split.
  - intros E. destruct_cond. bool_hyps.
    destruct (MaintenanceFootprint_ChangedLines f) as [lines|] eqn:El; [|done].
    destruct (MaintenanceFootprint_ChangedFiles f) as [files|] eqn:Ef; [|done].
    do 2 destruct_cond. bool_hyps.
    constructor; try done.
    + intros name Hn. apply not_true_is_false. intros Hm.
      match goal with X : existsb _ _ = false |- _ => apply not_true_iff_false in X; apply X end.
      apply existsb_spec. eauto.
    + exists lines. split; [done|]. lia.
    + exists files. split; [done|]. lia.
  - intros [Hc Hb Hr Hm Hp (lines & -> & Hl) (files & -> & Hf)].
    rewrite Hc, Hm, !bool_decide_eq_true_2 by done. simpl.
    destruct Hf as (Hf0 & <- & Hf).
    destruct (N.eqb_spec (lenN (MaintenanceFootprint_Paths f)) 0); [lia|].
    rewrite N.eqb_refl. simpl.
    destruct (existsb _ _) eqn:E.
    { apply existsb_spec in E as (n' & Hn & E). rewrite Hp in E by done. done. }
    rewrite !negb_true_iff, !orb_false_iff, !N.eqb_neq, !N.ltb_ge. lia.
Qed.

(** Everything an automatic maintenance merge of [t] rests on. *)
Record merge_authority (t : Task) (live : Config) (output : string) : Prop := {
  ma_live : Config_DeliveryMode live = DeliveryModeMaintenance;
  ma_saved : Config_DeliveryMode (Task_Config t) = DeliveryModeMaintenance;
  ma_policy : SamePRPolicy live (Task_Config t) = true;
  ma_output : Task_OutputCommit t = Some output;
  ma_archived : WorkspaceLifecycle_ArchivedAt (Task_Lifecycle t) = None;
  ma_category : Proposal_Category (Task_Proposal t) ∈ EffectiveCategories live;
  ma_review : exists round m, review_authority t output round /\ maintenance_review t round /\
    ReviewRound_TrustedDiffComplete round = true /\ ReviewRound_Maintenance round = Some m /\
    MaintenanceAssessment_ManualMergeRequired m = false;
  ma_footprint : exists f, Task_MaintenanceFootprint t = Some f /\
    footprint_authority t output live f;
  ma_commands : Config_VerificationCommands (ExecutionConfig t) <> [];
  ma_verified : forall command, command ∈ Config_VerificationCommands (ExecutionConfig t) ->
    exists v, last (command_results t command) = Some v /\
      Verification_Success v = true /\ Verification_Revision v = output;
}.

(** An automatic merge is authorized exactly when every part of the
    authority holds: both policies are in maintenance mode for the same
    remote and prefix, the task delivered a commit and is not archived, its
    last review is a clean, complete and qualifying one of that commit, the
    measured footprint is within both limits and touches no manual-merge
    path, and the latest result of every verification command passed on that
    commit. *)
Theorem MaintenanceMergeAuthorized_spec t live :
  MaintenanceMergeAuthorized t live = true <-> exists output, merge_authority t live output.
Proof.
  unfold MaintenanceMergeAuthorized. split.
  - intros E. destruct_cond. bool_hyps.
    destruct (Task_OutputCommit t) as [output|] eqn:Eo; [|done]. exists output.
    destruct_cond. bool_hyps.
    match goal with X : ReviewAuthorizes _ _ = true |- _ =>
      apply ReviewAuthorizes_spec in X as (round & Ha & Hm) end.
    rewrite (ra_last _ _ _ Ha) in E. destruct_cond. bool_hyps.
    destruct (ReviewRound_Maintenance round) as [m|] eqn:Em; [|done].
    destruct (Task_MaintenanceFootprint t) as [f|] eqn:Ef; [|done].
    rewrite lenN_0 in E. do 2 destruct_cond. bool_hyps.
    constructor; try done.
    + unfold SamePRPolicy. rewrite andb_true_iff, bool_decide_eq_true. done.
    + unfold Archived in *. by destruct (WorkspaceLifecycle_ArchivedAt _).
    + exists round, m. split_and!; try done. by apply Hm.
    + exists f. split; [done|]. by apply footprint_within_spec.
    + intros c Hc. apply verification_passed_spec. revert Hc. by apply forallb_spec.
  - intros (output & [Hl Hs Hp Ho Har Hc (round & m & Ha & Hm & Ht & Em & Hmm) (f & Ef & Hf) Hne Hv]).
    rewrite !bool_decide_eq_true_2 by done. unfold SamePRPolicy in Hp.
    apply andb_true_iff in Hp as [-> Hp]. rewrite Hp, Ho. simpl.
    unfold Archived. rewrite Har. simpl. rewrite (bool_decide_eq_true_2 _ Hc).
    rewrite (proj2 (ReviewAuthorizes_spec t output)) by eauto. simpl.
    rewrite (ra_last _ _ _ Ha), Ht, Em, Hmm, Ef. simpl.
    rewrite (proj2 (footprint_within_spec t output live f)) by done. simpl.
    rewrite lenN_0, bool_decide_eq_false_2 by done.
    apply forallb_spec. intros c Hcc. by apply verification_passed_spec, Hv.
Qed.

(** A result appended for a required command decides again: a failure, or a
    success on another revision, withdraws the authority. *)
Lemma MaintenanceMergeAuthorized_append t live v :
  Verification_Command v ∈ Config_VerificationCommands (ExecutionConfig t) ->
  Verification_Success v = false \/ Some (Verification_Revision v) <> Task_OutputCommit t ->
  MaintenanceMergeAuthorized (t <| Task_Verification := Task_Verification t ++ [v] |>) live = false.
Proof.
  intros Hin Hbad. apply not_true_is_false. intros E.
  apply MaintenanceMergeAuthorized_spec in E as (output & E).
  pose proof (ma_output _ _ _ E) as Ho.
  destruct (ma_verified _ _ _ E (Verification_Command v)) as (w & Hw & Hs & Hr).
  { by destruct t. }
  unfold command_results in Hw. destruct t; simpl in *.
  rewrite List.filter_app in Hw. simpl in Hw. rewrite bool_decide_eq_true_2 in Hw by done.
  rewrite last_snoc in Hw. simplify_eq. destruct Hbad; congruence.
Qed.
End merge_authority.

(** ** Sandbox records *)

Lemma u64_add_mod_l a b : u64 (u64 a + b) = u64 (a + b).
Proof. unfold u64. by rewrite N.Div0.add_mod_idemp_l. Qed.
Lemma u64_add_mod_r a b : u64 (a + u64 b) = u64 (a + b).
Proof. unfold u64. by rewrite N.Div0.add_mod_idemp_r. Qed.

(** The tunnels a host map counts. *)
Definition map_total (m : gmap string N) : N := map_fold (fun _ v acc => v + acc) 0 m.

Lemma map_total_insert_None m k v :
  m !! k = None -> map_total (<[k := v]> m) = v + map_total m.
Proof.
  intros E. unfold map_total. apply (map_fold_insert_L (fun _ v acc => v + acc)); [|done].
  intros. lia.
Qed.
Lemma map_total_delete m k v : m !! k = Some v -> map_total m = v + map_total (delete k m).
Proof.
  intros E. rewrite <- (insert_id m k v E) at 1. rewrite <- insert_delete_eq.
  apply map_total_insert_None, lookup_delete_eq.
Qed.
Lemma map_total_insert m k v :
  map_total (<[k := v]> m) + default 0 (m !! k) = v + map_total m.
Proof.
  destruct (m !! k) as [w|] eqn:E; simpl.
  - rewrite <- insert_delete_eq, map_total_insert_None by apply lookup_delete_eq.
    rewrite (map_total_delete m k w E). lia.
  - rewrite map_total_insert_None by done. lia.
Qed.

Definition keys_total (from : gmap string N) (l : list string) : N :=
  foldr (fun h acc => default 0 (from !! h) + acc) 0 l.

Lemma insert_string_perm x l : insert_string x l ≡ₚ x :: l.
Proof.
  induction l as [|y l IH]; simpl; [done|]. destruct (String.leb x y); [done|].
  rewrite IH. apply Permutation_swap.
Qed.
Lemma sort_strings_perm l : sort_strings l ≡ₚ l.
Proof. induction l as [|x l IH]; simpl; [done|]. by rewrite insert_string_perm, IH. Qed.

Lemma keys_total_perm from l k : l ≡ₚ k -> keys_total from l = keys_total from k.
Proof. induction 1; simpl; lia. Qed.

Lemma keys_total_all from : keys_total from (sorted_keys from) = map_total from.
Proof.
  unfold sorted_keys. rewrite (keys_total_perm _ _ _ (sort_strings_perm _)).
  induction from as [|k v m Hk IH] using map_ind; [done|].
  rewrite map_total_insert_None, <- IH by done.
  rewrite (keys_total_perm _ _ (k :: (map_to_list m).*1)).
  2: { by rewrite map_to_list_insert. }
  simpl. rewrite lookup_insert_eq. simpl. f_equal. clear IH.
  assert (Forall (fun h => h <> k) (map_to_list m).*1) as Hne.
  { apply Forall_fmap, Forall_forall. intros [h w] Hh%elem_of_map_to_list. simpl. congruence. }
  induction Hne as [|h l Hh _ IH]; [done|]. simpl. rewrite lookup_insert_ne by done. by rewrite IH.
Qed.

Lemma add_host_total from st h :
  u64 (map_total (add_host from st h).1) = u64 (map_total st.1 + default 0 (from !! h)).
Proof.
  destruct st as [into named]. unfold add_host.
  set (kn := if isNone (into !! h) && _ then _ else _). destruct kn as [key n]. simpl.
  pose proof (map_total_insert into key (u64_add (default 0 (into !! key)) (default 0 (from !! h)))) as E.
  set (old := default 0 (into !! key)) in *. set (add := default 0 (from !! h)) in *.
  assert (old <= map_total into).
  { unfold old. destruct (into !! key) eqn:F; simpl; [|lia]. rewrite (map_total_delete _ _ _ F). lia. }
  replace (map_total (<[key:=u64_add old add]> into))
    with (u64_add old add + (map_total into - old)) by lia.
  unfold u64_add. rewrite u64_add_mod_l. f_equal. lia.
Qed.

Lemma add_hosts_total from l st :
  u64 (map_total (foldl (add_host from) st l).1) = u64 (map_total st.1 + keys_total from l).
Proof.
  revert st. induction l as [|h l IH]; intros st; simpl; [by rewrite N.add_0_r|].
  rewrite IH, <- u64_add_mod_l, add_host_total, u64_add_mod_l. f_equal. lia.
Qed.

(** The hosts a record names, "other" apart. *)
Definition named_hosts (m : gmap string N) : N := N.of_nat (size (delete "other" m)).

Lemma named_hosts_insert_other m v : named_hosts (<["other" := v]> m) = named_hosts m.
Proof. unfold named_hosts. by rewrite delete_insert_eq. Qed.
Lemma named_hosts_insert_known m k v : is_Some (m !! k) -> named_hosts (<[k := v]> m) = named_hosts m.
Proof.
  intros Hk. unfold named_hosts. destruct (decide (k = "other")) as [->|Hne].
  - by rewrite delete_insert_eq.
  - rewrite delete_insert_ne by done. rewrite map_size_insert_Some; [done|].
    by rewrite lookup_delete_ne.
Qed.
Lemma named_hosts_insert_new m k v :
  m !! k = None -> k <> "other" -> named_hosts (<[k := v]> m) = named_hosts m + 1.
Proof.
  intros Hk Hne. unfold named_hosts. rewrite delete_insert_ne by done.
  rewrite map_size_insert_None by (by rewrite lookup_delete_ne). lia.
Qed.

Lemma add_host_named from into named h B :
  named = named_hosts into -> named <= B -> SandboxHostLimit <= B ->
  (add_host from (into, named) h).2 = named_hosts (add_host from (into, named) h).1 /\
  (add_host from (into, named) h).2 <= B.
Proof.
  intros -> HB HL. unfold add_host, isNone.
  destruct (into !! h) as [v|] eqn:Eh; simpl.
  { rewrite named_hosts_insert_known by eauto. done. }
  case_bool_decide as Eo; simpl.
  { subst. rewrite named_hosts_insert_other. done. }
  destruct (N.leb_spec SandboxHostLimit (named_hosts into)); simpl.
  - rewrite named_hosts_insert_other. done.
  - rewrite named_hosts_insert_new by done. split; [done|]. lia.
Qed.

Lemma add_hosts_named from l into named B :
  named = named_hosts into -> named <= B -> SandboxHostLimit <= B ->
  named_hosts (foldl (add_host from) (into, named) l).1 <= B.
Proof.
  revert into named. induction l as [|h l IH]; intros into named Hn HB HL; [by subst|]. cbn [foldl].
  destruct (add_host_named from into named h B Hn HB HL) as [F G].
  destruct (add_host from (into, named) h) as [into' named']. by apply IH.
Qed.

Lemma initial_named into :
  N.of_nat (size into) - (if isSome (into !! "other") then 1 else 0) = named_hosts into.
Proof.
  unfold named_hosts. destruct (into !! "other") as [v|] eqn:E; simpl.
  - rewrite map_size_delete_Some by eauto.
    assert (size into <> 0%nat); [|lia]. intros F%map_size_empty_iff. subst. done.
  - rewrite delete_id by done. lia.
Qed.

(** Adding a run's hosts keeps every tunnel counted (modulo the 64-bit
    width) and never names more than [SandboxHostLimit] hosts, unless the
    record already did. *)
Theorem addHosts_spec into from :
  u64 (map_total (addHosts into from)) = u64 (map_total into + map_total from) /\
  named_hosts (addHosts into from) <= N.max SandboxHostLimit (named_hosts into).
Proof.
  unfold addHosts. split.
  - rewrite add_hosts_total, keys_total_all. done.
  - rewrite initial_named. apply add_hosts_named; [done|lia|lia].
Qed.
