(* ===== verification/Samples.v ===== *)
(** * Concrete records

    Small records on which the witnesses of the other files evaluate the
    definitions: a proposal, a queued task planned from it, a clean review of a
    commit, and the sessions and control record around them. *)
From S2P Require Import Prelude GoStrings WireJson Enums Types Config Model.
Local Open Scope string_scope.
Local Open Scope list_scope.
Local Open Scope N_scope.

Definition sample_config : Config :=
  Default <| Config_GitHubRepo := "acme/widgets" |>
          <| Config_Repository := "/srv/widgets" |>
          <| Config_VerificationCommands := ["go test ./..."] |>.
Definition sample_route : Route := NewRoute "gpt-6" "medium".

Definition sample_proposal (id target : string) (deps : list string) : Proposal :=
  mkProposal id ("Fix " +:+ id) "problem" ["file.go:1"] "benefit" "correctness" target "S" "scope"
    deps "prompt" DecisionAccepted "reason" ("key-" +:+ id) ["file.go"] [].

Definition sample_session (id role : string) (status : SessionStatus) : Session :=
  mkSession id role sample_route status "2026-01-01T00:00:00Z" "" None None.

Definition sample_review (revision : string) : ReviewRound :=
  mkReviewRound "session-r" revision "base" (mkReview true "No findings." []) "2026-01-01T00:10:00Z"
    None true.

Definition sample_task (id : string) : Task := {|
  Task_ID := id; Task_CycleID := "cycle-1";
  Task_Proposal := sample_proposal id "main" [];
  Task_Status := StatusQueued; Task_Route := sample_route; Task_Config := sample_config;
  Task_SourceRevision := ""; Task_ComparisonBase := ""; Task_DefaultRevision := "rev-0";
  Task_Branch := "octomus/" +:+ id; Task_Workspace := "";
  Task_ExecutionSession := None; Task_RepairSession := None;
  Task_Sessions := []; Task_Reviews := []; Task_Verification := [];
  Task_OutputCommit := None; Task_PRNumber := None; Task_PRURL := None;
  Task_Attempts := 0; Task_Error := None;
  Task_CreatedAt := "2026-01-01T00:00:00Z"; Task_UpdatedAt := "2026-01-01T00:00:00Z";
  Task_AttemptPolicy := None; Task_ReviewBaseline := 0; Task_RepairRounds := Some 0;
  Task_RepairProgress := None; Task_BlockedReason := None; Task_RunID := None;
  Task_SupersededBy := []; Task_Supersedes := []; Task_RediscoveryRequested := false;
  Task_RediscoveryResult := None; Task_Lifecycle := mkWorkspaceLifecycle None None;
  Task_MaintenanceFootprint := None; Task_AutoMergeSnapshot := None
|}.

(** The states of [sample_task] along a successful delivery. *)
Definition executing_task (id : string) : Task := (sample_task id) <| Task_Status := StatusExecuting |>.
Definition reviewing_task (id : string) : Task :=
  (executing_task id) <| Task_Status := StatusReviewing |>
    <| Task_Sessions := [sample_session "session-e" "executor" SessionCompleted] |>.
Definition publishing_task (id commit : string) : Task :=
  (reviewing_task id) <| Task_Status := StatusPublishing |>
    <| Task_Reviews := [sample_review commit] |> <| Task_OutputCommit := Some commit |>.
Definition published_task (id commit : string) : Task :=
  (publishing_task id commit) <| Task_Status := StatusPublished |>
    <| Task_PRNumber := Some 7 |> <| Task_PRURL := Some "https://github.com/acme/widgets/pull/7" |>.
Definition cancelled_task (id : string) : Task :=
  (executing_task id) <| Task_Status := StatusCancelled |> <| Task_Error := Some "Cancelled by the operator" |>.
