(* ===== verification/Lifecycle.v ===== *)
(** * The task lifecycle ([internal/model/task_lifecycle.go])

    Every change of a saved task names the operation that makes it; the policy
    below decides which status transitions and which fields that operation may
    change, and how evidence may grow. *)
From S2P Require Import Prelude GoStrings WireJson Enums Types GoErrors Config Model Samples.
Local Open Scope string_scope.
Local Open Scope list_scope.
Local Open Scope N_scope.

Inductive TaskChange :=
| TaskCheckpoint | TaskPrepare | TaskAdmission | TaskAuthorizePublication
| TaskPublication | TaskSettlement | TaskRecovery | TaskRetry | TaskResolve
| TaskInspect | TaskCancel | TaskArchive | TaskDiscard | TaskLineage | TaskMergeSnapshot.
#[export] Instance TaskChange_eq_dec : EqDecision TaskChange.
Proof. solve_decision. Defined.

Definition ErrTaskCancelled : error := New "Task was cancelled by the operator".

(** ** Evidence *)

(** [taskHistoryPrefix]. *)
Fixpoint taskHistoryPrefix {T} `{EqDecision T} (before after : list T) : bool :=
  match before, after with
  | [], _ => true
  | _ :: _, [] => false
  | x :: b, y :: a => Equal x y && taskHistoryPrefix b a
  end.

Definition truthy (o : option bool) : bool := match o with Some b => b | None => false end.

(** The loop of [validateTaskEvidence] over the pending sessions; [old] are the
    expected sessions still to match, [repairs] the newly completed repairs. *)
Fixpoint evidence_loop (old pending : list Session) (seen : gset string) (repairs : N)
    : result N error :=
  match pending with
  | [] => Ok repairs
  | session :: rest =>
    guard negb (bool_decide (Session_ID session = "") || bool_decide (Session_ID session ∈ seen))
      else New "Pending evidence repeats or omits a session identity";
    let seen := {[Session_ID session]} ∪ seen in
    let! completed :=
      match old with
      | [] => Ok false
      | o :: _ =>
        guard bool_decide (Session_ID o = Session_ID session)
              && bool_decide (Session_Role o = Session_Role session)
              && bool_decide (Session_StartedAt o = Session_StartedAt session)
              && Equal (Session_Route o) (Session_Route session)
          else New "Pending evidence replaced a session identity";
        guard negb (truthy (Session_FirstTurnStarted o) && negb (truthy (Session_FirstTurnStarted session)))
          else New "Pending evidence forgot a started runner turn";
        Ok (bool_decide (Session_Status o = SessionCompleted))
      end in
    let repairs :=
      if bool_decide (Session_Role session = "repair")
         && bool_decide (Session_Status session = SessionCompleted) && negb completed
      then u64_add repairs 1 else repairs in
    evidence_loop (tail old) rest seen repairs
  end.

Definition validateTaskEvidence (expected pending : Task) : result unit error :=
  guard negb ((lenN (Task_Sessions pending) <? lenN (Task_Sessions expected))
              || negb (taskHistoryPrefix (Task_Reviews expected) (Task_Reviews pending))
              || negb (taskHistoryPrefix (Task_Verification expected) (Task_Verification pending)))
    else New "Task checkpoint would replace committed evidence";
  let! repairs := evidence_loop (Task_Sessions expected) (Task_Sessions pending) ∅ 0 in
  match Task_RepairRounds expected, Task_RepairRounds pending with
  | Some before, None => Err (New "Pending repair accounting does not match completed sessions")
  | Some before, Some after =>
      guard after =? u64_add before repairs
        else New "Pending repair accounting does not match completed sessions";
      Ok tt
  | None, Some after =>
      guard after =? u64_add (AttemptReviews expected) repairs
        else New "Legacy repair accounting was not initialized conservatively";
      Ok tt
  | None, None =>
      guard repairs =? 0
        else New "Completed repair evidence requires its accounting checkpoint";
      Ok tt
  end.

Definition copyTaskEvidence (next evidence : Task) : Task :=
  next <| Task_Sessions := Task_Sessions evidence |>
       <| Task_Reviews := Task_Reviews evidence |>
       <| Task_Verification := Task_Verification evidence |>
       <| Task_RepairRounds := Task_RepairRounds evidence |>
       <| Task_RepairProgress := Task_RepairProgress evidence |>.

(** ** The policy *)

Definition same_status (a b : Status) : bool := bool_decide (a = b).

(** The [switch change] that computes [valid]. *)
Definition transition_valid (current next : Task) (change : TaskChange) (cancelled : bool) : bool :=
  let cs := Task_Status current in
  let ns := Task_Status next in
  let no_output := isNone (Task_OutputCommit current) in
  match change with
  | TaskCheckpoint =>
      if same_status cs ns then Active cs else
      match cs with
      | StatusExecuting | StatusRepairing => same_status ns StatusReviewing
      | StatusReviewing => same_status ns StatusVerifying || same_status ns StatusRepairing
      | StatusVerifying => same_status ns StatusRepairing
      | _ => Active cs && same_status cs ns
      end
  | TaskPrepare => same_status cs StatusExecuting && same_status ns cs
                   && isNone (Task_ExecutionSession current)
  | TaskAdmission => same_status cs StatusQueued && same_status ns StatusExecuting
  | TaskAuthorizePublication =>
      Active cs && same_status ns StatusPublishing &&
      match Task_OutputCommit next with Some output => ReviewAuthorizes next output | None => false end
  | TaskPublication => same_status cs StatusPublishing && same_status ns StatusPublished
                       && isSome (Task_OutputCommit current)
  | TaskSettlement =>
      if cancelled && no_output then same_status ns StatusCancelled else
      same_status ns cs ||
      ((Active cs || same_status cs StatusQueued) &&
       (same_status ns StatusBlocked || same_status ns StatusFailed || same_status ns StatusCancelled))
  | TaskRecovery =>
      if cancelled && no_output then same_status ns StatusCancelled else
      Active cs && (same_status ns StatusQueued || same_status ns StatusBlocked || same_status ns StatusCancelled)
  | TaskRetry => Retryable cs && same_status ns StatusQueued
                 && (Task_Attempts next =? u64_add (Task_Attempts current) 1)
  | TaskResolve =>
      (Retryable cs || same_status cs StatusCancelled) &&
      (same_status ns cs || same_status ns StatusCancelled
       || (same_status ns StatusPublishing && isSome (Task_OutputCommit current)))
  | TaskInspect => Retryable cs && same_status ns cs
  | TaskCancel => no_output && negb (same_status cs StatusPublishing)
                  && negb (same_status cs StatusPublished) && same_status ns StatusCancelled
  | TaskArchive => negb (Active cs) && negb (same_status cs StatusQueued) && Archived next
                   && (same_status ns cs || (Retryable cs && same_status ns StatusCancelled))
  | TaskDiscard => negb (Active cs) && negb (same_status cs StatusQueued) && same_status ns cs
                   && Discarded next
  | TaskLineage | TaskMergeSnapshot => same_status ns cs
  end.

(** The second [switch]: [current] with the fields this change owns taken from
    [next]. *)
Definition allowed_change (current next : Task) (change : TaskChange) : Task :=
  let allowed := current <| Task_Status := Task_Status next |>
                         <| Task_UpdatedAt := Task_UpdatedAt next |>
                         <| Task_Error := Task_Error next |>
                         <| Task_BlockedReason := Task_BlockedReason next |> in
  let worker :=
    (copyTaskEvidence allowed next)
      <| Task_ExecutionSession := Task_ExecutionSession next |>
      <| Task_RepairSession := Task_RepairSession next |>
      <| Task_MaintenanceFootprint := Task_MaintenanceFootprint next |> in
  match change with
  | TaskCheckpoint | TaskSettlement => worker
  | TaskPrepare =>
      worker <| Task_SourceRevision := Task_SourceRevision next |>
             <| Task_Workspace := Task_Workspace next |>
             <| Task_ComparisonBase := Task_ComparisonBase next |>
  | TaskAuthorizePublication => worker <| Task_OutputCommit := Task_OutputCommit next |>
  | TaskPublication =>
      allowed <| Task_PRNumber := Task_PRNumber next |>
              <| Task_PRURL := Task_PRURL next |>
              <| Task_AutoMergeSnapshot := Task_AutoMergeSnapshot next |>
  | TaskRecovery =>
      allowed <| Task_Sessions := Task_Sessions next |>
              <| Task_Attempts := Task_Attempts next |>
  | TaskRetry =>
      allowed <| Task_Attempts := Task_Attempts next |>
              <| Task_AttemptPolicy := Task_AttemptPolicy next |>
              <| Task_RunID := Task_RunID next |>
              <| Task_ReviewBaseline := Task_ReviewBaseline next |>
              <| Task_RepairRounds := Task_RepairRounds next |>
              <| Task_RepairProgress := Task_RepairProgress next |>
  | TaskInspect => allowed <| Task_AttemptPolicy := Task_AttemptPolicy next |>
  | TaskResolve =>
      allowed <| Task_RediscoveryRequested := Task_RediscoveryRequested next |>
              <| Task_RediscoveryResult := Task_RediscoveryResult next |>
  | TaskArchive =>
      allowed <| Task_Lifecycle := (Task_Lifecycle allowed)
                   <| WorkspaceLifecycle_ArchivedAt := WorkspaceLifecycle_ArchivedAt (Task_Lifecycle next) |> |>
  | TaskDiscard =>
      allowed <| Task_Lifecycle := (Task_Lifecycle allowed)
                   <| WorkspaceLifecycle_DiscardedAt := WorkspaceLifecycle_DiscardedAt (Task_Lifecycle next) |> |>
  | TaskLineage =>
      allowed <| Task_SupersededBy := Task_SupersededBy next |>
              <| Task_RediscoveryRequested := Task_RediscoveryRequested next |>
              <| Task_RediscoveryResult := Task_RediscoveryResult next |>
  | TaskMergeSnapshot => allowed <| Task_AutoMergeSnapshot := Task_AutoMergeSnapshot next |>
  | TaskAdmission | TaskCancel => allowed
  end.

Definition same_identity (current next : Task) : bool :=
  bool_decide (Task_ID current = Task_ID next)
  && bool_decide (Task_CycleID current = Task_CycleID next)
  && bool_decide (Task_CreatedAt current = Task_CreatedAt next)
  && bool_decide (Task_Branch current = Task_Branch next)
  && bool_decide (Task_DefaultRevision current = Task_DefaultRevision next)
  && Equal (Task_Proposal current) (Task_Proposal next)
  && Equal (Task_Config current) (Task_Config next)
  && Equal (Task_Route current) (Task_Route next).

(** The changes a worker makes to evidence. *)
Definition worker_change (change : TaskChange) : bool :=
  match change with
  | TaskCheckpoint | TaskPrepare | TaskAuthorizePublication | TaskSettlement => true
  | _ => false
  end.

Definition ValidateTaskChange (current next : Task) (change : TaskChange) (cancelled : bool)
    : result unit error :=
  guard same_identity current next else New "Task change would replace its planning identity";
  guard negb (isSome (Task_OutputCommit current)
              && negb (Equal (Task_OutputCommit current) (Task_OutputCommit next)))
    else New "Task change would replace its authorized output commit";
  guard negb (cancelled && isNone (Task_OutputCommit current) &&
              match change with
              | TaskCheckpoint | TaskPrepare | TaskAdmission | TaskAuthorizePublication => true
              | _ => false
              end)
    else ErrTaskCancelled;
  guard negb ((Archived current || Discarded current) &&
              match change with
              | TaskSettlement | TaskDiscard | TaskMergeSnapshot => false
              | _ => true
              end)
    else New "Task workspaces are no longer eligible for this change";
  guard transition_valid current next change cancelled
    else Errorf "Task transition from %s to %s is not authorized"
           [VStr (enum_String (Task_Status current)); VStr (enum_String (Task_Status next))];
  let! _ := if worker_change change then validateTaskEvidence current next else Ok tt in
  guard Equal (allowed_change current next change) next
    else New "Task change would replace fields owned by another operation";
  Ok tt.

(** ** Cancellation and settlement of evidence *)

Definition cancelled_message := "Cancelled by the operator".

Definition MergeCancelledTask (expected current pending : Task) : result Task error :=
  let baseline := current <| Task_Status := Task_Status expected |>
                          <| Task_UpdatedAt := Task_UpdatedAt expected |>
                          <| Task_Error := Task_Error expected |>
                          <| Task_BlockedReason := Task_BlockedReason expected |> in
  guard negb (isSome (Task_OutputCommit current) || negb (Equal baseline expected))
    else New "Task evidence changed independently of cancellation";
  let! _ := validateTaskEvidence expected pending in
  let next := copyTaskEvidence current pending in
  let next := next <| Task_Status := StatusCancelled |>
                   <| Task_Error := Some cancelled_message |>
                   <| Task_BlockedReason := None |>
                   <| Task_UpdatedAt := Task_UpdatedAt pending |> in
  Ok (next <| Task_Sessions := FailRunning (Task_Sessions next) cancelled_message |>).

Definition SettleTaskEvidence (expected pending : Task) : Task :=
  (copyTaskEvidence expected pending)
    <| Task_ExecutionSession := Task_ExecutionSession pending |>
    <| Task_RepairSession := Task_RepairSession pending |>
    <| Task_Status := Task_Status pending |>
    <| Task_UpdatedAt := Task_UpdatedAt pending |>
    <| Task_Error := Task_Error pending |>
    <| Task_BlockedReason := Task_BlockedReason pending |>
    <| Task_MaintenanceFootprint := Task_MaintenanceFootprint pending |>.

(** * What an accepted change guarantees *)

(** The conditions of [ValidateTaskChange], opened once for all proofs. *)
Record accepted (current next : Task) (change : TaskChange) (cancelled : bool) : Prop := {
  accepted_identity : same_identity current next = true;
  accepted_output : forall c, Task_OutputCommit current = Some c -> Task_OutputCommit next = Some c;
  accepted_cancelled : cancelled = true -> Task_OutputCommit current = None ->
    change <> TaskCheckpoint /\ change <> TaskPrepare /\ change <> TaskAdmission
    /\ change <> TaskAuthorizePublication;
  accepted_workspace : Archived current || Discarded current = true ->
    change = TaskSettlement \/ change = TaskDiscard \/ change = TaskMergeSnapshot;
  accepted_transition : transition_valid current next change cancelled = true;
  accepted_evidence : worker_change change = true -> validateTaskEvidence current next = Ok tt;
  accepted_fields : allowed_change current next change = next;
}.

Lemma ValidateTaskChange_accepted current next change cancelled :
  ValidateTaskChange current next change cancelled = Ok tt ->
  accepted current next change cancelled.
Proof.
  unfold ValidateTaskChange. intros H. ok_inv H.
  constructor; try done.
  - intros c E. rewrite E in H1. simpl in H1. apply negb_true_iff, negb_false_iff in H1.
    by apply Equal_true in H1 as <-.
  - intros -> E. rewrite E in H2. simpl in H2. by destruct change.
  - intros E. rewrite E in H3. simpl in H3. destruct change; auto; discriminate.
  - intros E. rewrite E in H5. by destruct x.
  - by apply Equal_true.
Qed.

Lemma accepted_ValidateTaskChange current next change cancelled :
  accepted current next change cancelled ->
  ValidateTaskChange current next change cancelled = Ok tt.
Proof.
  intros [Hi Ho Hc Hw Ht He Hf]. unfold ValidateTaskChange. rewrite Hi, Ht, Hf.
  assert (isSome (Task_OutputCommit current)
          && negb (Equal (Task_OutputCommit current) (Task_OutputCommit next)) = false) as ->.
  { destruct (Task_OutputCommit current) as [c|] eqn:E; [|done].
    rewrite (Ho c eq_refl), Equal_refl. done. }
  assert (cancelled && isNone (Task_OutputCommit current) &&
          match change with
          | TaskCheckpoint | TaskPrepare | TaskAdmission | TaskAuthorizePublication => true
          | _ => false end = false) as ->.
  { destruct cancelled; [|done]. destruct (Task_OutputCommit current) eqn:E; [done|].
    destruct (Hc eq_refl eq_refl) as (?&?&?&?). by destruct change. }
  assert ((Archived current || Discarded current) &&
          match change with
          | TaskSettlement | TaskDiscard | TaskMergeSnapshot => false
          | _ => true end = false) as ->.
  { destruct (Archived current || Discarded current) eqn:E; [|done].
    by destruct (Hw eq_refl) as [->|[->| ->]]. }
  simpl. destruct (worker_change change); [rewrite He by done|]; simpl; by rewrite Equal_refl.
Qed.

(** ** Histories only grow *)

Lemma taskHistoryPrefix_spec {T} `{EqDecision T} (before after : list T) :
  taskHistoryPrefix before after = true <-> before `prefix_of` after.
Proof.
  revert after. induction before as [|x b IH]; intros after; simpl.
  { split; [intros; apply prefix_nil|done]. }
  destruct after as [|y a].
  { split; [done|]. intros H. by apply prefix_nil_not in H. }
  rewrite andb_true_iff, IH, Equal_true. split.
  - intros [-> ?]. by apply prefix_cons.
  - intros H. split; [by eapply prefix_cons_inv_1|by eapply prefix_cons_inv_2].
Qed.

Lemma validateTaskEvidence_histories expected pending :
  validateTaskEvidence expected pending = Ok tt ->
  Task_Reviews expected `prefix_of` Task_Reviews pending /\
  Task_Verification expected `prefix_of` Task_Verification pending.
Proof.
  unfold validateTaskEvidence. intros H. ok_inv H.
  bool_hyps. by rewrite <- !taskHistoryPrefix_spec.
Qed.

(** Only [change]s of the worker touch the review and verification histories. *)
Lemma accepted_histories current next change cancelled :
  accepted current next change cancelled ->
  Task_Reviews current `prefix_of` Task_Reviews next /\
  Task_Verification current `prefix_of` Task_Verification next.
Proof.
  intros Ha. destruct (worker_change change) eqn:W.
  { apply validateTaskEvidence_histories, (accepted_evidence _ _ _ _ Ha), W. }
  pose proof (accepted_fields _ _ _ _ Ha) as F.
  pose proof (f_equal Task_Reviews F) as R. pose proof (f_equal Task_Verification F) as V.
  destruct change; try discriminate W; simpl in R, V; rewrite <- R, <- V; done.
Qed.

(** ** Runs: sequences of accepted changes *)

Inductive task_step : Task -> Task -> Prop :=
| task_change_step current next change cancelled :
    ValidateTaskChange current next change cancelled = Ok tt -> task_step current next.
Definition task_run : Task -> Task -> Prop := rtc task_step.

Lemma task_step_accepted t u :
  task_step t u -> exists change cancelled, accepted t u change cancelled.
Proof. intros []. eauto using ValidateTaskChange_accepted. Qed.

(** What no change may lose. *)
Record keeps (t u : Task) : Prop := {
  keeps_ID : Task_ID t = Task_ID u;
  keeps_CycleID : Task_CycleID t = Task_CycleID u;
  keeps_CreatedAt : Task_CreatedAt t = Task_CreatedAt u;
  keeps_Branch : Task_Branch t = Task_Branch u;
  keeps_DefaultRevision : Task_DefaultRevision t = Task_DefaultRevision u;
  keeps_Proposal : Task_Proposal t = Task_Proposal u;
  keeps_Config : Task_Config t = Task_Config u;
  keeps_Route : Task_Route t = Task_Route u;
  keeps_OutputCommit : forall c, Task_OutputCommit t = Some c -> Task_OutputCommit u = Some c;
  keeps_Reviews : Task_Reviews t `prefix_of` Task_Reviews u;
  keeps_Verification : Task_Verification t `prefix_of` Task_Verification u;
}.
#[export] Instance keeps_preorder : PreOrder keeps.
Proof.
  split.
  - intros t. constructor; auto.
  - intros t u v [] []. constructor; first [congruence | etrans; eassumption | auto].
Qed.

Lemma task_step_keeps t u : task_step t u -> keeps t u.
Proof.
  intros (change & cancelled & Ha)%task_step_accepted.
  destruct (accepted_histories _ _ _ _ Ha).
  pose proof (accepted_identity _ _ _ _ Ha) as I. unfold same_identity in I. bool_hyps.
  equal_hyps.
  constructor; auto. apply (accepted_output _ _ _ _ Ha).
Qed.
Lemma task_run_keeps t u : task_run t u -> keeps t u.
Proof. induction 1; [done|]. etrans; [by apply task_step_keeps|done]. Qed.

(** Through any sequence of accepted changes the durable evidence of a
    task only grows: the review rounds and verification results already saved
    stay a prefix of the saved histories, an authorised output commit is never
    replaced or forgotten, and the planning identity (proposal, configuration,
    branch, route, revision) stays the one the task was created with. *)
Theorem task_evidence_append_only t u :
  task_run t u ->
  Task_Reviews t `prefix_of` Task_Reviews u /\
  Task_Verification t `prefix_of` Task_Verification u /\
  (forall c, Task_OutputCommit t = Some c -> Task_OutputCommit u = Some c) /\
  Task_ID t = Task_ID u /\ Task_Branch t = Task_Branch u /\
  Task_Proposal t = Task_Proposal u /\ Task_Config t = Task_Config u /\
  Task_Route t = Task_Route u /\ Task_DefaultRevision t = Task_DefaultRevision u.
Proof. intros []%task_run_keeps. auto 10. Qed.

(** ** Publication needs a review of the published commit *)

(** The review evidence an output commit must rest on, for a task of
    configuration [cfg] and category [category]. *)
Record authorized_round (cfg : Config) (category commit : string) (round : ReviewRound) : Prop := {
  authorized_revision : ReviewRound_Revision round = commit;
  authorized_nonempty : commit <> "";
  authorized_clean : Review_Clean (ReviewRound_Result round) = true;
  authorized_maintenance : Config_DeliveryMode cfg = DeliveryModeMaintenance ->
    category <> "features" /\ category ∈ EffectiveCategories cfg /\
    exists m, ReviewRound_Maintenance round = Some m /\
      MaintenanceAssessment_Qualifies m = true /\ blank (MaintenanceAssessment_Reason m) = false;
}.

Lemma ReviewAuthorizes_round t commit :
  ReviewAuthorizes t commit = true ->
  exists round, round ∈ Task_Reviews t /\
    authorized_round (Task_Config t) (Proposal_Category (Task_Proposal t)) commit round.
Proof.
  unfold ReviewAuthorizes. intros H. destruct_cond.
  destruct (last (Task_Reviews t)) as [round|] eqn:L; [|done].
  destruct_cond. bool_hyps. exists round. split; [by eapply last_Some_elem_of|].
  destruct (Config_DeliveryMode (Task_Config t)) eqn:M.
  { constructor; auto. rewrite M. discriminate. }
  destruct_cond. bool_hyps.
  destruct (ReviewRound_Maintenance round) as [m|] eqn:R; [|done]. bool_hyps.
  constructor; auto. intros _. split; [done|]. split; [done|]. by exists m.
Qed.

Definition delivering (s : Status) : Prop := s = StatusPublishing \/ s = StatusPublished.

(** The invariant: a task being delivered has an output commit, and an output
    commit has its authorising round in the history. *)
Record publication_inv (t : Task) : Prop := {
  inv_output : delivering (Task_Status t) -> is_Some (Task_OutputCommit t);
  inv_review : forall c, Task_OutputCommit t = Some c ->
    exists round, round ∈ Task_Reviews t /\
      authorized_round (Task_Config t) (Proposal_Category (Task_Proposal t)) c round;
}.

(** Only an authorisation sets the output commit. *)
Lemma accepted_output_origin current next change cancelled c :
  accepted current next change cancelled ->
  Task_OutputCommit next = Some c ->
  Task_OutputCommit current = Some c \/
  (change = TaskAuthorizePublication /\ ReviewAuthorizes next c = true).
Proof.
  intros Ha E. pose proof (f_equal Task_OutputCommit (accepted_fields _ _ _ _ Ha)) as F.
  pose proof (accepted_transition _ _ _ _ Ha) as T.
  destruct change; simpl in F; try (left; congruence).
  right. split; [done|]. simpl in T. rewrite E in T. by bool_hyps.
Qed.

Ltac status_cases :=
  repeat match goal with
  | H : same_status ?a ?b = true |- _ => apply bool_decide_eq_true in H
  | H : _ && _ = true |- _ => apply andb_true_iff in H as [? ?]
  | H : _ || _ = true |- _ => apply orb_true_iff in H as [?|?]
  end.

(** A task reaches delivery only with its output commit. *)
Lemma accepted_delivering current next change cancelled :
  accepted current next change cancelled ->
  delivering (Task_Status next) ->
  is_Some (Task_OutputCommit next) \/ (delivering (Task_Status current)).
Proof.
  intros Ha D. pose proof (accepted_transition _ _ _ _ Ha) as T.
  pose proof (accepted_output _ _ _ _ Ha) as O.
  assert (Task_Status next = Task_Status current -> delivering (Task_Status current))
    by (intros <-; done).
  assert (isSome (Task_OutputCommit current) = true -> is_Some (Task_OutputCommit next)).
  { destruct (Task_OutputCommit current) as [c|]; [|done]. intros _. rewrite (O c eq_refl). by eexists. }
  unfold transition_valid in T.
  assert (forall s, Task_Status next = s -> ~ delivering s -> False) as No by (intros s <-; auto).
  assert (forall s, s <> StatusPublishing -> s <> StatusPublished -> ~ delivering s) as ND
    by (intros s ? ? []; auto).
  destruct change; repeat destruct_cond; status_cases;
    try (right; by eauto); try (left; by eauto);
    try (exfalso; eapply No; [eassumption|apply ND; discriminate]).
  - destruct (Task_Status current); simpl in T; try done; status_cases;
      exfalso; (eapply No; [eassumption|apply ND; discriminate]).
  - left. destruct (Task_OutputCommit next); [by eexists|done].
Qed.

Lemma authorized_round_keeps t u c :
  keeps t u ->
  (exists round, round ∈ Task_Reviews t /\
     authorized_round (Task_Config t) (Proposal_Category (Task_Proposal t)) c round) ->
  exists round, round ∈ Task_Reviews u /\
     authorized_round (Task_Config u) (Proposal_Category (Task_Proposal u)) c round.
Proof.
  intros K (round & Hr & Ha). exists round.
  rewrite <- (keeps_Config _ _ K), <- (keeps_Proposal _ _ K). split; [|done].
  destruct (keeps_Reviews _ _ K) as [l ->]. set_solver.
Qed.

Lemma publication_inv_step t u : task_step t u -> publication_inv t -> publication_inv u.
Proof.
  intros S [Io Ir]. pose proof (task_step_keeps _ _ S) as K.
  apply task_step_accepted in S as (change & cancelled & Ha). constructor.
  - intros D. destruct (accepted_delivering _ _ _ _ Ha D) as [?|D']; [done|].
    destruct (Io D') as [c E]. rewrite (keeps_OutputCommit _ _ K c E). by eexists.
  - intros c E. destruct (accepted_output_origin _ _ _ _ _ Ha E) as [E'|[_ R]].
    + by apply (authorized_round_keeps t), Ir.
    + by apply ReviewAuthorizes_round.
Qed.
Lemma publication_inv_run t u : task_run t u -> publication_inv t -> publication_inv u.
Proof. induction 1; eauto using publication_inv_step. Qed.

(** A task as planning creates it. *)
Definition fresh (t : Task) : Prop :=
  Task_Status t = StatusQueued /\ Task_OutputCommit t = None.
Lemma fresh_publication_inv t : fresh t -> publication_inv t.
Proof.
  intros [S O]. constructor; [|congruence]. rewrite S. by intros [|].
Qed.

(** C2: nothing is published without review.  Whatever sequence of accepted
    changes takes a freshly planned task to publishing or published, the task
    then has an output commit, and its history holds a completed, finding-free
    review round of exactly that commit; under maintenance delivery the round
    moreover carries a qualifying maintenance assessment for a non-feature
    category the configuration enables. *)
Theorem published_was_reviewed t u :
  fresh t -> task_run t u -> delivering (Task_Status u) ->
  exists commit round, Task_OutputCommit u = Some commit /\ round ∈ Task_Reviews u /\
    authorized_round (Task_Config t) (Proposal_Category (Task_Proposal t)) commit round.
Proof.
  intros F R D. pose proof (task_run_keeps _ _ R) as K.
  destruct (publication_inv_run _ _ R (fresh_publication_inv _ F)) as [Io Ir].
  destruct (Io D) as [c E]. destruct (Ir c E) as (round & ? & Ha).
  rewrite (keeps_Config _ _ K), (keeps_Proposal _ _ K). eauto.
Qed.

(** ** The status machine

    The abstract machine the lifecycle implements: its states are the statuses,
    its edges the transitions an operator, the scheduler, a worker or recovery
    can make.  [output] says whether a commit is authorised. *)
Inductive status_step : bool -> Status -> bool -> Status -> Prop :=
| edge_stay o s : status_step o s o s
| edge_admit o : status_step o StatusQueued o StatusExecuting
| edge_review o s : s = StatusExecuting \/ s = StatusRepairing -> status_step o s o StatusReviewing
| edge_verify o : status_step o StatusReviewing o StatusVerifying
| edge_repair o s : s = StatusReviewing \/ s = StatusVerifying -> status_step o s o StatusRepairing
| edge_authorize o s : s ∈ ActiveStatuses -> status_step o s true StatusPublishing
| edge_publish : status_step true StatusPublishing true StatusPublished
| edge_settle o s s' : s ∈ StatusQueued :: ActiveStatuses -> s' ∈ UnresolvedStatuses ->
    status_step o s o s'
| edge_requeue o s : s ∈ ActiveStatuses -> status_step o s o StatusQueued
| edge_retry o s : s ∈ AttentionStatuses -> status_step o s o StatusQueued
| edge_reconcile s : s ∈ UnresolvedStatuses -> status_step true s true StatusPublishing
| edge_resolve o s : s ∈ UnresolvedStatuses -> status_step o s o StatusCancelled
| edge_cancel s : s <> StatusPublishing -> s <> StatusPublished ->
    status_step false s false StatusCancelled.

Definition has_output (t : Task) : bool := isSome (Task_OutputCommit t).

Lemma accepted_has_output t u change cancelled :
  accepted t u change cancelled -> change <> TaskAuthorizePublication ->
  has_output u = has_output t.
Proof.
  intros Ha N. unfold has_output.
  destruct (Task_OutputCommit u) as [c|] eqn:E.
  - by destruct (accepted_output_origin _ _ _ _ _ Ha E) as [->|[]].
  - destruct (Task_OutputCommit t) as [d|] eqn:E'; [|done].
    by rewrite (accepted_output _ _ _ _ Ha d E') in E.
Qed.

(** [transition_valid], change by change, as edges of the machine; [o] is the
    output before, the output after is the same but for authorisation. *)
Lemma same_status_true a b : same_status a b = true <-> a = b.
Proof. apply bool_decide_eq_true. Qed.

Lemma active_unresolved_or s : Retryable s = true -> s ∈ AttentionStatuses /\ s ∈ UnresolvedStatuses.
Proof. destruct s; try done; intros _; unfold AttentionStatuses, UnresolvedStatuses; set_solver. Qed.
Lemma active_startable s : Active s = true \/ s = StatusQueued -> s ∈ StatusQueued :: ActiveStatuses.
Proof. rewrite Active_spec. set_solver. Qed.
Lemma unresolved_blocked : StatusBlocked ∈ UnresolvedStatuses.
Proof. set_solver. Qed.
Lemma unresolved_failed : StatusFailed ∈ UnresolvedStatuses.
Proof. set_solver. Qed.
Lemma unresolved_cancelled : StatusCancelled ∈ UnresolvedStatuses.
Proof. set_solver. Qed.
#[local] Hint Constructors status_step : edges.
#[local] Hint Resolve active_startable unresolved_blocked unresolved_failed unresolved_cancelled : edges.

Ltac status_facts :=
  status_cases;
  repeat match goal with
  | H : negb (same_status _ _) = true |- _ =>
      apply negb_true_iff in H; apply bool_decide_eq_false in H
  | H : Retryable _ = true |- _ => apply active_unresolved_or in H as [? ?]
  | H : Task_Status ?t = Task_Status ?u |- _ => rewrite H in *
  | H : Task_Status ?t = _ |- _ => rewrite H in *; clear H
  end.

Lemma cancel_edge o s : o = false -> (delivering s -> o = true) -> status_step o s o StatusCancelled.
Proof. intros -> D. apply edge_cancel; intros ->; discriminate D; [by left|by right]. Qed.

Lemma transition_edge t u change cancelled :
  publication_inv t -> transition_valid t u change cancelled = true ->
  status_step (has_output t) (Task_Status t)
    (match change with TaskAuthorizePublication => true | _ => has_output t end) (Task_Status u).
Proof.
  intros I. pose proof (inv_output _ I) as Io. clear I.
  assert (delivering (Task_Status t) -> has_output t = true) as Ho.
  { intros D. unfold has_output. by destruct (Io D) as [c ->]. }
  clear Io. unfold transition_valid, isNone. fold (has_output t).
  generalize dependent (has_output t). intros o Ho T.
  destruct change; repeat destruct_cond;
    try (destruct (Task_Status t) eqn:Et; simpl in T; try done; status_facts; by eauto with edges).
  all: try (bool_hyps; status_facts; by eauto using cancel_edge with edges).
- bool_hyps. status_facts. apply edge_authorize. by apply Active_spec.
- status_facts. subst o. apply edge_publish.
  - status_facts.
    + apply edge_requeue. by apply Active_spec.
    + apply edge_settle; [apply active_startable; by left|apply unresolved_blocked].
    + apply edge_settle; [apply active_startable; by left|apply unresolved_cancelled].
  - assert (Task_Status t ∈ UnresolvedStatuses) as Hu.
    { apply andb_true_iff in T as [T _]. status_facts; [done|apply unresolved_cancelled]. }
    apply andb_true_iff in T as [_ T]. clear Ho. revert T Hu.
    generalize (Task_Status t), (Task_Status u). intros s s' T Hu. status_cases; subst; eauto with edges.
Qed.

Lemma accepted_status_step t u change cancelled :
  publication_inv t -> accepted t u change cancelled ->
  status_step (has_output t) (Task_Status t) (has_output u) (Task_Status u).
Proof.
  intros I Ha.
  pose proof (transition_edge _ _ _ _ I (accepted_transition _ _ _ _ Ha)) as E.
  destruct (decide (change = TaskAuthorizePublication)) as [->|N].
  - assert (has_output u = true) as ->; [|done].
    pose proof (accepted_transition _ _ _ _ Ha) as T. simpl in T. unfold has_output.
    destruct (Task_OutputCommit u); [done|]. bool_hyps. discriminate.
  - rewrite (accepted_has_output _ _ _ _ Ha N). by destruct change.
Qed.

Lemma status_run_published s o s' o' :
  s = StatusPublished -> o = true -> status_step o s o' s' -> s' = StatusPublished /\ o' = true.
Proof.
  intros -> -> H. inversion H; subst; try done; exfalso;
    repeat match goal with
    | E : _ \/ _ |- _ => destruct E; discriminate
    | E : _ ∈ _ |- _ => revert E; vm_compute; set_solver
    end.
Qed.

(** C12: the lifecycle implements the status machine.  Every change the policy
    accepts on a task that satisfies the publication invariant is a step of
    [status_step] on its status and on whether it has an authorised commit, and
    it preserves the invariant: the policy is a refinement of the machine. *)
Theorem ValidateTaskChange_refines t u change cancelled :
  publication_inv t -> ValidateTaskChange t u change cancelled = Ok tt ->
  status_step (has_output t) (Task_Status t) (has_output u) (Task_Status u) /\
  publication_inv u.
Proof.
  intros I H. split; [|by eapply publication_inv_step; [econstructor|]].
  by eapply accepted_status_step, ValidateTaskChange_accepted.
Qed.

(** A published task is finished: no sequence of accepted changes takes a
    task that was freshly planned and then published out of the published
    status, or changes the commit it published. *)
Theorem published_is_final t p u commit :
  fresh t -> task_run t p -> Task_Status p = StatusPublished ->
  Task_OutputCommit p = Some commit -> task_run p u ->
  Task_Status u = StatusPublished /\ Task_OutputCommit u = Some commit.
Proof.
  intros F R S O R'. split; [|by apply (keeps_OutputCommit _ _ (task_run_keeps _ _ R'))].
  pose proof (publication_inv_run _ _ R (fresh_publication_inv _ F)) as I. clear F R.
  assert (has_output p = true) as H by (unfold has_output; by rewrite O). clear O.
  induction R' as [|p q u Hs _ IH]; [done|].
  pose proof (publication_inv_step _ _ Hs I). apply task_step_accepted in Hs as (ch & c & Ha).
  destruct (status_run_published _ _ _ _ S H (accepted_status_step _ _ _ _ I Ha)). auto.
Qed.

(** ** Cancellation *)

Lemma cancelled_step t u change :
  accepted t u change true -> Task_OutputCommit t = None ->
  Task_OutputCommit u = None /\ (Active (Task_Status u) = true -> Task_Status u = Task_Status t).
Proof.
  intros Ha O. destruct (accepted_cancelled _ _ _ _ Ha eq_refl O) as (C1 & C2 & C3 & C4).
  pose proof (accepted_has_output _ _ _ _ Ha C4) as H. unfold has_output in H. rewrite O in H.
  split; [by destruct (Task_OutputCommit u)|].
  pose proof (accepted_transition _ _ _ _ Ha) as T. unfold transition_valid in T. rewrite O in T.
  intros A. destruct change; simpl in T; try done; status_facts; try done;
    rewrite ?andb_false_r in *; try done; try congruence.
Qed.

(** C14: a cancellation cannot be outrun.  Once the operator's marker is set on a
    task without an authorised commit, no sequence of changes accepted under
    the marker authorises a commit or makes the task active: it is active at
    the end only when it still has the status it had when the marker was
    set. *)
Theorem cancellation_stops_task t u :
  rtc (fun a b => exists change, ValidateTaskChange a b change true = Ok tt) t u ->
  Task_OutputCommit t = None ->
  Task_OutputCommit u = None /\ (Active (Task_Status u) = true -> Task_Status u = Task_Status t).
Proof.
  induction 1 as [|a b c [ch V] _ IH]; [done|]. intros O.
  destruct (cancelled_step a b ch (ValidateTaskChange_accepted _ _ _ _ V) O) as [Ob Ab].
  destruct (IH Ob) as [Oc Ac]. split; [done|]. intros A. rewrite <- Ab, Ac; [done..|].
  rewrite <- Ac; done.
Qed.

(** ** Evidence of a cancelled worker *)

Definition fail_running (summary : string) (s : Session) : Session :=
  if negb (session_running s) then s else
  let s := s <| Session_Status := SessionFailed |> in
  if bool_decide (Session_Summary s = "") then s <| Session_Summary := summary |> else s.

(** Failing the running sessions changes nothing the evidence check reads. *)
Lemma fail_running_fields m s :
  Session_ID (fail_running m s) = Session_ID s /\ Session_Role (fail_running m s) = Session_Role s /\
  Session_StartedAt (fail_running m s) = Session_StartedAt s /\
  Session_Route (fail_running m s) = Session_Route s /\
  Session_FirstTurnStarted (fail_running m s) = Session_FirstTurnStarted s.
Proof. unfold fail_running. by repeat destruct_cond. Qed.

Lemma fail_running_completed m s :
  bool_decide (Session_Status (fail_running m s) = SessionCompleted)
  = bool_decide (Session_Status s = SessionCompleted).
Proof.
  unfold fail_running, session_running.
  destruct (bool_decide (Session_Status s = SessionRunning)) eqn:R; simpl; [|done].
  bool_hyps. rewrite R. by destruct_cond.
Qed.

Lemma evidence_loop_fail_running m old pending seen repairs :
  evidence_loop old (FailRunning pending m) seen repairs = evidence_loop old pending seen repairs.
Proof.
  change (FailRunning pending m) with (map (fail_running m) pending).
  revert old seen repairs. induction pending as [|s l IH]; intros old seen repairs; [done|].
  simpl. destruct (fail_running_fields m s) as (-> & -> & -> & -> & ->).
  rewrite fail_running_completed. destruct_cond.
  destruct old as [|o old]; simpl; repeat destruct_cond; apply IH.
Qed.

Lemma validateTaskEvidence_fields e e' p p' :
  Task_Sessions e = Task_Sessions e' -> Task_Reviews e = Task_Reviews e' ->
  Task_Verification e = Task_Verification e' -> Task_RepairRounds e = Task_RepairRounds e' ->
  Task_ReviewBaseline e = Task_ReviewBaseline e' ->
  (Task_Sessions p = Task_Sessions p' \/ exists m, Task_Sessions p = FailRunning (Task_Sessions p') m) ->
  Task_Reviews p = Task_Reviews p' -> Task_Verification p = Task_Verification p' ->
  Task_RepairRounds p = Task_RepairRounds p' ->
  validateTaskEvidence e p = validateTaskEvidence e' p'.
Proof.
  intros Es Er Ev Err Eb Ps Pr Pv Prr. unfold validateTaskEvidence, AttemptReviews.
  rewrite Es, Er, Ev, Err, Eb, Pr, Pv, Prr. destruct Ps as [->|[m ->]]; [done|].
  rewrite evidence_loop_fail_running. unfold FailRunning, lenN. by rewrite length_map.
Qed.

(** The settlement of a cancelled worker is always saveable.  When
    [MergeCancelledTask] merges a cancelled task with the evidence its worker
    holds, the merged task is one the lifecycle policy accepts under the
    cancellation marker: it is cancelled, keeps every committed review, result
    and session and everything that is not evidence, and runs no session. *)
Theorem MergeCancelledTask_accepted expected current pending next :
  MergeCancelledTask expected current pending = Ok next ->
  ValidateTaskChange current next TaskSettlement true = Ok tt /\
  Task_Status next = StatusCancelled /\
  Task_Sessions next = FailRunning (Task_Sessions pending) cancelled_message /\
  Task_Reviews next = Task_Reviews pending /\ Task_Verification next = Task_Verification pending /\
  Task_OutputCommit next = None.
Proof.
  unfold MergeCancelledTask. intros H. ok_inv H. subst next.
  bool_hyps. equal_hyps. destruct (Task_OutputCommit current) eqn:O; [done|]. destruct x.
  split; [|auto 10].
  apply accepted_ValidateTaskChange. constructor.
  - unfold same_identity. by rewrite !bool_decide_eq_true_2, !Equal_refl by done.
  - congruence.
  - intros _ _. split_and!; discriminate.
  - auto.
  - unfold transition_valid. by rewrite O.
  - intros _. etrans; [|eassumption].
    match goal with B : _ = expected |- _ => rewrite <- B end.
    apply validateTaskEvidence_fields; try reflexivity. right. by exists cancelled_message.
  - destruct current. vm_compute. reflexivity.
Qed.

(** A worker can always save how its run ended.  For an active or queued
    task and evidence that continues the committed evidence, the record
    [SettleTaskEvidence] builds for a blocked, failed or cancelled outcome is
    accepted as a settlement (under the marker only the cancelled outcome, when
    no commit is authorised); it keeps the committed preparation, output commit
    and publication fields. *)
Theorem SettleTaskEvidence_accepted expected pending cancelled :
  Active (Task_Status expected) || same_status (Task_Status expected) StatusQueued = true ->
  validateTaskEvidence expected pending = Ok tt ->
  Task_Status pending = StatusCancelled \/
    ((Task_Status pending = StatusBlocked \/ Task_Status pending = StatusFailed) /\
     cancelled && isNone (Task_OutputCommit expected) = false) ->
  ValidateTaskChange expected (SettleTaskEvidence expected pending) TaskSettlement cancelled = Ok tt /\
  Task_SourceRevision (SettleTaskEvidence expected pending) = Task_SourceRevision expected /\
  Task_OutputCommit (SettleTaskEvidence expected pending) = Task_OutputCommit expected /\
  Task_PRNumber (SettleTaskEvidence expected pending) = Task_PRNumber expected.
Proof.
  intros A V S. split; [|done]. apply accepted_ValidateTaskChange. constructor.
  - unfold same_identity. by rewrite !bool_decide_eq_true_2, !Equal_refl by done.
  - done.
  - intros _ _. split_and!; discriminate.
  - auto.
  - unfold transition_valid. rewrite A.
    change (Task_Status (SettleTaskEvidence expected pending)) with (Task_Status pending).
    destruct S as [->|[[-> | ->] ->]]; simpl; rewrite ?orb_true_r; by repeat destruct_cond.
  - intros _. etrans; [|exact V]. apply validateTaskEvidence_fields; try reflexivity. by left.
  - destruct expected. vm_compute. reflexivity.
Qed.

(** ** Witnesses *)

Ltac by_change change cancelled :=
  apply (task_change_step _ _ change cancelled); vm_compute; reflexivity.

Lemma sample_fresh id : fresh (sample_task id).
Proof. done. Qed.

Lemma admitted_change : task_step (sample_task "t") (executing_task "t").
Proof. by_change TaskAdmission false. Qed.
Lemma checkpoint_change : task_step (executing_task "t") (reviewing_task "t").
Proof. by_change TaskCheckpoint false. Qed.
Lemma authorize_change : task_step (reviewing_task "t") (publishing_task "t" "c").
Proof. by_change TaskAuthorizePublication false. Qed.
Lemma publish_change : task_step (publishing_task "t" "c") (published_task "t" "c").
Proof. by_change TaskPublication false. Qed.

Lemma delivery_run : task_run (sample_task "t") (published_task "t" "c").
Proof.
  eapply rtc_l; [apply admitted_change|]. eapply rtc_l; [apply checkpoint_change|].
  eapply rtc_l; [apply authorize_change|]. apply rtc_once, publish_change.
Qed.

Lemma task_evidence_append_only_witness :
  Task_Reviews (sample_task "t") `prefix_of` Task_Reviews (published_task "t" "c").
Proof. apply (task_evidence_append_only _ _ delivery_run). Defined.

Lemma published_was_reviewed_witness :
  exists commit round, Task_OutputCommit (published_task "t" "c") = Some commit /\
    round ∈ Task_Reviews (published_task "t" "c") /\
    authorized_round sample_config "correctness" commit round.
Proof.
  apply (published_was_reviewed (sample_task "t") (published_task "t" "c")).
  - apply sample_fresh.
  - apply delivery_run.
  - by right.
Defined.

Lemma ValidateTaskChange_refines_witness :
  status_step false StatusQueued false StatusExecuting /\ publication_inv (executing_task "t").
Proof.
  apply (ValidateTaskChange_refines (sample_task "t") (executing_task "t") TaskAdmission false).
  - apply fresh_publication_inv, sample_fresh.
  - reflexivity.
Defined.

Lemma published_is_final_witness :
  Task_Status (published_task "t" "c") = StatusPublished /\
  Task_OutputCommit (published_task "t" "c") = Some "c".
Proof.
  apply (published_is_final (sample_task "t") (published_task "t" "c") (published_task "t" "c") "c").
  - apply sample_fresh.
  - apply delivery_run.
  - reflexivity.
  - reflexivity.
  - apply rtc_once.
    by_change TaskSettlement false.
Defined.

Lemma cancellation_stops_task_witness :
  Task_OutputCommit (cancelled_task "t") = None /\
  (Active (Task_Status (cancelled_task "t")) = true -> Task_Status (cancelled_task "t") = StatusExecuting).
Proof.
  apply (cancellation_stops_task (executing_task "t") (cancelled_task "t")); [|reflexivity].
  apply rtc_once. exists TaskCancel. vm_compute. reflexivity.
Defined.

Lemma MergeCancelledTask_accepted_witness :
  ValidateTaskChange (cancelled_task "t")
    ((reviewing_task "t") <| Task_Status := StatusCancelled |>
                        <| Task_Error := Some cancelled_message |>) TaskSettlement true = Ok tt.
Proof.
  apply (MergeCancelledTask_accepted (executing_task "t") (cancelled_task "t") (reviewing_task "t")).
  vm_compute. reflexivity.
Defined.

Lemma SettleTaskEvidence_accepted_witness :
  ValidateTaskChange (executing_task "t")
    (SettleTaskEvidence (executing_task "t") ((reviewing_task "t") <| Task_Status := StatusFailed |>))
    TaskSettlement false = Ok tt.
Proof.
  apply (SettleTaskEvidence_accepted (executing_task "t") ((reviewing_task "t") <| Task_Status := StatusFailed |>) false).
  - reflexivity.
  - vm_compute. reflexivity.
  - right. split; [by right|reflexivity].
Defined.
