(* ===== verification/Store.v ===== *)
(** * The durable store ([internal/store])

    The database is a record of tables.  A transaction body is a function that
    returns a value and the next database, or an error; [transaction] keeps the
    old database on an error, as [runTx] rolls back.  The clock is an argument:
    the calls of [model.Now] in one transaction read the same instant.  Saved
    JSON always decodes here (it was encoded from these records), and the
    driver's own I/O failures are not modelled.  The triggers of [schema.sql]
    that change tables the code reads are part of the writes that fire them. *)
From S2P Require Import Prelude GoStrings WireJson Enums Types GoErrors Config GoTime Model Lifecycle.
Local Open Scope string_scope.
Local Open Scope list_scope.
Local Open Scope N_scope.

(** ** Rows *)

Record PRReservation := mkPRReservation {
  PRReservation_TaskID     : string;
  PRReservation_Repository : string;
  PRReservation_Branch     : string;
  PRReservation_AdmittedAt : string;
}.
#[export] Instance PRReservation_eq_dec : EqDecision PRReservation.
Proof. solve_decision. Defined.

Record Admission := mkAdmission {
  Admission_ID         : string;
  Admission_At         : string;
  Admission_CycleID    : string;
  Admission_TaskID     : option string;
  Admission_Role       : string;
  Admission_Route      : Route;
  Admission_Repository : string;
}.
#[export] Instance Admission_eq_dec : EqDecision Admission.
Proof. solve_decision. Defined.
#[export] Instance eta_Admission : Eta Admission := fun r =>
  mkAdmission (Admission_ID r) (Admission_At r) (Admission_CycleID r) (Admission_TaskID r)
    (Admission_Role r) (Admission_Route r) (Admission_Repository r).

Record EventRow := mkEventRow {
  EventRow_At         : string;
  EventRow_EntityID   : string;
  EventRow_Kind       : EventKind;
  EventRow_Message    : string;
  EventRow_Repository : string;
}.

Record RequestUpdate := mkRequestUpdate {
  RequestUpdate_Expected : OperatorRequest;
  RequestUpdate_Next     : OperatorRequest;
}.

(** ** The database *)

Record Db := mkDb {
  db_tasks        : gmap string Task;
  (** [Some None] is a marker cleared to JSON null. *)
  db_cancel       : gmap string (option string);
  db_cycles       : gmap string Cycle;
  (** In row order: the code takes the row inserted last. *)
  db_prs          : list (string * PRObservation);
  db_decisions    : gmap string DecisionRecord;
  db_requests     : gmap string OperatorRequest;
  db_configs      : gmap string Config;
  db_controls     : gmap string Control;
  db_inventories  : gmap string OpenPRInventory;
  db_instance     : option InstanceSettings;
  db_reservations : gmap string PRReservation;
  db_planning     : gmap string N;
  db_usage        : gmap (string * string) N;
  db_admissions   : gmap string Admission;
  db_batch        : gmap (string * string) Status;
  db_events       : list EventRow;
  db_baselines    : gmap string BaselineCheck;
  (** Cancellation markers of baseline checks, as [db_cancel]. *)
  db_baseline_cancel : gmap string (option string);
  (** The setting that names the latest check. *)
  db_latest_baseline : gmap string string;
}.
#[export] Instance eta_Db : Eta Db := fun r =>
  mkDb (db_tasks r) (db_cancel r) (db_cycles r) (db_prs r) (db_decisions r) (db_requests r)
    (db_configs r) (db_controls r) (db_inventories r) (db_instance r) (db_reservations r)
    (db_planning r) (db_usage r) (db_admissions r) (db_batch r) (db_events r) (db_baselines r)
    (db_baseline_cancel r) (db_latest_baseline r).

Definition empty_db : Db :=
  mkDb ∅ ∅ ∅ [] ∅ ∅ ∅ ∅ ∅ None ∅ ∅ ∅ ∅ ∅ [] ∅ ∅ ∅.

(** ** Transactions *)

Definition Tx (A : Type) : Type := Db -> result (A * Db) error.
Definition tx_ret {A} (a : A) : Tx A := fun db => Ok (a, db).
Definition tx_fail {A} (e : error) : Tx A := fun _ => Err e.
Definition tx_bind {A B} (m : Tx A) (k : A -> Tx B) : Tx B :=
  fun db => match m db with Ok (a, db') => k a db' | Err e => Err e end.
Definition tx_read {A} (f : Db -> A) : Tx A := fun db => Ok (f db, db).
Definition tx_write (f : Db -> Db) : Tx unit := fun db => Ok (tt, f db).
Definition tx_lift {A} (r : result A error) : Tx A :=
  fun db => match r with Ok a => Ok (a, db) | Err e => Err e end.

Notation "'do!' x <- m 'in' k" := (tx_bind m (fun x => k))
  (at level 10, x pattern, m at level 100, k at level 200) : go_scope.
(** [require c else e ; k] is [if !c { return e }] in a transaction body. *)
Notation "'require' c 'else' e ; k" := (if c then k else tx_fail e)
  (at level 10, c at level 100, e at level 100, k at level 200) : go_scope.

(** The outcome of a store method: what it returns, and the database after. *)
Definition outcome (A : Type) : Type := result A error * Db.

(** [Store.transaction], with [runTx]. *)
Definition transaction {A} (fn : Tx A) (db : Db) : outcome A :=
  match fn db with
  | Ok (a, db') => (Ok a, db')
  | Err e => (Err e, db)
  end.

Definition errRollback : error := New "rollback".
(** [err == errRollback]: the sentinel is the only error of its text. *)
Definition is_rollback (e : error) : bool :=
  match e with New m => bool_decide (m = "rollback") | _ => false end.

(** [Store.conditional]: a body that ends in [errRollback] changes nothing and
    reports [false]. *)
Definition conditional (fn : Tx unit) (db : Db) : outcome bool :=
  match fn db with
  | Ok (_, db') => (Ok true, db')
  | Err e => (if is_rollback e then Ok false else Err e, db)
  end.

(** ** Handles and keys ([store.go], [keys.go]) *)

Record Store := mkStore { Store_repo : string; Store_primary : string }.

(** [scopedSetting]. *)
Definition scopedSetting (s : Store) (id : string) : string :=
  if bool_decide (Store_repo s = "") || EqualASCII (Store_repo s) (Store_primary s) then id
  else id +:+ ":" +:+ Store_repo s.
Definition ForRepository (s : Store) (repo : string) : Store :=
  mkStore repo (Store_primary s).
Definition ConfigKey (s : Store) : string := scopedSetting s "config".
Definition ControlKey (s : Store) : string := scopedSetting s "control".
Definition prInventoryKey (s : Store) : string := scopedSetting s "pr_inventory".

(** ** Reads and writes of records, with the triggers of [schema.sql] *)

Definition terminal_without_output (t : Task) : bool :=
  bool_decide (Task_Status t ∈ [StatusBlocked; StatusFailed; StatusCancelled])
  && isNone (Task_OutputCommit t).

(** [release_pr_reservation_insert], [release_pr_reservation_update],
    [batch_member_insert] and [batch_member_update] run with the write. *)
Definition put_task (t : Task) (db : Db) : Db :=
  let db := db <| db_tasks := <[Task_ID t := t]> (db_tasks db) |> in
  let db := if terminal_without_output t
            then db <| db_reservations := delete (Task_ID t) (db_reservations db) |> else db in
  match Task_RunID t with
  | Some run => db <| db_batch := <[(run, Task_ID t) := Task_Status t]> (db_batch db) |>
  | None => db
  end.

(** [release_planning_reservation] runs when a saved cycle is updated to a
    status other than running; an insert does not fire it. *)
Definition put_cycle (c : Cycle) (db : Db) : Db :=
  let update := isSome (db_cycles db !! Cycle_ID c) in
  let db := db <| db_cycles := <[Cycle_ID c := c]> (db_cycles db) |> in
  if update && negb (bool_decide (Cycle_Status c = CycleRunning))
  then db <| db_planning := delete (Cycle_ID c) (db_planning db) |> else db.

Definition put_cancel (id : string) (v : option string) (db : Db) : Db :=
  db <| db_cancel := <[id := v]> (db_cancel db) |>.
Definition put_pr (id : string) (o : PRObservation) (db : Db) : Db :=
  db <| db_prs := row_put id o (db_prs db) |>.
Definition put_control (key : string) (c : Control) (db : Db) : Db :=
  db <| db_controls := <[key := c]> (db_controls db) |>.
Definition put_decision (d : DecisionRecord) (db : Db) : Db :=
  db <| db_decisions := <[DecisionRecord_ID d := d]> (db_decisions db) |>.
Definition put_request (r : OperatorRequest) (db : Db) : Db :=
  db <| db_requests := <[OperatorRequest_ID r := r]> (db_requests db) |>.
Definition put_inventory (key : string) (v : OpenPRInventory) (db : Db) : Db :=
  db <| db_inventories := <[key := v]> (db_inventories db) |>.

(** A marker that exists and is not JSON null. *)
Definition marker (id : string) (db : Db) : bool :=
  match db_cancel db !! id with Some (Some _) => true | _ => false end.

Definition storedConfig (key : string) (db : Db) : Config := default Default (db_configs db !! key).
Definition storedInstance (db : Db) : InstanceSettings := default (mkInstanceSettings 0) (db_instance db).
Definition liveControl (key : string) (db : Db) : Control := default DefaultControl (db_controls db !! key).

(** [ClearCancel], [MarkCancel], [CancelMarked], [SaveControl]. *)
Definition ClearCancel (id : string) (db : Db) : Db := put_cancel id None db.
Definition MarkCancel (now id : string) (db : Db) : Db := put_cancel id (Some now) db.
Definition CancelMarked (id : string) (db : Db) : bool := marker id db.
(** [store.Put] of a check, and its markers. *)
Definition put_baseline (check : BaselineCheck) (db : Db) : Db :=
  db <| db_baselines := <[BaselineCheck_ID check := check]> (db_baselines db) |>.
Definition MarkBaselineCancel (now id : string) (db : Db) : Db :=
  db <| db_baseline_cancel := <[id := Some now]> (db_baseline_cancel db) |>.
Definition BaselineCancelMarked (id : string) (db : Db) : bool :=
  match db_baseline_cancel db !! id with Some (Some _) => true | _ => false end.
Definition latestBaselineKey (s : Store) : string := scopedSetting s "baseline_latest".
Definition BeginBaseline (s : Store) (check : BaselineCheck) (db : Db) : outcome unit :=
  transaction
    (do! _ <- tx_write (put_baseline check) in
     tx_write (fun db => db <| db_latest_baseline :=
       <[latestBaselineKey s := BaselineCheck_ID check]> (db_latest_baseline db) |>)) db.
Definition SaveControl (s : Store) (c : Control) (db : Db) : Db := put_control (ControlKey s) c db.

Section events.
  (** [redact.Text]. *)
  Context (redact_text : string -> string).

(** [prObservationAt]: the observation of a pull request in the row inserted
    last. *)
Definition observes (repository : string) (number : N) (row : string * PRObservation) : bool :=
  EqualASCII (PRObservation_Repository row.2) repository
  && (PullRequest_Number (PRObservation_PR row.2) =? number).
Definition prObservationAt (repository : string) (number : N) (db : Db) : option (string * PRObservation) :=
  last (List.filter (observes repository number) (db_prs db)).

Definition txRepositoryEvent (now repository entity : string) (kind : EventKind) (message : string) : Tx unit :=
  tx_write (fun db => db <| db_events :=
    db_events db ++ [mkEventRow now entity kind (redact_text message) repository] |>).
End events.

(** ** Laws of the transaction monad *)

Lemma tx_bind_Ok {A B} (m : Tx A) (k : A -> Tx B) db b db' :
  tx_bind m k db = Ok (b, db') <-> exists a db1, m db = Ok (a, db1) /\ k a db1 = Ok (b, db').
Proof. unfold tx_bind. destruct (m db) as [[a db1]|e]; naive_solver. Qed.
Lemma require_Ok {A} (c : bool) (e : error) (k : Tx A) db r :
  (if c then k else tx_fail e) db = Ok r <-> c = true /\ k db = Ok r.
Proof. destruct c; naive_solver. Qed.

Lemma tx_ret_Ok {A} (a : A) db b db' : tx_ret a db = Ok (b, db') -> b = a /\ db' = db.
Proof. unfold tx_ret. intros E. by simplify_eq. Qed.
Lemma tx_read_Ok {A} (f : Db -> A) db b db' : tx_read f db = Ok (b, db') -> b = f db /\ db' = db.
Proof. unfold tx_read. intros E. by simplify_eq. Qed.
Lemma tx_write_Ok f db u db' : tx_write f db = Ok (u, db') -> db' = f db.
Proof. unfold tx_write. intros E. by simplify_eq. Qed.
Lemma tx_lift_Ok {A} (r : result A error) db a db' :
  tx_lift r db = Ok (a, db') -> r = Ok a /\ db' = db.
Proof. unfold tx_lift. destruct r; intros E; by simplify_eq. Qed.

(** [tx_open] opens the hypotheses that a transaction body succeeded. *)
Ltac tx_open :=
  repeat match goal with
  | H : tx_bind _ _ _ = Ok _ |- _ => apply tx_bind_Ok in H as (? & ? & ? & H)
  | H : (if _ then _ else tx_fail _) _ = Ok _ |- _ => apply require_Ok in H as [? H]
  | H : tx_ret _ _ = Ok _ |- _ => apply tx_ret_Ok in H as [? ?]; subst
  | H : tx_read _ _ = Ok _ |- _ => apply tx_read_Ok in H as [? ?]; subst
  | H : tx_write _ _ = Ok _ |- _ => apply tx_write_Ok in H; subst
  | H : tx_lift _ _ = Ok _ |- _ => apply tx_lift_Ok in H as [? ?]; subst
  | H : tx_fail _ _ = Ok _ |- _ => discriminate H
  end.

Lemma transaction_Ok {A} (fn : Tx A) db a db' :
  transaction fn db = (Ok a, db') <-> fn db = Ok (a, db').
Proof. unfold transaction. destruct (fn db) as [[a1 db1]|e]; naive_solver. Qed.
Lemma transaction_Err {A} (fn : Tx A) db e db' :
  transaction fn db = (Err e, db') -> db' = db.
Proof. unfold transaction. destruct (fn db) as [[a1 db1]|e1]; naive_solver. Qed.
Lemma conditional_true (fn : Tx unit) db db' :
  conditional fn db = (Ok true, db') -> fn db = Ok (tt, db').
Proof. unfold conditional. destruct (fn db) as [[[] db1]|e]; [naive_solver|]. by destruct (is_rollback e). Qed.
Lemma conditional_unchanged (fn : Tx unit) db r db' :
  conditional fn db = (r, db') -> r <> Ok true -> db' = db.
Proof. unfold conditional. destruct (fn db) as [[[] db1]|e]; intros; simplify_eq; done. Qed.

(** ** What the writes touch *)

Lemma put_task_tasks t db : db_tasks (put_task t db) = <[Task_ID t := t]> (db_tasks db).
Proof. unfold put_task. by destruct_cond; destruct (Task_RunID t). Qed.
Lemma put_task_cancel t db : db_cancel (put_task t db) = db_cancel db.
Proof. unfold put_task. by destruct_cond; destruct (Task_RunID t). Qed.
Lemma put_task_inventories t db : db_inventories (put_task t db) = db_inventories db.
Proof. unfold put_task. by destruct_cond; destruct (Task_RunID t). Qed.
Lemma put_task_prs t db : db_prs (put_task t db) = db_prs db.
Proof. unfold put_task. by destruct_cond; destruct (Task_RunID t). Qed.
Lemma put_task_reservations t db :
  db_reservations (put_task t db) =
  if terminal_without_output t then delete (Task_ID t) (db_reservations db) else db_reservations db.
Proof. unfold put_task. by destruct_cond; destruct (Task_RunID t). Qed.
Lemma put_task_budget t db :
  db_usage (put_task t db) = db_usage db /\ db_planning (put_task t db) = db_planning db /\
  db_instance (put_task t db) = db_instance db /\ db_configs (put_task t db) = db_configs db.
Proof. unfold put_task. by destruct_cond; destruct (Task_RunID t). Qed.
Lemma put_cycle_tasks c db : db_tasks (put_cycle c db) = db_tasks db.
Proof. unfold put_cycle. by destruct_cond. Qed.
