(* ===== verification/StoreMerges.v ===== *)
(** * Merge authority on saved pull requests ([internal/store/automerge.go])

    The automatic-merge state of an observed pull request: how observations
    preserve or revoke it, how a merge attempt claims it, how the attempt is
    settled, and how archiving the authorising task revokes it. *)
From S2P Require Import Prelude GoStrings WireJson Enums Types GoErrors Config GoTime Model Samples Lifecycle Store.
Local Open Scope string_scope.
Local Open Scope list_scope.
Local Open Scope N_scope.

Definition MergeResultConfirmed := "confirmed".
Definition MergeResultObserved := "observed".

(** ** Observations *)

(** The pull request still is the reviewed delivery: same head, branches and
    owner. *)
Definition bound (merge : AutoMergeState) (p : PullRequest) : bool :=
  PullRequest_Owned p && bool_decide (PullRequest_Head p = AutoMergeState_Head merge)
  && negb (bool_decide (AutoMergeState_HeadBranch merge = ""))
  && negb (bool_decide (AutoMergeState_BaseBranch merge = ""))
  && bool_decide (PullRequest_Branch p = AutoMergeState_HeadBranch merge)
  && bool_decide (PullRequest_Base p = AutoMergeState_BaseBranch merge).

Definition sameDeliveryHead (merge : AutoMergeState) (p : PullRequest) : bool :=
  bool_decide (PullRequest_State p = "open") && bound merge p.

Definition is_merge (s : AutoMergeStatus) (merge : AutoMergeState) : bool :=
  bool_decide (AutoMergeState_Status merge = s).
Definition merge_in_flight (merge : AutoMergeState) : bool :=
  is_merge AutoMergeMerging merge || is_merge AutoMergeUncertain merge.

Definition revoke_merge (now reason : string) (merge : AutoMergeState) : AutoMergeState :=
  merge <| AutoMergeState_Authorized := false |> <| AutoMergeState_Reason := reason |>
        <| AutoMergeState_ObservedAt := now |>.

Definition preserve_state (now : string) (merge : AutoMergeState) (p : PullRequest) : AutoMergeState :=
  let state := PullRequest_State p in
  if bool_decide (state = "merged") || bool_decide (state = "closed") then
    if merge_in_flight merge then
      if negb (bound merge p) then
        revoke_merge now ("The pull request is " +:+ state +:+
          " after its head, branch, base or ownership changed; the recorded intent remains for reconciliation") merge
      else merge
    else
    let outcome := if bool_decide (state = "closed") then AutoMergeClosed else AutoMergeMerged in
    let why := if bool_decide (state = "closed") then "The pull request was closed without merging"
               else "The pull request is merged on the remote" in
    if is_merge outcome merge
       || (negb (Pending (AutoMergeState_Status merge)) && negb (is_merge AutoMergeManual merge))
    then merge
    else if negb (bound merge p) then
      (revoke_merge now ("The pull request is " +:+ state +:+
        " after its head or ownership changed; the outcome does not apply to the recorded reviewed head") merge)
        <| AutoMergeState_Status := AutoMergeManual |>
    else
      merge <| AutoMergeState_Status := outcome |>
            <| AutoMergeState_ResultSource := Some MergeResultObserved |>
            <| AutoMergeState_Reason := why |>
            <| AutoMergeState_ObservedAt := now |>
  else if merge_in_flight merge then
    if negb (bound merge p) then
      revoke_merge now "The pull request head, branch, base or ownership changed; the recorded intent remains for reconciliation" merge
    else merge
  else if is_merge AutoMergeWaiting merge || (is_merge AutoMergeManual merge && AutoMergeState_Authorized merge) then
    if negb (sameDeliveryHead merge p) then
      (revoke_merge now "The pull request head, ownership or open state changed; automatic merge authority is revoked" merge)
        <| AutoMergeState_Status := AutoMergeManual |>
    else merge
  else merge.

Definition preserveAutoMerge (now : string) (previous : option PRObservation) (p : PullRequest)
    : option AutoMergeState :=
  match previous with
  | None => None
  | Some o => match PRObservation_AutoMerge o with
              | None => None
              | Some merge => Some (preserve_state now merge p)
              end
  end.

Section merges.
  Context `{Unicode} (redact_text : string -> string).

Definition pr_record_id (repository : string) (number : N) : string :=
  ToLower repository +:+ ":" +:+ FormatUint number.

(** [latestPROutputAt]: the output of the published task of this pull request
    updated last (ties take any of them). *)
Definition latestPROutputAt (repository : string) (number : N) (db : Db) : option string :=
  let published := List.filter (fun t =>
    EqualASCII (Config_GitHubRepo (Task_Config t)) repository
    && bool_decide (Task_Status t = StatusPublished)
    && bool_decide (Task_PRNumber t = Some number)) (map_to_list (db_tasks db)).*2 in
  match foldl (fun best t =>
    match best with
    | None => Some t
    | Some b => if String.leb (Task_UpdatedAt b) (Task_UpdatedAt t) then Some t else Some b
    end) None published with
  | Some t => Task_OutputCommit t
  | None => None
  end.

Definition RecordPRObservation (now repository : string) (p : PullRequest)
    (deliveredNow : bool) (db : Db) : Db :=
  let previous := prObservationAt repository (PullRequest_Number p) db in
  let recordID := match previous with
                  | Some (id, _) => id
                  | None => pr_record_id repository (PullRequest_Number p)
                  end in
  let delivered :=
    if deliveredNow then Some (PullRequest_Head p) else
    match previous with
    | Some (_, o) => match PRObservation_DeliveredHead o with
                     | Some d => Some d
                     | None => latestPROutputAt repository (PullRequest_Number p) db
                     end
    | None => latestPROutputAt repository (PullRequest_Number p) db
    end in
  put_pr recordID {|
    PRObservation_Repository := repository;
    PRObservation_PR := p;
    PRObservation_ObservedAt := now;
    PRObservation_DeliveredHead := delivered;
    PRObservation_ExternalHeadMovement :=
      match delivered with Some d => negb (bool_decide (d = PullRequest_Head p)) | None => false end;
    PRObservation_AutoMerge := preserveAutoMerge now (snd <$> previous) p
  |} db.

(** ** Claim and settlement *)

Definition nonempty_opt (o : option string) : bool :=
  match o with Some s => negb (bool_decide (s = "")) | None => false end.

(** The six fields that identify a delivery's merge authority. *)
Definition same_intent (a b : AutoMergeState) : bool :=
  bool_decide (AutoMergeState_TaskID a = AutoMergeState_TaskID b)
  && bool_decide (AutoMergeState_Head a = AutoMergeState_Head b)
  && bool_decide (AutoMergeState_ComparisonBase a = AutoMergeState_ComparisonBase b)
  && bool_decide (AutoMergeState_HeadBranch a = AutoMergeState_HeadBranch b)
  && bool_decide (AutoMergeState_BaseBranch a = AutoMergeState_BaseBranch b)
  && bool_decide (AutoMergeState_PolicyRevision a = AutoMergeState_PolicyRevision b).

Definition valid_intent (intent : AutoMergeState) : bool :=
  is_merge AutoMergeMerging intent && AutoMergeState_Authorized intent
  && negb (bool_decide (AutoMergeState_HeadBranch intent = ""))
  && negb (bool_decide (AutoMergeState_BaseBranch intent = ""))
  && nonempty_opt (AutoMergeState_AttemptID intent)
  && nonempty_opt (AutoMergeState_AttemptedAt intent).

(** The observation of the pull request and its merge state, or a rollback. *)
Definition observed_merge (repository : string) (number : N)
    : Tx (string * PRObservation * AutoMergeState) :=
  fun db =>
    match prObservationAt repository number db with
    | Some (id, o) =>
        match PRObservation_AutoMerge o with
        | Some merge => Ok (id, o, merge, db)
        | None => Err errRollback
        end
    | None => Err errRollback
    end.

Definition claim_body (s : Store) (now repository : string) (number : N)
    (intent : AutoMergeState) (allowManual : bool) : Tx unit :=
  do! (id, o, current) <- observed_merge repository number in
  let eligible := is_merge AutoMergeWaiting current || (allowManual && is_merge AutoMergeManual current) in
  require AutoMergeState_Authorized current && eligible && same_intent current intent else errRollback;
  do! _ <- tx_write (put_pr id (o <| PRObservation_AutoMerge := Some intent |>)) in
  txRepositoryEvent redact_text now (Store_repo s) (AutoMergeState_TaskID intent) EventAutomerge
    ("Automatic squash merge attempt " +:+ default "" (AutoMergeState_AttemptID intent)
     +:+ " recorded for " +:+ AutoMergeState_Head intent).

Definition ClaimMerge (s : Store) (now repository : string) (number : N) (intent : AutoMergeState)
    (allowManual : bool) (db : Db) : outcome bool :=
  if negb (valid_intent intent) then (Ok false, db)
  else conditional (claim_body s now repository number intent allowManual) db.

Definition opt_eq (a b : option string) : bool := bool_decide (a = b).
Definition settleable (merge : AutoMergeState) : bool :=
  Pending (AutoMergeState_Status merge)
  || (is_merge AutoMergeManual merge && AutoMergeState_Authorized merge).
Definition merge_terminal (merge : AutoMergeState) : bool :=
  is_merge AutoMergeMerged merge || is_merge AutoMergeClosed merge.

(** A settlement that confirms the outcome a record already has. *)
Definition confirm_merge (now reason source : string) (commit : option string) (merge : AutoMergeState)
    : result AutoMergeState error :=
  guard match commit, AutoMergeState_MergeCommit merge with
        | Some c, Some m => bool_decide (m = c)
        | _, _ => true
        end else errRollback;
  let merge := match commit with
               | Some c => merge <| AutoMergeState_MergeCommit := Some c |>
               | None => merge
               end in
  let confirmed := opt_eq (AutoMergeState_ResultSource merge) (Some MergeResultConfirmed) in
  if (bool_decide (source = MergeResultConfirmed) && negb confirmed)
     || (negb confirmed && negb (bool_decide (source = "")) && isNone (AutoMergeState_ResultSource merge))
  then Ok (merge <| AutoMergeState_ResultSource := Some source |> <| AutoMergeState_Reason := reason |>
                 <| AutoMergeState_ObservedAt := now |>)
  else Ok merge.

Definition settle_merge (now : string) (status : AutoMergeStatus) (reason source : string)
    (commit : option string) (revoke : bool) (merge : AutoMergeState) : AutoMergeState :=
  let merge := merge <| AutoMergeState_Status := status |> <| AutoMergeState_Reason := reason |>
                     <| AutoMergeState_ObservedAt := now |> in
  let merge := if revoke then merge <| AutoMergeState_Authorized := false |> else merge in
  let merge := if bool_decide (status = AutoMergeWaiting)
               then merge <| AutoMergeState_AttemptID := None |> else merge in
  let merge := if negb (bool_decide (source = ""))
               then merge <| AutoMergeState_ResultSource := Some source |> else merge in
  match commit with
  | Some c => merge <| AutoMergeState_MergeCommit := Some c |>
  | None => merge
  end.

Definition settle_body (now repository : string) (number : N) (expected : AutoMergeState)
    (status : AutoMergeStatus) (reason source : string) (commit : option string) (revoke : bool) : Tx unit :=
  do! (id, o, merge) <- observed_merge repository number in
  require same_intent merge expected else errRollback;
  require opt_eq (AutoMergeState_AttemptID merge) (AutoMergeState_AttemptID expected) else errRollback;
  if settleable merge then
    let o := o <| PRObservation_AutoMerge := Some (settle_merge now status reason source commit revoke merge) |> in
    let o := if bool_decide (status = AutoMergeMerged) || bool_decide (status = AutoMergeClosed)
             then o <| PRObservation_PR := (PRObservation_PR o) <| PullRequest_State := enum_String status |> |>
             else o in
    tx_write (put_pr id o)
  else
  require merge_terminal merge && is_merge status merge else errRollback;
  do! merge <- tx_lift (confirm_merge now reason source commit merge) in
  tx_write (put_pr id (o <| PRObservation_AutoMerge := Some merge |>)).

Definition SettleMerge (now repository : string) (number : N) (expected : AutoMergeState)
    (status : AutoMergeStatus) (reason source : string) (commit : option string) (revoke : bool)
    (db : Db) : outcome bool :=
  conditional (settle_body now repository number expected status reason source commit revoke) db.
End merges.

(** ** Revocation when the authorising task is archived *)

(** [revokeTaskMergesQuery]. *)
Definition revocable (taskID : string) (o : PRObservation) : bool :=
  match PRObservation_AutoMerge o with
  | Some merge => bool_decide (AutoMergeState_TaskID merge = taskID)
                  && (Pending (AutoMergeState_Status merge) || AutoMergeState_Authorized merge)
  | None => false
  end.
Definition revoke_archived (now reason : string) (merge : AutoMergeState) : AutoMergeState :=
  let merge := merge <| AutoMergeState_Authorized := false |> in
  if merge_terminal merge then merge else
  let merge := merge <| AutoMergeState_Reason := reason |> <| AutoMergeState_ObservedAt := now |> in
  if merge_in_flight merge then merge else merge <| AutoMergeState_Status := AutoMergeManual |>.
Definition revoke_observation (now reason : string) (o : PRObservation) : PRObservation :=
  o <| PRObservation_AutoMerge := revoke_archived now reason <$> PRObservation_AutoMerge o |>.
Definition txRevokeTaskMerges (now taskID reason : string) : Tx unit :=
  tx_write (fun db =>
    foldl (fun db row => put_pr row.1 (revoke_observation now reason row.2) db) db
      (List.filter (fun row => revocable taskID row.2) (db_prs db))).

(** * Properties *)

(** ** Rows of a pull request *)

(** Every saved observation has a row of its own. *)
Definition distinct_rows (db : Db) : Prop := NoDup (db_prs db).*1.
Lemma put_pr_distinct id o db : distinct_rows db -> distinct_rows (put_pr id o db).
Proof.
  unfold distinct_rows, put_pr. simpl. rewrite row_put_keys. case_bool_decide; [done|].
  intros ND. apply NoDup_app. split_and!; [done| |apply NoDup_singleton]. set_solver.
Qed.

Lemma last_filter_row_put {A} (P : string * A -> bool) id v w rows :
  NoDup rows.*1 -> P (id, w) = true ->
  last (List.filter P rows) = Some (id, v) ->
  last (List.filter P (row_put id w rows)) = Some (id, w).
Proof.
  intros ND Pw. induction rows as [|[k x] t IH]; [done|].
  apply NoDup_cons in ND as [NI ND]. simpl. case_bool_decide as E; subst; simpl.
  - rewrite Pw. rewrite last_cons.
    assert (forall u, last (List.filter P t) = Some u -> u.1 <> id) as Ne.
    { intros u L ->%eq_sym. apply NI. apply last_Some_elem_of in L.
      apply list_elem_of_fmap. exists u. split; [done|].
      by apply elem_of_bfilter in L as [_ ?]. }
    destruct (last (List.filter P t)) as [u|] eqn:L.
    + intros F. exfalso. apply (Ne u); [done|].
      destruct (P (id, x)); [rewrite last_cons in F|]; rewrite L in F; by injection F as ->.
    + done.
  - destruct (P (k, x)); [|by apply IH]. rewrite !last_cons.
    destruct (last (List.filter P t)) as [u|] eqn:L.
    + intros F. rewrite IH; done.
    + intros F. congruence.
Qed.

Lemma prObservationAt_put repository number id o o' db :
  distinct_rows db -> prObservationAt repository number db = Some (id, o) ->
  observes repository number (id, o') = true ->
  prObservationAt repository number (put_pr id o' db) = Some (id, o').
Proof. intros ND L O. by apply (last_filter_row_put _ _ o). Qed.

Lemma prObservationAt_observes repository number id o db :
  prObservationAt repository number db = Some (id, o) -> observes repository number (id, o) = true.
Proof.
  intros L%last_Some_elem_of. by apply elem_of_bfilter in L as [? _].
Qed.

(** ** Observation preserves or revokes, never grants *)

Lemma in_flight_excludes merge :
  merge_in_flight merge = true ->
  is_merge AutoMergeWaiting merge = false /\ is_merge AutoMergeMerged merge = false.
Proof. unfold merge_in_flight, is_merge. by destruct (AutoMergeState_Status merge). Qed.
Lemma bound_same merge p :
  PullRequest_State p = "open" -> bound merge p = true -> sameDeliveryHead merge p = true.
Proof. intros S B. unfold sameDeliveryHead. by rewrite S, B. Qed.

(** An observation of a pull request never grants merge authority and never
    settles a recorded attempt.  The identity of the delivery and the attempt
    are kept; authority survives only if it was there; a record that is still
    waiting with authority stays so only when the pull request is open, owned
    and still at the reviewed head and branches; an attempt in flight keeps its
    status; and a record becomes merged only when the remote says so of exactly
    the reviewed delivery. *)
Theorem preserve_state_sound now merge p :
  let merge' := preserve_state now merge p in
  same_intent merge' merge = true /\
  AutoMergeState_AttemptID merge' = AutoMergeState_AttemptID merge /\
  (AutoMergeState_Authorized merge' = true -> AutoMergeState_Authorized merge = true) /\
  (is_merge AutoMergeWaiting merge' = true -> sameDeliveryHead merge p = true) /\
  (merge_in_flight merge = true ->
     AutoMergeState_Status merge' = AutoMergeState_Status merge /\
     (AutoMergeState_Authorized merge' = true -> bound merge p = true)) /\
  (is_merge AutoMergeMerged merge' = true -> is_merge AutoMergeMerged merge = false ->
     PullRequest_State p = "merged" /\ bound merge p = true).
Proof.
  assert (forall m, same_intent m m = true) as R.
  { intros m. unfold same_intent. by rewrite !bool_decide_eq_true_2. }
  unfold preserve_state, revoke_merge.
  destruct (merge_in_flight merge) eqn:F.
  { destruct (in_flight_excludes _ F) as [W M].
    destruct (bound merge p) eqn:B; simpl; repeat destruct_cond;
      unfold is_merge in *; split_and!; try exact (R merge); try done; cbn; intros; congruence. }
  destruct (bool_decide (PullRequest_State p = "merged")) eqn:E1,
    (bool_decide (PullRequest_State p = "closed")) eqn:E2; simpl; bool_hyps; try congruence;
    repeat destruct_cond; unfold is_merge in *; bool_hyps;
    split_and!; try exact (R merge); try done; cbn; intros; simplify_eq; eval_decides;
    bool_hyps; try congruence; try done.
  all: rewrite H in Heqb; vm_compute in Heqb; discriminate.
Qed.

(** ** Claims *)

Section merge_properties.
  Context `{Unicode} (redact_text : string -> string).

Lemma observed_merge_Ok repository number db id o m db' :
  observed_merge repository number db = Ok (id, o, m, db') ->
  db' = db /\ prObservationAt repository number db = Some (id, o) /\ PRObservation_AutoMerge o = Some m.
Proof.
  unfold observed_merge. destruct (prObservationAt repository number db) as [[i ob]|]; [|done].
  destruct (PRObservation_AutoMerge ob) as [mm|] eqn:E; [|done]. intros I. by simplify_eq.
Qed.

Lemma claim_body_Ok s now repository number intent allowManual db db' :
  claim_body redact_text s now repository number intent allowManual db = Ok (tt, db') ->
  exists id o current,
    prObservationAt repository number db = Some (id, o) /\ PRObservation_AutoMerge o = Some current /\
    AutoMergeState_Authorized current = true /\
    (is_merge AutoMergeWaiting current = true \/ is_merge AutoMergeManual current = true) /\
    same_intent current intent = true /\
    db_prs db' = db_prs (put_pr id (o <| PRObservation_AutoMerge := Some intent |>) db).
Proof.
  unfold claim_body. intros C. apply tx_bind_Ok in C as ([[id o] current] & db1 & O & C).
  apply observed_merge_Ok in O as (-> & L & M). unfold txRepositoryEvent in C.
  tx_open. bool_hyps. exists id, o, current. split_and!; try done.
  - match goal with E : _ || _ = true |- _ => apply orb_true_iff in E as [?|E] end; [by left|right].
    by bool_hyps.
Qed.

(** A claim that succeeds found the delivery authorised, unclaimed and identical
    to the intent, and leaves the record holding exactly the intent. *)
Lemma ClaimMerge_Ok s now repository number intent allow db db' :
  distinct_rows db ->
  ClaimMerge redact_text s now repository number intent allow db = (Ok true, db') ->
  exists id o current,
    prObservationAt repository number db = Some (id, o) /\
    PRObservation_AutoMerge o = Some current /\ AutoMergeState_Authorized current = true /\
    merge_in_flight current = false /\ same_intent current intent = true /\
    merge_in_flight intent = true /\
    db_prs db' = db_prs (put_pr id (o <| PRObservation_AutoMerge := Some intent |>) db) /\
    prObservationAt repository number db' = Some (id, o <| PRObservation_AutoMerge := Some intent |>).
Proof.
  intros ND. unfold ClaimMerge. destruct (valid_intent intent) eqn:V; simpl; [|done].
  intros C%conditional_true%claim_body_Ok. destruct C as (id & o & current & L & M & A & E & S & P).
  exists id, o, current. split_and!; try done.
  - unfold merge_in_flight, is_merge in *. by destruct (AutoMergeState_Status current), E.
  - unfold valid_intent in V. bool_hyps. unfold merge_in_flight. by match goal with X : is_merge _ _ = true |- _ => rewrite X end.
  - unfold prObservationAt. rewrite P. apply (prObservationAt_put repository number id o _ db ND L).
    apply (prObservationAt_observes _ _ _ _ _ L).
Qed.
(** While an attempt is in flight every claim is refused. *)
Lemma ClaimMerge_taken s now repository number intent allow db id o m :
  prObservationAt repository number db = Some (id, o) -> PRObservation_AutoMerge o = Some m ->
  merge_in_flight m = true ->
  ClaimMerge redact_text s now repository number intent allow db = (Ok false, db).
Proof.
  intros L M F. unfold ClaimMerge. destruct (valid_intent intent); simpl; [|done].
  assert (observed_merge repository number db = Ok (id, o, m, db)) as O by (unfold observed_merge; by rewrite L, M).
  unfold conditional, claim_body. unfold tx_bind at 1. rewrite O.
  destruct (in_flight_excludes _ F) as [-> _].
  assert (is_merge AutoMergeManual m = false) as ->.
  { unfold merge_in_flight, is_merge in *. by destruct (AutoMergeState_Status m). }
  by rewrite andb_false_r, andb_false_r.
Qed.
End merge_properties.

(** ** Revocation *)

Lemma revoke_rows_lookup now reason (l : list (string * PRObservation)) db :
  NoDup l.*1 ->
  forall k, row_get k (db_prs (foldl (fun db row => put_pr row.1 (revoke_observation now reason row.2) db) db l))
  = match row_get k l with
    | Some o => Some (revoke_observation now reason o)
    | None => row_get k (db_prs db)
    end.
Proof.
  revert db. induction l as [|[i o] l IH]; intros db ND k; [done|].
  apply NoDup_cons in ND as [NI ND]. simpl. rewrite IH by done. simpl.
  case_bool_decide as E; subst.
  - assert (row_get k l = None) as ->; [|by rewrite row_get_put].
    clear -NI. induction l as [|[j w] l IH]; [done|]. simpl in *.
    rewrite bool_decide_eq_false_2; [apply IH|]; set_solver.
  - destruct (row_get k l); [done|]. by apply row_get_put_ne.
Qed.

Lemma row_get_None {A} k (l : list (string * A)) : k ∉ l.*1 -> row_get k l = None.
Proof.
  induction l as [|[j w] l IH]; [done|]. intros N. simpl in *.
  rewrite bool_decide_eq_false_2; [apply IH|]; set_solver.
Qed.
Lemma filter_keys_subset {A} (P : string * A -> bool) l k :
  k ∈ (List.filter P l).*1 -> k ∈ l.*1.
Proof.
  rewrite !list_elem_of_fmap. intros (r & -> & Hr%elem_of_bfilter). exists r. tauto.
Qed.
Lemma filter_NoDup_keys {A} (P : string * A -> bool) l : NoDup l.*1 -> NoDup (List.filter P l).*1.
Proof.
  induction l as [|r l IH]; simpl; [done|]. intros [NI ND]%NoDup_cons.
  destruct (P r); [|by apply IH]. apply NoDup_cons. split; [|by apply IH].
  intros E. by apply NI, (filter_keys_subset P).
Qed.
Lemma row_get_filter {A} (P : string * A -> bool) l k :
  NoDup l.*1 ->
  row_get k (List.filter P l) =
  match row_get k l with Some o => if P (k, o) then Some o else None | None => None end.
Proof.
  induction l as [|[j w] l IH]; [done|]. intros [NI ND]%NoDup_cons.
  destruct (decide (j = k)) as [->|N]; simpl.
  - rewrite (bool_decide_eq_true_2 (k = k)) by done. destruct (P (k, w)); simpl.
    + by rewrite bool_decide_eq_true_2.
    + apply row_get_None. intros E. by apply NI, (filter_keys_subset P).
  - rewrite (bool_decide_eq_false_2 (j = k)) by done. rewrite <- IH by done.
    destruct (P (j, w)); simpl; [|done]. by rewrite bool_decide_eq_false_2.
Qed.

Lemma revoked_rows now id reason db db' :
  distinct_rows db -> txRevokeTaskMerges now id reason db = Ok (tt, db') ->
  forall k, row_get k (db_prs db') =
    match row_get k (db_prs db) with
    | Some o => Some (if revocable id o then revoke_observation now reason o else o)
    | None => None
    end.
Proof.
  intros ND R k. apply tx_write_Ok in R as ->.
  rewrite revoke_rows_lookup by (by apply filter_NoDup_keys).
  rewrite row_get_filter by done. destruct (row_get k (db_prs db)) as [o|]; [|done].
  simpl. by destruct (revocable id o).
Qed.

(** Archiving a task takes back every merge authority it gave.  After
    [txRevokeTaskMerges] no saved pull request carries authority of that task
    and none is left waiting for it; attempts in flight and recorded outcomes
    keep their status, and the records of other tasks are untouched. *)
Theorem txRevokeTaskMerges_complete now id reason db db' :
  distinct_rows db -> txRevokeTaskMerges now id reason db = Ok (tt, db') ->
  forall k o', row_get k (db_prs db') = Some o' ->
  exists o, row_get k (db_prs db) = Some o /\
    match PRObservation_AutoMerge o, PRObservation_AutoMerge o' with
    | Some m, Some m' =>
        if bool_decide (AutoMergeState_TaskID m' = id) then
          AutoMergeState_Authorized m' = false /\ is_merge AutoMergeWaiting m' = false /\
          (merge_in_flight m || merge_terminal m = true ->
             AutoMergeState_Status m' = AutoMergeState_Status m)
        else o' = o
    | None, None => o' = o
    | _, _ => False
    end.
Proof.
  intros ND R k o'. rewrite (revoked_rows _ _ _ _ _ ND R).
  destruct (row_get k (db_prs db)) as [o|]; [|done]. intros E. exists o. split; [done|].
  injection E as <-. unfold revocable, revoke_observation.
  destruct (PRObservation_AutoMerge o) as [m|] eqn:M; [|by rewrite ?M].
  destruct (bool_decide (AutoMergeState_TaskID m = id)) eqn:T; simpl.
  2: { rewrite ?M. by rewrite T. }
  assert (AutoMergeState_TaskID (revoke_archived now reason m) = AutoMergeState_TaskID m) as I.
  { unfold revoke_archived. by repeat destruct_cond. }
  destruct (Pending (AutoMergeState_Status m) || AutoMergeState_Authorized m) eqn:Q; simpl.
  - rewrite ?M. simpl. rewrite I, T. split_and!.
    + unfold revoke_archived. by repeat destruct_cond.
    + unfold revoke_archived, merge_terminal, merge_in_flight, is_merge. simpl.
      by destruct (AutoMergeState_Status m) eqn:S; simpl; eval_decides; simpl; rewrite ?S; eval_decides.
    + unfold revoke_archived, merge_terminal, merge_in_flight, is_merge. simpl.
      by destruct (AutoMergeState_Status m) eqn:S; simpl; eval_decides; simpl; rewrite ?S.
  - rewrite ?M, T. apply orb_false_iff in Q as [P A]. split_and!; [done| |done].
    unfold is_merge. by destruct (AutoMergeState_Status m).
Qed.

(** ** Witnesses *)

Definition sample_merge (status : AutoMergeStatus) : AutoMergeState :=
  mkAutoMergeState "t" "c" "octomus/t" "main" "base" "policy" true None status "ready" "now"
    (Some "attempt-1") (Some "now") None None.
Definition sample_pr (state head : string) : PullRequest :=
  mkPullRequest 7 "Fix t" "octomus/t" head "main" "url" "body" state 10 "created" true
    "acme/widgets" "acme/widgets" "" "" "" "" "".
Definition sample_observation (status : AutoMergeStatus) : PRObservation :=
  mkPRObservation "acme/widgets" (sample_pr "open" "c") "now" (Some "c") false (Some (sample_merge status)).
Definition merge_db : Db := empty_db <| db_prs := [("acme/widgets:7", sample_observation AutoMergeWaiting)] |>.
Definition sample_store : Store := mkStore "acme/widgets" "acme/widgets".

Lemma merge_db_distinct : distinct_rows merge_db.
Proof. apply NoDup_singleton. Qed.

Lemma preserve_state_sound_witness :
  same_intent (preserve_state "now" (sample_merge AutoMergeWaiting) (sample_pr "open" "d"))
    (sample_merge AutoMergeWaiting) = true.
Proof. exact (proj1 (preserve_state_sound "now" (sample_merge AutoMergeWaiting) (sample_pr "open" "d"))). Defined.

Definition revoked_observation : PRObservation :=
  revoke_observation "now" "archived" (sample_observation AutoMergeWaiting).
Lemma txRevokeTaskMerges_complete_witness :
  exists o, row_get "acme/widgets:7" (db_prs merge_db) = Some o /\
    match PRObservation_AutoMerge o, PRObservation_AutoMerge revoked_observation with
    | Some m, Some m' =>
        if bool_decide (AutoMergeState_TaskID m' = "t") then
          AutoMergeState_Authorized m' = false /\ is_merge AutoMergeWaiting m' = false /\
          (merge_in_flight m || merge_terminal m = true ->
             AutoMergeState_Status m' = AutoMergeState_Status m)
        else revoked_observation = o
    | None, None => revoked_observation = o
    | _, _ => False
    end.
Proof.
  apply (txRevokeTaskMerges_complete "now" "t" "archived" merge_db
           (put_pr "acme/widgets:7" revoked_observation merge_db)).
  - apply merge_db_distinct.
  - vm_compute. reflexivity.
  - vm_compute. reflexivity.
Defined.
