(* ===== verification/StoreTasks.v ===== *)
(** * Tasks, plans and requests in the store
    ([internal/store/task_lifecycle.go], [store.go], [requests.go],
    [automerge.go], [queries.go])

    Every write of a task goes through [txCommitTask], which compares the whole
    saved predecessor, merges a cancelled worker's evidence and asks the
    lifecycle policy; the coupled operations (retry, archive, publication, plan)
    run it inside one transaction with what they couple. *)
From S2P Require Import Prelude GoStrings WireJson Enums Types GoErrors Config GoTime Model Samples Lifecycle Store StoreMerges.
Local Open Scope string_scope.
Local Open Scope list_scope.
Local Open Scope N_scope.

Definition ErrTaskConflict : error := New "Task changed since its last committed checkpoint".
Definition ErrTaskInvalid : error := New "Task change is invalid".
Definition ErrRequestLimit : error := New "request limit reached".
Definition ErrRequestChanged : error := New "Operator request changed; reload requests and try again".

(** [for _, x := range l { if err := f(x); err != nil { return err } }]. *)
Fixpoint tx_iter {A} (f : A -> Tx unit) (l : list A) : Tx unit :=
  match l with
  | [] => tx_ret tt
  | x :: t => do! _ <- f x in tx_iter f t
  end.

(** ** Committing one task *)

Definition conflict (id : string) : error := Errorf "Task %s: %w" [VStr id; VWrap ErrTaskConflict].
Definition worker_stop (change : TaskChange) : bool :=
  match change with
  | TaskCheckpoint | TaskPrepare | TaskAuthorizePublication => true
  | _ => false
  end.

(** What is to be saved for [next], given the saved [current]. *)
Definition reconcile_next (expected current next : Task) (change : TaskChange) (marked : bool)
    : result Task error :=
  if marked && isNone (Task_OutputCommit current) && bool_decide (change = TaskSettlement) then
    match MergeCancelledTask expected current next with
    | Ok merged => Ok merged
    | Err e => Err (Errorf "Task %s: %w: %v" [VStr (Task_ID expected); VWrap ErrTaskConflict; VErr e])
    end
  else if Equal current expected then Ok next
  else if marked && isNone (Task_OutputCommit current) && worker_stop change then Err ErrTaskCancelled
  else Err (conflict (Task_ID expected)).

Definition txCommitTask (expected next : Task) (change : TaskChange) : Tx Task :=
  do! found <- tx_read (fun db => db_tasks db !! Task_ID expected) in
  match found with
  | None => tx_fail (conflict (Task_ID expected))
  | Some current =>
    require bool_decide (Task_ID next = Task_ID expected) else conflict (Task_ID expected);
    do! marked <- tx_read (marker (Task_ID expected)) in
    do! next <- tx_lift (reconcile_next expected current next change marked) in
    do! _ <- tx_lift (match ValidateTaskChange current next change marked with
                      | Ok _ => Ok tt
                      | Err e => Err (Errorf "%w: %w" [VWrap ErrTaskInvalid; VWrap e])
                      end) in
    do! _ <- tx_write (put_task next) in
    tx_ret next
  end.

Definition CommitTask (expected next : Task) (change : TaskChange) (db : Db) : outcome Task :=
  transaction (txCommitTask expected next change) db.

Definition insertTask (t : Task) : Tx unit :=
  do! found <- tx_read (fun db => db_tasks db !! Task_ID t) in
  require isNone found else Errorf "Task %s already exists: %w" [VStr (Task_ID t); VWrap ErrTaskConflict];
  tx_write (put_task t).

Section store_tasks.
  Context (redact_text : string -> string).
  (** [wirejson.Marshal] of an attempt policy, the text of its event. *)
  Context (policy_text : option AttemptPolicy -> string).

(** ** The coupled operations on one task *)

Definition ResetTaskCancellation (expected t : Task) (db : Db) : outcome Task :=
  transaction
    (do! _ <- tx_write (put_cancel (Task_ID t) None) in
     txCommitTask expected t TaskResolve) db.

Definition RetryTask (s : Store) (now : string) (expected t : Task) (db : Db) : outcome unit :=
  transaction
    (do! _ <- tx_write (put_cancel (Task_ID t) None) in
     do! _ <- txCommitTask expected t TaskRetry in
     txRepositoryEvent redact_text now (Store_repo s) (Task_ID t) EventAttemptPolicy
       (policy_text (Task_AttemptPolicy t))) db.

Definition ArchiveTask (now : string) (expected t : Task) (db : Db) : outcome unit :=
  transaction
    (do! _ <- txCommitTask expected t TaskArchive in
     txRevokeTaskMerges now (Task_ID t) "The authorizing task was archived") db.

Definition cancelled_next (now : string) (current : Task) : Task :=
  current <| Task_Status := StatusCancelled |> <| Task_UpdatedAt := now |>
          <| Task_Error := Some cancelled_message |> <| Task_BlockedReason := None |>.
Definition CancelTask (now id : string) (db : Db) : outcome bool :=
  transaction
    (do! found <- tx_read (fun db => db_tasks db !! id) in
     match found with
     | None => tx_ret false
     | Some current =>
       if isSome (Task_OutputCommit current)
          || bool_decide (Task_Status current = StatusPublishing)
          || bool_decide (Task_Status current = StatusPublished)
       then tx_ret false
       else
         do! _ <- txCommitTask current (cancelled_next now current) TaskCancel in
         tx_ret true
     end) db.

(** ** Publication *)

(** The older task whose merge state the new delivery replaces keeps it as a
    snapshot, when it is the delivery that state describes. *)
Definition delivered_by (repository : string) (number : N) (merge : AutoMergeState) (old : Task) : bool :=
  EqualASCII (Config_GitHubRepo (Task_Config old)) repository
  && bool_decide (Task_PRNumber old = Some number)
  && bool_decide (Task_OutputCommit old = Some (AutoMergeState_Head merge))
  && bool_decide (Task_ID old = AutoMergeState_TaskID merge)
  && bool_decide (Task_ComparisonBase old = AutoMergeState_ComparisonBase merge)
  && bool_decide (Task_Branch old = AutoMergeState_HeadBranch merge)
  && bool_decide (Config_DefaultBranch (Task_Config old) = AutoMergeState_BaseBranch merge).

Definition snapshot_previous (t : Task) (repository : string) (number : N) (previous : option PRObservation)
    : Tx unit :=
  match previous with
  | None => tx_ret tt
  | Some o =>
    match PRObservation_AutoMerge o with
    | None => tx_ret tt
    | Some merge =>
      if bool_decide (AutoMergeState_TaskID merge = Task_ID t) then tx_ret tt else
      do! found <- tx_read (fun db => db_tasks db !! AutoMergeState_TaskID merge) in
      match found with
      | None => tx_ret tt
      | Some old =>
        if delivered_by repository number merge old then
          do! _ <- txCommitTask old
            (old <| Task_AutoMergeSnapshot := Some (mkAutoMergeSnapshot (PRObservation_Repository o)
                       (PullRequest_Number (PRObservation_PR o)) merge) |>) TaskMergeSnapshot in
          tx_ret tt
        else tx_ret tt
      end
    end
  end.

Definition merge_unresolved (previous : option PRObservation) : bool :=
  match previous with
  | Some o => match PRObservation_AutoMerge o with Some m => merge_in_flight m | None => false end
  | None => false
  end.

Section publication.
  Context `{Unicode}.

Definition complete_body (s : Store) (now : string) (expected t : Task) (p : PullRequest)
    (merge : option AutoMergeState) : Tx Task :=
  let repository := Config_GitHubRepo (Task_Config t) in
  do! found <- tx_read (fun db => db_tasks db !! Task_ID t) in
  let checkpoint := Errorf "Task %s is not at its durable publishing checkpoint" [VStr (Task_ID t)] in
  match found with
  | None => tx_fail checkpoint
  | Some stored =>
    require bool_decide (Task_Status stored = StatusPublishing)
            && isSome (Task_OutputCommit stored)
            && bool_decide (Task_OutputCommit t = Task_OutputCommit stored) else checkpoint;
    do! previous <- tx_read (prObservationAt repository (PullRequest_Number p)) in
    require negb (merge_unresolved (snd <$> previous))
      else Errorf "Pull request %d still carries an unresolved merge intent" [VNum (PullRequest_Number p)];
    let t := match Task_AutoMergeSnapshot t with
             | None => t <| Task_AutoMergeSnapshot := Task_AutoMergeSnapshot stored |>
             | Some _ => t
             end in
    do! _ <- snapshot_previous t repository (PullRequest_Number p) (snd <$> previous) in
    let recordID := match previous with
                    | Some (id, _) => id
                    | None => pr_record_id repository (PullRequest_Number p)
                    end in
    do! _ <- txCommitTask expected t TaskPublication in
    do! _ <- tx_write (put_pr recordID {|
      PRObservation_Repository := repository;
      PRObservation_PR := p;
      PRObservation_ObservedAt := now;
      PRObservation_DeliveredHead := Some (PullRequest_Head p);
      PRObservation_ExternalHeadMovement := false;
      PRObservation_AutoMerge := merge |}) in
    do! _ <- txRepositoryEvent redact_text now (Store_repo s) (Task_ID t) EventStatus "Published" in
    tx_ret t
  end.
Definition CompletePublication (s : Store) (now : string) (expected t : Task) (p : PullRequest)
    (merge : option AutoMergeState) (db : Db) : outcome Task :=
  transaction (complete_body s now expected t p merge) db.
End publication.

(** ** Requests *)

Definition txUpdateRequest (u : RequestUpdate) : Tx unit :=
  do! found <- tx_read (fun db => db_requests db !! OperatorRequest_ID (RequestUpdate_Expected u)) in
  require bool_decide (found = Some (RequestUpdate_Expected u)) else ErrRequestChanged;
  tx_write (put_request (RequestUpdate_Next u)).
Definition UpdateRequest (u : RequestUpdate) (db : Db) : outcome unit := transaction (txUpdateRequest u) db.

Definition pending_request (repository : string) (r : OperatorRequest) : bool :=
  EqualASCII (OperatorRequest_Repository r) repository
  && bool_decide (OperatorRequest_Status r = RequestPending).
Definition pending_requests (repository : string) (db : Db) : gmap string OperatorRequest :=
  filter (fun r => pending_request repository r.2 = true) (db_requests db).
Definition CreateRequest (r : OperatorRequest) (limit : N) (db : Db) : outcome unit :=
  transaction
    (do! count <- tx_read (fun db => N.of_nat (size (pending_requests (OperatorRequest_Repository r) db))) in
     require negb (limit <=? count) else ErrRequestLimit;
     tx_write (put_request r)) db.

(** ** Plans *)

Definition updateLineageTask (id : string) (check : Task -> result Task error) : Tx unit :=
  do! found <- tx_read (fun db => db_tasks db !! id) in
  match found with
  | None => tx_fail (Errorf "Missing lineage task %s" [VStr id])
  | Some t =>
    require isNone (WorkspaceLifecycle_ArchivedAt (Task_Lifecycle t))
      else Errorf "Rediscovery request %s was archived before the plan committed" [VStr id];
    do! next <- tx_lift (check t) in
    do! _ <- txCommitTask t next TaskLineage in
    tx_ret tt
  end.

Definition supersede (t old : Task) : result Task error :=
  guard Task_RediscoveryRequested old
        && EqualASCII (Config_GitHubRepo (Task_Config old)) (Config_GitHubRepo (Task_Config t))
    else New "Invalid rediscovery lineage";
  Ok (old <| Task_SupersededBy := Task_SupersededBy old ++ [Task_ID t] |>).

Definition reconsider (cycle : Cycle) (proposal : Proposal) (old : Task) : result Task error :=
  guard Task_RediscoveryRequested old && bool_decide (Task_Status old = StatusCancelled)
        && EqualASCII (Config_GitHubRepo (Task_Config old)) (Cycle_Repository cycle)
        && bool_decide (Proposal_Target (Task_Proposal old) = Proposal_Target proposal)
    else New "Rediscovery decisions must reference an eligible request in this repository and target";
  Ok (old <| Task_RediscoveryRequested := false |>
          <| Task_RediscoveryResult := Some (Proposal_Decision proposal +:+ ": " +:+ Proposal_Reason proposal) |>).

Definition putDecision (d : DecisionRecord) : Tx unit :=
  require negb (bool_decide (DecisionRecord_ID d = "")) else New "Missing decision identity";
  tx_write (put_decision d).

Definition max_uint32 : N := 4294967295.

(** The batch of a run-once pass moves on to execution. *)
Definition batch_planned (cycle : Cycle) (control : Control) : option Control :=
  match Control_Batch control with
  | Some batch =>
      if bool_decide (Cycle_RunID cycle = Some (RunBatch_ID batch))
         && bool_decide (RunBatch_CycleID batch = Some (Cycle_ID cycle))
      then Some (control <| Control_Batch := Some (batch <| RunBatch_Phase := BatchPhaseExecuting |>) |>)
      else None
  | None => None
  end.
Definition idle_streak (tasks : list Task) (control : Control) : Control :=
  match tasks with
  | [] => if Control_IdleStreak control <? max_uint32
          then control <| Control_IdleStreak := Control_IdleStreak control + 1 |> else control
  | _ => control <| Control_IdleStreak := 0 |>
  end.

Definition plan_body (s : Store) (cycle : Cycle) (tasks : list Task) (requests : list RequestUpdate) : Tx unit :=
  do! _ <- tx_write (put_cycle cycle) in
  do! _ <- tx_iter insertTask tasks in
  do! saved <- tx_read (fun db => db_controls db !! ControlKey s) in
  let planned := match saved with Some control => batch_planned cycle control | None => None end in
  do! _ <- tx_iter (fun t => tx_iter (fun oldID => updateLineageTask oldID (supersede t))
                                     (Task_Supersedes t)) tasks in
  do! _ <- tx_iter putDecision (Cycle_DecisionMemory cycle) in
  do! _ <- tx_iter txUpdateRequest requests in
  let execution := bool_decide (Cycle_Mode cycle = CycleModeExecution) in
  do! _ <- (if execution then
              tx_iter (fun proposal => tx_iter (fun id => updateLineageTask id (reconsider cycle proposal))
                                               (Proposal_Reconsiders proposal)) (Cycle_Proposals cycle)
            else tx_ret tt) in
  match saved with
  | None => tx_ret tt
  | Some control =>
      let next := default control planned in
      if execution then tx_write (put_control (ControlKey s) (idle_streak tasks next))
      else if isSome planned then tx_write (put_control (ControlKey s) next)
      else tx_ret tt
  end.

(** [ctx_err] is [ctx.Err()] once the store's mutex is held. *)
Definition CommitPlan (s : Store) (ctx_err : option error) (cycle : Cycle) (tasks : list Task)
    (requests : list RequestUpdate) (db : Db) : outcome unit :=
  match ctx_err with
  | Some e => (Err e, db)
  | None => transaction (plan_body s cycle tasks requests) db
  end.

Definition AppendCycleSession (cycleID : string) (session : Session) (db : Db) : outcome unit :=
  transaction
    (do! found <- tx_read (fun db => db_cycles db !! cycleID) in
     match found with
     | None => tx_fail (Errorf "Missing cycle %s" [VStr cycleID])
     | Some cycle =>
       if existsb (fun existing => bool_decide (Session_ID existing = Session_ID session)) (Cycle_Sessions cycle)
       then tx_ret tt
       else tx_write (put_cycle (cycle <| Cycle_Sessions := Cycle_Sessions cycle ++ [session] |>))
     end) db.

(** ** Starting a run-once batch ([txStartBatch])

    [id] is the new batch identity; the update of the queued tasks sets only
    their [run_id], and [batch_member_update] enters them in the batch. *)
Definition in_scope (repo : string) (t : Task) : bool :=
  bool_decide (repo = "") || EqualASCII (Config_GitHubRepo (Task_Config t)) repo.
Definition batch_task (repo : string) (t : Task) : bool :=
  bool_decide (Task_Status t = StatusQueued) && negb (Archived t) && in_scope repo t.
Definition enlist (id : string) (t : Task) : Task := t <| Task_RunID := Some id |>.
Definition txStartBatch (id key repo : string) (control : Control) : Tx Control :=
  let next := (SetMode control OperatingModeRunOnce)
    <| Control_Batch := Some (mkRunBatch id BatchPhaseDraining None) |>
    <| Control_Error := None |> <| Control_NextCycleAt := 0%Z |> in
  do! _ <- tx_write (fun db =>
    db <| db_tasks := (fun t => if batch_task repo t then enlist id t else t) <$> db_tasks db |>
       <| db_batch := foldl (fun members t => <[(id, Task_ID t) := Task_Status t]> members) (db_batch db)
            (List.filter (batch_task repo) (map_to_list (db_tasks db)).*2) |>) in
  do! _ <- tx_write (put_control key next) in
  tx_ret next.
End store_tasks.

(** * Properties *)

(** ** One commit *)

(** What a successful [txCommitTask] did. *)
Record committed (expected next saved : Task) (change : TaskChange) (db db' : Db) : Prop := {
  committed_current : exists current, db_tasks db !! Task_ID expected = Some current /\
    ValidateTaskChange current saved change (marker (Task_ID expected) db) = Ok tt /\
    ((current = expected /\ saved = next) \/
     (marker (Task_ID expected) db = true /\ Task_OutputCommit current = None /\
      change = TaskSettlement /\ MergeCancelledTask expected current next = Ok saved));
  committed_ID : Task_ID saved = Task_ID expected;
  committed_db : db' = put_task saved db;
}.

Lemma MergeCancelledTask_ID expected current pending next :
  MergeCancelledTask expected current pending = Ok next -> Task_ID next = Task_ID expected.
Proof.
  unfold MergeCancelledTask. intros H. ok_inv H. bool_hyps. equal_hyps. subst.
  match goal with B : _ = expected |- _ => by rewrite <- B end.
Qed.

Lemma txCommitTask_Ok expected next change db saved db' :
  txCommitTask expected next change db = Ok (saved, db') ->
  committed expected next saved change db db'.
Proof.
  unfold txCommitTask. intros C. apply tx_bind_Ok in C as (found & db1 & R & C).
  apply tx_read_Ok in R as [-> ->].
  destruct (db_tasks db !! Task_ID expected) as [current|] eqn:L; [|discriminate].
  tx_open. bool_hyps.
  match goal with R : reconcile_next _ _ _ _ _ = Ok ?s |- _ => rename R into Rec; rename s into saved end.
  destruct (ValidateTaskChange current saved change (marker (Task_ID expected) db)) as [[]|] eqn:V; [|discriminate].
  assert ((current = expected /\ saved = next) \/
     (marker (Task_ID expected) db = true /\ Task_OutputCommit current = None /\
      change = TaskSettlement /\ MergeCancelledTask expected current next = Ok saved)) as Cases.
  { unfold reconcile_next in Rec. destruct_cond; bool_hyps.
    - right. destruct (MergeCancelledTask expected current next) eqn:M; [|discriminate].
      injection Rec as ->. split_and!; try done. by destruct (Task_OutputCommit current).
    - destruct_cond; [|by destruct_cond]. equal_hyps. left. by injection Rec as ->. }
  constructor; [by exists current| |done].
  destruct Cases as [[-> ->]|(_ & _ & _ & M)]; [done|]. by eapply MergeCancelledTask_ID.
Qed.

(** A commit that starts from the saved record succeeds when the policy accepts
    the change. *)
Lemma txCommitTask_accepts expected next change db :
  db_tasks db !! Task_ID expected = Some expected -> Task_ID next = Task_ID expected -> change <> TaskSettlement ->
  txCommitTask expected next change db =
    match ValidateTaskChange expected next change (marker (Task_ID expected) db) with
    | Ok _ => Ok (next, put_task next db)
    | Err e => Err (Errorf "%w: %w" [VWrap ErrTaskInvalid; VWrap e])
    end.
Proof.
  intros L I N. unfold txCommitTask, tx_bind, tx_read, tx_write, tx_ret. rewrite L, bool_decide_eq_true_2 by done.
  unfold reconcile_next. rewrite (bool_decide_eq_false_2 _ N), andb_false_r, Equal_refl. cbn [tx_lift].
  by destruct (ValidateTaskChange _ _ _ _) as [[]|e].
Qed.

(** No write of a task is lost or overwritten.  A commit succeeds only when
    the complete saved record still is the one the caller started from and the
    policy accepts the change; it then saves exactly the caller's record.  The
    one exception is the settlement of a worker whose task the operator
    cancelled meanwhile, which saves the merge of both.  A commit that fails
    changes nothing. *)
Theorem CommitTask_optimistic expected next change db r db' :
  CommitTask expected next change db = (r, db') ->
  match r with
  | Err _ => db' = db
  | Ok saved => exists current,
      db_tasks db !! Task_ID expected = Some current /\
      db_tasks db' = <[Task_ID expected := saved]> (db_tasks db) /\
      ValidateTaskChange current saved change (CancelMarked (Task_ID expected) db) = Ok tt /\
      ((current = expected /\ saved = next) \/
       (CancelMarked (Task_ID expected) db = true /\ Task_OutputCommit current = None /\
        change = TaskSettlement /\ MergeCancelledTask expected current next = Ok saved))
  end.
Proof.
  intros C. destruct r as [saved|e]; [|by apply transaction_Err in C].
  apply transaction_Ok, txCommitTask_Ok in C as [(current & L & V & Cs) I ->].
  exists current. rewrite put_task_tasks, I. auto.
Qed.

(** ** Tasks evolve, are born fresh and are never lost *)

Definition evolve_step (a b : Task) : Prop := task_step a b \/ exists id, b = enlist id a.
Definition task_evolves : Task -> Task -> Prop := rtc evolve_step.

Lemma enlist_keeps id t : keeps t (enlist id t).
Proof. by constructor. Qed.
Lemma evolve_step_keeps t u : evolve_step t u -> keeps t u.
Proof. intros [?|[id ->]]; [by apply task_step_keeps|apply enlist_keeps]. Qed.
Lemma task_evolves_keeps t u : task_evolves t u -> keeps t u.
Proof. induction 1; [done|]. etrans; [by apply evolve_step_keeps|done]. Qed.
Lemma evolve_step_inv t u : evolve_step t u -> publication_inv t -> publication_inv u.
Proof. intros [?|[id ->]]; [by apply publication_inv_step|]. intros []. by constructor. Qed.
Lemma task_evolves_inv t u : task_evolves t u -> publication_inv t -> publication_inv u.
Proof. induction 1; eauto using evolve_step_inv. Qed.

Definition born (t : Task) : Prop := exists f, fresh f /\ task_evolves f t.
Lemma born_evolves t u : born t -> task_evolves t u -> born u.
Proof. intros (f & F & E) E'. exists f. split; [done|]. by etrans. Qed.
Lemma born_inv t : born t -> publication_inv t.
Proof. intros (f & F & E). by eapply task_evolves_inv, fresh_publication_inv. Qed.

(** The task tables before and after an operation. *)
Definition table_evolves (before after : gmap string Task) : Prop :=
  forall id, match before !! id, after !! id with
             | Some t, Some u => task_evolves t u
             | None, Some u => born u /\ Task_ID u = id
             | None, None => True
             | Some _, None => False
             end.
#[export] Instance table_evolves_preorder : PreOrder table_evolves.
Proof.
  split.
  - intros m id. by destruct (m !! id).
  - intros a b c AB BC id. specialize (AB id). specialize (BC id).
    destruct (a !! id), (b !! id), (c !! id); try done; [by etrans|].
    destruct AB as [B I]. split; [by eapply born_evolves|].
    rewrite <- I. symmetry. apply (keeps_ID _ _ (task_evolves_keeps _ _ BC)).
Qed.

Lemma table_evolves_insert id t u m :
  m !! id = Some t -> task_evolves t u -> table_evolves m (<[id := u]> m).
Proof.
  intros L E j. destruct (decide (id = j)) as [<-|N].
  - by rewrite L, lookup_insert_eq.
  - rewrite lookup_insert_ne by done. by destruct (m !! j).
Qed.
Lemma table_evolves_new id u m :
  m !! id = None -> born u -> Task_ID u = id -> table_evolves m (<[id := u]> m).
Proof.
  intros L E I j. destruct (decide (id = j)) as [<-|N].
  - by rewrite L, lookup_insert_eq.
  - rewrite lookup_insert_ne by done. by destruct (m !! j).
Qed.

(** A transaction body is safe when the task table only evolves. *)
Definition tx_safe {A} (m : Tx A) : Prop :=
  forall db a db', m db = Ok (a, db') -> table_evolves (db_tasks db) (db_tasks db').

Lemma tx_safe_ret {A} (a : A) : tx_safe (tx_ret a).
Proof. intros db b db' [_ ->]%tx_ret_Ok. done. Qed.
Lemma tx_safe_read {A} (f : Db -> A) : tx_safe (tx_read f).
Proof. intros db b db' [_ ->]%tx_read_Ok. done. Qed.
Lemma tx_safe_lift {A} (r : result A error) : tx_safe (tx_lift r).
Proof. intros db b db' [_ ->]%tx_lift_Ok. done. Qed.
Lemma tx_safe_fail {A} e : tx_safe (@tx_fail A e).
Proof. intros db b db' E. discriminate. Qed.
Lemma tx_safe_write f : (forall db, db_tasks (f db) = db_tasks db) -> tx_safe (tx_write f).
Proof. intros F db b db' ->%tx_write_Ok. by rewrite F. Qed.
Lemma tx_safe_bind {A B} (m : Tx A) (k : A -> Tx B) :
  tx_safe m -> (forall a, tx_safe (k a)) -> tx_safe (tx_bind m k).
Proof. intros M K db b db' (a & db1 & E1 & E2)%tx_bind_Ok. etrans; [by eapply M|by eapply K]. Qed.
Lemma tx_safe_if {A} (c : bool) (m k : Tx A) : tx_safe m -> tx_safe k -> tx_safe (if c then m else k).
Proof. by destruct c. Qed.
Lemma tx_safe_iter {A} (f : A -> Tx unit) l : (forall a, a ∈ l -> tx_safe (f a)) -> tx_safe (tx_iter f l).
Proof.
  induction l as [|x l IH]; intros F; [apply tx_safe_ret|].
  apply tx_safe_bind; [apply F; left|]. intros _. apply IH. intros a ?. apply F. by right.
Qed.

Lemma tx_safe_commit expected next change : tx_safe (txCommitTask expected next change).
Proof.
  intros db saved db' [(current & L & V & _) I ->]%txCommitTask_Ok.
  rewrite put_task_tasks, I. apply (table_evolves_insert _ current); [done|].
  apply rtc_once. left. by econstructor.
Qed.
Lemma tx_safe_insert t : fresh t -> tx_safe (insertTask t).
Proof.
  intros F db b db' E. unfold insertTask in E. tx_open. rewrite put_task_tasks.
  apply table_evolves_new; [|by exists t; split; [|constructor]|done].
  unfold isNone in *. by destruct (db_tasks db !! Task_ID t).
Qed.

Create HintDb tx_safe.
#[export] Hint Resolve tx_safe_ret tx_safe_read tx_safe_lift tx_safe_fail tx_safe_commit : tx_safe.

(** Walks a transaction body. *)
Ltac tx_safe_step :=
  match goal with
  | |- tx_safe (tx_bind _ _) => apply tx_safe_bind; [|intros ?]
  | |- tx_safe (tx_write _) => apply tx_safe_write; intros ?; first [done|apply put_cycle_tasks]
  | |- tx_safe (if ?c then _ else _) => apply tx_safe_if
  | |- tx_safe (match ?x with _ => _ end) => destruct x
  | |- tx_safe (tx_iter _ _) => apply tx_safe_iter; intros ? ?
  | |- tx_safe _ => solve [auto with tx_safe]
  end.
Ltac tx_safe := repeat (tx_safe_step || (progress cbv zeta)).

Lemma tx_safe_event redact now repo entity kind m : tx_safe (txRepositoryEvent redact now repo entity kind m).
Proof. unfold txRepositoryEvent. tx_safe. Qed.
Lemma tx_safe_lineage id check : tx_safe (updateLineageTask id check).
Proof. unfold updateLineageTask. tx_safe. Qed.
Lemma tx_safe_request u : tx_safe (txUpdateRequest u).
Proof. unfold txUpdateRequest. tx_safe. Qed.
Lemma revoke_rows_tasks now reason l db :
  db_tasks (foldl (fun db row => put_pr row.1 (revoke_observation now reason row.2) db) db l) = db_tasks db.
Proof. revert db. induction l as [|r l IH]; intros db; [done|]. simpl. by rewrite IH. Qed.
Lemma tx_safe_revoke now id reason : tx_safe (txRevokeTaskMerges now id reason).
Proof. apply tx_safe_write. intros db. apply revoke_rows_tasks. Qed.
#[export] Hint Resolve tx_safe_event tx_safe_lineage tx_safe_request tx_safe_revoke : tx_safe.
Lemma tx_safe_snapshot t repository number previous : tx_safe (snapshot_previous t repository number previous).
Proof. unfold snapshot_previous. tx_safe. Qed.
#[export] Hint Resolve tx_safe_snapshot : tx_safe.
Lemma tx_safe_plan s cycle tasks requests : Forall fresh tasks -> tx_safe (plan_body s cycle tasks requests).
Proof.
  intros F. unfold plan_body, putDecision. rewrite Forall_forall in F.
  assert (tx_safe (tx_iter insertTask tasks)) by (apply tx_safe_iter; auto using tx_safe_insert).
  repeat (assumption || tx_safe_step || (progress cbv zeta)).
Qed.
Lemma tx_safe_complete `{Unicode} redact s now expected t p merge :
  tx_safe (complete_body redact s now expected t p merge).
Proof. unfold complete_body. tx_safe. Qed.
Lemma tx_safe_start id key repo control : tx_safe (txStartBatch id key repo control).
Proof.
  unfold txStartBatch. cbv zeta. apply tx_safe_bind; [|intros _; tx_safe].
  intros db u db' ->%tx_write_Ok j. simpl. rewrite lookup_fmap.
  destruct (db_tasks db !! j) as [t|]; [|done]. simpl. destruct_cond.
  apply rtc_once. right. by exists id.
Qed.
#[export] Hint Resolve tx_safe_plan tx_safe_complete tx_safe_start : tx_safe.

(** ** Cancellation *)

(** Every outcome of [CancelTask] on a saved, retained task.  A task that
    has an authorised commit, or is publishing or published, is left alone and
    the answer is [false]; any other one becomes cancelled, keeps its evidence,
    loses its pull-request reservation, and the answer is [true]. *)
Theorem CancelTask_outcome now id t db :
  db_tasks db !! id = Some t -> Task_ID t = id -> Archived t || Discarded t = false ->
  CancelTask now id db =
  if isSome (Task_OutputCommit t) || bool_decide (Task_Status t = StatusPublishing)
     || bool_decide (Task_Status t = StatusPublished)
  then (Ok false, db)
  else (Ok true, put_task (cancelled_next now t) db).
Proof.
  intros L I W. unfold CancelTask, transaction, tx_bind at 1, tx_read at 1. rewrite L.
  destruct (isSome (Task_OutputCommit t) || bool_decide (Task_Status t = StatusPublishing)
     || bool_decide (Task_Status t = StatusPublished)) eqn:D; [done|].
  assert (Archived t || Discarded t <> true) as Wn by congruence. clear W. bool_hyps.
  assert (ValidateTaskChange t (cancelled_next now t) TaskCancel (marker id db) = Ok tt) as V.
  { apply accepted_ValidateTaskChange. constructor.
    - unfold same_identity. by rewrite !bool_decide_eq_true_2, !Equal_refl by done.
    - done.
    - intros _ _. split_and!; discriminate.
    - done.
    - unfold transition_valid, isNone, same_status.
      by rewrite H, (bool_decide_eq_false_2 _ H0), (bool_decide_eq_false_2 _ H1).
    - done.
    - destruct t. vm_compute. reflexivity. }
  assert (txCommitTask t (cancelled_next now t) TaskCancel db
          = Ok (cancelled_next now t, put_task (cancelled_next now t) db)) as C.
  { rewrite txCommitTask_accepts by (by rewrite ?I). by rewrite I, V. }
  unfold tx_bind. by rewrite C.
Qed.

Section coupled.
  Context (redact_text : string -> string) (policy_text : option AttemptPolicy -> string).

(** ** Retry and publication *)

(** A retry and the clearing of the operator's cancellation marker are one
    write: after a successful [RetryTask] the task is queued with one more
    attempt, its output commit and evidence are kept, and no marker is left
    that could stop the new attempt; after a failed one the marker and
    everything else are as before. *)
Theorem RetryTask_outcome s now expected t db r db' :
  RetryTask redact_text policy_text s now expected t db = (r, db') ->
  match r with
  | Err _ => db' = db
  | Ok _ =>
      db_tasks db !! Task_ID t = Some expected /\ db_tasks db' = <[Task_ID t := t]> (db_tasks db) /\
      CancelMarked (Task_ID t) db' = false /\
      Task_Status t = StatusQueued /\ Retryable (Task_Status expected) = true /\
      Task_Attempts t = u64_add (Task_Attempts expected) 1 /\
      Task_Reviews t = Task_Reviews expected /\ Task_Verification t = Task_Verification expected /\
      Task_OutputCommit t = Task_OutputCommit expected
  end.
Proof.
  intros C. destruct r as [[]|e]; [|by apply transaction_Err in C].
  apply transaction_Ok in C. unfold txRepositoryEvent in C.
  apply tx_bind_Ok in C as (? & db1 & W%tx_write_Ok & C). subst db1.
  apply tx_bind_Ok in C as (saved & db2 & K%txCommitTask_Ok & C). tx_open.
  destruct K as [(current & L & V & Cs) I ->].
  destruct Cs as [[-> ->]|(_ & _ & Abs & _)]; [|discriminate].
  apply ValidateTaskChange_accepted in V as A.
  pose proof (accepted_transition _ _ _ _ A) as T. pose proof (accepted_fields _ _ _ _ A) as F.
  simpl in T. bool_hyps. apply same_status_true in H1.
  simpl in L. rewrite <- I in L.
  assert (CancelMarked (Task_ID t) (put_task t (put_cancel (Task_ID t) None db)) = false) as M.
  { unfold CancelMarked, marker. rewrite put_task_cancel. simpl. by rewrite lookup_insert_eq. }
  split_and!; try done.
  - change (db_tasks (put_task t (put_cancel (Task_ID t) None db)) = <[Task_ID t := t]> (db_tasks db)).
    by rewrite put_task_tasks.
  - by rewrite <- (f_equal Task_Reviews F).
  - by rewrite <- (f_equal Task_Verification F).
  - by rewrite <- (f_equal Task_OutputCommit F).
Qed.

(** Publication is one write of three coupled records.  When
    [CompletePublication] succeeds the saved task was at its publishing
    checkpoint with the same authorised commit and is now published, the pull
    request's record carries the given merge state for that head, and no
    attempt in flight was overwritten; when it fails nothing changed. *)
Theorem CompletePublication_atomic `{Unicode} s now expected t p merge db r db' :
  distinct_rows db ->
  CompletePublication redact_text s now expected t p merge db = (r, db') ->
  match r with
  | Err _ => db' = db
  | Ok u =>
      let repository := Config_GitHubRepo (Task_Config t) in
      Task_ID u = Task_ID t /\ db_tasks db' !! Task_ID t = Some u /\
      Task_Status u = StatusPublished /\
      (exists stored commit, db_tasks db !! Task_ID t = Some stored /\
         Task_Status stored = StatusPublishing /\
         Task_OutputCommit stored = Some commit /\ Task_OutputCommit u = Some commit) /\
      merge_unresolved (snd <$> prObservationAt repository (PullRequest_Number p) db) = false /\
      exists id o, row_get id (db_prs db') = Some o /\
        PRObservation_PR o = p /\ PRObservation_AutoMerge o = merge /\
        PRObservation_DeliveredHead o = Some (PullRequest_Head p)
  end.
Proof.
  intros ND C. destruct r as [u|e]; [|by apply transaction_Err in C].
  apply transaction_Ok in C. unfold complete_body in C.
  apply tx_bind_Ok in C as (found & db1 & R & C). apply tx_read_Ok in R as [-> ->].
  destruct (db_tasks db !! Task_ID t) as [stored|] eqn:L; [|discriminate].
  apply require_Ok in C as [G C]. bool_hyps.
  apply tx_bind_Ok in C as (previous & db1 & R & C). apply tx_read_Ok in R as [-> ->].
  apply require_Ok in C as [U C]. bool_hyps.
  set (t' := match Task_AutoMergeSnapshot t with None => _ | Some _ => t end) in C.
  assert (Task_ID t' = Task_ID t /\ Task_OutputCommit t' = Task_OutputCommit t) as [IT OT].
  { unfold t'. by destruct (Task_AutoMergeSnapshot t). }
  clearbody t'.
  apply tx_bind_Ok in C as ([] & db2 & S & C).
  apply tx_bind_Ok in C as (saved & db3 & K%txCommitTask_Ok & C).
  unfold txRepositoryEvent in C. tx_open.
  destruct K as [(current & L2 & V & Cs) I Edb].
  destruct Cs as [[-> ->]|(_ & _ & Abs & _)]; [|discriminate].
  pose proof (accepted_transition _ _ _ _ (ValidateTaskChange_accepted _ _ _ _ V)) as T.
  simpl in T. status_cases.
  destruct (Task_OutputCommit stored) as [c|] eqn:O; [|done].
  split_and!; try done.
  - simpl. subst db3. rewrite put_task_tasks, IT. apply lookup_insert_eq.
  - exists stored, c. split_and!; try done. congruence.
  - eexists _, _. split; [simpl; apply row_get_put|done].
Qed.
End coupled.

(** ** Requests *)

(** The queue of a repository's pending requests never outgrows its limit,
    and a refused request changes nothing. *)
Theorem CreateRequest_bounded r limit db res db' :
  CreateRequest r limit db = (res, db') ->
  match res with
  | Ok _ => N.of_nat (size (pending_requests (OperatorRequest_Repository r) db')) <= limit /\
            db_requests db' !! OperatorRequest_ID r = Some r
  | Err e => e = ErrRequestLimit /\ db' = db /\
             limit <= N.of_nat (size (pending_requests (OperatorRequest_Repository r) db))
  end.
Proof.
  unfold CreateRequest, transaction, tx_bind, tx_read.
  destruct (limit <=? _) eqn:E; simpl; intros C; injection C as <- <-.
  - apply N.leb_le in E. done.
  - apply N.leb_gt in E. split; [|apply lookup_insert_eq].
    unfold pending_requests in *. simpl. destruct (decide (pending_request (OperatorRequest_Repository r) r = true)) as [P|P].
    + rewrite map_filter_insert_True, map_size_insert by done. case_match; unfold id; lia.
    + rewrite map_filter_insert_False, map_filter_delete by done.
      pose proof (map_size_delete (OperatorRequest_ID r)
        (filter (fun x => pending_request (OperatorRequest_Repository r) x.2 = true) (db_requests db))) as D.
      rewrite D. case_match; unfold id; lia.
Qed.

(** ** Witnesses *)

Definition task_db (t : Task) : Db := empty_db <| db_tasks := {[Task_ID t := t]} |>.
Definition failed_task (id : string) : Task := (sample_task id) <| Task_Status := StatusFailed |>.
Definition retried_task (id : string) : Task := (sample_task id) <| Task_Attempts := 1 |>.
Definition sample_request (id : string) : OperatorRequest :=
  mkOperatorRequest id "acme/widgets" "Title" "Description" "main" RequestPending "now" "now" None None.

Lemma CommitTask_optimistic_witness :
  exists current, db_tasks (task_db (executing_task "t")) !! "t" = Some current /\
    db_tasks (put_task (reviewing_task "t") (task_db (executing_task "t")))
      = <["t" := reviewing_task "t"]> (db_tasks (task_db (executing_task "t"))) /\
    ValidateTaskChange current (reviewing_task "t") TaskCheckpoint
      (CancelMarked "t" (task_db (executing_task "t"))) = Ok tt /\
    ((current = executing_task "t" /\ reviewing_task "t" = reviewing_task "t") \/
     (CancelMarked "t" (task_db (executing_task "t")) = true /\ Task_OutputCommit current = None /\
      TaskCheckpoint = TaskSettlement /\
      MergeCancelledTask (executing_task "t") current (reviewing_task "t") = Ok (reviewing_task "t"))).
Proof.
  apply (CommitTask_optimistic (executing_task "t") (reviewing_task "t") TaskCheckpoint
           (task_db (executing_task "t")) (Ok (reviewing_task "t"))).
  vm_compute. reflexivity.
Defined.

Lemma CancelTask_outcome_witness :
  CancelTask "now" "t" (task_db (executing_task "t"))
  = (Ok true, put_task (cancelled_next "now" (executing_task "t")) (task_db (executing_task "t"))).
Proof.
  apply (CancelTask_outcome "now" "t" (executing_task "t")).
  - vm_compute. reflexivity.
  - reflexivity.
  - reflexivity.
Defined.

Definition retry_outcome : outcome unit :=
  RetryTask (fun m => m) (fun _ => "") sample_store "now" (failed_task "t") (retried_task "t")
    (task_db (failed_task "t")).
Lemma RetryTask_outcome_witness :
  CancelMarked "t" retry_outcome.2 = false /\ Task_Status (retried_task "t") = StatusQueued.
Proof.
  destruct (RetryTask_outcome (fun m => m) (fun _ => "") sample_store "now" (failed_task "t")
    (retried_task "t") (task_db (failed_task "t")) (Ok tt) retry_outcome.2) as (_ & _ & M & S & _).
  - vm_compute. reflexivity.
  - split; [exact M|exact S].
Defined.

Definition publication_outcome : outcome Task :=
  CompletePublication (fun m => m) sample_store "now" (publishing_task "t" "c") (published_task "t" "c")
    (sample_pr "open" "c") None (task_db (publishing_task "t" "c")).
Lemma CompletePublication_atomic_witness :
  db_tasks publication_outcome.2 !! "t" = Some (published_task "t" "c").
Proof.
  destruct (CompletePublication_atomic (fun m => m) sample_store "now" (publishing_task "t" "c")
    (published_task "t" "c") (sample_pr "open" "c") None (task_db (publishing_task "t" "c"))
    (Ok (published_task "t" "c")) publication_outcome.2) as (_ & L & _).
  - apply NoDup_nil_2.
  - vm_compute. reflexivity.
  - exact L.
Defined.

Lemma CreateRequest_bounded_witness :
  N.of_nat (size (pending_requests "acme/widgets"
    (put_request (sample_request "r") empty_db))) <= 1 /\
  db_requests (put_request (sample_request "r") empty_db) !! "r" = Some (sample_request "r").
Proof.
  apply (CreateRequest_bounded (sample_request "r") 1 empty_db (Ok tt)).
  vm_compute. reflexivity.
Defined.
