(* ===== verification/MergeClaims.v ===== *)
(** * One merge attempt at a time ([internal/store/automerge.go])

    What the claim of an attempt is worth over time: through every operation of
    the store that writes the records of pull requests, the attempt stays
    claimed until it is settled. *)
From S2P Require Import Prelude GoStrings WireJson Enums Types GoErrors Config GoTime Model Samples Lifecycle Store StoreMerges StoreTasks.
Local Open Scope string_scope.
Local Open Scope list_scope.
Local Open Scope N_scope.

(** ** Rows *)

Lemma row_get_elem {A} id (v : A) rows : NoDup rows.*1 -> (id, v) ∈ rows -> row_get id rows = Some v.
Proof.
  induction rows as [|[k w] t IH]; intros ND E; [by apply elem_of_nil in E|]. apply NoDup_cons in ND as [NI ND].
  simpl. apply elem_of_cons in E as [[= -> ->]|E]; [by rewrite bool_decide_eq_true_2|].
  rewrite bool_decide_eq_false_2; [by apply IH|]. intros ->. apply NI, list_elem_of_fmap. by exists (id, v).
Qed.
Lemma bfilter_row_put_other {A} (P : string * A -> bool) id w rows :
  P (id, w) = false -> (forall v, row_get id rows = Some v -> P (id, v) = false) ->
  List.filter P (row_put id w rows) = List.filter P rows.
Proof.
  intros Pw. induction rows as [|[k x] t IH]; intros O; simpl; [by rewrite Pw|]. simpl in O.
  case_bool_decide as E; subst; simpl; [by rewrite Pw, (O x)|]. rewrite IH; [done|exact O].
Qed.

(** A row before the last stays before it. *)
Lemma last_filter_put_older {A} (P : string * A -> bool) k v w id o rows :
  row_get k rows = Some v -> k <> id -> P (k, v) = true -> P (k, w) = true ->
  last (List.filter P rows) = Some (id, o) -> last (List.filter P (row_put k w rows)) = Some (id, o).
Proof.
  intros G N Pv Pw. induction rows as [|[j x] t IH]; [done|]. simpl in *. case_bool_decide as E; subst; simpl.
  - simplify_eq. rewrite Pv, Pw, !last_cons. destruct (last (List.filter P t)); congruence.
  - assert (exists u, last (List.filter P t) = Some u) as [u L].
    { clear -G Pv. induction t as [|[i y] t IH]; [done|]. simpl in *. case_bool_decide as E; subst; simplify_eq.
      - rewrite Pv, last_cons. destruct (last _); eauto.
      - destruct (IH G) as [u L]. destruct (P (i, y)); [rewrite last_cons, L|]; eauto. }
    assert (last (List.filter P t) = Some (id, o) -> last (List.filter P (row_put k w t)) = Some (id, o)) as IH' by auto.
    destruct (P (j, x)); [rewrite !last_cons, L|exact IH']. intros Q. injection Q as ->.
    by rewrite (IH' L).
Qed.

Section claims.
Context `{Unicode} (redact_text : string -> string).
(** The pull request that is claimed. *)
Context (repository : string) (number : N).

Definition same_pr (repository' : string) (number' : N) : bool :=
  EqualASCII repository' repository && (number' =? number).

(** The record of the pull request holds the attempt, not settled yet. *)
Definition held (attempt : option string) (db : Db) : Prop :=
  distinct_rows db /\
  exists id o m, prObservationAt repository number db = Some (id, o) /\ PRObservation_AutoMerge o = Some m /\
    merge_in_flight m = true /\ AutoMergeState_AttemptID m = attempt.

(** A pull request without a record gets a key that is not in use: a key names
    the repository and the number. *)
Definition key_free (repository' : string) (number' : N) (db : Db) : Prop :=
  prObservationAt repository' number' db = None ->
  row_get (pr_record_id repository' number') (db_prs db) = None.

(** One operation of the store, other than the settlement of the attempt,
    whatever it returns.  Only these five write the records of pull requests. *)
Inductive merge_step (attempt : option string) (db db' : Db) : Prop :=
| ms_other : db_prs db' = db_prs db -> merge_step attempt db db'
| ms_observe now repository' p delivered :
    key_free repository' (PullRequest_Number p) db ->
    RecordPRObservation now repository' p delivered db = db' -> merge_step attempt db db'
| ms_publish s now expected t p merge r :
    key_free (Config_GitHubRepo (Task_Config t)) (PullRequest_Number p) db ->
    CompletePublication redact_text s now expected t p merge db = (r, db') -> merge_step attempt db db'
| ms_archive now expected t r : ArchiveTask now expected t db = (r, db') -> merge_step attempt db db'
| ms_claim s now repository' number' intent allow r :
    ClaimMerge redact_text s now repository' number' intent allow db = (r, db') -> merge_step attempt db db'
| ms_settle now repository' number' expected status reason source commit revoke r :
    (same_pr repository' number' = true -> AutoMergeState_AttemptID expected <> attempt) ->
    SettleMerge now repository' number' expected status reason source commit revoke db = (r, db') ->
    merge_step attempt db db'.
Definition merge_run (attempt : option string) : Db -> Db -> Prop := rtc (merge_step attempt).

(** ** The same pull request, and another one *)

Lemma same_pr_observes repository' number' row :
  same_pr repository' number' = true -> observes repository' number' row = observes repository number row.
Proof.
  unfold same_pr, observes. intros [E ->%N.eqb_eq]%andb_true_iff. f_equal.
  apply eq_true_iff_eq. rewrite !EqualASCII_spec in *. by rewrite E.
Qed.
Lemma same_pr_At repository' number' db :
  same_pr repository' number' = true -> prObservationAt repository' number' db = prObservationAt repository number db.
Proof.
  intros E. unfold prObservationAt. f_equal. apply List.filter_ext. intros row. by apply same_pr_observes.
Qed.
Lemma other_pr_observes repository' number' row :
  same_pr repository' number' = false -> observes repository' number' row = true ->
  observes repository number row = false.
Proof.
  intros D O. apply not_true_iff_false. intros O'. apply not_true_iff_false in D. apply D.
  unfold same_pr, observes in *. bool_hyps. apply andb_true_iff. split; [|apply N.eqb_eq; lia].
  eapply EqualASCII_trans; [rewrite EqualASCII_sym|]; eassumption.
Qed.
Lemma fresh_pr_observes repository' number' id o :
  same_pr repository' number' = false -> EqualASCII (PRObservation_Repository o) repository' = true ->
  PullRequest_Number (PRObservation_PR o) = number' -> observes repository number (id, o) = false.
Proof. intros D R <-. apply (other_pr_observes repository' _ _ D). unfold observes. simpl. by rewrite R, N.eqb_refl. Qed.

Lemma held_prs attempt db db' : db_prs db' = db_prs db -> held attempt db -> held attempt db'.
Proof. unfold held, distinct_rows, prObservationAt. by intros ->. Qed.
Lemma held_put attempt db id o o' m :
  held attempt db -> prObservationAt repository number db = Some (id, o) ->
  observes repository number (id, o') = true -> PRObservation_AutoMerge o' = Some m ->
  merge_in_flight m = true -> AutoMergeState_AttemptID m = attempt -> held attempt (put_pr id o' db).
Proof.
  intros [ND _] L O M F A. split; [by apply put_pr_distinct|]. exists id, o', m. split_and!; try done.
  by eapply prObservationAt_put.
Qed.
Lemma held_put_other attempt db id o' :
  held attempt db -> observes repository number (id, o') = false ->
  (forall v, row_get id (db_prs db) = Some v -> observes repository number (id, v) = false) ->
  held attempt (put_pr id o' db).
Proof.
  intros [ND (k & o & m & L & R)] N O. split; [by apply put_pr_distinct|]. exists k, o, m. split; [|done].
  unfold prObservationAt, put_pr. simpl. by rewrite bfilter_row_put_other.
Qed.
(** The record of another pull request is written under its own key. *)
Lemma other_row attempt db repository' number' id o :
  held attempt db -> same_pr repository' number' = false -> prObservationAt repository' number' db = Some (id, o) ->
  forall v, row_get id (db_prs db) = Some v -> observes repository number (id, v) = false.
Proof.
  intros [ND _] D L v G. pose proof (prObservationAt_observes _ _ _ _ _ L) as O.
  apply (other_pr_observes repository' number'); [done|]. unfold prObservationAt in L.
  apply last_Some_elem_of, elem_of_bfilter in L as [_ E]. rewrite (row_get_elem id o) in G by done. by simplify_eq.
Qed.
Lemma key_row attempt db repository' number' :
  held attempt db -> same_pr repository' number' = false -> key_free repository' number' db ->
  forall v, row_get (match prObservationAt repository' number' db with
                     | Some (id, _) => id | None => pr_record_id repository' number' end) (db_prs db) = Some v ->
    observes repository number (match prObservationAt repository' number' db with
                     | Some (id, _) => id | None => pr_record_id repository' number' end, v) = false.
Proof.
  intros Hd D K v. destruct (prObservationAt repository' number' db) as [[id o]|] eqn:L; [by eapply other_row|].
  by rewrite (K L).
Qed.

(** ** Each operation *)

Lemma held_observe attempt now repository' p delivered db :
  key_free repository' (PullRequest_Number p) db -> held attempt db ->
  held attempt (RecordPRObservation now repository' p delivered db).
Proof.
  intros K Hd. unfold RecordPRObservation. cbv zeta.
  match goal with |- context [put_pr _ ?rec db] => set (o' := rec) end.
  destruct (same_pr repository' (PullRequest_Number p)) eqn:D.
  - pose proof Hd as (ND & id & o & m & L & M & F & A). unfold o'. clear o'. rewrite (same_pr_At _ _ _ D), L.
    destruct (preserve_state_sound now m p) as (_ & A' & _ & _ & F' & _). destruct (F' F) as [S' _].
    apply (held_put attempt db id o _ (preserve_state now m p)); try done.
    + simpl. by rewrite M.
    + unfold merge_in_flight, is_merge in *. by rewrite S'.
    + congruence.
  - apply held_put_other; [done| |by apply (key_row attempt)].
    apply (fresh_pr_observes repository' (PullRequest_Number p)); [done|apply EqualASCII_refl|done].
Qed.

(** An operation that leaves the records of pull requests alone. *)
Definition prs_kept {A} (m : Tx A) : Prop := forall db a db', m db = Ok (a, db') -> db_prs db' = db_prs db.
Lemma prs_kept_commit expected t change : prs_kept (txCommitTask expected t change).
Proof. intros db saved db' [_ _ ->]%txCommitTask_Ok. apply put_task_prs. Qed.
Lemma prs_kept_snapshot t repository' number' previous : prs_kept (snapshot_previous t repository' number' previous).
Proof.
  intros db [] db' C. unfold snapshot_previous in C. destruct previous as [o|]; [|by apply tx_ret_Ok in C as [_ ->]].
  destruct (PRObservation_AutoMerge o) as [m|]; [|by apply tx_ret_Ok in C as [_ ->]].
  destruct (bool_decide _); [by apply tx_ret_Ok in C as [_ ->]|].
  apply tx_bind_Ok in C as (found & db1 & R & C). apply tx_read_Ok in R as [-> ->].
  destruct (db_tasks db !! _) as [old|]; [|by apply tx_ret_Ok in C as [_ ->]].
  destruct (delivered_by _ _ _ _); [|by apply tx_ret_Ok in C as [_ ->]].
  apply tx_bind_Ok in C as (saved & db1 & K%prs_kept_commit & C). by apply tx_ret_Ok in C as [_ ->].
Qed.

Lemma held_publish attempt s now expected t p merge db r db' :
  key_free (Config_GitHubRepo (Task_Config t)) (PullRequest_Number p) db -> held attempt db ->
  CompletePublication redact_text s now expected t p merge db = (r, db') -> held attempt db'.
Proof.
  intros K Hd C. destruct r as [u|e]; [|by apply transaction_Err in C as ->]. apply transaction_Ok in C.
  unfold complete_body in C. set (repository' := Config_GitHubRepo (Task_Config t)) in *.
  apply tx_bind_Ok in C as (found & db1 & R & C). apply tx_read_Ok in R as [-> ->].
  destruct (db_tasks db !! Task_ID t) as [stored|]; [|discriminate]. apply require_Ok in C as [_ C].
  apply tx_bind_Ok in C as (previous & db1 & R & C). apply tx_read_Ok in R as [-> ->].
  apply require_Ok in C as [U C]. apply tx_bind_Ok in C as ([] & db2 & P2%prs_kept_snapshot & C).
  apply tx_bind_Ok in C as (saved & db3 & P3%prs_kept_commit & C).
  apply tx_bind_Ok in C as ([] & db4 & W%tx_write_Ok & C). subst db4. unfold txRepositoryEvent in C. tx_open.
  assert (same_pr repository' (PullRequest_Number p) = false) as D.
  { apply not_true_iff_false. intros D. rewrite (same_pr_At _ _ _ D) in U.
    destruct Hd as (_ & id & o & m & L & M & F & _). rewrite L in U. cbn in U. by rewrite M, F in U. }
  apply (held_prs _ (put_pr (match prObservationAt repository' (PullRequest_Number p) db with
    | Some (id, _) => id | None => pr_record_id repository' (PullRequest_Number p) end) {|
      PRObservation_Repository := repository'; PRObservation_PR := p; PRObservation_ObservedAt := now;
      PRObservation_DeliveredHead := Some (PullRequest_Head p); PRObservation_ExternalHeadMovement := false;
      PRObservation_AutoMerge := merge |} db)).
  - unfold put_pr. simpl. by rewrite P3, P2.
  - apply held_put_other; [done| |by apply (key_row attempt)].
    by apply (fresh_pr_observes repository' (PullRequest_Number p)); [|apply EqualASCII_refl|].
Qed.

Lemma revoke_archived_in_flight now reason m :
  merge_in_flight m = true ->
  merge_in_flight (revoke_archived now reason m) = true
  /\ AutoMergeState_AttemptID (revoke_archived now reason m) = AutoMergeState_AttemptID m.
Proof.
  unfold revoke_archived, merge_in_flight, merge_terminal, is_merge. intros F.
  destruct (AutoMergeState_Status m) eqn:S; try discriminate;
    cbn; rewrite ?S; eval_decides; cbn; rewrite S; by eval_decides.
Qed.
Lemma held_revoke attempt now reason l : forall db,
  NoDup l.*1 -> (forall row, row ∈ l -> row_get row.1 (db_prs db) = Some row.2) -> held attempt db ->
  held attempt (foldl (fun db row => put_pr row.1 (revoke_observation now reason row.2) db) db l).
Proof.
  induction l as [|[k o'] l IH]; intros db ND G Hd; [done|]. apply NoDup_cons in ND as [NI ND].
  pose proof (G (k, o') ltac:(by left)) as Gk. simpl in Gk. simpl. apply IH; [done| |].
  - intros row E. unfold put_pr. simpl. rewrite row_get_put_ne; [apply G; by right|].
    intros ->. apply NI, list_elem_of_fmap. by exists row.
  - pose proof Hd as (ND' & id & o & m & L & M & F & A).
    assert (observes repository number (k, revoke_observation now reason o') = observes repository number (k, o')) as Ob
      by done.
    destruct (observes repository number (k, o')) eqn:O.
    2: { apply held_put_other; [done|done|]. intros v Gv. by simplify_eq. }
    destruct (decide (k = id)) as [->|Nk].
    + assert (o' = o) as ->.
      { unfold prObservationAt in L. apply last_Some_elem_of, elem_of_bfilter in L as [_ E].
        rewrite (row_get_elem id o) in Gk by done. by simplify_eq. }
      destruct (revoke_archived_in_flight now reason m F) as [F' A'].
      apply (held_put attempt db id o _ (revoke_archived now reason m)); try done; [|congruence].
      simpl. by rewrite M.
    + split; [by apply put_pr_distinct|]. exists id, o, m. split; [|done].
      by apply (last_filter_put_older _ _ o').
Qed.
Lemma held_archive attempt now expected t db r db' :
  held attempt db -> ArchiveTask now expected t db = (r, db') -> held attempt db'.
Proof.
  intros Hd C. destruct r as [[]|e]; [|by apply transaction_Err in C as ->]. apply transaction_Ok in C.
  apply tx_bind_Ok in C as (saved & db1 & K%prs_kept_commit & C). apply (held_prs _ _ _ K) in Hd.
  apply tx_write_Ok in C as ->. pose proof (proj1 Hd) as ND. apply held_revoke; [by apply filter_NoDup_keys| |done].
  intros [k o] [_ E]%elem_of_bfilter. by apply row_get_elem.
Qed.

Lemma held_claim attempt s now repository' number' intent allow db r db' :
  held attempt db -> ClaimMerge redact_text s now repository' number' intent allow db = (r, db') -> held attempt db'.
Proof.
  intros Hd C. destruct (same_pr repository' number') eqn:D.
  { pose proof Hd as (_ & id & o & m & L & M & F & _). rewrite <- (same_pr_At _ _ _ D) in L.
    rewrite (ClaimMerge_taken _ _ _ _ _ _ _ _ _ _ _ L M F) in C. by simplify_eq. }
  destruct r as [[]|e].
  2,3: unfold ClaimMerge in C; destruct (negb _); [by simplify_eq|]; by apply conditional_unchanged in C as ->.
  apply ClaimMerge_Ok in C as (id & o & current & L & _ & _ & _ & _ & _ & P & _); [|apply Hd].
  apply (held_prs _ _ _ P), held_put_other; [done| |by eapply other_row].
  apply (other_pr_observes repository' number'); [done|]. exact (prObservationAt_observes _ _ _ _ _ L).
Qed.

Lemma settle_body_Ok now repository' number' expected status reason source commit revoke db db' :
  settle_body now repository' number' expected status reason source commit revoke db = Ok (tt, db') ->
  exists id o m o', prObservationAt repository' number' db = Some (id, o) /\ PRObservation_AutoMerge o = Some m /\
    AutoMergeState_AttemptID expected = AutoMergeState_AttemptID m /\ db' = put_pr id o' db /\
    PRObservation_Repository o' = PRObservation_Repository o /\
    PullRequest_Number (PRObservation_PR o') = PullRequest_Number (PRObservation_PR o).
Proof.
  unfold settle_body. intros C. apply tx_bind_Ok in C as ([[id o] m] & db1 & O & C).
  apply observed_merge_Ok in O as (-> & L & M). apply require_Ok in C as [_ C]. apply require_Ok in C as [A C].
  unfold opt_eq in A. apply bool_decide_eq_true in A. exists id, o, m. destruct (settleable m).
  - apply tx_write_Ok in C as ->. eexists. split_and!; try done; by destruct (_ || _).
  - apply require_Ok in C as [_ C]. apply tx_bind_Ok in C as (m' & db1 & R & C). apply tx_lift_Ok in R as [_ ->].
    apply tx_write_Ok in C as ->. by eexists.
Qed.
Lemma held_settle attempt now repository' number' expected status reason source commit revoke db r db' :
  (same_pr repository' number' = true -> AutoMergeState_AttemptID expected <> attempt) -> held attempt db ->
  SettleMerge now repository' number' expected status reason source commit revoke db = (r, db') -> held attempt db'.
Proof.
  intros N Hd C. destruct r as [[]|e]; try (by apply conditional_unchanged in C as ->).
  apply conditional_true, settle_body_Ok in C as (id & o & m & o' & L & M & A & -> & R & Nb).
  destruct (same_pr repository' number') eqn:D.
  { exfalso. apply N; [done|]. rewrite (same_pr_At _ _ _ D) in L. destruct Hd as (_ & k & p & m' & L' & M' & _ & A').
    rewrite L in L'. injection L' as -> ->. congruence. }
  apply held_put_other; [done| |by eapply other_row]. apply (other_pr_observes repository' number'); [done|].
  pose proof (prObservationAt_observes _ _ _ _ _ L) as O. unfold observes in *. simpl in *. by rewrite R, Nb.
Qed.

Lemma merge_step_held attempt db db' : held attempt db -> merge_step attempt db db' -> held attempt db'.
Proof.
  intros Hd []; subst; eauto using held_prs, held_observe, held_publish, held_archive, held_claim, held_settle.
Qed.

(** C27: at most one attempt merges a delivery.  A claim that succeeds found the
    delivery authorised, unclaimed and identical to the intent, and leaves the
    record of the pull request holding exactly the intent.  From then on,
    whatever the store does in whatever order (observations of the pull
    request, even of a moved head or a closed one; publications; archives;
    claims and settlements of this and other pull requests), every claim on
    that pull request, by any intent and in any spelling of the repository, is
    refused and changes nothing, until that very attempt is settled. *)
Theorem ClaimMerge_exclusive s now intent allow db db1 db2 :
  distinct_rows db ->
  ClaimMerge redact_text s now repository number intent allow db = (Ok true, db1) ->
  (exists id o current,
     prObservationAt repository number db = Some (id, o) /\
     PRObservation_AutoMerge o = Some current /\ AutoMergeState_Authorized current = true /\
     merge_in_flight current = false /\ same_intent current intent = true /\
     prObservationAt repository number db1 = Some (id, o <| PRObservation_AutoMerge := Some intent |>)) /\
  (merge_run (AutoMergeState_AttemptID intent) db1 db2 ->
   forall s' now' repository' intent' allow', EqualASCII repository' repository = true ->
   ClaimMerge redact_text s' now' repository' number intent' allow' db2 = (Ok false, db2)).
Proof.
  intros ND C. destruct (ClaimMerge_Ok _ _ _ _ _ _ _ _ _ ND C) as (id & o & current & L & M & A & F & S & Fi & P & L').
  split; [by exists id, o, current|]. intros R s' now' repository' intent' allow' E.
  assert (held (AutoMergeState_AttemptID intent) db1) as Hd.
  { split; [unfold distinct_rows; rewrite P; by apply put_pr_distinct|]. by eexists _, _, intent. }
  assert (held (AutoMergeState_AttemptID intent) db2) as (_ & k & p & m & L2 & M2 & F2 & _).
  { clear -R Hd. induction R; eauto using merge_step_held. }
  apply (ClaimMerge_taken _ _ _ _ _ _ _ _ k p m); [|done..]. rewrite same_pr_At; [done|].
  unfold same_pr. by rewrite E, N.eqb_refl.
Qed.
End claims.

(** ** Witness: the claimed pull request is observed with a moved head, then
    another claim is tried. *)

Definition claimed_db : Db :=
  (ClaimMerge (fun m => m) sample_store "now" "acme/widgets" 7 (sample_merge AutoMergeMerging) false merge_db).2.
Definition moved_db : Db := RecordPRObservation "later" "acme/widgets" (sample_pr "open" "d") false claimed_db.
Lemma ClaimMerge_exclusive_witness :
  ClaimMerge (fun m => m) sample_store "later" "Acme/Widgets" 7 (sample_merge AutoMergeMerging) true moved_db
  = (Ok false, moved_db).
Proof.
  refine (proj2 (ClaimMerge_exclusive (fun m => m) "acme/widgets" 7 sample_store "now" (sample_merge AutoMergeMerging)
    false merge_db claimed_db moved_db _ _) _ sample_store "later" "Acme/Widgets" (sample_merge AutoMergeMerging) true _).
  - apply merge_db_distinct.
  - vm_compute. reflexivity.
  - apply rtc_once. apply (ms_observe _ _ _ _ _ _ "later" "acme/widgets" (sample_pr "open" "d") false); [|reflexivity].
    intros E. vm_compute in E. discriminate.
  - vm_compute. reflexivity.
Defined.
