(* ===== verification/StoreBudget.v ===== *)
(** * Session budgets ([internal/store/store.go], [queries.go])

    The daily session counter of each repository, the instance-wide ceiling and
    the planning allowance a cycle commits when it begins. *)
From S2P Require Import Prelude GoStrings WireJson Enums Types GoErrors Config GoTime Model Samples Lifecycle Store StoreMerges StoreTasks.
Local Open Scope string_scope.
Local Open Scope list_scope.
Local Open Scope N_scope.

Definition StorageLimitError (measuredBytes : N) : error :=
  Errorf "Workspace storage limit reached (%d bytes). Resolve retained tasks or increase the limit: %w"
    [VNum measuredBytes; VWrap (Reason BlockedStorageLimit)].
(** What the driver answers when an inserted primary key exists. *)
Definition constraint_error (table : string) : error := New ("UNIQUE constraint failed: " +:+ table).

Definition instanceSessionsOn (day : string) (db : Db) : N :=
  map_sum (fun k sessions => if bool_decide (k.2 = day) then sessions else 0) (db_usage db).
Definition planningCommitments (ownCycle : string) (db : Db) : N :=
  map_sum (fun cycle sessions => if bool_decide (cycle = ownCycle) then 0 else sessions) (db_planning db).

Definition max_int64 : N := 9223372036854775807.

Section budget.
  Context `{Unicode}.

Definition usageRepo (s : Store) (cfg : Config) : string :=
  if negb (bool_decide (Store_repo s = "")) then ToLower (Store_repo s)
  else ToLower (Config_GitHubRepo cfg).
Definition sessionsOn (repository day : string) (db : Db) : N :=
  if bool_decide (repository = "") then instanceSessionsOn day db
  else default 0 (db_usage db !! (ToLower repository, day)).

(** ** Reserving one session *)

Definition session_ceiling : error :=
  Errorf "Instance-wide daily session ceiling exhausted; increase the configured ceiling or wait until UTC midnight: %w"
    [VWrap (Reason BlockedBudgetExhausted)].
Definition session_budget : error :=
  Errorf "Daily session budget exhausted; increase the configured limit or wait until UTC midnight: %w"
    [VWrap (Reason BlockedBudgetExhausted)].

(** The instance-wide check: the ceiling leaves room beyond what other cycles
    have committed. *)
Definition ceiling_allows (own day : string) (db : Db) : bool :=
  let max := InstanceSettings_MaxSessionsPerDay (storedInstance db) in
  if 0 <? max then
    let total := instanceSessionsOn day db in
    negb ((max <=? total) || (max - total <=? planningCommitments own db))
  else true.

(** The counter's conditional upsert; [None] when no row changed. *)
Definition bump_usage (repository day : string) (limit : N) (db : Db) : option Db :=
  match db_usage db !! (repository, day) with
  | None => Some (db <| db_usage := <[(repository, day) := 1]> (db_usage db) |>)
  | Some n => if n <? limit
              then Some (db <| db_usage := <[(repository, day) := n + 1]> (db_usage db) |>)
              else None
  end.

(** [UPDATE planning_reservations SET sessions=max(sessions-1,0)]. *)
Definition spend_planning (cycle : string) (db : Db) : Db :=
  db <| db_planning := alter (fun n => n - 1) cycle (db_planning db) |>.

Definition reserve_body (s : Store) (measuredBytes : N) (day : string) (admission : Admission) : Tx unit :=
  do! cfg <- tx_read (storedConfig (ConfigKey s)) in
  let limit := Config_MaxSessionsPerDay cfg in
  require negb (limit =? 0) else New "Daily session budget must be positive";
  require negb (Config_MaxWorkspaceBytes cfg <=? measuredBytes) else StorageLimitError measuredBytes;
  let own := match Admission_TaskID admission with None => Admission_CycleID admission | Some _ => "" end in
  do! allowed <- tx_read (ceiling_allows own day) in
  require allowed else session_ceiling;
  do! _ <- (fun db => match bump_usage (usageRepo s cfg) day (N.min limit max_int64) db with
                      | Some db' => Ok (tt, db')
                      | None => Err session_budget
                      end) in
  let admission :=
    if bool_decide (Admission_Repository admission = "") then
      admission <| Admission_Repository :=
        if negb (bool_decide (Store_repo s = "")) then Store_repo s else Config_GitHubRepo cfg |>
    else admission in
  do! _ <- (match Admission_TaskID admission with
            | None => tx_write (spend_planning (Admission_CycleID admission))
            | Some _ => tx_ret tt
            end) in
  do! exists_ <- tx_read (fun db => isSome (db_admissions db !! Admission_ID admission)) in
  require negb exists_ else constraint_error "admissions.id";
  tx_write (fun db => db <| db_admissions := <[Admission_ID admission := admission]> (db_admissions db) |>).

Definition invalid_time : error := New "parsing time".
Definition ReserveSession (s : Store) (measuredBytes : N) (admission : Admission) (db : Db) : outcome unit :=
  match parse_rfc3339 (Admission_At admission) with
  | None => (Err invalid_time, db)
  | Some at_ => transaction (reserve_body s measuredBytes (UTCDay at_) admission) db
  end.

(** ** Planning capacity *)

(** The room of the repository's own limit, then of the instance ceiling. *)
Definition planning_remaining (limit used : N) (day : string) (db : Db) : N :=
  let remaining := if used <? limit then limit - used else 0 in
  let max := InstanceSettings_MaxSessionsPerDay (storedInstance db) in
  if 0 <? max then
    let total := instanceSessionsOn day db in
    let room := if total <? max then max - total else 0 in
    let committed := planningCommitments "" db in
    let room := room - N.min room committed in
    if room <? remaining then room else remaining
  else remaining.

Definition planningCapacityAt (s : Store) (at_ : instant) (db : Db) : PlanningCapacity :=
  let day := UTCDay at_ in
  let cfg := storedConfig (ConfigKey s) db in
  let used := sessionsOn (usageRepo s cfg) day db in
  let limit := Config_MaxSessionsPerDay cfg in
  let required := PlanningCost cfg in
  let remaining := planning_remaining limit used day db in
  mkPlanningCapacity day limit used remaining required (next_midnight at_)
    (if limit <? required then CapacityTooLow
     else if remaining <? required then CapacityExhausted
     else CapacityReady).

(** ** Beginning planning *)

(** [Config.Fingerprint], a hash of the configuration's JSON. *)
Context (Fingerprint : Config -> result string error).

Definition begin_body (s : Store) (cycle : Cycle) (control expected : Control) (fingerprint live : string)
    (capacity : PlanningCapacity) : Tx unit :=
  do! saved <- tx_read (liveControl (ControlKey s)) in
  require bool_decide (live = fingerprint) && Equal saved expected && Capacity_Available capacity
    else errRollback;
  do! _ <- tx_write (put_cycle cycle) in
  do! exists_ <- tx_read (fun db => isSome (db_planning db !! Cycle_ID cycle)) in
  require negb exists_ else constraint_error "planning_reservations.cycle_id";
  do! _ <- tx_write (fun db => db <| db_planning :=
             <[Cycle_ID cycle := PlanningCapacity_Required capacity]> (db_planning db) |>) in
  tx_write (put_control (ControlKey s) (control <| Control_BudgetWaiting := false |>)).

Definition with_capacity (capacity : PlanningCapacity) (o : outcome bool) : outcome (PlanningCapacity * bool) :=
  match o with
  | (Ok started, db) => (Ok (capacity, started), db)
  | (Err e, db) => (Err e, db)
  end.

Definition BeginCycle (s : Store) (cycle : Cycle) (control expected : Control) (fingerprint : string)
    (at_ : instant) (db : Db) : outcome (PlanningCapacity * bool) :=
  match Fingerprint (storedConfig (ConfigKey s) db) with
  | Err e => (Err e, db)
  | Ok live =>
      let capacity := planningCapacityAt s at_ db in
      with_capacity capacity
        (conditional (begin_body s cycle control expected fingerprint live capacity) db)
  end.

(** [id] is the new batch identity. *)
Definition start_body (s : Store) (id : string) (control : Control) (capacity : PlanningCapacity) : Tx unit :=
  do! live <- tx_read (liveControl (ControlKey s)) in
  require Equal live control && Capacity_Available capacity else errRollback;
  do! _ <- txStartBatch id (ControlKey s) (Store_repo s) control in
  tx_ret tt.
Definition StartBatch (s : Store) (id : string) (control : Control) (at_ : instant) (db : Db)
    : outcome (PlanningCapacity * bool) :=
  let capacity := planningCapacityAt s at_ db in
  with_capacity capacity (conditional (start_body s id control capacity) db).
End budget.

(** * Properties *)

Definition ceiling (db : Db) : N := InstanceSettings_MaxSessionsPerDay (storedInstance db).
Definition committed_sessions (db : Db) : N := map_sum (fun _ sessions => sessions) (db_planning db).

(** The instance ceiling covers what is used on [day] and what begun planning
    passes may still use. *)
Record budget_ok (day : string) (db : Db) : Prop := {
  budget_ceiling : 0 < ceiling db -> instanceSessionsOn day db + committed_sessions db <= ceiling db;
  budget_named : db_planning db !! "" = None;
}.

Lemma commitments_split own db :
  planningCommitments own db + default 0 (db_planning db !! own) = committed_sessions db.
Proof.
  unfold planningCommitments, committed_sessions.
  destruct (db_planning db !! own) as [n|] eqn:E; simpl.
  - rewrite (map_sum_delete _ _ _ _ E), (map_sum_delete (fun _ s => s) _ _ _ E).
    rewrite bool_decide_eq_true_2 by done.
    rewrite (map_sum_ext _ (fun _ s => s) (delete own (db_planning db))); [lia|].
    intros k v L. case_bool_decide as K; [|done]. subst. by rewrite lookup_delete_eq in L.
  - rewrite N.add_0_r. apply map_sum_ext. intros k v L.
    case_bool_decide as K; [|done]. congruence.
Qed.

Lemma bump_usage_spec repository day limit db db' :
  bump_usage repository day limit db = Some db' ->
  (forall d, instanceSessionsOn d db' = instanceSessionsOn d db + (if bool_decide (d = day) then 1 else 0)) /\
  db_planning db' = db_planning db /\ db_instance db' = db_instance db /\ db_configs db' = db_configs db /\
  db_tasks db' = db_tasks db /\ db_admissions db' = db_admissions db /\
  default 0 (db_usage db' !! (repository, day)) = default 0 (db_usage db !! (repository, day)) + 1 /\
  (db_usage db !! (repository, day) <> None -> default 0 (db_usage db' !! (repository, day)) <= limit).
Proof.
  unfold bump_usage, instanceSessionsOn.
  destruct (db_usage db !! (repository, day)) as [n|] eqn:E; [destruct_cond|]; intros B; simplify_eq.
  - apply N.ltb_lt in Heqb. simpl. split_and!; try done.
    + intros d.
      pose proof (map_sum_insert_Some (fun k s => if bool_decide (k.2 = d) then s else 0)
        (db_usage db) (repository, day) (n + 1) n E) as S. simpl in S. revert S.
      rewrite (bool_decide_ext (day = d) (d = day)) by done. case_bool_decide; intros; lia.
    + by rewrite lookup_insert_eq.
    + rewrite lookup_insert_eq. simpl. lia.
  - simpl. split_and!; try done.
    + intros d. rewrite map_sum_insert_None by done. simpl.
      rewrite (bool_decide_ext (day = d) (d = day)) by done. case_bool_decide; lia.
    + by rewrite lookup_insert_eq.
Qed.

Lemma spend_planning_spec cycle db :
  committed_sessions (spend_planning cycle db) + N.min 1 (default 0 (db_planning db !! cycle))
  = committed_sessions db.
Proof.
  unfold committed_sessions, spend_planning. simpl.
  destruct (db_planning db !! cycle) as [n|] eqn:E; simpl.
  - rewrite (alter_as_insert _ _ _ n E).
    pose proof (map_sum_insert_Some (fun _ s => s) (db_planning db) cycle (n - 1) n E) as Q. cbv beta in Q. lia.
  - by rewrite alter_absent, N.add_0_r.
Qed.

Section budget_properties.
  Context `{Unicode} (Fingerprint : Config -> result string error).

(** What a successful reservation did. *)
Lemma reserve_body_Ok s measured day admission db db' :
  reserve_body s measured day admission db = Ok (tt, db') ->
  exists db1, ceiling_allows (match Admission_TaskID admission with
                              | None => Admission_CycleID admission | Some _ => "" end) day db = true /\
    measured < Config_MaxWorkspaceBytes (storedConfig (ConfigKey s) db) /\
    bump_usage (usageRepo s (storedConfig (ConfigKey s) db)) day
      (N.min (Config_MaxSessionsPerDay (storedConfig (ConfigKey s) db)) max_int64) db = Some db1 /\
    db_usage db' = db_usage db1 /\ db_instance db' = db_instance db1 /\ db_tasks db' = db_tasks db1 /\
    db_planning db' = match Admission_TaskID admission with
                      | None => db_planning (spend_planning (Admission_CycleID admission) db1)
                      | Some _ => db_planning db1
                      end /\
    0 < Config_MaxSessionsPerDay (storedConfig (ConfigKey s) db).
Proof.
  unfold reserve_body. intros C.
  apply tx_bind_Ok in C as (cfg & db0 & R & C). apply tx_read_Ok in R as [-> ->].
  apply require_Ok in C as [L C]. apply require_Ok in C as [M C].
  apply tx_bind_Ok in C as (allowed & db0 & R & C). apply tx_read_Ok in R as [-> ->].
  apply require_Ok in C as [A C].
  apply tx_bind_Ok in C as ([] & db1 & B & C).
  destruct (bump_usage _ _ _ _) as [db1'|] eqn:Bu; [|discriminate]. injection B as ->.
  apply tx_bind_Ok in C as ([] & db2 & P & C).
  apply tx_bind_Ok in C as (ex & db3 & R & C). apply tx_read_Ok in R as [-> ->].
  apply require_Ok in C as [_ C]. apply tx_write_Ok in C. subst db'.
  bool_hyps. exists db1. split_and!; try done.
  all: destruct (bool_decide (Admission_Repository admission = "")); simpl in P;
    destruct (Admission_TaskID admission); tx_open; try done.
  all: lia.
Qed.

Lemma ceiling_instance db db' : db_instance db = db_instance db' -> ceiling db = ceiling db'.
Proof. unfold ceiling, storedInstance. by intros ->. Qed.

Lemma reserve_keeps_budget s measured day admission db db' :
  budget_ok day db -> reserve_body s measured day admission db = Ok (tt, db') -> budget_ok day db'.
Proof.
  intros [C N] (db1 & A & _ & B & U & I & _ & P & _)%reserve_body_Ok.
  destruct (bump_usage_spec _ _ _ _ _ B) as (S & Pl & In & _).
  assert (ceiling db' = ceiling db) as Ce by (apply ceiling_instance; congruence).
  assert (instanceSessionsOn day db' = instanceSessionsOn day db + 1) as T.
  { specialize (S day). rewrite bool_decide_eq_true_2 in S by done. rewrite <- S.
    unfold instanceSessionsOn. by rewrite U. }
  constructor.
  - rewrite Ce, T. intros Pos. specialize (C Pos).
    unfold ceiling_allows in A. fold (ceiling db) in A.
    rewrite (proj2 (N.ltb_lt _ _) Pos) in A. bool_hyps.
    destruct (Admission_TaskID admission) as [task|].
    + unfold committed_sessions in *. rewrite P, Pl.
      pose proof (commitments_split "" db) as Sp. rewrite N in Sp. simpl in Sp.
      unfold committed_sessions in Sp. lia.
    + pose proof (spend_planning_spec (Admission_CycleID admission) db1) as Sp.
      unfold committed_sessions in *. rewrite P. rewrite Pl in Sp.
      pose proof (commitments_split (Admission_CycleID admission) db) as Sq.
      unfold committed_sessions in Sq. lia.
  - rewrite P. destruct (Admission_TaskID admission); [by rewrite Pl|].
    unfold spend_planning. simpl. rewrite Pl.
    destruct (decide (Admission_CycleID admission = "")) as [->|Ne].
    + by rewrite lookup_alter_eq, N.
    + by rewrite lookup_alter_ne.
Qed.

Lemma put_cycle_budget c db :
  db_usage (put_cycle c db) = db_usage db /\ db_instance (put_cycle c db) = db_instance db /\
  (db_planning (put_cycle c db) = db_planning db \/
   db_planning (put_cycle c db) = delete (Cycle_ID c) (db_planning db)).
Proof. unfold put_cycle. destruct_cond; auto. Qed.

Lemma begin_keeps_budget s cycle control expected fingerprint at_ db cap db' :
  Cycle_ID cycle <> "" -> budget_ok (UTCDay at_) db ->
  BeginCycle Fingerprint s cycle control expected fingerprint at_ db = (Ok (cap, true), db') ->
  budget_ok (UTCDay at_) db' /\ db_planning db' !! Cycle_ID cycle = Some (PlanningCapacity_Required cap).
Proof.
  intros Ne [C N] B. unfold BeginCycle in B.
  destruct (Fingerprint _) as [live|]; [|discriminate].
  unfold with_capacity in B. destruct (conditional _ db) as [[started|] db1] eqn:Co; [|discriminate].
  injection B as <- -> ->. apply conditional_true in Co. unfold begin_body in Co.
  apply tx_bind_Ok in Co as (sv & db1 & R & Co). apply tx_read_Ok in R as [-> ->].
  apply require_Ok in Co as [G Co]. bool_hyps.
  apply tx_bind_Ok in Co as ([] & db1 & W%tx_write_Ok & Co). subst db1.
  apply tx_bind_Ok in Co as (ex & db1 & R & Co). apply tx_read_Ok in R as [-> ->].
  apply require_Ok in Co as [Ex Co].
  apply tx_bind_Ok in Co as ([] & db2 & W%tx_write_Ok & Co%tx_write_Ok). subst db2 db'.
  destruct (put_cycle_budget cycle db) as (U & I & P).
  set (db1 := put_cycle cycle db) in *.
  assert (db_planning db1 !! Cycle_ID cycle = None) as Fresh.
  { by destruct (db_planning db1 !! Cycle_ID cycle). }
  assert (committed_sessions db1 <= committed_sessions db) as Le.
  { unfold committed_sessions. destruct P as [-> | ->]; [done|apply map_sum_delete_le]. }
  split; [constructor|].
  - change (0 < ceiling db1 -> instanceSessionsOn (UTCDay at_) db1 +
      map_sum (fun _ sessions => sessions)
        (<[Cycle_ID cycle := PlanningCapacity_Required (planningCapacityAt s at_ db)]> (db_planning db1))
      <= ceiling db1).
    rewrite (ceiling_instance db1 db I), map_sum_insert_None by done. intros Pos. specialize (C Pos).
    assert (instanceSessionsOn (UTCDay at_) db1 = instanceSessionsOn (UTCDay at_) db) as ->.
    { unfold instanceSessionsOn. by rewrite U. }
    fold (committed_sessions db1).
    assert (PlanningCapacity_Required (planningCapacityAt s at_ db)
      <= ceiling db - instanceSessionsOn (UTCDay at_) db - committed_sessions db); [|lia].
    pose proof (commitments_split "" db) as Sp. rewrite N in Sp. simpl in Sp.
    unfold Capacity_Available, planningCapacityAt, planning_remaining in *. simpl in *.
    fold (ceiling db) in *. rewrite (proj2 (N.ltb_lt _ _) Pos) in *.
    repeat destruct_cond; bool_hyps; try done; lia.
  - simpl. destruct P as [E|E]; rewrite lookup_insert_ne, E by done; [done|].
    by rewrite lookup_delete_ne.
  - simpl. apply lookup_insert_eq.
Qed.

Lemma ReserveSession_body s measured admission at_ db db' :
  parse_rfc3339 (Admission_At admission) = Some at_ ->
  ReserveSession s measured admission db = (Ok tt, db') ->
  reserve_body s measured (UTCDay at_) admission db = Ok (tt, db').
Proof. unfold ReserveSession. intros ->. apply transaction_Ok. Qed.

(** The operations of one day on the budget tables: session reservations,
    cycles that begin, and every other write, which leaves the counters alone
    and at most releases planning allowances. *)
Inductive budget_step (day : string) (db db' : Db) : Prop :=
| budget_reserve s measured admission at_ :
    parse_rfc3339 (Admission_At admission) = Some at_ -> UTCDay at_ = day ->
    ReserveSession s measured admission db = (Ok tt, db') -> budget_step day db db'
| budget_begin s cycle control expected fingerprint at_ capacity :
    UTCDay at_ = day -> Cycle_ID cycle <> "" ->
    BeginCycle Fingerprint s cycle control expected fingerprint at_ db = (Ok (capacity, true), db') ->
    budget_step day db db'
| budget_other :
    db_usage db' = db_usage db -> db_instance db' = db_instance db ->
    db_planning db' ⊆ db_planning db -> budget_step day db db'.

Lemma budget_step_ok day db db' : budget_step day db db' -> budget_ok day db -> budget_ok day db'.
Proof.
  intros [s measured admission at_ P D R|s cycle control expected fingerprint at_ capacity D Ne B|U I S] O.
  - subst day. eapply reserve_keeps_budget; [done|]. by eapply ReserveSession_body.
  - subst day. by eapply begin_keeps_budget.
  - destruct O as [C N]. constructor.
    + rewrite (ceiling_instance db' db I). intros Pos. specialize (C Pos).
      unfold instanceSessionsOn, committed_sessions in *. rewrite U.
      pose proof (map_sum_subseteq (fun _ s => s) _ _ S). lia.
    + destruct (db_planning db' !! "") as [n|] eqn:E; [|done].
      by rewrite (lookup_weaken _ _ _ _ E S) in N.
Qed.

Lemma budget_run_ok day db db' : rtc (budget_step day) db db' -> budget_ok day db -> budget_ok day db'.
Proof. induction 1; eauto using budget_step_ok. Qed.

(** C26: the instance-wide session ceiling is never overspent.  Whatever cycles
    begin and whatever sessions any repository reserves on a day, in any order,
    the sessions used that day and the allowances begun planning passes still
    hold together stay within the ceiling. *)
Theorem ceiling_never_overspent day db db' :
  rtc (budget_step day) db db' -> budget_ok day db ->
  0 < ceiling db' -> instanceSessionsOn day db' + committed_sessions db' <= ceiling db'.
Proof.
  intros R O. by destruct (budget_run_ok _ _ _ R O).
Qed.

(** A planning pass that began is funded to the end.  While a cycle still
    holds part of the allowance it committed when it began, no session the
    other cycles or the tasks reserve can exhaust the ceiling for it: its next
    planning session is never refused for the ceiling. *)
Theorem begun_planning_is_funded s s' cycle control expected fingerprint at_ capacity db0 db1 db2 n
    measured admission :
  Cycle_ID cycle <> "" -> budget_ok (UTCDay at_) db0 ->
  BeginCycle Fingerprint s cycle control expected fingerprint at_ db0 = (Ok (capacity, true), db1) ->
  db_planning db1 !! Cycle_ID cycle = Some (PlanningCapacity_Required capacity) /\
  (rtc (budget_step (UTCDay at_)) db1 db2 -> db_planning db2 !! Cycle_ID cycle = Some n -> 0 < n ->
   Admission_TaskID admission = None -> Admission_CycleID admission = Cycle_ID cycle ->
   ceiling_allows (Cycle_ID cycle) (UTCDay at_) db2 = true /\
   reserve_body s' measured (UTCDay at_) admission db2 <> Err session_ceiling).
Proof.
  intros Ne O B. destruct (begin_keeps_budget _ _ _ _ _ _ _ _ _ Ne O B) as [O1 L]. split; [done|].
  intros R L2 Pos Ta Cy.
  assert (budget_ok (UTCDay at_) db2) as [C N] by (by eapply budget_run_ok).
  assert (ceiling_allows (Cycle_ID cycle) (UTCDay at_) db2 = true) as A.
  { unfold ceiling_allows. fold (ceiling db2). destruct_cond. bool_hyps. specialize (C Heqb).
    pose proof (commitments_split (Cycle_ID cycle) db2) as Sp. rewrite L2 in Sp. simpl in Sp.
    apply negb_true_iff, orb_false_iff. split; apply N.leb_gt; lia. }
  split; [done|]. unfold reserve_body, tx_bind, tx_read, tx_fail.
  cbv beta iota zeta. rewrite Ta. cbv beta iota zeta. rewrite Cy.
  do 2 destruct_cond. cbv beta. rewrite A. cbv beta.
  destruct (bump_usage _ _ _ _); [|intros X; discriminate X].
  unfold tx_write, tx_ret. repeat (destruct_cond || case_match); simplify_eq; try (intros X; discriminate X).
Qed.

(** A repository's own daily limit holds: a successful reservation leaves
    its counter within its configured limit, and counts exactly one session for
    the day, for the repository and for the instance. *)
Theorem ReserveSession_within_limit s measured admission at_ db db' :
  parse_rfc3339 (Admission_At admission) = Some at_ ->
  ReserveSession s measured admission db = (Ok tt, db') ->
  let cfg := storedConfig (ConfigKey s) db in
  let used db := default 0 (db_usage db !! (usageRepo s cfg, UTCDay at_)) in
  used db' = used db + 1 /\ used db' <= Config_MaxSessionsPerDay cfg /\
  instanceSessionsOn (UTCDay at_) db' = instanceSessionsOn (UTCDay at_) db + 1 /\
  measured < Config_MaxWorkspaceBytes cfg /\
  db_tasks db' = db_tasks db.
Proof.
  intros P R. cbv zeta. apply (ReserveSession_body _ _ _ _ _ _ P) in R.
  destruct (reserve_body_Ok _ _ _ _ _ _ R) as (db1 & _ & M & B & U & _ & T & _ & Pos).
  destruct (bump_usage_spec _ _ _ _ _ B) as (S & _ & _ & _ & T1 & _ & E & L).
  specialize (S (UTCDay at_)). rewrite bool_decide_eq_true_2 in S by done.
  rewrite U. split_and!; [done| |by unfold instanceSessionsOn in *; rewrite U|done|congruence].
  destruct (db_usage db !! (usageRepo s (storedConfig (ConfigKey s) db), UTCDay at_)) eqn:F.
  - specialize (L ltac:(discriminate)). lia.
  - rewrite E. simpl. lia.
Qed.
End budget_properties.

(** ** Witnesses *)

Definition sample_instant : instant := mkInstant 1767225600 0.
Definition budget_db : Db :=
  empty_db <| db_configs := {["config" := sample_config]} |>
           <| db_instance := Some (mkInstanceSettings 40) |>.
Definition sample_cycle (id : string) : Cycle :=
  mkCycle CycleModeExecution DeliveryModeStandard id 1 CycleRunning "now" None None [] [] [] None
    "acme/widgets" [] None (mkWorkspaceLifecycle None None).
Definition planning_admission (id : string) : Admission :=
  mkAdmission id (Timestamp sample_instant) "cycle-1" None "orchestrator" sample_route "".
Definition no_fingerprint (c : Config) : result string error := Ok "fp".

Lemma budget_db_ok : budget_ok (UTCDay sample_instant) budget_db.
Proof. constructor; vm_compute; [discriminate|reflexivity]. Qed.

Definition begun : outcome (PlanningCapacity * bool) :=
  BeginCycle no_fingerprint sample_store (sample_cycle "cycle-1") DefaultControl DefaultControl "fp"
    sample_instant budget_db.
Definition begun_capacity : PlanningCapacity := planningCapacityAt sample_store sample_instant budget_db.

Lemma begun_step : budget_step no_fingerprint (UTCDay sample_instant) budget_db begun.2.
Proof.
  apply (budget_begin no_fingerprint _ _ _ sample_store (sample_cycle "cycle-1") DefaultControl
           DefaultControl "fp" sample_instant begun_capacity); [done|done|].
  vm_compute. reflexivity.
Qed.

Lemma ceiling_never_overspent_witness :
  0 < ceiling begun.2
  /\ instanceSessionsOn (UTCDay sample_instant) begun.2 + committed_sessions begun.2 <= ceiling begun.2.
Proof.
  assert (0 < ceiling begun.2) as L by (vm_compute; reflexivity).
  split; [exact L|]. revert L. apply (ceiling_never_overspent no_fingerprint (UTCDay sample_instant) budget_db).
  - apply rtc_once, begun_step.
  - apply budget_db_ok.
Defined.

Lemma begun_planning_is_funded_witness :
  ceiling_allows "cycle-1" (UTCDay sample_instant) begun.2 = true.
Proof.
  destruct (begun_planning_is_funded no_fingerprint sample_store sample_store (sample_cycle "cycle-1")
    DefaultControl DefaultControl "fp" sample_instant begun_capacity budget_db begun.2 begun.2
    (PlanningCapacity_Required begun_capacity) 0 (planning_admission "a")) as [L F].
  - done.
  - apply budget_db_ok.
  - vm_compute. reflexivity.
  - destruct F as [A _]; [constructor|exact L|vm_compute; reflexivity|reflexivity|reflexivity|exact A].
Defined.

Lemma ReserveSession_within_limit_witness :
  let db' := (ReserveSession sample_store 0 (planning_admission "a") budget_db).2 in
  instanceSessionsOn (UTCDay sample_instant) db' = instanceSessionsOn (UTCDay sample_instant) budget_db + 1.
Proof.
  apply (ReserveSession_within_limit sample_store 0 (planning_admission "a") sample_instant budget_db);
    vm_compute; reflexivity.
Defined.
