(* ===== verification/StoreCapacity.v ===== *)
(** * Pull-request capacity ([internal/store/capacity.go])

    The open pull requests observed on the remote and the reservations of
    admitted tasks together bound how many new deliveries may start. *)
From S2P Require Import Prelude GoStrings WireJson Enums Types GoErrors Config GoTime Model Samples Lifecycle Store StoreMerges StoreTasks StoreBudget.
Local Open Scope string_scope.
Local Open Scope list_scope.
Local Open Scope N_scope.

(** ** Counting *)

Definition owned_numbers (inventory : OpenPRInventory) : gset N :=
  foldl (fun numbers p => if OwnedOpen p then {[PullRequest_Number p]} ∪ numbers else numbers)
    ∅ (OpenPRInventory_PRs inventory).
Definition unrepresented_count (branches : gset string) (reservations : list PRReservation) : N :=
  foldl (fun n r => if bool_decide (PRReservation_Branch r ∈ branches) then n else n + 1) 0 reservations.

(** [PRUnion]: the observed and the unrepresented deliveries, and the room left. *)
Definition PRUnion (inventory : OpenPRInventory) (reservations : list PRReservation) (limit : N) : N * N * N :=
  let observed := N.of_nat (size (owned_numbers inventory)) in
  let unrepresented := unrepresented_count (OwnedBranches inventory) reservations in
  (observed, unrepresented,
   if observed + unrepresented <? limit then limit - observed - unrepresented else 0).

Section capacity.
  Context `{Unicode} (redact_text : string -> string).

(** [reservationRows]; the query fixes no order. *)
Definition reservationRows (repository : string) (db : Db) : list PRReservation :=
  List.filter (fun r => bool_decide (PRReservation_Repository r = ToLower repository))
    (map_to_list (db_reservations db)).*2.

Definition insertReservation (taskID repository branch admittedAt : string) (orIgnore : bool) : Tx unit :=
  do! exists_ <- tx_read (fun db => isSome (db_reservations db !! taskID)) in
  if exists_ then (if orIgnore then tx_ret tt else tx_fail (constraint_error "pr_reservations.task_id"))
  else tx_write (fun db => db <| db_reservations :=
         <[taskID := mkPRReservation taskID repository branch admittedAt]> (db_reservations db) |>).
Definition releaseReservation (taskID : string) : Tx unit :=
  tx_write (fun db => db <| db_reservations := delete taskID (db_reservations db) |>).

Definition SeedPRReservation (now : string) (t : Task) (db : Db) : outcome unit :=
  transaction (insertReservation (Task_ID t) (ToLower (Config_GitHubRepo (Task_Config t)))
                 (Task_Branch t) now true) db.
Definition HasPRReservation (taskID : string) (db : Db) : bool := isSome (db_reservations db !! taskID).

(** ** Admission *)

Definition admitted_task (now : string) (t : Task) : Task :=
  t <| Task_Status := StatusExecuting |> <| Task_UpdatedAt := now |>.

Definition admit_body (s : Store) (now : string) (t : Task) (inventory : OpenPRInventory) : Tx unit :=
  do! cfg <- tx_read (storedConfig (ConfigKey s)) in
  require EqualASCII (OpenPRInventory_Repository inventory) (Config_GitHubRepo cfg) else errRollback;
  do! saved <- tx_read (fun db => db_inventories db !! prInventoryKey s) in
  require bool_decide (saved = Some inventory) else errRollback;
  require bool_decide (Proposal_Target (Task_Proposal t) = Config_DefaultBranch (Task_Config t))
          && SamePRPolicy (Task_Config t) cfg else errRollback;
  do! canonical <- tx_read (fun db => db_tasks db !! Task_ID t) in
  match canonical with
  | None => tx_fail errRollback
  | Some canonical =>
    require bool_decide (Task_Status canonical = StatusQueued) && Equal canonical t else errRollback;
    do! reservations <- tx_read (reservationRows (Config_GitHubRepo cfg)) in
    require negb ((PRUnion inventory reservations (Config_MaxOpenPRs cfg)).2 =? 0) else errRollback;
    let next := admitted_task now t in
    do! _ <- txCommitTask canonical next TaskAdmission in
    do! _ <- insertReservation (Task_ID next) (ToLower (Config_GitHubRepo cfg)) (Task_Branch next) now false in
    txRepositoryEvent redact_text now (Store_repo s) (Task_ID next) EventStatus "Executing"
  end.
Definition AdmitNewPRTask (s : Store) (now : string) (t : Task) (inventory : OpenPRInventory) (db : Db)
    : outcome bool :=
  conditional (admit_body s now t inventory) db.

(** ** A new inventory *)

Definition invalidTimestamp := "input contains invalid characters".

(** A saved inventory of the same repository that is newer refuses this one. *)
Definition check_newer (existing : option OpenPRInventory) (inventory : OpenPRInventory) : result unit error :=
  match existing with
  | None => Ok tt
  | Some old =>
    if negb (EqualASCII (OpenPRInventory_Repository old) (OpenPRInventory_Repository inventory)) then Ok tt else
    match parse_rfc3339 (OpenPRInventory_ObservedAt old) with
    | None => Err (Errorf "Saved PR inventory timestamp is invalid: %s" [VStr invalidTimestamp])
    | Some previous =>
      match parse_rfc3339 (OpenPRInventory_ObservedAt inventory) with
      | None => Err (Errorf "PR inventory timestamp is invalid: %s" [VStr invalidTimestamp])
      | Some candidate => guard negb (before candidate previous) else errRollback; Ok tt
      end
    end
  end.

Definition delivered_and_done (released : list string) (db : Db) (r : PRReservation) : bool :=
  bool_decide (PRReservation_TaskID r ∈ released) &&
  match db_tasks db !! PRReservation_TaskID r with
  | Some t => isSome (Task_OutputCommit t)
              && (bool_decide (Task_Status t = StatusPublished) || bool_decide (Task_Status t = StatusCancelled))
  | None => false
  end.
Definition represented_published (represented : gset string) (db : Db) (r : PRReservation) : bool :=
  bool_decide (PRReservation_Branch r ∈ represented) &&
  match db_tasks db !! PRReservation_TaskID r with
  | Some t => bool_decide (Task_Status t = StatusPublished)
  | None => false
  end.

Definition persist_body (s : Store) (inventory : OpenPRInventory) (released : list string) : Tx unit :=
  do! cfg <- tx_read (storedConfig (ConfigKey s)) in
  require EqualASCII (OpenPRInventory_Repository inventory) (Config_GitHubRepo cfg) else errRollback;
  do! existing <- tx_read (fun db => db_inventories db !! prInventoryKey s) in
  do! _ <- tx_lift (check_newer existing inventory) in
  do! _ <- tx_write (put_inventory (prInventoryKey s) inventory) in
  let represented := OwnedBranches inventory in
  do! reservations <- tx_read (reservationRows (Config_GitHubRepo cfg)) in
  tx_iter (fun r =>
    do! done_ <- tx_read (fun db => delivered_and_done released db r) in
    if done_ then releaseReservation (PRReservation_TaskID r) else
    do! gone <- tx_read (fun db => represented_published represented db r) in
    if gone then releaseReservation (PRReservation_TaskID r) else tx_ret tt) reservations.
Definition PersistPRInventory (s : Store) (inventory : OpenPRInventory) (released : list string) (db : Db)
    : outcome bool :=
  conditional (persist_body s inventory released) db.
End capacity.

(** * Properties *)

Lemma unrepresented_count_add branches rs n :
  foldl (fun n r => if bool_decide (PRReservation_Branch r ∈ branches) then n else n + 1) n rs
  = n + unrepresented_count branches rs.
Proof.
  unfold unrepresented_count. revert n. induction rs as [|r rs IH]; intros n; simpl; [lia|].
  rewrite IH, (IH (if bool_decide _ then 0 else 0 + 1)). case_bool_decide; lia.
Qed.
Lemma unrepresented_count_cons branches r rs :
  unrepresented_count branches (r :: rs)
  = (if bool_decide (PRReservation_Branch r ∈ branches) then 0 else 1) + unrepresented_count branches rs.
Proof. unfold unrepresented_count. simpl. rewrite unrepresented_count_add. case_bool_decide; simpl; unfold unrepresented_count; lia. Qed.
Lemma unrepresented_count_perm branches rs rs' :
  rs ≡ₚ rs' -> unrepresented_count branches rs = unrepresented_count branches rs'.
Proof.
  induction 1 as [|x l l' P IH|x y l|l1 l2 l3 P1 IH1 P2 IH2]; rewrite ?unrepresented_count_cons;
    [done|by rewrite IH|lia|congruence].
Qed.

(** [PRUnion] splits the limit: the room left is exactly what the limit
    exceeds the observed and the reserved deliveries by, so with room left the
    three add up to the limit, and there is none as soon as they reach it. *)
Theorem PRUnion_total inventory reservations limit :
  let '(observed, unrepresented, remaining) := PRUnion inventory reservations limit in
  remaining = limit - (observed + unrepresented) /\
  unrepresented = lenN (List.filter (fun r =>
    negb (bool_decide (PRReservation_Branch r ∈ OwnedBranches inventory))) reservations).
Proof.
  unfold PRUnion. split.
  - destruct_cond; bool_hyps; lia.
  - induction reservations as [|r rs IH]; [done|]. rewrite unrepresented_count_cons, IH. simpl.
    unfold lenN. case_bool_decide; simpl; lia.
Qed.

Section capacity_properties.
  Context `{Unicode} (redact_text : string -> string).

Lemma insertReservation_Ok id repo branch now db db' :
  insertReservation id repo branch now false db = Ok (tt, db') ->
  db_reservations db !! id = None /\
  db' = db <| db_reservations := <[id := mkPRReservation id repo branch now]> (db_reservations db) |>.
Proof.
  unfold insertReservation. intros C. apply tx_bind_Ok in C as (e & db1 & R & C). apply tx_read_Ok in R as [-> ->].
  destruct (db_reservations db !! id) eqn:E; simpl in C; [discriminate|].
  by apply tx_write_Ok in C.
Qed.

(** What a successful admission found and did. *)
Lemma AdmitNewPRTask_Ok s now t inventory db db' :
  AdmitNewPRTask redact_text s now t inventory db = (Ok true, db') ->
  let cfg := storedConfig (ConfigKey s) db in
  db_tasks db !! Task_ID t = Some t /\ Task_Status t = StatusQueued /\
  db_inventories db !! prInventoryKey s = Some inventory /\
  0 < (PRUnion inventory (reservationRows (Config_GitHubRepo cfg) db) (Config_MaxOpenPRs cfg)).2 /\
  db_tasks db' = <[Task_ID t := admitted_task now t]> (db_tasks db) /\
  db_configs db' = db_configs db /\ db_inventories db' = db_inventories db /\
  db_reservations db !! Task_ID t = None /\
  db_reservations db' = <[Task_ID t := mkPRReservation (Task_ID t) (ToLower (Config_GitHubRepo cfg))
                                         (Task_Branch t) now]> (db_reservations db) /\
  (marker (Task_ID t) db = true -> Task_OutputCommit t <> None).
Proof.
  intros C%conditional_true. cbv zeta. unfold admit_body in C.
  apply tx_bind_Ok in C as (cfg & db1 & R & C). apply tx_read_Ok in R as [-> ->].
  apply require_Ok in C as [_ C].
  apply tx_bind_Ok in C as (saved & db1 & R & C). apply tx_read_Ok in R as [-> ->].
  apply require_Ok in C as [S C]. apply require_Ok in C as [_ C].
  apply tx_bind_Ok in C as (canonical & db1 & R & C). apply tx_read_Ok in R as [-> ->].
  destruct (db_tasks db !! Task_ID t) as [canonical|] eqn:L; [|discriminate].
  apply require_Ok in C as [Q C].
  apply tx_bind_Ok in C as (rows & db1 & R & C). apply tx_read_Ok in R as [-> ->].
  apply require_Ok in C as [U C].
  apply tx_bind_Ok in C as (saved & db1 & K%txCommitTask_Ok & C).
  apply tx_bind_Ok in C as ([] & db2 & I%insertReservation_Ok & C).
  unfold txRepositoryEvent in C. apply tx_write_Ok in C. subst db'.
  bool_hyps. equal_hyps. subst canonical.
  destruct K as [(current & L' & V & Cs) Id ->].
  destruct Cs as [[-> ->]|(_ & _ & Abs & _)]; [|discriminate]. destruct I as [Fr ->].
  split_and!; try done.
  - lia.
  - etrans; [apply (put_task_tasks (admitted_task now t) db)|by rewrite Id].
  - etrans; [apply (put_task_budget (admitted_task now t) db)|done].
  - etrans; [|exact (put_task_inventories (admitted_task now t) db)]. done.
  - by rewrite put_task_reservations in Fr.
  - pose proof (put_task_reservations (admitted_task now t) db) as E. simpl in E.
    etrans; [|by rewrite <- E]. done.
  - intros M O. rewrite M in V.
    destruct (accepted_cancelled _ _ _ _ (ValidateTaskChange_accepted _ _ _ _ V) eq_refl O)
      as (_ & _ & F & _). done.
Qed.

(** Inserting the reservation adds one row of the repository. *)
Lemma reservationRows_insert repository db db' id r :
  db_reservations db !! id = None -> db_reservations db' = <[id := r]> (db_reservations db) ->
  PRReservation_Repository r = ToLower repository ->
  reservationRows repository db' ≡ₚ r :: reservationRows repository db.
Proof.
  intros N E R. unfold reservationRows. rewrite E.
  assert ((map_to_list (<[id := r]> (db_reservations db))).*2 ≡ₚ r :: (map_to_list (db_reservations db)).*2) as P.
  { by rewrite map_to_list_insert. }
  rewrite (bfilter_perm _ _ _ P). simpl. by rewrite bool_decide_eq_true_2.
Qed.

(** ** The deliveries that count against the limit

    Counted without [PRUnion]: the numbers of the pull requests that are ours
    and open, and the tasks with a reservation in the repository whose branch
    is the branch of none of them. *)
Definition ours_open (p : PullRequest) : Prop := PullRequest_Owned p = true /\ PullRequest_State p = "open".
Definition open_deliveries (inventory : OpenPRInventory) (numbers : gset N) : Prop :=
  forall n, n ∈ numbers <-> exists p, p ∈ OpenPRInventory_PRs inventory /\ ours_open p /\ PullRequest_Number p = n.
Definition waiting_deliveries (repository : string) (inventory : OpenPRInventory) (db : Db) (ids : gset string) : Prop :=
  forall id, id ∈ ids <-> exists r, db_reservations db !! id = Some r /\
    PRReservation_Repository r = ToLower repository /\
    forall p, p ∈ OpenPRInventory_PRs inventory -> ours_open p -> PullRequest_Branch p <> PRReservation_Branch r.

Lemma OwnedOpen_true p : OwnedOpen p = true <-> ours_open p.
Proof. unfold OwnedOpen, ours_open. by rewrite andb_true_iff, bool_decide_eq_true. Qed.
Lemma fold_union {A B} `{Countable B} (c : A -> bool) (f : A -> B) l (acc : gset B) x :
  x ∈ foldl (fun acc a => if c a then {[f a]} ∪ acc else acc) acc l <->
  x ∈ acc \/ exists a, a ∈ l /\ c a = true /\ f a = x.
Proof.
  revert acc. induction l as [|a l IH]; intros acc; simpl.
  { split; [by left|]. intros [?|(a & E%elem_of_nil & _)]; done. }
  rewrite IH. split.
  - intros [E|(b & E & C & F)]; [|right; exists b; split; [by right|done]]. destruct (c a) eqn:C; [|by left].
    apply elem_of_union in E as [E%elem_of_singleton|E]; [|by left]. right. exists a. split; [by left|done].
  - intros [E|(b & E & C & F)]; [left; destruct (c a); [by apply elem_of_union_r|done]|].
    apply elem_of_cons in E as [->|E]; [|right; by exists b]. left. rewrite C. apply elem_of_union_l. by apply elem_of_singleton.
Qed.
Lemma owned_numbers_spec inventory : open_deliveries inventory (owned_numbers inventory).
Proof.
  intros n. unfold owned_numbers. rewrite fold_union. setoid_rewrite OwnedOpen_true. set_solver.
Qed.
Lemma OwnedBranches_spec inventory b :
  b ∈ OwnedBranches inventory <->
  exists p, p ∈ OpenPRInventory_PRs inventory /\ ours_open p /\ PullRequest_Branch p = b.
Proof. unfold OwnedBranches. rewrite fold_union. setoid_rewrite OwnedOpen_true. set_solver. Qed.
(** The reservations of the table that wait, as rows and by their tasks. *)
Lemma waiting_count repository inventory db ids :
  waiting_deliveries repository inventory db ids ->
  N.of_nat (size ids) = unrepresented_count (OwnedBranches inventory) (reservationRows repository db).
Proof.
  intros W. set (waits := fun r => bool_decide (PRReservation_Repository r = ToLower repository)
    && negb (bool_decide (PRReservation_Branch r ∈ OwnedBranches inventory))).
  set (rows := map_to_list (db_reservations db)).
  assert (ids = list_to_set (List.filter (fun row => waits row.2) rows).*1) as ->.
  { apply set_eq. intros id. rewrite (W id), elem_of_list_to_set, list_elem_of_fmap. split.
    - intros (r & L & R & N). exists (id, r). split; [done|]. apply elem_of_bfilter. split; [|by apply elem_of_map_to_list].
      unfold waits. simpl. apply andb_true_iff. rewrite negb_true_iff, bool_decide_eq_true, bool_decide_eq_false.
      split; [done|]. intros (p & I & O & B)%OwnedBranches_spec. by apply (N p).
    - intros ([k r] & -> & [Wr L%elem_of_map_to_list]%elem_of_bfilter). exists r. split; [done|]. unfold waits in Wr. simpl in Wr.
      bool_hyps. split; [done|]. intros p I O B. match goal with X : _ ∉ _ |- _ => apply X end.
      apply OwnedBranches_spec. by exists p. }
  rewrite size_list_to_set by (apply filter_NoDup_keys, NoDup_fst_map_to_list).
  pose proof (PRUnion_total inventory (reservationRows repository db) 0) as U.
  unfold PRUnion in U. cbv zeta in U. destruct U as [_ ->]. unfold lenN, reservationRows. fold rows. f_equal.
  rewrite length_fmap. clear. induction rows as [|[id r] rows IH]; [done|].
  cbn [fmap list_fmap snd List.filter]. unfold waits at 1. cbn [snd].
  destruct (bool_decide (_ = _)); cbn [andb List.filter]; [|done].
  destruct (bool_decide (_ ∈ _)); cbn [negb]; [done|]. simpl. by rewrite IH.
Qed.

(** C28: no delivery starts beyond the configured capacity.  When a task is
    admitted, the owned pull requests observed open plus the reservations of
    the repository that no such pull request represents by its branch, the new
    one included, are within the limit; the task went from queued to executing
    together with its reservation, and a cancelled task without an authorised
    commit is never admitted. *)
Theorem AdmitNewPRTask_within_capacity s now t inventory db db' numbers waiting :
  AdmitNewPRTask redact_text s now t inventory db = (Ok true, db') ->
  let cfg := storedConfig (ConfigKey s) db in
  open_deliveries inventory numbers -> waiting_deliveries (Config_GitHubRepo cfg) inventory db' waiting ->
  N.of_nat (size numbers) + N.of_nat (size waiting) <= Config_MaxOpenPRs cfg /\
  db_inventories db !! prInventoryKey s = Some inventory /\
  db_tasks db !! Task_ID t = Some t /\ Task_Status t = StatusQueued /\
  db_tasks db' !! Task_ID t = Some (admitted_task now t) /\
  HasPRReservation (Task_ID t) db = false /\ HasPRReservation (Task_ID t) db' = true /\
  (CancelMarked (Task_ID t) db = true -> Task_OutputCommit t <> None).
Proof.
  intros A. destruct (AdmitNewPRTask_Ok _ _ _ _ _ _ A) as (L & S & I & U & T & _ & _ & N & R & M).
  cbv zeta in *. set (cfg := storedConfig (ConfigKey s) db) in *. intros On Wt.
  rewrite (waiting_count _ _ _ _ Wt), (unrepresented_count_perm _ _ _ (reservationRows_insert _ _ _ _ _ N R eq_refl)).
  assert (numbers = owned_numbers inventory) as ->.
  { apply set_eq. intros n. by rewrite (On n), (owned_numbers_spec inventory n). }
  unfold PRUnion in *. simpl in U. rewrite unrepresented_count_cons. split_and!; try done.
  - destruct (_ <? _) eqn:E in U; [|lia]. bool_hyps. case_bool_decide; lia.
  - rewrite T. apply lookup_insert_eq.
  - unfold HasPRReservation. by rewrite N.
  - unfold HasPRReservation. by rewrite R, lookup_insert_eq.
Qed.

(** ** Releasing *)

Definition release_ok (released : list string) (represented : gset string) (db : Db) (r : PRReservation) : bool :=
  delivered_and_done released db r || represented_published represented db r.

Lemma release_rows released represented rows db db' :
  tx_iter (fun r =>
    do! done_ <- tx_read (fun db => delivered_and_done released db r) in
    if done_ then releaseReservation (PRReservation_TaskID r) else
    do! gone <- tx_read (fun db => represented_published represented db r) in
    if gone then releaseReservation (PRReservation_TaskID r) else tx_ret tt) rows db = Ok (tt, db') ->
  db_tasks db' = db_tasks db /\ db_inventories db' = db_inventories db /\
  forall id, db_reservations db' !! id =
    if existsb (fun r => bool_decide (PRReservation_TaskID r = id) && release_ok released represented db r) rows
    then None else db_reservations db !! id.
Proof.
  revert db. induction rows as [|r rows IH]; intros db C.
  { apply tx_ret_Ok in C as [_ ->]. done. }
  simpl in C. apply tx_bind_Ok in C as ([] & db1 & R & C).
  apply IH in C as (T & I & Q). clear IH.
  assert (exists b, b = release_ok released represented db r /\
    db1 = if b then db <| db_reservations := delete (PRReservation_TaskID r) (db_reservations db) |> else db) as (b & Eb & ->).
  { exists (release_ok released represented db r). split; [done|]. unfold release_ok.
    apply tx_bind_Ok in R as (d & db2 & R1 & R). apply tx_read_Ok in R1 as [-> ->].
    destruct (delivered_and_done released db r); [by apply tx_write_Ok in R|].
    apply tx_bind_Ok in R as (g & db2 & R1 & R). apply tx_read_Ok in R1 as [-> ->].
    destruct (represented_published represented db r); [by apply tx_write_Ok in R|by apply tx_ret_Ok in R as [_ ->]]. }
  assert (forall x, release_ok released represented
    (if b then db <| db_reservations := delete (PRReservation_TaskID r) (db_reservations db) |> else db) x
    = release_ok released represented db x) as Same by (intros x; by destruct b).
  split; [by destruct b|]. split; [by destruct b|]. intros id. rewrite Q. simpl.
  rewrite (existsb_ext _ (fun x => bool_decide (PRReservation_TaskID x = id) && release_ok released represented db x))
    by (intros x; by rewrite Same).
  rewrite <- Eb. destruct b, (bool_decide (PRReservation_TaskID r = id)) eqn:E; simpl; try done; bool_hyps.
  - subst id. destruct (existsb _ rows); [done|]. apply lookup_delete_eq.
  - destruct (existsb _ rows); [done|]. by apply lookup_delete_ne.
Qed.

(** A new inventory never gives away a slot that is still needed.  It is
    saved only for the configured repository and never over a newer one; a
    reservation it releases belongs to a task that is published, or that was
    reported as released and is cancelled after its commit was authorised;
    every other reservation, and every task, is untouched; and a refused
    inventory changes nothing. *)
Theorem PersistPRInventory_releases s inventory released db r db' :
  PersistPRInventory s inventory released db = (r, db') ->
  match r with
  | Ok true =>
      db_inventories db' = <[prInventoryKey s := inventory]> (db_inventories db) /\
      db_tasks db' = db_tasks db /\
      forall id, db_reservations db' !! id = db_reservations db !! id \/
        (db_reservations db' !! id = None /\
         exists t, db_tasks db !! id = Some t /\
           (Task_Status t = StatusPublished \/
            (Task_Status t = StatusCancelled /\ Task_OutputCommit t <> None /\ id ∈ released)))
  | _ => db' = db
  end.
Proof.
  intros P. destruct r as [[]|e]; try (by eapply conditional_unchanged in P).
  apply conditional_true in P. unfold persist_body in P.
  apply tx_bind_Ok in P as (cfg & db1 & R & P). apply tx_read_Ok in R as [-> ->].
  apply require_Ok in P as [_ P].
  apply tx_bind_Ok in P as (ex & db1 & R & P). apply tx_read_Ok in R as [-> ->].
  apply tx_bind_Ok in P as (u & db1 & R & P). apply tx_lift_Ok in R as [_ ->].
  apply tx_bind_Ok in P as ([] & db1 & W%tx_write_Ok & P). subst db1.
  apply tx_bind_Ok in P as (rows & db1 & R & P). apply tx_read_Ok in R as [-> ->].
  apply release_rows in P as (T & I & Q). rewrite T, I. split; [done|]. split; [done|].
  intros id. rewrite Q. destruct (existsb _ _) eqn:E; [|by left]. right. split; [done|].
  apply existsb_exists in E as (r & _ & E). bool_hyps. subst id.
  unfold release_ok, delivered_and_done, represented_published in *. simpl in *.
  destruct (db_tasks db !! PRReservation_TaskID r) as [t|]; [|by rewrite !andb_false_r in *].
  exists t. split; [done|].
  destruct (Task_OutputCommit t); simpl in *;
    repeat match goal with
    | X : _ || _ = true |- _ => apply orb_true_iff in X as [?|?]
    | X : _ && _ = true |- _ => apply andb_true_iff in X as [? ?]
    end; bool_hyps; try done; auto.
Qed.
End capacity_properties.

(** ** Witnesses *)

Definition sample_inventory : OpenPRInventory :=
  mkOpenPRInventory "acme/widgets" "2026-01-01T00:00:00+00:00" [sample_pr "open" "c"].
Definition capacity_db : Db :=
  (task_db (sample_task "t"))
    <| db_configs := {["config" := sample_config]} |>
    <| db_inventories := {["pr_inventory" := sample_inventory]} |>.
Definition admission_outcome : outcome bool :=
  AdmitNewPRTask (fun m => m) sample_store "now" (sample_task "t") sample_inventory capacity_db.

(** One pull request of another task is open, and the limit is two. *)
Definition other_pr : PullRequest :=
  mkPullRequest 7 "Fix u" "octomus/u" "c" "main" "url" "body" "open" 10 "created" true
    "acme/widgets" "acme/widgets" "" "" "" "" "".
Definition other_inventory : OpenPRInventory :=
  mkOpenPRInventory "acme/widgets" "2026-01-01T00:00:00+00:00" [other_pr].
Definition other_db : Db :=
  capacity_db <| db_configs := {["config" := sample_config <| Config_MaxOpenPRs := 2 |>]} |>
    <| db_inventories := {["pr_inventory" := other_inventory]} |>.
Lemma AdmitNewPRTask_within_capacity_witness :
  N.of_nat (size ({[7]} : gset N)) + N.of_nat (size ({["t"]} : gset string)) <= 2
  /\ storedConfig (ConfigKey sample_store) other_db = sample_config <| Config_MaxOpenPRs := 2 |>.
Proof.
  split; [|vm_compute; reflexivity].
  refine (proj1 (AdmitNewPRTask_within_capacity (fun m => m) sample_store "now"
    ((sample_task "t")) other_inventory other_db
    (AdmitNewPRTask (fun m => m) sample_store "now" (sample_task "t") other_inventory other_db).2 {[7]} {["t"]} _ _ _)).
  - vm_compute. reflexivity.
  - intros n. cbn. unfold ours_open. rewrite elem_of_singleton. split.
    + intros ->. exists other_pr. split_and!; try done. by left.
    + intros (p & [->|E%elem_of_nil]%elem_of_cons & _ & E'); [by rewrite <- E'|done].
  - intros id. rewrite elem_of_singleton. split.
    + intros ->. eexists. split; [vm_compute; reflexivity|]. split; [vm_compute; reflexivity|].
      intros p [->|E%elem_of_nil]%elem_of_cons _; done.
    + intros (r & E & _). change (({["t" := mkPRReservation "t" "acme/widgets" "octomus/t" "now"]} : gmap string PRReservation) !! id = Some r) in E.
      by apply lookup_singleton_Some in E as [? _].
Defined.

Lemma PersistPRInventory_releases_witness :
  let db' := (PersistPRInventory sample_store sample_inventory [] admission_outcome.2).2 in
  db_tasks db' = db_tasks admission_outcome.2.
Proof.
  apply (PersistPRInventory_releases sample_store sample_inventory [] admission_outcome.2 (Ok true)).
  vm_compute. reflexivity.
Defined.
