(* ===== verification/StoreInv.v ===== *)
(** * The store as a whole

    Every operation of the store on the task table, as one step relation on the
    database, and what holds in every database the operations can reach. *)
From S2P Require Import Prelude GoStrings WireJson Enums Types GoErrors Config GoTime Model Samples Lifecycle Store StoreMerges StoreTasks StoreBudget StoreCapacity.
Local Open Scope string_scope.
Local Open Scope list_scope.
Local Open Scope N_scope.

Section store_steps.
  Context `{Unicode} (redact_text : string -> string) (policy_text : option AttemptPolicy -> string)
    (Fingerprint : Config -> result string error).

(** One call of a store operation, whatever it returns, or any write of the
    other records ([store.Put], [store.Event]).  Planned tasks enter the store
    as planning creates them ([fresh]). *)
Inductive store_step (db db' : Db) : Prop :=
| step_Put : db_tasks db' = db_tasks db -> store_step db db'
| step_CommitTask expected next change r :
    CommitTask expected next change db = (r, db') -> store_step db db'
| step_ResetTaskCancellation expected t r :
    ResetTaskCancellation expected t db = (r, db') -> store_step db db'
| step_RetryTask s now expected t r :
    RetryTask redact_text policy_text s now expected t db = (r, db') -> store_step db db'
| step_ArchiveTask now expected t r :
    ArchiveTask now expected t db = (r, db') -> store_step db db'
| step_CancelTask now id r :
    CancelTask now id db = (r, db') -> store_step db db'
| step_MarkCancel now id : MarkCancel now id db = db' -> store_step db db'
| step_ClearCancel id : ClearCancel id db = db' -> store_step db db'
| step_SaveControl s c : SaveControl s c db = db' -> store_step db db'
| step_CompletePublication s now expected t p merge r :
    CompletePublication redact_text s now expected t p merge db = (r, db') -> store_step db db'
| step_BeginBaseline s check r : BeginBaseline s check db = (r, db') -> store_step db db'
| step_CreateRequest req limit r : CreateRequest req limit db = (r, db') -> store_step db db'
| step_UpdateRequest u r : UpdateRequest u db = (r, db') -> store_step db db'
| step_CommitPlan s ctx_err cycle tasks requests r :
    Forall fresh tasks -> CommitPlan s ctx_err cycle tasks requests db = (r, db') -> store_step db db'
| step_AppendCycleSession id session r : AppendCycleSession id session db = (r, db') -> store_step db db'
| step_ReserveSession s measured admission r :
    ReserveSession s measured admission db = (r, db') -> store_step db db'
| step_BeginCycle s cycle control expected fingerprint at_ r :
    BeginCycle Fingerprint s cycle control expected fingerprint at_ db = (r, db') -> store_step db db'
| step_StartBatch s id control at_ r : StartBatch s id control at_ db = (r, db') -> store_step db db'
| step_SeedPRReservation now t r : SeedPRReservation now t db = (r, db') -> store_step db db'
| step_AdmitNewPRTask s now t inventory r :
    AdmitNewPRTask redact_text s now t inventory db = (r, db') -> store_step db db'
| step_PersistPRInventory s inventory released r :
    PersistPRInventory s inventory released db = (r, db') -> store_step db db'
| step_RecordPRObservation now repository p delivered :
    RecordPRObservation now repository p delivered db = db' -> store_step db db'
| step_ClaimMerge s now repository number intent allow r :
    ClaimMerge redact_text s now repository number intent allow db = (r, db') -> store_step db db'
| step_SettleMerge now repository number expected status reason source commit revoke r :
    SettleMerge now repository number expected status reason source commit revoke db = (r, db') ->
    store_step db db'.

(** ** Each step is safe for the task table *)

Lemma safe_transaction {A} (fn : Tx A) db r db' :
  tx_safe fn -> transaction fn db = (r, db') -> table_evolves (db_tasks db) (db_tasks db').
Proof.
  intros S. unfold transaction. destruct (fn db) as [[a db1]|e] eqn:E; intros T; simplify_eq; [|done].
  by eapply S.
Qed.
Lemma safe_conditional (fn : Tx unit) db r db' :
  tx_safe fn -> conditional fn db = (r, db') -> table_evolves (db_tasks db) (db_tasks db').
Proof.
  intros S. unfold conditional. destruct (fn db) as [[a db1]|e] eqn:E; intros T; simplify_eq; [|done].
  by eapply S.
Qed.
Lemma safe_with_capacity capacity (fn : Tx unit) db r db' :
  tx_safe fn -> with_capacity capacity (conditional fn db) = (r, db') ->
  table_evolves (db_tasks db) (db_tasks db').
Proof.
  intros S. unfold with_capacity. destruct (conditional fn db) as [[b|e] db1] eqn:E; intros T; simplify_eq;
    by eapply safe_conditional.
Qed.

Lemma tx_safe_observed repository number : tx_safe (observed_merge repository number).
Proof. intros db [[i o] m] db' (-> & _)%observed_merge_Ok. done. Qed.
Lemma tx_safe_insertReservation id repo branch now b : tx_safe (insertReservation id repo branch now b).
Proof. unfold insertReservation. tx_safe. Qed.
Lemma tx_safe_releaseReservation id : tx_safe (releaseReservation id).
Proof. unfold releaseReservation. tx_safe. Qed.
Hint Resolve tx_safe_observed tx_safe_insertReservation tx_safe_releaseReservation : tx_safe.

Lemma tx_safe_admit s now t inventory : tx_safe (admit_body redact_text s now t inventory).
Proof. unfold admit_body. tx_safe. Qed.
Lemma tx_safe_persist s inventory released : tx_safe (persist_body s inventory released).
Proof. unfold persist_body. tx_safe. Qed.
Lemma tx_safe_claim s now repository number intent allow :
  tx_safe (claim_body redact_text s now repository number intent allow).
Proof. unfold claim_body. tx_safe. Qed.
Lemma tx_safe_settle now repository number expected status reason source commit revoke :
  tx_safe (settle_body now repository number expected status reason source commit revoke).
Proof. unfold settle_body. tx_safe. Qed.
Lemma tx_safe_reserve s measured day admission : tx_safe (reserve_body s measured day admission).
Proof.
  intros db [] db' (db1 & _ & _ & B & _ & _ & T & _)%reserve_body_Ok.
  apply bump_usage_spec in B as (_ & _ & _ & _ & T1 & _). by rewrite T, T1.
Qed.
Lemma tx_safe_begin s cycle control expected fingerprint live capacity :
  tx_safe (begin_body s cycle control expected fingerprint live capacity).
Proof. unfold begin_body. tx_safe. Qed.
Lemma tx_safe_batch s id control capacity : tx_safe (start_body s id control capacity).
Proof. unfold start_body. tx_safe. Qed.
Hint Resolve tx_safe_admit tx_safe_persist tx_safe_claim tx_safe_settle tx_safe_reserve tx_safe_begin
  tx_safe_batch : tx_safe.

Lemma store_step_safe db db' : store_step db db' -> table_evolves (db_tasks db) (db_tasks db').
Proof.
  intros []; subst; try done;
    match goal with
    | C : db_tasks db' = db_tasks db |- _ => by rewrite C
    | C : CommitPlan _ ?e _ _ _ _ = _ |- _ =>
        unfold CommitPlan in C; destruct e; [by simplify_eq|]; eapply safe_transaction; [|exact C]; auto with tx_safe
    | C : ReserveSession _ _ ?a _ = _ |- _ =>
        unfold ReserveSession in C; destruct (parse_rfc3339 (Admission_At a)); [|by simplify_eq];
        eapply safe_transaction; [|exact C]; auto with tx_safe
    | C : BeginCycle _ _ _ _ _ _ _ _ = _ |- _ =>
        unfold BeginCycle in C; destruct (Fingerprint _); [|by simplify_eq];
        eapply safe_with_capacity; [|exact C]; auto with tx_safe
    | C : StartBatch _ _ _ _ _ = _ |- _ => eapply safe_with_capacity; [|exact C]; auto with tx_safe
    | C : ClaimMerge _ _ _ _ _ _ _ _ = _ |- _ =>
        unfold ClaimMerge in C; destruct (negb _); [by simplify_eq|]; eapply safe_conditional; [|exact C];
        auto with tx_safe
    | C : _ = (_, db') |- _ =>
        first [ eapply safe_conditional; [|exact C]; solve [tx_safe]
              | eapply safe_transaction; [|exact C]; solve [tx_safe] ]
    end.
Qed.

Definition store_run : Db -> Db -> Prop := rtc store_step.
Lemma store_run_safe db db' : store_run db db' -> table_evolves (db_tasks db) (db_tasks db').
Proof. induction 1; [done|]. etrans; [by apply store_step_safe|done]. Qed.

(** C15: what every reachable database guarantees.  Starting from an empty
    database, whatever operations ran in whatever order and with whatever
    arguments, successful or refused: every saved task is filed under its own
    identity, and one that is publishing or published has an output commit and,
    in its history, a completed finding-free review round of exactly that
    commit, with the maintenance evidence where its configuration asks for
    it. *)
Theorem reachable_published_reviewed db id t :
  store_run empty_db db -> db_tasks db !! id = Some t ->
  Task_ID t = id /\
  (delivering (Task_Status t) ->
   exists commit round, Task_OutputCommit t = Some commit /\ round ∈ Task_Reviews t /\
     authorized_round (Task_Config t) (Proposal_Category (Task_Proposal t)) commit round).
Proof.
  intros R L. pose proof (store_run_safe _ _ R id) as T. rewrite L in T.
  destruct T as [B I]. split; [done|]. intros D.
  destruct (born_inv _ B) as [Io Ir]. destruct (Io D) as [c O]. destruct (Ir c O) as (round & ? & ?).
  eauto.
Qed.

(** C24: the store never loses or rewrites work.  From any database on, through
    any operations, a saved task stays saved under its identity with the same
    proposal, configuration and branch, its review and verification histories
    only grow, and a commit once authorised for it stays its commit. *)
Theorem store_never_loses db db' id t :
  store_run db db' -> db_tasks db !! id = Some t ->
  exists u, db_tasks db' !! id = Some u /\
    Task_ID u = Task_ID t /\ Task_Proposal u = Task_Proposal t /\ Task_Config u = Task_Config t /\
    Task_Branch u = Task_Branch t /\
    Task_Reviews t `prefix_of` Task_Reviews u /\ Task_Verification t `prefix_of` Task_Verification u /\
    (forall c, Task_OutputCommit t = Some c -> Task_OutputCommit u = Some c).
Proof.
  intros R L. pose proof (store_run_safe _ _ R id) as T. rewrite L in T.
  destruct (db_tasks db' !! id) as [u|]; [|done]. exists u. split; [done|].
  destruct (task_evolves_keeps _ _ T). auto 10.
Qed.
End store_steps.

(** ** Witnesses *)

Definition planned : outcome unit :=
  CommitPlan sample_store None (sample_cycle "cycle-1") [sample_task "t"] [] empty_db.
Lemma planned_run : store_run (fun m => m) (fun _ => "") no_fingerprint empty_db planned.2.
Proof.
  apply rtc_once.
  apply (step_CommitPlan _ _ _ empty_db planned.2 sample_store None (sample_cycle "cycle-1")
           [sample_task "t"] [] (Ok tt)); [by repeat constructor|].
  vm_compute. reflexivity.
Qed.

(** The whole way of a delivery: planned, admitted, reviewed, authorised and
    published. *)
Definition admitted_db : Db := (CommitTask (sample_task "t") (executing_task "t") TaskAdmission planned.2).2.
Definition reviewed_db : Db := (CommitTask (executing_task "t") (reviewing_task "t") TaskCheckpoint admitted_db).2.
Definition authorized_db : Db :=
  (CommitTask (reviewing_task "t") (publishing_task "t" "c") TaskAuthorizePublication reviewed_db).2.
Definition delivered_db : Db :=
  (CompletePublication (fun m => m) sample_store "now" (publishing_task "t" "c") (published_task "t" "c")
     (sample_pr "open" "c") None authorized_db).2.
Lemma delivered_run : store_run (fun m => m) (fun _ => "") no_fingerprint empty_db delivered_db.
Proof.
  apply (rtc_trans _ planned.2 _ planned_run).
  apply (rtc_l _ _ admitted_db); [exact (step_CommitTask _ _ _ _ _ _ _ _ _ (surjective_pairing _))|].
  apply (rtc_l _ _ reviewed_db); [exact (step_CommitTask _ _ _ _ _ _ _ _ _ (surjective_pairing _))|].
  apply (rtc_l _ _ authorized_db); [exact (step_CommitTask _ _ _ _ _ _ _ _ _ (surjective_pairing _))|].
  apply rtc_once. exact (step_CompletePublication _ _ _ _ _ _ _ _ _ _ _ _ (surjective_pairing _)).
Qed.

Lemma reachable_published_reviewed_witness :
  db_tasks delivered_db !! "t" = Some (published_task "t" "c") /\
  exists commit round, Task_OutputCommit (published_task "t" "c") = Some commit /\
    round ∈ Task_Reviews (published_task "t" "c") /\ authorized_round sample_config "correctness" commit round.
Proof.
  assert (db_tasks delivered_db !! "t" = Some (published_task "t" "c")) as L by (vm_compute; reflexivity).
  split; [exact L|].
  apply (reachable_published_reviewed (fun m => m) (fun _ => "") no_fingerprint delivered_db "t" (published_task "t" "c")
    delivered_run L). by right.
Defined.

Lemma store_never_loses_witness :
  exists u, db_tasks (CancelTask "now" "t" planned.2).2 !! "t" = Some u /\
    Task_ID u = "t" /\ Task_Proposal u = Task_Proposal (sample_task "t") /\
    Task_Config u = sample_config /\ Task_Branch u = Task_Branch (sample_task "t") /\
    [] `prefix_of` Task_Reviews u /\ [] `prefix_of` Task_Verification u /\
    (forall c, None = Some c -> Task_OutputCommit u = Some c).
Proof.
  apply (store_never_loses (fun m => m) (fun _ => "") no_fingerprint planned.2
           (CancelTask "now" "t" planned.2).2 "t" (sample_task "t")).
  - apply rtc_once. apply (step_CancelTask _ _ _ _ _ "now" "t" (Ok true)).
    vm_compute. reflexivity.
  - vm_compute. reflexivity.
Defined.
