(* ===== verification/Runtime.v ===== *)
(** * The engine's memory ([internal/engine/runtime.go], [controls.go])

    What a running engine keeps beside the database: its workers, its
    observation of the pull requests, its claims and its recovery barriers.
    An operation is a function on the whole state that may fail: what it did
    before it failed stays done.  [runtimeMu] makes each block of accesses one
    step and the gate serialises the operations, so both locks are implicit;
    [notify] only wakes the scheduler and is left out, and so are the cancel
    functions of contexts, but for that of a refresh.

    Every reading of the clock, of [a.ctx.Err()] and of a task record is
    numbered, and the class [World] says what each sees: the context, once done,
    stays done, and any [store.Get] of a task may fail. *)
From S2P Require Import Prelude GoStrings WireJson Enums Types GoErrors Config GoTime Model Lifecycle Store StoreMerges StoreTasks StoreBudget StoreCapacity.
Local Open Scope string_scope.
Local Open Scope list_scope.
Local Open Scope N_scope.

Class World := {
  (** The text of an error, as [fmt] renders it. *)
  Error : error -> string;
  (** [redact.Text]. *)
  redact_text : string -> string;
  stops : nat -> bool;
  stops_final n m : (n <= m)%nat -> stops n = true -> stops m = true;
  clock : nat -> instant;
  (** The error of a [store.Get], if it fails. *)
  Get_error : nat -> option error;
  (** [model.ID]: a random UUID. *)
  fresh_id : nat -> string;
  (** [workspace.GitDir] finds the git metadata of a work tree. *)
  GitDir_found : string -> bool;
  (** [ORDER BY seq]: rows in the order in which they were first written. *)
  by_seq : list Task -> list Task;
  by_seq_perm tasks : by_seq tasks ≡ₚ tasks;
}.

(** [Time.Sub]: a duration in nanoseconds, saturated at the width of [int64]. *)
Definition max_duration : Z := 9223372036854775807.
Definition Sub (a b : instant) : Z :=
  (Z.max (- max_duration - 1) (Z.min max_duration ((unix a - unix b) * 1000000000 + (nanos a - nanos b))))%Z.
Definition Second : Z := 1000000000.
Definition Minute : Z := (60 * Second)%Z.
Definition Hour : Z := (60 * Minute)%Z.
(** [time.Time{}]: midnight of the first of January of the year 1. *)
Definition zero_time : instant := mkInstant (-62135596800) 0.

(** ** Errors of the engine ([controls.go]) *)

Inductive ActionErrorCode :=
| ActionConflict | ConfigRevisionConflict | ActiveWorkConflict | UnresolvedWorkConflict
| RecoveryPendingConflict | NoActionCode.
#[export] Instance ActionErrorCode_eq_dec : EqDecision ActionErrorCode.
Proof. solve_decision. Defined.

(** An error, an [*actionConflict], a [NotFound], a [*capacityError], a
    [*recoveryError], the [errors.Join] of two, or a panic, which is no error
    and which no code here recovers from. *)
Inductive failure :=
| Failed (e : error)
| Conflict (code : ActionErrorCode) (msg : string)
| NotFound (msg : string)
| CapacityFailed (capacity : PlanningCapacity)
| RecoveryFailed (err : failure)
| Joined (a b : failure)
| Panicked (msg : string).

Definition codedConflict (code : ActionErrorCode) (msg : string) : failure := Conflict code msg.
Definition conflictError (msg : string) : failure := codedConflict ActionConflict msg.
Definition errNotPaused : failure := conflictError "Octomus must be paused for this operation".
Definition errBusy : failure := codedConflict ActiveWorkConflict "Octomus has active work".
Definition errRecoveryBlocked : failure :=
  codedConflict RecoveryPendingConflict "Wait for saved-state recovery to finish before starting new work.".

(** [model.BlockedReasonFromError] and [errors.As] through the wrappers. *)
Fixpoint failure_visit (err : failure) (reason : BlockedReason) : BlockedReason :=
  match err with
  | Failed e => visit e reason
  | CapacityFailed _ => BlockedBudgetExhausted
  | RecoveryFailed err => failure_visit err reason
  | Joined a b => failure_visit b (failure_visit a reason)
  | Conflict _ _ | NotFound _ | Panicked _ => reason
  end.
Definition failure_reason (err : failure) : BlockedReason := failure_visit err BlockedUnknown.
Fixpoint conflict_code (err : failure) : option ActionErrorCode :=
  match err with
  | Conflict code _ => Some code
  | RecoveryFailed err => conflict_code err
  | Joined a b => match conflict_code a with Some code => Some code | None => conflict_code b end
  | Failed _ | NotFound _ | CapacityFailed _ | Panicked _ => None
  end.
(** [errors.Join] of errors that may be nil. *)
Definition JoinErrors (a b : option failure) : option failure :=
  match a, b with
  | Some a, Some b => Some (Joined a b)
  | Some err, None | None, Some err => Some err
  | None, None => None
  end.
Definition ActionCode (err : failure) : ActionErrorCode :=
  match conflict_code err with
  | Some code => code
  | None => if bool_decide (failure_reason err = BlockedUnknown) then NoActionCode else ActionConflict
  end.
Definition IsActionConflict (err : failure) : bool :=
  isSome (conflict_code err) || negb (bool_decide (failure_reason err = BlockedUnknown)).

(** ** The state ([runtime.go]) *)

Inductive taskWorkerKind := executionWorker | reconciliationWorker.
#[export] Instance taskWorkerKind_eq_dec : EqDecision taskWorkerKind.
Proof. solve_decision. Defined.
Record cycleJob := mkCycleJob { cycleJob_id : string; cycleJob_mode : CycleMode }.
Record taskJob := mkTaskJob {
  job_branch : string; job_kind : taskWorkerKind; job_committed : Task; job_pending : option Task }.
#[export] Instance eta_taskJob : Eta taskJob := fun r =>
  mkTaskJob (job_branch r) (job_kind r) (job_committed r) (job_pending r).
Record freshPRs := mkFreshPRs {
  freshPRs_policy : Config; freshPRs_inventory : OpenPRInventory; freshPRs_fetchedAt : instant;
  freshPRs_admissionConsumed : bool }.
#[export] Instance eta_freshPRs : Eta freshPRs := fun r =>
  mkFreshPRs (freshPRs_policy r) (freshPRs_inventory r) (freshPRs_fetchedAt r) (freshPRs_admissionConsumed r).
Record cleanupReport := mkCleanupReport { cleanupReport_message : string; cleanupReport_at : instant }.
Record mergePrecheck := mkMergePrecheck {
  pre_message : string; pre_repository : string; pre_number : N; pre_expected : AutoMergeState;
  pre_status : AutoMergeStatus; pre_reason : string; pre_source : string; pre_commit : option string;
  pre_revoke : bool }.
Definition cleanupKind := string.
Definition cleanupTask : cleanupKind := "task".
Definition cleanupCycle : cleanupKind := "cycle".
Definition cleanupBaseline : cleanupKind := "baseline".
Definition cleanupKey : Type := cleanupKind * string.

(** A [*taskJob] is its address; a [*prRefreshJob], [*mergeJob] or
    [*baselineJob] holds a cancel function and nothing else that is read but
    the identity of a baseline. *)
Record runtimeState := mkRuntime {
  rt_cycle : option cycleJob;
  rt_preflight : option CycleMode;
  rt_tasks : gmap string N;
  rt_settlements : gmap string N;
  rt_checkedCycles : gset string;
  rt_prRefresh : option N;
  rt_prObservation : option freshPRs;
  rt_prRefreshError : string;
  rt_lastPRAttempt : instant;
  rt_prAdmissionRefused : bool;
  rt_housekeeping : bool;
  rt_lastRetention : instant;
  rt_lastObserve : instant;
  rt_baseline : option string;
  rt_merges : gset string;
  rt_mergeWorker : bool;
  rt_mergeCursor : Z;
  rt_lastMergeCheck : instant;
  rt_mergeRecoveryErrors : gmap string string;
  rt_mergePrecheckErrors : gmap string mergePrecheck;
  rt_defaultObservation : option DefaultBranchObservation;
  rt_cleanups : gset cleanupKey;
  rt_cleanupReports : gmap cleanupKey cleanupReport;
  rt_retentionCursors : gmap cleanupKind string;
  rt_activeRecoveryError : option string;
  rt_cancelScanDone : bool;
}.
#[export] Instance eta_runtimeState : Eta runtimeState := fun r =>
  mkRuntime (rt_cycle r) (rt_preflight r) (rt_tasks r) (rt_settlements r) (rt_checkedCycles r) (rt_prRefresh r)
    (rt_prObservation r) (rt_prRefreshError r) (rt_lastPRAttempt r) (rt_prAdmissionRefused r) (rt_housekeeping r)
    (rt_lastRetention r) (rt_lastObserve r) (rt_baseline r) (rt_merges r) (rt_mergeWorker r) (rt_mergeCursor r)
    (rt_lastMergeCheck r) (rt_mergeRecoveryErrors r) (rt_mergePrecheckErrors r) (rt_defaultObservation r)
    (rt_cleanups r) (rt_cleanupReports r) (rt_retentionCursors r) (rt_activeRecoveryError r) (rt_cancelScanDone r).
Definition empty_runtime : runtimeState :=
  mkRuntime None None ∅ ∅ ∅ None None "" zero_time false false zero_time zero_time None ∅ false 0 zero_time ∅ ∅
    None ∅ ∅ ∅ None false.

(** The first eight causes and the overflow notice of a recovery episode. *)
Record recoveryActivity := mkRecoveryActivity {
  recovery_causes : list string; recovery_overflowRecorded : bool }.

(** The application: the database, the runtime, the jobs its pointers point to,
    and what it started: the workers [runTask] runs, with their tasks, the
    refreshes, and the refreshes it cancelled. *)
Record App := mkApp {
  app_db : Db;
  app_runtime : runtimeState;
  app_jobs : gmap N taskJob;
  app_next : N;
  app_recoveryLog : recoveryActivity;
  app_reads : nat;
  app_started : list Task;
  app_refreshes : list N;
  app_cancelled : list N;
}.
#[export] Instance eta_App : Eta App := fun r =>
  mkApp (app_db r) (app_runtime r) (app_jobs r) (app_next r) (app_recoveryLog r) (app_reads r) (app_started r)
    (app_refreshes r) (app_cancelled r).
Definition new_app (db : Db) : App := mkApp db empty_runtime ∅ 0 (mkRecoveryActivity [] false) 0 [] [] [].

(** ** Operations *)

(** A function on a state that may fail; the state is an [App], or what a worker
    adds to it. *)
Definition Op (X A : Type) : Type := X -> result A failure * X.
Notation M := (Op App).
Definition m_ret {X A} (x : A) : Op X A := fun a => (Ok x, a).
Definition m_fail {X A} (err : failure) : Op X A := fun a => (Err err, a).
Definition m_bind {X A B} (m : Op X A) (k : A -> Op X B) : Op X B :=
  fun a => match m a with (Ok x, a') => k x a' | (Err err, a') => (Err err, a') end.
Definition m_read {X A} (f : X -> A) : Op X A := fun a => (Ok (f a), a).
Definition m_write {X} (f : X -> X) : Op X unit := fun a => (Ok tt, f a).
(** A call of the store; its error is passed on. *)
Definition m_store {A} (op : Db -> outcome A) : M A :=
  fun a => match op (app_db a) with
           | (Ok x, db) => (Ok x, a <| app_db := db |>)
           | (Err e, db) => (Err (Failed e), a <| app_db := db |>)
           end.
(** [x, err := m()], with [err] looked at by the code that follows. *)
Definition m_try {X A} (m : Op X A) : Op X (result A failure) :=
  fun a => match m a with
           | (Err (Panicked msg), a') => (Err (Panicked msg), a')
           | (r, a') => (Ok r, a')
           end.
Definition m_lift {X A} (r : result A failure) : Op X A := fun a => (r, a).

Notation "'go!' x <- m 'in' k" := (m_bind m (fun x => k))
  (at level 10, x pattern, m at level 100, k at level 200) : go_scope.
(** [check c else err ; k] is [if !c { return err }]. *)
Notation "'check' c 'else' e ; k" := (if c then k else m_fail e)
  (at level 10, c at level 100, e at level 100, k at level 200) : go_scope.

Definition m_runtime {A} (f : runtimeState -> A) : M A := m_read (fun a => f (app_runtime a)).
Definition m_update (f : runtimeState -> runtimeState) : M unit :=
  m_write (fun a => a <| app_runtime := f (app_runtime a) |>).

Section runtime.
Context `{World}.

Fixpoint failure_text (err : failure) : string :=
  match err with
  | Failed e => Error e
  | Conflict _ msg | NotFound msg => msg
  | CapacityFailed capacity => Error (Capacity_Message capacity)
  | RecoveryFailed err => failure_text err
  | Joined a b => failure_text a +:+ String "010" (failure_text b)
  | Panicked msg => msg
  end.
(** [redact.Error]. *)
Definition redact_error (err : failure) : string := redact_text (failure_text err).

(** [a.ctx.Err() != nil] and [time.Now()]. *)
Definition stopped : M bool := fun a => (Ok (stops (app_reads a)), a <| app_reads := S (app_reads a) |>).
Definition new_id : M string := fun a => (Ok (fresh_id (app_reads a)), a <| app_reads := S (app_reads a) |>).
Definition time_now : M instant := fun a => (Ok (clock (app_reads a)), a <| app_reads := S (app_reads a) |>).

(** [store.Event], whose error the callers drop. *)
Definition Event (s : Store) (entity : string) (kind : EventKind) (message : string) : M unit :=
  go! now <- time_now in
  m_store (transaction (txRepositoryEvent redact_text (Timestamp now) (Store_repo s) entity kind message)).

(** ** Predicates and claims ([runtime.go]) *)

Definition planning (r : runtimeState) : bool := isSome (rt_cycle r) || isSome (rt_preflight r).
Definition idle (r : runtimeState) : bool :=
  negb (planning r) && (N.of_nat (size (rt_tasks r)) =? 0) && (N.of_nat (size (rt_settlements r)) =? 0)
  && isNone (rt_baseline r) && negb (rt_mergeWorker r).
Definition is_reconciliation (jobs : gmap N taskJob) (j : N) : bool :=
  match jobs !! j with Some job => bool_decide (job_kind job = reconciliationWorker) | None => false end.
Definition reconciling (jobs : gmap N taskJob) (r : runtimeState) : bool :=
  existsb (fun e => is_reconciliation jobs e.2) (map_to_list (rt_tasks r)).
Definition auditActive (r : runtimeState) : bool :=
  match rt_cycle r with Some job => bool_decide (cycleJob_mode job = CycleModeAudit) | None => false end
  || bool_decide (rt_preflight r = Some CycleModeAudit).
Definition startPreflight (mode : CycleMode) (r : runtimeState) : runtimeState := r <| rt_preflight := Some mode |>.
Definition endPreflight : M unit := m_update (fun r => r <| rt_preflight := None |>).

(** In the order of the maps' keys; the code's order is Go's random one. *)
Definition ownedTaskIDs (r : runtimeState) : list string :=
  (map_to_list (rt_tasks r)).*1 ++ (map_to_list (rt_settlements r)).*1
  ++ map snd (List.filter (fun key => bool_decide (key.1 = cleanupTask)) (elements (rt_cleanups r))).

Definition setRecoveryError (err : failure) : M string :=
  let message := redact_error err in
  go! _ <- m_update (fun r => r <| rt_activeRecoveryError := Some message |>) in
  m_ret message.
Definition blockRecovery {A} (err : failure) : M A :=
  go! _ <- setRecoveryError err in m_fail (RecoveryFailed err).
Definition recovery_blocked (r : runtimeState) : bool :=
  isSome (rt_activeRecoveryError r) || negb (bool_decide (rt_mergeRecoveryErrors r = ∅))
  || negb (N.of_nat (size (rt_mergePrecheckErrors r)) =? 0).
Definition recoveryConflict : M (option failure) :=
  m_runtime (fun r => if recovery_blocked r then Some errRecoveryBlocked else None).

Definition cleanupClaimed (kind : cleanupKind) (id : string) (r : runtimeState) : bool :=
  bool_decide ((kind, id) ∈ rt_cleanups r).
Definition claimCleanup (kind : cleanupKind) (id : string) : M bool :=
  go! owned <- m_runtime (cleanupClaimed kind id) in
  if owned then m_ret false else
  go! _ <- m_update (fun r => r <| rt_cleanups := {[(kind, id)]} ∪ rt_cleanups r |>) in
  m_ret true.
Definition releaseCleanup (kind : cleanupKind) (id : string) : M unit :=
  m_update (fun r =>
    let r := r <| rt_cleanups := rt_cleanups r ∖ {[(kind, id)]} |> in
    if bool_decide (kind = cleanupTask) then r <| rt_cancelScanDone := false |> else r).

Definition cleanupReportInterval : Z := (24 * Hour)%Z.
Definition clearCleanupReport (kind : cleanupKind) (id : string) : M unit :=
  m_update (fun r => r <| rt_cleanupReports := delete (kind, id) (rt_cleanupReports r) |>).
Definition reportCleanupFailure (s : Store) (kind : cleanupKind) (id : string) (err : failure) : M unit :=
  let message := redact_error err in
  go! now <- time_now in
  go! last <- m_runtime (fun r => rt_cleanupReports r !! (kind, id)) in
  let recent := match last with
                | Some last => bool_decide (cleanupReport_message last = message)
                               && (Sub now (cleanupReport_at last) <? cleanupReportInterval)%Z
                | None => false
                end in
  if recent then m_ret tt else
  go! _ <- m_update (fun r => r <| rt_cleanupReports :=
      <[(kind, id) := mkCleanupReport message now]> (rt_cleanupReports r) |>) in
  go! reported <- m_try (Event s id EventCleanupError message) in
  match reported with
  | Ok _ => m_ret tt
  | Err err => go! _ <- clearCleanupReport kind id in m_fail err
  end.
End runtime.

(** ** Reasoning about operations

    [wp m Q a]: what [m] returns and leaves when it starts in [a] satisfies
    [Q].  Operations always return, so this is total correctness. *)

Definition wp {X A} (m : Op X A) (Q : result A failure -> X -> Prop) (a : X) : Prop := Q (fst (m a)) (snd (m a)).

Lemma wp_mono {X A} (m : Op X A) (P Q : result A failure -> X -> Prop) a :
  wp m P a -> (forall r a', P r a' -> Q r a') -> wp m Q a.
Proof. unfold wp. auto. Qed.
Lemma wp_elim {X A} (m : Op X A) (Q : result A failure -> X -> Prop) a r a' : wp m Q a -> m a = (r, a') -> Q r a'.
Proof. unfold wp. intros W E. by rewrite E in W. Qed.
Lemma wp_intro {X A} (m : Op X A) (Q : result A failure -> X -> Prop) a : (forall r a', m a = (r, a') -> Q r a') -> wp m Q a.
Proof. unfold wp. intros E. by apply E, surjective_pairing. Qed.
Lemma wp_ret {X A} (x : A) Q (a : X) : Q (Ok x) a -> wp (m_ret x) Q a.
Proof. done. Qed.
Lemma wp_fail {X A} err (Q : result A failure -> X -> Prop) a : Q (Err err) a -> wp (m_fail err) Q a.
Proof. done. Qed.
Lemma wp_read {X A} (f : X -> A) Q a : Q (Ok (f a)) a -> wp (m_read f) Q a.
Proof. done. Qed.
Lemma wp_runtime {A} (f : runtimeState -> A) Q a : Q (Ok (f (app_runtime a))) a -> wp (m_runtime f) Q a.
Proof. done. Qed.
Lemma wp_write {X} f (Q : result unit failure -> X -> Prop) a : Q (Ok tt) (f a) -> wp (m_write f) Q a.
Proof. done. Qed.
Lemma wp_update f (Q : result unit failure -> App -> Prop) a :
  Q (Ok tt) (a <| app_runtime := f (app_runtime a) |>) -> wp (m_update f) Q a.
Proof. done. Qed.
Lemma wp_bind {X A B} (m : Op X A) (k : A -> Op X B) Q a :
  wp m (fun r a1 => match r with Ok x => wp (k x) Q a1 | Err err => Q (Err err) a1 end) a -> wp (m_bind m k) Q a.
Proof. unfold wp, m_bind. by destruct (m a) as [[x|err] a1]. Qed.
Lemma wp_store {A} (op : Db -> outcome A) Q a :
  (forall r db, op (app_db a) = (r, db) ->
     Q (match r with Ok x => Ok x | Err e => Err (Failed e) end) (a <| app_db := db |>)) -> wp (m_store op) Q a.
Proof.
  intros E. unfold wp, m_store. specialize (E (fst (op (app_db a))) (snd (op (app_db a))) (surjective_pairing _)).
  by destruct (op (app_db a)) as [[x|e] db].
Qed.
Lemma wp_try {X A} (m : Op X A) Q a :
  wp m (fun r a1 => match r with Err (Panicked msg) => Q (Err (Panicked msg)) a1 | _ => Q (Ok r) a1 end) a ->
  wp (m_try m) Q a.
Proof. unfold wp, m_try. by destruct (m a) as [[x|[]] a1]. Qed.

(** The operation changes the database and reads the clock or the context, and
    does nothing else. *)
Definition db_only (a a' : App) : Prop := exists db n, a' = a <| app_db := db |> <| app_reads := n |>.
#[export] Instance db_only_preorder : PreOrder db_only.
Proof.
  split.
  - intros []. by exists app_db0, app_reads0.
  - intros a b c (db1 & n1 & ->) (db2 & n2 & ->). by exists db2, n2.
Qed.
Lemma db_only_reads a n : db_only a (a <| app_reads := n |>).
Proof. destruct a. by exists app_db0, n. Qed.
Lemma db_only_db a db : db_only a (a <| app_db := db |>).
Proof. destruct a. by exists db, app_reads0. Qed.
#[export] Hint Resolve db_only_reads db_only_db : core.

Section runtime_facts.
Context `{World}.

Lemma wp_stopped Q a :
  Q (Ok (stops (app_reads a))) (a <| app_reads := S (app_reads a) |>) -> wp stopped Q a.
Proof. done. Qed.
Lemma wp_now Q a : Q (Ok (clock (app_reads a))) (a <| app_reads := S (app_reads a) |>) -> wp time_now Q a.
Proof. done. Qed.

(** An event is always recorded, and changes nothing but the log. *)
Lemma wp_event s entity kind message Q a :
  (forall events n, Q (Ok tt) (a <| app_db := (app_db a) <| db_events := events |> |> <| app_reads := n |>)) ->
  wp (Event s entity kind message) Q a.
Proof.
  intros E. unfold Event. apply wp_bind, wp_now, wp_store. intros r db C.
  unfold transaction, txRepositoryEvent, tx_write in C. injection C as <- <-. destruct a. apply E.
Qed.
End runtime_facts.

(** Runs an operation one step: binds, reads, writes and returns. *)
Ltac wp_step :=
  match goal with
  | |- wp (m_bind _ _) _ _ => apply wp_bind
  | |- wp (m_ret _) _ _ => apply wp_ret
  | |- wp (m_fail _) _ _ => apply wp_fail
  | |- wp (m_read _) _ _ => apply wp_read
  | |- wp (m_runtime _) _ _ => apply wp_runtime
  | |- wp (m_write _) _ _ => apply wp_write
  | |- wp (m_update _) _ _ => apply wp_update
  | |- wp (m_try _) _ _ => apply wp_try
  | |- wp stopped _ _ => apply wp_stopped
  | |- wp time_now _ _ => apply wp_now
  end.
Ltac wp_go := repeat (wp_step; cbv beta iota).

(** ** A concrete world: nothing stops, and the clock stands still. *)
Lemma never_stops n m : (n <= m)%nat -> false = true -> false = true.
Proof. done. Qed.
#[export] Instance sample_world : World := {
  Error := fun _ => "error"; redact_text := fun text => text;
  stops := fun _ => false; stops_final := never_stops;
  clock := fun _ => sample_instant; Get_error := fun _ => None; fresh_id := fun _ => "id"; GitDir_found := fun _ => true;
  by_seq := fun tasks => tasks; by_seq_perm := reflexivity }.
