(* ===== verification/Observations.v ===== *)
(** * What the engine knows of the pull requests
    ([internal/engine/capacity.go], [observation.go], [eligibility.go])

    An observation of the open pull requests authorises one admission pass, for
    a minute, under the policy it was made for.  The dashboard's capacity and
    the controls an operator is offered are computed from it and from the
    runtime. *)
From S2P Require Import Prelude GoStrings WireJson Enums Types GoErrors Config GoTime Model Lifecycle Store StoreMerges StoreTasks StoreBudget StoreCapacity Runtime.
Local Open Scope string_scope.
Local Open Scope list_scope.
Local Open Scope N_scope.

Definition observeInterval : Z := (5 * Minute)%Z.
Definition observationLifetime : Z := (2 * observeInterval)%Z.
Definition prAdmissionLifetime : Z := Minute.
Definition prRefreshRetryDelay : Z := Minute.

Definition prFullReason : string :=
  "The configured owned open-PR limit is reached; new-PR work waits for an observed closure or merge".

Section observations.
Context `{Unicode} `{World} (s : Store).

(** ** Capacity ([capacity.go]) *)

Definition invalidatePRs : M unit :=
  m_write (fun a =>
    let r := app_runtime a in
    let a := match rt_prRefresh r with
             | Some job => a <| app_cancelled := app_cancelled a ++ [job] |>
             | None => a
             end in
    a <| app_runtime := r <| rt_prRefresh := None |> <| rt_prObservation := None |>
           <| rt_prRefreshError := "" |> <| rt_lastPRAttempt := zero_time |>
           <| rt_prAdmissionRefused := false |> |>).

Definition claimInventory (cfg : Config) (now : instant) : M (option OpenPRInventory * string) :=
  go! r <- m_runtime id in
  match rt_prObservation r with
  | None =>
    if negb (bool_decide (rt_prRefreshError r = "")) then m_ret (None, rt_prRefreshError r) else
    m_ret (None, "A current-process pull request observation is required")
  | Some observation =>
    if negb (SamePRPolicy (freshPRs_policy observation) cfg)
    then m_ret (None, "The pull request observation belongs to different repository policy") else
    if freshPRs_admissionConsumed observation
    then m_ret (None, "The pull request observation has already authorized an admission batch") else
    if (prAdmissionLifetime <? Sub now (freshPRs_fetchedAt observation))%Z
    then m_ret (None, "The pull request observation is stale") else
    go! _ <- m_update (fun r => r <| rt_prObservation :=
        Some (observation <| freshPRs_admissionConsumed := true |>) |>) in
    m_ret (Some (freshPRs_inventory observation), "")
  end.

Definition capacityOf (cfg : Config) (inventory : OpenPRInventory) (reservations : list PRReservation)
    : PRCapacity * N :=
  let '(owned, unrepresented, remaining) := PRUnion inventory reservations (Config_MaxOpenPRs cfg) in
  let capacity := mkPRCapacity (Config_MaxOpenPRs cfg) (Some owned) unrepresented (Some remaining)
                    (Some (OpenPRInventory_ObservedAt inventory)) "ready" None in
  (if remaining =? 0
   then capacity <| PRCapacity_Status := "full" |> <| PRCapacity_Reason := Some prFullReason |>
   else capacity, remaining).

(** The observation's part of [prCapacity], read under the runtime's lock. *)
Definition fresh_observation (cfg : Config) (stored : option OpenPRInventory) (now : instant) (r : runtimeState) : bool :=
  bool_decide (rt_prRefreshError r = "") &&
  match rt_prObservation r with
  | Some observation => SamePRPolicy (freshPRs_policy observation) cfg
                        && (Sub now (freshPRs_fetchedAt observation) <=? observationLifetime)%Z && isSome stored
  | None => false
  end.
Definition capacity_status (cfg : Config) (stored : option OpenPRInventory) (fresh : bool) (remaining : N)
    (r : runtimeState) : string * string :=
  let lastError := rt_prRefreshError r in
  if isSome (rt_prRefresh r) then
    ("refreshing", "Refreshing the open-PR inventory" +:+
       (if bool_decide (lastError = "") then "" else " after a failure: " +:+ lastError))
  else if negb fresh then
    ("unavailable",
     if negb (bool_decide (lastError = "")) then lastError else
     match rt_prObservation r, stored with
     | Some observation, Some _ =>
       if negb (SamePRPolicy (freshPRs_policy observation) cfg)
       then "Configuration changed since the last complete open-PR inventory"
       else "The last complete open-PR inventory is stale"
     | _, _ => "No complete open-PR inventory has been observed"
     end)
  else if remaining =? 0 then ("full", prFullReason)
  else ("ready", "").
Definition stored_inventory (cfg : Config) (db : Db) : option OpenPRInventory :=
  match db_inventories db !! prInventoryKey s with
  | Some inventory =>
    if EqualASCII (OpenPRInventory_Repository inventory) (Config_GitHubRepo cfg) then Some inventory else None
  | None => None
  end.
Definition prCapacity (cfg : Config) : M PRCapacity :=
  go! reservations <- m_read (fun a => reservationRows (Config_GitHubRepo cfg) (app_db a)) in
  go! stored <- m_read (fun a => stored_inventory cfg (app_db a)) in
  let '(capacity, remaining) :=
    match stored with
    | Some inventory => capacityOf cfg inventory reservations
    | None => (mkPRCapacity (Config_MaxOpenPRs cfg) None (lenN reservations) None None "" None, 0)
    end in
  go! now <- time_now in
  go! fresh <- m_runtime (fresh_observation cfg stored now) in
  go! status <- m_runtime (capacity_status cfg stored fresh remaining) in
  let '(status, reason) := status in
  let capacity := capacity <| PRCapacity_Status := status |> <| PRCapacity_Reason := None |> in
  let capacity := if fresh then capacity else capacity <| PRCapacity_Remaining := None |> in
  m_ret (if bool_decide (reason = "") then capacity else capacity <| PRCapacity_Reason := Some reason |>).

(** The goroutine of the refresh is the new entry of [app_refreshes]. *)
Definition startPRRefresh (cfg : Config) : M unit :=
  go! inFlight <- m_runtime (fun r => isSome (rt_prRefresh r)) in
  go! stop <- stopped in
  if stop || inFlight then m_ret tt else
  go! capacity <- m_try (prCapacity cfg) in
  let available :=
    match capacity with
    | Ok capacity => match PRCapacity_Remaining capacity with Some remaining => 0 <? remaining | None => false end
    | Err _ => false
    end in
  go! r <- m_runtime id in
  let paced := negb available || rt_prAdmissionRefused r in
  go! stop <- stopped in
  go! now <- time_now in
  if stop || isSome (rt_prRefresh r) || (paced && (Sub now (rt_lastPRAttempt r) <? prRefreshRetryDelay)%Z)
  then m_ret tt else
  go! now <- time_now in
  m_write (fun a =>
    let job := app_next a in
    a <| app_next := job + 1 |> <| app_refreshes := app_refreshes a ++ [job] |>
      <| app_runtime := (app_runtime a) <| rt_prRefresh := Some job |> <| rt_lastPRAttempt := now |> |>).

(** ** Observations of the remote ([observation.go]) *)

Definition observe_newer (existing : DefaultBranchObservation) (observed : instant) : bool :=
  match parse_rfc3339 (DefaultBranchObservation_ObservedAt existing) with
  | Some at_ => negb (before at_ observed)
  | None => true
  end.
Definition observeLocked (cfg : Config) (revision observedAt : string) : M unit :=
  match parse_rfc3339 observedAt with
  | None => m_fail (Failed invalid_time)
  | Some observed =>
    go! existing <- m_runtime rt_defaultObservation in
    let keep := match existing with
                | Some existing => Observation_Describes existing cfg && observe_newer existing observed
                | None => false
                end in
    if keep then m_ret tt else
    m_update (fun r => r <| rt_defaultObservation :=
      Some (mkDefaultBranchObservation (Config_GitHubRepo cfg) (Config_DefaultBranch cfg) revision observedAt) |>)
  end.

(** [ordinary] may wrap at the width of [int64]. *)
Definition applyContextFingerprint (fingerprint : string) (now : instant) (interval : N) (control : Control) : Control :=
  let changed := negb (bool_decide (Control_ContextFingerprint control = ""))
                 && negb (bool_decide (Control_ContextFingerprint control = fingerprint)) in
  let control :=
    if changed then
      let control :=
        if 1 <? Control_IdleStreak control then
          let ordinary := int64 (unix now + int64 (Z.of_N interval)) in
          if (ordinary <? Control_NextCycleAt control)%Z then control <| Control_NextCycleAt := ordinary |> else control
        else control in
      control <| Control_IdleStreak := 0 |>
    else control in
  control <| Control_ContextFingerprint := fingerprint |>.

(** [App.Control]. *)
Definition Control_ : M Control := m_read (fun a => liveControl (ControlKey s) (app_db a)).
End observations.
