(* ===== verification/TaskWorkers.v ===== *)
(** * Task workers and their settlement
    ([internal/engine/task_commit.go], [task_worker.go])

    A worker owns a task between its admission and its settlement through a
    [*taskJob]: the record it last committed, and the one it could not commit.
    [ctx] of a worker is the address of its job.  When a worker exits, the
    durable record is settled, or its evidence is kept and the engine's
    recovery barrier goes up. *)
From S2P Require Import Prelude GoStrings WireJson Enums Types GoErrors Config GoTime Model Samples Lifecycle Store StoreMerges StoreTasks StoreBudget StoreCapacity Runtime Observations.
Local Open Scope string_scope.
Local Open Scope list_scope.
Local Open Scope N_scope.

(** [strings.ToUpper] of an ASCII byte. *)
Definition upper (c : ascii) : ascii :=
  let n := N_of_ascii c in if in_range 97 122 n then ascii_of_N (n - 32) else c.
Definition statusLabel (status : Status) : string :=
  match enum_String status with
  | EmptyString => ""
  | String c name => String (upper c) name
  end.

(** [errors.Is] for a sentinel made by [errors.New]. *)
Fixpoint fails_with (target : string) (err : failure) : bool :=
  match err with
  | Failed e => error_is target e
  | RecoveryFailed err => fails_with target err
  | Joined a b => fails_with target a || fails_with target b
  | _ => false
  end.
Definition is_task_conflict : failure -> bool := fails_with "Task changed since its last committed checkpoint".
Definition is_task_invalid : failure -> bool := fails_with "Task change is invalid".
(** [context.Canceled]. *)
Definition is_canceled : failure -> bool := fails_with "context canceled".

Definition manualMergeReason `{Unicode} (t : Task) (live : Config) : string :=
  let '(maxLines, maxFiles) := AutoMergeLimits (Task_Config t) live in
  match Task_MaintenanceFootprint t with
  | None => "No trusted footprint evidence is recorded"
  | Some footprint =>
    if negb (MaintenanceFootprint_Complete footprint) then "The trusted footprint measurement is incomplete" else
    match MaintenanceFootprint_ManualReasons footprint with
    | reason :: _ => reason
    | [] =>
      match MaintenanceFootprint_ChangedLines footprint, MaintenanceFootprint_ChangedFiles footprint with
      | Some lines, Some files =>
        match last (Task_Reviews t) with
        | None => "No maintenance assessment is recorded"
        | Some round =>
          match ReviewRound_Maintenance round with
          | None => "No maintenance assessment is recorded"
          | Some assessment =>
            if negb (MaintenanceAssessment_Qualifies assessment)
            then "The delivery was not assessed as maintenance" else
            if MaintenanceAssessment_ManualMergeRequired assessment
            then "Sensitive changes require a manual merge" else
            if negb (ReviewRound_TrustedDiffComplete round)
            then "The complete trusted diff did not fit the review" else
            if (maxLines <? lines) || (maxFiles <? files)
            then "The full pull request footprint exceeds the automatic merge limits" else
            if existsb (fun name => ManualMergePath name (Config_AutoMergeExcludedPaths live))
                 (MaintenanceFootprint_Paths footprint)
            then "A changed path requires manual merge under the saved or live exclusions" else
            "Automatic merge prerequisites are not recorded"
          end
        end
      | _, _ => "The trusted footprint counts are unknown"
      end
    end
  end.

Section task_workers.
Context `{Unicode} `{World} (s : Store).
(** [App.Config] and [Config.Fingerprint]. *)
Context (live_config : Db -> Config) (Fingerprint : Config -> result string error).

(** ** Commits ([task_commit.go]) *)

Definition commitTaskLocked (expected t : Task) (change : TaskChange) : M Task :=
  go! now <- time_now in
  let next := t <| Task_UpdatedAt := Timestamp now |> in
  go! committed <- m_try (m_store (CommitTask expected next change)) in
  match committed with
  | Ok committed => m_ret committed
  | Err err => if is_task_conflict err then m_fail (conflictError (failure_text err)) else m_fail err
  end.

Definition recordTaskError (err : failure) (t : Task) : Task :=
  let reason := failure_reason err in
  let reason :=
    if bool_decide (reason = BlockedUnknown) && bool_decide (Task_Status t = StatusPublishing)
       && isSome (Task_OutputCommit t)
    then BlockedPublicationUncertain else reason in
  t <| Task_BlockedReason := Some reason |> <| Task_Error := Some (redact_error err) |>.

(** [_ = a.store.Event(task.ID, model.EventStatus, statusLabel(task.Status))]. *)
Definition status_event (t : Task) : M unit := Event s (Task_ID t) EventStatus (statusLabel (Task_Status t)).

Definition admitTaskLocked (t : Task) : M Task :=
  go! next <- commitTaskLocked t (t <| Task_Status := StatusExecuting |>) TaskAdmission in
  go! _ <- status_event next in
  m_ret next.

Definition blockTaskLocked (t : Task) (err : failure) : M Task :=
  let next := (recordTaskError err t) <| Task_Status := StatusBlocked |> in
  go! next <- commitTaskLocked t next TaskSettlement in
  go! _ <- status_event next in
  m_ret next.

Definition cancelledByOperator : string := "Cancelled by the operator".
Definition taskCancellationApplies (t : Task) : M bool :=
  if isSome (Task_OutputCommit t) then m_ret false else
  m_read (fun a => CancelMarked (Task_ID t) (app_db a)).

(** The commit [settleExitedTask] ends with. *)
Definition settle_exited (t next : Task) (cause : failure) (cancelled : bool) : M Task :=
  go! next <- commitTaskLocked t next TaskSettlement in
  go! _ <- (if negb (bool_decide (Task_Status next = Task_Status t)) then status_event next else m_ret tt) in
  go! _ <- (if cancelled then Event s (Task_ID next) EventError (redact_error cause) else m_ret tt) in
  m_ret next.
(** [settleExitedTask] after the cancellation marker is read; [next] has its
    running sessions failed. *)
Definition settle_next (t next : Task) (cause : failure) (cancelled : bool) : M Task :=
  if cancelled then
    settle_exited t (next <| Task_Status := StatusCancelled |> <| Task_Error := Some cancelledByOperator |>
                          <| Task_BlockedReason := None |>) cause true
  else if Active (Task_Status next) then
    settle_exited t ((recordTaskError cause next) <| Task_Status := StatusBlocked |>) cause false
  else if Equal t next then m_ret t
  else settle_exited t next cause false.
(** The new contents of [*task]. *)
Definition settleExitedTask (t : Task) (cause : failure) : M Task :=
  let next := t <| Task_Sessions := FailRunning (Task_Sessions t) (redact_error cause) |> in
  go! cancelled <- taskCancellationApplies next in
  settle_next t next cause cancelled.

(** ** Jobs ([task_worker.go]) *)

(** [*job] and writes through [job]. *)
Definition job_at (j : N) : M taskJob :=
  go! job <- m_read (fun a => app_jobs a !! j) in
  match job with
  | Some job => m_ret job
  | None => m_fail (Panicked "invalid memory address or nil pointer dereference")
  end.
Definition job_put (j : N) (f : taskJob -> taskJob) : M unit :=
  m_write (fun a => a <| app_jobs := alter f j (app_jobs a) |>).
Definition owns (job : option N) (id : string) : M bool :=
  m_runtime (fun r => isSome job && bool_decide (rt_tasks r !! id = job)).

Definition registerTaskWorker (t : Task) (kind : taskWorkerKind) : M N :=
  go! running <- m_runtime (fun r => isSome (rt_tasks r !! Task_ID t)) in
  if running then m_fail (Panicked "Task already has a worker") else
  go! j <- m_read app_next in
  go! _ <- m_write (fun a =>
    a <| app_next := j + 1 |>
      <| app_jobs := <[j := mkTaskJob (Task_Branch t) kind t None]> (app_jobs a) |>
      <| app_runtime := (app_runtime a) <| rt_tasks := <[Task_ID t := j]> (rt_tasks (app_runtime a)) |> |>) in
  m_ret j.

Definition commitWorkerTaskLocked (ctx : option N) (t : Task) (change : TaskChange) : M Task :=
  go! owned <- owns ctx (Task_ID t) in
  match ctx, owned with
  | Some j, true =>
    go! job <- job_at j in
    let next := if bool_decide (change = TaskSettlement) then SettleTaskEvidence (job_committed job) t else t in
    go! now <- time_now in
    let next := next <| Task_UpdatedAt := Timestamp now |> in
    go! _ <- job_put j (fun job => job <| job_pending := Some next |>) in
    go! committed <- m_store (CommitTask (job_committed job) next change) in
    go! _ <- job_put j (fun job => job <| job_committed := committed |> <| job_pending := None |>) in
    m_ret committed
  | _, _ => m_fail (Failed (New "Task worker no longer owns its checkpoint"))
  end.
(** [commitWorkerTask], with the gate it takes. *)
Definition checkpointTask (ctx : option N) (t : Task) : M Task := commitWorkerTaskLocked ctx t TaskCheckpoint.
Definition transitionTask (ctx : option N) (t : Task) (status : Status) : M Task :=
  let change :=
    if bool_decide (status = StatusBlocked) || bool_decide (status = StatusCancelled)
       || bool_decide (status = StatusFailed) then TaskSettlement else TaskCheckpoint in
  go! next <- commitWorkerTaskLocked ctx (t <| Task_Status := status |>) change in
  go! _ <- status_event next in
  m_ret next.

Definition initialMergeState (t : Task) : M (option AutoMergeState) :=
  if negb (bool_decide (Config_DeliveryMode (Task_Config t) = DeliveryModeMaintenance)) then m_ret None else
  go! live <- m_read (fun a => live_config (app_db a)) in
  match Fingerprint live with
  | Err e => m_fail (Failed e)
  | Ok revision =>
    match Task_OutputCommit t with
    | None => m_fail (Panicked "invalid memory address or nil pointer dereference")
    | Some head =>
      go! now <- time_now in
      let authorized := MaintenanceMergeAuthorized t live in
      m_ret (Some (mkAutoMergeState (Task_ID t) head (Task_Branch t) (Config_DefaultBranch (Task_Config t))
        (Task_ComparisonBase t) revision authorized (Task_MaintenanceFootprint t)
        (if authorized then AutoMergeWaiting else AutoMergeManual)
        (if authorized then "Waiting for GitHub checks and protections" else manualMergeReason t live)
        (Timestamp now) None None None None))
    end
  end.

Definition completePublicationLocked (t : Task) (pr : PullRequest) : M Task :=
  go! now <- time_now in
  let next := t <| Task_PRNumber := Some (PullRequest_Number pr) |> <| Task_PRURL := Some (PullRequest_URL pr) |>
                <| Task_Error := None |> <| Task_BlockedReason := None |> <| Task_Status := StatusPublished |>
                <| Task_UpdatedAt := Timestamp now |> in
  go! merge <- initialMergeState next in
  go! now <- time_now in
  go! committed <- m_store (CompletePublication redact_text s (Timestamp now) t next pr merge) in
  go! _ <- m_update (fun r => r <| rt_lastMergeCheck := zero_time |>) in
  m_ret committed.
Definition publishedWorkerLocked (ctx : option N) (t : Task) (pr : PullRequest) : M Task :=
  go! owned <- owns ctx (Task_ID t) in
  match ctx, owned with
  | Some j, true =>
    go! t <- completePublicationLocked t pr in
    go! _ <- job_put j (fun job => job <| job_committed := t |> <| job_pending := None |>) in
    m_ret t
  | _, _ => m_fail (Failed (New "Task worker no longer owns its publication"))
  end.

(** ** Settlement of an exited worker *)

Definition Initialized (t : Task) : bool :=
  isSome (Task_ExecutionSession t) && negb (bool_decide (Task_ComparisonBase t = "")) && GitDir_found (Task_Workspace t).

Definition causeOrUnexpected (cause : option failure) : failure :=
  default (Failed (New "Task worker exited unexpectedly; inspect the preserved workspace")) cause.

(** [job.kind == executionWorker && a.ctx.Err() != nil]. *)
Definition shutting_down (job : taskJob) : M bool :=
  if bool_decide (job_kind job = executionWorker) then stopped else m_ret false.

Definition flushTaskSettlement (j : N) (cause : option failure) : M unit :=
  go! job <- job_at j in
  match job_pending job with
  | None => m_ret tt
  | Some pending =>
    let next := SettleTaskEvidence (job_committed job) pending in
    go! stopping <- shutting_down job in
    let interrupted := stopping && Initialized (job_committed job) && Active (Task_Status next) in
    let next :=
      if interrupted then next else
      let next := next <| Task_Sessions := FailRunning (Task_Sessions next) (redact_error (causeOrUnexpected cause)) |> in
      if Active (Task_Status next)
      then (recordTaskError (causeOrUnexpected cause) next) <| Task_Status := StatusBlocked |> else next in
    go! now <- time_now in
    let next := next <| Task_UpdatedAt := Timestamp now |> in
    go! _ <- job_put j (fun job => job <| job_pending := Some next |>) in
    go! committed <- m_store (CommitTask (job_committed job) next TaskSettlement) in
    go! _ <- (if negb (bool_decide (Task_Status committed = Task_Status (job_committed job)))
              then status_event committed else m_ret tt) in
    job_put j (fun job => job <| job_committed := committed |> <| job_pending := None |>)
  end.

Definition m_is_err {A} (r : result A failure) : option failure := match r with Ok _ => None | Err err => Some err end.

(** [store.Get(a.store, store.Tasks.Key(id))]. *)
Definition load_task (id : string) : M (option Task) := fun a =>
  (match Get_error (app_reads a) with Some e => Err (Failed e) | None => Ok (db_tasks (app_db a) !! id) end,
   a <| app_reads := S (app_reads a) |>).

(** The settlement that follows the flush: its error, and the new [*current]. *)
Definition settle_current (j : N) (current : Task) (cause : option failure) : M (option failure * Task) :=
  let cause :=
    match cause with
    | Some err => if is_canceled err then causeOrUnexpected None else err
    | None => causeOrUnexpected None
    end in
  go! settled <- m_try (settleExitedTask current cause) in
  match settled with
  | Ok settled => m_ret (None, settled)
  | Err err =>
    go! _ <- job_put j (fun job => job <| job_committed := current |> <| job_pending := Some current |>) in
    m_ret (Some err, current)
  end.
(** The end of [finishTaskWorker]: the claim is released, after the barrier is
    up if there was an error; [loadErr] says that the record was not read. *)
Definition release_worker (id : string) (j : N) (settlementErr : option failure) (loadErr : bool)
    (current : option Task) : M unit :=
  go! _ <-
    match settlementErr with
    | Some err =>
      go! _ <- setRecoveryError err in
      m_update (fun r => r <| rt_settlements := <[id := j]> (rt_settlements r) |>)
    | None => m_ret tt
    end in
  m_update (fun r =>
    let r := r <| rt_tasks := delete id (rt_tasks r) |> in
    let cancelled := match current with Some current => bool_decide (Task_Status current = StatusCancelled) | None => false end in
    if loadErr || cancelled then r <| rt_cancelScanDone := false |> else r).
(** [finishTaskWorker] after the flush, whose error, if any, is [err]. *)
Definition settle_worker (id : string) (j : N) (cause err : option failure) : M unit :=
  go! loaded <- m_try (load_task id) in
  let current := match loaded with Ok current => current | Err _ => None end in
  go! job <- job_at j in
  go! stopping <- shutting_down job in
  let interrupted := stopping && match current with Some current => Initialized current | None => false end in
  go! outcome <-
    match err, m_is_err loaded, current with
    | None, Some loadErr, _ => m_ret (Some loadErr, current)
    | None, None, Some current =>
      if interrupted then m_ret (None, Some current) else
      go! settled <- settle_current j current cause in
      m_ret (fst settled, Some (snd settled))
    | _, _, _ => m_ret (err, current)
    end in
  release_worker id j (fst outcome) (isSome (m_is_err loaded)) (snd outcome).
Definition finishTaskWorker (id : string) (cause : option failure) : M unit :=
  go! job <- m_runtime (fun r => rt_tasks r !! id) in
  match job with
  | None => m_ret tt
  | Some j =>
    go! flushed <- m_try (flushTaskSettlement j cause) in
    match m_is_err flushed with
    | Some err =>
      if is_task_conflict err || is_task_invalid err then
        go! _ <- job_put j (fun job => job <| job_pending := None |>) in
        settle_worker id j (Some err) None
      else settle_worker id j cause (Some err)
    | None => settle_worker id j cause None
    end
  end.

(** In the order of the map's keys; the code's order is Go's random one. *)
Fixpoint settle_jobs (pending : list (string * N)) : M unit :=
  match pending with
  | [] => m_ret tt
  | (id, j) :: pending =>
    go! flushed <- m_try (flushTaskSettlement j None) in
    go! _ <-
      match m_is_err flushed with
      | None => m_ret tt
      | Some err =>
        if negb (is_task_conflict err) && negb (is_task_invalid err) then m_fail err else
        job_put j (fun job => job <| job_pending := None |>)
      end in
    go! _ <- m_update (fun r => r <| rt_settlements := delete id (rt_settlements r) |> <| rt_cancelScanDone := false |>) in
    settle_jobs pending
  end.
Definition settlePendingTasks : M unit :=
  go! pending <- m_runtime (fun r => map_to_list (rt_settlements r)) in
  settle_jobs pending.
End task_workers.

(** * Properties *)

Definition no_panic (err : failure) : Prop := match err with Panicked _ => False | _ => True end.

(** Everything the store holds of a task is filed under its identity; this
    holds of every database the store can reach. *)
Definition filed (db : Db) : Prop := forall id t, db_tasks db !! id = Some t -> Task_ID t = id.
Lemma filed_put t db : filed db -> filed (put_task t db).
Proof.
  intros F id u. rewrite put_task_tasks, lookup_insert. destruct (decide (Task_ID t = id)) as [<-|]; [by intros [= <-]|].
  apply F.
Qed.

(** A settlement saves the status it asked for, or the operator's
    cancellation. *)
Lemma settled_status expected next saved db db' :
  committed expected next saved TaskSettlement db db' ->
  Task_Status saved = Task_Status next \/ Task_Status saved = StatusCancelled.
Proof.
  intros [(current & L & V & [[-> ->]|(M & O & _ & Mg)]) _ _]; [by left|right].
  by apply MergeCancelledTask_accepted in Mg as (_ & ? & _).
Qed.

Section worker_facts.
Context `{Unicode} `{World} (s : Store) (live_config : Db -> Config) (Fingerprint : Config -> result string error).

Lemma wp_commitTaskLocked expected t change Q a :
  (forall now saved n,
     committed expected (t <| Task_UpdatedAt := now |>) saved change (app_db a) (put_task saved (app_db a)) ->
     Q (Ok saved) (a <| app_db := put_task saved (app_db a) |> <| app_reads := n |>)) ->
  (forall err n, no_panic err -> Q (Err err) (a <| app_reads := n |>)) ->
  wp (commitTaskLocked expected t change) Q a.
Proof.
  intros Sv F. unfold commitTaskLocked. wp_go. apply wp_store. intros r db C.
  unfold CommitTask in C. destruct r as [saved|e].
  - apply transaction_Ok, txCommitTask_Ok in C. pose proof (committed_db _ _ _ _ _ _ C) as ->.
    wp_go. destruct a. exact (Sv _ _ _ C).
  - apply transaction_Err in C as ->. wp_go. destruct (is_task_conflict _); wp_go; destruct a; by apply (F _ (S _)).
Qed.

Lemma wp_store_commit expected next change Q a :
  (forall saved, committed expected next saved change (app_db a) (put_task saved (app_db a)) ->
     Q (Ok saved) (a <| app_db := put_task saved (app_db a) |>)) ->
  (forall e, Q (Err (Failed e)) a) ->
  wp (m_store (CommitTask expected next change)) Q a.
Proof.
  intros Sv F. apply wp_store. intros r db C. unfold CommitTask in C. destruct r as [saved|e].
  - apply transaction_Ok, txCommitTask_Ok in C. pose proof (committed_db _ _ _ _ _ _ C) as ->. by apply Sv.
  - apply transaction_Err in C as ->. specialize (F e). by destruct a.
Qed.
Lemma wp_status_event t (b : bool) Q a :
  (forall events n, Q (Ok tt) (a <| app_db := (app_db a) <| db_events := events |> |> <| app_reads := n |>)) ->
  wp (if b then status_event s t else m_ret tt) Q a.
Proof.
  intros E. destruct b; [unfold status_event; apply wp_event; exact E|]. wp_go. specialize (E (db_events (app_db a)) (app_reads a)).
  destruct a as [[]]. exact E.
Qed.

(** What [settle_exited] leaves: a record that is not active. *)
Lemma wp_settle_exited t next cause cancelled Q a :
  Active (Task_Status next) = false ->
  (forall t' a', db_only a a' -> db_tasks (app_db a') = <[Task_ID t := t']> (db_tasks (app_db a)) ->
     Active (Task_Status t') = false -> Task_ID t' = Task_ID t -> Q (Ok t') a') ->
  (forall err a', db_only a a' -> app_db a' = app_db a -> no_panic err -> Q (Err err) a') ->
  wp (settle_exited s t next cause cancelled) Q a.
Proof.
  intros I Sv F. unfold settle_exited. wp_go. apply wp_commitTaskLocked; [|auto].
  intros now saved n C. wp_go. apply wp_status_event. intros events n2. wp_go.
  assert (forall a', db_only a a' -> db_tasks (app_db a') = db_tasks (put_task saved (app_db a)) -> Q (Ok saved) a') as Fin.
  { intros a' D T. apply Sv; [done| | |].
    - rewrite T, put_task_tasks. f_equal. exact (committed_ID _ _ _ _ _ _ C).
    - destruct (settled_status _ _ _ _ _ C) as [-> | ->]; done.
    - exact (committed_ID _ _ _ _ _ _ C). }
  destruct cancelled; [apply wp_event; intros events' n3|]; wp_go; apply Fin; try (by destruct a);
    destruct a; by eexists _, _.
Qed.

Lemma wp_settleExitedTask t cause Q a :
  db_tasks (app_db a) !! Task_ID t = Some t ->
  (forall t' a', db_only a a' -> db_tasks (app_db a') = <[Task_ID t := t']> (db_tasks (app_db a)) ->
     Active (Task_Status t') = false -> Task_ID t' = Task_ID t -> Q (Ok t') a') ->
  (forall err a', db_only a a' -> app_db a' = app_db a -> no_panic err -> Q (Err err) a') ->
  wp (settleExitedTask s t cause) Q a.
Proof.
  intros L Sv F. unfold settleExitedTask.
  set (next := t <| Task_Sessions := _ |>). assert (forall c, wp (settle_next s t next cause c) Q a) as K.
  { unfold settle_next. intros []; [by apply wp_settle_exited|].
    destruct (Active (Task_Status next)) eqn:A; [by apply wp_settle_exited|].
    destruct (Equal _ _); [|by apply wp_settle_exited]. wp_go. apply Sv; [done| |done|done]. by rewrite insert_id. }
  apply wp_bind. unfold taskCancellationApplies. destruct (isSome (Task_OutputCommit next)); wp_go; apply K.
Qed.

(** The operation changes the database, the job at [j], and nothing else. *)
Definition job_only (j : N) (job' : taskJob) (a a' : App) : Prop :=
  exists db n, a' = a <| app_db := db |> <| app_reads := n |> <| app_jobs := <[j := job']> (app_jobs a) |>.
Lemma job_only_refl j job a : app_jobs a !! j = Some job -> job_only j job a a.
Proof. intros L. exists (app_db a), (app_reads a). destruct a. cbn in *. by rewrite insert_id. Qed.
Lemma job_only_put j job f a a' : job_only j job a a' ->
  job_only j (f job) a (a' <| app_jobs := alter f j (app_jobs a') |>).
Proof.
  intros (db & n & ->). exists db, n. destruct a. cbn. unfold modify. cbn. f_equal.
  apply alter_insert_eq.
Qed.
Lemma job_only_db_only j job a a' a'' : job_only j job a a' -> db_only a' a'' -> job_only j job a a''.
Proof. intros (db & n & ->) (db' & n' & ->). exists db', n'. by destruct a. Qed.
Lemma job_only_lookup j job a a' : job_only j job a a' -> app_jobs a' !! j = Some job.
Proof. intros (db & n & ->). destruct a. apply lookup_insert_eq. Qed.
Lemma job_only_runtime j job a a' : job_only j job a a' -> app_runtime a' = app_runtime a.
Proof. intros (db & n & ->). by destruct a. Qed.

Lemma wp_job_at j job Q a : app_jobs a !! j = Some job -> Q (Ok job) a -> wp (job_at j) Q a.
Proof. intros L K. unfold job_at. wp_go. rewrite L. by wp_go. Qed.
Lemma wp_job_put j job f (Q : result unit failure -> App -> Prop) a0 a :
  job_only j job a0 a -> (forall a', job_only j (f job) a0 a' -> app_db a' = app_db a -> Q (Ok tt) a') ->
  wp (job_put j f) Q a.
Proof. intros J K. unfold job_put. apply wp_write, K; [by apply job_only_put|by destruct a]. Qed.

Lemma wp_shutting_down job (Q : result bool failure -> App -> Prop) a :
  (forall (b : bool) n, (b = true -> job_kind job = executionWorker /\ exists k, stops k = true) ->
     Q (Ok b) (a <| app_reads := n |>)) -> wp (shutting_down job) Q a.
Proof.
  intros K. unfold shutting_down. case_bool_decide as E; wp_go.
  - apply K. intros St. eauto.
  - specialize (K false (app_reads a)). destruct a. by apply K.
Qed.

(** Flushing a job saves its pending record or keeps it. *)
Lemma wp_flushTaskSettlement j job cause Q a :
  app_jobs a !! j = Some job -> filed (app_db a) ->
  (forall r a' job', job_only j job' a a' -> job_kind job' = job_kind job -> filed (app_db a') ->
     match r with
     | Ok _ => job_pending job' = None
     | Err err => no_panic err /\ isSome (job_pending job') = true
     end -> Q r a') ->
  wp (flushTaskSettlement s j cause) Q a.
Proof.
  intros L F K. unfold flushTaskSettlement. apply wp_bind, (wp_job_at _ job); [done|].
  destruct (job_pending job) as [pending|] eqn:P.
  2: { wp_go. apply (K _ _ job); [by apply job_only_refl|done..]. }
  apply wp_bind, wp_shutting_down. intros b n _. wp_step. wp_step.
  match goal with |- context [job_put j ?f] => set (keep := f) end.
  apply wp_bind, (wp_job_put _ job _ _ a).
  { destruct (job_only_refl j job a L) as (db & m & E). exists (app_db a), (S n). destruct a. cbn in *. by rewrite insert_id. }
  intros a1 J1 D1. apply wp_bind, wp_store_commit.
  - intros saved C. wp_step. apply wp_status_event. intros events m. apply (wp_job_put _ (keep job) _ _ a).
    { eapply job_only_db_only; [exact J1|]. destruct a1. by eexists _, _. }
    intros a2 J2 D2. apply (K _ _ _ J2); [done| |done]. rewrite D2.
    assert (filed (app_db a1)) as F1 by (rewrite D1; by destruct a). destruct a1. exact (filed_put saved _ F1).
  - intros e. apply (K _ _ _ J1); [done| |done]. rewrite D1. by destruct a.
Qed.

(** The record of the worker's task is settled, or the worker was stopped by
    the shutdown and the record waits for the recovery of the next start. *)
Definition settled (job : taskJob) (id : string) (a : App) : Prop :=
  forall t, db_tasks (app_db a) !! id = Some t ->
    Active (Task_Status t) = false
    \/ (job_kind job = executionWorker /\ Initialized t = true /\ exists n, stops n = true).
(** The evidence is kept, and no new work starts before it is saved. *)
Definition kept_back (j : N) (a : App) : Prop :=
  exists job', app_jobs a !! j = Some job' /\ isSome (job_pending job') = true.

Lemma wp_load_task id (Q : result (option Task) failure -> App -> Prop) a :
  (forall n, Q (Ok (db_tasks (app_db a) !! id)) (a <| app_reads := n |>)) ->
  (forall k e n, Get_error k = Some e -> Q (Err (Failed e)) (a <| app_reads := n |>)) ->
  wp (load_task id) Q a.
Proof. intros Ld F. unfold wp, load_task. destruct (Get_error (app_reads a)) eqn:E; [by eapply F|apply Ld]. Qed.

Lemma wp_settle_current j job1 a0 current cause a Q :
  job_only j job1 a0 a -> filed (app_db a) -> db_tasks (app_db a) !! Task_ID current = Some current ->
  (forall t a' job', job_only j job' a0 a' -> db_tasks (app_db a') !! Task_ID current = Some t ->
     Active (Task_Status t) = false -> Q (Ok (None, t)) a') ->
  (forall err a' job', job_only j job' a0 a' -> isSome (job_pending job') = true -> app_db a' = app_db a ->
     Q (Ok (Some err, current)) a') ->
  wp (settle_current s j current cause) Q a.
Proof.
  intros J F L Sv K. unfold settle_current. apply wp_bind, wp_try, wp_settleExitedTask; [done| |].
  - intros t a' D T I _. wp_go. apply (Sv _ _ job1); [by eapply job_only_db_only| |done].
    rewrite T. apply lookup_insert_eq.
  - intros err a' D E NP. destruct err; try done; wp_step; (apply (wp_job_put _ job1 _ _ a0); [by eapply job_only_db_only|]);
      intros a'' J' D'; wp_go; eapply K; try done; by rewrite D'.
Qed.

(** The cancellation scan will run again if the record of the task is, for all
    the worker knows, cancelled. *)
Definition rescanned (loadErr : bool) (current : option Task) (a : App) : Prop :=
  rt_cancelScanDone (app_runtime a) = true ->
  loadErr = false /\ (Task_Status <$> current) <> Some StatusCancelled.
Lemma wp_release_worker id j err loadErr current Q a :
  (forall a', app_db a' = app_db a -> app_jobs a' = app_jobs a ->
     rt_tasks (app_runtime a') = delete id (rt_tasks (app_runtime a)) -> rescanned loadErr current a' ->
     match err with
     | Some err => rt_settlements (app_runtime a') = <[id := j]> (rt_settlements (app_runtime a))
                   /\ rt_activeRecoveryError (app_runtime a') = Some (redact_error err)
     | None => rt_settlements (app_runtime a') = rt_settlements (app_runtime a)
     end -> Q (Ok tt) a') -> wp (release_worker id j err loadErr current) Q a.
Proof.
  intros K. unfold release_worker, setRecoveryError. apply wp_bind.
  set (cancelled := match current with Some c => bool_decide (Task_Status c = StatusCancelled) | None => false end).
  assert (cancelled = false -> (Task_Status <$> current) <> Some StatusCancelled) as C.
  { subst cancelled. destruct current; cbn; [intros X%bool_decide_eq_false; congruence|done]. }
  destruct (loadErr || cancelled) eqn:B; destruct err as [err|]; wp_go; apply K; rewrite ?B; try done;
    intros _; apply orb_false_iff in B as [-> B]; auto.
Qed.

(** The barrier names the error of the read. *)
Definition unread (a : App) : Prop :=
  exists n e, Get_error n = Some e /\ rt_activeRecoveryError (app_runtime a) = Some (redact_error (Failed e)).

(** How a worker's exit ends. *)
Definition exited (id : string) (j : N) (job : taskJob) (a : App) (r : result unit failure) (a' : App) : Prop :=
  r = Ok tt /\ rt_tasks (app_runtime a') = delete id (rt_tasks (app_runtime a))
  /\ (rt_cancelScanDone (app_runtime a') = true ->
       forall t, db_tasks (app_db a') !! id = Some t -> Task_Status t <> StatusCancelled)
  /\ ((rt_settlements (app_runtime a') = rt_settlements (app_runtime a) /\ settled job id a')
      \/ (rt_settlements (app_runtime a') = <[id := j]> (rt_settlements (app_runtime a))
          /\ recovery_blocked (app_runtime a') = true
          /\ (kept_back j a' \/ unread a'))).

Lemma exited_release id j job a err loadErr current a1 job1 :
  job_only j job1 a a1 ->
  (loadErr = false -> current = db_tasks (app_db a1) !! id) ->
  match err with
  | Some err => isSome (job_pending job1) = true \/ exists n e, Get_error n = Some e /\ err = Failed e
  | None => settled job id a1
  end ->
  wp (release_worker id j err loadErr current) (exited id j job a) a1.
Proof.
  intros J Cur G. apply wp_release_worker. intros a' D Jb Tk Sc St.
  rewrite (job_only_runtime _ _ _ _ J) in Tk, St. split; [done|]. split; [done|]. split.
  { intros Ds t Ht. apply Sc in Ds as [-> N]. rewrite D, <- (Cur eq_refl) in Ht. subst current. cbn in N. congruence. }
  destruct err as [err|]; [right; destruct St as [St Rc]; split; [done|]; split|left; split; [done|]].
  - unfold recovery_blocked. by rewrite Rc.
  - destruct G as [G|(n & e & Ge & ->)]; [left|right; by exists n, e].
    exists job1. split; [|done]. rewrite Jb. by eapply job_only_lookup.
  - unfold settled. by rewrite D.
Qed.

Lemma wp_settle_worker id j job a cause err a2 job2 :
  job_only j job2 a a2 -> job_kind job2 = job_kind job -> filed (app_db a2) ->
  match err with Some _ => isSome (job_pending job2) = true | None => True end ->
  wp (settle_worker s id j cause err) (exited id j job a) a2.
Proof.
  intros J2 K2 F2 P2. unfold settle_worker. apply wp_bind, wp_try, wp_load_task.
  2: { intros k e n Ge. cbn beta iota. apply wp_bind, (wp_job_at _ job2);
         [by eapply job_only_lookup, job_only_db_only; [|apply db_only_reads]|].
       apply wp_bind, wp_shutting_down. intros b n' B. apply wp_bind.
       assert (job_only j job2 a (a2 <| app_reads := n |> <| app_reads := n' |>)) as J3
         by (eapply job_only_db_only; [eapply job_only_db_only; [exact J2|]|]; apply db_only_reads).
       destruct err as [err|]; wp_go; (eapply exited_release; [exact J3|done|first [by left|right; by exists k, e]]). }
  intros n1. set (a3 := a2 <| app_reads := n1 |>). cbn beta iota.
  assert (job_only j job2 a a3) as J3 by (eapply job_only_db_only; [exact J2|apply db_only_reads]).
  apply wp_bind, (wp_job_at _ job2); [by eapply job_only_lookup|]. apply wp_bind, wp_shutting_down. intros b n B.
  set (a4 := a3 <| app_reads := n |>).
  assert (job_only j job2 a a4) as J4 by (eapply job_only_db_only; [exact J3|apply db_only_reads]).
  assert (app_db a4 = app_db a2) as D4 by (by destruct a2).
  apply wp_bind. cbn [m_is_err]. destruct err as [err|]; [wp_go; eapply exited_release; [done..|by left]|].
  destruct (db_tasks (app_db a2) !! id) as [current|] eqn:C.
  2: { wp_go. eapply exited_release; [done|by intros _; rewrite D4|]. intros t Ht. rewrite D4 in Ht. congruence. }
  destruct (b && _) eqn:I.
  - wp_go. eapply exited_release; [done|by intros _; rewrite D4|]. intros t Ht. rewrite D4 in Ht. simplify_eq.
    apply andb_true_iff in I as [-> I]. destruct (B eq_refl) as [Kx St]. right. by rewrite <- K2.
  - pose proof (F2 _ _ C) as Id. apply wp_bind, (wp_settle_current j job2 a); [done|by rewrite D4|by rewrite D4, Id| |].
    + intros t a' job' J' Ht Ia. rewrite Id in Ht. wp_go. eapply exited_release; [done..|]. intros u Hu.
      simplify_eq. by left.
    + intros err a' job' J' Pn D'. wp_go. eapply exited_release; [done| |by left]. intros _. by rewrite D', D4.
Qed.

(** C16: no exited worker leaves an active task unnoticed.  When a worker
    exits, for whatever cause and whatever the store answers, its claim is
    released and either its task is settled in the database; or the shutdown
    stopped an execution with an initialized workspace, whose task stays active
    for the recovery of the next start with neither settlement nor barrier; or
    the job is kept among the settlements and the recovery barrier keeps new
    work from starting, with the evidence that could not be saved unless the
    record of the task could not be read at all.  A record that is left
    cancelled is looked at by the next cancellation scan.  It never panics. *)
Theorem finishTaskWorker_settles id cause j job a :
  rt_tasks (app_runtime a) !! id = Some j -> app_jobs a !! j = Some job -> filed (app_db a) ->
  wp (finishTaskWorker s id cause) (exited id j job a) a.
Proof.
  intros T L F. unfold finishTaskWorker. apply wp_bind, wp_runtime. rewrite T.
  apply wp_bind, wp_try, (wp_flushTaskSettlement j job); [done..|]. intros r a1 job1 J1 Kd F1 P1.
  destruct r as [[]|err]; [by apply (wp_settle_worker _ _ _ _ _ _ _ job1)|].
  assert (wp match m_is_err (A := unit) (Err err) with
     | Some err => if is_task_conflict err || is_task_invalid err then
         go! _ <- job_put j (fun job => job <| job_pending := None |>) in settle_worker s id j (Some err) None
       else settle_worker s id j cause (Some err)
     | None => settle_worker s id j cause None end (exited id j job a) a1) as W.
  { cbn [m_is_err]. destruct (_ || _); [|by apply (wp_settle_worker _ _ _ _ _ _ _ job1); [..|apply P1]].
    apply wp_bind, (wp_job_put _ job1 _ _ a); [done|]. intros a2 J2 D2.
    apply (wp_settle_worker _ _ _ _ _ _ _ (job1 <| job_pending := None |>)); try done. by rewrite D2. }
  destruct err; try exact W. by destruct P1.
Qed.
End worker_facts.

(** ** Witnesses *)

Definition running_job : taskJob := mkTaskJob "octomus/t" executionWorker (executing_task "t") None.
Definition running_app : App :=
  (new_app (task_db (executing_task "t"))) <| app_jobs := {[0 := running_job]} |> <| app_next := 1 |>
    <| app_runtime := empty_runtime <| rt_tasks := {["t" := 0]} |> |>.
Lemma task_db_filed t : filed (task_db t).
Proof. intros id u. unfold task_db. cbn. by intros [<- <-]%lookup_singleton_Some. Qed.

Lemma finishTaskWorker_settles_witness :
  wp (finishTaskWorker sample_store "t" None) (exited "t" 0 running_job running_app) running_app
  /\ (Task_Status <$> db_tasks (app_db (snd (finishTaskWorker sample_store "t" None running_app))) !! "t") = Some StatusBlocked.
Proof.
  split; [|vm_compute; reflexivity].
  apply (finishTaskWorker_settles sample_store "t" None 0 running_job running_app).
  - vm_compute. reflexivity.
  - vm_compute. reflexivity.
  - apply task_db_filed.
Defined.
