(* ===== verification/Controls.v ===== *)
(** * Operator controls
    ([internal/engine/controls.go], [eligibility.go], [deployment.go], [timeouts.go])

    Pause, resume, run once and audit; the configuration an operator saves; and
    the start of a planning cycle.  What the dashboard offers is computed by
    [capabilities]; what arrives is decided by [ControlAction] under the gate.
    The preflight of a cycle runs with the gate open: [preflight] is whatever
    it and the operations that run meanwhile do to the state. *)
From S2P Require Import Prelude GoStrings WireJson Enums Types GoErrors Config GoTime Model Samples Lifecycle Store StoreMerges StoreTasks StoreBudget StoreCapacity Runtime Observations TaskWorkers.
Local Open Scope string_scope.
Local Open Scope list_scope.
Local Open Scope N_scope.

(** ** The deployment ([deployment.go]) *)

(** Without the egress allowlists, which are only displayed. *)
Record Deployment := mkDeployment { Deployment_Repository : string; Deployment_GitHubRepo : string }.
Definition pinned (d : Deployment) : bool := negb (bool_decide (Deployment_Repository d = "")).
Definition pin (d : Deployment) (cfg : Config) : Config :=
  if pinned d then cfg <| Config_Repository := Deployment_Repository d |> <| Config_GitHubRepo := Deployment_GitHubRepo d |>
  else cfg.
Definition deployment_check (d : Deployment) (cfg : Config) : result unit error :=
  if pinned d && (negb (SamePath (Config_Repository cfg) (Deployment_Repository d))
                  || negb (EqualASCII (Config_GitHubRepo cfg) (Deployment_GitHubRepo d)))
  then Err (New "The repository is fixed by this deployment (OCTOMUS_GITHUB_REPO); change it there and restart")
  else Ok tt.

(** ** Timeouts ([timeouts.go]) *)

Definition VerificationGraceSeconds : N := 60.
Definition validateSandboxTimeouts (cfg : Config) (limit : N) : result unit error :=
  if limit =? 0 then Ok tt else
  if limit <? Config_SessionTimeoutSeconds cfg then
    Err (Errorf "Session timeout is %d seconds but the sandbox hard limit is %d; lower session_timeout_seconds or raise OCTOMUS_SANDBOX_MAX_SECONDS and restart the broker"
      [VNum (Config_SessionTimeoutSeconds cfg); VNum limit]) else
  if (limit <=? VerificationGraceSeconds)
     || (u64_sub limit VerificationGraceSeconds <? Config_CommandTimeoutSeconds cfg) then
    Err (Errorf "Command timeout is %d seconds plus %d seconds of verification shutdown grace, exceeding the sandbox hard limit of %d; lower command_timeout_seconds or raise OCTOMUS_SANDBOX_MAX_SECONDS and restart the broker"
      [VNum (Config_CommandTimeoutSeconds cfg); VNum VerificationGraceSeconds; VNum limit])
  else Ok tt.

(** ** Queries ([store/queries.go]) *)

Definition batch_count (id : string) (statuses : list Status) (db : Db) : N :=
  lenN (List.filter (fun e => bool_decide (e.1.1 = id) && bool_decide (e.2 ∈ statuses)) (map_to_list (db_batch db))).
Definition BatchCounts (id : string) (db : Db) : N * N :=
  (batch_count id (StatusQueued :: ActiveStatuses) db, batch_count id UnresolvedStatuses db).
Definition HasUnresolvedTasks (s : Store) (db : Db) : bool :=
  existsb (fun e => in_scope (Store_repo s) e.2 && negb (bool_decide (Task_Status e.2 ∈ TerminalStatuses))
                    && negb (Archived e.2)) (map_to_list (db_tasks db)).
(** [SchedulingTasks(nil)] returns a task exactly when one is unarchived and
    queued or active: each of its pages holds at least the first. *)
Definition scheduling_task (repo : string) (t : Task) : bool :=
  in_scope repo t && negb (Archived t) && (bool_decide (Task_Status t = StatusQueued) || Active (Task_Status t)).
Definition scheduling_busy (s : Store) (db : Db) : bool :=
  existsb (fun e => scheduling_task (Store_repo s) e.2) (map_to_list (db_tasks db)).

Section controls.
Context `{Unicode} `{World} (s : Store) (deployment : Deployment).
(** [os.Stat] on a checkout, [Config.Fingerprint], and the preflight. *)
Context (git_dir : string -> bool) (Fingerprint : Config -> result string error) (preflight : Config -> bool -> M unit).

(** [App.Config]. *)
Definition live_config (db : Db) : Config := pin deployment (storedConfig (ConfigKey s) db).
Definition m_config : M Config := m_read (fun a => live_config (app_db a)).
Definition lift {A} (r : result A error) : result A failure := match r with Ok x => Ok x | Err e => Err (Failed e) end.

(** ** Eligibility ([eligibility.go]) *)

Record Capability := mkCapability { Capability_Allowed : bool; Capability_Reason : string }.
Record Capabilities := mkCapabilities {
  Capabilities_Pause : Capability; Capabilities_Resume : Capability; Capabilities_Cycle : Capability;
  Capabilities_Audit : Capability; Capabilities_Configure : Capability }.
Record operationActivity := mkActivity { activity_idle : bool; activity_audit : bool; activity_baseline : bool }.
(** [App.operationActivity]. *)
Definition current_activity (r : runtimeState) : operationActivity :=
  mkActivity (idle r) (auditActive r) (isSome (rt_baseline r)).

Definition is_action (x y : ControlAction) : bool := bool_decide (x = y).
Definition controlBlocker (action : ControlAction) (control : Control) (activity : operationActivity) : option failure :=
  let refused :=
    ((is_action action ControlAudit || is_action action ControlCycle)
     && (negb (Control_Paused control) || negb (activity_idle activity)))
    || ((is_action action ControlResume || is_action action ControlCycle) && activity_audit activity)
    || (is_action action ControlResume && activity_baseline activity) in
  if negb refused then None else
  if activity_baseline activity
  then Some (codedConflict ActiveWorkConflict "Wait for the baseline check to finish.") else
  match action with
  | ControlAudit => Some (codedConflict ActiveWorkConflict "Audits require paused operation with no active work. Pause the service and wait for active work to finish.")
  | ControlCycle => Some (codedConflict ActiveWorkConflict "Run once requires paused operation with no active work. Pause the service and wait for active work to finish.")
  | _ => Some (codedConflict ActiveWorkConflict "Wait for the audit to finish before starting continuous operation.")
  end.

Definition allowed : Capability := mkCapability true "".
Definition refused (err : failure) : Capability := mkCapability false (failure_text err).
(** The closure [operation] of [capabilities]. *)
Definition operation (control : Control) (cfg : Config) (activity : operationActivity) (recovery : option string)
    (capacity : PlanningCapacity) (action : ControlAction) : Capability :=
  if negb (is_action action ControlPause) && isSome recovery then refused errRecoveryBlocked else
  match controlBlocker action control activity with
  | Some err => refused err
  | None =>
    if is_action action ControlPause && activity_audit activity && isNone recovery
    then mkCapability false "Wait for the audit to finish." else
    if is_action action ControlPause then allowed else
    match (if is_action action ControlAudit then ValidateAudit git_dir cfg else Validate git_dir cfg true) with
    | Err e => refused (Failed e)
    | Ok _ =>
      if is_action action ControlCycle || is_action action ControlAudit then
        match EnsureAvailable capacity with Err e => refused (Failed e) | Ok _ => allowed end
      else allowed
    end
  end.
Definition capabilities (control : Control) (cfg : Config) (activity : operationActivity) (recovery : option string)
    (capacity : PlanningCapacity) : Capabilities :=
  let operation := operation control cfg activity recovery capacity in
  let configure := Control_Paused control && activity_idle activity in
  mkCapabilities (operation ControlPause) (operation ControlResume) (operation ControlCycle) (operation ControlAudit)
    (mkCapability configure
      (if configure then "" else "Pause and wait for active work to finish before changing configuration.")).

(** ** Controls ([controls.go], [scheduler.go]) *)

Definition save_control (control : Control) : M unit :=
  m_write (fun a => a <| app_db := SaveControl s control (app_db a) |>).
Definition pauseLocked (control : Control) (message : option string) : M Control :=
  let control := SetMode control OperatingModePaused in
  let control := match message with Some _ => control <| Control_Error := message |> | None => control end in
  go! _ <- save_control control in
  go! _ <- invalidatePRs in
  m_ret control.

Definition controlConflict (action : ControlAction) (control : Control) : M (option failure) :=
  go! blocked <- recoveryConflict in
  match (if negb (is_action action ControlPause) then blocked else None) with
  | Some err => m_ret (Some err)
  | None => m_runtime (fun r => controlBlocker action control (current_activity r))
  end.

Definition enterContinuous (control : Control) : M Control :=
  go! cfg <- m_config in
  go! _ <- m_lift (lift (Validate git_dir cfg true)) in
  let control := (SetMode control OperatingModeContinuous) <| Control_Error := None |> <| Control_NextCycleAt := 0%Z |> in
  go! _ <- save_control control in
  m_ret control.

(** On success [StartBatch] leaves the new control in [*control]: it is the
    saved one. *)
Definition startRunOnceBatch (control : Control) : M Control :=
  go! id <- new_id in
  go! now <- time_now in
  go! outcome <- m_store (StartBatch s id control now) in
  let '(capacity, started) := outcome in
  if started then Control_ s else
  go! _ <- m_lift (lift (EnsureAvailable capacity)) in
  m_fail (conflictError "Control state changed; try again").

Definition sameOperatorControl (a b : Control) : bool :=
  let clear (c : Control) := c <| Control_ContextFingerprint := "" |> <| Control_IdleStreak := 0 |>
                               <| Control_NextCycleAt := 0%Z |> in
  bool_decide (clear a = clear b).

Definition begin_allowed (mode : CycleMode) (live : Control) (db : Db) : result unit failure :=
  if bool_decide (mode = CycleModeExecution) then
    if bool_decide (Control_Mode live = OperatingModeRunOnce) then
      match Control_Batch live with
      | None => Err (Failed (New "Run once is not ready to plan"))
      | Some batch =>
        guard bool_decide (RunBatch_Phase batch = BatchPhaseDraining) else Failed (New "Run once is not ready to plan");
        let '(pending, unresolved) := BatchCounts (RunBatch_ID batch) db in
        guard (pending =? 0) && (unresolved =? 0) else Failed (New "Run-once work changed during planning preflight");
        Ok tt
      end
    else
      guard negb (scheduling_busy s db) else Failed (New "Queued work appeared during planning preflight");
      Ok tt
  else Ok tt.

Definition planned_control (mode : CycleMode) (id : string) (live : Control) : Control :=
  let next := live <| Control_CycleNumber := u64_add (Control_CycleNumber live) 1 |> <| Control_Error := None |> in
  if bool_decide (mode = CycleModeExecution) && bool_decide (Control_Mode next = OperatingModeRunOnce) then
    next <| Control_Batch := (fun batch => batch <| RunBatch_Phase := BatchPhasePlanning |>
                                                 <| RunBatch_CycleID := Some id |>) <$> Control_Batch next |>
  else next.
Definition new_cycle (mode : CycleMode) (cfg : Config) (id started : string) (next : Control) : Cycle := {|
  Cycle_Mode := mode; Cycle_DeliveryMode := Config_DeliveryMode cfg; Cycle_ID := id;
  Cycle_Number := Control_CycleNumber next; Cycle_Status := CycleRunning; Cycle_StartedAt := started;
  Cycle_CompletedAt := None; Cycle_Grounding := None; Cycle_Proposals := []; Cycle_Assessments := [];
  Cycle_Sessions := []; Cycle_Error := None; Cycle_Repository := Config_GitHubRepo cfg; Cycle_DecisionMemory := [];
  Cycle_RunID := if bool_decide (Control_Mode next = OperatingModeRunOnce)
                 then RunBatch_ID <$> Control_Batch next else None;
  Cycle_Lifecycle := mkWorkspaceLifecycle None None |}.

Definition context_canceled : failure := Failed (New "context canceled").
Definition beginCycle (cfg : Config) (expected : Control) (mode : CycleMode) : M string :=
  go! stop <- stopped in
  check negb stop else context_canceled;
  go! blocked <- recoveryConflict in
  match blocked with
  | Some err => m_fail err
  | None =>
    go! busy <- m_runtime (fun r => isSome (rt_cycle r) || negb (N.of_nat (size (rt_tasks r)) =? 0)) in
    check negb busy else conflictError "Work started during planning preflight";
    go! live <- Control_ s in
    check sameOperatorControl live expected else conflictError "Control state changed during planning preflight";
    go! db <- m_read app_db in
    go! _ <- m_lift (begin_allowed mode live db) in
    go! fingerprint <- m_lift (lift (Fingerprint cfg)) in
    go! id <- new_id in
    let next := planned_control mode id live in
    go! started <- time_now in
    let cycle := new_cycle mode cfg id (Timestamp started) next in
    go! now <- time_now in
    go! outcome <- m_store (BeginCycle Fingerprint s cycle next live fingerprint now) in
    let '(capacity, begun) := outcome in
    if negb begun then
      check Capacity_Available capacity else CapacityFailed capacity;
      m_fail (conflictError "Configuration or control state changed during planning preflight")
    else
      go! _ <- m_update (fun r => r <| rt_preflight := None |> <| rt_cycle := Some (mkCycleJob id mode) |>) in
      m_ret id
  end.

Definition admitAuditPreflight : M (Config * Control) :=
  go! stop <- stopped in
  check negb stop else context_canceled;
  go! blocked <- recoveryConflict in
  match blocked with
  | Some err => m_fail err
  | None =>
    go! free <- m_runtime idle in
    check free else errBusy;
    go! cfg <- m_config in
    go! _ <- m_lift (lift (ValidateAudit git_dir cfg)) in
    go! control <- Control_ s in
    check bool_decide (Control_Mode control = OperatingModePaused) else errNotPaused;
    go! now <- time_now in
    go! capacity <- m_read (fun a => planningCapacityAt s now (app_db a)) in
    go! _ <- m_lift (lift (EnsureAvailable capacity)) in
    go! _ <- m_update (startPreflight CycleModeAudit) in
    m_ret (cfg, control)
  end.
(** [preflightCtx] ends with the service's context or its caller's; only the
    former is modelled. *)
Definition startAudit : M string :=
  go! admitted <- admitAuditPreflight in
  let '(cfg, control) := admitted in
  go! checked <- m_try (preflight cfg true) in
  match checked with
  | Err err => go! _ <- endPreflight in m_fail err
  | Ok _ =>
    go! stop <- stopped in
    if stop then go! _ <- endPreflight in m_fail context_canceled else
    go! begun <- m_try (beginCycle cfg control CycleModeAudit) in
    match begun with
    | Err err => go! _ <- endPreflight in m_fail err
    | Ok id => go! _ <- Event s id EventOperator "Audit started" in m_ret id
    end
  end.

Record ControlResult := mkControlResult {
  ControlResult_Control : Control; ControlResult_PlanningCapacity : option PlanningCapacity }.
(** What a resume replies with, read before anything changes. *)
Definition reply_capacity (action : ControlAction) : M (option PlanningCapacity) :=
  if is_action action ControlResume then
    go! now <- time_now in
    go! capacity <- m_read (fun a => planningCapacityAt s now (app_db a)) in
    m_ret (Some capacity)
  else m_ret None.
(** The rest of [ControlAction], once no conflict is found. *)
Definition perform (action : ControlAction) (control : Control) : M ControlResult :=
  match action with
  | ControlAudit =>
    go! _ <- startAudit in
    go! control <- Control_ s in
    m_ret (mkControlResult control None)
  | _ =>
    go! capacity <- reply_capacity action in
    go! control <-
      match action with
      | ControlPause => pauseLocked control None
      | ControlResume => enterContinuous control
      | _ =>
        go! cfg <- m_config in
        go! _ <- m_lift (lift (Validate git_dir cfg true)) in
        startRunOnceBatch control
      end in
    go! _ <- Event s "system" EventOperator (enum_String action) in
    m_ret (mkControlResult control capacity)
  end.
Definition ControlAction_ (action : ControlAction) : M ControlResult :=
  go! stop <- stopped in
  check negb stop else conflictError "The repository service has stopped; reload before changing controls";
  go! control <- Control_ s in
  go! conflict <- controlConflict action control in
  match conflict with
  | Some err => m_fail err
  | None => perform action control
  end.

(** ** Saving the configuration *)

(** [limit] is what the sandbox reported before the gate was taken, [merged]
    the live configuration with the patch's JSON, [primary] the primary of the
    repository registry; the answer, a view of the saved configuration, is
    left out. *)
Definition SaveConfig (limit : result N failure) (merged : Config -> result Config failure) (primary : string)
    (expectedRevision : string) : M unit :=
  go! limit <- m_lift limit in
  go! stop <- stopped in
  check negb stop else conflictError "The repository service has stopped; reload before saving configuration";
  go! control <- Control_ s in
  go! free <- m_runtime idle in
  check Control_Paused control && free
    else codedConflict ActiveWorkConflict "Pause and wait for active work to finish before changing configuration.";
  go! old <- m_config in
  go! revision <- m_lift (lift (Fingerprint old)) in
  check bool_decide (revision = expectedRevision)
    else codedConflict ConfigRevisionConflict "The saved configuration changed; reload settings and check the current values.";
  go! c <- m_lift (merged old) in
  go! _ <- m_lift (lift (deployment_check deployment c)) in
  let c := pin deployment c in
  let repo := if bool_decide (Store_repo s = "") then primary else Store_repo s in
  check bool_decide (repo = "") || EqualASCII (Config_GitHubRepo c) repo
    else Failed (Errorf "GitHub repository must remain %s; register another repository to configure it separately" [VStr repo]);
  go! _ <- m_lift (lift (Validate git_dir c false)) in
  go! _ <- m_lift (lift (validateSandboxTimeouts c limit)) in
  go! unresolved <- m_read (fun a => HasUnresolvedTasks s (app_db a)) in
  let moved := negb (SameRemoteIdentity old c) || negb (bool_decide (Config_BranchPrefix old = Config_BranchPrefix c))
               || negb (bool_decide (Config_DeliveryMode old = Config_DeliveryMode c)) in
  check negb (moved && unresolved)
    else codedConflict UnresolvedWorkConflict "Resolve or cancel existing tasks before changing repository identity, branch policy or the delivery mode.";
  go! _ <- m_write (fun a => a <| app_db := (app_db a) <| db_configs := <[ConfigKey s := c]> (db_configs (app_db a)) |> |>) in
  go! _ <- invalidatePRs in
  Event s "system" EventConfiguration "Operator saved configuration".
End controls.

(** * Properties *)

Section control_facts.
Context `{Unicode} `{World} (s : Store) (deployment : Deployment).
Context (git_dir : string -> bool) (Fingerprint : Config -> result string error) (preflight : Config -> bool -> M unit).

Lemma wp_recoveryConflict Q a :
  Q (Ok (if recovery_blocked (app_runtime a) then Some errRecoveryBlocked else None)) a -> wp recoveryConflict Q a.
Proof. done. Qed.

(** Starting a batch is refused only for want of capacity. *)
Lemma StartBatch_live s' id at_ db :
  Capacity_Available (planningCapacityAt s' at_ db) = true ->
  exists db', StartBatch s' id (liveControl (ControlKey s') db) at_ db = (Ok (planningCapacityAt s' at_ db, true), db').
Proof.
  intros C. unfold StartBatch, conditional, start_body, txStartBatch, tx_bind, tx_read, tx_write, tx_ret.
  cbv zeta. rewrite Equal_refl, C. simpl. by eexists.
Qed.

(** What the operation says, given the capability it was offered under. *)
Definition follows {A} (offer : Capability) (r : result A failure) : Prop :=
  if Capability_Allowed offer then exists x, r = Ok x
  else exists err, r = Err err /\ failure_text err = Capability_Reason offer.
(** Nothing pending, and the day does not turn while the action runs. *)
Record steady (capacity : PlanningCapacity) (recovery : option string) (a : App) : Prop := {
  steady_running : stops (S (app_reads a)) = false;
  steady_capacity n : planningCapacityAt s (clock n) (app_db a) = capacity;
  steady_recovery : isSome recovery = recovery_blocked (app_runtime a);
  steady_mode : let control := liveControl (ControlKey s) (app_db a) in
    Control_Paused control = bool_decide (Control_Mode control = OperatingModePaused) }.

Definition offered (action : ControlAction) (capacity : PlanningCapacity) (recovery : option string) (a : App) : Capability :=
  operation git_dir (liveControl (ControlKey s) (app_db a)) (live_config s deployment (app_db a))
    (current_activity (app_runtime a)) recovery capacity action.

Lemma running_before a : stops (S (app_reads a)) = false -> stops (app_reads a) = false.
Proof.
  intros R. destruct (stops (app_reads a)) eqn:E; [|done].
  by rewrite (stops_final (app_reads a) (S (app_reads a)) (Nat.le_succ_diag_r _) E) in R.
Qed.

(** The guards every control passes. *)
Definition guarded (action : ControlAction) (recovery : option string) (a : App) : option failure :=
  if negb (is_action action ControlPause) && isSome recovery then Some errRecoveryBlocked
  else controlBlocker action (liveControl (ControlKey s) (app_db a)) (current_activity (app_runtime a)).
Definition after_reads (n : nat) (a : App) : App := a <| app_reads := n |>.
Lemma wp_ControlAction action capacity recovery a Q :
  steady capacity recovery a ->
  match guarded action recovery a with
  | Some err => Q (Err err) (after_reads (S (app_reads a)) a)
  | None => wp (perform s deployment git_dir Fingerprint preflight action (liveControl (ControlKey s) (app_db a)))
              Q (after_reads (S (app_reads a)) a)
  end -> wp (ControlAction_ s deployment git_dir Fingerprint preflight action) Q a.
Proof.
  intros [R _ Rc _] K. unfold ControlAction_. wp_step. wp_step. rewrite (running_before a R). cbn [negb].
  fold (after_reads (S (app_reads a)) a).
  unfold Control_. wp_step. wp_step. unfold controlConflict. wp_step. wp_step. apply wp_recoveryConflict.
  unfold guarded in K. rewrite Rc in K. change (app_runtime (after_reads _ a)) with (app_runtime a).
  change (app_db (after_reads _ a)) with (app_db a).
  destruct (is_action action ControlPause), (recovery_blocked (app_runtime a)); cbn [negb andb] in *; wp_go;
    change (app_runtime (after_reads _ a)) with (app_runtime a); try done;
    destruct (controlBlocker _ _ _); by wp_go.
Qed.

Lemma offered_guarded action capacity recovery a err :
  guarded action recovery a = Some err -> offered action capacity recovery a = refused err.
Proof.
  unfold guarded, offered, operation. destruct (_ && isSome recovery); [congruence|]. by intros ->.
Qed.
Lemma guarded_free action recovery a :
  guarded action recovery a = None -> action <> ControlPause ->
  recovery = None /\ controlBlocker action (liveControl (ControlKey s) (app_db a)) (current_activity (app_runtime a)) = None.
Proof.
  unfold guarded, is_action. intros G N. rewrite (bool_decide_eq_false_2 _ N) in G. cbn [negb andb] in G.
  by destruct recovery.
Qed.

(** The batch starts exactly when the capacity is available. *)
Lemma wp_startRunOnceBatch capacity recovery a n :
  steady capacity recovery a ->
  wp (startRunOnceBatch s (liveControl (ControlKey s) (app_db a)))
     (fun r _ => match EnsureAvailable capacity with Ok _ => exists c, r = Ok c | Err e => r = Err (Failed e) end)
     (after_reads n a).
Proof.
  intros [_ C _ _]. unfold startRunOnceBatch, EnsureAvailable. wp_step. unfold new_id, wp at 1. cbn [fst snd].
  wp_step. wp_step. cbv beta iota. wp_step. apply wp_store. intros r db E.
  set (now := clock _) in E. change (app_db (_ <| app_reads := _ |>)) with (app_db a) in E. cbv zeta.
  assert (planningCapacityAt s now (app_db a) = capacity) as Cn by apply C.
  destruct (Capacity_Available capacity) eqn:Av.
  - destruct (StartBatch_live s (fresh_id n) now (app_db a)) as [db' L]; [by rewrite Cn|].
    change (app_reads (after_reads n a)) with n in E. rewrite L in E. injection E as <- <-. cbv beta iota.
    unfold Control_. wp_step. by eexists.
  - unfold StartBatch, start_body, conditional, tx_bind, tx_read in E. cbv zeta in E. rewrite Equal_refl, Cn, Av in E.
    cbn in E. injection E as <- <-. cbv beta iota. unfold EnsureAvailable. rewrite Av. done.
Qed.

(** An audit is admitted exactly when its configuration and capacity allow. *)
Lemma wp_admitAuditPreflight capacity recovery a :
  steady capacity recovery a -> guarded ControlAudit recovery a = None ->
  wp (admitAuditPreflight s deployment git_dir)
     (fun r _ => match ValidateAudit git_dir (live_config s deployment (app_db a)), EnsureAvailable capacity with
                 | Ok _, Ok _ => exists x, r = Ok x
                 | Err e, _ | Ok _, Err e => r = Err (Failed e)
                 end) (after_reads (S (app_reads a)) a).
Proof.
  intros St G. destruct (guarded_free _ _ _ G ltac:(done)) as [-> B]. destruct St as [R C Rc Md].
  assert (Control_Mode (liveControl (ControlKey s) (app_db a)) = OperatingModePaused /\ idle (app_runtime a) = true)
    as [Pa Id].
  { cbv zeta in Md. revert B. unfold controlBlocker, current_activity. cbn [activity_idle activity_audit activity_baseline].
    change (is_action ControlAudit ControlAudit) with true. cbn [orb andb].
    destruct (Control_Paused _), (idle _); cbn [negb orb]; try (by destruct (isSome (rt_baseline _))).
    intros _. symmetry in Md. by apply bool_decide_eq_true in Md. }
  unfold admitAuditPreflight. wp_step. wp_step. change (app_reads (after_reads _ a)) with (S (app_reads a)).
  rewrite R. cbn [negb]. wp_step. apply wp_recoveryConflict.
  change (app_runtime (_ <| app_reads := _ |>)) with (app_runtime a). rewrite <- Rc. cbv beta iota. cbn [isSome].
  wp_step. wp_step. change (app_runtime (_ <| app_reads := _ |>)) with (app_runtime a). rewrite Id. cbv beta iota.
  wp_step. unfold m_config. wp_step. change (app_db (_ <| app_reads := _ |>)) with (app_db a).
  wp_step. unfold m_lift at 1, wp at 1. cbn [fst snd]. destruct (ValidateAudit _ _); [|done]. cbn [lift].
  wp_step. unfold Control_. wp_step. change (app_db (_ <| app_reads := _ |>)) with (app_db a).
  rewrite (bool_decide_eq_true_2 _ Pa). wp_go.
  match goal with |- context [planningCapacityAt s (clock ?n) ?db] =>
    replace (planningCapacityAt s (clock n) db) with capacity by (symmetry; exact (C n)) end. unfold m_lift at 1, wp at 1. cbn [fst snd].
  destruct (EnsureAvailable capacity); [|done]. cbn [lift]. wp_go. by eexists.
Qed.

(** What [perform] says once the guards are passed. *)
Lemma perform_follows action capacity recovery a :
  steady capacity recovery a -> guarded action recovery a = None -> action = ControlResume \/ action = ControlCycle ->
  wp (perform s deployment git_dir Fingerprint preflight action (liveControl (ControlKey s) (app_db a)))
     (fun r _ => follows (offered action capacity recovery a) r) (after_reads (S (app_reads a)) a).
Proof.
  intros St G Act. destruct (guarded_free _ _ _ G ltac:(by destruct Act; subst)) as [-> B].
  unfold perform, offered, operation. rewrite B.
  destruct Act as [-> | ->]; unfold reply_capacity;
    change (is_action ControlResume ControlResume) with true; change (is_action ControlCycle ControlResume) with false;
    cbv iota; wp_step.
  - wp_go. unfold enterContinuous. wp_go. unfold m_config. wp_go.
    change (live_config s deployment (app_db _)) with (live_config s deployment (app_db a)).
    unfold m_lift at 1, wp at 1. cbn [fst snd].
    destruct (Validate _ _ _); [|by eexists]. cbn [lift]. unfold save_control. wp_go. apply wp_event. intros events n.
    wp_go. by eexists.
  - wp_go. unfold m_config. wp_go.
    change (live_config s deployment (app_db _)) with (live_config s deployment (app_db a)).
    unfold m_lift at 1, wp at 1. cbn [fst snd].
    destruct (Validate _ _ _); [|by eexists]. cbn [lift].
    eapply wp_mono; [exact (wp_startRunOnceBatch _ _ _ _ St)|]. cbv beta. intros r a' K.
    destruct (EnsureAvailable capacity); [destruct K as [c ->]|subst r; by eexists].
    wp_step. apply wp_event. intros events n. wp_go. by eexists.
Qed.

Lemma perform_pause control a :
  wp (perform s deployment git_dir Fingerprint preflight ControlPause control) (fun r _ => exists x, r = Ok x) a.
Proof.
  unfold perform, reply_capacity. change (is_action ControlPause ControlResume) with false.
  unfold pauseLocked, save_control, invalidatePRs. wp_go. apply wp_event. intros events n. wp_go. by eexists.
Qed.
(** What the dashboard shows for an audit, and what admits it. *)
Lemma audit_offer capacity a :
  guarded ControlAudit None a = None ->
  offered ControlAudit capacity None a =
    match ValidateAudit git_dir (live_config s deployment (app_db a)), EnsureAvailable capacity with
    | Ok _, Ok _ => allowed
    | Err e, _ | Ok _, Err e => refused (Failed e)
    end.
Proof.
  intros G. destruct (guarded_free _ _ _ G ltac:(done)) as [_ B]. unfold offered, operation. rewrite B. cbn.
  by destruct (ValidateAudit _ _), (EnsureAvailable _).
Qed.

(** What the dashboard offers is what an operator gets.  When nothing
    stops the service and the day does not turn, an action shown as available
    is carried out (an audit is admitted to its preflight), and one shown as
    unavailable is refused with exactly the reason shown; a pause is carried
    out always. *)
Theorem capabilities_agree action capacity recovery a :
  steady capacity recovery a ->
  let offer := offered action capacity recovery a in
  match action with
  | ControlPause => exists x, fst (ControlAction_ s deployment git_dir Fingerprint preflight ControlPause a) = Ok x
  | ControlAudit =>
    if Capability_Allowed offer
    then exists x, fst (admitAuditPreflight s deployment git_dir (after_reads (S (app_reads a)) a)) = Ok x
    else follows offer (fst (ControlAction_ s deployment git_dir Fingerprint preflight action a))
  | _ => follows offer (fst (ControlAction_ s deployment git_dir Fingerprint preflight action a))
  end.
Proof.
  intros St. cbv zeta. pose proof (wp_ControlAction action capacity recovery a) as W.
  destruct (guarded action recovery a) as [err|] eqn:G.
  - rewrite (offered_guarded _ capacity _ _ _ G). specialize (W (fun r _ => r = Err err) St eq_refl).
    destruct action; [done|..]; by exists err.
  - destruct action.
    + apply (W (fun r _ => exists x, r = Ok x) St). by apply perform_pause.
    + by apply (W (fun r _ => follows _ r) St), (perform_follows _ _ _ _ St G); left.
    + by apply (W (fun r _ => follows _ r) St), (perform_follows _ _ _ _ St G); right.
    + destruct (guarded_free _ _ _ G ltac:(done)) as [-> _]. rewrite (audit_offer _ _ G).
      pose proof (wp_admitAuditPreflight _ _ _ St G) as Ad.
      assert (forall e, wp (admitAuditPreflight s deployment git_dir) (fun r _ => r = Err (Failed e))
                (after_reads (S (app_reads a)) a) ->
              follows (refused (Failed e)) (fst (ControlAction_ s deployment git_dir Fingerprint preflight ControlAudit a)))
        as Rf.
      { intros e E. apply (W (fun r _ => follows _ r) St). unfold perform, startAudit. wp_step. wp_step.
        eapply wp_mono; [exact E|]. intros r a' ->. by eexists. }
      destruct (ValidateAudit _ _); [|by apply Rf]. destruct (EnsureAvailable _); [exact Ad|by apply Rf].
Qed.
End control_facts.

(** ** Witnesses *)

Definition idle_app : App := new_app empty_db.
Definition no_pin : Deployment := mkDeployment "" "".
Definition idle_capacity : PlanningCapacity := planningCapacityAt sample_store sample_instant empty_db.
Lemma idle_steady : steady sample_store idle_capacity None idle_app.
Proof. by split. Qed.
Lemma capabilities_agree_witness :
  steady sample_store idle_capacity None idle_app
  /\ follows (offered sample_store no_pin (fun _ => true) ControlResume idle_capacity None idle_app)
       (fst (ControlAction_ sample_store no_pin (fun _ => true) (fun _ => Ok "") (fun _ _ => m_ret tt) ControlResume idle_app)).
Proof.
  split; [exact idle_steady|].
  exact (capabilities_agree sample_store no_pin (fun _ => true) (fun _ => Ok "") (fun _ _ => m_ret tt)
    ControlResume _ _ _ idle_steady).
Defined.
