(* ===== verification/Recovery.v ===== *)
(** * Recovery of the saved state ([internal/engine/recovery.go])

    What a restart, and every pass of the scheduler, does with records that no
    worker owns: the tasks, planning cycles and baseline checks that a stopped
    process, or a refused write, left as running.

    A scan of the tasks takes the rows in the order they were first written, a
    page at a time.  The loops that drain pages get one more round than there
    are tasks: each round settles a task or ends ([drain_fuel]). *)
From S2P Require Import Prelude GoStrings WireJson Enums Types GoErrors Config GoTime Model Samples Lifecycle Store StoreMerges StoreTasks StoreBudget StoreCapacity StoreInv Runtime Observations TaskWorkers Controls.
Local Open Scope string_scope.
Local Open Scope list_scope.
Local Open Scope N_scope.

(** ** Queries ([store/queries.go], [store/capacity.go]) *)

Definition PageLimit : nat := 500.
Definition tasks_where `{World} (P : Task -> bool) (db : Db) : list Task :=
  by_seq (List.filter P (map_to_list (db_tasks db)).*2).

Section queries.
Context `{World} (s : Store).
Definition active_row (t : Task) : bool := Active (Task_Status t) && negb (Archived t) && in_scope (Store_repo s) t.
Definition ActiveTasks (db : Db) : list Task := firstn PageLimit (tasks_where active_row db).
Definition orphan_row (excluded : list string) (t : Task) : bool :=
  active_row t && negb (Discarded t) && negb (bool_decide (Task_ID t ∈ excluded)).
Definition ActiveTasksExcept (excluded : list string) (db : Db) : list Task :=
  firstn PageLimit (tasks_where (orphan_row excluded) db).
Definition live_cancelled_row (excluded : list string) (t : Task) : bool :=
  bool_decide (Task_Status t = StatusCancelled) && in_scope (Store_repo s) t
  && negb (bool_decide (Task_ID t ∈ excluded))
  && existsb (fun x => bool_decide (Session_Status x = SessionRunning)) (Task_Sessions t).
Definition CancelledWithLiveSessions (excluded : list string) (db : Db) : list Task :=
  firstn PageLimit (tasks_where (live_cancelled_row excluded) db).
Definition reservable_row (t : Task) : bool :=
  in_scope (Store_repo s) t &&
  (Active (Task_Status t)
   || (negb (bool_decide (Task_Status t = StatusPublished)) && isSome (Task_OutputCommit t))).
(** In the order of the keys; the queries below fix none. *)
Definition ReservableTasks (db : Db) : list Task := List.filter reservable_row (map_to_list (db_tasks db)).*2.
Definition running_cycle (except : string) (c : Cycle) : bool :=
  bool_decide (Cycle_Status c = CycleRunning) && negb (bool_decide (Cycle_ID c = except))
  && (bool_decide (Store_repo s = "") || EqualASCII (Cycle_Repository c) (Store_repo s)).
Definition RunningCycles (except : string) (db : Db) : list Cycle :=
  List.filter (running_cycle except) (map_to_list (db_cycles db)).*2.
Definition running_baseline (b : BaselineCheck) : bool :=
  bool_decide (BaselineCheck_Status b = BaselineStatusRunning)
  && (bool_decide (Store_repo s = "") || EqualASCII (Config_GitHubRepo (BaselineCheck_Config b)) (Store_repo s)).
Definition RunningBaselines (db : Db) : list BaselineCheck :=
  List.filter running_baseline (map_to_list (db_baselines db)).*2.
End queries.

(** [for _, x := range l { if err := f(x); err != nil { return err } }]. *)
Fixpoint m_iter {A} (f : A -> M unit) (l : list A) : M unit :=
  match l with
  | [] => m_ret tt
  | x :: l => go! _ <- f x in m_iter f l
  end.
(** [for { n := round(); if n < PageLimit { break } }]; [None] ends the loop. *)
Fixpoint drain (round : M (option nat)) (fuel : nat) : M unit :=
  match fuel with
  | O => m_fail (Panicked "out of rounds")
  | S fuel =>
    go! n <- round in
    match n with
    | Some n => if (n <? PageLimit)%nat then m_ret tt else drain round fuel
    | None => m_ret tt
    end
  end.
Definition drain_fuel : M nat := m_read (fun a => S (size (db_tasks (app_db a)))).

Section recovery.
Context `{Unicode} `{World} (s : Store) (deployment : Deployment).

(** ** Interrupted tasks *)

Definition InterruptedTask (marked : bool) (t : Task) : Task :=
  let t := t <| Task_Sessions := InterruptRunning (Task_Sessions t) |> in
  if marked && isNone (Task_OutputCommit t) then
    t <| Task_Status := StatusCancelled |> <| Task_Error := Some "Operator cancellation preserved across restart" |>
  else if Initialized t && (Task_Attempts t <? Config_MaxRetries (ExecutionConfig t)) then
    t <| Task_Status := StatusQueued |> <| Task_Attempts := u64_add (Task_Attempts t) 1 |>
      <| Task_Error := Some "Recovering an interrupted task: inspecting the recorded workspace and reconciling remote state before continuing." |>
  else
    let '(reason, message) :=
      if Initialized t then
        if isSome (Task_OutputCommit t)
        then (BlockedPublicationUncertain, "Service interrupted during publication after the retry budget was exhausted. Reconcile publication to finish delivery without another model turn.")
        else (BlockedRetryLimit, "Service interrupted before workspace initialization completed, or retry budget exhausted. Inspect the preserved task before retrying.")
      else (BlockedWorkspaceInvalid, "Service interrupted before workspace initialization completed, or retry budget exhausted. Inspect the preserved task before retrying.") in
    t <| Task_Status := StatusBlocked |> <| Task_BlockedReason := Some reason |> <| Task_Error := Some message |>.
Definition recover_task (t : Task) : M unit :=
  go! marked <- m_read (fun a => CancelMarked (Task_ID t) (app_db a)) in
  go! next <- commitTaskLocked t (InterruptedTask marked t) TaskRecovery in
  Event s (Task_ID next) EventRecovery (default "" (Task_Error next)).
Definition recover_page : M (option nat) :=
  go! tasks <- m_read (fun a => ActiveTasks s (app_db a)) in
  go! _ <- m_iter recover_task tasks in
  m_ret (Some (length tasks)).
Definition recover_active : M unit :=
  go! fuel <- drain_fuel in
  drain recover_page fuel.

(** ** Records without a worker *)

Definition interruptedMsg : string := "Discovery interrupted; incomplete proposals were not dispatched".
Definition interrupt_cycle (cycle : Cycle) : M unit :=
  go! now <- time_now in
  m_write (fun a => a <| app_db := put_cycle
    (cycle <| Cycle_Sessions := InterruptRunning (Cycle_Sessions cycle) |> <| Cycle_Status := CycleInterrupted |>
           <| Cycle_CompletedAt := Some (Timestamp now) |> <| Cycle_Error := Some interruptedMsg |>) (app_db a) |>).
Definition interruptOrphanedCycles : M unit :=
  go! activeID <- m_runtime (fun r => match rt_cycle r with Some job => cycleJob_id job | None => "" end) in
  go! cycles <- m_read (fun a => RunningCycles s activeID (app_db a)) in
  go! _ <- m_iter interrupt_cycle cycles in
  if negb (bool_decide (activeID = "")) then m_ret tt else
  go! control <- Control_ s in
  let planning := match Control_Batch control with
                  | Some batch => bool_decide (RunBatch_Phase batch = BatchPhasePlanning)
                  | None => false
                  end in
  if bool_decide (Control_Mode control = OperatingModeRunOnce) && planning then
    go! _ <- pauseLocked s control (Some "Run once was interrupted before its planning transaction committed") in
    m_ret tt
  else m_ret tt.

Definition orphan_cause (t : Task) : failure :=
  if bool_decide (Task_Status t = StatusPublishing) && isSome (Task_OutputCommit t)
  then Failed (Errorf "Publication has no active worker; reconcile publication to check delivery: %w"
                 [VWrap (Reason BlockedPublicationUncertain)])
  else Failed (New "Task worker exited unexpectedly; inspect the preserved workspace").
(** [false] when the context ended. *)
Fixpoint settle_orphans (tasks : list Task) : M bool :=
  match tasks with
  | [] => m_ret true
  | t :: tasks =>
    go! stop <- stopped in
    if stop then m_ret false else
    go! _ <- settleExitedTask s t (orphan_cause t) in
    settle_orphans tasks
  end.
Definition orphan_page (excluded : list string) : M (option nat) :=
  go! tasks <- m_read (fun a => ActiveTasksExcept s excluded (app_db a)) in
  go! continue <- settle_orphans tasks in
  m_ret (if continue then Some (length tasks) else None).
Definition blockOrphanedTasks : M unit :=
  go! excluded <- m_runtime ownedTaskIDs in
  go! fuel <- drain_fuel in
  drain (orphan_page excluded) fuel.

Definition settle_cancelled (t : Task) : M unit :=
  go! _ <- commitTaskLocked t (t <| Task_Sessions := InterruptRunning (Task_Sessions t) |>) TaskSettlement in
  m_ret tt.
Definition settleCancelledSessions : M unit :=
  go! done_ <- m_runtime rt_cancelScanDone in
  if done_ then m_ret tt else
  go! excluded <- m_runtime ownedTaskIDs in
  go! tasks <- m_read (fun a => CancelledWithLiveSessions s excluded (app_db a)) in
  go! _ <- m_iter settle_cancelled tasks in
  if (length tasks <? PageLimit)%nat then m_update (fun r => r <| rt_cancelScanDone := true |>) else m_ret tt.

(** ** Baseline checks *)

Definition abandonBaseline (b : BaselineCheck) (cancelled interrupted : string) : M BaselineCheck :=
  go! marked <- m_read (fun a => BaselineCancelMarked (BaselineCheck_ID b) (app_db a)) in
  go! now <- time_now in
  let b := b <| BaselineCheck_Status := if marked then BaselineStatusCancelled else BaselineStatusInterrupted |>
                     <| BaselineCheck_CompletedAt := Some (Timestamp now) |>
                     <| BaselineCheck_Error := Some (if marked then cancelled else interrupted) |> in
  go! _ <- m_write (fun a => a <| app_db := put_baseline b (app_db a) |>) in
  m_ret b.
Definition recover_baseline (active : option string) (b : BaselineCheck) : M unit :=
  if bool_decide (active = Some (BaselineCheck_ID b)) then m_ret tt else
  go! _ <- abandonBaseline b "The operator cancelled this check before the service stopped"
             "The service stopped while the baseline check was running" in
  m_ret tt.
Definition recoverBaselines : M unit :=
  go! active <- m_runtime rt_baseline in
  go! checks <- m_read (fun a => RunningBaselines s (app_db a)) in
  m_iter (recover_baseline active) checks.

(** ** A restart *)

Definition pin_saved : M unit :=
  go! saved <- m_read (fun a => db_configs (app_db a) !! ConfigKey s) in
  match saved with
  | None => m_ret tt
  | Some saved =>
    let pinned := pin deployment saved in
    if Equal saved pinned then m_ret tt else
    go! _ <- m_write (fun a => a <| app_db :=
      (app_db a) <| db_configs := <[ConfigKey s := pinned]> (db_configs (app_db a)) |> |>) in
    Event s "system" EventConfiguration "Saved configuration now names the repository this deployment pins"
  end.
Definition seed_reservation (t : Task) : M unit :=
  if bool_decide (Proposal_Target (Task_Proposal t) = Config_DefaultBranch (Task_Config t))
     && negb (bool_decide (Task_Status t = StatusCancelled)) then
    go! now <- time_now in
    m_store (SeedPRReservation (Timestamp now) t)
  else m_ret tt.
(** [removed] is what removing the scratch root returned. *)
Definition Recover (removed : result unit failure) : M unit :=
  go! _ <- m_update (fun r => r <| rt_cancelScanDone := false |>) in
  go! _ <- pin_saved in
  go! _ <- m_lift removed in
  go! _ <- recoverBaselines in
  go! candidates <- m_read (fun a => ReservableTasks s (app_db a)) in
  go! _ <- m_iter seed_reservation candidates in
  go! _ <- recover_active in
  go! _ <- settleCancelledSessions in
  interruptOrphanedCycles.
End recovery.

(** * Properties *)

(** ** Counting the rows a scan looks for *)

Definition rows (P : Task -> bool) (m : gmap string Task) : nat := length (List.filter P (map_to_list m).*2).

Lemma rows_insert P m id t :
  m !! id = None -> rows P (<[id := t]> m) = ((if P t then 1 else 0) + rows P m)%nat.
Proof.
  intros N. unfold rows. assert ((map_to_list (<[id := t]> m)).*2 ≡ₚ t :: (map_to_list m).*2) as E
    by (by rewrite map_to_list_insert).
  rewrite (Permutation_length (bfilter_perm P _ _ E)). simpl. by destruct (P t).
Qed.
Lemma rows_settle P m t u :
  m !! Task_ID t = Some t -> P t = true -> P u = false -> S (rows P (<[Task_ID t := u]> m)) = rows P m.
Proof.
  intros L Pt Pu. rewrite <- (insert_delete_id m _ t L) at 2. rewrite <- insert_delete_eq.
  rewrite !rows_insert by apply lookup_delete_eq. by rewrite Pt, Pu.
Qed.

Section scans.
Context `{Unicode} `{World} (s : Store).

(** A page holds rows of the table, each once, and all of them when it is not
    full. *)
Record page_of (P : Task -> bool) (m : gmap string Task) (ts : list Task) : Prop := {
  page_rows : Forall (fun t => m !! Task_ID t = Some t /\ P t = true) ts;
  page_NoDup : NoDup (map Task_ID ts);
  page_length : length ts = Nat.min PageLimit (rows P m) }.
Lemma page_firstn P db :
  filed db -> page_of P (db_tasks db) (firstn PageLimit (tasks_where P db)).
Proof.
  intros F. set (all := List.filter P (map_to_list (db_tasks db)).*2).
  assert (tasks_where P db ≡ₚ all) as Pm by apply by_seq_perm.
  assert (Forall (fun t => db_tasks db !! Task_ID t = Some t /\ P t = true) all) as Al.
  { apply Forall_forall. intros t E. apply list_elem_of_In, filter_In in E as [E Pt]. split; [|done].
    apply list_elem_of_In, list_elem_of_fmap in E as ([id u] & -> & E). apply elem_of_map_to_list in E. simpl.
    by rewrite (F _ _ E). }
  assert (NoDup (map Task_ID all)) as ND.
  { assert (map Task_ID (map_to_list (db_tasks db)).*2 = (map_to_list (db_tasks db)).*1) as E.
    { change (map Task_ID ?l) with (Task_ID <$> l). rewrite <- list_fmap_compose. apply list_fmap_ext.
      intros i [id u] E. apply list_elem_of_lookup_2, elem_of_map_to_list in E. simpl. by apply F. }
    unfold all. clear all Pm Al. pose proof (NoDup_fst_map_to_list (db_tasks db)) as N. rewrite <- E in N. clear E.
    induction (map_to_list (db_tasks db)).*2 as [|t l IH]; [constructor|]. simpl in *. apply NoDup_cons in N as [Hd N].
    destruct (P t); simpl; [|by apply IH]. constructor; [|by apply IH]. intros E. apply Hd.
    apply list_elem_of_fmap in E as (u & -> & E). apply list_elem_of_In, filter_In in E as [E _].
    apply list_elem_of_fmap. exists u. split; [done|]. by apply list_elem_of_In. }
  split.
  - apply Forall_take. by rewrite Pm.
  - change (map Task_ID ?l) with (Task_ID <$> l) in *. rewrite fmap_take.
    eapply (sublist_NoDup _ (Task_ID <$> tasks_where P db)); [by rewrite Pm|apply sublist_take].
  - rewrite length_take, (Permutation_length Pm). done.
Qed.

(** [settles P I F f]: from a state of the invariant, [f] settles a task the
    scan found, or fails as [F] says. *)
Definition settles (P : Task -> bool) (I : App -> Prop) (F : failure -> App -> Prop) (f : Task -> M unit) : Prop :=
  forall t a, I a -> db_tasks (app_db a) !! Task_ID t = Some t -> P t = true ->
    wp (f t) (fun r a' => match r with
      | Ok _ => I a' /\ exists u, P u = false /\ db_tasks (app_db a') = <[Task_ID t := u]> (db_tasks (app_db a))
      | Err err => F err a'
      end) a.
Lemma wp_settle_page P I F f ts a :
  settles P I F f -> I a -> NoDup (map Task_ID ts) ->
  Forall (fun t => db_tasks (app_db a) !! Task_ID t = Some t /\ P t = true) ts ->
  wp (m_iter f ts) (fun r a' => match r with
    | Ok _ => I a' /\ (rows P (db_tasks (app_db a')) + length ts = rows P (db_tasks (app_db a)))%nat
    | Err err => F err a'
    end) a.
Proof.
  intros Sf. revert a. induction ts as [|t ts IH]; intros a Ia ND Rows; [wp_go; split; [done|simpl; lia]|].
  simpl. apply NoDup_cons in ND as [Hd ND]. apply Forall_cons in Rows as [[L Pt] Rows]. wp_step.
  eapply wp_mono; [by apply Sf|]. intros [[]|err] a1; [|done]. intros (I1 & u & Pu & T).
  eapply wp_mono; [apply IH; [done|done|]|].
  - rewrite T. apply Forall_forall. intros v Ev. destruct (proj1 (Forall_forall _ _) Rows _ Ev) as [Lv Pv]. split; [|done].
    rewrite lookup_insert_ne; [done|]. intros E. apply Hd. rewrite E. apply list_elem_of_fmap. by exists v.
  - intros [[]|err] a2; [|done]. intros [I2 C]. split; [done|]. rewrite T in C.
    rewrite <- (rows_settle P _ t u L Pt Pu). lia.
Qed.

Lemma wp_drain (I : App -> Prop) (measure : App -> nat) (Q : result unit failure -> App -> Prop) round fuel a :
  (forall a, I a -> wp round (fun r a' => match r with
     | Ok (Some n) => if (n <? PageLimit)%nat then Q (Ok tt) a' else I a' /\ (measure a' < measure a)%nat
     | Ok None => Q (Ok tt) a'
     | Err err => Q (Err err) a'
     end) a) ->
  I a -> (measure a < fuel)%nat -> wp (drain round fuel) Q a.
Proof.
  intros Rd. revert a. induction fuel as [|fuel IH]; intros a Ia M; [lia|]. simpl. wp_step.
  eapply wp_mono; [by apply Rd|]. intros [[n|]|err] a1; [|by intros Q1; wp_go|done].
  destruct (n <? PageLimit)%nat; [intros Q1; by wp_go|]. intros [I1 L]. apply IH; [done|lia].
Qed.
Lemma page_drains P a a' ts :
  page_of P (db_tasks (app_db a)) ts ->
  (rows P (db_tasks (app_db a')) + length ts = rows P (db_tasks (app_db a)))%nat ->
  if (length ts <? PageLimit)%nat then rows P (db_tasks (app_db a')) = 0%nat
  else (rows P (db_tasks (app_db a')) < rows P (db_tasks (app_db a)))%nat.
Proof.
  intros [_ _ L] C. unfold PageLimit in *. destruct (_ <? _)%nat eqn:E; [apply Nat.ltb_lt in E|apply Nat.ltb_ge in E]; lia.
Qed.
Lemma rows_bounded P m : (rows P m <= size m)%nat.
Proof. unfold rows. rewrite List.filter_length_le, length_fmap. by rewrite length_map_to_list. Qed.
Lemma rows_none P m id t : rows P m = 0%nat -> m !! id = Some t -> P t = false.
Proof.
  intros R L. destruct (P t) eqn:E; [|done]. unfold rows in R. apply length_zero_iff_nil in R.
  assert (t ∈ List.filter P (map_to_list m).*2) as El.
  { apply list_elem_of_In, filter_In. split; [|done]. apply list_elem_of_In, list_elem_of_fmap. exists (id, t).
    by rewrite elem_of_map_to_list. }
  rewrite R in El. by apply elem_of_nil in El.
Qed.

(** ** No running task has lost its workspace *)

Definition workspace_kept (t : Task) : Prop := Active (Task_Status t) = true -> Discarded t = false.
Lemma allowed_change_discarded current next change :
  change <> TaskDiscard -> Discarded (allowed_change current next change) = Discarded current.
Proof. by destruct change. Qed.
Lemma accepted_kept current next change cancelled :
  accepted current next change cancelled -> workspace_kept current -> workspace_kept next.
Proof.
  intros [_ _ _ Wk Tr _ Fd] K An. destruct (decide (change = TaskDiscard)) as [->|N].
  { cbn in Tr. unfold same_status in Tr. bool_hyps. congruence. }
  rewrite <- Fd, allowed_change_discarded by done. destruct (Discarded current) eqn:D; [|done]. exfalso.
  destruct (Active (Task_Status current)) eqn:Ac; [by rewrite K in D|].
  destruct (Wk ltac:(by rewrite orb_true_r)) as [->|[->| ->]]; [|done|].
  - unfold transition_valid, same_status in Tr. destruct (cancelled && _).
    { apply bool_decide_eq_true in Tr. by rewrite Tr in An. }
    apply orb_true_iff in Tr as [E|E]; [apply bool_decide_eq_true in E; congruence|].
    apply andb_true_iff in E as [_ E]. apply orb_true_iff in E as [E|E]; [apply orb_true_iff in E as [E|E]|];
      apply bool_decide_eq_true in E; by rewrite E in An.
  - cbn in Tr. unfold same_status in Tr. bool_hyps. congruence.
Qed.
Lemma born_kept t : born t -> workspace_kept t.
Proof.
  intros (f & [Fs _] & E). assert (workspace_kept f) as K by (intros A; by rewrite Fs in A). clear Fs.
  induction E as [|a b c [St|[id ->]] E IH]; [done|..]; apply IH.
  - destruct St as [u v change cancelled V]. by eapply accepted_kept; [apply ValidateTaskChange_accepted|].
  - exact K.
Qed.
Lemma reachable_tasks redact_text policy_text Fingerprint db :
  store_run redact_text policy_text Fingerprint empty_db db ->
  filed db /\ forall id t, db_tasks db !! id = Some t -> workspace_kept t.
Proof.
  intros R. pose proof (store_run_safe _ _ _ _ _ R) as T.
  split; intros id t L; specialize (T id); rewrite L in T; destruct T as [B I]; [done|by apply born_kept].
Qed.

(** ** A restart settles every interrupted task *)

Lemma InterruptedTask_shape marked t :
  exists sessions status attempts error reason,
    InterruptedTask marked t =
      t <| Task_Sessions := sessions |> <| Task_Status := status |> <| Task_Attempts := attempts |>
        <| Task_BlockedReason := reason |> <| Task_Error := error |>
    /\ (if marked && isNone (Task_OutputCommit t) then status = StatusCancelled
        else status = StatusQueued \/ status = StatusBlocked).
Proof.
  set (u := InterruptedTask marked t).
  exists (Task_Sessions u), (Task_Status u), (Task_Attempts u), (Task_Error u), (Task_BlockedReason u).
  unfold u, InterruptedTask. change (Task_OutputCommit (t <| Task_Sessions := _ |>)) with (Task_OutputCommit t). cbv zeta.
  destruct (marked && _); [by split|].
  destruct (Initialized _ && _); [by split; [|left]|].
  destruct (Initialized _); [destruct (isSome _)|]; (split; [reflexivity|by right]).
Qed.
Lemma recovery_accepted marked now t :
  active_row s t = true -> Discarded t = false ->
  ValidateTaskChange t ((InterruptedTask marked t) <| Task_UpdatedAt := now |>) TaskRecovery marked = Ok tt.
Proof.
  intros A D. unfold active_row in A. bool_hyps. apply accepted_ValidateTaskChange.
  destruct (InterruptedTask_shape marked t) as (ss & st & n & e & r & -> & St).
  split.
  - unfold same_identity. rewrite !bool_decide_eq_true_2 by reflexivity. by rewrite !Equal_refl.
  - by intros c E.
  - by intros _ _.
  - intros W. exfalso. apply orb_true_iff in W as []; congruence.
  - unfold transition_valid. cbn [Task_Status Task_OutputCommit]. destruct (marked && _); [by subst|].
    replace (Active (Task_Status t)) with true by congruence. by destruct St as [-> | ->].
  - discriminate.
  - clear. destruct t. vm_compute. reflexivity.
Qed.

Lemma InterruptedTask_inactive marked now t :
  active_row s ((InterruptedTask marked t) <| Task_UpdatedAt := now |>) = false.
Proof.
  destruct (InterruptedTask_shape marked t) as (ss & st & n & e & r & -> & St). unfold active_row. cbn [Task_Status].
  destruct (marked && _); [by subst|]. by destruct St as [-> | ->].
Qed.
Lemma InterruptedTask_ID marked now t : Task_ID ((InterruptedTask marked t) <| Task_UpdatedAt := now |>) = Task_ID t.
Proof. by destruct (InterruptedTask_shape marked t) as (ss & st & n & e & r & -> & St). Qed.

(** Saving an accepted change of the saved task succeeds. *)
Lemma wp_commit_accepted t next change Q a :
  db_tasks (app_db a) !! Task_ID t = Some t -> (forall now, Task_ID (next <| Task_UpdatedAt := now |>) = Task_ID t) ->
  change <> TaskSettlement ->
  (forall now, ValidateTaskChange t (next <| Task_UpdatedAt := now |>) change (marker (Task_ID t) (app_db a)) = Ok tt) ->
  (forall now n, let saved := next <| Task_UpdatedAt := now |> in
     Q (Ok saved) (a <| app_db := put_task saved (app_db a) |> <| app_reads := n |>)) ->
  wp (commitTaskLocked t next change) Q a.
Proof.
  intros L Id Ch V K. unfold commitTaskLocked. wp_go. apply wp_store. intros r db C.
  change (app_db (a <| app_reads := _ |>)) with (app_db a) in C. cbv zeta in K.
  match type of C with context [CommitTask t ?n] => set (saved := n) in * end.
  assert (CommitTask t saved change (app_db a) = (Ok saved, put_task saved (app_db a))) as E.
  { unfold CommitTask, transaction. rewrite txCommitTask_accepts; [by unfold saved; rewrite V|done|apply Id|done]. }
  rewrite E in C. injection C as <- <-. wp_go. apply K.
Qed.

Record progress (a0 a : App) : Prop := {
  progress_cancel : db_cancel (app_db a) = db_cancel (app_db a0);
  progress_filed : filed (app_db a);
  progress_tasks id :
    match db_tasks (app_db a0) !! id with
    | None => db_tasks (app_db a) !! id = None
    | Some t => db_tasks (app_db a) !! id = Some t
                \/ (active_row s t = true /\ exists now,
                    db_tasks (app_db a) !! id = Some ((InterruptedTask (CancelMarked id (app_db a0)) t) <| Task_UpdatedAt := now |>))
    end }.

Lemma recover_task_settles a0 :
  (forall id t, db_tasks (app_db a0) !! id = Some t -> workspace_kept t) ->
  settles (active_row s) (progress a0) (fun _ _ => False) (recover_task s).
Proof.
  intros D t a [Cn Fl Tk] L Ac. pose proof (Tk (Task_ID t)) as T.
  destruct (db_tasks (app_db a0) !! Task_ID t) as [t0|] eqn:L0; [|by rewrite L in T].
  assert (t0 = t) as ->.
  { destruct T as [T|[_ [now T]]]; rewrite L in T; [congruence|]. injection T as E.
    pose proof (InterruptedTask_inactive (CancelMarked (Task_ID t) (app_db a0)) now t0) as In. rewrite <- E in In. congruence. }
  assert (CancelMarked (Task_ID t) (app_db a) = CancelMarked (Task_ID t) (app_db a0)) as Mk
    by (unfold CancelMarked, marker; by rewrite Cn).
  unfold recover_task. wp_go. rewrite Mk. apply wp_commit_accepted; [done| |done| |].
  - intros now. apply InterruptedTask_ID.
  - intros now. change (marker (Task_ID t) (app_db a)) with (CancelMarked (Task_ID t) (app_db a)). rewrite Mk.
    apply recovery_accepted; [done|]. eapply D; [exact L0|]. unfold active_row in Ac. by bool_hyps.
  - intros now n. cbv zeta. set (u := (InterruptedTask _ t) <| Task_UpdatedAt := now |>). wp_go. apply wp_event.
    intros events m. assert (Task_ID u = Task_ID t) as Iu by apply InterruptedTask_ID.
    assert (db_tasks (put_task u (app_db a)) = <[Task_ID t := u]> (db_tasks (app_db a))) as Tu
      by (by rewrite put_task_tasks, Iu).
    match goal with |- progress _ ?b /\ _ => assert (db_tasks (app_db b) = <[Task_ID t := u]> (db_tasks (app_db a))) as Tb
      by exact Tu end.
    split.
    2: { exists u. split; [apply InterruptedTask_inactive|exact Tb]. }
    split.
    + etrans; [|exact Cn]. exact (put_task_cancel u (app_db a)).
    + exact (filed_put u _ Fl).
    + intros id. specialize (Tk id).
      rewrite Tb, lookup_insert.
      destruct (decide (Task_ID t = id)) as [<-|]; [|done]. rewrite L0. right. split; [done|]. by exists now.
Qed.

(** C21: a restart settles every interrupted task, and no other.  In any
    database the store can reach, the drain of the active tasks ends without
    error, however many pages there are; each task that was executing,
    reviewing, repairing, verifying or publishing is then saved as
    [InterruptedTask] decides: cancelled when its cancellation was marked and
    nothing was authorised, queued for another attempt when its workspace is
    initialized and attempts are left, blocked otherwise; every other task is
    exactly as it was. *)
Theorem recover_active_settles redact policy_text Fingerprint a :
  store_run redact policy_text Fingerprint empty_db (app_db a) ->
  wp (recover_active s) (fun r a' => r = Ok tt /\ forall id,
      match db_tasks (app_db a) !! id with
      | None => db_tasks (app_db a') !! id = None
      | Some t =>
        if active_row s t
        then exists now, db_tasks (app_db a') !! id =
               Some ((InterruptedTask (CancelMarked id (app_db a)) t) <| Task_UpdatedAt := now |>)
        else db_tasks (app_db a') !! id = Some t
      end) a.
Proof.
  intros R. destruct (reachable_tasks _ _ _ _ R) as [Fl Kp]. unfold recover_active, drain_fuel. wp_go.
  apply (wp_drain (progress a) (fun b => rows (active_row s) (db_tasks (app_db b)))).
  - intros b Pb. unfold recover_page. wp_go. pose proof (page_firstn (active_row s) _ (progress_filed _ _ Pb)) as Pg.
    fold (ActiveTasks s (app_db b)) in Pg.
    eapply wp_mono; [apply (wp_settle_page _ _ _ _ _ _ (recover_task_settles a Kp) Pb);
      [exact (page_NoDup _ _ _ Pg)|exact (page_rows _ _ _ Pg)]|].
    intros [[]|err] b'; [|done]. intros [Pb' C]. wp_go. pose proof (page_drains _ _ _ _ Pg C) as Dr.
    destruct (_ <? _)%nat; [|done]. split; [done|]. intros id. pose proof (progress_tasks _ _ Pb' id) as T.
    destruct (db_tasks (app_db a) !! id) as [t|]; [|done]. destruct (active_row s t) eqn:Ac.
    + destruct T as [T|[_ T]]; [|done]. by rewrite (rows_none _ _ _ _ Dr T) in Ac.
    + destruct T as [T|[Ab _]]; [done|by rewrite Ab in Ac].
  - split; [done|done|]. intros id. destruct (_ !! id); [by left|done].
  - pose proof (rows_bounded (active_row s) (db_tasks (app_db a))). lia.
Qed.

(** ** Records without a worker are settled *)

(** No task that is active is left without an owner. *)
Definition no_orphan (excluded : list string) (m : gmap string Task) : Prop :=
  forall id t, m !! id = Some t -> active_row s t = true -> Discarded t = false -> Task_ID t ∈ excluded.
Lemma wp_settle_orphans excluded ts a :
  filed (app_db a) -> NoDup (map Task_ID ts) ->
  Forall (fun t => db_tasks (app_db a) !! Task_ID t = Some t /\ orphan_row s excluded t = true) ts ->
  wp (settle_orphans s ts) (fun r a' => match r with
    | Ok true => filed (app_db a') /\ (rows (orphan_row s excluded) (db_tasks (app_db a')) + length ts
                                       = rows (orphan_row s excluded) (db_tasks (app_db a)))%nat
    | Ok false => exists n, stops n = true
    | Err err => no_panic err
    end) a.
Proof.
  revert a. induction ts as [|t ts IH]; intros a Fl ND Rows; [wp_go; split; [done|simpl; lia]|].
  apply NoDup_cons in ND as [Hd ND]. apply Forall_cons in Rows as [[L Pt] Rows]. simpl settle_orphans. wp_go.
  destruct (stops _) eqn:St; [wp_go; by eexists|]. wp_go. apply wp_settleExitedTask; [done| |by intros].
  intros t' a1 _ T Na It. assert (orphan_row s excluded t' = false) as Pu by (unfold orphan_row, active_row; by rewrite Na).
  change (app_db (a <| app_reads := _ |>)) with (app_db a) in T. pose proof (rows_settle _ _ _ _ L Pt Pu) as Cn. rewrite <- T in Cn.
  eapply wp_mono; [apply IH; [|done|]|].
  - intros id u. rewrite T, lookup_insert. destruct (decide _) as [<-|]; [by intros [= <-]|apply Fl].
  - rewrite T. apply Forall_forall. intros v Ev. destruct (proj1 (Forall_forall _ _) Rows _ Ev) as [Lv Pv]. split; [|done].
    rewrite lookup_insert_ne; [done|]. intros E. apply Hd. rewrite E. apply list_elem_of_fmap. by exists v.
  - intros [[]|err] a2; [|done..]. intros [F2 C]. split; [done|]. simpl. lia.
Qed.

(** No running task stays behind without an owner.  Whatever the store
    answers, the scan ends (its loop never runs out); when it ends without
    error, then, unless the service is stopping, every task saved as active,
    whose workspace is not discarded, has a live worker, a pending settlement
    or a cleanup that claimed it. *)
Theorem blockOrphanedTasks_complete a :
  filed (app_db a) ->
  wp (blockOrphanedTasks s) (fun r a' => match r with
    | Ok _ => (exists n, stops n = true) \/ no_orphan (ownedTaskIDs (app_runtime a)) (db_tasks (app_db a'))
    | Err err => no_panic err
    end) a.
Proof.
  intros Fl. unfold blockOrphanedTasks, drain_fuel. wp_go. set (excluded := ownedTaskIDs (app_runtime a)).
  apply (wp_drain (fun b => filed (app_db b)) (fun b => rows (orphan_row s excluded) (db_tasks (app_db b)))).
  - intros b Fb. unfold orphan_page. wp_go. pose proof (page_firstn (orphan_row s excluded) _ Fb) as Pg.
    fold (ActiveTasksExcept s excluded (app_db b)) in Pg.
    eapply wp_mono; [apply wp_settle_orphans; [done|exact (page_NoDup _ _ _ Pg)|exact (page_rows _ _ _ Pg)]|].
    intros [[]|err] b'; [|intros St; wp_go; by left|done]. intros [Fb' C]. wp_go. pose proof (page_drains _ _ _ _ Pg C) as Dr.
    destruct (_ <? _)%nat; [|done]. right. intros id t L Ac D. pose proof (rows_none _ _ _ _ Dr L) as E.
    unfold orphan_row in E. rewrite Ac, D in E. cbn in E. by apply negb_false_iff, bool_decide_eq_true in E.
  - exact Fl.
  - pose proof (rows_bounded (orphan_row s excluded) (db_tasks (app_db a))). lia.
Qed.
End scans.

(** ** Witnesses *)

Definition interrupted_db : Db := (CommitTask (sample_task "t") (executing_task "t") TaskAdmission planned.2).2.
Lemma interrupted_run : store_run (fun m => m) (fun _ => "") no_fingerprint empty_db interrupted_db.
Proof.
  etrans; [exact planned_run|]. apply rtc_once.
  apply (step_CommitTask _ _ _ _ _ (sample_task "t") (executing_task "t") TaskAdmission (Ok (executing_task "t"))).
  vm_compute. reflexivity.
Qed.
Definition restarted : App := snd (recover_active sample_store (new_app interrupted_db)).
Lemma recover_active_settles_witness :
  wp (recover_active sample_store) (fun r _ => r = Ok tt) (new_app interrupted_db)
  /\ Task_Status <$> db_tasks (app_db restarted) !! "t" = Some StatusBlocked.
Proof.
  split; [|vm_compute; reflexivity].
  eapply wp_mono; [exact (recover_active_settles sample_store _ _ _ (new_app interrupted_db) interrupted_run)|].
  intros r a' [E _]. exact E.
Defined.
Definition orphaned : App := new_app (task_db (executing_task "t")).
Definition scanned : App := snd (blockOrphanedTasks sample_store orphaned).
Lemma blockOrphanedTasks_complete_witness :
  wp (blockOrphanedTasks sample_store) (fun r a' => match r with
    | Ok _ => (exists n, stops n = true) \/ no_orphan sample_store (ownedTaskIDs (app_runtime orphaned)) (db_tasks (app_db a'))
    | Err err => no_panic err
    end) orphaned
  /\ Task_Status <$> db_tasks (app_db scanned) !! "t" = Some StatusBlocked.
Proof.
  split; [|vm_compute; reflexivity].
  exact (blockOrphanedTasks_complete sample_store orphaned (task_db_filed (executing_task "t"))).
Defined.
