(* ===== verification/Dependencies.v ===== *)
(** * The dependency graph of a plan ([validateDependencies] in [internal/engine/plan_rules.go])

    The checks on what the planning agents return before any task is created:
    identities, assessments, targets, sizes, and the dependency graph of the
    accepted work.  The depth-first search recurses and the ordering loop
    iterates on fuel; [None] is running out of it, which never happens
    ([validateDependencies_total]). *)
From S2P Require Import Prelude GoStrings WireJson Enums Types GoErrors Config GoTime Model Samples.
Local Open Scope string_scope.
Local Open Scope list_scope.
Local Open Scope N_scope.

(** ** The dependency graph *)

Record depNode := mkDepNode { node_id : string; node_target : string; node_deps : list string }.
#[export] Instance depNode_eq_dec : EqDecision depNode.
Proof. solve_decision. Defined.

Definition by_id (nodes : list depNode) : gmap string depNode :=
  foldl (fun m node => <[node_id node := node]> m) ∅ nodes.

Section dependencies.
  Context (noun defaultBranch : string).

(** *** Edges *)

Definition check_edge (byID : gmap string depNode) (node : depNode) (id : string) : result unit error :=
  match byID !! id with
  | None => Err (Errorf "%s %q depends on %q, which is not an accepted %s in this plan"
                   [VStr noun; VStr (node_id node); VStr id; VStr noun])
  | Some dependency =>
    guard negb (bool_decide (node_target node = defaultBranch))
      else Errorf "Default-branch work cannot depend on another %s; consolidate or defer it until the prerequisite PR has merged: %s %q depends on %q"
             [VStr noun; VStr noun; VStr (node_id node); VStr id];
    guard bool_decide (node_target dependency = node_target node)
      else Errorf "Dependent %ss must write the same existing pull request: %s %q (target %q) depends on %q (target %q)"
             [VStr noun; VStr noun; VStr (node_id node); VStr (node_target node); VStr id; VStr (node_target dependency)];
    Ok tt
  end.
Fixpoint check_each {A} (f : A -> result unit error) (l : list A) : result unit error :=
  match l with
  | [] => Ok tt
  | x :: t => let! _ := f x in check_each f t
  end.
Definition check_edges (nodes : list depNode) : result unit error :=
  check_each (fun node => check_each (check_edge (by_id nodes) node) (node_deps node)) nodes.

(** *** Cycles *)

Inductive mark := Visiting | Done.
#[export] Instance mark_eq_dec : EqDecision mark.
Proof. solve_decision. Defined.
Definition deps_of (byID : gmap string depNode) (id : string) : list string :=
  match byID !! id with Some node => node_deps node | None => [] end.

Section visit.
  Context (byID : gmap string depNode) (visit : gmap string mark -> string -> option (result (gmap string mark) error)).
Fixpoint visit_deps (state : gmap string mark) (deps : list string) : option (result (gmap string mark) error) :=
  match deps with
  | [] => Some (Ok state)
  | d :: rest => match visit state d with
                 | Some (Ok state) => visit_deps state rest
                 | other => other
                 end
  end.
End visit.

Fixpoint visit (byID : gmap string depNode) (fuel : nat) (state : gmap string mark) (id : string)
    : option (result (gmap string mark) error) :=
  match fuel with
  | O => None
  | S fuel =>
    match state !! id with
    | Some Visiting => Some (Err (Errorf "Dependency cycle through %s %q" [VStr noun; VStr id]))
    | Some Done => Some (Ok state)
    | None =>
      match visit_deps (visit byID fuel) (<[id := Visiting]> state) (deps_of byID id) with
      | Some (Ok state) => Some (Ok (<[id := Done]> state))
      | other => other
      end
    end
  end.
Definition search_fuel (nodes : list depNode) : nat := S (size (by_id nodes)).
Definition check_cycles (nodes : list depNode) : option (result (gmap string mark) error) :=
  visit_deps (visit (by_id nodes) (search_fuel nodes)) ∅ (map node_id nodes).

(** *** The order of the writers to a branch *)

Definition branch_members (nodes : list depNode) (branch : string) : list depNode :=
  List.filter (fun node => bool_decide (node_target node = branch)) nodes.
Fixpoint first_seen (seen : gset string) (l : list string) : list string :=
  match l with
  | [] => []
  | x :: t => if bool_decide (x ∈ seen) then first_seen seen t else x :: first_seen ({[x]} ∪ seen) t
  end.
Definition branches_of (nodes : list depNode) : list string :=
  first_seen ∅ (List.filter (fun target => negb (bool_decide (target = defaultBranch))) (map node_target nodes)).

Definition is_ready (remaining : gset string) (member : depNode) : bool :=
  bool_decide (node_id member ∈ remaining)
  && negb (existsb (fun d => bool_decide (d ∈ remaining)) (node_deps member)).
(** The members ready at this step, in order: [count] is their number and
    [ready] the last one. *)
Definition ready_members (members : list depNode) (remaining : gset string) : list string :=
  map node_id (List.filter (is_ready remaining) members).

Fixpoint order_loop (members : list depNode) (fuel : nat) (branch : string) (remaining : gset string)
    : option (result unit error) :=
  if bool_decide (remaining = ∅) then Some (Ok tt) else
  match fuel with
  | O => None
  | S fuel =>
    match ready_members members remaining with
    | [ready] => order_loop members fuel branch (remaining ∖ {[ready]})
    | _ => Some (Err (Errorf "Accepted %ss on %s need a complete dependency order; unordered or forked branch plans cannot execute"
                        [VStr noun; VStr branch]))
    end
  end.
Definition check_branch (nodes : list depNode) (branch : string) : option (result unit error) :=
  let members := branch_members nodes branch in
  order_loop members (List.length members) branch (list_to_set (map node_id members)).
Fixpoint check_branches (nodes : list depNode) (branches : list string) : option (result unit error) :=
  match branches with
  | [] => Some (Ok tt)
  | branch :: rest => match check_branch nodes branch with
                      | Some (Ok _) => check_branches nodes rest
                      | other => other
                      end
  end.

Definition validateDependencies (nodes : list depNode) : option (result unit error) :=
  match check_edges nodes with
  | Err e => Some (Err e)
  | Ok _ =>
    match check_cycles nodes with
    | None => None
    | Some (Err e) => Some (Err e)
    | Some (Ok _) => check_branches nodes (branches_of nodes)
    end
  end.
End dependencies.

(** *** What the graph must look like *)

(** [id] waits for [d]. *)
Definition waits (byID : gmap string depNode) (id d : string) : Prop := d ∈ deps_of byID id.
(** Every chain of prerequisites that starts at [id] is finite. *)
Definition grounded (byID : gmap string depNode) : string -> Prop :=
  Acc (fun d id => waits byID id d).
(** Every dependency names a node of the plan on the same, non-default,
    branch. *)
Definition edges_ok (defaultBranch : string) (nodes : list depNode) : Prop :=
  forall node d, node ∈ nodes -> d ∈ node_deps node ->
    node_target node <> defaultBranch
    /\ exists dependency, dependency ∈ nodes /\ node_id dependency = d
                        /\ node_target dependency = node_target node.
(** [execution members remaining order]: starting from the unfinished
    [remaining], running the writers one at a time in [order], each after all
    its prerequisites, finishes them all. *)
Inductive execution (members : list depNode) : gset string -> list string -> Prop :=
| execution_done : execution members ∅ []
| execution_step remaining m order :
    m ∈ members -> is_ready remaining m = true ->
    execution members (remaining ∖ {[node_id m]}) order ->
    execution members remaining (node_id m :: order).
Definition executes (nodes : list depNode) (branch : string) (order : list string) : Prop :=
  let members := branch_members nodes branch in
  execution members (list_to_set (map node_id members)) order.

Example chain_ok : validateDependencies "task" "main"
  [mkDepNode "a" "pr" []; mkDepNode "b" "pr" ["a"]; mkDepNode "c" "main" []] = Some (Ok tt).
Proof. vm_compute. reflexivity. Qed.
Example fork_refused : validateDependencies "task" "main" [mkDepNode "a" "pr" []; mkDepNode "b" "pr" []]
  = Some (Err (Errorf "Accepted %ss on %s need a complete dependency order; unordered or forked branch plans cannot execute"
                 [VStr "task"; VStr "pr"])).
Proof. vm_compute. reflexivity. Qed.

(** ** Lookup in the plan *)

Lemma by_id_app nodes node : by_id (nodes ++ [node]) = <[node_id node := node]> (by_id nodes).
Proof. unfold by_id. by rewrite foldl_app. Qed.
Lemma by_id_elem nodes id node : by_id nodes !! id = Some node -> node ∈ nodes /\ node_id node = id.
Proof.
  induction nodes as [|n nodes IH] using rev_ind; [done|]. rewrite by_id_app.
  intros [[<- <-]|[_ L]]%lookup_insert_Some; [set_solver|]. apply IH in L. set_solver.
Qed.
Lemma by_id_lookup nodes node :
  NoDup (map node_id nodes) -> node ∈ nodes -> by_id nodes !! node_id node = Some node.
Proof.
  induction nodes as [|n nodes IH] using rev_ind; [by intros ? ?%elem_of_nil|].
  rewrite by_id_app, map_app. intros (ND & Dis & _)%NoDup_app I.
  apply elem_of_app in I as [I|<-%list_elem_of_singleton]; [|apply lookup_insert_eq].
  rewrite lookup_insert_ne; [by apply IH|]. intros E. apply (Dis (node_id node)).
  - apply list_elem_of_In, in_map, list_elem_of_In, I.
  - rewrite <- E. by left.
Qed.
Lemma deps_of_node nodes node :
  NoDup (map node_id nodes) -> node ∈ nodes -> deps_of (by_id nodes) (node_id node) = node_deps node.
Proof. intros ND I. unfold deps_of. by rewrite by_id_lookup. Qed.
Lemma elem_of_ids nodes id : id ∈ map node_id nodes <-> exists node, node ∈ nodes /\ node_id node = id.
Proof.
  rewrite list_elem_of_In, in_map_iff. split; intros (n & A & B); exists n;
    rewrite ?list_elem_of_In in *; auto.
Qed.

Lemma check_each_Ok {A} (f : A -> result unit error) l :
  check_each f l = Ok tt <-> forall x, x ∈ l -> f x = Ok tt.
Proof.
  induction l as [|x l IH]; simpl; [split; [by intros _ ? ?%elem_of_nil|done]|].
  rewrite result_bind_Ok. split.
  - intros ([] & F & C) y [->|I]%elem_of_cons; [done|]. by apply IH.
  - intros F. exists tt. split; [apply F; by left|]. apply IH. intros y I. apply F. by right.
Qed.

Lemma check_edges_Ok noun main nodes :
  NoDup (map node_id nodes) -> check_edges noun main nodes = Ok tt <-> edges_ok main nodes.
Proof.
  intros ND. unfold check_edges, edges_ok. rewrite check_each_Ok. split.
  - intros C node d I D. specialize (C _ I). rewrite check_each_Ok in C. specialize (C _ D).
    unfold check_edge in C. destruct (by_id nodes !! d) as [dep|] eqn:L; [|done].
    ok_inv C. bool_hyps. split; [done|]. exists dep. by destruct (by_id_elem _ _ _ L).
  - intros E node I. apply check_each_Ok. intros d D.
    destruct (E _ _ I D) as (NT & dep & ID & <- & T). unfold check_edge.
    rewrite by_id_lookup by done. by rewrite bool_decide_eq_false_2, bool_decide_eq_true_2.
Qed.

(** ** The search for cycles *)

Section search.
  Context (noun : string) (byID : gmap string depNode).
  Implicit Types (state : gmap string mark) (id : string).

(** The nodes not visited yet: what the recursion's fuel counts. *)
Definition unvisited state : nat := size (dom byID ∖ dom state : gset string).
(** What a visit leaves behind: marks are only added, the nodes being visited
    are the same, and every finished node is still finished. *)
Definition extends state state' : Prop :=
  (dom state : gset string) ⊆ dom state'
  /\ (forall v, state' !! v = Some Visiting <-> state !! v = Some Visiting)
  /\ (forall v, state !! v = Some Done -> state' !! v = Some Done).
Definition finished_grounded state : Prop :=
  forall v, state !! v = Some Done -> grounded byID v.

Lemma extends_refl state : extends state state.
Proof. by repeat split. Qed.
Lemma extends_trans s1 s2 s3 : extends s1 s2 -> extends s2 s3 -> extends s1 s3.
Proof. intros (A & B & C) (A' & B' & C'). split; [set_solver|]. split; [intros v; by rewrite B'|auto]. Qed.
Lemma extends_mark state state' id :
  state !! id = None -> extends (<[id := Visiting]> state) state' -> extends state (<[id := Done]> state').
Proof.
  intros N (A & B & C). rewrite dom_insert_L in A. split; [rewrite dom_insert_L; set_solver|].
  split; intros v; destruct (decide (v = id)) as [->|E];
    rewrite ?lookup_insert_eq, ?lookup_insert_ne by done; try naive_solver.
  - rewrite B, lookup_insert_ne; done.
  - intros L. apply C. by rewrite lookup_insert_ne.
Qed.
Lemma unvisited_extends state state' : extends state state' -> (unvisited state' <= unvisited state)%nat.
Proof. intros (A & _). unfold unvisited. apply (subseteq_size (C:=gset string)). set_solver. Qed.
Lemma unvisited_mark state id :
  state !! id = None -> is_Some (byID !! id) ->
  (unvisited (<[id := Visiting]> state) < unvisited state)%nat.
Proof.
  intros N L. unfold unvisited. apply (subset_size (C:=gset string)). rewrite dom_insert_L.
  apply elem_of_dom in L. apply not_elem_of_dom in N. set_solver.
Qed.
Lemma deps_of_known id d : d ∈ deps_of byID id -> is_Some (byID !! id).
Proof. unfold deps_of. destruct (byID !! id); [done|]. by intros ?%elem_of_nil. Qed.

(** One visit: it answers within its fuel; when it succeeds the node is
    finished and so grounded. *)
Definition visit_answers state id (r : option (result (gmap string mark) error)) : Prop :=
  (exists e, r = Some (Err e))
  \/ (exists state', r = Some (Ok state') /\ extends state state' /\ state' !! id = Some Done
       /\ finished_grounded state').

Lemma visit_deps_answers v state deps :
  (forall s d, d ∈ deps -> extends state s -> finished_grounded s -> visit_answers s d (v s d)) ->
  finished_grounded state ->
  (exists e, visit_deps v state deps = Some (Err e))
  \/ (exists state', visit_deps v state deps = Some (Ok state') /\ extends state state'
       /\ (forall d, d ∈ deps -> state' !! d = Some Done) /\ finished_grounded state').
Proof.
  revert state. induction deps as [|d deps IH]; intros state V F; simpl.
  { right. exists state. split; [done|]. split; [apply extends_refl|]. split; [|done].
    by intros ? ?%elem_of_nil. }
  destruct (V state d) as [[e ->]|(s & -> & X & D & F')]; [by left|apply extends_refl|done|by left; eauto|].
  destruct (IH s) as [?|(s' & -> & X' & D' & F'')]; [|done|by left|].
  - intros ? ? I X'. apply V; [by right|]. by eapply extends_trans.
  - right. exists s'. split; [done|]. split; [by eapply extends_trans|]. split; [|done].
    intros ? [->|I]%elem_of_cons; [by apply X'|auto].
Qed.

Lemma visit_answered fuel state id :
  (unvisited state < fuel)%nat -> finished_grounded state ->
  visit_answers state id (visit noun byID fuel state id).
Proof.
  revert state id. induction fuel as [|fuel IH]; intros state id U F; [lia|]. simpl.
  destruct (state !! id) as [[]|] eqn:L.
  - left. eauto.
  - right. exists state. split; [done|]. split; [apply extends_refl|]. by split.
  - destruct (visit_deps_answers (visit noun byID fuel) (<[id := Visiting]> state) (deps_of byID id))
      as [[e ->]|(s & -> & X & D & F')].
    + intros s d I X F'. apply IH; [|done].
      pose proof (unvisited_mark _ _ L (deps_of_known _ _ I)). apply unvisited_extends in X. lia.
    + intros v. destruct (decide (v = id)) as [->|?];
        rewrite ?lookup_insert_eq, ?lookup_insert_ne by done; [done|apply F].
    + left. eauto.
    + right. eexists. split; [done|]. split; [by apply extends_mark|]. split; [apply lookup_insert_eq|].
      intros v. destruct (decide (v = id)) as [->|?]; [|rewrite lookup_insert_ne by done; apply F'].
      intros _. constructor. intros d W. by apply F', D.
Qed.
End search.

(** The plan's nodes are searched in turn; a search that succeeds has shown
    every chain of prerequisites finite. *)
Lemma unvisited_empty nodes : (unvisited (by_id nodes) ∅ < search_fuel nodes)%nat.
Proof.
  unfold unvisited, search_fuel. apply Nat.lt_succ_r. rewrite <- size_dom.
  apply (subseteq_size (C:=gset string)). set_solver.
Qed.
Lemma check_cycles_answered noun nodes :
  (exists e, check_cycles noun nodes = Some (Err e))
  \/ (exists state, check_cycles noun nodes = Some (Ok state)
       /\ forall node, node ∈ nodes -> grounded (by_id nodes) (node_id node)).
Proof.
  unfold check_cycles.
  destruct (visit_deps_answers (by_id nodes) (visit noun (by_id nodes) (search_fuel nodes)) ∅ (map node_id nodes))
    as [?|(s & -> & _ & D & F)].
  - intros s d _ X F. apply visit_answered; [|done].
    apply unvisited_extends with (byID := by_id nodes) in X. pose proof (unvisited_empty nodes). lia.
  - by intros ? ?.
  - by left.
  - right. exists s. split; [done|]. intros node I. apply F, D, elem_of_ids. eauto.
Qed.

(** Conversely a search on a graph without cycles succeeds: a node being
    visited waits, in one or more steps, for every node its visit reaches. *)
Section complete.
  Context (noun : string) (byID : gmap string depNode).

Lemma grounded_irreflexive id : grounded byID id -> ~ tc (waits byID) id id.
Proof.
  induction 1 as [id _ IH]. intros C. inversion C as [? ? W|? d ? W C']; subst; [by apply (IH id)|].
  apply (IH d W). by eapply tc_r.
Qed.
Lemma visit_deps_complete v state deps :
  (forall s d, d ∈ deps -> extends state s -> finished_grounded byID s ->
     visit_answers byID s d (v s d) /\ exists s', v s d = Some (Ok s')) ->
  finished_grounded byID state -> exists s', visit_deps v state deps = Some (Ok s').
Proof.
  revert state. induction deps as [|d deps IH]; intros state V F; simpl; [eauto|].
  destruct (V state d) as ([[e E]|(s & -> & X & _ & F')] & s' & E'); [by left|apply extends_refl|done|congruence|].
  apply IH; [|done]. intros ? ? I X'. apply V; [by right|]. by eapply extends_trans.
Qed.
Lemma visit_complete fuel state id :
  (unvisited byID state < fuel)%nat -> grounded byID id -> finished_grounded byID state ->
  (forall v, state !! v = Some Visiting -> tc (waits byID) v id) ->
  exists state', visit noun byID fuel state id = Some (Ok state').
Proof.
  revert state id. induction fuel as [|fuel IH]; intros state id U G F V; [lia|]. simpl.
  destruct (state !! id) as [[]|] eqn:L; [|eauto|].
  { by apply V, grounded_irreflexive in L. }
  assert (finished_grounded byID (<[id := Visiting]> state)) as F'.
  { intros v. destruct (decide (v = id)) as [->|?];
      rewrite ?lookup_insert_eq, ?lookup_insert_ne by done; [done|apply F]. }
  destruct (visit_deps_complete (visit noun byID fuel) (<[id := Visiting]> state) (deps_of byID id))
    as [s ->]; [|done|eauto].
  intros s d I X F''.
  assert (unvisited byID s < fuel)%nat.
  { pose proof (unvisited_mark _ _ _ L (deps_of_known _ _ _ I)). apply unvisited_extends with (byID := byID) in X. lia. }
  split; [by apply visit_answered|]. apply IH; [done|by apply Acc_inv with (1 := G)|done|].
  intros v Lv. apply X in Lv. destruct (decide (v = id)) as [->|?]; [by apply tc_once|].
  rewrite lookup_insert_ne in Lv by done. eapply tc_r; [by apply V|done].
Qed.
End complete.

Lemma check_cycles_complete noun nodes :
  (forall node, node ∈ nodes -> grounded (by_id nodes) (node_id node)) ->
  exists state, check_cycles noun nodes = Some (Ok state).
Proof.
  intros G. unfold check_cycles. apply visit_deps_complete with (byID := by_id nodes); [|by intros ? ?].
  intros s d (node & I & <-)%elem_of_ids X F.
  assert (unvisited (by_id nodes) s < search_fuel nodes)%nat.
  { apply unvisited_extends with (byID := by_id nodes) in X. pose proof (unvisited_empty nodes). lia. }
  split; [by apply visit_answered|]. apply visit_complete; [done|by apply G|done|].
  intros v Lv. by apply X in Lv.
Qed.

(** ** The order of a branch's writers *)

Section order.
  Context (noun : string) (members : list depNode).
  Implicit Types (remaining : gset string) (order : list string).

Lemma is_ready_spec remaining m :
  is_ready remaining m = true <->
  node_id m ∈ remaining /\ (forall d, d ∈ node_deps m -> d ∉ remaining).
Proof.
  unfold is_ready. rewrite andb_true_iff, bool_decide_eq_true, negb_true_iff.
  rewrite <- not_true_iff_false, existsb_exists. setoid_rewrite bool_decide_eq_true.
  setoid_rewrite <- list_elem_of_In. naive_solver.
Qed.
Lemma elem_of_ready remaining id :
  id ∈ ready_members members remaining <->
  exists m, m ∈ members /\ is_ready remaining m = true /\ node_id m = id.
Proof.
  unfold ready_members. rewrite elem_of_ids. setoid_rewrite elem_of_bfilter. naive_solver.
Qed.
Lemma ready_NoDup remaining : NoDup (map node_id members) -> NoDup (ready_members members remaining).
Proof.
  unfold ready_members. induction members as [|m l IH]; simpl; [done|].
  intros [NI ND]%NoDup_cons. destruct_cond; [|by apply IH]. simpl. constructor; [|by apply IH].
  rewrite elem_of_ids. intros (n & [_ I]%elem_of_bfilter & E). apply NI, elem_of_ids. eauto.
Qed.

Lemma execution_cons remaining x order :
  execution members remaining (x :: order) ->
  exists m, m ∈ members /\ is_ready remaining m = true /\ node_id m = x
         /\ execution members (remaining ∖ {[x]}) order.
Proof. inversion 1; subst; eauto. Qed.

(** A writer that is ready can go first. *)
Lemma ready_first remaining order y :
  y ∈ members -> is_ready remaining y = true -> execution members remaining order ->
  exists order', execution members remaining (node_id y :: order').
Proof.
  intros M R X. induction X as [|remaining m order Mm Rm X IH].
  { apply is_ready_spec in R as [R _]. set_solver. }
  destruct (decide (node_id m = node_id y)) as [E|N].
  { exists order. rewrite <- E. by eapply execution_step. }
  rewrite is_ready_spec in R, Rm. destruct IH as [order' X'].
  { apply is_ready_spec. set_solver. }
  apply execution_cons in X' as (y' & My' & Ry' & E & X''). exists (node_id m :: order').
  replace (remaining ∖ {[node_id m]} ∖ {[node_id y]})
    with (remaining ∖ {[node_id y]} ∖ {[node_id m]}) in X'' by set_solver.
  apply execution_step; [done|apply is_ready_spec; set_solver|].
  apply execution_step; [done|apply is_ready_spec; set_solver|done].
Qed.

Lemma order_loop_answered fuel branch remaining :
  (size remaining <= fuel)%nat -> order_loop noun members fuel branch remaining <> None.
Proof.
  revert remaining. induction fuel as [|fuel IH]; intros remaining S; simpl; case_bool_decide; try done.
  - assert (size remaining = 0%nat) as Z by lia. by apply size_empty_inv, leibniz_equiv in Z.
  - destruct (ready_members members remaining) as [|x [|y l]] eqn:R; [done| |done].
    apply IH. assert (x ∈ remaining).
    { assert (x ∈ ready_members members remaining) as I by (rewrite R; by left).
      apply elem_of_ready in I as (m & _ & [? _]%is_ready_spec & <-). done. }
    rewrite size_difference, size_singleton by set_solver. lia.
Qed.

(** The loop accepts exactly when the writers have one order. *)
Lemma order_loop_unique fuel branch remaining :
  order_loop noun members fuel branch remaining = Some (Ok tt) ->
  exists order, execution members remaining order
    /\ forall order', execution members remaining order' -> order' = order.
Proof.
  revert remaining. induction fuel as [|fuel IH]; intros remaining; simpl; case_bool_decide as Z; subst; try done.
  1,2: intros _; exists []; split; [constructor|]; inversion 1 as [|? m ? _ [R _]%is_ready_spec _]; subst; [done|set_solver].
  destruct (ready_members members remaining) as [|x [|y l]] eqn:R; [done| |done]. intros L.
  apply IH in L as (order & X & U). exists (x :: order). split.
  - assert (x ∈ ready_members members remaining) as I by (rewrite R; by left).
    apply elem_of_ready in I as (m & ? & ? & <-). by apply execution_step.
  - intros [|x' order'] X'; [by inversion X'|].
    apply execution_cons in X' as (m & M & Rm & <- & X').
    assert (node_id m ∈ ready_members members remaining) as I by (apply elem_of_ready; eauto).
    rewrite R in I. apply list_elem_of_singleton in I. rewrite I in *. by rewrite (U order').
Qed.
Lemma order_loop_complete fuel branch remaining order :
  (size remaining <= fuel)%nat -> NoDup (map node_id members) ->
  execution members remaining order ->
  (forall order', execution members remaining order' -> order' = order) ->
  order_loop noun members fuel branch remaining = Some (Ok tt).
Proof.
  intros S ND X. revert fuel S.
  induction X as [|remaining m order M Rm X IH]; intros fuel S U.
  { destruct fuel; simpl; by rewrite bool_decide_eq_true_2. }
  pose proof (proj1 (is_ready_spec _ _) Rm) as [Im _].
  assert (node_id m ∈ ready_members members remaining) as I by (apply elem_of_ready; eauto).
  assert (remaining <> ∅) by set_solver.
  assert (size (remaining ∖ {[node_id m]}) < size remaining)%nat by (apply subset_size; set_solver).
  destruct fuel as [|fuel]; [lia|]. simpl. rewrite bool_decide_eq_false_2 by done.
  pose proof (ready_NoDup remaining ND) as NDr.
  assert (forall x, x ∈ ready_members members remaining -> x = node_id m) as Only.
  { intros x (n & N & Rn & <-)%elem_of_ready.
    destruct (ready_first _ _ _ N Rn (execution_step _ _ _ _ M Rm X)) as [o Y]. apply U in Y. by injection Y. }
  destruct (ready_members members remaining) as [|x [|y l]]; [by apply elem_of_nil in I| |].
  - apply list_elem_of_singleton in I as <-. apply IH; [lia|].
    intros o Y. assert (node_id m :: o = node_id m :: order) as E by (apply U; by apply execution_step).
    by injection E.
  - apply NoDup_cons in NDr as [NI _]. destruct NI.
    rewrite (Only x), <- (Only y) by set_solver. by left.
Qed.
End order.

Lemma execution_grounded nodes members remaining order :
  NoDup (map node_id nodes) -> members ⊆ nodes -> execution members remaining order ->
  (forall m d, m ∈ members -> d ∈ node_deps m -> d ∈ remaining \/ grounded (by_id nodes) d) ->
  forall id, id ∈ remaining -> grounded (by_id nodes) id.
Proof.
  intros ND Sub X. induction X as [|remaining m order M R X IH]; intros D id I; [set_solver|].
  apply is_ready_spec in R as [Im R].
  assert (grounded (by_id nodes) (node_id m)) as G.
  { constructor. intros d W. unfold waits in W. rewrite deps_of_node in W by (try apply Sub; done).
    destruct (D m d M W); [|done]. by apply R in W. }
  destruct (decide (id = node_id m)) as [->|N]; [done|]. apply IH; [|set_solver].
  intros m' d M' W. destruct (decide (d = node_id m)) as [->|]; [by right|].
  destruct (D m' d M' W); [left; set_solver|by right].
Qed.

Lemma elem_of_first_seen seen l x : x ∈ first_seen seen l <-> x ∈ l /\ x ∉ seen.
Proof.
  revert seen. induction l as [|y l IH]; intros seen; simpl; [set_solver|].
  case_bool_decide; rewrite ?elem_of_cons, IH; [|destruct (decide (x = y))]; set_solver.
Qed.
Lemma elem_of_branches main nodes branch :
  branch ∈ branches_of main nodes <-> branch <> main /\ exists node, node ∈ nodes /\ node_target node = branch.
Proof.
  unfold branches_of. rewrite elem_of_first_seen, elem_of_bfilter, negb_true_iff, bool_decide_eq_false.
  rewrite (list_elem_of_In (map _ _)), in_map_iff. setoid_rewrite <- list_elem_of_In. set_solver.
Qed.
Lemma elem_of_members nodes branch node :
  node ∈ branch_members nodes branch <-> node ∈ nodes /\ node_target node = branch.
Proof. unfold branch_members. rewrite elem_of_bfilter, bool_decide_eq_true. tauto. Qed.
Lemma members_NoDup nodes branch :
  NoDup (map node_id nodes) -> NoDup (map node_id (branch_members nodes branch)).
Proof.
  unfold branch_members. induction nodes as [|n nodes IH]; simpl; [done|].
  intros [NI ND]%NoDup_cons. destruct_cond; [|by apply IH]. simpl. constructor; [|by apply IH].
  rewrite elem_of_ids. intros (m & [_ I]%elem_of_bfilter & E). apply NI, elem_of_ids. eauto.
Qed.
Lemma size_ids members : (size (list_to_set (map node_id members) : gset string) <= List.length members)%nat.
Proof.
  induction members as [|m l IH]; cbn [map List.length]; [by rewrite list_to_set_nil, size_empty|].
  rewrite list_to_set_cons, size_union_alt, size_singleton. apply le_n_S. etrans; [|exact IH].
  apply (subseteq_size (C:=gset string)). set_solver.
Qed.

Lemma edges_grounded main nodes :
  NoDup (map node_id nodes) -> edges_ok main nodes ->
  (forall branch, branch <> main -> exists order, executes nodes branch order) ->
  forall node, node ∈ nodes -> grounded (by_id nodes) (node_id node).
Proof.
  intros ND E X node I. destruct (decide (node_target node = main)) as [T|T].
  { constructor. intros d W. unfold waits in W. rewrite deps_of_node in W by done. by destruct (E _ _ I W). }
  destruct (X _ T) as [order Y].
  eapply execution_grounded; [done| |exact Y| |].
  - intros m M. by apply elem_of_members in M as [M _].
  - intros m d [M Tm]%elem_of_members W. left. destruct (E _ _ M W) as (_ & dep & Id & <- & Td).
    apply elem_of_list_to_set, elem_of_ids. exists dep. split; [|done]. apply elem_of_members. split; congruence.
  - apply elem_of_list_to_set, elem_of_ids. exists node. split; [|done]. by apply elem_of_members.
Qed.

Lemma check_branches_Ok noun nodes branches :
  check_branches noun nodes branches = Some (Ok tt) <->
  forall branch, branch ∈ branches -> check_branch noun nodes branch = Some (Ok tt).
Proof.
  induction branches as [|b l IH]; simpl; [split; [by intros _ ? ?%elem_of_nil|done]|].
  split.
  - destruct (check_branch noun nodes b) as [[[]|]|] eqn:C; try done. intros B x [->|I]%elem_of_cons; [done|].
    by apply IH.
  - intros C. rewrite C by (by left). apply IH. intros x I. apply C. by right.
Qed.
Lemma check_branches_answered noun nodes branches : check_branches noun nodes branches <> None.
Proof.
  induction branches as [|b l IH]; simpl; [done|]. destruct (check_branch noun nodes b) as [[]|] eqn:C; try done.
  by apply order_loop_answered in C; [|apply size_ids].
Qed.
Lemma no_members nodes branch :
  (forall node, node ∈ nodes -> node_target node <> branch) -> branch_members nodes branch = [].
Proof.
  intros N. destruct (branch_members nodes branch) as [|m l] eqn:E; [done|].
  assert (m ∈ branch_members nodes branch) as M by (rewrite E; by left).
  apply elem_of_members in M as [M T]. by apply N in M.
Qed.
Lemma check_branch_unique noun nodes branch :
  NoDup (map node_id nodes) ->
  check_branch noun nodes branch = Some (Ok tt) <->
  exists order, executes nodes branch order /\ forall order', executes nodes branch order' -> order' = order.
Proof.
  intros ND. split; [apply order_loop_unique|]. intros (order & X & U).
  eapply order_loop_complete; [apply size_ids|by apply members_NoDup|exact X|exact U].
Qed.

Lemma validateDependencies_answer noun main nodes :
  NoDup (map node_id nodes) ->
  validateDependencies noun main nodes = Some (Ok tt) <->
  edges_ok main nodes
  /\ forall branch, branch <> main ->
       exists order, executes nodes branch order /\ forall order', executes nodes branch order' -> order' = order.
Proof.
  intros ND. unfold validateDependencies. split.
  - destruct (check_edges noun main nodes) as [[]|] eqn:E; [|done]. apply check_edges_Ok in E; [|done].
    destruct (check_cycles noun nodes) as [[]|]; try done. intros B. split; [done|]. intros branch NB.
    apply (check_branch_unique noun); [done|]. destruct (decide (branch ∈ branches_of main nodes)) as [I|I].
    + by eapply check_branches_Ok in B.
    + unfold check_branch. rewrite no_members; [done|]. intros node N T. apply I, elem_of_branches. eauto.
  - intros [E X]. pose proof (proj2 (check_edges_Ok noun main nodes ND) E) as ->.
    destruct (check_cycles_complete noun nodes) as [s ->].
    { eapply edges_grounded; [done|exact E|]. intros branch N. destruct (X _ N) as (order & Y & _). eauto. }
    apply check_branches_Ok. intros branch [N _]%elem_of_branches. by apply check_branch_unique, X.
Qed.

(** ** Properties of the dependency check *)

(** The dependency check always answers: the depth-first search and the
    ordering loops end, whatever graph the agents produced, duplicate
    identities and cycles included. *)
Theorem validateDependencies_total noun main nodes :
  exists r, validateDependencies noun main nodes = Some r.
Proof.
  unfold validateDependencies. destruct (check_edges noun main nodes) as [[]|e]; [|eauto].
  destruct (check_cycles_answered noun nodes) as [[e ->]|(s & -> & _)]; [eauto|].
  destruct (check_branches noun nodes _) eqn:E; [eauto|]. by apply check_branches_answered in E.
Qed.

(** C30: the dependency check accepts a plan exactly when every dependency
    names a node of the plan on the same non-default branch and the writers to
    each branch other than the default one have one, and only one, execution
    order. *)
Theorem validateDependencies_spec noun main nodes :
  NoDup (map node_id nodes) ->
  validateDependencies noun main nodes = Some (Ok tt) <->
  edges_ok main nodes
  /\ forall branch, branch <> main ->
       exists order, executes nodes branch order /\ forall order', executes nodes branch order' -> order' = order.
Proof. apply validateDependencies_answer. Qed.
Lemma validateDependencies_spec_witness :
  exists order, executes [mkDepNode "a" "pr" []; mkDepNode "b" "pr" ["a"]] "pr" order.
Proof.
  destruct (proj1 (validateDependencies_spec "task" "main" [mkDepNode "a" "pr" []; mkDepNode "b" "pr" ["a"]]
    ltac:(apply (bool_decide_eq_true_1 _); vm_compute; reflexivity)) ltac:(vm_compute; reflexivity)) as [_ X].
  destruct (X "pr" ltac:(discriminate)) as (order & Y & _). exists order. exact Y.
Defined.

(** The cycle search reports a cycle exactly on a plan that has one: it
    succeeds when, and only when, every chain of prerequisites is finite. *)
Theorem check_cycles_spec noun nodes :
  (exists state, check_cycles noun nodes = Some (Ok state)) <->
  (forall node, node ∈ nodes -> grounded (by_id nodes) (node_id node)).
Proof.
  split; [|apply check_cycles_complete]. intros [s E].
  destruct (check_cycles_answered noun nodes) as [[e C]|(s' & C & G)]; [congruence|done].
Qed.
