(* ===== verification/PlanRules.v ===== *)
(** * The rules a plan must satisfy ([internal/engine/plan_rules.go])

    The checks on what the planning agents return before any task is created:
    proposals, assessments, consolidation, the operator's requests and the
    rediscoveries, and the committed plan rechecked before dispatch.  The
    dependency graph is checked by [Dependencies].  [None] is the graph search
    running out of fuel, which never happens ([validateDependencies_total]).

    [redact.Secrets] and the JSON encoding of an entry are arguments of
    [externalContext]. *)
From stdpp Require Import sorting.
From S2P Require Import Prelude GoStrings Utf8 WireJson Enums Types GoErrors Config GoTime Model Samples Dependencies.
Local Open Scope string_scope.
Local Open Scope list_scope.
Local Open Scope N_scope.

(** ** Proposals *)

Definition missingField (proposal : Proposal) : string :=
  let fields := [("title", Proposal_Title proposal); ("problem", Proposal_Problem proposal);
                 ("benefit", Proposal_Benefit proposal); ("scope", Proposal_Scope proposal);
                 ("prompt", Proposal_Prompt proposal)] in
  match List.find (fun field => blank (snd field)) fields with
  | Some field => fst field
  | None => if lenN (Proposal_Evidence proposal) =? 0 then "evidence" else ""
  end.

Definition is_target (cfg : Config) (target : string) (pr : PullRequest) : bool :=
  bool_decide (PullRequest_Branch pr = target) && OwnedOpen pr
  && bool_decide (PullRequest_Base pr = Config_DefaultBranch cfg)
  && EqualASCII (PullRequest_BaseRepository pr) (Config_GitHubRepo cfg).
Fixpoint find_target (cfg : Config) (target : string) (prs : list PullRequest)
    (found : option PullRequest) : result (option PullRequest) error :=
  match prs with
  | [] => match found with
          | None => Err (New "Target is not an owned open PR or default branch")
          | Some pr => Ok (Some pr)
          end
  | pr :: rest =>
    if is_target cfg target pr then
      match found with
      | Some _ => Err (New "Target matches more than one owned open PR")
      | None => find_target cfg target rest (Some pr)
      end
    else find_target cfg target rest found
  end.
(** [resolveTarget]: [Ok None] is the default branch. *)
Definition resolveTarget (cfg : Config) (prs : list PullRequest) (target : string)
    : result (option PullRequest) error :=
  if bool_decide (target = Config_DefaultBranch cfg) then Ok None else find_target cfg target prs None.

Section proposals.
Context `{Unicode} `{TextCases}.

Definition repeated_work (accepted : list Proposal) (proposal : Proposal) : option Proposal :=
  List.find (fun other => SameWork other proposal) accepted.
Definition recorded_work (history : list Task) (proposal : Proposal) : option Task :=
  List.find (fun task => negb (bool_decide (Task_Status task = StatusCancelled))
                         && SameWork (Task_Proposal task) proposal) history.

(** The checks on one proposal after its identity, with the proposals
    accepted before it. *)
Definition check_accepted (cfg : Config) (grounding : Grounding) (history : list Task)
    (accepted : list Proposal) (proposal : Proposal) : result unit error :=
  match repeated_work accepted proposal with
  | Some other => Err (Errorf "Duplicate accepted proposal: %q repeats the work of %q"
                         [VStr (Proposal_ID proposal); VStr (Proposal_ID other)])
  | None =>
    guard negb ((200 <? slen (Proposal_Title proposal)) || (32000 <? slen (Proposal_Prompt proposal))
                || (40 <? lenN (Proposal_Evidence proposal)))
      else Errorf "Proposal %q exceeds task size limits: title %d bytes (limit 200), prompt %d bytes (limit 32000), %d evidence items (limit 40)"
             [VStr (Proposal_ID proposal); VNum (slen (Proposal_Title proposal));
              VNum (slen (Proposal_Prompt proposal)); VNum (lenN (Proposal_Evidence proposal))];
    guard bool_decide (missingField proposal = "")
      else Errorf "Accepted proposal is missing grounding or execution context: proposal %q has no %s"
             [VStr (Proposal_ID proposal); VStr (missingField proposal)];
    guard isSome (Config_Tiers cfg !! Proposal_Tier proposal)
          && bool_decide (Proposal_Category proposal ∈ EffectiveCategories cfg)
      else Errorf "Unknown tier or ineligible category for proposal %q (tier %q, category %q)"
             [VStr (Proposal_ID proposal); VStr (Proposal_Tier proposal); VStr (Proposal_Category proposal)];
    match resolveTarget cfg (Grounding_PRs grounding) (Proposal_Target proposal) with
    | Err err => Err (Errorf "Proposal %q target %q: %w"
                        [VStr (Proposal_ID proposal); VStr (Proposal_Target proposal); VWrap err])
    | Ok _ =>
      match recorded_work history proposal with
      | Some task => Err (Errorf "Proposal %q duplicates recorded work (task %s, %s)"
                            [VStr (Proposal_ID proposal); VStr (Task_ID task); VStr (enum_String (Task_Status task))])
      | None => Ok tt
      end
    end
  end.

(** The loop of [validateProposals]: the accepted proposals, in order. *)
Fixpoint check_proposals (cfg : Config) (grounding : Grounding) (history : list Task)
    (accepted : list Proposal) (allIDs : gset string) (proposals : list Proposal)
    : result (list Proposal) error :=
  match proposals with
  | [] => Ok accepted
  | proposal :: rest =>
    guard negb (blank (Proposal_ID proposal)) else New "Proposal identity is empty";
    guard negb (bool_decide (Proposal_ID proposal ∈ allIDs))
      else Errorf "Duplicate proposal identity %q" [VStr (Proposal_ID proposal)];
    let allIDs := {[Proposal_ID proposal]} ∪ allIDs in
    guard bool_decide (Proposal_Decision proposal ∈ Assessments)
      else Errorf "Every proposal needs a decision and rationale: proposal %q has invalid decision %q"
             [VStr (Proposal_ID proposal); VStr (Proposal_Decision proposal)];
    guard negb (blank (Proposal_Reason proposal))
      else Errorf "Every proposal needs a decision and rationale: proposal %q has no rationale"
             [VStr (Proposal_ID proposal)];
    if negb (bool_decide (Proposal_Decision proposal = DecisionAccepted))
    then check_proposals cfg grounding history accepted allIDs rest
    else let! _ := check_accepted cfg grounding history accepted proposal in
         check_proposals cfg grounding history (accepted ++ [proposal]) allIDs rest
  end.

Definition proposal_node (proposal : Proposal) : depNode :=
  mkDepNode (Proposal_ID proposal) (Proposal_Target proposal) (Proposal_Dependencies proposal).
Definition validateProposals (cfg : Config) (proposals : list Proposal) (grounding : Grounding)
    (history : list Task) : option (result unit error) :=
  match check_proposals cfg grounding history [] ∅ proposals with
  | Err e => Some (Err e)
  | Ok accepted =>
    if Config_MaxTasksPerCycle cfg <? lenN accepted
    then Some (Err (Errorf "Accepted task limit exceeded: %d accepted (limit %d)"
                      [VNum (lenN accepted); VNum (Config_MaxTasksPerCycle cfg)]))
    else validateDependencies "proposal" (Config_DefaultBranch cfg) (map proposal_node accepted)
  end.
End proposals.

(** ** The committed plan *)

Fixpoint check_tasks (live : Config) (nodes : list depNode) (seen : gset string) (defaultBranch : string)
    (tasks : list Task) : result (list depNode * string) error :=
  match tasks with
  | [] => Ok (nodes, defaultBranch)
  | task :: rest =>
    guard negb (bool_decide (Task_ID task ∈ seen))
      else Errorf "Duplicate task identity %s" [VStr (Task_ID task)];
    guard negb (negb (bool_decide (Config_DeliveryMode (Task_Config task) = Config_DeliveryMode live))
                || negb (bool_decide (Proposal_Category (Task_Proposal task)
                                      ∈ EffectiveCategories (Task_Config task))))
      else Errorf "Task %s was planned under an incompatible delivery mode or category (mode %s, category %q)"
             [VStr (Task_ID task); VStr (enum_String (Config_DeliveryMode (Task_Config task)));
              VStr (Proposal_Category (Task_Proposal task))];
    check_tasks live
      (nodes ++ [mkDepNode (Task_ID task) (Proposal_Target (Task_Proposal task))
                   (Proposal_Dependencies (Task_Proposal task))])
      ({[Task_ID task]} ∪ seen) (Config_DefaultBranch (Task_Config task)) rest
  end.
Definition validateTaskPlan (tasks : list Task) (live : Config) : option (result unit error) :=
  match check_tasks live [] ∅ "" tasks with
  | Err e => Some (Err e)
  | Ok (nodes, defaultBranch) => validateDependencies "task" defaultBranch nodes
  end.

(** ** One answer per identity *)

(** The messages are the errors [errors.New] makes of them. *)
Record idMessages := mkIdMessages { invented : string -> error; duplicate : string -> error; omitted : string -> error }.
Definition proposalIDs (proposals : list Proposal) : list string := map Proposal_ID proposals.

Fixpoint match_each (want : gset string) (messages : idMessages) (each : nat -> string -> result unit error)
    (seen : gset string) (i : nat) (got : list string) : result (gset string) error :=
  match got with
  | [] => Ok seen
  | id :: rest =>
    guard bool_decide (id ∈ want) else invented messages id;
    guard negb (bool_decide (id ∈ seen)) else duplicate messages id;
    let! _ := each i id in
    match_each want messages each ({[id]} ∪ seen) (S i) rest
  end.
Fixpoint check_omitted (messages : idMessages) (seen : gset string) (wantList : list string) : result unit error :=
  match wantList with
  | [] => Ok tt
  | id :: rest => guard bool_decide (id ∈ seen) else omitted messages id; check_omitted messages seen rest
  end.
(** [each] is [None] for Go's nil callback. *)
Definition matchIDs (wantList got : list string) (messages : idMessages)
    (each : option (nat -> string -> result unit error)) : result unit error :=
  let! seen := match_each (list_to_set wantList) messages (default (fun _ _ => Ok tt) each) ∅ 0%nat got in
  check_omitted messages seen wantList.

(** [each(i, id)]: the assessment at [i]; the indices are in range. *)
Definition check_assessment (reviewer : string) (assessments : list Assessment) (i : nat) (id : string)
    : result unit error :=
  match assessments !! i with
  | None => Ok tt
  | Some item =>
    guard bool_decide (Assessment_Decision item ∈ Assessments)
      else Errorf "Adversarial reviewer %s gave proposal %q an invalid decision %q"
             [VStr reviewer; VStr id; VStr (Assessment_Decision item)];
    guard negb (blank (Assessment_Reason item))
      else Errorf "Adversarial reviewer %s gave proposal %q no rationale" [VStr reviewer; VStr id];
    Ok tt
  end.
Definition checkAssessments (reviewer : string) (candidates : list Proposal) (assessments : list Assessment)
    : result unit error :=
  matchIDs (proposalIDs candidates) (map Assessment_ID assessments)
    {| invented := fun id => Errorf "Adversarial reviewer %s invented proposal %q" [VStr reviewer; VStr id];
       duplicate := fun id => Errorf "Adversarial reviewer %s assessed proposal %q more than once" [VStr reviewer; VStr id];
       omitted := fun id => Errorf "Adversarial reviewer %s omitted proposal %q" [VStr reviewer; VStr id] |}
    (Some (check_assessment reviewer assessments)).

Definition checkConsolidation (candidates returned : list Proposal) : result unit error :=
  matchIDs (proposalIDs candidates) (proposalIDs returned)
    {| invented := fun id => Errorf "Orchestrator omitted or invented proposal IDs: invented %q" [VStr id];
       duplicate := fun id => Errorf "Orchestrator omitted or invented proposal IDs: returned %q twice" [VStr id];
       omitted := fun id => Errorf "Orchestrator omitted or invented proposal IDs: omitted %q" [VStr id] |}
    None.

(** ** The operator's requests and rediscoveries *)

Definition proposals_by_id (proposals : list Proposal) : gmap string Proposal :=
  foldl (fun m p => <[Proposal_ID p := p]> m) ∅ proposals.
Definition check_request (byID : gmap string Proposal) (r : OperatorRequest) : result unit error :=
  match byID !! Request_ProposalID r with
  | None => Err (Errorf "Operator request %s was not returned by consolidation" [VStr (OperatorRequest_ID r)])
  | Some p =>
    guard negb (bool_decide (Proposal_Decision p = DecisionAccepted)
                && negb (bool_decide (Proposal_Target p = OperatorRequest_Target r)))
      else Errorf "Operator request %s must keep its target %q (proposal targets %q)"
             [VStr (OperatorRequest_ID r); VStr (OperatorRequest_Target r); VStr (Proposal_Target p)];
    Ok tt
  end.
Definition checkOperatorRequests (seeded : list OperatorRequest) (proposals : list Proposal) : result unit error :=
  check_each (check_request (proposals_by_id proposals)) seeded.

Definition fresh_decisions (proposals : list Proposal) (id : string) : list Proposal :=
  List.filter (fun proposal => bool_decide (id ∈ Proposal_Reconsiders proposal)) proposals.
Record rediscoveryRequest := mkRediscoveryRequest {
  rediscoveryRequest_ID : string; rediscoveryRequest_Target : string; rediscoveryRequest_entry : Json }.
Definition checkRediscoveries (requests : list rediscoveryRequest) (proposals : list Proposal) : result unit error :=
  check_each (fun request => let id := rediscoveryRequest_ID request in
    guard lenN (fresh_decisions proposals id) =? 1
      else Errorf "Every rediscovery request needs exactly one fresh decision (request %s had %d)"
             [VStr id; VNum (lenN (fresh_decisions proposals id))];
    Ok tt) requests.

Definition plannedStatus (proposals : list Proposal) : CycleStatus :=
  if existsb (fun proposal => bool_decide (Proposal_Decision proposal = DecisionAccepted)) proposals
  then CycleCompleted else CycleIdle.

(** ** The room left for discovery *)

Definition maxPlanningProposals : Z := 100.
(** [agents] is a [uint64]; the other numbers are [int]s. *)
Definition discoveryProposalLimit (seeded : Z) (agents : N) : Z :=
  let room := (maxPlanningProposals - seeded)%Z in
  if (room <=? 0)%Z || (agents =? 0) || (Z.to_N room <? agents) then 0%Z
  else (room / Z.of_N agents)%Z.

(** ** The other pull requests shown to the planning roles *)

Definition maxExternalPRs : N := 100.
Definition maxPRTitleChars : N := 200.
Definition maxPRBodyChars : N := 2000.
Definition maxPRContextBytes : N := 524288.

(** [string(runes[:limit])]. *)
Definition truncateRunes (value : string) (limit : N) : string * bool :=
  if lenN (runes value) <=? limit then (value, false)
  else (encode_runes (take (N.to_nat limit) (runes value)), true).

Definition by_number (a b : PullRequest) : Prop := PullRequest_Number a <= PullRequest_Number b.
#[export] Instance by_number_dec a b : Decision (by_number a b).
Proof. unfold by_number. apply _. Defined.
Definition external_prs (inventory : OpenPRInventory) : list PullRequest :=
  merge_sort by_number (List.filter (fun pr => negb (PullRequest_Owned pr)) (OpenPRInventory_PRs inventory)).

Section external.
(** [redact.Secrets], and the length of [wirejson.Marshal(entry)]. *)
Context (Secrets : string -> string) (encoded_length : ExternalPRContext -> result N error).

Definition external_entry (pr : PullRequest) : ExternalPRContext :=
  let '(title, titleCut) := truncateRunes (Secrets (PullRequest_Title pr)) maxPRTitleChars in
  let '(body, bodyCut) := truncateRunes (Secrets (PullRequest_Body pr)) maxPRBodyChars in
  mkExternalPRContext (PullRequest_Number pr) (PullRequest_URL pr) title body (PullRequest_Branch pr)
    (PullRequest_Head pr) (PullRequest_Base pr) (PullRequest_HeadRepository pr) (PullRequest_BaseRepository pr)
    titleCut bodyCut false.
(** The loop, with the entries included so far and the bytes they use. *)
Fixpoint include (entries : list ExternalPRContext) (bytesUsed : N) (prs : list PullRequest)
    : result (list ExternalPRContext) error :=
  match prs with
  | [] => Ok entries
  | pr :: rest =>
    if maxExternalPRs <=? lenN entries then Ok entries else
    let entry := external_entry pr in
    let! encoded := encoded_length entry in
    let extra := if 0 <? lenN entries then encoded + 1 else encoded in
    if maxPRContextBytes <? bytesUsed + extra then Ok entries
    else include (entries ++ [entry]) (bytesUsed + extra) rest
  end.
Definition externalContext (inventory : OpenPRInventory) : result (list ExternalPRContext * PRCoverage) error :=
  let external := external_prs inventory in
  let! entries := include [] 2 external in
  Ok (entries, mkPRCoverage (Some (OpenPRInventory_ObservedAt inventory)) true
                 (lenN (OpenPRInventory_PRs inventory)) (lenN external) (lenN entries)
                 (lenN external - lenN entries) maxExternalPRs maxPRTitleChars maxPRBodyChars maxPRContextBytes).
(** The bytes of the JSON array of [entries]: brackets, entries and commas. *)
Fixpoint entries_bytes (entries : list ExternalPRContext) : N :=
  match entries with
  | [] => 0
  | e :: rest => match encoded_length e with Ok n => n | Err _ => 0 end + entries_bytes rest
  end.
Definition array_bytes (entries : list ExternalPRContext) : N :=
  2 + entries_bytes entries + (lenN entries - 1).
End external.

(** ** What the checks mean *)

Lemma find_None {A} (f : A -> bool) l : List.find f l = None <-> forall x, x ∈ l -> f x = false.
Proof.
  induction l as [|x l IH]; simpl; [split; [by intros _ ? ?%elem_of_nil|done]|].
  destruct (f x) eqn:F.
  - split; [done|]. intros N. rewrite N in F; [done|by left].
  - rewrite IH. setoid_rewrite elem_of_cons. naive_solver.
Qed.

Lemma find_target_eq cfg target prs found :
  find_target cfg target prs found =
  match option_list found ++ List.filter (is_target cfg target) prs with
  | [] => Err (New "Target is not an owned open PR or default branch")
  | [pr] => Ok (Some pr)
  | _ => Err (New "Target matches more than one owned open PR")
  end.
Proof.
  revert found. induction prs as [|pr prs IH]; intros found; simpl.
  { by destruct found. }
  destruct (is_target cfg target pr); [|apply IH]. destruct found as [p|]; simpl; [done|]. by rewrite IH.
Qed.

(** What an accepted proposal must carry to become a task. *)
Record task_ready `{Unicode} `{TextCases} (cfg : Config) (grounding : Grounding) (history : list Task)
    (p : Proposal) : Prop := {
  ready_size : slen (Proposal_Title p) <= 200 /\ slen (Proposal_Prompt p) <= 32000 /\ lenN (Proposal_Evidence p) <= 40;
  ready_fields : blank (Proposal_Title p) = false /\ blank (Proposal_Problem p) = false
    /\ blank (Proposal_Benefit p) = false /\ blank (Proposal_Scope p) = false
    /\ blank (Proposal_Prompt p) = false /\ Proposal_Evidence p <> [];
  ready_route : is_Some (Config_Tiers cfg !! Proposal_Tier p) /\ Proposal_Category p ∈ EffectiveCategories cfg;
  ready_target : Proposal_Target p = Config_DefaultBranch cfg
    \/ exists pr, List.filter (is_target cfg (Proposal_Target p)) (Grounding_PRs grounding) = [pr];
  ready_new : forall task, task ∈ history -> SameWork (Task_Proposal task) p = true -> Task_Status task = StatusCancelled;
}.
Definition accepted_of (proposals : list Proposal) : list Proposal :=
  List.filter (fun p => bool_decide (Proposal_Decision p = DecisionAccepted)) proposals.
(** What a plan must be for the control plane to turn it into tasks. *)
Record plan_acceptable `{Unicode} `{TextCases} (cfg : Config) (proposals : list Proposal)
    (grounding : Grounding) (history : list Task) : Prop := {
  plan_decided : forall p, p ∈ proposals ->
    blank (Proposal_ID p) = false /\ Proposal_Decision p ∈ Assessments /\ blank (Proposal_Reason p) = false;
  plan_identities : NoDup (proposalIDs proposals);
  plan_distinct : forall i j p q, accepted_of proposals !! i = Some p -> accepted_of proposals !! j = Some q ->
    (i < j)%nat -> SameWork p q = false;
  plan_ready : forall p, p ∈ accepted_of proposals -> task_ready cfg grounding history p;
  plan_limit : lenN (accepted_of proposals) <= Config_MaxTasksPerCycle cfg;
  plan_edges : edges_ok (Config_DefaultBranch cfg) (map proposal_node (accepted_of proposals));
  plan_order : forall branch, branch <> Config_DefaultBranch cfg ->
    exists order, executes (map proposal_node (accepted_of proposals)) branch order
      /\ forall order', executes (map proposal_node (accepted_of proposals)) branch order' -> order' = order;
}.

Lemma resolveTarget_Ok cfg prs target :
  is_ok (resolveTarget cfg prs target) = true <->
  target = Config_DefaultBranch cfg \/ exists pr, List.filter (is_target cfg target) prs = [pr].
Proof.
  unfold resolveTarget. case_bool_decide as T; [by split; [left|]|]. rewrite find_target_eq. simpl.
  destruct (List.filter (is_target cfg target) prs) as [|pr [|]]; simpl; split; try done.
  all: try (intros [?|[? ?]]; [done|congruence]). eauto.
Qed.

Lemma missingField_none p :
  missingField p = "" <->
  blank (Proposal_Title p) = false /\ blank (Proposal_Problem p) = false
  /\ blank (Proposal_Benefit p) = false /\ blank (Proposal_Scope p) = false
  /\ blank (Proposal_Prompt p) = false /\ Proposal_Evidence p <> [].
Proof.
  unfold missingField. simpl.
  destruct (blank (Proposal_Title p)), (blank (Proposal_Problem p)), (blank (Proposal_Benefit p)),
    (blank (Proposal_Scope p)), (blank (Proposal_Prompt p)); simpl; try (split; [done|naive_solver]).
  destruct (Proposal_Evidence p); simpl; split; naive_solver.
Qed.

Section plan.
Context `{Unicode} `{TextCases} (cfg : Config) (grounding : Grounding) (history : list Task).

Lemma check_accepted_Ok accepted p :
  check_accepted cfg grounding history accepted p = Ok tt <->
  (forall other, other ∈ accepted -> SameWork other p = false) /\ task_ready cfg grounding history p.
Proof.
  unfold check_accepted, repeated_work, recorded_work.
  rewrite <- find_None. destruct (List.find _ accepted); [split; [done|by intros [? _]]|].
  rewrite !guard_Ok, negb_true_iff, !orb_false_iff, !N.ltb_ge, bool_decide_eq_true, missingField_none,
    andb_true_iff, bool_decide_eq_true.
  pose proof (resolveTarget_Ok cfg (Grounding_PRs grounding) (Proposal_Target p)) as T.
  split.
  - intros (S & F & R & C). destruct (resolveTarget _ _ _); [|done].
    destruct (List.find _ history) eqn:N; [done|]. rewrite find_None in N.
    split; [done|]. split; [tauto|done| |by apply T|].
    + destruct R as [R ?]. split; [|done]. destruct (Config_Tiers cfg !! _); [done|discriminate].
    + intros task I W. specialize (N _ I). simpl in N. rewrite W, andb_true_r in N.
      by bool_hyps.
  - intros (_ & [S F [[? R] C] Tg N]). split; [tauto|]. split; [done|]. split; [by rewrite R|].
    apply T in Tg. destruct (resolveTarget _ _ _); [|done].
    destruct (List.find _ history) as [t|] eqn:L; [|done]. apply find_some in L as [I L].
    apply list_elem_of_In in I. apply andb_true_iff in L as [L W]. bool_hyps. exfalso. by apply L, N.
Qed.

Definition decided (p : Proposal) : Prop :=
  blank (Proposal_ID p) = false /\ Proposal_Decision p ∈ Assessments /\ blank (Proposal_Reason p) = false.
(** The accepted proposals, each checked against those accepted before it. *)
Fixpoint accepted_in_turn (accepted : list Proposal) (l : list Proposal) : Prop :=
  match l with
  | [] => True
  | p :: rest => check_accepted cfg grounding history accepted p = Ok tt /\ accepted_in_turn (accepted ++ [p]) rest
  end.

Lemma check_proposals_Ok accepted allIDs proposals accepted' :
  check_proposals cfg grounding history accepted allIDs proposals = Ok accepted' <->
  (forall p, p ∈ proposals -> decided p)
  /\ NoDup (proposalIDs proposals) /\ (forall p, p ∈ proposals -> Proposal_ID p ∉ allIDs)
  /\ accepted' = accepted ++ accepted_of proposals /\ accepted_in_turn accepted (accepted_of proposals).
Proof.
  revert accepted allIDs. induction proposals as [|p l IH]; intros accepted allIDs; simpl.
  { rewrite app_nil_r. split; [intros [= <-]|by intros (_ & _ & _ & -> & _)].
    split_and!; try done; try (by intros ? ?%elem_of_nil); constructor. }
  rewrite !guard_Ok, !negb_true_iff, bool_decide_eq_false, bool_decide_eq_true.
  assert ((forall q, q ∈ p :: l -> decided q) <-> decided p /\ forall q, q ∈ l -> decided q) as ->.
  { setoid_rewrite elem_of_cons. naive_solver. }
  assert (NoDup (Proposal_ID p :: proposalIDs l) /\ (forall q, q ∈ p :: l -> Proposal_ID q ∉ allIDs) <->
          Proposal_ID p ∉ allIDs /\ NoDup (proposalIDs l)
          /\ forall q, q ∈ l -> Proposal_ID q ∉ ({[Proposal_ID p]} ∪ allIDs : gset string)) as E.
  { rewrite NoDup_cons. unfold proposalIDs. rewrite (list_elem_of_In (map _ _)), in_map_iff.
    setoid_rewrite <- list_elem_of_In. set_solver. }
  unfold decided at 1.
  destruct (bool_decide (Proposal_Decision p = DecisionAccepted)) eqn:D; simpl.
  - rewrite result_bind_Ok. setoid_rewrite IH. rewrite <- app_assoc. simpl. split.
    + intros (? & ? & ? & ? & [] & C & X). tauto.
    + intros X. split_and!; try tauto. exists tt. tauto.
  - rewrite IH. tauto.
Qed.
Lemma accepted_in_turn_spec accepted l :
  accepted_in_turn accepted l <->
  (forall p, p ∈ l -> task_ready cfg grounding history p)
  /\ (forall other p, other ∈ accepted -> p ∈ l -> SameWork other p = false)
  /\ (forall i j p q, l !! i = Some p -> l !! j = Some q -> (i < j)%nat -> SameWork p q = false).
Proof.
  revert accepted. induction l as [|x l IH]; intros accepted; simpl.
  { split; [|done]. intros _. split_and!; set_solver. }
  rewrite check_accepted_Ok, IH. setoid_rewrite elem_of_app. setoid_rewrite elem_of_cons.
  split.
  - intros ([N R] & Rs & Ns & Ds). split_and!; [naive_solver|naive_solver|].
    intros [|i] [|j] p q Lp Lq L; simpl in *; try lia; [|by apply (Ds i j); [..|lia]].
    injection Lp as ->. apply list_elem_of_lookup_2 in Lq. apply Ns; [set_solver|done].
  - intros (Rs & Ns & Ds). split_and!; [naive_solver|naive_solver|naive_solver| |].
    + intros other p [|[->|?%elem_of_nil]] I; [naive_solver| |done].
      apply list_elem_of_lookup_1 in I as [j L]. apply (Ds 0%nat (S j)); [done|done|lia].
    + intros i j p q Lp Lq L. apply (Ds (S i) (S j)); [done|done|lia].
Qed.
End plan.

Lemma accepted_NoDup proposals :
  NoDup (proposalIDs proposals) -> NoDup (map node_id (map proposal_node (accepted_of proposals))).
Proof.
  rewrite map_map. unfold accepted_of, proposalIDs. simpl.
  induction proposals as [|p l IH]; simpl; [done|]. intros [NI ND]%NoDup_cons.
  case_bool_decide; [|by apply IH]. simpl. constructor; [|by apply IH].
  rewrite list_elem_of_In, in_map_iff in NI |- *. intros (q & E & [I _]%filter_In). apply NI. eauto.
Qed.

(** ** Properties of the plan checks *)

(** The plan check accepts a plan exactly when every proposal has its own
    identity, a decision and a rationale; the accepted ones are pairwise
    different work, each within the size limits, complete, on a known tier and
    an eligible category, on the default branch or exactly one owned open pull
    request, and not recorded work that is still live; they fit the cycle; and
    their dependency graph is executable in one order per branch. *)
Theorem validateProposals_spec `{Unicode} `{TextCases} cfg proposals grounding history :
  validateProposals cfg proposals grounding history = Some (Ok tt) <->
  plan_acceptable cfg proposals grounding history.
Proof.
  unfold validateProposals. split.
  - destruct (check_proposals _ _ _ _ _ _) as [accepted|] eqn:C; [|done]. destruct_cond.
    apply check_proposals_Ok in C as (D & ND & _ & -> & T). simpl in *.
    apply accepted_in_turn_spec in T as (R & _ & S).
    intros [E O]%validateDependencies_answer; [|by apply accepted_NoDup].
    bool_hyps. by split.
  - intros [D ND S R L E O].
    assert (check_proposals cfg grounding history [] ∅ proposals = Ok (accepted_of proposals)) as ->.
    { apply check_proposals_Ok. split_and!; [done|done|set_solver|done|].
      apply accepted_in_turn_spec. split_and!; [done|by intros ? ? ?%elem_of_nil|done]. }
    apply N.ltb_ge in L as ->. apply validateDependencies_answer; [by apply accepted_NoDup|done].
Qed.

(** ** One answer per identity *)

Lemma match_each_Ok want messages each seen i got seen' :
  match_each want messages each seen i got = Ok seen' <->
  (forall id, id ∈ got -> id ∈ want /\ id ∉ seen) /\ NoDup got
  /\ (forall j id, got !! j = Some id -> each (i + j)%nat id = Ok tt)
  /\ seen' = list_to_set got ∪ seen.
Proof.
  revert seen i. induction got as [|x l IH]; intros seen i; simpl.
  { split; [intros [= <-]|intros (_ & _ & _ & ->); f_equal; set_solver].
    split_and!; [set_solver|constructor|done|set_solver]. }
  rewrite !guard_Ok, negb_true_iff, bool_decide_eq_true, bool_decide_eq_false, result_bind_Ok.
  setoid_rewrite IH. rewrite NoDup_cons. split.
  - intros (W & NS & [] & E & G & ND & F & ->). split_and!; [set_solver|set_solver|done| |set_solver].
    intros [|j] id; simpl; [intros [= <-]; by rewrite Nat.add_0_r|].
    intros L. replace (i + S j)%nat with (S i + j)%nat by lia. by apply F.
  - intros (G & [NI ND] & F & ->). split; [apply G; by left|]. split; [apply G; by left|].
    exists tt. split; [|split_and!; [set_solver|done| |set_solver]].
    + specialize (F 0%nat x eq_refl). by rewrite Nat.add_0_r in F.
    + intros j id L. replace (S i + j)%nat with (i + S j)%nat by lia. by apply F.
Qed.
Lemma check_omitted_Ok messages seen l : check_omitted messages seen l = Ok tt <-> forall id, id ∈ l -> id ∈ seen.
Proof.
  induction l as [|x l IH]; simpl; [set_solver|]. rewrite guard_Ok, bool_decide_eq_true, IH. set_solver.
Qed.
(** [matchIDs] accepts exactly one answer for every wanted identity. *)
Lemma matchIDs_Ok wantList got messages each :
  matchIDs wantList got messages each = Ok tt <->
  NoDup got /\ (forall id, id ∈ got <-> id ∈ wantList)
  /\ (forall i id, got !! i = Some id -> default (fun _ _ => Ok tt) each i id = Ok tt).
Proof.
  unfold matchIDs. rewrite result_bind_Ok. setoid_rewrite match_each_Ok. setoid_rewrite check_omitted_Ok.
  split.
  - intros (s & (G & ND & F & ->) & O). split_and!; [done| |exact F].
    intros id. split; [intros I; apply G in I; set_solver|intros I; apply O in I; set_solver].
  - intros (ND & E & F). eexists. split_and!; try done; [set_solver|]. intros id I. apply E in I. set_solver.
Qed.
Lemma matchIDs_perm wantList got messages each :
  NoDup wantList ->
  matchIDs wantList got messages each = Ok tt <->
  got ≡ₚ wantList /\ (forall i id, got !! i = Some id -> default (fun _ _ => Ok tt) each i id = Ok tt).
Proof.
  intros ND. rewrite matchIDs_Ok. split.
  - intros (NDg & E & F). split; [|done]. by apply NoDup_Permutation.
  - intros [P F]. split_and!; [by rewrite P| |done]. intros id. by rewrite P.
Qed.

(** A reviewer's assessments are accepted exactly when they name every
    candidate once and nothing else, each with an accepted, rejected or
    deferred decision and a rationale. *)
Theorem checkAssessments_spec reviewer candidates assessments :
  NoDup (proposalIDs candidates) ->
  checkAssessments reviewer candidates assessments = Ok tt <->
  map Assessment_ID assessments ≡ₚ proposalIDs candidates
  /\ forall item, item ∈ assessments ->
       Assessment_Decision item ∈ Assessments /\ blank (Assessment_Reason item) = false.
Proof.
  intros ND. unfold checkAssessments. rewrite matchIDs_perm by done. apply and_iff_compat_l. simpl.
  unfold check_assessment. split.
  - intros F item [i L]%list_elem_of_lookup.
    specialize (F i (Assessment_ID item)). rewrite lookup_map, L in F.
    specialize (F eq_refl). by ok_inv F; bool_hyps.
  - intros F i id L. rewrite lookup_map in L. destruct (assessments !! i) as [item|] eqn:E; [|done].
    destruct (F item) as [D R]; [by eapply list_elem_of_lookup_2|].
    by rewrite bool_decide_eq_true_2, R.
Qed.
Definition sample_assessment (id : string) : Assessment := mkAssessment id DecisionRejected "not reproducible".
Lemma checkAssessments_spec_witness :
  NoDup (proposalIDs [sample_proposal "p-1" "main" []; sample_proposal "p-2" "main" []])
  /\ map Assessment_ID [sample_assessment "p-2"; sample_assessment "p-1"]
     ≡ₚ proposalIDs [sample_proposal "p-1" "main" []; sample_proposal "p-2" "main" []].
Proof.
  assert (NoDup (proposalIDs [sample_proposal "p-1" "main" []; sample_proposal "p-2" "main" []])) as ND.
  { apply (bool_decide_eq_true_1 _). vm_compute. reflexivity. }
  split; [exact ND|].
  apply (proj1 (checkAssessments_spec "adversary-a" _ [sample_assessment "p-2"; sample_assessment "p-1"] ND)).
  vm_compute. reflexivity.
Defined.

(** ** The operator's requests and rediscoveries *)

Lemma proposals_by_id_lookup proposals p :
  NoDup (proposalIDs proposals) -> p ∈ proposals -> proposals_by_id proposals !! Proposal_ID p = Some p.
Proof.
  unfold proposals_by_id, proposalIDs. induction proposals as [|q l IH] using rev_ind; [by intros ? ?%elem_of_nil|].
  rewrite foldl_app, map_app. simpl. intros (ND & Dis & _)%NoDup_app I.
  apply elem_of_app in I as [I|<-%list_elem_of_singleton]; [|apply lookup_insert_eq].
  rewrite lookup_insert_ne; [by apply IH|]. intros E. apply (Dis (Proposal_ID p)).
  - apply elem_of_map. eauto.
  - rewrite <- E. by left.
Qed.
Lemma proposals_by_id_elem proposals id p :
  proposals_by_id proposals !! id = Some p -> p ∈ proposals /\ Proposal_ID p = id.
Proof.
  unfold proposals_by_id. induction proposals as [|q l IH] using rev_ind; [done|]. rewrite foldl_app. simpl.
  intros [[<- <-]|[_ L]]%lookup_insert_Some; [set_solver|]. apply IH in L. set_solver.
Qed.

(** The request contract holds of a plan exactly when every seeded request
    came back as a proposal and, if accepted, kept the target the operator
    asked for. *)
Theorem checkOperatorRequests_spec seeded proposals :
  NoDup (proposalIDs proposals) ->
  checkOperatorRequests seeded proposals = Ok tt <->
  forall r, r ∈ seeded -> exists p, p ∈ proposals /\ Proposal_ID p = Request_ProposalID r
    /\ (Proposal_Decision p = DecisionAccepted -> Proposal_Target p = OperatorRequest_Target r).
Proof.
  intros ND. unfold checkOperatorRequests. rewrite check_each_Ok. unfold check_request. split.
  - intros C r I. specialize (C r I). destruct (_ !! _) as [p|] eqn:L; [|done]. ok_inv C.
    apply proposals_by_id_elem in L as [Ip E]. exists p. split; [done|]. split; [done|]. intros D.
    rewrite bool_decide_eq_true_2 in * by done. simpl in *. by bool_hyps.
  - intros C r I. destruct (C r I) as (p & Ip & <- & T). rewrite proposals_by_id_lookup by done.
    apply guard_Ok. split; [|done]. rewrite negb_true_iff. destruct (bool_decide (_ = DecisionAccepted)) eqn:D; [|done].
    bool_hyps. rewrite (T D). by rewrite bool_decide_eq_true_2.
Qed.
Definition sample_operator_request (id target : string) : OperatorRequest :=
  mkOperatorRequest id "acme/widgets" "Fix it" "The widget fails" target RequestPending
    "2026-01-01T00:00:00Z" "2026-01-01T00:00:00Z" None None.
Lemma checkOperatorRequests_spec_witness :
  exists p, p ∈ [sample_proposal "request-r-1" "main" []] /\ Proposal_Target p = "main".
Proof.
  destruct (proj1 (checkOperatorRequests_spec [sample_operator_request "r-1" "main"]
    [sample_proposal "request-r-1" "main" []] ltac:(apply (bool_decide_eq_true_1 _); vm_compute; reflexivity))
    ltac:(vm_compute; reflexivity) (sample_operator_request "r-1" "main") ltac:(left)) as (p & I & _ & T).
  exists p. split; [exact I|]. apply T. apply list_elem_of_singleton in I. subst p. reflexivity.
Defined.

(** ** The room left for discovery *)

(** The seeded candidates and what every discovery agent may add never
    exceed the planning limit of 100, every agent that may propose at all gets
    the same, largest possible, share, and none only when the room is smaller
    than one proposal each. *)
Theorem discoveryProposalLimit_spec seeded agents :
  (0 <= seeded)%Z ->
  let limit := discoveryProposalLimit seeded agents in
  (0 <= limit)%Z
  /\ ((seeded <= maxPlanningProposals)%Z -> (seeded + limit * Z.of_N agents <= maxPlanningProposals)%Z)
  /\ (agents <> 0 -> (maxPlanningProposals < seeded + (limit + 1) * Z.of_N agents)%Z).
Proof.
  intros S. unfold discoveryProposalLimit, maxPlanningProposals. simpl.
  destruct ((_ <=? 0)%Z || (agents =? 0) || _) eqn:C.
  - rewrite !orb_true_iff, Z.leb_le, N.eqb_eq, N.ltb_lt in C. lia.
  - rewrite !orb_false_iff, Z.leb_gt, N.eqb_neq, N.ltb_ge in C. destruct C as [[R A] L].
    assert (0 < Z.of_N agents)%Z by lia.
    pose proof (Z.div_mod (100 - seeded) (Z.of_N agents) ltac:(lia)).
    pose proof (Z.mod_pos_bound (100 - seeded) (Z.of_N agents) ltac:(lia)).
    pose proof (Z.div_pos (100 - seeded) (Z.of_N agents) ltac:(lia) ltac:(lia)). nia.
Qed.
Lemma discoveryProposalLimit_spec_witness : (0 <= 10)%Z /\ (0 <= discoveryProposalLimit 10 4)%Z.
Proof. split; [lia|]. exact (proj1 (discoveryProposalLimit_spec 10 4 ltac:(lia))). Defined.

(** ** The committed plan *)

(** What a cycle's tasks must be to be dispatched. *)
Record dispatchable (tasks : list Task) (live : Config) : Prop := {
  dispatch_identities : NoDup (map Task_ID tasks);
  dispatch_compatible : forall task, task ∈ tasks ->
    Config_DeliveryMode (Task_Config task) = Config_DeliveryMode live
    /\ Proposal_Category (Task_Proposal task) ∈ EffectiveCategories (Task_Config task);
}.
Definition task_node (task : Task) : depNode :=
  mkDepNode (Task_ID task) (Proposal_Target (Task_Proposal task)) (Proposal_Dependencies (Task_Proposal task)).

Lemma check_tasks_Ok live nodes seen main tasks nodes' main' :
  check_tasks live nodes seen main tasks = Ok (nodes', main') <->
  dispatchable tasks live /\ (forall task, task ∈ tasks -> Task_ID task ∉ seen)
  /\ nodes' = nodes ++ map task_node tasks
  /\ main' = default main (Config_DefaultBranch ∘ Task_Config <$> last tasks).
Proof.
  revert nodes seen main. induction tasks as [|t l IH]; intros nodes seen main; simpl.
  { rewrite app_nil_r. split; [intros [= <- <-]|intros (_ & _ & -> & ->); done].
    split_and!; [|set_solver|done|done]. split; [constructor|set_solver]. }
  rewrite !guard_Ok, IH, !negb_true_iff, orb_false_iff, !negb_false_iff, bool_decide_eq_false, !bool_decide_eq_true.
  rewrite <- app_assoc. simpl.
  assert (default main (Config_DefaultBranch ∘ Task_Config <$> last (t :: l)) =
          default (Config_DefaultBranch (Task_Config t)) (Config_DefaultBranch ∘ Task_Config <$> last l)) as ->.
  { rewrite last_cons. by destruct (last l). }
  assert (dispatchable (t :: l) live /\ (forall task, task ∈ t :: l -> Task_ID task ∉ seen) <->
    Task_ID t ∉ seen /\ (Config_DeliveryMode (Task_Config t) = Config_DeliveryMode live
      /\ Proposal_Category (Task_Proposal t) ∈ EffectiveCategories (Task_Config t))
    /\ dispatchable l live /\ (forall task, task ∈ l -> Task_ID task ∉ ({[Task_ID t]} ∪ seen : gset string))) as E; [|tauto].
  split.
  - intros [[ND C] NS]. simpl in ND. apply NoDup_cons in ND as [NI ND]. rewrite elem_of_map in NI.
    split_and!; [set_solver|apply C; by left|apply C; by left| |set_solver].
    split; [done|]. intros; apply C; by right.
  - intros (NS & C & [ND Cl] & NSl). split; [|set_solver]. split; [|set_solver]. simpl. constructor; [|done].
    rewrite elem_of_map. set_solver.
Qed.

(** A committed plan is dispatched exactly when its tasks have different
    identities, each was planned in the live delivery mode and an eligible
    category, and, on the default branch of the plan's configuration, their
    dependency graph is executable in one order per branch. *)
Theorem validateTaskPlan_spec tasks live :
  let main := default "" (Config_DefaultBranch ∘ Task_Config <$> last tasks) in
  validateTaskPlan tasks live = Some (Ok tt) <->
  dispatchable tasks live /\ edges_ok main (map task_node tasks)
  /\ forall branch, branch <> main ->
       exists order, executes (map task_node tasks) branch order
         /\ forall order', executes (map task_node tasks) branch order' -> order' = order.
Proof.
  simpl. unfold validateTaskPlan.
  destruct (check_tasks live [] ∅ "" tasks) as [[nodes main]|e] eqn:C.
  - apply check_tasks_Ok in C as (D & _ & -> & ->). simpl.
    rewrite validateDependencies_answer; [tauto|]. rewrite map_map. apply D.
  - split; [done|]. intros (D & _). exfalso.
    assert (check_tasks live [] ∅ "" tasks = Ok ([] ++ map task_node tasks, default "" (Config_DefaultBranch ∘ Task_Config <$> last tasks))) as X.
    { apply check_tasks_Ok. split_and!; [done|set_solver|done|done]. }
    congruence.
Qed.

(** ** The other pull requests *)

(** A text shown to a planning role is cut to the limit in characters:
    the result never has more, is the text itself when that fits, and otherwise
    holds exactly its first characters. *)
Theorem truncateRunes_spec value limit :
  let '(text, cut) := truncateRunes value limit in
  lenN (runes text) <= limit
  /\ runes text = take (N.to_nat limit) (runes value)
  /\ (cut = false -> text = value) /\ (cut = true <-> limit < lenN (runes value)).
Proof.
  unfold truncateRunes. destruct (N.leb_spec (lenN (runes value)) limit) as [L|L]; unfold lenN in *.
  - split_and!; try done; [rewrite take_ge; [done|lia]|lia].
  - rewrite runes_encode by apply Forall_take, runes_scalar.
    split_and!; try done. rewrite length_take. lia.
Qed.

Section external_facts.
Context (Secrets : string -> string) (encoded_length : ExternalPRContext -> result N error).
Notation entry := (external_entry Secrets).
Notation bytes := (array_bytes encoded_length).

Lemma entries_bytes_app l e n :
  encoded_length e = Ok n -> entries_bytes encoded_length (l ++ [e]) = entries_bytes encoded_length l + n.
Proof. intros E. induction l as [|x l IH]; simpl; [rewrite E; lia|rewrite IH; lia]. Qed.
Lemma array_bytes_app l e n :
  encoded_length e = Ok n -> bytes (l ++ [e]) = bytes l + (if 0 <? lenN l then n + 1 else n).
Proof.
  intros E. unfold array_bytes. rewrite (entries_bytes_app _ _ _ E). unfold lenN. rewrite length_app. simpl.
  destruct (N.ltb_spec 0 (N.of_nat (length l))); lia.
Qed.

(** The loop adds a prefix of the pull requests and stops only when the next
    one does not fit. *)
Lemma include_Ok entries prs result :
  include Secrets encoded_length entries (bytes entries) prs = Ok result ->
  lenN entries <= maxExternalPRs -> bytes entries <= maxPRContextBytes ->
  exists n, result = entries ++ map entry (take n prs) /\ (n <= length prs)%nat
    /\ lenN result <= maxExternalPRs /\ bytes result <= maxPRContextBytes
    /\ forall pr, prs !! n = Some pr ->
         lenN result = maxExternalPRs
         \/ exists e, encoded_length (entry pr) = Ok e /\ maxPRContextBytes < bytes (result ++ [entry pr]).
Proof.
  revert entries. induction prs as [|pr rest IH]; intros entries; simpl.
  { intros [= <-] L B. exists 0%nat. rewrite app_nil_r. split_and!; try done; lia. }
  destruct (N.leb_spec maxExternalPRs (lenN entries)) as [F|F].
  { intros [= <-] L B. exists 0%nat. simpl. rewrite app_nil_r. split_and!; try done; [lia|]. intros. left. lia. }
  intros (n & E & I)%result_bind_Ok L B.
  destruct (N.ltb_spec maxPRContextBytes (bytes entries + (if 0 <? lenN entries then n + 1 else n))) as [O|O].
  { injection I as <-. exists 0%nat. simpl. rewrite app_nil_r. split_and!; try done; [lia|].
    intros ? [= <-]. right. exists n. split; [done|]. by rewrite (array_bytes_app _ _ _ E). }
  rewrite <- (array_bytes_app _ _ _ E) in I, O. apply IH in I as (k & -> & K & R); [| |done].
  - exists (S k). simpl. rewrite <- app_assoc in *. simpl in *. split; [done|]. split; [lia|exact R].
  - unfold lenN in *. rewrite length_app. simpl. lia.
Qed.
End external_facts.

(** What the planning roles are shown of other people's pull requests is a
    prefix of them by number, within 100 entries and 512 KiB of JSON, as long
    as those bounds allow, and the coverage accounts for every one left out. *)
Theorem externalContext_spec Secrets encoded_length inventory entries coverage :
  externalContext Secrets encoded_length inventory = Ok (entries, coverage) ->
  let external := external_prs inventory in
  entries = map (external_entry Secrets) (take (length entries) external)
  /\ lenN entries <= maxExternalPRs /\ array_bytes encoded_length entries <= maxPRContextBytes
  /\ (forall pr, external !! length entries = Some pr ->
        lenN entries = maxExternalPRs
        \/ maxPRContextBytes < array_bytes encoded_length (entries ++ [external_entry Secrets pr]))
  /\ PRCoverage_TotalExternal coverage = PRCoverage_IncludedExternal coverage + PRCoverage_OmittedExternal coverage
  /\ PRCoverage_IncludedExternal coverage = lenN entries
  /\ PRCoverage_TotalExternal coverage + lenN (List.filter PullRequest_Owned (OpenPRInventory_PRs inventory))
     = PRCoverage_TotalOpen coverage.
Proof.
  unfold externalContext. intros (l & I & [= <- <-])%result_bind_Ok.
  apply include_Ok in I as (n & E & N & L & B & M); [|done|done]. simpl in *.
  assert (length l = n) as Len by (rewrite E, length_map, length_take; lia).
  rewrite Len. split_and!; try done.
  - intros pr Lpr. destruct (M pr Lpr) as [?|(e & _ & ?)]; auto.
  - rewrite <- Len in N. unfold lenN. lia.
  - unfold external_prs, lenN. rewrite merge_sort_Permutation.
    induction (OpenPRInventory_PRs inventory) as [|p prs IH]; [done|]. simpl. destruct (PullRequest_Owned p); simpl; lia.
Qed.
Definition sample_inventory : OpenPRInventory :=
  mkOpenPRInventory "acme/widgets" "2026-01-01T00:00:00Z"
    [mkPullRequest 9 "Theirs" "fix" "sha-9" "main" "url-9" "body" "open" 3 "2026-01-01T00:00:00Z" false
       "acme/widgets" "acme/widgets" "" "" "" "" "";
     mkPullRequest 4 "Ours" "octomus/a" "sha-4" "main" "url-4" "body" "open" 3 "2026-01-01T00:00:00Z" true
       "acme/widgets" "acme/widgets" "" "" "" "" ""].
Lemma externalContext_spec_witness :
  exists entries coverage,
    externalContext (fun s => s) (fun _ => Ok 100) sample_inventory = Ok (entries, coverage)
    /\ PRCoverage_TotalExternal coverage = PRCoverage_IncludedExternal coverage + PRCoverage_OmittedExternal coverage.
Proof.
  eexists _, _. split; [vm_compute; reflexivity|].
  refine (proj1 (proj2 (proj2 (proj2 (proj2 (externalContext_spec (fun s => s) (fun _ => Ok 100) sample_inventory _ _ _)))))).
  vm_compute. reflexivity.
Defined.

#[local] Instance identity_cases : TextCases := {| cases_lower := fun s => s |}.
Example plan_accepted :
  validateProposals sample_config [sample_proposal "p-1" "main" []; sample_proposal "p-2" "main" []]
    (mkGrounding "rev" [] [] (mkPRCoverage None true 0 0 0 0 0 0 0 0) JNull false []) [] = Some (Ok tt).
Proof. vm_compute. reflexivity. Qed.
Example plan_repeated :
  validateProposals sample_config [sample_proposal "p-1" "main" []; sample_proposal "p-1" "main" []]
    (mkGrounding "rev" [] [] (mkPRCoverage None true 0 0 0 0 0 0 0 0) JNull false []) []
  = Some (Err (Errorf "Duplicate proposal identity %q" [VStr "p-1"])).
Proof. vm_compute. reflexivity. Qed.
