(* ===== verification/Scheduler.v ===== *)
(** * The scheduler ([internal/engine/scheduler.go])

    One pass of the scheduler under the gate: it settles a finished run-once
    batch, validates the plans behind the queued tasks, admits the tasks that
    may start, and starts planning when nothing else is left to do.

    What runs with the gate open is an argument ([preflight]); a worker's run is
    the entry [runTask] appends to [app_started]. *)
From S2P Require Import Prelude GoStrings WireJson Enums Types GoErrors Config GoTime Model Samples Lifecycle Store StoreMerges StoreTasks StoreBudget StoreCapacity Runtime Observations TaskWorkers Controls Dependencies PlanRules.
Local Open Scope string_scope.
Local Open Scope list_scope.
Local Open Scope N_scope.

Definition day_seconds : N := 86400.
Definition idleDelay (base streak : N) : N :=
  let ceiling := if day_seconds <? base then base else day_seconds in
  if streak <=? 1 then base else
  let shift := if 16 <? streak - 1 then 16 else streak - 1 in
  if N.shiftr 18446744073709551615 shift <? base then ceiling else
  let delay := u64 (N.shiftl base shift) in
  if ceiling <? delay then ceiling else delay.

(** ** Queries *)

(** The rows of [batchMergeWaitQuery]: a delivery of the batch whose merge is
    still to come. *)
Definition awaits_merge (runID : string) (db : Db) (row : string * PRObservation) : bool :=
  match PRObservation_AutoMerge row.2 with
  | Some merge =>
    isSome (db_batch db !! (runID, AutoMergeState_TaskID merge)) &&
    match db_tasks db !! AutoMergeState_TaskID merge with
    | Some t => bool_decide (Task_RunID t = Some runID)
                && EqualASCII (PRObservation_Repository row.2) (Config_GitHubRepo (Task_Config t))
                && bool_decide (Task_PRNumber t = Some (PullRequest_Number (PRObservation_PR row.2)))
    | None => false
    end
    && bool_decide (AutoMergeState_Status merge ∈ [AutoMergeWaiting; AutoMergeMerging; AutoMergeUncertain])
  | None => false
  end.
Definition BatchMergeWait (runID : string) (db : Db) : N := lenN (List.filter (awaits_merge runID db) (db_prs db)).

Section scheduler.
Context `{Unicode} `{World} (s : Store) (deployment : Deployment).
Context (git_dir : string -> bool) (Fingerprint : Config -> result string error) (preflight : Config -> bool -> M unit).

Definition TasksForCycle (id : string) (db : Db) : list Task :=
  by_seq (List.filter (fun t => bool_decide (Task_CycleID t = id)) (map_to_list (db_tasks db)).*2).

(** ** Run-once batches *)

Definition finishRunOnce (control : Control) (unresolved : N) : M unit :=
  go! stop <- stopped in
  if stop then m_ret tt else
  let message := if 0 <? unresolved then "Run once finished with unresolved work"
                 else "Run once completed; new work paused" in
  go! _ <- pauseLocked s control None in
  Event s "system" EventRunComplete message.
Definition settleRunOnce (control : Control) (unresolved : N) : M unit :=
  match Control_Batch control with
  | None => m_fail (Panicked "invalid memory address or nil pointer dereference")
  | Some batch =>
    go! waits <- m_read (fun a => BatchMergeWait (RunBatch_ID batch) (app_db a)) in
    if 0 <? waits then
      if bool_decide (RunBatch_Phase batch = BatchPhaseMerging) then m_ret tt else
      save_control s (control <| Control_Batch := Some (batch <| RunBatch_Phase := BatchPhaseMerging |>) |>)
    else finishRunOnce control unresolved
  end.

(** ** Planning *)

Definition waitForCapacity (control : Control) (capacity : PlanningCapacity) : M unit :=
  go! stop <- stopped in
  if stop then m_ret tt else
  if bool_decide (Control_Mode control = OperatingModeContinuous) then
    if Control_BudgetWaiting control
       && bool_decide (Control_NextCycleAt control = PlanningCapacity_NextResetAt capacity)
    then m_ret tt else
    save_control s (control <| Control_Error := None |> <| Control_NextCycleAt := PlanningCapacity_NextResetAt capacity |>
                            <| Control_BudgetWaiting := true |>)
  else
    let message := Error (Capacity_Message capacity) in
    go! _ <- pauseLocked s control (Some message) in
    Event s "system" EventPlanningCapacity message.

(** [errors.Is(err, errRecoveryBlocked)] and the [*capacityError] of [err]. *)
Definition is_recovery_blocked (err : failure) : bool :=
  match err with
  | Conflict RecoveryPendingConflict _ => true
  | _ => false
  end.
Definition capacity_error (err : failure) : option PlanningCapacity :=
  match err with CapacityFailed capacity => Some capacity | _ => None end.

(** The end of the planning goroutine when it could not begin a cycle; [live]
    is the control after the failure. *)
Definition planning_failed (interval : N) (live : Control) (err : failure) : M unit :=
  match capacity_error err with
  | Some capacity => go! _ <- m_try (waitForCapacity live capacity) in m_ret tt
  | None =>
    let message := redact_error err in
    match Control_Mode live with
    | OperatingModeRunOnce =>
      go! _ <- m_try (pauseLocked s live (Some message)) in
      Event s "system" EventPlanningError message
    | OperatingModeContinuous =>
      go! now <- time_now in
      go! _ <- save_control s (live <| Control_Error := Some message |> <| Control_BudgetWaiting := false |>
        <| Control_NextCycleAt := int64 (unix now + int64 (Z.of_N interval)) |>) in
      Event s "system" EventPlanningError message
    | OperatingModePaused => m_ret tt
    end
  end.
(** The goroutine itself; its turn in the planning order is [PlanningOrder]'s.
    [waited] is what waiting for the turn returns. *)
Definition plan_worker (snapshot : Config) (expected : Control) (waited : result unit failure) : M unit :=
  go! checked <- m_try (preflight snapshot false) in
  go! begun <-
    match m_is_err checked, waited with
    | Some err, _ => m_ret (Some err)
    | None, Err err => m_ret (Some err)
    | None, Ok _ =>
      go! begun <- m_try (beginCycle s Fingerprint snapshot expected CycleModeExecution) in
      m_ret (m_is_err begun)
    end in
  match begun with
  | None => m_ret tt
  | Some err =>
    go! _ <- endPreflight in
    go! stop <- stopped in
    if stop || is_recovery_blocked err then m_ret tt else
    go! live <- Control_ s in
    if negb (sameOperatorControl live expected) then m_ret tt else
    planning_failed (Config_CycleIntervalSeconds snapshot) live err
  end.

(** [true] when the goroutine is started. *)
Definition startPlanning (control : Control) : M bool :=
  go! stop <- stopped in
  if stop then m_ret false else
  go! free <- m_runtime idle in
  if negb free then m_ret false else
  go! now <- time_now in
  go! capacity <- m_read (fun a => planningCapacityAt s now (app_db a)) in
  go! stop <- stopped in
  if stop then m_ret false else
  if negb (Capacity_Available capacity) then go! _ <- waitForCapacity control capacity in m_ret false else
  go! stop <- stopped in
  if stop then m_ret false else
  go! _ <- m_update (startPreflight CycleModeExecution) in
  m_ret true.

(** ** Queued work *)

Definition invalidPlan (message : error) : failure :=
  Failed (Errorf "%s: %w" [VErr message; VWrap (Reason BlockedInvalidPlan)]).

(** One step of a loop over tasks: what it leaves, and whether the loop goes on. *)
Definition loop_step (P : Type) : Type := (P * bool)%type.

(** The new contents of the slice element, and whether it was cancelled. *)
Definition cancel_queued (t : Task) : M (loop_step (Task * bool)) :=
  go! stop <- stopped in
  if stop then m_ret ((t, false), false) else
  go! claimed <- m_runtime (cleanupClaimed cleanupTask (Task_ID t)) in
  if negb (bool_decide (Task_Status t = StatusQueued)) || isSome (Task_OutputCommit t) || claimed
  then m_ret ((t, false), true) else
  go! marked <- m_read (fun a => CancelMarked (Task_ID t) (app_db a)) in
  go! stop <- stopped in
  if stop then m_ret ((t, false), false) else
  if negb marked then m_ret ((t, false), true) else
  go! now <- time_now in
  go! cancelled <- m_store (CancelTask (Timestamp now) (Task_ID t)) in
  if cancelled then
    go! _ <- Event s (Task_ID t) EventOperator (enum_String TaskActionCancel) in
    m_ret ((t <| Task_Status := StatusCancelled |>, true), true)
  else m_ret ((t, false), true).
Fixpoint cancelQueuedTasks (tasks : list Task) : M (list Task * bool) :=
  match tasks with
  | [] => m_ret ([], false)
  | t :: rest =>
    go! step <- cancel_queued t in
    let '((t, cancelled), continue) := step in
    if negb continue then m_ret (t :: rest, cancelled) else
    go! outcome <- cancelQueuedTasks rest in
    m_ret (t :: outcome.1, cancelled || outcome.2)
  end.

(** The tasks of an invalid plan are blocked; [deferred] when one of them is
    claimed by a cleanup.  [None] when the context ended. *)
Fixpoint block_invalid (err : error) (tasks : list Task) (changed deferred : bool) : M (bool * option bool) :=
  match tasks with
  | [] => m_ret (changed, Some deferred)
  | t :: rest =>
    go! stop <- stopped in
    if stop then m_ret (changed, None) else
    if negb (bool_decide (Task_Status t = StatusQueued)) then block_invalid err rest changed deferred else
    go! claimed <- m_runtime (cleanupClaimed cleanupTask (Task_ID t)) in
    if claimed then block_invalid err rest changed true else
    go! _ <- blockTaskLocked s t (invalidPlan err) in
    block_invalid err rest true deferred
  end.
(** The body of the loop over the queued cycles.  The graph search of
    [validateTaskPlan] never runs out of fuel. *)
Definition validate_cycle (cfg : Config) (cycleID : string) (queued : list Task) : M (loop_step bool) :=
  go! stop <- stopped in
  if stop then m_ret (false, false) else
  go! checked <- m_runtime (fun r => bool_decide (cycleID ∈ rt_checkedCycles r)) in
  go! cycleTasks <- (if checked then m_ret queued else m_read (fun a => TasksForCycle cycleID (app_db a))) in
  go! outcome <- cancelQueuedTasks cycleTasks in
  let '(cycleTasks, cancelled) := outcome in
  if checked then m_ret (cancelled, true) else
  go! blocked <-
    match validateTaskPlan cycleTasks cfg with
    | Some (Err err) => block_invalid err cycleTasks cancelled false
    | _ => m_ret (cancelled, Some false)
    end in
  match blocked with
  | (changed, None) => m_ret (changed, false)
  | (changed, Some deferred) =>
    if deferred then m_ret (changed, true) else
    go! _ <- m_update (fun r => r <| rt_checkedCycles := {[cycleID]} ∪ rt_checkedCycles r |>) in
    m_ret (changed, true)
  end.
Fixpoint validate_cycles (cfg : Config) (tasks : list Task) (cycles : list string) : M bool :=
  match cycles with
  | [] => m_ret false
  | cycleID :: rest =>
    go! step <- validate_cycle cfg cycleID (List.filter (fun t => bool_decide (Task_CycleID t = cycleID)) tasks) in
    let '(changed, continue) := step in
    if negb continue then m_ret changed else
    go! more <- validate_cycles cfg tasks rest in
    m_ret (changed || more)
  end.
(** The cycles in the order of their first queued task; the code's order is
    Go's random one. *)
Definition validateQueuedCycles (cfg : Config) (tasks : list Task) : M bool :=
  let visible : gset string := list_to_set (map Task_CycleID tasks) in
  go! _ <- m_update (fun r => r <| rt_checkedCycles := rt_checkedCycles r ∩ visible |>) in
  let queued := List.filter (fun t => bool_decide (Task_Status t = StatusQueued)) tasks in
  validate_cycles cfg queued (reverse (remove_dups (reverse (map Task_CycleID queued)))).

(** ** Dispatch *)

Definition same_run (dependency t : Task) : bool :=
  match Task_RunID dependency, Task_RunID t with
  | Some a, Some b => bool_decide (a = b)
  | _, _ => false
  end.
Definition dependency_blocked (format id : string) : error :=
  Errorf format [VStr id; VWrap (Reason BlockedDependencyBlocked)].
Fixpoint dependencies_ready (t : Task) (control : Control) (ready : bool) (ids : list string) (db : Db)
    : bool * option error :=
  match ids with
  | [] => (ready, None)
  | id :: ids =>
    match db_tasks db !! id with
    | None => (false, Some (dependency_blocked "Dependency %s is missing: %w" id))
    | Some dependency =>
      if bool_decide (Task_Status dependency = StatusPublished) then dependencies_ready t control ready ids db else
      if bool_decide (Control_Mode control = OperatingModeRunOnce) && negb (same_run dependency t)
      then (false, Some (dependency_blocked "Dependency %s is outside this run-once batch: %w" id)) else
      if bool_decide (Task_Status dependency ∈ UnresolvedStatuses)
      then (false, Some (dependency_blocked "Dependency %s is unresolved: %w" id)) else
      dependencies_ready t control false ids db
    end
  end.
Definition dependenciesReady (t : Task) (control : Control) (db : Db) : bool * option error :=
  dependencies_ready t control true (Proposal_Dependencies (Task_Proposal t)) db.

Definition runTask (t : Task) : M unit :=
  go! _ <- registerTaskWorker t executionWorker in
  m_write (fun a => a <| app_started := app_started a ++ [t] |>).

(** The variables of [dispatch]'s loop. *)
Record pass := mkPass {
  pass_busy : gset string; pass_available : N; pass_started : bool; pass_waiting : bool;
  pass_inventory : option OpenPRInventory; pass_checked : bool; pass_refreshed : bool }.
#[local] Instance eta_pass : Eta pass := fun p =>
  mkPass (pass_busy p) (pass_available p) (pass_started p) (pass_waiting p) (pass_inventory p) (pass_checked p)
    (pass_refreshed p).
Definition waits (p : pass) : pass := p <| pass_waiting := true |>.

Definition requestRefresh (cfg : Config) (p : pass) : M pass :=
  if pass_refreshed p then m_ret p else
  go! stop <- stopped in
  if stop then m_ret p else
  go! _ <- startPRRefresh s cfg in
  m_ret (p <| pass_refreshed := true |>).

Definition start_task (t : Task) (p : pass) : M (loop_step pass) :=
  go! _ <- runTask t in
  m_ret (p <| pass_busy := {[Task_Branch t]} ∪ pass_busy p |> <| pass_available := pass_available p - 1 |>
           <| pass_started := true |>, true).
(** A task that opens a new pull request takes a place of the inventory. *)
Definition claim_once (cfg : Config) (p : pass) : M pass :=
  if pass_checked p then m_ret p else
  go! now <- time_now in
  go! claimed <- claimInventory cfg now in
  m_ret (p <| pass_inventory := claimed.1 |> <| pass_checked := true |>).
Definition admit_new (cfg : Config) (t : Task) (p : pass) : M (loop_step pass) :=
  go! p <- claim_once cfg p in
  match pass_inventory p with
  | None => go! p <- requestRefresh cfg p in m_ret (waits p, true)
  | Some inventory =>
    go! stop <- stopped in
    if stop then m_ret (p, false) else
    go! now <- time_now in
    go! admitted <- m_store (AdmitNewPRTask redact_text s (Timestamp now) t inventory) in
    go! _ <- m_update (fun r => r <| rt_prAdmissionRefused := negb admitted |>) in
    if admitted then start_task (admitted_task (Timestamp now) t) p else
    go! p <- requestRefresh cfg p in m_ret (waits p, true)
  end.
Definition admit_ready (cfg : Config) (t : Task) (p : pass) : M (loop_step pass) :=
  go! reservation <- m_read (fun a => HasPRReservation (Task_ID t) (app_db a)) in
  go! stop <- stopped in
  if stop then m_ret (p, false) else
  if bool_decide (Proposal_Target (Task_Proposal t) = Config_DefaultBranch (Task_Config t)) && negb reservation
  then admit_new cfg t p
  else
    go! t <- admitTaskLocked s t in
    start_task t p.
Definition dispatch_task (cfg : Config) (control : Control) (t : Task) (p : pass) : M (loop_step pass) :=
  go! stop <- stopped in
  if stop then m_ret (p, false) else
  if negb (bool_decide (Task_Status t = StatusQueued)) then m_ret (p, true) else
  go! claimed <- m_runtime (cleanupClaimed cleanupTask (Task_ID t)) in
  if claimed then m_ret (waits p, true) else
  if pass_available p =? 0 then m_ret (waits p, false) else
  go! readiness <- m_read (fun a => dependenciesReady t control (app_db a)) in
  let '(ready, blocked) := readiness in
  go! stop <- stopped in
  if stop then m_ret (p, false) else
  match blocked with
  | Some err => go! _ <- blockTaskLocked s t (Failed err) in m_ret (p, true)
  | None =>
    if negb ready then m_ret (waits p, true) else
    if bool_decide (Task_Branch t ∈ pass_busy p) then m_ret (waits p, true) else
    admit_ready cfg t p
  end.
Fixpoint dispatch_tasks (cfg : Config) (control : Control) (tasks : list Task) (p : pass) : M pass :=
  match tasks with
  | [] => m_ret p
  | t :: rest =>
    go! step <- dispatch_task cfg control t p in
    let '(p, continue) := step in
    if continue then dispatch_tasks cfg control rest p else m_ret p
  end.

(** The branches and the number of the running tasks; no count of them and of
    places wraps. *)
Definition active_tasks (tasks : list Task) : list Task := List.filter (fun t => Active (Task_Status t)) tasks.
Definition job_branches (jobs : gmap N taskJob) (workers : list (string * N)) : gset string :=
  list_to_set (omap (fun e => job_branch <$> jobs !! e.2) workers).
Definition first_pass (cfg : Config) (tasks : list Task) (a : App) : pass :=
  let r := app_runtime a in
  let active := active_tasks tasks in
  let workers := map_to_list (rt_tasks r) in
  let unlisted := List.filter (fun e => negb (bool_decide (e.1 ∈ map Task_ID active))) workers in
  let activeCount := lenN active + lenN unlisted in
  mkPass (list_to_set (map Task_Branch active) ∪ job_branches (app_jobs a) workers ∪ rt_merges r)
    (if activeCount <? Config_ExecutionConcurrency cfg then Config_ExecutionConcurrency cfg - activeCount else 0)
    false false None false false.
(** What [dispatch] answers: whether it started a task, and whether one waits. *)
Definition dispatch (cfg : Config) (control : Control) (tasks : list Task) : M (bool * bool) :=
  go! p <- m_read (first_pass cfg tasks) in
  go! p <- dispatch_tasks cfg control tasks p in
  m_ret (pass_started p, pass_waiting p).
End scheduler.

(** * Properties *)

Section scheduler_facts.
Context `{Unicode} `{World} (s : Store).

(** ** Operations that leave the tasks and the workers alone *)

Record quiet (a a' : App) : Prop := {
  quiet_started : app_started a' = app_started a;
  quiet_jobs : app_jobs a' = app_jobs a;
  quiet_next : app_next a <= app_next a';
  quiet_workers : rt_tasks (app_runtime a') = rt_tasks (app_runtime a);
  quiet_cleanups : rt_cleanups (app_runtime a') = rt_cleanups (app_runtime a);
  quiet_tasks : db_tasks (app_db a') = db_tasks (app_db a) }.
#[local] Instance quiet_preorder : PreOrder quiet.
Proof.
  split; [done|]. intros a b c [] []. split; try congruence. lia.
Qed.
Lemma quiet_reads a n : quiet a (a <| app_reads := n |>).
Proof. by destruct a. Qed.
Ltac quiet_tac := split; try done; cbn; lia.

Lemma wp_startPRRefresh cfg (Q : result unit failure -> App -> Prop) a :
  (forall a', quiet a a' -> Q (Ok tt) a') -> wp (startPRRefresh s cfg) Q a.
Proof.
  intros K. unfold startPRRefresh. wp_go. destruct (_ || _); wp_go; [by apply K|].
  unfold prCapacity. wp_go.
  destruct (match stored_inventory _ _ _ with Some _ => _ | None => _ end) as [capacity remaining]. wp_go.
  destruct (capacity_status _ _ _ _ _) as [status reason]. wp_go.
  destruct (_ || _ || _); wp_go; [by apply K|]. wp_go. apply K. quiet_tac.
Qed.
Lemma wp_claimInventory cfg now (Q : result (option OpenPRInventory * string) failure -> App -> Prop) a :
  (forall x a', quiet a a' -> Q (Ok x) a') -> wp (claimInventory cfg now) Q a.
Proof.
  intros K. unfold claimInventory. wp_go. destruct (rt_prObservation _); [|destruct (negb _); wp_go; by apply K].
  repeat (destruct_cond; wp_go; [by apply K|]). wp_go. by apply K.
Qed.

(** ** The invariant of a pass *)

(** The workers of a consistent engine: their jobs exist, the addresses from
    [app_next] on are free, and no queued task has a worker. *)
Record workers_ok (a : App) : Prop := {
  workers_jobs id j : rt_tasks (app_runtime a) !! id = Some j -> is_Some (app_jobs a !! j);
  workers_fresh j : app_next a <= j -> app_jobs a !! j = None;
  workers_queued id t : db_tasks (app_db a) !! id = Some t -> Task_Status t = StatusQueued ->
    rt_tasks (app_runtime a) !! id = None }.
Lemma workers_quiet a a' : quiet a a' -> workers_ok a -> workers_ok a'.
Proof.
  intros [S J N W C T] [Wj Wf Wq]. split; intros *.
  - rewrite W, J. apply Wj.
  - intros L. rewrite J. apply Wf. lia.
  - rewrite W, T. apply Wq.
Qed.

(** No task is queued or published by the step. *)
Definition settles_only (a a' : App) : Prop :=
  forall id t, db_tasks (app_db a') !! id = Some t -> Task_Status t = StatusPublished \/ Task_Status t = StatusQueued ->
    db_tasks (app_db a) !! id = Some t.

(** A task a pass started: one of the listed tasks was queued, had no cleanup
    claim, and had all its dependencies published. *)
Record admitted_from (tasks : list Task) (a0 : App) (t : Task) : Prop := {
  from_queued : exists q, q ∈ tasks /\ Task_Status q = StatusQueued /\ Task_ID q = Task_ID t /\ Task_Branch q = Task_Branch t;
  from_unclaimed : cleanupClaimed cleanupTask (Task_ID t) (app_runtime a0) = false;
  from_ready : Forall (fun id => exists d, db_tasks (app_db a0) !! id = Some d /\ Task_Status d = StatusPublished)
                 (Proposal_Dependencies (Task_Proposal t)) }.

Record went (tasks : list Task) (a0 : App) (p0 : pass) (started : list Task) (p : pass) (a : App) : Prop := {
  went_started : app_started a = app_started a0 ++ started;
  went_places : pass_available p + lenN started = pass_available p0;
  went_flag : pass_started p = pass_started p0 || negb (bool_decide (started = []));
  went_busy : pass_busy p = list_to_set (map Task_Branch started) ∪ pass_busy p0;
  went_branches : NoDup (map Task_Branch started);
  went_free : Forall (fun t => Task_Branch t ∉ pass_busy p0) started;
  went_count : N.of_nat (size (rt_tasks (app_runtime a))) = N.of_nat (size (rt_tasks (app_runtime a0))) + lenN started;
  went_workers : Forall (fun t => is_Some (rt_tasks (app_runtime a) !! Task_ID t)) started;
  went_claims : rt_cleanups (app_runtime a) = rt_cleanups (app_runtime a0);
  went_ok : workers_ok a;
  went_settles : settles_only a0 a;
  went_saved : Forall (fun t => db_tasks (app_db a) !! Task_ID t = Some t /\ Task_Status t = StatusExecuting) started;
  went_from : Forall (admitted_from tasks a0) started }.

Lemma went_first tasks a p : workers_ok a -> went tasks a p [] p a.
Proof.
  intros W. split; try done; try apply NoDup_nil_2; cbn.
  - by rewrite app_nil_r.
  - unfold lenN. simpl. lia.
  - by rewrite orb_false_r.
  - set_solver.
  - unfold lenN. simpl. lia.
  - by intros ???.
Qed.

(** The pass's record may change, but for its busy branches and its places. *)
Definition same_places (p p' : pass) : Prop :=
  pass_busy p' = pass_busy p /\ pass_available p' = pass_available p /\ pass_started p' = pass_started p.
Lemma went_quiet tasks a0 p0 started p p' a a' :
  went tasks a0 p0 started p a -> same_places p p' -> quiet a a' -> went tasks a0 p0 started p' a'.
Proof.
  intros [] (B & P & Fl) Qt. pose proof (workers_quiet _ _ Qt went_ok0). destruct Qt as [S J N W C T].
  split; try congruence; try done.
  - by rewrite W.
  - intros id t. rewrite T. apply went_settles0.
  - by rewrite T.
Qed.

(** One task is settled: blocked, or cancelled instead. *)
Lemma went_settle tasks a0 p0 started p a a' id u :
  went tasks a0 p0 started p a -> id ∉ map Task_ID started ->
  Task_Status u <> StatusPublished -> Task_Status u <> StatusQueued ->
  db_only a a' -> db_tasks (app_db a') = <[id := u]> (db_tasks (app_db a)) ->
  went tasks a0 p0 started p a'.
Proof.
  intros [] N Pb Q D T.
  assert (app_runtime a' = app_runtime a /\ app_jobs a' = app_jobs a /\ app_next a' = app_next a
          /\ app_started a' = app_started a) as (R & J & Nx & St) by (by destruct D as (db & n & ->), a).
  destruct went_ok0. split; rewrite ?St, ?R; try done.
  - split; rewrite ?R, ?J, ?Nx; try done. intros id' t. rewrite T, lookup_insert.
    destruct (decide (id = id')) as [<-|]; [by intros [= <-]|]. apply workers_queued0.
  - intros id' t. rewrite T, lookup_insert. destruct (decide (id = id')) as [<-|]; [intros [= <-] []; done|].
    apply went_settles0.
  - rewrite T. apply Forall_forall. intros t E. rewrite lookup_insert_ne.
    + exact (proj1 (Forall_forall _ _) went_saved0 _ E).
    + intros ->. apply N, list_elem_of_fmap. by exists t.
Qed.

(** One task is started. *)
Record starts (t : Task) (p p' : pass) (a a' : App) : Prop := {
  starts_started : app_started a' = app_started a ++ [t];
  starts_tasks : db_tasks (app_db a') = <[Task_ID t := t]> (db_tasks (app_db a));
  starts_workers : exists j job, rt_tasks (app_runtime a') = <[Task_ID t := j]> (rt_tasks (app_runtime a))
    /\ app_jobs a' = <[j := job]> (app_jobs a) /\ app_next a <= j /\ j < app_next a';
  starts_cleanups : rt_cleanups (app_runtime a') = rt_cleanups (app_runtime a);
  starts_busy : pass_busy p' = {[Task_Branch t]} ∪ pass_busy p;
  starts_places : pass_available p' = pass_available p - 1;
  starts_flag : pass_started p' = true }.
Lemma workers_start t p p' a a' :
  starts t p p' a a' -> Task_Status t = StatusExecuting -> workers_ok a -> workers_ok a'.
Proof.
  intros [_ T (j & job & R & J & Lo & Hi) _ _ _ _] Ex [Wj Wf Wq]. split.
  - intros id k. rewrite R, J, lookup_insert. intros K. destruct (decide (k = j)) as [->|N].
    + rewrite lookup_insert_eq. by eexists.
    + rewrite lookup_insert_ne by done. destruct (decide (Task_ID t = id)); [congruence|]. by eapply Wj.
  - intros k L. rewrite J, lookup_insert_ne by lia. apply Wf. lia.
  - intros id u. rewrite T, R, !lookup_insert. destruct (decide (Task_ID t = id)); [intros [= <-]; congruence|]. apply Wq.
Qed.
Lemma went_start tasks a0 p0 started p p' a a' t :
  went tasks a0 p0 started p a -> starts t p p' a a' -> Task_ID t ∉ map Task_ID started ->
  0 < pass_available p -> Task_Branch t ∉ pass_busy p -> Task_Status t = StatusExecuting ->
  rt_tasks (app_runtime a) !! Task_ID t = None -> admitted_from tasks a0 t ->
  went tasks a0 p0 (started ++ [t]) p' a'.
Proof.
  intros [] St N Av Br Ex Fr Fm. pose proof (workers_start _ _ _ _ _ St Ex went_ok0).
  destruct St as [S T (j & job & R & J & Lo & Hi) C Bs Pl Fl]. rewrite went_busy0 in Br. apply not_elem_of_union in Br as [Br Br0].
  rewrite elem_of_list_to_set in Br. split; try done.
  - by rewrite S, went_started0, app_assoc.
  - rewrite Pl. unfold lenN in *. rewrite length_app. simpl. lia.
  - rewrite Fl, bool_decide_eq_false_2 by (by destruct started). by rewrite orb_true_r.
  - rewrite Bs, went_busy0, map_app. simpl. set_solver.
  - rewrite map_app. apply NoDup_app. split_and!; [done| |apply NoDup_singleton]. set_solver.
  - apply Forall_app. by split; [|constructor].
  - rewrite R, map_size_insert_None by done. unfold lenN in *. rewrite length_app. simpl. lia.
  - rewrite R. apply Forall_app. split.
    + eapply Forall_impl; [exact went_workers0|]. intros u. rewrite lookup_insert. by destruct (decide _).
    + constructor; [rewrite lookup_insert_eq; by eexists|done].
  - congruence.
  - intros id u. rewrite T, lookup_insert. destruct (decide (Task_ID t = id)); [intros [= <-]; intuition congruence|].
    apply went_settles0.
  - rewrite T. apply Forall_app. split; [|constructor; [by rewrite lookup_insert_eq|done]].
    apply Forall_forall. intros u E. rewrite lookup_insert_ne.
    + exact (proj1 (Forall_forall _ _) went_saved0 _ E).
    + intros Eq. apply N. rewrite Eq. apply list_elem_of_fmap. by exists u.
  - apply Forall_app. by split; [|constructor].
Qed.

(** ** The steps of a pass *)

(** The task is saved, and nothing else happened to tasks and workers. *)
Record saves (t : Task) (a a' : App) : Prop := {
  saves_started : app_started a' = app_started a;
  saves_jobs : app_jobs a' = app_jobs a;
  saves_next : app_next a <= app_next a';
  saves_workers : rt_tasks (app_runtime a') = rt_tasks (app_runtime a);
  saves_cleanups : rt_cleanups (app_runtime a') = rt_cleanups (app_runtime a);
  saves_tasks : db_tasks (app_db a') = <[Task_ID t := t]> (db_tasks (app_db a)) }.
Lemma wp_start_task t p a a1 Q :
  saves t a a1 -> rt_tasks (app_runtime a) !! Task_ID t = None ->
  (forall p' a', starts t p p' a a' -> Q (Ok (p', true)) a') -> wp (start_task t p) Q a1.
Proof.
  intros [S J N W C T] Fr K. unfold start_task, runTask, registerTaskWorker. wp_go. rewrite W, Fr. cbn [isSome].
  wp_go. apply K. split; cbn; try done.
  - by rewrite S.
  - eexists _, _. rewrite W, J. split; [done|]. split; [done|]. split; [done|]. cbn. lia.
Qed.

Lemma db_only_quiet a a' : db_only a a' -> db_tasks (app_db a') = db_tasks (app_db a) -> quiet a a'.
Proof. intros (db & n & ->) T. destruct a. by split. Qed.
Lemma db_only_saves t a a' : db_only a a' -> db_tasks (app_db a') = <[Task_ID t := t]> (db_tasks (app_db a)) -> saves t a a'.
Proof. intros (db & n & ->) T. destruct a. by split. Qed.

Lemma wp_admitTaskLocked t Q a :
  Task_Status t = StatusQueued ->
  (forall t' a', db_tasks (app_db a) !! Task_ID t = Some t -> Task_Status t' = StatusExecuting ->
     (exists now, t' = admitted_task now t) -> saves t' a a' -> Q (Ok t') a') ->
  (forall err a', no_panic err -> quiet a a' -> Q (Err err) a') -> wp (admitTaskLocked s t) Q a.
Proof.
  intros Qu K F. unfold admitTaskLocked. wp_step. apply wp_commitTaskLocked.
  - intros now saved n [(current & L & V & [[-> ->]|(_ & _ & Abs & _)]) _ _]; [|done].
    unfold status_event. wp_go. apply wp_event. intros events m. wp_go. apply K; [done|done|by exists now|].
    apply db_only_saves; [|by rewrite <- put_task_tasks]. eexists _, _. by destruct a.
  - intros err n NP. by apply F.
Qed.
Lemma wp_blockTaskLocked t err Q a :
  (forall u t' a', Task_Status u <> StatusPublished -> Task_Status u <> StatusQueued -> db_only a a' ->
     db_tasks (app_db a') = <[Task_ID t := u]> (db_tasks (app_db a)) -> Q (Ok t') a') ->
  (forall err a', no_panic err -> quiet a a' -> Q (Err err) a') -> wp (blockTaskLocked s t err) Q a.
Proof.
  intros K F. unfold blockTaskLocked. wp_step. apply wp_commitTaskLocked.
  - intros now saved n C. pose proof (settled_status _ _ _ _ _ C) as Ss. cbn in Ss.
    unfold status_event. wp_go. apply wp_event. intros events m. wp_go.
    apply (K saved); [by destruct Ss as [-> | ->]..| |].
    + eexists _, _. by destruct a.
    + rewrite <- (committed_ID _ _ _ _ _ _ C). by rewrite <- put_task_tasks.
  - intros e n NP. by apply F.
Qed.

Lemma dependencies_ready_published t control ready ids db :
  dependencies_ready t control ready ids db = (true, None) ->
  ready = true /\ Forall (fun id => exists d, db_tasks db !! id = Some d /\ Task_Status d = StatusPublished) ids.
Proof.
  revert ready. induction ids as [|id ids IH]; intros ready E; simpl in E; [by injection E as ->|].
  destruct (db_tasks db !! id) as [d|] eqn:L; [|done]. case_bool_decide as P.
  - apply IH in E as [-> F]. split; [done|]. constructor; [by exists d|done].
  - repeat (destruct_cond). by apply IH in E as [? _].
Qed.

(** How a step of the pass over [t] ends. *)
Definition step_post (tasks : list Task) (a0 : App) (p0 : pass) (started : list Task) (t : Task)
    (r : result (loop_step pass) failure) (a : App) : Prop :=
  match r with
  | Ok (p, _) => exists more, went tasks a0 p0 (started ++ more) p a /\ Forall (fun u => Task_ID u = Task_ID t) more
  | Err err => no_panic err /\ exists p, went tasks a0 p0 started p a
  end.
Lemma step_keeps tasks a0 p0 started t p p' b a a' :
  went tasks a0 p0 started p a -> same_places p p' -> quiet a a' ->
  step_post tasks a0 p0 started t (Ok (p', b)) a'.
Proof. intros W P Qt. exists []. rewrite app_nil_r. split; [by eapply went_quiet|done]. Qed.
Lemma step_fails tasks a0 p0 started t p err a a' :
  went tasks a0 p0 started p a -> quiet a a' -> no_panic err -> step_post tasks a0 p0 started t (Err err) a'.
Proof. intros W Qt N. split; [done|]. exists p. by eapply went_quiet. Qed.

Lemma wp_requestRefresh cfg p (Q : result pass failure -> App -> Prop) a :
  (forall p' a', same_places p p' -> quiet a a' -> Q (Ok p') a') -> wp (requestRefresh s cfg p) Q a.
Proof.
  intros K. unfold requestRefresh. destruct (pass_refreshed p); [wp_go; by apply K|]. wp_go.
  destruct (stops _); wp_go; [by apply K|]. apply wp_startPRRefresh. intros a' Qt. wp_go. apply K; [done|].
  etrans; [|exact Qt]. by split.
Qed.
Lemma wp_claim_once cfg p (Q : result pass failure -> App -> Prop) a :
  (forall p' a', same_places p p' -> quiet a a' -> Q (Ok p') a') -> wp (claim_once cfg p) Q a.
Proof.
  intros K. unfold claim_once. destruct (pass_checked p); [wp_go; by apply K|]. wp_go.
  apply wp_claimInventory. intros x a' Qt. wp_go. apply K; [done|]. etrans; [|exact Qt]. by split.
Qed.

Section step.
Context (tasks : list Task) (a0 : App) (p0 : pass) (started : list Task) (t : Task).
Context (Listed : t ∈ tasks) (Queued : Task_Status t = StatusQueued) (New : Task_ID t ∉ map Task_ID started).

(** The task is admitted in the state [a]. *)
Lemma wp_start p p1 t' a a1 :
  went tasks a0 p0 started p a -> same_places p p1 -> 0 < pass_available p -> Task_Branch t ∉ pass_busy p ->
  cleanupClaimed cleanupTask (Task_ID t) (app_runtime a) = false ->
  Forall (fun id => exists d, db_tasks (app_db a0) !! id = Some d /\ Task_Status d = StatusPublished)
    (Proposal_Dependencies (Task_Proposal t)) ->
  (exists now, t' = admitted_task now t) -> db_tasks (app_db a) !! Task_ID t = Some t ->
  saves t' a a1 -> wp (start_task t' p1) (step_post tasks a0 p0 started t) a1.
Proof.
  intros W (Eb & Ea & _) Av Br Cl Dp [now ->] L Sv.
  pose proof (workers_queued _ (went_ok _ _ _ _ _ _ W) _ _ L Queued) as Fr.
  eapply wp_start_task; [exact Sv|done|]. intros p' a' St. exists [admitted_task now t]. split; [|by constructor].
  eapply went_start; try done.
  - destruct St. split; try done; by rewrite <- ?Eb, <- ?Ea.
  - split; [by exists t| |done]. unfold cleanupClaimed in *. by rewrite <- (went_claims _ _ _ _ _ _ W).
Qed.

Lemma wp_admit_new cfg p a :
  went tasks a0 p0 started p a -> 0 < pass_available p -> Task_Branch t ∉ pass_busy p ->
  cleanupClaimed cleanupTask (Task_ID t) (app_runtime a) = false ->
  Forall (fun id => exists d, db_tasks (app_db a0) !! id = Some d /\ Task_Status d = StatusPublished)
    (Proposal_Dependencies (Task_Proposal t)) ->
  wp (admit_new s cfg t p) (step_post tasks a0 p0 started t) a.
Proof.
  intros W Av Br Cl Dp. unfold admit_new. wp_step. apply wp_claim_once. intros p1 a1 P1 Q1.
  assert (forall a2, quiet a a2 ->
    wp (go! p <- requestRefresh s cfg p1 in m_ret (waits p, true)) (step_post tasks a0 p0 started t) a2) as Later.
  { intros a2 Q2. wp_step. apply wp_requestRefresh. intros p2 a3 P2 Q3. wp_go. eapply step_keeps; [exact W| |by etrans].
    destruct P1 as (?&?&?), P2 as (?&?&?). split_and!; cbn; congruence. }
  destruct (pass_inventory p1) as [inventory|]; [|by apply Later]. wp_go.
  destruct (stops _); wp_go; [eapply step_keeps; [exact W|done|]; etrans; [exact Q1|by split]|].
  apply wp_store. intros r db E. set (a2 := (a1 <| app_reads := _ |>) <| app_reads := _ |>) in *.
  assert (quiet a a2) as Q2 by (etrans; [exact Q1|by split]).
  destruct r as [[]|e].
  - apply AdmitNewPRTask_Ok in E as (L & _ & _ & _ & T & _).
    change (app_db a2) with (app_db a1) in *. rewrite (quiet_tasks _ _ Q1) in L, T. wp_go.
    eapply wp_start; try done; [by eexists|]. destruct Q2. split; try done.
  - assert (app_db a2 = db) as <- by (by apply (conditional_unchanged _ _ (Ok false)) in E). do 2 (wp_step; cbv beta iota).
    apply Later. etrans; [exact Q2|]. by split.
  - assert (app_db a2 = db) as <- by (by apply (conditional_unchanged _ _ (Err e)) in E).
    eapply step_fails; [exact W| |done]. etrans; [exact Q2|]. by split.
Qed.

Lemma wp_admit_ready cfg p a :
  went tasks a0 p0 started p a -> 0 < pass_available p -> Task_Branch t ∉ pass_busy p ->
  cleanupClaimed cleanupTask (Task_ID t) (app_runtime a) = false ->
  Forall (fun id => exists d, db_tasks (app_db a0) !! id = Some d /\ Task_Status d = StatusPublished)
    (Proposal_Dependencies (Task_Proposal t)) ->
  wp (admit_ready s cfg t p) (step_post tasks a0 p0 started t) a.
Proof.
  intros W Av Br Cl Dp. unfold admit_ready. wp_go. destruct (stops _); wp_go; [by eapply step_keeps; [exact W|..]|].
  destruct (_ && _).
  - apply wp_admit_new; try done. eapply went_quiet; [exact W|done|by split].
  - wp_step. apply wp_admitTaskLocked; [done| |].
    + intros t' a1 L Ex Ad Sv. wp_go. eapply (wp_start p p t' a); try done. destruct Sv. by split.
    + intros err a1 N Q1. eapply step_fails; [exact W| |done]. etrans; [|exact Q1]. by split.
Qed.
End step.

Lemma wp_dispatch_task cfg control tasks a0 p0 started t p a :
  t ∈ tasks -> Task_ID t ∉ map Task_ID started -> went tasks a0 p0 started p a ->
  wp (dispatch_task s cfg control t p) (step_post tasks a0 p0 started t) a.
Proof.
  intros Ls Nw W. unfold dispatch_task. wp_go. destruct (stops _); wp_go; [by eapply step_keeps; [exact W|..]|].
  case_bool_decide as Qu; cbn [negb]; [|wp_go; by eapply step_keeps; [exact W|..]]. wp_go.
  destruct (cleanupClaimed _ _ _) eqn:Cl; wp_go; [by eapply step_keeps; [exact W|..]|].
  destruct (pass_available p =? 0) eqn:Av; wp_go; [by eapply step_keeps; [exact W|..]|].
  destruct (dependenciesReady _ _ _) as [ready [err|]] eqn:Rd; wp_go.
  - destruct (stops _); wp_go; [by eapply step_keeps; [exact W|..]|]. apply wp_blockTaskLocked.
    + intros u t' a1 Pb Q D T. wp_go. exists []. rewrite app_nil_r. split; [|done].
      by eapply (went_settle _ _ _ _ _ a _ (Task_ID t) u).
    + intros e a1 N Q1. eapply step_fails; [exact W| |done]. etrans; [|exact Q1]. by split.
  - destruct (stops _); wp_go; [by eapply step_keeps; [exact W|..]|].
    destruct ready; cbn [negb]; [|wp_go; by eapply step_keeps; [exact W|..]].
    case_bool_decide as Br; [wp_go; by eapply step_keeps; [exact W|..]|].
    apply dependencies_ready_published in Rd as [_ F]. apply N.eqb_neq in Av.
    apply (wp_admit_ready tasks a0 p0 started t Ls Qu Nw); try done; [|lia|].
    + eapply went_quiet; [exact W|done|by split].
    + eapply Forall_impl; [exact F|]. intros id (d & L & Pb). exists d. split; [|done].
      apply (went_settles _ _ _ _ _ _ W); [exact L|by left].
Qed.

Lemma wp_dispatch_tasks cfg control tasks a0 p0 rest started p a :
  (forall t, t ∈ rest -> t ∈ tasks /\ Task_ID t ∉ map Task_ID started) -> NoDup (map Task_ID rest) ->
  went tasks a0 p0 started p a ->
  wp (dispatch_tasks s cfg control rest p)
     (fun r a' => exists started' p', went tasks a0 p0 started' p' a' /\
        match r with Ok q => q = p' | Err err => no_panic err end) a.
Proof.
  revert started p a. induction rest as [|t rest IH]; intros started p a In ND W.
  { wp_go. by exists started, p. }
  simpl. destruct (In t) as [Ls Nw]; [left|]. apply NoDup_cons in ND as [Hd ND]. wp_step.
  eapply wp_mono; [by apply (wp_dispatch_task cfg control tasks a0 p0 started)|].
  intros [[p1 continue]|err] a1; [|intros (N & p2 & W2); by exists started, p2].
  intros (more & W1 & Eq). destruct continue; [|wp_go; by exists (started ++ more), p1].
  apply (IH (started ++ more)); [|done|done]. intros u Eu. destruct (In u) as [Lu Nu]; [by right|]. split; [done|].
  rewrite map_app, elem_of_app. intros [?|M]; [done|]. apply list_elem_of_fmap in M as (v & E & Ev).
  apply Hd, list_elem_of_fmap. exists u. split; [|done]. rewrite E. symmetry.
  exact (proj1 (Forall_forall _ _) Eq _ Ev).
Qed.

(** No more workers than the count of the running tasks. *)
Lemma workers_counted tasks (r : gmap string N) :
  N.of_nat (size r) <= lenN (active_tasks tasks)
    + lenN (List.filter (fun e : string * N => negb (bool_decide (e.1 ∈ map Task_ID (active_tasks tasks)))) (map_to_list r)).
Proof.
  set (ids := map Task_ID (active_tasks tasks)).
  assert (length (List.filter (fun e : string * N => bool_decide (e.1 ∈ ids)) (map_to_list r)) <= length ids)%nat as L.
  { rewrite <- (length_fmap fst (List.filter _ _)). apply submseteq_length, NoDup_submseteq.
    - apply filter_NoDup_keys, NoDup_fst_map_to_list.
    - intros id E. apply list_elem_of_fmap in E as ([k v] & -> & E). apply list_elem_of_In, filter_In in E as [_ E].
      by apply bool_decide_eq_true in E. }
  rewrite <- (length_map_to_list r).
  rewrite <- (List.filter_length (fun e : string * N => bool_decide (e.1 ∈ ids)) (map_to_list r)).
  unfold lenN. assert (length ids = length (active_tasks tasks)) as E by apply length_map. lia.
Qed.

(** C17: a scheduling pass never oversubscribes the service.  The tasks it
    starts were listed as queued, are saved as executing, had no cleanup
    claim and only published dependencies; each is on a branch of its own, on
    which no worker, merge or active task was; if it starts any, the workers
    stay within the configured concurrency; it reports whether it started
    one, and it never finds a second worker for a task (no panic), whatever
    the store answers. *)
Theorem dispatch_safe cfg control tasks a :
  NoDup (map Task_ID tasks) -> workers_ok a ->
  wp (dispatch s cfg control tasks) (fun r a' => exists started,
      app_started a' = app_started a ++ started
      /\ match r with Ok (any, _) => any = negb (bool_decide (started = [])) | Err err => no_panic err end
      /\ Forall (admitted_from tasks a) started
      /\ Forall (fun t => db_tasks (app_db a') !! Task_ID t = Some t /\ Task_Status t = StatusExecuting) started
      /\ NoDup (map Task_Branch started)
      /\ Forall (fun t => Task_Branch t ∉ pass_busy (first_pass cfg tasks a)) started
      /\ (started = [] \/ N.of_nat (size (rt_tasks (app_runtime a'))) <= Config_ExecutionConcurrency cfg)
      /\ workers_ok a') a.
Proof.
  intros ND W. unfold dispatch. wp_go. set (p0 := first_pass cfg tasks a).
  eapply wp_mono.
  { apply (wp_dispatch_tasks cfg control tasks a p0 tasks [] p0); [|done|by apply went_first].
    intros t E. split; [done|apply not_elem_of_nil]. }
  intros r a' (started & p & Wt & R).
  assert (started = [] \/ N.of_nat (size (rt_tasks (app_runtime a'))) <= Config_ExecutionConcurrency cfg) as Bound.
  { destruct started as [|t l]; [by left|right]. pose proof (went_places _ _ _ _ _ _ Wt) as Pl.
    rewrite (went_count _ _ _ _ _ _ Wt). pose proof (workers_counted tasks (rt_tasks (app_runtime a))).
    unfold p0, first_pass, lenN in *. cbn [pass_available] in Pl. simpl length in *. destruct (_ <? _) eqn:Lt in Pl; [|lia].
    apply N.ltb_lt in Lt. lia. }
  destruct Wt. destruct r as [q|err]; wp_go; exists started; split_and!; try done. by subst q.
Qed.
End scheduler_facts.

(** ** The idle delay *)

(** The delay between idle planning cycles doubles with each one, from the
    configured interval up to a day (or the interval, when that is longer),
    and never overflows. *)
Theorem idleDelay_doubles base streak :
  base < two64 ->
  idleDelay base streak = N.min (N.max base day_seconds) (base * 2 ^ N.min (streak - 1) 16).
Proof.
  intros B. unfold idleDelay. set (ceiling := if day_seconds <? base then base else day_seconds).
  assert (ceiling = N.max base day_seconds) as -> by (unfold ceiling; destruct_cond; bool_hyps; lia).
  destruct (streak <=? 1) eqn:One; bool_hyps.
  { replace (N.min (streak - 1) 16) with 0 by lia. simpl. lia. }
  assert ((if 16 <? streak - 1 then 16 else streak - 1) = N.min (streak - 1) 16) as -> by (destruct_cond; bool_hyps; lia).
  set (k := N.min (streak - 1) 16). assert (k <= 16) as K by lia. clearbody k. clear One.
  rewrite N.shiftr_div_pow2, N.shiftl_mul_pow2. pose proof (N.pow_nonzero 2 k ltac:(lia)).
  unfold u64, two64, day_seconds in *. destruct (_ <? base) eqn:Ov; bool_hyps.
  - assert (18446744073709551615 < base * 2 ^ k) by (pose proof (N.div_mod 18446744073709551615 (2 ^ k) ltac:(done));
      pose proof (N.mod_lt 18446744073709551615 (2 ^ k) ltac:(done)); nia). lia.
  - assert (base * 2 ^ k <= 18446744073709551615) as Fit.
    { etrans; [apply N.mul_le_mono_r, Ov|]. rewrite N.mul_comm. by apply N.mul_div_le. }
    rewrite N.mod_small by lia. destruct_cond; bool_hyps; lia.
Qed.

(** ** Witnesses *)

Definition queued_app : App :=
  new_app ((task_db (sample_task "t")) <| db_reservations := {["t" := mkPRReservation "t" "acme/widgets" "octomus/t" ""]} |>).
Definition continuous : Control := SetMode DefaultControl OperatingModeContinuous.
Lemma queued_app_ok : workers_ok queued_app.
Proof. split; [done|done|]. intros id t _ _. apply lookup_empty. Qed.
Lemma dispatch_safe_witness :
  (exists started,
      app_started (snd (dispatch sample_store sample_config continuous [sample_task "t"] queued_app)) = [] ++ started
      /\ Forall (admitted_from [sample_task "t"] queued_app) started)
  /\ map Task_ID (app_started (snd (dispatch sample_store sample_config continuous [sample_task "t"] queued_app))) = ["t"].
Proof.
  split; [|vm_compute; reflexivity].
  destruct (dispatch_safe sample_store sample_config continuous [sample_task "t"] queued_app) as (started & S & _ & F & _).
  - apply NoDup_singleton.
  - exact queued_app_ok.
  - exists started. split; [exact S|exact F].
Defined.

Lemma idleDelay_doubles_witness : 300 < two64 /\ idleDelay 300 3 = 1200 /\ idleDelay 300 40 = 86400.
Proof.
  split; [done|]. split.
  - rewrite (idleDelay_doubles 300 3); [reflexivity|done].
  - rewrite (idleDelay_doubles 300 40); [reflexivity|done].
Defined.
