(* ===== verification/Actions.v ===== *)
(** * What an operator does to a task, a cycle or a request
    ([internal/engine/actions.go], [requests.go])

    Every action is decided from the saved record under the gate.  What runs
    with the gate open is an argument, and may do anything to the state: the
    checks of a retry against the remote, the removal of an owned directory,
    and the publication a reconciliation resumes. *)
From S2P Require Import Prelude GoStrings WireJson Enums Types GoErrors Config GoTime Model Samples Lifecycle Store StoreMerges StoreTasks StoreBudget StoreCapacity Runtime Observations TaskWorkers Controls Scheduler Paths.
Local Open Scope string_scope.
Local Open Scope list_scope.
Local Open Scope N_scope.

(** How [runJoined] ended: the deadline passed, the context was already done
    then, and what the function returned. *)
Record joined := mkJoined {
  joined_expired : bool; joined_cancelled : bool; joined_result : result PullRequest failure }.

Section actions.
Context `{Unicode} `{World} (s : Store) (deployment : Deployment) (Fingerprint : Config -> result string error).
Context (dataDir : string) (policy_text : option AttemptPolicy -> string) (uuid_Parse : string -> bool).
(** [retryPreflight], [workspace.RemoveOwnedDirContext] and [git.Publish]
    under [runJoined], which never panics. *)
Context (retryPreflight : Task -> M (option failure)) (remove : string -> string -> M (option failure))
  (publish : N -> Task -> M joined).

Definition m_opt (err : option failure) : M unit := match err with Some err => m_fail err | None => m_ret tt end.

(** ** Eligibility *)

Definition eligibleTask (id : string) (action : TaskAction) : M Task :=
  go! found <- load_task id in
  match found with
  | None => m_fail (NotFound "Task not found")
  | Some t =>
    check bool_decide (action ∈ AllowedActions t)
      else conflictError "This action is not eligible for the task's recorded failure and workspace state";
    let other := negb (bool_decide (action = TaskActionCancel)) in
    go! merging <- m_runtime (fun r => bool_decide (Task_Branch t ∈ rt_merges r)) in
    check negb (other && merging)
      else conflictError "An automatic merge check is in flight for this delivery; wait for it to finish";
    go! claimed <- m_runtime (cleanupClaimed cleanupTask id) in
    check negb claimed else conflictError "Workspace cleanup is in progress for this task; wait for it to finish";
    go! running <- m_runtime (fun r => isSome (rt_tasks r !! id) || isSome (rt_settlements r !! id)) in
    check negb (other && running) else conflictError "Wait for active task work to finish";
    m_ret t
  end.
Definition revalidateTaskAction (original : Task) (action : TaskAction) : M unit :=
  go! current <- eligibleTask (Task_ID original) action in
  check Equal current original
    else conflictError "Task changed during remote checks; inspect its current state before trying again";
  m_ret tt.

(** ** Actions on a task *)

(** Cancelling the worker's context is left out. *)
Definition cancelTask (id : string) : M unit :=
  go! now <- time_now in
  go! _ <- m_write (fun a => a <| app_db := MarkCancel (Timestamp now) id (app_db a) |>) in
  go! now <- time_now in
  go! cancelled <- m_store (CancelTask (Timestamp now) id) in
  check cancelled
    else conflictError "Publication has started; inspect the task and reconcile unfinished publication.";
  m_ret tt.

Definition retried (now : string) (next : Task) : Task :=
  next <| Task_Attempts := u64_add (Task_Attempts next) 1 |> <| Task_ReviewBaseline := lenN (Task_Reviews next) |>
       <| Task_RepairRounds := Some 0 |> <| Task_RepairProgress := None |> <| Task_Error := None |>
       <| Task_BlockedReason := None |> <| Task_Status := StatusQueued |> <| Task_RunID := None |>
       <| Task_UpdatedAt := now |>.
(** The checks against the remote, for a task without an authorised commit. *)
Definition check_retry (original next : Task) : M unit :=
  if isSome (Task_OutputCommit original) then m_ret tt else
  go! preflightErr <- retryPreflight next in
  go! _ <- revalidateTaskAction original TaskActionRetry in
  go! live <- m_config s deployment in
  check bool_decide (Task_AttemptPolicy next = Some (PolicyOf live))
    else conflictError "Retry policy changed during remote checks; try again with the current limits";
  match preflightErr with
  | None => m_ret tt
  | Some err =>
    go! _ <- m_try (commitTaskLocked original (recordTaskError err next) TaskInspect) in
    m_fail err
  end.
Definition retryTask (t : Task) : M Task :=
  check Retryable (Task_Status t) else conflictError "Only failed or blocked tasks can be retried.";
  go! cfg <- m_config s deployment in
  check negb (Config_MaxRetries cfg <=? Task_Attempts t)
    else conflictError "Retry limit reached. Adjust the operating limit after inspecting the failure.";
  let next := t <| Task_AttemptPolicy := Some (PolicyOf cfg) |> in
  go! _ <- check_retry t next in
  go! now <- time_now in
  let next := retried (Timestamp now) next in
  go! now <- time_now in
  go! _ <- m_store (RetryTask redact_text policy_text s (Timestamp now) t next) in
  m_ret next.

Definition removeOwnedRoot (kind : cleanupKind) (id parent root : string) : M unit :=
  go! claimed <- claimCleanup kind id in
  check claimed
    else conflictError ("Workspace cleanup is already in progress for this " +:+ kind);
  go! err <- remove parent root in
  go! _ <- releaseCleanup kind id in
  m_opt err.
Definition discard (now : string) (t : Task) : Task :=
  t <| Task_Lifecycle := (Task_Lifecycle t) <| WorkspaceLifecycle_DiscardedAt := Some now |> |>.
(** The new contents of [*task]. *)
Definition discardTask (t : Task) : M Task :=
  check negb (Active (Task_Status t) || bool_decide (Task_Status t = StatusQueued))
    else Failed (New "Active or queued workspaces cannot be discarded");
  check negb (Discarded t) else conflictError "The task workspace was already discarded";
  go! _ <-
    (if bool_decide (Task_Workspace t = "") then m_ret tt else
     let parent := JoinPath [dataDir; "tasks"] in
     let owner := Dir (Clean (Task_Workspace t)) in
     check bool_decide (owner = JoinPath [parent; Task_ID t])
       else Failed (New "Cleanup path does not belong to this task");
     removeOwnedRoot cleanupTask (Task_ID t) parent owner) in
  go! current <- load_task (Task_ID t) in
  match current with
  | None => m_ret t
  | Some current =>
    check negb (Active (Task_Status current) || bool_decide (Task_Status current = StatusQueued))
      else conflictError "Task resumed work during workspace cleanup; inspect it before discarding";
    go! now <- time_now in
    go! saved <- commitTaskLocked current (discard (Timestamp now) current) TaskDiscard in
    go! _ <- clearCleanupReport cleanupTask (Task_ID t) in
    m_ret (t <| Task_Lifecycle := (Task_Lifecycle t)
        <| WorkspaceLifecycle_DiscardedAt := WorkspaceLifecycle_DiscardedAt (Task_Lifecycle saved) |> |>)
  end.

(** ** Reconciliation of a publication *)

Definition publication_error (outcome : joined) : option failure :=
  match joined_result outcome with
  | Ok _ => None
  | Err err =>
    if negb (joined_expired outcome) then Some err else
    if joined_cancelled outcome
    then Some (Failed (Errorf "Publication reconciliation was interrupted; reconcile again: %w"
                 [VWrap (Reason BlockedPublicationUncertain)]))
    else Some (Failed (Reason BlockedTimeout))
  end.
Definition reconcile_unauthorised (id : string) (t : Task) : M unit :=
  go! preflightErr <- retryPreflight t in
  go! _ <- revalidateTaskAction t TaskActionReconcile in
  let next :=
    match preflightErr with
    | None => t <| Task_BlockedReason := Some BlockedUnknown |>
                <| Task_Error := Some "Remote prerequisites are restored; task can be retried" |>
    | Some err => recordTaskError err t
    end in
  go! now <- time_now in
  go! _ <- m_store (ResetTaskCancellation t (next <| Task_UpdatedAt := Timestamp now |>)) in
  Event s id EventOperator (enum_String TaskActionReconcile).
(** The worker [j] of the publication. *)
Definition reconcile_publish (id : string) (previous : Status) (t : Task) (j : N) : M (option failure * option failure) :=
  go! outcome <- publish j t in
  match publication_error outcome, joined_result outcome with
  | None, Ok published =>
    go! saved <- m_try (publishedWorkerLocked s (live_config s deployment) Fingerprint (Some j) t published) in
    m_ret (None, m_is_err saved)
  | publishErr, _ =>
    let t := match publishErr with Some err => recordTaskError err t | None => t end in
    go! saved <- m_try (commitWorkerTaskLocked (Some j) (t <| Task_Status := previous |>) TaskSettlement) in
    go! _ <- (match saved with Ok saved => status_event s saved | Err _ => m_ret tt end) in
    m_ret (publishErr, m_is_err saved)
  end.
Definition reconcileLocked (id : string) (t : Task) : M unit :=
  go! baseline <- m_runtime (fun r => isSome (rt_baseline r)) in
  go! busy <- m_runtime (fun r => negb (N.of_nat (size (rt_tasks r)) =? 0)) in
  check negb baseline else conflictError "Wait for the baseline check to finish";
  check negb busy else conflictError "Wait for active tasks before publication reconciliation";
  if isNone (Task_OutputCommit t) then reconcile_unauthorised id t else
  go! live <- m_config s deployment in
  check bool_decide (Config_DeliveryMode (Task_Config t) = Config_DeliveryMode live)
        && bool_decide (Proposal_Category (Task_Proposal t) ∈ EffectiveCategories (Task_Config t))
    else invalidPlan (Errorf "Task %s was planned under an incompatible delivery mode or category" [VStr id]);
  go! now <- time_now in
  go! t' <- m_store (ResetTaskCancellation t (t <| Task_Status := StatusPublishing |> <| Task_UpdatedAt := Timestamp now |>)) in
  go! _ <- Event s id EventStatus (statusLabel StatusPublishing) in
  go! j <- registerTaskWorker t' reconciliationWorker in
  go! errors <- reconcile_publish id (Task_Status t) t' j in
  go! _ <- Event s id EventOperator (enum_String TaskActionReconcile) in
  go! _ <- finishTaskWorker s id (JoinErrors errors.1 errors.2) in
  m_opt errors.2.

(** ** The handlers *)

(** The switch of [TaskAction]: the new contents of [*task]. *)
Definition act (id : string) (t : Task) (action : TaskAction) : M Task :=
  match action with
  | TaskActionCancel => go! _ <- cancelTask id in m_ret t
  | TaskActionRetry => retryTask t
  | TaskActionSupersede =>
    go! now <- time_now in
    m_store (ResetTaskCancellation t
      (t <| Task_Status := StatusCancelled |> <| Task_RediscoveryRequested := true |>
         <| Task_RediscoveryResult := None |> <| Task_UpdatedAt := Timestamp now |>))
  | TaskActionArchive =>
    let next := if Retryable (Task_Status t) then t <| Task_Status := StatusCancelled |> else t in
    go! archived <- time_now in
    let next := next <| Task_Lifecycle := (Task_Lifecycle next)
                  <| WorkspaceLifecycle_ArchivedAt := Some (Timestamp archived) |> |> in
    go! now <- time_now in
    let next := next <| Task_UpdatedAt := Timestamp now |> in
    go! now <- time_now in
    go! _ <- m_store (ArchiveTask (Timestamp now) t next) in
    m_ret next
  | TaskActionDiscard => discardTask t
  | TaskActionReconcile => m_fail (NotFound "Unknown task action")
  end.
Definition TaskAction_ (id : string) (action : TaskAction) : M unit :=
  go! stop <- stopped in
  check negb stop else context_canceled;
  go! t <- eligibleTask id action in
  if bool_decide (action = TaskActionReconcile) then reconcileLocked id t else
  go! t <- act id t action in
  go! _ <- (if bool_decide (action = TaskActionCancel) || bool_decide (Task_Status t = StatusCancelled)
            then m_update (fun r => r <| rt_cancelScanDone := false |>) else m_ret tt) in
  Event s id EventOperator (enum_String action).

(** ** Actions on a cycle *)

Definition put_discarded (now : string) (c : Cycle) : Cycle :=
  c <| Cycle_Lifecycle := (Cycle_Lifecycle c) <| WorkspaceLifecycle_DiscardedAt := Some now |> |>.
Definition save_cycle (c : Cycle) : M unit := m_write (fun a => a <| app_db := put_cycle c (app_db a) |>).
Definition discardCycle (c : Cycle) : M unit :=
  check negb (bool_decide (Cycle_Status c = CycleRunning))
    else Failed (New "Running planning work cannot be discarded");
  check negb (isSome (WorkspaceLifecycle_DiscardedAt (Cycle_Lifecycle c)))
    else conflictError "The cycle workspaces were already discarded";
  check uuid_Parse (Cycle_ID c) else Failed (New "Invalid cycle workspace identity");
  let root := JoinPath [dataDir; "cycles"] in
  go! _ <- removeOwnedRoot cleanupCycle (Cycle_ID c) root (JoinPath [root; Cycle_ID c]) in
  go! current <- m_read (fun a => db_cycles (app_db a) !! Cycle_ID c) in
  match current with
  | None => m_ret tt
  | Some current =>
    check negb (bool_decide (Cycle_Status current = CycleRunning))
      else conflictError "Planning work restarted during workspace cleanup; inspect it before discarding";
    go! now <- time_now in
    go! _ <- save_cycle (put_discarded (Timestamp now) current) in
    clearCleanupReport cleanupCycle (Cycle_ID c)
  end.
Definition cycle_refusal (c : Cycle) (action : CycleAction) : failure :=
  if bool_decide (Cycle_Status c = CycleRunning) then conflictError "Wait for planning to finish" else
  if bool_decide (action = CycleActionArchive) then conflictError "The cycle is already archived" else
  if isSome (WorkspaceLifecycle_DiscardedAt (Cycle_Lifecycle c))
  then conflictError "The cycle workspaces were already discarded"
  else conflictError "Archive the cycle before discarding its workspace".
Definition CycleAction_ (id : string) (action : CycleAction) : M unit :=
  go! stop <- stopped in
  check negb stop else context_canceled;
  go! found <- m_read (fun a => db_cycles (app_db a) !! id) in
  match found with
  | None => m_fail (NotFound "Cycle not found")
  | Some c =>
    check bool_decide (action ∈ CycleActions (Cycle_Status c) (Cycle_Lifecycle c)) else cycle_refusal c action;
    go! claimed <- m_runtime (cleanupClaimed cleanupCycle id) in
    check negb claimed else conflictError "Workspace cleanup is in progress for this cycle; wait for it to finish";
    go! _ <-
      match action with
      | CycleActionArchive =>
        go! now <- time_now in
        save_cycle (c <| Cycle_Lifecycle := (Cycle_Lifecycle c)
          <| WorkspaceLifecycle_ArchivedAt := Some (Timestamp now) |> |>)
      | CycleActionDiscard => discardCycle c
      end in
    Event s id EventOperator (enum_String action)
  end.

(** ** Requests *)

Record RequestInput := mkRequestInput { Input_Title : string; Input_Description : string; Input_Target : string }.
Definition valid_title (title : string) : bool :=
  negb (slen title =? 0) && (slen title <=? 200) && negb (ContainsFunc title is_control).
Definition valid_description (description : string) : bool :=
  negb (slen description =? 0) && (slen description <=? 8000) && valid_utf8 description
  && negb (ContainsFunc description (fun r => is_control r && negb (r =? 10) && negb (r =? 9))).
Definition valid_request_target (cfg : Config) (target : string) : bool :=
  bool_decide (target = Config_DefaultBranch cfg)
  || (HasPrefix target (Config_BranchPrefix cfg) && ValidBranch target).
Definition fails_from {A} (f : failure -> failure) (m : M A) : M A :=
  go! r <- m_try m in match r with Ok x => m_ret x | Err err => m_fail (f err) end.
Definition CreateRequest_ (input : RequestInput) : M OperatorRequest :=
  go! stop <- stopped in
  check negb stop else context_canceled;
  go! cfg <- m_config s deployment in
  check ValidGitHubRepo (Config_GitHubRepo cfg)
    else conflictError "Save a GitHub repository before requesting work";
  let title := TrimSpace (Input_Title input) in
  check valid_title title
    else Failed (New "Request title must be 1–200 bytes without control characters");
  let description := TrimSpace (Input_Description input) in
  check valid_description description
    else Failed (New "Request description must be 1–8000 bytes without control characters other than newlines and tabs");
  check valid_request_target cfg (Input_Target input)
    else Failed (New "Request target must be the default branch or an owned pull request branch");
  go! now <- time_now in
  go! id <- new_id in
  let record := mkOperatorRequest id (Config_GitHubRepo cfg) title description (Input_Target input) RequestPending
                  (Timestamp now) (Timestamp now) None None in
  go! _ <- fails_from (fun err => if fails_with "request limit reached" err
      then conflictError "At most 20 requests can wait for planning; withdraw one or let a cycle assess them" else err)
    (m_store (CreateRequest record RequestPendingLimit)) in
  go! _ <- Event s id EventRequest ("Requested: " +:+ title) in
  m_ret record.
Definition RequestAction_ (id : string) (action : RequestAction) : M unit :=
  go! stop <- stopped in
  check negb stop else context_canceled;
  check bool_decide (action = RequestActionWithdraw) else NotFound "Unknown request action";
  go! found <- m_read (fun a => db_requests (app_db a) !! id) in
  match found with
  | None => m_fail (NotFound "Request not found")
  | Some current =>
    check bool_decide (OperatorRequest_Status current = RequestPending)
      else conflictError "Only pending requests can be withdrawn";
    go! busy <- m_runtime planning in
    check negb busy
      else codedConflict ActiveWorkConflict "Wait for planning to finish before withdrawing a request";
    go! now <- time_now in
    let next := current <| OperatorRequest_Status := RequestWithdrawn |> <| OperatorRequest_UpdatedAt := Timestamp now |> in
    go! _ <- fails_from (fun err => if fails_with "Operator request changed; reload requests and try again" err
        then conflictError (failure_text err) else err)
      (m_store (UpdateRequest (mkRequestUpdate current next))) in
    Event s id EventRequest "Withdrawn"
  end.
End actions.

(** * Properties *)

Section action_facts.
Context `{Unicode} `{World} (s : Store) (deployment : Deployment) (Fingerprint : Config -> result string error).
Context (dataDir : string) (policy_text : option AttemptPolicy -> string).
Context (retryPreflight : Task -> M (option failure)) (remove : string -> string -> M (option failure))
  (publish : N -> Task -> M joined).

Notation TaskAction_ := (TaskAction_ s deployment Fingerprint dataDir policy_text retryPreflight remove publish).

(** ** Eligibility *)

(** What owns a task: a worker, a settlement that waits, a merge check of its
    branch; the last is a cleanup, which also stops a cancellation. *)
Definition owned (id : string) (t : Task) (r : runtimeState) : bool :=
  isSome (rt_tasks r !! id) || isSome (rt_settlements r !! id) || bool_decide (Task_Branch t ∈ rt_merges r).
Definition eligible (id : string) (t : Task) (action : TaskAction) (r : runtimeState) : bool :=
  bool_decide (action ∈ AllowedActions t) && negb (cleanupClaimed cleanupTask id r)
  && (bool_decide (action = TaskActionCancel) || negb (owned id t r)).

Lemma wp_eligibleTask id action (Q : result Task failure -> App -> Prop) a :
  (forall t n, db_tasks (app_db a) !! id = Some t -> eligible id t action (app_runtime a) = true ->
     Q (Ok t) (a <| app_reads := n |>)) ->
  (forall err n, no_panic err ->
     match Get_error (app_reads a), db_tasks (app_db a) !! id with
     | None, Some t => eligible id t action (app_runtime a) = false
     | _, _ => True
     end -> Q (Err err) (a <| app_reads := n |>)) ->
  wp (eligibleTask id action) Q a.
Proof.
  intros K F. unfold eligibleTask. apply wp_bind. unfold wp at 1, load_task.
  destruct (Get_error _); [by apply F|]. cbn [fst snd]. destruct (db_tasks (app_db a) !! id) as [t|]; [|by apply F].
  assert (forall n, eligible id t action (app_runtime a) = true -> Q (Ok t) (a <| app_reads := n |>)) as Y by auto.
  assert (forall err n, no_panic err -> eligible id t action (app_runtime a) = false ->
            Q (Err err) (a <| app_reads := n |>)) as N by auto.
  clear K F. generalize (S (app_reads a)). intros n. unfold eligible, owned in Y, N.
  destruct (bool_decide (action ∈ _)); [|cbn [andb] in N; by apply N]. wp_go.
  change (app_runtime (a <| app_reads := n |>)) with (app_runtime a).
  destruct (bool_decide (action = _)); cbn [negb andb orb] in *.
  - wp_go. destruct (cleanupClaimed _ _ _); cbn [negb andb] in *; wp_go; [by apply N|by apply Y].
  - destruct (bool_decide (Task_Branch t ∈ _)); cbn [negb andb orb] in *; wp_go.
    { apply N; [done|]. by rewrite orb_true_r, andb_false_r. }
    destruct (cleanupClaimed _ _ _); cbn [negb andb] in *; wp_go; [by apply N|].
    rewrite orb_false_r in Y, N. destruct (_ || _); cbn [negb] in *; wp_go; [by apply N|by apply Y].
Qed.

(** C22: an operator cannot pull a task from under its owner.  While a task
    has a running worker, a settlement that waits to be saved, a merge check on
    its branch, or a cleanup of its workspace, every action on it other than a
    cancellation is refused, without a panic, and changes nothing: neither the
    database nor the engine's memory.  A cancellation is refused by a cleanup
    alone. *)
Theorem TaskAction_respects_owners id t action a :
  db_tasks (app_db a) !! id = Some t ->
  cleanupClaimed cleanupTask id (app_runtime a)
  || (negb (bool_decide (action = TaskActionCancel)) && owned id t (app_runtime a)) = true ->
  wp (TaskAction_ id action) (fun r a' => exists err n, r = Err err /\ no_panic err /\ a' = a <| app_reads := n |>) a.
Proof.
  intros L Ow. unfold Actions.TaskAction_. wp_go. destruct (stops _); cbn [negb]; wp_go; [by eexists _, _|].
  assert (eligible id t action (app_runtime a) = false) as El;
    [|apply wp_eligibleTask; [|intros err n N _; by eexists _, _]].
  2: { change (app_db (a <| app_reads := _ |>)) with (app_db a). rewrite L. intros ? n [= <-].
       change (app_runtime (a <| app_reads := _ |>)) with (app_runtime a). congruence. }
  unfold eligible. destruct (bool_decide (action ∈ _)); [|done]. apply orb_true_iff in Ow as [->|Ow]; [done|].
  apply andb_true_iff in Ow as [N ->]. apply negb_true_iff in N as ->. by rewrite andb_false_r.
Qed.

(** ** A retry *)

Lemma wp_check_retry t next a :
  wp (check_retry s deployment retryPreflight t next) (fun r a' => r = Ok tt ->
    (isSome (Task_OutputCommit t) = true /\ a' = a)
    \/ (eligible (Task_ID t) t TaskActionRetry (app_runtime a') = true
        /\ Task_AttemptPolicy next = Some (PolicyOf (live_config s deployment (app_db a'))))) a.
Proof.
  unfold check_retry. destruct (isSome _); [wp_go; by left|]. apply wp_bind, wp_intro. intros [perr|e] a1 _; [|done].
  apply wp_bind. unfold revalidateTaskAction. apply wp_bind, wp_eligibleTask; [|by intros].
  intros c n L El. destruct (Equal c t) eqn:Eq; [|by wp_go].
  apply Equal_true in Eq as ->. wp_go. unfold m_config. wp_go. case_bool_decide as Po; [|by wp_go].
  destruct perr as [err|]; [|wp_go; by right]. apply wp_bind, wp_intro. intros [x|e] a2 _; by wp_go.
Qed.

(** Nothing but tasks, markers and events changes when a retry commits. *)
Lemma RetryTask_Ok now t next db u db' :
  RetryTask redact_text policy_text s now t next db = (Ok u, db') ->
  db_tasks db !! Task_ID t = Some t /\ Task_ID next = Task_ID t /\
  db_tasks db' = <[Task_ID t := next]> (db_tasks db) /\ CancelMarked (Task_ID t) db' = false /\
  db_configs db' = db_configs db.
Proof.
  intros C. destruct u. apply transaction_Ok in C. unfold txRepositoryEvent in C.
  apply tx_bind_Ok in C as (? & db1 & W%tx_write_Ok & C). subst db1.
  apply tx_bind_Ok in C as (saved & db2 & K%txCommitTask_Ok & C). tx_open.
  destruct K as [(current & L & V & Cs) I ->]. destruct Cs as [[-> ->]|(_ & _ & Abs & _)]; [|discriminate].
  split_and!; try done.
  - etrans; [apply put_task_tasks|]. by rewrite I.
  - unfold CancelMarked, marker. etrans.
    { exact (f_equal (fun m => match m !! Task_ID t with Some (Some _) => true | _ => false end)
        (put_task_cancel next (put_cancel (Task_ID next) None db))). }
    simpl. by rewrite I, lookup_insert_eq.
  - exact (proj2 (proj2 (proj2 (put_task_budget next (put_cancel (Task_ID next) None db))))).
Qed.

(** C23: what a retry saves is exactly the retry of the record the operator
    acted on.  Whatever ran while the remote checks had the gate open, a retry
    that succeeds found the same saved record before and after them; it is
    saved as queued with one more attempt, a fresh repair budget and the
    present limits, below the retry limit, with no cancellation marker left;
    and at that moment the action was eligible and nothing owned the task. *)
Theorem retry_exact id t a :
  db_tasks (app_db a) !! id = Some t -> Task_ID t = id ->
  wp (TaskAction_ id TaskActionRetry) (fun r a' => r = Ok tt ->
    let policy := PolicyOf (live_config s deployment (app_db a')) in
    (exists now, db_tasks (app_db a') !! id = Some (retried now (t <| Task_AttemptPolicy := Some policy |>)))
    /\ Task_Attempts t < Config_MaxRetries (live_config s deployment (app_db a))
    /\ CancelMarked id (app_db a') = false
    /\ eligible id t TaskActionRetry (app_runtime a') = true) a.
Proof.
  intros L <-. unfold Actions.TaskAction_. wp_go. destruct (stops _); cbn [negb]; wp_go; [done|].
  set (a1 := a <| app_reads := _ |>). apply wp_eligibleTask; [|by intros]. change (app_db a1) with (app_db a). rewrite L.
  intros u k [= <-] El. change (app_runtime a1) with (app_runtime a) in El.
  subst a1. set (a1 := a <| app_reads := _ |> <| app_reads := _ |>).
  change (bool_decide (TaskActionRetry = TaskActionReconcile)) with false. cbv iota. unfold act, retryTask. wp_step.
  destruct (Retryable _); [|by wp_go]. unfold m_config at 1. wp_go. change (app_db a1) with (app_db a).
  set (cfg := live_config s deployment (app_db a)). destruct (Config_MaxRetries cfg <=? Task_Attempts t) eqn:Lim; [by wp_go|].
  cbn [negb]. apply N.leb_gt in Lim. wp_go. set (next := t <| Task_AttemptPolicy := _ |>).
  eapply wp_mono; [apply wp_check_retry|]. intros [[]|err] a2 Chk; [|by intros]. specialize (Chk eq_refl).
  assert (eligible (Task_ID t) t TaskActionRetry (app_runtime a2) = true
          /\ Some (PolicyOf cfg) = Some (PolicyOf (live_config s deployment (app_db a2)))) as [El2 Po].
  { destruct Chk as [[_ ->]|Chk]; [by split|exact Chk]. }
  wp_go. apply wp_store. intros r db C. destruct r as [u|e]; [|by intros]. apply RetryTask_Ok in C as (L2 & I & T & Mk & Cf).
  match type of T with context [retried ?n next] => set (now := n) in * end.
  wp_go. change (bool_decide (TaskActionRetry = TaskActionCancel)) with false.
  change (bool_decide (Task_Status (retried now next) = StatusCancelled)) with false. cbn [orb]. wp_go. apply wp_event.
  intros events n _. cbv zeta.
  assert (live_config s deployment db = live_config s deployment (app_db a2)) as Lv
    by (unfold live_config, storedConfig; by rewrite Cf).
  change (live_config s deployment (app_db _)) with (live_config s deployment db). rewrite Lv.
  assert (PolicyOf (live_config s deployment (app_db a2)) = PolicyOf cfg) as -> by congruence.
  split; [|split; [exact Lim|split; [exact Mk|exact El2]]].
  exists now. change (db_tasks (app_db _)) with (db_tasks db). rewrite T. apply lookup_insert_eq.
Qed.

(** ** Offered actions *)

Definition is_retained (t : Task) : bool := negb (Archived t) && negb (Discarded t).
Lemma AllowedActions_cancel t :
  TaskActionCancel ∈ AllowedActions t ->
  is_retained t = true /\ isSome (Task_OutputCommit t) = false /\
  Task_Status t <> StatusPublishing /\ Task_Status t <> StatusPublished.
Proof.
  unfold AllowedActions, is_retained. destruct (Archived t); [by destruct (Discarded t); set_solver|].
  case_bool_decide as P; [set_solver|]. case_bool_decide as C; [by destruct_cond; set_solver|].
  destruct (Discarded t); [by set_solver|]. case_bool_decide as G; cbn [orb]; [set_solver|].
  destruct (Task_OutputCommit t); [|done].
  destruct (Retryable _); cbn [negb isNone]; [|set_solver]. destruct (default _ _); set_solver.
Qed.
Lemma AllowedActions_supersede t :
  TaskActionSupersede ∈ AllowedActions t ->
  is_retained t = true /\ (Retryable (Task_Status t) || bool_decide (Task_Status t = StatusCancelled)) = true.
Proof.
  unfold AllowedActions, is_retained. destruct (Archived t); [by destruct (Discarded t); set_solver|].
  case_bool_decide as P; [set_solver|]. case_bool_decide as C; [|].
  { destruct (Discarded t); [cbn; set_solver|]. intros _. by rewrite orb_true_r. }
  destruct (Discarded t); [by set_solver|]. case_bool_decide as G; cbn [orb]; [set_solver|].
  destruct (Retryable _); cbn [negb]; [done|]. destruct (isNone _); set_solver.
Qed.
Lemma AllowedActions_archive t :
  TaskActionArchive ∈ AllowedActions t ->
  Archived t = false /\ Active (Task_Status t) = false /\ Task_Status t <> StatusQueued.
Proof.
  unfold AllowedActions. destruct (Archived t); [by destruct (Discarded t); set_solver|].
  case_bool_decide as P; [by rewrite P|]. case_bool_decide as C; [by rewrite C|].
  destruct (_ || _); [set_solver|]. destruct (Retryable _) eqn:R; cbn [negb]; [|destruct (isNone _); set_solver].
  intros _. unfold Retryable in R. by destruct (Task_Status t).
Qed.

Lemma retained_orb t : is_retained t = true -> Archived t || Discarded t = false.
Proof. unfold is_retained. intros R. bool_hyps. by apply orb_false_iff. Qed.
Lemma supersede_accepted now t :
  TaskActionSupersede ∈ AllowedActions t ->
  ValidateTaskChange t (t <| Task_Status := StatusCancelled |> <| Task_RediscoveryRequested := true |>
    <| Task_RediscoveryResult := None |> <| Task_UpdatedAt := now |>) TaskResolve false = Ok tt.
Proof.
  intros [R S]%AllowedActions_supersede. apply retained_orb in R. apply accepted_ValidateTaskChange. split.
  - unfold same_identity. rewrite !bool_decide_eq_true_2 by reflexivity. by rewrite !Equal_refl.
  - by intros c E.
  - by intros E.
  - intros W. congruence.
  - unfold transition_valid. cbn [Task_Status Task_OutputCommit]. unfold same_status. by rewrite S, orb_true_r.
  - discriminate.
  - destruct t. vm_compute. reflexivity.
Qed.
(** The record [act] saves for an archive. *)
Definition archived_task (archived now : string) (t : Task) : Task :=
  (if Retryable (Task_Status t) then t <| Task_Status := StatusCancelled |> else t)
    <| Task_Lifecycle := (Task_Lifecycle t) <| WorkspaceLifecycle_ArchivedAt := Some archived |> |>
    <| Task_UpdatedAt := now |>.
Lemma archive_validated archived now t marked :
  TaskActionArchive ∈ AllowedActions t ->
  ValidateTaskChange t (archived_task archived now t) TaskArchive marked =
    if Discarded t then Err (New "Task workspaces are no longer eligible for this change") else Ok tt.
Proof.
  intros (Ar & Ac & Q)%AllowedActions_archive. destruct (Discarded t) eqn:D.
  - unfold ValidateTaskChange. assert (same_identity t (archived_task archived now t) = true) as ->.
    { unfold same_identity, archived_task. destruct (Retryable _); rewrite !bool_decide_eq_true_2 by reflexivity;
        by rewrite !Equal_refl. }
    assert (Task_OutputCommit (archived_task archived now t) = Task_OutputCommit t) as ->
      by (unfold archived_task; by destruct (Retryable _)).
    by rewrite Equal_refl, !andb_false_r, Ar, D.
  - apply accepted_ValidateTaskChange. unfold archived_task. split.
    + unfold same_identity. destruct (Retryable _); rewrite !bool_decide_eq_true_2 by reflexivity; by rewrite !Equal_refl.
    + intros c E. by destruct (Retryable _).
    + by intros.
    + rewrite Ar, D. discriminate.
    + unfold transition_valid, same_status. rewrite Ac, (bool_decide_eq_false_2 _ Q).
      destruct (Retryable (Task_Status t)); cbn; [|by rewrite bool_decide_eq_true_2].
      by rewrite (bool_decide_eq_true_2 (StatusCancelled = StatusCancelled)), orb_true_r.
    + discriminate.
    + destruct (Retryable _); destruct t; vm_compute; reflexivity.
Qed.

Ltac record_action := destruct (_ || _); wp_go; apply wp_event; intros; reflexivity.

(** What is offered is accepted.  When an operator cancels, supersedes or
    archives a task, the action is among those offered for its saved record
    and nothing owns the task, the lifecycle policy accepts it and it is
    carried out; except that the archive of a task whose workspace is gone,
    which is offered too, is refused. *)
Theorem offered_action_accepted id t action a :
  db_tasks (app_db a) !! id = Some t -> Task_ID t = id -> stops (app_reads a) = false ->
  Get_error (S (app_reads a)) = None -> eligible id t action (app_runtime a) = true ->
  action ∈ [TaskActionCancel; TaskActionSupersede; TaskActionArchive] ->
  wp (TaskAction_ id action) (fun r a' =>
    if bool_decide (action = TaskActionArchive) && Discarded t
    then r = Err (Failed (Errorf "%w: %w" [VWrap ErrTaskInvalid;
                   VWrap (New "Task workspaces are no longer eligible for this change")]))
         /\ app_db a' = app_db a
    else r = Ok tt) a.
Proof.
  intros L <- St Ge El In. unfold Actions.TaskAction_. wp_go. rewrite St. cbn [negb]. wp_go.
  apply wp_eligibleTask; change (app_db (a <| app_reads := _ |>)) with (app_db a); rewrite L;
    change (app_runtime (a <| app_reads := _ |>)) with (app_runtime a).
  2: { intros err n _. change (app_reads (a <| app_reads := _ |>)) with (S (app_reads a)). rewrite Ge. congruence. }
  intros u k [= <-] _. set (a1 := a <| app_reads := _ |> <| app_reads := _ |>).
  assert (action ∈ AllowedActions t) as Al.
  { unfold eligible in El. by bool_hyps. }
  apply elem_of_cons in In as [->|In]; [|apply elem_of_cons in In as [->|In]; [|apply list_elem_of_singleton in In as ->]].
  - change (bool_decide (TaskActionCancel = TaskActionReconcile)) with false.
    change (bool_decide (TaskActionCancel = TaskActionArchive)) with false. cbv iota. cbn [andb]. unfold act, cancelTask. wp_go.
    apply wp_store. intros r db C. destruct (AllowedActions_cancel _ Al) as (Rt & O & P1 & P2).
    rewrite (CancelTask_outcome _ _ t) in C; [|exact L|done|by apply retained_orb].
    rewrite O, (bool_decide_eq_false_2 _ P1), (bool_decide_eq_false_2 _ P2) in C. injection C as <- <-. wp_go. record_action.
  - change (bool_decide (TaskActionSupersede = TaskActionReconcile)) with false.
    change (bool_decide (TaskActionSupersede = TaskActionArchive)) with false. cbv iota. cbn [andb]. unfold act. wp_go.
    apply wp_store. intros r db C. unfold ResetTaskCancellation, transaction, tx_bind at 1, tx_write at 1 in C.
    rewrite txCommitTask_accepts in C; [|exact L|done|done].
    match type of C with context [marker ?i ?d] => replace (marker i d) with false in C by
      (unfold marker; cbn; by rewrite lookup_insert_eq) end.
    rewrite supersede_accepted in C by done. injection C as <- <-. wp_go. record_action.
  - change (bool_decide (TaskActionArchive = TaskActionReconcile)) with false.
    change (bool_decide (TaskActionArchive = TaskActionArchive)) with true. cbv iota. cbn [andb]. unfold act. wp_go.
    apply wp_store. intros r db C. unfold ArchiveTask, transaction, tx_bind at 1 in C.
    match type of C with context [txCommitTask t ?n] => set (next := n) in * end.
    assert (exists x y, next = archived_task x y t) as (x & y & ->).
    { eexists _, _. unfold next, archived_task. by destruct (Retryable _). }
    rewrite txCommitTask_accepts in C; [|exact L|unfold archived_task; by destruct (Retryable _)|done].
    rewrite archive_validated in C by done. destruct (Discarded t).
    + injection C as <- <-. by split.
    + unfold txRevokeTaskMerges, tx_write in C. injection C as <- <-. wp_go. record_action.
Qed.
End action_facts.

(** ** Witnesses *)

Definition no_remote : Task -> M (option failure) := fun _ => m_ret None.
Definition no_remove : string -> string -> M (option failure) := fun _ _ => m_ret None.
Definition no_publish : N -> Task -> M joined := fun _ _ => m_ret (mkJoined true false (Err (Failed (New "")))).
Definition sample_action : string -> TaskAction -> M unit :=
  TaskAction_ sample_store no_pin (fun _ => Ok "") "/data" (fun _ => "") no_remote no_remove no_publish.

Lemma TaskAction_respects_owners_witness :
  wp (sample_action "t" TaskActionArchive)
     (fun r a' => exists err n, r = Err err /\ no_panic err /\ a' = running_app <| app_reads := n |>) running_app.
Proof.
  apply (TaskAction_respects_owners sample_store no_pin (fun _ => Ok "") "/data" (fun _ => "") no_remote no_remove no_publish
    "t" (executing_task "t") TaskActionArchive running_app); vm_compute; reflexivity.
Defined.

Definition failed_app : App := new_app (task_db (failed_task "t")).
Definition retried_app : App := snd (sample_action "t" TaskActionRetry failed_app).
Lemma retry_exact_witness :
  CancelMarked "t" (app_db retried_app) = false
  /\ Task_Attempts <$> db_tasks (app_db retried_app) !! "t" = Some 1.
Proof.
  split; [|vm_compute; reflexivity].
  apply (retry_exact sample_store no_pin (fun _ => Ok "") "/data" (fun _ => "") no_remote no_remove no_publish
    "t" (failed_task "t") failed_app); [vm_compute; reflexivity..|].
  vm_compute. reflexivity.
Defined.

Definition retained_task : Task := discard "2026-02-01T00:00:00Z" ((sample_task "t") <| Task_Status := StatusPublished |>).
Definition retained_app : App := new_app (task_db retained_task).
(** The archive of a published task whose workspace retention removed. *)
Lemma offered_action_accepted_witness :
  TaskActionArchive ∈ AllowedActions retained_task /\
  fst (sample_action "t" TaskActionArchive retained_app)
  = Err (Failed (Errorf "%w: %w" [VWrap ErrTaskInvalid; VWrap (New "Task workspaces are no longer eligible for this change")])).
Proof.
  split; [left|].
  apply (offered_action_accepted sample_store no_pin (fun _ => Ok "") "/data" (fun _ => "") no_remote no_remove no_publish
    "t" retained_task TaskActionArchive retained_app); try (vm_compute; reflexivity).
  right. right. left.
Defined.
