(* ===== verification/NetIP.v ===== *)
(** * IP addresses ([net/netip])

    The part of the standard library's [net/netip] the gateway relies on: which
    texts are IP literals, the classes of an address, and prefixes.  An address
    is a number with its width, an IPv6 one with its zone. *)
From S2P Require Import Prelude GoStrings Utf8.
Local Open Scope string_scope.
Local Open Scope list_scope.
Local Open Scope N_scope.

(** ** Literals *)

(** A decimal field: up to 255, without leading zeros. *)
Definition ipv4_field (l : list ascii) : bool :=
  match l with
  | [] => false
  | c :: t =>
      match parse_digits 0 l with
      | Some n => (n <=? 255) && (bool_decide (t = []) || negb (bool_decide (c = "0"%char)))
      | None => false
      end
  end.
(** [parseIPv4]: four fields. *)
Definition parse_ipv4 (l : list ascii) : bool :=
  let fields := split_chars (is_char "."%char) l in
  (List.length fields =? 4)%nat && forallb ipv4_field fields.

Definition hex_digit (c : ascii) : bool :=
  let n := N_of_ascii c in in_range 48 57 n || in_range 97 102 n || in_range 65 70 n.
(** The hexadecimal digits at the front of [l], and what follows. *)
Fixpoint hex_run (l : list ascii) : nat * list ascii :=
  match l with
  | [] => (0%nat, [])
  | c :: t => if hex_digit c then let '(n, r) := hex_run t in (S n, r) else (0%nat, l)
  end.
(** The groups of an IPv6 address: [i] is the number of bytes filled,
    [ellipsis] whether [::] was seen; the answer is the final [i] and
    [ellipsis], or [None] for an error. *)
Fixpoint ipv6_groups (fuel : nat) (i : N) (ellipsis : bool) (s : list ascii) : option (N * bool) :=
  match fuel with
  | O => match s with [] => Some (i, ellipsis) | _ => None end
  | S fuel =>
    if 16 <=? i then match s with [] => Some (i, ellipsis) | _ => None end else
    let '(off, rest) := hex_run s in
    if (4 <? off)%nat || (off =? 0)%nat then None else
    match rest with
    | [] => Some (i + 2, ellipsis)
    | c :: after =>
      if is_char "."%char c then
        if (negb ellipsis && negb (i =? 12)) || (16 <? i + 4) || negb (parse_ipv4 s) then None
        else Some (i + 4, ellipsis)
      else if negb (is_char ":"%char c) then None else
      match after with
      | [] => None
      | c2 :: after2 =>
        if is_char ":"%char c2 then
          if ellipsis then None else
          match after2 with
          | [] => Some (i + 2, true)
          | _ => ipv6_groups fuel (i + 2) true after2
          end
        else ipv6_groups fuel (i + 2) ellipsis after
      end
    end
  end.
Definition parse_ipv6 (l : list ascii) : bool :=
  let '(s, zone) := match cut_chars "%"%char l with
                    | Some (s, zone) => (s, Some zone)
                    | None => (l, None)
                    end in
  if bool_decide (zone = Some []) then false else
  let '(s, ellipsis) := match s with
                        | c1 :: c2 :: t => if is_char ":"%char c1 && is_char ":"%char c2 then (t, true) else (s, false)
                        | _ => (s, false)
                        end in
  if ellipsis && bool_decide (s = []) then true else
  match ipv6_groups 8 0 ellipsis s with
  | None => false
  | Some (i, ellipsis) => if i <? 16 then ellipsis else negb ellipsis
  end.
(** [netip.ParseAddr(s)] succeeds: the first of [.], [:] and [%] decides. *)
Fixpoint literal_kind (l : list ascii) : option ascii :=
  match l with
  | [] => None
  | c :: t => if bool_decide (c ∈ ["."%char; ":"%char; "%"%char]) then Some c else literal_kind t
  end.
Definition IsAddr (s : string) : bool :=
  match literal_kind (chars s) with
  | Some c => if is_char "."%char c then parse_ipv4 (chars s)
              else if is_char ":"%char c then parse_ipv6 (chars s) else false
  | None => false
  end.

Example literals :
  map IsAddr ["127.0.0.1"; "1.2.3.256"; "01.2.3.4"; "1.2.3"; "::1"; "::"; "fe80::1%eth0"; "1::2::3";
              "::ffff:10.0.0.1"; "1:2:3:4:5:6:7:8"; "1:2:3:4:5:6:7:8:9"; "1:2:3:4:5:6:7::"; "12345::"; "a.example"; "::1%"]
  = [true; false; false; false; true; true; true; false; true; true; false; true; false; false; false].
Proof. vm_compute. reflexivity. Qed.

(** ** Addresses *)

Inductive Addr := NoAddr | V4 (a : N) | V6 (a : N) (zone : string).
#[export] Instance Addr_eq_dec : EqDecision Addr.
Proof. solve_decision. Defined.

(** The first [bits] of a [width]-bit number. *)
Definition top (width bits a : N) : N := N.shiftr a (width - bits).
Definition Unmap (addr : Addr) : Addr :=
  match addr with
  | V6 a _ => if N.shiftr a 32 =? 65535 then V4 (N.land a (N.ones 32)) else addr
  | _ => addr
  end.
Definition IsValid (addr : Addr) : bool := match addr with NoAddr => false | _ => true end.
Definition Is6 (addr : Addr) : bool := match addr with V6 _ _ => true | _ => false end.
(** The classes, on an address that is not IPv4-mapped. *)
Definition IsUnspecified (addr : Addr) : bool := bool_decide (addr = V4 0) || bool_decide (addr = V6 0 "").
Definition IsLoopback (addr : Addr) : bool :=
  match addr with V4 a => top 32 8 a =? 127 | V6 a _ => a =? 1 | NoAddr => false end.
Definition IsPrivate (addr : Addr) : bool :=
  match addr with
  | V4 a => (top 32 8 a =? 10) || (top 32 12 a =? 172 * 16 + 1) || (top 32 16 a =? 192 * 256 + 168)
  | V6 a _ => top 128 7 a =? 126
  | NoAddr => false
  end.
Definition IsMulticast (addr : Addr) : bool :=
  match addr with V4 a => top 32 4 a =? 14 | V6 a _ => top 128 8 a =? 255 | NoAddr => false end.
Definition IsLinkLocalUnicast (addr : Addr) : bool :=
  match addr with V4 a => top 32 16 a =? 169 * 256 + 254 | V6 a _ => top 128 10 a =? 1018 | NoAddr => false end.
Definition IsLinkLocalMulticast (addr : Addr) : bool :=
  match addr with
  | V4 a => top 32 24 a =? 224 * 65536
  | V6 a _ => N.land (top 128 16 a) 65295 =? 65282
  | NoAddr => false
  end.
Definition IsInterfaceLocalMulticast (addr : Addr) : bool :=
  match addr with V6 a _ => N.land (top 128 16 a) 65295 =? 65281 | _ => false end.
Definition IsGlobalUnicast (addr : Addr) : bool :=
  match addr with
  | NoAddr => false
  | V4 a => negb ((a =? 0) || (a =? N.ones 32))
            && negb (IsLoopback addr || IsMulticast addr || IsLinkLocalUnicast addr)
  | V6 _ _ => negb (IsUnspecified addr || IsLoopback addr || IsMulticast addr || IsLinkLocalUnicast addr)
  end.

(** ** Prefixes *)

Inductive Prefix := P4 (a bits : N) | P6 (a bits : N).
(** [p.Contains(addr)]: same family, no zone, same leading bits. *)
Definition Contains_addr (p : Prefix) (addr : Addr) : bool :=
  match p, addr with
  | P4 p bits, V4 a => top 32 bits a =? top 32 bits p
  | P6 p bits, V6 a zone => bool_decide (zone = "") && (top 128 bits a =? top 128 bits p)
  | _, _ => false
  end.
Definition ip4 (a b c d : N) : N := ((a * 256 + b) * 256 + c) * 256 + d.
(** The address whose first groups are [gs], the others zero. *)
Definition ip6 (gs : list N) : N :=
  foldl (fun acc g => acc * 65536 + g) 0 (gs ++ repeat 0 (8 - List.length gs)).

(** A prefix is an interval of numbers. *)
Lemma top_interval width bits a p :
  bits <= width -> (top width bits a =? top width bits p) = true <->
  let lo := p / 2 ^ (width - bits) * 2 ^ (width - bits) in
  lo <= a < lo + 2 ^ (width - bits).
Proof.
  intros B. unfold top. rewrite !N.shiftr_div_pow2, N.eqb_eq. set (m := 2 ^ (width - bits)). simpl.
  assert (m <> 0) as M by (by apply N.pow_nonzero). split.
  - intros <-. pose proof (N.div_mod a m M). pose proof (N.mod_lt a m M). nia.
  - intros [L U]. symmetry. apply (N.div_unique a m _ (a - p / m * m)); nia.
Qed.
