(* ===== verification/Wire.v ===== *)
(** * The sandbox contract ([internal/sandbox/wire/wire.go])

    Host names, the probe target, and the framed stream between the control
    plane and the sandbox broker.  Bytes are [ascii] characters; a reader is
    the list of the bytes it still holds before it reports the end, a writer
    the list of the bytes written so far. *)
From S2P Require Import Prelude GoStrings Utf8 GoErrors NetIP Config.
Local Open Scope string_scope.
Local Open Scope list_scope.
Local Open Scope N_scope.

(** ** Host names *)

(** The regular expression [^[a-z0-9]([a-z0-9-]{0,61}[a-z0-9])?$]. *)
Definition label_edge (c : ascii) : bool :=
  let n := N_of_ascii c in in_range 97 122 n || in_range 48 57 n.
Definition label_char (c : ascii) : bool := label_edge c || bool_decide (c = "-"%char).
Definition hostLabel (l : list ascii) : bool :=
  match l, last l with
  | c :: _, Some d => label_edge c && label_edge d && forallb label_char l && (lenN l <=? 63)
  | _, _ => false
  end.
Definition ValidLabel (label : string) : bool := hostLabel (chars label).

Section hosts.
Context `{Unicode}.

Definition NormalizeHost (host : string) : result string error :=
  let host := TrimSuffix (ToLower host) "." in
  guard negb (bool_decide (host = "") || (253 <? slen host)) else New "host name length";
  guard negb (IsAddr (Trim host "[]")) else New "IP literal";
  let labels := Split host "."%char in
  guard negb (lenN labels <? 2) else New "single-label host";
  guard forallb ValidLabel labels else New "invalid host name";
  Ok host.

(** [net.SplitHostPort]; [None] is an error. *)
Definition last_colon (l : list ascii) : option (list ascii * list ascii) :=
  match cut_chars ":"%char (rev l) with
  | Some (port, host) => Some (rev host, rev port)
  | None => None
  end.
Definition has_char (c : ascii) (l : list ascii) : bool := bool_decide (c ∈ l).
Definition SplitHostPort (hostport : string) : option (string * string) :=
  match last_colon (chars hostport) with
  | None => None
  | Some (before, port) =>
    match before with
    | "["%char :: rest =>
      match cut_chars "]"%char rest with
      | Some (host, []) => if has_char "["%char (host ++ port) || has_char "]"%char port then None
                           else Some (str host, str port)
      | _ => None
      end
    | _ => if has_char ":"%char before || has_char "["%char (before ++ port) || has_char "]"%char (before ++ port)
           then None else Some (str before, str port)
    end
  end.
Definition ValidProbeTarget (target : string) : bool :=
  match SplitHostPort target with
  | None => false
  | Some (host, port) =>
    if negb (bool_decide (port = "443")) then false else
    match NormalizeHost host with
    | Ok normalized => bool_decide (normalized = host)
    | Err _ => false
    end
  end.
End hosts.

(** ** The framed stream *)

Definition FrameStdin : N := 1.
Definition FrameStdinEOF : N := 2.
Definition FrameStdout : N := 3.
Definition FrameStderr : N := 4.
Definition FrameExit : N := 5.
Definition FrameSignal : N := 6.
Definition maxFrame : N := 1048576.
Definition dataChunk : N := 32768.
Definition errFrameTooLarge : error := New "Sandbox stream frame exceeds its size limit".
Definition EOF : error := New "EOF".
Definition ErrUnexpectedEOF : error := New "unexpected EOF".

Definition val (c : ascii) : N := N_of_ascii c.
(** [binary.BigEndian.Uint32] and [PutUint32]. *)
Definition be (l : list ascii) : N := foldl (fun acc c => acc * 256 + val c) 0 l.
Definition put_uint32 (n : N) : list ascii :=
  [byte_of (N.shiftr n 24); byte_of (N.shiftr n 16); byte_of (N.shiftr n 8); byte_of n].

(** [io.ReadFull(r, buf)] with [len(buf) = n] on a reader that ends with EOF:
    the bytes and the rest of the stream. *)
Definition ReadFull (n : nat) (r : list ascii) : result (list ascii * list ascii) error :=
  if (n =? 0)%nat then Ok ([], r) else
  match r with
  | [] => Err EOF
  | _ => if (List.length r <? n)%nat then Err ErrUnexpectedEOF else Ok (take n r, drop n r)
  end.

Definition ReadFrame (r : list ascii) : result (N * list ascii * list ascii) error :=
  let! read := ReadFull 5 r in
  let '(header, r) := read in
  let size := be (tail header) in
  guard negb (maxFrame <? size) else errFrameTooLarge;
  match ReadFull (N.to_nat size) r with
  | Err _ => Err ErrUnexpectedEOF
  | Ok (payload, r) => Ok (default 0 (val <$> head header), payload, r)
  end.

(** [FrameWriter.Frame] on a writer that accepts every byte. *)
Definition Frame (w : list ascii) (kind : N) (payload : list ascii) : result (list ascii) error :=
  guard negb (maxFrame <? lenN payload) else errFrameTooLarge;
  Ok (w ++ byte_of kind :: put_uint32 (lenN payload mod 4294967296) ++ payload).
(** [FrameWriter.Data], with the bytes written so far. *)
Fixpoint data_loop (fuel : nat) (w : list ascii) (kind : N) (p : list ascii) (written : N)
    : option (result (list ascii * N) error) :=
  match p with
  | [] => Some (Ok (w, written))
  | _ =>
    match fuel with
    | O => None
    | S fuel =>
      let n := N.min (lenN p) dataChunk in
      match Frame w kind (take (N.to_nat n) p) with
      | Err e => Some (Err e)
      | Ok w => data_loop fuel w kind (drop (N.to_nat n) p) (written + n)
      end
    end
  end.
Definition Data (w : list ascii) (kind : N) (p : list ascii) : option (result (list ascii * N) error) :=
  data_loop (List.length p) w kind p 0.

Example host_ok : NormalizeHost "API.Example.com." = Ok "api.example.com".
Proof. vm_compute. reflexivity. Qed.
Example host_literal : NormalizeHost "[10.0.0.1]" = Err (New "IP literal").
Proof. vm_compute. reflexivity. Qed.
Example target_ok : map ValidProbeTarget ["example.com:443"; "example.com:80"; "Example.com:443"; "[::1]:443"] = [true; false; false; false].
Proof. vm_compute. reflexivity. Qed.

(** ** Host names are canonical *)

Lemma split_chars_elem f l c : c ∈ l -> f c = true \/ exists piece, piece ∈ split_chars f l /\ c ∈ piece.
Proof.
  induction l as [|d l IH]; [by intros ?%elem_of_nil|]. intros I. simpl.
  destruct (f d) eqn:F.
  - apply elem_of_cons in I as [->|I]; [by left|]. destruct (IH I) as [?|(p & P & Ip)]; [by left|].
    right. exists p. set_solver.
  - destruct (split_chars f l) as [|h r] eqn:E.
    + apply elem_of_cons in I as [->|I]; [|destruct (IH I) as [?|(? & ?%elem_of_nil & _)]; auto; done].
      right. exists [d]. set_solver.
    + apply elem_of_cons in I as [->|I]; [right; exists (d :: h); set_solver|].
      destruct (IH I) as [?|(p & P & Ip)]; [by left|right].
      apply elem_of_cons in P as [->|P]; [exists (d :: h); set_solver|exists p; set_solver].
Qed.
Lemma split_chars_snoc f l c : f c = true -> exists x, x <> [] /\ split_chars f (l ++ [c]) = x ++ [[]].
Proof.
  intros F. induction l as [|d l (x & N & E)]; simpl; [rewrite F; by exists [[]]|].
  rewrite E. destruct (f d); [by exists ([] :: x)|].
  destruct x as [|h x]; [done|]. by exists ((d :: h) :: x).
Qed.

Lemma label_char_lower c : label_char c = true -> is_ascii c = true /\ lower_char c = c.
Proof.
  unfold label_char, label_edge, is_ascii, lower_char, ascii_lower.
  rewrite !orb_true_iff, !in_range_spec, bool_decide_eq_true. intros L.
  assert (N_of_ascii c < 128 /\ ~ (65 <= N_of_ascii c <= 90)) as [A B].
  { destruct L as [[?|?]| ->]; [lia|lia|]. vm_compute. split; [done|]. by intros [? ?]. }
  split; [by apply N.ltb_lt|]. destruct (in_range 65 90 (N_of_ascii c)) eqn:R; [by apply in_range_spec in R|].
  apply ascii_N_embedding.
Qed.
Lemma hostLabel_chars l : hostLabel l = true -> l <> [] /\ forall c, c ∈ l -> label_char c = true.
Proof.
  unfold hostLabel. destruct l as [|c l]; [done|]. destruct (last (c :: l)); [|done]. intros L. bool_hyps.
  split; [done|]. intros x I. rewrite forallb_forall in *. by apply H1, list_elem_of_In.
Qed.
(** A canonical name: what [NormalizeHost] returns. *)
Record canonical (host : string) : Prop := {
  canonical_length : 0 < slen host <= 253;
  canonical_labels : forall label, label ∈ Split host "."%char -> ValidLabel label = true;
  canonical_domain : 2 <= lenN (Split host "."%char);
  canonical_name : IsAddr (Trim host "[]") = false;
}.
Lemma canonical_chars host c : canonical host -> c ∈ chars host -> label_char c = true \/ c = "."%char.
Proof.
  intros [_ L _ _] I. apply (split_chars_elem (is_char "."%char)) in I as [E|(p & P & I)].
  - right. unfold is_char in E. by bool_hyps.
  - left. eapply hostLabel_chars; [|exact I]. specialize (L (str p)). unfold ValidLabel in L.
    rewrite chars_str in L. apply L. unfold Split. apply elem_of_map. eauto.
Qed.
Lemma canonical_no_dot host : canonical host -> HasSuffix host "." = false.
Proof.
  intros [_ L _ _]. unfold HasSuffix. apply bool_decide_eq_false. intros [x E].
  destruct (split_chars_snoc (is_char "."%char) x "."%char) as (y & _ & S); [done|].
  change (chars ".") with ["."%char] in E. rewrite <- E in S.
  assert (ValidLabel "" = true); [|done]. apply L. unfold Split. rewrite S, map_app.
  apply elem_of_app. right. by left.
Qed.

Section hosts_facts.
Context `{Unicode}.

Lemma ToLower_canonical host : canonical host -> ToLower host = host.
Proof.
  intros C. unfold ToLower.
  assert (forall c, c ∈ chars host -> is_ascii c = true /\ lower_char c = c) as A.
  { intros c I. destruct (canonical_chars _ _ C I) as [?%label_char_lower| ->]; [done|split; reflexivity]. }
  assert (forallb is_ascii (chars host) = true) as ->.
  { apply forallb_forall. intros c I. by apply A, list_elem_of_In. }
  rewrite <- (str_chars host) at 2. f_equal. transitivity (map id (chars host)); [|apply map_id].
  apply map_ext_in. intros c I. by apply A, list_elem_of_In.
Qed.
Lemma NormalizeHost_Ok host h : NormalizeHost host = Ok h -> canonical h.
Proof.
  unfold NormalizeHost. intros E. ok_inv E. bool_hyps. subst h. split; [|intros l I|done|done].
  - split; [|done]. destruct (TrimSuffix (ToLower host) "."); [done|]. unfold slen. simpl. lia.
  - rewrite forallb_forall in *. apply H3, list_elem_of_In, I.
Qed.
Lemma NormalizeHost_canonical h : canonical h -> NormalizeHost h = Ok h.
Proof.
  intros C. unfold NormalizeHost, TrimSuffix. rewrite ToLower_canonical, canonical_no_dot by done.
  destruct C as [[L U] V D N]. rewrite N. apply N.ltb_ge in U as ->. apply N.ltb_ge in D as ->.
  rewrite bool_decide_eq_false_2 by (by intros ->). simpl.
  assert (forallb ValidLabel (Split h "."%char) = true) as ->; [|done].
  apply forallb_forall. intros l I. by apply V, list_elem_of_In.
Qed.

(** [NormalizeHost] returns canonical names only (two labels or more, of
    lowercase letters, digits and inner hyphens, never an address), and a
    canonical name is returned as it is: normalising twice changes nothing, so
    two spellings of a host compare equal exactly when their normal forms do. *)
Theorem NormalizeHost_idempotent host h :
  NormalizeHost host = Ok h -> canonical h /\ NormalizeHost h = Ok h.
Proof. intros E%NormalizeHost_Ok. split; [done|]. by apply NormalizeHost_canonical. Qed.
End hosts_facts.
Lemma NormalizeHost_idempotent_witness : NormalizeHost "api.example.com" = Ok "api.example.com".
Proof. apply (NormalizeHost_idempotent "API.Example.com."). vm_compute. reflexivity. Defined.

(** ** Frames round-trip *)

Lemma val_byte n : n < 256 -> val (byte_of n) = n.
Proof. apply byte_of_val. Qed.
Lemma byte_of_mod n : byte_of (n mod 256) = byte_of n.
Proof. unfold byte_of. by rewrite N.Div0.mod_mod. Qed.
Lemma be_put n : n < 4294967296 -> be (put_uint32 n) = n.
Proof.
  intros L. unfold be, put_uint32. cbn [foldl]. rewrite !N.shiftr_div_pow2.
  rewrite <- (byte_of_mod (_ / 2 ^ 24)), <- (byte_of_mod (_ / 2 ^ 16)), <- (byte_of_mod (_ / 2 ^ 8)), <- (byte_of_mod n).
  rewrite !val_byte by (by apply N.mod_lt).
  change (2 ^ 24) with (256 * 256 * 256). change (2 ^ 16) with (256 * 256). change (2 ^ 8) with 256.
  rewrite <- !N.Div0.div_div. set (q1 := n / 256). set (q2 := q1 / 256). set (q3 := q2 / 256).
  assert (q3 < 256) by (unfold q3, q2, q1; rewrite !N.Div0.div_div; by apply N.Div0.div_lt_upper_bound).
  rewrite (N.mod_small q3) by done.
  pose proof (N.div_mod n 256 ltac:(done)) as E1. pose proof (N.div_mod q1 256 ltac:(done)) as E2.
  pose proof (N.div_mod q2 256 ltac:(done)) as E3. fold q1 in E1. fold q2 in E2. fold q3 in E3. lia.
Qed.
Lemma ReadFull_app a r : a <> [] -> ReadFull (List.length a) (a ++ r) = Ok (a, r).
Proof.
  intros N. unfold ReadFull. destruct a as [|x a]; [done|]. simpl.
  replace (S (List.length (a ++ r)) <? S (List.length a))%nat with false
    by (symmetry; apply Nat.ltb_ge; rewrite length_app; lia).
  f_equal. f_equal; [f_equal; apply take_app_length|apply drop_app_length].
Qed.
Lemma ReadFull_app' n a r : List.length a = n -> ReadFull n (a ++ r) = Ok (a, r).
Proof. intros <-. destruct a; [done|]. by apply ReadFull_app. Qed.
Lemma ReadFull_Ok n r a r' : ReadFull n r = Ok (a, r') -> r = a ++ r' /\ List.length a = n.
Proof.
  unfold ReadFull. destruct (Nat.eqb_spec n 0) as [->|]; [by intros [= <- <-]|].
  destruct r as [|c r]; [done|]. destruct (Nat.ltb_spec (List.length (c :: r)) n); [done|].
  intros [= <- <-]. split; [by rewrite take_drop|]. rewrite length_take. lia.
Qed.

(** The bytes of one frame. *)
Definition frame_bytes (kind : N) (payload : list ascii) : list ascii :=
  byte_of kind :: put_uint32 (lenN payload) ++ payload.
Lemma Frame_Ok w kind payload w' :
  Frame w kind payload = Ok w' <-> lenN payload <= maxFrame /\ w' = w ++ frame_bytes kind payload.
Proof.
  unfold Frame, frame_bytes. rewrite guard_Ok, negb_true_iff, N.ltb_ge. unfold maxFrame.
  split; (intros [L E]; split; [done|]); rewrite N.mod_small in * by lia; [by injection E|by rewrite E].
Qed.
Lemma ReadFrame_frame kind payload rest :
  kind < 256 -> lenN payload <= maxFrame ->
  ReadFrame (frame_bytes kind payload ++ rest) = Ok (kind, payload, rest).
Proof.
  intros K L. unfold ReadFrame, frame_bytes.
  change (byte_of kind :: put_uint32 (lenN payload) ++ payload)
    with ((byte_of kind :: put_uint32 (lenN payload)) ++ payload).
  rewrite <- app_assoc, (ReadFull_app' 5) by done. cbn [result_bind tail head].
  rewrite be_put by (unfold maxFrame in *; lia). apply N.ltb_ge in L as ->. cbn [negb].
  rewrite ReadFull_app' by (unfold lenN; lia). simpl. by rewrite val_byte.
Qed.
(** Reading frames until the stream is empty. *)
Fixpoint read_frames (fuel : nat) (r : list ascii) : option (result (list (N * list ascii)) error) :=
  match r with
  | [] => Some (Ok [])
  | _ =>
    match fuel with
    | O => None
    | S fuel =>
      match ReadFrame r with
      | Err e => Some (Err e)
      | Ok (kind, payload, r) =>
        match read_frames fuel r with
        | Some (Ok frames) => Some (Ok ((kind, payload) :: frames))
        | other => other
        end
      end
    end
  end.

Lemma val_lt c : val c < 256.
Proof. apply N_ascii_bounded. Qed.
Lemma byte_of_val_id c : byte_of (val c) = c.
Proof. unfold byte_of, val. rewrite N.mod_small by apply N_ascii_bounded. apply ascii_N_embedding. Qed.
Lemma byte_of_high h c : byte_of (h * 256 + val c) = c.
Proof.
  rewrite <- (byte_of_val_id c) at 2. rewrite <- byte_of_mod, <- (byte_of_mod (val c)). f_equal.
  by rewrite N.add_comm, N.Div0.mod_add.
Qed.
Lemma high_div h c : (h * 256 + val c) / 256 = h.
Proof. rewrite N.div_add_l by done. rewrite N.div_small by apply val_lt. lia. Qed.
Lemma be_bound l : be l < 256 ^ lenN l.
Proof.
  unfold be. assert (forall acc, foldl (fun acc c => acc * 256 + val c) acc l < (acc + 1) * 256 ^ lenN l) as B.
  { unfold lenN. induction l as [|c l IH]; intros acc; [simpl; lia|]. cbn [foldl List.length].
    eapply N.lt_le_trans; [apply IH|]. rewrite Nat2N.inj_succ, N.pow_succ_r', N.mul_assoc.
    apply N.mul_le_mono_r. pose proof (val_lt c). lia. }
  specialize (B 0). lia.
Qed.
Lemma put_be l : List.length l = 4%nat -> put_uint32 (be l) = l.
Proof.
  destruct l as [|a [|b [|c [|d [|]]]]]; try done. intros _. unfold be, put_uint32. cbn [foldl].
  rewrite !N.shiftr_div_pow2. change (2 ^ 24) with (256 * 256 * 256). change (2 ^ 16) with (256 * 256).
  change (2 ^ 8) with 256. rewrite <- !N.Div0.div_div, !high_div. by rewrite !byte_of_high.
Qed.
Lemma frame_bytes_header k h payload :
  List.length h = 4%nat -> be h = lenN payload -> frame_bytes (val k) payload = (k :: h) ++ payload.
Proof. intros L E. unfold frame_bytes. by rewrite byte_of_val_id, <- E, put_be. Qed.

(** Reading a frame is exactly inverting the writer: [ReadFrame] accepts a
    stream when, and only when, it starts with the bytes [FrameWriter.Frame]
    writes for some kind and some payload within the frame limit, and it
    returns that kind, that payload and the rest of the stream.  A payload
    beyond the limit is never read. *)
Theorem ReadFrame_spec r kind payload rest :
  ReadFrame r = Ok (kind, payload, rest) <->
  kind < 256 /\ lenN payload <= maxFrame /\ r = frame_bytes kind payload ++ rest.
Proof.
  split; [|intros (K & L & ->); by apply ReadFrame_frame].
  unfold ReadFrame. intros ([header r1] & H & E)%result_bind_Ok. ok_inv E. bool_hyps.
  apply ReadFull_Ok in H as [-> HL]. destruct (ReadFull _ r1) as [[p r2]|] eqn:P; [|done].
  apply ReadFull_Ok in P as [-> PL]. injection E as <- <- <-.
  destruct header as [|k h]; [done|]. injection HL as HL. cbn [tail] in *.
  change (default 0 (val <$> head (k :: h))) with (val k).
  assert (lenN p = be h) as EL by (unfold lenN; lia).
  split; [apply val_lt|]. split; [lia|]. by rewrite (frame_bytes_header k h), <- app_assoc.
Qed.
(** Cutting a payload into data frames. *)
Lemma data_loop_Ok fuel w kind p written :
  kind < 256 -> (List.length p <= fuel)%nat ->
  exists chunks,
    data_loop fuel w kind p written = Some (Ok (w ++ flat_map (frame_bytes kind) chunks, written + lenN p))
    /\ concat chunks = p /\ Forall (fun c => c <> [] /\ lenN c <= dataChunk) chunks.
Proof.
  intros K. revert fuel w written. induction p as [p IH] using (induction_ltof1 _ (@List.length ascii)).
  intros fuel w written L. destruct p as [|x p].
  { exists []. rewrite app_nil_r. split_and!; [|done|constructor]. destruct fuel; simpl; repeat f_equal; unfold lenN; simpl; lia. }
  destruct fuel as [|fuel]; [simpl in L; lia|]. cbn [data_loop].
  set (n := N.min (lenN (x :: p)) dataChunk). set (m := N.to_nat n).
  assert (0 < m <= List.length (x :: p))%nat as B by (unfold m, n, lenN, dataChunk; simpl; lia).
  assert (lenN (take m (x :: p)) <= dataChunk) as C by (unfold lenN; rewrite length_take; unfold m, n, dataChunk; lia).
  assert (Frame w kind (take m (x :: p)) = Ok (w ++ frame_bytes kind (take m (x :: p)))) as ->.
  { apply Frame_Ok. split; [|done]. unfold dataChunk, maxFrame in *. lia. }
  destruct (IH (drop m (x :: p))) with (fuel := fuel) (w := w ++ frame_bytes kind (take m (x :: p)))
    (written := written + n) as (chunks & -> & E & F).
  { unfold ltof. rewrite length_drop. lia. }
  { rewrite length_drop. simpl in *. lia. }
  exists (take m (x :: p) :: chunks). split_and!.
  - simpl flat_map. rewrite <- app_assoc. do 3 f_equal. unfold lenN. rewrite length_drop. unfold m, n, lenN in *. lia.
  - simpl concat. by rewrite E, take_drop.
  - constructor; [|done]. split; [|done]. destruct m; [lia|done].
Qed.
Lemma read_frames_chunks kind chunks fuel :
  kind < 256 -> Forall (fun c => lenN c <= maxFrame) chunks -> (List.length chunks <= fuel)%nat ->
  read_frames fuel (flat_map (frame_bytes kind) chunks) = Some (Ok (map (fun c => (kind, c)) chunks)).
Proof.
  intros K F. revert fuel. induction F as [|c chunks C F IH]; intros fuel L; [by destruct fuel|].
  destruct fuel as [|fuel]; [simpl in L; lia|].
  assert (exists b t, frame_bytes kind c ++ flat_map (frame_bytes kind) chunks = b :: t) as (b & t & E) by (simpl; eauto).
  cbn [flat_map read_frames]. rewrite E, <- E, ReadFrame_frame, IH by (done || simpl in L; lia). done.
Qed.

(** What one side writes with [FrameWriter.Data] is what the other side
    reads: writing always completes and reports every byte, and reading the
    written stream back yields data frames of that kind whose payloads, joined
    in order, are the bytes written, none of them empty or larger than the
    chunk size. *)
Theorem Data_roundtrip kind p :
  kind < 256 ->
  exists stream chunks,
    Data [] kind p = Some (Ok (stream, lenN p))
    /\ read_frames (List.length p) stream = Some (Ok (map (fun c => (kind, c)) chunks))
    /\ concat chunks = p /\ Forall (fun c => c <> [] /\ lenN c <= dataChunk) chunks.
Proof.
  intros K. destruct (data_loop_Ok (List.length p) [] kind p 0 K) as (chunks & E & C & F); [done|].
  exists (flat_map (frame_bytes kind) chunks), chunks. split_and!; [exact E| |done|done].
  apply read_frames_chunks; [done| |].
  - eapply Forall_impl; [exact F|]. unfold dataChunk, maxFrame. simpl. lia.
  - rewrite <- C. clear E C. induction F as [|c l [N _] _ IH]; simpl; [lia|]. rewrite length_app.
    destruct c; [done|simpl; lia].
Qed.
Lemma Data_roundtrip_witness :
  exists stream chunks, Data [] FrameStdout (chars "hello") = Some (Ok (stream, 5)) /\ concat chunks = chars "hello"
    /\ read_frames 5 stream = Some (Ok (map (fun c => (FrameStdout, c)) chunks)).
Proof.
  destruct (Data_roundtrip FrameStdout (chars "hello") ltac:(reflexivity)) as (s & c & D & R & C & _).
  exists s, c. split; [exact D|]. split; [exact C|exact R].
Defined.
