(* ===== verification/EgressPolicy.v ===== *)
(** * The egress allowlist ([internal/egress/policy.go])

    Rules and how they are parsed, the decision on a host, the containment
    probe's target, and the addresses a tunnel may reach.  Ports are numbers
    below [2^16]; addresses are those of [NetIP]. *)
From stdpp Require Import pretty.
From S2P Require Import Prelude GoStrings Utf8 GoErrors NetIP Config Wire.
Local Open Scope string_scope.
Local Open Scope list_scope.
Local Open Scope N_scope.

(** ** Rules *)

Record Rule := mkRule { Rule_Host : string; Rule_Wildcard : bool; Rule_Port : N }.
#[export] Instance Rule_eq_dec : EqDecision Rule.
Proof. solve_decision. Defined.

Definition Rule_String (r : Rule) : string :=
  let host := if Rule_Wildcard r then "*." +:+ Rule_Host r else Rule_Host r in
  if Rule_Port r =? 443 then host else host +:+ ":" +:+ FormatUint (Rule_Port r).
Definition Rule_matches (r : Rule) (host : string) (port : N) : bool :=
  if negb (port =? Rule_Port r) then false else
  if Rule_Wildcard r then HasSuffix host ("." +:+ Rule_Host r) else bool_decide (host = Rule_Host r).

Definition KindRunner : string := "runner".
Definition KindVerify : string := "verify".
Definition KindProbe : string := "probe".
Record Policy := mkPolicy { Policy_Model : list Rule; Policy_Build : list Rule }.
Definition rules_for (p : Policy) (kind : string) : list Rule :=
  if bool_decide (kind = KindRunner) then Policy_Model p ++ Policy_Build p else
  if bool_decide (kind = KindVerify) then Policy_Build p else [].
Definition allows (p : Policy) (kind host : string) (port : N) : bool :=
  existsb (fun rule => Rule_matches rule host port) (rules_for p kind).

(** [fmt.Sprintf("octomus-probe-%d.invalid", i)]. *)
Definition probe_name (i : nat) : string := "octomus-probe-" +:+ FormatUint (N.of_nat i) +:+ ".invalid".
Definition probeTarget (p : Policy) : result string error :=
  if negb (allows p KindRunner "example.com" 443) then Ok "example.com:443" else
  match List.find (fun i => negb (allows p KindRunner (probe_name i) 443))
          (seq 0 (S (List.length (Policy_Model p) + List.length (Policy_Build p)))) with
  | Some i => Ok (probe_name i +:+ ":443")
  | None => Err (New "no denied containment probe target")
  end.

Section rules.
Context `{Unicode}.

(** One entry of the list: [host], [*.host], with an optional port. *)
Definition ParseRule (entry : string) : result Rule error :=
  let '(host, portText, hasPort) := Cut entry ":"%char in
  let port := if hasPort then match ParseUint portText 16 with Some n => n | None => 0 end else 443 in
  guard negb (port =? 0) else Errorf "Egress rule %q has an invalid port" [VStr entry];
  let '(host, wildcard) := CutPrefix host "*." in
  match NormalizeHost host with
  | Err err => Err (Errorf "Egress rule %q is not a host name: %w" [VStr entry; VWrap err])
  | Ok normalized => Ok (mkRule normalized wildcard port)
  end.
Definition rule_separator (c : ascii) : bool :=
  bool_decide (c = ","%char) || bool_decide (c = " "%char) || (N_of_ascii c =? 10) || (N_of_ascii c =? 9).
Fixpoint parse_rules (entries : list string) (rules : list Rule) : result (list Rule) error :=
  match entries with
  | [] => Ok rules
  | entry :: rest => let! rule := ParseRule entry in parse_rules rest (rules ++ [rule])
  end.
Definition ParseRules (l : string) : result (list Rule) error := parse_rules (FieldsFunc rule_separator l) [].

Definition parse_list (getenv : string -> string) (key : string) : result (list Rule) error :=
  match ParseRules (getenv key) with
  | Ok rules => Ok rules
  | Err err => Err (Errorf "%s: %w" [VStr key; VWrap err])
  end.
Definition PolicyFromEnv (getenv : string -> string) : result Policy error :=
  let! model := parse_list getenv "OCTOMUS_EGRESS_MODEL_HOSTS" in
  let! build := parse_list getenv "OCTOMUS_EGRESS_BUILD_HOSTS" in
  Ok (mkPolicy model build).
End rules.

Definition describe (rules : list Rule) : list string := sort_strings (map Rule_String rules).
(** The [model] and [build] entries of the map. *)
Definition Describe (p : Policy) : gmap string (list string) :=
  <["model" := describe (Policy_Model p)]> (<["build" := describe (Policy_Build p)]> ∅).

(** ** Addresses *)

Definition globalIPv6 : Prefix := P6 (ip6 [8192]) 3.
Definition blockedPrefixes : list Prefix :=
  [P4 (ip4 0 0 0 0) 8; P4 (ip4 100 64 0 0) 10; P4 (ip4 192 0 0 0) 24; P4 (ip4 192 0 2 0) 24;
   P4 (ip4 198 18 0 0) 15; P4 (ip4 198 51 100 0) 24; P4 (ip4 203 0 113 0) 24; P4 (ip4 240 0 0 0) 4;
   P4 (ip4 255 255 255 255) 32;
   P6 (ip6 [0x64; 0xff9b]) 96; P6 (ip6 [0x64; 0xff9b; 1]) 48; P6 (ip6 [0x100]) 64; P6 (ip6 [0x2001]) 32;
   P6 (ip6 [0x2001; 2]) 48; P6 (ip6 [0x2001; 0x10]) 28; P6 (ip6 [0x2001; 0x20]) 28; P6 (ip6 [0x2001; 0xdb8]) 32;
   P6 (ip6 [0x2002]) 16; P6 (ip6 [0x3fff]) 20].
Definition publicAddress (addr : Addr) : bool :=
  let addr := Unmap addr in
  if negb (IsValid addr) || IsUnspecified addr || IsLoopback addr || IsPrivate addr || IsMulticast addr
     || IsLinkLocalUnicast addr || IsLinkLocalMulticast addr || IsInterfaceLocalMulticast addr
     || negb (IsGlobalUnicast addr) || (Is6 addr && negb (Contains_addr globalIPv6 addr))
  then false
  else negb (existsb (fun prefix => Contains_addr prefix addr) blockedPrefixes).

Example rules_ok :
  ParseRules "api.openai.com, *.npmjs.org git.example.com:8443"
  = Ok [mkRule "api.openai.com" false 443; mkRule "npmjs.org" true 443; mkRule "git.example.com" false 8443].
Proof. vm_compute. reflexivity. Qed.
Example public_ok :
  map publicAddress [V4 (ip4 8 8 8 8); V4 (ip4 169 254 169 254); V6 (ip6 [0; 0; 0; 0; 0; 0xffff; 0x7f00; 1]) "";
                     V6 (ip6 [0x2606; 0x4700]) ""; V6 (ip6 [0x2606; 0x4700]) "eth0"; V6 (ip6 [0x2002; 0x0a00; 1]) ""]
  = [true; false; false; true; false; false].
Proof. vm_compute. reflexivity. Qed.

(** ** Parsed rules are well formed *)

Definition rule_ok (r : Rule) : Prop := canonical (Rule_Host r) /\ 0 < Rule_Port r < 65536.
Definition policy_ok (p : Policy) : Prop := Forall rule_ok (Policy_Model p) /\ Forall rule_ok (Policy_Build p).

Section parsed.
Context `{Unicode}.

Lemma ParseUint_bound s bits n : ParseUint s bits = Some n -> n < 2 ^ bits.
Proof.
  unfold ParseUint. destruct (chars s); [done|]. destruct (parse_digits _ _); [|done].
  destruct (N.ltb_spec n0 (2 ^ bits)); [|done]. by intros [= <-].
Qed.
Lemma ParseRule_ok entry r : ParseRule entry = Ok r -> rule_ok r.
Proof.
  unfold ParseRule. destruct (Cut entry ":"%char) as [[host portText] hasPort]. intros E. ok_inv E.
  destruct (CutPrefix host "*.") as [h wildcard]. destruct (NormalizeHost h) as [normalized|] eqn:N; [|done].
  injection E as <-. split; [by apply NormalizeHost_Ok in N|]. simpl. bool_hyps.
  destruct hasPort; [|lia]. destruct (ParseUint portText 16) as [n|] eqn:P; [|done].
  apply ParseUint_bound in P. change (2 ^ 16) with 65536 in P. lia.
Qed.
Lemma parse_rules_ok entries rules rules' :
  parse_rules entries rules = Ok rules' -> Forall rule_ok rules -> Forall rule_ok rules'.
Proof.
  revert rules. induction entries as [|e entries IH]; simpl; intros rules E F; [by injection E as <-|].
  ok_inv E. apply (IH _ E). apply Forall_app_2; [done|]. constructor; [by eapply ParseRule_ok|constructor].
Qed.

(** C37: a policy read from the environment is well formed: every rule of it
    names a canonical domain of two labels or more, on a port between 1 and
    65535, and an empty list allows nothing. *)
Theorem PolicyFromEnv_ok getenv p :
  PolicyFromEnv getenv = Ok p ->
  policy_ok p
  /\ (getenv "OCTOMUS_EGRESS_MODEL_HOSTS" = "" -> Policy_Model p = [])
  /\ (getenv "OCTOMUS_EGRESS_BUILD_HOSTS" = "" -> forall host port, allows p KindVerify host port = false).
Proof.
  unfold PolicyFromEnv, parse_list, ParseRules. intros E. ok_inv E. subst p.
  destruct (parse_rules _ _) as [m|] eqn:M in H0; [|done]. injection H0 as <-.
  destruct (parse_rules _ _) as [b|] eqn:B in H1; [|done]. injection H1 as <-.
  split; [split; simpl; by eapply parse_rules_ok|]. split; simpl; intros Z; rewrite Z in *.
  - vm_compute in M. by injection M as <-.
  - vm_compute in B. injection B as <-. done.
Qed.
End parsed.
Definition sample_env (key : string) : string :=
  if bool_decide (key = "OCTOMUS_EGRESS_MODEL_HOSTS") then "api.openai.com *.anthropic.com" else "".
Lemma PolicyFromEnv_ok_witness :
  policy_ok (mkPolicy [mkRule "api.openai.com" false 443; mkRule "anthropic.com" true 443] []).
Proof. apply (PolicyFromEnv_ok sample_env). vm_compute. reflexivity. Defined.

(** ** The probe's target *)

(** The dots of a name. *)
Definition dots (l : list ascii) : nat := List.length (List.filter (is_char "."%char) l).
Lemma dots_app a b : dots (a ++ b) = (dots a + dots b)%nat.
Proof. unfold dots. by rewrite List.filter_app, length_app. Qed.
Lemma split_chars_dots l : List.length (split_chars (is_char "."%char) l) = S (dots l).
Proof.
  unfold dots. induction l as [|c l IH]; simpl; [done|]. destruct (is_char "."%char c); simpl; [by rewrite IH|].
  pose proof (split_chars_nonempty (is_char "."%char) l). destruct (split_chars _ l); [done|]. simpl in *. lia.
Qed.
Lemma canonical_dots host : canonical host -> (1 <= dots (chars host))%nat.
Proof.
  intros [_ _ D _]. unfold lenN, Split in D. rewrite length_map, split_chars_dots in D. lia.
Qed.
Lemma chars_append a b : chars (a +:+ b) = chars a ++ chars b.
Proof. induction a as [|c a IH]; simpl; [done|]. by rewrite IH. Qed.

(** Decimal digits. *)
Lemma forallb_impl {A} (f g : A -> bool) l :
  (forall x, f x = true -> g x = true) -> forallb f l = true -> forallb g l = true.
Proof. rewrite !forallb_forall. auto. Qed.
Lemma digit_edge c : is_digit c = true -> label_edge c = true.
Proof. unfold is_digit, label_edge. intros ->. apply orb_true_r. Qed.
Lemma edge_char c : label_edge c = true -> label_char c = true.
Proof. unfold label_char. by intros ->. Qed.
Lemma label_not_dot c : label_char c = true -> is_char "."%char c = false.
Proof. unfold is_char. intros L. apply bool_decide_eq_false. by intros <-. Qed.
Lemma dots_label l : forallb label_char l = true -> dots l = 0%nat.
Proof.
  intros F. unfold dots. induction l as [|c l IH]; [done|]. cbn [forallb] in F. apply andb_true_iff in F as [C F].
  cbn [List.filter]. by rewrite label_not_dot, IH.
Qed.
Lemma split_chars_label a rest :
  forallb label_char a = true ->
  split_chars (is_char "."%char) (a ++ "."%char :: rest) = a :: split_chars (is_char "."%char) rest.
Proof.
  induction a as [|c a IH]; [done|]. cbn [forallb]. intros [C F]%andb_true_iff.
  cbn [app split_chars]. by rewrite label_not_dot, IH.
Qed.
Lemma split_chars_one a : forallb label_char a = true -> split_chars (is_char "."%char) a = [a].
Proof.
  induction a as [|c a IH]; [done|]. cbn [forallb]. intros [C F]%andb_true_iff.
  cbn [split_chars]. by rewrite label_not_dot, IH.
Qed.

(** A name of two labels. *)
Lemma Trim_none s set : (forall c, c ∈ chars s -> char_in c set = false) -> Trim s set = s.
Proof.
  intros N. unfold Trim.
  assert (forall l, (forall c, c ∈ l -> char_in c set = false) -> drop_set set l = l) as D.
  { intros [|c l] M; simpl; [done|]. rewrite M; [done|by left]. }
  rewrite (D (chars s)) by done. rewrite D, rev_involutive, str_chars; [done|].
  intros c I. apply N. rewrite list_elem_of_In in *. by apply in_rev.
Qed.
Lemma literal_kind_label a rest :
  forallb label_char a = true -> literal_kind (a ++ "."%char :: rest) = Some "."%char.
Proof.
  induction a as [|c a IH]; [done|]. cbn [forallb]. intros [C F]%andb_true_iff. cbn [app literal_kind].
  rewrite bool_decide_eq_false_2; [by apply IH|]. intros I.
  repeat (apply elem_of_cons in I as [->|I]; [by vm_compute in C|]). by apply elem_of_nil in I.
Qed.
Lemma two_labels a b :
  hostLabel a = true -> hostLabel b = true -> canonical (str (a ++ "."%char :: b)).
Proof.
  intros A B. destruct (hostLabel_chars _ A) as [_ CA], (hostLabel_chars _ B) as [_ CB].
  assert (forall l, hostLabel l = true -> (List.length l <= 63)%nat) as Len.
  { intros l. unfold hostLabel. destruct l; [done|]. destruct (last _); [|done]. intros H. bool_hyps.
    unfold lenN in *. lia. }
  assert (forallb label_char a = true) as FA by (apply forallb_forall; intros c I; by apply CA, list_elem_of_In).
  assert (forallb label_char b = true) as FB by (apply forallb_forall; intros c I; by apply CB, list_elem_of_In).
  assert (Split (str (a ++ "."%char :: b)) "."%char = [str a; str b]) as S.
  { unfold Split. rewrite chars_str, split_chars_label, split_chars_one by done. done. }
  pose proof (Len _ A). pose proof (Len _ B). split.
  - rewrite slen_chars, chars_str. unfold lenN. rewrite length_app. simpl. lia.
  - rewrite S. intros l [->|[->|?%elem_of_nil]%elem_of_cons]%elem_of_cons; [| |done];
      unfold ValidLabel; by rewrite chars_str.
  - by rewrite S.
  - rewrite Trim_none; [|intros c]; rewrite ?chars_str.
    + unfold IsAddr. rewrite chars_str, literal_kind_label by done. simpl.
      unfold parse_ipv4. by rewrite split_chars_label, split_chars_one.
    + intros [I|[->|I]%elem_of_cons]%elem_of_app; [apply CA in I|done|apply CB in I];
        apply bool_decide_eq_false; intros J;
        repeat (apply elem_of_cons in J as [->|J]; [by vm_compute in I|]); by apply elem_of_nil in J.
Qed.

(** The candidate names. *)
Definition probe_label (i : nat) : list ascii := chars "octomus-probe-" ++ chars (FormatUint (N.of_nat i)).
Lemma probe_name_chars i : probe_name i = str (probe_label i ++ "."%char :: chars "invalid").
Proof.
  unfold probe_name, probe_label. apply (inj chars). rewrite chars_str, !chars_append. by rewrite <- app_assoc.
Qed.
Lemma probe_name_inj i j : probe_name i = probe_name j -> i = j.
Proof.
  unfold probe_name. intros E%(f_equal chars). rewrite !chars_append in E. apply app_inv_head, app_inv_tail in E.
  apply (inj chars) in E. unfold FormatUint in E. apply (inj pretty) in E. lia.
Qed.
Lemma hostLabel_edges x a d :
  label_edge x = true -> forallb label_char a = true -> d <> [] -> forallb label_edge d = true ->
  (List.length (x :: a ++ d) <= 63)%nat -> hostLabel (x :: a ++ d) = true.
Proof.
  intros X A N D L. destruct (exists_last N) as (d' & z & ->).
  unfold hostLabel. rewrite app_assoc, app_comm_cons, last_snoc.
  rewrite forallb_app in D. cbn [forallb] in D. apply andb_true_iff in D as [D Z]. rewrite andb_true_r in Z.
  rewrite X, Z. cbn [andb]. rewrite <- app_comm_cons, <- app_assoc. cbn [forallb]. rewrite !forallb_app, A.
  rewrite (forallb_impl label_edge label_char d') by (done || apply edge_char).
  cbn [forallb]. rewrite !edge_char by done. cbn [andb]. unfold lenN. apply N.leb_le. simpl in *. lia.
Qed.
Lemma probe_label_ok i : N.of_nat i < two64 -> hostLabel (probe_label i) = true.
Proof.
  intros L. destruct (FormatUint_digits 19 (N.of_nat i)) as (D & B & N).
  { unfold two64 in L. change (10 ^ N.of_nat 20) with 100000000000000000000. lia. }
  change (probe_label i) with ("o"%char :: chars "ctomus-probe-" ++ chars (FormatUint (N.of_nat i))).
  apply hostLabel_edges; [done|done|done| |].
  - by eapply forallb_impl; [apply digit_edge|].
  - cbn [List.length]. rewrite length_app. simpl. lia.
Qed.
Lemma probe_name_canonical i : N.of_nat i < two64 -> canonical (probe_name i).
Proof. intros L. rewrite probe_name_chars. apply two_labels; [by apply probe_label_ok|done]. Qed.
Lemma label_chars_of l : hostLabel l = true -> forallb label_char l = true.
Proof. intros H. apply forallb_forall. intros c I. by eapply hostLabel_chars, list_elem_of_In. Qed.
Lemma probe_name_dots i : N.of_nat i < two64 -> dots (chars (probe_name i)) = 1%nat.
Proof.
  intros L. rewrite probe_name_chars, chars_str, dots_app.
  rewrite (dots_label (probe_label i)) by by apply label_chars_of, probe_label_ok. done.
Qed.

(** A well-formed rule that allows a candidate names it. *)
Lemma rule_matches_probe r i :
  rule_ok r -> N.of_nat i < two64 -> Rule_matches r (probe_name i) 443 = true -> Rule_Host r = probe_name i.
Proof.
  intros [C _] L. unfold Rule_matches. destruct_cond. destruct (Rule_Wildcard r).
  - unfold HasSuffix. intros [x E]%bool_decide_eq_true. exfalso.
    apply (f_equal dots) in E. rewrite probe_name_dots, chars_append, !dots_app in E by done.
    pose proof (canonical_dots _ C). change (dots (chars ".")) with 1%nat in E. lia.
  - by intros ->%bool_decide_eq_true.
Qed.

Definition all_rules (p : Policy) : list Rule := Policy_Model p ++ Policy_Build p.
Lemma some_probe_denied p :
  policy_ok p -> N.of_nat (List.length (all_rules p)) < two64 - 1 ->
  exists i, List.find (fun i => negb (allows p KindRunner (probe_name i) 443)) (seq 0 (S (List.length (all_rules p)))) = Some i.
Proof.
  intros [PM PB] L. destruct (List.find _ _) as [i|] eqn:F; [eauto|]. exfalso.
  assert (forall i, i ∈ seq 0 (S (List.length (all_rules p))) -> probe_name i ∈ map Rule_Host (all_rules p)) as A.
  { intros i I. pose proof (find_none _ _ F i (proj1 (list_elem_of_In _ _) I)) as N. simpl in N.
    apply negb_false_iff, existsb_exists in N as (r & R & M).
    apply list_elem_of_In in R. change (rules_for p KindRunner) with (all_rules p) in R.
    apply elem_of_map. exists r. split; [|done]. apply elem_of_seq in I. apply rule_matches_probe; [|lia|done].
    apply elem_of_app in R as [R|R]; [by eapply Forall_forall in PM|by eapply Forall_forall in PB]. }
  assert (List.length (map probe_name (seq 0 (S (List.length (all_rules p)))))
          <= List.length (map Rule_Host (all_rules p)))%nat as Len.
  { apply NoDup_incl_length.
    - apply NoDup_ListNoDup, NoDup_fmap_2; [intros ? ?; apply probe_name_inj|apply NoDup_seq].
    - intros x I. apply list_elem_of_In, elem_of_map in I as (i & <- & I). by apply list_elem_of_In, A. }
  rewrite !length_map, length_seq in Len. lia.
Qed.

Lemma SplitHostPort_443 host :
  canonical host -> SplitHostPort (host +:+ ":443") = Some (host, "443").
Proof.
  intros C. assert (forall c, c ∈ chars host -> c <> ":"%char /\ c <> "["%char /\ c <> "]"%char) as N.
  { intros c I. destruct (canonical_chars _ _ C I) as [L| ->]; [|done].
    split_and!; intros ->; by vm_compute in L. }
  unfold SplitHostPort, last_colon. rewrite chars_append, rev_app_distr.
  change (cut_chars ":"%char (rev (chars ":443") ++ rev (chars host)))
    with (Some (["3"; "4"; "4"]%char, rev (chars host))). cbv iota beta. rewrite rev_involutive.
  change (rev ["3"; "4"; "4"]%char) with ["4"; "4"; "3"]%char.
  assert (forall c, c ∈ [":"%char; "["%char; "]"%char] -> c ∉ chars host) as NI.
  { intros c I J. apply N in J as (? & ? & ?).
    repeat (apply elem_of_cons in I as [->|I]; [done|]). by apply elem_of_nil in I. }
  unfold has_char. rewrite (bool_decide_eq_false_2 (":"%char ∈ _)) by (apply NI; set_solver).
  assert (forall c, c ∈ ["["%char; "]"%char] -> bool_decide (c ∈ chars host ++ ["4"; "4"; "3"]%char) = false) as H.
  { intros c I. apply bool_decide_eq_false. intros [J|J]%elem_of_app.
    - revert J. apply NI. set_solver.
    - repeat (apply elem_of_cons in I as [->|I]; [by vm_compute in J; set_solver|]). by apply elem_of_nil in I. }
  rewrite !H by set_solver. cbn [orb]. rewrite str_chars.
  destruct (chars host) as [|c l] eqn:E; [done|].
  assert (c <> "["%char) as X by (apply N; left). destruct c as [[] [] [] [] [] [] [] []]; try done.
Qed.

(** The containment probe always has a target.  Under any well-formed
    policy the chosen target is a valid probe target (a canonical name on port
    443) whose host no runner sandbox is allowed to reach, however many rules
    the policy has and whatever they name. *)
Theorem probeTarget_denied `{Unicode} p :
  policy_ok p -> N.of_nat (List.length (all_rules p)) < two64 - 1 ->
  exists host, probeTarget p = Ok (host +:+ ":443") /\ ValidProbeTarget (host +:+ ":443") = true
            /\ allows p KindRunner host 443 = false.
Proof.
  intros P L.
  assert (forall host, canonical host -> ValidProbeTarget (host +:+ ":443") = true) as V.
  { intros host C. unfold ValidProbeTarget. rewrite SplitHostPort_443 by done.
    rewrite NormalizeHost_canonical by done. by rewrite !bool_decide_eq_true_2. }
  unfold probeTarget. destruct (allows p KindRunner "example.com" 443) eqn:A.
  - destruct (some_probe_denied p P L) as [i F]. simpl negb. cbv iota.
    replace (List.length (Policy_Model p) + List.length (Policy_Build p))%nat with (List.length (all_rules p))
      by (unfold all_rules; by rewrite length_app).
    rewrite F. exists (probe_name i). apply find_some in F as [I F]. split; [done|].
    apply in_seq in I. split; [apply V, probe_name_canonical; lia|]. by apply negb_true_iff in F.
  - exists "example.com". split; [done|]. split; [|done]. apply V. exact (two_labels (chars "example") (chars "com") eq_refl eq_refl).
Qed.
Lemma probeTarget_denied_witness :
  exists host, allows (mkPolicy [mkRule "example.com" false 443; mkRule "octomus-probe-0.invalid" false 443] []) KindRunner host 443 = false.
Proof.
  destruct (probeTarget_denied (mkPolicy [mkRule "example.com" false 443; mkRule "octomus-probe-0.invalid" false 443] []))
    as (host & _ & _ & D).
  - split; [|constructor]. constructor; [|constructor; [|constructor]]; (split; [|simpl; lia]).
    + exact (two_labels (chars "example") (chars "com") eq_refl eq_refl).
    + exact (two_labels (chars "octomus-probe-0") (chars "invalid") eq_refl eq_refl).
  - vm_compute. reflexivity.
  - exists host. exact D.
Defined.

(** ** The addresses a tunnel may reach *)

(** The block of [2 ^ (width - bits)] addresses that starts at [base]. *)
Definition in_block (width : N) (block : N * N) (a : N) : Prop :=
  fst block <= a < fst block + 2 ^ (width - snd block).
(** The special-purpose IPv4 blocks: this network, private use, shared
    (carrier-grade NAT), loopback, link-local, private use, IETF protocols,
    documentation, private use, benchmarking, documentation (twice),
    multicast, and reserved with the broadcast address. *)
Definition special4 : list (N * N) :=
  [(ip4 0 0 0 0, 8); (ip4 10 0 0 0, 8); (ip4 100 64 0 0, 10); (ip4 127 0 0 0, 8); (ip4 169 254 0 0, 16);
   (ip4 172 16 0 0, 12); (ip4 192 0 0 0, 24); (ip4 192 0 2 0, 24); (ip4 192 168 0 0, 16); (ip4 198 18 0 0, 15);
   (ip4 198 51 100 0, 24); (ip4 203 0 113 0, 24); (ip4 224 0 0 0, 4); (ip4 240 0 0 0, 4)].
(** Inside global unicast: Teredo, benchmarking, ORCHID (twice),
    documentation, 6to4, documentation. *)
Definition special6 : list (N * N) :=
  [(ip6 [0x2001], 32); (ip6 [0x2001; 2], 48); (ip6 [0x2001; 0x10], 28); (ip6 [0x2001; 0x20], 28);
   (ip6 [0x2001; 0xdb8], 32); (ip6 [0x2002], 16); (ip6 [0x3fff], 20)].

Lemma top_block width bits a c :
  bits <= width -> (top width bits a =? c) = true <-> in_block width (c * 2 ^ (width - bits), bits) a.
Proof.
  intros B. unfold top, in_block. rewrite N.shiftr_div_pow2, N.eqb_eq. simpl.
  assert (2 ^ (width - bits) <> 0) as M by (by apply N.pow_nonzero).
  pose proof (N.div_mod a _ M). pose proof (N.mod_lt a _ M). split; [intros <-; nia|].
  intros [L U]. symmetry. apply (N.div_unique a _ _ (a - c * 2 ^ (width - bits))); nia.
Qed.
Lemma top_block_prefix width bits a p :
  bits <= width -> (top width bits a =? top width bits p) = true <-> in_block width (top width bits p * 2 ^ (width - bits), bits) a.
Proof. intros B. by apply top_block. Qed.
Lemma top_outside width bits a c :
  bits <= width -> top width bits a <> c <-> ~ in_block width (c * 2 ^ (width - bits), bits) a.
Proof. intros B. by rewrite <- top_block, N.eqb_eq. Qed.

(** Decisions about an address as inequalities between constants. *)
Ltac const t := let v := eval vm_compute in t in change t with v in *.
Ltac blocks :=
  rewrite ?top_outside by (vm_compute; discriminate); unfold in_block; cbn [fst snd];
  repeat match goal with
  | |- context [top ?w ?b (ip4 ?x ?y ?z ?t)] => const (top w b (ip4 x y z t))
  | |- context [top ?w ?b (ip6 ?l)] => const (top w b (ip6 l))
  | |- context [?x * 2 ^ ?y] => const (x * 2 ^ y)
  | |- context [2 ^ (?x - ?y)] => const (2 ^ (x - y))
  | |- context [ip4 ?a ?b ?c ?d] => const (ip4 a b c d)
  | |- context [ip6 ?l] => const (ip6 l)
  end.
Lemma addr_zero a (addr zero : Addr) : (a = 0 -> addr = zero) -> (addr = zero -> a = 0) -> bool_decide (addr = zero) = (a =? 0).
Proof. intros F B. destruct (N.eqb_spec a 0); [apply bool_decide_eq_true_2|apply bool_decide_eq_false_2]; auto. Qed.
Lemma accept_iff (c d : bool) : (if c then false else negb d) = true <-> c = false /\ d = false.
Proof. destruct c, d; naive_solver. Qed.
Lemma public4 a : publicAddress (V4 a) = true <-> Forall (fun block => ~ in_block 32 block a) special4.
Proof.
  unfold publicAddress, IsGlobalUnicast, Contains_addr, special4, blockedPrefixes.
  cbn [Unmap IsValid IsLoopback IsPrivate IsMulticast IsLinkLocalUnicast
    IsLinkLocalMulticast IsInterfaceLocalMulticast Is6 negb orb andb existsb].
  unfold IsUnspecified.
  assert (bool_decide (V4 a = V4 0) = (a =? 0)) as ->.
  { by apply addr_zero; [intros ->|intros [= ->]]. }
  rewrite (bool_decide_eq_false_2 (V4 a = V6 _ _)) by done.
  rewrite !Forall_cons, Forall_nil.
  rewrite accept_iff.
  rewrite !orb_false_iff, !negb_false_iff, !andb_true_iff, !negb_true_iff, !orb_false_iff, !N.eqb_neq.
  blocks. const (N.ones 32). lia.
Qed.

Lemma public6 a zone :
  Unmap (V6 a zone) = V6 a zone ->
  publicAddress (V6 a zone) = true <->
  zone = "" /\ in_block 128 (ip6 [0x2000], 3) a /\ Forall (fun block => ~ in_block 128 block a) special6.
Proof.
  intros U. unfold publicAddress. rewrite U. unfold IsGlobalUnicast, Contains_addr, special6, blockedPrefixes, globalIPv6.
  cbn [IsValid IsLoopback IsPrivate IsMulticast IsLinkLocalUnicast
    IsLinkLocalMulticast IsInterfaceLocalMulticast Is6 negb orb andb existsb].
  rewrite !Forall_cons, Forall_nil.
  destruct (decide (zone = "")) as [->|Z].
  2:{ rewrite (bool_decide_eq_false_2 (zone = "")) by done. cbn [andb negb].
      rewrite orb_true_r. split; [done|by intros [? _]]. }
  unfold IsUnspecified. rewrite (bool_decide_eq_true_2 (("" : string) = "")) by done. cbn [andb].
  assert (bool_decide (V6 a "" = V6 0 "") = (a =? 0)) as ->.
  { by apply addr_zero; [intros ->|intros [= ->]]. }
  rewrite (bool_decide_eq_false_2 (V6 a "" = V4 _)) by done.
  rewrite accept_iff.
  rewrite !orb_false_iff, !negb_false_iff, ?andb_true_iff, !negb_true_iff, !orb_false_iff.
  rewrite (top_block_prefix 128 3) by done. rewrite !N.eqb_neq.
  pose proof (N.land_le_l (top 128 16 a) 65295).
  assert (in_block 128 (ip6 [0x2000], 3) a -> top 128 16 a < 16384) as Small.
  { unfold top, in_block. rewrite N.shiftr_div_pow2. blocks. intros [_ L].
    const (128 - 16). apply N.Div0.div_lt_upper_bound. const (2 ^ 112). lia. }
  revert Small. blocks. intros Small.
  set (m := N.land (top 128 16 a) 65295) in *. set (t := top 128 16 a) in *. clearbody m t.
  split; [intros; split; [done|lia]|intros [_ ?]; lia].
Qed.

(** A tunnel reaches public addresses only.  [publicAddress] accepts
    exactly: an IPv4 address (or an IPv6 address that maps one) outside every
    special-purpose block, private, shared, loopback, link-local (the cloud's
    metadata service), documentation, benchmarking, multicast and reserved ones
    included; or an IPv6 address without a zone in the global unicast block
    that is in none of its special-purpose blocks, those that embed an IPv4
    address (6to4, Teredo) included. *)
Theorem publicAddress_spec addr :
  publicAddress addr = true <->
  match Unmap addr with
  | NoAddr => False
  | V4 a => Forall (fun block => ~ in_block 32 block a) special4
  | V6 a zone => zone = "" /\ in_block 128 (ip6 [0x2000], 3) a /\ Forall (fun block => ~ in_block 128 block a) special6
  end.
Proof.
  destruct addr as [|a|a zone]; [done|apply public4|].
  destruct (decide (Unmap (V6 a zone) = V6 a zone)) as [U|U]; [rewrite U; by apply public6|].
  unfold Unmap in *. destruct (N.shiftr a 32 =? 65535) eqn:M; [|done].
  rewrite <- public4. unfold publicAddress, Unmap. by rewrite M.
Qed.
