(* ===== verification/ClientHello.v ===== *)
(** * The inspection of a TLS ClientHello ([internal/egress/clienthello.go])

    The gateway reads the first plaintext handshake of a tunnel before any
    byte of it reaches the upstream, and lets it pass only when its server name
    is the host the tunnel was opened for.  Bytes are [ascii] characters and
    the connection is the list of the bytes the client will send before it
    closes.  Both loops run on fuel that the length of the input bounds
    ([checkClientHello_spec], [readClientHello_spec]). *)
From S2P Require Import Prelude GoStrings Utf8 GoErrors NetIP Config Wire.
Local Open Scope string_scope.
Local Open Scope list_scope.
Local Open Scope N_scope.

Definition maxClientHello : N := 65536.
Definition maxClientHelloWire : N := 131072.
Definition maxTLSPlaintext : N := 16384.
Definition malformedHello : error := New "malformed TLS ClientHello".
Definition largeHello : error := New "TLS ClientHello exceeds the inspection limit".

(** ** Vectors *)

(** [tlsVector(&data, width)]: the vector and what is left of [data]. *)
Definition tlsVector (data : list ascii) (width : nat) : option (list ascii * list ascii) :=
  if (List.length data <? width)%nat then None else
  let n := N.to_nat (if (width =? 2)%nat then be (take 2 data) else be (take 1 data)) in
  let data := drop width data in
  if (List.length data <? n)%nat then None else Some (take n data, drop n data).

(** ** The server name *)

Section hello.
Context `{Unicode}.

Definition checkServerName (data : list ascii) (host : string) : result unit error :=
  match tlsVector data 2 with
  | None => Err malformedHello
  | Some (names, data) =>
    guard negb (negb (lenN data =? 0) || bool_decide (names = []) || negb (be (take 1 names) =? 0)) else malformedHello;
    let names := drop 1 names in
    match tlsVector names 2 with
    | None => Err malformedHello
    | Some (name, names) =>
      guard negb (negb (lenN names =? 0) || (lenN name =? 0) || HasSuffix (str name) ".") else malformedHello;
      guard forallb (fun c => val c <=? 127) name else malformedHello;
      match NormalizeHost (str name) with
      | Err _ => Err malformedHello
      | Ok normalized =>
        guard bool_decide (normalized = host) else New "TLS server name does not match CONNECT host";
        Ok tt
      end
    end
  end.

(** ** The extensions *)

(** [seen], the bit set of the extension kinds met, one byte for eight. *)
Definition bit_seen (seen : gmap N N) (kind : N) : bool :=
  negb (N.land (default 0 (seen !! (kind / 8))) (N.shiftl 1 (kind mod 8)) =? 0).
Definition mark_seen (seen : gmap N N) (kind : N) : gmap N N :=
  <[kind / 8 := N.lor (default 0 (seen !! (kind / 8))) (N.shiftl 1 (kind mod 8))]> seen.

(** The loop over the extensions: the answer is [foundName]. *)
Fixpoint check_extensions (fuel : nat) (host : string) (seen : gmap N N) (foundName : bool)
    (extensions : list ascii) : option (result bool error) :=
  match extensions with
  | [] => Some (Ok foundName)
  | _ =>
    match fuel with
    | O => None
    | S fuel =>
      if (List.length extensions <? 4)%nat then Some (Err malformedHello) else
      let kind := be (take 2 extensions) in
      match tlsVector (drop 2 extensions) 2 with
      | None => Some (Err malformedHello)
      | Some (value, extensions) =>
        if bit_seen seen kind then Some (Err malformedHello) else
        let seen := mark_seen seen kind in
        if kind =? 0 then
          match checkServerName value host with
          | Err e => Some (Err e)
          | Ok _ => check_extensions fuel host seen true extensions
          end
        else if kind =? 65037 then Some (Err (New "encrypted ClientHello is not allowed"))
        else check_extensions fuel host seen foundName extensions
      end
    end
  end.

(** The fields before the extensions: the extensions. *)
Definition hello_extensions (data : list ascii) : result (list ascii) error :=
  guard negb ((List.length data <? 34)%nat || negb (be (take 1 data) =? 3)
              || (be (take 1 (drop 1 data)) <? 1) || (3 <? be (take 1 (drop 1 data)))) else malformedHello;
  let data := drop 34 data in
  match tlsVector data 1 with
  | None => Err malformedHello
  | Some (session, data) =>
    guard negb (32 <? lenN session) else malformedHello;
    match tlsVector data 2 with
    | None => Err malformedHello
    | Some (ciphers, data) =>
      guard negb ((lenN ciphers <? 2) || negb (lenN ciphers mod 2 =? 0)) else malformedHello;
      match tlsVector data 1 with
      | None => Err malformedHello
      | Some (compression, data) =>
        guard negb (lenN compression =? 0) else malformedHello;
        match tlsVector data 2 with
        | None => Err malformedHello
        | Some (extensions, data) =>
          guard lenN data =? 0 else malformedHello;
          Ok extensions
        end
      end
    end
  end.
Definition checkClientHello (data : list ascii) (host : string) : option (result unit error) :=
  match hello_extensions data with
  | Err e => Some (Err e)
  | Ok extensions =>
    match check_extensions (List.length extensions) host ∅ false extensions with
    | None => None
    | Some (Err e) => Some (Err e)
    | Some (Ok true) => Some (Ok tt)
    | Some (Ok false) => Some (Err (New "TLS ClientHello requires plaintext SNI"))
    end
  end.

(** ** The records *)

(** [readClientHello]'s loop: the records read, the handshake bytes they
    carry, the number of them wanted, and the connection. *)
Record reading := mkReading { records : list ascii; message : list ascii; want : N; conn : list ascii }.
Definition read_record (s : reading) : result reading error :=
  let! read := ReadFull 5 (conn s) in
  let '(header, r) := read in
  let byte i := be (take 1 (drop i header)) in
  guard negb (negb (byte 0%nat =? 22) || negb (byte 1%nat =? 3) || (byte 2%nat <? 1) || (3 <? byte 2%nat))
    else New "a plaintext TLS ClientHello is required";
  let n := be (drop 3 header) in
  guard negb ((n =? 0) || (maxTLSPlaintext <? n)) else malformedHello;
  guard negb (maxClientHelloWire <? lenN (records s) + 5 + n) else largeHello;
  let! read := ReadFull (N.to_nat n) r in
  let '(fragment, r) := read in
  let records := records s ++ header ++ fragment in
  let message := message s ++ fragment in
  if lenN message <? 4 then Ok (mkReading records message (want s) r) else
  guard be (take 1 message) =? 1 else New "the first TLS handshake must be a ClientHello";
  let n := be (take 3 (drop 1 message)) in
  guard negb (maxClientHello - 4 <? n) else largeHello;
  Ok (mkReading records message (4 + n) r).
Fixpoint read_hello (fuel : nat) (s : reading) : option (result reading error) :=
  if want s <=? lenN (message s) then Some (Ok s) else
  match fuel with
  | O => None
  | S fuel => match read_record s with
              | Err e => Some (Err e)
              | Ok s => read_hello fuel s
              end
  end.
(** The records to replay, and the connection after them. *)
Definition readClientHello (r : list ascii) (host : string) : option (result (list ascii * list ascii) error) :=
  match read_hello (S (List.length r)) (mkReading [] [] 4 r) with
  | None => None
  | Some (Err e) => Some (Err e)
  | Some (Ok s) =>
    match checkClientHello (take (N.to_nat (want s - 4)) (drop 4 (message s))) host with
    | None => None
    | Some (Err e) => Some (Err e)
    | Some (Ok _) => Some (Ok (records s, conn s))
    end
  end.
End hello.

(** ** The grammar

    What the parser accepts, written as what a client writes. *)

(** A format: how a value is written, which values have one, and the reader
    that inverts it. *)
Class Codec {A} (write : A -> list ascii) (valid : A -> Prop) (read : list ascii -> option (A * list ascii)) : Prop :=
  codec data a rest : read data = Some (a, rest) <-> valid a /\ data = write a ++ rest.

Definition put16 (n : N) : list ascii := [byte_of (N.shiftr n 8); byte_of n].
Definition put24 (n : N) : list ascii := byte_of (N.shiftr n 16) :: put16 n.
Definition vec8 (v : list ascii) : list ascii := byte_of (lenN v) :: v.
Definition vec16 (v : list ascii) : list ascii := put16 (lenN v) ++ v.
Definition extension_bytes (e : N * list ascii) : list ascii := put16 (fst e) ++ vec16 (snd e).

Record Hello := mkHello {
  hello_version : ascii; hello_random : list ascii; hello_session : list ascii; hello_ciphers : list ascii;
  hello_compression : list ascii; hello_exts : list (N * list ascii) }.
(** The body of the ClientHello message (RFC 8446, section 4.1.2). *)
Definition hello_bytes (h : Hello) : list ascii :=
  [byte_of 3; hello_version h] ++ hello_random h ++ vec8 (hello_session h) ++ vec16 (hello_ciphers h)
  ++ vec8 (hello_compression h) ++ vec16 (flat_map extension_bytes (hello_exts h)).

(** The value of a server_name extension with one host name (RFC 6066). *)
Definition server_name_bytes (name : list ascii) : list ascii := vec16 (byte_of 0 :: vec16 name).
Definition names_host `{Unicode} (host : string) (value : list ascii) : Prop :=
  exists name, value = server_name_bytes name /\ 0 < lenN name < 65533
    /\ HasSuffix (str name) "." = false /\ Forall (fun c => val c <= 127) name
    /\ NormalizeHost (str name) = Ok host.
(** A ClientHello the gateway lets through to [host]. *)
Record hello_ok `{Unicode} (host : string) (h : Hello) : Prop := {
  ok_version : 1 <= val (hello_version h) <= 3;
  ok_random : List.length (hello_random h) = 32%nat;
  ok_session : lenN (hello_session h) <= 32;
  ok_ciphers : 2 <= lenN (hello_ciphers h) < 65536 /\ lenN (hello_ciphers h) mod 2 = 0;
  ok_compression : 0 < lenN (hello_compression h) < 256;
  ok_exts_length : lenN (flat_map extension_bytes (hello_exts h)) < 65536;
  ok_exts : Forall (fun e => fst e < 65536 /\ lenN (snd e) < 65536) (hello_exts h);
  ok_exts_once : NoDup (hello_exts h).*1;
  ok_no_ech : 65037 ∉ (hello_exts h).*1;
  ok_name : exists value, (0, value) ∈ hello_exts h /\ names_host host value;
}.

(** *** Numbers *)

Lemma be_cons c l : be (c :: l) = val c * 256 ^ lenN l + be l.
Proof.
  unfold be. cbn [foldl]. rewrite N.add_0_l.
  assert (forall l acc, foldl (fun acc c => acc * 256 + val c) acc l = acc * 256 ^ lenN l + foldl (fun acc c => acc * 256 + val c) 0 l) as F.
  { clear. unfold lenN. induction l as [|c l IH]; intros acc; [simpl; lia|]. cbn [foldl List.length].
    rewrite IH, (IH (0 * 256 + val c)), Nat2N.inj_succ, N.pow_succ_r'. nia. }
  apply F.
Qed.
Lemma be_put16 n : n < 65536 -> be (put16 n) = n.
Proof.
  intros L. unfold put16. rewrite N.shiftr_div_pow2, !be_cons. change (2 ^ 8) with 256.
  rewrite <- (byte_of_mod n), !val_byte; [|by apply N.mod_lt|by apply N.Div0.div_lt_upper_bound].
  change (256 ^ lenN [byte_of (n mod 256)]) with 256. change (256 ^ lenN (@nil ascii)) with 1.
  change (be []) with 0. pose proof (N.div_mod n 256 ltac:(done)). lia.
Qed.
Lemma put16_be l : List.length l = 2%nat -> put16 (be l) = l.
Proof.
  destruct l as [|a [|b [|]]]; try done. intros _. unfold put16, be. cbn [foldl].
  rewrite N.shiftr_div_pow2. change (2 ^ 8) with 256. by rewrite high_div, !byte_of_high.
Qed.
Lemma put24_be l : List.length l = 3%nat -> put24 (be l) = l.
Proof.
  destruct l as [|a [|b [|c [|]]]]; try done. intros _. unfold put24, put16, be. cbn [foldl].
  rewrite !N.shiftr_div_pow2. change (2 ^ 16) with (256 * 256). change (2 ^ 8) with 256.
  by rewrite <- N.Div0.div_div, !high_div, !byte_of_high.
Qed.
Lemma be_small l : List.length l = 1%nat -> be l < 256.
Proof. intros L. pose proof (be_bound l). unfold lenN in *. rewrite L in *. exact H. Qed.
Lemma be_16 l : List.length l = 2%nat -> be l < 65536.
Proof. intros L. pose proof (be_bound l). unfold lenN in *. rewrite L in *. exact H. Qed.
Lemma byte_be l : List.length l = 1%nat -> [byte_of (be l)] = l.
Proof. destruct l as [|a [|]]; try done. intros _. unfold be. cbn [foldl]. by rewrite byte_of_high. Qed.

(** *** Vectors *)

Lemma tlsVector_spec data width v rest :
  (width = 1 \/ width = 2)%nat ->
  tlsVector data width = Some (v, rest) <->
  lenN v < 256 ^ N.of_nat width /\ data = (if (width =? 2)%nat then vec16 v else vec8 v) ++ rest.
Proof.
  intros W. unfold tlsVector.
  set (head := if (width =? 2)%nat then _ else _).
  assert (head = be (take width data)) as -> by (unfold head; destruct W as [->| ->]; done). split.
  - destruct (Nat.ltb_spec (List.length data) width) as [|L]; [done|].
    destruct (Nat.ltb_spec (List.length (drop width data)) (N.to_nat (be (take width data)))) as [|L2]; [done|].
    intros [= <- <-].
    assert (List.length (take width data) = width) as T by (rewrite length_take; lia).
    assert (lenN (take (N.to_nat (be (take width data))) (drop width data)) = be (take width data)) as V.
    { unfold lenN. rewrite length_take. lia. }
    split.
    + rewrite V. pose proof (be_bound (take width data)) as B. unfold lenN in B. by rewrite T in B.
    + assert (data = take width data ++ take (N.to_nat (be (take width data))) (drop width data)
                     ++ drop (N.to_nat (be (take width data))) (drop width data)) as E by (by rewrite !take_drop).
      rewrite E at 1. rewrite app_assoc. f_equal.
      destruct W as [->| ->]; cbn [Nat.eqb]; unfold vec8, vec16; rewrite V.
      * change (?x :: ?l) with ([x] ++ l). by rewrite byte_be.
      * by rewrite put16_be.
  - intros [B ->].
    assert (exists h, (if (width =? 2)%nat then vec16 v else vec8 v) = h ++ v /\ List.length h = width /\ be h = lenN v)
      as (h & -> & L & E).
    { destruct W as [->| ->]; cbn [Nat.eqb].
      - exists [byte_of (lenN v)]. split_and!; [done|done|]. rewrite be_cons. change (256 ^ lenN []) with 1.
        change (be []) with 0. rewrite val_byte by exact B. lia.
      - exists (put16 (lenN v)). split_and!; [done|done|]. by apply be_put16. }
    rewrite <- app_assoc. rewrite take_app_length', drop_app_length' by done. rewrite E, !length_app.
    destruct (Nat.ltb_spec (List.length h + (List.length v + List.length rest)) width); [lia|].
    unfold lenN. rewrite Nat2N.id.
    destruct (Nat.ltb_spec (List.length v + List.length rest) (List.length v)); [lia|].
    by rewrite take_app_length, drop_app_length.
Qed.
#[export] Instance vec8_codec : Codec vec8 (fun v => lenN v < 256) (fun data => tlsVector data 1).
Proof. intros data v rest. apply tlsVector_spec. by left. Qed.
#[export] Instance vec16_codec : Codec vec16 (fun v => lenN v < 65536) (fun data => tlsVector data 2).
Proof. intros data v rest. apply (tlsVector_spec data 2). by right. Qed.

(** *** The server name *)

Lemma bool_decide_or' (P Q : Prop) `{Decision P, Decision Q} :
  bool_decide P || bool_decide Q = bool_decide (P \/ Q).
Proof. repeat case_bool_decide; tauto. Qed.

Section names.
Context `{Unicode}.

Lemma checkServerName_spec value host :
  checkServerName value host = Ok tt <-> names_host host value.
Proof.
  unfold checkServerName, names_host, server_name_bytes. split.
  - destruct (tlsVector value 2) as [[names data]|] eqn:V; [|done]. apply (vec16_codec _ _ _) in V as [VL ->].
    intros C. ok_inv C. destruct (tlsVector (drop 1 names) 2) as [[name rest]|] eqn:N; [|done].
    apply (vec16_codec _ _ _) in N as [NL NE]. ok_inv C. destruct (NormalizeHost (str name)) as [h|] eqn:NH; [|done].
    ok_inv C. bool_hyps. subst h.
    destruct names as [|c names]; [done|]. assert (data = []) as -> by (by destruct data).
    assert (rest = []) as -> by (by destruct rest). rewrite app_nil_r in *. cbn [drop take] in *.
    rewrite ?take_0, ?drop_0 in *. subst names.
    exists name. split_and!; try done.
    + f_equal. f_equal. match goal with Z : be _ = 0 |- _ => rewrite be_cons in Z end. change (256 ^ lenN []) with 1 in *. change (be []) with 0 in *.
      rewrite <- (byte_of_val_id c). f_equal. lia.
    + lia.
    + unfold vec16, lenN in VL. simpl in VL. unfold lenN. lia.
    + apply Forall_forall. intros x I. rewrite forallb_forall in *.
      match goal with F : forall x, In x name -> _ |- _ => specialize (F x (proj1 (list_elem_of_In _ _) I)) end.
      by bool_hyps.
  - intros (name & -> & [L U] & S & A & N).
    assert (tlsVector (vec16 (byte_of 0 :: vec16 name)) 2 = Some (byte_of 0 :: vec16 name, [])) as ->.
    { apply (vec16_codec _ _ _). rewrite app_nil_r. split; [|done]. unfold vec16, lenN in *. simpl. lia. }
    change (be (take 1 (byte_of 0 :: vec16 name))) with 0.
    change (drop 1 (byte_of 0 :: vec16 name)) with (vec16 name).
    rewrite bool_decide_eq_false_2 by done. cbn [negb orb N.eqb lenN List.length].
    change (lenN [] =? 0) with true. cbn [negb orb].
    assert (tlsVector (vec16 name) 2 = Some (name, [])) as ->.
    { apply (vec16_codec _ _ _). rewrite app_nil_r. split; [lia|done]. }
    change (lenN [] =? 0) with true. cbn [negb orb].
    destruct (N.eqb_spec (lenN name) 0) as [Z|_]; [lia|]. rewrite S. cbn [negb orb].
    assert (forallb (fun c => val c <=? 127) name = true) as ->.
    { apply forallb_forall. intros x I. apply N.leb_le. apply list_elem_of_In in I. by eapply Forall_forall in A. }
    rewrite N. by rewrite bool_decide_eq_true_2.
Qed.

(** *** The bit set *)

Lemma bit_seen_testbit seen k : bit_seen seen k = N.testbit (default 0 (seen !! (k / 8))) (k mod 8).
Proof.
  unfold bit_seen. set (x := default 0 _). set (n := k mod 8). rewrite N.shiftl_1_l.
  destruct (N.testbit x n) eqn:T.
  - apply negb_true_iff, N.eqb_neq. intros Z. apply (f_equal (fun y => N.testbit y n)) in Z.
    rewrite N.land_spec, T, N.pow2_bits_true, N.bits_0 in Z. done.
  - apply negb_false_iff, N.eqb_eq, N.bits_inj_0. intros m. rewrite N.land_spec.
    destruct (decide (n = m)) as [<-|D]; [by rewrite T|]. by rewrite N.pow2_bits_false, andb_false_r.
Qed.
Lemma bit_seen_mark seen k k' : bit_seen (mark_seen seen k) k' = bool_decide (k = k') || bit_seen seen k'.
Proof.
  rewrite !bit_seen_testbit. unfold mark_seen. rewrite N.shiftl_1_l.
  destruct (decide (k / 8 = k' / 8)) as [E|E].
  - rewrite E, lookup_insert_eq. simpl. rewrite N.lor_spec, orb_comm. f_equal.
    destruct (decide (k mod 8 = k' mod 8)) as [M|M].
    + rewrite M, N.pow2_bits_true. symmetry. apply bool_decide_eq_true_2.
      rewrite (N.div_mod k 8), (N.div_mod k' 8) by done. congruence.
    + rewrite N.pow2_bits_false by done. symmetry. apply bool_decide_eq_false_2. congruence.
  - rewrite lookup_insert_ne by done. rewrite bool_decide_eq_false_2 by congruence. done.
Qed.

(** *** The extensions *)

Lemma extension_length e : (4 <= List.length (extension_bytes e))%nat.
Proof. unfold extension_bytes, vec16. rewrite !length_app. simpl. lia. Qed.

(** What the loop accepts from here on: [kinds] were met before. *)
Record exts_ok (host : string) (seen : gmap N N) (exts : list (N * list ascii)) : Prop := {
  exts_valid : Forall (fun e => fst e < 65536 /\ lenN (snd e) < 65536) exts;
  exts_once : NoDup exts.*1;
  exts_unseen : Forall (fun k => bit_seen seen k = false) exts.*1;
  exts_no_ech : 65037 ∉ exts.*1;
  exts_names : Forall (fun e => fst e = 0 -> names_host host (snd e)) exts;
}.
Lemma exts_ok_cons host seen k v exts :
  exts_ok host seen ((k, v) :: exts) <->
  k < 65536 /\ lenN v < 65536 /\ bit_seen seen k = false /\ k <> 65037 /\ (k = 0 -> names_host host v)
  /\ exts_ok host (mark_seen seen k) exts.
Proof.
  split.
  - intros [V O U E N]. apply Forall_cons in V as [[] V]. apply NoDup_cons in O as [NI O].
    apply Forall_cons in U as [U1 U]. apply Forall_cons in N as [N1 N]. rewrite fmap_cons in E. simpl in *.
    split_and!; try done; [set_solver|]. split; try done; [|set_solver].
    apply Forall_forall. intros x I. rewrite bit_seen_mark, orb_false_iff. split.
    + apply bool_decide_eq_false_2. by intros ->.
    + by eapply Forall_forall in U.
  - intros (K & L & S & E & N & [V O U C M]).
    assert (forall x, x ∈ exts.*1 -> k <> x /\ bit_seen seen x = false) as A.
    { intros x I. eapply Forall_forall in U; [|exact I]. rewrite bit_seen_mark in U. by bool_hyps. }
    split; rewrite ?fmap_cons; simpl.
    + by constructor.
    + constructor; [|done]. intros I. by apply A in I as [? _].
    + constructor; [done|]. apply Forall_forall. intros x I. by apply A.
    + set_solver.
    + by constructor.
Qed.
Lemma extension_head bytes k v rest :
  (2 <= List.length bytes)%nat ->
  be (take 2 bytes) = k /\ tlsVector (drop 2 bytes) 2 = Some (v, rest) <->
  k < 65536 /\ lenN v < 65536 /\ bytes = extension_bytes (k, v) ++ rest.
Proof.
  intros L. rewrite (vec16_codec _ _ _). split.
  - intros (<- & V & E). assert (List.length (take 2 bytes) = 2%nat) as T by (rewrite length_take; lia).
    split; [by apply be_16|]. split; [done|]. unfold extension_bytes. cbn [fst snd].
    rewrite put16_be, <- app_assoc, <- E by done. symmetry. apply take_drop.
  - intros (K & V & ->). split; [|done]. by apply be_put16.
Qed.
Lemma exts_ok_nil host seen : exts_ok host seen [].
Proof. split; try constructor. by intros ?%elem_of_nil. Qed.
Lemma flat_map_extensions_nil exts : flat_map extension_bytes exts = [] -> exts = [].
Proof. by destruct exts. Qed.

(** What follows the first extension. *)
Lemma extensions_cons bytes k v rest host seen found b :
  bytes = extension_bytes (k, v) ++ rest -> k < 65536 -> lenN v < 65536 ->
  (exists exts, bytes = flat_map extension_bytes exts /\ exts_ok host seen exts
             /\ b = found || bool_decide (0 ∈ exts.*1)) <->
  bit_seen seen k = false /\ k <> 65037 /\ (k = 0 -> names_host host v)
  /\ exists exts, rest = flat_map extension_bytes exts /\ exts_ok host (mark_seen seen k) exts
              /\ b = (found || bool_decide (k = 0)) || bool_decide (0 ∈ exts.*1).
Proof.
  intros E K VL.
  assert (2 <= List.length bytes)%nat as L by (rewrite E, length_app; pose proof (extension_length (k, v)); lia).
  destruct (proj2 (extension_head bytes k v rest L)) as [H1 H2]; [done|]. split.
  - intros ([|[k' v'] exts] & E' & O & B); [by subst|]. apply exts_ok_cons in O as (K' & VL' & U & N & NM & O).
    destruct (proj2 (extension_head bytes k' v' (flat_map extension_bytes exts) L)) as [H3 H4]; [done|].
    assert (k' = k) as -> by congruence. rewrite H2 in H4. injection H4 as -> ->.
    split_and!; try done. exists exts. split_and!; [done|done|]. rewrite B, fmap_cons, <- orb_assoc. f_equal. simpl.
    rewrite bool_decide_or'. apply bool_decide_ext. rewrite elem_of_cons. naive_solver.
  - intros (U & N & NM & exts & -> & O & ->). exists ((k, v) :: exts). split_and!; [done|by apply exts_ok_cons|].
    rewrite fmap_cons, <- orb_assoc. f_equal. simpl.
    rewrite bool_decide_or'. apply bool_decide_ext. rewrite elem_of_cons. naive_solver.
Qed.
Lemma check_extensions_cons fuel host seen found bytes :
  bytes <> [] ->
  check_extensions (S fuel) host seen found bytes =
  if (List.length bytes <? 4)%nat then Some (Err malformedHello) else
  match tlsVector (drop 2 bytes) 2 with
  | None => Some (Err malformedHello)
  | Some (value, rest) =>
    if bit_seen seen (be (take 2 bytes)) then Some (Err malformedHello) else
    if be (take 2 bytes) =? 0 then
      match checkServerName value host with
      | Err e => Some (Err e)
      | Ok _ => check_extensions fuel host (mark_seen seen (be (take 2 bytes))) true rest
      end
    else if be (take 2 bytes) =? 65037 then Some (Err (New "encrypted ClientHello is not allowed"))
    else check_extensions fuel host (mark_seen seen (be (take 2 bytes))) found rest
  end.
Proof. by destruct bytes. Qed.
Lemma check_extensions_total fuel host seen found bytes :
  (List.length bytes <= fuel)%nat -> check_extensions fuel host seen found bytes <> None.
Proof.
  revert seen found bytes. induction fuel as [|fuel IH]; intros seen found bytes L.
  - by destruct bytes; [|simpl in L; lia].
  - destruct (decide (bytes = [])) as [->|NE]; [done|]. rewrite check_extensions_cons by done.
    destruct (_ <? 4)%nat eqn:S4; [done|]. apply Nat.ltb_ge in S4.
    destruct (tlsVector (drop 2 bytes) 2) as [[v rest]|] eqn:V; [|done].
    assert (List.length rest <= fuel)%nat.
    { apply (vec16_codec _ _ _) in V as [_ V]. apply (f_equal (@List.length ascii)) in V.
      rewrite length_drop in V. unfold vec16 in V. rewrite !length_app in V. simpl in V. lia. }
    repeat destruct_cond; try done; try by apply IH. destruct (checkServerName v host); [by apply IH|done].
Qed.

Lemma check_extensions_spec fuel host seen found bytes b :
  (List.length bytes <= fuel)%nat ->
  check_extensions fuel host seen found bytes = Some (Ok b) <->
  exists exts, bytes = flat_map extension_bytes exts /\ exts_ok host seen exts
            /\ b = found || bool_decide (0 ∈ exts.*1).
Proof.
  revert seen found bytes. induction fuel as [|fuel IH]; intros seen found bytes L.
  - destruct bytes; [|simpl in L; lia]. simpl. split.
    + intros [= <-]. exists []. split_and!; [done|apply exts_ok_nil|]. by rewrite orb_false_r.
    + intros (exts & E%eq_sym%flat_map_extensions_nil & _ & ->). subst. simpl. by rewrite orb_false_r.
  - destruct (decide (bytes = [])) as [->|NE].
    { simpl. split.
      + intros [= <-]. exists []. split_and!; [done|apply exts_ok_nil|]. by rewrite orb_false_r.
      + intros (exts & E%eq_sym%flat_map_extensions_nil & _ & ->). subst. simpl. by rewrite orb_false_r. }
    rewrite check_extensions_cons by done.
    destruct (Nat.ltb_spec (List.length bytes) 4) as [S4|S4].
    { split; [done|]. intros ([|e exts] & -> & _ & _); [done|]. exfalso.
      pose proof (extension_length e). cbn [flat_map] in S4. rewrite length_app in S4. lia. }
    destruct (tlsVector (drop 2 bytes) 2) as [[v rest]|] eqn:V.
    2:{ split; [done|]. intros ([|[k v] exts] & E & O & _); [by rewrite E in NE|]. exfalso.
        apply exts_ok_cons in O as (K & VL & _).
        destruct (proj2 (extension_head bytes k v (flat_map extension_bytes exts) ltac:(lia))) as [_ C]; [done|congruence]. }
    destruct (proj1 (extension_head bytes _ v rest ltac:(lia)) (conj eq_refl V)) as (K & VL & E).
    set (k := be (take 2 bytes)) in *. clearbody k. clear V.
    assert (List.length rest <= fuel)%nat as Lr.
    { rewrite E, length_app in L. pose proof (extension_length (k, v)). lia. }
    rewrite (extensions_cons _ k v rest) by done.
    destruct (bit_seen seen k); [naive_solver|]. destruct (N.eqb_spec k 0) as [->|K0].
    + destruct (checkServerName v host) as [[]|e] eqn:C.
      * apply checkServerName_spec in C. rewrite IH by done. rewrite orb_true_r. simpl. naive_solver.
      * split; [done|]. intros (_ & _ & M & _). apply checkServerName_spec in M; [congruence|done].
    + destruct (N.eqb_spec k 65037) as [->|KE]; [naive_solver|]. rewrite IH by done.
      rewrite (bool_decide_eq_false_2 (k = 0)), orb_false_r by done. naive_solver.
Qed.

(** *** The message *)

Lemma hello_extensions_spec data bytes :
  hello_extensions data = Ok bytes <->
  exists v r s c m, data = [byte_of 3; v] ++ r ++ vec8 s ++ vec16 c ++ vec8 m ++ vec16 bytes
    /\ 1 <= val v <= 3 /\ List.length r = 32%nat /\ lenN s <= 32 /\ 2 <= lenN c < 65536 /\ lenN c mod 2 = 0
    /\ 0 < lenN m < 256 /\ lenN bytes < 65536.
Proof.
  unfold hello_extensions. split.
  - intros E. ok_inv E. destruct data as [|b0 [|b1 l]]; [done|done|].
    destruct (tlsVector _ 1) as [[s d1]|] eqn:S; [|done]. ok_inv E.
    destruct (tlsVector d1 2) as [[c d2]|] eqn:C; [|done]. ok_inv E.
    destruct (tlsVector d2 1) as [[m d3]|] eqn:M; [|done]. ok_inv E.
    destruct (tlsVector d3 2) as [[x d4]|] eqn:X; [|done]. ok_inv E. subst x.
    apply (vec8_codec _ _ _) in S as [_ S]. apply (vec16_codec _ _ _) in C as [CL ->].
    apply (vec8_codec _ _ _) in M as [ML ->]. apply (vec16_codec _ _ _) in X as [XL ->].
    assert (d4 = []) as -> by (bool_hyps; by destruct d4). rewrite app_nil_r in S.
    bool_hyps. match goal with L : (_ <? 34)%nat = false |- _ => apply Nat.ltb_ge in L; simpl in L end.
    repeat match goal with B : context [be (take 1 _)] |- _ => revert B end.
    change (drop 1 (b0 :: b1 :: l)) with (drop 0 (b1 :: l)). rewrite drop_0.
    change (take 1 (b0 :: b1 :: l)) with [b0]. change (take 1 (b1 :: l)) with [b1].
    unfold be. cbn [foldl]. rewrite !N.add_0_l. intros.
    exists b1, (take 32 l), s, c, m. split_and!; try lia.
    + assert (b0 = byte_of 3) as -> by (match goal with Z : val b0 = 3 |- _ => rewrite <- Z end; symmetry; apply byte_of_val_id).
      change (drop 34 (byte_of 3 :: b1 :: l)) with (drop 32 l) in S.
      rewrite <- S. simpl. by rewrite take_drop.
    + rewrite length_take. lia.
  - intros (v & r & s & c & m & -> & V & R & S & C & C2 & M & X).
    assert (be (take 1 (drop 1 ([byte_of 3; v] ++ r ++ vec8 s ++ vec16 c ++ vec8 m ++ vec16 bytes))) = val v) as ->.
    { change (take 1 _) with [v]. unfold be. cbn [foldl]. lia. }
    change (be (take 1 ([byte_of 3; v] ++ _))) with 3.
    change (drop 34 ([byte_of 3; v] ++ ?l)) with (drop 32 l). rewrite drop_app_length' by done.
    replace (List.length _ <? 34)%nat with false by (symmetry; apply Nat.ltb_ge; rewrite !length_app; simpl; lia).
    destruct (N.ltb_spec (val v) 1); [lia|]. destruct (N.ltb_spec 3 (val v)); [lia|]. cbn [negb orb N.eqb Pos.eqb].
    rewrite (proj2 (vec8_codec _ s (vec16 c ++ vec8 m ++ vec16 bytes))) by (split; [lia|done]).
    apply N.ltb_ge in S as ->. cbn [negb].
    rewrite (proj2 (vec16_codec _ c (vec8 m ++ vec16 bytes))) by (split; [lia|done]).
    rewrite C2. destruct (N.ltb_spec (lenN c) 2); [lia|]. cbn [negb orb N.eqb].
    rewrite (proj2 (vec8_codec _ m (vec16 bytes))) by (split; [lia|done]).
    destruct (N.eqb_spec (lenN m) 0); [lia|]. cbn [negb].
    rewrite (proj2 (vec16_codec _ bytes [])) by (split; [done|by rewrite app_nil_r]). done.
Qed.

(** A list without repeated kinds has one value per kind. *)
Lemma exts_ok_start host exts : 
  Forall (fun e => fst e < 65536 /\ lenN (snd e) < 65536) exts -> NoDup exts.*1 ->
  exts_ok host ∅ exts <-> 65037 ∉ exts.*1 /\ Forall (fun e => fst e = 0 -> names_host host (snd e)) exts.
Proof.
  intros V O. split; [by intros []|]. intros [E N]. split; try done. apply Forall_forall. intros k _.
  rewrite bit_seen_testbit, lookup_empty. apply N.bits_0.
Qed.
Lemma kind_unique (exts : list (N * list ascii)) k v w :
  NoDup exts.*1 -> (k, v) ∈ exts -> (k, w) ∈ exts -> v = w.
Proof.
  intros ND I J. induction exts as [|[k' x] l IH]; [by apply elem_of_nil in I|].
  rewrite fmap_cons in ND. apply NoDup_cons in ND as [NI ND]. simpl in NI.
  assert (forall y, (k', y) ∈ l -> False) as No.
  { intros y Iy. apply NI. apply list_elem_of_fmap. by exists (k', y). }
  apply elem_of_cons in I as [E|I]; apply elem_of_cons in J as [E'|J].
  - congruence.
  - injection E as -> ->. by apply No in J.
  - injection E' as -> ->. by apply No in I.
  - by apply IH.
Qed.
Lemma exts_name_spec host (exts : list (N * list ascii)) :
  NoDup exts.*1 ->
  (0 ∈ exts.*1 /\ Forall (fun e => fst e = 0 -> names_host host (snd e)) exts) <->
  exists value, (0, value) ∈ exts /\ names_host host value.
Proof.
  intros ND. rewrite Forall_forall. split.
  - intros [([k v] & E & I)%list_elem_of_fmap F]. simpl in E. subst k. exists v. split; [done|]. by apply (F (0, v)).
  - intros (v & I & N). split; [apply list_elem_of_fmap; by exists (0, v)|].
    intros [k w] J E. simpl in *. subst k. by rewrite (kind_unique exts 0 w v).
Qed.
Lemma hello_bytes_extensions host h :
  hello_ok host h -> hello_extensions (hello_bytes h) = Ok (flat_map extension_bytes (hello_exts h)).
Proof.
  intros []. apply hello_extensions_spec.
  exists (hello_version h), (hello_random h), (hello_session h), (hello_ciphers h), (hello_compression h).
  split_and!; try done; lia.
Qed.
(** The decision on the extensions. *)
Lemma extensions_decision host bytes :
  check_extensions (List.length bytes) host ∅ false bytes = Some (Ok true) <->
  exists exts, bytes = flat_map extension_bytes exts
    /\ Forall (fun e => fst e < 65536 /\ lenN (snd e) < 65536) exts /\ NoDup exts.*1 /\ 65037 ∉ exts.*1
    /\ exists value, (0, value) ∈ exts /\ names_host host value.
Proof.
  rewrite check_extensions_spec by lia. split.
  - intros (exts & -> & [V O U E N] & B%eq_sym%bool_decide_eq_true). exists exts. split_and!; try done.
    by apply exts_name_spec.
  - intros (exts & -> & V & O & E & N). exists exts. apply exts_name_spec in N as [I N]; [|done].
    split; [done|]. split; [by apply exts_ok_start|]. symmetry. by apply bool_decide_eq_true_2.
Qed.
End names.

Lemma checkClientHello_total `{Unicode} data host : checkClientHello data host <> None.
Proof.
  unfold checkClientHello. destruct (hello_extensions data) as [bytes|e]; [|done].
  pose proof (check_extensions_total (List.length bytes) host ∅ false bytes ltac:(lia)) as T.
  by destruct (check_extensions _ _ _ _ _) as [[[]|]|].
Qed.
Lemma checkClientHello_accepts `{Unicode} data host :
  checkClientHello data host = Some (Ok tt) <-> exists h, hello_ok host h /\ data = hello_bytes h.
Proof.
  unfold checkClientHello. split.
  - destruct (hello_extensions data) as [bytes|e] eqn:X; [|done].
    apply hello_extensions_spec in X as (v & r & s & c & m & -> & V & R & Sl & C & C2 & M & XL).
    destruct (check_extensions _ _ _ _ _) as [[[]|]|] eqn:E; try done. intros _.
    apply extensions_decision in E as (exts & -> & ? & ? & ? & ?). exists (mkHello v r s c m exts). by split.
  - intros (h & O & ->). rewrite (hello_bytes_extensions _ _ O). destruct O.
    rewrite (proj2 (extensions_decision host (flat_map extension_bytes (hello_exts h)))); [done|]. eauto 10.
Qed.

(** What the gateway forwards.  [checkClientHello] always answers, and it
    accepts exactly the well-formed ClientHello messages of TLS 1.0 to 1.3:
    every field present and within its length, no byte left over, no extension
    repeated, no encrypted ClientHello, and one server_name extension that
    holds one ASCII name without a trailing dot whose normal form is the host
    of the tunnel.  A hello without a plaintext name, or naming another host,
    is refused. *)
Theorem checkClientHello_spec `{Unicode} data host :
  checkClientHello data host <> None
  /\ (checkClientHello data host = Some (Ok tt) <-> exists h, hello_ok host h /\ data = hello_bytes h).
Proof. split; [apply checkClientHello_total|apply checkClientHello_accepts]. Qed.

(** ** The records *)

Definition record_bytes (rec : ascii * list ascii) : list ascii :=
  [byte_of 22; byte_of 3; fst rec] ++ put16 (lenN (snd rec)) ++ snd rec.
(** A plaintext handshake record (RFC 8446, section 5.1). *)
Definition record_ok (rec : ascii * list ascii) : Prop :=
  1 <= val (fst rec) <= 3 /\ 0 < lenN (snd rec) <= maxTLSPlaintext.
(** The handshake message that carries a ClientHello body. *)
Definition handshake_bytes (body : list ascii) : list ascii := byte_of 1 :: put24 (lenN body) ++ body.
(** The handshake bytes a list of records carries. *)
Definition carried (recs : list (ascii * list ascii)) : list ascii := flat_map snd recs.
(** The number of handshake bytes wanted once [m] was read. *)
Definition next_want (m : list ascii) (w : N) : option N :=
  if lenN m <? 4 then Some w else
  let n := be (take 3 (drop 1 m)) in
  if (be (take 1 m) =? 1) && (n <=? maxClientHello - 4) then Some (4 + n) else None.

Lemma ReadFull_iff n r a r' : ReadFull n r = Ok (a, r') <-> r = a ++ r' /\ List.length a = n.
Proof. split; [apply ReadFull_Ok|]. intros [-> L]. by apply ReadFull_app'. Qed.
Lemma be_byte n : n < 256 -> be [byte_of n] = n.
Proof. intros L. unfold be. cbn [foldl]. rewrite val_byte by done. lia. Qed.
Lemma be_one c : be [c] = val c.
Proof. unfold be. cbn [foldl]. lia. Qed.

(** One round of the loop. *)
Lemma read_record_Ok s s' :
  read_record s = Ok s' <->
  exists rec, record_ok rec /\ conn s = record_bytes rec ++ conn s' /\ records s' = records s ++ record_bytes rec
    /\ message s' = message s ++ snd rec /\ lenN (records s') <= maxClientHelloWire
    /\ next_want (message s') (want s) = Some (want s').
Proof.
  unfold read_record. split.
  - intros ([header r] & H & E)%result_bind_Ok. apply ReadFull_iff in H as [C HL].
    apply guard_Ok in E as [G1 E]. apply guard_Ok in E as [G2 E]. apply guard_Ok in E as [G3 E].
    apply result_bind_Ok in E as ([fragment r'] & R & E). apply ReadFull_iff in R as [-> FL].
    destruct header as [|b0 [|b1 [|v [|n1 [|n2 [|]]]]]]; try done.
    change (take 1 (drop 0 [b0; b1; v; n1; n2])) with [b0] in G1.
    change (take 1 (drop 1 [b0; b1; v; n1; n2])) with [b1] in G1.
    change (take 1 (drop 2 [b0; b1; v; n1; n2])) with [v] in G1.
    change (drop 3 [b0; b1; v; n1; n2]) with [n1; n2] in *. rewrite !be_one in G1. bool_hyps.
    assert (lenN fragment = be [n1; n2]) as FN by (unfold lenN; lia).
    assert ([b0; b1; v; n1; n2] ++ fragment = record_bytes (v, fragment)) as RB.
    { unfold record_bytes. cbn [fst snd]. rewrite FN, put16_be by done.
      replace b0 with (byte_of 22) by (rewrite <- (byte_of_val_id b0); congruence).
      by replace b1 with (byte_of 3) by (rewrite <- (byte_of_val_id b1); congruence). }
    exists (v, fragment). cbn [fst snd].
    assert (lenN (records s ++ record_bytes (v, fragment)) <= maxClientHelloWire) as RL.
    { rewrite <- RB. unfold lenN in *. rewrite !length_app. simpl. lia. }
    assert (conn s = record_bytes (v, fragment) ++ r') as -> by (rewrite C, <- RB; by rewrite app_assoc).
    assert (record_ok (v, fragment)) as OK by (unfold record_ok; cbn [fst snd]; lia).
    unfold next_want. destruct (lenN (message s ++ fragment) <? 4) eqn:S4.
    + injection E as <-. cbn [records message want conn].
      change (b0 :: b1 :: v :: n1 :: n2 :: fragment) with ([b0; b1; v; n1; n2] ++ fragment). rewrite RB, S4. by split_and!.
    + apply guard_Ok in E as [G4 E]. apply guard_Ok in E as [G5 E]. injection E as <-.
      cbn [records message want conn].
      change (b0 :: b1 :: v :: n1 :: n2 :: fragment) with ([b0; b1; v; n1; n2] ++ fragment). rewrite RB, S4, G4. split_and!; try done.
      apply negb_true_iff, N.ltb_ge, N.leb_le in G5. by rewrite G5.
  - intros ([v f] & [V L] & C & R & M & RL & W). cbn [fst snd] in *.
    assert (conn s = ([byte_of 22; byte_of 3; v] ++ put16 (lenN f)) ++ f ++ conn s') as C'.
    { rewrite C. unfold record_bytes. cbn [fst snd]. by rewrite <- !app_assoc. }
    rewrite (proj2 (ReadFull_iff 5 (conn s) ([byte_of 22; byte_of 3; v] ++ put16 (lenN f)) (f ++ conn s')))
      by (split; done). cbn [result_bind].
    set (header := [byte_of 22; byte_of 3; v] ++ put16 (lenN f)).
    change (take 1 (drop 0 header)) with [byte_of 22]. change (take 1 (drop 1 header)) with [byte_of 3].
    change (take 1 (drop 2 header)) with [v]. change (drop 3 header) with (put16 (lenN f)).
    unfold maxTLSPlaintext in *. rewrite be_put16, !be_one by lia. rewrite !val_byte by done.
    destruct (N.ltb_spec (val v) 1), (N.ltb_spec 3 (val v)), (N.eqb_spec (lenN f) 0), (N.ltb_spec 16384 (lenN f)); try lia.
    cbn [negb orb N.eqb Pos.eqb].
    assert (header ++ f = record_bytes (v, f)) as RB.
    { unfold header, record_bytes. cbn [fst snd]. by rewrite <- app_assoc. }
    assert (lenN (records s) + 5 + lenN f = lenN (records s')) as Len.
    { rewrite R, <- RB. unfold lenN, header. rewrite !length_app. simpl. lia. }
    rewrite Len. apply N.ltb_ge in RL as ->. cbn [negb].
    rewrite (proj2 (ReadFull_iff (N.to_nat (lenN f)) (f ++ conn s') f (conn s'))) by (split; [done|unfold lenN; lia]).
    cbn [result_bind]. rewrite RB, <- R, <- M. unfold next_want in W.
    destruct s' as [R' M' W' C'']. cbn [records message want conn] in *.
    destruct (lenN M' <? 4); [by injection W as ->|]. destruct (be (take 1 M') =? 1); [|done]. cbn [andb] in W.
    destruct (N.leb_spec (be (take 3 (drop 1 M'))) (maxClientHello - 4)) as [B|B]; [|done].
    injection W as <-. by apply N.ltb_ge in B as ->.
Qed.

Notation wire := (flat_map record_bytes).
(** The state of the loop after some records. *)
Definition after (recs : list (ascii * list ascii)) (w : N) (r : list ascii) : reading :=
  mkReading (wire recs) (carried recs) w r.
(** More of the message is wanted after [recs]. *)
Definition unfinished (recs : list (ascii * list ascii)) : Prop :=
  exists w, next_want (carried recs) 4 = Some w /\ lenN (carried recs) < w.

Lemma next_want_ge m w w' : next_want m w = Some w' -> 4 <= w -> 4 <= w'.
Proof. unfold next_want. repeat destruct_cond; intros [= <-]; lia. Qed.
Lemma next_want_step m x w w' :
  next_want m 4 = Some w -> next_want (m ++ x) w = Some w' <-> next_want (m ++ x) 4 = Some w'.
Proof.
  unfold next_want. intros W. destruct (N.ltb_spec (lenN (m ++ x)) 4) as [L|]; [|done].
  replace (lenN m <? 4) with true in W; [by injection W as <-|].
  symmetry. apply N.ltb_lt. unfold lenN in *. rewrite length_app in L. lia.
Qed.
Lemma read_record_after recs w r s :
  next_want (carried recs) 4 = Some w ->
  read_record (after recs w r) = Ok s <->
  exists rec w', record_ok rec /\ r = record_bytes rec ++ conn s /\ s = after (recs ++ [rec]) w' (conn s)
    /\ lenN (wire (recs ++ [rec])) <= maxClientHelloWire /\ next_want (carried (recs ++ [rec])) 4 = Some w'.
Proof.
  intros W. rewrite read_record_Ok. cbn [after conn records message want]. unfold carried.
  assert (forall rec, wire (recs ++ [rec]) = wire recs ++ record_bytes rec) as F1.
  { intros rec. rewrite flat_map_app. cbn [flat_map]. by rewrite app_nil_r. }
  assert (forall rec, flat_map snd (recs ++ [rec]) = flat_map snd recs ++ snd rec) as F2.
  { intros rec. rewrite flat_map_app. cbn [flat_map]. by rewrite app_nil_r. }
  split.
  - intros (rec & OK & C & R & M & L & N). exists rec, (want s).
    rewrite F1, F2. rewrite R in L. rewrite M in N. apply next_want_step in N; [|done].
    split_and!; try done. destruct s; cbn in *. unfold after, carried. rewrite F1, F2. congruence.
  - intros (rec & w' & OK & C & E & L & N). exists rec. rewrite E. cbn [after conn records message want].
    unfold carried. rewrite F1, F2 in *. split_and!; try done. by apply next_want_step.
Qed.

Lemma read_hello_stop fuel recs w r :
  w <= lenN (carried recs) -> read_hello fuel (after recs w r) = Some (Ok (after recs w r)).
Proof. intros L. destruct fuel; cbn [read_hello after want message]; by rewrite (proj2 (N.leb_le _ _) L). Qed.
Lemma read_hello_done fuel recs w r s :
  next_want (carried recs) 4 = Some w -> w <= lenN (carried recs) ->
  Some (Ok (E := error) (after recs w r)) = Some (Ok s) <->
  exists more w', (List.length more <= fuel)%nat /\ s = after (recs ++ more) w' (conn s) /\ r = wire more ++ conn s
    /\ Forall record_ok more /\ (more <> [] -> lenN (wire (recs ++ more)) <= maxClientHelloWire)
    /\ next_want (carried (recs ++ more)) 4 = Some w' /\ w' <= lenN (carried (recs ++ more))
    /\ forall k, (k < List.length more)%nat -> unfinished (recs ++ take k more).
Proof.
  intros W L. split.
  - intros [= <-]. exists [], w. rewrite app_nil_r. split_and!; try done; simpl; lia.
  - intros (more & w' & _ & E & R & _ & _ & N & Wl & U). destruct more as [|rec more].
    + rewrite app_nil_r in *. simpl in R. subst r. rewrite N in W. injection W as ->. by rewrite E.
    + destruct (U 0%nat) as (w2 & N2 & L2); [simpl; lia|]. rewrite take_0, app_nil_r in *.
      rewrite N2 in W. injection W as ->. lia.
Qed.

(** The loop, as the records it reads. *)
Lemma read_hello_Ok fuel recs w r s :
  next_want (carried recs) 4 = Some w ->
  read_hello fuel (after recs w r) = Some (Ok s) <->
  exists more w', (List.length more <= fuel)%nat /\ s = after (recs ++ more) w' (conn s) /\ r = wire more ++ conn s
    /\ Forall record_ok more /\ (more <> [] -> lenN (wire (recs ++ more)) <= maxClientHelloWire)
    /\ next_want (carried (recs ++ more)) 4 = Some w' /\ w' <= lenN (carried (recs ++ more))
    /\ forall k, (k < List.length more)%nat -> unfinished (recs ++ take k more).
Proof.
  revert recs w r. induction fuel as [|fuel IH]; intros recs w r W.
  all: destruct (N.le_gt_cases w (lenN (carried recs))) as [L|L];
    [by rewrite read_hello_stop by done; apply read_hello_done|].
  all: cbn [read_hello after want message]; rewrite (proj2 (N.leb_gt _ _) L).
  - split; [done|]. intros (more & w' & F & E & R & _ & _ & N & Wl & _). destruct more; [|simpl in F; lia].
    rewrite app_nil_r in *. rewrite N in W. injection W as ->. lia.
  - split.
    + destruct (read_record (after recs w r)) as [s1|] eqn:R; [|done].
      apply read_record_after in R as (rec & w1 & OK & -> & -> & WL & N); [|done]. cbn [conn after].
      intros (more & w' & F & E & R & RF & WL' & N' & Wl & U)%IH; [|done].
      exists (rec :: more), w'. rewrite <- app_assoc in *. cbn [app] in *. split_and!; try done.
      * simpl. lia.
      * cbn [flat_map]. rewrite R. by rewrite app_assoc.
      * by constructor.
      * intros _. destruct more; [done|]. by apply WL'.
      * intros [|k] K; [rewrite take_0, app_nil_r; by exists w|]. cbn [take]. simpl in K.
        specialize (U k ltac:(lia)). by rewrite <- app_assoc in U.
    + intros (more & w' & F & E & R & RF & WL & N & Wl & U). destruct more as [|rec more].
      { rewrite app_nil_r in *. rewrite N in W. injection W as ->. lia. }
      apply Forall_cons in RF as [OK RF].
      assert (exists w1, next_want (carried (recs ++ [rec])) 4 = Some w1) as [w1 N1].
      { destruct more as [|rec2 more]; [eauto|]. destruct (U 1%nat) as (w1 & N1 & _); [simpl; lia|]. eauto. }
      assert (lenN (wire (recs ++ [rec])) <= maxClientHelloWire) as WL1.
      { etrans; [|by apply WL]. change (rec :: more) with ([rec] ++ more). rewrite (app_assoc recs), (flat_map_app _ _ more).
        unfold lenN. rewrite (length_app _ (wire more)). lia. }
      rewrite (proj2 (read_record_after recs w r (after (recs ++ [rec]) w1 (wire more ++ conn s)) W)).
      2:{ exists rec, w1. cbn [after conn]. split_and!; try done. rewrite R. cbn [flat_map]. by rewrite app_assoc. }
      apply IH; [done|]. exists more, w'. rewrite <- app_assoc. cbn [app]. split_and!; try done.
      * simpl in F. lia.
      * intros _. by apply WL.
      * intros k K. rewrite <- app_assoc. apply (U (S k)). simpl. lia.
Qed.

(** *** The handshake header *)

Lemma take_1_drop {A} (a b c d : A) l : take 3 (drop 1 (a :: b :: c :: d :: l)) = [b; c; d].
Proof. done. Qed.
Lemma be_put24 n : n < 16777216 -> be (put24 n) = n.
Proof.
  intros L. unfold put24. rewrite be_cons, N.shiftr_div_pow2.
  change (256 ^ lenN (put16 n)) with 65536. change (2 ^ 16) with 65536.
  rewrite val_byte by (by apply N.Div0.div_lt_upper_bound).
  assert (put16 n = put16 (n mod 65536)) as ->.
  { unfold put16. rewrite !N.shiftr_div_pow2. change (2 ^ 8) with 256. f_equal; [|f_equal].
    - rewrite <- (byte_of_mod (n / 256)), <- (byte_of_mod (n mod 65536 / 256)). f_equal.
      change 65536 with (256 * 256). rewrite N.Div0.mod_mul_r, (N.mul_comm 256 (_ mod _)), N.div_add by done.
      rewrite (N.div_small (n mod 256)) by (by apply N.mod_lt). by rewrite N.add_0_l, N.Div0.mod_mod.
    - rewrite <- (byte_of_mod n), <- (byte_of_mod (n mod 65536)). f_equal.
      change 65536 with (256 * 256). rewrite N.Div0.mod_mul_r, (N.mul_comm 256 (_ mod _)), N.Div0.mod_add. by rewrite N.Div0.mod_mod. }
  rewrite be_put16 by (by apply N.mod_lt). rewrite (N.mul_comm (n / 65536)). symmetry. by apply N.div_mod.
Qed.
(** The message is complete exactly when it starts with a whole ClientHello. *)
Lemma next_want_body m w :
  next_want m 4 = Some w /\ w <= lenN m <->
  exists body rest, m = handshake_bytes body ++ rest /\ lenN body <= maxClientHello - 4
    /\ w = 4 + lenN body.
Proof.
  unfold next_want. split.
  - intros [W L]. destruct (N.ltb_spec (lenN m) 4) as [S|S]; [injection W as <-; lia|].
    destruct m as [|a [|b [|c [|d l]]]]; try (unfold lenN in S; simpl in S; lia).
    rewrite take_1_drop in W. change (take 1 (a :: b :: c :: d :: l)) with [a] in W.
    destruct (N.eqb_spec (be [a]) 1) as [E|]; [|done]. destruct (N.leb_spec (be [b; c; d]) (maxClientHello - 4)) as [B|]; [|done].
    cbn [andb] in W. injection W as <-. rewrite be_one in E.
    set (n := be [b; c; d]) in *.
    assert (lenN (take (N.to_nat n) l) = n) as TL.
    { unfold lenN in *. simpl in L. rewrite length_take. lia. }
    exists (take (N.to_nat n) l), (drop (N.to_nat n) l). rewrite TL. split_and!; try done.
    unfold handshake_bytes. rewrite TL. unfold n at 1. rewrite put24_be by done. cbn [app].
    rewrite take_drop. by replace a with (byte_of 1) by (rewrite <- (byte_of_val_id a); congruence).
  - intros (body & rest & -> & B & ->).
    assert (lenN (handshake_bytes body ++ rest) = 4 + lenN body + lenN rest) as Len.
    { unfold handshake_bytes, put24, put16, lenN. simpl. rewrite length_app. lia. }
    rewrite Len. destruct (N.ltb_spec (4 + lenN body + lenN rest) 4); [lia|].
    change (take 1 (handshake_bytes body ++ rest)) with [byte_of 1].
    change (take 3 (drop 1 (handshake_bytes body ++ rest))) with (put24 (lenN body)).
    unfold maxClientHello in *. rewrite be_put24 by lia. apply N.leb_le in B as ->. split; [done|lia].
Qed.
Lemma body_of_message body rest :
  take (N.to_nat (4 + lenN body - 4)) (drop 4 (handshake_bytes body ++ rest)) = body.
Proof.
  change (drop 4 (handshake_bytes body ++ rest)) with (drop 0 (body ++ rest)). rewrite drop_0.
  replace (N.to_nat (4 + lenN body - 4)) with (List.length body) by (unfold lenN; lia). apply take_app_length.
Qed.
(** Before that, more is wanted. *)
Lemma next_want_prefix m w p :
  next_want m 4 = Some w -> p `prefix_of` m -> 4 <= lenN m ->
  (exists w', next_want p 4 = Some w' /\ lenN p < w') <-> lenN p < w.
Proof.
  intros W [x ->] L. pose proof (next_want_ge _ _ _ W ltac:(lia)).
  unfold next_want in *. destruct (N.ltb_spec (lenN (p ++ x)) 4); [lia|].
  destruct (N.ltb_spec (lenN p) 4) as [S|S]; [split; [lia|eauto]|].
  assert (4 <= List.length p)%nat as Lp by (unfold lenN in S; lia).
  rewrite drop_app_le, !take_app_le in W by (rewrite ?length_drop; lia).
  rewrite W. naive_solver.
Qed.

Lemma carried_app a b : carried (a ++ b) = carried a ++ carried b.
Proof. apply flat_map_app. Qed.
Lemma unfinished_spec recs w :
  next_want (carried recs) 4 = Some w -> w <= lenN (carried recs) ->
  (forall k, (k < List.length recs)%nat -> unfinished (take k recs)) <-> lenN (carried (removelast recs)) < w.
Proof.
  intros W L. pose proof (next_want_ge _ _ _ W ltac:(lia)) as W4.
  assert (forall k, unfinished (take k recs) <-> lenN (carried (take k recs)) < w) as U.
  { intros k. apply (next_want_prefix _ _ _ W); [|lia].
    rewrite <- (take_drop k recs) at 2. rewrite carried_app. by eexists. }
  destruct recs as [|r0 recs0] eqn:E; [simpl in *; change (carried []) with (@nil ascii) in *; change (lenN []) with 0 in *; lia|].
  rewrite <- E in *. rewrite removelast_firstn_len. 
  assert (pred (List.length recs) < List.length recs)%nat as P by (rewrite E; simpl; lia).
  split; [intros A; by apply U, A|]. intros A k K. apply U. eapply N.le_lt_trans; [|exact A].
  assert (take k recs = take k (take (pred (List.length recs)) recs)) as -> by (rewrite take_take; f_equal; lia).
  rewrite <- (take_drop k (take (pred _) recs)) at 2. rewrite carried_app. unfold lenN. rewrite length_app. lia.
Qed.

(** ** What is forwarded *)

(** The first flight of a client that the gateway forwards to [host]: whole
    plaintext handshake records, the first to carry, as their handshake bytes,
    a complete ClientHello for [host], within the inspection limits. *)
Record flight `{Unicode} (host : string) (recs : list (ascii * list ascii)) (h : Hello) : Prop := {
  flight_records : Forall record_ok recs;
  flight_wire : lenN (wire recs) <= maxClientHelloWire;
  flight_hello : hello_ok host h;
  flight_body : lenN (hello_bytes h) <= maxClientHello - 4;
  flight_carries : handshake_bytes (hello_bytes h) `prefix_of` carried recs;
  flight_first : lenN (carried (removelast recs)) < lenN (handshake_bytes (hello_bytes h));
}.

Lemma record_length rec : (5 <= List.length (record_bytes rec))%nat.
Proof. unfold record_bytes. rewrite !length_app. simpl. lia. Qed.
Lemma wire_length recs : (List.length recs <= List.length (wire recs))%nat.
Proof.
  induction recs as [|rec recs IH]; [done|]. cbn [flat_map]. rewrite length_app.
  pose proof (record_length rec). simpl. lia.
Qed.
Lemma read_hello_total fuel s : (List.length (conn s) < fuel)%nat -> read_hello fuel s <> None.
Proof.
  revert s. induction fuel as [|fuel IH]; intros s L; [lia|]. cbn [read_hello]. destruct_cond.
  destruct (read_record s) as [s'|] eqn:R; [|done]. apply IH.
  apply read_record_Ok in R as (rec & _ & C & _). rewrite C, length_app in L. pose proof (record_length rec). lia.
Qed.
Lemma handshake_length body : lenN (handshake_bytes body) = 4 + lenN body.
Proof. unfold handshake_bytes, put24, put16, lenN. simpl. lia. Qed.

(** C33: what reaches the upstream.  Reading the first flight always ends, and
    it succeeds exactly when what the client sent starts with plaintext
    handshake records that carry, however it is fragmented, a complete
    ClientHello the gateway accepts for the host of the tunnel; the bytes
    replayed are those records, exactly as they were sent and no more than
    needed to complete the message, and everything after them is left in the
    connection. *)
Theorem readClientHello_spec `{Unicode} r host bytes rest :
  readClientHello r host <> None
  /\ (readClientHello r host = Some (Ok (bytes, rest)) <->
      exists recs h, flight host recs h /\ bytes = wire recs /\ r = bytes ++ rest).
Proof.
  unfold readClientHello. change (mkReading [] [] 4 r) with (after [] 4 r).
  assert (next_want (carried []) 4 = Some 4) as W0 by done. split.
  { pose proof (read_hello_total (S (List.length r)) (after [] 4 r) ltac:(simpl; lia)) as T.
    destruct (read_hello _ _) as [[s|]|]; try done.
    pose proof (checkClientHello_total (take (N.to_nat (want s - 4)) (drop 4 (message s))) host) as T'.
    by destruct (checkClientHello _ _) as [[]|]. }
  split.
  - destruct (read_hello _ _) as [[s|]|] eqn:R; try done. apply (read_hello_Ok _ _ _ _ _ W0) in R.
    destruct R as (recs & w & _ & Es & -> & RF & WL & N & L & U). cbn [app] in *.
    destruct (proj1 (next_want_body _ _) (conj N L)) as (body & x & M & B & Ew).
    rewrite Es. cbn [after message want records conn]. rewrite M, Ew, body_of_message.
    destruct (checkClientHello body host) as [[[]|]|] eqn:C; try done. intros [= <- <-].
    apply checkClientHello_accepts in C as (h & O & ->). exists recs, h. split; [|done].
    assert (4 <= w) by lia. split; try done.
    + apply WL. intros ->. change (carried []) with (@nil ascii) in L. change (lenN []) with 0 in L. lia.
    + rewrite M. by eexists.
    + rewrite handshake_length, <- Ew. by apply (unfinished_spec recs w N L).
  - intros (recs & h & [RF WL O B [x M] F] & -> & ->).
    destruct (proj2 (next_want_body (carried recs) (4 + lenN (hello_bytes h)))) as [N L]; [by eauto|].
    rewrite (proj2 (read_hello_Ok (S (List.length (wire recs ++ rest))) [] 4 (wire recs ++ rest)
                      (after recs (4 + lenN (hello_bytes h)) rest) W0)).
    + cbn [after message want records conn]. rewrite M, body_of_message.
      by rewrite (proj2 (checkClientHello_accepts (hello_bytes h) host)) by eauto.
    + exists recs, (4 + lenN (hello_bytes h)). cbn [app after conn]. split_and!; try done.
      * pose proof (wire_length recs). rewrite length_app. lia.
      * apply (unfinished_spec recs _ N L). by rewrite <- handshake_length.
Qed.

(** A hello in two records, as a client may send it. *)
Definition sample_hello : Hello :=
  mkHello (byte_of 3) (repeat (byte_of 7) 32) [] [byte_of 19; byte_of 1] [byte_of 0]
    [(43, [byte_of 2; byte_of 3; byte_of 4]); (0, server_name_bytes (chars "API.example.com"))].
Definition sample_records : list (ascii * list ascii) :=
  let m := handshake_bytes (hello_bytes sample_hello) in [(byte_of 1, take 3 m); (byte_of 3, drop 3 m)].
Example hello_forwarded :
  readClientHello (wire sample_records ++ chars "more") "api.example.com" = Some (Ok (wire sample_records, chars "more")).
Proof. vm_compute. reflexivity. Qed.
Example hello_refused :
  readClientHello (wire sample_records) "other.example.com" = Some (Err (New "TLS server name does not match CONNECT host")).
Proof. vm_compute. reflexivity. Qed.
