(* ===== verification/Runes.v ===== *)
(** * The runes of a text with their sizes

    [range] over a string and [utf8.DecodeRune] see a text as runes of one to
    four bytes; the offsets the program slices at are sums of these sizes. *)
From S2P Require Import Prelude GoStrings Utf8.
Local Open Scope list_scope.
Local Open Scope nat_scope.

Fixpoint steps_from (skip : nat) (l : list ascii) : list (N * nat) :=
  match l with
  | [] => []
  | _ :: t => match skip with
              | S k => steps_from k t
              | O => let '(r, n) := decode_rune l in (r, n) :: steps_from (pred n) t
              end
  end.
Definition steps (l : list ascii) : list (N * nat) := steps_from 0 l.
Definition width (k : list (N * nat)) : nat := sum_list (map snd k).

(** [utf8.RuneCount]. *)
Definition rune_count (l : list ascii) : nat := List.length (steps l).

(** [unicode.IsSpace] of the first rune. *)
Definition space_here (l : list ascii) : bool := is_space (fst (decode_rune l)).
(** [strings.Fields]: what is between runs of white space. *)
Fixpoint split_spaces (skip : nat) (l : list ascii) : list (list ascii) :=
  match l with
  | [] => [[]]
  | c :: t =>
    match skip with
    | S k => split_spaces k t
    | O => if space_here l then [] :: split_spaces (pred (snd (decode_rune l))) t
           else match split_spaces 0 t with h :: r => (c :: h) :: r | [] => [[c]] end
    end
  end.
Definition Fields (s : string) : list string :=
  map str (List.filter (fun l => match l with [] => false | _ => true end) (split_spaces 0 (chars s))).

Definition sized (l : list (N * nat)) : Prop := Forall (fun x => 1 <= snd x) l.

Lemma decode_size l : l <> [] -> 1 <= snd (decode_rune l) <= List.length l.
Proof.
  intros N. unfold decode_rune. destruct l as [|c0 l]; [done|]. cbn [map].
  destruct l as [|c1 l]; [|destruct l as [|c2 l]; [|destruct l as [|c3 l]]]; cbn [map];
    repeat destruct_cond; simpl; lia.
Qed.
Lemma steps_from_sized skip l : sized (steps_from skip l).
Proof.
  revert skip. induction l as [|c l IH]; intros skip; cbn [steps_from]; [constructor|].
  destruct skip; [|apply IH]. pose proof (decode_size (c :: l) ltac:(done)) as D.
  destruct (decode_rune (c :: l)) as [r n]. simpl in D. constructor; [simpl; lia|apply IH].
Qed.
Lemma steps_from_width skip l : skip <= List.length l -> width (steps_from skip l) + skip = List.length l.
Proof.
  revert skip. induction l as [|c l IH]; intros skip L; simpl in L; cbn [steps_from].
  { simpl. unfold width. simpl. lia. }
  destruct skip as [|k]; [|specialize (IH k); simpl; lia].
  pose proof (decode_size (c :: l) ltac:(done)) as D.
  destruct (decode_rune (c :: l)) as [r n]. simpl in D. specialize (IH (pred n)).
  unfold width in *. simpl in *. lia.
Qed.
Lemma steps_width l : width (steps l) = List.length l.
Proof. pose proof (steps_from_width 0 l). unfold steps. lia. Qed.
Lemma steps_sized l : sized (steps l).
Proof. apply steps_from_sized. Qed.
Lemma width_app a b : width (a ++ b) = width a + width b.
Proof. unfold width. rewrite map_app. induction (map snd a); simpl; lia. Qed.
Lemma sized_width l : sized l -> List.length l <= width l.
Proof. unfold width. induction 1; simpl; lia. Qed.

(** A text cut between two runes has the same runes before the cut. *)
Lemma decode_take k l : snd (decode_rune l) <= k -> l <> [] -> decode_rune (take k l) = decode_rune l.
Proof.
  intros L N. destruct l as [|c0 l]; [done|]. pose proof (decode_size (c0 :: l) N) as D.
  destruct k as [|k]; [lia|]. revert L. clear D N. unfold decode_rune.
  destruct l as [|c1 l]; [|destruct l as [|c2 l]; [|destruct l as [|c3 l]]];
    destruct k as [|[|[|k]]]; cbn [map take]; repeat destruct_cond; simpl; lia || done.
Qed.
Lemma steps_from_skip a l : steps_from (List.length a) (a ++ l) = steps_from 0 l.
Proof. induction a; done. Qed.
Lemma steps_cons c l :
  steps (c :: l) = decode_rune (c :: l) :: steps (drop (snd (decode_rune (c :: l))) (c :: l)).
Proof.
  unfold steps. cbn [steps_from]. pose proof (decode_size (c :: l) ltac:(done)) as D.
  destruct (decode_rune (c :: l)) as [r n]. simpl in D. f_equal. cbn [snd]. destruct n as [|n]; [lia|]. cbn [pred drop].
  pose proof (steps_from_skip (take n l) (drop n l)) as E.
  rewrite take_drop, length_take, Nat.min_l in E by lia. exact E.
Qed.
Lemma steps_take n l : steps (take (width (take n (steps l))) l) = take n (steps l).
Proof.
  revert n. induction l as [l IH] using (well_founded_induction (well_founded_ltof _ (@List.length ascii))). unfold ltof in IH. intros n.
  destruct l as [|c l]; [rewrite take_nil; by destruct n|]. rewrite steps_cons. destruct n as [|n]; [done|].
  pose proof (decode_size (c :: l) ltac:(done)) as D. pose proof (decode_take (snd (decode_rune (c :: l))) (c :: l)) as T.
  destruct (decode_rune (c :: l)) as [r k] eqn:E. cbn [snd] in *. cbn [take].
  set (w := width (take n (steps (drop k (c :: l))))).
  assert (width ((r, k) :: take n (steps (drop k (c :: l)))) = k + w) as -> by done.
  assert (decode_rune (take (k + w) (c :: l)) = (r, k)) as E'.
  { rewrite <- E. apply decode_take; [rewrite E; simpl; lia|done]. }
  destruct k as [|k]; [lia|]. cbn [take Nat.add] in E' |- *. rewrite steps_cons, E'. cbn [snd drop]. f_equal.
  rewrite <- (IH (drop k l)) by (rewrite length_drop; simpl; lia). fold w. cbn [drop] in w. fold w.
  f_equal. rewrite <- take_drop_commute. done.
Qed.
Lemma steps_drop n l : steps (drop (width (take n (steps l))) l) = drop n (steps l).
Proof.
  revert n. induction l as [l IH] using (well_founded_induction (well_founded_ltof _ (@List.length ascii))). unfold ltof in IH. intros n.
  destruct l as [|c l]; [rewrite drop_nil; by destruct n|]. rewrite steps_cons. destruct n as [|n].
  { cbn [take]. change (width []) with 0. by rewrite !drop_0, <- steps_cons. }
  pose proof (decode_size (c :: l) ltac:(done)) as D. destruct (decode_rune (c :: l)) as [r k] eqn:E. cbn [snd] in *. cbn [take drop].
  rewrite <- (IH (drop k (c :: l))) by (rewrite length_drop; simpl; lia). rewrite drop_drop. f_equal.
Qed.

(** ** Counting runes *)

Lemma rune_count_cons c l :
  rune_count (c :: l) = S (rune_count (drop (snd (decode_rune (c :: l))) (c :: l))).
Proof. unfold rune_count. by rewrite steps_cons. Qed.
Lemma rune_count_length l : rune_count l <= List.length l.
Proof. unfold rune_count. pose proof (sized_width _ (steps_sized l)). rewrite steps_width in *. done. Qed.
(** The bytes of a rune after its first are continuation bytes, which are no
    rune of their own. *)
Lemma decode_cont l i : 1 <= i < snd (decode_rune l) -> exists c, l !! i = Some c /\ cont_byte (N_of_ascii c) = true.
Proof.
  unfold decode_rune. destruct l as [|c0 [|c1 [|c2 [|c3 l]]]]; cbn [map]; repeat destruct_cond; cbn [snd]; intros I; try lia;
    bool_hyps; (destruct i as [|[|[|[|i]]]]; [lia| | | |lia]); cbn [lookup list_lookup]; try lia; eexists; (split; [done|]); try done;
    match goal with H : in_range _ _ ?n = true |- cont_byte ?n = true => unfold cont_byte; rewrite in_range_spec in *; repeat destruct_cond; lia end.
Qed.
Lemma decode_of_cont c l : cont_byte (N_of_ascii c) = true -> snd (decode_rune (c :: l)) = 1.
Proof.
  unfold cont_byte. rewrite in_range_spec. intros B. unfold decode_rune. cbn [map].
  destruct (N.ltb_spec (N_of_ascii c) 128); [done|].
  assert (forall a b, (192 <= a)%N -> in_range a b (N_of_ascii c) = false) as F
    by (intros a b A; apply not_true_iff_false; rewrite in_range_spec; lia).
  by rewrite !F by lia.
Qed.
Lemma rune_count_conts k l :
  (forall i, i < k -> exists c, l !! i = Some c /\ cont_byte (N_of_ascii c) = true) ->
  rune_count l = k + rune_count (drop k l).
Proof.
  revert l. induction k as [|k IH]; intros l C; [by rewrite drop_0|].
  destruct (C 0 ltac:(lia)) as (c & E & B). destruct l as [|x l]; [done|]. injection E as ->.
  rewrite rune_count_cons, decode_of_cont by done. cbn [drop Nat.add]. rewrite drop_0. f_equal. apply IH.
  intros i I. exact (C (S i) ltac:(lia)).
Qed.
Lemma rune_count_app a b : rune_count (a ++ b) <= rune_count a + rune_count b.
Proof.
  induction a as [a IH] using (well_founded_induction (well_founded_ltof _ (@List.length ascii))). unfold ltof in IH.
  destruct a as [|c a]; [done|].
  assert (decode_rune ((c :: a) ++ b) = decode_rune (c :: a ++ b)) as Ed by done.
  pose proof (decode_take (List.length (c :: a)) ((c :: a) ++ b)) as T. rewrite take_app_length in T.
  pose proof (decode_size (c :: a) ltac:(done)) as D.
  change ((c :: a) ++ b) with (c :: (a ++ b)) in *. rewrite !rune_count_cons.
  destruct (decide (snd (decode_rune (c :: a ++ b)) <= List.length (c :: a))) as [L|L].
  - rewrite T by done. set (n := snd (decode_rune (c :: a ++ b))) in *.
    assert (drop n (c :: a ++ b) = drop n (c :: a) ++ b) as -> by (change (c :: a ++ b) with ((c :: a) ++ b); by apply drop_app_le).
    specialize (IH (drop n (c :: a))). rewrite length_drop in IH. rewrite T in D by done. fold n in D. simpl in IH, D.
    specialize (IH ltac:(lia)). simpl. lia.
  - set (n := snd (decode_rune (c :: a ++ b))) in *.
    assert (drop n (c :: a ++ b) = drop (n - List.length (c :: a)) b) as ->
      by (change (c :: a ++ b) with ((c :: a) ++ b); apply drop_app_ge; lia).
    rewrite (rune_count_conts (n - List.length (c :: a)) b); [lia|]. intros i I.
    destruct (decode_cont (c :: a ++ b) (i + List.length (c :: a))) as (x & E & B); [fold n; simpl in *; lia|].
    exists x. split; [|done]. change (c :: a ++ b) with ((c :: a) ++ b) in E. rewrite lookup_app_r in E by lia.
    by replace (i + _ - _) with i in E by lia.
Qed.
