(* ===== verification/Regex.v ===== *)
(** * Regular expressions ([regexp])

    The program's patterns use Go's leftmost-first matching: of the matches
    that start furthest to the left, the one a backtracking search finds
    first.  [ms] lists the ways a pattern matches at a place, in the order the
    search tries them; a text is the runes [range] yields, each with its size
    in bytes, and places are byte offsets. *)
From S2P Require Import Prelude GoStrings Utf8 Runes.
Local Open Scope list_scope.
Local Open Scope nat_scope.

(** ** Patterns *)

Inductive re :=
| Empty
| Cls (p : N -> bool)
| Cat (a b : re)
| Alt (a b : re)
| Star (a : re)
| Cap (a : re)
| Bot
| Eot.

Definition Plus (a : re) : re := Cat a (Star a).
Definition Opt (a : re) : re := Alt a Empty.
Fixpoint Rep (n : nat) (a : re) : re := match n with O => Empty | S n => Cat a (Rep n a) end.
(** [a{0,n}], greedy. *)
Fixpoint UpTo (n : nat) (a : re) : re := match n with O => Empty | S n => Opt (Cat a (UpTo n a)) end.
Fixpoint Alts (l : list re) : re := match l with [] => Cls (fun _ => false) | [a] => a | a :: t => Alt a (Alts t) end.
Fixpoint Cats (l : list re) : re := match l with [] => Empty | [a] => a | a :: t => Cat a (Cats t) end.

(** Character classes: ranges, sets, complements, and the simple case folding
    of [(?i)], under which the long s and the Kelvin sign are letters too. *)
Definition one_of (s : string) (r : N) : bool := existsb (fun c => (N_of_ascii c =? r)%N) (chars s).
Definition lower_letter : N -> bool := in_range 97 122.
Definition upper_letter : N -> bool := in_range 65 90.
Definition decimal : N -> bool := in_range 48 57.
Definition fold (p : N -> bool) (r : N) : bool :=
  p r || (upper_letter r && p (r + 32)%N) || (lower_letter r && p (r - 32)%N)
  || ((r =? 383)%N && (p 115%N || p 83%N)) || ((r =? 8490)%N && (p 107%N || p 75%N)).
Definition neg (p : N -> bool) (r : N) : bool := negb (p r).
Definition ors (l : list (N -> bool)) (r : N) : bool := existsb (fun p => p r) l.
(** A literal text, and the same under [(?i)]. *)
Definition Lit (s : string) : re := Cats (map (fun c => Cls (N.eqb (N_of_ascii c))) (chars s)).
Definition FLit (s : string) : re := Cats (map (fun c => Cls (fold (N.eqb (N_of_ascii c)))) (chars s)).

(** ** Matching *)

Record place := mkPlace { at_ : nat; todo : list (N * nat); group : option (nat * nat) }.

Fixpoint star (f : place -> list place) (fuel : nat) (s : place) : list place :=
  match fuel with
  | O => [s]
  | S fuel => flat_map (fun s' => if at_ s <? at_ s' then star f fuel s' else []) (f s) ++ [s]
  end.
Fixpoint ms (r : re) (s : place) : list place :=
  match r with
  | Empty => [s]
  | Cls p => match todo s with
             | (c, n) :: t => if p c then [mkPlace (at_ s + n) t (group s)] else []
             | [] => []
             end
  | Cat a b => flat_map (ms b) (ms a s)
  | Alt a b => ms a s ++ ms b s
  | Star a => star (ms a) (List.length (todo s)) s
  | Cap a => map (fun s' => mkPlace (at_ s') (todo s') (Some (at_ s, at_ s'))) (ms a s)
  | Bot => if at_ s =? 0 then [s] else []
  | Eot => match todo s with [] => [s] | _ => [] end
  end.

(** The first match at or after a place. *)
Fixpoint leftmost (r : re) (pos : nat) (l : list (N * nat)) : option (nat * place) :=
  match head (ms r (mkPlace pos l None)) with
  | Some s => Some (pos, s)
  | None => match l with [] => None | (_, n) :: t => leftmost r (pos + n) t end
  end.

(** [MatchString]. *)
Definition MatchString (r : re) (s : string) : bool :=
  match leftmost r 0 (steps (chars s)) with Some _ => true | None => false end.

(** [FindAllStringSubmatchIndex(s, -1)]: each match with its first group.  Each
    round consumes a rune or ends. *)
Record span := mkSpan { lo : nat; hi : nat }.
#[export] Instance span_eq_dec : EqDecision span.
Proof. solve_decision. Defined.
Record found := mkFound { whole : span; sub1 : option span }.
Fixpoint all_from (fuel : nat) (r : re) (pos : nat) (l : list (N * nat)) (prev : option nat) : list found :=
  match fuel with
  | O => []
  | S fuel =>
    match leftmost r pos l with
    | None => []
    | Some (b, s) =>
      let m := mkFound (mkSpan b (at_ s)) ((fun g => mkSpan g.1 g.2) <$> group s) in
      if at_ s =? pos then
        (if bool_decide (prev = Some b) then [] else [m]) ++
        match l with [] => [] | (_, n) :: t => all_from fuel r (pos + n) t (Some (at_ s)) end
      else m :: all_from fuel r (at_ s) (todo s) (Some (at_ s))
    end
  end.
Definition FindAll (r : re) (l : list ascii) : list found :=
  all_from (S (List.length (steps l))) r 0 (steps l) None.

Example find_ok :
  map whole (FindAll (Plus (Cls (fold lower_letter))) (chars "ab 1Cd")) = [mkSpan 0 2; mkSpan 4 6].
Proof. vm_compute. reflexivity. Qed.
Example leftmost_first :
  map whole (FindAll (Alt (Lit "a") (Lit "ab")) (chars "xab")) = [mkSpan 1 2].
Proof. vm_compute. reflexivity. Qed.

(** ** What a match consumes *)

(** The fewest runes a match consumes. *)
Fixpoint least (r : re) : nat :=
  match r with
  | Cls _ => 1
  | Cat a b => least a + least b
  | Alt a b => Nat.min (least a) (least b)
  | Cap a => least a
  | _ => 0
  end.

(** [consumes k s s']: between the places lie the runes [k]. *)
Definition consumes (k : list (N * nat)) (s s' : place) : Prop :=
  todo s = k ++ todo s' /\ at_ s' = at_ s + width k.
Lemma consumes_refl s : consumes [] s s.
Proof. split; simpl; [done|]. unfold width. simpl. lia. Qed.
Lemma consumes_trans k k' a b c : consumes k a b -> consumes k' b c -> consumes (k ++ k') a c.
Proof. intros [E1 A1] [E2 A2]. split; [by rewrite E1, E2, app_assoc|]. rewrite width_app. lia. Qed.

Lemma star_consumes f fuel s s' :
  (forall s s', s' ∈ f s -> exists k, consumes k s s') ->
  s' ∈ star f fuel s -> exists k, consumes k s s'.
Proof.
  intros F. revert s. induction fuel as [|fuel IH]; intros s; cbn [star].
  { rewrite list_elem_of_singleton. intros ->. exists []. apply consumes_refl. }
  rewrite elem_of_app, list_elem_of_singleton, list_elem_of_In, in_flat_map.
  intros [(m & M & I)| ->]; [|exists []; apply consumes_refl].
  apply list_elem_of_In in M. destruct (F _ _ M) as [k K].
  destruct (_ <? _); [|by apply list_elem_of_In in I; apply not_elem_of_nil in I].
  apply list_elem_of_In, IH in I as [k' K']. exists (k ++ k'). by eapply consumes_trans.
Qed.
Lemma ms_consumes r s s' : s' ∈ ms r s -> exists k, consumes k s s' /\ least r <= List.length k.
Proof.
  revert s s'. induction r as [|p|a IHa b IHb|a IHa b IHb|a IHa|a IHa| |]; intros s s'; cbn [ms least].
  - rewrite list_elem_of_singleton. intros ->. exists []. split; [apply consumes_refl|done].
  - destruct (todo s) as [|[c n] t] eqn:T; [by intros ?%not_elem_of_nil|].
    destruct (p c); [|by intros ?%not_elem_of_nil]. rewrite list_elem_of_singleton. intros ->.
    exists [(c, n)]. split; [|done]. split; [done|]. unfold width. simpl. lia.
  - rewrite list_elem_of_In, in_flat_map. intros (m & M & I). apply list_elem_of_In in M, I.
    destruct (IHa _ _ M) as (k & K & L), (IHb _ _ I) as (k' & K' & L').
    exists (k ++ k'). rewrite length_app. split; [by eapply consumes_trans|lia].
  - rewrite elem_of_app. intros [I|I]; [apply IHa in I|apply IHb in I]; destruct I as (k & K & L);
      exists k; (split; [done|lia]).
  - intros I. destruct (star_consumes _ _ _ _ (fun x y M => let '(ex_intro _ k (conj K _)) := IHa x y M in ex_intro _ k K) I)
      as [k K]. exists k. split; [done|lia].
  - rewrite elem_of_map. intros (m & <- & M). destruct (IHa _ _ M) as (k & K & L). by exists k.
  - destruct (_ =? _); [|by intros ?%not_elem_of_nil]. rewrite list_elem_of_singleton. intros ->.
    exists []. split; [apply consumes_refl|done].
  - destruct (todo s); [|by intros ?%not_elem_of_nil]. rewrite list_elem_of_singleton. intros ->.
    exists []. split; [apply consumes_refl|done].
Qed.
Lemma leftmost_consumes r pos l b s :
  leftmost r pos l = Some (b, s) ->
  exists k k', l = k ++ k' ++ todo s /\ b = pos + width k /\ at_ s = b + width k' /\ least r <= List.length k'
            /\ s ∈ ms r (mkPlace b (k' ++ todo s) None).
Proof.
  revert pos. induction l as [|[c n] t IH]; intros pos; cbn [leftmost];
    destruct (head (ms r _)) as [m|] eqn:M.
  1, 3: intros [= <- <-]; apply head_Some in M as [rest E];
    assert (m ∈ ms r (mkPlace pos _ None)) as I by (rewrite E; left);
    pose proof (ms_consumes _ _ _ I) as (k & [T A] & L); simpl in T, A;
    exists [], k; rewrite <- T; repeat split; try done; unfold width at 1; simpl; lia.
  - done.
  - intros (k & k' & E & B & A & L & I)%IH. exists ((c, n) :: k), k'. rewrite E.
    repeat split; try done. rewrite B. unfold width. simpl. lia.
Qed.

(** Enough fuel: one round more changes nothing. *)
Lemma all_from_fuel r : 1 <= least r -> forall f pos l prev,
  sized l -> List.length l < f -> all_from f r pos l prev = all_from (S (List.length l)) r pos l prev.
Proof.
  intros NE. induction f as [f IH] using lt_wf_ind. intros pos l prev Z F.
  destruct f as [|f]; [lia|]. cbn [all_from].
  destruct (leftmost r pos l) as [[b s]|] eqn:M; [|done].
  apply leftmost_consumes in M as (k & k' & E & B & A & L & _).
  assert (sized (k' ++ todo s)) as Z' by (rewrite E in Z; by apply Forall_app in Z as [_ ?]).
  assert (sized k') as ZK by by apply Forall_app in Z' as [? _].
  assert (sized (todo s)) as ZT by by apply Forall_app in Z' as [_ ?].
  pose proof (sized_width _ ZK). destruct (Nat.eqb_spec (at_ s) pos); [lia|].
  f_equal. assert (List.length (todo s) < List.length l) by (rewrite E, !length_app; lia).
  rewrite (IH f) by (done || lia). destruct (List.length l) as [|len] eqn:LL; [lia|].
  rewrite (IH (S len)) by (done || lia). done.
Qed.

(** ** The matches of a text *)

Section matches.
Context (r : re) (nonempty : 1 <= least r).

Lemma all_from_spans fuel pos l prev m :
  sized l -> m ∈ all_from fuel r pos l prev ->
  pos <= lo (whole m) /\ lo (whole m) < hi (whole m) /\ hi (whole m) <= pos + width l
  /\ exists b l' s, lo (whole m) = b /\ sized l' /\ s ∈ ms r (mkPlace b l' None) /\ at_ s = hi (whole m)
               /\ sub1 m = (fun g => mkSpan g.1 g.2) <$> group s.
Proof.
  revert pos l prev. induction fuel as [|fuel IH]; intros pos l prev Z; cbn [all_from]; [by intros ?%not_elem_of_nil|].
  destruct (leftmost r pos l) as [[b s]|] eqn:M; [|by intros ?%not_elem_of_nil].
  apply leftmost_consumes in M as (k & k' & E & B & A & L & I).
  assert (sized (k' ++ todo s)) as Z' by (rewrite E in Z; by apply Forall_app in Z as [_ ?]).
  assert (sized k') as ZK by by apply Forall_app in Z' as [? _].
  assert (sized (todo s)) as ZT by by apply Forall_app in Z' as [_ ?].
  pose proof (sized_width _ ZK). assert (width l = width k + (width k' + width (todo s))) as W by by rewrite E, !width_app.
  destruct (Nat.eqb_spec (at_ s) pos); [lia|]. rewrite elem_of_cons. intros [->|I'].
  - cbn [whole lo hi sub1]. repeat split; try lia. exists b, (k' ++ todo s), s. done.
  - apply IH in I' as (? & ? & ? & R); [|done]. repeat split; try lia. exact R.
Qed.

(** Every match is a non-empty span of the text. *)
Lemma FindAll_bounds l m :
  m ∈ FindAll r l -> lo (whole m) < hi (whole m) /\ hi (whole m) <= List.length l.
Proof.
  intros I. apply all_from_spans in I as (_ & ? & ? & _); [|apply steps_sized]. rewrite steps_width in *. lia.
Qed.
End matches.

(** The group of [prefix(body)]. *)
Lemma group_bounds a b s s' :
  1 <= least b -> sized (todo s) -> s' ∈ ms (Cat a (Cap b)) s ->
  exists x y, group s' = Some (x, y) /\ at_ s <= x /\ x < y /\ y <= at_ s'.
Proof.
  intros L Z. cbn [ms]. rewrite list_elem_of_In, in_flat_map. intros (m & M & I).
  apply list_elem_of_In in M, I. apply elem_of_map in I as (m' & <- & I). cbn [at_ group].
  apply ms_consumes in M as (k & [T A] & _), I as (k' & [T' A'] & L').
  assert (sized k') as ZK.
  { rewrite T in Z. apply Forall_app in Z as [_ Z]. rewrite T' in Z. by apply Forall_app in Z as [? _]. }
  pose proof (sized_width _ ZK). exists (at_ m), (at_ m'). repeat split; lia.
Qed.
Lemma FindAll_group a b l m :
  1 <= least b -> m ∈ FindAll (Cat a (Cap b)) l ->
  exists g, sub1 m = Some g /\ lo g < hi g /\ hi g <= List.length l.
Proof.
  intros L I. assert (1 <= least (Cat a (Cap b))) as N by (simpl; lia).
  pose proof (FindAll_bounds _ N l m I) as [_ H].
  apply (all_from_spans _ N) in I as (_ & _ & _ & (p & l' & s & B & Z & I & A & E)); [|apply steps_sized].
  apply group_bounds in I as (x & y & G & ? & ? & ?); [|done|done].
  rewrite E, G. exists (mkSpan x y). simpl. repeat split; lia.
Qed.
