(* ===== verification/RegexLang.v ===== *)
(** * The languages of anchored patterns

    A pattern [^r$] matches a text exactly when the text's runes are a word of
    the language of [r]: the order in which [regexp] tries alternatives decides
    which match is found, never whether there is one. *)
From S2P Require Import Prelude GoStrings Utf8 Runes Regex.
Local Open Scope list_scope.
Local Open Scope nat_scope.

Fixpoint Lang (r : re) (w : list N) : Prop :=
  match r with
  | Empty | Bot | Eot => w = []
  | Cls p => exists c, w = [c] /\ p c = true
  | Cat a b => exists u v, w = u ++ v /\ Lang a u /\ Lang b v
  | Alt a b => Lang a w \/ Lang b w
  | Star a => exists ws, w = concat ws /\ Forall (Lang a) ws
  | Cap a => Lang a w
  end.
(** No anchor inside. *)
Fixpoint unanchored (r : re) : bool :=
  match r with
  | Bot | Eot => false
  | Cat a b | Alt a b => unanchored a && unanchored b
  | Star a | Cap a => unanchored a
  | _ => true
  end.
Definition anchored (r : re) : re := Cats [Bot; r; Eot].

Lemma ms_cat a b s s' : s' ∈ ms (Cat a b) s <-> exists m, m ∈ ms a s /\ s' ∈ ms b m.
Proof.
  cbn [ms]. rewrite list_elem_of_In, in_flat_map. setoid_rewrite <- list_elem_of_In. done.
Qed.
Lemma star_S f fuel s s' :
  s' ∈ star f (S fuel) s <-> (exists m, m ∈ f s /\ at_ s < at_ m /\ s' ∈ star f fuel m) \/ s' = s.
Proof.
  cbn [star]. rewrite elem_of_app, list_elem_of_singleton, list_elem_of_In, in_flat_map.
  setoid_rewrite <- list_elem_of_In. split; (intros [(m & M & I)| ->]; [left|by right]); exists m.
  - destruct (Nat.ltb_spec (at_ s) (at_ m)); [done|by apply not_elem_of_nil in I].
  - destruct I as [L I]. apply Nat.ltb_lt in L as ->. done.
Qed.

(** ** Soundness *)

Lemma star_sound (f : place -> list place) (L : list N -> Prop) :
  (forall s s', s' ∈ f s -> exists k, consumes k s s' /\ L (map fst k)) ->
  forall fuel s s', s' ∈ star f fuel s ->
  exists k ws, consumes k s s' /\ map fst k = concat ws /\ Forall L ws.
Proof.
  intros F. induction fuel as [|fuel IH]; intros s s'.
  { cbn [star]. rewrite list_elem_of_singleton. intros ->. exists [], []. split; [apply consumes_refl|done]. }
  rewrite star_S. intros [(m & M & _ & I)| ->]; [|exists [], []; split; [apply consumes_refl|done]].
  destruct (F _ _ M) as (k & K & W), (IH _ _ I) as (k' & ws & K' & E & Ws).
  exists (k ++ k'), (map fst k :: ws). split; [by eapply consumes_trans|].
  split; [by rewrite map_app, E|by constructor].
Qed.
Lemma ms_sound r : forall s s', s' ∈ ms r s -> exists k, consumes k s s' /\ Lang r (map fst k).
Proof.
  induction r as [|p|a IHa b IHb|a IHa b IHb|a IHa|a IHa| |]; intros s s'.
  - cbn [ms]. rewrite list_elem_of_singleton. intros ->. exists []. split; [apply consumes_refl|done].
  - cbn [ms]. destruct (todo s) as [|[c n] t] eqn:T; [by intros ?%not_elem_of_nil|].
    destruct (p c) eqn:P; [|by intros ?%not_elem_of_nil]. rewrite list_elem_of_singleton. intros ->.
    exists [(c, n)]. split; [|by exists c]. split; [done|]. unfold width. simpl. lia.
  - rewrite ms_cat. intros (m & M & I). destruct (IHa _ _ M) as (k & K & W), (IHb _ _ I) as (k' & K' & W').
    exists (k ++ k'). split; [by eapply consumes_trans|]. exists (map fst k), (map fst k'). by rewrite map_app.
  - cbn [ms]. rewrite elem_of_app. intros [(k & K & W)%IHa|(k & K & W)%IHb]; exists k; (split; [done|]); [by left|by right].
  - intros I. destruct (star_sound _ _ IHa _ _ _ I) as (k & ws & K & E & W). exists k. split; [done|]. by exists ws.
  - cbn [ms]. rewrite elem_of_map. intros (m & <- & M). destruct (IHa _ _ M) as (k & K & W). by exists k.
  - cbn [ms]. destruct (_ =? _); [|by intros ?%not_elem_of_nil]. rewrite list_elem_of_singleton. intros ->.
    exists []. split; [apply consumes_refl|done].
  - cbn [ms]. destruct (todo s); [|by intros ?%not_elem_of_nil]. rewrite list_elem_of_singleton. intros ->.
    exists []. split; [apply consumes_refl|done].
Qed.

(** ** Completeness *)

(** From any place, [f] finds a way to consume a word of [L] that lies ahead. *)
Definition finds (f : place -> list place) (L : list N -> Prop) : Prop :=
  forall s k rest, todo s = k ++ rest -> sized k -> L (map fst k) -> exists s', s' ∈ f s /\ consumes k s s'.

Lemma sized_app a b : sized (a ++ b) <-> sized a /\ sized b.
Proof. apply Forall_app. Qed.
Lemma map_split {A B} (f : A -> B) l u v : map f l = u ++ v -> exists a b, l = a ++ b /\ map f a = u /\ map f b = v.
Proof.
  intros E. exists (take (List.length u) l), (drop (List.length u) l). split; [by rewrite take_drop|].
  rewrite <- firstn_map, <- skipn_map, E. split; [apply take_app_length|apply drop_app_length].
Qed.
Lemma star_finds f L ws :
  finds f L -> Forall L ws -> Forall (fun w => w <> []) ws -> forall fuel s k rest,
  todo s = k ++ rest -> sized k -> map fst k = concat ws -> List.length k <= fuel ->
  exists s', s' ∈ star f fuel s /\ consumes k s s'.
Proof.
  intros F W NE. induction ws as [|w ws IH]; intros fuel s k rest T Z E B.
  { apply map_eq_nil in E as ->. exists s. split; [|apply consumes_refl].
    destruct fuel; [by left|]. apply star_S. by right. }
  apply Forall_cons in W as [W Ws], NE as [N NEs].
  apply map_split in E as (k1 & k2 & -> & E1 & E2). apply sized_app in Z as [Z1 Z2].
  rewrite <- app_assoc in T. rewrite <- E1 in W. destruct (F _ _ _ T Z1 W) as (m & M & [T' A]).
  assert (todo m = k2 ++ rest) as T2 by (rewrite T in T'; by apply app_inv_head in T').
  pose proof (sized_width _ Z1). assert (1 <= List.length k1) by (destruct k1; [by subst w|simpl; lia]).
  rewrite length_app in B. destruct fuel as [|fuel]; [lia|].
  destruct (IH Ws NEs fuel m k2 rest) as (s' & I & K'); [done..|lia|].
  exists s'. split; [apply star_S; left; exists m; split_and!; [done|lia|done]|].
  eapply consumes_trans; [|exact K']. done.
Qed.
Lemma concat_nonempty {A} (P : list A -> Prop) ws :
  Forall P ws -> exists ws', concat ws = concat ws' /\ Forall P ws' /\ Forall (fun w => w <> []) ws'.
Proof.
  induction 1 as [|w ws W _ (ws' & E & P' & N)]; [by exists []|].
  destruct w as [|x w]; [by exists ws'|]. exists ((x :: w) :: ws'). cbn [concat]. rewrite E. by split_and!; [|constructor|constructor].
Qed.
Lemma ms_finds r : unanchored r = true -> finds (ms r) (Lang r).
Proof.
  induction r as [|p|a IHa b IHb|a IHa b IHb|a IHa|a IHa| |]; intros U s k rest T Z W; cbn [unanchored] in U; bool_hyps; try done.
  - apply map_eq_nil in W as ->. exists s. split; [by left|apply consumes_refl].
  - destruct W as (c & E & P). apply map_eq_cons in E as ([c' n] & t & -> & E1 & E2). apply map_eq_nil in E2 as ->.
    simpl in E1. subst c'. cbn [ms]. rewrite T. cbn [app]. rewrite P. eexists. split; [by left|].
    split; [done|]. unfold width. simpl. lia.
  - destruct W as (u & v & E & A & B). apply map_split in E as (k1 & k2 & -> & <- & <-). apply sized_app in Z as [Z1 Z2].
    rewrite <- app_assoc in T. destruct (IHa ltac:(done) _ _ _ T Z1 A) as (m & M & K).
    assert (todo m = k2 ++ rest) as T2 by (destruct K as [T' _]; rewrite T in T'; by apply app_inv_head in T').
    destruct (IHb ltac:(done) _ _ _ T2 Z2 B) as (s' & I & K').
    exists s'. split; [apply ms_cat; by exists m|]. by eapply consumes_trans.
  - destruct W as [W|W]; [destruct (IHa ltac:(done) _ _ _ T Z W) as (s' & I & K)|destruct (IHb ltac:(done) _ _ _ T Z W) as (s' & I & K)];
      exists s'; (split; [|done]); cbn [ms]; apply elem_of_app; [by left|by right].
  - destruct W as (ws & E & W). apply concat_nonempty in W as (ws' & E' & W & N). rewrite E' in E.
    apply (star_finds _ _ ws' (IHa U) W N) with rest; [done..|]. rewrite T, length_app. lia.
  - destruct (IHa U _ _ _ T Z W) as (s' & I & [T' A]). exists (mkPlace (at_ s') (todo s') (Some (at_ s, at_ s'))).
    split; [|done]. cbn [ms]. apply elem_of_map. by exists s'.
Qed.

(** ** Anchored matching *)

Lemma steps_from_runes skip l : map fst (steps_from skip l) = runes_from skip l.
Proof.
  revert skip. induction l as [|c l IH]; intros skip; [done|]. cbn [steps_from runes_from].
  destruct skip; [|apply IH]. destruct (decode_rune (c :: l)) as [r n]. simpl. by rewrite IH.
Qed.
Lemma steps_runes s : map fst (steps (chars s)) = runes s.
Proof. apply steps_from_runes. Qed.

Lemma leftmost_bot r pos l : 0 < pos -> leftmost (Cat Bot r) pos l = None.
Proof.
  assert (forall l', 0 < pos -> ms (Cat Bot r) (mkPlace pos l' None) = []) as E.
  { intros l' P. cbn [ms at_]. by destruct (Nat.eqb_spec pos 0); [lia|]. }
  intros P. revert pos P E. induction l as [|[c n] l IH]; intros pos P E; cbn [leftmost]; rewrite E by done; [done|].
  apply IH; [lia|]. intros l' P'. cbn [ms at_]. by destruct (Nat.eqb_spec (pos + n) 0); [lia|].
Qed.
Lemma MatchString_anchored r s :
  unanchored r = true -> MatchString (anchored r) s = true <-> Lang r (runes s).
Proof.
  intros U. unfold MatchString, anchored. cbn [Cats].
  assert ((exists m, m ∈ ms (Cat Bot (Cat r Eot)) (mkPlace 0 (steps (chars s)) None)) <-> Lang r (runes s)) as <-.
  { rewrite <- steps_runes. split.
    - intros (m & I). apply ms_cat in I as (m0 & M & I). cbn in M. apply list_elem_of_singleton in M as ->.
      apply ms_cat in I as (m1 & M & I). apply ms_sound in M as (k & [T A] & W). cbn [todo] in T. cbn [ms] in I.
      destruct (todo m1); [|by apply not_elem_of_nil in I]. by rewrite T, app_nil_r.
    - intros W. destruct (ms_finds r U (mkPlace 0 (steps (chars s)) None) (steps (chars s)) []) as (m & M & [T A]);
        [by rewrite app_nil_r|apply steps_sized|done|].
      exists m. apply ms_cat. exists (mkPlace 0 (steps (chars s)) None). split; [by left|].
      apply ms_cat. exists m. split; [done|]. cbn [ms]. cbn [todo] in T.
      assert (todo m = []) as -> by (rewrite <- (app_nil_r (steps _)) in T at 1; by apply app_inv_head in T). by left. }
  pose proof (steps_sized (chars s)) as Z. destruct (steps (chars s)) as [|[c n] l].
  - cbn [leftmost]. destruct (ms _ _) as [|m t] eqn:M; simpl; (split; [|done || by intros (m & ?%not_elem_of_nil)]); [done|].
    intros _. exists m. left.
  - cbn [leftmost]. destruct (ms _ _) as [|m t] eqn:M; simpl.
    + apply Forall_cons in Z as [Z _]. simpl in Z. rewrite leftmost_bot by lia. split; [done|]. by intros (m & ?%not_elem_of_nil).
    + split; [|done]. intros _. exists m. left.
Qed.

(** ** ASCII patterns *)

(** The classes of the pattern hold only ASCII characters. *)
Fixpoint within_ascii (r : re) : Prop :=
  match r with
  | Cls p => forall c, p c = true -> (c < 128)%N
  | Cat a b | Alt a b => within_ascii a /\ within_ascii b
  | Star a | Cap a => within_ascii a
  | _ => True
  end.
Definition codes (s : string) : list N := map N_of_ascii (chars s).
(** The language of a pattern as a set of strings. *)
Definition Words (r : re) (s : string) : Prop := Lang r (codes s).

Lemma Lang_ascii r w : within_ascii r -> Lang r w -> Forall (fun c => (c < 128)%N) w.
Proof.
  revert w. induction r as [|p|a IHa b IHb|a IHa b IHb|a IHa|a IHa| |]; intros w; cbn [within_ascii Lang].
  1, 7, 8: intros _ ->; constructor.
  - intros A (c & -> & P). constructor; [by apply A|constructor].
  - intros [A B] (u & v & -> & U & V). apply Forall_app. auto.
  - intros [A B] [?|?]; auto.
  - intros A (ws & -> & F). induction F; cbn [concat]; [constructor|]. apply Forall_app. auto.
  - auto.
Qed.
Lemma decode_ascii c l : (fst (decode_rune (c :: l)) < 128)%N -> (N_of_ascii c < 128)%N.
Proof.
  intros L. destruct (decode_rune (c :: l)) as [r n] eqn:E. cbn [fst] in L.
  pose proof (encode_decode _ _ _ E ltac:(done)) as Enc. specialize (Enc ltac:(intros [-> _]; unfold RuneError in L; lia)).
  unfold encode_rune in Enc. destruct (in_range 55296 57343 r) eqn:I; [apply in_range_spec in I; lia|].
  destruct (N.ltb_spec 1114111 r); [lia|]. cbn [orb] in Enc. apply N.ltb_lt in L as B. rewrite B in Enc.
  pose proof (decode_size (c :: l) ltac:(done)) as S. rewrite E in S. cbn [snd] in S.
  destruct n as [|n]; [lia|]. cbn [take] in Enc. injection Enc as <- _. rewrite byte_of_val by lia. done.
Qed.
Lemma decode_ascii_size c l : (N_of_ascii c < 128)%N -> decode_rune (c :: l) = (N_of_ascii c, 1).
Proof. intros L. unfold decode_rune. cbn [map]. by apply N.ltb_lt in L as ->. Qed.
Lemma runes_codes l :
  Forall (fun c => (c < 128)%N) (runes_from 0 l) \/ Forall (fun c => (c < 128)%N) (map N_of_ascii l) ->
  runes_from 0 l = map N_of_ascii l.
Proof.
  induction l as [|c l IH]; [done|]. intros H. cbn [runes_from] in *. cbn [map] in *.
  assert (N_of_ascii c < 128)%N as L.
  { destruct H as [F|F]; [|by apply Forall_cons in F as [? _]]. apply (decode_ascii c l).
    destruct (decode_rune (c :: l)). by apply Forall_cons in F as [? _]. }
  rewrite decode_ascii_size in * by done. cbn [pred] in *. rewrite IH; [done|].
  destruct H as [F|F]; apply Forall_cons in F as [_ F]; auto.
Qed.
Lemma MatchString_ascii r s :
  unanchored r = true -> within_ascii r -> MatchString (anchored r) s = true <-> Words r s.
Proof.
  intros U A. rewrite MatchString_anchored by done. unfold Words, codes, runes.
  split; intros L; pose proof (Lang_ascii _ _ A L) as F; [rewrite runes_codes in L by auto|rewrite runes_codes by auto]; done.
Qed.

(** ** Words *)

Lemma codes_app s t : codes (s +:+ t) = codes s ++ codes t.
Proof. unfold codes. by rewrite chars_app, map_app. Qed.
#[export] Instance codes_inj : Inj (=) (=) codes.
Proof.
  intros s t E. apply (inj chars). unfold codes in E. revert E. generalize (chars s) as a, (chars t) as b.
  induction a as [|x a IH]; intros [|y b] E; try done. cbn [map] in E. injection E as E1 E2. f_equal; [|auto].
  rewrite <- (ascii_N_embedding x), <- (ascii_N_embedding y). by f_equal.
Qed.
Lemma codes_split s u v : codes s = u ++ v -> exists a b, s = a +:+ b /\ codes a = u /\ codes b = v.
Proof.
  unfold codes. intros E. apply map_split in E as (a & b & C & A & B). exists (str a), (str b).
  rewrite !chars_str. split_and!; [|done|done]. apply (inj chars). by rewrite chars_app, !chars_str.
Qed.

Lemma Words_Empty s : Words Empty s <-> s = ""%string.
Proof. unfold Words. cbn [Lang]. split; [intros E; by apply (inj codes)|by intros ->]. Qed.
Lemma Words_Cat a b s : Words (Cat a b) s <-> exists u v, s = u +:+ v /\ Words a u /\ Words b v.
Proof.
  unfold Words. cbn [Lang]. split.
  - intros (u & v & E & U & V). apply codes_split in E as (x & y & -> & <- & <-). eauto.
  - intros (u & v & -> & U & V). exists (codes u), (codes v). by rewrite codes_app.
Qed.
Lemma Words_Alt a b s : Words (Alt a b) s <-> Words a s \/ Words b s.
Proof. done. Qed.
Lemma Words_Opt a s : Words (Opt a) s <-> Words a s \/ s = ""%string.
Proof. unfold Opt. by rewrite Words_Alt, Words_Empty. Qed.
(** Texts of characters of a class. *)
Definition of_class (p : N -> bool) (s : string) : bool := forallb p (codes s).
Lemma Words_Cls p s : Words (Cls p) s <-> String.length s = 1 /\ of_class p s = true.
Proof.
  unfold Words, of_class, codes. cbn [Lang]. destruct s as [|a [|b s]]; simpl; split.
  - intros (c & ? & _). done.
  - intros [? _]. done.
  - intros (c & [= ->] & ->). done.
  - intros [_ P]. bool_hyps. eauto.
  - intros (c & ? & _). done.
  - intros [? _]. done.
Qed.
Lemma of_class_app p s t : of_class p (s +:+ t) = of_class p s && of_class p t.
Proof. unfold of_class. by rewrite codes_app, forallb_app. Qed.
Lemma Words_Rep n p s : Words (Rep n (Cls p)) s <-> String.length s = n /\ of_class p s = true.
Proof.
  revert s. induction n as [|n IH]; intros s; cbn [Rep].
  - rewrite Words_Empty. split; [by intros ->|]. intros [L _]. by destruct s.
  - rewrite Words_Cat. setoid_rewrite IH. setoid_rewrite Words_Cls. split.
    + intros (u & v & -> & [L P] & [L' P']). rewrite length_append, of_class_app, P, P'. split; [lia|done].
    + intros [L P]. destruct s as [|x s]; [done|]. exists (String x ""), s. change (String x s) with (String x "" +:+ s) in P.
      rewrite of_class_app in P. bool_hyps. simpl in L. split_and!; try done. by injection L.
Qed.
Lemma Words_UpTo n p s : Words (UpTo n (Cls p)) s <-> String.length s <= n /\ of_class p s = true.
Proof.
  revert s. induction n as [|n IH]; intros s; cbn [UpTo].
  - rewrite Words_Empty. split; [by intros ->|]. intros [L _]. destruct s; simpl in L; [done|lia].
  - rewrite Words_Opt, Words_Cat. setoid_rewrite IH. setoid_rewrite Words_Cls. split.
    + intros [(u & v & -> & [L P] & [L' P'])| ->]; [|split; [simpl; lia|done]].
      rewrite length_append, of_class_app, P, P'. split; [lia|done].
    + intros [L P]. destruct s as [|x s]; [by right|left]. exists (String x ""), s. change (String x s) with (String x "" +:+ s) in P.
      rewrite of_class_app in P. bool_hyps. simpl in L. split_and!; try done. lia.
Qed.
Lemma Words_Lit t s : Words (Lit t) s <-> s = t.
Proof.
  unfold Lit. revert s. induction t as [|x t IH]; intros s; cbn [list_ascii_of_string map Cats]; [by rewrite Words_Empty|].
  assert (forall u, Words (Cls (N.eqb (N_of_ascii x))) u <-> u = String x "") as C.
  { intros u. rewrite Words_Cls. split; [|intros ->; unfold of_class, codes; simpl; by rewrite N.eqb_refl].
    destruct u as [|y [|]]; intros [L P]; try done. unfold of_class, codes in P. simpl in P. bool_hyps.
    rewrite <- (ascii_N_embedding x), <- (ascii_N_embedding y). by do 2 f_equal. }
  destruct (map _ (chars t)) as [|r l] eqn:M.
  - rewrite C. destruct t; [done|]. done.
  - rewrite Words_Cat. setoid_rewrite IH. setoid_rewrite C. split; [intros (u & v & -> & -> & ->); done|].
    intros ->. by exists (String x ""), t.
Qed.
