(* ===== verification/Redact.v ===== *)
(** * Redaction ([internal/redact])

    Secrets are found in a text as spans of bytes: matches of two patterns and
    occurrences of the values of secret environment variables.  Overlapping
    spans are merged, and each is replaced by a marker; the parts of a capture
    are redacted as one text.  Texts are lists of bytes; [strings] functions
    that look for white space look for the first byte of an encoded space. *)
From Stdlib Require Import Sorted.
From S2P Require Import Prelude GoStrings Utf8 Runes Regex.
Local Open Scope string_scope.
Local Open Scope list_scope.
Local Open Scope nat_scope.

(** ** Patterns *)

(** [\p{Z}\x{0009}-\x{000D}\x{0085}]. *)
Definition separator (r : N) : bool :=
  ((r =? 32)%N || (r =? 160)%N || (r =? 5760)%N || in_range 8192 8202 r || (r =? 8232)%N || (r =? 8233)%N
   || (r =? 8239)%N || (r =? 8287)%N || (r =? 12288)%N).
Definition tokenWhitespace (r : N) : bool := separator r || in_range 9 13 r || (r =? 133)%N.
Definition letters : N -> bool := ors [upper_letter; lower_letter].
Definition FCls (p : N -> bool) : re := Cls (fold p).
(** [p{n,}]. *)
Definition AtLeast (n : nat) (a : re) : re := Cat (Rep n a) (Star a).
Definition no_credential (r : N) : bool := negb (tokenWhitespace r || one_of "/@" r).
Definition tokenPattern : re :=
  Alts [Cat (Cap (Cat (FLit "bearer") (Plus (Cls tokenWhitespace)))) (Plus (FCls (ors [letters; decimal; one_of "._~+/=-"])));
        Cat (Alt (Cats [FLit "gh"; FCls (one_of "pousr"); FLit "_"]) (FLit "github_pat_"))
            (AtLeast 10 (FCls (ors [letters; decimal; one_of "_-"])));
        Cats [Plus (FCls lower_letter); FLit "://"; Plus (Cls no_credential); FLit ":"; Plus (Cls no_credential); FLit "@"]].

Definition hex : re := FCls (ors [decimal; in_range 65 70; in_range 97 102]).
Definition backslash : re := Cls (N.eqb 92).
(** What may stand before a key: the start, a non-letter, an escape sequence
    or a terminal control sequence that ends in a letter. *)
Definition keyPrefix : re :=
  Alts [Bot;
        Cls (neg (fold letters));
        Cat backslash (Alts [Cat (FLit "u") (Rep 4 hex); Cat (FLit "x") (Rep 2 hex); FCls letters]);
        Cat (FLit "%") (Rep 2 hex);
        Cat (Alt (Cls (N.eqb 27)) (Cat backslash (Alts [FLit "u001b"; FLit "x1b"; FLit "e"; FLit "033"])))
            (Alt (Cats [FLit "["; Star (Cls (ors [decimal; one_of ":;<=>?"])); Star (Cls (in_range 32 47)); FCls letters])
                 (Cat (Star (Cls (in_range 32 47))) (FCls (in_range 48 126))));
        Cats [FLit "["; Star (Cls (ors [decimal; one_of ";"])); FLit "m"]].
Definition keyBody : re := Cat (FLit "sk-") (AtLeast 10 (FCls (ors [letters; decimal; one_of "_-"]))).
Definition keyPattern : re := Cat keyPrefix (Cap keyBody).

(** ** The secrets of the environment *)

Definition secret_key (key : string) : bool :=
  Contains key "WEBHOOK" || Contains key "TOKEN" || Contains key "SECRET" || Contains key "PASSWORD" || Contains key "API_KEY".
Definition environmentSecrets (environ : list string) : list (list ascii) :=
  flat_map (fun entry =>
    let '(key, value, ok) := Cut entry "="%char in
    if negb ok || (slen value <? 8)%N then [] else if secret_key key then [chars value] else []) environ.

(** ** Spans *)

(** [strings.Index]. *)
Fixpoint index (sub l : list ascii) : option nat :=
  if bool_decide (sub `prefix_of` l) then Some 0 else
  match l with [] => None | _ :: t => S <$> index sub t end.
Definition extend (spans : list span) (start end_ : nat) : list span :=
  match last spans with
  | Some s => if start <? hi s then removelast spans ++ [mkSpan (lo s) end_] else spans ++ [mkSpan start end_]
  | None => [mkSpan start end_]
  end.
(** The occurrences of one value, overlapping ones joined; [from] grows. *)
Fixpoint value_spans (fuel : nat) (value input : list ascii) (from : nat) (spans : list span) : list span :=
  match fuel with
  | O => spans
  | S fuel =>
    match index value (drop from input) with
    | None => spans
    | Some i => value_spans fuel value input (S (from + i)) (extend spans (from + i) (from + i + List.length value))
    end
  end.

(** [slices.SortFunc] by start; spans that start together are merged whatever
    their order. *)
Fixpoint insert_span (s : span) (l : list span) : list span :=
  match l with
  | [] => [s]
  | t :: r => if lo s <=? lo t then s :: l else t :: insert_span s r
  end.
Definition sort_spans (l : list span) : list span := foldr insert_span [] l.
(** The inner loop extends the current span while the next one starts in it. *)
Fixpoint merge_from (cur : span) (l : list span) : list span :=
  match l with
  | [] => [cur]
  | s :: t => if lo s <? hi cur then merge_from (mkSpan (lo cur) (Nat.max (hi cur) (hi s))) t
              else cur :: merge_from s t
  end.
Definition mergeSpans (spans : list span) : list span :=
  match sort_spans spans with [] => [] | s :: t => merge_from s t end.

Definition raw_spans (input : list ascii) (values : list (list ascii)) : list span :=
  map whole (FindAll tokenPattern input) ++ omap sub1 (FindAll keyPattern input)
  ++ flat_map (fun value => if bool_decide (value = []) then [] else value_spans (S (List.length input)) value input 0 []) values.
Definition secretSpans (input : list ascii) (values : list (list ascii)) : list span :=
  mergeSpans (raw_spans input values).

(** ** Replacement *)

Definition redacted : list ascii := chars "[redacted]".
(** [s[a:b]]. *)
Definition slice (l : list ascii) (a b : nat) : list ascii := take (b - a) (drop a l).

(** The loop over the spans of one part; the answer is what was written, where
    the copy stands and the spans left. *)
Fixpoint replace_part (input : list ascii) (start end_ last : nat) (out : list ascii) (spans : list span)
    : list ascii * nat * list span :=
  match spans with
  | s :: t =>
    if lo s <? end_ then
      let out := if start <=? lo s then out ++ slice input last (lo s) ++ redacted else out in
      let last := Nat.min (hi s) end_ in
      if end_ <? hi s then (out, last, spans) else replace_part input start end_ last out t
    else (out, last, spans)
  | [] => (out, last, spans)
  end.
Fixpoint replace_parts (parts : list (list ascii)) (input : list ascii) (start : nat) (spans : list span)
    : list (list ascii) :=
  match parts with
  | [] => []
  | part :: rest =>
    let end_ := start + List.length part in
    let '(out, last, spans) := replace_part input start end_ start [] spans in
    (out ++ slice input last end_) :: replace_parts rest input end_ spans
  end.
Definition replaceParts (parts : list (list ascii)) (input : list ascii) (spans : list span) : list (list ascii) :=
  match spans with [] => parts | _ => replace_parts parts input 0 spans end.

Definition scrubParts (parts values : list (list ascii)) : list (list ascii) :=
  replaceParts parts (concat parts) (secretSpans (concat parts) values).
Definition scrub (input : list ascii) (values : list (list ascii)) : list ascii :=
  default [] (head (scrubParts [input] values)).

(** ** Display *)

Definition displayTextLimit : nat := N.to_nat 16384.
(** The bytes of the first [n] runes. *)
Definition rune_prefix (n : nat) (l : list ascii) : list ascii := take (width (take n (steps l))) l.
Definition displayString (environ : list string) (s : list ascii) : list ascii * list string :=
  let display := scrub s (environmentSecrets environ) in
  let kinds := if bool_decide (display = s) then [] else ["redacted"] in
  if displayTextLimit <? List.length (steps display)
  then (rune_prefix displayTextLimit display, kinds ++ ["shortened"])
  else (display, kinds).
Definition Text (environ : list string) (input : string) : string :=
  str (fst (displayString environ (chars input))).

Definition sample_environ : list string := ["HOME=/root"; "SLACK_TOKEN=xoxb-12345"; "DB_PASSWORD=ab cd ab cd"].
Example text_ok :
  Text sample_environ "push https://me:pw@host xoxb-12345 Bearer abc.d sk-0123456789ab ab cd ab cd ab cd"
  = "push [redacted]host [redacted] [redacted] [redacted] [redacted]".
Proof. vm_compute. reflexivity. Qed.

(** ** Merged spans *)

Definition covered (i : nat) (l : list span) : Prop := exists s, s ∈ l /\ lo s <= i < hi s.
Definition coveredb (i : nat) (l : list span) : bool := existsb (fun s => (lo s <=? i) && (i <? hi s)) l.
Definition proper (s : span) : Prop := lo s < hi s.
(** Apart and in order. *)
Definition separated (l : list span) : Prop := StronglySorted (fun a b => hi a <= lo b) l.

Lemma coveredb_spec i l : coveredb i l = true <-> covered i l.
Proof.
  unfold coveredb, covered. rewrite existsb_exists.
  split; intros (s & I & B); exists s; rewrite list_elem_of_In in *; (split; [done|]);
    rewrite andb_true_iff, Nat.leb_le, Nat.ltb_lt in *; done.
Qed.
Lemma covered_nil i : ~ covered i [].
Proof. intros (s & I & _). by apply not_elem_of_nil in I. Qed.
Lemma covered_cons i s l : covered i (s :: l) <-> lo s <= i < hi s \/ covered i l.
Proof. unfold covered. setoid_rewrite elem_of_cons. naive_solver. Qed.
Lemma covered_app i a b : covered i (a ++ b) <-> covered i a \/ covered i b.
Proof. unfold covered. setoid_rewrite elem_of_app. naive_solver. Qed.
Lemma covered_perm i a b : a ≡ₚ b -> covered i a <-> covered i b.
Proof. intros P. unfold covered. by setoid_rewrite P. Qed.

Definition starts_le (a b : span) : Prop := lo a <= lo b.
Lemma insert_span_perm s l : insert_span s l ≡ₚ s :: l.
Proof. induction l as [|t l IH]; simpl; [done|]. destruct (_ <=? _); [done|]. rewrite IH. apply Permutation_swap. Qed.
Lemma sort_spans_perm l : sort_spans l ≡ₚ l.
Proof. induction l as [|s l IH]; simpl; [done|]. by rewrite insert_span_perm, IH. Qed.
Lemma insert_span_sorted s l : StronglySorted starts_le l -> StronglySorted starts_le (insert_span s l).
Proof.
  induction 1 as [|t l S IH F]; simpl; [repeat constructor|].
  destruct (Nat.leb_spec (lo s) (lo t)) as [L|L].
  - constructor; [by constructor|]. constructor; [done|]. eapply Forall_impl; [exact F|]. unfold starts_le. lia.
  - constructor; [done|]. rewrite insert_span_perm. constructor; [unfold starts_le; lia|done].
Qed.
Lemma sort_spans_sorted l : StronglySorted starts_le (sort_spans l).
Proof. induction l; simpl; [constructor|by apply insert_span_sorted]. Qed.

Lemma merge_from_spec cur l :
  proper cur -> Forall proper l -> StronglySorted starts_le (cur :: l) ->
  separated (merge_from cur l) /\ Forall proper (merge_from cur l)
  /\ Forall (starts_le cur) (merge_from cur l) /\ (forall i, covered i (merge_from cur l) <-> covered i (cur :: l)).
Proof.
  revert cur. induction l as [|s l IH]; intros cur P F S; cbn [merge_from].
  { split_and!; repeat constructor; done. }
  apply Forall_cons in F as [Ps F]. apply StronglySorted_inv in S as [S C]. apply Forall_cons in C as [L C].
  apply StronglySorted_inv in S as [S D]. unfold proper, starts_le in *.
  destruct (Nat.ltb_spec (lo s) (hi cur)) as [O|O].
  - destruct (IH (mkSpan (lo cur) (Nat.max (hi cur) (hi s)))) as (X & Y & Z & W);
      [simpl; lia|done|by constructor|]. split_and!; try done.
    intros i. rewrite W, !covered_cons. simpl. split; intros [?|?]; auto; [|left; lia|].
    + destruct (decide (i < hi cur)); [left; lia|right; left; lia].
    + destruct H as [?|?]; [left; lia|by right].
  - destruct (IH s Ps F ltac:(by constructor)) as (X & Y & Z & W). split_and!.
    + constructor; [done|]. eapply Forall_impl; [exact Z|]. simpl. lia.
    + by constructor.
    + constructor; [lia|]. eapply Forall_impl; [exact Z|]. simpl. lia.
    + intros i. by rewrite !(covered_cons _ cur), W.
Qed.
Lemma mergeSpans_facts l :
  Forall proper l ->
  separated (mergeSpans l) /\ Forall proper (mergeSpans l) /\ (forall i, covered i (mergeSpans l) <-> covered i l).
Proof.
  intros F. unfold mergeSpans. pose proof (sort_spans_perm l) as P. pose proof (sort_spans_sorted l) as S.
  rewrite <- P in F. destruct (sort_spans l) as [|s t].
  { apply Permutation_nil in P as ->. split_and!; [constructor|constructor|done]. }
  apply Forall_cons in F as [Ps F]. destruct (merge_from_spec s t Ps F S) as (X & Y & _ & W).
  split_and!; try done. intros i. rewrite W. by apply covered_perm.
Qed.

(** ** The occurrences of a value *)

Definition occurs (value input : list ascii) (p : nat) : Prop := value `prefix_of` drop p input.
Lemma occurs_bound value input p : value <> [] -> occurs value input p -> p + List.length value <= List.length input.
Proof.
  intros N [k E]. assert (List.length (drop p input) = List.length (value ++ k)) as L by by rewrite E.
  rewrite length_drop, length_app in L. destruct value; [done|]. simpl in *. lia.
Qed.
Lemma index_Some sub l i : index sub l = Some i -> sub `prefix_of` drop i l /\ forall j, j < i -> ~ sub `prefix_of` drop j l.
Proof.
  revert i. induction l as [|c t IH]; intros i; cbn [index]; case_bool_decide as P; try done.
  1, 2: intros [= <-]; split; [done|lia].
  destruct (index sub t) as [k|]; [|done]. intros [= <-]. destruct (IH k eq_refl) as [A B].
  split; [done|]. intros [|j] J; [done|]. apply B. lia.
Qed.
Lemma index_None sub l : index sub l = None -> forall j, ~ sub `prefix_of` drop j l.
Proof.
  induction l as [|c t IH]; cbn [index]; case_bool_decide as P; try done.
  - intros _ j. by rewrite drop_nil.
  - destruct (index sub t); [done|]. intros _ [|j]; [done|]. by apply IH.
Qed.

(** What the loop has found so far: spans that end before the next place. *)
Definition found_before (value : list ascii) (from total : nat) (spans : list span) : Prop :=
  Forall (fun s => lo s < hi s /\ lo s < from /\ hi s < from + List.length value /\ hi s <= total) spans.
Lemma extend_spec value total spans from start :
  found_before value from total spans -> from <= start -> start + List.length value <= total -> value <> [] ->
  found_before value (S start) total (extend spans start (start + List.length value))
  /\ (forall i, covered i (extend spans start (start + List.length value))
           <-> covered i spans \/ start <= i < start + List.length value).
Proof.
  intros F L T N. assert (0 < List.length value) by (destruct value; [done|simpl; lia]).
  assert (found_before value (S start) total spans) as F'.
  { eapply Forall_impl; [exact F|]. simpl. lia. }
  unfold extend. destruct spans as [|s spans _] using rev_ind.
  { cbn [last]. split; [repeat constructor; simpl; lia|]. intros i. rewrite covered_cons. simpl. pose proof (covered_nil i). tauto. }
  rewrite last_snoc. destruct (Nat.ltb_spec start (hi s)) as [O|O].
  - rewrite removelast_last. apply Forall_app in F as [_ F], F' as [F' _]. apply Forall_cons in F as [F _]. split.
    + apply Forall_app. split; [done|]. repeat constructor; simpl; lia.
    + intros i. rewrite !covered_app, !covered_cons. simpl. pose proof (covered_nil i).
      assert (lo s <= i < start + List.length value <-> lo s <= i < hi s \/ start <= i < start + List.length value) by lia.
      tauto.
  - split.
    + apply Forall_app. split; [done|]. repeat constructor; simpl; lia.
    + intros i. rewrite !(covered_app i (spans ++ _)), (covered_cons _ (mkSpan _ _)). simpl. pose proof (covered_nil i). tauto.
Qed.
Lemma value_spans_spec value input : value <> [] -> forall fuel from spans,
  List.length input < fuel + from -> found_before value from (List.length input) spans ->
  Forall (fun s => proper s /\ hi s <= List.length input) (value_spans fuel value input from spans)
  /\ (forall i, covered i (value_spans fuel value input from spans)
           <-> covered i spans \/ exists p, from <= p /\ occurs value input p /\ p <= i < p + List.length value).
Proof.
  intros N. induction fuel as [|fuel IH]; intros from spans L F; cbn [value_spans].
  - split; [eapply Forall_impl; [exact F|]; unfold proper; simpl; lia|]. intros i. split; [auto|].
    intros [?|(p & ? & O & ?)]; [done|]. apply occurs_bound in O; [lia|done].
  - destruct (index value (drop from input)) as [k|] eqn:E.
    + apply index_Some in E as [P M]. rewrite drop_drop in P.
      pose proof (occurs_bound _ _ _ N P) as B.
      destruct (extend_spec value (List.length input) spans from (from + k) F ltac:(lia) B N) as [F' C].
      destruct (IH (S (from + k)) _ ltac:(lia) F') as [X Y]. split; [done|].
      intros i. rewrite Y, C. split.
      * intros [[?|?]|(p & ? & O & ?)]; [by left|right|right]; [by exists (from + k); split; [lia|]|].
        exists p. split; [lia|done].
      * intros [?|(p & ? & O & ?)]; [by left; left|]. destruct (decide (p = from + k)) as [->|]; [by left; right|].
        right. exists p. split; [|done]. destruct (decide (p < from + k)) as [Q|]; [|lia].
        exfalso. apply (M (p - from) ltac:(lia)). rewrite drop_drop. by replace (from + (p - from)) with p by lia.
    + split; [eapply Forall_impl; [exact F|]; unfold proper; simpl; lia|]. intros i. split; [auto|].
      intros [?|(p & ? & O & ?)]; [done|]. exfalso. apply (index_None _ _ E (p - from)).
      rewrite drop_drop. by replace (from + (p - from)) with p by lia.
Qed.

(** ** What is secret *)

(** A byte of a token, of a key or of an occurrence of a value. *)
Definition secret_at (input : list ascii) (values : list (list ascii)) (i : nat) : Prop :=
  (exists m, m ∈ FindAll tokenPattern input /\ lo (whole m) <= i < hi (whole m))
  \/ (exists m g, m ∈ FindAll keyPattern input /\ sub1 m = Some g /\ lo g <= i < hi g)
  \/ (exists value p, value ∈ values /\ value <> [] /\ occurs value input p /\ p <= i < p + List.length value).

Definition inside (input : list ascii) (s : span) : Prop := proper s /\ hi s <= List.length input.
Lemma value_part_spec input value :
  let l := if bool_decide (value = []) then [] else value_spans (S (List.length input)) value input 0 [] in
  Forall (inside input) l
  /\ (forall i, covered i l <-> value <> [] /\ exists p, occurs value input p /\ p <= i < p + List.length value).
Proof.
  case_bool_decide as E; [split; [constructor|]; intros i; pose proof (covered_nil i); naive_solver|].
  destruct (value_spans_spec value input E (S (List.length input)) 0 [] ltac:(lia) ltac:(constructor)) as [F C].
  split; [exact F|]. intros i. rewrite C. pose proof (covered_nil i). split.
  - intros [?|(p & _ & O & B)]; [done|]. split; [done|]. by exists p.
  - intros [_ (p & O & B)]. right. exists p. split; [lia|done].
Qed.
Lemma values_part_spec input values i :
  let f := fun value => if bool_decide (value = []) then [] else value_spans (S (List.length input)) value input 0 [] in
  Forall (inside input) (flat_map f values)
  /\ (covered i (flat_map f values) <->
      exists value p, value ∈ values /\ value <> [] /\ occurs value input p /\ p <= i < p + List.length value).
Proof.
  intros f. induction values as [|v values [F C]]; cbn [flat_map].
  { split; [constructor|]. pose proof (covered_nil i). split; [done|]. by intros (? & ? & []%not_elem_of_nil & _). }
  destruct (value_part_spec input v) as [Fv Cv]. split; [by apply Forall_app_2|].
  rewrite covered_app, C. unfold f at 1. rewrite Cv. setoid_rewrite elem_of_cons. split.
  - intros [[N (p & O & B)]|(w & p & I & R)]; [exists v, p; auto|exists w, p; auto].
  - intros (w & p & [->|I] & N & R); [left|right]; eauto.
Qed.
Lemma raw_spans_spec input values i :
  Forall (inside input) (raw_spans input values)
  /\ (covered i (raw_spans input values) <-> secret_at input values i).
Proof.
  destruct (values_part_spec input values i) as [F C]. unfold raw_spans, secret_at. rewrite !covered_app, C. split.
  - apply Forall_app_2; [|apply Forall_app_2; [|exact F]]; apply Forall_forall; intros s.
    + rewrite elem_of_map. intros (m & <- & I). apply (FindAll_bounds tokenPattern) in I; [done|]. vm_compute. lia.
    + rewrite list_elem_of_omap. intros (m & I & E).
      apply FindAll_group in I as (g & E' & ?); [|vm_compute; lia]. rewrite E in E'. by injection E' as ->.
  - unfold covered. setoid_rewrite elem_of_map. setoid_rewrite list_elem_of_omap. naive_solver.
Qed.

Lemma secretSpans_facts input values :
  separated (secretSpans input values) /\ Forall proper (secretSpans input values)
  /\ (forall i, covered i (secretSpans input values) <-> secret_at input values i).
Proof.
  destruct (mergeSpans_facts (raw_spans input values)) as (S & P & C).
  { eapply Forall_impl; [apply (raw_spans_spec input values 0)|]. by intros s [? _]. }
  split_and!; [done|done|]. intros i. by rewrite <- (proj2 (raw_spans_spec input values i)).
Qed.
Lemma secret_inside input values i : secret_at input values i -> i < List.length input.
Proof.
  rewrite <- (proj2 (raw_spans_spec input values i)). intros (s & I & B).
  pose proof (proj1 (raw_spans_spec input values 0)) as F. rewrite Forall_forall in F. destruct (F _ I). lia.
Qed.
Lemma secretSpans_inside input values : Forall (inside input) (secretSpans input values).
Proof.
  destruct (secretSpans_facts input values) as (_ & P & C). rewrite Forall_forall in *. intros s I.
  split; [by apply P|]. specialize (P s I). unfold proper in P. specialize (C (pred (hi s))).
  assert (pred (hi s) < List.length input); [|lia]. apply (secret_inside input values), C. exists s. split; [done|lia].
Qed.

(** ** What is copied *)

(** The trace of a replacement: a copied position, or a marker. *)
Fixpoint trace (len pos : nat) (spans : list span) : list (option nat) :=
  match spans with
  | [] => map Some (seq pos (len - pos))
  | s :: t => (if pos <=? lo s then map Some (seq pos (lo s - pos)) ++ [None] else []) ++ trace len (hi s) t
  end.
Definition shown (input : list ascii) (tr : list (option nat)) : list ascii :=
  flat_map (fun x => match x with
                     | None => redacted
                     | Some i => match input !! i with Some c => [c] | None => [] end
                     end) tr.

Lemma shown_app input a b : shown input (a ++ b) = shown input a ++ shown input b.
Proof. apply flat_map_app. Qed.
Lemma shown_seq input a n : a + n <= List.length input -> shown input (map Some (seq a n)) = slice input a (a + n).
Proof.
  revert a. induction n as [|n IH]; intros a L; unfold slice.
  { by replace (a + 0 - a) with 0 by lia. }
  cbn [seq map shown flat_map]. destruct (lookup_lt_is_Some_2 input a ltac:(lia)) as [c E]. rewrite E.
  replace (a + S n - a) with (S n) by lia. erewrite (drop_S input) by exact E. cbn [take app]. f_equal.
  change (shown input (map Some (seq (S a) n)) = take n (drop (S a) input)). rewrite IH by lia.
  unfold slice. by replace (S a + n - S a) with n by lia.
Qed.
Lemma shown_slice input a b : a <= b -> b <= List.length input -> shown input (map Some (seq a (b - a))) = slice input a b.
Proof. intros. rewrite shown_seq by lia. by replace (a + (b - a)) with b by lia. Qed.
Lemma slice_split (l : list ascii) a b c : a <= b -> b <= c -> slice l a c = slice l a b ++ slice l b c.
Proof.
  intros. unfold slice. replace (drop b l) with (drop (b - a) (drop a l)) by (rewrite drop_drop; f_equal; lia).
  rewrite take_take_drop. f_equal. lia.
Qed.
Lemma slice_nil (l : list ascii) a : slice l a a = [].
Proof. unfold slice. by rewrite Nat.sub_diag. Qed.

(** Where the loops stand: the head span was begun in an earlier part, or lies
    ahead. *)
Definition ready (input : list ascii) (start last : nat) (spans : list span) : Prop :=
  start <= last /\ separated spans /\ Forall (inside input) spans
  /\ match spans with
     | [] => True
     | s :: _ => (lo s < start /\ last = start /\ start < hi s) \/ last <= lo s
     end.
Lemma ready_step input start s t last :
  ready input start last (s :: t) -> hi s <= List.length input /\ last <= hi s /\ ready input start (hi s) t.
Proof.
  intros (L & S & F & H). apply StronglySorted_inv in S as [S D]. apply Forall_cons in F as [[P I] F].
  unfold proper in P. assert (last <= hi s) as LH by (destruct H as [(? & -> & ?)|?]; lia).
  split_and!; [done|done|]. unfold ready. split_and!; [lia|done|done|]. destruct t as [|u t]; [done|].
  apply Forall_cons in D as [D _]. by right.
Qed.
Lemma replace_part_shown input start end_ : end_ <= List.length input -> forall spans last out,
  last <= end_ -> ready input start last spans ->
  let '(o, l, rest) := replace_part input start end_ last out spans in
  (o ++ slice input l end_) ++ shown input (trace (List.length input) end_ rest)
  = out ++ shown input (trace (List.length input) last spans)
  /\ ready input end_ end_ rest.
Proof.
  intros E. induction spans as [|s t IH]; intros last out L R; cbn [replace_part].
  { destruct R as (Ls & S & F & _). cbn [trace]. rewrite !shown_slice by lia. split.
    - rewrite <- app_assoc. f_equal. symmetry. by apply slice_split.
    - by split_and!. }
  destruct (ready_step _ _ _ _ _ R) as (HI & HL & R'). destruct (Nat.ltb_spec (lo s) end_) as [B|B].
  - assert ((if start <=? lo s then out ++ slice input last (lo s) ++ redacted else out)
      = out ++ shown input (if last <=? lo s then map Some (seq last (lo s - last)) ++ [None] else [])) as EO.
    { destruct R as (Ls & _ & _ & [(? & -> & ?)|?]).
      - destruct (Nat.leb_spec start (lo s)); [lia|]. by rewrite app_nil_r.
      - destruct (Nat.leb_spec start (lo s)); [|lia]. destruct (Nat.leb_spec last (lo s)); [|lia].
        rewrite shown_app, shown_slice by lia. cbn [shown flat_map]. by rewrite app_nil_r. }
    rewrite EO. destruct (Nat.ltb_spec end_ (hi s)) as [C|C].
    + rewrite (Nat.min_r _ _) by lia. rewrite slice_nil, app_nil_r. cbn [trace]. split.
      * destruct (Nat.leb_spec end_ (lo s)); [lia|]. cbn [app]. by rewrite shown_app, app_assoc.
      * destruct R as (? & ? & ? & _). split_and!; [lia|done|done|]. left. lia.
    + rewrite (Nat.min_l _ _) by lia. specialize (IH (hi s) (out ++ shown input
        (if last <=? lo s then map Some (seq last (lo s - last)) ++ [None] else [])) C R').
      destruct (replace_part _ _ _ _ _ _) as [[o l] rest]. destruct IH as [IH1 IH2]. split; [|done].
      rewrite IH1. cbn [trace]. by rewrite shown_app, app_assoc.
  - destruct R as (Ls & S & F & HD). split; [|split_and!; [lia|done|done|by right]].
    assert (last <= lo s) by (destruct HD as [(? & -> & ?)|?]; lia).
    apply Forall_cons in F as [[P _] F]. unfold proper in P. cbn [trace].
    destruct (Nat.leb_spec end_ (lo s)); [|lia]. destruct (Nat.leb_spec last (lo s)); [|lia].
    rewrite !shown_app, !shown_slice by lia. rewrite (slice_split input last end_ (lo s)) by lia.
    by rewrite !app_assoc.
Qed.
Lemma replace_parts_shown input parts : forall start spans,
  concat parts = drop start input -> start <= List.length input -> ready input start start spans ->
  concat (replace_parts parts input start spans) = shown input (trace (List.length input) start spans).
Proof.
  induction parts as [|part parts IH]; intros start spans E L R; cbn [replace_parts concat] in *.
  - assert (List.length input <= start) by (symmetry in E; by apply drop_nil_inv in E || (apply (f_equal List.length) in E; rewrite length_drop in E; simpl in E; lia)).
    destruct spans as [|s t]; cbn [trace]; [by replace (_ - _) with 0 by lia|].
    destruct R as (_ & _ & F & HD). apply Forall_cons in F as [[P I] _]. unfold proper in P. lia.
  - assert (start + List.length part <= List.length input /\ concat parts = drop (start + List.length part) input) as [B E'].
    { split.
      - apply (f_equal List.length) in E. rewrite length_app, length_drop in E. lia.
      - rewrite <- drop_drop, <- E. by rewrite drop_app_length. }
    pose proof (replace_part_shown input start (start + List.length part) B spans start [] ltac:(lia) R) as X.
    destruct (replace_part _ _ _ _ _ _) as [[o l] rest]. destruct X as [X R']. cbn [concat].
    rewrite (IH (start + List.length part) rest) by done. exact X.
Qed.

(** What the trace copies is what no span covers. *)
Lemma trace_copies len spans pos :
  separated spans -> Forall (fun s => pos <= lo s /\ proper s /\ hi s <= len) spans -> pos <= len ->
  omap id (trace len pos spans) = List.filter (fun i => negb (coveredb i spans)) (seq pos (len - pos)).
Proof.
  intros S. revert pos. induction S as [|s t S IH D]; intros pos F L; cbn [trace].
  - by rewrite omap_Some, bfilter_all.
  - apply Forall_cons in F as [(A & P & B) F]. unfold proper in P. destruct (Nat.leb_spec pos (lo s)); [|lia].
    replace (len - pos) with ((lo s - pos) + ((hi s - lo s) + (len - hi s))) by lia.
    rewrite !seq_app. replace (pos + (lo s - pos)) with (lo s) by lia. replace (lo s + (hi s - lo s)) with (hi s) by lia.
    rewrite Forall_forall in F, D.
    assert (forall i, i < hi s -> coveredb i t = false) as NC.
    { intros i I. apply not_true_iff_false. rewrite coveredb_spec. intros (u & U & ?). specialize (D u U). simpl in D. lia. }
    assert (forall i, coveredb i (s :: t) = (lo s <=? i) && (i <? hi s) || coveredb i t) as CC by done.
    rewrite !List.filter_app, !omap_app, omap_Some, IH; [| |lia].
    + simpl omap. rewrite app_nil_r. f_equal; [|rewrite (bfilter_none _ (seq (lo s) _)); cbn [app]].
      * symmetry. apply bfilter_all. intros i I%elem_of_seq. rewrite CC, NC by lia.
        destruct (Nat.leb_spec (lo s) i); [lia|done].
      * apply bfilter_ext. intros i I%elem_of_seq. rewrite CC. destruct (Nat.ltb_spec i (hi s)); [lia|]. by rewrite andb_false_r.
      * intros i I%elem_of_seq. rewrite CC. destruct (Nat.leb_spec (lo s) i), (Nat.ltb_spec i (hi s)); done || lia.
    + apply Forall_forall. intros u U. specialize (F u U). specialize (D u U). simpl in *. tauto.
Qed.
Lemma trace_markers len spans pos :
  separated spans -> Forall (fun s => pos <= lo s /\ proper s) spans -> 
  List.length (List.filter (fun x => bool_decide (x = None)) (trace len pos spans)) = List.length spans.
Proof.
  intros S. revert pos. induction S as [|s t S IH D]; intros pos F; cbn [trace].
  - rewrite bfilter_none; [done|]. intros x (i & <- & _)%elem_of_map. done.
  - apply Forall_cons in F as [[A P] F]. destruct (Nat.leb_spec pos (lo s)); [|lia].
    rewrite !List.filter_app, !length_app, IH.
    + rewrite bfilter_none; [done|]. intros x (i & <- & _)%elem_of_map. done.
    + rewrite Forall_forall in *. intros u U. specialize (F u U). specialize (D u U). simpl in *. tauto.
Qed.

(** ** The answers *)

#[export] Instance secret_at_dec input values i : Decision (secret_at input values i).
Proof.
  destruct (coveredb i (raw_spans input values)) eqn:C; [left|right];
    rewrite <- (proj2 (raw_spans_spec input values i)), <- coveredb_spec; congruence.
Defined.

Lemma replaceParts_shown parts spans :
  separated spans -> Forall (inside (concat parts)) spans ->
  concat (replaceParts parts (concat parts) spans)
  = shown (concat parts) (trace (List.length (concat parts)) 0 spans).
Proof.
  intros S F. unfold replaceParts. destruct spans as [|s t].
  - cbn [trace]. rewrite shown_slice by lia. unfold slice. rewrite Nat.sub_0_r, drop_0. by rewrite take_ge.
  - apply replace_parts_shown; [by rewrite drop_0|lia|]. split_and!; [done|done|done|]. right. lia.
Qed.
Lemma scrubParts_shown parts values :
  concat (scrubParts parts values)
  = shown (concat parts) (trace (List.length (concat parts)) 0 (secretSpans (concat parts) values)).
Proof. apply replaceParts_shown; [apply secretSpans_facts|apply secretSpans_inside]. Qed.
Lemma replace_parts_length input : forall parts start spans,
  List.length (replace_parts parts input start spans) = List.length parts.
Proof.
  induction parts as [|part parts IH]; intros start spans; cbn [replace_parts]; [done|].
  destruct (replace_part _ _ _ _ _ _) as [[o l] rest]. simpl. by rewrite IH.
Qed.
Lemma scrubParts_length parts values : List.length (scrubParts parts values) = List.length parts.
Proof. unfold scrubParts, replaceParts. destruct (secretSpans _ _); [done|apply replace_parts_length]. Qed.
Lemma scrub_shown input values :
  scrub input values = shown input (trace (List.length input) 0 (secretSpans input values)).
Proof.
  pose proof (scrubParts_shown [input] values) as E. pose proof (scrubParts_length [input] values) as L.
  unfold scrub. cbn [concat] in E. rewrite app_nil_r in E. rewrite <- E.
  destruct (scrubParts [input] values) as [|x [|]]; try done. cbn [head default concat]. by rewrite app_nil_r.
Qed.

(** C38: redaction never shows a secret and loses nothing else.  What [scrub]
    answers is the input with markers in it: the positions it copies are, in
    order and once each, exactly the positions of the input that belong to no
    secret (a token, a key, or any occurrence of the value of a secret
    environment variable, overlapping ones included), and there is one marker
    for each run of overlapping secrets. *)
Theorem scrub_spec input values :
  exists tr, scrub input values = shown input tr
    /\ omap id tr = filter (fun i => ~ secret_at input values i) (seq 0 (List.length input))
    /\ List.length (List.filter (fun x => bool_decide (x = None)) tr) = List.length (secretSpans input values).
Proof.
  destruct (secretSpans_facts input values) as (S & P & C). pose proof (secretSpans_inside input values) as I.
  exists (trace (List.length input) 0 (secretSpans input values)). split_and!; [apply scrub_shown| |].
  - rewrite trace_copies; [|done| |lia].
    + rewrite Nat.sub_0_r. induction (seq 0 (List.length input)) as [|i l IH]; [done|]. cbn [List.filter].
      destruct (coveredb i (secretSpans input values)) eqn:B; cbn [negb].
      * rewrite coveredb_spec, C in B. rewrite filter_cons_False by tauto. exact IH.
      * assert (~ secret_at input values i) by (rewrite <- C, <- coveredb_spec; congruence).
        rewrite filter_cons_True by done. by f_equal.
    + eapply Forall_impl; [exact I|]. intros s [? ?]. split; [lia|done].
  - apply trace_markers; [done|]. eapply Forall_impl; [exact P|]. intros s ?. split; [lia|done].
Qed.

(** Redacting a text in parts is redacting it whole: the parts keep their
    number, and joined they are the redaction of the joined text, so that a
    secret that spans several parts is found and replaced once. *)
Theorem scrubParts_whole parts values :
  List.length (scrubParts parts values) = List.length parts
  /\ concat (scrubParts parts values) = scrub (concat parts) values.
Proof. split; [apply scrubParts_length|]. by rewrite scrubParts_shown, scrub_shown. Qed.

(** What is displayed is bounded: at most 16,384 characters, the longest
    prefix of the redacted text within that bound, cut between characters; the
    names of the transforms say exactly whether the text was redacted and
    whether it was shortened. *)
Theorem displayString_spec environ s :
  let '(display, kinds) := displayString environ s in
  let scrubbed := scrub s (environmentSecrets environ) in
  steps display = take displayTextLimit (steps scrubbed) /\ display `prefix_of` scrubbed
  /\ ("shortened" ∈ kinds <-> displayTextLimit < List.length (steps scrubbed))
  /\ ("redacted" ∈ kinds <-> scrubbed <> s).
Proof.
  unfold displayString. set (scrubbed := scrub s (environmentSecrets environ)).
  assert (forall P : Prop, "shortened" ∈ (if bool_decide (scrubbed = s) then [] else ["redacted"]) -> P) as NS.
  { intros P. case_bool_decide; rewrite ?list_elem_of_singleton; [by intros ?%not_elem_of_nil|done]. }
  assert ("redacted" ∈ (if bool_decide (scrubbed = s) then [] else ["redacted"]) <-> scrubbed <> s) as R.
  { case_bool_decide as B; rewrite ?list_elem_of_singleton; [|done]. split; [by intros ?%not_elem_of_nil|done]. }
  destruct (Nat.ltb_spec displayTextLimit (List.length (steps scrubbed))) as [L|L].
  - unfold rune_prefix. split_and!; [apply steps_take| | |].
    + eexists. symmetry. apply take_drop.
    + rewrite elem_of_app. split; [done|]. intros _. right. by left.
    + rewrite elem_of_app, R, list_elem_of_singleton. naive_solver.
  - split_and!; [by rewrite take_ge|done| |done]. split; [apply NS|lia].
Qed.
