(* ===== verification/Fragment.v ===== *)
(** * Fragments of captures ([internal/redact/fragment.go])

    A capture that was cut may begin or end inside a secret, or inside the
    white space of one.  The cut lines are dropped, and so is the rest of a
    secret that a kept line could still show; the parts of two streams are then
    redacted together, so that a secret split between them is found. *)
From stdpp Require Import sorting.
From S2P Require Import Prelude GoStrings Utf8 Runes Regex Redact.
Local Open Scope string_scope.
Local Open Scope list_scope.
Local Open Scope nat_scope.

(** ** White space in a text

    [strings.IndexFunc] and [LastIndexFunc] with [unicode.IsSpace]: the first
    byte of an encoded space is never inside another rune. *)
Fixpoint index_space (l : list ascii) : option nat :=
  match l with
  | [] => None
  | _ :: t => if space_here l then Some 0 else S <$> index_space t
  end.
Fixpoint last_index (f : list ascii -> bool) (l : list ascii) : option nat :=
  match l with
  | [] => None
  | _ :: t => match last_index f t with
              | Some i => Some (S i)
              | None => if f l then Some 0 else None
              end
  end.
Definition last_space : list ascii -> option nat := last_index space_here.
Definition newline : ascii := ascii_of_N 10.
Definition last_newline : list ascii -> option nat := last_index (fun l => bool_decide (head l = Some newline)).
Definition trim_right (l : list ascii) : list ascii := rev (trim_right_rev (rev l)).

(** The runes of a value with the offsets they start at. *)
Fixpoint offsets (at_ : nat) (l : list (N * nat)) : list (nat * N * nat) :=
  match l with [] => [] | (r, n) :: t => (at_, r, n) :: offsets (at_ + n) t end.

(** ** The rest of a cut secret *)

(** The longest prefix of a value, up to one of its spaces, that ends the text. *)
Definition cut_end_of (text value : list ascii) (cut : nat) : nat :=
  foldl (fun cut x => let '(i, r, n) := x in
           if (cut <? i) && is_space r && bool_decide (take i value `suffix_of` text) then i else cut)
    cut (offsets 0 (steps value)).
Definition trimCutSecretEnd (text : list ascii) (values : list (list ascii)) : list ascii :=
  let cut := foldl (fun cut value => cut_end_of text value cut) 0 values in
  take (List.length text - cut) text.
(** The longest suffix of a value, after one of its spaces, that starts the text. *)
Definition cut_start_of (text value : list ascii) (cut : nat) : nat :=
  foldl (fun cut x => let '(i, r, n) := x in
           if negb (is_space r) then cut else
           let rest := drop (i + n) value in
           if (cut <? List.length rest) && bool_decide (rest `prefix_of` text) then List.length rest else cut)
    cut (offsets 0 (steps value)).
Definition trimCutSecretStart (text : list ascii) (values : list (list ascii)) : list ascii :=
  drop (foldl (fun cut value => cut_start_of text value cut) 0 values) text.

(** [strings.EqualFold] of two texts, one of them a part of [bearer]. *)
Definition equal_fold (a b : list ascii) : bool := bool_decide (map lower_char a = map lower_char b).
Definition mayEndBearerPrefix (text : list ascii) : bool :=
  let prefix := chars "bearer" in
  let n := Nat.min (List.length text) (List.length prefix) in
  ((n =? List.length text) || (n =? List.length prefix))
  && equal_fold (drop (List.length text - n) text) (drop (List.length prefix - n) prefix).

Definition afterWord (text : list ascii) : list ascii :=
  match index_space text with Some i => drop i text | None => [] end.
Definition tailTwoWordsStart (text : list ascii) (values : list (list ascii)) : list ascii :=
  let rest :=
    match cut_chars newline text with
    | Some (dropped, after) =>
        if mayEndBearerPrefix (trim_right dropped) then afterWord (trim_left after) else after
    | None => afterWord (trim_left (afterWord text))
    end in
  trimCutSecretStart (trim_left rest) values.

(** [ !\$%&'()*+,-./] and the double quote, the characters 32 to 47. *)
Definition escapeIntermediates : string := str (map (fun n => ascii_of_N (N.of_nat n)) (seq 32 16)).
Definition cutEscapeKey : re :=
  Cats [Bot; FCls lower_letter; FLit "sk-"; Rep 10 (FCls (ors [lower_letter; decimal; one_of "_-"]))].
(** [FindStringIndex]: the end of the match. *)
Definition match_end (r : re) (l : list ascii) : option nat :=
  match leftmost r 0 (steps l) with Some (_, s) => Some (at_ s) | None => None end.
(** Where, in [rest], the remainder of a secret cut before it ends. *)
Definition tail_from (text : list ascii) (values : list (list ascii)) (run : nat) (dropped rest : list ascii) : option nat :=
  match match_end cutEscapeKey (drop run text) with
  | Some e => Some (run - (List.length text - List.length rest) + e)
  | None =>
    if mayEndBearerPrefix (trim_right dropped) then Some 0 else
    let trimmed := trimCutSecretStart rest values in
    if List.length trimmed <? List.length rest then Some (List.length rest - List.length trimmed) else None
  end.
Fixpoint tail_loop (fuel : nat) (text : list ascii) (values : list (list ascii)) (run : nat)
    (dropped rest : list ascii) : list ascii :=
  match fuel with
  | O => []
  | S fuel =>
    let rest := trim_left rest in
    let pos := List.length text - List.length rest in
    let run := if run <=? pos then pos + List.length rest - List.length (drop_set escapeIntermediates rest) else run in
    match tail_from text values run dropped rest with
    | None => rest
    | Some from =>
      match index_space (drop from rest) with
      | None => []
      | Some i => tail_loop fuel text values run (take (from + i) rest) (drop (from + i) rest)
      end
    end
  end.
(** Each round drops a space at least. *)
Definition tailLineStart (text : list ascii) (values : list (list ascii)) : list ascii :=
  let run dropped rest := tail_loop (S (List.length text)) text values 0 dropped rest in
  match cut_chars newline text with
  | Some (dropped, rest) => run dropped rest
  | None => match index_space text with
            | None => []
            | Some i => run (take i text) (drop i text)
            end
  end.

Inductive FragmentKind := HeadLineCut | HeadWordCut | TailLineCut | TailTwoWordsCut.
Definition cutFragment (text : list ascii) (kind : FragmentKind) (values : list (list ascii)) : list ascii :=
  match kind with
  | HeadLineCut =>
      match last_newline text with
      | Some i => trimCutSecretEnd (take i text) values
      | None => match last_space text with
                | Some i => trimCutSecretEnd (take i text) values
                | None => []
                end
      end
  | HeadWordCut =>
      let scrubbed := scrub text values in
      let before := match last_space scrubbed with Some i => take i scrubbed | None => [] end in
      trimCutSecretEnd before values
  | TailLineCut => tailLineStart text values
  | TailTwoWordsCut => tailTwoWordsStart (scrub text values) values
  end.
Definition Fragment (environ : list string) (input : string) (kind : FragmentKind) : string :=
  let values := environmentSecrets environ in str (scrub (cutFragment (chars input) kind values) values).

(** ** Parts *)

Record Part := mkPart { Part_Text : list ascii; Part_Prefix : list ascii; CutStart : bool; CutEnd : bool }.

(** The text that is kept and where it starts. *)
Definition partSlice (part : Part) (values : list (list ascii)) : list ascii * nat :=
  let text := Part_Text part in
  let '(text, start) :=
    if CutStart part
    then let text := cutFragment text TailLineCut values in (text, List.length (Part_Text part) - List.length text)
    else (text, 0) in
  ((if CutEnd part then cutFragment text HeadLineCut values else text), start).
Definition part_text (values : list (list ascii)) (part : Part) : list ascii :=
  let '(text, _) := partSlice part values in
  match text with [] => [] | _ => Part_Prefix part ++ text end.
Definition Parts (environ : list string) (parts : list Part) : list (list ascii) :=
  let values := environmentSecrets environ in scrubParts (map (part_text values) parts) values.

(** A span of the adjacent view, mapped back across the newline between the
    streams. *)
Definition across (boundary : nat) (s : span) : span :=
  mkSpan (if boundary <=? lo s then S (lo s) else lo s) (if boundary <? hi s then S (hi s) else hi s).
Definition streamSpans (input : list ascii) (boundary : nat) (values : list (list ascii)) : list span :=
  let adjacent := take boundary input ++ drop (S boundary) input in
  mergeSpans (secretSpans input values ++ map (across boundary) (secretSpans adjacent values)).

(** [Streams]' loop over the parts: the texts and the captured bytes so far,
    the retained slices, the offsets and the boundaries. *)
Record keptSlice := mkKept { rawStart : nat; rawEnd : nat; textStart : nat }.
Record streaming := mkStreaming {
  texts : list (list ascii); raws : list (list ascii); kept : list keptSlice;
  rawOffset : nat; textOffset : nat; rawBoundary : nat; textBoundary : nat }.
Definition stream_part (values : list (list ascii)) (nfirst : nat) (st : streaming) (ip : nat * Part) : streaming :=
  let '(i, part) := ip in
  let '(rawB, textB) := if i =? nfirst then (rawOffset st, textOffset st) else (rawBoundary st, textBoundary st) in
  let raw := match Part_Text part with [] => [] | _ => Part_Prefix part ++ Part_Text part end in
  let '(text, start) := partSlice part values in
  let shown := match text with [] => [] | _ => Part_Prefix part ++ text end in
  let kept' :=
    match text with
    | [] => kept st
    | _ => if i =? nfirst then kept st else
           let from := rawOffset st + List.length (Part_Prefix part) + start in
           kept st ++ [mkKept from (from + List.length text) (textOffset st + List.length (Part_Prefix part))]
    end in
  mkStreaming (texts st ++ [shown]) (raws st ++ [raw]) kept' (rawOffset st + List.length raw)
    (textOffset st + List.length shown) rawB textB.
(** The projection of a span of the captured bytes on what is displayed. *)
Definition project_slice (s : span) (acc : option nat * nat) (k : keptSlice) : option nat * nat :=
  let start := Nat.max (lo s) (rawStart k) in
  let end_ := Nat.min (hi s) (rawEnd k) in
  if start <? end_ then
    (match fst acc with None => Some (textStart k + start - rawStart k) | Some f => Some f end,
     textStart k + end_ - rawStart k)
  else acc.
Definition project (ks : list keptSlice) (s : span) : list span :=
  match foldl (project_slice s) (None, 0) ks with
  | (Some from, to) => [mkSpan from to]
  | (None, _) => []
  end.
Definition stream_state (values : list (list ascii)) (first second : list Part) : streaming :=
  let parts := first ++ [mkPart [newline] [] false false] ++ second in
  foldl (stream_part values (List.length first)) (mkStreaming [] [] [] 0 0 0 0)
    (combine (seq 0 (List.length parts)) parts).
Definition Streams (environ : list string) (first second : list Part) : list (list ascii) :=
  let values := environmentSecrets environ in
  let st := stream_state values first second in
  let input := concat (texts st) in
  let spans := streamSpans input (textBoundary st) values in
  let original := concat (raws st) in
  if bool_decide (original = input) then replaceParts (texts st) input spans else
  let projected := flat_map (project (kept st)) (streamSpans original (rawBoundary st) values) in
  replaceParts (texts st) input (mergeSpans (spans ++ projected)).

Definition plain (s : string) : Part := mkPart (chars s) [] false false.
Example fragment_ok :
  (Fragment sample_environ "line one
pass ab" HeadLineCut, Fragment sample_environ "cd ab cd
kept line" TailLineCut) = ("line one", "kept line").
Proof. vm_compute. reflexivity. Qed.
Example streams_ok :
  map str (Streams sample_environ [plain "out xoxb-1"] [plain "2345 err"]) = ["out [redacted]"; ""; " err"].
Proof. vm_compute. reflexivity. Qed.

(** ** The loop over a cut line ends *)

Lemma decode_space l r n : decode_rune l = (r, n) -> is_space r = true -> n = 1 \/ n = 2 \/ n = 3.
Proof.
  intros E S. assert (r < 65536)%N as B.
  { unfold is_space in S. rewrite !orb_true_iff, !in_range_spec, !N.eqb_eq in S. lia. }
  revert E. unfold decode_rune, cont_byte. destruct (map N_of_ascii l) as [|b0 r1]; [by intros [= <- <-]|].
  destruct (b0 <? 128)%N; [intros [= <- <-]; auto|].
  destruct (in_range 194 223 b0); [destruct r1; [|destruct_cond]; intros [= <- <-]; auto|].
  destruct (in_range 224 239 b0); [destruct r1 as [|? []]; [| |destruct (_ && _)]; intros [= <- <-]; auto|].
  destruct (in_range 240 244 b0) eqn:R; [|intros [= <- <-]; auto]. apply in_range_spec in R.
  destruct r1 as [|b1 [|b2 [|b3 r1]]]; try (intros [= <- <-]; auto).
  destruct (_ && _) eqn:C; intros [= <- <-]; [|auto]. exfalso.
  rewrite <- andb_assoc in C. apply andb_true_iff in C as [C _]. apply in_range_spec in C.
  revert B. rewrite !low6_mod, land7, join2, join3, join4 by div_lia.
  destruct (N.eqb_spec b0 240), (N.eqb_spec b0 244); div_lia.
Qed.
Lemma trim_left_eq l :
  trim_left l = match l with
                | [] => []
                | c1 :: t1 =>
                  if space_at [c1] then trim_left t1 else
                  match t1 with
                  | [] => l
                  | c2 :: t2 =>
                    if space_at [c1; c2] then trim_left t2 else
                    match t2 with
                    | [] => l
                    | c3 :: t3 => if space_at [c1; c2; c3] then trim_left t3 else l
                    end
                  end
                end.
Proof. by destruct l. Qed.
(** A text that starts with a space is trimmed by that space; another one is
    left as it is. *)
Lemma trim_left_cases l :
  (trim_left l = l /\ space_here l = false)
  \/ exists k, 1 <= k <= List.length l /\ trim_left l = trim_left (drop k l).
Proof.
  destruct (space_here l) eqn:S.
  - right. unfold space_here in S. destruct l as [|c1 l]; [done|].
    destruct (decode_rune (c1 :: l)) as [r n] eqn:E. simpl in S. pose proof (decode_size (c1 :: l) ltac:(done)) as D.
    pose proof (decode_take n (c1 :: l)) as T. rewrite E in D, T. simpl in D, T. specialize (T ltac:(lia) ltac:(done)).
    assert (space_at (take n (c1 :: l)) = true) as A.
    { unfold space_at. rewrite T, length_take_le by (simpl; lia). by rewrite Nat.eqb_refl. }
    rewrite trim_left_eq. destruct (space_at [c1]) eqn:A1; [exists 1; simpl; split; [lia|done]|].
    destruct (decode_space _ _ _ E S) as [-> |[-> | ->]]; destruct l as [|c2 l]; simpl in D; try lia; cbn [take] in A; rewrite ?take_0 in A;
      [congruence|congruence| |]; (destruct (space_at [c1; c2]) eqn:A2; [exists 2; simpl; split; [lia|done]|]); [congruence|].
    destruct l as [|c3 l]; simpl in D; [lia|]. cbn [take] in A. rewrite ?take_0 in A. rewrite A. exists 3. simpl. split; [lia|done].
  - destruct l as [|c1 l]; [by left|]. rewrite trim_left_eq.
    destruct (space_at [c1]); [right; exists 1; simpl; split; [lia|done]|]. destruct l as [|c2 l]; [by left|].
    destruct (space_at [c1; c2]); [right; exists 2; simpl; split; [lia|done]|]. destruct l as [|c3 l]; [by left|].
    destruct (space_at [c1; c2; c3]); [right; exists 3; simpl; split; [lia|done]|]. by left.
Qed.
Lemma trim_left_suffix l : trim_left l `suffix_of` l.
Proof.
  induction l as [l IH] using (well_founded_induction (well_founded_ltof _ (@List.length ascii))). unfold ltof in IH.
  destruct (trim_left_cases l) as [[-> _]|(k & K & ->)]; [done|].
  etrans; [apply IH; rewrite length_drop; lia|]. exists (take k l). by rewrite take_drop.
Qed.
Lemma trim_left_length l : List.length (trim_left l) <= List.length l.
Proof. destruct (trim_left_suffix l) as [p E]. rewrite E at 2. rewrite length_app. lia. Qed.
Lemma trim_left_space l : space_here l = true -> List.length (trim_left l) < List.length l.
Proof.
  intros S. destruct (trim_left_cases l) as [[_ N]|(k & K & ->)]; [congruence|].
  pose proof (trim_left_length (drop k l)) as L. rewrite length_drop in L. lia.
Qed.
Lemma index_space_here l i : index_space l = Some i -> space_here (drop i l) = true.
Proof.
  revert i. induction l as [|c l IH]; intros i; cbn [index_space]; [done|].
  destruct (space_here (c :: l)) eqn:S; [by intros [= <-]|]. destruct (index_space l); [|done]. intros [= <-]. by apply IH.
Qed.

Lemma tail_loop_fuel text values : forall f1 f2 run dropped rest,
  List.length (trim_left rest) < f1 -> List.length (trim_left rest) < f2 ->
  tail_loop f1 text values run dropped rest = tail_loop f2 text values run dropped rest.
Proof.
  induction f1 as [|f1 IH]; intros [|f2] run dropped rest L1 L2; [lia..|]. cbn [tail_loop].
  destruct (tail_from _ _ _ _ _) as [from|]; [|done].
  destruct (index_space (drop from (trim_left rest))) as [i|] eqn:E; [|done].
  apply index_space_here in E. rewrite drop_drop in E. apply trim_left_space in E. rewrite length_drop in E.
  apply IH; lia.
Qed.
(** No fuel above the length of the text changes [tailLineStart]'s answer. *)
Lemma tail_loop_enough text values run dropped rest fuel :
  rest `suffix_of` text -> List.length text < fuel ->
  tail_loop fuel text values run dropped rest = tail_loop (S (List.length text)) text values run dropped rest.
Proof.
  intros [p E] L. assert (List.length rest <= List.length text) by (rewrite E, length_app; lia).
  pose proof (trim_left_length rest). apply tail_loop_fuel; lia.
Qed.

(** ** What is kept of a part *)

Lemma drop_suffix {A} n (l : list A) : drop n l `suffix_of` l.
Proof. exists (take n l). by rewrite take_drop. Qed.
Lemma suffix_drop {A} (x l : list A) : x `suffix_of` l -> drop (List.length l - List.length x) l = x.
Proof. intros [p ->]. rewrite length_app. replace (_ + _ - _) with (List.length p) by lia. apply drop_app_length. Qed.
Lemma tail_loop_suffix text values : forall fuel run dropped rest,
  tail_loop fuel text values run dropped rest `suffix_of` rest.
Proof.
  induction fuel as [|fuel IH]; intros run dropped rest; cbn [tail_loop]; [apply suffix_nil|].
  pose proof (trim_left_suffix rest).
  destruct (tail_from _ _ _ _ _) as [from|]; [|done].
  destruct (index_space _) as [i|]; [|apply suffix_nil].
  etrans; [apply IH|]. etrans; [apply drop_suffix|done].
Qed.
Lemma cut_chars_suffix c l a b : cut_chars c l = Some (a, b) -> b `suffix_of` l.
Proof.
  revert a. induction l as [|x l IH]; intros a; cbn [cut_chars]; [done|].
  destruct (is_char c x); [intros [= <- <-]; by exists [x]|].
  destruct (cut_chars c l) as [[a' b']|]; [|done]. intros [= <- <-]. by apply suffix_cons_r, (IH a').
Qed.
Lemma tailLineStart_suffix text values : tailLineStart text values `suffix_of` text.
Proof.
  unfold tailLineStart. destruct (cut_chars newline text) as [[a b]|] eqn:C.
  - etrans; [apply tail_loop_suffix|by eapply cut_chars_suffix].
  - destruct (index_space text); [|apply suffix_nil]. etrans; [apply tail_loop_suffix|apply drop_suffix].
Qed.
Lemma prefix_of_take {A} n (l : list A) : take n l `prefix_of` l.
Proof. exists (drop n l). by rewrite take_drop. Qed.
Lemma head_cut_prefix text values : cutFragment text HeadLineCut values `prefix_of` text.
Proof.
  cbn [cutFragment]. unfold trimCutSecretEnd.
  destruct (last_newline text); [|destruct (last_space text); [|apply prefix_nil]]; (etrans; apply prefix_of_take).
Qed.
(** The kept text is the part's, from its start on. *)
Lemma partSlice_spec part values text start :
  partSlice part values = (text, start) -> text `prefix_of` drop start (Part_Text part).
Proof.
  unfold partSlice. set (t := Part_Text part).
  assert (forall x s, x `prefix_of` drop s t -> ((if CutEnd part then cutFragment x HeadLineCut values else x), s) = (text, start) ->
    text `prefix_of` drop start t) as K.
  { intros x s P. destruct (CutEnd part); intros [= <- <-]; [|done]. etrans; [apply head_cut_prefix|done]. }
  destruct (CutStart part).
  - apply K. by rewrite suffix_drop by apply tailLineStart_suffix.
  - apply K. by rewrite drop_0.
Qed.

(** ** What the loop over the parts keeps *)

Definition textEnd (k : keptSlice) : nat := textStart k + (rawEnd k - rawStart k).
Record stream_inv (st : streaming) : Prop := {
  inv_text : textOffset st = List.length (concat (texts st));
  inv_raw : rawOffset st = List.length (concat (raws st));
  inv_slices : Forall (fun k => rawStart k < rawEnd k /\ rawEnd k <= rawOffset st /\ textEnd k <= textOffset st
      /\ textStart k <= rawStart k /\ rawStart k + textOffset st <= textStart k + rawOffset st) (kept st);
  inv_bytes : forall k j, k ∈ kept st -> rawStart k <= j < rawEnd k ->
      concat (texts st) !! (textStart k + (j - rawStart k)) = concat (raws st) !! j;
  inv_order : StronglySorted (fun a b => textEnd a <= textStart b) (kept st);
  inv_boundary : textBoundary st <= rawBoundary st /\ rawBoundary st + textOffset st <= textBoundary st + rawOffset st
      /\ textOffset st <= rawOffset st }.

Lemma concat_snoc {A} (l : list (list A)) x : concat (l ++ [x]) = concat l ++ x.
Proof. rewrite concat_app. cbn [concat]. by rewrite app_nil_r. Qed.
Lemma sorted_snoc {A} (R : A -> A -> Prop) l x :
  StronglySorted R l -> Forall (fun y => R y x) l -> StronglySorted R (l ++ [x]).
Proof.
  induction 1 as [|y l S IH F]; simpl; intros G; [repeat constructor|]. apply Forall_cons in G as [Y G].
  constructor; [by apply IH|]. apply Forall_app. split; [done|]. by repeat constructor.
Qed.
Lemma stream_part_inv values nfirst st ip : stream_inv st -> stream_inv (stream_part values nfirst st ip).
Proof.
  intros [T R K B O D]. destruct ip as [i part]. unfold stream_part.
  set (bs := if i =? nfirst then _ else _). assert (fst bs = rawOffset st /\ snd bs = textOffset st \/
    fst bs = rawBoundary st /\ snd bs = textBoundary st) as DB by (subst bs; destruct (i =? nfirst); auto).
  destruct bs as [rawB textB]. simpl in DB.
  destruct (partSlice part values) as [text start] eqn:P. apply partSlice_spec in P as [rest E].
  set (raw := match Part_Text part with [] => _ | _ => _ end). set (shown_ := match text with [] => _ | _ => _ end).
  set (ks := match text with [] => _ | _ => _ end).
  assert (List.length text + start <= List.length (Part_Text part) \/ text = []) as L.
  { destruct text as [|c text]; [by right|left]. apply (f_equal List.length) in E. rewrite length_app, length_drop in E. simpl in *. lia. }
  assert (List.length shown_ <= List.length raw) as SR.
  { subst shown_ raw. destruct text as [|c text]; [simpl; lia|]. destruct L as [L|L]; [|done]. simpl in L.
    destruct (Part_Text part); simpl in *; [lia|]. rewrite !length_app. simpl. lia. }
  assert (ks = kept st \/ text <> [] /\ shown_ = Part_Prefix part ++ text /\ raw = Part_Prefix part ++ Part_Text part
    /\ List.length text + start <= List.length (Part_Text part)
    /\ ks = kept st ++ [mkKept (rawOffset st + List.length (Part_Prefix part) + start)
              (rawOffset st + List.length (Part_Prefix part) + start + List.length text)
              (textOffset st + List.length (Part_Prefix part))]) as KS.
  { subst ks shown_ raw. destruct text as [|c text]; [by left|]. destruct (i =? nfirst); [by left|right].
    destruct L as [L|L]; [|done]. split_and!; try done. destruct (Part_Text part); [simpl in L; lia|done]. }
  clearbody ks shown_ raw. constructor; cbn [texts raws kept rawOffset textOffset rawBoundary textBoundary];
    rewrite ?concat_snoc, ?length_app, <- ?T, <- ?R; [done|done| | | |lia].
  - assert (Forall (fun k => rawStart k < rawEnd k /\ rawEnd k <= rawOffset st + List.length raw
      /\ textEnd k <= textOffset st + List.length shown_ /\ textStart k <= rawStart k
      /\ rawStart k + (textOffset st + List.length shown_) <= textStart k + (rawOffset st + List.length raw)) (kept st)) as K'
      by (eapply Forall_impl; [exact K|]; simpl; lia).
    destruct KS as [-> |(N & -> & -> & Le & ->)]; [done|]. apply Forall_app. split; [done|].
    assert (0 < List.length text) by (destruct text; [done|simpl; lia]).
    rewrite !length_app. constructor; [|done]. unfold textEnd. simpl. lia.
  - assert (forall k j, k ∈ kept st -> rawStart k <= j < rawEnd k ->
      (concat (texts st) ++ shown_) !! (textStart k + (j - rawStart k)) = (concat (raws st) ++ raw) !! j) as B'.
    { intros k j I J. pose proof (B k j I J) as Eq. rewrite Forall_forall in K. specialize (K k I). unfold textEnd in K.
      rewrite !lookup_app_l by (rewrite <- ?T, <- ?R; lia). done. }
    destruct KS as [-> |(N & -> & -> & Le & ->)]; [done|]. intros k j. rewrite elem_of_app, list_elem_of_singleton.
    intros [I| ->]; [by apply B'|]. cbn [rawStart rawEnd textStart]. intros J.
    set (p := List.length (Part_Prefix part)) in *. rewrite !lookup_app_r by (rewrite <- ?T, <- ?R; fold p; lia).
    rewrite <- T, <- R. fold p.
    replace (textOffset st + p + (j - (rawOffset st + p + start)) - textOffset st - p) with (j - rawOffset st - p - start) by lia.
    replace (j - rawOffset st - p) with (start + (j - rawOffset st - p - start)) at 2 by lia.
    rewrite <- (lookup_drop (Part_Text part)), E, lookup_app_l by lia. done.
  - destruct KS as [-> |(N & -> & -> & Le & ->)]; [done|]. apply sorted_snoc; [done|].
    eapply Forall_impl; [exact K|]. simpl. lia.
Qed.
Lemma stream_state_inv values first second : stream_inv (stream_state values first second).
Proof.
  unfold stream_state. set (l := combine _ _). clearbody l.
  assert (stream_inv (mkStreaming [] [] [] 0 0 0 0)) as I.
  { constructor; simpl; try done; try lia; try constructor; by intros ? ? ?%not_elem_of_nil. }
  revert I. generalize (mkStreaming [] [] [] 0 0 0 0). induction l as [|x l IH]; intros st I; cbn [foldl]; [done|].
  by apply IH, stream_part_inv.
Qed.

(** ** Spans of the two views *)

(** The byte belongs to a secret of the text with the newline between the
    streams, or of the text without it. *)
Definition stream_secret (input : list ascii) (boundary : nat) (values : list (list ascii)) (i : nat) : Prop :=
  secret_at input values i
  \/ (i < boundary /\ secret_at (take boundary input ++ drop (S boundary) input) values i)
  \/ (boundary < i /\ secret_at (take boundary input ++ drop (S boundary) input) values (pred i)).

Lemma inside_proper input l : Forall (inside input) l -> Forall proper l.
Proof. intros F. eapply Forall_impl; [exact F|]. by intros s [? _]. Qed.
Lemma mergeSpans_inside input l : Forall (inside input) l -> Forall (inside input) (mergeSpans l).
Proof.
  intros F. destruct (mergeSpans_facts l (inside_proper _ _ F)) as (_ & P & C).
  rewrite Forall_forall in *. intros s I. specialize (P s I). split; [done|]. unfold proper in P.
  destruct (proj1 (C (pred (hi s)))) as (u & U & B); [exists s; split; [done|lia]|]. destruct (F u U). lia.
Qed.
Lemma across_inside input b s : inside (take b input ++ drop (S b) input) s -> inside input (across b s).
Proof.
  intros [P H]. rewrite length_app, length_take, length_drop in H. unfold inside, proper in *. unfold across. simpl.
  destruct (Nat.leb_spec b (lo s)), (Nat.ltb_spec b (hi s)); lia.
Qed.
Lemma streamSpans_facts input b values :
  separated (streamSpans input b values) /\ Forall (inside input) (streamSpans input b values)
  /\ (forall i, stream_secret input b values i -> covered i (streamSpans input b values)).
Proof.
  unfold streamSpans. set (l := _ ++ map (across b) _).
  assert (Forall (inside input) l) as F.
  { apply Forall_app_2; [apply secretSpans_inside|]. apply Forall_forall. intros s (u & <- & U)%elem_of_map.
    apply across_inside. pose proof (secretSpans_inside (take b input ++ drop (S b) input) values) as I.
    rewrite Forall_forall in I. by apply I. }
  split_and!; [by eapply mergeSpans_facts, inside_proper|by apply mergeSpans_inside|]. intros i S. apply (mergeSpans_facts l (inside_proper _ _ F)). subst l. apply covered_app.
  destruct S as [S|[[L S]|[L S]]]; [left; by apply secretSpans_facts|right..];
    apply secretSpans_facts in S as (s & I & B); exists (across b s); rewrite elem_of_map; (split; [by exists s|]);
    unfold across; simpl; destruct (Nat.leb_spec b (lo s)), (Nat.ltb_spec b (hi s)); lia.
Qed.

(** [project] covers the image of every kept byte of the span. *)
Definition touches (s : span) (k : keptSlice) : Prop := Nat.max (lo s) (rawStart k) < Nat.min (hi s) (rawEnd k).
Lemma project_fold s ks :
  Forall (fun k => rawStart k < rawEnd k) ks -> StronglySorted (fun a b => textEnd a <= textStart b) ks ->
  let '(from, to) := foldl (project_slice s) (None, 0) ks in
  match from with
  | None => forall k, k ∈ ks -> ~ touches s k
  | Some f => f < to /\ (exists k, k ∈ ks /\ to <= textEnd k)
      /\ forall k j, k ∈ ks -> lo s <= j < hi s -> rawStart k <= j < rawEnd k -> f <= textStart k + (j - rawStart k) < to
  end.
Proof.
  induction ks as [|k ks IH] using rev_ind; intros F S.
  { simpl. by intros k ?%not_elem_of_nil. }
  rewrite foldl_snoc. apply Forall_app in F as [F Fk]. apply Forall_cons in Fk as [Fk _].
  apply StronglySorted_app in S as (C & S & _).
  specialize (IH F S). destruct (foldl _ _ _) as [from to]. unfold project_slice. cbn [fst].
  assert (forall a, a ∈ ks -> textEnd a <= textStart k) as O by (intros a A; apply C; [done|by left]).
  destruct (Nat.ltb_spec (Nat.max (lo s) (rawStart k)) (Nat.min (hi s) (rawEnd k))) as [T|T].
  - destruct from as [f|].
    + destruct IH as (L & (k' & I & E) & W). specialize (O k' I). split_and!; [lia|exists k; split; [set_solver|unfold textEnd; lia]|].
      intros a j. rewrite elem_of_app, list_elem_of_singleton. intros [A| ->] J1 J2; [specialize (W a j A J1 J2)|]; lia.
    + split_and!; [lia|exists k; split; [set_solver|unfold textEnd; lia]|].
      intros a j. rewrite elem_of_app, list_elem_of_singleton. intros [A| ->] J1 J2; [|lia].
      exfalso. apply (IH a A). unfold touches. lia.
  - destruct from as [f|].
    + destruct IH as (L & (k' & I & E) & W). split_and!; [done|exists k'; split; [set_solver|done]|].
      intros a j. rewrite elem_of_app, list_elem_of_singleton. intros [A| ->] J1 J2; [by apply W|lia].
    + intros a. rewrite elem_of_app, list_elem_of_singleton. intros [A| ->]; [by apply IH|]. unfold touches. lia.
Qed.
Lemma project_facts st s : stream_inv st ->
  Forall (inside (concat (texts st))) (project (kept st) s)
  /\ (forall k j, k ∈ kept st -> lo s <= j < hi s -> rawStart k <= j < rawEnd k ->
        covered (textStart k + (j - rawStart k)) (project (kept st) s)).
Proof.
  intros [T R K B O D]. unfold project. pose proof (project_fold s (kept st)) as P.
  destruct (foldl _ _ _) as [from to]. rewrite Forall_forall in K.
  specialize (P ltac:(apply Forall_forall; intros k I; by apply K) O). destruct from as [f|].
  - destruct P as (L & (k & I & E) & W). specialize (K k I). split; [repeat constructor; simpl; unfold proper; simpl; lia|].
    intros a j A J1 J2. exists (mkSpan f to). rewrite list_elem_of_singleton. split; [done|]. simpl. by apply W.
  - split; [constructor|]. intros a j A J1 J2. exfalso. apply (P a A). unfold touches. lia.
Qed.

Lemma sorted_filter_seq (P : nat -> bool) : forall n a, StronglySorted lt (List.filter P (seq a n)).
Proof.
  induction n as [|n IH]; intros a; simpl; [constructor|]. destruct (P a); [|apply IH].
  constructor; [apply IH|]. apply Forall_forall. intros x [_ I%elem_of_seq]%elem_of_bfilter. lia.
Qed.
Lemma replaceParts_trace parts spans :
  separated spans -> Forall (inside (concat parts)) spans ->
  exists tr, concat (replaceParts parts (concat parts) spans) = shown (concat parts) tr
    /\ StronglySorted lt (omap id tr) /\ (forall i, Some i ∈ tr -> ~ covered i spans).
Proof.
  intros S F. eexists. split_and!; [by apply replaceParts_shown| |].
  - rewrite trace_copies; [|done| |lia]; [apply sorted_filter_seq|].
    eapply Forall_impl; [exact F|]. intros s [? ?]. split; [lia|done].
  - intros i I C. assert (i ∈ omap id (trace (List.length (concat parts)) 0 spans)) as I' by (apply list_elem_of_omap; by exists (Some i)).
    rewrite trace_copies in I'; [|done|eapply Forall_impl; [exact F|]; intros s [? ?]; split; [lia|done]|lia].
    apply elem_of_bfilter in I' as [N _]. apply negb_true_iff in N. apply coveredb_spec in C. congruence.
Qed.

(** Two streams cut and shown together show no secret.  [Streams] answers
    the displayed text with markers in it; it copies bytes in order and at most
    once each, and no byte it copies belongs to a secret of the displayed text,
    with or without the newline between the streams, nor does it stand for a
    captured byte of a secret of the captures, whatever was cut away. *)
Theorem Streams_hides environ first second :
  let values := environmentSecrets environ in
  let st := stream_state values first second in
  exists tr,
    concat (Streams environ first second) = shown (concat (texts st)) tr
    /\ StronglySorted lt (omap id tr)
    /\ (forall i, Some i ∈ tr -> ~ stream_secret (concat (texts st)) (textBoundary st) values i)
    /\ (forall k j, k ∈ kept st -> rawStart k <= j < rawEnd k ->
          concat (texts st) !! (textStart k + (j - rawStart k)) = concat (raws st) !! j
          /\ (stream_secret (concat (raws st)) (rawBoundary st) values j ->
              Some (textStart k + (j - rawStart k)) ∉ tr)).
Proof.
  intros values st. pose proof (stream_state_inv values first second : stream_inv st) as I.
  unfold Streams. fold values. change (stream_state values first second) with st. set (input := concat (texts st)).
  destruct (streamSpans_facts input (textBoundary st) values) as (Sp & F & C). case_bool_decide as E.
  - destruct (replaceParts_trace (texts st) (streamSpans input (textBoundary st) values)) as (tr & Eq & S & N);
      [exact Sp|exact F|].
    exists tr. split_and!; [exact Eq|done| |].
    + intros i T Sec. by apply (N i T), C.
    + destruct I as [T R K B O D]. intros k j Ik J. split; [by apply B|]. intros Sec T'.
      rewrite E in R. fold input in T. rewrite Forall_forall in K. specialize (K k Ik).
      assert (rawBoundary st = textBoundary st) as Eb by lia.
      assert (textStart k + (j - rawStart k) = j) as Ej by lia. rewrite Ej in T'. rewrite E, Eb in Sec. by apply (N j T'), C.
  - set (l := streamSpans input _ values ++ _).
    assert (Forall (inside input) l) as Fl.
    { apply Forall_app_2; [exact F|]. apply Forall_forall. intros s. rewrite list_elem_of_In, in_flat_map.
      intros (u & _ & U%list_elem_of_In). pose proof (proj1 (project_facts st u I)) as Fu. rewrite Forall_forall in Fu. by apply Fu. }
    destruct (mergeSpans_facts l (inside_proper _ _ Fl)) as (S & _ & Cl).
    destruct (replaceParts_trace (texts st) (mergeSpans l)) as (tr & Eq & So & N); [done|by apply mergeSpans_inside|].
    exists tr. split_and!; [exact Eq|done| |].
    + intros i T Sec. apply (N i T), Cl, covered_app. left. by apply C.
    + intros k j Ik J. split; [by apply (inv_bytes _ I)|]. intros Sec T. apply (N _ T), Cl, covered_app. right.
      apply (proj2 (proj2 (streamSpans_facts (concat (raws st)) (rawBoundary st) values))) in Sec as (s & Is & B).
      destruct (proj2 (project_facts st s I) k j Ik B J) as (u & U & Bu). exists u. split; [|done].
      apply list_elem_of_In, in_flat_map. exists s. by rewrite <- !list_elem_of_In.
Qed.
