(* ===== verification/Capture.v ===== *)
(** * Bounded captures of a child's output ([internal/process/capture.go])

    A capture keeps the first bytes of a stream up to a limit and, in a ring
    buffer, the last bytes after them.  What a failed command shows is cut from
    the middle; machine-readable text shown to a reader is escaped so that no
    invisible character survives. *)
From S2P Require Import Prelude GoStrings WireJson Enums GoErrors Utf8 Runes Regex Redact Fragment.
Local Open Scope string_scope.
Local Open Scope list_scope.
Local Open Scope nat_scope.

Definition diagnosticLimit : nat := N.to_nat 262144.
Definition machineLimit : nat := N.to_nat 16777216.
Definition tailLimit : nat := N.to_nat 65536.
Definition truncatedMarker : list ascii := chars "[diagnostic output truncated]".

(** ** The ring buffer *)

Record tailWindow := mkWindow { buf : list ascii; next : nat }.

(** [copy(w.buf[w.next:], p)] until [p] is empty; each round copies a byte at
    least. *)
Fixpoint ring_loop (fuel : nat) (w : tailWindow) (p : list ascii) : tailWindow :=
  match p with
  | [] => w
  | _ =>
    match fuel with
    | O => w
    | S fuel =>
      let n := Nat.min (List.length (buf w) - next w) (List.length p) in
      ring_loop fuel
        (mkWindow (take (next w) (buf w) ++ take n p ++ drop (next w + n) (buf w)) ((next w + n) mod tailLimit))
        (drop n p)
    end
  end.
Definition write (w : tailWindow) (p : list ascii) : tailWindow :=
  let p := if tailLimit <? List.length p then drop (List.length p - tailLimit) p else p in
  let room := tailLimit - List.length (buf w) in
  let '(w, p) :=
    if 0 <? room then
      let n := Nat.min room (List.length p) in
      (mkWindow (buf w ++ take n p) (next w), drop n p)
    else (w, p) in
  ring_loop (List.length p) w p.
(** Two reversals of the halves and one of the whole. *)
Definition bytes (w : tailWindow) : list ascii :=
  rev (rev (take (next w) (buf w)) ++ rev (drop (next w) (buf w))).

(** ** Reading a stream *)

Record Captured := mkCaptured { Bytes : list ascii; Truncated : bool; tail_ : list ascii }.
(** The loop's state; each read answers at most 8192 bytes. *)
Record reading := mkReading { got : list ascii; cut : bool; window : tailWindow }.
Definition read_chunk (limit : nat) (s : reading) (chunk : list ascii) : reading :=
  let n := List.length chunk in
  if 0 <? n then
    let take_ := Nat.min n (limit - List.length (got s)) in
    let got' := got s ++ take take_ chunk in
    if take_ <? n then mkReading got' true (write (window s) (drop take_ chunk))
    else mkReading got' (cut s) (window s)
  else s.
(** [boundedRead]: the reads, in order, and the error that ends them. *)
Definition boundedRead (reads : list (list ascii)) (err : error) (limit : nat) : Captured * option error :=
  let s := foldl (read_chunk limit) (mkReading [] false (mkWindow [] 0)) reads in
  (mkCaptured (got s) (cut s) (bytes (window s)), if error_is "EOF" err then None else Some err).

(** ** Previews *)

(** [strings.ToValidUTF8(s, "\uFFFD")]: a run of invalid bytes becomes one
    replacement character. *)
Definition replacement : list ascii := map ascii_of_N [239; 191; 189]%N.
Fixpoint valid_runs (fuel : nat) (l : list ascii) (bad : bool) : list ascii :=
  match fuel, l with
  | S fuel, c :: _ =>
    let '(r, n) := decode_rune l in
    if (r =? RuneError)%N && (n =? 1)
    then (if bad then [] else replacement) ++ valid_runs fuel (drop 1 l) true
    else take n l ++ valid_runs fuel (drop n l) false
  | _, _ => []
  end.
Definition ToValidUTF8 (l : list ascii) : list ascii := valid_runs (List.length l) l false.

Definition previewParts (c : Captured) : list Part :=
  mkPart (ToValidUTF8 (Bytes c)) [] false (Truncated c)
  :: (if Truncated c
      then [mkPart ([newline] ++ truncatedMarker) [] false false; mkPart (ToValidUTF8 (tail_ c)) [newline] true false]
      else []).
Definition SafePreview (environ : list string) (c : Captured) : list ascii :=
  concat (Parts environ (previewParts c)).

Definition joinPreview (head tail : list ascii) (truncated : bool) : list ascii :=
  if negb truncated then head else
  match tail with
  | [] => head ++ [newline] ++ truncatedMarker
  | _ => head ++ [newline] ++ truncatedMarker ++ [newline] ++ tail
  end.

Record failurePreview := mkPreview { head_ : list ascii; tailp : list ascii; truncated : bool }.
Definition trim_prefix (c : ascii) (l : list ascii) : list ascii :=
  match l with x :: t => if is_char c x then t else l | [] => [] end.
(** The parts of one stream: one, or three when it was truncated. *)
Definition scrubbedPreview (parts : list (list ascii)) : failurePreview :=
  let truncated := List.length parts =? 3 in
  mkPreview (nth 0 parts []) (if truncated then trim_prefix newline (nth 2 parts []) else []) truncated.
Definition text (p : failurePreview) : list ascii := joinPreview (head_ p) (tailp p) (truncated p).

(** [SafeCaptures]: the safe parts, with a marker in the separator kept in the
    second stream. *)
Definition safeParts (environ : list string) (stdout stderr : Captured) : list (list ascii) * nat :=
  let stdoutParts := previewParts stdout in
  let boundary := List.length stdoutParts in
  let safe := Streams environ stdoutParts (previewParts stderr) in
  let separator := nth boundary safe [] in
  if negb (bool_decide (separator = [])) && negb (bool_decide (separator = [newline]))
  then (<[boundary := []]> (<[S boundary := separator ++ nth (S boundary) safe []]> safe), boundary)
  else (safe, boundary).

(** ** Failures *)

(** [runeOffset(s, n)]: the offset of the [n]-th rune, or the length. *)
Definition runeOffset (s : list ascii) (n : nat) : nat := width (take n (steps s)).
(** Limits are [int]s, which a long prefix makes negative. *)
Definition failureTextLimit : Z := 16384 - 1024.
Definition stderrShare : Z := 4096.
Definition elisionReserve : Z := 48.
Definition countZ (l : list ascii) : Z := Z.of_nat (rune_count l).
Definition at_least_0 (n : Z) : nat := Z.to_nat (Z.max n 0).

Definition omitted (n : nat) : list ascii :=
  [newline] ++ chars "[... " ++ chars (FormatUint (N.of_nat n)) ++ chars " characters omitted ...]" ++ [newline].
Definition elideMiddle (t : list ascii) (limit : Z) : list ascii :=
  let total := rune_count t in
  if (countZ t <=? limit)%Z then t else
  let keep := at_least_0 (limit - elisionReserve) in
  let head := keep / 2 in
  let tail := keep - head in
  take (runeOffset t head) t ++ omitted (total - keep) ++ drop (runeOffset t (total - tail)) t.
Definition preview_marker : list ascii := [newline] ++ truncatedMarker ++ [newline].
Definition elide (p : failurePreview) (limit : Z) : list ascii :=
  let t := text p in
  if bool_decide (tailp p = []) || (countZ t <=? limit)%Z then elideMiddle t limit else
  let keep := at_least_0 (limit - countZ preview_marker) in
  let headRunes := rune_count (head_ p) in
  let tailRunes := rune_count (tailp p) in
  if headRunes <=? keep / 2 then head_ p ++ preview_marker ++ elideMiddle (tailp p) (Z.of_nat (keep - headRunes))
  else if tailRunes <=? keep - keep / 2 then elideMiddle (head_ p) (Z.of_nat (keep - tailRunes)) ++ preview_marker ++ tailp p
  else take (runeOffset (head_ p) (keep / 2)) (head_ p) ++ preview_marker
       ++ drop (runeOffset (tailp p) (tailRunes - (keep - keep / 2))) (tailp p).
Definition stderr_separator : list ascii := [newline] ++ chars "[stderr]" ++ [newline].
(** [failureText]; [status] is the text of the exit status. *)
Definition failure_prefix (binary status : list ascii) : list ascii :=
  binary ++ chars " exited with " ++ status ++ chars ": ".
Definition failureText (environ : list string) (binary status : list ascii) (stdout stderr : Captured) : list ascii :=
  let prefix := failure_prefix binary status in
  let budget := (failureTextLimit - countZ prefix)%Z in
  let '(safe, stdoutParts) := safeParts environ stdout stderr in
  let joined := concat safe in
  if (countZ joined <=? budget)%Z then prefix ++ joined else
  let out := scrubbedPreview (take stdoutParts safe) in
  let err := scrubbedPreview (drop (S stdoutParts) safe) in
  match text err with
  | [] => prefix ++ elide out budget
  | _ =>
    let budget := (budget - countZ stderr_separator)%Z in
    let stderrText := elide err (Z.min (countZ (text err)) (Z.max stderrShare (budget - countZ (text out)))) in
    prefix ++ elide out (budget - countZ stderrText) ++ stderr_separator ++ stderrText
  end.

Example elide_ok :
  str (elideMiddle (repeat "x"%char 60) 52)
  = ("xx" +:+ str [newline] +:+ "[... 56 characters omitted ...]" +:+ str [newline] +:+ "xx").
Proof. vm_compute. reflexivity. Qed.

(** ** The ring buffer holds the end of what was written *)

(** The last [n] elements. *)
Definition lastn {A} (n : nat) (l : list A) : list A := drop (List.length l - n) l.
Lemma lastn_length {A} n (l : list A) : List.length (lastn n l) = Nat.min n (List.length l).
Proof. unfold lastn. rewrite length_drop. lia. Qed.
Lemma lastn_all {A} n (l : list A) : List.length l <= n -> lastn n l = l.
Proof. intros L. unfold lastn. replace (_ - _) with 0 by lia. apply drop_0. Qed.
Lemma lastn_app_ge {A} n (x y : list A) : n <= List.length y -> lastn n (x ++ y) = lastn n y.
Proof. intros L. unfold lastn. rewrite length_app, drop_app_ge by lia. f_equal. lia. Qed.
Lemma lastn_drop {A} n k (l : list A) : k + n <= List.length l -> lastn n (drop k l) = lastn n l.
Proof. intros L. unfold lastn. rewrite length_drop, drop_drop. f_equal. lia. Qed.
Lemma lastn_app {A} n (x y : list A) : lastn n (lastn n x ++ y) = lastn n (x ++ y).
Proof.
  destruct (le_lt_dec (List.length x) n) as [L|L]; [by rewrite (lastn_all n x)|].
  unfold lastn at 2. rewrite <- (lastn_drop n (List.length x - n) (x ++ y)) by (rewrite length_app; lia).
  by rewrite drop_app_le by lia.
Qed.
Lemma lastn_app_r {A} n (x y : list A) : lastn n (x ++ lastn n y) = lastn n (x ++ y).
Proof.
  destruct (le_lt_dec (List.length y) n) as [L|L]; [by rewrite (lastn_all n y)|].
  rewrite !lastn_app_ge; [by rewrite lastn_all by (rewrite lastn_length; lia)|lia|rewrite lastn_length; lia].
Qed.

Lemma tailLimit_pos : 0 < tailLimit.
Proof. unfold tailLimit. lia. Qed.
#[local] Opaque tailLimit.

(** The bytes in the order they were written. *)
Definition contents (w : tailWindow) : list ascii := drop (next w) (buf w) ++ take (next w) (buf w).
Definition window_ok (w : tailWindow) : Prop :=
  List.length (buf w) <= tailLimit /\ next w < tailLimit /\ (List.length (buf w) < tailLimit -> next w = 0).

Lemma bytes_contents w : bytes w = contents w.
Proof. unfold bytes, contents. by rewrite rev_app_distr, !rev_involutive. Qed.
Lemma contents_length w : List.length (contents w) = List.length (buf w).
Proof. unfold contents. rewrite length_app, length_take, length_drop. lia. Qed.

(** One copy into a full buffer. *)
Lemma ring_step w p n :
  List.length (buf w) = tailLimit -> next w < tailLimit -> n = Nat.min (List.length (buf w) - next w) (List.length p) ->
  let w' := mkWindow (take (next w) (buf w) ++ take n p ++ drop (next w + n) (buf w)) ((next w + n) mod tailLimit) in
  List.length (buf w') = tailLimit /\ next w' < tailLimit /\ contents w' = lastn tailLimit (contents w ++ take n p).
Proof.
  intros F N E. pose proof tailLimit_pos as T0. cbn [buf next].
  assert (List.length (take n p) = n) as Lp by (rewrite length_take; lia).
  split_and!; [rewrite !length_app, Lp, length_take, length_drop; lia|by apply Nat.mod_upper_bound; lia|].
  set (A := take (next w) (buf w)). set (B := drop (next w) (buf w)).
  assert (drop (next w + n) (buf w) = drop n B) as -> by (subst B; by rewrite drop_drop).
  assert (List.length A = next w) as LA by (subst A; rewrite length_take; lia).
  assert (List.length B = tailLimit - next w) as LB by (subst B; rewrite length_drop; lia).
  assert (lastn tailLimit (contents w ++ take n p) = drop n B ++ A ++ take n p) as ->.
  { unfold contents. fold A B. unfold lastn. rewrite !length_app, Lp, LA, LB.
    replace (_ - tailLimit) with n by lia. rewrite <- app_assoc. apply drop_app_le. lia. }
  unfold contents. cbn [buf next]. destruct (decide (next w + n = tailLimit)) as [Z|Z].
  - rewrite Z, Nat.Div0.mod_same, drop_0. cbn [take]. rewrite (drop_ge B n) by lia. cbn [app]. by rewrite !app_nil_r.
  - rewrite Nat.mod_small by lia. rewrite (app_assoc A). rewrite drop_app_length', take_app_length' by (rewrite length_app; lia).
    done.
Qed.
Lemma ring_loop_spec fuel : forall w p,
  List.length (buf w) = tailLimit -> next w < tailLimit -> List.length p <= fuel ->
  let w' := ring_loop fuel w p in
  List.length (buf w') = tailLimit /\ next w' < tailLimit /\ contents w' = lastn tailLimit (contents w ++ p).
Proof.
  induction fuel as [|fuel IH]; intros w p F N L; (destruct p as [|c p]; cbn [ring_loop];
    [rewrite app_nil_r, lastn_all by (rewrite contents_length; lia); done|]); [simpl in L; lia|].
  set (q := c :: p) in *. set (n := Nat.min _ _). destruct (ring_step w q n F N eq_refl) as (F' & N' & C).
  assert (1 <= n) by (subst n q; simpl; lia).
  destruct (IH _ (drop n q) F' N') as (F2 & N2 & C2); [rewrite length_drop; lia|].
  split_and!; [done|done|]. rewrite C2, C, lastn_app, <- app_assoc. by rewrite take_drop.
Qed.
Lemma write_spec w p : window_ok w -> window_ok (write w p) /\ contents (write w p) = lastn tailLimit (contents w ++ p).
Proof.
  intros (L & N & Z). unfold write.
  assert ((if tailLimit <? List.length p then drop (List.length p - tailLimit) p else p) = lastn tailLimit p) as ->.
  { unfold lastn. destruct (Nat.ltb_spec tailLimit (List.length p)); [done|]. replace (_ - _) with 0 by lia. by rewrite drop_0. }
  rewrite <- lastn_app_r. set (q := lastn tailLimit p).
  destruct (Nat.ltb_spec 0 (tailLimit - List.length (buf w))) as [R|R].
  - rewrite Z in * by lia. set (n := Nat.min _ _). pose proof tailLimit_pos.
    assert (List.length (take n q) = n) as Lt by (rewrite length_take; lia).
    assert (contents w = buf w) as Cw by (unfold contents; rewrite Z, drop_0 by lia; apply app_nil_r).
    set (w1 := mkWindow (buf w ++ take n q) 0).
    assert (contents w1 = buf w ++ take n q) as C1 by (unfold contents, w1; cbn [buf next]; rewrite drop_0; apply app_nil_r).
    destruct (decide (List.length q <= n)) as [S|S].
    + rewrite (drop_ge q n) by lia. cbn [List.length ring_loop]. rewrite C1, Cw, (take_ge q n) by lia. split.
      * unfold window_ok, w1. cbn [buf next]. rewrite length_app. lia.
      * rewrite lastn_all; [done|]. rewrite length_app. lia.
    + destruct (ring_loop_spec (List.length (drop n q)) w1 (drop n q)) as (F2 & N2 & C2);
        [unfold w1; cbn [buf]; rewrite length_app; lia|unfold w1; cbn [next]; lia|done|].
      split; [split_and!; [lia|done|lia]|]. by rewrite C2, C1, Cw, <- app_assoc, take_drop.
  - destruct (ring_loop_spec (List.length q) w q) as (F2 & N2 & C2); [lia|done|done|].
    split; [split_and!; [lia|done|lia]|done].
Qed.

(** A capture keeps both ends of a stream and says whether it is whole.
    However the stream arrives in reads, [boundedRead] keeps exactly its first
    [limit] bytes, reports truncation exactly when there were more, and then
    keeps exactly the last 65,536 of the bytes after them, in order, whatever
    the number of times the ring wrapped; an end of file is no error. *)
Theorem boundedRead_spec reads err limit :
  let stream := concat reads in
  boundedRead reads err limit
  = (mkCaptured (take limit stream) (limit <? List.length stream) (lastn tailLimit (drop limit stream)),
     if error_is "EOF" err then None else Some err).
Proof.
  intros stream. unfold boundedRead.
  assert (forall reads s x, got s = take limit x -> cut s = (limit <? List.length x) -> window_ok (window s) ->
    contents (window s) = lastn tailLimit (drop limit x) ->
    let s' := foldl (read_chunk limit) s reads in
    got s' = take limit (x ++ concat reads) /\ cut s' = (limit <? List.length (x ++ concat reads))
    /\ contents (window s') = lastn tailLimit (drop limit (x ++ concat reads))) as K.
  { clear. intros reads. induction reads as [|c reads IH]; intros s x G U O C; cbn [foldl concat]; [by rewrite app_nil_r|].
    rewrite app_assoc. assert (List.length (got s) = Nat.min limit (List.length x)) as LG by (rewrite G; apply length_take).
    unfold read_chunk. destruct (Nat.ltb_spec 0 (List.length c)) as [P|P];
      [|destruct c; [rewrite app_nil_r; by apply IH|simpl in P; lia]].
    set (n := Nat.min _ _).
    assert (got s ++ take n c = take limit (x ++ c)) as Gx.
    { rewrite G, take_app. f_equal. subst n. destruct (le_lt_dec (List.length c) (limit - List.length x)).
      - rewrite !take_ge by lia. done.
      - f_equal. lia. }
    destruct (Nat.ltb_spec n (List.length c)) as [T|T].
    - destruct (write_spec (window s) (drop n c) O) as [O' C']. apply IH; cbn [got cut window]; [done| |done|].
      + symmetry. apply Nat.ltb_lt. rewrite length_app. lia.
      + rewrite C', C, lastn_app. f_equal. rewrite drop_app. f_equal. f_equal. lia.
    - apply IH; cbn [got cut window]; [done| |done|].
      + rewrite U, length_app. destruct (Nat.ltb_spec limit (List.length x)), (Nat.ltb_spec limit (List.length x + List.length c)); done || lia.
      + rewrite C. rewrite !drop_ge by (rewrite ?length_app; lia). done. }
  destruct (K reads (mkReading [] false (mkWindow [] 0)) []) as (-> & -> & C); cbn [got cut window];
    [by rewrite take_nil| |unfold window_ok; pose proof tailLimit_pos; simpl; lia| |].
  - symmetry. apply Nat.ltb_ge. simpl. lia.
  - by rewrite drop_nil.
  - rewrite bytes_contents, C. done.
Qed.

(** ** What a failure shows is bounded *)

Lemma countZ_app a b : (countZ (a ++ b) <= countZ a + countZ b)%Z.
Proof. unfold countZ. pose proof (rune_count_app a b). lia. Qed.
Lemma countZ_length l : (countZ l <= Z.of_nat (List.length l))%Z.
Proof. unfold countZ. pose proof (rune_count_length l). lia. Qed.
Lemma count_first n l : (countZ (take (runeOffset l n) l) <= Z.of_nat n)%Z.
Proof. unfold countZ, runeOffset, rune_count. rewrite steps_take, length_take. lia. Qed.
Lemma count_last n l : (countZ (drop (runeOffset l (rune_count l - n)) l) <= Z.of_nat n)%Z.
Proof. unfold countZ, runeOffset, rune_count. rewrite steps_drop, length_drop. lia. Qed.

Definition countable (l : list ascii) : Prop := (countZ l < 10 ^ 17)%Z.
Lemma omitted_count n : (Z.of_nat n < 10 ^ 17)%Z -> (countZ (omitted n) <= elisionReserve)%Z.
Proof.
  intros L. etrans; [apply countZ_length|]. unfold omitted. rewrite !length_app.
  destruct (FormatUint_digits 16 (N.of_nat n)) as (_ & B & _); [change (10 ^ N.of_nat 17)%N with 100000000000000000%N; lia|].
  unfold elisionReserve. change (List.length [newline]) with 1. change (List.length (chars "[... ")) with 5.
  change (List.length (chars " characters omitted ...]")) with 24. lia.
Qed.
Lemma elideMiddle_count t limit :
  countable t -> (elisionReserve <= limit)%Z -> (countZ (elideMiddle t limit) <= limit)%Z.
Proof.
  intros C L. unfold elideMiddle. destruct (Z.leb_spec (countZ t) limit) as [W|W]; [done|].
  set (keep := at_least_0 _). assert (Z.of_nat keep = limit - elisionReserve)%Z as K by (subst keep; unfold at_least_0; lia).
  unfold countable in C.
  pose proof (countZ_app (take (runeOffset t (keep / 2)) t)
    (omitted (rune_count t - keep) ++ drop (runeOffset t (rune_count t - (keep - keep / 2))) t)) as S1.
  pose proof (countZ_app (omitted (rune_count t - keep)) (drop (runeOffset t (rune_count t - (keep - keep / 2))) t)) as S2.
  pose proof (count_first (keep / 2) t). pose proof (count_last (keep - keep / 2) t).
  pose proof (omitted_count (rune_count t - keep)) as O. unfold countZ in C, W. specialize (O ltac:(lia)).
  pose proof (Nat.Div0.div_le_mono keep (keep * 2) 2). pose proof (Nat.div_le_upper_bound keep 2 keep). lia.
Qed.

Lemma marker_count : countZ preview_marker = 31%Z.
Proof. vm_compute. reflexivity. Qed.
Lemma text_cut p : tailp p <> [] -> text p <> head_ p -> text p = head_ p ++ preview_marker ++ tailp p.
Proof.
  intros T N. unfold text, joinPreview in *. destruct (negb (truncated p)); [done|]. destruct (tailp p) eqn:E; [done|].
  unfold preview_marker. by rewrite <- !app_assoc.
Qed.
Definition preview_countable (p : failurePreview) : Prop := countable (text p) /\ countable (head_ p) /\ countable (tailp p).
Lemma elide_count p limit :
  preview_countable p -> (127 <= limit)%Z -> (countZ (elide p limit) <= limit)%Z.
Proof.
  intros (Ct & Ch & Cl) L. unfold elide. assert (elisionReserve <= limit)%Z by (unfold elisionReserve; lia).
  destruct (_ || _); [by apply elideMiddle_count|]. rewrite marker_count.
  set (keep := at_least_0 _). assert (Z.of_nat keep = limit - 31)%Z as K by (subst keep; unfold at_least_0; lia).
  pose proof (Nat.div_mod_eq keep 2). pose proof (Nat.mod_upper_bound keep 2 ltac:(done)).
  pose proof (fun a c => countZ_app a (preview_marker ++ c)) as A1. pose proof (countZ_app preview_marker) as A2.
  rewrite marker_count in A2.
  destruct (Nat.leb_spec (rune_count (head_ p)) (keep / 2)) as [HA|HA];
    [|destruct (Nat.leb_spec (rune_count (tailp p)) (keep - keep / 2)) as [HB|HB]].
  - pose proof (elideMiddle_count (tailp p) (Z.of_nat (keep - rune_count (head_ p))) Cl) as E.
    unfold elisionReserve in E. specialize (E ltac:(lia)).
    specialize (A1 (head_ p) (elideMiddle (tailp p) (Z.of_nat (keep - rune_count (head_ p))))). 
    specialize (A2 (elideMiddle (tailp p) (Z.of_nat (keep - rune_count (head_ p))))). unfold countZ in *. lia.
  - pose proof (elideMiddle_count (head_ p) (Z.of_nat (keep - rune_count (tailp p))) Ch) as E.
    unfold elisionReserve in E. specialize (E ltac:(lia)).
    specialize (A1 (elideMiddle (head_ p) (Z.of_nat (keep - rune_count (tailp p)))) (tailp p)).
    specialize (A2 (tailp p)). unfold countZ in *. lia.
  - specialize (A1 (take (runeOffset (head_ p) (keep / 2)) (head_ p)) (drop (runeOffset (tailp p) (rune_count (tailp p) - (keep - keep / 2))) (tailp p))).
    specialize (A2 (drop (runeOffset (tailp p) (rune_count (tailp p) - (keep - keep / 2))) (tailp p))).
    pose proof (count_first (keep / 2) (head_ p)). pose proof (count_last (keep - keep / 2) (tailp p)). unfold countZ in *. lia.
Qed.
Lemma elide_whole p limit : (countZ (text p) <= limit)%Z -> elide p limit = text p.
Proof. intros L. unfold elide, elideMiddle. apply Z.leb_le in L. by rewrite L, orb_true_r. Qed.

Lemma preview_length parts :
  let p := scrubbedPreview parts in
  List.length (head_ p) <= List.length (concat parts) /\ List.length (tailp p) <= List.length (concat parts)
  /\ List.length (text p) <= List.length (concat parts) + 31.
Proof.
  unfold scrubbedPreview, text, joinPreview. cbn [head_ tailp truncated].
  assert (forall l, List.length (trim_prefix newline l) <= List.length l) as T
    by (intros [|c l]; simpl; [lia|]; destruct (is_char _ _); simpl; lia).
  destruct parts as [|a [|b [|c [|d parts]]]]; cbn [List.length Nat.eqb negb nth concat]; rewrite ?app_nil_r, ?length_app;
    try (simpl; lia).
  specialize (T c). set (t := trim_prefix newline c) in *.
  destruct t eqn:Et; rewrite <- ?Et in *; rewrite ?length_app; unfold truncatedMarker in *; simpl List.length in *; lia.
Qed.
Lemma concat_take_drop (l : list (list ascii)) n :
  List.length (concat (take n l)) <= List.length (concat l) /\ List.length (concat (drop n l)) <= List.length (concat l).
Proof. rewrite <- (take_drop n l) at 2 4. rewrite concat_app, length_app. lia. Qed.

(** The text of a failed command fits what the rest of the program stores
    of a diagnostic.  However much the command wrote to either stream, and
    whatever bytes, the message is at most 15,360 characters long; a message
    is shortened only when it must be. *)
Theorem failureText_bounded environ binary status stdout stderr :
  (countZ (failure_prefix binary status) <= 11000)%Z ->
  (Z.of_nat (List.length (concat (fst (safeParts environ stdout stderr)))) < 10 ^ 16)%Z ->
  (countZ (failureText environ binary status stdout stderr) <= failureTextLimit)%Z
  /\ ((countZ (failure_prefix binary status) + countZ (concat (fst (safeParts environ stdout stderr))) <= failureTextLimit)%Z ->
      failureText environ binary status stdout stderr
      = failure_prefix binary status ++ concat (fst (safeParts environ stdout stderr))).
Proof.
  intros P S. unfold failureText. destruct (safeParts environ stdout stderr) as [safe n]. cbn [fst] in S |- *.
  set (prefix := failure_prefix binary status) in *. set (B := (failureTextLimit - countZ prefix)%Z).
  assert (failureTextLimit = 15360)%Z as FL by done.
  destruct (Z.leb_spec (countZ (concat safe)) B) as [W|W].
  { split; [|done]. pose proof (countZ_app prefix (concat safe)). lia. }
  split; [|lia]. destruct (concat_take_drop safe n) as [Lo _], (concat_take_drop safe (Datatypes.S n)) as [_ Le].
  destruct (preview_length (take n safe)) as (O1 & O2 & O3), (preview_length (drop (Datatypes.S n) safe)) as (E1 & E2 & E3).
  set (out := scrubbedPreview (take n safe)) in *. set (err := scrubbedPreview (drop (Datatypes.S n) safe)) in *.
  assert (forall l, List.length l <= List.length (concat safe) + 31 -> countable l) as C
    by (intros l L; unfold countable; pose proof (countZ_length l); lia).
  assert (preview_countable out) as Co by (split_and!; apply C; lia).
  assert (preview_countable err) as Ce by (split_and!; apply C; lia).
  destruct (text err) as [|c t] eqn:T.
  { pose proof (elide_count out B Co ltac:(lia)). pose proof (countZ_app prefix (elide out B)). lia. }
  rewrite <- T. assert (countZ stderr_separator = 10)%Z as Sep by (vm_compute; done). rewrite Sep.
  set (m := Z.max stderrShare (B - 10 - countZ (text out))). set (se := elide err (Z.min (countZ (text err)) m)).
  assert (stderrShare = 4096)%Z as SS by done.
  assert (countZ se <= m)%Z as Cs.
  { subst se. destruct (Z.le_ge_cases (countZ (text err)) m).
    - rewrite elide_whole by lia. lia.
    - rewrite Z.min_r by lia. apply elide_count; [done|lia]. }
  assert (countZ (elide out (B - 10 - countZ se)) <= B - 10 - countZ se)%Z as Cout.
  { destruct (Z.le_gt_cases (countZ (text out)) (B - 10 - countZ se)).
    - rewrite elide_whole by lia. lia.
    - apply elide_count; [done|]. lia. }
  pose proof (countZ_app prefix (elide out (B - 10 - countZ se) ++ stderr_separator ++ se)).
  pose proof (countZ_app (elide out (B - 10 - countZ se)) (stderr_separator ++ se)).
  pose proof (countZ_app stderr_separator se). lia.
Qed.
Definition sample_output (s : string) : Captured := mkCaptured (chars s) false [].
Lemma failureText_bounded_witness :
  str (failureText sample_environ (chars "git") (chars "exit status: 1") (sample_output "xoxb-12") (sample_output "345 denied"))
  = "git exited with exit status: 1: [redacted] denied".
Proof.
  destruct (failureText_bounded sample_environ (chars "git") (chars "exit status: 1") (sample_output "xoxb-12") (sample_output "345 denied"))
    as [_ E]; [vm_compute; discriminate|vm_compute; reflexivity|].
  rewrite E by (vm_compute; discriminate). vm_compute. reflexivity.
Defined.
