(* ===== verification/Visible.v ===== *)
(** * Text in which nothing is invisible ([visible] of [internal/process/capture.go])

    Raw output is rendered so that a reader sees every line break that is one
    and no character it cannot see: invisible characters and invalid bytes are
    written as escapes, and so is the bracket that opens an escape. *)
From S2P Require Import Prelude GoStrings Utf8 Runes.
Local Open Scope string_scope.
Local Open Scope list_scope.
Local Open Scope N_scope.

(** The Unicode tables Cf, Variation_Selector and
    Other_Default_Ignorable_Code_Point together; the laws are their values on
    ASCII and on the two brackets. *)
Class Invisible := {
  unseen : N -> bool;
  unseen_ascii : forall r, r < 128 -> unseen r = false;
  unseen_brackets : unseen 10214 = false /\ unseen 10215 = false;
}.
(** The soft hyphen, the zero-width and bidirectional characters, the byte
    order mark, the variation selectors and the tags. *)
#[export] Instance some_unseen : Invisible | 100.
Proof.
  refine {| unseen r := (r =? 173) || in_range 8203 8207 r || in_range 8234 8238 r || in_range 8288 8303 r || (r =? 65279)
              || in_range 65024 65039 r || in_range 917504 921599 r |}; [|by split; vm_compute].
  intros r L. unfold in_range. destruct (N.eqb_spec r 173), (N.leb_spec 8203 r), (N.leb_spec 8234 r), (N.leb_spec 8288 r),
    (N.eqb_spec r 65279), (N.leb_spec 65024 r), (N.leb_spec 917504 r); lia || done.
Defined.

(** ** [%02X] and [%04X] *)

Definition hexd (d : N) : ascii := if d <? 10 then ascii_of_N (48 + d) else ascii_of_N (55 + d).
Fixpoint fixed_hex (k : nat) (n : N) : list ascii :=
  match k with O => [] | S k => fixed_hex k (n / 16) ++ [hexd (n mod 16)] end.
Definition hex_width (n : N) : nat := if n <? 65536 then 4%nat else if n <? 1048576 then 5%nat else 6%nat.

Definition openB : list ascii := encode_rune 10214.
Definition closeB : list ascii := encode_rune 10215.

(** ** Rendering *)

Section visible.
Context `{Invisible}.

(** [unicode.In(r, Cc, Cf, Zl, Zp, ...)]. *)
Definition hidden (r : N) : bool := is_control r || (r =? 8232) || (r =? 8233) || unseen r.
Definition as_is (r : N) (raw : list ascii) : bool :=
  in_range 32 126 r || (r =? 9) || (r =? 10) || ((r =? 13) && bool_decide (head (drop 1 raw) = Some (ascii_of_N 10))).
(** The piece written for the first rune of [raw]. *)
Definition piece (raw : list ascii) : list ascii :=
  let '(r, size) := decode_rune raw in
  if as_is r raw then take size raw else
  if (r =? RuneError) && (size =? 1)%nat
  then openB ++ ["x"%char] ++ fixed_hex 2 (match raw with c :: _ => N_of_ascii c | [] => 0 end) ++ closeB else
  if (r =? 10214) || hidden r then openB ++ ["U"%char; "+"%char] ++ fixed_hex (hex_width r) r ++ closeB
  else take size raw.
(** Each round consumes a byte of [raw] at least. *)
Fixpoint visible_loop (fuel : nat) (raw out : list ascii) (limit : nat) : list ascii * bool :=
  match raw with
  | [] => (out, true)
  | _ =>
    match fuel with
    | O => (out, false)
    | S fuel =>
      let p := piece raw in
      if (limit <? List.length out + List.length p)%nat then (out, false)
      else visible_loop fuel (drop (snd (decode_rune raw)) raw) (out ++ p) limit
    end
  end.
Definition visible (raw : list ascii) (limit : nat) : list ascii * bool := visible_loop (List.length raw) raw [] limit.

(** The whole rendering. *)
Inductive renders : list ascii -> list ascii -> Prop :=
| renders_end : renders [] []
| renders_step raw t : raw <> [] -> renders (drop (snd (decode_rune raw)) raw) t -> renders raw (piece raw ++ t).

(** ** What is written, rune by rune *)

Definition is_hexd (c : ascii) : bool := in_range 48 57 (N_of_ascii c) || in_range 65 70 (N_of_ascii c).
Lemma hexd_spec d : d < 16 -> is_hexd (hexd d) = true.
Proof.
  intros L. assert (forallb (fun d => is_hexd (hexd d)) (map N.of_nat (seq 0 16)) = true) as F by (vm_compute; done).
  rewrite forallb_forall in F. apply F, in_map_iff. exists (N.to_nat d). rewrite in_seq. lia.
Qed.
Definition unhexd (c : ascii) : N := let n := N_of_ascii c in if n <? 65 then n - 48 else n - 55.
Lemma unhexd_hexd d : d < 16 -> unhexd (hexd d) = d.
Proof.
  intros L. assert (forallb (fun d => unhexd (hexd d) =? d) (map N.of_nat (seq 0 16)) = true) as F by (vm_compute; done).
  rewrite forallb_forall in F. apply N.eqb_eq, F, in_map_iff. exists (N.to_nat d). rewrite in_seq. lia.
Qed.
Lemma fixed_hex_length k n : List.length (fixed_hex k n) = k.
Proof. revert n. induction k as [|k IH]; intros n; cbn [fixed_hex]; [done|]. rewrite length_app, IH. simpl. lia. Qed.
Lemma fixed_hex_digits k n : forallb is_hexd (fixed_hex k n) = true.
Proof.
  revert n. induction k as [|k IH]; intros n; cbn [fixed_hex]; [done|].
  rewrite forallb_app, IH. cbn [forallb]. by rewrite hexd_spec by by apply N.mod_lt.
Qed.
Definition unhex (l : list ascii) : N := foldl (fun acc c => acc * 16 + unhexd c) 0 l.
Lemma unhex_fixed k n : n < 16 ^ N.of_nat k -> unhex (fixed_hex k n) = n.
Proof.
  revert n. induction k as [|k IH]; intros n L; cbn [fixed_hex]; [simpl in L; unfold unhex; simpl; lia|].
  unfold unhex. rewrite foldl_snoc. fold (unhex (fixed_hex k (n / 16))).
  rewrite unhexd_hexd by by apply N.mod_lt. rewrite IH; [pose proof (N.div_mod n 16); lia|].
  apply N.Div0.div_lt_upper_bound. rewrite Nat2N.inj_succ, N.pow_succ_r' in L. lia.
Qed.

(** ** Reading a rendering back

    The first unit of a rendering: the raw bytes it stands for, and the length
    of its piece. *)
Fixpoint hex_run (l : list ascii) : list ascii :=
  match l with c :: t => if is_hexd c then c :: hex_run t else [] | [] => [] end.
Definition unit_of (t : list ascii) : list ascii * nat :=
  let '(r, n) := decode_rune t in
  if r =? 10214 then
    match drop 3 t with
    | "x"%char :: rest => ([byte_of (unhex (hex_run rest))], (7 + List.length (hex_run rest))%nat)
    | _ => let ds := hex_run (drop 5 t) in (encode_rune (unhex ds), (8 + List.length ds)%nat)
    end
  else (take n t, n).

Lemma hex_run_app ds rest : forallb is_hexd ds = true -> hex_run (ds ++ closeB ++ rest) = ds.
Proof.
  intros F. induction ds as [|d ds IH]; [done|]. cbn [forallb] in F. apply andb_true_iff in F as [D F].
  cbn [app hex_run]. by rewrite D, IH.
Qed.
Lemma open_decode rest : decode_rune (openB ++ rest) = (10214, 3%nat).
Proof. apply (decode_encode 10214). unfold scalar. lia. Qed.
Lemma hex_width_enough r : r <= 1114111 -> r < 16 ^ N.of_nat (hex_width r).
Proof.
  intros L. unfold hex_width. destruct (N.ltb_spec r 65536); [exact H0|]. destruct (N.ltb_spec r 1048576); [exact H1|].
  change (16 ^ N.of_nat 6) with 16777216. lia.
Qed.

Lemma as_is_bound r raw : as_is r raw = true -> r < 128.
Proof. unfold as_is. rewrite !orb_true_iff, andb_true_iff, in_range_spec, !N.eqb_eq. lia. Qed.
Lemma invalid_test r n : (r =? RuneError) && (n =? 1)%nat = false -> ~ (r = RuneError /\ n = 1%nat).
Proof. intros E [-> ->]. done. Qed.
Lemma unit_of_piece raw rest :
  raw <> [] -> unit_of (piece raw ++ rest) = (take (snd (decode_rune raw)) raw, List.length (piece raw)).
Proof.
  intros NE. pose proof (decode_scalar raw) as S. pose proof (decode_size raw NE) as D.
  unfold piece. destruct (decode_rune raw) as [r n] eqn:E. cbn [fst snd] in *.
  assert (~ (r = RuneError /\ n = 1%nat) -> r <> 10214 -> unit_of (take n raw ++ rest) = (take n raw, List.length (take n raw))) as K.
  { intros V N. unfold unit_of. rewrite (decode_valid_app raw r n rest E NE V).
    apply N.eqb_neq in N as ->. by rewrite take_app_length. }
  destruct (as_is r raw) eqn:A; [apply as_is_bound in A; apply K; [unfold RuneError|]; lia|].
  destruct (_ && _) eqn:V.
  - apply andb_true_iff in V as [_ ->%Nat.eqb_eq]. destruct raw as [|c raw]; [done|]. cbn [take].
    unfold unit_of. rewrite <- !app_assoc, open_decode. rewrite take_0.
    set (ds := fixed_hex 2 (N_of_ascii c)). 
    change (drop 3 (openB ++ ["x"%char] ++ ds ++ closeB ++ rest)) with ("x"%char :: ds ++ closeB ++ rest). rewrite N.eqb_refl. cbv beta iota.
    rewrite hex_run_app by apply fixed_hex_digits. unfold ds at 1. rewrite unhex_fixed by apply N_ascii_bounded.
    by rewrite byte_of_ascii, !length_app.
  - destruct (_ || _) eqn:HB; [|apply K; [by apply invalid_test|]; apply orb_false_iff in HB as [B _]; by apply N.eqb_neq in B].
    unfold unit_of. rewrite <- !app_assoc, open_decode. set (ds := fixed_hex (hex_width r) r).
    change (drop 3 (openB ++ ["U"%char; "+"%char] ++ ds ++ closeB ++ rest)) with ("U"%char :: "+"%char :: ds ++ closeB ++ rest).
    change (drop 5 (openB ++ ["U"%char; "+"%char] ++ ds ++ closeB ++ rest)) with (ds ++ closeB ++ rest). rewrite N.eqb_refl. cbv beta iota.
    rewrite hex_run_app by apply fixed_hex_digits. unfold ds at 1. rewrite unhex_fixed by (apply hex_width_enough, S).
    rewrite (encode_decode raw r n) by (done || by apply invalid_test). f_equal. rewrite !length_app. simpl. lia.
Qed.
Lemma piece_nonempty raw : raw <> [] -> piece raw <> [].
Proof.
  intros NE. pose proof (decode_size raw NE) as D. unfold piece. destruct (decode_rune raw) as [r n]. simpl in D.
  repeat destruct_cond; (destruct raw as [|c raw]; [done|]); destruct n as [|n]; done || lia.
Qed.
Lemma renders_inv raw t : renders raw t ->
  (raw = [] /\ t = []) \/ (raw <> [] /\ exists t', t = piece raw ++ t' /\ renders (drop (snd (decode_rune raw)) raw) t').
Proof. destruct 1; [by left|right]. split; [done|]. by eexists. Qed.
Lemma renders_injective raw1 t : renders raw1 t -> forall raw2, renders raw2 t -> raw1 = raw2.
Proof.
  induction 1 as [|raw1 t N1 R1 IH]; intros raw2 [[-> E]|[N2 (t2 & E & R)]]%renders_inv; [done| | |].
  - exfalso. apply (piece_nonempty raw2 N2). by destruct (piece raw2).
  - exfalso. apply (piece_nonempty raw1 N1). by destruct (piece raw1).
  - pose proof (unit_of_piece raw1 t N1) as U1. pose proof (unit_of_piece raw2 t2 N2) as U2. rewrite <- E, U1 in U2.
    injection U2 as T L. apply app_inj_1 in E as [_ ->]; [|done].
    rewrite <- (take_drop (snd (decode_rune raw1)) raw1), <- (take_drop (snd (decode_rune raw2)) raw2), T. f_equal. by apply IH.
Qed.

(** ** What a reader sees *)

(** A tab, a newline, a carriage return, or a rune that shows. *)
Definition seen (r : N) : Prop := r = 9 \/ r = 10 \/ r = 13 \/ hidden r = false.
Definition CR : ascii := ascii_of_N 13.
Definition LF : ascii := ascii_of_N 10.
(** Every carriage return belongs to a line break. *)
Definition no_lone_cr (t : list ascii) : Prop := forall i, t !! i = Some CR -> t !! S i = Some LF.

Lemma ascii_seen r : 32 <= r < 127 -> seen r.
Proof.
  intros L. right. right. right. unfold hidden. rewrite unseen_ascii by lia.
  assert (is_control r = false) as ->; [|by destruct (N.eqb_spec r 8232), (N.eqb_spec r 8233); [lia..|]].
  unfold is_control. apply orb_false_iff. rewrite N.leb_gt. split; [lia|]. apply not_true_iff_false. rewrite in_range_spec. lia.
Qed.
Lemma hex_text ds : forallb is_hexd ds = true ->
  exists rs, ds = flat_map encode_rune rs /\ Forall scalar rs /\ Forall seen rs /\ CR ∉ ds.
Proof.
  induction ds as [|d ds IH]; cbn [forallb]; [exists []; split_and!; try constructor; by intros ?%not_elem_of_nil|].
  intros [D F]%andb_true_iff. destruct (IH F) as (rs & -> & S & K & C). exists (N_of_ascii d :: rs).
  unfold is_hexd in D. rewrite orb_true_iff, !in_range_spec in D. split_and!.
  - cbn [flat_map]. unfold encode_rune. 
    replace (in_range 55296 57343 (N_of_ascii d) || (1114111 <? N_of_ascii d)) with false
      by (symmetry; rewrite orb_false_iff, N.ltb_ge, <- not_true_iff_false, in_range_spec; lia).
    destruct (N.ltb_spec (N_of_ascii d) 128); [|lia]. by rewrite byte_of_ascii.
  - constructor; [unfold scalar; lia|done].
  - constructor; [apply ascii_seen; lia|done].
  - rewrite not_elem_of_cons. split; [intros <-; change (N_of_ascii CR) with 13 in D; lia|done].
Qed.
Lemma encode_high r : 128 <= r -> CR ∉ encode_rune r.
Proof.
  intros L. unfold encode_rune. set (x := if _ || _ then RuneError else r).
  assert (128 <= x) as X by (subst x; destruct (_ || _); unfold RuneError; lia). clearbody x.
  destruct (N.ltb_spec x 128); [lia|].
  assert (forall t y, 128 <= t < 256 -> byte_of (N.lor t y) <> CR) as B.
  { intros t y T E. apply (f_equal N_of_ascii) in E. unfold byte_of in E.
    rewrite N_ascii_embedding in E by by apply N.mod_lt. change (N_of_ascii CR) with 13 in E.
    assert (N.testbit (N.lor t y mod 256) 7 = true) as Tb; [|by rewrite E in Tb].
    change 256 with (2 ^ 8). rewrite N.mod_pow2_bits_low by done. rewrite N.lor_spec.
    replace t with (128 + (t - 128)) by lia. rewrite <- (lor_tag 7 1) by (simpl; lia). rewrite N.lor_spec. done. }
  repeat destruct_cond; intros I; repeat (apply elem_of_cons in I as [I|I]; [symmetry in I; revert I; apply B; lia|]);
    by apply not_elem_of_nil in I.
Qed.
Definition texts_of (t : list ascii) : Prop := exists rs, t = flat_map encode_rune rs /\ Forall scalar rs /\ Forall seen rs.
Lemma texts_app a b : texts_of a -> texts_of b -> texts_of (a ++ b).
Proof.
  intros (ra & -> & Sa & Ka) (rb & -> & Sb & Kb). exists (ra ++ rb). by rewrite flat_map_app, !Forall_app.
Qed.
Lemma texts_rune r : scalar r -> seen r -> texts_of (encode_rune r).
Proof. intros S K. exists [r]. cbn [flat_map]. rewrite app_nil_r. split_and!; [done|by constructor..]. Qed.
Lemma texts_hex k n : texts_of (fixed_hex k n) /\ CR ∉ fixed_hex k n.
Proof. destruct (hex_text _ (fixed_hex_digits k n)) as (rs & E & S & K & C). split; [by exists rs|done]. Qed.
Lemma bracket_seen : seen 10214 /\ seen 10215.
Proof. destruct unseen_brackets as [A B]. split; right; right; right; unfold hidden; by rewrite ?A, ?B. Qed.
Lemma texts_escape mid : texts_of mid -> CR ∉ mid -> texts_of (openB ++ mid ++ closeB) /\ CR ∉ openB ++ mid ++ closeB.
Proof.
  intros T C. destruct bracket_seen as [So Sc]. split.
  - apply texts_app; [apply texts_rune; [unfold scalar; lia|done]|]. apply texts_app; [done|apply texts_rune; [unfold scalar; lia|done]].
  - rewrite !elem_of_app. intros [I|[I|I]]; [|done|]; (eapply encode_high; [|exact I]; lia).
Qed.

Definition line_break (raw : list ascii) : Prop := piece raw = [CR] /\ head (drop (snd (decode_rune raw)) raw) = Some LF.
Lemma piece_seen raw : raw <> [] -> texts_of (piece raw) /\ (CR ∉ piece raw \/ line_break raw).
Proof.
  intros NE. pose proof (decode_scalar raw) as S. unfold line_break, piece.
  destruct (decode_rune raw) as [r n] eqn:E. cbn [fst snd] in *.
  assert (~ (r = RuneError /\ n = 1%nat) -> seen r -> texts_of (take n raw)) as K.
  { intros V W. rewrite <- (encode_decode raw r n) by done. by apply texts_rune. }
  destruct (as_is r raw) eqn:A.
  - pose proof (as_is_bound _ _ A) as B. assert (~ (r = RuneError /\ n = 1%nat)) as V by (unfold RuneError; lia).
    pose proof (encode_decode raw r n E NE V) as En. unfold encode_rune in En.
    replace (in_range 55296 57343 r || (1114111 <? r)) with false in En
      by (symmetry; rewrite orb_false_iff, N.ltb_ge, <- not_true_iff_false, in_range_spec; lia).
    apply N.ltb_lt in B. rewrite B in En. rewrite <- En. apply N.ltb_lt in B.
    unfold as_is in A. rewrite !orb_true_iff, andb_true_iff, in_range_spec, !N.eqb_eq in A. split.
    + rewrite En. apply K; [done|]. destruct A as [[[A| ->]| ->]|[-> _]]; [apply ascii_seen; lia|unfold seen; auto..].
    + destruct A as [[[A| ->]| ->]|[-> HL]]; [left; intros I%list_elem_of_singleton..|right].
      * apply (f_equal N_of_ascii) in I. rewrite byte_of_val in I by lia. change (N_of_ascii CR) with 13 in I. lia.
      * done.
      * done.
      * apply bool_decide_eq_true in HL. split; [done|].
        assert (n = 1%nat) as ->; [|done]. apply (f_equal List.length) in En.
        pose proof (decode_size raw NE) as D. rewrite E in D. simpl in D. rewrite length_take in En. simpl in En. lia.
  - destruct (_ && _) eqn:V.
    + rewrite (app_assoc _ _ closeB). destruct (texts_hex 2 (match raw with c :: _ => N_of_ascii c | [] => 0 end)) as [T C].
      destruct (texts_escape (["x"%char] ++ fixed_hex 2 (match raw with c :: _ => N_of_ascii c | [] => 0 end))) as [Te Ce].
      * apply texts_app; [|done]. apply (texts_rune 120); [unfold scalar; lia|apply ascii_seen; lia].
      * rewrite elem_of_app, list_elem_of_singleton. by intros [I|I].
      * by split; [|left].
    + destruct (_ || _) eqn:HB.
      * rewrite (app_assoc _ _ closeB). destruct (texts_hex (hex_width r) r) as [T C].
        destruct (texts_escape (["U"%char; "+"%char] ++ fixed_hex (hex_width r) r)) as [Te Ce].
        -- apply texts_app; [|done]. exists [85; 43]. split_and!; [done|repeat constructor; unfold scalar; lia|].
           constructor; [apply ascii_seen; lia|constructor; [apply ascii_seen; lia|constructor]].
        -- rewrite elem_of_app, !elem_of_cons. intros [[I|[I|I%not_elem_of_nil]]|I]; done.
        -- by split; [|left].
      * apply orb_false_iff in HB as [_ Hd]. apply invalid_test in V. split; [apply K; [done|]; unfold seen; auto|left].
        rewrite <- (encode_decode raw r n) by done. apply encode_high. destruct (N.le_gt_cases 128 r) as [L|L]; [done|exfalso].
        unfold as_is in A. rewrite !orb_false_iff, andb_false_iff, !N.eqb_neq in A. destruct A as [[[A N9] N10] A13].
        apply not_true_iff_false in A. rewrite in_range_spec in A. unfold hidden, is_control in Hd.
        rewrite !orb_false_iff, N.leb_gt in Hd. destruct Hd as [[[[Hc H127] _] _] _].
        apply not_true_iff_false in H127. rewrite in_range_spec in H127. lia.
Qed.
Lemma renders_lf raw t : renders raw t -> head raw = Some LF -> head t = Some LF.
Proof.
  intros [[-> ->]|[N (t' & -> & R)]]%renders_inv; [done|]. destruct raw as [|c raw]; [done|]. intros [= ->].
  unfold piece. done.
Qed.
Lemma renders_no_lone_cr raw t : renders raw t -> no_lone_cr t.
Proof.
  induction 1 as [|raw t N R IH]; [by intros i|]. intros i E. destruct (piece_seen raw N) as [_ P].
  destruct (decide (i < List.length (piece raw))%nat) as [L|L].
  - rewrite lookup_app_l in E by done. destruct P as [P|[P HL]]; [by apply list_elem_of_lookup_2 in E|].
    rewrite P in *. destruct i; [|simpl in L; lia]. cbn [app lookup list_lookup].
    apply renders_lf in R; [|done]. by destruct t.
  - rewrite lookup_app_r in E |- * by lia. replace (S i - _)%nat with (S (i - List.length (piece raw))) by lia. by apply IH.
Qed.
Lemma visible_loop_spec fuel : forall raw out limit,
  (List.length raw <= fuel)%nat -> (List.length out <= limit)%nat -> texts_of out ->
  let '(t, complete) := visible_loop fuel raw out limit in
  exists shown rest, t = out ++ shown /\ renders raw (shown ++ rest) /\ (complete = true <-> rest = [])
    /\ (List.length t <= limit)%nat /\ texts_of t.
Proof.
  assert (forall raw, exists t, renders raw t) as Total.
  { intros raw. induction raw as [raw IH] using (well_founded_induction (well_founded_ltof _ (@List.length ascii))).
    unfold ltof in IH. destruct raw as [|c raw]; [exists []; constructor|].
    pose proof (decode_size (c :: raw) ltac:(done)) as D.
    destruct (IH (drop (snd (decode_rune (c :: raw))) (c :: raw))) as [t R]; [rewrite length_drop; lia|].
    eexists. by constructor. }
  induction fuel as [|fuel IH]; intros raw out limit F L T; (destruct raw as [|c raw]; cbn [visible_loop];
    [exists [], []; rewrite app_nil_r; split_and!; (done || constructor)|]); [simpl in F; lia|].
  set (x := c :: raw) in *. pose proof (decode_size x ltac:(done)) as D.
  destruct (Nat.ltb_spec limit (List.length out + List.length (piece x))) as [W|W].
  - destruct (Total (drop (snd (decode_rune x)) x)) as [t R]. exists [], (piece x ++ t). rewrite app_nil_r.
    split_and!; [done|by constructor| |done|done]. split; [done|]. pose proof (piece_nonempty x ltac:(done)).
    by destruct (piece x).
  - specialize (IH (drop (snd (decode_rune x)) x) (out ++ piece x) limit).
    rewrite length_drop, length_app in IH. specialize (IH ltac:(lia) ltac:(lia)).
    specialize (IH (texts_app _ _ T (proj1 (piece_seen x ltac:(done))))).
    destruct (visible_loop _ _ _ _) as [t complete]. destruct IH as (shown & rest & -> & R & C & Lt & Tt).
    exists (piece x ++ shown), rest. rewrite <- !app_assoc. split_and!; [done|by constructor|done| |].
    + by rewrite <- app_assoc in Lt.
    + by rewrite <- app_assoc in Tt.
Qed.
Lemma visible_facts raw limit :
  let '(t, complete) := visible raw limit in
  (exists rest, renders raw (t ++ rest) /\ (complete = true <-> rest = []))
  /\ (List.length t <= limit)%nat /\ texts_of t.
Proof.
  unfold visible. pose proof (visible_loop_spec (List.length raw) raw [] limit) as V.
  destruct (visible_loop _ _ _ _) as [t c].
  destruct V as (shown & rest & -> & R & C & L & T); [done|simpl; lia|by exists []|].
  cbn [app] in *. split_and!; [by exists rest|done|done].
Qed.

(** C39: what a reader is shown reads as it is.  [visible] answers at most
    [limit] bytes, a prefix of the full rendering cut between characters and
    escapes, and says whether that was all of it.  It contains no control,
    format, separator or default-ignorable character but tabs, newlines and
    carriage returns; when it is complete every carriage return is followed by
    a newline, and the rendering is faithful: no other bytes render to the
    same text. *)
Theorem visible_spec raw limit :
  let '(t, complete) := visible raw limit in
  (exists rest, renders raw (t ++ rest) /\ (complete = true <-> rest = []))
  /\ (List.length t <= limit)%nat /\ Forall seen (runes (str t))
  /\ (complete = true ->
      no_lone_cr t /\ forall raw' limit', visible raw' limit' = (t, true) -> raw' = raw).
Proof.
  pose proof (visible_facts raw limit) as V. destruct (visible raw limit) as [t complete].
  destruct V as ((rest & R & C) & L & (rs & E & S & K)). split_and!; [by exists rest|done| |].
  - unfold runes. rewrite chars_str, E, runes_encode_from by done. done.
  - intros ->. assert (rest = []) as -> by by apply C. rewrite app_nil_r in R. split; [by eapply renders_no_lone_cr|].
    intros raw' limit' E'. pose proof (visible_facts raw' limit') as V. rewrite E' in V.
    destruct V as ((rest' & R' & C') & _). assert (rest' = []) as -> by by apply C'. rewrite app_nil_r in R'.
    by eapply renders_injective.
Qed.
End visible.

Example visible_ok :
  visible (chars "a" ++ [ascii_of_N 27; ascii_of_N 255] ++ encode_rune 8238 ++ openB) 100
  = (chars "a" ++ openB ++ chars "U+001B" ++ closeB ++ openB ++ chars "xFF" ++ closeB
     ++ openB ++ chars "U+202E" ++ closeB ++ openB ++ chars "U+27E6" ++ closeB, true).
Proof. vm_compute. reflexivity. Qed.

