(* ===== verification/Footprint.v ===== *)
(** * The footprint of a change ([internal/git/footprint.go])

    What a maintenance task changed, read from [git diff --numstat -z] and
    [git diff --raw -z] between the reviewed base and the output commit.  The
    merge authority of [Model] decides on this footprint.  A footprint that
    could not be read is answered with what was read so far, never complete. *)
From S2P Require Import Prelude GoStrings WireJson Enums Types GoErrors Utf8 Runes Config Model Samples Redact.
Local Open Scope string_scope.
Local Open Scope list_scope.
Local Open Scope N_scope.

Section footprint.
(** [strconv.Quote], which only the texts of the reasons use, and the
    environment of [redact.Text]. *)
Context `{Unicode} (Quote : string -> string) (environ : list string).

Definition hex_char (c : ascii) : bool := is_digit c || in_range 97 102 (N_of_ascii c).
Definition validObjectID (revision : string) : bool :=
  ((slen revision =? 40) || (slen revision =? 64)) && forallb hex_char (chars revision).

Definition NUL : ascii := ascii_of_N 0.
Definition footprintRecords (data : string) : result (list string) error :=
  if bool_decide (data = "") then Ok [] else
  guard HasSuffix data (str [NUL]) else New "Footprint machine output is incomplete";
  Ok (Split (TrimSuffix data (str [NUL])) NUL).

Definition digits : string := "0123456789".
Definition footprintMode (mode : string) : bool := (slen mode =? 6) && bool_decide (Trim mode "01234567" = "").
Definition footprintObjectFragment (value : string) : bool :=
  negb (bool_decide (value = "")) && (slen value <=? 64) && bool_decide (Trim value "0123456789abcdef" = "").
Definition regularFootprintMode (mode : string) : bool :=
  bool_decide (mode = "000000") || bool_decide (mode = "100644") || bool_decide (mode = "100755").

(** The modes of one header, [old new oldid newid status]; 000000 is the mode
    of an absent file. *)
Definition absent_mode (mode : string) : bool := bool_decide (mode = "000000").
Definition header_modes (header : string) : result (string * string) error :=
  let unexpected := New "Footprint raw metadata has an unexpected mode or status" in
  match Fields (TrimPrefix header ":") with
  | [m1; m2; o1; o2; status] =>
    guard footprintMode m1 && footprintMode m2 && footprintObjectFragment o1 && footprintObjectFragment o2
          && (slen status =? 1) && Contains "ADMT" status else unexpected;
    guard negb (bool_decide (status = "A") && (negb (absent_mode m1) || absent_mode m2)
                || bool_decide (status = "D") && (absent_mode m1 || negb (absent_mode m2))
                || Contains "MT" status && (absent_mode m1 || absent_mode m2))
      else New "Footprint raw modes disagree with the change status";
    Ok (m1, m2)
  | _ => Err unexpected
  end.
(** The records come in pairs. *)
Fixpoint modes_loop (records : list string) (modes : gmap string (string * string))
    : result (gmap string (string * string)) error :=
  match records with
  | header :: name :: rest =>
    guard HasPrefix header ":" && negb (bool_decide (name = "")) else New "Footprint raw metadata is malformed";
    let! m := header_modes header in
    guard isNone (modes !! name) else New "Footprint raw metadata repeats a path";
    modes_loop rest (<[name := m]> modes)
  | _ => Ok modes
  end.
Definition footprintModes (raw : string) : result (gmap string (string * string)) error :=
  let! records := footprintRecords raw in
  guard lenN records mod 2 =? 0 else New "Footprint raw metadata is incomplete";
  modes_loop records ∅.

Definition footprintReason (reason name : string) : string := reason +:+ " at " +:+ Quote (Text environ name).

(** ** Counting *)

Record counting := mkCounting {
  c_paths : list string; c_reasons : list string; c_seen : gset string; c_lines : N; c_files : N; c_countable : bool }.

(** The line counts of one record, added to [lines]. *)
Fixpoint add_counts (texts : list string) (lines : N) : result N error :=
  match texts with
  | [] => Ok lines
  | text :: rest =>
    guard negb (bool_decide (text = "") || negb (bool_decide (Trim text digits = "")))
      else New "Footprint line count is not an unsigned decimal integer";
    match ParseUint text 64 with
    | Some n => guard n <=? max_uint64 - lines else New "Footprint line count overflows"; add_counts rest (lines + n)
    | None => Err (New "Footprint line count overflows")
    end
  end.
Definition mode_reasons (name before after : string) : list string :=
  if negb (regularFootprintMode before) || negb (regularFootprintMode after)
  then [footprintReason "Special file or submodule change" name]
  else if negb (bool_decide (before = after)) && (bool_decide (before = "100755") || bool_decide (after = "100755"))
  then [footprintReason "Executable mode change" name] else [].
Definition path_reasons (excluded : list string) (name : string) : list string :=
  if ManualMergePath name excluded then [footprintReason "Sensitive or excluded path" name] else [].

(** One record of the numstat output. *)
Definition count_entry (modes : gmap string (string * string)) (excluded : list string) (st : counting) (entry : string)
    : counting * option error :=
  match Split3 entry (ascii_of_N 9) with
  | [f0; f1; name] =>
    if bool_decide (name = "") || bool_decide (name ∈ c_seen st)
    then (st, Some (New "Footprint numstat contains an invalid or duplicate path")) else
    match modes !! name with
    | None => (st, Some (New "Footprint numstat and raw paths disagree"))
    | Some (before, after) =>
      let st := mkCounting (c_paths st ++ [name]) (c_reasons st) ({[name]} ∪ c_seen st) (c_lines st) (c_files st) (c_countable st) in
      if c_files st =? max_uint64 then (st, Some (New "Footprint file count overflows")) else
      let files := c_files st + 1 in
      let more := mode_reasons name before after ++ path_reasons excluded name in
      if bool_decide (f0 = "-") || bool_decide (f1 = "-") then
        if negb (bool_decide (f0 = "-")) || negb (bool_decide (f1 = "-"))
        then (mkCounting (c_paths st) (c_reasons st) (c_seen st) (c_lines st) files (c_countable st),
              Some (New "Footprint contains inconsistent binary line counts"))
        else (mkCounting (c_paths st) (c_reasons st ++ [footprintReason "Unquantifiable binary change" name] ++ more)
                (c_seen st) (c_lines st) files false, None)
      else
        match add_counts [f0; f1] (c_lines st) with
        | Ok lines => (mkCounting (c_paths st) (c_reasons st ++ more) (c_seen st) lines files (c_countable st), None)
        | Err e => (mkCounting (c_paths st) (c_reasons st) (c_seen st) (c_lines st) files (c_countable st), Some e)
        end
    end
  | _ => (st, Some (New "Footprint numstat contains an invalid or duplicate path"))
  end.
Fixpoint count_entries (modes : gmap string (string * string)) (excluded : list string) (st : counting) (entries : list string)
    : counting * option error :=
  match entries with
  | [] => (st, None)
  | entry :: rest =>
    match count_entry modes excluded st entry with
    | (st, None) => count_entries modes excluded st rest
    | (st, Some e) => (st, Some e)
    end
  end.

Definition emptyFootprint (base revision : string) : MaintenanceFootprint :=
  mkMaintenanceFootprint base revision None None [] false [].
(** The footprint read and the error, if any, that stopped the reading. *)
Definition parseMaintenanceFootprint (numstat raw base revision : string) (excluded : list string)
    : MaintenanceFootprint * option error :=
  let result := emptyFootprint base revision in
  match footprintRecords numstat with
  | Err e => (result, Some e)
  | Ok entries =>
    match footprintModes raw with
    | Err e => (result, Some e)
    | Ok modes =>
      let '(st, err) := count_entries modes excluded (mkCounting [] [] ∅ 0 0 true) entries in
      let result := mkMaintenanceFootprint base revision None None (c_paths st) false (c_reasons st) in
      match err with
      | Some e => (result, Some e)
      | None =>
        if negb (N.of_nat (size (c_seen st)) =? N.of_nat (size modes))
        then (result, Some (New "Footprint raw and numstat paths disagree"))
        else (mkMaintenanceFootprint base revision (if c_countable st then Some (c_lines st) else None)
                (Some (c_files st)) (c_paths st) true (c_reasons st), None)
      end
    end
  end.

(** [ReadMaintenanceFootprint]: [scratch] is the outcome of preparing the empty
    tree, [read] the [git diff] of a format. *)
Definition ReadMaintenanceFootprint (scratch : result unit error) (read : string -> result string error)
    (cfg : Config) (base revision : string) : MaintenanceFootprint * option error :=
  let result := emptyFootprint base revision in
  if negb (validObjectID base) || negb (validObjectID revision)
  then (result, Some (New "Footprint requires exact hexadecimal comparison and output revisions")) else
  match scratch with
  | Err e => (result, Some e)
  | Ok _ =>
    match read "--numstat" with
    | Err e => (result, Some e)
    | Ok numstat =>
      match read "--raw" with
      | Err e => (result, Some e)
      | Ok raw => parseMaintenanceFootprint numstat raw base revision (Config_AutoMergeExcludedPaths cfg)
      end
    end
  end.

(** The same limits on the counts a forge reports. *)
Definition RemoteFootprintWithin (additions deletions files : N) (saved live : Config) : bool :=
  let '(maxLines, maxFiles) := AutoMergeLimits saved live in
  (0 <? maxLines) && (0 <? maxFiles) && (0 <? files) && (files <=? maxFiles)
  && (additions <=? max_uint64 - deletions) && (u64_add additions deletions <=? maxLines).
End footprint.

Definition rec (s : string) : string := s +:+ str [NUL].
Example footprint_ok :
  let '(f, err) := parseMaintenanceFootprint id []
    (rec ("3" +:+ str [ascii_of_N 9] +:+ "1" +:+ str [ascii_of_N 9] +:+ "a b.go")
     +:+ rec ("-" +:+ str [ascii_of_N 9] +:+ "-" +:+ str [ascii_of_N 9] +:+ "x.png"))
    (rec ":000000 100644 0000000 1234567 A" +:+ rec "x.png" +:+ rec ":100644 100755 89abcde 1234567 M" +:+ rec "a b.go")
    "base" "rev" [] in
  (MaintenanceFootprint_ChangedFiles f, MaintenanceFootprint_ChangedLines f, MaintenanceFootprint_ManualReasons f, err)
  = (Some 2, None, ["Executable mode change at a b.go"; "Unquantifiable binary change at x.png"], None).
Proof. vm_compute. reflexivity. Qed.

(** ** What a footprint says *)

Section footprint_facts.
Context `{Unicode} (Quote : string -> string) (environ : list string).

(** One changed path: its line counts, unless it is binary, and its modes. *)
Record change := mkChange { ch_name : string; ch_counts : option (N * N); ch_before : string; ch_after : string }.
Definition ch_lines (c : change) : N := match ch_counts c with Some (a, d) => a + d | None => 0 end.
Definition total_lines (cs : list change) : N := foldr (fun c n => ch_lines c + n) 0 cs.
(** A numstat record, with the modes of the raw output, reads as a change. *)
Definition reads (modes : gmap string (string * string)) (entry : string) (c : change) : Prop :=
  match Split3 entry (ascii_of_N 9) with
  | [f0; f1; name] =>
    name = ch_name c /\ name <> "" /\ modes !! name = Some (ch_before c, ch_after c)
    /\ match ch_counts c with
       | None => f0 = "-" /\ f1 = "-"
       | Some (a, d) => ParseUint f0 64 = Some a /\ ParseUint f1 64 = Some d
       end
  | _ => False
  end.
Definition change_reasons (excluded : list string) (c : change) : list string :=
  match ch_counts c with
  | None => [footprintReason Quote environ "Unquantifiable binary change" (ch_name c)]
  | Some _ => []
  end ++ mode_reasons Quote environ (ch_name c) (ch_before c) (ch_after c) ++ path_reasons Quote environ excluded (ch_name c).
Definition counted (c : change) : bool := isSome (ch_counts c).
Definition footprint_of (base revision : string) (excluded : list string) (cs : list change) : MaintenanceFootprint :=
  mkMaintenanceFootprint base revision (if forallb counted cs then Some (total_lines cs) else None) (Some (lenN cs))
    (map ch_name cs) true (flat_map (change_reasons excluded) cs).

(** ** Numbers *)

Lemma drop_set_all set l : forallb (fun c => char_in c set) l = true -> drop_set set l = [].
Proof. induction l as [|c l IH]; cbn [forallb]; [done|]. intros [C F]%andb_true_iff. cbn [drop_set]. by rewrite C, IH. Qed.
Lemma digit_of_in c d : digit_of c = Some d -> char_in c digits = true.
Proof.
  unfold digit_of, char_in. intros E. destruct (in_range 48 57 (N_of_ascii c)) eqn:R; [|done]. apply in_range_spec in R.
  rewrite <- (ascii_N_embedding c). assert (exists k, (k < 10)%nat /\ N_of_ascii c = 48 + N.of_nat k) as (k & K & ->)
    by (exists (N.to_nat (N_of_ascii c - 48)); lia).
  do 10 (destruct k as [|k]; [by vm_compute|]). lia.
Qed.
Lemma ParseUint_digits t n : ParseUint t 64 = Some n -> t <> "" /\ Trim t digits = "".
Proof.
  unfold ParseUint. intros E. destruct (chars t) as [|c l] eqn:T; [done|]. split; [by intros ->|].
  assert (forall l acc m, parse_digits acc l = Some m -> forallb (fun c => char_in c digits) l = true) as D.
  { clear. induction l as [|c l IH]; intros acc m; cbn [parse_digits forallb]; [done|].
    destruct (digit_of c) eqn:C; [|done]. intros P. rewrite (digit_of_in _ _ C). by eapply IH. }
  destruct (parse_digits 0 (c :: l)) eqn:P; [|done]. apply D in P. unfold Trim. by rewrite T, (drop_set_all _ _ P).
Qed.
Lemma add_counts_Ok f0 f1 l l' : l <= max_uint64 ->
  add_counts [f0; f1] l = Ok l' <->
  exists a d, ParseUint f0 64 = Some a /\ ParseUint f1 64 = Some d /\ l + (a + d) <= max_uint64 /\ l' = l + (a + d).
Proof.
  intros L. cbn [add_counts]. rewrite guard_Ok. split.
  - intros [_ E]. destruct (ParseUint f0 64) as [a|]; [|done]. ok_inv E. destruct (ParseUint f1 64) as [d|]; [|done]. ok_inv E.
    bool_hyps. exists a, d. split_and!; [done|done| |]; lia.
  - intros (a & d & P & Q & B & ->). destruct (ParseUint_digits _ _ P) as [N0 ->], (ParseUint_digits _ _ Q) as [N1 ->].
    rewrite P, Q, !bool_decide_eq_false_2 by done. cbn [negb orb]. rewrite bool_decide_eq_true_2 by done. split; [done|].
    destruct (N.leb_spec a (max_uint64 - l)); [|lia]. cbn [negb]. destruct (N.leb_spec d (max_uint64 - (l + a))); [|lia].
    rewrite (bool_decide_eq_false_2 (f1 = "")) by done. by rewrite N.add_assoc.
Qed.
Lemma ParseUint_dash : ParseUint "-" 64 = None.
Proof. done. Qed.

(** ** The loop *)

Definition after_change (excluded : list string) (st : counting) (c : change) : counting :=
  mkCounting (c_paths st ++ [ch_name c]) (c_reasons st ++ change_reasons excluded c) ({[ch_name c]} ∪ c_seen st)
    (c_lines st + ch_lines c) (c_files st + 1) (c_countable st && counted c).
Lemma count_entry_ok modes excluded st entry st' : c_lines st <= max_uint64 ->
  count_entry Quote environ modes excluded st entry = (st', None) <->
  exists c, reads modes entry c /\ ch_name c ∉ c_seen st /\ c_files st <> max_uint64
       /\ c_lines st + ch_lines c <= max_uint64 /\ st' = after_change excluded st c.
Proof.
  intros L. unfold count_entry, reads. destruct (Split3 entry _) as [|f0 [|f1 [|name [|]]]]; try (split; [done|by intros (? & [] & _)]).
  split.
  - destruct (_ || _) eqn:G; [done|]. bool_hyps. destruct (modes !! name) as [[b a]|] eqn:M; [|done]. cbn [c_files c_lines c_paths c_reasons c_seen c_countable].
    destruct (N.eqb_spec (c_files st) max_uint64); [done|].
    destruct (bool_decide (f0 = "-") || bool_decide (f1 = "-")) eqn:D.
    + destruct (negb (bool_decide (f0 = "-")) || negb (bool_decide (f1 = "-"))) eqn:D'; [done|]. bool_hyps. intros [= <-]. exists (mkChange name None b a).
      unfold after_change, change_reasons, ch_lines, counted. cbn. rewrite N.add_0_r, andb_false_r. split_and!; done || lia.
    + destruct (add_counts [f0; f1] (c_lines st)) as [l|] eqn:A; [|done]. intros [= <-].
      apply add_counts_Ok in A as (x & y & P & Q & B & ->); [|done]. exists (mkChange name (Some (x, y)) b a).
      unfold after_change, change_reasons, ch_lines, counted. cbn. rewrite andb_true_r. by split_and!.
  - intros (c & (-> & NE & M & C) & S & F & B & ->). rewrite !bool_decide_eq_false_2, M by done. cbn [orb c_files c_lines c_paths c_reasons c_seen c_countable].
    apply N.eqb_neq in F as ->. unfold after_change, change_reasons, ch_lines, counted in *. destruct (ch_counts c) as [[x y]|].
    + destruct C as [P Q]. rewrite !bool_decide_eq_false_2 by (intros ->; by rewrite ParseUint_dash in *). cbn [orb].
      rewrite (proj2 (add_counts_Ok f0 f1 (c_lines st) (c_lines st + (x + y)) L)) by (exists x, y; done).
      cbn. by rewrite andb_true_r.
    + destruct C as [-> ->]. cbn. by rewrite N.add_0_r, andb_false_r.
Qed.
Lemma count_entries_ok modes excluded entries : forall st st', c_lines st <= max_uint64 -> c_files st <= max_uint64 ->
  count_entries Quote environ modes excluded st entries = (st', None) <->
  exists cs, Forall2 (reads modes) entries cs /\ NoDup (map ch_name cs) /\ (forall c, c ∈ cs -> ch_name c ∉ c_seen st)
        /\ c_files st + lenN cs <= max_uint64 /\ c_lines st + total_lines cs <= max_uint64
        /\ st' = foldl (after_change excluded) st cs.
Proof.
  induction entries as [|e entries IH]; intros st st' L F; cbn [count_entries].
  - split.
    + intros [= <-]. exists []. unfold lenN, total_lines. simpl. split_and!; try constructor; try lia. by intros c ?%not_elem_of_nil.
    + intros (cs & P & _ & _ & _ & _ & ->). by inversion P.
  - destruct (count_entry _ _ _ _ _ _) as [s1 [err|]] eqn:E.
    + split; [done|]. intros (cs & P & ND & S & Fb & Lb & ->). inversion P as [|? c ? cs' R P']; subst.
      unfold lenN, total_lines in *. cbn [foldr List.length] in *.
      assert (count_entry Quote environ modes excluded st e = (after_change excluded st c, None)) as E'; [|congruence].
      apply count_entry_ok; [done|]. exists c. split_and!; [done|apply S; by left|lia|lia|done].
    + apply count_entry_ok in E as (c & R & S & Fb & Lb & ->); [|done].
      rewrite IH by (cbn [c_lines c_files after_change]; lia). unfold lenN, total_lines. cbn [c_seen c_files c_lines after_change].
      split.
      * intros (cs & P & ND & S' & Fb' & Lb' & ->). exists (c :: cs). cbn [foldr List.length map foldl]. split_and!; [by constructor| | | | |done]; try lia.
        -- apply NoDup_cons. split; [|done]. intros (x & Ex & Ix)%elem_of_map. apply (S' x Ix). rewrite Ex. set_solver.
        -- intros x [->|Ix]%elem_of_cons; [done|]. specialize (S' x Ix). set_solver.
      * intros (cs & P & ND & S' & Fb' & Lb' & ->). inversion P as [|? c' ? cs' R' P']; subst.
        assert (c' = c) as ->.
        { unfold reads in R, R'. destruct (Split3 e _) as [|f0 [|f1 [|name [|]]]]; try done.
          destruct R as (-> & _ & M & C), R' as (N' & _ & M' & C'). destruct c as [n k b a], c' as [n' k' b' a']. cbn in *. subst n'.
          rewrite M in M'. injection M' as <- <-. f_equal. destruct k as [[]|], k' as [[]|]; naive_solver. }
        cbn [map foldr List.length foldl] in *. apply NoDup_cons in ND as [NI ND]. exists cs'. split_and!; [done|done| | | |done]; try lia.
        intros x Ix. rewrite not_elem_of_union, not_elem_of_singleton. split; [|apply S'; by right].
        intros Ex. apply NI. apply elem_of_map. by exists x.
Qed.
Lemma fold_changes excluded cs : forall st,
  foldl (after_change excluded) st cs
  = mkCounting (c_paths st ++ map ch_name cs) (c_reasons st ++ flat_map (change_reasons excluded) cs)
      (list_to_set (map ch_name cs) ∪ c_seen st) (c_lines st + total_lines cs) (c_files st + lenN cs)
      (c_countable st && forallb counted cs).
Proof.
  induction cs as [|c cs IH]; intros st; cbn [foldl].
  - cbn. rewrite !app_nil_r, union_empty_l_L, !N.add_0_r, andb_true_r. by destruct st.
  - rewrite IH. unfold after_change. cbn [c_paths c_reasons c_seen c_lines c_files c_countable map flat_map forallb list_to_set].
    unfold total_lines, lenN. cbn [foldr List.length]. rewrite <- !app_assoc, !andb_assoc. f_equal; [set_solver|lia|lia].
Qed.
Lemma reads_mode modes entries cs name :
  Forall2 (reads modes) entries cs -> name ∈ map ch_name cs -> is_Some (modes !! name).
Proof.
  intros P. rewrite elem_of_map. intros (c & <- & I). apply list_elem_of_lookup in I as [i I].
  destruct (Forall2_lookup_r _ _ _ _ _ P I) as (e & _ & R). unfold reads in R.
  destruct (Split3 e _) as [|f0 [|f1 [|n [|]]]]; try done. destruct R as (<- & _ & -> & _). by eexists.
Qed.
Lemma seen_all modes entries cs : Forall2 (reads modes) entries cs ->
  size (list_to_set (map ch_name cs) : gset string) = size modes <->
  forall name, is_Some (modes !! name) -> name ∈ map ch_name cs.
Proof.
  intros P. rewrite <- (size_dom modes). assert ((list_to_set (map ch_name cs) : gset string) ⊆ dom modes) as S.
  { intros n. rewrite elem_of_list_to_set, elem_of_dom. by apply (reads_mode _ entries). }
  split.
  - intros E n. rewrite <- elem_of_dom. pose proof (set_subseteq_size_eq _ _ S ltac:(lia)) as Eq.
    rewrite <- Eq. apply elem_of_list_to_set.
  - intros A. apply (f_equal size), set_eq. intros n. split; [apply S|]. rewrite elem_of_dom, elem_of_list_to_set. apply A.
Qed.
Lemma parse_facts numstat raw base revision excluded f :
  parseMaintenanceFootprint Quote environ numstat raw base revision excluded = (f, None) <->
  exists entries modes cs,
    footprintRecords numstat = Ok entries /\ footprintModes raw = Ok modes
    /\ Forall2 (reads modes) entries cs /\ NoDup (map ch_name cs)
    /\ (forall name, is_Some (modes !! name) -> name ∈ map ch_name cs)
    /\ lenN cs <= max_uint64 /\ total_lines cs <= max_uint64
    /\ f = footprint_of base revision excluded cs.
Proof.
  unfold parseMaintenanceFootprint. destruct (footprintRecords numstat) as [entries|]; [|split; [done|by intros (? & ? & ? & ? & _)]].
  destruct (footprintModes raw) as [modes|]; [|split; [done|by intros (? & ? & ? & _ & ? & _)]].
  pose proof (count_entries_ok modes excluded entries (mkCounting [] [] ∅ 0 0 true)) as K.
  destruct (count_entries _ _ _ _ _ _) as [st err].
  assert (forall cs, foldl (after_change excluded) (mkCounting [] [] ∅ 0 0 true) cs
    = mkCounting (map ch_name cs) (flat_map (change_reasons excluded) cs) (list_to_set (map ch_name cs)) (total_lines cs) (lenN cs)
        (forallb counted cs)) as Fold.
  { intros cs. rewrite fold_changes. cbn [c_paths c_reasons c_seen c_lines c_files c_countable app andb].
    by rewrite union_empty_r_L, !N.add_0_l. }
  split.
  - destruct err as [e|]; [done|]. destruct (proj1 (K st ltac:(done) ltac:(done)) eq_refl) as (cs & P & ND & _ & Fb & Lb & ->).
    rewrite Fold. cbn [c_paths c_reasons c_seen c_lines c_files c_countable].
    destruct (N.eqb_spec (N.of_nat (size (list_to_set (map ch_name cs) : gset string))) (N.of_nat (size modes))) as [E|]; [|done].
    cbn [negb]. intros [= <-]. exists entries, modes, cs. cbn [c_files c_lines] in Fb, Lb. rewrite N.add_0_l in Fb, Lb.
    split_and!; try done. apply (seen_all _ _ _ P). lia.
  - intros (? & ? & cs & [= <-] & [= <-] & P & ND & A & Fb & Lb & ->).
    assert ((st, err) = (foldl (after_change excluded) (mkCounting [] [] ∅ 0 0 true) cs, None)) as [= -> ->].
    { apply K; [done|done|]. exists cs. cbn [c_seen c_files c_lines]. rewrite !N.add_0_l.
      split_and!; try done. }
    rewrite Fold. cbn [c_paths c_reasons c_seen c_lines c_files c_countable].
    rewrite (proj2 (seen_all modes entries cs P) A), N.eqb_refl. done.
Qed.
Lemma parse_incomplete numstat raw base revision excluded :
  let '(f, err) := parseMaintenanceFootprint Quote environ numstat raw base revision excluded in
  MaintenanceFootprint_Complete f = true -> err = None.
Proof.
  unfold parseMaintenanceFootprint. destruct (footprintRecords numstat); [|done]. destruct (footprintModes raw); [|done].
  destruct (count_entries _ _ _ _ _ _) as [st [e|]]; [done|]. by destruct (negb _).
Qed.

(** What a footprint says is what git printed.  Parsing succeeds exactly
    when the two outputs describe the same set of paths, each once, with valid
    modes, and line counts that are numbers or marks of a binary file; then the
    footprint lists those paths, counts them, sums their lines without
    overflow when every one of them can be counted, and holds one reason for
    each thing a human must look at.  On any error the answer is incomplete. *)
Theorem parseMaintenanceFootprint_spec numstat raw base revision excluded :
  let '(f, err) := parseMaintenanceFootprint Quote environ numstat raw base revision excluded in
  (err = None <-> MaintenanceFootprint_Complete f = true)
  /\ (err = None <->
      exists entries modes cs,
        footprintRecords numstat = Ok entries /\ footprintModes raw = Ok modes
        /\ Forall2 (reads modes) entries cs /\ NoDup (map ch_name cs)
        /\ (forall name, is_Some (modes !! name) -> name ∈ map ch_name cs)
        /\ lenN cs <= max_uint64 /\ total_lines cs <= max_uint64
        /\ f = footprint_of base revision excluded cs).
Proof.
  pose proof (parse_incomplete numstat raw base revision excluded) as I.
  pose proof (parse_facts numstat raw base revision excluded) as P.
  destruct (parseMaintenanceFootprint _ _ _ _ _ _ _) as [f err]. specialize (P f).
  assert (err = None <-> (f, err) = (f, None)) as E by (split; [by intros ->|by intros [= ->]]).
  split; [|by rewrite E].
  split; [|done]. intros N. apply E, P in N as (entries & modes & cs & _ & _ & _ & _ & _ & _ & _ & ->). done.
Qed.

(** ** An authorized footprint *)

Lemma mode_reasons_none name before after :
  mode_reasons Quote environ name before after = [] ->
  regularFootprintMode before = true /\ regularFootprintMode after = true
  /\ (before = after \/ before <> "100755" /\ after <> "100755").
Proof.
  unfold mode_reasons. intros E. destruct (_ || _) eqn:R; [done|]. bool_hyps. split_and!; [done|done|].
  destruct (_ && _) eqn:X; [done|]. apply andb_false_iff in X as [X|X]; bool_hyps; [by left|by right].
Qed.
Lemma change_reasons_none excluded c :
  change_reasons excluded c = [] ->
  counted c = true /\ regularFootprintMode (ch_before c) = true /\ regularFootprintMode (ch_after c) = true
  /\ (ch_before c = ch_after c \/ ch_before c <> "100755" /\ ch_after c <> "100755")
  /\ ManualMergePath (ch_name c) excluded = false.
Proof.
  unfold change_reasons, counted, path_reasons. intros E. apply app_nil in E as [E1 E]. apply app_nil in E as [E2 E3].
  apply mode_reasons_none in E2 as (? & ? & ?). destruct (ch_counts c); [|done].
  destruct (ManualMergePath _ _); [done|]. by split_and!.
Qed.
(** A change no human needs to look at. *)
Record plain_change (excluded live_excluded : list string) (c : change) : Prop := {
  plain_counted : counted c = true;
  plain_modes : regularFootprintMode (ch_before c) = true /\ regularFootprintMode (ch_after c) = true;
  plain_executable : ch_before c = ch_after c \/ ch_before c <> "100755" /\ ch_after c <> "100755";
  plain_path : ManualMergePath (ch_name c) excluded = false /\ ManualMergePath (ch_name c) live_excluded = false;
}.

(** C40: what an automatic merge may change.  When the merge authority accepts
    the footprint parsed from git's output, git reported nothing but plain
    changes: every path it listed is a regular file whose executable bit did
    not change, that is not binary and that neither the frozen nor the live
    rules reserve for a human; and the lines and files it counted are within
    both the frozen and the live limits. *)
Theorem authorized_footprint_is_plain numstat raw base revision excluded t output live :
  footprint_within t output live (fst (parseMaintenanceFootprint Quote environ numstat raw base revision excluded)) = true ->
  base = Task_ComparisonBase t /\ revision = output
  /\ exists entries modes cs,
    footprintRecords numstat = Ok entries /\ footprintModes raw = Ok modes
    /\ Forall2 (reads modes) entries cs /\ (forall name, is_Some (modes !! name) -> name ∈ map ch_name cs)
    /\ Forall (plain_change excluded (Config_AutoMergeExcludedPaths live)) cs
    /\ 0 < lenN cs <= Config_AutoMergeMaxFiles live /\ lenN cs <= Config_AutoMergeMaxFiles (Task_Config t)
    /\ total_lines cs <= Config_AutoMergeMaxLines live /\ total_lines cs <= Config_AutoMergeMaxLines (Task_Config t).
Proof.
  rewrite footprint_within_spec. intros [Fc Fb Fr Fm Fp (lines & El & Hl) (files & Ef & Hf)].
  pose proof (parse_incomplete numstat raw base revision excluded) as I.
  pose proof (parse_facts numstat raw base revision excluded) as P.
  destruct (parseMaintenanceFootprint _ _ _ _ _ _ _) as [f err]. cbn [fst] in *. rewrite (I Fc) in P.
  destruct (proj1 (P f) eq_refl) as (entries & modes & cs & E1 & E2 & F & ND & A & Lf & Ll & ->). clear P I.
  cbn in Fb, Fr, Fm, Fp, El, Ef. split_and!; [done|done|].
  destruct (forallb counted cs) eqn:C; [|done]. injection El as <-. injection Ef as <-.
  exists entries, modes, cs. split_and!; try done; try lia.
  apply Forall_forall. intros c Ic.
  assert (change_reasons excluded c = []) as R.
  { apply elem_of_nil_inv. intros r Ir. assert (r ∈ flat_map (change_reasons excluded) cs) as J; [|by rewrite Fm in J; apply elem_of_nil in J].
    rewrite list_elem_of_In, in_flat_map. exists c. by rewrite <- !list_elem_of_In. }
  apply change_reasons_none in R as (? & ? & ? & ? & ?). constructor; try done. split; [done|].
  apply Fp, elem_of_map. by exists c.
Qed.

(** The counts a forge reports are within the limits only when their sum, which
    the code never lets wrap, is. *)
Lemma RemoteFootprintWithin_spec additions deletions files saved live :
  additions <= max_uint64 -> deletions <= max_uint64 ->
  let '(maxLines, maxFiles) := AutoMergeLimits saved live in
  maxLines <= max_uint64 ->
  RemoteFootprintWithin additions deletions files saved live = true <->
  0 < maxLines /\ 0 < files <= maxFiles /\ additions + deletions <= maxLines.
Proof.
  intros A D. unfold RemoteFootprintWithin. destruct (AutoMergeLimits saved live) as [ml mf]. intros M.
  rewrite !andb_true_iff, !N.ltb_lt, !N.leb_le. unfold max_uint64 in *. split.
  - intros [[[[[? ?] ?] ?] B] S]. rewrite u64_add_small in S by (unfold two64; lia). lia.
  - intros (? & ? & ?). rewrite u64_add_small by (unfold two64; lia). lia.
Qed.
End footprint_facts.

Definition plain_numstat : string := rec ("3" +:+ str [ascii_of_N 9] +:+ "1" +:+ str [ascii_of_N 9] +:+ "pkg/a b.go").
Definition plain_raw : string := rec ":100644 100644 89abcde 1234567 M" +:+ rec "pkg/a b.go".
Definition maintained_task : Task := (sample_task "t-1") <| Task_ComparisonBase := "base" |>.
Lemma authorized_footprint_is_plain_witness :
  footprint_within maintained_task "rev" sample_config
    (fst (parseMaintenanceFootprint id [] plain_numstat plain_raw "base" "rev" [])) = true
  /\ exists cs : list change, lenN cs <= 10 /\ total_lines cs <= 500.
Proof.
  split; [vm_compute; reflexivity|].
  destruct (authorized_footprint_is_plain id [] plain_numstat plain_raw "base" "rev" [] maintained_task "rev" sample_config)
    as (_ & _ & _ & _ & cs & _ & _ & _ & _ & _ & (_ & F) & _ & L & _); [vm_compute; reflexivity|].
  exists cs. split; [exact F|exact L].
Defined.
