(* ===== verification/PlanningOrder.v ===== *)
(** * The order of planning turns ([internal/engine/planning_order.go])

    Planning checks run concurrently, and each waits its turn before it claims
    capacity.  A turn is its index in the order of [enqueue]; the mutex makes
    each operation one step, so an execution is a sequence of operations, in
    any interleaving.  [closed ready] is the turn's notification. *)
From S2P Require Import Prelude GoStrings WireJson Enums GoErrors.
Local Open Scope list_scope.
Local Open Scope nat_scope.

Record planningTurn := mkTurn { finished : bool; notified : bool }.
Record planningOrder := mkOrder { turns : list planningTurn; pending : list nat }.

(** [enqueue] on a non-nil order: the order and the turn. *)
Definition enqueue (o : planningOrder) : planningOrder * nat :=
  let turn := List.length (turns o) in
  let pending := pending o ++ [turn] in
  (mkOrder (turns o ++ [mkTurn false (List.length pending =? 1)]) pending, turn).

Definition is_finished (ts : list planningTurn) (t : nat) : bool :=
  match ts !! t with Some turn => finished turn | None => false end.
(** The loop that removes finished turns from the front. *)
Fixpoint remove_finished (ts : list planningTurn) (pending : list nat) : list nat :=
  match pending with
  | t :: rest => if is_finished ts t then remove_finished ts rest else pending
  | [] => []
  end.
Definition finish (turn : planningTurn) : planningTurn := mkTurn true (notified turn).
(** Closing a channel twice panics: only a turn not yet notified is. *)
Definition notify (turn : planningTurn) : planningTurn :=
  if negb (notified turn) then mkTurn (finished turn) true else turn.
(** [release] on a non-nil turn. *)
Definition release (t : nat) (o : planningOrder) : planningOrder :=
  let ts := alter finish t (turns o) in
  let pending := remove_finished ts (pending o) in
  match pending with
  | head :: _ => mkOrder (alter notify head ts) pending
  | [] => mkOrder ts pending
  end.
(** [wait]: [None] while it blocks; [ctx] is the context's error, if it is
    done.  Both cases of the select answer that error. *)
Definition wait (ctx : option error) (t : option nat) (o : planningOrder) : option (option error) :=
  match t with
  | None => Some ctx
  | Some t =>
    match ctx, turns o !! t with
    | Some e, _ => Some (Some e)
    | None, Some turn => if notified turn then Some None else None
    | None, None => None
    end
  end.

(** ** Executions *)

Inductive op := Enqueue | Release (t : nat).
Definition run_op (o : planningOrder) (x : op) : planningOrder :=
  match x with Enqueue => fst (enqueue o) | Release t => release t o end.
Definition run (ops : list op) : planningOrder := foldl run_op (mkOrder [] []) ops.

Example turns_ok :
  map (fun t => wait None (Some t) (run [Enqueue; Enqueue; Enqueue; Release 1; Release 0])) [0; 1; 2]
  = [Some None; None; Some None].
Proof. reflexivity. Qed.

(** ** The invariant

    The pending turns are the last ones, in order, from the first unfinished
    turn on; only that one, of them, is notified. *)
Definition first_pending (o : planningOrder) : nat := List.length (turns o) - List.length (pending o).
Record order_inv (o : planningOrder) : Prop := {
  inv_pending : pending o = seq (first_pending o) (List.length (turns o) - first_pending o);
  inv_size : List.length (pending o) <= List.length (turns o);
  inv_before : forall t turn, turns o !! t = Some turn -> t < first_pending o -> finished turn = true;
  inv_head : forall turn, turns o !! first_pending o = Some turn -> finished turn = false /\ notified turn = true;
  inv_after : forall t turn, turns o !! t = Some turn -> first_pending o < t -> notified turn = false }.

Lemma remove_finished_suffix ts p : exists k, k <= List.length p /\ remove_finished ts p = drop k p
  /\ (forall i t, i < k -> p !! i = Some t -> is_finished ts t = true)
  /\ (forall t, p !! k = Some t -> is_finished ts t = false).
Proof.
  induction p as [|t p (k & L & E & B & H)]; cbn [remove_finished]; [exists 0; split_and!; done || (intros; lia)|].
  destruct (is_finished ts t) eqn:F.
  - exists (S k). cbn [List.length drop]. split_and!; [lia|done| |done].
    intros [|i] u I E'; [by injection E' as <-|]. apply (B i); [lia|done].
  - exists 0. rewrite drop_0. split_and!; [lia|done|intros; lia|]. by intros u [= <-].
Qed.
Lemma enqueue_inv o : order_inv o -> order_inv (fst (enqueue o)).
Proof.
  intros [P Sz B H A]. unfold enqueue. cbn [fst].
  set (turn := mkTurn _ _). set (o' := mkOrder _ _).
  assert (first_pending o' = first_pending o) as F by (unfold first_pending, o'; cbn; rewrite !length_app; simpl; lia).
  assert (first_pending o <= List.length (turns o)) by (unfold first_pending; lia).
  assert (List.length (turns o') = S (List.length (turns o))) as L by (unfold o'; cbn; rewrite length_app; simpl; lia).
  assert (forall t u, turns o' !! t = Some u -> turns o !! t = Some u \/ t = List.length (turns o) /\ u = turn) as Lk.
  { intros t u. cbn. rewrite lookup_app_Some. intros [?|[? E]]; [by left|right].
    destruct (t - List.length (turns o)) as [|k] eqn:K; [|done]. injection E as <-. split; [lia|done]. }
  constructor; rewrite ?F.
  - rewrite L. cbn [pending o']. rewrite P at 1.
    replace (S _ - _) with (S (List.length (turns o) - first_pending o)) by lia.
    rewrite seq_S. do 2 f_equal. lia.
  - cbn. rewrite !length_app. simpl. lia.
  - intros t u E T. apply Lk in E as [E|[-> ->]]; [by eapply B|lia].
  - intros u E. apply Lk in E as [E|[K ->]]; [by apply H|]. split; [done|]. cbn. apply Nat.eqb_eq. rewrite length_app. simpl.
    unfold first_pending in K. lia.
  - intros t u E T. apply Lk in E as [E|[-> ->]]; [by eapply A|]. cbn. apply Nat.eqb_neq. rewrite length_app. simpl.
    unfold first_pending in T. lia.
Qed.
Lemma finish_lookup t (ts : list planningTurn) i u : alter finish t ts !! i = Some u ->
  exists v, ts !! i = Some v /\ notified u = notified v /\ (finished v = true -> finished u = true)
       /\ (i <> t -> u = v) /\ (i = t -> finished u = true).
Proof.
  destruct (decide (t = i)) as [->|N].
  - rewrite list_lookup_alter_eq. destruct (ts !! i) as [v|]; [|done]. intros [= <-]. by exists v.
  - rewrite list_lookup_alter_ne by done. intros ->. by exists u.
Qed.
Lemma release_inv t o : order_inv o -> order_inv (release t o).
Proof.
  intros [P Sz B H A]. unfold release. set (ts := alter finish t (turns o)).
  assert (List.length ts = List.length (turns o)) as L by apply length_alter.
  destruct (remove_finished_suffix ts (pending o)) as (k & K & E & Bk & Hk).
  set (f := first_pending o). assert (f + List.length (pending o) = List.length (turns o)) as Fl by (unfold f, first_pending; lia).
  assert (remove_finished ts (pending o) = seq (f + k) (List.length (turns o) - (f + k))) as E'.
  { rewrite E, P. fold f. rewrite drop_seq. f_equal. lia. }
  assert (forall i, i < List.length (pending o) -> pending o !! i = Some (f + i)) as Pi.
  { intros i I. rewrite P. fold f. apply lookup_seq. lia. }
  assert (forall i u, ts !! i = Some u -> i < f + k -> finished u = true) as Before.
  { intros i u U I. destruct (decide (i < f)).
    - destruct (finish_lookup _ _ _ _ U) as (v & V & _ & M & _). apply M. by eapply B.
    - specialize (Bk (i - f) i ltac:(lia)). rewrite Pi in Bk by lia. specialize (Bk ltac:(f_equal; lia)).
      unfold is_finished in Bk. by rewrite U in Bk. }
  assert (forall i u, ts !! i = Some u -> f + k < i -> notified u = false) as After.
  { intros i u U I. destruct (finish_lookup _ _ _ _ U) as (v & V & -> & _). eapply A; [exact V|]. fold f. lia. }
  assert (forall o', List.length (turns o') = List.length (turns o) -> pending o' = remove_finished ts (pending o) ->
    first_pending o' = f + k) as Fp.
  { intros o' L' P'. unfold first_pending. rewrite L', P', E, length_drop. lia. }
  destruct (remove_finished ts (pending o)) as [|hd rest] eqn:R.
  - set (o' := mkOrder ts []). assert (first_pending o' = f + k) as F by by apply Fp.
    assert (f + k = List.length (turns o)) as Z by (apply (f_equal List.length) in E'; rewrite length_seq in E'; simpl in E'; lia).
    constructor; rewrite ?F.
    + cbn [turns o']. by rewrite L, Z, Nat.sub_diag.
    + cbn. lia.
    + exact Before.
    + cbn [turns o']. intros u U. apply lookup_lt_Some in U. lia.
    + exact After.
  - set (o' := mkOrder (alter notify hd ts) (hd :: rest)).
    assert (first_pending o' = f + k) as F by (apply Fp; [cbn; by rewrite length_alter|done]).
    assert (hd = f + k /\ f + k < List.length (turns o)) as [-> Z].
    { destruct (List.length (turns o) - (f + k)) eqn:D; cbn [seq] in E'; [done|]. injection E' as -> ->. split; [done|lia]. }
    assert (forall i u, turns o' !! i = Some u -> i <> f + k -> ts !! i = Some u) as Ne.
    { intros i u U I. cbn in U. by rewrite list_lookup_alter_ne in U. }
    constructor; rewrite ?F.
    + cbn [turns pending o']. rewrite length_alter, L. exact E'.
    + cbn [turns pending o']. rewrite length_alter, L, E', length_seq. lia.
    + intros i u U I. apply (Before i); [|done]. apply Ne; [done|lia].
    + intros u U. cbn in U. rewrite list_lookup_alter_eq in U. destruct (ts !! (f + k)) as [v|] eqn:V; [|done]. injection U as <-.
      specialize (Hk (f + k)). rewrite Pi in Hk by lia. specialize (Hk eq_refl). unfold is_finished in Hk. rewrite V in Hk.
      unfold notify. by destruct (notified v) eqn:Nv.
    + intros i u U I. apply (After i); [|done]. apply Ne; [done|lia].
Qed.
Lemma run_inv ops : order_inv (run ops).
Proof.
  unfold run. assert (order_inv (mkOrder [] [])) as I by (constructor; cbn; done || lia).
  revert I. generalize (mkOrder [] []). induction ops as [|x ops IH]; intros o I; cbn [foldl]; [done|].
  apply IH. destruct x; [by apply enqueue_inv|by apply release_inv].
Qed.

(** Planning turns are granted in the order they were asked for, and none
    is lost.  After any operations, in any interleaving and with turns released
    early, late or twice, a live caller that has not finished its turn stops
    waiting exactly when every earlier turn has finished; so at most one
    unfinished turn is ever granted at a time, and the first unfinished one
    always is. *)
Theorem turns_in_order ops t turn :
  let o := run ops in
  turns o !! t = Some turn -> finished turn = false ->
  (wait None (Some t) o = Some None <->
   forall t' turn', t' < t -> turns o !! t' = Some turn' -> finished turn' = true).
Proof.
  intros o E F. destruct (run_inv ops : order_inv o) as [P Sz B H A]. unfold wait. rewrite E.
  assert (first_pending o <= t) as L.
  { destruct (decide (t < first_pending o)) as [l|]; [|lia]. pose proof (B _ _ E l). congruence. }
  destruct (decide (t = first_pending o)) as [->|N].
  - destruct (H _ E) as [_ ->]. split; [|done]. intros _ t' u T U. by eapply B.
  - rewrite (A _ _ E) by lia. split; [done|]. intros C.
    destruct (lookup_lt_is_Some_2 (turns o) (first_pending o)) as [u U]; [apply lookup_lt_Some in E; lia|].
    destruct (H _ U) as [Fu _]. rewrite (C (first_pending o) u) in Fu; [done|lia|done].
Qed.
Lemma turns_in_order_witness :
  wait None (Some 2) (run [Enqueue; Enqueue; Enqueue; Release 1; Release 0]) = Some None.
Proof.
  apply (turns_in_order [Enqueue; Enqueue; Enqueue; Release 1; Release 0] 2 (mkTurn false true) eq_refl eq_refl).
  intros [|[|t']] turn' L E; [by injection E as <-|by injection E as <-|lia].
Defined.
