(* ===== verification/Broker.v ===== *)
(** * The sandbox broker's requests ([internal/sandbox/broker/validate.go], [spec.go])

    What a request to the broker may ask for, how its directory is resolved to
    an owned root below the data directory, and the container built for it.
    [os.Lstat] is the parameter [Lstat]; [fs.ErrNotExist] is an error whose
    sentinel is recognised by [error_is].  [fixtureMounts] is nil in production
    builds and set by a build tag of the integration tests. *)
From stdpp Require Import pretty.
From S2P Require Import Prelude GoStrings Utf8 GoErrors Config Paths Wire EgressPolicy Runes Regex RegexLang.
Local Open Scope string_scope.
Local Open Scope list_scope.
Local Open Scope N_scope.

(** ** The wire contract ([internal/sandbox/wire/wire.go]) *)

Definition InitFlag := "--sandbox-init".
Record Request := mkRequest {
  Request_Kind : string; Request_Dir : string; Request_Runner : string; Request_Mode : string;
  Request_Command : string; Request_Env : list string; Request_Stdin : bool; Request_FreshHome : bool;
  Request_Timeout : N; Request_Readiness : N }.
#[export] Instance eta_Request : Eta Request := fun r =>
  mkRequest (Request_Kind r) (Request_Dir r) (Request_Runner r) (Request_Mode r) (Request_Command r) (Request_Env r) (Request_Stdin r) (Request_FreshHome r) (Request_Timeout r) (Request_Readiness r).
Definition RunnerModeStdio := "stdio".
Definition RunnerModeOpenCode := "opencode".
Definition ProbeVersions := "versions".
Definition ProbeContainment := "containment".
Definition RunnerCodex := "codex".
Definition RunnerOpenCode := "opencode".
Definition RunnerArgs (name : string) : list string :=
  if bool_decide (name = RunnerCodex) then ["app-server"; "--listen"; "stdio://"] else
  if bool_decide (name = RunnerOpenCode) then ["serve"; "--hostname"; "127.0.0.1"; "--port"; "0"] else [].
Definition VerifyProgram (command : string) : string * list string :=
  ("bash", ["-o"; "pipefail"; "-c"; command]).
Definition WorkspaceDir := "workspace".
(** Home and volume directories. *)
Definition RunnerHomeDirs : list (string * string) :=
  [(".codex", "codex"); (".local/share/opencode", "opencode/data"); (".config/opencode", "opencode/config");
   (".cache/opencode", "opencode/cache"); (".local/state/opencode", "opencode/state")].
Definition RunnerHome := "home".
Definition VerifyHome := "verify-home".
Definition HomeDirs (kind : string) : list string :=
  if bool_decide (kind = KindRunner)
  then RunnerHome :: map (fun dir => JoinPath [RunnerHome; fst dir]) RunnerHomeDirs else
  if bool_decide (kind = KindVerify) then [VerifyHome] else [].
(** [workspace.GitDirName]. *)
Definition GitDirName := "repo.git".

(** ** Patterns *)

Definition hex_lower : N -> bool := ors [decimal; in_range 97 102].
Definition hex_upper : N -> bool := ors [decimal; in_range 65 70].
Definition slug_first : N -> bool := ors [upper_letter; lower_letter; decimal; one_of "_-"].
Definition slug_char : N -> bool := ors [upper_letter; lower_letter; decimal; one_of "._-"].
Definition uuidPattern : re :=
  Cats [Rep 8 (Cls hex_lower); Lit "-"; Rep 4 (Cls hex_lower); Lit "-"; Rep 4 (Cls hex_lower); Lit "-";
        Rep 4 (Cls hex_lower); Lit "-"; Rep 12 (Cls hex_lower)].
Definition slugPattern : re :=
  Cats [Cls slug_first; Star (Alt (Cls slug_char) (Cats [Lit "%"; Cls hex_upper; Cls hex_upper]))].
Definition reposPattern : re := Opt (Cats [Lit "repos/"; slugPattern; Lit "/"]).
Definition stagePattern : re :=
  Alts [Lit "grounding"; Lit "consolidation"; Cats [Lit "adversary-"; Cls (in_range 97 98)];
        Cats [Lit "discovery-"; Cls decimal; UpTo 1 (Cls decimal)]].
Definition rootPattern : re :=
  anchored (Cats [reposPattern;
    Alts [Cats [Lit "tasks/"; uuidPattern; Opt (Lit "/verify")];
          Cats [Lit "cycles/"; uuidPattern; Lit "/"; stagePattern];
          Cats [Lit "baselines/"; uuidPattern];
          Cats [Lit "system/"; uuidPattern]]]).
Definition scratchPattern : re := anchored (Cats [reposPattern; Lit "system/"; uuidPattern]).
Definition env_char : N -> bool := ors [upper_letter; decimal; one_of "_"].
Definition envKeyPattern : re :=
  anchored (Cats [Lit "OPENCODE_"; Cls env_char; UpTo 63 (Cls env_char)]).
Definition maxCommand : N := 4096.
Definition maxEnvBytes : N := 262144.

(** ** Plans *)

(** Every setting but the log writer. *)
Record BrokerConfig := mkBrokerConfig {
  BrokerConfig_Socket : string; BrokerConfig_DockerSocket : string; BrokerConfig_Image : string;
  BrokerConfig_DataDir : string; BrokerConfig_DataVolume : string; BrokerConfig_RunnerVolume : string;
  BrokerConfig_RunnerDir : string; BrokerConfig_ToolsVolume : string; BrokerConfig_ToolsDir : string;
  BrokerConfig_CAFile : string; BrokerConfig_RunnerNetwork : string; BrokerConfig_VerifyNetwork : string;
  BrokerConfig_Instance : string; BrokerConfig_UID : Z; BrokerConfig_GID : Z; BrokerConfig_ClientUID : Z;
  BrokerConfig_NanoCPUs : Z; BrokerConfig_Memory : Z; BrokerConfig_Pids : Z; BrokerConfig_Tmpfs : Z;
  BrokerConfig_Max : Z; BrokerConfig_MaxSeconds : N; BrokerConfig_Runtime : string;
  BrokerConfig_EgressProxy : string; BrokerConfig_LeaseDir : string; BrokerConfig_EgressCollector : string }.
#[export] Instance eta_BrokerConfig : Eta BrokerConfig := fun r =>
  mkBrokerConfig (BrokerConfig_Socket r) (BrokerConfig_DockerSocket r) (BrokerConfig_Image r) (BrokerConfig_DataDir r)
    (BrokerConfig_DataVolume r) (BrokerConfig_RunnerVolume r) (BrokerConfig_RunnerDir r)
    (BrokerConfig_ToolsVolume r) (BrokerConfig_ToolsDir r) (BrokerConfig_CAFile r)
    (BrokerConfig_RunnerNetwork r) (BrokerConfig_VerifyNetwork r) (BrokerConfig_Instance r)
    (BrokerConfig_UID r) (BrokerConfig_GID r) (BrokerConfig_ClientUID r) (BrokerConfig_NanoCPUs r)
    (BrokerConfig_Memory r) (BrokerConfig_Pids r) (BrokerConfig_Tmpfs r) (BrokerConfig_Max r)
    (BrokerConfig_MaxSeconds r) (BrokerConfig_Runtime r) (BrokerConfig_EgressProxy r)
    (BrokerConfig_LeaseDir r) (BrokerConfig_EgressCollector r).
Record Plan := mkPlan {
  Plan_kind : string; Plan_dir : string; Plan_root : string; Plan_rel : string; Plan_scratch : bool;
  Plan_runner : string; Plan_mode : string; Plan_probe : string; Plan_command : string;
  Plan_env : list string; Plan_stdin : bool; Plan_timeout : Z; Plan_readiness : N; Plan_image : string }.
#[export] Instance eta_Plan : Eta Plan := fun r =>
  mkPlan (Plan_kind r) (Plan_dir r) (Plan_root r) (Plan_rel r) (Plan_scratch r) (Plan_runner r) (Plan_mode r) (Plan_probe r) (Plan_command r) (Plan_env r) (Plan_stdin r) (Plan_timeout r) (Plan_readiness r) (Plan_image r).
Definition empty_plan : Plan := mkPlan "" "" "" "" false "" "" "" "" [] false 0 0 "".

(** [fs.FileInfo]: the mode bits and the owner, when the file system has one. *)
Record FileInfo := mkFileInfo { Mode : N; Uid : option Z }.
Definition ModeDir : N := 2147483648.
Definition ModeSymlink : N := 134217728.
(** [ModeDir | ModeSymlink | ModeNamedPipe | ModeSocket | ModeDevice | ModeCharDevice | ModeIrregular] *)
Definition ModeType : N :=
  ModeDir + ModeSymlink + 33554432 + 16777216 + 67108864 + 2097152 + 524288.
Definition IsDir (info : FileInfo) : bool := negb (N.land (Mode info) ModeDir =? 0).
Definition IsRegular (info : FileInfo) : bool := N.land (Mode info) ModeType =? 0.

Section broker.
Context (Lstat : string -> result FileInfo error) (c : BrokerConfig).

Definition ownedEntry (rel : string) (info : FileInfo) (wantDir : bool) : result unit error :=
  let '(plain, what) := if wantDir then (IsDir info, "directory") else (IsRegular info, "file") in
  guard negb (negb (N.land (Mode info) ModeSymlink =? 0) || negb plain)
    else Errorf "Sandbox root component %s is not a plain %s" [VStr rel; VStr what];
  guard match Uid info with Some uid => bool_decide (uid = BrokerConfig_UID c) | None => true end
    else Errorf "Sandbox root component %s is not owned by the sandbox user" [VStr rel];
  Ok tt.
(** The error of a failed [Lstat], told apart by [errors.Is(err, fs.ErrNotExist)]. *)
Definition lstat_error (rel : string) (err : error) : error :=
  if error_is "file does not exist" err then Errorf "Sandbox root is incomplete: %s is missing" [VStr rel] else err.
Fixpoint owned_parts (rel current : string) (parts : list string) : result unit error :=
  match parts with
  | [] => Ok tt
  | part :: parts =>
    let current := JoinPath [current; part] in
    match Lstat current with
    | Err err => Err (lstat_error rel err)
    | Ok info =>
      let! _ := ownedEntry rel info true in
      owned_parts rel current parts
    end
  end.
Definition ownedDirectory (rel : string) : result unit error :=
  owned_parts rel (BrokerConfig_DataDir c) (Split rel slash).
Definition ownedFile (rel : string) : result unit error :=
  let! _ := ownedDirectory (Dir rel) in
  match Lstat (JoinPath [BrokerConfig_DataDir c; rel]) with
  | Err err => Err (lstat_error rel err)
  | Ok info => ownedEntry rel info false
  end.

Fixpoint each_owned (paths : list string) : result unit error :=
  match paths with
  | [] => Ok tt
  | path :: paths => let! _ := ownedDirectory path in each_owned paths
  end.
Definition required_dirs (p : Plan) : list string :=
  [JoinPath [Plan_rel p; WorkspaceDir]]
  ++ (if Plan_scratch p then [] else [JoinPath [Plan_rel p; GitDirName]])
  ++ map (fun dir => JoinPath [Plan_rel p; dir]) (HomeDirs (Plan_kind p)).
Definition resolveRoot (p : Plan) (dir : string) : result Plan error :=
  guard IsAbs dir && bool_decide (Clean dir = dir) && bool_decide (Base dir = WorkspaceDir)
    else New "Sandbox directory must be an owned root's workspace";
  let root := Dir dir in
  match Rel (BrokerConfig_DataDir c) root with
  | None => Err (New "Sandbox directory is not an owned root under the data directory")
  | Some rel =>
    guard MatchString rootPattern rel else New "Sandbox directory is not an owned root under the data directory";
    let p := p <| Plan_dir := dir |> <| Plan_root := root |> <| Plan_rel := rel |>
               <| Plan_scratch := MatchString scratchPattern rel |> in
    let! _ := each_owned (required_dirs p) in
    if negb (Plan_scratch p)
    then let! _ := ownedFile (JoinPath [rel; WorkspaceDir; ".git"]) in Ok p
    else Ok p
  end.

Definition nul : ascii := ascii_of_N 0.
Definition has_nul (s : string) : bool := bool_decide (nul ∈ chars s).
Fixpoint env_size (size : N) (env : list string) : result N error :=
  match env with
  | [] => Ok size
  | entry :: env =>
    let '(key, _, ok) := Cut entry "="%char in
    guard negb (negb ok || negb (MatchString envKeyPattern key) || has_nul entry)
      else New "Runner environment may only set OPENCODE_ variables";
    env_size (size + slen entry) env
  end.
Definition runner_of (req : Request) (p : Plan) : result Plan error :=
  if bool_decide (Request_Runner req = RunnerCodex) then
    guard bool_decide (Request_Mode req = RunnerModeStdio) else New "Codex runs only over stdio";
    Ok p
  else if bool_decide (Request_Runner req = RunnerOpenCode) then
    guard bool_decide (Request_Mode req = RunnerModeOpenCode) else New "OpenCode runs only behind the sandbox HTTP bridge";
    guard negb ((Request_Readiness req =? 0) || (600 <? Request_Readiness req))
      else New "OpenCode readiness must be 1 to 600 seconds";
    Ok (p <| Plan_stdin := true |>)
  else Err (New "Unknown runner").
Definition plan_kind (req : Request) (p : Plan) : result Plan error :=
  if bool_decide (Request_Kind req = KindRunner) then
    let p := p <| Plan_kind := KindRunner |> in
    let! p := runner_of req p in
    let p := p <| Plan_runner := Request_Runner req |> <| Plan_mode := Request_Mode req |> in
    let! size := env_size 0 (Request_Env req) in
    guard negb (maxEnvBytes <? size) else New "Runner environment is too large";
    Ok (p <| Plan_env := Request_Env req |>)
  else if bool_decide (Request_Kind req = KindVerify) then
    let p := p <| Plan_kind := KindVerify |> in
    guard negb (bool_decide (Request_Command req = "") || (maxCommand <? slen (Request_Command req))
                || has_nul (Request_Command req))
      else New "Verification command must be 1 to 4096 bytes without NUL";
    guard negb ((0 <? lenN (Request_Env req)) || Request_Stdin req)
      else New "Verification sandboxes take no environment or stdin";
    Ok (p <| Plan_command := Request_Command req |>)
  else if bool_decide (Request_Kind req = KindProbe) then
    let p := p <| Plan_kind := KindProbe |> in
    guard negb (negb (bool_decide (Request_Dir req = "")) || (0 <? lenN (Request_Env req)) || Request_Stdin req)
      else New "Probe sandboxes mount nothing and take no input";
    guard bool_decide (Request_Mode req = ProbeVersions) || bool_decide (Request_Mode req = ProbeContainment)
      else New "Unknown probe";
    Ok (p <| Plan_probe := Request_Mode req |>)
  else Err (New "Unknown sandbox kind").

(** [time.Duration(seconds) * time.Second], at the width of [int64]. *)
Definition seconds_duration (seconds : N) : Z := int64 (int64 (Z.of_N seconds) * 1000000000).
Definition plan (req : Request) : result Plan error :=
  let p := empty_plan <| Plan_stdin := Request_Stdin req |> <| Plan_readiness := Request_Readiness req |> in
  let! p := plan_kind req p in
  let seconds := BrokerConfig_MaxSeconds c in
  guard negb (negb (bool_decide (Plan_kind p = KindProbe)) && (seconds <? Request_Timeout req))
    else Errorf "Requested timeout of %d seconds exceeds sandbox hard limit of %d seconds"
           [VNum (Request_Timeout req); VNum seconds];
  let seconds := if (0 <? Request_Timeout req) && (Request_Timeout req <? seconds) then Request_Timeout req else seconds in
  let p := p <| Plan_timeout := seconds_duration seconds |> in
  if bool_decide (Plan_kind p = KindProbe) then Ok p else
  resolveRoot p (Request_Dir req).
End broker.

(** ** The container of a plan ([spec.go]) *)

Definition sandboxHome := "/home/octomus".
Definition toolsMount := "/opt/octomus".
Definition toolsBinary := toolsMount +:+ "/octomus-agent".
Definition toolsGitConfig := toolsMount +:+ "/gitconfig".
Definition toolsCAFile := toolsMount +:+ "/ca-certificates.pem".
Definition instanceLabel := "octomus.sandbox.instance".
Definition kindLabel := "octomus.sandbox.kind".
Definition rootLabel := "octomus.sandbox.root".

Record VolumeOptions := mkVolumeOptions { NoCopy : bool; Subpath : string }.
Record Mount := mkMount {
  Mount_Type : string; Mount_Source : string; Mount_Target : string; Mount_ReadOnly : bool;
  Mount_VolumeOptions : option VolumeOptions }.
Record hostConfig := mkHostConfig {
  Init : bool; Privileged : bool; ReadonlyRootfs : bool; CapDrop : list string; CapAdd : list string;
  SecurityOpt : list string; NetworkMode : string; IpcMode : string; PidMode : string; UTSMode : string;
  UsernsMode : string; CgroupnsMode : string; PidsLimit : Z; Memory : Z; MemorySwap : Z; NanoCPUs : Z;
  OomScoreAdj : Z; ShmSize : Z; Tmpfs : gmap string string; Mounts : list Mount; Binds : list string;
  Devices : list string; Runtime : string; AutoRemove : bool; LogConfig : string; RestartPolicy : string }.
Record ContainerConfig := mkContainerConfig {
  Image : string; User : string; Entrypoint : list string; Cmd : list string; WorkingDir : string;
  Env : list string; Labels : gmap string string; AttachStdin : bool; AttachStdout : bool; AttachStderr : bool;
  OpenStdin : bool; StdinOnce : bool; Tty : bool; StopSignal : string; HostConfig : hostConfig }.

Section container.
Context (fixtureMounts : option (Plan -> list Mount * list string)) (c : BrokerConfig).

Definition program (p : Plan) : list string * list string :=
  if bool_decide (Plan_kind p = KindRunner) then
    let args := RunnerArgs (Plan_runner p) in
    if bool_decide (Plan_mode p = RunnerModeOpenCode)
    then ([toolsBinary; InitFlag; RunnerModeOpenCode; FormatUint (Plan_readiness p); "--"; Plan_runner p], args)
    else ([Plan_runner p], args)
  else if bool_decide (Plan_kind p = KindVerify) then
    let '(program, args) := VerifyProgram (Plan_command p) in ([program], args)
  else ([toolsBinary; InitFlag; Plan_probe p], []).

(** The function literal [data]. *)
Definition data_mount (rel target : string) (readOnly : bool) : Mount :=
  mkMount "volume" (BrokerConfig_DataVolume c) target readOnly (Some (mkVolumeOptions true rel)).
Definition mounts (p : Plan) : list Mount :=
  let tools := mkMount "volume" (BrokerConfig_ToolsVolume c) toolsMount true (Some (mkVolumeOptions true "")) in
  if bool_decide (Plan_kind p = KindProbe) then [tools] else
  [tools; data_mount (JoinPath [Plan_rel p; WorkspaceDir]) (Plan_dir p) false]
  ++ (if negb (Plan_scratch p) then
        [data_mount (JoinPath [Plan_rel p; GitDirName]) (JoinPath [Plan_root p; GitDirName]) true;
         data_mount (JoinPath [Plan_rel p; WorkspaceDir; ".git"]) (JoinPath [Plan_dir p; ".git"]) true]
      else [])
  ++ (if bool_decide (Plan_kind p = KindRunner) then
        data_mount (JoinPath [Plan_rel p; RunnerHome]) sandboxHome false
        :: map (fun dir => mkMount "volume" (BrokerConfig_RunnerVolume c) (JoinPath [sandboxHome; fst dir]) false
                             (Some (mkVolumeOptions true (snd dir)))) RunnerHomeDirs
      else if bool_decide (Plan_kind p = KindVerify) then
        [data_mount (JoinPath [Plan_rel p; VerifyHome]) sandboxHome false]
      else []).

Definition container (p : Plan) (extraEnv : list string) : ContainerConfig :=
  let user := pretty (BrokerConfig_UID c) +:+ ":" +:+ pretty (BrokerConfig_GID c) in
  let '(entrypoint, cmd) := program p in
  let workdir := if bool_decide (Plan_kind p = KindProbe) then "/tmp" else Plan_dir p in
  let env := ["HOME=" +:+ sandboxHome; "USER=octomus"; "LANG=C.UTF-8"; "TMPDIR=/tmp";
              "GIT_TERMINAL_PROMPT=0"; "GIT_OPTIONAL_LOCKS=0"]
    ++ (if bool_decide (Plan_kind p = KindRunner) then
          ("GIT_CONFIG_GLOBAL=" +:+ toolsGitConfig)
          :: (if negb (bool_decide (BrokerConfig_CAFile c = ""))
              then ["SSL_CERT_FILE=" +:+ toolsCAFile; "NODE_EXTRA_CA_CERTS=" +:+ toolsCAFile] else [])
        else [])
    ++ extraEnv ++ Plan_env p in
  let '(fixture, fixtureEnv) := match fixtureMounts with Some f => f p | None => ([], []) end in
  let tmp := "rw,exec,nosuid,nodev,size=" +:+ pretty (BrokerConfig_Tmpfs c) in
  let network :=
    if bool_decide (Plan_kind p = KindRunner) then BrokerConfig_RunnerNetwork c else
    if bool_decide (Plan_kind p = KindVerify) then BrokerConfig_VerifyNetwork c else
    if bool_decide (Plan_kind p = KindProbe) && bool_decide (Plan_probe p = ProbeContainment)
    then BrokerConfig_RunnerNetwork c else "none" in
  let tmpfs : gmap string string :=
    if bool_decide (Plan_kind p = KindProbe)
    then <[sandboxHome := "rw,nosuid,nodev,size=67108864,uid=" +:+ pretty (BrokerConfig_UID c)
                            +:+ ",gid=" +:+ pretty (BrokerConfig_GID c) +:+ ",mode=0700"]> {["/tmp" := tmp]}
    else {["/tmp" := tmp]} in
  mkContainerConfig "" user entrypoint cmd workdir (env ++ fixtureEnv)
    (<[rootLabel := Plan_rel p]> (<[kindLabel := Plan_kind p]> {[instanceLabel := BrokerConfig_Instance c]}))
    (Plan_stdin p) true true (Plan_stdin p) (Plan_stdin p) false "SIGTERM"
    (mkHostConfig true false true ["ALL"] [] ["no-new-privileges:true"] network "private" "" "" "" ""
       (BrokerConfig_Pids c) (BrokerConfig_Memory c) (BrokerConfig_Memory c) (BrokerConfig_NanoCPUs c) 1000 0
       tmpfs (mounts p ++ fixture) [] [] (BrokerConfig_Runtime c) false "none" "no").
End container.
