(* ===== verification/BrokerPlans.v ===== *)
(** * What the sandbox broker accepts

    The request a plan comes from, the owned roots as parts of a path, and what
    must exist below the data directory: the exact condition under which
    [Broker.plan] succeeds, and what the container of an accepted plan may
    write. *)
From S2P Require Import Prelude GoStrings Utf8 GoErrors Config Paths Wire EgressPolicy Runes Regex RegexLang Broker.
Local Open Scope string_scope.
Local Open Scope list_scope.
Local Open Scope N_scope.

(** ** The owned roots, as parts of a path *)

Definition uuid_text (s : string) : Prop := exists a b c d e,
  s = a +:+ "-" +:+ b +:+ "-" +:+ c +:+ "-" +:+ d +:+ "-" +:+ e
  /\ (String.length a = 8 /\ String.length b = 4 /\ String.length c = 4 /\ String.length d = 4 /\ String.length e = 12)%nat
  /\ of_class hex_lower (a +:+ b +:+ c +:+ d +:+ e) = true.
(** A slug does not start with a dot; an escape in it is a percent sign with two
    digits. *)
Fixpoint slug_rest (l : list N) : bool :=
  match l with
  | [] => true
  | c :: t => if slug_char c then slug_rest t else
              match t with
              | d :: e :: t => (c =? 37) && hex_upper d && hex_upper e && slug_rest t
              | _ => false
              end
  end.
Definition slug_text (s : string) : bool :=
  match codes s with [] => false | c :: t => slug_first c && slug_rest t end.
Definition stage_text (s : string) : Prop :=
  s ∈ ["grounding"; "consolidation"; "adversary-a"; "adversary-b"]
  \/ exists digits, s = "discovery-" +:+ digits /\ of_class decimal digits = true
                    /\ (1 <= String.length digits <= 2)%nat.

Inductive primary_root : list string -> Prop :=
| root_task u : uuid_text u -> primary_root ["tasks"; u]
| root_verify u : uuid_text u -> primary_root ["tasks"; u; "verify"]
| root_stage u s : uuid_text u -> stage_text s -> primary_root ["cycles"; u; s]
| root_baseline u : uuid_text u -> primary_root ["baselines"; u]
| root_system u : uuid_text u -> primary_root ["system"; u].
Inductive owned_root : list string -> Prop :=
| owned_primary l : primary_root l -> owned_root l
| owned_added slug l : slug_text slug = true -> primary_root l -> owned_root ("repos" :: slug :: l).

(** Splits a word of a concatenation, or asks for the words of its parts. *)
Ltac word_parts W u := apply Words_Cat in W as (u & ? & -> & ? & W).
Ltac word_cat := apply Words_Cat; do 2 eexists; split; [reflexivity|split].
Ltac word_lit W := apply Words_Cat in W as (? & ? & -> & ->%Words_Lit & W).
Lemma Words_uuid s : Words uuidPattern s <-> uuid_text s.
Proof.
  unfold uuidPattern, uuid_text. cbn [Cats]. split.
  - intros W. word_parts W a. word_lit W. word_parts W b. word_lit W. word_parts W c. word_lit W. word_parts W d. word_lit W.
    rewrite Words_Rep in *. destruct_and!. do 5 eexists. split; [reflexivity|].
    rewrite !of_class_app, !andb_true_iff. by split_and!.
  - intros (a & b & c & d & e & -> & (La & Lb & Lc & Ld & Le) & W). rewrite !of_class_app in W. bool_hyps.
    repeat (word_cat; [first [by apply Words_Rep|by apply Words_Lit]|]). by apply Words_Rep.
Qed.
Lemma slug_rest_piece u t :
  Lang (Alt (Cls slug_char) (Cats [Lit "%"; Cls hex_upper; Cls hex_upper])) u -> slug_rest (u ++ t) = slug_rest t.
Proof.
  cbn [Lang Cats Lit chars list_ascii_of_string map].
  intros [(c & -> & P)|(? & ? & -> & (c & -> & C%N.eqb_eq) & ? & ? & -> & (d & -> & D) & (e & -> & E))].
  - cbn [app slug_rest]. by rewrite P.
  - subst c. cbn [app slug_rest]. rewrite D, E. done.
Qed.
Lemma slug_rest_Star w :
  Lang (Star (Alt (Cls slug_char) (Cats [Lit "%"; Cls hex_upper; Cls hex_upper]))) w <-> slug_rest w = true.
Proof.
  split.
  - intros (ws & -> & F). induction F as [|u ws U _ IH]; [done|]. cbn [concat]. by rewrite slug_rest_piece.
  - remember (List.length w) as n eqn:Ln. revert w Ln. induction n as [n IH] using lt_wf_ind. intros [|c t] -> R; [by exists []|].
    cbn [slug_rest] in R. destruct (slug_char c) eqn:S.
    + destruct (IH (List.length t) ltac:(simpl; lia) t eq_refl R) as (ws & -> & F).
      exists ([c] :: ws). split; [done|]. constructor; [|done]. left. by exists c.
    + destruct t as [|d [|e t]]; try done. bool_hyps.
      destruct (IH (List.length t) ltac:(simpl; lia) t eq_refl ltac:(done)) as (ws & -> & F).
      exists ([c; d; e] :: ws). split; [done|]. constructor; [|done]. right.
      exists [c], [d; e]. split; [done|]. split; [exists c; by split; [|apply N.eqb_eq]|].
      exists [d], [e]. split_and!; [done|by exists d|by exists e].
Qed.
Lemma Words_slug s : Words slugPattern s <-> slug_text s = true.
Proof.
  unfold Words, slugPattern, slug_text. cbn [Cats]. split.
  - intros (u & v & -> & (c & -> & P) & V%slug_rest_Star). cbn [app]. by rewrite P.
  - destruct (codes s) as [|c t]; [done|]. intros R. bool_hyps. exists [c], t. split_and!; [done|by exists c|by apply slug_rest_Star].
Qed.
Lemma string_append_nil s : s +:+ "" = s.
Proof. apply (inj chars). by rewrite chars_app, app_nil_r. Qed.
Lemma Words_stage s : Words stagePattern s <-> stage_text s.
Proof.
  unfold stagePattern, stage_text. cbn [Alts Cats]. rewrite !Words_Alt, !Words_Lit, !elem_of_cons, elem_of_nil. split.
  - intros [->|[->|[W|W]]]; [tauto..| |]; word_lit W.
    + apply Words_Cls in W as [L W]. left. destruct x0 as [|y [|]]; [done| |done]. unfold of_class, codes in W. cbn in W.
      apply andb_true_iff in W as [W _]. apply in_range_spec in W.
      assert (N_of_ascii y = 97 \/ N_of_ascii y = 98) as [Y|Y] by lia;
        apply (f_equal ascii_of_N) in Y; rewrite ascii_N_embedding in Y; subst y; tauto.
    + right. word_parts W d. apply Words_Cls in H as [L P]. apply Words_UpTo in W as [L' P'].
      eexists. split; [reflexivity|]. rewrite of_class_app, P, P', length_append. split; [done|lia].
  - intros [[->|[->|[->|[->|[]]]]]|(d & -> & P & L)]; [tauto|tauto| | |].
    1, 2: right; right; left; apply Words_Cat; exists "adversary-"; eexists; split; [reflexivity|];
      split; [by apply Words_Lit|apply Words_Cls]; done.
    right; right; right. word_cat; [by apply Words_Lit|]. destruct d as [|x d]; [simpl in L; lia|].
    change (String x d) with (String x "" +:+ d) in *. rewrite of_class_app in P. bool_hyps.
    rewrite length_append in L. simpl in L. word_cat; [by apply Words_Cls|]. apply Words_UpTo. split; [lia|done].
Qed.
Lemma Words_repos s :
  Words reposPattern s <-> s = "" \/ exists slug, slug_text slug = true /\ s = "repos/" +:+ slug +:+ "/".
Proof.
  unfold reposPattern. rewrite Words_Opt. cbn [Cats]. split.
  - intros [W| ->]; [right|by left]. word_lit W. word_parts W slug. apply Words_Lit in W as ->.
    exists slug. split; [by apply Words_slug|done].
  - intros [->|(slug & S & ->)]; [by right|left]. word_cat; [by apply Words_Lit|].
    word_cat; [by apply Words_slug|by apply Words_Lit].
Qed.
Definition primaryPattern : re :=
  Alts [Cats [Lit "tasks/"; uuidPattern; Opt (Lit "/verify")]; Cats [Lit "cycles/"; uuidPattern; Lit "/"; stagePattern];
        Cats [Lit "baselines/"; uuidPattern]; Cats [Lit "system/"; uuidPattern]].
Lemma Words_primary s : Words primaryPattern s <-> exists l, primary_root l /\ s = Join l "/".
Proof.
  unfold primaryPattern. cbn [Alts Cats]. rewrite !Words_Alt. split.
  - intros [W|[W|[W|W]]]; word_lit W.
    + word_parts W u. apply Words_uuid in H. apply Words_Opt in W as [->%Words_Lit| ->].
      * eexists. split; [by apply root_verify|done].
      * exists ["tasks"; u]. split; [by apply root_task|]. simpl. by rewrite string_append_nil.
    + word_parts W u. apply Words_uuid in H. word_lit W. apply Words_stage in W.
      eexists. split; [by apply root_stage|done].
    + apply Words_uuid in W. eexists. split; [by apply root_baseline|done].
    + apply Words_uuid in W. eexists. split; [by apply root_system|done].
  - intros (l & [u U|u U|u t U T|u U|u U] & ->); cbn [Join]; apply Words_uuid in U.
    + left. apply Words_Cat. exists "tasks/", u. split; [done|]. split; [by apply Words_Lit|].
      apply Words_Cat. exists u, "". rewrite string_append_nil. split; [done|]. split; [done|]. apply Words_Opt. by right.
    + left. apply Words_Cat. exists "tasks/". eexists. split; [reflexivity|]. split; [by apply Words_Lit|].
      word_cat; [done|]. apply Words_Opt. left. by apply Words_Lit.
    + right; left. apply Words_Cat. exists "cycles/". eexists. split; [reflexivity|]. split; [by apply Words_Lit|].
      word_cat; [done|]. word_cat; [by apply Words_Lit|by apply Words_stage].
    + right; right; left. apply Words_Cat. exists "baselines/". eexists. split; [reflexivity|]. split; [by apply Words_Lit|done].
    + right; right; right. apply Words_Cat. exists "system/". eexists. split; [reflexivity|]. split; [by apply Words_Lit|done].
Qed.

(** ** What the patterns accept *)

Lemma ors_ascii ps : Forall (fun p => forall c, p c = true -> c < 128) ps -> forall c, ors ps c = true -> c < 128.
Proof.
  intros F c O. apply existsb_exists in O as (p & I & P). rewrite List.Forall_forall in F. by apply (F p).
Qed.
Lemma in_range_ascii lo hi : hi < 128 -> forall c, in_range lo hi c = true -> c < 128.
Proof. intros L c R%in_range_spec. lia. Qed.
Lemma one_of_ascii s : forallb is_ascii (chars s) = true -> forall c, one_of s c = true -> c < 128.
Proof.
  intros F c O. apply existsb_exists in O as (x & I & <-%N.eqb_eq). rewrite forallb_forall in F.
  by apply N.ltb_lt, (F x).
Qed.
Lemma Cats_ascii l : Forall within_ascii l -> within_ascii (Cats l).
Proof. induction 1 as [|r l R G IH]; [done|]. by destruct l; [|split]. Qed.
Lemma Lit_ascii s : forallb is_ascii (chars s) = true -> within_ascii (Lit s).
Proof.
  intros F. apply Cats_ascii, Forall_map, List.Forall_forall. rewrite forallb_forall in F.
  intros x I%F c <-%N.eqb_eq. by apply N.ltb_lt.
Qed.
Lemma Rep_ascii n r : within_ascii r -> within_ascii (Rep n r).
Proof. intros R. by induction n. Qed.
Lemma UpTo_ascii n r : within_ascii r -> within_ascii (UpTo n r).
Proof. intros R. by induction n. Qed.
(** Decides that a pattern is over ASCII. *)
Ltac ascii_classes :=
  unfold hex_lower, hex_upper, slug_first, slug_char, decimal, lower_letter, upper_letter;
  repeat first [ apply Lit_ascii; reflexivity | apply Rep_ascii | apply UpTo_ascii | apply Cats_ascii
               | apply Forall_nil_2 | apply Forall_cons_2 | apply ors_ascii | apply in_range_ascii; reflexivity
               | apply one_of_ascii; reflexivity | exact I | apply conj
               | progress cbn [within_ascii] ].
Lemma uuid_ascii : within_ascii uuidPattern.
Proof. unfold uuidPattern. ascii_classes. Qed.
Lemma slug_ascii : within_ascii slugPattern.
Proof. unfold slugPattern. ascii_classes. Qed.
Lemma repos_ascii : within_ascii reposPattern.
Proof. split; [|exact I]. apply Cats_ascii. ascii_classes. Qed.
Lemma stage_ascii : within_ascii stagePattern.
Proof. unfold stagePattern. cbn [Alts]. ascii_classes. Qed.
Lemma primary_ascii : within_ascii primaryPattern.
Proof. unfold primaryPattern. cbn [Alts]. pose proof uuid_ascii. pose proof stage_ascii. repeat (ascii_classes; try assumption). Qed.

Lemma rootPattern_spec rel :
  MatchString rootPattern rel = true <-> exists comps, owned_root comps /\ rel = Join comps "/".
Proof.
  unfold rootPattern. rewrite MatchString_ascii by (done || (split; [apply repos_ascii|apply primary_ascii])).
  cbn [Cats]. fold primaryPattern. rewrite Words_Cat. split.
  - intros (u & v & -> & U%Words_repos & (l & P & ->)%Words_primary). destruct U as [->|(slug & S & ->)].
    + exists l. by split; [apply owned_primary|].
    + exists ("repos" :: slug :: l). split; [by apply owned_added|]. destruct P; by rewrite !string_append_assoc.
  - intros (l & O & ->). destruct O as [l P|slug l S P].
    + exists "", (Join l "/"). split; [done|]. split; [apply Words_repos; by left|apply Words_primary; eauto].
    + exists ("repos/" +:+ slug +:+ "/"), (Join l "/"). split; [destruct P; cbn [Join]; by rewrite !string_append_assoc|].
      split; [apply Words_repos; eauto|apply Words_primary; eauto].
Qed.
(** A scratch root. *)
Definition scratch_root (comps : list string) : Prop :=
  exists u, uuid_text u /\ (comps = ["system"; u] \/ exists slug, slug_text slug = true /\ comps = ["repos"; slug; "system"; u]).
Lemma scratchPattern_spec rel :
  MatchString scratchPattern rel = true <-> exists comps, scratch_root comps /\ rel = Join comps "/".
Proof.
  unfold scratchPattern. rewrite MatchString_ascii.
  2: done. 2: { split; [apply repos_ascii|]. split; [ascii_classes|apply uuid_ascii]. }
  cbn [Cats]. rewrite Words_Cat. split.
  - intros (u & v & -> & U%Words_repos & W). word_lit W. apply Words_uuid in W.
    destruct U as [->|(slug & S & ->)]; eexists; (split; [eexists; split; [exact W|]|]).
    + by left.
    + done.
    + right. by exists slug.
    + by rewrite !string_append_assoc.
  - intros (l & (u & U & [->|(slug & S & ->)]) & ->); apply Words_uuid in U.
    + exists "", ("system/" +:+ u). split; [done|]. split; [apply Words_repos; by left|]. word_cat; [by apply Words_Lit|done].
    + exists ("repos/" +:+ slug +:+ "/"), ("system/" +:+ u). split; [cbn [Join]; by rewrite !string_append_assoc|].
      split; [apply Words_repos; eauto|]. word_cat; [by apply Words_Lit|done].
Qed.

(** The parts of an owned root are plain. *)
Lemma of_class_char p s x : of_class p s = true -> x ∈ chars s -> p (N_of_ascii x) = true.
Proof.
  unfold of_class, codes. rewrite forallb_forall. intros F I. apply F, in_map, list_elem_of_In, I.
Qed.
Lemma plain_first s x t : chars s = x :: t -> x <> "."%char -> no_slash s -> plain_part s.
Proof. intros E N S. split; [done|]. split_and!; intros ->; simpl in E; congruence. Qed.
Lemma class_no_slash p s : p 47 = false -> of_class p s = true -> no_slash s.
Proof. intros P C I. apply (of_class_char _ _ _ C) in I. change (N_of_ascii slash) with 47 in I. congruence. Qed.
Lemma no_slash_app s t : no_slash (s +:+ t) <-> no_slash s /\ no_slash t.
Proof. unfold no_slash. rewrite chars_app, elem_of_app. tauto. Qed.
Lemma literal_no_slash s : bool_decide (slash ∈ chars s) = false -> no_slash s.
Proof. apply bool_decide_eq_false. Qed.
Lemma uuid_plain s : uuid_text s -> plain_part s.
Proof.
  intros (a & b & c & d & e & -> & (L & _) & W). rewrite !of_class_app in W. bool_hyps.
  destruct a as [|x a]; [done|]. eapply plain_first; [reflexivity| |].
  - intros ->. by unfold of_class in *.
  - rewrite !no_slash_app. split_and!; first [(eapply class_no_slash; [|eassumption]; reflexivity)|by apply literal_no_slash].
Qed.
Lemma slug_rest_slash l : slug_rest l = true -> 47 ∉ l.
Proof.
  remember (List.length l) as n eqn:E. revert l E. induction n as [n IH] using lt_wf_ind. intros [|c t] -> R; [apply not_elem_of_nil|].
  cbn [slug_rest] in R. destruct (slug_char c) eqn:C.
  - apply not_elem_of_cons. split; [by intros <-|]. apply (IH (List.length t)); [simpl; lia|done|done].
  - destruct t as [|d [|e t]]; try done. bool_hyps. subst c.
    rewrite !not_elem_of_cons. split_and!; [done|by intros <-|by intros <-|].
    apply (IH (List.length t)); [simpl; lia|done|done].
Qed.
Lemma slug_plain s : slug_text s = true -> plain_part s.
Proof.
  unfold slug_text, codes. intros S. destruct (chars s) as [|x t] eqn:E; [done|]. cbn [map] in S. bool_hyps.
  eapply plain_first; [exact E|by intros ->|]. unfold no_slash. rewrite E, not_elem_of_cons. split; [by intros <-|].
  intros I. apply (slug_rest_slash _ H0). apply list_elem_of_In in I. apply (in_map N_of_ascii) in I.
  by apply list_elem_of_In.
Qed.
Lemma stage_plain s : stage_text s -> plain_part s.
Proof.
  intros [I|(d & -> & W & _)].
  - repeat (apply elem_of_cons in I as [->|I]; [eapply plain_first; [reflexivity|done|by apply literal_no_slash]|]).
    by apply not_elem_of_nil in I.
  - eapply plain_first; [reflexivity|done|]. apply no_slash_app. split; [by apply literal_no_slash|(eapply class_no_slash; [|eassumption]; reflexivity)].
Qed.
(** Decides that a literal part is plain. *)
Lemma plain_decide s :
  forallb (fun t => negb (bool_decide (s = t))) [""; "."; ".."] && negb (bool_decide (slash ∈ chars s)) = true -> plain_part s.
Proof. cbn [forallb]. intros P. by bool_hyps. Qed.
Ltac plain_literal := apply plain_decide; reflexivity.
Ltac plain_literals := repeat apply Forall_cons_2; try apply Forall_nil_2; plain_literal.
Lemma primary_plain l : primary_root l -> Forall plain_part l.
Proof.
  intros [u U|u U|u s U S|u U|u U]; apply uuid_plain in U; try apply stage_plain in S;
    repeat apply Forall_cons_2; try apply Forall_nil_2; first [done|plain_literal].
Qed.
Lemma owned_plain l : owned_root l -> l <> [] /\ Forall plain_part l.
Proof.
  intros [l' P|slug l' S P].
  - split; [by destruct P|by apply primary_plain].
  - split; [done|]. apply Forall_cons. split; [plain_literal|]. apply Forall_cons. split; [by apply slug_plain|by apply primary_plain].
Qed.

(** ** Accepted plans *)

Section accepted.
Context (Lstat : string -> result FileInfo error) (c : BrokerConfig).

(** What [ownedEntry] asks of an entry, and the directories on a way down. *)
Definition owned_by (wantDir : bool) (info : FileInfo) : Prop :=
  (if wantDir then IsDir info else IsRegular info) = true /\ N.land (Mode info) ModeSymlink = 0
  /\ (forall uid, Uid info = Some uid -> uid = BrokerConfig_UID c).
Definition entry_at (path : string) (wantDir : bool) : Prop :=
  exists info, Lstat path = Ok info /\ owned_by wantDir info.
Definition guarded (base parts : list string) : Prop :=
  forall n, (0 < n <= List.length parts)%nat -> entry_at (abs_path (base ++ take n parts)) true.

Lemma ownedEntry_Ok rel info wantDir : ownedEntry c rel info wantDir = Ok tt <-> owned_by wantDir info.
Proof.
  unfold ownedEntry, owned_by. destruct wantDir; rewrite !guard_Ok, negb_true_iff, orb_false_iff, !negb_false_iff, N.eqb_eq;
    (split; [intros ([? ?] & U & _); split_and!; [done|done|]; intros uid E; rewrite E in U; by bool_hyps
            |intros (? & ? & U); split_and!; try done; destruct (Uid info); [|done]; apply bool_decide_eq_true; auto]).
Qed.
Lemma guarded_cons base a l :
  guarded base (a :: l) <-> entry_at (abs_path (base ++ [a])) true /\ guarded (base ++ [a]) l.
Proof.
  unfold guarded. split.
  - intros G. split; [apply (G 1%nat); simpl; lia|]. intros n L. rewrite <- app_assoc. apply (G (S n)). simpl. lia.
  - intros [E G] [|[|n]] L; [lia|done|]. simpl in L. specialize (G (S n) ltac:(lia)). by rewrite <- app_assoc in G.
Qed.
Lemma owned_parts_Ok rel base l :
  Forall plain_part base -> Forall plain_part l ->
  owned_parts Lstat c rel (abs_path base) l = Ok tt <-> guarded base l.
Proof.
  revert base. induction l as [|a l IH]; intros base FB FL; cbn [owned_parts].
  { split; [|done]. intros _ n L. simpl in L. lia. }
  apply Forall_cons in FL as [A FL]. 
  assert (JoinPath [abs_path base; a] = abs_path (base ++ [a])) as ->
    by (apply (JoinPath_abs base [a]); [done|done|by apply Forall_singleton]).
  rewrite guarded_cons. unfold entry_at.
  destruct (Lstat _) as [info|err]; [|split; [done|by intros [(? & ? & _) _]]].
  rewrite result_bind_Ok, <- IH by (done || (apply Forall_app; split; [done|by apply Forall_singleton])).
  split.
  - intros ([] & E & P). split; [|done]. exists info. split; [done|]. by apply ownedEntry_Ok in E.
  - intros [(info' & [= <-] & E) P]. exists tt. split; [by apply ownedEntry_Ok|done].
Qed.

Context (base : list string) (base_plain : Forall plain_part base) (data_dir : BrokerConfig_DataDir c = abs_path base).

Lemma ownedDirectory_Ok l : l <> [] -> Forall plain_part l -> ownedDirectory Lstat c (Join l "/") = Ok tt <-> guarded base l.
Proof. intros N F. unfold ownedDirectory. rewrite data_dir, Split_Join by auto. by apply owned_parts_Ok. Qed.
Lemma ownedFile_Ok l x : l <> [] -> Forall plain_part (l ++ [x]) ->
  ownedFile Lstat c (Join (l ++ [x]) "/") = Ok tt <->
  guarded base l /\ entry_at (abs_path (base ++ l ++ [x])) false.
Proof.
  intros N F. unfold ownedFile. rewrite Dir_rel, data_dir, JoinPath_abs by (done || by destruct l).
  rewrite result_bind_Ok. pose proof F as [FL _]%Forall_app. unfold entry_at. split.
  - intros ([] & G & E). apply ownedDirectory_Ok in G; [|done..]. split; [done|].
    destruct (Lstat _) as [info|]; [|done]. exists info. split; [done|]. by apply ownedEntry_Ok in E.
  - intros [G (info & -> & E)]. exists tt. split; [by apply ownedDirectory_Ok|by apply ownedEntry_Ok].
Qed.
Lemma each_owned_Ok paths : each_owned Lstat c paths = Ok tt <-> Forall (fun p => ownedDirectory Lstat c p = Ok tt) paths.
Proof.
  induction paths as [|p paths IH]; cbn [each_owned]; [done|]. rewrite result_bind_Ok, Forall_cons, <- IH.
  split; [by intros ([] & ? & ?)|intros [? ?]; by exists tt].
Qed.

(** The directories of a root that a sandbox of a kind mounts, as parts. *)
Definition home_parts (kind : string) : list (list string) :=
  if bool_decide (kind = KindRunner)
  then [["home"]; ["home"; ".codex"]; ["home"; ".local"; "share"; "opencode"]; ["home"; ".config"; "opencode"];
        ["home"; ".cache"; "opencode"]; ["home"; ".local"; "state"; "opencode"]] else
  if bool_decide (kind = KindVerify) then [["verify-home"]] else [].
Lemma HomeDirs_parts kind : HomeDirs kind = pieces (home_parts kind).
Proof. unfold HomeDirs, home_parts. by repeat destruct_cond. Qed.
Lemma home_parts_plain kind : plain_pieces (home_parts kind).
Proof.
  unfold home_parts. repeat destruct_cond; repeat apply Forall_cons_2; try apply Forall_nil_2;
    (split; [done|plain_literals]).
Qed.

(** The plan of an owned root, and what must exist there. *)
Definition resolved (p : Plan) (comps : list string) : Plan :=
  p <| Plan_dir := abs_path (base ++ comps ++ [WorkspaceDir]) |> <| Plan_root := abs_path (base ++ comps) |>
    <| Plan_rel := Join comps "/" |> <| Plan_scratch := MatchString scratchPattern (Join comps "/") |>.
Record complete_root (kind : string) (scratch : bool) (comps : list string) : Prop := {
  complete_workspace : guarded base (comps ++ [WorkspaceDir]);
  complete_homes : forall home, home ∈ home_parts kind -> guarded base (comps ++ home);
  complete_git : scratch = false -> guarded base (comps ++ [GitDirName])
                 /\ entry_at (abs_path (base ++ comps ++ [WorkspaceDir; ".git"])) false;
}.
Lemma required_dirs_Ok p comps :
  comps <> [] -> Forall plain_part comps -> Plan_rel p = Join comps "/" ->
  each_owned Lstat c (required_dirs p) = Ok tt <->
  guarded base (comps ++ [WorkspaceDir]) /\ (Plan_scratch p = false -> guarded base (comps ++ [GitDirName]))
  /\ forall home, home ∈ home_parts (Plan_kind p) -> guarded base (comps ++ home).
Proof.
  intros N F R. rewrite each_owned_Ok. unfold required_dirs. rewrite R, HomeDirs_parts, !Forall_app, Forall_singleton.
  assert (forall l, l <> [] -> Forall plain_part l ->
    ownedDirectory Lstat c (JoinPath [Join comps "/"; Join l "/"]) = Ok tt <-> guarded base (comps ++ l)) as D.
  { intros l NL FL. change [Join comps "/"; Join l "/"] with (pieces [comps; l]).
    assert (plain_pieces [comps; l]) as PP by (repeat apply Forall_cons_2; try apply Forall_nil_2; done).
    rewrite JoinPath_pieces by done. cbn [concat]. rewrite app_nil_r.
    apply ownedDirectory_Ok; [by destruct comps|by apply Forall_app]. }
  pose proof (D [WorkspaceDir] ltac:(done) ltac:(plain_literals)) as DW.
  pose proof (D [GitDirName] ltac:(done) ltac:(plain_literals)) as DG. cbn [Join] in DW, DG. rewrite DW.
  assert (Forall (fun e => ownedDirectory Lstat c e = Ok ())
    (if Plan_scratch p then [] else [JoinPath [Join comps "/"; GitDirName]])
    <-> (Plan_scratch p = false -> guarded base (comps ++ [GitDirName]))) as ->.
  { destruct (Plan_scratch p); [by split|]. rewrite Forall_singleton, DG. naive_solver. }
  unfold pieces. rewrite !Forall_map, Forall_forall.
  pose proof (home_parts_plain (Plan_kind p)) as HP. unfold plain_pieces in HP. rewrite Forall_forall in HP.
  assert ((forall x, x ∈ home_parts (Plan_kind p) -> ownedDirectory Lstat c (JoinPath [Join comps "/"; Join x "/"]) = Ok ())
    <-> (forall home, home ∈ home_parts (Plan_kind p) -> guarded base (comps ++ home))) as ->; [|done].
  split; intros G home I; destruct (HP _ I); apply D; auto.
Qed.
Definition root_checks (p : Plan) : result Plan error :=
  let! _ := each_owned Lstat c (required_dirs p) in
  if negb (Plan_scratch p)
  then let! _ := ownedFile Lstat c (JoinPath [Plan_rel p; WorkspaceDir; ".git"]) in Ok p
  else Ok p.
Lemma root_checks_Ok p comps p' :
  comps <> [] -> Forall plain_part comps -> Plan_rel p = Join comps "/" ->
  root_checks p = Ok p' <-> p' = p /\ complete_root (Plan_kind p) (Plan_scratch p) comps.
Proof.
  intros N F R. unfold root_checks. rewrite result_bind_Ok, R.
  assert (JoinPath [Join comps "/"; WorkspaceDir; ".git"] = Join ((comps ++ [WorkspaceDir]) ++ [".git"]) "/") as ->.
  { transitivity (JoinPath (pieces [comps; [WorkspaceDir]; [".git"]])); [done|].
    rewrite JoinPath_pieces; [|done|]; [cbn [concat]; by rewrite <- app_assoc|].
    repeat apply Forall_cons_2; try apply Forall_nil_2; (split; [done|]); [done|plain_literals|plain_literals]. }
  assert (ownedFile Lstat c (Join ((comps ++ [WorkspaceDir]) ++ [".git"]) "/") = Ok tt <->
    guarded base (comps ++ [WorkspaceDir]) /\ entry_at (abs_path (base ++ comps ++ [WorkspaceDir; ".git"])) false) as OF.
  { rewrite ownedFile_Ok, <- app_assoc; [done|by destruct comps|].
    repeat (apply Forall_app; split); try done; plain_literals. }
  split.
  - intros ([] & E & K). apply (required_dirs_Ok p comps) in E as (W & G & H); [|done..].
    destruct (Plan_scratch p) eqn:S; cbn [negb] in K.
    + injection K as <-. split; [done|]. by split.
    + apply result_bind_Ok in K as ([] & [_ K]%OF & [= <-]). split; [done|]. split; auto.
  - intros [-> [W H G]]. exists tt. split; [apply (required_dirs_Ok p comps); auto; split_and!; [done|intros S; by apply G|done]|].
    destruct (Plan_scratch p) eqn:S; cbn [negb]; [done|]. apply result_bind_Ok. exists tt.
    destruct (G eq_refl) as [G1 G2]. split; [by apply OF|done].
Qed.
Lemma resolveRoot_Ok p dir p' :
  resolveRoot Lstat c p dir = Ok p' <->
  exists comps, owned_root comps /\ dir = abs_path (base ++ comps ++ [WorkspaceDir]) /\ p' = resolved p comps
                /\ complete_root (Plan_kind p) (Plan_scratch p') comps.
Proof.
  unfold resolveRoot. rewrite guard_Ok, data_dir, !andb_true_iff, !bool_decide_eq_true. split.
  - intros [[[A C] B] E]. destruct (Clean_abs_parts dir A) as (ds & FD & CD).
    assert (dir = abs_path ds) as -> by congruence. clear CD A C.
    destruct (Base_inv ds WorkspaceDir FD) as [ts ->]; [done|done|]. rewrite Dir_snoc in E by done.
    pose proof FD as [FT _]%Forall_app. destruct (Rel _ _) as [rel|] eqn:R; [|done].
    apply guard_Ok in E as [(comps & O & ->)%rootPattern_spec E]. destruct (owned_plain _ O) as [N F].
    apply Rel_down in R; [|done..]. subst ts.
    rewrite <- !app_assoc in E. change (root_checks (resolved p comps) = Ok p') in E.
    apply (root_checks_Ok _ comps) in E as [-> K]; [|done..].
    exists comps. rewrite <- app_assoc. done.
  - intros (comps & O & -> & -> & K). destruct (owned_plain _ O) as [N F].
    assert (Forall plain_part ((base ++ comps) ++ [WorkspaceDir])) as FD
      by (repeat (apply Forall_app; split); try done; plain_literals).
    rewrite app_assoc. split.
    { split_and!; [apply IsAbs_abs|by apply Clean_abs|by apply Base_snoc]. }
    rewrite Dir_snoc by done.
    assert (Rel (abs_path base) (abs_path (base ++ comps)) = Some (Join comps "/")) as ->.
    { apply Rel_down; try done. by apply Forall_app. }
    apply guard_Ok. split; [apply rootPattern_spec; eauto|]. rewrite <- app_assoc.
    change (root_checks (resolved p comps) = Ok (resolved p comps)). by apply (root_checks_Ok _ comps).
Qed.
End accepted.

(** ** What a request may ask for *)

Definition opencode_key (key : string) : Prop := exists name,
  key = "OPENCODE_" +:+ name /\ of_class env_char name = true /\ (1 <= String.length name <= 64)%nat.
Definition entry_ok (entry : string) : Prop :=
  nul ∉ chars entry /\ exists key value, entry = key +:+ "=" +:+ value /\ opencode_key key.
Definition env_bytes (env : list string) : N := foldr (fun e n => slen e + n) 0 env.
Definition env_ok (env : list string) : Prop := Forall entry_ok env /\ env_bytes env <= 262144.
Inductive well_formed (req : Request) : Prop :=
| wf_codex : Request_Kind req = KindRunner -> Request_Runner req = RunnerCodex -> Request_Mode req = RunnerModeStdio ->
    env_ok (Request_Env req) -> well_formed req
| wf_opencode : Request_Kind req = KindRunner -> Request_Runner req = RunnerOpenCode -> Request_Mode req = RunnerModeOpenCode ->
    1 <= Request_Readiness req <= 600 -> env_ok (Request_Env req) -> well_formed req
| wf_verify : Request_Kind req = KindVerify -> 1 <= slen (Request_Command req) <= 4096 -> nul ∉ chars (Request_Command req) ->
    Request_Env req = [] -> Request_Stdin req = false -> well_formed req
| wf_probe : Request_Kind req = KindProbe -> Request_Mode req ∈ [ProbeVersions; ProbeContainment] ->
    Request_Dir req = "" -> Request_Env req = [] -> Request_Stdin req = false -> well_formed req.

(** The plan a well-formed request gives, before its root is resolved. *)
Definition allowed_seconds (c : BrokerConfig) (req : Request) : N :=
  if Request_Timeout req =? 0 then BrokerConfig_MaxSeconds c else N.min (Request_Timeout req) (BrokerConfig_MaxSeconds c).
Definition untimed (req : Request) : Plan :=
  let runner := bool_decide (Request_Kind req = KindRunner) in
  mkPlan (Request_Kind req) "" "" "" false
    (if runner then Request_Runner req else "") (if runner then Request_Mode req else "")
    (if bool_decide (Request_Kind req = KindProbe) then Request_Mode req else "")
    (if bool_decide (Request_Kind req = KindVerify) then Request_Command req else "")
    (if runner then Request_Env req else [])
    (Request_Stdin req || (runner && bool_decide (Request_Runner req = RunnerOpenCode)))
    0 (Request_Readiness req) "".
Definition wanted (c : BrokerConfig) (req : Request) : Plan :=
  (untimed req) <| Plan_timeout := seconds_duration (allowed_seconds c req) |>.

Lemma Words_envKey s : MatchString envKeyPattern s = true <-> opencode_key s.
Proof.
  unfold envKeyPattern. rewrite MatchString_ascii; [|done|unfold env_char; apply Cats_ascii; ascii_classes].
  cbn [Cats]. unfold opencode_key. split.
  - intros W. word_lit W. word_parts W d. apply Words_Cls in H as [L P]. apply Words_UpTo in W as [L' P'].
    eexists. split; [reflexivity|]. rewrite of_class_app, P, P', length_append. split; [done|lia].
  - intros (d & -> & P & L). word_cat; [by apply Words_Lit|]. destruct d as [|x d]; [simpl in L; lia|].
    change (String x d) with (String x "" +:+ d) in *. rewrite of_class_app in P. bool_hyps.
    rewrite length_append in L. simpl in L. word_cat; [by apply Words_Cls|]. apply Words_UpTo. split; [lia|done].
Qed.
Lemma cut_chars_spec sep l a b : cut_chars sep l = Some (a, b) <-> l = a ++ sep :: b /\ sep ∉ a.
Proof.
  revert a. induction l as [|x l IH]; intros a; cbn [cut_chars].
  { split; [done|]. intros [E _]. by destruct a. }
  unfold is_char. destruct (bool_decide_reflect (sep = x)) as [->|N].
  - split; [intros [= <- <-]; split; [done|apply not_elem_of_nil]|]. intros [E NI].
    destruct a as [|y a]; [by injection E as ->|]. injection E as -> _. exfalso. apply NI. by left.
  - destruct (cut_chars sep l) as [[u v]|] eqn:C; split.
    + intros [= <- <-]. destruct (proj1 (IH u) eq_refl) as [-> NI]. split; [done|]. by apply not_elem_of_cons.
    + intros [E NI]. destruct a as [|y a]; [by injection E as ->|]. injection E as -> E.
      apply not_elem_of_cons in NI as [_ NI]. by pose proof (proj2 (IH a) (conj E NI)) as [= -> ->].
    + done.
    + intros [E NI]. destruct a as [|y a]; [by injection E as ->|]. injection E as -> E.
      apply not_elem_of_cons in NI as [_ NI]. by pose proof (proj2 (IH a) (conj E NI)).
Qed.

Lemma has_nul_spec s : has_nul s = false <-> nul ∉ chars s.
Proof. apply bool_decide_eq_false. Qed.
Lemma opencode_key_plain key : opencode_key key -> "="%char ∉ chars key.
Proof.
  intros (d & -> & P & _). rewrite chars_app, elem_of_app. intros [I|I].
  - by apply (bool_decide_eq_true_2 _) in I.
  - apply (of_class_char _ _ _ P) in I. by vm_compute in I.
Qed.
Lemma entry_check entry key value ok :
  Cut entry "="%char = (key, value, ok) ->
  negb (negb ok || negb (MatchString envKeyPattern key) || has_nul entry) = true <-> entry_ok entry.
Proof.
  unfold Cut. rewrite negb_true_iff, !orb_false_iff, !negb_false_iff, Words_envKey, has_nul_spec. unfold entry_ok.
  destruct (cut_chars _ _) as [[a b]|] eqn:C; intros [= <- <- <-].
  - apply cut_chars_spec in C as [E NI]. split.
    + intros [[_ K] N]. split; [done|]. exists (str a), (str b). split; [|done].
      apply (inj chars). rewrite !chars_app, !chars_str. exact E.
    + intros [N (k & v & -> & K)]. split_and!; [done| |done]. rewrite !chars_app in E.
      assert (chars k = a) as <-; [|by rewrite str_chars].
      assert (cut_chars "="%char (chars k ++ "="%char :: chars v) = Some (chars k, chars v)) as C1
        by (apply cut_chars_spec; split; [done|by apply opencode_key_plain]).
      assert (cut_chars "="%char (chars k ++ "="%char :: chars v) = Some (a, b)) as C2
        by (apply cut_chars_spec; split; done).
      congruence.
  - split; [by intros [[? _] _]|]. intros [_ (k & v & -> & K)]. rewrite !chars_app in C.
    assert (cut_chars "="%char (chars k ++ "="%char :: chars v) = Some (chars k, chars v)) as C1
      by (apply cut_chars_spec; split; [done|by apply opencode_key_plain]).
    cbn in C1, C. congruence.
Qed.
Lemma env_size_Ok size env n : env_size size env = Ok n <-> Forall entry_ok env /\ n = size + env_bytes env.
Proof.
  revert size. induction env as [|e env IH]; intros size; cbn [env_size env_bytes foldr].
  { rewrite N.add_0_r. split; [by intros [= <-]|by intros [_ ->]]. }
  destruct (Cut e _) as [[key value] ok] eqn:C. rewrite guard_Ok, (entry_check e key value ok C), IH, Forall_cons.
  unfold env_bytes. rewrite N.add_assoc. tauto.
Qed.
Lemma slen_pos s : s <> "" <-> 1 <= slen s.
Proof. unfold slen. destruct s; simpl; [split; [done|lia]|]. split; [lia|done]. Qed.
Lemma lenN_nil {A} (l : list A) : lenN l <= 0 -> l = [].
Proof. unfold lenN. destruct l; simpl; [done|lia]. Qed.
Definition initial_plan (req : Request) : Plan :=
  empty_plan <| Plan_stdin := Request_Stdin req |> <| Plan_readiness := Request_Readiness req |>.
Lemma runner_env req p p' :
  (let! size := env_size 0 (Request_Env req) in
   if negb (maxEnvBytes <? size) then Ok (p <| Plan_env := Request_Env req |>) else Err (New "Runner environment is too large")) = Ok p'
  <-> env_ok (Request_Env req) /\ p' = p <| Plan_env := Request_Env req |>.
Proof.
  rewrite result_bind_Ok. unfold env_ok. split.
  - intros (n & [F ->]%env_size_Ok & E). apply guard_Ok in E as [L%negb_true_iff%N.ltb_ge [= <-]]. done.
  - intros [[F L] ->]. exists (0 + env_bytes (Request_Env req)). split; [by apply env_size_Ok|].
    apply guard_Ok. split; [|done]. by apply negb_true_iff, N.ltb_ge.
Qed.
Lemma plan_kind_Ok req p :
  plan_kind req (initial_plan req) = Ok p <-> well_formed req /\ p = untimed req.
Proof.
  unfold plan_kind, untimed. split.
  - destruct (bool_decide_reflect (Request_Kind req = KindRunner)) as [K|_].
    { intros E. apply result_bind_Ok in E as (p1 & R & E). apply runner_env in E as [W ->]. rewrite K. unfold runner_of in R.
      destruct (bool_decide_reflect (Request_Runner req = RunnerCodex)) as [C|_].
      - ok_inv R. bool_hyps. subst p1. split; [by apply wf_codex|]. rewrite C. cbn. by rewrite orb_false_r.
      - destruct (bool_decide_reflect (Request_Runner req = RunnerOpenCode)) as [O|_]; [|done].
        apply guard_Ok in R as [M R]. apply guard_Ok in R as [L [= <-]]. bool_hyps.
        split; [apply wf_opencode; try done; lia|]. cbn. by rewrite orb_true_r. }
    destruct (bool_decide_reflect (Request_Kind req = KindVerify)) as [K|_].
    { intros E. apply guard_Ok in E as [C E]. apply guard_Ok in E as [S [= <-]]. bool_hyps.
      apply slen_pos in H1. apply lenN_nil in H. apply has_nul_spec in H2. rewrite K.
      split; [by apply wf_verify|]. cbn. by rewrite orb_false_r. }
    destruct (bool_decide_reflect (Request_Kind req = KindProbe)) as [K|_]; [|done].
    intros E. apply guard_Ok in E as [C E]. apply guard_Ok in E as [S [= <-]]. bool_hyps. apply lenN_nil in H1. rewrite K.
    split; [apply wf_probe; try done; apply orb_true_iff in S; rewrite !bool_decide_eq_true in S; set_solver|].
    cbn. by rewrite orb_false_r.
  - intros [[K R M W|K R M L W|K L N W S|K M D W S] ->].
    + rewrite K, bool_decide_eq_true_2 by done. apply result_bind_Ok. unfold runner_of. rewrite R, M.
      eexists. split; [reflexivity|]. apply runner_env. split; [done|]. cbn. by rewrite orb_false_r.
    + rewrite K, bool_decide_eq_true_2 by done. apply result_bind_Ok. unfold runner_of. rewrite R, M.
      destruct L as [L1 L2]. apply N.ltb_ge in L2. assert ((Request_Readiness req =? 0) = false) as L3 by (apply N.eqb_neq; lia).
      cbn. rewrite L2, L3. eexists. split; [reflexivity|]. apply runner_env. split; [done|]. cbn. by rewrite orb_true_r.
    + rewrite K. destruct L as [L1 L2]. apply slen_pos in L1. apply N.ltb_ge in L2. apply has_nul_spec in N. cbn.
      change maxCommand with 4096. unfold initial_plan. rewrite L2, N, W, S, (bool_decide_eq_false_2 (Request_Command req = "")) by done. done.
    + unfold initial_plan. rewrite K, D, W, S.
      by apply elem_of_cons in M as [M|M]; [|apply list_elem_of_singleton in M]; rewrite M.
Qed.

Lemma allowed_seconds_eq c req :
  (if (0 <? Request_Timeout req) && (Request_Timeout req <? BrokerConfig_MaxSeconds c)
   then Request_Timeout req else BrokerConfig_MaxSeconds c) = allowed_seconds c req.
Proof.
  unfold allowed_seconds. destruct (N.ltb_spec 0 (Request_Timeout req)), (N.eqb_spec (Request_Timeout req) 0); try lia; [|done].
  destruct (N.ltb_spec (Request_Timeout req) (BrokerConfig_MaxSeconds c)); cbn [andb]; lia.
Qed.
Lemma wanted_seconds c req :
  60 <= BrokerConfig_MaxSeconds c <= 604800 ->
  (0 < Plan_timeout (wanted c req) <= Z.of_N (BrokerConfig_MaxSeconds c) * 1000000000)%Z.
Proof.
  intros B. change (Plan_timeout (wanted c req)) with (seconds_duration (allowed_seconds c req)).
  assert (1 <= allowed_seconds c req <= BrokerConfig_MaxSeconds c) as A.
  { unfold allowed_seconds. destruct (N.eqb_spec (Request_Timeout req) 0); lia. }
  unfold seconds_duration. rewrite (int64_small (Z.of_N _)) by lia. rewrite int64_small by lia. lia.
Qed.

Section broker_facts.
Context (Lstat : string -> result FileInfo error) (c : BrokerConfig).
Context (base : list string) (base_plain : Forall plain_part base) (data_dir : BrokerConfig_DataDir c = abs_path base).

(** C34: What the broker accepts, exactly: a well-formed request (a known runner
    over its own transport with only OPENCODE_ variables, one verification
    command, or a probe that mounts nothing), within the hard time limit, whose
    directory is the workspace of an owned root.  An owned root lies at
    [data directory/comps] where [comps] is one of the five shapes of
    [primary_root], under [repos/slug] for an added repository; no part of it is
    empty, a dot or two dots, so it is strictly below the data directory.  Every
    directory on the way to the workspace, to the trusted git directory and to
    each home directory is a real directory of the sandbox user, and the .git
    pointer is its regular file, unless the root is a scratch root. *)
Theorem plan_spec req p :
  plan Lstat c req = Ok p <->
  well_formed req /\
  (Request_Kind req = KindProbe /\ p = wanted c req
   \/ Request_Kind req <> KindProbe /\ Request_Timeout req <= BrokerConfig_MaxSeconds c
      /\ exists comps, owned_root comps /\ Request_Dir req = abs_path (base ++ comps ++ [WorkspaceDir])
           /\ p = resolved base (wanted c req) comps
           /\ complete_root Lstat c base (Request_Kind req) (Plan_scratch p) comps).
Proof.
  unfold plan. rewrite result_bind_Ok. setoid_rewrite plan_kind_Ok. cbv zeta. split.
  - intros (p0 & [W ->] & E). split; [done|]. apply guard_Ok in E as [T E]. rewrite allowed_seconds_eq in E.
    change (Plan_kind (untimed req)) with (Request_Kind req) in T.
    change (Plan_kind ((untimed req) <| Plan_timeout := seconds_duration (allowed_seconds c req) |>)) with (Request_Kind req) in E.
    destruct (bool_decide_reflect (Request_Kind req = KindProbe)) as [K|K].
    + left. by injection E as <-.
    + right. split; [done|]. cbn [negb andb] in T. apply negb_true_iff, N.ltb_ge in T. split; [done|].
      apply (resolveRoot_Ok _ _ base) in E as (comps & O & D & -> & R); [|done..]. by exists comps.
  - intros [W H]. exists (untimed req). split; [done|]. apply guard_Ok. rewrite allowed_seconds_eq.
    change (Plan_kind (untimed req)) with (Request_Kind req).
    change (Plan_kind ((untimed req) <| Plan_timeout := seconds_duration (allowed_seconds c req) |>)) with (Request_Kind req).
    destruct H as [[K ->]|(K & T & comps & O & D & -> & R)].
    + by rewrite bool_decide_eq_true_2.
    + rewrite bool_decide_eq_false_2 by done. split; [cbn [negb andb]; by apply negb_true_iff, N.ltb_ge|].
      apply (resolveRoot_Ok _ _ base); [done|done|]. by exists comps.
Qed.

(** What a sandbox may write, besides its own temporary directories: the work
    tree and its home, both verified directories of its root, and a runner's
    shared state. *)
Inductive may_write (comps : list string) (req : Request) : Mount -> Prop :=
| write_workspace : guarded Lstat c base (comps ++ [WorkspaceDir]) ->
    may_write comps req (data_mount c (Join (comps ++ [WorkspaceDir]) "/") (Request_Dir req) false)
| write_home home : [home] ∈ home_parts (Request_Kind req) -> guarded Lstat c base (comps ++ [home]) ->
    may_write comps req (data_mount c (Join (comps ++ [home]) "/") sandboxHome false)
| write_state dir : Request_Kind req = KindRunner -> dir ∈ RunnerHomeDirs ->
    may_write comps req (mkMount "volume" (BrokerConfig_RunnerVolume c) (JoinPath [sandboxHome; fst dir]) false
                           (Some (mkVolumeOptions true (snd dir)))).
Lemma data_path comps x : comps <> [] -> Forall plain_part comps -> plain_part x ->
  JoinPath [Join comps "/"; x] = Join (comps ++ [x]) "/".
Proof.
  intros N F X. transitivity (JoinPath (pieces [comps; [x]])); [done|]. rewrite JoinPath_pieces; [by cbn [concat]; rewrite app_nil_r|done|].
  repeat apply Forall_cons_2; try apply Forall_nil_2; (split; [done|]); [done|by apply Forall_singleton].
Qed.
Lemma root_path comps x : owned_root comps -> plain_part x ->
  JoinPath [abs_path (base ++ comps); x] = abs_path (base ++ comps ++ [x]).
Proof.
  intros [_ F]%owned_plain X. rewrite app_assoc. apply (JoinPath_abs _ [x]); [by apply Forall_app|done|by apply Forall_singleton].
Qed.

(** C35: The container of an accepted plan runs unprivileged on a read-only image
    without capabilities, devices or host paths, and every volume it mounts is
    read-only except those of [may_write]: its work tree, its home, and for a
    runner the shared runner state.  A probe writes to no volume.  Unless the
    root is a scratch root, the trusted git directory and the .git pointer of
    the work tree are mounted read-only over it. *)
Theorem container_confined req p extraEnv :
  plan Lstat c req = Ok p ->
  let host := HostConfig (container None c p extraEnv) in
  (Privileged host = false /\ ReadonlyRootfs host = true /\ CapDrop host = ["ALL"] /\ CapAdd host = []
   /\ Devices host = [] /\ Binds host = [])
  /\ if bool_decide (Request_Kind req = KindProbe) then Forall (fun m => Mount_ReadOnly m = true) (Mounts host) else
     exists comps, owned_root comps /\ Plan_rel p = Join comps "/"
       /\ Forall (fun m => Mount_ReadOnly m = true \/ may_write comps req m) (Mounts host)
       /\ (Plan_scratch p = false ->
             data_mount c (Join (comps ++ [GitDirName]) "/") (abs_path (base ++ comps ++ [GitDirName])) true ∈ Mounts host
             /\ data_mount c (Join (comps ++ [WorkspaceDir; ".git"]) "/")
                  (abs_path (base ++ comps ++ [WorkspaceDir; ".git"])) true ∈ Mounts host).
Proof.
  intros [W H]%plan_spec. cbv zeta. unfold container. destruct (program p) as [entrypoint cmd]. cbn [HostConfig Privileged ReadonlyRootfs CapDrop CapAdd Devices Binds Mounts].
  split; [done|]. rewrite app_nil_r. unfold mounts. destruct H as [[K ->]|(K & _ & comps & O & D & -> & [GW GH GG])].
  { rewrite K. rewrite !bool_decide_eq_true_2 by (done || exact K). apply Forall_cons_2; [done|apply Forall_nil_2]. }
  change (Plan_kind (resolved base (wanted c req) comps)) with (Request_Kind req).
  change (Plan_rel (resolved base (wanted c req) comps)) with (Join comps "/").
  change (Plan_root (resolved base (wanted c req) comps)) with (abs_path (base ++ comps)).
  change (Plan_dir (resolved base (wanted c req) comps)) with (abs_path (base ++ comps ++ [WorkspaceDir])).
  rewrite bool_decide_eq_false_2 by done. exists comps. split; [done|]. split; [done|]. destruct (owned_plain _ O) as [N F].
  split.
  - repeat apply Forall_app_2; try apply Forall_cons_2.
    + by left.
    + apply Forall_singleton. right. rewrite data_path, <- D by (done || plain_literal). by apply write_workspace.
    + destruct (negb _); [|apply Forall_nil_2]. by repeat apply Forall_cons_2; [left|left|apply Forall_nil_2].
    + destruct (bool_decide_reflect (Request_Kind req = KindRunner)) as [R|_].
      * apply Forall_cons_2; [right; rewrite data_path by (done || plain_literal); apply write_home; [|apply GH]; rewrite R; by left|].
        apply Forall_map, Forall_forall. intros dir I. right. by apply write_state.
      * destruct (bool_decide_reflect (Request_Kind req = KindVerify)) as [V|_]; [|apply Forall_nil_2].
        apply Forall_singleton. right. rewrite data_path by (done || plain_literal). apply write_home; [|apply GH]; rewrite V; by left.
  - intros S. rewrite S. cbn [negb]. rewrite (data_path comps GitDirName), root_path by (done || plain_literal).
    assert (JoinPath [Join comps "/"; WorkspaceDir; ".git"] = Join (comps ++ [WorkspaceDir; ".git"]) "/") as ->.
    { transitivity (JoinPath (pieces [comps; [WorkspaceDir]; [".git"]])); [done|]. apply JoinPath_pieces; [done|].
      repeat apply Forall_cons_2; try apply Forall_nil_2; (split; [done|]); [done|plain_literals|plain_literals]. }
    assert (JoinPath [abs_path (base ++ comps ++ [WorkspaceDir]); ".git"] = abs_path (base ++ comps ++ [WorkspaceDir; ".git"])) as ->.
    { replace (base ++ comps ++ [WorkspaceDir; ".git"]) with ((base ++ comps ++ [WorkspaceDir]) ++ [".git"]) by (by rewrite <- !app_assoc).
      apply (JoinPath_abs _ [".git"]); [repeat (apply Forall_app; split); try done; plain_literals|done|plain_literals]. }
    split; apply elem_of_app; right; apply elem_of_app; left; [by left|right; by left].
Qed.
End broker_facts.

(** ** A concrete broker *)

Definition sample_broker : BrokerConfig :=
  mkBrokerConfig "" "" "image" "/var/lib/octomus/data" "data" "runner" "" "tools" "" "" "run-net" "verify-net" "octomus"
    10001 10001 1000 2000000000 4294967296 1024 1073741824 12 21600 "" "" "" "".
Definition sample_uuid := "0123abcd-0000-4000-8000-0123456789ab".
Definition sample_root := "/var/lib/octomus/data/repos/acme_widgets/tasks/" +:+ sample_uuid.
(** A file system in which every path is a directory of the sandbox user but
    the .git pointer. *)
Definition sample_lstat (path : string) : result FileInfo error :=
  Ok (mkFileInfo (if HasSuffix path "/.git" then 420 else ModeDir + 493) (Some 10001%Z)).
Definition sample_run : Request :=
  mkRequest KindRunner (sample_root +:+ "/workspace") RunnerCodex RunnerModeStdio "" ["OPENCODE_MODEL=x"] true false 600 0.
Example plan_ok : (Plan_rel <$> match plan sample_lstat sample_broker sample_run with Ok p => Some p | Err _ => None end)
  = Some ("repos/acme_widgets/tasks/" +:+ sample_uuid).
Proof. vm_compute. reflexivity. Qed.
Example plan_refused : map (fun dir => is_ok (plan sample_lstat sample_broker (sample_run <| Request_Dir := dir |>)))
  [sample_root +:+ "/../../workspace"; "/var/lib/octomus/data/workspace"; sample_root; "/etc/workspace"] = [false; false; false; false].
Proof. vm_compute. reflexivity. Qed.
Definition sample_base : list string := ["var"; "lib"; "octomus"; "data"].
Lemma sample_base_plain : Forall plain_part sample_base.
Proof. plain_literals. Qed.
Lemma plan_spec_witness : exists p, plan sample_lstat sample_broker sample_run = Ok p /\ well_formed sample_run.
Proof.
  destruct (plan sample_lstat sample_broker sample_run) as [p|e] eqn:E; [|vm_compute in E; discriminate E].
  exists p. split; [reflexivity|]. exact (proj1 (proj1 (plan_spec sample_lstat sample_broker sample_base sample_base_plain eq_refl sample_run p) E)).
Defined.
Lemma container_confined_witness : exists p, plan sample_lstat sample_broker sample_run = Ok p
  /\ Privileged (HostConfig (container None sample_broker p [])) = false.
Proof.
  destruct (plan sample_lstat sample_broker sample_run) as [p|e] eqn:E; [|vm_compute in E; discriminate E].
  exists p. split; [reflexivity|].
  exact (proj1 (proj1 (container_confined sample_lstat sample_broker sample_base sample_base_plain eq_refl sample_run p [] E))).
Defined.
