(* ===== verification/WebSocket.v ===== *)
(** * The WebSocket client of the chat providers ([internal/chat/wsconn.go])

    Frames and messages on an established connection, and the pauses between
    connections.  The connection's reader is the list of the bytes it will
    still deliver before it ends; what the client writes is a list of bytes,
    and every write is accepted.  [masks] is the stream of masking keys
    [rand.Read] yields.  The loop of [ReadMessage] runs on fuel bounded by the
    bytes left ([ReadMessage_total]). *)
From S2P Require Import Prelude GoStrings Utf8 GoErrors Wire.
Local Open Scope string_scope.
Local Open Scope list_scope.
Local Open Scope N_scope.

Definition maxWSMessage : N := 4194304.
Definition wsText : N := 1.
Definition wsBinary : N := 2.
Definition wsClose : N := 8.
Definition wsPing : N := 9.
Definition wsPong : N := 10.

(** What ends a connection: the peer's close code or another error. *)
Inductive wsError :=
| wsCloseError (Code : N) (Reason : list ascii)
| wsFailed (err : error).

(** [payload[i] ^ mask[i%4]]. *)
Definition mask_byte (mask : list ascii) (i : nat) (b : ascii) : ascii :=
  byte_of (N.lxor (val b) (val (default zero (mask !! (i mod 4)%nat)))).
Definition apply_mask (mask payload : list ascii) : list ascii := imap (mask_byte mask) payload.

(** ** Reading *)

(** The extended length: two or eight more bytes. *)
Definition read_length (length : N) (r : list ascii) : result (N * list ascii) error :=
  if length =? 126 then let! read := ReadFull 2 r in Ok (be (fst read), snd read) else
  if length =? 127 then let! read := ReadFull 8 r in Ok (be (fst read), snd read) else
  Ok (length, r).
Definition readFrame (r : list ascii) : result (bool * N * list ascii * list ascii) error :=
  let! read := ReadFull 2 r in
  let '(head, r) := read in
  let head0 := val (default zero (head !! 0%nat)) in
  let head1 := val (default zero (head !! 1%nat)) in
  let fin := negb (N.land head0 128 =? 0) in
  let op := N.land head0 15 in
  let masked := negb (N.land head1 128 =? 0) in
  let length := N.land head1 127 in
  let! extended := read_length length r in
  let '(length, r) := extended in
  guard negb (maxWSMessage <? length) else New "websocket frame too large";
  let! key := if masked then ReadFull 4 r else Ok ([], r) in
  let '(mask, r) := key in
  let! read := ReadFull (N.to_nat length) r in
  let '(payload, r) := read in
  Ok (fin, op, if masked then apply_mask mask payload else payload, r).

(** ** Writing *)

(** [binary.BigEndian.PutUint64]. *)
Fixpoint put_be (k : nat) (n : N) : list ascii :=
  match k with
  | O => []
  | S k => byte_of (N.shiftr n (8 * N.of_nat k)) :: put_be k n
  end.
Definition frame_head (op : N) (n : N) : list ascii :=
  byte_of (N.lor 128 op) ::
  (if n <? 126 then [byte_of (N.lor 128 n)] else
   if n <=? 65535 then [byte_of (N.lor 128 126); byte_of (N.shiftr n 8); byte_of n] else
   byte_of (N.lor 128 127) :: put_be 8 n).
Definition writeFrame (mask : list ascii) (op : N) (payload : list ascii) : list ascii :=
  frame_head op (lenN payload) ++ mask ++ apply_mask mask payload.
Definition WriteMessage (mask data : list ascii) : list ascii := writeFrame mask wsText data.
Definition Ping (mask : list ascii) : list ascii := writeFrame mask wsPing (chars "octomus").

(** ** Messages *)

(** A close frame's code and reason; 1005 is no status. *)
Definition close_error (payload : list ascii) : wsError :=
  if (2 <=? lenN payload) then wsCloseError (be (take 2 payload)) (drop 2 payload) else wsCloseError 1005 [].
(** One reader, the keys used so far and what was written. *)
Record wsConn := mkConn { incoming : list ascii; keys : nat; outgoing : list ascii }.
Fixpoint read_loop (masks : nat -> list ascii) (fuel : nat) (c : wsConn) (message : list ascii)
    : option (wsConn * result (list ascii) wsError) :=
  match fuel with
  | O => None
  | S fuel =>
    match readFrame (incoming c) with
    | Err err => Some (c, Err (wsFailed err))
    | Ok (fin, op, payload, rest) =>
      let c := mkConn rest (keys c) (outgoing c) in
      if op =? wsPing then
        read_loop masks fuel
          (mkConn rest (S (keys c)) (outgoing c ++ writeFrame (masks (keys c)) wsPong payload)) message
      else if op =? wsPong then read_loop masks fuel c message
      else if op =? wsClose then Some (c, Err (close_error payload))
      else if (op =? wsText) || (op =? wsBinary) || (op =? 0) then
        let message := message ++ payload in
        if maxWSMessage <? lenN message then Some (c, Err (wsFailed (New "websocket message too large")))
        else if fin then Some (c, Ok message) else read_loop masks fuel c message
      else read_loop masks fuel c message
    end
  end.
Definition ReadMessage (masks : nat -> list ascii) (c : wsConn) : option (wsConn * result (list ascii) wsError) :=
  read_loop masks (S (List.length (incoming c))) c [].

(** ** Pauses between connections *)

Definition healthyConnection : Z := 60000000000.
Definition reconnectAttempt (attempt : N) (servedFor : Z) : N :=
  if (healthyConnection <=? servedFor)%Z then 0 else attempt + 1.
(** [jitter] is the byte [rand.Read] yields. *)
Definition backoffDelay (attempt : N) (jitter : N) : Z :=
  let d := Z.shiftl 1000000000 (Z.of_N (N.min attempt 6)) in
  let d := if (60000000000 <? d)%Z then 60000000000%Z else d in
  (d + Z.of_N (jitter mod 50) * 10000000)%Z.
(** The provider's delay, when the error carries one. *)
Definition reconnectDelay (attempt jitter : N) (retryAfter : option Z) : Z :=
  let delay := backoffDelay attempt jitter in
  match retryAfter with Some after => Z.max delay after | None => delay end.

Definition sample_mask : list ascii := chars "k3y!".
Example frame_ok : readFrame (WriteMessage sample_mask (chars "hello") ++ chars "xy") = Ok (true, wsText, chars "hello", chars "xy").
Proof. vm_compute. reflexivity. Qed.
Example message_ok : ReadMessage (fun _ => sample_mask)
  (mkConn (map ascii_of_N [1; 2; 104; 105; 137; 1; 112; 128; 1; 33; 136; 2; 3; 232]) 0 [])
  = Some (mkConn (map ascii_of_N [136; 2; 3; 232]) 1 (writeFrame sample_mask wsPong (chars "p")), Ok (chars "hi!")).
Proof. vm_compute. reflexivity. Qed.

(** ** Frames round-trip *)

Lemma lxor_byte a b : a < 256 -> b < 256 -> N.lxor a b < 256.
Proof.
  intros A B. destruct (N.eq_dec (N.lxor a b) 0) as [->|N]; [done|].
  change 256 with (2 ^ 8) in *. apply N.log2_lt_pow2; [lia|].
  pose proof (N.log2_lxor a b) as L. apply (N.le_lt_trans _ _ _ L). apply N.max_lub_lt.
  - destruct (N.eq_dec a 0) as [->|]; [done|]. apply N.log2_lt_pow2; [lia|done].
  - destruct (N.eq_dec b 0) as [->|]; [done|]. apply N.log2_lt_pow2; [lia|done].
Qed.
Lemma mask_byte_twice mask i b : mask_byte mask i (mask_byte mask i b) = b.
Proof.
  unfold mask_byte. rewrite val_byte by (apply lxor_byte; apply val_lt).
  rewrite N.lxor_assoc, N.lxor_nilpotent, N.lxor_0_r. apply byte_of_val_id.
Qed.
Lemma apply_mask_twice mask payload : apply_mask mask (apply_mask mask payload) = payload.
Proof.
  unfold apply_mask. apply list_eq. intros i. rewrite !list_lookup_imap.
  destruct (payload !! i) as [b|]; simpl; [|done]. by rewrite mask_byte_twice.
Qed.
Lemma apply_mask_length mask payload : List.length (apply_mask mask payload) = List.length payload.
Proof. apply length_imap. Qed.

Lemma put_be_cons c l : be (c :: l) = val c * 256 ^ lenN l + be l.
Proof.
  unfold be. cbn [foldl].
  assert (forall acc, foldl (fun acc c => acc * 256 + val c) acc l = acc * 256 ^ lenN l + foldl (fun acc c => acc * 256 + val c) 0 l) as G.
  { induction l as [|x l IH]; intros acc; cbn [foldl]; [unfold lenN; simpl; lia|].
    rewrite IH, (IH (0 * 256 + val x)). replace (lenN (x :: l)) with (N.succ (lenN l)) by (unfold lenN; simpl; lia).
    rewrite N.pow_succ_r'. lia. }
  rewrite G. f_equal.
Qed.
Lemma put_be_length k n : List.length (put_be k n) = k.
Proof. by induction k; simpl; f_equal. Qed.
Lemma be_put_be k n : be (put_be k n) = n mod 256 ^ N.of_nat k.
Proof.
  induction k as [|k IH]; [by rewrite N.mod_1_r|]. cbn [put_be]. rewrite put_be_cons, IH.
  unfold lenN. rewrite put_be_length, N.shiftr_div_pow2.
  replace (2 ^ (8 * N.of_nat k)) with (256 ^ N.of_nat k) by (rewrite N.pow_mul_r; done).
  rewrite <- byte_of_mod, val_byte by (by apply N.mod_lt).
  rewrite Nat2N.inj_succ, N.pow_succ_r', (N.mul_comm 256), N.Div0.mod_mul_r. lia.
Qed.

(** A decidable property of the numbers below a bound, by enumeration. *)
Lemma below_check (P : N -> Prop) `{forall x, Decision (P x)} k :
  forallb (fun x => bool_decide (P x)) (map N.of_nat (seq 0 k)) = true -> forall x, x < N.of_nat k -> P x.
Proof.
  rewrite forallb_forall. intros F x L. eapply bool_decide_eq_true, F, in_map_iff.
  exists (N.to_nat x). split; [lia|]. apply in_seq. lia.
Qed.
Definition flag (b : bool) : N := if b then 128 else 0.
Lemma opcode_bits fin op : op < 16 ->
  negb (N.land (flag fin + op) 128 =? 0) = fin /\ N.land (flag fin + op) 15 = op.
Proof.
  destruct fin; revert op; [apply (below_check (fun op => negb (N.land (flag true + op) 128 =? 0) = true /\ N.land (flag true + op) 15 = op) 16)
    |apply (below_check (fun op => negb (N.land (flag false + op) 128 =? 0) = false /\ N.land (flag false + op) 15 = op) 16)];
    vm_compute; reflexivity.
Qed.
Lemma length_bits masked n : n < 128 ->
  negb (N.land (flag masked + n) 128 =? 0) = masked /\ N.land (flag masked + n) 127 = n.
Proof.
  destruct masked; revert n; [apply (below_check (fun n => negb (N.land (flag true + n) 128 =? 0) = true /\ N.land (flag true + n) 127 = n) 128)
    |apply (below_check (fun n => negb (N.land (flag false + n) 128 =? 0) = false /\ N.land (flag false + n) 127 = n) 128)];
    vm_compute; reflexivity.
Qed.
Lemma lor_flag n : n < 128 -> N.lor 128 n = flag true + n.
Proof. intros L. change 128 with (1 * 2 ^ 7) at 1. by rewrite lor_tag. Qed.

(** A frame of either side, and its bytes in the shortest form. *)
Record frame := mkFrame { f_fin : bool; f_op : N; f_mask : option (list ascii); f_payload : list ascii }.
Definition frame_length (masked : bool) (n : N) : list ascii :=
  if n <? 126 then [byte_of (flag masked + n)] else
  if n <=? 65535 then byte_of (flag masked + 126) :: put_be 2 n else byte_of (flag masked + 127) :: put_be 8 n.
Definition encode (f : frame) : list ascii :=
  byte_of (flag (f_fin f) + f_op f) :: frame_length (match f_mask f with Some _ => true | None => false end) (lenN (f_payload f))
  ++ match f_mask f with Some mask => mask ++ apply_mask mask (f_payload f) | None => f_payload f end.
Record well_sized (f : frame) : Prop := {
  op_sized : f_op f < 16;
  mask_sized : forall mask, f_mask f = Some mask -> List.length mask = 4%nat;
  payload_sized : lenN (f_payload f) <= maxWSMessage;
}.
Lemma writeFrame_encode mask op payload :
  op < 16 -> writeFrame mask op payload = encode (mkFrame true op (Some mask) payload).
Proof.
  intros O. unfold writeFrame, encode, frame_head, frame_length. cbn [f_fin f_op f_mask f_payload app].
  rewrite lor_flag by lia. repeat destruct_cond; bool_hyps; try (by rewrite lor_flag by lia); try done.
Qed.
Lemma read_length_encoded masked n r : n <= maxWSMessage ->
  exists k ext, frame_length masked n = byte_of (flag masked + k) :: ext /\ k < 128 /\ read_length k (ext ++ r) = Ok (n, r).
Proof.
  unfold maxWSMessage, frame_length, read_length. intros L. destruct (N.ltb_spec n 126); [|destruct (N.leb_spec n 65535)].
  - exists n, []. split_and!; [done|lia|]. destruct (N.eqb_spec n 126), (N.eqb_spec n 127); (lia || done).
  - exists 126, (put_be 2 n). split_and!; [done|lia|]. cbn [N.eqb]. rewrite (ReadFull_app' 2) by done. cbn [result_bind fst snd].
    by rewrite be_put_be, N.mod_small by (simpl; lia).
  - exists 127, (put_be 8 n). split_and!; [done|lia|]. cbn [N.eqb]. rewrite (ReadFull_app' 8) by done. cbn [result_bind fst snd].
    by rewrite be_put_be, N.mod_small by (simpl; lia).
Qed.
Lemma flag_byte b n : n < 128 -> val (byte_of (flag b + n)) = flag b + n.
Proof. intros L. apply val_byte. destruct b; simpl; lia. Qed.
Lemma readFrame_encoded f rest :
  well_sized f -> readFrame (encode f ++ rest) = Ok (f_fin f, f_op f, f_payload f, rest).
Proof.
  intros [O M P]. unfold readFrame, encode. set (masked := match f_mask f with Some _ => true | None => false end).
  set (body := match f_mask f with Some mask => _ | None => _ end).
  destruct (opcode_bits (f_fin f) (f_op f) O) as (FIN & OP).
  destruct (read_length_encoded masked (lenN (f_payload f)) (body ++ rest) P) as (k & ext & -> & K & EXT).
  destruct (length_bits masked k K) as (MASK & LEN). cbn [app].
  change (?a :: ?b :: ?t) with ([a; b] ++ t). rewrite (ReadFull_app' 2) by done. cbn [result_bind].
  change (default zero ([?a; ?b] !! 0%nat)) with a. change (default zero ([?a; ?b] !! 1%nat)) with b.
  rewrite !flag_byte, FIN, OP, MASK, LEN by lia.
  rewrite <- app_assoc, EXT. cbn [result_bind]. apply N.ltb_ge in P as ->. cbn [negb]. subst masked body.
  destruct (f_mask f) as [mask|].
  - rewrite <- app_assoc, (ReadFull_app' 4) by (by apply M). cbn [result_bind].
    rewrite ReadFull_app' by (rewrite apply_mask_length; unfold lenN; lia). cbn [result_bind]. by rewrite apply_mask_twice.
  - cbn [result_bind]. rewrite ReadFull_app' by (unfold lenN; lia). done.
Qed.

(** ** Messages *)

Definition is_data (op : N) : bool := (op =? wsText) || (op =? wsBinary) || (op =? 0).
Lemma data_not_control op :
  is_data op = true -> op =? wsPing = false /\ op =? wsPong = false /\ op =? wsClose = false.
Proof.
  unfold is_data, wsText, wsBinary, wsPing, wsPong, wsClose. rewrite !orb_true_iff, !N.eqb_eq, !N.eqb_neq. lia.
Qed.
(** The frames of one message: [delivers fs acc m pings] when reading [fs] after
    the data [acc] ends with the message [m], the pings among them in order. *)
Inductive delivers : list frame -> list ascii -> list ascii -> list (list ascii) -> Prop :=
| deliver_last f acc : is_data (f_op f) = true -> f_fin f = true -> lenN (acc ++ f_payload f) <= maxWSMessage ->
    delivers [f] acc (acc ++ f_payload f) []
| deliver_part f fs acc m pings : is_data (f_op f) = true -> f_fin f = false -> lenN (acc ++ f_payload f) <= maxWSMessage ->
    delivers fs (acc ++ f_payload f) m pings -> delivers (f :: fs) acc m pings
| deliver_ping f fs acc m pings : f_op f = wsPing ->
    delivers fs acc m pings -> delivers (f :: fs) acc m (f_payload f :: pings)
| deliver_skip f fs acc m pings : is_data (f_op f) = false -> f_op f <> wsPing -> f_op f <> wsClose ->
    delivers fs acc m pings -> delivers (f :: fs) acc m pings.

Lemma readFrame_shorter r fin op payload rest :
  readFrame r = Ok (fin, op, payload, rest) -> (List.length rest < List.length r)%nat.
Proof.
  unfold readFrame. intros E. apply result_bind_Ok in E as ([head r1] & [-> L]%ReadFull_Ok & E).
  apply result_bind_Ok in E as ([n r2] & X & E). apply guard_Ok in E as [_ E].
  apply result_bind_Ok in E as ([mask r3] & Y & E). apply result_bind_Ok in E as ([p r4] & [-> _]%ReadFull_Ok & E).
  injection E as _ _ _ <-.
  assert (List.length r2 <= List.length r1)%nat.
  { unfold read_length in X. destruct (_ =? 126); [|destruct (_ =? 127); [|by injection X as <- <-]];
      apply result_bind_Ok in X as ([a b] & [-> _]%ReadFull_Ok & [= _ <-]); cbn [snd]; rewrite length_app; lia. }
  assert (List.length (p ++ r4) <= List.length r2)%nat.
  { revert Y. destruct_cond; [|by intros [= <- <-]]. intros [-> _]%ReadFull_Ok. rewrite !length_app. lia. }
  rewrite !length_app in *. lia.
Qed.

Section messages.
Context (masks : nat -> list ascii).

Lemma read_loop_total fuel c acc : (List.length (incoming c) < fuel)%nat -> is_Some (read_loop masks fuel c acc).
Proof.
  revert c acc. induction fuel as [|fuel IH]; intros c acc L; [lia|]. cbn [read_loop].
  destruct (readFrame (incoming c)) as [[[[fin op] payload] rest]|err] eqn:R; [|by eexists].
  apply readFrame_shorter in R. repeat destruct_cond; first [by eexists|apply IH; simpl; lia].
Qed.
Lemma read_loop_bounded fuel c acc c' m :
  read_loop masks fuel c acc = Some (c', Ok m) -> lenN m <= maxWSMessage.
Proof.
  revert c acc. induction fuel as [|fuel IH]; intros c acc; cbn [read_loop]; [done|].
  destruct (readFrame (incoming c)) as [[[[fin op] payload] rest]|err]; [|done].
  repeat destruct_cond; try apply IH; try done. bool_hyps. by intros [= _ <-].
Qed.

(** The answers to the pings, under the next keys. *)
Fixpoint pongs (key : nat) (pings : list (list ascii)) : list ascii :=
  match pings with
  | [] => []
  | p :: pings => writeFrame (masks key) wsPong p ++ pongs (S key) pings
  end.
Lemma read_loop_delivers fs acc m pings rest : delivers fs acc m pings -> Forall well_sized fs ->
  forall fuel c, incoming c = flat_map encode fs ++ rest -> (List.length fs < fuel)%nat ->
  read_loop masks fuel c acc =
    Some (mkConn rest (keys c + List.length pings) (outgoing c ++ pongs (keys c) pings), Ok m).
Proof.
  induction 1 as [f acc D F L|f fs acc m pings D F L _ IH|f fs acc m pings P _ IH|f fs acc m pings D P C _ IH];
    intros W fuel c I B; (destruct fuel as [|fuel]; [simpl in B; lia|]); apply Forall_cons in W as [Wf W];
    cbn [read_loop]; cbn [flat_map] in I; rewrite I, <- app_assoc, readFrame_encoded by done; cbn beta iota zeta;
    simpl in B.
  - destruct (data_not_control _ D) as (-> & -> & ->). unfold is_data in D.
    rewrite D. apply N.ltb_ge in L as ->. rewrite F. simpl. by rewrite Nat.add_0_r, app_nil_r.
  - destruct (data_not_control _ D) as (-> & -> & ->). unfold is_data in D.
    rewrite D. apply N.ltb_ge in L as ->. rewrite F. by rewrite IH by (done || lia).
  - rewrite P. cbn [N.eqb]. change (wsPing =? wsPing) with true. cbn iota. rewrite IH by (done || lia). cbn [keys outgoing pongs List.length].
    by rewrite <- app_assoc, Nat.add_succ_r.
  - unfold is_data in D. apply N.eqb_neq in P as ->, C as ->. rewrite D. destruct (_ =? wsPong); by rewrite IH by (done || lia).
Qed.
End messages.
Lemma encode_length f : (1 <= List.length (encode f))%nat.
Proof. unfold encode. simpl. lia. Qed.
Lemma flat_map_encode_length fs : (List.length fs <= List.length (flat_map encode fs))%nat.
Proof. induction fs as [|f fs IH]; [done|]. cbn [flat_map List.length]. rewrite length_app. pose proof (encode_length f). lia. Qed.

(** Reading a message always ends, and never returns one of more than
    4 MiB.  When the peer sends the frames of a message in any fragmentation,
    masked or not, with pings, pongs and unknown control frames in between,
    [ReadMessage] returns exactly the concatenation of the data, leaves exactly
    what follows the last frame, and has answered every ping, in order, with a
    masked pong of the same payload. *)
Theorem ReadMessage_spec masks c :
  is_Some (ReadMessage masks c)
  /\ (forall c' m, ReadMessage masks c = Some (c', Ok m) -> lenN m <= maxWSMessage)
  /\ forall fs m pings rest,
       Forall well_sized fs -> delivers fs [] m pings -> incoming c = flat_map encode fs ++ rest ->
       ReadMessage masks c =
         Some (mkConn rest (keys c + List.length pings) (outgoing c ++ pongs masks (keys c) pings), Ok m).
Proof.
  unfold ReadMessage. split_and!; [apply read_loop_total; lia|intros ? ?; apply read_loop_bounded|].
  intros fs m pings rest W D I. eapply read_loop_delivers; [exact D|exact W|exact I|].
  rewrite I, length_app. pose proof (flat_map_encode_length fs). lia.
Qed.

(** Whatever text message the client writes, up to 4 MiB, a peer with the
    same reader receives byte for byte, and nothing of what follows it. *)
Theorem WriteMessage_roundtrip masks mask data rest k out :
  List.length mask = 4%nat -> lenN data <= maxWSMessage ->
  ReadMessage masks (mkConn (WriteMessage mask data ++ rest) k out) = Some (mkConn rest k out, Ok data).
Proof.
  intros M L. unfold WriteMessage, ReadMessage. rewrite writeFrame_encode by done.
  set (f := mkFrame true wsText (Some mask) data).
  rewrite (read_loop_delivers masks [f] [] data [] rest).
  - cbn [pongs List.length keys outgoing]. by rewrite Nat.add_0_r, app_nil_r.
  - by apply (deliver_last f []).
  - apply Forall_singleton. split; [done|by intros ? [= <-]|done].
  - cbn [incoming flat_map]. by rewrite app_nil_r.
  - cbn [incoming List.length]. rewrite length_app. pose proof (encode_length f). lia.
Qed.
Lemma WriteMessage_roundtrip_witness :
  ReadMessage (fun _ => sample_mask) (mkConn (WriteMessage sample_mask (chars "hello") ++ chars "xy") 0 [])
  = Some (mkConn (chars "xy") 0 [], Ok (chars "hello")).
Proof. apply WriteMessage_roundtrip; [reflexivity|vm_compute; discriminate]. Defined.

(** ** Pauses *)

Lemma backoffDelay_bounds attempt jitter :
  (1000000000 <= backoffDelay attempt jitter <= 60490000000)%Z.
Proof.
  unfold backoffDelay. rewrite Z.shiftl_mul_pow2 by lia.
  pose proof (N.mod_lt jitter 50 ltac:(done)) as J.
  assert (1 <= 2 ^ Z.of_N (N.min attempt 6))%Z by (apply (Z.pow_le_mono_r 2 0); lia).
  destruct (Z.ltb_spec 60000000000 (1000000000 * 2 ^ Z.of_N (N.min attempt 6))); lia.
Qed.
