(* ===== verification/Chat.v ===== *)
(** * Chat: commands, configuration and replies ([internal/chat])

    How the text of an invocation from Slack or Discord is parsed
    ([commands.go]), who may drive the service ([config.go]), and how a reply is
    cut to the provider's limit ([chat.go]); [clean] is [cleanText]. *)
From S2P Require Import Prelude GoStrings Utf8 GoErrors Config GoTime Wire Runes.
Local Open Scope string_scope.
Local Open Scope list_scope.
Local Open Scope N_scope.

(** ** Commands ([commands.go]) *)

(** [strings.Fields] with the offset just past each field. *)
Record token := mkToken { value : string; end_ : nat }.
Fixpoint index_from (field : list ascii) (l : list ascii) : option nat :=
  if bool_decide (field `prefix_of` l) then Some O else
  match l with [] => None | _ :: t => S <$> index_from field t end.
Fixpoint tokens_from (text : list ascii) (cursor : nat) (fields : list string) : list token :=
  match fields with
  | [] => []
  | field :: fields =>
    match index_from (chars field) (drop cursor text) with
    | None => []
    | Some idx => let stop := (cursor + idx + String.length field)%nat in
                  mkToken field stop :: tokens_from text stop fields
    end
  end.
(** The flags, in order: the repository, the other words and the unknown flags. *)
Fixpoint sort_tokens (tokens : list token) (repo : string) : string * list token * list string :=
  match tokens with
  | [] => (repo, [], [])
  | t :: rest =>
    let plain :=
      if HasPrefix (value t) "--repo=" then sort_tokens rest (TrimPrefix (value t) "--repo=")
      else let '(repo, kept, unknown) := sort_tokens rest repo in
           if HasPrefix (value t) "--" then (repo, kept, value t :: unknown) else (repo, t :: kept, unknown) in
    match rest with
    | next :: rest' => if bool_decide (value t = "--repo") then sort_tokens rest' (value next) else plain
    | [] => plain
    end
  end.

Definition ascii_space (c : ascii) : bool := char_in c (str (map ascii_of_N [32; 9; 10; 13])).
Fixpoint span_chars (f : ascii -> bool) (l : list ascii) : list ascii * list ascii :=
  match l with
  | [] => ([], [])
  | c :: t => if f c then let '(a, b) := span_chars f t in (c :: a, b) else ([], l)
  end.
(** The text of a flag at the head of a text and what follows it, if one starts
    there. *)
Definition repo_flag (text : list ascii) : option (list ascii * list ascii) :=
  if negb (bool_decide (chars "--repo" `prefix_of` text)) then None else
  let rest := drop 6 text in
  match rest with
  | "="%char :: _ => let '(value, after) := span_chars (fun c => negb (ascii_space c)) (drop 7 text) in
                     Some (take 7 text ++ value, after)
  | [] => Some (take 6 text, [])
  | c :: _ =>
    if ascii_space c then
      let '(spaces, rest) := span_chars ascii_space rest in
      let '(value, after) := span_chars (fun c => negb (ascii_space c)) rest in
      Some (take 6 text ++ spaces ++ value, after)
    else None
  end.
(** [previous] is the byte before the text. *)
Fixpoint strip_loop (fuel : nat) (previous : option ascii) (text : list ascii) : list ascii :=
  match fuel with
  | O => []
  | S fuel =>
    match text with
    | [] => []
    | c :: t =>
      let boundary := match previous with None => true | Some p => ascii_space p end in
      match (if boundary then repo_flag text else None) with
      | Some (flag, after) => strip_loop fuel (last flag) after
      | None => c :: strip_loop fuel (Some c) t
      end
    end
  end.
Definition stripRepoFlag (text : string) : string :=
  str (strip_loop (S (String.length text)) None (chars text)).

Section parse.
Context `{Unicode}.
Record parsed := mkParsed { verb : string; fields : list string; rest : string; repo : string }.
Definition unknown_flag (flag : string) : error := Errorf "Unknown flag %s; only --repo is supported" [VStr flag].
Definition parseCommand (text : string) : result parsed error :=
  let '(repo, kept, unknown) := sort_tokens (tokens_from (chars text) 0 (Fields text)) "" in
  match kept with
  | [] => match unknown with
          | flag :: _ => Err (unknown_flag flag)
          | [] => Ok (mkParsed "help" [] "" repo)
          end
  | first :: kept =>
    let verb := ToLower (value first) in
    match unknown with
    | flag :: _ =>
      if negb (bool_decide (verb = "request")) then Err (unknown_flag flag)
      else Ok (mkParsed verb (map value kept) (TrimSpace (stripRepoFlag (str (drop (end_ first) (chars text))))) repo)
    | [] => Ok (mkParsed verb (map value kept) (TrimSpace (stripRepoFlag (str (drop (end_ first) (chars text))))) repo)
    end
  end.
End parse.

Example parse_request :
  parseCommand "request --repo acme/w Fix it :: see --help
 here" = Ok (mkParsed "request" ["Fix"; "it"; "::"; "see"; "here"] "Fix it :: see --help
 here" "acme/w").
Proof. vm_compute. reflexivity. Qed.
Example parse_unknown : parseCommand "status --all" = Err (unknown_flag "--all").
Proof. vm_compute. reflexivity. Qed.
Example parse_help : parseCommand "  --repo=a/b " = Ok (mkParsed "help" [] "" "a/b").
Proof. vm_compute. reflexivity. Qed.
(** White space that [strings.Fields] splits at and [stripRepoFlag] does not
    know: the repository ends before the vertical tab for the one, and the rest
    of the word is taken for its value by the other. *)
Example flag_span_differs :
  let text := "request --repo a/b" +:+ str [ascii_of_N 11] +:+ "Title" in
  parseCommand text = Ok (mkParsed "request" ["Title"] "" "a/b").
Proof. vm_compute. reflexivity. Qed.

(** ** Providers and replies ([config.go], [chat.go]) *)

Inductive Provider := SlackProvider | DiscordProvider.
#[export] Instance Provider_eq_dec : EqDecision Provider.
Proof. solve_decision. Defined.
Definition Provider_name (p : Provider) : string :=
  match p with SlackProvider => "slack" | DiscordProvider => "discord" end.
Record ProviderConfig := mkProviderConfig {
  Provider_ : Provider; AppToken : string; BotToken : string; AppID : string; GuildID : string;
  Operators : gmap string bool; Bindings : gmap string string; AlertChannel : string }.
(** [providerFromEnv]; [get] is the environment with its values trimmed. *)
Definition operators_of (ids : list string) : gmap string bool :=
  foldl (fun m id => let id := TrimSpace id in if bool_decide (id = "") then m else <[id := true]> m) ∅ ids.
Fixpoint bindings_of (channelsEnv : string) (entries : list string) (m : gmap string string) : result (gmap string string) error :=
  match entries with
  | [] => Ok m
  | entry :: entries =>
    let entry := TrimSpace entry in
    if bool_decide (entry = "") then bindings_of channelsEnv entries m else
    let '(channel, repo, ok) := Cut entry "="%char in
    guard negb (negb ok || bool_decide (TrimSpace channel = "") || negb (ValidGitHubRepo (TrimSpace repo)))
      else Errorf "%s entries must look like CHANNEL_ID=OWNER/REPOSITORY" [VStr channelsEnv];
    bindings_of channelsEnv entries (<[TrimSpace channel := TrimSpace repo]> m)
  end.
Definition providerFromEnv (get : string -> string) (p : Provider) (operatorsEnv channelsEnv : string)
    : result ProviderConfig error :=
  let operators := operators_of (Split (get operatorsEnv) ","%char) in
  guard negb (bool_decide (operators = ∅))
    else Errorf "Set %s to your comma-separated %s user IDs: chat commands are operator-only"
           [VStr operatorsEnv; VStr (Provider_name p)];
  let! bindings := bindings_of channelsEnv (Split (get channelsEnv) ","%char) ∅ in
  Ok (mkProviderConfig p "" "" "" "" operators bindings "").
Record ChatConfig := mkChatConfig { Slack : option ProviderConfig; Discord : option ProviderConfig }.
Definition provider (c : ChatConfig) (p : Provider) : option ProviderConfig :=
  match p with SlackProvider => Slack c | DiscordProvider => Discord c end.
Definition Authorized (c : ChatConfig) (p : Provider) (userID : string) : bool :=
  match provider c p with
  | None => false
  | Some pc => negb (bool_decide (userID = "")) && default false (Operators pc !! userID)
  end.

Record Invocation := mkInvocation {
  Inv_Provider : Provider; Inv_EventID : string; Inv_UserID : string; Inv_ChannelID : string; Inv_ThreadID : string;
  Inv_Text : string; Inv_Action : string }.
Record Button := mkButton { Label : string; Value : string }.
Record Response := mkResponse { Text : string; Buttons : list Button }.
Definition maxTextLen : nat := 1900.
(** [utf8.RuneLen] of a decoded rune. *)
Definition RuneLen (r : N) : nat := if r <? 128 then 1 else if r <? 2048 then 2 else if r <? 65536 then 3 else 4.
Fixpoint prefix_loop (steps : list (N * nat)) (i limit : nat) : option nat :=
  match steps with
  | [] => None
  | (r, n) :: steps => if (limit <? i + RuneLen r)%nat then Some i else prefix_loop steps (i + n) limit
  end.
Definition utf8Prefix (text : list ascii) (limit : nat) : list ascii :=
  match prefix_loop (steps text) 0 limit with Some i => take i text | None => text end.
Definition truncated_suffix : list ascii := ascii_of_N 10 :: map ascii_of_N [226; 128; 166] ++ chars " (truncated)".
Definition boundTextLimit (clean : string -> string) (text : string) (limit : nat) : list ascii :=
  let cleaned := chars (clean text) in
  if (List.length cleaned <=? limit)%nat then cleaned else
  if (limit <=? List.length truncated_suffix)%nat then utf8Prefix truncated_suffix limit
  else utf8Prefix cleaned (limit - List.length truncated_suffix) ++ truncated_suffix.
Definition boundText (clean : string -> string) (text : string) : list ascii := boundTextLimit clean text maxTextLen.

(** ** Replies fit the provider's limit *)

Lemma RuneLen_size l : l <> [] -> (snd (decode_rune l) <= RuneLen (fst (decode_rune l)))%nat.
Proof.
  intros N. pose proof (decode_size l N) as S. pose proof (decode_scalar l) as [M SU].
  destruct (decode_rune l) as [r n] eqn:E. cbn [fst snd] in *.
  destruct (decide (r = RuneError /\ n = 1%nat)) as [[-> ->]|V]; [vm_compute; lia|].
  pose proof (encode_decode _ _ _ E N V) as Enc. apply (f_equal (@List.length ascii)) in Enc.
  rewrite length_take, Nat.min_l in Enc by lia. rewrite <- Enc. unfold encode_rune, RuneLen.
  destruct (in_range 55296 57343 r) eqn:I; [apply in_range_spec in I; lia|].
  destruct (N.ltb_spec 1114111 r); [lia|]. cbn [orb]. by repeat destruct_cond.
Qed.
Lemma steps_RuneLen skip l : Forall (fun x => (snd x <= RuneLen (fst x))%nat) (steps_from skip l).
Proof.
  revert skip. induction l as [|c l IH]; intros skip; cbn [steps_from]; [constructor|]. destruct skip; [|apply IH].
  pose proof (RuneLen_size (c :: l) ltac:(done)) as R. destruct (decode_rune (c :: l)) as [r n].
  constructor; [exact R|apply IH].
Qed.
Lemma prefix_loop_bound k i limit : Forall (fun x => (snd x <= RuneLen (fst x))%nat) k -> (i <= limit)%nat ->
  match prefix_loop k i limit with Some j => (j <= limit)%nat | None => (i + width k <= limit)%nat end.
Proof.
  intros F. revert i. induction F as [|[r n] k R F IH]; intros i L; cbn [prefix_loop]; [unfold width; simpl; lia|].
  destruct (Nat.ltb_spec limit (i + RuneLen r)); [done|]. cbn [fst snd] in R.
  specialize (IH (i + n)%nat ltac:(lia)). destruct (prefix_loop _ _ _); [done|]. unfold width in *. simpl. lia.
Qed.
Lemma utf8Prefix_length text limit : (List.length (utf8Prefix text limit) <= limit)%nat.
Proof.
  unfold utf8Prefix. pose proof (prefix_loop_bound (steps text) 0 limit (steps_RuneLen 0 text) ltac:(lia)) as B.
  destruct (prefix_loop _ _ _); [rewrite length_take; lia|]. by rewrite steps_width in B.
Qed.
(** An enabled provider has operators, each named by the environment. *)
Lemma operators_of_Some ids id : operators_of ids !! id = Some true -> id <> "" /\ exists raw, raw ∈ ids /\ id = TrimSpace raw.
Proof.
  unfold operators_of. induction ids as [|x ids IH] using rev_ind; [by cbn [foldl]; rewrite lookup_empty|].
  rewrite foldl_app. cbn [foldl]. destruct (bool_decide_reflect (TrimSpace x = "")) as [E|N].
  - intros [? (raw & I & ->)]%IH. split; [done|]. exists raw. split; [apply elem_of_app; by left|done].
  - rewrite lookup_insert. destruct (decide (TrimSpace x = id)) as [<-|].
    + intros _. split; [done|]. exists x. split; [apply elem_of_app; right; by left|done].
    + intros [? (raw & I & ->)]%IH. split; [done|]. exists raw. split; [apply elem_of_app; by left|done].
Qed.
(** Every reply is at most as long as the limit, in bytes. *)
Lemma boundTextLimit_length clean text limit : (List.length (boundTextLimit clean text limit) <= limit)%nat.
Proof.
  unfold boundTextLimit. destruct (Nat.leb_spec (List.length (chars (clean text))) limit); [done|].
  destruct (Nat.leb_spec limit (List.length truncated_suffix)); [apply utf8Prefix_length|].
  rewrite length_app. pose proof (utf8Prefix_length (chars (clean text)) (limit - List.length truncated_suffix)). lia.
Qed.
