(* ===== verification/Strconv.v ===== *)
(** * Numbers and quoted text ([strconv])

    What the engine uses of [strconv]: [Atoi] on the counts git prints,
    [Unquote] on the paths it quotes, and [Quote] on the operands of a prompt.
    A quoted text reads back as itself, whatever bytes it holds. *)
From S2P Require Import Prelude GoStrings Utf8 WireJson Enums GoErrors.
Local Open Scope string_scope.
Local Open Scope list_scope.
Local Open Scope N_scope.

(** ** [strconv.Atoi] *)

Definition MaxInt : Z := 9223372036854775807.
Definition decimal_value (l : list ascii) : Z := foldl (fun n c => n * 10 + Z.of_N (N_of_ascii c - 48))%Z 0%Z l.
Definition is_decimal (l : list ascii) : bool :=
  negb (bool_decide (l = [])) && forallb (fun c => in_range 48 57 (N_of_ascii c)) l.
(** Of decimal digits or a dash: the value, and whether there is no error.  A
    value out of range is an error that comes with the largest integer. *)
Definition Atoi (s : string) : Z * bool :=
  if is_decimal (chars s) then
    let n := decimal_value (chars s) in
    if (MaxInt <? n)%Z then (MaxInt, false) else (n, true)
  else (0%Z, false).

(** ** [strconv.Unquote] of a text in double quotes *)

Definition line_feed : ascii := ascii_of_N 10.
Definition octal_digit (c : ascii) : option N :=
  let n := N_of_ascii c in if in_range 48 55 n then Some (n - 48) else None.
Fixpoint hex_value (n : N) (l : list ascii) : option N :=
  match l with
  | [] => Some n
  | c :: l => match hex_digit c with Some d => hex_value (n * 16 + d) l | None => None end
  end.
Definition ValidRune (r : N) : bool := (r <? 55296) || in_range 57344 1114111 r.
(** [\x], [\u] and [\U] followed by [n] hexadecimal digits. *)
Definition unquote_hex (n : nat) (rest : list ascii) : option (list ascii * list ascii) :=
  if (List.length rest <? n)%nat then None else
  match hex_value 0 (take n rest) with
  | None => None
  | Some v =>
    if (n =? 2)%nat then Some ([ascii_of_N v], drop n rest) else
    if ValidRune v then Some (encode_rune v, drop n rest) else None
  end.
Definition unquote_octal (d1 : N) (rest : list ascii) : option (list ascii * list ascii) :=
  match rest with
  | c2 :: c3 :: rest =>
    match octal_digit c2, octal_digit c3 with
    | Some d2, Some d3 =>
      let v := (d1 * 8 + d2) * 8 + d3 in
      if 255 <? v then None else Some ([ascii_of_N v], rest)
    | _, _ => None
    end
  | _ => None
  end.
(** The escapes of one letter. *)
Definition simple_escapes : list (ascii * N) :=
  [("a"%char, 7); ("b"%char, 8); ("f"%char, 12); ("n"%char, 10); ("r"%char, 13); ("t"%char, 9); ("v"%char, 11)].
(** An escape, after its backslash. *)
Definition unquote_escape (c : ascii) (rest : list ascii) : option (list ascii * list ascii) :=
  match List.find (fun e => is_char e.1 c) simple_escapes with
  | Some e => Some ([ascii_of_N e.2], rest)
  | None =>
    if is_char "x" c then unquote_hex 2 rest else
    if is_char "u" c then unquote_hex 4 rest else
    if is_char "U" c then unquote_hex 8 rest else
    if is_char backslash c || is_char quote c then Some ([c], rest) else
    match octal_digit c with Some d => unquote_octal d rest | None => None end
  end.
Definition prepend (out : list ascii) (more : option (list ascii * list ascii)) : option (list ascii * list ascii) :=
  match more with Some (text, rest) => Some (out ++ text, rest) | None => None end.
(** What follows an opening quote: the text up to the closing one, and what is
    after it; each round consumes a byte at least. *)
Fixpoint unquote_from (fuel : nat) (l : list ascii) : option (list ascii * list ascii) :=
  match fuel, l with
  | S fuel, c :: rest =>
    if is_char quote c then Some ([], rest) else
    if is_char line_feed c then None else
    if is_char backslash c then
      match rest with
      | e :: rest =>
        match unquote_escape e rest with
        | Some (out, rest) => prepend out (unquote_from fuel rest)
        | None => None
        end
      | [] => None
      end
    else if N_of_ascii c <? 128 then prepend [c] (unquote_from fuel rest)
    else
      let '(r, n) := decode_rune l in
      prepend (encode_rune r) (unquote_from fuel (drop n l))
  | _, _ => None
  end.
Definition ErrSyntax : error := New "invalid syntax".
Definition Unquote (s : string) : result string error :=
  match chars s with
  | c :: rest =>
    if is_char quote c then
      match unquote_from (List.length rest) rest with
      | Some (out, []) => Ok (str out)
      | _ => Err ErrSyntax
      end
    else Err ErrSyntax
  | [] => Err ErrSyntax
  end.

(** ** [strconv.Quote] *)

(** [unicode.IsPrint]; the law is its value on ASCII. *)
Class Printable := {
  IsPrint : N -> bool;
  IsPrint_ascii : forall r, r < 128 -> IsPrint r = in_range 32 126 r;
}.
(** The instance in which only ASCII is printable. *)
#[export] Instance ascii_printable : Printable | 100.
Proof. by refine {| IsPrint := in_range 32 126 |}. Defined.

Definition lowerhex (d : N) : ascii := if d <? 10 then ascii_of_N (48 + d) else ascii_of_N (87 + d).
Fixpoint hex_digits (k : nat) (n : N) : list ascii :=
  match k with O => [] | S k => hex_digits k (n / 16) ++ [lowerhex (n mod 16)] end.

Section quoting.
Context `{Printable}.

Definition escaped_rune (r : N) : list ascii :=
  if (r =? N_of_ascii quote) || (r =? N_of_ascii backslash) then [backslash; ascii_of_N r] else
  if IsPrint r then encode_rune r else
  match List.find (fun e => r =? e.2) simple_escapes with
  | Some e => [backslash; e.1]
  | None =>
    if (r <? 32) || (r =? 127) then backslash :: "x"%char :: hex_digits 2 r else
    if r <? 65536 then backslash :: "u"%char :: hex_digits 4 r else
    backslash :: "U"%char :: hex_digits 8 r
  end.
(** What is written for the first rune of [l]. *)
Definition quoted_rune (l : list ascii) : list ascii :=
  let '(r, n) := decode_rune l in
  if (n =? 1)%nat && (r =? RuneError)
  then backslash :: "x"%char :: hex_digits 2 (match l with c :: _ => N_of_ascii c | [] => 0 end)
  else escaped_rune r.
(** Each round consumes a byte of [l] at least. *)
Fixpoint quoted (fuel : nat) (l : list ascii) : list ascii :=
  match fuel, l with
  | S fuel, _ :: _ => quoted_rune l ++ quoted fuel (drop (snd (decode_rune l)) l)
  | _, _ => []
  end.
Definition Quote_chars (s : string) : list ascii :=
  quote :: quoted (List.length (chars s)) (chars s) ++ [quote].
Definition Quote (s : string) : string := str (Quote_chars s).
End quoting.

Example quote_ok : Quote_chars ("a" +:+ str [quote; line_feed]) = quote :: chars "a\" ++ [quote] ++ chars "\n" ++ [quote].
Proof. vm_compute. reflexivity. Qed.

(** * Properties *)

Lemma lowerhex_value d : d < 16 -> hex_digit (lowerhex d) = Some d.
Proof.
  intros L. assert (forallb (fun d => bool_decide (hex_digit (lowerhex d) = Some d)) (map N.of_nat (seq 0 16)) = true) as F
    by (vm_compute; done).
  rewrite forallb_forall in F. eapply bool_decide_eq_true_1, F, in_map_iff. exists (N.to_nat d). rewrite in_seq. lia.
Qed.
Lemma hex_digits_length k n : List.length (hex_digits k n) = k.
Proof. revert n. induction k as [|k IH]; intros n; cbn [hex_digits]; [done|]. rewrite length_app, IH. simpl. lia. Qed.
Lemma hex_value_app a b n : hex_value n (a ++ b) = match hex_value n a with Some m => hex_value m b | None => None end.
Proof. revert n. induction a as [|c a IH]; intros n; simpl; [done|]. by destruct (hex_digit c). Qed.
Lemma hex_value_digits k n : n < 16 ^ N.of_nat k -> hex_value 0 (hex_digits k n) = Some n.
Proof.
  revert n. induction k as [|k IH]; intros n L; cbn [hex_digits]; [simpl in L; simpl; f_equal; lia|].
  rewrite hex_value_app, IH.
  - cbn [hex_value]. rewrite lowerhex_value by by apply N.mod_lt. f_equal. pose proof (N.div_mod n 16). lia.
  - apply N.Div0.div_lt_upper_bound. rewrite Nat2N.inj_succ, N.pow_succ_r' in L. lia.
Qed.
Lemma unquote_hex_digits k n rest :
  n < 16 ^ N.of_nat k ->
  unquote_hex k (hex_digits k n ++ rest)
  = if (k =? 2)%nat then Some ([ascii_of_N n], rest) else if ValidRune n then Some (encode_rune n, rest) else None.
Proof.
  intros L. unfold unquote_hex. rewrite length_app, hex_digits_length.
  replace (_ <? k)%nat with false by (symmetry; apply Nat.ltb_ge; lia).
  by rewrite take_app_length', drop_app_length', hex_value_digits by (done || by rewrite hex_digits_length).
Qed.
Lemma scalar_valid r : scalar r -> ValidRune r = true.
Proof. intros [M S]. unfold ValidRune. apply orb_true_iff. rewrite N.ltb_lt, in_range_spec. lia. Qed.

Lemma decode_width l : l <> [] -> (1 <= snd (decode_rune l))%nat.
Proof.
  intros NE. destruct (decode_rune l) as [r n] eqn:D. simpl.
  destruct (decide (r = RuneError /\ n = 1%nat)) as [[_ ->]|V]; [done|].
  pose proof (encode_decode l r n D NE V) as E. destruct (encode_rune_cons r) as (c & t & Ec). rewrite Ec in E.
  destruct n; [|lia]. done.
Qed.
Lemma encode_single r : r < 128 -> encode_rune r = [ascii_of_N r].
Proof.
  intros L. unfold encode_rune. replace (in_range 55296 57343 r || (1114111 <? r)) with false
    by (symmetry; rewrite orb_false_iff, N.ltb_ge, <- not_true_iff_false, in_range_spec; lia).
  apply N.ltb_lt in L as L'. rewrite L'. unfold byte_of. by rewrite N.mod_small by lia.
Qed.

Section quoting_facts.
Context `{Printable}.

Lemma unquote_from_cons fuel c rest :
  unquote_from (S fuel) (c :: rest) =
    if is_char quote c then Some ([], rest) else
    if is_char line_feed c then None else
    if is_char backslash c then
      match rest with
      | e :: rest => match unquote_escape e rest with Some (out, rest) => prepend out (unquote_from fuel rest) | None => None end
      | [] => None
      end
    else if N_of_ascii c <? 128 then prepend [c] (unquote_from fuel rest)
    else prepend (encode_rune (fst (decode_rune (c :: rest)))) (unquote_from fuel (drop (snd (decode_rune (c :: rest))) (c :: rest))).
Proof. cbn [unquote_from]. repeat (destruct (is_char _ _); [done|]). destruct (_ <? _); [done|]. by destruct (decode_rune _). Qed.
Lemma unquote_backslash fuel e rest :
  unquote_from (S fuel) (backslash :: e :: rest) =
    match unquote_escape e rest with Some (out, rest) => prepend out (unquote_from fuel rest) | None => None end.
Proof. done. Qed.

(** A byte that is no quote, newline or backslash reads as itself. *)
Lemma unquote_plain fuel c rest :
  is_char quote c = false -> is_char line_feed c = false -> is_char backslash c = false -> N_of_ascii c < 128 ->
  unquote_from (S fuel) (c :: rest) = prepend [c] (unquote_from fuel rest).
Proof. intros Q L B A. rewrite unquote_from_cons, Q, L, B. by apply N.ltb_lt in A as ->. Qed.
Lemma unquote_rune fuel r rest :
  scalar r -> 128 <= r ->
  unquote_from (S fuel) (encode_rune r ++ rest) = prepend (encode_rune r) (unquote_from fuel rest).
Proof.
  intros Sc A. pose proof (decode_encode r rest Sc) as D. destruct (encode_rune_cons r) as (c & t & E).
  assert (128 <= N_of_ascii c) as Hi.
  { destruct (N.lt_ge_cases (N_of_ascii c) 128) as [Lo|]; [|done]. exfalso. rewrite E in D. unfold decode_rune in D.
    cbn [app map] in D. apply N.ltb_lt in Lo as L2. rewrite L2 in D. injection D as D _. lia. }
  assert (forall x, N_of_ascii x < 128 -> is_char x c = false) as Ne.
  { intros x Lx. apply bool_decide_eq_false. intros ->. lia. }
  rewrite E. cbn [app]. rewrite unquote_from_cons, (Ne quote), (Ne line_feed), (Ne backslash) by (vm_compute; done).
  apply N.ltb_ge in Hi as ->. change (c :: t ++ rest) with ((c :: t) ++ rest). rewrite <- E, D. cbn [fst snd].
  by rewrite drop_app_length.
Qed.
Lemma is_char_ascii a n : n < 256 -> is_char a (ascii_of_N n) = (n =? N_of_ascii a).
Proof.
  intros L. unfold is_char. destruct (N.eqb_spec n (N_of_ascii a)) as [-> |N].
  - apply bool_decide_eq_true. by rewrite ascii_N_embedding.
  - apply bool_decide_eq_false. intros ->. by rewrite N_ascii_embedding in N.
Qed.

(** Reading what was written for a rune. *)
Lemma unquote_escaped fuel r rest :
  scalar r -> unquote_from (S fuel) (escaped_rune r ++ rest) = prepend (encode_rune r) (unquote_from fuel rest).
Proof.
  intros Sc. unfold escaped_rune. destruct (_ || _) eqn:Q.
  { apply orb_true_iff in Q. rewrite !N.eqb_eq in Q. by destruct Q as [-> | ->]. }
  apply orb_false_iff in Q as [Q1 Q2]. destruct (IsPrint r) eqn:P.
  { destruct (N.lt_ge_cases r 128) as [A|A]; [|by apply unquote_rune]. rewrite encode_single by done.
    rewrite IsPrint_ascii in P by done. apply in_range_spec in P. cbn [app].
    apply unquote_plain; rewrite ?N_ascii_embedding, ?is_char_ascii by lia; try done. apply N.eqb_neq. vm_compute (N_of_ascii _). lia. }
  destruct (List.find _ simple_escapes) as [[c n]|] eqn:F.
  { apply List.find_some in F as [I E]. apply N.eqb_eq in E. simpl in E. subst n. simpl in I.
    repeat (destruct I as [[= <- <-]|I]; [done|]). done. }
  clear F. destruct (_ || _) eqn:C.
  { assert (r < 128) as A by (apply orb_true_iff in C; rewrite N.ltb_lt, N.eqb_eq in C; lia).
    rewrite encode_single by done. cbn [app]. rewrite unquote_backslash. change (unquote_escape "x") with (unquote_hex 2).
    rewrite unquote_hex_digits by (change (16 ^ N.of_nat 2) with 256; lia). done. }
  pose proof (scalar_valid r Sc) as V. destruct (r <? 65536) eqn:B.
  - apply N.ltb_lt in B. cbn [app]. rewrite unquote_backslash. change (unquote_escape "u") with (unquote_hex 4).
    rewrite unquote_hex_digits by (change (16 ^ N.of_nat 4) with 65536; lia). cbn [Nat.eqb]. by rewrite V.
  - cbn [app]. rewrite unquote_backslash. change (unquote_escape "U") with (unquote_hex 8).
    destruct Sc as [M _]. rewrite unquote_hex_digits by (change (16 ^ N.of_nat 8) with 4294967296; lia). cbn [Nat.eqb]. by rewrite V.
Qed.
Lemma unquote_quoted_rune fuel l rest :
  l <> [] ->
  unquote_from (S fuel) (quoted_rune l ++ rest) = prepend (take (snd (decode_rune l)) l) (unquote_from fuel rest).
Proof.
  intros NE. unfold quoted_rune. destruct (decode_rune l) as [r n] eqn:D. cbn [snd].
  destruct ((n =? 1)%nat && (r =? RuneError)) eqn:V.
  - apply andb_true_iff in V as [V1 V2]. apply Nat.eqb_eq in V1. subst n. destruct l as [|c l]; [done|].
    cbn [app]. rewrite unquote_backslash. change (unquote_escape "x") with (unquote_hex 2).
    rewrite unquote_hex_digits by (change (16 ^ N.of_nat 2) with 256; apply N_ascii_bounded). cbn [Nat.eqb take].
    by rewrite ascii_N_embedding, take_0.
  - pose proof (decode_scalar l) as Sc. rewrite D in Sc. rewrite <- (encode_decode l r n D NE); [by apply unquote_escaped|].
    intros [-> ->]. done.
Qed.
Lemma quoted_rune_nonempty l : quoted_rune l <> [].
Proof.
  unfold quoted_rune, escaped_rune. destruct (decode_rune l) as [r n]. destruct (_ && _); [done|]. destruct (_ || _); [done|].
  destruct (IsPrint r); [by destruct (encode_rune_cons r) as (c & t & ->)|]. destruct (List.find _ _); [done|].
  destruct (_ || _); [done|]. by destruct (_ <? _).
Qed.
Lemma unquote_quoted f : forall k l rest,
  (List.length l <= f)%nat -> (List.length (quoted f l) < k)%nat ->
  unquote_from k (quoted f l ++ quote :: rest) = Some (l, rest).
Proof.
  induction f as [|f IH]; intros k l rest Lf Lk.
  - destruct l; [|simpl in Lf; lia]. destruct k; [lia|]. cbn [quoted app]. by rewrite unquote_from_cons.
  - destruct k as [|k]; [lia|]. destruct l as [|c l]; [by cbn [quoted app]; rewrite unquote_from_cons|]. set (l' := c :: l) in *.
    change (quoted (S f) l') with (quoted_rune l' ++ quoted f (drop (snd (decode_rune l')) l')) in *.
    rewrite <- app_assoc, unquote_quoted_rune by done. rewrite length_app in Lk.
    pose proof (decode_width l' ltac:(done)) as W. pose proof (quoted_rune_nonempty l') as Q.
    destruct (quoted_rune l') eqn:E; [done|]. cbn [List.length] in Lk.
    rewrite IH; [|rewrite length_drop; unfold l' in *; cbn [List.length] in *; lia|lia].
    unfold prepend. by rewrite take_drop.
Qed.

(** A quoted text, whatever follows it, reads back as itself. *)
Lemma unquote_Quote s k rest :
  (List.length (Quote_chars s) <= k)%nat ->
  exists t, Quote_chars s ++ rest = quote :: t /\ unquote_from k t = Some (chars s, rest).
Proof.
  intros L. unfold Quote_chars in *. exists ((quoted (List.length (chars s)) (chars s) ++ [quote]) ++ rest).
  split; [done|]. rewrite <- app_assoc. apply unquote_quoted; [done|].
  cbn [List.length] in L. rewrite length_app in L. simpl in L. lia.
Qed.
Lemma Unquote_Quote s : Unquote (Quote s) = Ok s.
Proof.
  unfold Unquote, Quote. rewrite chars_str. destruct (unquote_Quote s (S (List.length (Quote_chars s))) []) as (t & E & U); [lia|].
  rewrite app_nil_r in E. unfold Quote_chars in E |- *. injection E as E. change (is_char quote quote) with true. cbv iota.
  rewrite unquote_quoted, str_chars; [done|done|rewrite length_app; simpl; lia].
Qed.
End quoting_facts.
