(* ===== verification/ChatService.v ===== *)
(** * The chat service ([internal/chat])

    What an invocation of an operator comes to: it is deduplicated, parsed,
    routed to the engine of a repository ([engine.Fleet]) and dispatched.  A
    control, retry, cancellation or withdrawal is parked behind a one-shot
    Confirm button ([confirm.go]) and runs when its own operator clicks it in
    time; a request is filed at once.

    One call of [Handle] sees the answers of the store and the engine
    ([Answers]): the texts of the read-only views, the served repositories and
    the owners of records, and what a mutating engine call returns.  The engine
    calls themselves are data ([engine_call]), and the one a call of [Handle]
    makes, if any, is part of its result.  A call enters at most one critical
    section of the pending actions ([confirm] or [takePending]), so a history
    of calls is given in the order of those.  The service has a store. *)
From S2P Require Import Prelude GoStrings Utf8 WireJson Enums Types GoErrors Config GoTime Model TaskWorkers Runes Strconv Chat.
Local Open Scope string_scope.
Local Open Scope list_scope.
Local Open Scope N_scope.

(** ** The fleet ([internal/engine/fleet.go]) *)

(** An [*engine.App]: its place in the fleet and its repository. *)
Record ChatApp := mkChatApp { App_index : nat; App_Repository : string }.
(** The Apps in order, at least one; the registry entries they serve; the
    repository of the first App's saved configuration; and the repository saved
    on a record. *)
Record Fleet := mkFleet {
  fleet_first : string; fleet_rest : list string; fleet_entries : list string;
  fleet_config : result string error; RecordRepository : string -> string -> result (string * bool) error }.
Definition fleet_app (f : Fleet) (i : nat) : option ChatApp := mkChatApp i <$> (fleet_first f :: fleet_rest f) !! i.
Definition fleet_primary (f : Fleet) : ChatApp := mkChatApp 0 (fleet_first f).
Fixpoint entry_index (repo : string) (entries : list string) : option nat :=
  match entries with
  | [] => None
  | entry :: entries => if EqualASCII entry repo then Some O else S <$> entry_index repo entries
  end.
Definition forLocked (f : Fleet) (repo : string) : option ChatApp :=
  if bool_decide (repo = "") then Some (fleet_primary f) else
  match entry_index repo (fleet_entries f) with
  | Some i => fleet_app f i
  | None =>
    match fleet_entries f, fleet_config f with
    | [], Ok saved => if EqualASCII saved repo then Some (fleet_primary f) else None
    | _, _ => None
    end
  end.
Definition ForRecord (f : Fleet) (kind id selected : string) : result ChatApp error :=
  let! owner := RecordRepository f kind id in
  let '(repo, found) := owner in
  if negb (bool_decide (selected = "")) then
    match forLocked f selected with
    | Some app =>
      guard negb ((found && negb (EqualASCII repo selected)) || (negb found && negb (App_index app =? 0)%nat))
        else New "Record not found";
      Ok app
    | None => Err (New "Record not found")
    end
  else if found then Ok (default (fleet_primary f) (forLocked f repo)) else Ok (fleet_primary f).

(** ** What the engine is asked *)

Inductive engine_call :=
| CallControl (app : ChatApp) (action : ControlAction)
| CallTask (app : ChatApp) (id : string) (action : TaskAction)
| CallWithdraw (app : ChatApp) (id : string)
| CallCreateRequest (app : ChatApp) (title description target : string).
(** The record a request is filed as. *)
Record Filed := mkFiled { Filed_ID : string; Filed_Repository : string; Filed_Title : string }.
(** The views of [format.go]. *)
Inductive view :=
| StatusText (app : ChatApp) | TasksText (app : ChatApp) (limit : Z) | CyclesText (app : ChatApp) (limit : Z)
| PRsText (app : ChatApp) (limit : Z).
(** A read or write of the thread's memory, by the function that makes it. *)
Inductive memory_site := AtCommand | AtResolve | AtDetail | AtRemember | AtSave.
Record Answers := mkAnswers {
  an_fleet : Fleet;
  an_view : view -> result string error;
  an_pages : ChatApp -> result (list string) error;  (** [requestsPages] *)
  an_digest : list string;  (** [DigestMessages] *)
  an_repos : string;  (** [reposText] *)
  an_detail : ChatApp -> string -> result (Task * list TaskAction) error;  (** [App.TaskDetail] *)
  an_config : ChatApp -> result string error;  (** the default branch of [App.Config] *)
  an_engine : engine_call -> result Filed error;
  an_broken : memory_site -> bool;  (** the store refuses *)
  an_seen_fails : bool }.

(** ** The state ([chat.go], [store/chat.go]) *)

Definition maxPending : nat := 100.
Definition pendingTTL : Z := 300.
(** [time.Time.Add] of whole seconds, [After]. *)
Definition add_seconds (t : instant) (s : Z) : instant := mkInstant (unix t + s) (nanos t).
Definition after (a b : instant) : bool := before b a.

Record pendingAction := mkPending { pa_userID : string; pa_expires : instant; pa_run : engine_call }.
(** The memory of a thread. *)
Record ChatContext := mkChatContext { Context_Repository : string; Context_TaskID : string }.
Definition no_context : ChatContext := mkChatContext "" "".
(** The pending confirmations and the tables [chat_events] and
    [chat_context]. *)
Record Service := mkService {
  pending : gmap string pendingAction; chat_events : gmap (string * string) string;
  chat_context : gmap (string * string * string) ChatContext }.
#[export] Instance eta_Service : Eta Service := fun r => mkService (pending r) (chat_events r) (chat_context r).

Definition live (now : instant) (p : pendingAction) : bool := negb (after now (pa_expires p)).
(** [tok] is what [rand.Read] yields, in hexadecimal. *)
Definition confirm (tok : result string error) (userID prompt : string) (run : engine_call) (now : instant) (s : Service)
    : Service * result (string * list Button) error :=
  match tok with
  | Err err => (s, Err err)
  | Ok tok =>
    let kept := filter (fun kv => live now (snd kv) = true) (pending s) in
    if (maxPending <=? size kept)%nat then
      (s <| pending := kept |>,
       Err (New "Too many actions are awaiting confirmation; confirm or cancel one first"))
    else
      (s <| pending := <[tok := mkPending userID (add_seconds now pendingTTL) run]> kept |>,
       Ok (prompt, [mkButton "Confirm" ("confirm:" +:+ tok); mkButton "Cancel" ("cancel:" +:+ tok)]))
  end.
Definition drop_pending (tok : string) (s : Service) : Service := s <| pending := delete tok (pending s) |>.
Definition takePending (tok userID : string) (now : instant) (s : Service) : Service * option pendingAction :=
  match pending s !! tok with
  | None => (s, None)
  | Some p =>
    if after now (pa_expires p) then (drop_pending tok s, None) else
    if negb (bool_decide (pa_userID p = userID)) then (s, None) else
    (drop_pending tok s, Some p)
  end.
Definition pendingOwnedByOther (tok userID : string) (now : instant) (s : Service) : Service * bool :=
  match pending s !! tok with
  | None => (s, false)
  | Some p =>
    if after now (pa_expires p) then (drop_pending tok s, false) else
    (s, negb (bool_decide (pa_userID p = userID)))
  end.

(** [store.MarkChatEventSeen]; [None] is a failed transaction. *)
Definition MarkChatEventSeen (fails : bool) (provider eventID : string) (now : instant) (s : Service)
    : option (Service * bool) :=
  if fails then None else
  let cutoff := Timestamp (add_seconds now (-604800)) in
  let kept := filter (fun kv => String.ltb (snd kv) cutoff = false) (chat_events s) in
  match kept !! (provider, eventID) with
  | Some _ => Some (s <| chat_events := kept |>, true)
  | None => Some (s <| chat_events := <[(provider, eventID) := Timestamp now]> kept |>, false)
  end.
(** [store.ChatContext] and [store.SetChatContext]; the time of the update is
    never read. *)
Definition thread (inv : Invocation) : string * string * string :=
  (Provider_name (Inv_Provider inv), Inv_ChannelID inv, Inv_ThreadID inv).
Definition thread_context (a : Answers) (at_ : memory_site) (inv : Invocation) (s : Service) : option ChatContext :=
  if an_broken a at_ then None else Some (default no_context (chat_context s !! thread inv)).
Definition SetChatContext (a : Answers) (inv : Invocation) (value : ChatContext) (s : Service) : Service :=
  if an_broken a AtSave then s else s <| chat_context := <[thread inv := value]> (chat_context s) |>.

(** ** Commands ([commands.go]) *)

Definition helpText : string := "Octomus commands (add --repo OWNER/REPO anywhere to pick a repository):
status — mode, cycle, active tasks, today's sessions
digest [page] — 7-day summary for every repository
tasks [N] — latest tasks · task [id] — one task's detail (default: the remembered task)
cycles [N] — latest cycles · prs [N] — observed pull requests
requests [page] — pending and recent work requests
request <title> :: <description> — file work for the next planning cycle
pause · resume · cycle · audit — operating controls (ask for confirmation)
retry <task-id> · cancel <task-id> · withdraw <request-id> (ask for confirmation)
repos — repositories this instance serves".
Definition defaultList : Z := 5.
Definition listLimit (fields : list string) : Z :=
  match fields with
  | field :: _ =>
    let '(n, ok) := Atoi field in
    if ok && (0 <? n)%Z then (if (20 <? n)%Z then 20%Z else n) else defaultList
  | [] => defaultList
  end.
Definition controlActions (verb : string) : option ControlAction :=
  if bool_decide (verb = "pause") then Some ControlPause else
  if bool_decide (verb = "resume") then Some ControlResume else
  if bool_decide (verb = "cycle") then Some ControlCycle else
  if bool_decide (verb = "audit") then Some ControlAudit else None.
Definition control_label (action : ControlAction) : string :=
  match action with
  | ControlPause => "Pause" | ControlResume => "Resume continuous operation for"
  | ControlCycle => "Run one cycle for" | ControlAudit => "Run an audit for"
  end.
Definition capitalize (s : string) : string := match s with EmptyString => "" | String c t => String (upper c) t end.
Definition taskActionValue (verb id : string) : string := "task:" +:+ verb +:+ ":" +:+ id.

(** A text, its buttons and the task it is about. *)
Definition answer : Type := string * list Button * string.
Definition plain (r : result string error) : result answer error := let! text := r in Ok (text, [], "").
(** [strconv.Itoa]. *)
Definition format_int (n : Z) : string :=
  if (n <? 0)%Z then String "-" (FormatUint (Z.to_N (- n))) else FormatUint (Z.to_N n).
Definition page_at (page : Z) (pages : list string) : option string :=
  if (page <? 1)%Z then None else pages !! Z.to_nat (page - 1).

Section commands.
Context `{Unicode} `{Printable} (a : Answers) (cfg : ChatConfig).

Definition resolveApp (inv : Invocation) (repoFlag : string) (s : Service) : result ChatApp error :=
  let repo := if negb (bool_decide (repoFlag = "")) then repoFlag
              else default "" (Context_Repository <$> thread_context a AtResolve inv s) in
  let repo := if negb (bool_decide (repo = "")) then repo else
              match provider cfg (Inv_Provider inv) with
              | Some pc => default "" (Bindings pc !! Inv_ChannelID inv)
              | None => ""
              end in
  match forLocked (an_fleet a) repo with
  | Some app => Ok app
  | None => Err (Errorf "Repository %s is not served by this instance; try `repos`" [VStr repo])
  end.
Definition record_kind (verb : string) : option string :=
  if bool_decide (verb = "task") || bool_decide (verb = "retry") || bool_decide (verb = "cancel") then Some "task" else
  if bool_decide (verb = "withdraw") then Some "request" else None.
Definition resolveCommandApp (inv : Invocation) (verb : string) (fields : list string) (repoFlag : string) (s : Service)
    : result ChatApp error :=
  match record_kind verb with
  | None => resolveApp inv repoFlag s
  | Some kind =>
    let id :=
      match fields with
      | field :: _ => field
      | [] => if bool_decide (verb = "task") then default "" (Context_TaskID <$> thread_context a AtCommand inv s) else ""
      end in
    if bool_decide (id = "") then resolveApp inv repoFlag s else ForRecord (an_fleet a) kind id repoFlag
  end.
Definition remember (inv : Invocation) (app : ChatApp) (taskID : string) (s : Service) : Service :=
  let current := default no_context (thread_context a AtRemember inv s) in
  let taskID := if bool_decide (taskID = "") then Context_TaskID current else taskID in
  SetChatContext a inv (mkChatContext (App_Repository app) taskID) s.

Definition requests_page_error : error := New "Name a requests page: `requests [page]`".
Definition requestsPage (app : ChatApp) (fields : list string) : result string error :=
  let! page :=
    match fields with
    | [] => Ok 1%Z
    | [field] => let '(parsed, ok) := Atoi field in
                 guard ok && negb (parsed <? 1)%Z else requests_page_error; Ok parsed
    | _ => Err requests_page_error
    end in
  let! pages := an_pages a app in
  match page_at page pages with
  | Some text => Ok text
  | None => Err (Errorf "Requests page %d does not exist, it has %d page(s)"
                   [VNum (Z.to_N page); VNum (lenN pages)])
  end.
Definition digestPage (page : Z) : result (string * list Button) error :=
  match page_at page (an_digest a) with
  | None => Err (Errorf "Digest page %d does not exist; it has %d page(s)" [VStr (format_int page); VNum (lenN (an_digest a))])
  | Some text =>
    Ok (text, (if (1 <? page)%Z then [mkButton "Previous page" ("digest:" +:+ format_int (page - 1))] else [])
              ++ (if (page <? Z.of_N (lenN (an_digest a)))%Z then [mkButton "Next page" ("digest:" +:+ format_int (page + 1))] else []))
  end.
Definition digestCommand (fields : list string) : result (string * list Button) error :=
  match fields with
  | [] => digestPage 1
  | field :: _ =>
    let '(parsed, ok) := Atoi field in
    guard ok && negb (parsed <? 1)%Z else New "Name a digest page: `digest [page]`";
    digestPage parsed
  end.

(** ** Actions ([actions.go]) *)

Definition optional_line (name : string) (o : option string) : string :=
  match o with
  | Some text => if bool_decide (text = "") then "" else String line_feed (name +:+ ": " +:+ text)
  | None => ""
  end.
Definition detail_text (t : Task) : string :=
  "Task " +:+ Task_ID t +:+ " [" +:+ enum_String (Task_Status t) +:+ "]" +:+ String line_feed (Proposal_Title (Task_Proposal t))
  +:+ optional_line "PR" (Task_PRURL t) +:+ optional_line "Error" (Task_Error t)
  +:+ String line_feed ("Target: " +:+ Proposal_Target (Task_Proposal t) +:+ " · Branch: " +:+ Task_Branch t
                        +:+ " · Updated: " +:+ Task_UpdatedAt t).
Definition action_buttons (id : string) (actions : list TaskAction) : list Button :=
  flat_map (fun action => match action with
    | TaskActionRetry => [mkButton "Retry task" (taskActionValue "retry" id)]
    | TaskActionCancel => [mkButton "Cancel task" (taskActionValue "cancel" id)]
    | _ => [] end) actions.
Definition taskDetail (inv : Invocation) (app : ChatApp) (fields : list string) (s : Service) : result answer error :=
  let id := match fields with
            | field :: _ => field
            | [] => default "" (Context_TaskID <$> thread_context a AtDetail inv s)
            end in
  guard negb (bool_decide (id = "")) else New "Name a task: `task <id>`";
  let! detail := an_detail a app id in
  Ok (detail_text (fst detail), action_buttons id (snd detail), id).

(** [strings.Cut(rest, "::")]. *)
Fixpoint cut_colons (l : list ascii) : option (list ascii * list ascii) :=
  match l with
  | ":"%char :: (":"%char :: t) => Some ([], t)
  | c :: t => match cut_colons t with Some (before_, after_) => Some (c :: before_, after_) | None => None end
  | [] => None
  end.
(** The title and the description of a request. *)
Definition request_texts (rest : string) : string * string :=
  let '(title, description) :=
    match cut_colons (chars rest) with
    | Some (title, description) => (TrimSpace (str title), TrimSpace (str description))
    | None => (TrimSpace rest, "")
    end in
  (title, if bool_decide (description = "") then title else description).
(** The reply, and the engine call that is made. *)
Definition createRequest (app : ChatApp) (rest : string) : result string error * option engine_call :=
  let '(title, description) := request_texts rest in
  if bool_decide (title = "") then (Err (New "Describe the work: `request <title> :: <description>`"), None) else
  match an_config a app with
  | Err err => (Err err, None)
  | Ok target =>
    let call := CallCreateRequest app title description target in
    (let! rec := an_engine a call in
     Ok ("Request " +:+ Filed_ID rec +:+ " filed for " +:+ Filed_Repository rec +:+ ": " +:+ Quote (Filed_Title rec)
         +:+ ". It enters the next planning cycle as a candidate; planning still reviews it like any discovered work."),
     Some call)
  end.

(** What the parked closures do. *)
Definition task_verb (action : TaskAction) : string := if bool_decide (action = TaskActionCancel) then "cancel" else "retry".
Definition run_parked (call : engine_call) : result string error :=
  let! _ := an_engine a call in
  match call with
  | CallControl app _ => an_view a (StatusText app)
  | CallTask _ id action => Ok ("Task " +:+ id +:+ ": " +:+ task_verb action +:+ " requested.")
  | CallWithdraw _ id => Ok ("Request " +:+ id +:+ " withdrawn.")
  | CallCreateRequest _ _ _ _ => Ok ""
  end.

(** A confirmation, about the task [taskID]. *)
Definition offer (inv : Invocation) (tok : result string error) (now : instant) (prompt : string) (run : engine_call)
    (taskID : string) (s : Service) : Service * result answer error :=
  let '(s, r) := confirm tok (Inv_UserID inv) prompt run now s in
  (s, let! r := r in Ok (fst r, snd r, taskID)).
Definition controlConfirm (inv : Invocation) (tok : result string error) (now : instant) (app : ChatApp) (action : ControlAction)
    (s : Service) : Service * result answer error :=
  offer inv tok now (control_label action +:+ " " +:+ App_Repository app +:+ "?") (CallControl app action) "" s.
Definition taskConfirm (inv : Invocation) (tok : result string error) (now : instant) (app : ChatApp) (verb : string)
    (fields : list string) (s : Service) : Service * result answer error :=
  match fields with
  | [] => (s, Err (Errorf "Name a task: `%s <id>`" [VStr verb]))
  | id :: _ =>
    let action := if bool_decide (verb = "cancel") then TaskActionCancel else TaskActionRetry in
    offer inv tok now (capitalize verb +:+ " task " +:+ id +:+ " on " +:+ App_Repository app +:+ "?") (CallTask app id action) id s
  end.
Definition withdrawConfirm (inv : Invocation) (tok : result string error) (now : instant) (app : ChatApp)
    (fields : list string) (s : Service) : Service * result answer error :=
  match fields with
  | [] => (s, Err (New "Name a request: `withdraw <id>`"))
  | id :: _ => offer inv tok now ("Withdraw request " +:+ id +:+ " on " +:+ App_Repository app +:+ "?") (CallWithdraw app id) "" s
  end.

(** ** Dispatch *)

(** What an invocation comes to: the state, the reply and the engine call that
    was made. *)
Definition effect (A : Type) : Type := Service * result A error * option engine_call.
Definition quietly {A} (x : Service * result A error) : effect A := (x, None).
Definition dispatch (inv : Invocation) (tok : result string error) (now : instant) (app : ChatApp) (p : parsed) (s : Service)
    : effect answer :=
  let named := fun name => bool_decide (verb p = name) in
  if named "status" then quietly (s, plain (an_view a (StatusText app))) else
  if named "tasks" then quietly (s, plain (an_view a (TasksText app (listLimit (fields p))))) else
  if named "task" then quietly (s, taskDetail inv app (fields p) s) else
  if named "cycles" then quietly (s, plain (an_view a (CyclesText app (listLimit (fields p))))) else
  if named "prs" then quietly (s, plain (an_view a (PRsText app (listLimit (fields p))))) else
  if named "requests" then quietly (s, plain (requestsPage app (fields p))) else
  if named "request" then let '(r, call) := createRequest app (rest p) in (s, plain r, call) else
  match controlActions (verb p) with
  | Some action => quietly (controlConfirm inv tok now app action s)
  | None =>
    if named "retry" || named "cancel" then quietly (taskConfirm inv tok now app (verb p) (fields p) s) else
    if named "withdraw" then quietly (withdrawConfirm inv tok now app (fields p) s) else
    quietly (s, Err (Errorf "Unknown command %q; try `help`" [VStr (verb p)]))
  end.
Definition forget_task (r : result answer error) : result (string * list Button) error := let! r := r in Ok (fst r).
Definition handleCommand (inv : Invocation) (tok : result string error) (now : instant) (s : Service)
    : effect (string * list Button) :=
  match parseCommand (Inv_Text inv) with
  | Err err => quietly (s, Err err)
  | Ok p =>
    if bool_decide (verb p = "help") then quietly (s, Ok (helpText, [])) else
    if bool_decide (verb p = "repos") then quietly (s, Ok (an_repos a, [])) else
    if bool_decide (verb p = "digest") then quietly (s, digestCommand (fields p)) else
    match resolveCommandApp inv (verb p) (fields p) (repo p) s with
    | Err err => quietly (s, Err err)
    | Ok app =>
      let '(s, r, ran) := dispatch inv tok now app p s in
      (match r with Ok (_, taskID) => remember inv app taskID s | Err _ => s end, forget_task r, ran)
    end
  end.

(** ** Buttons ([confirm.go]) *)

Definition malformed_task : error := New "Malformed task action".
Definition unknown_action : error := New "Unknown action; try `help`".
(** A button [task:<verb>:<id>], or [task:<verb>:<repo>:<id>] of an old alert. *)
Definition task_button (rest : string) : option (string * string * string) :=
  match Split rest ":"%char with
  | [verb; id] => Some (verb, "", id)
  | [verb; repo; id] => Some (verb, repo, id)
  | _ => None
  end.
Definition handleTaskButton (inv : Invocation) (tok : result string error) (now : instant) (rest : string) (s : Service)
    : Service * result (string * list Button) error :=
  match task_button rest with
  | None => (s, Err malformed_task)
  | Some (verb, repo, id) =>
    match ForRecord (an_fleet a) "task" id repo with
    | Err err => (s, Err err)
    | Ok app =>
      let answered :=
        if bool_decide (verb = "view") then Some (s, taskDetail inv app [id] s) else
        if bool_decide (verb = "retry") || bool_decide (verb = "cancel") then Some (taskConfirm inv tok now app verb [id] s)
        else None in
      match answered with
      | None => (s, Err unknown_action)
      | Some (s, r) => (if is_ok r then remember inv app id s else s, forget_task r)
      end
    end
  end.
Definition handleAction (inv : Invocation) (tok : result string error) (now : instant) (s : Service)
    : effect (string * list Button) :=
  let '(kind, rest, _) := Cut (Inv_Action inv) ":"%char in
  if bool_decide (kind = "confirm") || bool_decide (kind = "cancel") then
    let '(s, p) := takePending rest (Inv_UserID inv) now s in
    match p with
    | None => quietly (s, Ok ("That confirmation has expired; run the command again.", []))
    | Some p =>
      if bool_decide (kind = "cancel") then quietly (s, Ok ("Cancelled.", [])) else
      (s, (let! text := run_parked (pa_run p) in Ok (text, [])), Some (pa_run p))
    end
  else if bool_decide (kind = "digest") then
    let '(page, ok) := Atoi rest in
    quietly (s, guard ok else New "Malformed digest action"; digestPage page)
  else if bool_decide (kind = "task") then quietly (handleTaskButton inv tok now rest s)
  else quietly (s, Err unknown_action).
End commands.

Section handle.
Context `{Unicode} `{Printable} (cfg : ChatConfig) (clean : string -> string) (operatorError : error -> string).

Definition respond (r : result (string * list Button) error) : Response :=
  match r with
  | Ok (text, buttons) => mkResponse (str (boundText clean text)) buttons
  | Err err => mkResponse (str (boundText clean (operatorError err))) []
  end.
(** One call of [Handle]: the invocation, the answers it gets, the token it may
    draw, and its readings of the clock. *)
Record call := mkCall {
  c_inv : Invocation; c_answers : Answers; c_token : result string error; c_received : instant; c_now : instant }.
Definition handle_accepted (c : call) (s : Service) : Service * Response * bool * option engine_call :=
  let '(s, r, ran) :=
    if negb (bool_decide (Inv_Action (c_inv c) = "")) then handleAction (c_answers c) (c_inv c) (c_token c) (c_now c) s
    else handleCommand (c_answers c) cfg (c_inv c) (c_token c) (c_now c) s in
  (s, respond r, true, ran).
Definition Handle (c : call) (s : Service) : Service * Response * bool * option engine_call :=
  let inv := c_inv c in
  if negb (Authorized cfg (Inv_Provider inv) (Inv_UserID inv)) then (s, mkResponse "" [], false, None) else
  if negb (bool_decide (Inv_EventID inv = "")) then
    match MarkChatEventSeen (an_seen_fails (c_answers c)) (Provider_name (Inv_Provider inv)) (Inv_EventID inv) (c_received c) s with
    | None => (s, mkResponse "That delivery could not be recorded safely; please try again." [], true, None)
    | Some (s, seen) => if seen then (s, mkResponse "" [], true, None) else handle_accepted c s
    end
  else handle_accepted c s.
End handle.

(** * Properties *)

(** ** One click, one execution *)

Section once.
Context `{Unicode} `{Printable} (cfg : ChatConfig) (clean : string -> string) (operatorError : error -> string).

Definition handle_call (s : Service) (c : call) : Service * option engine_call :=
  let '(s', _, _, ran) := Handle cfg clean operatorError c s in (s', ran).
(** The state after some calls and the engine calls they made, each with its
    call. *)
Definition history_step (h : Service * list (call * engine_call)) (c : call) : Service * list (call * engine_call) :=
  let '(s, ran) := handle_call (fst h) c in
  (s, match ran with Some a => snd h ++ [(c, a)] | None => snd h end).
Definition history (calls : list call) : Service * list (call * engine_call) :=
  foldl history_step (mkService ∅ ∅ ∅, []) calls.

Definition authorized (c : call) : Prop := Authorized cfg (Inv_Provider (c_inv c)) (Inv_UserID (c_inv c)) = true.
(** A typed command. *)
Definition typed (c : call) (p : parsed) : Prop := Inv_Action (c_inv c) = "" /\ parseCommand (Inv_Text (c_inv c)) = Ok p.
(** The App of the repository that is named, or of the record that is. *)
Definition named_app (c : call) (repo : string) (app : ChatApp) : Prop :=
  repo <> "" -> forLocked (an_fleet (c_answers c)) repo = Some app.
Definition owner_app (c : call) (kind id repo : string) (app : ChatApp) : Prop :=
  id <> "" -> ForRecord (an_fleet (c_answers c)) kind id repo = Ok app.
Definition task_verbs : list (string * TaskAction) := [("retry", TaskActionRetry); ("cancel", TaskActionCancel)].
Definition control_verbs : list (string * ControlAction) :=
  [("pause", ControlPause); ("resume", ControlResume); ("cycle", ControlCycle); ("audit", ControlAudit)].
(** The mutating call that the invocation itself asks for, by its text or its
    button. *)
Inductive requested (c : call) : engine_call -> Prop :=
| requested_control p app action :
    typed c p -> (verb p, action) ∈ control_verbs -> named_app c (repo p) app -> requested c (CallControl app action)
| requested_task p id more app action :
    typed c p -> (verb p, action) ∈ task_verbs -> fields p = id :: more -> owner_app c "task" id (repo p) app ->
    requested c (CallTask app id action)
| requested_withdraw p id more app :
    typed c p -> verb p = "withdraw" -> fields p = id :: more -> owner_app c "request" id (repo p) app ->
    requested c (CallWithdraw app id)
| requested_button rest ok verb repo id app action :
    Cut (Inv_Action (c_inv c)) ":"%char = ("task", rest, ok) -> task_button rest = Some (verb, repo, id) ->
    (verb, action) ∈ task_verbs -> ForRecord (an_fleet (c_answers c)) "task" id repo = Ok app ->
    requested c (CallTask app id action).
(** The request that a [request] command files; the target is the default branch
    of its repository. *)
Inductive files (c : call) : engine_call -> Prop :=
| files_request p app title description target :
    typed c p -> verb p = "request" -> named_app c (repo p) app -> request_texts (rest p) = (title, description) ->
    title <> "" -> an_config (c_answers c) app = Ok target -> files c (CallCreateRequest app title description target).
(** The call clicks the Confirm button of this token. *)
Definition clicked (c : call) : string := let '(_, rest, _) := Cut (Inv_Action (c_inv c)) ":"%char in rest.
Definition clicked_confirm (c : call) : Prop := exists ok, Cut (Inv_Action (c_inv c)) ":"%char = ("confirm", clicked c, ok).

Inductive handled (s : Service) (c : call) : Service -> option engine_call -> Prop :=
| handled_other s' : pending s' ⊆ pending s -> handled s c s' None
| handled_asked s' a tok kept : authorized c -> requested c a -> c_token c = Ok tok ->
    kept ⊆ pending s -> (size kept < maxPending)%nat ->
    pending s' = <[tok := mkPending (Inv_UserID (c_inv c)) (add_seconds (c_now c) pendingTTL) a]> kept ->
    handled s c s' None
| handled_ran s' p : authorized c -> clicked_confirm c -> pending s !! clicked c = Some p ->
    pa_userID p = Inv_UserID (c_inv c) -> after (c_now c) (pa_expires p) = false ->
    pending s' = delete (clicked c) (pending s) -> handled s c s' (Some (pa_run p))
| handled_filed s' a : authorized c -> files c a -> pending s' = pending s -> handled s c s' (Some a).

Lemma handled_sub s0 s c s' ran :
  pending s0 = pending s -> handled s0 c s' ran -> handled s c s' ran.
Proof.
  intros E [s'' P|s'' a tok kept Au As T K L P|s'' p Au C L U X P|s'' a Au F P]; rewrite E in *;
    [by apply handled_other|by eapply handled_asked|by eapply handled_ran|by apply handled_filed].
Qed.
Lemma handled_pending s c s1 s2 ran : pending s2 = pending s1 -> handled s c s1 ran -> handled s c s2 ran.
Proof.
  intros E D. revert E. destruct D as [s' P|s' a tok kept Au As T K L P|s' p Au C L U X P|s' a Au F P];
    intros E; rewrite <- E in P; [by apply handled_other|by eapply handled_asked|by eapply handled_ran|by apply handled_filed].
Qed.
Lemma remember_pending a inv app taskID s : pending (remember a inv app taskID s) = pending s.
Proof. unfold remember, SetChatContext. by destruct (an_broken a AtSave). Qed.

(** A confirmation that is asked for. *)
Lemma offer_handled c prompt run taskID s : authorized c -> requested c run ->
  handled s c (fst (offer (c_inv c) (c_token c) (c_now c) prompt run taskID s)) None.
Proof.
  intros Au R. unfold offer, confirm. destruct (c_token c) as [tok|err] eqn:T; [|by apply handled_other].
  set (kept := filter _ _). assert (kept ⊆ pending s) as K by apply map_filter_subseteq.
  destruct (Nat.leb_spec maxPending (size kept)) as [L|L]; [by apply handled_other|].
  by apply (handled_asked _ _ _ run tok kept).
Qed.
Lemma resolveApp_named c repoFlag s app :
  resolveApp (c_answers c) cfg (c_inv c) repoFlag s = Ok app -> named_app c repoFlag app.
Proof.
  unfold resolveApp, named_app. intros E N. rewrite (bool_decide_eq_false_2 _ N) in E. cbn [negb] in E. cbv iota in E.
  rewrite (bool_decide_eq_false_2 _ N) in E. cbn [negb] in E. cbv iota in E.
  by destruct (forLocked _ _) as [app'|]; [injection E as ->|].
Qed.
(** What is resolved for the command. *)
Lemma resolveCommandApp_named c p s app : record_kind (verb p) = None ->
  resolveCommandApp (c_answers c) cfg (c_inv c) (verb p) (fields p) (repo p) s = Ok app -> named_app c (repo p) app.
Proof. intros K. unfold resolveCommandApp. rewrite K. apply resolveApp_named. Qed.
Lemma resolveCommandApp_owner c p s app kind id more : record_kind (verb p) = Some kind -> fields p = id :: more ->
  resolveCommandApp (c_answers c) cfg (c_inv c) (verb p) (fields p) (repo p) s = Ok app -> owner_app c kind id (repo p) app.
Proof. intros K F. unfold resolveCommandApp, owner_app. rewrite K, F. intros E N. by rewrite bool_decide_eq_false_2 in E. Qed.

Lemma controlActions_verb v action : controlActions v = Some action -> (v, action) ∈ control_verbs /\ record_kind v = None.
Proof.
  unfold controlActions, control_verbs. repeat case_bool_decide; intros E; simplify_eq; (split; [set_solver|done]).
Qed.
Lemma dispatch_handled c p s app : authorized c -> typed c p ->
  resolveCommandApp (c_answers c) cfg (c_inv c) (verb p) (fields p) (repo p) s = Ok app ->
  handled s c (fst (fst (dispatch (c_answers c) (c_inv c) (c_token c) (c_now c) app p s)))
    (snd (dispatch (c_answers c) (c_inv c) (c_token c) (c_now c) app p s)).
Proof.
  intros Au Ty R. unfold dispatch. cbv zeta. do 6 (case_bool_decide; [by apply handled_other|]).
  case_bool_decide as V.
  { unfold createRequest. destruct (request_texts (Chat.rest p)) as [title description] eqn:X.
    case_bool_decide as N; [by apply handled_other|]. destruct (an_config (c_answers c) app) as [target|] eqn:T; [|by apply handled_other].
    apply handled_filed; [done| |done]. apply (files_request _ p); try done.
    eapply resolveCommandApp_named; [|exact R]. by rewrite V. }
  destruct (controlActions (verb p)) as [action|] eqn:C.
  { apply controlActions_verb in C as [C K]. apply offer_handled; [done|].
    apply (requested_control _ p); [done..|]. by eapply resolveCommandApp_named. }
  destruct (bool_decide (verb p = "retry") || bool_decide (verb p = "cancel")) eqn:Rc.
  { unfold taskConfirm. destruct (fields p) as [|id more] eqn:F; [by apply handled_other|]. rewrite <- F in R. apply offer_handled; [done|].
    assert (record_kind (verb p) = Some "task" /\ (verb p, if bool_decide (verb p = "cancel") then TaskActionCancel else TaskActionRetry) ∈ task_verbs)
      as [K V'].
    { apply orb_true_iff in Rc as [E|E]; apply bool_decide_eq_true in E; rewrite E; (split; [done|]); unfold task_verbs; vm_compute;
        set_solver. }
    apply (requested_task _ p id more); [done..|]. by eapply resolveCommandApp_owner. }
  destruct (bool_decide_reflect (verb p = "withdraw")) as [W|W]; [|by apply handled_other].
  unfold withdrawConfirm. destruct (fields p) as [|id more] eqn:F; [by apply handled_other|]. rewrite <- F in R. apply offer_handled; [done|].
  apply (requested_withdraw _ p id more); [done..|]. eapply resolveCommandApp_owner; [|done..]. by rewrite W.
Qed.
Lemma handleCommand_handled c s : authorized c -> Inv_Action (c_inv c) = "" ->
  handled s c (fst (fst (handleCommand (c_answers c) cfg (c_inv c) (c_token c) (c_now c) s)))
    (snd (handleCommand (c_answers c) cfg (c_inv c) (c_token c) (c_now c) s)).
Proof.
  intros Au A. unfold handleCommand. destruct (parseCommand _) as [p|] eqn:P; [|by apply handled_other].
  do 3 (case_bool_decide; [by apply handled_other|]).
  destruct (resolveCommandApp _ _ _ _ _ _ _) as [app|] eqn:R; [|by apply handled_other].
  pose proof (dispatch_handled c p s app Au (conj A P) R) as D. destruct (dispatch _ _ _ _ _ _ _) as [[s1 r] ran]. cbn [fst snd] in *.
  eapply handled_pending; [|exact D]. destruct r as [[? taskID]|]; [apply remember_pending|done].
Qed.
Lemma handleTaskButton_handled c s rest ok : authorized c -> Cut (Inv_Action (c_inv c)) ":"%char = ("task", rest, ok) ->
  handled s c (fst (handleTaskButton (c_answers c) (c_inv c) (c_token c) (c_now c) rest s)) None.
Proof.
  intros Au C. unfold handleTaskButton. destruct (task_button rest) as [[[verb repo] id]|] eqn:B; [|by apply handled_other].
  destruct (ForRecord _ _ _ _) as [app|] eqn:F; [|by apply handled_other].
  case_bool_decide as V.
  { apply handled_other. destruct (is_ok _); cbn [fst]; [by rewrite remember_pending|done]. }
  destruct (bool_decide (verb = "retry") || bool_decide (verb = "cancel")) eqn:Rc; [|by apply handled_other].
  destruct (taskConfirm _ _ _ _ _ _ s) as [s1 r] eqn:T. cbn [fst].
  assert (handled s c s1 None) as D.
  { unfold taskConfirm in T. replace s1 with (fst (s1, r)) by done. rewrite <- T. apply offer_handled; [done|].
    apply (requested_button _ rest ok verb repo id); [done..| |done].
    apply orb_true_iff in Rc as [E|E]; apply bool_decide_eq_true in E; rewrite E; unfold task_verbs; vm_compute; set_solver. }
  eapply handled_pending; [|exact D]. destruct (is_ok r); [apply remember_pending|done].
Qed.
Lemma handleAction_handled c s : authorized c ->
  handled s c (fst (fst (handleAction (c_answers c) (c_inv c) (c_token c) (c_now c) s)))
          (snd (handleAction (c_answers c) (c_inv c) (c_token c) (c_now c) s)).
Proof.
  intros Au. unfold handleAction. destruct (Cut _ _) as [[kind rest] ok] eqn:C.
  destruct (bool_decide (kind = "confirm") || bool_decide (kind = "cancel")) eqn:K.
  2: { destruct (bool_decide_reflect (kind = "digest")) as [Dg|Dg]; [by destruct (Atoi rest); apply handled_other|].
       destruct (bool_decide_reflect (kind = "task")) as [Tk|Tk]; [subst kind; cbn [quietly fst snd]; by eapply handleTaskButton_handled|by apply handled_other]. }
  unfold takePending. destruct (pending s !! rest) as [p|] eqn:L; [|by apply handled_other].
  destruct (after _ _) eqn:X; [apply handled_other, delete_subseteq|].
  destruct (bool_decide_reflect (pa_userID p = Inv_UserID (c_inv c))) as [U|U]; cbn [negb]; [|by apply handled_other].
  destruct (bool_decide_reflect (kind = "cancel")) as [->|NK]; [apply handled_other, delete_subseteq|].
  assert (clicked c = rest) as R by (unfold clicked; by rewrite C).
  cbn [fst snd]. apply handled_ran; rewrite ?R; try done.
  exists ok. rewrite R, C. rewrite orb_false_r, bool_decide_eq_true in K. by rewrite K.
Qed.
Lemma handle_call_handled s c : handled s c (fst (handle_call s c)) (snd (handle_call s c)).
Proof.
  unfold handle_call, Handle.
  destruct (Authorized _ _ _) eqn:Au; cbn [negb]; [|by apply handled_other].
  assert (forall s0, pending s0 = pending s ->
    handled s c (fst (let '(s', _, _, ran) := handle_accepted cfg clean operatorError c s0 in (s', ran)))
            (snd (let '(s', _, _, ran) := handle_accepted cfg clean operatorError c s0 in (s', ran)))) as D.
  { intros s0 E. apply (handled_sub s0 _ _ _ _ E). unfold handle_accepted.
    destruct (bool_decide_reflect (Inv_Action (c_inv c) = "")) as [A|A]; cbn [negb].
    - pose proof (handleCommand_handled c s0 Au A) as G. destruct (handleCommand _ _ _ _ _ _) as [[s1 r] ran]. exact G.
    - pose proof (handleAction_handled c s0 Au) as G. destruct (handleAction _ _ _ _ _) as [[s1 r] ran]. exact G. }
  destruct (negb (bool_decide (Inv_EventID (c_inv c) = ""))); [|by apply D].
  unfold MarkChatEventSeen. destruct (an_seen_fails _); [by apply handled_other|].
  destruct (filter _ _ !! _); [by apply handled_other|]. by apply D.
Qed.

(** A parked action and the call that parked it. *)
Definition parked_by (c0 : call) (tok : string) (p : pendingAction) : Prop :=
  authorized c0 /\ c_token c0 = Ok tok /\ requested c0 (pa_run p) /\ pa_userID p = Inv_UserID (c_inv c0)
  /\ pa_expires p = add_seconds (c_now c0) pendingTTL.
(** A confirmed execution and the call that asked for it. *)
Definition confirmed (calls : list call) (c : call) (a : engine_call) : Prop :=
  exists before_ rest c0, calls = before_ ++ c :: rest /\ c0 ∈ before_ /\ authorized c0 /\ authorized c
    /\ requested c0 a /\ c_token c0 = Ok (clicked c) /\ clicked_confirm c
    /\ Inv_UserID (c_inv c0) = Inv_UserID (c_inv c)
    /\ after (c_now c) (add_seconds (c_now c0) pendingTTL) = false.
(** Every call that reaches the engine: confirmed, or the filing of a request. *)
Definition justified (calls : list call) (c : call) (a : engine_call) : Prop :=
  match a with
  | CallCreateRequest _ _ _ _ => c ∈ calls /\ authorized c /\ files c a
  | _ => confirmed calls c a
  end.
(** The executions under a token, and the calls that drew it. *)
Definition ran_under (tok : string) (e : call * engine_call) : bool :=
  match snd e with CallCreateRequest _ _ _ _ => false | _ => bool_decide (clicked (fst e) = tok) end.
Definition runs_of (tok : string) (log : list (call * engine_call)) : nat := List.length (List.filter (ran_under tok) log).
Definition drew (tok : string) (c : call) : bool := match c_token c with Ok t => bool_decide (t = tok) | Err _ => false end.
Definition draws_of (tok : string) (calls : list call) : nat := List.length (List.filter (drew tok) calls).
Definition waiting (tok : string) (s : Service) : nat :=
  match pending s !! tok with Some _ => 1 | None => 0 end.
Record chat_inv (calls : list call) (h : Service * list (call * engine_call)) : Prop := {
  inv_size : (size (pending (fst h)) <= maxPending)%nat;
  inv_parked : forall tok p, pending (fst h) !! tok = Some p -> exists c0, c0 ∈ calls /\ parked_by c0 tok p;
  inv_justified : forall c a, (c, a) ∈ snd h -> justified calls c a;
  inv_once : forall tok, (runs_of tok (snd h) + waiting tok (fst h) <= draws_of tok calls)%nat;
}.

Lemma justified_more calls extra c a : justified calls c a -> justified (calls ++ extra) c a.
Proof.
  assert (confirmed calls c a -> confirmed (calls ++ extra) c a) as M.
  { intros (b & r & c0 & -> & R). exists b, (r ++ extra), c0. split; [by rewrite <- app_assoc|exact R]. }
  destruct a; try exact M. intros (I & J). split; [apply elem_of_app; by left|exact J].
Qed.
Lemma requested_confirmed calls c c0 a : requested c0 a -> confirmed calls c a -> justified calls c a.
Proof. by intros []. Qed.
Lemma files_justified calls c a : c ∈ calls -> authorized c -> files c a -> justified calls c a.
Proof. intros I Au F. by destruct F; split_and!; [..|econstructor]. Qed.
Lemma draws_of_more tok calls c : (draws_of tok calls <= draws_of tok (calls ++ [c]))%nat.
Proof. unfold draws_of. rewrite List.filter_app, length_app. lia. Qed.
Lemma waiting_sub tok s s' : pending s' ⊆ pending s -> (waiting tok s' <= waiting tok s)%nat.
Proof.
  intros S. unfold waiting. destruct (pending s' !! tok) as [p|] eqn:E; [|lia].
  by rewrite (lookup_weaken _ _ _ _ E S).
Qed.

Lemma step_inv calls h c : chat_inv calls h -> chat_inv (calls ++ [c]) (history_step h c).
Proof.
  intros [Z P J O]. unfold history_step. pose proof (handle_call_handled (fst h) c) as G.
  destruct (handle_call (fst h) c) as [s' ran]. cbn [fst snd] in *.
  assert (forall tok p, pending (fst h) !! tok = Some p -> exists c0, c0 ∈ calls ++ [c] /\ parked_by c0 tok p) as P'.
  { intros tok p E. destruct (P tok p E) as (c0 & I & B). exists c0. split; [apply elem_of_app; by left|done]. }
  destruct G as [s' S|s' a tk kept Au As T K L E|s' p Au C L U X E|s' a Au F E].
  - split; cbn [fst snd].
    + etransitivity; [|exact Z]. by apply map_subseteq_size.
    + intros tok p E. eapply P', lookup_weaken; done.
    + intros. by apply justified_more, J.
    + intros tok. pose proof (O tok). pose proof (draws_of_more tok calls c). pose proof (waiting_sub tok _ _ S). lia.
  - split; cbn [fst snd].
    + rewrite E, map_size_insert. destruct (kept !! _); simpl; lia.
    + intros tok p. rewrite E, lookup_insert. destruct (decide (tk = tok)) as [<-|N].
      * intros [= <-]. exists c. split; [apply elem_of_app; right; by left|]. by split_and!.
      * intros I. eapply P', lookup_weaken; done.
    + intros. by apply justified_more, J.
    + intros tok. pose proof (O tok) as B. unfold waiting. rewrite E, lookup_insert. destruct (decide (tk = tok)) as [<-|N].
      * unfold draws_of in *. rewrite List.filter_app, length_app. cbn [List.filter]. unfold drew at 2.
        rewrite T, bool_decide_eq_true_2 by done. simpl. lia.
      * pose proof (draws_of_more tok calls c). pose proof (waiting_sub tok (fst h) (s' <| pending := kept |>) K) as W.
        unfold waiting in W at 1. cbn [pending] in W. change (pending (s' <| pending := kept |>)) with kept in W. lia.
  - destruct (P _ _ L) as (c0 & I0 & A0 & T0 & S0 & U0 & X0). split; cbn [fst snd].
    + rewrite E. etransitivity; [|exact Z]. apply map_subseteq_size, delete_subseteq.
    + intros tok q I. rewrite E in I. eapply P', lookup_weaken; [exact I|apply delete_subseteq].
    + intros c1 a1 I. apply elem_of_app in I as [I|I]; [by apply justified_more, J|].
      apply list_elem_of_singleton in I as [= -> ->]. apply (requested_confirmed _ _ c0); [done|].
      exists calls, [], c0. split_and!; try done; [congruence|by rewrite <- X0].
    + intros tok. pose proof (O tok) as B. pose proof (draws_of_more tok calls c). unfold waiting, runs_of in *.
      rewrite List.filter_app, length_app. cbn [List.filter]. rewrite E, lookup_delete.
      assert (ran_under tok (c, pa_run p) = bool_decide (clicked c = tok)) as -> by (unfold ran_under; cbn [fst snd]; by destruct S0).
      destruct (decide (clicked c = tok)) as [<-|N].
      * rewrite bool_decide_eq_true_2 by done. rewrite L in B. simpl. lia.
      * rewrite bool_decide_eq_false_2 by done. simpl. lia.
  - split; cbn [fst snd].
    + by rewrite E.
    + intros tok p I. rewrite E in I. by apply P'.
    + intros c1 a1 I. apply elem_of_app in I as [I|I]; [by apply justified_more, J|].
      apply list_elem_of_singleton in I as [= -> ->]. apply files_justified; [apply elem_of_app; right; by left|done..].
    + intros tok. pose proof (O tok) as B. pose proof (draws_of_more tok calls c). unfold waiting, runs_of in *.
      rewrite List.filter_app, length_app. cbn [List.filter]. rewrite E.
      assert (ran_under tok (c, a) = false) as -> by (by destruct F). simpl. lia.
Qed.
Lemma history_inv calls : chat_inv calls (history calls).
Proof.
  induction calls as [|c calls IH] using rev_ind.
  - split; simpl; [rewrite map_size_empty; lia|by intros ? ?|by intros ? ? ?%not_elem_of_nil|].
    intros tok. unfold waiting, runs_of, draws_of. cbn [fst snd pending]. rewrite lookup_empty. simpl. lia.
  - unfold history. rewrite foldl_app. by apply step_inv.
Qed.

(** C36: nothing changes from chat without its operator's word.  Over any
    history of invocations, whatever the store and the engine answer, every
    call that reaches the engine to change something is either the filing of a
    request, made by an authorised operator's own [request] command with the
    text of that command, or a control, retry, cancellation or withdrawal.  The
    latter runs only when an authorised operator clicks the Confirm button of
    an invocation that the same operator made before, no more than five minutes
    ago, and that asked for exactly this, by its verb or its button, of the App
    of the named repository or of the owner of the named record.  Each time a
    token is drawn it is used for one execution at most, and at most 100
    actions wait at any time. *)
Theorem confirmed_once calls :
  let '(s, log) := history calls in
  (size (pending s) <= 100)%nat
  /\ (forall c a, (c, a) ∈ log -> justified calls c a)
  /\ forall tok, (runs_of tok log <= draws_of tok calls)%nat.
Proof.
  pose proof (history_inv calls) as [Z _ J O]. destruct (history calls) as [s log]. cbn [fst snd] in *.
  split_and!; [exact Z|exact J|]. intros tok. specialize (O tok). lia.
Qed.

(** A delivery that is still recorded does nothing when it arrives again. *)
Lemma duplicate_ignored c s :
  let inv := c_inv c in
  Authorized cfg (Inv_Provider inv) (Inv_UserID inv) = true -> Inv_EventID inv <> "" ->
  (exists at_, chat_events s !! (Provider_name (Inv_Provider inv), Inv_EventID inv) = Some at_
           /\ String.ltb at_ (Timestamp (add_seconds (c_received c) (-604800))) = false) ->
  exists s' text, Handle cfg clean operatorError c s = (s', mkResponse text [], true, None) /\ pending s' = pending s.
Proof.
  intros inv Au N (at_ & L & R). unfold Handle. fold inv. rewrite Au, bool_decide_eq_false_2 by done. cbn [negb].
  unfold MarkChatEventSeen. destruct (an_seen_fails _); [by eexists _, _|].
  rewrite (map_lookup_filter_Some_2 _ _ _ at_) by done. by eexists _, _.
Qed.
(** A record of a repository is acted on by the App that serves it, never
    through another one that was named. *)
Lemma ForRecord_owner f kind id selected app repo :
  RecordRepository f kind id = Ok (repo, true) -> selected <> "" ->
  ForRecord f kind id selected = Ok app -> forLocked f selected = Some app /\ EqualASCII repo selected = true.
Proof.
  intros R N. unfold ForRecord. rewrite R, bool_decide_eq_false_2 by done. cbn. destruct (forLocked f selected) as [a|]; [|done].
  destruct (EqualASCII repo selected); [|done]. by intros [= <-].
Qed.
End once.

(** ** An example *)

(** [ada] asks to retry a task; [eve] cannot confirm it, [ada] can, once; then
    [ada] files a request, which asks for nothing. *)
Section example.
Definition operator_config : ChatConfig :=
  mkChatConfig (Some (mkProviderConfig SlackProvider "" "" "" "" (<["ada" := true]> (<["eve" := true]> ∅)) ∅ "")) None.
Definition one_repository : Fleet := mkFleet "a/b" [] ["a/b"] (Ok "a/b") (fun _ _ => Ok ("a/b", true)).
Definition calm : Answers :=
  mkAnswers one_repository (fun _ => Ok "") (fun _ => Ok []) [] "" (fun _ _ => Err (New "Record not found"))
    (fun _ => Ok "main") (fun _ => Ok (mkFiled "r1" "a/b" "Fix it")) (fun _ => false) false.
Definition says (user text action event : string) (tok : string) (at_ : Z) : call :=
  mkCall (mkInvocation SlackProvider event user "C1" "" text action) calm (Ok tok) (mkInstant at_ 0) (mkInstant at_ 0).
Definition conversation : list call :=
  [says "ada" "retry t1" "" "1" "k1" 0; says "eve" "" "confirm:k1" "2" "k2" 1; says "ada" "" "confirm:k1" "3" "k3" 2;
   says "ada" "" "confirm:k1" "4" "k4" 3; says "ada" "request Fix it" "" "5" "k5" 4; says "ada" "cancel t1" "" "6" "k6" 5;
   says "ada" "" "confirm:k6" "7" "k7" 306].
Example conversation_runs :
  let '(s, log) := history operator_config id (fun _ => "") conversation in
  map snd log = [CallTask (mkChatApp 0 "a/b") "t1" TaskActionRetry; CallCreateRequest (mkChatApp 0 "a/b") "Fix it" "Fix it" "main"]
  /\ pending s = ∅.
Proof. vm_compute. split; reflexivity. Qed.
End example.
