(* ===== verification/ChangeSet.v ===== *)
(** * The trusted account of a change set ([internal/engine/review.go])

    What the orchestrator's own git tells a reviewer about a revision: every
    changed file with its line counts, and as many whole diffs as fit in a
    prompt, the smallest first. *)
From S2P Require Import Prelude GoStrings WireJson Enums GoErrors Strconv.
Local Open Scope string_scope.
Local Open Scope list_scope.
Local Open Scope Z_scope.

(** ** The listing *)

Definition reviewListLimit : Z := Z.shiftl 32 10.
Definition reviewDiffLimit : Z := Z.shiftl 64 10.

Record changedFile := mkChangedFile {
  changedFile_listed : string; changedFile_path : string; changedFile_lines : Z }.
Record changeSet := mkChangeSet {
  changeSet_totals : string; changeSet_files : string; changeSet_diff : string; changeSet_omitted : list string }.

Definition tab : ascii := ascii_of_N 9.
(** [(\d+|-)]. *)
Definition count_field (s : string) : bool := bool_decide (s = "-") || is_decimal (chars s).
(** [numstatLine]: [^(\d+|-)\t(\d+|-)\t(.+)$] on a text without a newline. *)
Definition numstatLine (line : string) : option (string * string * string) :=
  let '(added, rest, found1) := Cut line tab in
  let '(deleted, path, found2) := Cut rest tab in
  if found1 && found2 && count_field added && count_field deleted && negb (bool_decide (path = ""))
  then Some (added, deleted, path) else None.

Definition changed_lines (added deleted : string) : Z :=
  let '(n, ok) := Atoi added in
  if ok then int64 (n + fst (Atoi deleted)) else MaxInt.
(** A line of the listing. *)
Definition changed_line (line : string) : result (list changedFile) error :=
  if bool_decide (line = "") || HasPrefix line " " then Ok [] else
  match numstatLine line with
  | None => Err (Errorf "Unexpected git numstat line %q" [VStr line])
  | Some (added, deleted, listed) =>
    match (if HasPrefix listed (String quote "") then Unquote listed else Ok listed) with
    | Ok path => Ok [mkChangedFile listed path (changed_lines added deleted)]
    | Err err => Err (Errorf "Unexpected git path %s: %w" [VStr listed; VWrap err])
    end
  end.
Fixpoint changed_files (lines : list string) : result (list changedFile) error :=
  match lines with
  | [] => Ok []
  | line :: lines =>
    let! file := changed_line line in
    let! files := changed_files lines in
    Ok (file ++ files)
  end.
Definition changedFiles (listing : string) : result (list changedFile) error := changed_files (Split listing line_feed).

(** [slices.SortStableFunc] by line count, on indices. *)
Fixpoint insert_index (key : nat -> Z) (i : nat) (l : list nat) : list nat :=
  match l with
  | [] => [i]
  | j :: t => if key i <=? key j then i :: l else j :: insert_index key i t
  end.
Definition sort_indices (key : nat -> Z) (l : list nat) : list nat := foldr (insert_index key) [] l.

(** [strings.TrimRight(s, "\n")]. *)
Definition trim_newlines (s : string) : string := str (rev (drop_set (String line_feed "") (rev (chars s)))).
Definition string_len (s : string) : Z := Z.of_nat (String.length s).

Section change_set.
(** [gitops.DiffText]: the text of a diff of at most [limit] bytes, and whether
    it is complete. *)
Context (DiffText : list string -> Z -> result (string * bool) error).
Context (base revision : string).

Definition file_diff (file : changedFile) (limit : Z) : result (string * bool) error :=
  DiffText [base; revision; "--"; ":(literal)" +:+ changedFile_path file] limit.

(** The loop over the files, the smallest first. *)
Fixpoint show_files (changed : list changedFile) (order : list nat) (shown : list string) (remaining : Z)
    : result (list string) error :=
  match order with
  | [] => Ok shown
  | i :: order =>
    match changed !! i with
    | None => show_files changed order shown remaining
    | Some file =>
      let! text := file_diff file remaining in
      if negb (snd text) then show_files changed order shown remaining else
      if bool_decide (fst text = "")
      then Err (Errorf "Git shows no diff for the changed file %s" [VStr (changedFile_listed file)])
      else show_files changed order (<[i := fst text]> shown) (remaining - string_len (fst text))
    end
  end.

Definition listing_too_long : error :=
  Errorf "%w: The change set from %s to %s lists more files than a review prompt carries (over %d bytes); narrow the task"
    [VWrap (Reason BlockedInvalidReview); VStr base; VStr revision; VNum (Z.to_N reviewListLimit)].
Definition unshown (changed : list changedFile) (shown : list string) : list string :=
  map (fun e => changedFile_listed e.1)
    (List.filter (fun e => bool_decide (e.2 = "")) (zip changed shown)).

Definition trustedChangeSet : result changeSet error :=
  let diff limit args := DiffText (args ++ [base; revision]) limit in
  let! totals := diff reviewListLimit ["--shortstat"] in
  let! files := diff (reviewListLimit - string_len (fst totals)) ["--numstat"; "--summary"] in
  if negb (snd totals) || negb (snd files) then Err listing_too_long else
  let set := mkChangeSet (TrimSpace (fst totals)) (trim_newlines (fst files)) "" [] in
  let! changed := changedFiles (changeSet_files set) in
  if bool_decide (changed = []) then Ok set else
  let! whole := diff reviewDiffLimit [] in
  if snd whole then Ok (mkChangeSet (changeSet_totals set) (changeSet_files set) (fst whole) []) else
  let key i := match changed !! i with Some file => changedFile_lines file | None => 0 end in
  let smallest := sort_indices key (seq 0 (List.length changed)) in
  let! shown := show_files changed smallest (map (fun _ => "") changed) reviewDiffLimit in
  Ok (mkChangeSet (changeSet_totals set) (changeSet_files set) (Join shown "") (unshown changed shown)).
End change_set.

(** * Properties *)

Lemma sort_indices_perm key l : sort_indices key l ≡ₚ l.
Proof.
  induction l as [|i l IH]; [done|]. simpl. rewrite <- IH at 2. clear IH.
  induction (sort_indices key l) as [|j t IH]; [done|]. simpl. destruct (_ <=? _); [done|].
  rewrite IH. by rewrite Permutation_swap.
Qed.

Lemma string_len_pos s : 0 <= string_len s.
Proof. unfold string_len. lia. Qed.

(** The bytes of the diffs shown. *)
Fixpoint shown_len (shown : list string) : Z :=
  match shown with [] => 0 | text :: shown => string_len text + shown_len shown end.
Lemma shown_len_insert shown i text :
  shown !! i = Some "" -> shown_len (<[i := text]> shown) = shown_len shown + string_len text.
Proof.
  revert i. induction shown as [|x shown IH]; intros [|i] E; simpl in *; try done.
  - injection E as ->. unfold string_len. simpl. lia.
  - rewrite (IH i) by done. lia.
Qed.
Lemma shown_len_blank {A} (l : list A) : shown_len (map (fun _ => "") l) = 0.
Proof. induction l; simpl; [done|]. by rewrite IHl. Qed.
Lemma length_app_string a b : String.length (a +:+ b) = (String.length a + String.length b)%nat.
Proof. induction a; simpl; [done|]. by rewrite IHa. Qed.
Lemma Join_len shown : string_len (Join shown "") = shown_len shown.
Proof.
  induction shown as [|x [|y shown] IH]; [done|unfold shown_len, string_len; simpl; lia|].
  assert (string_len (Join (x :: y :: shown) "") = string_len x + string_len (Join (y :: shown) "")) as ->; [|by rewrite IH].
  unfold string_len. rewrite <- Nat2Z.inj_add, <- length_app_string. done.
Qed.

Section change_set_facts.
Context (DiffText : list string -> Z -> result (string * bool) error) (base revision : string).
Context (DiffText_fits : forall args limit text, DiffText args limit = Ok (text, true) -> string_len text <= limit).

(** What becomes of a file whose turn came while at least [left] bytes were
    left: its whole diff is shown, or it did not fit. *)
Definition settled_file (left : Z) (file : changedFile) (text : string) : Prop :=
  if bool_decide (text = "")
  then exists limit cut, left <= limit /\ file_diff DiffText base revision file limit = Ok (cut, false)
  else exists limit, file_diff DiffText base revision file limit = Ok (text, true).

Lemma show_files_settles changed order : forall shown remaining shown',
  show_files DiffText base revision changed order shown remaining = Ok shown' ->
  NoDup order -> length shown = length changed -> 0 <= remaining ->
  (forall i, i ∈ order -> shown !! i = Some "") ->
  exists left, 0 <= left <= remaining /\ shown_len shown' + left = shown_len shown + remaining /\ length shown' = length changed
  /\ (forall i, i ∉ order -> shown' !! i = shown !! i)
  /\ (forall i file, i ∈ order -> changed !! i = Some file ->
        exists text, shown' !! i = Some text /\ settled_file left file text).
Proof using DiffText_fits.
  induction order as [|i order IH]; intros shown remaining shown' E ND Len Pos Blank; simpl in E.
  { injection E as <-. exists remaining. split_and!; try done; try lia. intros i file Ei. by apply elem_of_nil in Ei. }
  apply NoDup_cons in ND as [Ni ND]. pose proof (Blank i (list_elem_of_here _ _)) as Bi.
  assert (is_Some (changed !! i)) as [file Ef].
  { apply lookup_lt_is_Some. rewrite <- Len. apply lookup_lt_is_Some. by exists "". }
  rewrite Ef in E. apply result_bind_Ok in E as ([text complete] & D & E). simpl in E.
  destruct complete; simpl in E.
  - destruct (bool_decide (text = "")) eqn:Em; [done|]. pose proof (DiffText_fits _ _ _ D) as Fit. pose proof (string_len_pos text).
    apply IH in E as (left & P & T & L & Old & New); [|done| | |].
    + exists left. rewrite shown_len_insert in T by done. split_and!; [lia..|done| |].
      * intros j Nj. apply not_elem_of_cons in Nj as [Nji Nj]. rewrite Old by done. by rewrite list_lookup_insert_ne by done.
      * intros j f Ej Fj. apply elem_of_cons in Ej as [-> |Ej]; [|by apply New]. assert (f = file) as -> by congruence.
        exists text. rewrite Old, list_lookup_insert_eq by (done || (rewrite Len; by eapply lookup_lt_Some)).
        split; [done|]. unfold settled_file. rewrite Em. by exists remaining.
    + by rewrite length_insert.
    + lia.
    + intros j Ej. rewrite list_lookup_insert_ne; [by apply Blank, list_elem_of_further|]. intros ->. done.
  - apply IH in E as (left & P & T & L & Old & New); [|done|done|done|].
    + exists left. split_and!; try done; try lia.
      * intros j Nj. apply not_elem_of_cons in Nj as [_ Nj]. by apply Old.
      * intros j f Ej Fj. apply elem_of_cons in Ej as [-> |Ej]; [|by apply New]. assert (f = file) as -> by congruence.
        exists "". rewrite Old by done. split; [done|]. unfold settled_file. simpl. exists remaining, text. split; [lia|done].
    + intros j Ej. by apply Blank, list_elem_of_further.
Qed.

(** The whole diffs of an account, in the order of the listing, and the files it
    names instead. *)
Definition account (changed : list changedFile) (set : changeSet) : Prop :=
  exists left shown, 0 <= left
  /\ Forall2 (settled_file left) changed shown
  /\ changeSet_diff set = Join shown "" /\ changeSet_omitted set = unshown changed shown
  /\ string_len (changeSet_diff set) + left = reviewDiffLimit.

Definition accounts (set : changeSet) : Prop :=
  exists limit listing changed,
    DiffText ["--numstat"; "--summary"; base; revision] limit = Ok (listing, true)
    /\ changeSet_files set = trim_newlines listing
    /\ changedFiles (changeSet_files set) = Ok changed
    /\ string_len (changeSet_diff set) <= reviewDiffLimit
    /\ ((changed = [] /\ changeSet_diff set = "" /\ changeSet_omitted set = [])
        \/ (DiffText [base; revision] reviewDiffLimit = Ok (changeSet_diff set, true) /\ changeSet_omitted set = [])
        \/ account changed set).

(** C31: a reviewer is told about every changed file.  When the account of a
    change set is given at all, the listing in it is git's whole listing and
    every line of it was read; and either the whole diff follows, or each
    changed file is shown by its whole, nonempty diff or named as omitted, and
    omitted only because its diff does not fit what the limit leaves.  The
    diffs never exceed the limit. *)
Theorem trustedChangeSet_accounts set :
  trustedChangeSet DiffText base revision = Ok set -> accounts set.
Proof using DiffText_fits.
  unfold trustedChangeSet. intros E. apply result_bind_Ok in E as ([totals counted] & _ & E).
  apply result_bind_Ok in E as ([listing listed] & Ls & E). simpl in E.
  destruct counted; simpl in E; [|done]. destruct listed; simpl in E; [|done].
  apply result_bind_Ok in E as (changed & Ch & E). eexists _, listing, changed. split; [exact Ls|].
  destruct (bool_decide (changed = [])) eqn:Em.
  { apply bool_decide_eq_true in Em. injection E as <-. by split_and!; [..|left]. }
  apply result_bind_Ok in E as ([whole fits] & Wh & E). simpl in E, Wh. destruct fits; simpl in E.
  { injection E as <-. pose proof (DiffText_fits _ _ _ Wh). split_and!; try done. right. by left. }
  apply result_bind_Ok in E as (shown & Sh & E). injection E as <-. simpl.
  apply show_files_settles in Sh as (left & P & T & L & _ & Each); [|by rewrite sort_indices_perm; apply NoDup_seq|by rewrite length_map|done|].
  - rewrite shown_len_blank in T. assert (string_len (Join shown "") + left = reviewDiffLimit) as Sum by (rewrite Join_len; lia).
    split_and!; [done|done|lia|]. right. right. exists left, shown. split_and!; [lia| |done|done|done].
    apply Forall2_same_length_lookup. split; [done|]. intros i file text Ef Et.
    destruct (Each i file) as (text' & Et' & St); [|done|by simplify_eq].
    rewrite sort_indices_perm. apply elem_of_seq. apply lookup_lt_Some in Ef. lia.
  - intros i Ei. rewrite sort_indices_perm in Ei. apply elem_of_seq in Ei as [_ Ei].
    rewrite lookup_map. destruct (changed !! i) eqn:Lk; [done|]. apply lookup_ge_None in Lk. lia.
Qed.
End change_set_facts.

(** Two files, of which the larger does not fit. *)
Definition sample_text (args : list string) : option string :=
  if bool_decide (args = ["--shortstat"; "a"; "b"]) then Some " 2 files changed" else
  if bool_decide (args = ["--numstat"; "--summary"; "a"; "b"]) then
    Some ("90000" +:+ String tab ("0" +:+ String tab ("big.go" +:+ String line_feed ("1" +:+ String tab ("1" +:+ String tab
        ("x.go" +:+ String line_feed "")))))) else
  if bool_decide (args = ["a"; "b"; "--"; ":(literal)x.go"]) then Some "+line" else None.
Definition sample_diff (args : list string) (limit : Z) : result (string * bool) error :=
  match sample_text args with
  | Some text => if string_len text <=? limit then Ok (text, true) else Ok ("", false)
  | None => Ok ("", false)
  end.
Lemma sample_diff_fits args limit text : sample_diff args limit = Ok (text, true) -> string_len text <= limit.
Proof. unfold sample_diff. destruct (sample_text args); [|done]. destruct (_ <=? _) eqn:L; intros [= <-]. by apply Z.leb_le. Qed.

Lemma trustedChangeSet_accounts_witness :
  exists files, let set := mkChangeSet "2 files changed" files "+line" ["big.go"] in
    trustedChangeSet sample_diff "a" "b" = Ok set /\ accounts sample_diff "a" "b" set.
Proof.
  eexists. split; [vm_compute; reflexivity|].
  apply (trustedChangeSet_accounts sample_diff "a" "b" sample_diff_fits). vm_compute. reflexivity.
Defined.
