(* ===== verification/Evidence.v ===== *)
(** * The evidence of a verification command
    ([internal/engine/verification.go], [baseline.go], [internal/process/status.go])

    What is recorded of a command the sandbox ran: its output streams, cut and
    scrubbed, its exit status on failure and a note on the work tree, within a
    bound.  A verification keeps the end of each stream, a baseline the
    beginning. *)
From S2P Require Import Prelude GoStrings WireJson Enums Types GoErrors Config GoTime Model Lifecycle Store StoreMerges StoreTasks StoreBudget StoreCapacity Runtime Redact Fragment Capture.
Local Open Scope string_scope.
Local Open Scope list_scope.
Local Open Scope Z_scope.

(** ** How a child ended *)

Record Exit := mkExit { Exit_Code : Z; Exit_OOM : bool; Exit_Killed : bool; Exit_Reason : string }.
(** A host's process state as [os] reports it: whether it succeeded, and its
    text. *)
Record ProcessState := mkProcessState { state_success : bool; state_text : string }.
(** A status holds a state or an exit; neither, when the child left none. *)
Inductive ChildStatus := hostStatus (state : option ProcessState) | ExitStatus (exit : Exit).

Definition FormatInt (n : Z) : string :=
  if n <? 0 then "-" +:+ FormatUint (Z.to_N (- n)) else FormatUint (Z.to_N n).
Definition ChildStatus_Success (s : ChildStatus) : bool :=
  match s with
  | ExitStatus e => (Exit_Code e =? 0) && negb (Exit_OOM e) && negb (Exit_Killed e)
  | hostStatus (Some state) => state_success state
  | hostStatus None => false
  end.
Definition ChildStatus_String (s : ChildStatus) : string :=
  match s with
  | ExitStatus e =>
    if Exit_OOM e then "exit status: " +:+ FormatInt (Exit_Code e) +:+ " (sandbox memory limit exceeded)" else
    if Exit_Killed e && negb (bool_decide (Exit_Reason e = "")) then Exit_Reason e else
    if Exit_Killed e then "stopped by Octomus" else
    "exit status: " +:+ FormatInt (Exit_Code e)
  | hostStatus None => "unrecognised wait status: 0 0x0"
  | hostStatus (Some state) => state_text state
  end.

Record Output := mkOutput { Output_Status : ChildStatus; Output_Stdout : Captured; Output_Stderr : Captured }.

(** ** Bounds *)

Definition outputLimit : Z := Z.shiftl 16 10.
Definition noteLimit : Z := Z.shiftl 4 10.
Definition truncatedMarker : list ascii := chars "[output truncated]".
Definition len (l : list ascii) : Z := Z.of_nat (List.length l).
(** [utf8.RuneStart]. *)
Definition RuneStart (c : ascii) : bool := negb (N.land (N_of_ascii c) 192 =? 128)%N.

(** The loop of a tail: the bytes left of [start], from the first that starts a
    rune. *)
Fixpoint to_rune_start (l : list ascii) : list ascii :=
  match l with
  | [] => []
  | c :: t => if RuneStart c then l else to_rune_start t
  end.
(** The loop of a head: the longest prefix of at most [keep] bytes that ends
    where a rune starts. *)
Fixpoint head_length (text : list ascii) (keep : nat) : nat :=
  match keep with
  | O => O
  | S keep' => match text !! keep with
               | Some c => if RuneStart c then keep else head_length text keep'
               | None => keep
               end
  end.
Definition bound_prefix : list ascii := truncatedMarker ++ [newline].
Definition bound_suffix : list ascii := newline :: truncatedMarker.
(** [bound]; a head is asked for with a limit of at least 0. *)
Definition bound (text : list ascii) (limit : Z) (keepTail : bool) : list ascii * bool :=
  if len text <=? limit then (text, false) else
  if keepTail then
    let start := (List.length text - at_least_0 (limit - len bound_prefix))%nat in
    (bound_prefix ++ to_rune_start (drop start text), true)
  else if limit <? len bound_suffix then (take (Z.to_nat limit) bound_suffix, true)
  else
    let keep := head_length text (Z.to_nat (limit - len bound_suffix)) in
    (take keep text ++ bound_suffix, true).

(** ** The outcome of a command *)

(** [captured] and [capture] are the result of one call. *)
Record checkOutcome := mkOutcome {
  outcome_captured : result Output error; outcome_intact : bool; outcome_intactErr : option error;
  outcome_sandbox : option SandboxRecord }.
Definition failed (o : checkOutcome) : bool :=
  match outcome_captured o with Err _ => true | Ok out => negb (ChildStatus_Success (Output_Status out)) end.

Section evidence.
Context `{World} (environ : list string).
(** [sandbox.Infrastructure]: the error holds a [*sandbox.Error]. *)
Context (Infrastructure : error -> bool).

Definition sandboxFailed (o : checkOutcome) : bool :=
  match outcome_captured o with Err err => Infrastructure err | Ok _ => false end.
Definition Secrets (text : list ascii) : list ascii := scrub text (environmentSecrets environ).
Definition tail_of (text : list ascii) (limit : Z) : list ascii := fst (bound text limit true).

Definition clean_stream (p : failurePreview) : list ascii :=
  let trim l := chars (TrimSpace (str l)) in
  let text := trim (head_ p) in
  if negb (truncated p) then text else
  let text := text ++ [newline] ++ truncatedMarker in
  match trim (tailp p) with
  | [] => text
  | tail => text ++ [newline] ++ tail
  end.
Definition SafeCaptures (out : Output) : failurePreview * failurePreview :=
  let '(safe, stdoutParts) := safeParts environ (Output_Stdout out) (Output_Stderr out) in
  (scrubbedPreview (take stdoutParts safe), scrubbedPreview (drop (S stdoutParts) safe)).
Definition failure_status (status : ChildStatus) : list ascii :=
  if ChildStatus_Success status then [] else newline :: chars (ChildStatus_String status).
(** The evidence of two clean streams and a status. *)
Definition stream_evidence (stdout stderr status : list ascii) (limit : Z) : list ascii :=
  let stderr :=
    match stderr with
    | [] => []
    | _ =>
      let budget := Z.max (limit / 2) (limit - len stderr_separator - len stdout - len status) in
      stderr_separator ++ tail_of stderr budget
    end in
  tail_of stdout (limit - len stderr - len status) ++ stderr ++ status.
Definition evidenceText (o : checkOutcome) (limit : Z) : list ascii :=
  match outcome_captured o with
  | Err err => tail_of (Secrets (chars (Error err))) limit
  | Ok out =>
    let '(stdout, stderr) := SafeCaptures out in
    stream_evidence (clean_stream stdout) (clean_stream stderr) (failure_status (Output_Status out)) limit
  end.

(** The note of [verifyRevision], and the output it records. *)
Definition changed_note : list ascii :=
  newline :: chars "Workspace or HEAD changed during this verification command".
Definition verification_note (o : checkOutcome) : list ascii :=
  match outcome_intactErr o with
  | Some err => newline :: fst (bound (Secrets (chars (Error err))) noteLimit true)
  | None => if outcome_intact o then [] else changed_note
  end.
Definition verification_output (o : checkOutcome) : list ascii :=
  let note := verification_note o in evidenceText o (outputLimit - len note) ++ note.

(** [commandOutput] of a baseline. *)
Definition commandOutput (o : checkOutcome) (note : list ascii) (limit : Z) : list ascii * bool :=
  let '(text, captureTruncated) :=
    match outcome_captured o with
    | Err err => (chars (Error err), false)
    | Ok out =>
      let '(stdout, stderr) := SafeCaptures out in
      (head_ stdout
       ++ (if (0 <? List.length (Bytes (Output_Stderr out)))%nat then stderr_separator ++ head_ stderr else [])
       ++ failure_status (Output_Status out),
       Truncated (Output_Stdout out) || Truncated (Output_Stderr out))
    end in
  let scrubbed := Secrets (text ++ note) in
  let scrubbed := if captureTruncated then scrubbed ++ newline :: truncatedMarker else scrubbed in
  let '(output, cut) := bound scrubbed limit false in
  (output, cut || captureTruncated).
End evidence.

(** * Properties *)

Lemma len_app a b : len (a ++ b) = len a + len b.
Proof. unfold len. rewrite length_app. lia. Qed.
Lemma len_pos a : 0 <= len a.
Proof. unfold len. lia. Qed.
Lemma to_rune_start_suffix l : exists pre, l = pre ++ to_rune_start l.
Proof. induction l as [|c l [pre E]]; simpl; [by exists []|]. destruct (RuneStart c); [by exists []|]. exists (c :: pre). simpl. by f_equal. Qed.

(** A tail is the text itself when it fits; otherwise it is marked and keeps the
    end of the text. *)
Lemma tail_fits text limit : len text <= limit -> tail_of text limit = text.
Proof. intros L. unfold tail_of, bound. apply Z.leb_le in L. by rewrite L. Qed.
Lemma tail_cut text limit :
  limit < len text ->
  exists pre kept, tail_of text limit = bound_prefix ++ kept /\ text = pre ++ kept /\ len kept <= Z.max 0 (limit - len bound_prefix).
Proof.
  intros L. unfold tail_of, bound. destruct (len text <=? limit) eqn:E; [apply Z.leb_le in E; lia|].
  set (start := (_ - _)%nat). destruct (to_rune_start_suffix (drop start text)) as [pre E2].
  exists (take start text ++ pre), (to_rune_start (drop start text)). split; [done|].
  split; [by rewrite <- app_assoc, <- E2, take_drop|].
  assert (len (drop start text) <= Z.max 0 (limit - len bound_prefix)).
  { unfold len at 1. rewrite length_drop. unfold start, at_least_0, len in *. lia. }
  rewrite E2, len_app in H. pose proof (len_pos pre). lia.
Qed.
Lemma tail_bounded text limit : len bound_prefix <= limit -> len (tail_of text limit) <= limit.
Proof.
  intros L. destruct (Z.le_gt_cases (len text) limit) as [F|F]; [by rewrite tail_fits|].
  destruct (tail_cut _ _ F) as (pre & kept & -> & _ & K). rewrite len_app. lia.
Qed.

(** What is left of a stream. *)
Definition keeps_end (text shown : list ascii) : Prop :=
  shown = text \/ exists pre kept, text = pre ++ kept /\ shown = bound_prefix ++ kept.
Lemma tail_keeps_end text limit : keeps_end text (tail_of text limit).
Proof.
  destruct (Z.le_gt_cases (len text) limit) as [F|F]; [left; by apply tail_fits|].
  destruct (tail_cut _ _ F) as (pre & kept & E & T & _). right. by exists pre, kept.
Qed.
Definition stderr_part (stderr : list ascii) : list ascii :=
  match stderr with [] => [] | _ => stderr_separator ++ stderr end.

(** The evidence of a command stays within its bound and says how the
    command ended.  When the status takes less than half of the bound, the
    evidence is what is left of standard output, then of standard error under
    its heading, then the whole status: it is no longer than the bound, each
    stream is there whole or by its end behind a mark, standard error is whole
    whenever it takes at most half of the bound, and nothing is cut when
    everything fits. *)
Theorem stream_evidence_spec stdout stderr status limit :
  len stderr_separator + len status + len bound_prefix <= limit - limit / 2 ->
  len bound_prefix <= limit / 2 ->
  exists out err,
    stream_evidence stdout stderr status limit = out ++ err ++ status
    /\ len (stream_evidence stdout stderr status limit) <= limit
    /\ keeps_end stdout out
    /\ match stderr with
       | [] => err = []
       | _ => exists text, err = stderr_separator ++ text /\ keeps_end stderr text
              /\ (len stderr <= limit / 2 -> text = stderr)
       end
    /\ (len stdout + len (stderr_part stderr) + len status <= limit -> out = stdout /\ err = stderr_part stderr).
Proof.
  intros Room Half. unfold stream_evidence.
  set (budget := Z.max (limit / 2) _). assert (limit / 2 <= budget) as Bu by (unfold budget; lia).
  set (err := match stderr with [] => [] | _ => stderr_separator ++ tail_of stderr budget end).
  set (rest := limit - len err - len status).
  assert (len err <= len stderr_separator + budget) as Le.
  { unfold err. destruct stderr; [unfold len at 1; simpl; pose proof (len_pos stderr_separator); pose proof (len_pos bound_prefix); lia|].
    rewrite len_app. pose proof (tail_bounded (a :: stderr) budget ltac:(lia)). lia. }
  assert (len (tail_of stdout rest) <= rest) as Lo.
  { destruct (Z.le_gt_cases (len bound_prefix) rest) as [B|B]; [by apply tail_bounded|].
    rewrite tail_fits; unfold rest, budget in *; lia. }
  exists (tail_of stdout rest), err. split; [done|]. split_and!.
  - rewrite !len_app. unfold rest in *. lia.
  - apply tail_keeps_end.
  - unfold err. destruct stderr as [|c stderr]; [done|]. eexists. split; [done|]. split; [apply tail_keeps_end|].
    intros F. apply tail_fits. unfold budget. lia.
  - intros F. assert (err = stderr_part stderr) as E.
    { unfold err, stderr_part in *. destruct stderr as [|c stderr]; [done|]. rewrite len_app in F. rewrite tail_fits; [done|].
      unfold budget. lia. }
    split; [|done]. apply tail_fits. unfold rest. rewrite E. lia.
Qed.
Lemma stream_evidence_spec_witness :
  len stderr_separator + len (chars "exit status: 1") + len bound_prefix <= 128 - 128 / 2
  /\ exists out err,
    stream_evidence (repeat "o"%char 200) (chars "broken") (chars "exit status: 1") 128
      = out ++ err ++ chars "exit status: 1"
    /\ len (stream_evidence (repeat "o"%char 200) (chars "broken") (chars "exit status: 1") 128) <= 128.
Proof.
  split; [vm_compute; discriminate|].
  destruct (stream_evidence_spec (repeat "o"%char 200) (chars "broken") (chars "exit status: 1") 128) as (out & err & E & L & _);
    [vm_compute; discriminate..|by exists out, err].
Defined.

(** ** What is recorded *)

Lemma bound_note text : len (fst (bound text noteLimit true)) <= noteLimit.
Proof. apply tail_bounded. vm_compute. discriminate. Qed.

Lemma head_length_le text keep : (head_length text keep <= keep)%nat.
Proof. induction keep as [|keep IH]; simpl; [lia|]. destruct (text !! S keep); [destruct (RuneStart _)|]; lia. Qed.
(** A head never exceeds its limit, and is the whole text when it is not
    marked as cut. *)
Lemma head_bounded text limit :
  0 <= limit -> len (fst (bound text limit false)) <= limit /\ (snd (bound text limit false) = false -> fst (bound text limit false) = text).
Proof.
  intros P. unfold bound. destruct (len text <=? limit) eqn:F; [by apply Z.leb_le in F|]. split; [|by destruct (limit <? _)].
  destruct (limit <? len bound_suffix) eqn:S.
  - cbn [fst]. unfold len. rewrite length_take. lia.
  - apply Z.ltb_ge in S. cbn [fst]. rewrite len_app. unfold len at 1. rewrite length_take.
    pose proof (head_length_le text (Z.to_nat (limit - len bound_suffix))). lia.
Qed.

Section evidence_facts.
Context `{World} (environ : list string).

(** The status text of a command that ended, or nothing. *)
Definition status_len (o : checkOutcome) : Z :=
  match outcome_captured o with Ok out => len (failure_status (Output_Status out)) | Err _ => 0 end.

(** The output recorded with a verification, note included, is at most 16 KiB,
    when the text of the exit status is at most 4 KiB. *)
Lemma verification_output_bounded o : status_len o <= 4096 -> len (verification_output environ o) <= outputLimit.
Proof.
  intros St. unfold verification_output. set (note := verification_note environ o).
  assert (len note <= noteLimit + 1) as N.
  { unfold note, verification_note. destruct (outcome_intactErr o) as [err|].
    - pose proof (bound_note (Secrets environ (chars (Error err)))). unfold len in *. cbn [List.length]. lia.
    - destruct (outcome_intact o); vm_compute; discriminate. }
  rewrite len_app. assert (len (evidenceText environ o (outputLimit - len note)) <= outputLimit - len note); [|lia].
  pose proof (len_pos note). change outputLimit with 16384 in *. change noteLimit with 4096 in *.
  assert (len bound_prefix = 19) as P by done. assert (len stderr_separator = 10) as Q by done.
  unfold evidenceText, status_len in *. destruct (outcome_captured o) as [out|err]; [|apply tail_bounded; lia].
  destruct (SafeCaptures environ out) as [stdout stderr].
  destruct (stream_evidence_spec (clean_stream stdout) (clean_stream stderr) (failure_status (Output_Status out)) (16384 - len note))
    as (? & ? & _ & L & _); [..|exact L]; rewrite ?P, ?Q; Z.to_euclidean_division_equations; lia.
Qed.

(** A baseline command's output stays within its limit, and is whole unless it
    is marked as cut. *)
Lemma commandOutput_bounded o note limit :
  0 <= limit -> len (fst (commandOutput environ o note limit)) <= limit.
Proof.
  intros P. unfold commandOutput. destruct (match outcome_captured o with Ok _ => _ | Err _ => _ end) as [text cut].
  destruct (bound _ limit false) as [out c] eqn:B. destruct (head_bounded (if cut then Secrets environ (text ++ note) ++ newline :: truncatedMarker else Secrets environ (text ++ note)) limit P) as [L _].
  by rewrite B in L.
Qed.
End evidence_facts.
