(* ===== verification/Worker.v ===== *)
(** * What a task worker asks, saves and reserves
    ([internal/engine/invocation.go], [verification.go], [task_commit.go])

    A worker runs beside the rest of the service: it holds a working copy of its
    task, asks git, the runners, the sandbox and its context, and enters the
    gate for each durable step.  What is asked is an [ask], whose answer is
    any; before each entry of the gate the rest of the service may have done
    anything to the engine and the database.  The deeds that matter are kept in
    order. *)
From S2P Require Import Prelude GoStrings Paths WireJson Enums Types GoErrors Config GoTime Model Samples Lifecycle Store StoreMerges StoreTasks StoreBudget StoreCapacity Runtime Observations TaskWorkers Controls Strconv Redact Fragment Capture Evidence.
Local Open Scope string_scope.
Local Open Scope list_scope.
Local Open Scope N_scope.

(** The schema of an answer. *)
Inductive Schema := NoSchema | ReviewSchema | MaintenanceReviewSchema.
Record Usage := mkUsage { Usage_Bytes : N; Usage_Unmeasured : list string }.

(** What a worker asks of the world, by the type of the answer: its context,
    the clock, git ([internal/git]), the sandbox ([internal/sandbox]), the
    runners ([internal/runner]), the work trees ([internal/workspace]) and the
    timer of its deadline ([internal/process]). *)
Inductive ask : Type -> Type :=
| ContextErr : ask (option error)
| NowIs : ask instant
| Deadline : ask (bool * bool)
| TimeoutLimit : ask (result N error)
| GitDir (ws : string) : ask bool
| Measure (dir : string) (group : nat) : ask (result Usage error)
| RemoveOwnedDir (root dir : string) : ask (result unit error)
| Fetch (cfg : Config) : ask (result unit error)
| RemoteRevision (cfg : Config) (branch : string) : ask (result (option string) error)
| IsAncestor (cfg : Config) (repository ancestor descendant : string) : ask (result bool error)
| PRAt (cfg : Config) (number : N) : ask (result PullRequest error)
| CloneAt (cfg : Config) (ws revision : string) : ask (result unit error)
| CloneReviewed (cfg : Config) (ws checkout revision : string) : ask (result unit error)
| WorkGit (cfg : Config) (ws : string) (args : list string) : ask (result string error)
| At (cfg : Config) (ws revision : string) : ask (result bool error)
| Snapshot (cfg : Config) (ws title : string) : ask (result string error)
| RefuseCommittedGitlinks (cfg : Config) (ws base revision : string) : ask (result unit error)
| ReadMaintenanceFootprint (cfg : Config) (ws base revision : string) : ask (MaintenanceFootprint * option error)
| DiffText (cfg : Config) (ws : string) : ask (list string -> Z -> result (string * bool) error)
| Publish (t : Task) : ask (result PullRequest error)
| RunVerification (checkout command : string) (seconds : N) (fresh : bool) : ask (result Output error * option SandboxRecord)
| ValidateRoutes (cfg : Config) (audit : bool) : ask (result unit error)
| StartSession (route : Route) (ws : string) (resume : option string) : ask (result string error)
| BeginTurn (role session : string) (route : Route) (ws prompt : string) (schema : Schema) : ask (result bool error)
| EndTurn (session : string) (checkpointed : bool) : ask (result string error)
| Release : ask (result unit error)
| TakeEvidence : ask (option SandboxRecord)
| CloseRunners : ask (result unit error).

Class Outside := {
  (** The answer to the [n]-th question, whether asking it panics, and what the
      rest of the service does before the worker goes on. *)
  answer : forall A, nat -> ask A -> A;
  crashes : nat -> option string;
  others : nat -> App -> App;
  (** [json.Unmarshal] of a review and of a maintenance review document. *)
  unmarshal_review : string -> result Review error;
  unmarshal_document : string -> result MaintenanceReviewDocument error;
  (** [json.Marshal] of findings and of a sandbox record. *)
  findings_json : list Finding -> result string error;
  evidence_json : SandboxRecord -> result string error;
  uuid_Parse : string -> result unit error;
  (** The environment, for the secrets in it. *)
  environ : list string;
  (** [sandbox.Infrastructure]. *)
  Infrastructure : error -> bool;
}.

(** What a worker did: saved a record, reserved a session, began a turn, ran a
    verification command, published a task. *)
Inductive deed :=
| Saved (t : Task)
| Reserved (role : string)
| Turned (role session : string)
| Ran (command : string)
| Published (t : Task).
Definition deed_of {A} (q : ask A) : list deed :=
  match q with
  | BeginTurn role session _ _ _ _ => [Turned role session]
  | RunVerification _ command _ _ => [Ran command]
  | Publish t => [Published t]
  | _ => []
  end.

Record Worker := mkWorker { wk_task : Task; wk_app : App; wk_asked : nat; wk_deeds : list deed }.
#[export] Instance eta_Worker : Eta Worker := fun r => mkWorker (wk_task r) (wk_app r) (wk_asked r) (wk_deeds r).
Notation W := (Op Worker).

(** [fmt.Errorf] around an error of the engine. *)
Definition cancelled_operation (err : error) : failure := Failed (Errorf "Operation cancelled: %w" [VWrap err]).
Definition blocked (reason : BlockedReason) : failure := Failed (Reason reason).
Definition opt_err {A} (r : result A error) : option failure := match r with Ok _ => None | Err e => Some (Failed e) end.

Section worker.
Context `{Unicode} `{World} `{Outside} `{Printable}.
Context (s : Store) (ctx : option N) (dataDir : string).

(** ** Questions and entries of the gate *)

Definition w_do (d : deed) : W unit := m_write (fun w => w <| wk_deeds := wk_deeds w ++ [d] |>).
Definition w_ask {A} (q : ask A) : W A := fun w =>
  let n := wk_asked w in
  let w' := w <| wk_asked := S n |> <| wk_deeds := wk_deeds w ++ deed_of q |> in
  match crashes n with Some msg => (Err (Panicked msg), w') | None => (Ok (answer A n q), w') end.
Definition w_call {A} (q : ask (result A error)) : W A := go! r <- w_ask q in m_lift (lift r).
(** The gate is taken: what the others did is seen. *)
Definition w_gate : W unit :=
  m_write (fun w => w <| wk_app := others (wk_asked w) (wk_app w) |> <| wk_asked := S (wk_asked w) |>).
Definition w_app {A} (m : M A) : W A :=
  fun w => let '(r, app) := m (wk_app w) in (r, w <| wk_app := app |>).
Definition w_locked {A} (m : M A) : W A := go! _ <- w_gate in w_app m.
Definition w_task : W Task := m_read wk_task.
Definition w_set (f : Task -> Task) : W unit := m_write (fun w => w <| wk_task := f (wk_task w) |>).
(** [defer d()]: [d] runs however [m] ends. *)
Definition w_defer {A} (m : W A) (d : W unit) : W A := fun w =>
  let '(r, w1) := m w in
  match d w1 with
  | (Err (Panicked msg), w2) => (Err (Panicked msg), w2)
  | (_, w2) => (r, w2)
  end.
(** [recover] of a worker's supervisor. *)
Definition w_recover {A} (panicked : string) (m : W A) : W (result A failure) := fun w =>
  match m w with
  | (Err (Panicked msg), w') => (Ok (Err (Failed (Errorf "%s: %v" [VStr panicked; VStr msg]))), w')
  | (r, w') => (Ok r, w')
  end.
Definition w_event (entity : string) (kind : EventKind) (message : string) : W unit := w_locked (Event s entity kind message).

(** [if err := ctx.Err(); err != nil]. *)
Definition w_cancelled : W unit :=
  go! err <- w_ask ContextErr in
  match err with Some err => m_fail (cancelled_operation err) | None => m_ret tt end.

(** ** Durable steps *)

(** [commitWorkerTaskLocked] of the worker's task, within the gate. *)
Definition commit_locked (next : Task) (change : TaskChange) : W unit :=
  go! committed <- w_app (commitWorkerTaskLocked ctx next change) in
  go! _ <- w_set (fun _ => committed) in
  w_do (Saved committed).
Definition w_commit (change : TaskChange) : W unit :=
  go! _ <- w_gate in
  go! t <- w_task in
  commit_locked t change.
Definition w_checkpoint : W unit := w_commit TaskCheckpoint.
Definition w_transition (status : Status) : W unit :=
  go! t <- w_task in
  go! next <- w_locked (transitionTask s ctx t status) in
  go! _ <- w_set (fun _ => next) in
  w_do (Saved next).

(** ** Admission of a session ([invocation.go]) *)

Definition ownedRoots : list string := ["tasks"; "cycles"; "baselines"; "system"].
Definition ownerDepth : nat := 2.
Definition slash : ascii := "/".

(** The storage of a checkout apart from the data directory, if there is one. *)
Context (checkoutStorage : string).
Definition applicationUsage (group : nat) : W Usage :=
  go! usage <- w_call (Measure dataDir group) in
  if bool_decide (checkoutStorage = "") then m_ret usage else
  go! checkout <- w_call (Measure checkoutStorage 0) in
  let room := u64_sub (two64 - 1) (Usage_Bytes usage) in
  m_ret (mkUsage (u64_add (Usage_Bytes usage) (N.min (Usage_Bytes checkout) room))
           (if bool_decide (Usage_Unmeasured checkout = []) then Usage_Unmeasured usage
            else Usage_Unmeasured usage ++ ["checkout"])).
Definition unmeasured (owner rel : string) : option failure :=
  let '(parent, _, owned) := Cut rel slash in
  if negb owned || negb (bool_decide (parent ∈ ownedRoots)) then
    Some (Failed (Errorf "Storage under %s in the data directory could not be measured; it is unreadable, nested too deeply, or too costly to traverse. Make it readable to the service or move it out of the data directory: %w"
      [VStr (redact_text rel); VWrap (Reason BlockedStorageLimit)]))
  else if bool_decide (rel = owner) then
    Some (Failed (Errorf "Workspace storage under %s could not be measured; it is unreadable, nested too deeply, or too costly to traverse. Resolve that retained work: %w"
      [VStr (redact_text rel); VWrap (Reason BlockedStorageLimit)]))
  else None.
Fixpoint first_failure (owner : string) (rels : list string) : option failure :=
  match rels with
  | [] => None
  | rel :: rels => match unmeasured owner rel with Some err => Some err | None => first_failure owner rels end
  end.
Definition measure (owner : string) : W N :=
  go! usage <- applicationUsage ownerDepth in
  match first_failure owner (Usage_Unmeasured usage) with
  | Some err => m_fail err
  | None => m_ret (Usage_Bytes usage)
  end.
Definition measureLocked (owner : string) : W N :=
  go! _ <- w_cancelled in
  measure owner.
Definition NewAdmission (id now cycle : string) (task : option string) (role : string) (route : Route) : Admission :=
  mkAdmission id now cycle task role route "".
(** [admit] for a task. *)
Definition admit_session (role : string) (route : Route) : W unit :=
  go! t <- w_task in
  go! size <- measureLocked (JoinPath ["tasks"; Task_ID t]) in
  go! _ <- w_cancelled in
  go! _ <- w_locked (
    go! id <- new_id in
    go! now <- time_now in
    m_store (ReserveSession s size (NewAdmission id (Timestamp now) (Task_CycleID t) (Some (Task_ID t)) role route))) in
  w_do (Reserved role).

(** ** Evidence of a sandbox ([verification.go]) *)

Definition keepSandboxEvidence (entity command : string) (record : option SandboxRecord) : W unit :=
  match record with
  | None => m_ret tt
  | Some record =>
    match evidence_json record with
    | Err _ => m_ret tt
    | Ok data => w_event entity EventSandboxEvidence (Quote command +:+ ": " +:+ data)
    end
  end.
End worker.
