(* ===== verification/Invocation.v ===== *)
(** * A turn of a coding agent ([internal/engine/invocation.go])

    A session is started or resumed, recorded before its turn, and completed
    only by the checkpoint after it.  A session the runner lost before its
    first turn is kept as failed and replaced once.  Invocations of a task are
    modelled; those of planning have no task. *)
From S2P Require Import Prelude GoStrings Paths WireJson Enums Types GoErrors Config GoTime Model Samples Lifecycle Store StoreMerges StoreTasks StoreBudget StoreCapacity Runtime Observations TaskWorkers Controls Strconv Redact Fragment Capture Evidence Worker.
Local Open Scope string_scope.
Local Open Scope list_scope.
Local Open Scope N_scope.

(** The durable thread slots [&task.ExecutionSession] and
    [&task.RepairSession]. *)
Inductive slot := ExecutionSlot | RepairSlot.
Definition slot_get (k : slot) (t : Task) : option string :=
  match k with ExecutionSlot => Task_ExecutionSession t | RepairSlot => Task_RepairSession t end.
Definition slot_set (k : slot) (id : option string) (t : Task) : Task :=
  match k with
  | ExecutionSlot => t <| Task_ExecutionSession := id |>
  | RepairSlot => t <| Task_RepairSession := id |>
  end.

(** A judge reads the session and the answer; it returns a summary, and what
    the code around it takes from its closure. *)
Record invocation (J : Type) := mkInvocation {
  inv_role : string;
  inv_route : Route;
  inv_workspace : string;
  inv_session : option slot;
  inv_prompt : string;
  inv_schema : Schema;
  inv_reserved : bool;
  inv_judge : option (string -> string -> W (string * J));
  inv_completed : option (W unit);
}.
Arguments inv_role {J}. Arguments inv_route {J}. Arguments inv_workspace {J}. Arguments inv_session {J}.
Arguments inv_prompt {J}. Arguments inv_schema {J}. Arguments inv_reserved {J}. Arguments inv_judge {J}.
Arguments inv_completed {J}.

(** [errors.Join(err, more)] with an [err] that is not nil. *)
Definition joined_with (err : failure) (more : option failure) : failure :=
  match more with Some more => Joined err more | None => err end.
Definition nil_pointer : failure := Panicked "invalid memory address or nil pointer dereference".
(** [unavailable] of [internal/runner/runner.go]. *)
Definition unavailable (err : error) : failure :=
  Failed (Errorf "%w: %w" [VWrap (Reason BlockedRunnerUnavailable); VWrap err]).

Definition session_at (thread role : string) (x : Session) : bool :=
  bool_decide (Session_ID x = thread) && bool_decide (Session_Role x = role).
(** [findSession]: the index of the record. *)
Definition find_index (t : Task) (thread role : string) : option nat :=
  fst <$> list_find (fun x => session_at thread role x = true) (Task_Sessions t).
Definition missing_session (t : Task) (thread role : string) : failure :=
  Failed (Errorf "Task %s is missing its %s session record (%s): %w"
    [VStr (Task_ID t); VStr role; VStr thread; VWrap (Reason BlockedWorkspaceInvalid)]).

Section invoke.
Context `{Unicode} `{World} `{Outside} `{Printable}.
Context (s : Store) (ctx : option N) (dataDir checkoutStorage : string).

Definition findSession (thread role : string) : W Session :=
  go! t <- w_task in
  match find_index t thread role ≫= fun i => Task_Sessions t !! i with
  | Some x => m_ret x
  | None => m_fail (missing_session t thread role)
  end.
(** A write through the pointer [findSession] returns. *)
Definition edit_session (thread role : string) (f : Session -> Session) : W unit :=
  w_set (fun t => match find_index t thread role with
                  | Some i => t <| Task_Sessions := alter f i (Task_Sessions t) |>
                  | None => t
                  end).

Definition merge_evidence (thread role : string) : W unit :=
  go! evidence <- w_ask TakeEvidence in
  edit_session thread role (fun x => x <| Session_Sandbox := MergeSandbox (Session_Sandbox x) evidence |>).
Definition runners_release : W (option failure) := go! r <- w_ask Release in m_ret (opt_err r).
Definition runners_start (route : Route) (ws : string) (resume : option string) : W string :=
  go! r <- w_ask (StartSession route ws resume) in
  match r with Ok session => m_ret session | Err err => m_fail (unavailable err) end.

(** ** The turn *)

(** [started]: the checkpoint of the accepted turn. *)
Definition turn_started (thread role : string) : W unit :=
  go! record <- findSession thread role in
  if bool_decide (Session_FirstTurnStarted record = Some true) then m_ret tt else
  go! _ <- edit_session thread role (fun x => x <| Session_FirstTurnStarted := Some true |>) in
  w_checkpoint ctx.
(** [Runners.Turn] once the client is there: the checkpoint of the accepted
    turn, whose error stops it, and the answer. *)
Definition runners_answer (role session : string) (accepted : bool) : W string :=
  go! checkpoint <- (if accepted then m_try (turn_started session role) else m_ret (Ok tt)) in
  go! answer <- w_ask (EndTurn session (is_ok checkpoint)) in
  match checkpoint, answer with
  | Err err, _ => m_fail (joined_with err (opt_err answer))
  | Ok _, Err err => m_fail (unavailable err)
  | Ok _, Ok answer => m_ret answer
  end.
Definition runners_turn {J} (inv : invocation J) (session : string) : W string :=
  go! begun <- w_ask (BeginTurn (inv_role inv) session (inv_route inv) (inv_workspace inv) (inv_prompt inv) (inv_schema inv)) in
  match begun with
  | Err err => m_fail (unavailable err)
  | Ok accepted => runners_answer (inv_role inv) session accepted
  end.
(** [turn] once the runner answered: it is released, then the answer is
    judged. *)
Definition judge_answer {J} (inv : invocation J) (session answer : string) : W (string * string * option J) :=
  match inv_judge inv with
  | None => m_ret (answer, answer, None)
  | Some judge =>
    go! _ <- findSession session (inv_role inv) in
    go! _ <- edit_session session (inv_role inv) (fun x => x <| Session_Summary := redact_text answer |>) in
    go! _ <- w_checkpoint ctx in
    go! judged <- judge session answer in
    m_ret (answer, fst judged, Some (snd judged))
  end.
Definition end_turn {J} (inv : invocation J) (session : string) (answer : result string failure)
    : W (string * string * option J) :=
  go! released <- runners_release in
  match answer, JoinErrors (m_is_err answer) released with
  | Ok answer, None => judge_answer inv session answer
  | _, Some err => m_fail err
  | Err err, None => m_fail err
  end.
Definition turn {J} (inv : invocation J) (session : string) : W (string * string * option J) :=
  go! answer <- m_try (runners_turn inv session) in
  end_turn inv session answer.

(** ** The session *)

(** The start of a session that must be new, after the failed one was
    replaced. *)
Definition replace_session {J} (inv : invocation J) : W string :=
  go! session <- m_try (runners_start (inv_route inv) (inv_workspace inv) None) in
  match session with
  | Ok session => m_ret session
  | Err err =>
    go! cleanup <- runners_release in
    go! evidence <- w_ask TakeEvidence in
    go! t <- w_task in
    go! _ <- keepSandboxEvidence s (Task_ID t) (inv_role inv +:+ " session start") evidence in
    m_fail (joined_with err cleanup)
  end.
(** A missing session that may be replaced: one of Codex whose first turn never
    started. *)
Definition replaceable {J} (inv : invocation J) (err : failure) (record : Session) : bool :=
  fails_with "Runner session does not exist" err && bool_decide (Route_Backend (inv_route inv) = BackendCodex)
  && bool_decide (Session_FirstTurnStarted record = Some false)
  && negb (bool_decide (Session_Status record = SessionCompleted)) && isSome (inv_session inv).
Definition never_started (err : failure) (x : Session) : Session :=
  MarkFailed x (redact_text (TrimSpace (Session_Summary x +:+ str [line_feed]
    +:+ "Never-started session is missing; a fresh session is required: " +:+ failure_text err))).
Definition clear_slot {J} (inv : invocation J) : W unit :=
  match inv_session inv with Some k => w_set (slot_set k None) | None => m_ret tt end.
(** [startInvocation] after a resumed session failed to start. *)
Definition resume_failed {J} (inv : invocation J) (identity : string) (err : failure) (released : option failure)
    : W (string * bool) :=
  go! t <- w_task in
  go! record <- m_try (findSession identity (inv_role inv)) in
  match record with
  | Err missing =>
    go! evidence <- w_ask TakeEvidence in
    go! _ <- keepSandboxEvidence s (Task_ID t) (inv_role inv +:+ " session start") evidence in
    m_fail (Joined (joined_with err released) missing)
  | Ok record =>
    go! _ <- merge_evidence identity (inv_role inv) in
    go! refused <- (if negb (replaceable inv err record) || isSome released then m_ret true
                    else go! e <- w_ask ContextErr in m_ret (isSome e)) in
    if refused then m_fail (joined_with err released) else
    go! _ <- edit_session identity (inv_role inv) (never_started err) in
    go! _ <- clear_slot inv in
    go! saved <- m_try (w_checkpoint ctx) in
    match saved with
    | Err saveErr => m_fail (Joined err saveErr)
    | Ok _ =>
      go! _ <- admit_session s dataDir checkoutStorage (inv_role inv) (inv_route inv) in
      go! e <- w_ask ContextErr in
      match e with
      | Some e => m_fail (Failed e)
      | None => go! session <- replace_session inv in m_ret (session, false)
      end
    end
  end.
Definition startInvocation {J} (inv : invocation J) (resume : option string) : W (string * bool) :=
  go! session <- m_try (runners_start (inv_route inv) (inv_workspace inv) resume) in
  match session with
  | Ok session => m_ret (session, isSome resume)
  | Err err =>
    go! released <- runners_release in
    match resume with
    | None =>
      go! evidence <- w_ask TakeEvidence in
      go! t <- w_task in
      go! _ <- keepSandboxEvidence s (Task_ID t) (inv_role inv +:+ " session start") evidence in
      m_fail (joined_with err released)
    | Some identity => resume_failed inv identity err released
    end
  end.

(** ** The invocation *)

(** The session to resume. *)
Definition to_resume {J} (inv : invocation J) : W (option string) :=
  go! t <- w_task in
  match inv_session inv ≫= fun k => slot_get k t with
  | None => m_ret None
  | Some identity =>
    if inv_reserved inv
    then m_fail (Failed (Errorf "A resumed %s turn cannot use a reserved admission" [VStr (inv_role inv)])) else
    go! _ <- findSession identity (inv_role inv) in
    m_ret (Some identity)
  end.
(** The record of the session, before its turn. *)
Definition record_session {J} (inv : invocation J) (session : string) (resumed : bool) : W unit :=
  if resumed then
    go! _ <- findSession session (inv_role inv) in
    edit_session session (inv_role inv) (fun x => (MarkRunning x) <| Session_FirstTurnStarted := Some true |>)
  else
    go! now <- w_ask NowIs in
    let record := (NewSession (Timestamp now) session (inv_role inv) (inv_route inv))
                  <| Session_FirstTurnStarted := Some false |> in
    go! _ <- w_set (fun t => t <| Task_Sessions := Task_Sessions t ++ [record] |>) in
    match inv_session inv with Some k => w_set (slot_set k (Some session)) | None => m_ret tt end.
Definition take_evidence {J} (inv : invocation J) (session : string) : W unit :=
  go! t <- w_task in
  if isSome (find_index t session (inv_role inv)) then merge_evidence session (inv_role inv) else m_ret tt.
(** [invoke] after the turn, and once the session is there. *)
Definition settle_turn {J} (inv : invocation J) (session : string) (turned : result (string * string * option J) failure)
    : W (string * option J) :=
  go! _ <- take_evidence inv session in
  match turned with
  | Err err => m_fail err
  | Ok (answer, summary, judged) =>
    go! _ <- findSession session (inv_role inv) in
    go! _ <- match inv_completed inv with Some completed => completed | None => m_ret tt end in
    go! _ <- edit_session session (inv_role inv) (fun x => MarkCompleted x (redact_text summary)) in
    go! _ <- w_checkpoint ctx in
    m_ret (answer, judged)
  end.
Definition converse {J} (inv : invocation J) (session : string) (resumed : bool) : W (string * option J) :=
  go! _ <- record_session inv session resumed in
  go! _ <- w_checkpoint ctx in
  go! turned <- m_try (turn inv session) in
  settle_turn inv session turned.
Definition invoke {J} (inv : invocation J) : W (string * option J) :=
  go! _ <- w_cancelled in
  go! resume <- to_resume inv in
  go! _ <- (if inv_reserved inv then m_ret tt
            else admit_session s dataDir checkoutStorage (inv_role inv) (inv_route inv)) in
  go! _ <- w_cancelled in
  go! started <- startInvocation inv resume in
  converse inv (fst started) (snd started).
End invoke.
