(* ===== verification/Execution.v ===== *)
(** * The execution of a task
    ([internal/engine/execution.go], [review.go], [verification.go])

    A worker takes an admitted task through its turns: the executor changes the
    work tree, a fresh reviewer judges each committed revision, a clean revision
    is verified in a pristine checkout, and either it is published or one more
    repair is paid for.  The supervisor joins the worker and settles what its
    failure leaves. *)
From S2P Require Import Prelude GoStrings Paths WireJson Enums Types GoErrors Config GoTime Model Samples Lifecycle Store StoreMerges StoreTasks StoreBudget StoreCapacity Runtime Observations TaskWorkers Controls Strconv ChangeSet Prompts Redact Fragment Capture Evidence Worker Invocation.
Local Open Scope string_scope.
Local Open Scope list_scope.
Local Open Scope N_scope.

Definition ErrCancelled : error := New "Operation cancelled".

Section execution.
Context `{Unicode} `{World} `{Outside} `{Printable}.
Context (s : Store) (live_config : Db -> Config) (Fingerprint : Config -> result string error).
Context (ctx : option N) (dataDir checkoutStorage : string).

(** ** Checks of the repository ([execution.go]) *)

Definition ensureWorkspaceAt (cfg : Config) (ws revision : string) : W unit :=
  go! at_ <- w_call (At cfg ws revision) in
  if at_ then m_ret tt else m_fail (blocked BlockedWorkspaceInvalid).
Definition revisionHasChanges (cfg : Config) (ws source revision : string) : W bool :=
  go! summary <- w_call (WorkGit cfg ws
    ["diff"; "--shortstat"; "--no-ext-diff"; "--no-textconv"; "--ignore-submodules=none"; source; revision]) in
  m_ret (negb (bool_decide (summary = ""))).
Definition requireDefaultRevision (cfg : Config) (want : string) : W unit :=
  go! def <- w_call (RemoteRevision cfg (Config_DefaultBranch cfg)) in
  if bool_decide (def = Some want) then m_ret tt else m_fail (blocked BlockedStaleBase).
Definition publishedDependency (id : string) : W Task :=
  go! dependency <- w_locked (m_read (fun a => db_tasks (app_db a) !! id)) in
  match dependency with
  | None => m_fail (blocked BlockedDependencyBlocked)
  | Some dependency =>
    if bool_decide (Task_Status dependency = StatusPublished) then m_ret dependency
    else m_fail (blocked BlockedDependencyBlocked)
  end.
Definition taskWorkspace (id : string) : string := JoinPath [dataDir; "tasks"; id; "workspace"].
Definition gitDir (ws : string) : W unit :=
  go! found <- w_ask (GitDir ws) in
  if found then m_ret tt else m_fail (blocked BlockedWorkspaceInvalid).
Definition checkWorkspace : W unit :=
  go! t <- w_task in
  let ws := taskWorkspace (Task_ID t) in
  if negb (SamePath (Task_Workspace t) ws) || bool_decide (Task_ComparisonBase t = "")
  then m_fail (blocked BlockedWorkspaceInvalid) else
  go! _ <- gitDir ws in
  ensureWorkspaceAt (ExecutionConfig t) ws (Task_SourceRevision t).
(** [workspace.Initialized]. *)
Definition workspaceInitialized (t : Task) : W bool :=
  if isNone (Task_ExecutionSession t) || bool_decide (Task_ComparisonBase t = "") then m_ret false
  else w_ask (GitDir (Task_Workspace t)).
Definition checkSandboxTimeouts (cfg : Config) : W unit :=
  go! limit <- w_call TimeoutLimit in
  m_lift (lift (validateSandboxTimeouts cfg limit)).

(** The dependencies, in order: whether one of them delivered [source]. *)
Fixpoint authorizing_dependencies (ids : list string) (source : option string) (authorized : bool) : W bool :=
  match ids with
  | [] => m_ret authorized
  | id :: ids =>
    go! dependency <- publishedDependency id in
    go! t <- w_task in
    let delivered := isNone (Task_ExecutionSession t) && isSome source && isSome (Task_OutputCommit dependency)
                     && bool_decide (source = Task_OutputCommit dependency) in
    authorizing_dependencies ids source (authorized || delivered)
  end.
Definition retryPreflight : W unit :=
  go! t <- w_task in
  let c := ExecutionConfig t in
  go! _ <- checkSandboxTimeouts c in
  if Discarded t || Archived t then m_fail (blocked BlockedWorkspaceInvalid) else
  go! _ <- requireDefaultRevision c (Task_DefaultRevision t) in
  go! source <- w_call (RemoteRevision c (Proposal_Target (Task_Proposal t))) in
  go! authorized <- authorizing_dependencies (Proposal_Dependencies (Task_Proposal t)) source
                      (bool_decide (source = Some (Task_SourceRevision t))) in
  if negb authorized then m_fail (blocked BlockedStaleBase) else
  go! initialized <- (if isSome (Task_ExecutionSession t) then workspaceInitialized t else m_ret true) in
  if negb initialized then m_fail (blocked BlockedWorkspaceInvalid) else
  if isNone (Task_ExecutionSession t) && negb (bool_decide (Task_Workspace t = "")) then checkWorkspace
  else m_ret tt.

(** ** Initialization *)

(** The outputs of the dependencies, each an ancestor of the branch. *)
Fixpoint dependency_outputs (cfg : Config) (current : string) (ids : list string) : W (list string) :=
  match ids with
  | [] => m_ret []
  | id :: ids =>
    go! t <- w_task in
    go! dependency <- publishedDependency id in
    if negb (bool_decide (Task_Branch dependency = Proposal_Target (Task_Proposal t)))
    then m_fail (blocked BlockedDependencyBlocked) else
    match Task_OutputCommit dependency with
    | None => m_fail (Failed (New "Dependency output revision is missing"))
    | Some output =>
      go! ancestor <- w_call (IsAncestor cfg (Config_Repository cfg) output current) in
      if negb ancestor then m_fail (blocked BlockedDependencyBlocked) else
      go! outputs <- dependency_outputs cfg current ids in
      m_ret (output :: outputs)
    end
  end.
(** The first work tree of the task. *)
Definition clone_workspace (cfg : Config) : W unit :=
  go! t <- w_task in
  let ws := taskWorkspace (Task_ID t) in
  go! _ <- w_set (fun t => t <| Task_Workspace := ws |>) in
  go! _ <- w_commit ctx TaskPrepare in
  go! t <- w_task in
  go! _ <- w_call (CloneAt cfg ws (Task_SourceRevision t)) in
  go! base <- (if isSome (Task_PRNumber t)
               then w_call (WorkGit cfg ws ["merge-base"; Task_DefaultRevision t; Task_SourceRevision t])
               else m_ret (Task_SourceRevision t)) in
  go! _ <- w_set (fun t => t <| Task_ComparisonBase := base |>) in
  w_commit ctx TaskPrepare.
(** The checks of [initializeTask], up to the admission of its session. *)
Definition prepare_execution (cfg : Config) : W unit :=
  go! t <- w_task in
  go! _ <- w_call (Fetch cfg) in
  go! remote <- w_call (RemoteRevision cfg (Proposal_Target (Task_Proposal t))) in
  match remote with
  | None => m_fail (blocked BlockedStaleBase)
  | Some current =>
    go! outputs <- dependency_outputs cfg current (Proposal_Dependencies (Task_Proposal t)) in
    go! _ <-
      (if bool_decide (current = Task_SourceRevision t) then m_ret tt else
       if negb (bool_decide (current ∈ outputs)) then m_fail (blocked BlockedStaleBase) else
       go! _ <- w_set (fun t => t <| Task_SourceRevision := current |>) in
       w_commit ctx TaskPrepare) in
    go! t <- w_task in
    go! _ <- requireDefaultRevision cfg (Task_DefaultRevision t) in
    go! _ <-
      match Task_PRNumber t with
      | None => m_ret tt
      | Some number =>
        go! p <- w_call (PRAt cfg number) in
        if negb (OwnedOpen p) || negb (bool_decide (PullRequest_Base p = Config_DefaultBranch cfg))
        then m_fail (blocked BlockedStaleBase) else m_ret tt
      end in
    match uuid_Parse (Task_ID t) with
    | Ok _ => m_ret tt
    | Err err => m_fail (Failed (Errorf "Invalid task workspace identity: %w" [VWrap err]))
    end
  end.
Definition initializeTask : W unit :=
  go! t <- w_task in
  let cfg := ExecutionConfig t in
  go! _ <- prepare_execution cfg in
  go! t <- w_task in
  go! _ <- admit_session s dataDir checkoutStorage "executor" (Task_Route t) in
  go! t <- w_task in
  if bool_decide (Task_Workspace t = "") then clone_workspace cfg else checkWorkspace.

(** ** The executor and the repairs *)

Definition completed_executor (x : Session) : bool :=
  bool_decide (Session_Role x = "executor") && bool_decide (Session_Status x = SessionCompleted).
Definition runExecutor (admissionReserved : bool) : W unit :=
  go! t <- w_task in
  if existsb completed_executor (Task_Sessions t) then m_ret tt else
  go! _ <- invoke (J := unit) s ctx dataDir checkoutStorage {|
    inv_role := "executor"; inv_route := Task_Route t; inv_workspace := Task_Workspace t;
    inv_session := Some ExecutionSlot; inv_prompt := executorPrompt t (ExecutionConfig t);
    inv_schema := NoSchema; inv_reserved := admissionReserved; inv_judge := None; inv_completed := None |} in
  m_ret tt.

(** The accounting of a completed repair. *)
Definition repair_completed : W unit :=
  go! t <- w_task in
  match Task_RepairRounds t, last (Task_Reviews t) with
  | Some rounds, Some round =>
    let progress := default (mkRepairProgress "" 0 false) (Task_RepairProgress t) in
    w_set (fun t => t
      <| Task_RepairRounds := Some (u64_add rounds 1) |>
      <| Task_RepairProgress := Some (mkRepairProgress (ReviewRound_Revision round)
           (RepairProgress_NoProgressRounds progress) true) |>)
  | None, _ => m_fail nil_pointer
  | _, None => m_fail (Panicked "index out of range [-1]")
  end.
Definition repair (review : Review) (verificationErrors : list string) : W unit :=
  go! t <- w_task in
  let cfg := ExecutionConfig t in
  go! _ <- w_transition s ctx StatusRepairing in
  match findings_json (Review_Findings review) with
  | Err err => m_fail (Failed err)
  | Ok findings =>
    go! t <- w_task in
    go! _ <- invoke (J := unit) s ctx dataDir checkoutStorage {|
      inv_role := "repair"; inv_route := Config_RepairRoute cfg; inv_workspace := Task_Workspace t;
      inv_session := Some RepairSlot; inv_prompt := repairPrompt t cfg findings verificationErrors;
      inv_schema := NoSchema; inv_reserved := false; inv_judge := None; inv_completed := Some repair_completed |} in
    m_ret tt
  end.

(** ** The review ([review.go]) *)

Definition unparseable (what : string) (err : error) : failure :=
  Failed (Errorf ("%w: Unparseable " +:+ what +:+ " is not clean: %s") [VWrap (Reason BlockedInvalidReview); VStr (redact_text (Error err))]).
(** The answer of a reviewer: the review, and the assessment of a maintenance
    review. *)
Definition read_review (maintenance : bool) (answer : string) : result (Review * option MaintenanceAssessment) failure :=
  if maintenance then
    match unmarshal_document answer with
    | Err err => Err (unparseable "maintenance review" err)
    | Ok document =>
      let assessment := MaintenanceReviewDocument_Maintenance document in
      if bool_decide (TrimSpace (MaintenanceAssessment_Reason assessment) = "")
      then Err (Failed (Errorf "%w: Maintenance assessment needs a reason" [VWrap (Reason BlockedInvalidReview)]))
      else Ok (MaintenanceReviewDocument_Review document, Some assessment)
    end
  else
    match unmarshal_review answer with
    | Err err => Err (unparseable "review" err)
    | Ok review => Ok (review, None)
    end.
Definition judge_review (cfg : Config) (ws revision : string) (trusted : changeSet) (thread answer : string) : W (string * Review) :=
  go! parsed <- m_lift (read_review (maintenance_mode cfg) answer) in
  let '(review, assessment) := parsed in
  if negb (Review_Valid review) then m_fail (blocked BlockedInvalidReview) else
  go! _ <- ensureWorkspaceAt cfg ws revision in
  go! now <- w_ask NowIs in
  go! _ <- w_set (fun t => t <| Task_Reviews := Task_Reviews t ++
      [mkReviewRound thread revision (Task_ComparisonBase t) review (Timestamp now) assessment
         (bool_decide (changeSet_omitted trusted = []))] |>) in
  m_ret (Review_Summary review, review).
Definition reviewRevision (revision : string) : W Review :=
  go! t <- w_task in
  let cfg := ExecutionConfig t in
  let ws := Task_Workspace t in
  go! _ <- w_transition s ctx StatusReviewing in
  match Config_Roles cfg !! "code_reviewer" with
  | None => m_fail (Failed (New "code_reviewer route is missing"))
  | Some route =>
    go! t <- w_task in
    go! diff <- w_ask (DiffText cfg ws) in
    go! trusted <- m_lift (lift (trustedChangeSet diff (Task_ComparisonBase t) revision)) in
    go! reviewed <- invoke s ctx dataDir checkoutStorage {|
      inv_role := "reviewer"; inv_route := route; inv_workspace := ws; inv_session := None;
      inv_prompt := reviewPrompt t revision trusted;
      inv_schema := (if maintenance_mode cfg then MaintenanceReviewSchema else ReviewSchema);
      inv_reserved := false; inv_judge := Some (judge_review cfg ws revision trusted); inv_completed := None |} in
    m_ret (default (mkReview false "" []) (snd reviewed))
  end.

(** ** The verification ([verification.go]) *)

Definition verificationDir : string := "verify".
(** [verificationCheckout]: the checkout; [discard_checkout] removes it. *)
Definition verificationCheckout (cfg : Config) (ws revision : string) : W string :=
  let taskRoot := Dir ws in
  let root := JoinPath [taskRoot; verificationDir] in
  go! removed <- w_ask (RemoveOwnedDir taskRoot root) in
  match removed with
  | Err err => m_fail (Failed (Errorf "Removing a previous verification checkout: %w" [VWrap err]))
  | Ok _ =>
    let checkout := JoinPath [root; "workspace"] in
    go! cloned <- w_ask (CloneReviewed cfg ws checkout revision) in
    match cloned with
    | Ok _ => m_ret checkout
    | Err err =>
      go! _ <- w_ask (RemoveOwnedDir taskRoot root) in
      m_fail (Failed (Errorf "Preparing the verification checkout: %w" [VWrap err]))
    end
  end.
Definition discard_checkout (ws : string) : W unit :=
  go! removed <- w_ask (RemoveOwnedDir (Dir ws) (JoinPath [Dir ws; verificationDir])) in
  match removed with
  | Ok _ => m_ret tt
  | Err err =>
    go! t <- w_task in
    w_event s (Task_ID t) EventCleanupError ("verification checkout: " +:+ redact_text (Error err))
  end.
Definition sandboxFailure (command : string) (err : error) : error :=
  Errorf "The sandbox could not run verification command %s: %w" [VStr (Quote command); VWrap err].
(** [&sandboxUnavailable{err}]: its text is that of [err]. *)
Definition sandboxUnavailable (err : error) : failure :=
  Failed (Errorf "%.0w%w" [VWrap (Reason BlockedRunnerUnavailable); VWrap err]).
Definition runCheckCommand (cfg : Config) (ws command revision : string) (fresh : bool) : W checkOutcome :=
  go! captured <- w_ask (RunVerification ws command (Config_CommandTimeoutSeconds cfg) fresh) in
  go! err <- w_ask ContextErr in
  go! intact <- (if isSome err then m_ret (Ok false) else w_ask (At cfg ws revision)) in
  m_ret match intact with
        | Ok intact => mkOutcome (fst captured) intact None (snd captured)
        | Err err => mkOutcome (fst captured) false (Some err) (snd captured)
        end.
Definition succeeded (o : checkOutcome) : bool :=
  isNone (outcome_intactErr o) && outcome_intact o && negb (failed o).
Definition capture_error (o : checkOutcome) : error :=
  match outcome_captured o with Err err => err | Ok _ => New "" end.
(** A command of [verifyRevision]: the failures it adds. *)
Definition verify_command (cfg : Config) (checkout revision command : string) (fresh : bool) : W (list string) :=
  go! outcome <- runCheckCommand cfg checkout command revision fresh in
  go! err <- w_ask ContextErr in
  if isSome err then m_fail (Failed ErrCancelled) else
  if sandboxFailed Infrastructure outcome then
    go! t <- w_task in
    go! _ <- keepSandboxEvidence s (Task_ID t) command (outcome_sandbox outcome) in
    m_fail (sandboxUnavailable (sandboxFailure command (capture_error outcome)))
  else
    let output := str (verification_output environ outcome) in
    go! now <- w_ask NowIs in
    go! _ <- w_set (fun t => t <| Task_Verification := Task_Verification t ++
        [mkVerification command (succeeded outcome) output revision (Timestamp now) (outcome_sandbox outcome)] |>) in
    go! _ <- w_checkpoint ctx in
    match outcome_intactErr outcome with
    | Some err => m_fail (Failed (Errorf "Workspace state check failed during verification: %w" [VWrap err]))
    | None =>
      if negb (outcome_intact outcome) then m_fail (blocked BlockedWorkspaceInvalid) else
      m_ret (if failed outcome then [command +:+ ": " +:+ output] else [])
    end.
Fixpoint verify_commands (cfg : Config) (checkout revision : string) (fresh : bool) (commands : list string)
    : W (list string) :=
  match commands with
  | [] => m_ret []
  | command :: commands =>
    go! errors <- verify_command cfg checkout revision command fresh in
    go! more <- verify_commands cfg checkout revision false commands in
    m_ret (errors ++ more)
  end.
Definition verifyRevision (revision : string) : W (list string) :=
  go! t <- w_task in
  let cfg := ExecutionConfig t in
  let ws := Task_Workspace t in
  go! _ <- w_transition s ctx StatusVerifying in
  go! _ <- ensureWorkspaceAt cfg ws revision in
  go! checkout <- verificationCheckout cfg ws revision in
  w_defer (verify_commands cfg checkout revision true (Config_VerificationCommands cfg)) (discard_checkout ws).

(** ** The publication *)

Definition incompatible_mode (t : Task) : failure :=
  Failed (Errorf "Task %s was planned under an incompatible delivery mode or category: %w"
    [VStr (Task_ID t); VWrap (Reason BlockedInvalidPlan)]).
Definition unreviewed : failure :=
  Failed (Errorf "Publication requires a clean maintenance-qualified review at the output revision: %w"
    [VWrap (Reason BlockedInvalidReview)]).
(** The footprint to record, and why its measurement is incomplete. *)
Definition frozen_footprint (revision : string) : W (option MaintenanceFootprint * option error) :=
  go! t <- w_task in
  let cfg := ExecutionConfig t in
  if negb (maintenance_mode cfg) then m_ret (None, None) else
  match Task_MaintenanceFootprint t with
  | Some footprint =>
    if bool_decide (MaintenanceFootprint_Revision footprint = revision)
       && bool_decide (MaintenanceFootprint_ComparisonBase footprint = Task_ComparisonBase t)
    then m_ret (Some footprint, None)
    else
      go! frozen <- w_ask (ReadMaintenanceFootprint cfg (Task_Workspace t) (Task_ComparisonBase t) revision) in
      m_ret (Some (fst frozen), snd frozen)
  | None =>
    go! frozen <- w_ask (ReadMaintenanceFootprint cfg (Task_Workspace t) (Task_ComparisonBase t) revision) in
    m_ret (Some (fst frozen), snd frozen)
  end.
Definition footprint_event (t : Task) (err : option error) : W unit :=
  match err with
  | Some err => w_app (Event s (Task_ID t) EventMaintenance
      ("Footprint measurement is incomplete; the delivery can publish but stays manual: " +:+ redact_text (Error err)))
  | None => m_ret tt
  end.
(** The checkpoint that authorizes the publication, in one hold of the gate. *)
Definition authorize_publication (revision : string) (footprint : option MaintenanceFootprint) (footprintErr : option error) : W unit :=
  go! _ <- w_gate in
  go! err <- w_ask ContextErr in
  match err with
  | Some err => m_fail (Failed err)
  | None =>
    go! t <- w_task in
    go! live <- w_app (m_read (fun a => live_config (app_db a))) in
    if negb (bool_decide (Config_DeliveryMode (Task_Config t) = Config_DeliveryMode live))
       || negb (bool_decide (Proposal_Category (Task_Proposal t) ∈ EffectiveCategories (Task_Config t)))
    then m_fail (incompatible_mode t) else
    go! _ <- (if maintenance_mode (Task_Config t) then footprint_event t footprintErr else m_ret tt) in
    let next := if maintenance_mode (Task_Config t) then t <| Task_MaintenanceFootprint := footprint |> else t in
    if negb (ReviewAuthorizes t revision) then m_fail unreviewed else
    let next := next <| Task_OutputCommit := Some revision |> <| Task_Status := StatusPublishing |> in
    go! _ <- commit_locked ctx next TaskAuthorizePublication in
    go! t <- w_task in
    w_app (status_event s t)
  end.
Definition publishReviewed (revision : string) : W unit :=
  go! footprint <- frozen_footprint revision in
  go! _ <- authorize_publication revision (fst footprint) (snd footprint) in
  go! t <- w_task in
  go! p <- w_call (Publish t) in
  go! _ <- w_gate in
  go! published <- w_app (publishedWorkerLocked s live_config Fingerprint ctx t p) in
  go! _ <- w_set (fun _ => published) in
  w_do (Saved published).

(** ** The loop *)

Definition exhausted (cfg : Config) : failure :=
  Failed (Errorf "Repair budget exhausted (max_repair_rounds %d): %w"
    [VNum (Config_MaxRepairRounds cfg); VWrap (Reason BlockedVerificationFailed)]).
Definition no_progress (cfg : Config) : failure :=
  Failed (Errorf "Repairs made no progress on the reviewed revision (max_no_progress_rounds %d): %w"
    [VNum (Config_MaxNoProgressRounds cfg); VWrap (Reason BlockedVerificationFailed)]).
(** The accounting of the last repair, before another may start. *)
Definition account_progress (cfg : Config) (revision : string) : W unit :=
  go! t <- w_task in
  match Task_RepairProgress t with
  | None => m_ret tt
  | Some progress =>
    let rounds :=
      if negb (bool_decide (RepairProgress_Revision progress = revision)) then 0
      else if RepairProgress_AwaitingReview progress then u64_add (RepairProgress_NoProgressRounds progress) 1
      else RepairProgress_NoProgressRounds progress in
    go! _ <- w_set (fun t => t <| Task_RepairProgress := Some (mkRepairProgress revision rounds false) |>) in
    go! _ <- w_checkpoint ctx in
    if Config_MaxNoProgressRounds cfg <=? rounds then m_fail (no_progress cfg) else m_ret tt
  end.
(** [task.Reviews[len(task.Reviews)-1]]. *)
Definition last_round (t : Task) : W ReviewRound :=
  match last (Task_Reviews t) with
  | Some round => m_ret round
  | None => m_fail (Panicked "index out of range [-1]")
  end.
Definition disqualified (round : ReviewRound) : option MaintenanceAssessment :=
  match ReviewRound_Maintenance round with
  | Some assessment => if MaintenanceAssessment_Qualifies assessment then None else Some assessment
  | None => None
  end.
(** The revision of a round, committed and not empty. *)
Definition snapshot_revision (cfg : Config) : W string :=
  go! t <- w_task in
  let ws := Task_Workspace t in
  go! revision <- w_call (Snapshot cfg ws (Proposal_Title (Task_Proposal t))) in
  go! _ <- w_call (RefuseCommittedGitlinks cfg ws (Task_ComparisonBase t) revision) in
  if bool_decide (revision = Task_SourceRevision t) then
    m_fail (Failed (Errorf "No changes were committed on top of the source revision: %w" [VWrap (Reason BlockedVerificationFailed)]))
  else
    go! changed <- revisionHasChanges cfg ws (Task_SourceRevision t) revision in
    if negb changed then
      m_fail (Failed (Errorf "The change set is empty against the source revision: %w" [VWrap (Reason BlockedVerificationFailed)]))
    else m_ret revision.
(** The repair of a round that did not qualify. *)
Definition repair_round (cfg : Config) (revision : string) (review : Review) (verificationErrors : list string) : W unit :=
  go! t <- w_task in
  match Task_RepairRounds t with
  | None => m_fail nil_pointer
  | Some rounds =>
    if Config_MaxRepairRounds cfg <=? rounds then m_fail (exhausted cfg) else
    go! _ <- account_progress cfg revision in
    go! t <- w_task in
    go! round <- last_round t in
    let review :=
      match disqualified round with
      | Some assessment =>
        if bool_decide (Review_Findings review = [])
        then review <| Review_Findings := [mkFinding "Maintenance scope assessment" "" (MaintenanceAssessment_Reason assessment) "P1"] |>
        else review
      | None => review
      end in
    repair review verificationErrors
  end.
(** The judgement of a revision: its review, and the verification failures when
    it qualifies. *)
Definition judge_round (cfg : Config) : W (string * Review * option (list string)) :=
  go! revision <- snapshot_revision cfg in
  go! review <- reviewRevision revision in
  go! t <- w_task in
  go! qualified <- (if Review_Clean review then go! round <- last_round t in m_ret (isNone (disqualified round))
                    else m_ret false) in
  if qualified then
    go! verificationErrors <- verifyRevision revision in
    m_ret (revision, review, Some verificationErrors)
  else m_ret (revision, review, None).
(** A round of the loop: whether the task was published. *)
Definition execute_round (cfg : Config) : W bool :=
  go! judged <- judge_round cfg in
  match judged with
  | (revision, _, Some []) =>
    go! t <- w_task in
    go! _ <- requireDefaultRevision cfg (Task_DefaultRevision t) in
    go! _ <- publishReviewed revision in
    m_ret true
  | (revision, review, verificationErrors) =>
    go! _ <- repair_round cfg revision review (default [] verificationErrors) in
    m_ret false
  end.
Definition out_of_fuel : failure := Panicked "the execution loop ran out of fuel".
Fixpoint execute_loop (fuel : nat) (cfg : Config) : W unit :=
  match fuel with
  | O => m_fail out_of_fuel
  | S fuel => go! published <- execute_round cfg in if published then m_ret tt else execute_loop fuel cfg
  end.
(** [execute] once its first session is reserved, if it is the first execution. *)
Definition execute_reserved (fuel : nat) (cfg : Config) (admissionReserved : bool) : W unit :=
  go! t <- w_task in
  go! _ <- gitDir (Task_Workspace t) in
  if bool_decide (Task_ComparisonBase t = "") then
    m_fail (Failed (Errorf "Comparison base was not persisted; cancel this task and rediscover: %w" [VWrap (Reason BlockedWorkspaceInvalid)]))
  else
    go! _ <- runExecutor admissionReserved in
    execute_loop fuel cfg.
(** [execute] from the runners on. *)
Definition execute_with_runners (fuel : nat) (cfg : Config) : W unit :=
  go! routes <- w_ask (ValidateRoutes cfg false) in
  match routes with
  | Err err => m_fail (unavailable err)
  | Ok _ =>
    go! t <- w_task in
    let admissionReserved := isNone (Task_ExecutionSession t) in
    go! _ <- (if admissionReserved then initializeTask else m_ret tt) in
    execute_reserved fuel cfg admissionReserved
  end.
Definition begin_execution (t : Task) : Task :=
  let t := t <| Task_Error := None |> <| Task_BlockedReason := None |> in
  if isNone (Task_RepairRounds t) then t <| Task_RepairRounds := Some (AttemptReviews t) |> else t.
Definition execute (fuel : nat) : W unit :=
  go! t <- w_task in
  let cfg := ExecutionConfig t in
  go! _ <- w_set begin_execution in
  go! _ <- w_checkpoint ctx in
  go! t <- w_task in
  match Task_OutputCommit t with
  | Some commit => publishReviewed commit
  | None =>
    go! _ <- retryPreflight in
    w_defer (execute_with_runners fuel cfg) (go! _ <- w_ask CloseRunners in m_ret tt)
  end.

(** ** The supervisor *)

(** [runJoined]: the deadline's outcome, and the error of [execute]. *)
Definition runJoined (fuel : nat) : W (bool * bool * option failure) :=
  go! result <- w_recover "Task worker panicked" (execute fuel) in
  go! deadline <- w_ask Deadline in
  m_ret (deadline, m_is_err result).
(** A task admitted when the service already stops is deferred; [true] when the
    worker may go on. *)
Definition defer_admitted : W bool :=
  go! _ <- w_gate in
  go! t <- w_task in
  go! current <- w_app (m_read (fun a => db_tasks (app_db a) !! Task_ID t)) in
  match current with
  | None => m_ret false
  | Some current =>
    if negb (Active (Task_Status current)) then m_ret false else
    go! cancelled <- w_app (m_read (fun a => CancelMarked (Task_ID t) (app_db a))) in
    if cancelled then go! _ <- w_set (fun _ => current) in m_ret true else
    go! next <- w_app (commitWorkerTaskLocked ctx (current <| Task_Status := StatusQueued |>) TaskRecovery) in
    go! _ <- w_app (status_event s next) in
    m_ret false
  end.
(** What the supervisor saves of a failure. *)
Definition settle_failure (taskErr : failure) (expired alreadyCancelled : bool) : W unit :=
  let timedOut := expired && negb alreadyCancelled in
  let message := failure_text taskErr in
  go! t <- w_task in
  go! shuttingDown <- w_app stopped in
  go! operatorCancelled <- w_locked (m_read (fun a => CancelMarked (Task_ID t) (app_db a))) in
  go! interrupted <- (if shuttingDown && negb operatorCancelled && negb timedOut && Active (Task_Status t)
                      then workspaceInitialized t else m_ret false) in
  if interrupted then
    go! saved <- m_try (w_checkpoint ctx) in
    match saved with
    | Err err => go! _ <- w_event s (Task_ID t) EventWorkerError (redact_error err) in m_fail err
    | Ok _ => w_event s (Task_ID t) EventInterrupted message
    end
  else
    go! err <- w_ask ContextErr in
    go! stopping <- w_app stopped in
    let cancelled := isSome err && negb timedOut && isNone (Task_OutputCommit t) && (operatorCancelled || negb stopping) in
    let next :=
      if cancelled then t <| Task_BlockedReason := None |> <| Task_Error := Some cancelledByOperator |>
      else
        let next := recordTaskError taskErr t in
        if expired then next <| Task_BlockedReason := Some BlockedTimeout |> else next in
    let next := next <| Task_Sessions := FailRunning (Task_Sessions next) (default "" (Task_Error next)) |> in
    go! _ <- w_set (fun _ => next) in
    go! saved <- m_try (w_transition s ctx (if cancelled then StatusCancelled else StatusBlocked)) in
    match saved with
    | Err err => go! _ <- w_event s (Task_ID t) EventWorkerError (redact_error err) in m_fail err
    | Ok _ => w_event s (Task_ID t) EventError message
    end.
Definition supervise (fuel : nat) : W unit :=
  go! joined <- runJoined fuel in
  match snd joined with
  | None => m_ret tt
  | Some executeErr =>
    let '(expired, alreadyCancelled) := fst joined in
    go! t <- w_task in
    if bool_decide (Task_Status t = StatusPublished) then
      go! _ <- w_event s (Task_ID t) EventError (failure_text executeErr) in
      m_fail executeErr
    else settle_failure (if expired then Failed (New "Task time limit exceeded") else executeErr) expired alreadyCancelled
  end.
Definition superviseTask (fuel : nat) : W unit :=
  go! stopping <- w_app stopped in
  if stopping then go! go_on <- defer_admitted in if go_on then supervise fuel else m_ret tt
  else supervise fuel.
End execution.
