(* ===== verification/ExecutionSamples.v ===== *)
(** * A run of a worker on concrete answers

    One world around a worker, for the witnesses: git, the sandbox and the
    runners answer as on a repository where all goes well, the reviewer reports
    what the sample says, and nobody else touches the service. *)
From S2P Require Import Prelude GoStrings Paths WireJson Enums Types GoErrors Config GoTime Model Samples Lifecycle Store StoreMerges StoreTasks StoreBudget StoreCapacity StoreInv Runtime Observations TaskWorkers Controls Strconv ChangeSet Prompts Redact Fragment Capture Evidence Worker Invocation Execution.
Local Open Scope string_scope.
Local Open Scope list_scope.
Local Open Scope N_scope.

Definition sample_pull : PullRequest := sample_pr "open" "rev-1".
(** [git] on a change of one file. *)
Definition clean_diff (args : list string) (_ : Z) : result (string * bool) error := Ok ("", true).
(** Every branch is at "rev-0"; the executor commits "rev-1". *)
Definition sample_answer (A : Type) (n : nat) (q : ask A) : A :=
  match q in ask A return A with
  | ContextErr => None
  | NowIs => sample_instant
  | Deadline => (false, false)
  | TimeoutLimit => Ok 86400
  | GitDir _ => true
  | Measure _ _ => Ok (mkUsage 1000 [])
  | RemoveOwnedDir _ _ => Ok tt
  | Fetch _ => Ok tt
  | RemoteRevision _ _ => Ok (Some "rev-0")
  | IsAncestor _ _ _ _ => Ok true
  | PRAt _ _ => Ok sample_pull
  | CloneAt _ _ _ => Ok tt
  | CloneReviewed _ _ _ _ => Ok tt
  | WorkGit _ _ _ => Ok "1 file changed"
  | At _ _ _ => Ok true
  | Snapshot _ _ _ => Ok "rev-1"
  | RefuseCommittedGitlinks _ _ _ _ => Ok tt
  | ReadMaintenanceFootprint _ _ _ _ => (mkMaintenanceFootprint "rev-0" "rev-1" None None [] false [], None)
  | DiffText _ _ => clean_diff
  | Publish _ => Ok sample_pull
  | RunVerification _ _ _ _ => (Ok (mkOutput (ExitStatus (mkExit 0 false false "")) (mkCaptured [] false []) (mkCaptured [] false [])), None)
  | ValidateRoutes _ _ => Ok tt
  | StartSession _ _ resume => Ok (default ("thread-" +:+ FormatUint (N.of_nat n)) resume)
  | BeginTurn _ _ _ _ _ _ => Ok true
  | EndTurn _ _ => Ok "done"
  | Release => Ok tt
  | TakeEvidence => None
  | CloseRunners => Ok tt
  end.
Definition sample_findings : list Finding := [mkFinding "Not fixed" "file.go" "line 1" "P1"].
(** A reviewer whose every review is clean, or none. *)
#[local] Instance sample_outside (clean : bool) : Outside := {
  answer := sample_answer; crashes := fun _ => None; others := fun _ a => a;
  unmarshal_review := fun _ => Ok (if clean then mkReview true "No findings." [] else mkReview true "Not fixed." sample_findings);
  unmarshal_document := fun _ => Err (New "not a maintenance review");
  findings_json := fun _ => Ok "[]"; evidence_json := fun _ => Ok "{}"; uuid_Parse := fun _ => Ok tt;
  environ := []; Infrastructure := fun _ => false }.
(** [sample_world] with an identity per question. *)
#[local] Instance counting_world : World := {
  Error := fun _ => "error"; redact_text := fun text => text;
  stops := fun _ => false; stops_final := never_stops;
  clock := fun _ => sample_instant; Get_error := fun _ => None; fresh_id := fun n => "id-" +:+ FormatUint (N.of_nat n); GitDir_found := fun _ => true;
  by_seq := fun tasks => tasks; by_seq_perm := reflexivity }.
Definition started_task : Task := (executing_task "t") <| Task_SourceRevision := "rev-0" |>.
Definition started_app : App :=
  (new_app (task_db started_task)) <| app_jobs := {[0 := mkTaskJob "octomus/t" executionWorker started_task None]} |>
    <| app_next := 1 |> <| app_runtime := empty_runtime <| rt_tasks := {["t" := 0]} |> |>.
Definition started : Worker := mkWorker started_task started_app 0 [].
Definition run (clean : bool) (fuel : nat) : result unit failure * Worker :=
  execute (H0 := counting_world) (H1 := sample_outside clean) sample_store (fun _ => sample_config) (fun _ => Ok "fp")
    (Some 0) "/var/lib/octomus" "" fuel started.

(** A deed in a word. *)
Definition told (d : deed) : string :=
  match d with
  | Saved t => "saved " +:+ enum_String (Task_Status t)
  | Reserved role => "reserved " +:+ role
  | Turned role _ => role
  | Ran command => command
  | Published _ => "publish"
  end.

(** The executor works, a clean review is verified, the task is published. *)
Example run_delivers : fst (run true 9) = Ok tt /\ map told (wk_deeds (snd (run true 9))) =
  ["saved executing"; "reserved executor"; "saved executing"; "saved executing"; "saved executing"; "executor";
   "saved executing"; "saved executing"; "saved reviewing"; "reserved reviewer"; "saved reviewing"; "reviewer";
   "saved reviewing"; "saved reviewing"; "saved reviewing"; "saved verifying"; "go test ./..."; "saved verifying";
   "saved publishing"; "publish"; "saved published"].
Proof. vm_compute. by split. Qed.
(** Repairs that leave the revision as it was stop at the limit. *)
Example run_gives_up : fst (run false 9) = Err (no_progress sample_config)
  /\ List.filter (fun deed => bool_decide (deed ∈ ["repair"; "reviewer"; "publish"])) (map told (wk_deeds (snd (run false 9))))
     = ["reviewer"; "repair"; "reviewer"; "repair"; "reviewer"].
Proof. vm_compute. by split. Qed.
