(* ===== verification/WorkerLogic.v ===== *)
(** * Reasoning about workers

    [tr m t Q]: whatever the rest of the world does, [m], started with the
    working copy [t], ends with a result, a working copy and the deeds it added
    that satisfy [Q].  An operation is [calm] when it starts no turn, publishes
    nothing and leaves the configuration and the repair count of the working
    copy alone.  The database and the answers stay any. *)
From S2P Require Import Prelude GoStrings Paths WireJson Enums Types GoErrors Config GoTime Model Samples Lifecycle Store StoreMerges StoreTasks StoreBudget StoreCapacity Runtime Observations TaskWorkers Controls Strconv Redact Fragment Capture Evidence Worker.
Local Open Scope string_scope.
Local Open Scope list_scope.
Local Open Scope N_scope.

(** ** Commits *)

(** What a commit that settles nothing saves is the record it was given. *)
Section saved.
Context `{World} (s : Store) (ctx : option N).

Definition touched (t t' : Task) : Prop := exists now, t' = t <| Task_UpdatedAt := now |>.
Lemma commitWorkerTaskLocked_saves t change a c a' :
  change <> TaskSettlement -> commitWorkerTaskLocked ctx t change a = (Ok c, a') -> touched t c.
Proof.
  intros N. revert a'. cut (wp (commitWorkerTaskLocked ctx t change) (fun r _ => forall c, r = Ok c -> touched t c) a).
  { intros W a' E. by eapply (wp_elim _ _ _ _ _ W E). }
  unfold commitWorkerTaskLocked, owns. wp_go. destruct ctx as [j|]; wp_go; [|done].
  destruct (bool_decide _); cbn [isSome andb]; wp_go; [|done]. unfold job_at. wp_go.
  destruct (app_jobs a !! j) as [job|]; wp_go; [|done]. rewrite (bool_decide_eq_false_2 _ N). unfold job_put. wp_go.
  apply wp_store_commit; [|done]. intros saved [(current & _ & _ & C) _ _]. wp_go. intros c' [= <-].
  destruct C as [[_ ->]|(_ & _ & E & _)]; [|done]. by eexists.
Qed.
Lemma transitionTask_saves t status a c a' :
  status ∉ [StatusBlocked; StatusCancelled; StatusFailed] -> transitionTask s ctx t status a = (Ok c, a') ->
  touched (t <| Task_Status := status |>) c.
Proof.
  intros N. unfold transitionTask, m_bind. destruct (commitWorkerTaskLocked _ _ _ a) as [[next|err] a1] eqn:C; [|done].
  apply commitWorkerTaskLocked_saves in C; [|destruct status; try done; exfalso; apply N; set_solver].
  unfold status_event, Event. destruct (m_bind _ _ a1) as [[]]; [|done]. by intros [= <- <-].
Qed.
End saved.

(** ** Traces *)

(** The working copy keeps what the loop depends on. *)
Record same_work (t t' : Task) : Prop := {
  same_config : Task_Config t' = Task_Config t;
  same_policy : Task_AttemptPolicy t' = Task_AttemptPolicy t;
  same_rounds : Task_RepairRounds t' = Task_RepairRounds t;
}.
#[export] Instance same_work_preorder : PreOrder same_work.
Proof. split; [done|]. intros a b c [A1 A2 A3] [B1 B2 B3]. split; congruence. Qed.
Lemma same_ExecutionConfig t t' : same_work t t' -> ExecutionConfig t' = ExecutionConfig t.
Proof. intros [C P _]. unfold ExecutionConfig. by rewrite C, P. Qed.
Lemma touched_same t t' : touched t t' -> same_work t t'.
Proof. by intros [now ->]. Qed.

Definition calm_deed (d : deed) : Prop := match d with Turned _ _ | Published _ => False | _ => True end.
Definition calm_deeds : list deed -> Prop := Forall calm_deed.

Definition tr {A} (m : W A) (t : Task) (Q : result A failure -> Task -> list deed -> Prop) : Prop :=
  forall w, wk_task w = t ->
    wp m (fun r w' => exists ds, wk_deeds w' = wk_deeds w ++ ds /\ Q r (wk_task w') ds) w.
Definition calm_post {A} (t : Task) (_ : result A failure) (t' : Task) (ds : list deed) : Prop :=
  same_work t t' /\ calm_deeds ds.
Definition calm {A} (m : W A) : Prop := forall t, tr m t (calm_post t).

Section rules.
Context `{Unicode} `{World} `{Outside} `{Printable}.

Lemma tr_mono {A} (m : W A) t (P Q : result A failure -> Task -> list deed -> Prop) :
  tr m t P -> (forall r t' ds, P r t' ds -> Q r t' ds) -> tr m t Q.
Proof. intros T I w E. eapply wp_mono; [by apply T|]. intros r w' (ds & D & R). exists ds. auto. Qed.
Lemma tr_here {A} (r : result A failure) (m : W A) t (Q : result A failure -> Task -> list deed -> Prop) :
  (forall w, m w = (r, w)) -> Q r t [] -> tr m t Q.
Proof. intros E R w <-. unfold wp. rewrite E. exists []. by rewrite app_nil_r. Qed.
Lemma tr_ret {A} (x : A) t (Q : result A failure -> Task -> list deed -> Prop) : Q (Ok x) t [] -> tr (m_ret x) t Q.
Proof. by apply tr_here. Qed.
Lemma tr_fail {A} err t (Q : result A failure -> Task -> list deed -> Prop) : Q (Err err) t [] -> tr (m_fail err) t Q.
Proof. by apply tr_here. Qed.
Lemma tr_lift {A} (r : result A failure) t (Q : result A failure -> Task -> list deed -> Prop) : Q r t [] -> tr (m_lift r) t Q.
Proof. by apply tr_here. Qed.
Lemma tr_bind {A B} (m : W A) (k : A -> W B) t (Q : result B failure -> Task -> list deed -> Prop) :
  tr m t (fun r t1 d1 => match r with
                         | Ok x => tr (k x) t1 (fun r t2 d2 => Q r t2 (d1 ++ d2))
                         | Err err => Q (Err err) t1 d1
                         end) -> tr (m_bind m k) t Q.
Proof.
  intros T w E. apply wp_bind. eapply wp_mono; [by apply T|]. intros [x|err] w1 (d1 & D1 & R); [|by exists d1].
  eapply wp_mono; [by apply R|]. intros r w2 (d2 & D2 & R2). exists (d1 ++ d2). by rewrite D2, D1, app_assoc.
Qed.
Lemma tr_task t (Q : result Task failure -> Task -> list deed -> Prop) : Q (Ok t) t [] -> tr w_task t Q.
Proof. intros R w <-. exists []. by rewrite app_nil_r. Qed.
Lemma tr_set f t (Q : result unit failure -> Task -> list deed -> Prop) : Q (Ok tt) (f t) [] -> tr (w_set f) t Q.
Proof. intros R w <-. exists []. by rewrite app_nil_r. Qed.
Lemma tr_do d t (Q : result unit failure -> Task -> list deed -> Prop) : Q (Ok tt) t [d] -> tr (w_do d) t Q.
Proof. intros R w <-. by exists [d]. Qed.
Lemma tr_ask {A} (q : ask A) t (Q : result A failure -> Task -> list deed -> Prop) :
  (forall r, Q r t (deed_of q)) -> tr (w_ask q) t Q.
Proof.
  intros R w <-. unfold wp, w_ask. exists (deed_of q). destruct (crashes _); (split; [done|]; apply R).
Qed.
Lemma tr_gate t (Q : result unit failure -> Task -> list deed -> Prop) : Q (Ok tt) t [] -> tr w_gate t Q.
Proof. intros R w <-. exists []. by rewrite app_nil_r. Qed.
Lemma tr_app {A} (m : M A) t (Q : result A failure -> Task -> list deed -> Prop) :
  (forall r a a', m a = (r, a') -> Q r t []) -> tr (w_app m) t Q.
Proof.
  intros R w <-. unfold wp, w_app. destruct (m (wk_app w)) as [r a'] eqn:E. exists []. rewrite app_nil_r. split; [done|].
  by eapply R.
Qed.
Lemma tr_try {A} (m : W A) t (Q : result (result A failure) failure -> Task -> list deed -> Prop) :
  tr m t (fun r t' ds => match r with Err (Panicked msg) => Q (Err (Panicked msg)) t' ds | _ => Q (Ok r) t' ds end) ->
  tr (m_try m) t Q.
Proof.
  intros T w E. apply wp_try. eapply wp_mono; [by apply T|]. intros r w' (ds & D & R).
  destruct r as [x|[]]; by exists ds.
Qed.
Lemma tr_recover {A} panicked (m : W A) t (Q : result (result A failure) failure -> Task -> list deed -> Prop) :
  tr m t (fun r t' ds => forall r', match r with Ok x => r' = Ok x | Err _ => exists err, r' = Err err end -> Q (Ok r') t' ds) ->
  tr (w_recover panicked m) t Q.
Proof.
  intros T w E. specialize (T w E). unfold wp, w_recover in *. destruct (m w) as [r w'] eqn:Ew. simpl in T.
  destruct T as (ds & D & R). destruct r as [x|err]; [by exists ds; split; [|apply R]|].
  destruct err; (exists ds; split; [done|]; apply R; by eexists).
Qed.
Lemma tr_defer {A} (m : W A) d t (Q : result A failure -> Task -> list deed -> Prop) :
  tr m t (fun r t1 d1 => tr d t1 (fun r2 t2 d2 => Q r t2 (d1 ++ d2) /\ forall err, Q (Err err) t2 (d1 ++ d2))) ->
  tr (w_defer m d) t Q.
Proof.
  intros T w E. specialize (T w E). unfold wp, w_defer in *. destruct (m w) as [r w1] eqn:E1. simpl in T.
  destruct T as (d1 & D1 & T). specialize (T w1 eq_refl). unfold wp in T. destruct (d w1) as [r2 w2] eqn:E2. simpl in T.
  destruct T as (d2 & D2 & Q1 & Q2).
  destruct r2 as [[]|[]]; simpl; (exists (d1 ++ d2); split; [by rewrite D2, D1, app_assoc|]); first [exact Q1|apply Q2].
Qed.

(** ** Calm operations *)

Lemma calm_refl t : calm_post (A := unit) t (Ok tt) t [].
Proof. by split; [|constructor]. Qed.
Lemma calm_tr {A} (m : W A) t (Q : result A failure -> Task -> list deed -> Prop) :
  calm m -> (forall r t' ds, same_work t t' -> calm_deeds ds -> Q r t' ds) -> tr m t Q.
Proof. intros C R. eapply tr_mono; [apply C|]. intros r t' ds [S D]. by apply R. Qed.
Lemma calm_bind {A B} (m : W A) (k : A -> W B) : calm m -> (forall x, calm (k x)) -> calm (m_bind m k).
Proof.
  intros C K t. apply tr_bind, (calm_tr _ _ _ C). intros [x|err] t1 d1 S1 D1; [|done].
  apply (calm_tr _ _ _ (K x)). intros r t2 d2 S2 D2. split; [by etrans|]. by apply Forall_app.
Qed.
Lemma calm_ret {A} (x : A) : calm (m_ret x).
Proof. intros t. apply tr_ret. by split; [|constructor]. Qed.
Lemma calm_fail {A} err : calm (A := A) (m_fail err).
Proof. intros t. apply tr_fail. by split; [|constructor]. Qed.
Lemma calm_lift {A} (r : result A failure) : calm (m_lift r).
Proof. intros t. apply tr_lift. by split; [|constructor]. Qed.
Lemma calm_task : calm w_task.
Proof. intros t. apply tr_task. by split; [|constructor]. Qed.
Lemma calm_set f : (forall t, same_work t (f t)) -> calm (w_set f).
Proof. intros S t. apply tr_set. by split; [|constructor]. Qed.
Lemma calm_do d : calm_deed d -> calm (w_do d).
Proof. intros C t. apply tr_do. split; [done|]. by constructor. Qed.
Lemma calm_ask {A} (q : ask A) : calm_deeds (deed_of q) -> calm (w_ask q).
Proof. intros C t. by apply tr_ask. Qed.
Lemma calm_gate : calm w_gate.
Proof. intros t. apply tr_gate. by split; [|constructor]. Qed.
Lemma calm_app {A} (m : M A) : calm (w_app m).
Proof. intros t. apply tr_app. intros. by split; [|constructor]. Qed.
Lemma calm_locked {A} (m : M A) : calm (w_locked m).
Proof. apply calm_bind; [apply calm_gate|intros _; apply calm_app]. Qed.
Lemma calm_call {A} (q : ask (result A error)) : calm_deeds (deed_of q) -> calm (w_call q).
Proof. intros C. apply calm_bind; [by apply calm_ask|intros r; apply calm_lift]. Qed.
Lemma calm_try {A} (m : W A) : calm m -> calm (m_try m).
Proof. intros C t. apply tr_try, (calm_tr _ _ _ C). intros r t' ds S D. by destruct r as [|[]]. Qed.
Lemma calm_defer {A} (m : W A) d : calm m -> calm d -> calm (w_defer m d).
Proof.
  intros C D t. apply tr_defer, (calm_tr _ _ _ C). intros r t1 d1 S1 D1. apply (calm_tr _ _ _ D).
  intros r2 t2 d2 S2 D2. assert (same_work t t2) by by etrans. assert (calm_deeds (d1 ++ d2)) by by apply Forall_app. done.
Qed.
Lemma calm_cancelled : calm w_cancelled.
Proof. apply calm_bind; [by apply calm_ask; constructor|]. intros [e|]; [apply calm_fail|apply calm_ret]. Qed.
End rules.
#[export] Hint Resolve calm_bind calm_ret calm_fail calm_lift calm_task calm_gate calm_app calm_locked calm_try calm_defer
  calm_cancelled : calm.
#[export] Hint Extern 1 (calm (w_ask _)) => apply calm_ask; constructor : calm.
#[export] Hint Extern 1 (calm (w_call _)) => apply calm_call; constructor : calm.
#[export] Hint Extern 1 (calm (w_do _)) => apply calm_do; exact I : calm.

(** Takes an operation apart down to the operations known to be calm. *)
Ltac calm_go :=
  repeat (cbv beta zeta; first
    [ solve [auto with calm nocore]
    | apply calm_bind; [|intros]
    | apply calm_try | apply calm_defer
    | match goal with |- calm (match ?x with _ => _ end) => destruct x end ]).

Section durable.
Context `{Unicode} `{World} `{Outside} `{Printable}.
Context (s : Store) (ctx : option N) (dataDir checkoutStorage : string).

Lemma tr_commit change t (Q : result unit failure -> Task -> list deed -> Prop) :
  change <> TaskSettlement ->
  (forall c, touched t c -> Q (Ok tt) c [Saved c]) -> (forall err, Q (Err err) t []) -> tr (w_commit ctx change) t Q.
Proof.
  intros N Sv F. apply tr_bind, tr_gate, tr_bind, tr_task, tr_bind, tr_app. intros [c|err] a a' E; [|apply F].
  apply commitWorkerTaskLocked_saves in E; [|done]. apply tr_bind, tr_set, tr_do. by apply Sv.
Qed.
Lemma tr_transition status t (Q : result unit failure -> Task -> list deed -> Prop) :
  status ∉ [StatusBlocked; StatusCancelled; StatusFailed] ->
  (forall c, touched (t <| Task_Status := status |>) c -> Q (Ok tt) c [Saved c]) -> (forall err, Q (Err err) t []) ->
  tr (w_transition s ctx status) t Q.
Proof.
  intros N Sv F. apply tr_bind, tr_task, tr_bind, tr_bind, tr_gate, tr_app. intros [c|err] a a' E; [|apply F].
  apply transitionTask_saves in E; [|done]. apply tr_bind, tr_set, tr_do. by apply Sv.
Qed.
Lemma calm_commit change : change <> TaskSettlement -> calm (w_commit ctx change).
Proof.
  intros N t. apply tr_commit; [done| |]; [|by split; [|constructor]].
  intros c T. split; [by apply touched_same|by repeat constructor].
Qed.
Lemma calm_checkpoint : calm (w_checkpoint ctx).
Proof. by apply calm_commit. Qed.
Lemma calm_transition status :
  status ∉ [StatusBlocked; StatusCancelled; StatusFailed] -> calm (w_transition s ctx status).
Proof.
  intros N t. apply tr_transition; [done| |by split; [|constructor]]. intros c T.
  split; [|by repeat constructor]. etrans; [|by apply touched_same]. done.
Qed.
Lemma calm_event entity kind message : calm (w_event s entity kind message).
Proof. apply calm_locked. Qed.
Lemma calm_keepSandboxEvidence entity command record : calm (keepSandboxEvidence s entity command record).
Proof. unfold keepSandboxEvidence. destruct record; [|apply calm_ret]. destruct (evidence_json _); [apply calm_event|apply calm_ret]. Qed.
Lemma calm_measure owner : calm (measureLocked dataDir checkoutStorage owner).
Proof.
  unfold measureLocked, measure, applicationUsage. apply calm_bind; [apply calm_cancelled|intros _]. calm_go.
Qed.

(** An admission that succeeds reserves one session. *)
Lemma tr_admit role route t (Q : result unit failure -> Task -> list deed -> Prop) :
  (forall t' ds, same_work t t' -> calm_deeds ds -> Q (Ok tt) t' (ds ++ [Reserved role])) ->
  (forall err t' ds, same_work t t' -> calm_deeds ds -> Q (Err err) t' ds) ->
  tr (admit_session s dataDir checkoutStorage role route) t Q.
Proof.
  intros Sv F. unfold admit_session. apply tr_bind, tr_task, tr_bind, (calm_tr _ _ _ (calm_measure _)).
  intros [size|err] t1 d1 S1 D1; [|by apply F]. apply tr_bind, (calm_tr _ _ _ calm_cancelled).
  intros [[]|err] t2 d2 S2 D2; [|rewrite ?app_nil_l; apply (F _ _ (d1 ++ d2)); [by etrans|by apply Forall_app]].
  apply tr_bind, (calm_tr _ _ _ (calm_locked _)). intros [[]|err] t3 d3 S3 D3.
  - apply tr_do. rewrite !app_nil_l, !app_assoc. apply Sv; [by do 2 etrans|]. by repeat apply Forall_app_2.
  - rewrite !app_nil_l. apply F; [by do 2 etrans|]. by repeat apply Forall_app_2.
Qed.
Lemma calm_admit role route : calm (admit_session s dataDir checkoutStorage role route).
Proof.
  intros t. apply tr_admit; intros; (split; [done|]); [|done]. apply Forall_app_2; [done|by repeat constructor].
Qed.
End durable.
#[export] Hint Resolve calm_checkpoint calm_event calm_keepSandboxEvidence calm_admit : calm.
#[export] Hint Extern 1 (calm (w_commit _ _)) => by apply calm_commit : calm.
#[export] Hint Extern 1 (calm (w_transition _ _ _)) => apply calm_transition; set_solver : calm.
