(* ===== verification/ExecutionFacts.v ===== *)
(** * What an execution guarantees

    Whatever git, the runners, the sandbox and the rest of the service do: each
    turn of an agent is of a session already saved as running and is paid for
    by a reservation; each publication is of a record just saved, with an
    authorizing review and, for a fresh commit, every verification command
    passed at it; and the loop of rounds ends within the repair budget. *)
From S2P Require Import Prelude GoStrings Paths WireJson Enums Types GoErrors Config GoTime Model Samples Lifecycle Store StoreMerges StoreTasks StoreBudget StoreCapacity Runtime Observations TaskWorkers Controls Strconv ChangeSet Prompts Redact Fragment Capture Evidence Worker Invocation Execution ExecutionSamples WorkerLogic.
Local Open Scope string_scope.
Local Open Scope list_scope.
Local Open Scope N_scope.

(** ** The laws of deeds *)

Definition recorded (t : Task) (role session : string) : Prop :=
  exists x, x ∈ Task_Sessions t /\ Session_ID x = session /\ Session_Role x = role /\ Session_Status x = SessionRunning.
(** The last runs of the verification commands passed at the revision. *)
Definition verified (t : Task) (revision : string) : Prop :=
  exists before runs, Task_Verification t = before ++ runs
  /\ map Verification_Command runs = Config_VerificationCommands (Task_Config t)
  /\ Forall (fun v => Verification_Success v = true /\ Verification_Revision v = revision) runs.
Definition earned (fresh : bool) (t : Task) : Prop :=
  exists revision, Task_OutputCommit t = Some revision /\ Task_Status t = StatusPublishing
  /\ ReviewAuthorizes t revision = true /\ (fresh = true -> verified t revision).
Definition follows (fresh : bool) (prev : option deed) (d : deed) : Prop :=
  match d with
  | Turned role session => exists t, prev = Some (Saved t) /\ recorded t role session
  | Published t => prev = Some (Saved t) /\ earned fresh t
  | _ => True
  end.
(** Each deed may follow the one before it. *)
Fixpoint ordered (fresh : bool) (prev : option deed) (ds : list deed) : Prop :=
  match ds with [] => True | d :: ds => follows fresh prev d /\ ordered fresh (Some d) ds end.
(** With [k] sessions reserved at first, no turn is begun without one. *)
Fixpoint paid (k : nat) (ds : list deed) : Prop :=
  match ds with
  | [] => True
  | Reserved _ :: ds => paid (S k) ds
  | Turned _ _ :: ds => match k with O => False | S k => paid k ds end
  | _ :: ds => paid k ds
  end.

Lemma paid_weaken ds : forall k k', (k <= k')%nat -> paid k ds -> paid k' ds.
Proof.
  induction ds as [|d ds IH]; intros k k' L; [done|]. destruct d; simpl; try (by apply IH; lia).
  destruct k, k'; try done; [lia|]. apply IH. lia.
Qed.
Lemma paid_app a b : forall k, paid k a -> paid 0 b -> paid k (a ++ b).
Proof.
  induction a as [|d a IH]; intros k A B; simpl; [by apply (paid_weaken b 0); [lia|]|].
  destruct d; simpl in *; try by apply IH. destruct k; [done|]. by apply IH.
Qed.
Lemma paid_calm a b k : calm_deeds a -> paid k b -> paid k (a ++ b).
Proof.
  intros C. revert k. induction C as [|d a D _ IH]; intros k B; [done|]. destruct d; simpl in *; try done; try by apply IH.
  apply IH. by apply (paid_weaken b k); [lia|].
Qed.
Lemma ordered_weaken fresh ds prev : ordered fresh None ds -> ordered fresh prev ds.
Proof. destruct ds as [|d ds]; [done|]. intros [F O]. split; [|done]. destruct d; simpl in *; try done; [by destruct F as (t & E & _)|by destruct F]. Qed.
Lemma ordered_app fresh a b prev : ordered fresh prev a -> ordered fresh None b -> ordered fresh prev (a ++ b).
Proof.
  revert prev. induction a as [|d a IH]; intros prev A B; [by apply ordered_weaken|]. destruct A as [F A]. split; [done|]. by apply IH.
Qed.
Lemma ordered_calm fresh a b prev :
  calm_deeds a -> ordered fresh None b -> ordered fresh prev (a ++ b).
Proof.
  intros C O. apply ordered_app; [|done]. revert prev. induction C as [|d a D _ IH]; intros prev; [done|]. split; [by destruct d|]. apply IH.
Qed.
(** After a record is saved. *)
Lemma ordered_saved fresh a t b : calm_deeds a -> ordered fresh (Some (Saved t)) b -> ordered fresh None (a ++ Saved t :: b).
Proof. intros C O. apply ordered_calm; [done|]. by split. Qed.

Definition lawful (fresh : bool) (k : nat) (ds : list deed) : Prop := ordered fresh None ds /\ paid k ds.
Lemma lawful_calm fresh k ds : calm_deeds ds -> lawful fresh k ds.
Proof.
  intros C. rewrite <- (app_nil_r ds). split; [by apply ordered_calm|by apply paid_calm].
Qed.
Lemma lawful_app fresh k a b : lawful fresh k a -> lawful fresh 0 b -> lawful fresh k (a ++ b).
Proof. intros [OA PA] [OB PB]. split; [by apply ordered_app|by apply paid_app]. Qed.
Lemma lawful_calm_app fresh k a b : calm_deeds a -> lawful fresh k b -> lawful fresh k (a ++ b).
Proof. intros C [O P]. split; [by apply ordered_calm|by apply paid_calm]. Qed.

(** ** Lawful operations

    [lw fresh k C t0]: the deeds are lawful with [k] reserved sessions, and on
    success the working copy is related to [t0] by [C]. *)
Definition lw {A} (fresh : bool) (k : nat) (C : Task -> Task -> Prop) (t0 : Task)
    (r : result A failure) (t' : Task) (ds : list deed) : Prop :=
  lawful fresh k ds /\ (is_ok r = true -> C t0 t').
(** [C] looks only at what calm operations keep. *)
Class Coarse (C : Task -> Task -> Prop) := {
  coarse_l a b c : same_work a b -> C b c -> C a c;
  coarse_r a b c : C a b -> same_work b c -> C a c;
}.
#[export] Instance same_work_coarse : Coarse same_work.
Proof. split; intros; by etrans. Qed.

Section lawfulness.
Context `{Unicode} `{World} `{Outside} `{Printable}.
Context (s : Store) (ctx : option N) (dataDir checkoutStorage : string).
Context (fresh : bool) (C : Task -> Task -> Prop).

Lemma lw_bind {A B} (m : W A) (f : A -> W B) k t t0 :
  calm m -> (forall x t1, same_work t t1 -> tr (f x) t1 (lw fresh k C t0)) -> tr (m_bind m f) t (lw fresh k C t0).
Proof.
  intros Cm F. apply tr_bind, (calm_tr _ _ _ Cm). intros [x|err] t1 d1 S1 D1; [|split; [by apply lawful_calm|done]].
  eapply tr_mono; [by apply F|]. intros r t2 d2 [L R]. split; [by apply lawful_calm_app|done].
Qed.
Lemma lw_calm {A} (m : W A) k t t0 : Coarse C -> calm m -> C t0 t -> tr m t (lw (A := A) fresh k C t0).
Proof.
  intros Co Cm Ct. apply (calm_tr _ _ _ Cm). intros r t1 d1 S1 D1. split; [by apply lawful_calm|]. intros _. by eapply coarse_r.
Qed.
Lemma lw_fail {A} err k t t0 : tr (m_fail err) t (lw (A := A) fresh k C t0).
Proof. apply tr_fail. split; [apply lawful_calm; constructor|done]. Qed.
Lemma lw_admit {B} role route (f : unit -> W B) t t0 :
  (forall t1, same_work t t1 -> tr (f tt) t1 (lw fresh 1 C t0)) ->
  tr (m_bind (admit_session s dataDir checkoutStorage role route) f) t (lw fresh 0 C t0).
Proof.
  intros F. apply tr_bind, tr_admit; [|by intros err t' ds S D; (split; [apply lawful_calm|])].
  intros t1 d1 S1 D1. eapply tr_mono; [by apply F|]. intros r t2 d2 [[O P] R]. split; [|done].
  rewrite <- app_assoc. split; [apply ordered_calm; [done|split; [done|by apply ordered_weaken]]|]. by apply paid_calm.
Qed.
(** Then something lawful on its own. *)
Lemma lw_then {A B} (D : Task -> Task -> Prop) (m : W A) (f : A -> W B) k t t0 :
  tr m t (lw fresh k D t) -> (forall x t1, D t t1 -> tr (f x) t1 (lw fresh 0 C t0)) -> tr (m_bind m f) t (lw fresh k C t0).
Proof.
  intros T F. apply tr_bind. eapply tr_mono; [exact T|]. intros [x|err] t1 d1 [L R]; [|by split].
  eapply tr_mono; [by apply F, R|]. intros r t2 d2 [L2 R2]. split; [by apply lawful_app|done].
Qed.
End lawfulness.

(** ** Sessions *)

Section sessions.
Context `{Unicode} `{World} `{Outside} `{Printable}.
Context (s : Store) (ctx : option N) (dataDir checkoutStorage : string).

Lemma calm_findSession thread role : calm (findSession thread role).
Proof. unfold findSession. calm_go. Qed.
Lemma calm_edit_session thread role f : calm (edit_session thread role f).
Proof. apply calm_set. intros t. by destruct (find_index _ _ _). Qed.
Hint Resolve calm_findSession calm_edit_session : calm.
Lemma calm_merge_evidence thread role : calm (merge_evidence thread role).
Proof. unfold merge_evidence. calm_go. Qed.
Hint Resolve calm_merge_evidence : calm.
Lemma calm_release : calm runners_release.
Proof. unfold runners_release. calm_go. Qed.
Lemma calm_start route ws resume : calm (runners_start route ws resume).
Proof. unfold runners_start. calm_go. Qed.
Hint Resolve calm_release calm_start : calm.
Lemma calm_turn_started thread role : calm (turn_started ctx thread role).
Proof. unfold turn_started. calm_go. Qed.
Hint Resolve calm_turn_started : calm.
Lemma calm_replace {J} (inv : invocation J) : calm (replace_session s inv).
Proof. unfold replace_session. calm_go. Qed.
Lemma calm_clear {J} (inv : invocation J) : calm (clear_slot inv).
Proof. unfold clear_slot. destruct (inv_session inv) as [[]|]; [by apply calm_set..|apply calm_ret]. Qed.
Hint Resolve @calm_replace @calm_clear : calm.
Lemma calm_resume_failed {J} (inv : invocation J) identity err released :
  calm (resume_failed s ctx dataDir checkoutStorage inv identity err released).
Proof. unfold resume_failed. calm_go. Qed.
Hint Resolve @calm_resume_failed : calm.
Lemma calm_startInvocation {J} (inv : invocation J) resume : calm (startInvocation s ctx dataDir checkoutStorage inv resume).
Proof. unfold startInvocation. calm_go. Qed.
Lemma calm_to_resume {J} (inv : invocation J) : calm (to_resume inv).
Proof. unfold to_resume. calm_go. Qed.
Lemma calm_take_evidence {J} (inv : invocation J) session : calm (take_evidence inv session).
Proof. unfold take_evidence. calm_go. Qed.
Hint Resolve @calm_startInvocation @calm_to_resume @calm_take_evidence : calm.

(** The record of a session, before its turn. *)
Lemma find_index_Some t thread role i :
  find_index t thread role = Some i -> exists x, Task_Sessions t !! i = Some x /\ Session_ID x = thread /\ Session_Role x = role.
Proof.
  unfold find_index. destruct (list_find _ _) as [[j x]|] eqn:F; [|done]. intros [= ->].
  apply list_find_Some in F as (L & P & _). exists x. split; [done|]. unfold session_at in P. by bool_hyps.
Qed.
Lemma tr_record_session {J} (inv : invocation J) session resumed t :
  tr (record_session inv session resumed) t (fun r t' ds =>
    calm_post t r t' ds /\ (r = Ok tt -> recorded t' (inv_role inv) session)).
Proof.
  unfold record_session. destruct resumed.
  - apply tr_bind. unfold findSession. apply tr_bind, tr_task. destruct (find_index t session (inv_role inv)) as [i|] eqn:F.
    + destruct (find_index_Some _ _ _ _ F) as (x & L & Ix & Rx). simpl. rewrite L. apply tr_ret, tr_set. rewrite F.
      split; [by split; [|constructor]|]. intros _. exists ((MarkRunning x) <| Session_FirstTurnStarted := Some true |>).
      split; [|by split_and!]. apply (list_elem_of_lookup_2 _ i). simpl. by rewrite list_lookup_alter_eq, L.
    + simpl. apply tr_fail. split; [by split; [|constructor]|done].
  - apply tr_bind, tr_ask. intros [now|err]; [|split; [by split; [|constructor]|done]]. apply tr_bind, tr_set.
    set (record := _ <| Session_FirstTurnStarted := _ |>).
    assert (record ∈ Task_Sessions t ++ [record]) as In by (apply elem_of_app; right; by apply list_elem_of_singleton).
    destruct (inv_session inv) as [[]|]; [apply tr_set..|apply tr_ret]; (split; [by split; [|constructor]|]); intros _; by exists record.
Qed.

(** ** The turn and the invocation *)

Lemma calm_runners_answer role session accepted : calm (runners_answer ctx role session accepted).
Proof. unfold runners_answer. calm_go. Qed.
Lemma calm_end_turn {J} (inv : invocation J) session answer :
  (forall judge, inv_judge inv = Some judge -> forall thread answer, calm (judge thread answer)) ->
  calm (end_turn ctx inv session answer).
Proof.
  intros Cj. unfold end_turn, judge_answer. apply calm_bind; [auto with calm nocore|]. intros released.
  destruct answer as [answer|err], (JoinErrors _ _); auto with calm nocore.
  destruct (inv_judge inv) as [judge|]; [|auto with calm nocore]. specialize (Cj judge eq_refl). calm_go.
Qed.
Lemma tr_turn {J} (inv : invocation J) session t :
  (forall judge, inv_judge inv = Some judge -> forall thread answer, calm (judge thread answer)) ->
  tr (turn ctx inv session) t (fun _ t' ds =>
    same_work t t' /\ exists rest, ds = Turned (inv_role inv) session :: rest /\ calm_deeds rest).
Proof.
  intros Cj. unfold turn, runners_turn. apply tr_bind, tr_try, tr_bind, tr_ask. cbn [deed_of].
  assert (forall begun, calm match begun with
    | Ok accepted => runners_answer ctx (inv_role inv) session accepted
    | Err err => m_fail (unavailable err)
    end) as Cb by (intros [|]; [apply calm_runners_answer|apply calm_fail]).
  assert (forall answer t1 d1, same_work t t1 -> calm_deeds d1 ->
    tr (end_turn ctx inv session answer) t1 (fun _ t2 d2 => same_work t t2 /\ exists rest,
      (Turned (inv_role inv) session :: d1) ++ d2 = Turned (inv_role inv) session :: rest /\ calm_deeds rest)) as Fin.
  { intros answer t1 d1 S1 D1. apply (calm_tr _ _ _ (calm_end_turn inv session answer Cj)). intros r2 t2 d2 S2 D2.
    split; [by etrans|]. exists (d1 ++ d2). split; [done|]. by apply Forall_app. }
  assert (calm_deeds []) as D0 by constructor.
  intros [begun|err].
  - apply (calm_tr _ _ _ (Cb begun)). intros r t1 d1 S1 D1. destruct r as [answer|[]]; try by apply Fin.
    split; [done|]. by exists d1.
  - destruct err; try by apply (Fin _ _ []). split; [done|]. by exists [].
Qed.

(** What becomes of the working copy over an invocation that succeeds: [C],
    which the accounting of the completed turn decides. *)
Definition completes {J} (inv : invocation J) (C : Task -> Task -> Prop) : Prop :=
  match inv_completed inv with
  | None => forall t t', same_work t t' -> C t t'
  | Some m => forall t, tr m t (fun r t' ds => calm_deeds ds /\ (r = Ok tt -> C t t'))
  end.
(** A turn of a session just saved, for a session reserved. *)
Lemma lawful_turn fresh d1 c role session rest d2 :
  calm_deeds d1 -> recorded c role session -> calm_deeds rest -> lawful fresh 0 d2 ->
  lawful fresh 1 (d1 ++ Saved c :: Turned role session :: rest ++ d2).
Proof.
  intros D1 R Dr [O P]. split.
  - apply ordered_saved; [done|]. split; [by exists c|]. by apply ordered_calm.
  - apply paid_calm; [done|]. by apply paid_calm.
Qed.
Lemma recorded_touched t c role session : touched t c -> recorded t role session -> recorded c role session.
Proof. by intros [now ->]. Qed.

Lemma lw_turned {J} (inv : invocation J) (C : Task -> Task -> Prop) fresh session turned t t0 :
  Coarse C -> completes inv C -> same_work t0 t ->
  tr (settle_turn ctx inv session turned) t (lw fresh 0 C t0).
Proof.
  intros Co Cc S. unfold settle_turn. apply lw_bind; [apply calm_take_evidence|]. intros _ t1 S1.
  destruct turned as [[[answer summary] judged]|err]; [|apply lw_fail].
  apply lw_bind; [apply calm_findSession|]. intros _ t2 S2. assert (same_work t0 t2) as S3 by (do 2 (etrans; [done|]); done).
  clear S S1 S2 t t1. unfold completes in Cc.
  assert (forall t3, C t0 t3 -> tr (go! _ <- edit_session session (inv_role inv) (fun x => MarkCompleted x (redact_text summary)) in
    go! _ <- w_checkpoint ctx in m_ret (answer, judged)) t3 (lw fresh 0 C t0)) as Rest.
  { intros t3 S4. apply lw_calm; [done| |done]. calm_go. }
  destruct (inv_completed inv) as [m|].
  - apply tr_bind. eapply tr_mono; [apply Cc|]. intros [[]|err] t3 d3 [D3 R3]; [|by split; [apply lawful_calm|]].
    eapply tr_mono; [apply Rest; eapply coarse_l; [exact S3|by apply R3]|]. intros r t4 d4 [L R]. split; [by apply lawful_calm_app|done].
  - apply lw_bind; [apply calm_ret|]. intros _ t3 S4. apply Rest, Cc. by etrans.
Qed.
Lemma lw_converse {J} (inv : invocation J) (C : Task -> Task -> Prop) fresh session resumed t t0 :
  Coarse C ->
  (forall judge, inv_judge inv = Some judge -> forall thread answer, calm (judge thread answer)) -> completes inv C ->
  same_work t0 t -> tr (converse ctx inv session resumed) t (lw fresh 1 C t0).
Proof.
  intros Co Cj Cc S. unfold converse. apply tr_bind. eapply tr_mono; [apply tr_record_session|].
  intros [[]|err] t1 d1 [[S1 D1] R1]; [|by split; [apply lawful_calm|]].
  apply tr_bind, tr_commit; [done| |intros err; split; [|done]; rewrite app_nil_r; by apply lawful_calm].
  intros c Tc. pose proof (touched_same _ _ Tc) as Sc. apply tr_bind, tr_try. eapply tr_mono; [by apply tr_turn|].
  intros r t2 d2 [S2 (rest & -> & Dr)]. pose proof (recorded_touched _ _ _ _ Tc (R1 eq_refl)) as Rc.
  assert (same_work t0 t2) as S3 by (do 3 (etrans; [done|]); done).
  assert (forall turned, tr (settle_turn ctx inv session turned) t2 (fun r t3 d3 =>
    lw fresh 1 C t0 r t3 (d1 ++ [Saved c] ++ (Turned (inv_role inv) session :: rest) ++ d3))) as Rest.
  { intros turned. eapply tr_mono; [by apply (lw_turned inv C fresh)|]. intros r3 t3 d3 [L R]. split; [|done].
    by apply lawful_turn. }
  destruct r as [x|[]]; try apply Rest. split; [|done]. rewrite <- (app_nil_r rest). apply lawful_turn; try done.
Qed.
Lemma lw_invoke {J} (inv : invocation J) (C : Task -> Task -> Prop) fresh t :
  Coarse C ->
  (forall judge, inv_judge inv = Some judge -> forall thread answer, calm (judge thread answer)) -> completes inv C ->
  tr (invoke s ctx dataDir checkoutStorage inv) t (lw fresh (if inv_reserved inv then 1 else 0) C t).
Proof.
  intros Co Cj Cc. unfold invoke. apply lw_bind; [apply calm_cancelled|]. intros _ t1 S1.
  apply lw_bind; [apply calm_to_resume|]. intros resume t2 S2. assert (same_work t t2) as S by by etrans. clear t1 S1 S2.
  assert (forall t1, same_work t t1 -> tr (go! _ <- w_cancelled in
    go! started <- startInvocation s ctx dataDir checkoutStorage inv resume in
    converse ctx inv (fst started) (snd started)) t1 (lw fresh 1 C t)) as Rest.
  { intros t3 S3. apply lw_bind; [apply calm_cancelled|]. intros _ t4 S4. apply lw_bind; [apply calm_startInvocation|].
    intros [session resumed] t5 S5. apply lw_converse; try done. by do 2 (etrans; [done|]). }
  destruct (inv_reserved inv); [|by apply lw_admit; intros; apply Rest; etrans].
  apply lw_bind; [apply calm_ret|]. intros _ t3 S3. apply Rest. by etrans.
Qed.
End sessions.

(** ** Checks are calm *)

Section checks.
Context `{Unicode} `{World} `{Outside} `{Printable}.
Context (s : Store) (live_config : Db -> Config) (Fingerprint : Config -> result string error).
Context (ctx : option N) (dataDir checkoutStorage : string).

Lemma calm_ensureWorkspaceAt cfg ws revision : calm (ensureWorkspaceAt cfg ws revision).
Proof. unfold ensureWorkspaceAt. calm_go. Qed.
Lemma calm_revisionHasChanges cfg ws source revision : calm (revisionHasChanges cfg ws source revision).
Proof. unfold revisionHasChanges. calm_go. Qed.
Lemma calm_requireDefaultRevision cfg want : calm (requireDefaultRevision cfg want).
Proof. unfold requireDefaultRevision. calm_go. Qed.
Lemma calm_publishedDependency id : calm (publishedDependency id).
Proof. unfold publishedDependency. calm_go. Qed.
Lemma calm_gitDir ws : calm (gitDir ws).
Proof. unfold gitDir. calm_go. Qed.
Hint Resolve calm_ensureWorkspaceAt calm_revisionHasChanges calm_requireDefaultRevision calm_publishedDependency calm_gitDir : calm.
Lemma calm_checkWorkspace : calm (checkWorkspace dataDir).
Proof. unfold checkWorkspace. calm_go. Qed.
Lemma calm_workspaceInitialized t : calm (workspaceInitialized t).
Proof. unfold workspaceInitialized. calm_go. Qed.
Lemma calm_checkSandboxTimeouts cfg : calm (checkSandboxTimeouts cfg).
Proof. unfold checkSandboxTimeouts. calm_go. Qed.
Lemma calm_authorizing ids : forall source authorized, calm (authorizing_dependencies ids source authorized).
Proof. induction ids as [|id ids IH]; intros; cbn [authorizing_dependencies]; calm_go. Qed.
Hint Resolve calm_checkWorkspace calm_workspaceInitialized calm_checkSandboxTimeouts calm_authorizing : calm.
Lemma calm_retryPreflight : calm (retryPreflight dataDir).
Proof. unfold retryPreflight. calm_go. Qed.
Lemma calm_dependency_outputs cfg current ids : calm (dependency_outputs cfg current ids).
Proof. induction ids as [|id ids IH]; cbn [dependency_outputs]; calm_go. Qed.
Lemma calm_set_source current : calm (w_set (fun t => t <| Task_SourceRevision := current |>)).
Proof. by apply calm_set. Qed.
Lemma calm_set_workspace ws : calm (w_set (fun t => t <| Task_Workspace := ws |>)).
Proof. by apply calm_set. Qed.
Lemma calm_set_base base : calm (w_set (fun t => t <| Task_ComparisonBase := base |>)).
Proof. by apply calm_set. Qed.
Hint Resolve calm_retryPreflight calm_dependency_outputs calm_set_source calm_set_workspace calm_set_base : calm.
Lemma calm_clone cfg : calm (clone_workspace ctx dataDir cfg).
Proof. unfold clone_workspace. calm_go. Qed.
Lemma calm_prepare cfg : calm (prepare_execution ctx cfg).
Proof. unfold prepare_execution. calm_go. Qed.
Hint Resolve calm_clone calm_prepare : calm.
Lemma calm_judge_review cfg ws revision trusted thread answer : calm (judge_review cfg ws revision trusted thread answer).
Proof.
  unfold judge_review. apply calm_bind; [apply calm_lift|]. intros [review assessment]. destruct (negb _); [apply calm_fail|].
  apply calm_bind; [apply calm_ensureWorkspaceAt|]. intros _. apply calm_bind; [by apply calm_ask; constructor|]. intros now.
  apply calm_bind; [by apply calm_set|]. intros _. apply calm_ret.
Qed.
Lemma calm_snapshot cfg : calm (snapshot_revision cfg).
Proof. unfold snapshot_revision. calm_go. Qed.
Lemma calm_account cfg revision : calm (account_progress ctx cfg revision).
Proof.
  unfold account_progress. apply calm_bind; [apply calm_task|]. intros t. destruct (Task_RepairProgress t); [|apply calm_ret].
  apply calm_bind; [by apply calm_set|]. intros _. calm_go.
Qed.
Lemma calm_last_round t : calm (last_round t).
Proof. unfold last_round. calm_go. Qed.
Lemma calm_verificationCheckout cfg ws revision : calm (verificationCheckout cfg ws revision).
Proof. unfold verificationCheckout. calm_go. Qed.
Lemma calm_discard_checkout ws : calm (discard_checkout s ws).
Proof. unfold discard_checkout. calm_go. Qed.
Lemma calm_runCheckCommand cfg ws command revision fresh : calm (runCheckCommand cfg ws command revision fresh).
Proof. unfold runCheckCommand. apply calm_bind; [by apply calm_ask; repeat constructor|]. intros captured. calm_go. Qed.
Hint Resolve calm_snapshot calm_account calm_last_round calm_verificationCheckout calm_discard_checkout calm_runCheckCommand : calm.

(** Initialization that succeeds has reserved the executor's session. *)
Lemma lw_initialize {B} fresh (C : Task -> Task -> Prop) (f : unit -> W B) t t0 :
  (forall t1, same_work t t1 -> tr (f tt) t1 (lw fresh 1 C t0)) ->
  tr (m_bind (initializeTask s ctx dataDir checkoutStorage) f) t (lw fresh 0 C t0).
Proof.
  intros F. apply tr_bind. unfold initializeTask. apply tr_bind, tr_task, tr_bind, (calm_tr _ _ _ (calm_prepare _)).
  intros [[]|err] t1 d1 S1 D1; [|by split; [apply lawful_calm|]]. apply tr_bind, tr_task, tr_bind, tr_admit.
  - intros t2 d2 S2 D2. apply tr_bind, tr_task.
    assert (calm (if bool_decide (Task_Workspace t2 = "") then clone_workspace ctx dataDir (ExecutionConfig t) else checkWorkspace dataDir)) as Cl
      by (destruct (bool_decide _); [apply calm_clone|apply calm_checkWorkspace]).
    apply (calm_tr _ _ _ Cl). intros [[]|err] t3 d3 S3 D3; rewrite ?app_nil_l.
    + eapply tr_mono; [apply F; by do 2 (etrans; [done|])|]. intros r t4 d4 [[O P] R]. split; [|done].
      rewrite <- !app_assoc. split; [apply ordered_calm; [done|]; apply ordered_calm; [done|]|].
      * split; [done|]. by apply (ordered_calm _ d3 d4).
      * apply paid_calm; [done|]. apply paid_calm; [done|]. by apply (paid_calm d3).
    + split; [|done]. apply lawful_calm, Forall_app_2; [done|]. apply Forall_app_2; [|done]. apply Forall_app_2; [done|by repeat constructor].
  - intros err t2 d2 S2 D2. split; [|done]. rewrite !app_nil_l. apply lawful_calm. by apply Forall_app_2.
Qed.

(** ** Verification *)

(** Discarding the checkout leaves the working copy alone. *)
Lemma tr_discard ws t (Q : result unit failure -> Task -> list deed -> Prop) :
  (forall r ds, calm_deeds ds -> Q r t ds) -> tr (discard_checkout s ws) t Q.
Proof.
  intros R. unfold discard_checkout. apply tr_bind, tr_ask. assert (calm_deeds []) as D by constructor.
  intros [[]|err]; [apply tr_ret|apply tr_bind, tr_task, tr_bind, tr_gate, tr_app|]; intros; by apply R.
Qed.
Lemma same_ExecutionConfig_commands t : Config_VerificationCommands (ExecutionConfig t) = Config_VerificationCommands (Task_Config t).
Proof. unfold ExecutionConfig. by destruct (Task_AttemptPolicy t). Qed.

Definition ran (commands : list string) (revision : string) (ok : bool) (runs : list Verification) : Prop :=
  map Verification_Command runs = commands
  /\ Forall (fun v => (ok = true -> Verification_Success v = true) /\ Verification_Revision v = revision) runs.
Definition is_nil {A} (l : list A) : bool := match l with [] => true | _ => false end.

Lemma tr_runCheckCommand cfg ws command revision fresh t (Q : result checkOutcome failure -> Task -> list deed -> Prop) :
  (forall r, Q r t [Ran command]) -> tr (runCheckCommand cfg ws command revision fresh) t Q.
Proof.
  intros R. unfold runCheckCommand. apply tr_bind, tr_ask. intros [captured|err]; [|apply R].
  apply tr_bind, tr_ask. intros [err|err]; [|apply R]. apply tr_bind. destruct (isSome err).
  - apply tr_ret, tr_ret, R.
  - apply tr_ask. intros [intact|e]; [apply tr_ret|]; apply R.
Qed.
Lemma tr_verify_command cfg checkout revision command fresh t :
  tr (verify_command s ctx cfg checkout revision command fresh) t (fun r t' ds => same_work t t' /\ calm_deeds ds
    /\ forall errors, r = Ok errors ->
       exists runs, Task_Verification t' = Task_Verification t ++ runs /\ ran [command] revision (is_nil errors) runs).
Proof.
  assert (calm_deeds [Ran command]) as Cr by by repeat constructor.
  unfold verify_command. apply tr_bind, tr_runCheckCommand. intros [outcome|err]; [|done].
  apply tr_bind, tr_ask. intros [err|err]; [|done]. destruct (isSome err); [by apply tr_fail|].
  destruct (sandboxFailed _ _).
  { apply tr_bind, tr_task, tr_bind, (calm_tr _ _ _ (calm_keepSandboxEvidence _ _ _ _)).
    intros [[]|e] t1 d1 S1 D1; [apply tr_fail|]; (split_and!; [done| |done]); repeat apply Forall_app_2; by try constructor. }
  apply tr_bind, tr_ask. intros [now|e]; [|done]. apply tr_bind, tr_set, tr_bind, tr_commit; [done| |done].
  intros c [at_ ->].
  assert (forall errors, (is_nil errors = true -> succeeded outcome = true) -> exists runs,
    Task_Verification t ++ [mkVerification command (succeeded outcome) (str (verification_output environ outcome)) revision
      (Timestamp now) (outcome_sandbox outcome)] = Task_Verification t ++ runs /\ ran [command] revision (is_nil (A := string) errors) runs) as Fin.
  { intros errors Su. eexists. split; [reflexivity|]. split; [done|]. by repeat constructor. }
  destruct (outcome_intactErr outcome) eqn:Ei; [apply tr_fail; split_and!; [done|by repeat constructor|done]|].
  destruct (outcome_intact outcome) eqn:In; cbn [negb]; [|apply tr_fail; split_and!; [done|by repeat constructor|done]].
  apply tr_ret. split_and!; [done|by repeat constructor|]. intros errors [= <-]. apply Fin.
  unfold succeeded. rewrite Ei, In. by destruct (failed outcome).
Qed.
Lemma ran_app a b revision oa ob ra rb :
  ran a revision oa ra -> ran b revision ob rb -> ran (a ++ b) revision (oa && ob) (ra ++ rb).
Proof.
  intros [Ma Fa] [Mb Fb]. split; [by rewrite map_app, Ma, Mb|]. apply Forall_app_2.
  - eapply Forall_impl; [exact Fa|]. intros v [O R]. split; [|done]. intros T. apply andb_true_iff in T as [T _]. auto.
  - eapply Forall_impl; [exact Fb|]. intros v [O R]. split; [|done]. intros T. apply andb_true_iff in T as [_ T]. auto.
Qed.
Lemma is_nil_app {A} (a b : list A) : is_nil (a ++ b) = is_nil a && is_nil b.
Proof. by destruct a. Qed.
Lemma tr_verify_commands cfg checkout revision commands : forall fresh t,
  tr (verify_commands s ctx cfg checkout revision fresh commands) t (fun r t' ds => same_work t t' /\ calm_deeds ds
    /\ forall errors, r = Ok errors ->
       exists runs, Task_Verification t' = Task_Verification t ++ runs /\ ran commands revision (is_nil errors) runs).
Proof.
  induction commands as [|command commands IH]; intros fresh t; cbn [verify_commands].
  { apply tr_ret. split_and!; [done|constructor|]. intros errors [= <-]. exists []. by rewrite app_nil_r. }
  apply tr_bind. eapply tr_mono; [apply tr_verify_command|]. intros [errors|err] t1 d1 (S1 & D1 & V1); [|done].
  destruct (V1 errors eq_refl) as (r1 & E1 & R1). apply tr_bind. eapply tr_mono; [apply IH|].
  intros [more|err] t2 d2 (S2 & D2 & V2); [|by split_and!; [etrans|apply Forall_app_2|]].
  destruct (V2 more eq_refl) as (r2 & E2 & R2). apply tr_ret. rewrite app_nil_r.
  split_and!; [by etrans|by apply Forall_app_2|]. intros all [= <-]. exists (r1 ++ r2). rewrite E2, E1, app_assoc, is_nil_app.
  split; [done|]. by apply (ran_app [command]).
Qed.
(** A verification without failures passed every command at the revision. *)
Lemma tr_verifyRevision revision t :
  tr (verifyRevision s ctx revision) t (fun r t' ds => same_work t t' /\ calm_deeds ds
    /\ (r = Ok [] -> verified t' revision)).
Proof.
  unfold verifyRevision. apply tr_bind, tr_task, tr_bind, tr_transition;
    [set_solver| |intros err; split_and!; [done|constructor|done]].
  intros c T. pose proof (touched_same _ _ T) as Sc. assert (same_work t c) as S0 by (etrans; [|exact Sc]; done).
  apply tr_bind, (calm_tr _ _ _ (calm_ensureWorkspaceAt _ _ _)).
  intros [[]|err] t1 d1 S1 D1; [|split_and!; [by etrans|by constructor|done]].
  apply tr_bind, (calm_tr _ _ _ (calm_verificationCheckout _ _ _)).
  intros [checkout|err] t2 d2 S2 D2; [|split_and!; [by do 2 (etrans; [done|])|constructor; [done|by apply Forall_app_2]|done]].
  apply tr_defer. eapply tr_mono; [apply tr_verify_commands|]. intros r t3 d3 (S3 & D3 & V).
  apply tr_discard. intros r4 d4 D4.
  assert (same_work t t3) as St by (do 3 (etrans; [done|]); done).
  assert (calm_deeds ([Saved c] ++ d1 ++ d2 ++ d3 ++ d4)) as Ds by (constructor; [done|]; by repeat apply Forall_app_2).
  split; [|done]. split_and!; [done..|]. intros ->. destruct (V [] eq_refl) as (runs & E & R1 & R2).
  exists (Task_Verification t2), runs. split; [done|]. split; [|eapply Forall_impl; [exact R2|]; intros v [O Rv]; by split; [apply O|]].
  by rewrite R1, (same_config _ _ St), (same_ExecutionConfig_commands t).
Qed.

(** ** Publication *)

Lemma ReviewAuthorizes_same t t' revision :
  Task_Reviews t' = Task_Reviews t -> Task_Config t' = Task_Config t -> Task_Proposal t' = Task_Proposal t ->
  Task_ComparisonBase t' = Task_ComparisonBase t -> Task_Sessions t' = Task_Sessions t ->
  ReviewAuthorizes t' revision = ReviewAuthorizes t revision.
Proof. intros R C P B S. unfold ReviewAuthorizes. by rewrite R, C, P, B, S. Qed.
Lemma verified_same t t' revision :
  Task_Verification t' = Task_Verification t -> Task_Config t' = Task_Config t -> verified t revision -> verified t' revision.
Proof. intros V C (before & runs & E & R). exists before, runs. by rewrite V, C. Qed.

(** The checkpoint that authorizes a publication saves what has earned it. *)
Lemma tr_authorize fresh revision footprint footprintErr t (Q : result unit failure -> Task -> list deed -> Prop) :
  (fresh = true -> verified t revision) ->
  (forall c, same_work t c -> earned fresh c -> Q (Ok tt) c [Saved c]) ->
  (forall err t' ds, calm_deeds ds -> Q (Err err) t' ds) ->
  tr (authorize_publication s live_config ctx revision footprint footprintErr) t Q.
Proof.
  intros V Sv F. assert (calm_deeds []) as D0 by constructor.
  unfold authorize_publication. apply tr_bind, tr_gate, tr_bind, tr_ask. intros [[err|]|err]; [by apply tr_fail, F| |by apply F].
  apply tr_bind, tr_task, tr_bind, tr_app. intros [live|err] a a' _; [|by apply F].
  destruct (_ || _); [by apply tr_fail, F|]. apply tr_bind.
  assert (tr (if maintenance_mode (Task_Config t) then footprint_event s t footprintErr else m_ret tt) t
    (fun r t' ds => t' = t /\ ds = [])) as Ev.
  { destruct (maintenance_mode _); [|by apply tr_ret]. destruct footprintErr; [by apply tr_app|by apply tr_ret]. }
  eapply tr_mono; [exact Ev|]. intros [[]|err] ? ? [-> ->]; [|by apply F].
  destruct (ReviewAuthorizes t revision) eqn:Ra; cbn [negb]; [|by apply tr_fail, F].
  apply tr_bind. unfold commit_locked. apply tr_bind, tr_app. intros [c|err] b b' E; [|by apply F].
  apply commitWorkerTaskLocked_saves in E; [|done]. destruct E as [now ->]. apply tr_bind, tr_set, tr_do, tr_bind, tr_task, tr_app.
  set (c := _ <| Task_UpdatedAt := now |>). intros [[]|err] e e' _; [|by apply F; repeat constructor].
  assert (Task_Config c = Task_Config t /\ Task_AttemptPolicy c = Task_AttemptPolicy t /\ Task_RepairRounds c = Task_RepairRounds t
    /\ Task_Reviews c = Task_Reviews t /\ Task_Proposal c = Task_Proposal t /\ Task_ComparisonBase c = Task_ComparisonBase t
    /\ Task_Sessions c = Task_Sessions t /\ Task_Verification c = Task_Verification t
    /\ Task_OutputCommit c = Some revision /\ Task_Status c = StatusPublishing) as (E1 & E2 & E3 & E4 & E5 & Eb & Es & E6 & E7 & E8)
    by (unfold c; by destruct (maintenance_mode _)).
  apply Sv; [by split|]. exists revision. split_and!; [done|done|by rewrite (ReviewAuthorizes_same t c)|].
  intros Fr. apply (verified_same t c); auto.
Qed.
Lemma tr_frozen revision t (Q : result (option MaintenanceFootprint * option error) failure -> Task -> list deed -> Prop) :
  (forall r, Q r t []) -> tr (frozen_footprint revision) t Q.
Proof.
  intros R. unfold frozen_footprint. apply tr_bind, tr_task. destruct (negb _); [by apply tr_ret|].
  destruct (Task_MaintenanceFootprint t); [destruct (_ && _); [by apply tr_ret|]|];
    (apply tr_bind, tr_ask; intros [frozen|err]; [by apply tr_ret|apply R]).
Qed.
Lemma lw_publishReviewed fresh revision t t0 :
  (fresh = true -> verified t revision) ->
  tr (publishReviewed s live_config Fingerprint ctx revision) t (lw fresh 0 (fun _ _ => True) t0).
Proof.
  intros V. unfold publishReviewed. apply tr_bind, tr_frozen. intros [footprint|err]; [|by split; [apply lawful_calm; constructor|]].
  apply tr_bind, (tr_authorize fresh); [done| |by intros err t' ds D; (split; [apply lawful_calm|])].
  intros c _ Ec. assert (forall rest, calm_deeds rest -> lawful fresh 0 (Saved c :: Published c :: rest)) as L.
  { intros rest D. split; [|by apply (lawful_calm fresh 0) in D as [_ P]]. split; [done|]. split; [by split|].
    by apply ordered_weaken, (lawful_calm fresh 0). }
  assert (calm_deeds []) as D0 by constructor. pose proof (L _ D0) as L0.
  apply tr_bind, tr_task, tr_bind, tr_bind, tr_ask. intros [r|err]; [|by split]. apply tr_lift.
  destruct r as [p|err]; [|by split]. apply tr_bind, tr_gate, tr_bind, tr_app. intros [t1|err] a a' _; [|by split].
  apply tr_bind, tr_set, tr_do. split; [|done]. by apply L; repeat constructor.
Qed.

(** ** The rounds *)

Lemma lw_reviewRevision fresh revision t t0 :
  same_work t0 t -> tr (reviewRevision s ctx dataDir checkoutStorage revision) t (lw fresh 0 same_work t0).
Proof.
  intros S0. unfold reviewRevision. apply lw_bind; [apply calm_task|]. intros x t1 S1.
  apply lw_bind; [apply calm_transition; set_solver|]. intros _ t2 S2. destruct (Config_Roles _ !! _) as [route|]; [|apply lw_fail].
  apply lw_bind; [apply calm_task|]. intros y t3 S3. apply lw_bind; [by apply calm_ask; constructor|]. intros diff t4 S4.
  apply lw_bind; [apply calm_lift|]. intros trusted t5 S5.
  eapply lw_then; [refine (lw_invoke s ctx dataDir checkoutStorage _ same_work fresh t5 _ _ _); [|by intros ? ?]|].
  - intros judge [= <-] thread answer. apply calm_judge_review.
  - intros reviewed t6 S6. apply lw_calm; [apply _|apply calm_ret|]. by do 6 (etrans; [done|]).
Qed.
Lemma tr_judge_round fresh cfg t :
  tr (judge_round s ctx dataDir checkoutStorage cfg) t (fun r t' ds => lw fresh 0 same_work t r t' ds
    /\ forall revision review, r = Ok (revision, review, Some []) -> verified t' revision).
Proof.
  unfold judge_round. apply tr_bind, (calm_tr _ _ _ (calm_snapshot _)). intros [revision|err] t1 d1 S1 D1;
    [|by split; [split; [apply lawful_calm|]|]].
  apply tr_bind. eapply tr_mono; [by apply (lw_reviewRevision fresh _ _ t)|]. intros [review|err] t2 d2 [L2 S2];
    [|by split; [split; [apply lawful_calm_app|]|]].
  specialize (S2 eq_refl). apply tr_bind, tr_task, tr_bind.
  assert (calm (if Review_Clean review then go! round <- last_round t2 in m_ret (isNone (disqualified round)) else m_ret false)) as Cq
    by (destruct (Review_Clean review); calm_go).
  apply (calm_tr _ _ _ Cq). clear Cq. intros [qualified|err] t3 d3 S3 D3; cbn [app].
  - assert (lawful fresh 0 (d1 ++ d2 ++ d3)) as L3 by (apply lawful_calm_app; [done|]; apply lawful_app; [done|by apply lawful_calm]).
    destruct qualified; [|apply tr_ret; rewrite app_nil_r; split; [split; [done|]; intros _; by etrans|done]].
    apply tr_bind. eapply tr_mono; [apply tr_verifyRevision|]. intros r t4 d4 (S4 & D4 & V4).
    assert (lawful fresh 0 (d1 ++ d2 ++ d3 ++ d4)) as L4.
    { rewrite !app_assoc. rewrite app_assoc in L3. apply lawful_app; [done|by apply lawful_calm]. }
    destruct r as [errors|err]; [apply tr_ret; rewrite app_nil_r|by split].
    split; [split; [done|]; intros _; by do 2 (etrans; [done|])|]. intros rev rw [= <- _ ->]. by apply V4.
  - split; [|done]. split; [|done]. apply lawful_calm_app; [done|]. apply lawful_app; [done|by apply lawful_calm].
Qed.

(** One more completed repair. *)
Definition one_more (t t' : Task) : Prop :=
  Task_Config t' = Task_Config t /\ Task_AttemptPolicy t' = Task_AttemptPolicy t
  /\ exists n, Task_RepairRounds t = Some n /\ Task_RepairRounds t' = Some (u64_add n 1).
#[local] Instance one_more_coarse : Coarse one_more.
Proof.
  split.
  - intros a b c [C1 P1 R1] (C2 & P2 & n & N1 & N2). split_and!; [congruence..|]. exists n. by rewrite <- R1.
  - intros a b c (C2 & P2 & n & N1 & N2) [C1 P1 R1]. split_and!; [congruence..|]. exists n. by rewrite R1.
Qed.
Lemma completes_repair t : tr repair_completed t (fun r t' ds => calm_deeds ds /\ (r = Ok tt -> one_more t t')).
Proof.
  assert (calm_deeds []) as D0 by constructor. unfold repair_completed. apply tr_bind, tr_task.
  destruct (Task_RepairRounds t) as [n|] eqn:N; [|by apply tr_fail].
  destruct (last (Task_Reviews t)); [|by apply tr_fail]. apply tr_set. split; [done|]. intros _. split_and!; try done. by exists n.
Qed.
Lemma lw_repair fresh review errors t t0 :
  same_work t0 t -> tr (repair s ctx dataDir checkoutStorage review errors) t (lw fresh 0 one_more t0).
Proof.
  intros S0. unfold repair. apply lw_bind; [apply calm_task|]. intros x t1 S1.
  apply lw_bind; [apply calm_transition; set_solver|]. intros _ t2 S2. destruct (findings_json _); [|apply lw_fail].
  apply lw_bind; [apply calm_task|]. intros y t3 S3.
  eapply lw_then; [refine (lw_invoke s ctx dataDir checkoutStorage _ one_more fresh t3 _ _ _); [done|exact completes_repair]|].
  intros reviewed t4 S4. apply lw_calm; [apply _|apply calm_ret|]. eapply coarse_l; [|exact S4]. by do 4 (etrans; [done|]).
Qed.
(** A repair that is paid for: below the budget, and one more. *)
Definition spends (cfg : Config) (t t' : Task) : Prop :=
  one_more t t' /\ forall n, Task_RepairRounds t = Some n -> n < Config_MaxRepairRounds cfg.
Lemma tr_repair_round fresh cfg revision review errors t :
  tr (repair_round s ctx dataDir checkoutStorage cfg revision review errors) t (lw fresh 0 (spends cfg) t).
Proof.
  unfold repair_round. apply tr_bind, tr_task. destruct (Task_RepairRounds t) as [n|] eqn:N; [|apply lw_fail].
  destruct (_ <=? n) eqn:Lt; [apply lw_fail|]. apply N.leb_gt in Lt.
  eapply tr_mono.
  - apply (lw_bind fresh one_more _ _ 0 t t (calm_account cfg revision)). intros _ t1 S1.
    apply lw_bind; [apply calm_task|]. intros x t2 S2. apply lw_bind; [apply calm_last_round|]. intros round t3 S3.
    apply lw_repair. by do 2 (etrans; [done|]).
  - intros r t' ds [L R]. split; [done|]. intros Ok'. split; [by apply R|]. intros m Em. congruence.
Qed.
Lemma tr_execute_round fresh cfg t :
  tr (execute_round s live_config Fingerprint ctx dataDir checkoutStorage cfg) t (fun r t' ds =>
    lawful fresh 0 ds /\ (r = Ok false -> spends cfg t t')).
Proof.
  unfold execute_round. apply tr_bind. eapply tr_mono; [apply (tr_judge_round fresh)|].
  intros [[[revision review] errors]|err] t1 d1 [[L1 S1] V1]; [|done]. specialize (S1 eq_refl).
  assert (forall errors, tr (go! _ <- repair_round s ctx dataDir checkoutStorage cfg revision review errors in m_ret false) t1
    (fun r t2 d2 => lawful fresh 0 (d1 ++ d2) /\ (r = Ok false -> spends cfg t t2))) as Rep.
  { intros es. apply tr_bind. eapply tr_mono; [apply (tr_repair_round fresh)|]. intros [[]|err] t2 d2 [L2 R2].
    - apply tr_ret. rewrite app_nil_r. split; [by apply lawful_app|]. intros _. destruct (R2 eq_refl) as [O B].
      split; [by eapply coarse_l|]. intros n N. apply B. by rewrite (same_rounds _ _ S1).
    - split; [by apply lawful_app|done]. }
  destruct errors as [[|e es]|]; [|apply Rep..]. apply tr_bind, tr_task, tr_bind. unfold requireDefaultRevision.
  apply tr_bind, tr_bind, tr_ask. intros [def|err]; [|by rewrite ?app_nil_r]. apply tr_lift.
  destruct def as [def|err]; [|by rewrite ?app_nil_r]. cbn [lift]. destruct (bool_decide _); [|apply tr_fail; by rewrite ?app_nil_r].
  apply tr_ret, tr_bind. eapply tr_mono; [apply (lw_publishReviewed fresh _ _ t); intros _; by eapply V1|].
  intros [[]|err] t2 d2 [L2 _]; [apply tr_ret|]; (split; [|done]); rewrite ?app_nil_l, ?app_nil_r; by apply lawful_app.
Qed.

(** ** The execution *)

Definition any_work (_ _ : Task) : Prop := True.
Lemma lw_runExecutor fresh reserved t :
  tr (runExecutor s ctx dataDir checkoutStorage reserved) t (lw fresh (if reserved then 1 else 0) same_work t).
Proof.
  unfold runExecutor. apply lw_bind; [apply calm_task|]. intros x t1 S1.
  destruct (existsb _ _); [by apply lw_calm; [apply _|apply calm_ret|]|].
  apply tr_bind. eapply tr_mono; [refine (lw_invoke s ctx dataDir checkoutStorage _ same_work fresh t1 _ _ _); [done|by intros ? ?]|].
  intros [y|err] t2 d2 [L2 S2]; [apply tr_ret; rewrite app_nil_r|by split]. split; [done|]. intros _. etrans; [exact S1|by apply S2].
Qed.
Lemma tr_execute_loop fresh fuel cfg : forall t,
  tr (execute_loop s live_config Fingerprint ctx dataDir checkoutStorage fuel cfg) t (lw fresh 0 any_work t).
Proof.
  induction fuel as [|fuel IH]; intros t; cbn [execute_loop]; [apply lw_fail|].
  apply tr_bind. eapply tr_mono; [apply (tr_execute_round fresh)|]. intros [[]|err] t1 d1 [L1 _]; [| |by split].
  - apply tr_ret. rewrite app_nil_r. by split.
  - eapply tr_mono; [apply IH|]. intros r t2 d2 [L2 _]. split; [by apply lawful_app|done].
Qed.
(** Once the session of a first execution is reserved, if it is one. *)
Lemma lw_after_initialize fresh fuel cfg reserved t t0 :
  tr (execute_reserved s live_config Fingerprint ctx dataDir checkoutStorage fuel cfg reserved) t
    (lw fresh (if reserved then 1 else 0) any_work t0).
Proof.
  unfold execute_reserved. apply lw_bind; [apply calm_task|]. intros x t1 S1. apply lw_bind; [apply calm_gitDir|]. intros _ t2 S2.
  destruct (bool_decide _); [apply lw_fail|]. eapply lw_then; [apply lw_runExecutor|]. intros _ t3 S3.
  eapply tr_mono; [apply (tr_execute_loop fresh)|]. intros r t4 d4 [L4 _]. by split.
Qed.
Lemma tr_execute fuel t :
  tr (execute s live_config Fingerprint ctx dataDir checkoutStorage fuel) t
    (lw (isNone (Task_OutputCommit t)) 0 any_work t).
Proof.
  set (fresh := isNone (Task_OutputCommit t)). assert (calm_deeds []) as D0 by constructor.
  unfold execute. apply tr_bind, tr_task, tr_bind, tr_set, tr_bind, tr_commit;
    [done| |intros err; split; [by apply lawful_calm; repeat constructor|done]].
  intros c [now Ec]. apply tr_bind, tr_task.
  assert (Task_OutputCommit c = Task_OutputCommit t) as Oc by (rewrite Ec; simpl; unfold begin_execution; simpl; by destruct (Task_RepairRounds t)).
  assert (forall r t2 d2, lw fresh 0 any_work t r t2 d2 -> lw fresh 0 any_work t (A := unit) r t2 ([] ++ [] ++ [Saved c] ++ [] ++ d2)) as Fin.
  { intros r t2 d2 [L _]. split; [|done]. apply (lawful_calm_app _ _ [Saved c]); [by repeat constructor|done]. }
  destruct (Task_OutputCommit c) as [commit|] eqn:E.
  { eapply tr_mono; [apply (lw_publishReviewed fresh)|exact Fin]. unfold fresh. by rewrite <- Oc. }
  eapply tr_mono; [|exact Fin]. apply lw_bind; [apply calm_retryPreflight|]. intros _ t1 S1.
  apply tr_defer. eapply tr_mono.
  - unfold execute_with_runners. apply (lw_bind fresh any_work _ _ 0 t1 t); [by apply calm_ask; constructor|].
    intros [|err] t2 S2; [|apply lw_fail]. apply lw_bind; [apply calm_task|]. intros y t3 S3.
    destruct (isNone (Task_ExecutionSession y)).
    + apply lw_initialize. intros t4 S4. apply (lw_after_initialize fresh _ _ true).
    + apply lw_bind; [apply calm_ret|]. intros _ t4 S4. apply (lw_after_initialize fresh _ _ false).
  - intros r t4 d4 [L4 _]. apply tr_bind, tr_ask. intros [x2|err]; [apply tr_ret|];
      (split; [|intros err']; (split; [rewrite ?app_nil_r; cbn [deed_of]; rewrite ?app_nil_r; exact L4|done])).
Qed.

(** C1: what a worker does, it does in order.  Whatever git, the runners, the
    sandbox and the rest of the service answer and do: a turn of an agent
    directly follows the checkpoint that saved its session as running; a
    publication directly follows the checkpoint that saved the task as
    publishing at its output commit with an authorizing review of exactly that
    commit; and unless the execution started with an authorized commit, the
    last run of every verification command of the task passed at it. *)
Theorem execution_in_order fuel t a asked :
  let start := mkWorker t a asked [] in
  ordered (isNone (Task_OutputCommit t)) None
    (wk_deeds (snd (execute s live_config Fingerprint ctx dataDir checkoutStorage fuel start))).
Proof.
  intros start. pose proof (tr_execute fuel t start eq_refl) as T. unfold wp in T.
  destruct (execute _ _ _ _ _ _ fuel start) as [r w]. destruct T as (ds & E & [O _] & _). by rewrite E.
Qed.

(** C19: no agent works for free.  Whatever happens, the worker of a task has
    reserved a session from the budget for each turn it began, before it began
    it; a reserved session pays for one turn. *)
Theorem turns_are_paid fuel t a asked :
  let start := mkWorker t a asked [] in
  paid 0 (wk_deeds (snd (execute s live_config Fingerprint ctx dataDir checkoutStorage fuel start))).
Proof.
  intros start. pose proof (tr_execute fuel t start eq_refl) as T. unfold wp in T.
  destruct (execute _ _ _ _ _ _ fuel start) as [r w]. destruct T as (ds & E & [_ P] & _). by rewrite E.
Qed.

(** ** Termination *)

Lemma bind_agree {A B} (m : W A) (k k' : A -> W B) (P : Task -> Prop) w :
  tr m (wk_task w) (fun r t' _ => is_ok r = true -> P t') ->
  (forall x w1, P (wk_task w1) -> k x w1 = k' x w1) -> m_bind m k w = m_bind m k' w.
Proof.
  intros T K. specialize (T w eq_refl). unfold wp in T. unfold m_bind. destruct (m w) as [[x|err] w1]; [|done].
  destruct T as (ds & _ & R). apply K. by apply R.
Qed.
(** The rounds left fit the fuel. *)
Definition fits (cfg : Config) (fuel : nat) (t : Task) : Prop :=
  exists n, Task_RepairRounds t = Some n /\ (N.to_nat (Config_MaxRepairRounds cfg - n) < fuel)%nat.
Lemma execute_loop_agree cfg fuel : forall fuel' w,
  Config_MaxRepairRounds cfg < two64 -> fits cfg fuel (wk_task w) -> fits cfg fuel' (wk_task w) ->
  execute_loop s live_config Fingerprint ctx dataDir checkoutStorage fuel cfg w
  = execute_loop s live_config Fingerprint ctx dataDir checkoutStorage fuel' cfg w.
Proof.
  induction fuel as [|fuel IH]; intros fuel' w Max (n & N & F) (n' & N' & F'); [lia|].
  assert (n' = n) as -> by congruence. destruct fuel' as [|fuel']; [lia|]. cbn [execute_loop]. unfold m_bind.
  pose proof (tr_execute_round true cfg (wk_task w) w eq_refl) as T. unfold wp in T.
  destruct (execute_round _ _ _ _ _ _ cfg w) as [[[]|err] w1]; [done| |done].
  destruct T as (ds & _ & _ & Sp). destruct (Sp eq_refl) as [(_ & _ & m & M & M1) Lt]. specialize (Lt m M).
  assert (m = n) as -> by congruence. rewrite u64_add_small in M1 by lia.
  apply IH; [done|..]; (exists (n + 1); split; [exact M1|lia]).
Qed.
Definition counted (t : Task) : Prop := isSome (Task_RepairRounds t) = true.
Lemma counted_fits cfg fuel t : (N.to_nat (Config_MaxRepairRounds cfg) < fuel)%nat -> counted t -> fits cfg fuel t.
Proof. unfold counted. intros L C. destruct (Task_RepairRounds t) as [n|] eqn:E; [|done]. exists n. split; [done|lia]. Qed.
Lemma counted_same t t' : same_work t t' -> counted t -> counted t'.
Proof. intros [_ _ R]. unfold counted. by rewrite R. Qed.
Lemma calm_agree {A B} (m : W A) (k k' : A -> W B) w :
  calm m -> counted (wk_task w) -> (forall x w1, counted (wk_task w1) -> k x w1 = k' x w1) -> m_bind m k w = m_bind m k' w.
Proof.
  intros Cm Cw K. apply (bind_agree _ _ _ counted); [|done]. apply (calm_tr _ _ _ Cm). intros r t' ds S _ _. by eapply counted_same.
Qed.
Lemma calm_initialize : calm (initializeTask s ctx dataDir checkoutStorage).
Proof.
  unfold initializeTask. apply calm_bind; [apply calm_task|]. intros t. apply calm_bind; [apply calm_prepare|]. intros _.
  apply calm_bind; [apply calm_task|]. intros t1. apply calm_bind; [apply calm_admit|]. intros _.
  apply calm_bind; [apply calm_task|]. intros t2. destruct (bool_decide _); [apply calm_clone|apply calm_checkWorkspace].
Qed.

(** C20: an execution ends within its repair budget.  Any fuel above the
    configured number of repair rounds gives the same run, so the loop never
    depends on it: every round that does not end the execution has completed
    one more repair, and none starts at the limit. *)
Theorem execute_ends fuel w :
  Config_MaxRepairRounds (ExecutionConfig (wk_task w)) < two64 ->
  (N.to_nat (Config_MaxRepairRounds (ExecutionConfig (wk_task w))) < fuel)%nat ->
  execute s live_config Fingerprint ctx dataDir checkoutStorage fuel w
  = execute s live_config Fingerprint ctx dataDir checkoutStorage
      (S (N.to_nat (Config_MaxRepairRounds (ExecutionConfig (wk_task w))))) w.
Proof.
  intros Max F. set (cfg := ExecutionConfig (wk_task w)) in *. set (fuel' := S _).
  assert (N.to_nat (Config_MaxRepairRounds cfg) < fuel')%nat as F' by (unfold fuel'; lia). clearbody fuel'.
  unfold execute. change (m_bind w_task ?k w) with (k (wk_task w) w). cbv beta zeta. fold cfg.
  apply (bind_agree _ _ _ counted).
  { apply tr_set. intros _. unfold counted, begin_execution. simpl. destruct (Task_RepairRounds (wk_task w)) eqn:E; [|done]. simpl. by rewrite E. }
  intros _ w1 C1. apply calm_agree; [apply calm_checkpoint|done|]. intros _ w2 C2.
  apply calm_agree; [apply calm_task|done|]. intros t w3 C3. destruct (Task_OutputCommit t); [done|].
  apply calm_agree; [apply calm_retryPreflight|done|]. intros _ w4 C4.
  unfold w_defer. replace (execute_with_runners _ _ _ _ _ _ fuel cfg w4)
    with (execute_with_runners s live_config Fingerprint ctx dataDir checkoutStorage fuel' cfg w4); [done|].
  unfold execute_with_runners. apply calm_agree; [by apply calm_ask; constructor|done|]. intros [|err] w5 C5; [|done].
  apply calm_agree; [apply calm_task|done|]. intros y w6 C6. cbv zeta.
  apply calm_agree; [destruct (isNone _); [apply calm_initialize|apply calm_ret]|done|]. intros _ w7 C7.
  unfold execute_reserved. apply calm_agree; [apply calm_task|done|]. intros z w8 C8.
  apply calm_agree; [apply calm_gitDir|done|]. intros _ w9 C9. destruct (bool_decide _); [done|].
  apply (bind_agree _ _ _ counted).
  { eapply tr_mono; [apply (lw_runExecutor true)|]. intros r t' ds [_ S9] Ok'. eapply counted_same; [by apply S9|done]. }
  intros _ w10 C10. apply execute_loop_agree; [done|by apply counted_fits..].
Qed.
End checks.

(** ** Witness *)

Lemma execute_ends_witness :
  run true 9 = run true (S (N.to_nat (Config_MaxRepairRounds (ExecutionConfig (wk_task started))))).
Proof.
  unfold run. apply (execute_ends (H0 := counting_world) (H1 := sample_outside true) sample_store (fun _ => sample_config)
    (fun _ => Ok "fp") (Some 0) "/var/lib/octomus" "" 9 started); vm_compute; [done|lia].
Defined.

