(* ===== verification/GitOps.v ===== *)
(** * Git as the service drives it
    ([internal/git/git.go], [remote.go], [clone.go], [internal/config/repo_env.go])

    The service runs [git] and [gh] as children and reads their output.  A
    program here asks the machine one thing after another, whose answers are
    any, and every request it makes is kept in order: what reaches the remote
    is what these requests say. *)
From S2P Require Import Prelude GoStrings Utf8 Runes WireJson Enums Types GoErrors Config Paths GoTime Model Redact Strconv Broker Footprint.
Local Open Scope string_scope.
Local Open Scope list_scope.
Local Open Scope N_scope.

(** ** Requests and answers *)

(** What is asked of the machine: a child's trimmed machine output
    ([process.RunMachine], [RunPredicate]), files, the gate of a checkout, the
    context and the clock. *)
Inductive call : Type -> Type :=
| RunMachine (binary : string) (args : list string) (cwd : string) (seconds : N) (env : list string) : call (result string error)
| RunPredicate (binary : string) (args : list string) (cwd : string) (seconds : N) (falseCodes : list N) (env : list string)
    : call (result bool error)
| RunText (binary : string) (args : list string) (cwd : string) (seconds : N) (env : list string) (limit : Z)
    : call (result (string * bool) error)
| TrustedGitDir (workTree : string) : call (result string error)
| Lstat (path : string) : call (option error)
| MkdirAll (path : string) (mode : N) : call (option error)
| Mkdir (path : string) (mode : N) : call (option error)
| MkdirTemp (pattern : string) : call (result string error)
| RemoveAll (path : string) : call unit
| ReadFile (path : string) : call (result string error)
| WriteFile (path content : string) (mode : N) : call (option error)
| AcquireCheckout (repository : string) (write : bool) : call (option error)
| ReleaseCheckout (repository : string) (write : bool) : call unit
| CtxErr : call (option error)
| NowText : call string.
Definition sent : Type := { A : Type & call A }.
Definition request {A} (q : call A) : sent := existT A q.

Class Machine := {
  reply : forall A, nat -> call A -> A;
  (** [os.LookupEnv], and the whole environment. *)
  LookupEnv : string -> option string;
  environment : list string;
  (** [errors.Is(err, fs.ErrNotExist)]. *)
  NotExist : error -> bool;
  ToUpper : string -> string;
}.

Record Git_ := mkGit { git_asked : nat; git_sent : list sent }.
#[export] Instance eta_Git : Eta Git_ := fun r => mkGit (git_asked r) (git_sent r).
(** A program that talks to the machine. *)
Definition G (A : Type) : Type := Git_ -> result A error * Git_.
Definition g_ret {A} (x : A) : G A := fun g => (Ok x, g).
Definition g_fail {A} (err : error) : G A := fun g => (Err err, g).
Definition g_bind {A B} (m : G A) (k : A -> G B) : G B :=
  fun g => match m g with (Ok x, g') => k x g' | (Err err, g') => (Err err, g') end.
Definition g_try {A} (m : G A) : G (result A error) := fun g => let '(r, g') := m g in (Ok r, g').
Definition g_lift {A} (r : result A error) : G A := fun g => (r, g).
Notation "'git!' x <- m 'in' k" := (g_bind m (fun x => k))
  (at level 10, x pattern, m at level 100, k at level 200) : go_scope.

Section git.
Context `{Machine} `{Printable}.

Definition g_ask {A} (q : call A) : G A := fun g =>
  (Ok (reply A (git_asked g) q), g <| git_asked := S (git_asked g) |> <| git_sent := git_sent g ++ [request q] |>).
(** A call that may fail, and one that answers its error only. *)
Definition g_call {A} (q : call (result A error)) : G A := git! r <- g_ask q in g_lift r.
Definition g_do (q : call (option error)) : G unit :=
  git! err <- g_ask q in match err with Some err => g_fail err | None => g_ret tt end.

(** ** Credentials of a repository ([config/repo_env.go]) *)

Definition gitHubTokenPrefix := "OCTOMUS_GITHUB_TOKEN__".
Definition mergeTokenPrefix := "OCTOMUS_MERGE_TOKEN__".
Definition mergeRulesetPrefix := "OCTOMUS_MERGE_RULESET_ID__".
Definition GitHubTokensDirEnv := "OCTOMUS_GITHUB_TOKENS_DIR".
Definition MergeTokenEnv := "OCTOMUS_MERGE_TOKEN".
Definition MergeRulesetEnv := "OCTOMUS_MERGE_RULESET_ID".
Definition upperhex (d : N) : ascii := if d <? 10 then ascii_of_N (48 + d) else ascii_of_N (55 + d).
Definition suffix_byte (b : ascii) : list ascii :=
  let n := N_of_ascii b in
  if in_range 65 90 n || in_range 48 57 n then [b]
  else ["_"%char; upperhex (N.shiftr n 4); upperhex (N.land n 15)].
Definition RepoEnvSuffix (repo : string) : string := str (flat_map suffix_byte (chars (ToUpper repo))).
Definition RepoGitHubTokenEnv (repo : string) : string := gitHubTokenPrefix +:+ RepoEnvSuffix repo.
Definition RepoMergeTokenEnv (repo : string) : string := mergeTokenPrefix +:+ RepoEnvSuffix repo.
Definition RepoMergeRulesetEnv (repo : string) : string := mergeRulesetPrefix +:+ RepoEnvSuffix repo.
Definition IsPerRepoSecretEnv (key : string) : bool :=
  HasPrefix key gitHubTokenPrefix || HasPrefix key mergeTokenPrefix || HasPrefix key mergeRulesetPrefix
  || bool_decide (key = GitHubTokensDirEnv).
(** [envValue]: the value, if it is not blank. *)
Definition envValue (name : string) : option string :=
  match LookupEnv name with Some value => if blank value then None else Some value | None => None end.
Definition GitHubTokenFor (repo : string) : option string :=
  match (if bool_decide (repo = "") then None else envValue (RepoGitHubTokenEnv repo)) with
  | Some value => Some value
  | None => envValue "GH_TOKEN"
  end.
Definition HasOwnGitHubToken (repo : string) : bool :=
  negb (bool_decide (repo = "")) && isSome (envValue (RepoGitHubTokenEnv repo)).
(** The value, blank or not, and the variable that holds it. *)
Definition resolved (own fallback repo : string) : string * string :=
  match (if bool_decide (repo = "") then None else envValue own) with
  | Some value => (value, own)
  | None => (default "" (LookupEnv fallback), fallback)
  end.
Definition MergeTokenFor (repo : string) : string * string := resolved (RepoMergeTokenEnv repo) MergeTokenEnv repo.
Definition MergeRulesetFor (repo : string) : string * string := resolved (RepoMergeRulesetEnv repo) MergeRulesetEnv repo.

(** ** Children ([git.go], [github.go]) *)

Definition git_blocked (reason : BlockedReason) (message : string) : error :=
  Errorf "%s: %w" [VStr message; VWrap (Reason reason)].
Definition reasoned (reason : BlockedReason) (message : string) (err : error) : error :=
  Errorf "%s: %w: %w" [VStr message; VWrap (Reason reason); VWrap err].

(** [os.DevNull] is [/dev/null]. *)
Definition isolatedConfig : list string :=
  ["GIT_CONFIG_NOSYSTEM=1"; "GIT_CONFIG_GLOBAL=/dev/null"; "GIT_CONFIG_COUNT=0"; "GIT_CONFIG_PARAMETERS="].
Definition hardened : list string :=
  ["-c"; "core.hooksPath=/dev/null"; "-c"; "core.fsmonitor=false"; "-c"; "core.untrackedCache=false";
   "-c"; "submodule.recurse=false"; "-c"; "diff.ignoreSubmodules=all"; "-c"; "status.submoduleSummary=false"].
Definition repoTokenEnv (c : Config) : list string :=
  match GitHubTokenFor (Config_GitHubRepo c) with Some token => ["GH_TOKEN=" +:+ token] | None => [] end.
Definition git (c : Config) (cwd : string) (args env : list string) : G string :=
  git! out <- g_call (RunMachine "git" args cwd (Config_CommandTimeoutSeconds c) env) in
  g_ret (TrimSpace out).
Definition Git (c : Config) (cwd : string) (args : list string) : G string := git c cwd args isolatedConfig.
Definition remoteGit (c : Config) (cwd : string) (args : list string) : G string := git c cwd args (repoTokenEnv c).
Definition gh (c : Config) (args : list string) : G string :=
  g_call (RunMachine "gh" args (Config_Repository c) (Config_CommandTimeoutSeconds c)
            (repoTokenEnv c ++ ["GH_HOST=github.com"])).

Definition metadataArgs (workTree tree : string) (args : list string) : G (list string) :=
  git! gitDir <- g_ask (TrustedGitDir workTree) in
  match gitDir with
  | Err err => g_fail (reasoned BlockedWorkspaceInvalid "Workspace git metadata is unavailable" err)
  | Ok gitDir => g_ret (["--git-dir=" +:+ gitDir; "--work-tree=" +:+ tree] ++ hardened ++ args)
  end.
Definition treeArgs (workTree : string) (args : list string) : G (list string) := metadataArgs workTree workTree args.
Definition WorkGit (c : Config) (workTree : string) (args : list string) : G string :=
  git! full <- treeArgs workTree args in Git c workTree full.
Definition pushGit (c : Config) (workTree : string) (args : list string) : G string :=
  git! full <- treeArgs workTree args in remoteGit c workTree full.
(** [DiffText]: from an empty directory with an empty index. *)
Definition DiffText (c : Config) (workTree : string) (args : list string) (limit : Z) : G (string * bool) :=
  git! scratch <- g_call (MkdirTemp "octomus-diff-") in
  let empty := JoinPath [scratch; "tree"] in
  git! r <- g_try (
    git! _ <- g_do (Mkdir empty 448) in
    git! full <- metadataArgs workTree empty
      ["-c"; "core.quotePath=true"; "diff"; "--no-color"; "--no-ext-diff"; "--no-textconv"; "--text";
       "--ignore-submodules=none"; "--submodule=short"; "--no-renames"] in
    g_call (RunText "git" (full ++ args) empty (Config_CommandTimeoutSeconds c)
              (isolatedConfig ++ ["GIT_INDEX_FILE=" +:+ JoinPath [scratch; "index"]]) limit)) in
  git! _ <- g_ask (RemoveAll scratch) in
  g_lift r.
Definition head (c : Config) (path : string) : G string := WorkGit c path ["rev-parse"; "HEAD"].
Definition clean (c : Config) (path : string) : G bool :=
  git! out <- WorkGit c path ["status"; "--porcelain"; "--ignore-submodules=all"] in
  g_ret (bool_decide (out = "")).
Definition At (c : Config) (path revision : string) : G bool :=
  git! isClean <- clean c path in
  if negb isClean then g_ret false else
  git! actual <- head c path in
  g_ret (bool_decide (actual = revision)).
Definition isAncestor (c : Config) (cwd : string) (args : list string) : G bool :=
  g_call (RunPredicate "git" args cwd (Config_CommandTimeoutSeconds c) [1] isolatedConfig).
Definition IsAncestor (c : Config) (cwd ancestor descendant : string) : G bool :=
  isAncestor c cwd ["merge-base"; "--is-ancestor"; ancestor; descendant].
Definition workIsAncestor (c : Config) (path ancestor descendant : string) : G bool :=
  git! args <- treeArgs path ["merge-base"; "--is-ancestor"; ancestor; descendant] in
  isAncestor c path args.

(** [withCheckout]: the gate of the trusted checkout is held around [fn]. *)
Definition withCheckout {A} (c : Config) (write : bool) (fn : G A) : G A :=
  let key := Clean (Config_Repository c) in
  git! _ <- g_do (AcquireCheckout key write) in
  git! r <- g_try fn in
  git! _ <- g_ask (ReleaseCheckout key write) in
  g_lift r.

(** ** The remote ([remote.go]) *)

Definition originURL (c : Config) (repo : string) : G string := Git c repo ["remote"; "get-url"; "origin"].
(** [for strings.HasSuffix(repo, ".git")]. *)
Fixpoint trim_git (fuel : nat) (repo : string) : string :=
  match fuel with
  | O => repo
  | S fuel => if HasSuffix repo ".git" then trim_git fuel (TrimSuffix repo ".git") else repo
  end.
Definition origin_repo (remote : string) : option string :=
  match CutPrefix remote "git@github.com:" with
  | (repo, true) => Some repo
  | _ => match CutPrefix remote "https://github.com/" with
         | (repo, true) => Some repo
         | _ => match CutPrefix remote "ssh://git@github.com/" with (repo, true) => Some repo | _ => None end
         end
  end.
(** The remote is the configured repository on GitHub. *)
Definition trusted_origin (c : Config) (remote : string) : bool :=
  match origin_repo remote with
  | Some repo => EqualASCII (trim_git (String.length repo) repo) (Config_GitHubRepo c)
  | None => false
  end.
Definition validatedOrigin (c : Config) : G string :=
  git! remote <- originURL c (Config_Repository c) in
  match origin_repo remote with
  | None => g_fail (New "Origin must use github.com via SSH or credential-free HTTPS")
  | Some repo =>
    if negb (EqualASCII (trim_git (String.length repo) repo) (Config_GitHubRepo c))
    then g_fail (New "Origin does not match configured GitHub repository") else
    git! signed <- g_try (gh c ["auth"; "status"; "--hostname"; "github.com"]) in
    match signed with
    (* [AuthError] reads as the error it wraps. *)
    | Err err => g_fail (Errorf "%w" [VWrap err])
    | Ok _ => g_ret remote
    end
  end.
Definition ValidateRemote (c : Config) : G unit := git! _ <- validatedOrigin c in g_ret tt.
Definition fetchArgs (args : list string) : list string :=
  ["-c"; "maintenance.autoDetach=false"; "-c"; "gc.autoDetach=false"] ++ args.
Definition Fetch (c : Config) : G unit :=
  withCheckout c true (
    git! _ <- remoteGit c (Config_Repository c) (fetchArgs ["fetch"; "--prune"; "origin"]) in g_ret tt).

Definition tab : ascii := ascii_of_N 9.
Definition branch_ref (branch : string) : string := "refs/heads/" +:+ branch.
(** The first line of [ls-remote] that names exactly the branch. *)
Fixpoint remote_line (want : string) (lines : list string) : option string :=
  match lines with
  | [] => None
  | line :: lines =>
    match Cut line tab with
    | (sha, ref, true) => if bool_decide (ref = want) then Some sha else remote_line want lines
    | _ => remote_line want lines
    end
  end.
Definition RemoteRevision (c : Config) (branch : string) : G (option string) :=
  if negb (ValidBranch branch) then g_fail (New "Invalid branch") else
  let want := branch_ref branch in
  git! out <- remoteGit c (Config_Repository c) ["ls-remote"; "--heads"; "origin"; want] in
  g_ret (remote_line want (Split out line_feed)).

(** [FetchForkHeads]: the heads of forks, bound to their advertised objects. *)
Definition forkHeadNamespace := "refs/octomus/pr/".
Fixpoint delete_refs (c : Config) (refs : list string) : G unit :=
  match refs with
  | [] => g_ret tt
  | ref :: refs => git! _ <- Git c (Config_Repository c) ["update-ref"; "-d"; ref] in delete_refs c refs
  end.
Definition pull_ref (n : N) : string := "refs/pull/" +:+ FormatUint n +:+ "/head".
(** [wanted]: the number a reference was asked for. *)
Definition wanted (numbers : list N) : gmap string N :=
  foldl (fun m n => <[pull_ref n := n]> m) ∅ numbers.
Fixpoint fork_heads (wanted : gmap string N) (lines : list string) (heads : gmap N string) : result (gmap N string) error :=
  match lines with
  | [] => Ok heads
  | line :: lines =>
    match Cut line tab with
    | (sha, ref, true) =>
      match wanted !! ref with
      | None => fork_heads wanted lines heads
      | Some n =>
        if negb (validObjectID sha)
        then Err (Errorf "Remote fork head %d returned an invalid object ID" [VNum n])
        else fork_heads wanted lines (<[n := sha]> heads)
      end
    | _ => fork_heads wanted lines heads
    end
  end.
(** The refspecs to fetch, and the numbers the remote no longer serves. *)
Fixpoint fork_refspecs (heads : gmap N string) (numbers : list N) : G (list string * list N) :=
  match numbers with
  | [] => g_ret ([], [])
  | n :: numbers =>
    git! _ <- g_do CtxErr in
    git! rest <- fork_refspecs heads numbers in
    g_ret match heads !! n with
          | None => (fst rest, n :: snd rest)
          | Some sha => (("+" +:+ sha +:+ ":" +:+ forkHeadNamespace +:+ FormatUint n) :: fst rest, snd rest)
          end
  end.
Definition replaceForkHeads (c : Config) (numbers : list N) : G (list N) :=
  git! stale <- Git c (Config_Repository c) ["for-each-ref"; "--format=%(refname)"; forkHeadNamespace] in
  git! _ <- delete_refs c (Fields stale) in
  match numbers with
  | [] => g_ret []
  | _ =>
    git! out <- remoteGit c (Config_Repository c) (["ls-remote"; "--refs"; "origin"] ++ map pull_ref numbers) in
    git! heads <- g_lift (fork_heads (wanted numbers) (Split out line_feed) ∅) in
    git! found <- fork_refspecs heads numbers in
    git! _ <- (if bool_decide (heads = ∅) then g_ret "" else
               remoteGit c (Config_Repository c)
                 (fetchArgs (["fetch"; "--no-tags"; "--no-write-fetch-head"; "origin"] ++ fst found))) in
    g_ret (snd found)
  end.
Definition FetchForkHeads (c : Config) (numbers : list N) : G (list N) :=
  withCheckout c true (replaceForkHeads c numbers).

(** ** The snapshot of a work tree *)

Definition maxReportedPath : nat := 200.
Definition reportedPathCut : list ascii := encode_rune 8230.
Definition reportedPath (name : string) : string :=
  let redacted := chars (Text environment name) in
  if Nat.ltb maxReportedPath (List.length (steps redacted))
  then str (rune_prefix maxReportedPath redacted ++ reportedPathCut) else str redacted.
(** The first entry of a raw diff that adds or retargets a gitlink. *)
Fixpoint refuse_entries (fields : list string) : result unit error :=
  match fields with
  | modes :: name :: rest =>
    match Fields (TrimPrefix modes ":") with
    | _ :: new :: _ =>
      if bool_decide (new = "160000") then
        Err (git_blocked BlockedWorkspaceInvalid
          ("Nested repository or changed submodule at " +:+ Quote (reportedPath name)
           +:+ "; Octomus publishes only reviewed file content"))
      else refuse_entries rest
    | _ => refuse_entries rest
    end
  | _ => Ok tt
  end.
Definition refuseGitlinkEntries (out : string) : result unit error := refuse_entries (Split out NUL).
Definition refuseGitlinks (c : Config) (path : string) : G unit :=
  git! out <- WorkGit c path ["diff"; "--cached"; "--raw"; "-z"; "--no-renames"; "--ignore-submodules=none"; "HEAD"] in
  g_lift (refuseGitlinkEntries out).
Definition RefuseCommittedGitlinks (c : Config) (path base revision : string) : G unit :=
  if bool_decide (base = "") || bool_decide (revision = "") || bool_decide (base = revision) then g_ret tt else
  git! out <- WorkGit c path ["diff"; "--raw"; "-z"; "--no-renames"; "--ignore-submodules=none"; base; revision] in
  g_lift (refuseGitlinkEntries out).
(** [redact.Secrets]. *)
Definition redact_secrets (text : string) : string := str (scrub (chars text) (environmentSecrets environment)).
Definition Snapshot (c : Config) (path message : string) : G string :=
  git! _ <- WorkGit c path ["add"; "--all"] in
  git! _ <- refuseGitlinks c path in
  git! changed <- WorkGit c path ["diff"; "--cached"; "--name-only"; "-z"; "--ignore-submodules=none"] in
  git! _ <- (if bool_decide (changed = "") then g_ret "" else WorkGit c path ["commit"; "-m"; redact_secrets message]) in
  head c path.

(** ** Clones ([clone.go]) *)

Definition gitDir_beside (path : string) : string := JoinPath [Dir path; GitDirName].
Definition splitClone (c : Config) (cwd source path revision exists_ : string) (quiet : bool) (flags : list string)
    : G string :=
  let root := Dir path in
  let gitDir := gitDir_beside path in
  git! e1 <- g_ask (Lstat path) in
  if isNone e1 then g_fail (New exists_) else
  git! e2 <- g_ask (Lstat gitDir) in
  if isNone e2 then g_fail (New exists_) else
  git! _ <- g_do (MkdirAll root 511) in
  let q := if quiet then ["--quiet"] else [] in
  let copy :=
    git! _ <- Git c cwd (["clone"] ++ q ++ flags ++ ["--no-checkout"; "--separate-git-dir=" +:+ gitDir; "--"; source; path]) in
    git! _ <- WorkGit c path (["checkout"] ++ q ++ ["--detach"; revision]) in
    g_ret gitDir in
  if SamePath source (Config_Repository c) then withCheckout c false copy else copy.
Definition CloneAt (c : Config) (path revision : string) : G unit :=
  if bool_decide (Dir path = path) then g_fail (New "Invalid workspace path") else
  git! gitDir <- splitClone c (Config_Repository c) (Config_Repository c) path revision
    "Workspace already exists; recovery must inspect it" false ["--no-hardlinks"] in
  git! remote <- originURL c (Config_Repository c) in
  git! _ <- WorkGit c path ["remote"; "set-url"; "origin"; remote] in
  git! _ <- WorkGit c path ["config"; "user.name"; "Octomus Agent"] in
  git! _ <- WorkGit c path ["config"; "user.email"; "octomus-agent@users.noreply.github.com"] in
  g_do (WriteFile (JoinPath [gitDir; "info"; "exclude"]) ("/.octomus/" +:+ String line_feed "") 438).
Definition CloneReviewed (c : Config) (source path revision : string) : G unit :=
  git! found <- g_ask (TrustedGitDir source) in
  match found with
  | Err err => g_fail (reasoned BlockedWorkspaceInvalid "Workspace git metadata is unavailable" err)
  | Ok sourceGitDir =>
    git! gitDir <- splitClone c (Dir path) sourceGitDir path revision "Verification checkout already exists" true [] in
    git! exclude <- g_ask (ReadFile (JoinPath [sourceGitDir; "info"; "exclude"])) in
    match exclude with
    | Err err => if NotExist err then g_do (WriteFile (JoinPath [gitDir; "info"; "exclude"]) "" 438) else g_fail err
    | Ok exclude => g_do (WriteFile (JoinPath [gitDir; "info"; "exclude"]) exclude 438)
    end
  end.
End git.

(** * Reasoning about programs

    [says req m Q]: every request [m] makes satisfies [req], and what it returns
    satisfies [Q]. *)
Definition says {A} (req : sent -> Prop) (m : G A) (Q : A -> Prop) : Prop := forall g,
  exists new, git_sent (snd (m g)) = git_sent g ++ new /\ Forall req new /\ (forall x, fst (m g) = Ok x -> Q x).

Section rules.
Context `{Machine} `{Printable}.
Implicit Types req : sent -> Prop.

Lemma says_mono {A} req (m : G A) (P Q : A -> Prop) : says req m P -> (forall x, P x -> Q x) -> says req m Q.
Proof. intros S I g. destruct (S g) as (new & E & F & R). exists new. split_and!; auto. Qed.
Lemma says_ret {A} req (x : A) (Q : A -> Prop) : Q x -> says req (g_ret x) Q.
Proof. intros Qx g. exists []. rewrite app_nil_r. split_and!; [done|constructor|by intros ? [= <-]]. Qed.
Lemma says_fail {A} req err (Q : A -> Prop) : says req (g_fail err) Q.
Proof. intros g. exists []. by rewrite app_nil_r. Qed.
Lemma says_lift {A} req (r : result A error) (Q : A -> Prop) : (forall x, r = Ok x -> Q x) -> says req (g_lift r) Q.
Proof. intros R g. exists []. rewrite app_nil_r. by split_and!; [| |apply R]. Qed.
Lemma says_bind {A B} req (m : G A) (k : A -> G B) (Q : B -> Prop) :
  says req m (fun x => says req (k x) Q) -> says req (g_bind m k) Q.
Proof.
  intros S g. destruct (S g) as (n1 & E1 & F1 & K). unfold g_bind. destruct (m g) as [[x|err] g1]; simpl in *.
  - destruct (K x eq_refl g1) as (n2 & E2 & F2 & R). exists (n1 ++ n2). split_and!; [by rewrite E2, E1, app_assoc|by apply Forall_app|done].
  - by exists n1.
Qed.
Lemma says_try {A} req (m : G A) (Q : result A error -> Prop) :
  says req m (fun x => Q (Ok x)) -> (forall err, Q (Err err)) -> says req (g_try m) Q.
Proof.
  intros S R g. destruct (S g) as (new & E & F & K). exists new. unfold g_try. destruct (m g) as [[x|err] g1]; simpl in *;
    split_and!; try done; intros ? [= <-]; auto.
Qed.
Lemma says_ask {A} req (q : call A) (Q : A -> Prop) : req (request q) -> (forall x, Q x) -> says req (g_ask q) Q.
Proof. intros Rq R g. exists [request q]. split_and!; [done|by constructor|intros; apply R]. Qed.
Lemma says_call {A} req (q : call (result A error)) (Q : A -> Prop) :
  req (request q) -> (forall x, Q x) -> says req (g_call q) Q.
Proof. intros Rq R. apply says_bind, says_ask; [done|]. intros r. apply says_lift. auto. Qed.
Lemma says_do req (q : call (option error)) (Q : unit -> Prop) : req (request q) -> Q tt -> says req (g_do q) Q.
Proof. intros Rq R. apply says_bind, says_ask; [done|]. intros [err|]; [apply says_fail|by apply says_ret]. Qed.
End rules.

(** ** What writes the remote *)

(** The command [git] runs, after its options. *)
Fixpoint subcommand (args : list string) : option string :=
  match args with
  | [] => None
  | a :: rest =>
    if bool_decide (a = "-c") then match rest with _ :: rest => subcommand rest | [] => None end
    else if HasPrefix a "--" then subcommand rest else Some a
  end.
(** A push, or a pull request created or commented on. *)
Definition writes_remote (q : sent) : bool :=
  match projT2 q with
  | RunMachine binary args _ _ _ =>
    if bool_decide (binary = "git") then bool_decide (subcommand args = Some "push") else
    match args with
    | "pr" :: _ => true
    | "api" :: args => bool_decide ("--method" ∈ args)
    | _ => false
    end
  | _ => false
  end.
Definition reads_only (q : sent) : Prop := writes_remote q = false.

Lemma HasPrefix_dashes s : HasPrefix ("--" +:+ s) "--" = true.
Proof. apply HasPrefix_app. Qed.
(** The options every command on a work tree carries are skipped. *)
Lemma subcommand_tree gitDir tree args :
  subcommand (["--git-dir=" +:+ gitDir; "--work-tree=" +:+ tree] ++ hardened ++ args) = subcommand args.
Proof.
  change ("--git-dir=" +:+ gitDir) with ("--" +:+ ("git-dir=" +:+ gitDir)).
  change ("--work-tree=" +:+ tree) with ("--" +:+ ("work-tree=" +:+ tree)).
  cbn [app subcommand]. rewrite !HasPrefix_dashes. rewrite !bool_decide_eq_false_2 by (intros [=]). reflexivity.
Qed.

Section reads.
Context `{Machine} `{Printable} (req : sent -> Prop) (Rd : forall q, reads_only q -> req q).

Lemma says_git c cwd args env (Q : string -> Prop) :
  subcommand args <> Some "push" -> (forall x, Q x) -> says req (git c cwd args env) Q.
Proof.
  intros N R. apply says_bind, says_call; [|intros; by apply says_ret]. apply Rd. unfold reads_only, writes_remote. simpl.
  by apply bool_decide_eq_false_2.
Qed.
Lemma says_WorkGit c ws args (Q : string -> Prop) :
  subcommand args <> Some "push" -> (forall x, Q x) -> says req (WorkGit c ws args) Q.
Proof.
  intros N R. apply says_bind, says_bind, says_ask; [by apply Rd|]. intros [gitDir|err]; [|apply says_fail].
  apply says_ret, says_git; [by rewrite subcommand_tree|done].
Qed.
Lemma says_gh c args (Q : string -> Prop) :
  writes_remote (request (RunMachine "gh" args "" 0 [])) = false -> (forall x, Q x) -> says req (gh c args) Q.
Proof. intros N R. apply says_call; [by apply Rd|done]. Qed.
Lemma says_clean c path (Q : bool -> Prop) : (forall x, Q x) -> says req (clean c path) Q.
Proof. intros R. apply says_bind, says_WorkGit; [done|]. intros out. by apply says_ret. Qed.
Lemma says_head c path (Q : string -> Prop) : (forall x, Q x) -> says req (head c path) Q.
Proof. by apply says_WorkGit. Qed.
Lemma says_RefuseCommittedGitlinks c path base revision (Q : unit -> Prop) :
  Q tt -> says req (RefuseCommittedGitlinks c path base revision) Q.
Proof.
  intros R. unfold RefuseCommittedGitlinks. destruct (_ || _); [by apply says_ret|].
  apply says_bind, says_WorkGit; [done|]. intros out. apply says_lift. by intros [].
Qed.
Lemma says_isAncestor c path a b (Q : bool -> Prop) : (forall x, Q x) -> says req (workIsAncestor c path a b) Q.
Proof.
  intros R. apply says_bind, says_bind, says_ask; [by apply Rd|]. intros [gitDir|err]; [|apply says_fail].
  apply says_ret, says_call; [by apply Rd|done].
Qed.
Lemma says_validatedOrigin c (Q : string -> Prop) :
  (forall remote, trusted_origin c remote = true -> Q remote) -> says req (validatedOrigin c) Q.
Proof.
  intros R. apply says_bind, says_git; [done|]. intros remote. specialize (R remote). unfold trusted_origin in R.
  destruct (origin_repo _) as [repo|]; [|apply says_fail].
  destruct (EqualASCII _ _); [|apply says_fail]. apply says_bind, says_try; [apply says_gh; [done|]|intros; apply says_fail].
  intros _. by apply says_ret, R.
Qed.
Lemma says_RemoteRevision c branch (Q : option string -> Prop) : (forall x, Q x) -> says req (RemoteRevision c branch) Q.
Proof.
  intros R. unfold RemoteRevision. destruct (negb _); [apply says_fail|]. apply says_bind, says_git; [done|].
  intros out. by apply says_ret.
Qed.
Lemma says_withCheckout {A} c write (fn : G A) (Q : A -> Prop) : says req fn (fun _ => True) -> (forall x, Q x) -> says req (withCheckout c write fn) Q.
Proof.
  intros F R. apply says_bind, says_do; [by apply Rd|]. apply says_bind, says_try.
  - eapply says_mono; [exact F|]. intros x _. apply says_bind, says_ask; [by apply Rd|]. intros _. by apply says_lift.
  - intros err. apply says_bind, says_ask; [by apply Rd|]. intros _. by apply says_lift.
Qed.
Lemma says_Fetch c (Q : unit -> Prop) : Q tt -> says req (Fetch c) Q.
Proof.
  intros R. apply says_withCheckout; [|by intros []]. apply says_bind, says_git; [done|]. intros out. by apply says_ret.
Qed.
Lemma says_delete_refs c refs : says req (delete_refs c refs) (fun _ => True).
Proof. induction refs as [|ref refs IH]; [by apply says_ret|]. by apply says_bind, says_git. Qed.
Lemma says_fork_refspecs heads numbers : says req (fork_refspecs heads numbers) (fun _ => True).
Proof.
  induction numbers as [|n numbers IH]; [by apply says_ret|]. apply says_bind, says_do; [by apply Rd|].
  apply says_bind. eapply says_mono; [exact IH|]. intros rest _. by apply says_ret.
Qed.
Lemma says_FetchForkHeads c numbers (Q : list N -> Prop) : (forall x, Q x) -> says req (FetchForkHeads c numbers) Q.
Proof.
  intros R. apply says_withCheckout; [|done]. apply says_bind, says_git; [done|]. intros stale.
  apply says_bind. eapply says_mono; [apply says_delete_refs|]. intros _ _. destruct numbers as [|n numbers]; [by apply says_ret|].
  apply says_bind, says_git; [done|]. intros out. apply says_bind, says_lift. intros heads _.
  apply says_bind. eapply says_mono; [apply says_fork_refspecs|]. intros found _. apply says_bind.
  destruct (bool_decide _); [by apply says_ret, says_ret|]. apply says_git; [done|]. intros _. by apply says_ret.
Qed.
End reads.

(** ** Names of credentials *)

Definition unhex (c : ascii) : N := let n := N_of_ascii c in if n <? 58 then n - 48 else n - 55.
(** Reads a byte of a suffix back. *)
Definition read_suffix (l : list ascii) : option (ascii * list ascii) :=
  match l with
  | "_"%char :: hi :: lo :: rest => Some (ascii_of_N (16 * unhex hi + unhex lo), rest)
  | c :: rest => Some (c, rest)
  | [] => None
  end.
Lemma read_suffix_byte b l : read_suffix (suffix_byte b ++ l) = Some (b, l).
Proof. by destruct b as [[] [] [] [] [] [] [] []]. Qed.

(** The variables of two repositories are the same only when the repositories
    are, up to case: every byte of the suffix reads back. *)
Theorem RepoEnvSuffix_unambiguous `{Machine} a b :
  RepoEnvSuffix a = RepoEnvSuffix b <-> ToUpper a = ToUpper b.
Proof.
  split; [|by unfold RepoEnvSuffix; intros ->]. intros E. apply (inj chars). unfold RepoEnvSuffix in E.
  apply (f_equal chars) in E. rewrite !chars_str in E. revert E.
  generalize (chars (ToUpper a)) (chars (ToUpper b)). clear a b.
  intros l1. induction l1 as [|x l1 IH]; intros [|y l2] E; [done|..].
  - apply (f_equal read_suffix) in E. cbn [flat_map] in E. by rewrite read_suffix_byte in E.
  - apply (f_equal read_suffix) in E. cbn [flat_map] in E. by rewrite read_suffix_byte in E.
  - apply (f_equal read_suffix) in E. cbn [flat_map] in E. rewrite !read_suffix_byte in E. injection E as -> E.
    by rewrite (IH _ E).
Qed.

(** ** Nested repositories *)

(** The entries of a raw diff: the modes and the name of each. *)
Fixpoint raw_entries (fields : list string) : list (string * string) :=
  match fields with modes :: name :: rest => (modes, name) :: raw_entries rest | _ => [] end.
Definition adds_gitlink (modes : string) : bool :=
  match Fields (TrimPrefix modes ":") with _ :: new :: _ => bool_decide (new = "160000") | _ => false end.
(** A diff is refused exactly when some entry makes a path a gitlink. *)
Theorem refuseGitlinkEntries_spec `{Machine} `{Printable} out :
  refuseGitlinkEntries out = Ok tt <->
  forall modes name, (modes, name) ∈ raw_entries (Split out NUL) -> adds_gitlink modes = false.
Proof.
  unfold refuseGitlinkEntries. generalize (Split out NUL). fix IH 1.
  intros [|modes [|name rest]]; [by split; [intros _ ? ? ?%elem_of_nil|]..|]. specialize (IH rest). cbn [refuse_entries raw_entries].
  assert ((if adds_gitlink modes then False else refuse_entries rest = Ok tt) <->
    forall m n, (m, n) ∈ (modes, name) :: raw_entries rest -> adds_gitlink m = false) as <-.
  { destruct (adds_gitlink modes) eqn:A.
    - split; [done|]. intros F. specialize (F modes name (list_elem_of_here _ _)). congruence.
    - rewrite IH. split.
      + intros F m n [[= -> ->]|I]%elem_of_cons; [done|by eapply F].
      + intros F m n I. by apply (F m n), elem_of_cons; right. }
  unfold adds_gitlink. destruct (Fields _) as [|old [|new more]]; [done..|]. by destruct (bool_decide _).
Qed.
