(* ===== verification/GitHub.v ===== *)
(** * Pull requests as GitHub reports them ([internal/git/github.go])

    The answers of [gh] are JSON.  [encoding/json] decodes it, so a decoded
    value, a page of objects or the fields of a status query, is what the
    program reads here. *)
From S2P Require Import Prelude GoStrings Utf8 Runes WireJson Enums Types GoErrors Config Paths GoTime Model Redact Strconv Broker Footprint GitOps.
Local Open Scope string_scope.
Local Open Scope list_scope.
Local Open Scope N_scope.

(** ** Decoded JSON *)

(** [any] decoded with [UseNumber]; JSON null is nil. *)
Inductive json :=
| JNull
| JBool (b : bool)
| JNumber (text : string)
| JString (s : string)
| JArray (l : list json)
| JObject (fields : list (string * json)).
Definition object : Type := list (string * json).
Fixpoint lookup_field (fields : object) (key : string) : json :=
  match fields with
  | [] => JNull
  | (k, v) :: fields => if bool_decide (k = key) then v else lookup_field fields key
  end.
Fixpoint field_of (v : json) (keys : list string) : json :=
  match keys with
  | [] => v
  | k :: keys => match v with JObject fields => field_of (lookup_field fields k) keys | _ => JNull end
  end.
Definition field (p : object) (keys : list string) : json := field_of (JObject p) keys.
(** [v.(string)]. *)
Definition as_string (v : json) : option string := match v with JString s => Some s | _ => None end.
Definition text (p : object) (keys : list string) : string := default "" (as_string (field p keys)).
Definition jnum (v : json) : option N := match v with JNumber n => ParseUint n 64 | _ => None end.

(** The status query of an owned pull request, as its answer decodes. *)
Record checkCommit := mkCheckCommit { commit_oid : string; commit_rollup : option string }.
Record ownedStatus := mkOwnedStatus {
  owned_number : N; owned_url : string; owned_head : string; owned_review : option string;
  owned_mergeable : string; owned_commits : list checkCommit }.
(** The errors of an answer are counted; the repository and the pull request may
    be absent. *)
Record ownedResponse := mkOwnedResponse { response_errors : nat; response_pull : option ownedStatus }.

Class GitHubJson := {
  (** The pages [Decode] finds in a stream ([None] is null), and why it stopped
      before the end. *)
  decode_pages : string -> list (option (list object)) * option error;
  decode_object : string -> result object error;
  unmarshal_owned : string -> option ownedResponse;
}.

Section github.
Context `{Machine} `{Printable} `{GitHubJson}.

(** [ghPages], folding [each] over the pages. *)
Fixpoint each_page {S} (each : S -> list object -> result S error) (st : S) (pages : list (option (list object)))
    : result S error :=
  match pages with
  | [] => Ok st
  | None :: _ => Err (New "Expected a JSON array for pagination page, got null")
  | Some page :: pages => let! st := each st page in each_page each st pages
  end.
Definition ghPages {S} (out : string) (each : S -> list object -> result S error) (st : S) : result S error :=
  let '(pages, err) := decode_pages out in
  let! st := each_page each st pages in
  match err with Some err => Err err | None => Ok st end.
(** [for _, p := range page]. *)
Fixpoint each_entry {S} (entry : S -> object -> result S error) (st : S) (page : list object) : result S error :=
  match page with
  | [] => Ok st
  | p :: page => let! st := entry st p in each_entry entry st page
  end.

(** ** A pull request *)

Definition taskMarkerPrefix := "<!-- octomus:task:".
Definition taskMarkerFor (taskID : string) : string := taskMarkerPrefix +:+ taskID +:+ " -->".

Definition parsePR (p : object) (c : Config) : result PullRequest error :=
  match jnum (field p ["number"]) with
  | None => Err (New "Missing PR number")
  | Some number =>
    let branch := text p ["head"; "ref"] in
    let body := text p ["body"] in
    let state := if isSome (as_string (field p ["merged_at"])) then "merged" else text p ["state"] in
    let additions := default 0 (jnum (field p ["additions"])) in
    let deletions := default 0 (jnum (field p ["deletions"])) in
    let headRepo := as_string (field p ["head"; "repo"; "full_name"]) in
    let baseRepo := as_string (field p ["base"; "repo"; "full_name"]) in
    let same repo := match repo with Some repo => EqualASCII repo (Config_GitHubRepo c) | None => false end in
    Ok {| PullRequest_Number := number; PullRequest_Title := text p ["title"]; PullRequest_Branch := branch;
          PullRequest_Head := text p ["head"; "sha"]; PullRequest_Base := text p ["base"; "ref"];
          PullRequest_URL := text p ["html_url"]; PullRequest_Body := body; PullRequest_State := state;
          PullRequest_ChangedLines := u64_add additions deletions; PullRequest_CreatedAt := text p ["created_at"];
          PullRequest_Owned := HasPrefix branch (Config_BranchPrefix c) && same headRepo && same baseRepo
                               && Contains body taskMarkerPrefix;
          PullRequest_HeadRepository := default "" headRepo; PullRequest_BaseRepository := default "" baseRepo;
          PullRequest_ReviewDecision := ""; PullRequest_CheckStatus := ""; PullRequest_Mergeability := "";
          PullRequest_StatusSource := ""; PullRequest_StatusObservedAt := "" |}
  end.
Definition pull_path (c : Config) (number : N) : string :=
  "repos/" +:+ Config_GitHubRepo c +:+ "/pulls/" +:+ FormatUint number.
Definition PR (c : Config) (number : N) : G PullRequest :=
  git! out <- gh c ["api"; pull_path c number] in
  g_lift (let! p := decode_object out in parsePR p c).

(** Whether a page of comments carries the marker. *)
Definition marked_page (marker : string) (found : bool) (page : list object) : result bool error :=
  Ok (found || existsb (fun value => Contains (text value ["body"]) marker) page).
Definition TaskMarker (c : Config) (taskID : string) (p : PullRequest) : G bool :=
  let marker := taskMarkerFor taskID in
  if Contains (PullRequest_Body p) marker then g_ret true else
  git! out <- gh c ["api"; "--paginate";
    "repos/" +:+ Config_GitHubRepo c +:+ "/issues/" +:+ FormatUint (PullRequest_Number p) +:+ "/comments?per_page=100"] in
  g_lift (ghPages out (marked_page marker) false).

Definition branch_match (c : Config) (branch : string) (matches : list PullRequest) (value : object)
    : result (list PullRequest) error :=
  let! candidate := parsePR value c in
  Ok (if bool_decide (PullRequest_Branch candidate = branch) then matches ++ [candidate] else matches).
Definition PublicationPR (c : Config) (branch : string) : G (option PullRequest) :=
  let '(owner, _, _) := Cut (Config_GitHubRepo c) "/"%char in
  git! out <- gh c ["api"; "--paginate";
    "repos/" +:+ Config_GitHubRepo c +:+ "/pulls?state=all&head=" +:+ owner +:+ ":" +:+ branch +:+ "&per_page=100"] in
  git! matches <- g_lift (ghPages out (each_entry (branch_match c branch)) []) in
  match matches with
  | [] => g_ret None
  | [p] => g_ret (Some p)
  | _ => g_fail (git_blocked BlockedRemoteConflict "Ambiguous PR association; reconcile before publication")
  end.

(** ** The open pull requests *)

Definition inventory_entry (c : Config) (prs : gmap N PullRequest) (p : object) : result (gmap N PullRequest) error :=
  let state := as_string (field p ["state"]) in
  guard bool_decide (state = Some "open") || bool_decide (state = Some "closed")
    else New "Open PR entry has an unrecognized state";
  let! pr := parsePR p c in
  guard negb (bool_decide (PullRequest_Branch pr = "") || bool_decide (PullRequest_Head pr = "")
              || bool_decide (PullRequest_Base pr = "") || bool_decide (PullRequest_BaseRepository pr = "")
              || bool_decide (PullRequest_URL pr = ""))
    else New "Open PR entry is missing required identity";
  guard EqualASCII (PullRequest_BaseRepository pr) (Config_GitHubRepo c)
    else New "Open PR entry reports a different base repository";
  if negb (bool_decide (PullRequest_State pr = "open")) then Ok prs else
  match prs !! PullRequest_Number pr with
  | Some existing => guard bool_decide (existing = pr) else New "Conflicting open PR inventory entries"; Ok prs
  | None => Ok (<[PullRequest_Number pr := pr]> prs)
  end.
Definition inventory_page (c : Config) (st : nat * gmap N PullRequest) (page : list object)
    : result (nat * gmap N PullRequest) error :=
  let! prs := each_entry (inventory_entry c) (snd st) page in Ok (S (fst st), prs).
(** In the order of their numbers. *)
Fixpoint insert_pr (p : PullRequest) (l : list PullRequest) : list PullRequest :=
  match l with
  | [] => [p]
  | q :: t => if PullRequest_Number p <=? PullRequest_Number q then p :: l else q :: insert_pr p t
  end.
Definition ordered_prs (prs : gmap N PullRequest) : list PullRequest := foldr insert_pr [] (map_to_list prs).*2.
Definition parseInventory (out : string) (c : Config) : result OpenPRInventory error :=
  let! st := ghPages out (inventory_page c) (0%nat, ∅) in
  guard negb (Nat.eqb (fst st) 0) else New "Open PR inventory response is empty";
  Ok (mkOpenPRInventory (Config_GitHubRepo c) "" (ordered_prs (snd st))).
Definition OpenPRs (c : Config) : G OpenPRInventory :=
  git! observedAt <- g_ask NowText in
  git! out <- gh c ["api"; "--paginate"; "repos/" +:+ Config_GitHubRepo c +:+ "/pulls?state=open&per_page=100"] in
  git! inventory <- g_lift (parseInventory out c) in
  g_ret (inventory <| OpenPRInventory_ObservedAt := observedAt |>).

(** ** The state of an owned pull request *)

Definition ownedPRStatusQuery : string :=
  "query($owner:String!,$name:String!,$number:Int!){" +:+ String line_feed
  ("  repository(owner:$owner,name:$name){pullRequest(number:$number){" +:+ String line_feed
  ("    number url headRefOid reviewDecision mergeable" +:+ String line_feed
  ("    commits(last:1){nodes{commit{oid statusCheckRollup{state}}}}" +:+ String line_feed
  ("  }}" +:+ String line_feed "}")))).
Definition review_label (decision : option string) : result string error :=
  match decision with
  | None => Ok "none"
  | Some d =>
    if bool_decide (d = "APPROVED") then Ok "approved" else
    if bool_decide (d = "CHANGES_REQUESTED") then Ok "changes_requested" else
    if bool_decide (d = "REVIEW_REQUIRED") then Ok "review_required" else
    Err (New "Unrecognized GitHub PR review decision")
  end.
Definition check_label (rollup : option string) : result string error :=
  match rollup with
  | None => Ok "none"
  | Some s =>
    if bool_decide (s = "SUCCESS") then Ok "success" else
    if bool_decide (s = "ERROR") || bool_decide (s = "FAILURE") then Ok "failure" else
    if bool_decide (s = "EXPECTED") || bool_decide (s = "PENDING") then Ok "pending" else
    Err (New "Unrecognized GitHub PR check status")
  end.
Definition mergeable_label (m : string) : result string error :=
  if bool_decide (m = "CONFLICTING") then Ok "conflicting" else
  if bool_decide (m = "MERGEABLE") then Ok "mergeable" else
  if bool_decide (m = "UNKNOWN") then Ok "unknown" else
  Err (New "Unrecognized GitHub PR mergeability").
(** All but the time of the observation, which the caller adds. *)
Definition applyOwnedPRStatus (out repository : string) (pr : PullRequest) : result PullRequest error :=
  match unmarshal_owned out with
  | None => Err (New "Invalid GitHub PR status response")
  | Some response =>
    match response_errors response, response_pull response with
    | O, Some status =>
      let changed := New "Owned PR changed while its status was being read" in
      guard (owned_number status =? PullRequest_Number pr) && bool_decide (owned_url status = PullRequest_URL pr)
            && bool_decide (owned_head status = PullRequest_Head pr) else changed;
      match owned_commits status with
      | [commit] =>
        guard bool_decide (commit_oid commit = PullRequest_Head pr) else changed;
        let! review := review_label (owned_review status) in
        let! checks := check_label (commit_rollup commit) in
        let! mergeability := mergeable_label (owned_mergeable status) in
        Ok (pr <| PullRequest_ReviewDecision := review |> <| PullRequest_CheckStatus := checks |>
               <| PullRequest_Mergeability := mergeability |>
               <| PullRequest_StatusSource := "https://github.com/" +:+ repository +:+ "/pull/" +:+ FormatUint (PullRequest_Number pr) |>)
      | _ => Err changed
      end
    | _, _ => Err (New "GitHub PR status query did not return a pull request")
    end
  end.
Definition ownedPRStatus (c : Config) (pr : PullRequest) : G PullRequest :=
  let '(owner, name, _) := Cut (Config_GitHubRepo c) "/"%char in
  git! out <- gh c ["api"; "graphql"; "-f"; "query=" +:+ ownedPRStatusQuery; "-f"; "owner=" +:+ owner;
                    "-f"; "name=" +:+ name; "-F"; "number=" +:+ FormatUint (PullRequest_Number pr)] in
  git! pr <- g_lift (applyOwnedPRStatus out (Config_GitHubRepo c) pr) in
  git! now <- g_ask NowText in
  g_ret (pr <| PullRequest_StatusObservedAt := now |>).
Fixpoint owned_prs (c : Config) (observed : list PullRequest) : G (list PullRequest) :=
  match observed with
  | [] => g_ret []
  | p :: observed =>
    if negb (PullRequest_Owned p) then owned_prs c observed else
    git! detail <- PR c (PullRequest_Number p) in
    if negb (OwnedOpen detail) || negb (bool_decide (PullRequest_Branch detail = PullRequest_Branch p))
       || negb (bool_decide (PullRequest_Base detail = PullRequest_Base p))
    then g_fail (New "Owned PR changed while the open inventory was being read") else
    git! detail <- ownedPRStatus c detail in
    git! prs <- owned_prs c observed in
    g_ret (detail :: prs)
  end.
Definition OwnedPRs (c : Config) (inventory : OpenPRInventory) : G (list PullRequest) :=
  owned_prs c (OpenPRInventory_PRs inventory).
End github.

(** ** What these programs send *)

Section reads.
Context `{Machine} `{Printable} `{GitHubJson} (req : sent -> Prop) (Rd : forall q, reads_only q -> req q).

Lemma says_PR c number (Q : PullRequest -> Prop) : (forall x, Q x) -> says req (PR c number) Q.
Proof. intros R. apply says_bind, says_gh; [auto|done|]. intros out. by apply says_lift. Qed.
Lemma says_TaskMarker c id p (Q : bool -> Prop) : (forall x, Q x) -> says req (TaskMarker c id p) Q.
Proof.
  intros R. unfold TaskMarker. destruct (Contains _ _); [by apply says_ret|].
  apply says_bind, says_gh; [auto|done|]. intros out. by apply says_lift.
Qed.
Lemma says_PublicationPR c branch (Q : option PullRequest -> Prop) :
  (forall x, Q x) -> says req (PublicationPR c branch) Q.
Proof.
  intros R. unfold PublicationPR. destruct (Cut _ _) as [[owner name] found].
  apply says_bind, says_gh; [auto|done|]. intros out. apply says_bind, says_lift. intros [|p [|q matches]] _;
    [by apply says_ret..|apply says_fail].
Qed.
Lemma says_OpenPRs c (Q : OpenPRInventory -> Prop) : (forall x, Q x) -> says req (OpenPRs c) Q.
Proof.
  intros R. apply says_bind, says_ask; [by apply Rd|]. intros now. apply says_bind, says_gh; [auto|done|]. intros out.
  apply says_bind, says_lift. intros inventory _. by apply says_ret.
Qed.
Lemma says_ownedPRStatus c pr (Q : PullRequest -> Prop) : (forall x, Q x) -> says req (ownedPRStatus c pr) Q.
Proof.
  intros R. unfold ownedPRStatus. destruct (Cut _ _) as [[owner name] found]. apply says_bind, says_gh; [auto|done|].
  intros out. apply says_bind, says_lift. intros p _. apply says_bind, says_ask; [by apply Rd|]. intros now. by apply says_ret.
Qed.
Lemma says_owned_prs c observed : says req (owned_prs c observed) (fun _ => True).
Proof.
  induction observed as [|p observed IH]; [by apply says_ret|]. cbn [owned_prs]. destruct (negb _); [done|].
  apply says_bind, says_PR. intros detail. destruct (_ || _); [apply says_fail|]. apply says_bind, says_ownedPRStatus.
  intros detail'. apply says_bind. eapply says_mono; [exact IH|]. intros prs _. by apply says_ret.
Qed.
End reads.
