(* ===== verification/Publish.v ===== *)
(** * The publication of a reviewed commit ([internal/git/publish.go])

    The reviewed commit is pushed to the branch of its task, under a lease on
    what the branch was seen to hold, and its pull request is created or
    updated; what is returned was read back from GitHub. *)
From S2P Require Import Prelude GoStrings Utf8 Runes WireJson Enums Types GoErrors Config Paths GoTime Model Samples Redact Strconv Broker Footprint GitOps GitHub.
Local Open Scope string_scope.
Local Open Scope list_scope.
Local Open Scope N_scope.

(** What [whatwg-url] makes of a text. *)
Record parsedUrl := mkParsedUrl { url_scheme : string; url_hostname : string; url_pathname : string }.

Section publish.
Context `{Machine} `{Printable} `{GitHubJson}.
Context (url_Parse : string -> result parsedUrl error).

Definition validatePublication (t : Task) (p : PullRequest) (marker reconcile : bool) : result unit error :=
  let c := Task_Config t in
  guard EqualASCII (PullRequest_HeadRepository p) (Config_GitHubRepo c)
        && EqualASCII (PullRequest_BaseRepository p) (Config_GitHubRepo c)
        && PullRequest_Owned p && bool_decide (PullRequest_Branch p = Task_Branch t)
        && bool_decide (PullRequest_Base p = Config_DefaultBranch c)
        && bool_decide (Task_OutputCommit t = Some (PullRequest_Head p)) && marker
        && (bool_decide (PullRequest_State p = "open")
            || (reconcile && (bool_decide (PullRequest_State p = "closed") || bool_decide (PullRequest_State p = "merged"))))
    else New "PR publication result does not match repository, ownership, branch, base, reviewed head, task marker or state";
  Ok tt.

(** ** The text of the pull request *)

Definition LF : string := String line_feed "".
Definition reported (v : Verification) : string :=
  "- `" +:+ Verification_Command v +:+ "`: " +:+ (if Verification_Success v then "passed" else "failed").
(** The commands, each once, whose last result is at the commit. *)
Fixpoint verification_lines (t : Task) (commit : string) (seen commands : list string) : list string :=
  match commands with
  | [] => []
  | command :: commands =>
    let rest := verification_lines t commit (command :: seen) commands in
    if bool_decide (command ∈ seen) then rest else
    match VerificationHistory_Latest (VerificationFor t command) with
    | Some v => if bool_decide (Verification_Revision v = commit) then reported v :: rest else rest
    | None => rest
    end
  end.
Definition worked (x : Session) : bool :=
  bool_decide (Session_Role x = "executor") || bool_decide (Session_Role x = "repair").
Definition last_summary (t : Task) : string :=
  match List.find worked (rev (Task_Sessions t)) with Some x => Session_Summary x | None => "" end.
Definition prBody (t : Task) (existing : option PullRequest) (commit : string) : string :=
  let p := Task_Proposal t in
  let verification := verification_lines t commit [] (Config_VerificationCommands (ExecutionConfig t)) in
  let update :=
    Proposal_Problem p +:+ LF +:+ LF +:+ Proposal_Benefit p +:+ LF +:+ LF +:+ "Scope: " +:+ Proposal_Scope p
    +:+ LF +:+ LF +:+ "Verification" +:+ LF +:+ Join verification LF +:+ LF +:+ LF +:+ last_summary t
    +:+ LF +:+ LF +:+ "Reviewed commit: `" +:+ commit +:+ "`. "
    +:+ FormatUint (N.of_nat (List.length (Task_Reviews t))) +:+ " review round(s)." +:+ LF +:+ LF +:+ taskMarkerFor (Task_ID t) in
  match existing with
  | Some _ => "Octomus follow-up: " +:+ Proposal_Title p +:+ LF +:+ LF +:+ update
  | None => update
  end.
Definition maxTitle : nat := 256.
Definition maxBody : N := 65536.
Record publicationMetadata := mkMetadata { metadata_title : string; metadata_body : string }.
Definition has_nul (s : string) : bool := existsb (is_char NUL) (chars s).
Definition refuse {A} (message : string) : result A error := Err (git_blocked BlockedWorkspaceInvalid message).
Definition rune_len (s : string) : N := N.of_nat (rune_count (chars s)).
Definition preparePublication (t : Task) (existing : option PullRequest) (commit : string)
    : result publicationMetadata error :=
  let title := redact_secrets (Proposal_Title (Task_Proposal t)) in
  let body := redact_secrets (prBody t existing commit) in
  if has_nul title || has_nul body then refuse "Publication metadata contains an unsupported character" else
  if isNone existing && blank title then refuse "Publication title is empty after public-safe preparation" else
  if isNone existing && (N.of_nat maxTitle <? rune_len title) then refuse "Publication title exceeds the remote title limit" else
  if maxBody <? rune_len body then refuse "Publication body exceeds the remote size limit" else
  if negb (Contains body (taskMarkerFor (Task_ID t)))
  then refuse "Publication metadata cannot carry the task's delivery marker" else
  if negb (Contains body ("Reviewed commit: `" +:+ commit +:+ "`"))
  then refuse "Publication metadata cannot carry the reviewed commit" else
  Ok (mkMetadata title body).

(** ** The pull request *)

Definition conflict (message : string) : error := git_blocked BlockedRemoteConflict message.
Definition updatePR (c : Config) (t : Task) (p : PullRequest) (commit bodyPath : string) : G PullRequest :=
  git! latest <- PR c (PullRequest_Number p) in
  if negb (OwnedOpen latest) || negb (bool_decide (PullRequest_Base latest = Config_DefaultBranch c))
     || negb (bool_decide (PullRequest_Head latest = commit))
  then g_fail (conflict "PR changed around publication; retry will reconcile the current remote state") else
  git! marker <- TaskMarker c (Task_ID t) latest in
  git! _ <- (if marker then g_ret "" else
             gh c ["pr"; "comment"; FormatUint (PullRequest_Number p); "--repo"; Config_GitHubRepo c; "--body-file"; bodyPath]) in
  git! published <- PR c (PullRequest_Number p) in
  git! marker <- TaskMarker c (Task_ID t) published in
  git! _ <- g_lift (validatePublication t published marker false) in
  g_ret published.
Definition prNumber (created repo : string) : result N error :=
  let trimmed := TrimSpace created in
  match url_Parse trimmed with
  | Err err => Err (reasoned BlockedRemoteConflict "PR creation returned no unambiguous URL; reconcile before retrying" err)
  | Ok url =>
    guard bool_decide (url_scheme url = "https") && bool_decide (url_hostname url = "github.com")
          && negb (ContainsAny trimmed "?#") else conflict "Invalid PR creation URL";
    match Split (TrimPrefix (url_pathname url) "/") "/"%char with
    | [owner; name; kind; n] =>
      guard bool_decide (kind = "pull") && EqualASCII (owner +:+ "/" +:+ name) repo
        else conflict "Created PR belongs to a different repository";
      match ParseUint n 64 with
      | Some number => Ok number
      (* [strconv.NumError] is kept as its reason. *)
      | None => Err (reasoned BlockedRemoteConflict "Missing created PR number" (New "invalid syntax"))
      end
    | _ => Err (conflict "Created PR belongs to a different repository")
    end
  end.
Definition createPR (c : Config) (t : Task) (title bodyPath : string) : G PullRequest :=
  git! created <- gh c ["pr"; "create"; "--repo"; Config_GitHubRepo c; "--head"; Task_Branch t;
                        "--base"; Config_DefaultBranch c; "--title"; title; "--body-file"; bodyPath] in
  git! number <- g_lift (prNumber created (Config_GitHubRepo c)) in
  git! published <- PR c number in
  git! _ <- g_lift (validatePublication t published (Contains (PullRequest_Body published) (taskMarkerFor (Task_ID t))) false) in
  g_ret published.

(** ** The publication *)

Definition invalid (message : string) : error := git_blocked BlockedWorkspaceInvalid message.
Definition last_review_clean (t : Task) (commit : string) : bool :=
  match last (Task_Reviews t) with
  | Some round => bool_decide (ReviewRound_Revision round = commit) && Review_Clean (ReviewRound_Result round)
  | None => false
  end.
Definition verified (t : Task) (commit command : string) : bool :=
  match VerificationHistory_Latest (VerificationFor t command) with
  | Some v => Verification_Success v && bool_decide (Verification_Revision v = commit)
  | None => false
  end.
(** The commit that may be published, by the records of the task. *)
Definition publishable (t : Task) : result string error :=
  let c := ExecutionConfig t in
  match Task_OutputCommit t with
  | None => Err (invalid "No reviewed commit")
  | Some commit =>
    guard last_review_clean t commit else invalid "Publication requires a clean review at the output revision";
    guard ReviewAuthorizes t commit
      else invalid "Publication requires a clean maintenance-qualified review at the output revision";
    guard forallb (verified t commit) (Config_VerificationCommands c)
      else invalid "Publication requires successful verification at the reviewed revision";
    guard HasPrefix (Task_Branch t) (Config_BranchPrefix c) && negb (bool_decide (Task_Branch t = Config_DefaultBranch c))
      else invalid "Cannot publish outside the owned branch namespace";
    Ok commit
  end.
(** The work tree holds exactly the commit, with no submodule of its own. *)
Definition checkWorkTree (c : Config) (t : Task) (commit : string) : G unit :=
  let path := Task_Workspace t in
  git! isClean <- clean c path in
  if negb isClean then g_fail (invalid "Workspace changed after review") else
  git! actual <- head c path in
  if negb (bool_decide (actual = commit)) then g_fail (invalid "Workspace HEAD changed after review") else
  if bool_decide (Task_ComparisonBase t = "")
  then g_fail (invalid "Comparison base was not persisted; cancel this task and rediscover") else
  RefuseCommittedGitlinks c path (Task_ComparisonBase t) commit.
Definition existingPR (c : Config) (t : Task) : G (option PullRequest) :=
  match Task_PRNumber t with
  | Some number => git! p <- PR c number in g_ret (Some p)
  | None => PublicationPR c (Task_Branch t)
  end.
(** The push, when the branch does not hold the commit yet. *)
Definition pushReviewed (c : Config) (t : Task) (trustedRemote commit : string) (remote : option string) : G unit :=
  if bool_decide (remote = Some commit) then g_ret tt else
  if (if isSome (Task_PRNumber t) then negb (bool_decide (remote = Some (Task_SourceRevision t))) else isSome remote)
  then g_fail (Reason BlockedRemoteConflict) else
  git! ancestor <- workIsAncestor c (Task_Workspace t) (Task_SourceRevision t) commit in
  if negb ancestor
  then g_fail (conflict "Reviewed output does not contain the recorded source; reconcile the branch") else
  git! _ <- pushGit c (Task_Workspace t) [
    "-c"; "push.followTags=false"; "push"; "--recurse-submodules=no";
    "--force-with-lease=" +:+ branch_ref (Task_Branch t) +:+ ":" +:+ default "" remote;
    trustedRemote; commit +:+ ":" +:+ branch_ref (Task_Branch t)] in
  g_ret tt.
(** What an existing pull request allows: it is the publication already, or it
    may be updated. *)
Definition associated (c : Config) (t : Task) (commit : string) (p : PullRequest) (marker : bool) : result bool error :=
  match validatePublication t p marker true with
  | Ok _ => Ok true
  | Err _ =>
    if marker && negb (bool_decide (PullRequest_Head p = commit))
    then Err (conflict "Delivered PR head changed; reconcile before retrying") else
    if negb (OwnedOpen p) || negb (bool_decide (PullRequest_Branch p = Task_Branch t))
       || negb (bool_decide (PullRequest_Base p = Config_DefaultBranch c))
    then Err (conflict "PR ownership, base, or open state changed; reconcile before retrying") else
    if isNone (Task_PRNumber t) && negb marker
    then Err (conflict "Branch is already associated with another task") else Ok false
  end.
Definition publish_new (c : Config) (t : Task) (trustedRemote commit : string) (existing : option PullRequest) : G PullRequest :=
  git! meta <- g_lift (preparePublication t existing commit) in
  git! remote <- RemoteRevision c (Task_Branch t) in
  git! defaultRevision <- RemoteRevision c (Config_DefaultBranch c) in
  if negb (bool_decide (defaultRevision = Some (Task_DefaultRevision t))) then g_fail (Reason BlockedStaleBase) else
  git! _ <- pushReviewed c t trustedRemote commit remote in
  let bodyPath := JoinPath [Dir (Task_Workspace t); "pr-body.md"] in
  git! _ <- g_do (WriteFile bodyPath (metadata_body meta) 438) in
  match existing with
  | Some p => updatePR c t p commit bodyPath
  | None => createPR c t (metadata_title meta) bodyPath
  end.
Definition publish (t : Task) : G PullRequest :=
  let c := ExecutionConfig t in
  git! trustedRemote <- validatedOrigin c in
  git! commit <- g_lift (publishable t) in
  git! _ <- checkWorkTree c t commit in
  git! existing <- existingPR c t in
  git! delivered <-
    match existing with
    | None => g_ret false
    | Some p => git! marker <- TaskMarker c (Task_ID t) p in g_lift (associated c t commit p marker)
    end in
  match existing, delivered with
  | Some p, true => g_ret p
  | _, _ => publish_new c t trustedRemote commit existing
  end.
(** A failure without a known reason is an uncertain publication. *)
Definition uncertain (err : error) : error :=
  if bool_decide (BlockedReasonFromError (Some err) = BlockedUnknown)
  then Errorf "%w: %w" [VWrap (Reason BlockedPublicationUncertain); VWrap err] else err.
Definition Publish (t : Task) : G PullRequest :=
  git! r <- g_try (publish t) in
  match r with Ok p => g_ret p | Err err => g_fail (uncertain err) end.
End publish.

(** * Properties *)

Definition push_args (t : Task) (remote commit expected : string) : list string :=
  ["-c"; "push.followTags=false"; "push"; "--recurse-submodules=no";
   "--force-with-lease=" +:+ branch_ref (Task_Branch t) +:+ ":" +:+ expected;
   remote; commit +:+ ":" +:+ branch_ref (Task_Branch t)].
(** What the branch must still hold: the recorded source of a follow-up, and
    nothing for a new pull request. *)
Definition lease (t : Task) : string := if isSome (Task_PRNumber t) then Task_SourceRevision t else "".
(** A request that publishes [commit]: the push under its lease, to the
    configured repository and to the task's own branch, or the creation of the
    pull request or of a comment on one. *)
Inductive publishes (t : Task) (commit : string) : sent -> Prop :=
| pushes remote gitDir cwd seconds env :
    trusted_origin (ExecutionConfig t) remote = true ->
    publishes t commit (request (RunMachine "git"
      (["--git-dir=" +:+ gitDir; "--work-tree=" +:+ Task_Workspace t] ++ hardened ++ push_args t remote commit (lease t))
      cwd seconds env))
| creates title body cwd seconds env :
    publishes t commit (request (RunMachine "gh"
      ["pr"; "create"; "--repo"; Config_GitHubRepo (ExecutionConfig t); "--head"; Task_Branch t;
       "--base"; Config_DefaultBranch (ExecutionConfig t); "--title"; title; "--body-file"; body] cwd seconds env))
| comments number body cwd seconds env :
    publishes t commit (request (RunMachine "gh"
      ["pr"; "comment"; number; "--repo"; Config_GitHubRepo (ExecutionConfig t); "--body-file"; body] cwd seconds env)).
(** The records of the task that let [commit] be published. *)
Record authorized (t : Task) (commit : string) : Prop := {
  auth_commit : Task_OutputCommit t = Some commit;
  auth_review : ReviewAuthorizes t commit = true;
  auth_verified : forall command, command ∈ Config_VerificationCommands (ExecutionConfig t) -> verified t commit command = true;
  auth_branch : HasPrefix (Task_Branch t) (Config_BranchPrefix (ExecutionConfig t)) = true;
  auth_default : Task_Branch t <> Config_DefaultBranch (ExecutionConfig t);
}.
(** The pull request that was read back delivers the task. *)
Record delivers (t : Task) (p : PullRequest) : Prop := {
  delivers_head : Task_OutputCommit t = Some (PullRequest_Head p);
  delivers_branch : PullRequest_Branch p = Task_Branch t;
  delivers_base : PullRequest_Base p = Config_DefaultBranch (Task_Config t);
  delivers_repository : EqualASCII (PullRequest_HeadRepository p) (Config_GitHubRepo (Task_Config t)) = true;
  delivers_owned : PullRequest_Owned p = true;
}.

Lemma publishable_authorized t commit : publishable t = Ok commit -> authorized t commit.
Proof.
  unfold publishable. destruct (Task_OutputCommit t) as [c|] eqn:O; [|done].
  rewrite !guard_Ok. intros (_ & A & V & B & [= <-]). bool_hyps. split; try done.
  intros command I. rewrite forallb_forall in V. apply V. by apply list_elem_of_In.
Qed.
Lemma validatePublication_delivers t p marker reconcile :
  validatePublication t p marker reconcile = Ok tt -> delivers t p.
Proof. unfold validatePublication. rewrite guard_Ok. intros [V _]. bool_hyps. equal_hyps. by split. Qed.

Section publish_facts.
Context `{Machine} `{Printable} `{GitHubJson} (url_Parse : string -> result parsedUrl error).
Context (t : Task).
(** Whatever is sent only reads, or publishes the authorized commit. *)
Definition permitted (q : sent) : Prop :=
  reads_only q \/ exists commit, authorized t commit /\ publishes t commit q.
Lemma permitted_reads q : reads_only q -> permitted q.
Proof. by left. Qed.
#[local] Hint Resolve permitted_reads : core.

Lemma says_checkWorkTree c commit (Q : unit -> Prop) : Q tt -> says permitted (checkWorkTree c t commit) Q.
Proof.
  intros R. apply says_bind, says_clean; [auto|]. intros isClean. destruct (negb isClean); [apply says_fail|].
  apply says_bind, says_head; [auto|]. intros actual. destruct (negb _); [apply says_fail|].
  destruct (bool_decide _); [apply says_fail|]. by apply says_RefuseCommittedGitlinks; auto.
Qed.
Lemma says_pushReviewed remote commit seen (Q : unit -> Prop) :
  authorized t commit -> trusted_origin (ExecutionConfig t) remote = true -> Q tt ->
  says permitted (pushReviewed (ExecutionConfig t) t remote commit seen) Q.
Proof.
  intros A T R. unfold pushReviewed. destruct (bool_decide _); [by apply says_ret|].
  destruct (if isSome _ then _ else _) eqn:L; [apply says_fail|].
  apply says_bind, says_isAncestor; [auto|]. intros [|]; [|apply says_fail]. simpl negb. cbv iota.
  assert (default "" seen = lease t) as Le.
  { unfold lease. destruct (isSome (Task_PRNumber t)); [|by destruct seen]. apply negb_false_iff in L.
    by apply bool_decide_eq_true_1 in L as ->. }
  apply says_bind. apply says_bind, says_bind, says_ask; [auto; by left|]. intros [gitDir|err]; [|apply says_fail].
  apply says_ret. apply says_bind, says_call; [|intros out; by apply says_ret, says_ret].
  right. exists commit. split; [done|]. rewrite Le. by apply (pushes t commit remote).
Qed.
Lemma says_updatePR p commit body :
  authorized t commit -> says permitted (updatePR (ExecutionConfig t) t p commit body) (delivers t).
Proof.
  intros A. apply says_bind, says_PR; [auto|]. intros latest. destruct (_ || _); [apply says_fail|].
  apply says_bind, says_TaskMarker; [auto|]. intros marker. apply says_bind.
  assert (says permitted (git! published <- PR (ExecutionConfig t) (PullRequest_Number p) in
    git! marker <- TaskMarker (ExecutionConfig t) (Task_ID t) published in
    git! _ <- g_lift (validatePublication t published marker false) in g_ret published) (delivers t)) as Rest.
  { apply says_bind, says_PR; [auto|]. intros published. apply says_bind, says_TaskMarker; [auto|]. intros m. apply says_bind, says_lift.
    intros [] V. by eapply says_ret, validatePublication_delivers. }
  destruct marker; [by apply says_ret|]. apply says_call; [|done]. right. exists commit. split; [done|constructor].
Qed.
Lemma says_createPR commit title body :
  authorized t commit -> says permitted (createPR url_Parse (ExecutionConfig t) t title body) (delivers t).
Proof.
  intros A. apply says_bind, says_call; [right; exists commit; split; [done|constructor]|]. intros created.
  apply says_bind, says_lift. intros number _. apply says_bind, says_PR; [auto|]. intros published. apply says_bind, says_lift.
  intros [] V. by eapply says_ret, validatePublication_delivers.
Qed.
Lemma says_publish_new remote commit existing :
  authorized t commit -> trusted_origin (ExecutionConfig t) remote = true ->
  says permitted (publish_new url_Parse (ExecutionConfig t) t remote commit existing) (delivers t).
Proof.
  intros A T. apply says_bind, says_lift. intros meta _. apply says_bind, says_RemoteRevision; [auto|]. intros seen.
  apply says_bind, says_RemoteRevision; [auto|]. intros def. destruct (negb _); [apply says_fail|].
  apply says_bind, says_pushReviewed; [done..|]. apply says_bind, says_do; [by left|].
  destruct existing; [by apply says_updatePR|by eapply says_createPR].
Qed.
Lemma says_publish : says permitted (publish url_Parse t) (delivers t).
Proof.
  apply says_bind, says_validatedOrigin; [auto|]. intros remote T. apply says_bind, says_lift. intros commit P.
  apply publishable_authorized in P. apply says_bind, says_checkWorkTree. apply says_bind.
  assert (forall existing, says permitted
    (git! delivered <- match existing with
       | None => g_ret false
       | Some p => git! marker <- TaskMarker (ExecutionConfig t) (Task_ID t) p in
                   g_lift (associated (ExecutionConfig t) t commit p marker)
       end in
     match existing, delivered with
     | Some p, true => g_ret p
     | _, _ => publish_new url_Parse (ExecutionConfig t) t remote commit existing
     end) (delivers t)) as Rest.
  { intros [p|]; apply says_bind; [|by apply says_ret, says_publish_new]. apply says_bind, says_TaskMarker; [auto|].
    intros marker. apply says_lift. unfold associated. intros [|].
    - destruct (validatePublication _ _ _ _) as [[]|] eqn:V; [|by repeat destruct_cond]. intros _.
      by eapply says_ret, validatePublication_delivers.
    - intros _. by apply says_publish_new. }
  unfold existingPR. destruct (Task_PRNumber t) as [number|].
  - apply says_bind, says_PR; [auto|]. intros p. apply says_ret, (Rest (Some p)).
  - apply says_PublicationPR; [auto|]. intros p. apply (Rest p).
Qed.

(** C4: only reviewed work reaches the remote.  Whatever git and GitHub answer,
    everything a publication sends only reads, or it pushes the task's output
    commit, authorized by its review and verified by every command, to the
    task's own branch of the configured repository under the exact lease, or
    opens or comments its pull request; and the pull request it returns was
    read back with that commit as its head. *)
Theorem Publish_delivers g :
  exists new, git_sent (snd (Publish url_Parse t g)) = git_sent g ++ new /\ Forall permitted new
    /\ forall p, fst (Publish url_Parse t g) = Ok p -> delivers t p.
Proof.
  apply (says_bind permitted (g_try (publish url_Parse t)) _ (delivers t)), says_try; [|intros; apply says_fail].
  eapply says_mono; [apply says_publish|]. intros p D. by apply says_ret.
Qed.
End publish_facts.

(** ** A run

    On a machine where all goes well the commit is pushed and its pull request
    created. *)
Definition ready_task : Task :=
  (publishing_task "t" "c") <| Task_ComparisonBase := "base" |> <| Task_SourceRevision := "rev-0" |>
    <| Task_Workspace := "/data/tasks/t/workspace" |>
    <| Task_Verification := [mkVerification "go test ./..." true "ok" "c" "2026-01-01T00:20:00Z" None] |>.
Definition created_pr : object :=
  let repo := JObject [("full_name", JString "acme/widgets")] in
  [("number", JNumber "7"); ("state", JString "open"); ("body", JString (taskMarkerFor "t"));
   ("head", JObject [("ref", JString "octomus/t"); ("sha", JString "c"); ("repo", repo)]);
   ("base", JObject [("ref", JString "main"); ("repo", repo)])].
#[local] Instance sample_json : GitHubJson := {
  decode_pages := fun _ => ([Some []], None); decode_object := fun _ => Ok created_pr; unmarshal_owned := fun _ => None }.
Definition git_answer (args : list string) : string :=
  if bool_decide ("get-url" ∈ args) then "git@github.com:acme/widgets.git" else
  if bool_decide ("rev-parse" ∈ args) then "c" else
  if bool_decide ("refs/heads/main" ∈ args) then "rev-0" +:+ String tab "refs/heads/main" else "".
Definition sample_reply (A : Type) (n : nat) (q : call A) : A :=
  match q in call A return A with
  | RunMachine binary args _ _ _ =>
      Ok (if bool_decide (binary = "git") then git_answer args else "https://github.com/acme/widgets/pull/7")
  | RunPredicate _ _ _ _ _ _ => Ok true
  | RunText _ _ _ _ _ _ => Ok ("", true)
  | TrustedGitDir _ => Ok "/data/tasks/t/repo.git"
  | MkdirTemp _ => Ok "/tmp/octomus-diff-1"
  | RemoveAll _ => tt
  | ReadFile _ => Ok ""
  | ReleaseCheckout _ _ => tt
  | NowText => "2026-01-01T00:30:00Z"
  | Lstat _ | MkdirAll _ _ | Mkdir _ _ | WriteFile _ _ _ | AcquireCheckout _ _ | CtxErr => None
  end.
#[local] Instance sample_machine : Machine := {
  reply := sample_reply; LookupEnv := fun _ => None; environment := []; NotExist := fun _ => false; ToUpper := fun s => s }.
Definition sample_url (_ : string) : result parsedUrl error := Ok (mkParsedUrl "https" "github.com" "/acme/widgets/pull/7").
Definition sent_args (q : sent) : list string :=
  match projT2 q with RunMachine _ args _ _ _ => args | _ => [] end.
Example publish_run :
  let '(r, g) := Publish sample_url ready_task (mkGit 0 []) in
  (PullRequest_Number <$> match r with Ok p => Some p | Err _ => None end) = Some 7
  /\ map (fun q => drop 14 (sent_args q)) (List.filter (fun q => bool_decide (subcommand (sent_args q) = Some "push")) (git_sent g))
     = [["-c"; "push.followTags=false"; "push"; "--recurse-submodules=no"; "--force-with-lease=refs/heads/octomus/t:";
         "git@github.com:acme/widgets.git"; "c:refs/heads/octomus/t"]].
Proof. vm_compute. by split. Qed.
