(* ===== verification/MergeWire.v ===== *)
(** * The merge request and what guards it
    ([internal/git/automerge.go], [merge_destination.go])

    The state of a pull request is read from one query, whose fields
    [encoding/json] decodes; a squash merge is requested only when a ruleset of
    the repository keeps the merger away from every other branch, and it is
    confirmed only by a second reading. *)
From S2P Require Import Prelude GoStrings Utf8 Runes WireJson Enums Types GoErrors Config Paths GoTime Model Samples Redact Strconv Broker Footprint GitOps GitHub.
Local Open Scope string_scope.
Local Open Scope list_scope.
Local Open Scope N_scope.

Definition ErrMergeUnconfirmed : error := New "Merge request outcome is unconfirmed".
Definition ErrMergeDestination : error := New "Automatic merge destination is not enforced".
Definition is_unconfirmed : error -> bool := error_is "Merge request outcome is unconfirmed".
Definition is_destination : error -> bool := error_is "Automatic merge destination is not enforced".

(** ** The status query *)

Record MergeStatus := mkMergeStatus {
  MergeStatus_Number : N; MergeStatus_URL : string; MergeStatus_State : string;
  MergeStatus_HeadBranch : string; MergeStatus_Head : string; MergeStatus_HeadRepository : string;
  MergeStatus_BaseBranch : string; MergeStatus_BaseOID : string; MergeStatus_Repository : string;
  MergeStatus_Draft : bool; MergeStatus_MergeQueue : bool; MergeStatus_SquashAllowed : bool;
  MergeStatus_ReviewDecision : option string; MergeStatus_Mergeable : string; MergeStatus_MergeState : string;
  MergeStatus_Additions : option N; MergeStatus_Deletions : option N; MergeStatus_ChangedFiles : option N;
  MergeStatus_MergedAt : option string; MergeStatus_MergeCommit : option string;
  MergeStatus_CheckState : option string; MergeStatus_CheckContexts : N; MergeStatus_StatsMalformed : bool;
}.
(** The decoded answer.  A [RawMessage] is its text, empty when it is absent. *)
Record rollup := mkRollup { rollup_state : string; rollup_contexts : option N }.
Record headCommit := mkHeadCommit { head_oid : string; head_rollup : option rollup }.
Record mergePull := mkMergePull {
  pull_number : N; pull_url : string; pull_state : string; pull_headRef : string; pull_headOID : string;
  pull_headRepo : option string; pull_baseRef : string; pull_baseOID : string; pull_baseRepo : option string;
  pull_draft : option bool; pull_mergeQueue : option bool; pull_reviewDecision : option string;
  pull_mergeable : string; pull_mergeState : string;
  pull_additions : string; pull_deletions : string; pull_changedFiles : string;
  pull_mergedAt : option string; pull_mergeCommit : option string; pull_commits : list headCommit;
}.
Record mergeRepository := mkMergeRepository {
  repository_name : string; repository_squash : option bool; repository_pull : option mergePull }.
Record mergeResponse := mkMergeResponse { merge_errors : nat; merge_repository : option mergeRepository }.
(** The acknowledgement of the request. *)
Record mergeAck := mkMergeAck { ack_sha : string; ack_merged : bool; ack_message : string }.
Record mergerUser := mkMergerUser { user_id : N; user_type : string }.
(** A ruleset; hidden bypass actors are absent. *)
Record bypassActor := mkBypassActor { actor_id : N; actor_type : string }.
Record rulesetRule := mkRulesetRule { rule_type : string; rule_fetchAndMerge : option bool }.
Record ruleset := mkRuleset {
  ruleset_id : N; ruleset_target : string; ruleset_sourceType : string; ruleset_source : string;
  ruleset_enforcement : string; ruleset_bypass : option (list bypassActor);
  ruleset_include : list string; ruleset_exclude : list string; ruleset_rules : list rulesetRule }.

(** The text of the query ([automerge_query.go]), line by line. *)
Definition maintenanceMergeStatusQuery : string :=
  Join [
    "query($owner:String!,$name:String!,$number:Int!){";
    "  repository(owner:$owner,name:$name){";
    "    nameWithOwner squashMergeAllowed";
    "    pullRequest(number:$number){";
    "      number url state";
    "      headRefName headRefOid headRepository{nameWithOwner}";
    "      baseRefName baseRefOid repository{nameWithOwner}";
    "      isDraft isMergeQueueEnabled";
    "      reviewDecision mergeable mergeStateStatus";
    "      additions deletions changedFiles";
    "      mergedAt mergeCommit{oid}";
    "      commits(last:1){";
    "        nodes{commit{oid statusCheckRollup{state contexts{totalCount}}}}";
    "      }";
    "    }";
    "  }";
    "}"] (str [line_feed]).

Class MergeJson := {
  unmarshal_status : string -> option mergeResponse;
  (** [json.Unmarshal] of a number and of a string. *)
  unmarshal_uint : string -> option N;
  unmarshal_string : string -> option string;
  unmarshal_ack : string -> result mergeAck error;
  unmarshal_user : string -> option mergerUser;
  unmarshal_ruleset : string -> option ruleset;
}.

Section merge_wire.
Context `{Machine} `{Printable} `{GitHubJson} `{MergeJson}.
(** [redact.Text]. *)
Definition redacted (text : string) : string := Text environment text.

Definition required {A} (o : option A) (message : string) : result A error :=
  match o with Some x => Ok x | None => Err (New message) end.
(** [countField]: the count, and whether it was malformed. *)
Definition countField (raw : string) : option N * bool :=
  if bool_decide (raw = "") || bool_decide (raw = "null") then (None, false) else
  match unmarshal_uint raw with Some count => (Some count, false) | None => (None, true) end.
Definition pull_state_of (state : string) : result string error :=
  if bool_decide (state = "OPEN") then Ok "open" else
  if bool_decide (state = "CLOSED") then Ok "closed" else
  if bool_decide (state = "MERGED") then Ok "merged" else Err (New "Unrecognized GitHub pull request state").
Definition review_decision (raw : option string) : result (option string) error :=
  let! raw := required raw "GitHub merge status is missing the review decision field" in
  if bool_decide (TrimSpace raw = "null") then Ok None else
  match unmarshal_string raw with
  | Some decision =>
    guard bool_decide (decision ∈ ["APPROVED"; "CHANGES_REQUESTED"; "REVIEW_REQUIRED"])
      else New "Unrecognized GitHub PR review decision";
    Ok (Some decision)
  | None => Err (New "Unrecognized GitHub PR review decision")
  end.
(** The checks of the one commit, which is the head. *)
Definition check_state (head : string) (commits : list headCommit) : result (option string * N) error :=
  let differs := New "GitHub merge status head does not match its check commit" in
  match commits with
  | [commit] =>
    guard validObjectID (head_oid commit) && bool_decide (head_oid commit = head) else differs;
    match head_rollup commit with
    | None => Ok (None, 0)
    | Some r =>
      let! total := required (rollup_contexts r) "GitHub merge status check rollup is missing its context count" in
      guard bool_decide (rollup_state r ∈ ["SUCCESS"; "ERROR"; "FAILURE"; "EXPECTED"; "PENDING"])
        else New "Unrecognized GitHub PR check status";
      Ok (Some (rollup_state r), total)
    end
  | _ => Err differs
  end.
Definition same_repository (name : option string) (repository : string) : bool :=
  match name with Some name => EqualASCII name repository | None => false end.
(** The identity of the pull request, complete and the one asked for. *)
Definition identified (p : mergePull) (repository : string) (number : N) : bool :=
  (pull_number p =? number) && negb (bool_decide (pull_url p = "")) && negb (bool_decide (pull_headRef p = ""))
  && negb (bool_decide (pull_baseRef p = "")) && validObjectID (pull_headOID p) && validObjectID (pull_baseOID p)
  && isSome (pull_draft p) && isSome (pull_mergeQueue p)
  && same_repository (pull_headRepo p) repository && same_repository (pull_baseRepo p) repository.
Definition parseMergeStatus (out repository : string) (number : N) : result MergeStatus error :=
  let! response := required (unmarshal_status out) "Invalid GitHub merge status response" in
  let absent := "GitHub merge status query did not return a pull request" in
  guard Nat.eqb (merge_errors response) 0 else New absent;
  let! repo := required (merge_repository response) absent in
  let! p := required (repository_pull repo) absent in
  guard EqualASCII (repository_name repo) repository && isSome (repository_squash repo)
    else New "GitHub merge status reports a different or incomplete repository";
  guard identified p repository number else New "GitHub merge status is missing required pull request identity";
  let '(additions, bad1) := countField (pull_additions p) in
  let '(deletions, bad2) := countField (pull_deletions p) in
  let '(files, bad3) := countField (pull_changedFiles p) in
  let! state := pull_state_of (pull_state p) in
  guard match pull_mergeCommit p with Some oid => validObjectID oid | None => true end
    else New "GitHub merge commit is missing its revision";
  guard bool_decide (pull_mergeable p ∈ ["CONFLICTING"; "MERGEABLE"; "UNKNOWN"]) else New "Unrecognized GitHub PR mergeability";
  guard bool_decide (pull_mergeState p ∈ ["BEHIND"; "BLOCKED"; "CLEAN"; "DIRTY"; "DRAFT"; "HAS_HOOKS"; "UNKNOWN"; "UNSTABLE"])
    else New "Unrecognized GitHub merge state";
  let! review := review_decision (pull_reviewDecision p) in
  let! checks := check_state (pull_headOID p) (pull_commits p) in
  Ok {| MergeStatus_Number := pull_number p; MergeStatus_URL := pull_url p; MergeStatus_State := state;
        MergeStatus_HeadBranch := pull_headRef p; MergeStatus_Head := pull_headOID p;
        MergeStatus_HeadRepository := default "" (pull_headRepo p);
        MergeStatus_BaseBranch := pull_baseRef p; MergeStatus_BaseOID := pull_baseOID p;
        MergeStatus_Repository := repository_name repo;
        MergeStatus_Draft := default false (pull_draft p); MergeStatus_MergeQueue := default false (pull_mergeQueue p);
        MergeStatus_SquashAllowed := default false (repository_squash repo);
        MergeStatus_ReviewDecision := review; MergeStatus_Mergeable := pull_mergeable p;
        MergeStatus_MergeState := pull_mergeState p;
        MergeStatus_Additions := additions; MergeStatus_Deletions := deletions; MergeStatus_ChangedFiles := files;
        MergeStatus_MergedAt := pull_mergedAt p; MergeStatus_MergeCommit := pull_mergeCommit p;
        MergeStatus_CheckState := fst checks; MergeStatus_CheckContexts := snd checks;
        MergeStatus_StatsMalformed := bad1 || bad2 || bad3 |}.
Definition MaintenanceMergeStatus (c : Config) (number : N) : G MergeStatus :=
  let '(owner, name, _) := Cut (Config_GitHubRepo c) "/"%char in
  git! out <- gh c ["api"; "--hostname"; "github.com"; "graphql"; "-f"; "query=" +:+ maintenanceMergeStatusQuery;
                    "-f"; "owner=" +:+ owner; "-f"; "name=" +:+ name; "-F"; "number=" +:+ FormatUint number] in
  g_lift (parseMergeStatus out (Config_GitHubRepo c) number).
Definition MergeBase (c : Config) (base head : string) : G string :=
  Git c (Config_Repository c) ["merge-base"; base; head].

(** ** The destination ([merge_destination.go]) *)

Definition foreign_user (mergerID : N) (actor : bypassActor) : bool :=
  negb (actor_id actor =? 0) && bool_decide (actor_type actor = "User") && negb (actor_id actor =? mergerID).
Definition restricts_updates (rule : rulesetRule) : bool :=
  bool_decide (rule_type rule = "update") && bool_decide (rule_fetchAndMerge rule = Some false).
Definition validateMergeRuleset (raw : string) (c : Config) (rulesetID mergerID : N) : result unit error :=
  let! policy := required (unmarshal_ruleset raw) "Destination ruleset response is unreadable" in
  guard negb (rulesetID =? 0) && negb (mergerID =? 0) && (ruleset_id policy =? rulesetID)
        && bool_decide (ruleset_target policy = "branch") && bool_decide (ruleset_sourceType policy = "Repository")
        && EqualASCII (ruleset_source policy) (Config_GitHubRepo c) && bool_decide (ruleset_enforcement policy = "active")
    else New "Destination ruleset must be active and belong to this repository";
  guard ValidBranch (Config_DefaultBranch c) && bool_decide (ruleset_include policy = ["~ALL"])
        && bool_decide (ruleset_exclude policy = [branch_ref (Config_DefaultBranch c)])
    else New "Destination ruleset must restrict every branch except the exact configured default branch";
  let! bypass := required (ruleset_bypass policy)
    "Destination ruleset bypass actors are hidden; the policy reader needs ruleset write access" in
  guard forallb (foreign_user mergerID) bypass
    else New "Destination ruleset bypass actors must be explicit users other than the merger";
  guard existsb restricts_updates (ruleset_rules policy)
    else New "Destination ruleset must restrict updates without an upstream fetch-and-merge exception";
  Ok tt.
Definition mergeGH (c : Config) (token : string) (args : list string) : G string :=
  g_call (RunMachine "gh" args (Config_Repository c) (Config_CommandTimeoutSeconds c)
    ["GH_TOKEN=" +:+ token; "GITHUB_TOKEN="; "GH_HOST=github.com"; "GH_DEBUG="]).
Definition not_enforced (format : string) (args : list verb) : error :=
  Errorf ("%w: " +:+ format) (VWrap ErrMergeDestination :: args).
(** A step of the check: its failure means that no merge was requested. *)
Definition destination_step {A} (m : G A) (format : string) : G A :=
  git! r <- g_try m in
  match r with Ok x => g_ret x | Err err => g_fail (not_enforced format [VWrap err]) end.
Definition usable_token (token : string) : bool := negb (blank token) && negb (ContainsAny token (str [ascii_of_N 13; line_feed; NUL])).
Definition mergeDestinationToken (c : Config) : G string :=
  let '(token, tokenVar) := MergeTokenFor (Config_GitHubRepo c) in
  if negb (usable_token token) then g_fail (not_enforced "configure %s or its secret file" [VStr tokenVar]) else
  let '(rulesetText, rulesetVar) := MergeRulesetFor (Config_GitHubRepo c) in
  match ParseUint rulesetText 64 with
  | None | Some 0 => g_fail (not_enforced "configure a positive %s" [VStr rulesetVar])
  | Some rulesetID =>
    git! identity <- destination_step (mergeGH c token ["api"; "--hostname"; "github.com"; "user"])
                       "reading the merger identity: %w" in
    match unmarshal_user identity with
    | Some user =>
      if (user_id user =? 0) || negb (bool_decide (user_type user = "User"))
      then g_fail (not_enforced "the merger must be an identifiable dedicated user" []) else
      git! rules <- destination_step (gh c ["api"; "--hostname"; "github.com";
          "repos/" +:+ Config_GitHubRepo c +:+ "/rulesets/" +:+ FormatUint rulesetID +:+ "?includes_parents=false"])
        "reading the destination ruleset: %w" in
      git! _ <- destination_step (g_lift (validateMergeRuleset rules c rulesetID (user_id user))) "%w" in
      g_ret token
    | None => g_fail (not_enforced "the merger must be an identifiable dedicated user" [])
    end
  end.

(** ** The request *)

Definition merge_path (c : Config) (number : N) : string := pull_path c number +:+ "/merge".
Definition confirmed_by (c : Config) (head headBranch sha : string) (status : MergeStatus) : bool :=
  bool_decide (MergeStatus_State status = "merged") && bool_decide (MergeStatus_Head status = head)
  && bool_decide (MergeStatus_HeadBranch status = headBranch)
  && bool_decide (MergeStatus_BaseBranch status = Config_DefaultBranch c)
  && bool_decide (MergeStatus_MergeCommit status = Some sha).
Definition unconfirmed (format : string) (args : list verb) : error :=
  Errorf ("%w: " +:+ format) (VWrap ErrMergeUnconfirmed :: args).
(** What follows an accepted request. *)
Definition confirm_squash (c : Config) (number : N) (head headBranch out : string) : G string :=
  match unmarshal_ack out with
  | Err err => g_fail (unconfirmed "acknowledgement is not readable: %w" [VWrap err])
  | Ok response =>
    if negb (ack_merged response) || negb (validObjectID (ack_sha response))
    then g_fail (unconfirmed "acknowledgement did not confirm a merge commit: %s" [VStr (redacted (ack_message response))]) else
    git! status <- g_try (MaintenanceMergeStatus c number) in
    match status with
    | Err err => g_fail (unconfirmed "acknowledgement received but its destination is unconfirmed: %w" [VWrap err])
    | Ok status =>
      if negb (confirmed_by c head headBranch (ack_sha response) status)
      then g_fail (unconfirmed "acknowledgement does not match the reviewed pull request and destination" [])
      else g_ret (ack_sha response)
    end
  end.
Definition squash_args (c : Config) (number : N) (head : string) : list string :=
  ["api"; "--hostname"; "github.com"; "--method"; "PUT"; merge_path c number; "-f"; "sha=" +:+ head; "-f"; "merge_method=squash"].
(** What a merge request must name. *)
Definition squashable (c : Config) (number : N) (head headBranch : string) : result unit error :=
  guard negb (number =? 0) else New "Merge requires a pull request number";
  guard bool_decide (Config_DeliveryMode c = DeliveryModeMaintenance) else New "Merge is only permitted under maintenance delivery";
  guard validObjectID head else New "Merge requires the exact hexadecimal reviewed head";
  guard ValidBranch headBranch && negb (bool_decide (headBranch = Config_DefaultBranch c))
    else New "Merge requires the reviewed source branch";
  Ok tt.
Definition SquashMerge (c : Config) (number : N) (head headBranch : string) : G string :=
  git! _ <- g_lift (squashable c number head headBranch) in
  git! token <- mergeDestinationToken c in
  git! out <- mergeGH c token (squash_args c number head) in
  confirm_squash c number head headBranch out.
End merge_wire.


(** ** What a merge request is preceded by *)

Section merge_facts.
Context `{Machine} `{Printable} `{GitHubJson} `{MergeJson} (c : Config) (number : N) (head headBranch : string).

Definition merge_env (token : string) : list string :=
  ["GH_TOKEN=" +:+ token; "GITHUB_TOKEN="; "GH_HOST=github.com"; "GH_DEBUG="].
Definition merger_call (args : list string) : call (result string error) :=
  RunMachine "gh" args (Config_Repository c) (Config_CommandTimeoutSeconds c)
    (merge_env (fst (MergeTokenFor (Config_GitHubRepo c)))).
Definition operator_call (args : list string) : call (result string error) :=
  RunMachine "gh" args (Config_Repository c) (Config_CommandTimeoutSeconds c) (repoTokenEnv c ++ ["GH_HOST=github.com"]).
Definition rulesetID : N := default 0 (ParseUint (fst (MergeRulesetFor (Config_GitHubRepo c))) 64).
Definition identity_call := merger_call ["api"; "--hostname"; "github.com"; "user"].
Definition ruleset_call := operator_call ["api"; "--hostname"; "github.com";
  "repos/" +:+ Config_GitHubRepo c +:+ "/rulesets/" +:+ FormatUint rulesetID +:+ "?includes_parents=false"].
Definition put_call := merger_call (squash_args c number head).
Definition status_call :=
  operator_call ["api"; "--hostname"; "github.com"; "graphql"; "-f"; "query=" +:+ maintenanceMergeStatusQuery;
    "-f"; "owner=" +:+ fst (fst (Cut (Config_GitHubRepo c) "/"%char)); "-f";
    "name=" +:+ snd (fst (Cut (Config_GitHubRepo c) "/"%char)); "-F"; "number=" +:+ FormatUint number].
(** All that a merge ever sends, in this order. *)
Definition merge_calls : list sent :=
  [request identity_call; request ruleset_call; request put_call; request status_call].

(** What holds before the request is sent, when the first answer is the [n]th:
    the identity and the ruleset that were just read keep the merger to the
    default branch. *)
Record enforced (n : nat) : Prop := {
  enforced_squashable : squashable c number head headBranch = Ok tt;
  enforced_token : usable_token (fst (MergeTokenFor (Config_GitHubRepo c))) = true;
  enforced_ruleset : exists identity user rules,
    reply _ n identity_call = Ok identity /\ unmarshal_user identity = Some user
    /\ user_id user <> 0 /\ user_type user = "User"
    /\ reply _ (S n) ruleset_call = Ok rules /\ validateMergeRuleset rules c rulesetID (user_id user) = Ok tt;
}.
(** What holds when the merge is reported done. *)
Record landed (n : nat) (sha : string) : Prop := {
  landed_ack : exists out ack, reply _ (S (S n)) put_call = Ok out /\ unmarshal_ack out = Ok ack
    /\ ack_merged ack = true /\ ack_sha ack = sha /\ validObjectID sha = true;
  landed_status : exists out status, reply _ (S (S (S n))) status_call = Ok out
    /\ parseMergeStatus out (Config_GitHubRepo c) number = Ok status /\ confirmed_by c head headBranch sha status = true;
}.

Lemma g_call_eq {A} (q : call (result A error)) g :
  g_call q g = (reply _ (git_asked g) q, mkGit (S (git_asked g)) (git_sent g ++ [request q])).
Proof. by destruct g. Qed.

(** The state of the machine after the first [k] of the requests. *)
Definition after (g : Git_) (k : nat) : Git_ := mkGit (k + git_asked g) (git_sent g ++ take k merge_calls).
Lemma after_0 g : after g 0 = g.
Proof. destruct g. unfold after. by rewrite app_nil_r. Qed.
(** The next request. *)
Lemma asks_next g k (q : call (result string error)) :
  merge_calls !! k = Some (request q) -> g_call q (after g k) = (reply _ (k + git_asked g) q, after g (S k)).
Proof.
  intros E. rewrite g_call_eq. unfold after at 1. cbn [git_asked]. f_equal. unfold after. cbn [git_sent].
  by rewrite (take_S_r _ _ _ E), app_assoc.
Qed.

Lemma destination_step_eq {A} (m : G A) format g r g' :
  m g = (r, g') -> destination_step m format g = (match r with Ok x => Ok x | Err err => Err (not_enforced format [VWrap err]) end, g').
Proof. intros E. unfold destination_step, g_bind, g_try. rewrite E. by destruct r. Qed.
(** Continues with the answer of the next request, or stops there. *)
Lemma step_next {A} (q : call (result string error)) format (k : string -> G A) g n :
  merge_calls !! n = Some (request q) ->
  g_bind (destination_step (g_call q) format) k (after g n)
  = match reply _ (n + git_asked g) q with
    | Ok out => k out (after g (S n))
    | Err err => (Err (not_enforced format [VWrap err]), after g (S n))
    end.
Proof.
  intros E. unfold g_bind. rewrite (destination_step_eq _ _ _ _ _ (asks_next g n q E)). by destruct (reply _ _ _).
Qed.

(** The check of the destination: the first two requests. *)
Lemma mergeDestinationToken_calls g :
  exists r k, mergeDestinationToken c (after g 0) = (r, after g k) /\ (k <= 2)%nat
    /\ forall token, r = Ok token -> k = 2%nat /\ token = fst (MergeTokenFor (Config_GitHubRepo c))
         /\ (squashable c number head headBranch = Ok tt -> enforced (git_asked g)).
Proof.
  unfold mergeDestinationToken.
  rewrite (surjective_pairing (MergeTokenFor _)), (surjective_pairing (MergeRulesetFor _)).
  assert (forall err n, (n <= 2)%nat -> exists r k, (@Err string error err, after g n) = (r, after g k) /\ (k <= 2)%nat /\
    forall token, r = Ok token -> k = 2%nat /\ token = fst (MergeTokenFor (Config_GitHubRepo c))
         /\ (squashable c number head headBranch = Ok tt -> enforced (git_asked g))) as Stop
    by (intros err n Le; exists (Err err), n; by split_and!).
  destruct (usable_token _) eqn:U; [|apply Stop; lia].
  assert (forall id, ParseUint (fst (MergeRulesetFor (Config_GitHubRepo c))) 64 = Some id -> rulesetID = id) as Id
    by (unfold rulesetID; by intros id ->).
  destruct (ParseUint _ _) as [[|id]|]; [apply Stop; lia| |apply Stop; lia].
  rewrite <- (Id _ eq_refl).
  change (mergeGH c _ _) with (g_call identity_call).
  change (gh c ("api" :: _)) with (g_call ruleset_call).
  cbn [negb].   rewrite (step_next identity_call) by done. cbn [Nat.add].
  destruct (reply _ _ identity_call) as [identity|err] eqn:R0; [|apply Stop; lia].
  destruct (unmarshal_user identity) as [user|] eqn:Us; [|apply Stop; lia].
  destruct (_ || _) eqn:B; [apply Stop; lia|]. bool_hyps. rewrite (step_next ruleset_call) by done. cbn [Nat.add].
  destruct (reply _ _ ruleset_call) as [rules|err] eqn:R1; [|apply Stop; lia].
  unfold g_bind. erewrite destination_step_eq by done.
  destruct (validateMergeRuleset _ _ _ _) as [[]|err] eqn:V; [|apply Stop; lia].
  do 2 eexists. split_and!; [done|lia|]. intros token [= <-]. split_and!; [done..|]. intros Sq. split; [done..|].
  exists identity, user, rules. split_and!; try done.
Qed.

(** What follows an accepted request: one more reading. *)
Lemma confirm_squash_calls g out :
  reply _ (2 + git_asked g) put_call = Ok out ->
  exists r k, confirm_squash c number head headBranch out (after g 3) = (r, after g k) /\ (k <= 4)%nat
    /\ forall sha, r = Ok sha -> k = 4%nat /\ landed (git_asked g) sha.
Proof.
  intros R2. unfold confirm_squash. destruct (unmarshal_ack out) as [ack|err] eqn:Ak; [|by exists (Err (unconfirmed "acknowledgement is not readable: %w" [VWrap err])), 3%nat; split_and!; [|lia|]].
  destruct (_ || _) eqn:B; [by do 2 eexists; split_and!; [done|lia|]|]. bool_hyps.
  assert (MaintenanceMergeStatus c number (after g 3) = match reply _ (3 + git_asked g) status_call with
    | Ok text => (parseMergeStatus text (Config_GitHubRepo c) number, after g 4) | Err err => (Err err, after g 4) end) as E.
  { unfold MaintenanceMergeStatus. destruct (Cut _ _) as [[owner name] found] eqn:Cu. unfold g_bind.
    assert (gh c ["api"; "--hostname"; "github.com"; "graphql"; "-f"; "query=" +:+ maintenanceMergeStatusQuery; "-f"; "owner=" +:+ owner;
              "-f"; "name=" +:+ name; "-F"; "number=" +:+ FormatUint number] = g_call status_call) as -> by (unfold status_call; by rewrite Cu).
    rewrite (asks_next g 3) by done. by destruct (reply _ _ status_call). }
  unfold g_bind, g_try. rewrite E. destruct (reply _ _ status_call) as [text|err] eqn:R3; [|by do 2 eexists; split_and!; [done|lia|]].
  destruct (parseMergeStatus _ _ _) as [status|err] eqn:P; [|by do 2 eexists; split_and!; [done|lia|]].
  destruct (confirmed_by _ _ _ _ _) eqn:Cf; [|by do 2 eexists; split_and!; [done|lia|]].
  do 2 eexists. split_and!; [done|lia|]. intros sha [= <-]. split; [done|]. split; eauto 10.
Qed.
(** The whole run: how far it got, and what that says. *)
Lemma SquashMerge_steps g :
  exists r k, SquashMerge c number head headBranch g = (r, after g k) /\ (k <= 4)%nat
    /\ ((2 < k)%nat -> enforced (git_asked g)) /\ forall sha, r = Ok sha -> k = 4%nat /\ landed (git_asked g) sha.
Proof.
  replace (SquashMerge _ _ _ _ g) with (SquashMerge c number head headBranch (after g 0)) by (by rewrite after_0).
  unfold SquashMerge, g_lift. unfold g_bind at 1.
  destruct (squashable _ _ _ _) as [[]|err] eqn:Sq; [|by do 2 eexists; split_and!; [done|lia..|]].
  unfold g_bind at 1. destruct (mergeDestinationToken_calls g) as (r & k & -> & Le & T).
  destruct r as [token|err]; [|by exists (Err err), k; split_and!; [|lia..|]].
  destruct (T token eq_refl) as (-> & -> & En). specialize (En Sq).
  change (mergeGH c _ _) with (g_call put_call). unfold g_bind. rewrite (asks_next g 2) by done.
  destruct (reply _ _ put_call) as [out|err] eqn:R2; [|by exists (Err err), 3%nat; split_and!; [|lia|..]].
  destruct (confirm_squash_calls g out R2) as (r & k & -> & Le3 & La). by exists r, k.
Qed.

(** C5: a merge is requested only where it can do no harm, and reported only
    when it landed.  Whatever GitHub answers, a squash merge sends a prefix of
    four fixed requests; the third, the only one that writes, follows a reading
    of the identity and of the ruleset that keep the merger to the default
    branch; and the commit it returns was acknowledged and read back, merged
    from the exact head and branch into the default branch. *)
Theorem SquashMerge_guarded g :
  let n := git_asked g in
  exists k, (k <= 4)%nat /\ git_sent (snd (SquashMerge c number head headBranch g)) = git_sent g ++ take k merge_calls
    /\ ((2 < k)%nat -> enforced n)
    /\ forall sha, fst (SquashMerge c number head headBranch g) = Ok sha -> k = 4%nat /\ landed n sha.
Proof. destruct (SquashMerge_steps g) as (r & k & -> & Le & En & La). by exists k. Qed.
End merge_facts.

(** ** A run

    A repository whose ruleset binds the merger: the merge is requested and
    confirmed. *)
Definition sample_oid : string := "aaaaaaaaaaaaaaaaaaaaaaaaaaaaaaaaaaaaaaaa".
Definition merged_oid : string := "bbbbbbbbbbbbbbbbbbbbbbbbbbbbbbbbbbbbbbbb".
Definition merging_config : Config := sample_config <| Config_DeliveryMode := DeliveryModeMaintenance |>.
Definition merged_pull : mergePull :=
  mkMergePull 7 "https://github.com/acme/widgets/pull/7" "MERGED" "octomus/t" sample_oid (Some "acme/widgets") "main" merged_oid
    (Some "acme/widgets") (Some false) (Some false) (Some "null") "UNKNOWN" "UNKNOWN" "1" "2" "3" (Some "2026-01-01T00:40:00Z")
    (Some merged_oid) [mkHeadCommit sample_oid None].
#[local] Instance sample_merge_json : MergeJson := {
  unmarshal_status := fun _ => Some (mkMergeResponse 0 (Some (mkMergeRepository "acme/widgets" (Some true) (Some merged_pull))));
  unmarshal_uint := fun _ => Some 1; unmarshal_string := fun _ => None;
  unmarshal_ack := fun _ => Ok (mkMergeAck merged_oid true "");
  unmarshal_user := fun _ => Some (mkMergerUser 5 "User");
  unmarshal_ruleset := fun _ => Some (mkRuleset 9 "branch" "Repository" "acme/widgets" "active" (Some []) ["~ALL"]
    ["refs/heads/main"] [mkRulesetRule "update" (Some false)]) }.
#[local] Instance merging_machine : Machine := {
  reply := fun A n q => match q in call A return A with
    | RunMachine _ _ _ _ _ => Ok "" | RunPredicate _ _ _ _ _ _ => Ok true | RunText _ _ _ _ _ _ => Ok ("", true)
    | TrustedGitDir _ => Ok "" | MkdirTemp _ => Ok "" | RemoveAll _ => tt | ReadFile _ => Ok "" | ReleaseCheckout _ _ => tt
    | NowText => "" | Lstat _ | MkdirAll _ _ | Mkdir _ _ | WriteFile _ _ _ | AcquireCheckout _ _ | CtxErr => None end;
  LookupEnv := fun name => if bool_decide (name = "OCTOMUS_MERGE_RULESET_ID") then Some "9" else
    if bool_decide (name = "OCTOMUS_MERGE_TOKEN") then Some "secret" else None;
  environment := []; NotExist := fun _ => false; ToUpper := fun s => s }.
Example merge_run :
  let '(r, g) := SquashMerge merging_config 7 sample_oid "octomus/t" (mkGit 0 []) in
  r = Ok merged_oid /\ git_asked g = 4%nat /\ fst (SquashMerge sample_config 7 sample_oid "octomus/t" (mkGit 0 [])) <> Ok merged_oid.
Proof. by vm_compute. Qed.
