(* ===== verification/Actor.v ===== *)
(** * A goroutine beside the rest of the service

    A merge pass or a planning cycle keeps data of its own and shares the state
    of the engine.  Outside the gate the rest of the service may change that
    state before each access; under the gate it does not.  The store may refuse
    any call, and git and GitHub answer what they like.  What the goroutine
    does is kept in order. *)
From S2P Require Import Prelude GoStrings WireJson Enums Types GoErrors Config GoTime Model Store Runtime GitOps.
Local Open Scope string_scope.
Local Open Scope list_scope.

(** The rest of the service, and why SQLite refuses a call, if it does. *)
Class Company := { beside : nat -> App -> App; broken : nat -> option error }.
(** How a request to the machine is kept. *)
Class Speech (D : Type) := said : sent -> D.

Record Actor (X D : Type) := mkActor {
  ac_own : X; ac_app : App; ac_asked : nat; ac_turns : nat; ac_deeds : list D }.
Arguments mkActor {X D} _ _ _ _ _.
Arguments ac_own {X D} _.
Arguments ac_app {X D} _.
Arguments ac_asked {X D} _.
Arguments ac_turns {X D} _.
Arguments ac_deeds {X D} _.
#[export] Instance eta_Actor X D : Eta (Actor X D) := fun r =>
  mkActor (ac_own r) (ac_app r) (ac_asked r) (ac_turns r) (ac_deeds r).
Notation Act X D := (Op (Actor X D)).

Section actor.
Context {X D : Type} `{World} `{Machine} `{Company} `{Speech D}.
Notation P := (Act X D).

(** ** Accesses *)

Definition shared {A} (m : M A) : P A := fun w =>
  let '(r, a) := m (beside (ac_turns w) (ac_app w)) in (r, w <| ac_app := a |> <| ac_turns := S (ac_turns w) |>).
Definition held {A} (m : M A) : P A := fun w =>
  let '(r, a) := m (ac_app w) in (r, w <| ac_app := a |> <| ac_turns := S (ac_turns w) |>).
Definition enter {A} (gated : bool) (m : M A) : P A := if gated then held m else shared m.
(** [a.gate.Lock()]. *)
Definition lock : P unit := shared (m_ret tt).
(** A call of the store that is given the time, one that is not, and one that
    reads. *)
Definition saved {A} (gated : bool) (op : string -> Db -> outcome A) : P A :=
  go! n <- m_read ac_turns in
  enter gated (go! now <- time_now in
    match broken n with Some err => m_fail (Failed err) | None => m_store (op (Timestamp now)) end).
Definition stored {A} (gated : bool) (op : Db -> outcome A) : P A :=
  go! n <- m_read ac_turns in
  enter gated (match broken n with Some err => m_fail (Failed err) | None => m_store op end).
Definition loaded {A} (gated : bool) (f : Db -> A) : P A :=
  go! n <- m_read ac_turns in
  enter gated (match broken n with Some err => m_fail (Failed err) | None => m_read (fun a => f (app_db a)) end).
(** A program that asks the machine. *)
Definition asks {A} (m : G A) : P A := fun w =>
  let '(r, g) := m (mkGit (ac_asked w) []) in
  (match r with Ok x => Ok x | Err err => Err (Failed err) end,
   w <| ac_asked := git_asked g |> <| ac_deeds := ac_deeds w ++ map said (git_sent g) |>).
Definition does (x : D) : P unit := m_write (fun w => w <| ac_deeds := ac_deeds w ++ [x] |>).
Definition lifted {A} (r : result A error) : P A := m_lift (match r with Ok x => Ok x | Err err => Err (Failed err) end).
(** [model.Now()]. *)
Definition now_text : P string := go! now <- shared time_now in m_ret (Timestamp now).
(** [ctx.Err()]. *)
Definition ctx_err : P (option error) := asks (g_ask CtxErr).
Definition ctx_done : P bool := go! err <- ctx_err in m_ret (isSome err).
(** [_ = a.store.Event(...)]. *)
Definition event (s : Store) (gated : bool) (entity : string) (kind : EventKind) (message : string) : P unit :=
  go! n <- m_read ac_turns in
  go! _ <- m_try (enter gated (match broken n with Some err => m_fail (Failed err) | None => Event s entity kind message end)) in
  m_ret tt.
End actor.

(** ** What an actor does

    [keeps T m]: what [m] adds to the deeds satisfies [T], in any world. *)
Class Trace {D : Type} (T : list D -> Prop) : Prop := {
  trace_nil : T [];
  trace_app l l' : T l -> T l' -> T (l ++ l');
}.
Definition keeps_at {X D A} (T : list D -> Prop) (m : Act X D A) (w : Actor X D) : Prop :=
  exists new, ac_deeds (snd (m w)) = ac_deeds w ++ new /\ T new.
Definition keeps {X D A} (T : list D -> Prop) (m : Act X D A) : Prop := forall w, keeps_at T m w.

Section keeps.
Context {X D : Type} `{World} `{Machine} `{Company} `{Speech D} (T : list D -> Prop) `{!Trace T}.
Notation P := (Act X D).

Lemma keeps_quiet {A} (m : P A) : (forall w, ac_deeds (snd (m w)) = ac_deeds w) -> keeps T m.
Proof. intros E w. exists []. rewrite E, app_nil_r. split; [done|apply trace_nil]. Qed.
Lemma keeps_bind {A B} (m : P A) (k : A -> P B) : keeps T m -> (forall x, keeps T (k x)) -> keeps T (m_bind m k).
Proof.
  intros S K w. unfold keeps_at, m_bind. destruct (S w) as (new & E & O). destruct (m w) as [[x|err] w1]; simpl in *; [|by eauto].
  destruct (K x w1) as (more & E2 & O2). exists (new ++ more). rewrite E2, E, app_assoc. split; [done|].
  by apply trace_app.
Qed.
Lemma keeps_try {A} (m : P A) : keeps T m -> keeps T (m_try m).
Proof. intros S w. unfold keeps_at, m_try. specialize (S w). unfold keeps_at in S. destruct (m w) as [[x|[]] w1]; exact S. Qed.
Lemma keeps_ret {A} (x : A) : keeps T (@m_ret (Actor X D) A x).
Proof. by apply keeps_quiet. Qed.
Lemma keeps_fail {A} err : keeps T (@m_fail (Actor X D) A err).
Proof. by apply keeps_quiet. Qed.
Lemma keeps_lift {A} (r : result A failure) : keeps T (@m_lift (Actor X D) A r).
Proof. by apply keeps_quiet. Qed.
Lemma keeps_read {A} (f : Actor X D -> A) : keeps T (m_read f).
Proof. by apply keeps_quiet. Qed.
Lemma keeps_shared {A} (m : M A) : keeps (X := X) T (shared m).
Proof. apply keeps_quiet. intros w. unfold shared. by destruct (m _). Qed.
Lemma keeps_held {A} (m : M A) : keeps (X := X) T (held m).
Proof. apply keeps_quiet. intros w. unfold held. by destruct (m _). Qed.
Lemma keeps_enter {A} gated (m : M A) : keeps (X := X) T (enter gated m).
Proof. destruct gated; [apply keeps_held|apply keeps_shared]. Qed.
Lemma keeps_lock : keeps (X := X) T lock.
Proof. apply keeps_shared. Qed.
Lemma keeps_saved {A} gated (op : string -> Db -> outcome A) : keeps (X := X) T (saved gated op).
Proof. apply keeps_bind; [apply keeps_read|]. intros n. apply keeps_enter. Qed.
Lemma keeps_stored {A} gated (op : Db -> outcome A) : keeps (X := X) T (stored gated op).
Proof. apply keeps_bind; [apply keeps_read|]. intros n. apply keeps_enter. Qed.
Lemma keeps_lifted {A} (r : result A error) : keeps (X := X) T (lifted r).
Proof. apply keeps_lift. Qed.
Lemma keeps_now_text : keeps (X := X) T now_text.
Proof. apply keeps_bind; [apply keeps_shared|]. intros now. apply keeps_ret. Qed.
Lemma keeps_loaded {A} gated (f : Db -> A) : keeps (X := X) T (loaded gated f).
Proof. apply keeps_bind; [apply keeps_read|]. intros n. apply keeps_enter. Qed.
Lemma keeps_event s gated entity kind message : keeps (X := X) T (event s gated entity kind message).
Proof.
  apply keeps_bind; [apply keeps_read|]. intros n. apply keeps_bind; [apply keeps_try, keeps_enter|]. intros _. apply keeps_ret.
Qed.
Lemma keeps_own (f : X -> X) : keeps T (m_write (fun w : Actor X D => w <| ac_own := f (ac_own w) |>)).
Proof. by apply keeps_quiet. Qed.
Lemma keeps_does x : T [x] -> keeps (X := X) T (does x).
Proof. intros R w. by exists [x]. Qed.
(** When every request that only reads is allowed. *)
Lemma keeps_asks {A} (m : G A) (req : sent -> Prop) :
  says req m (fun _ => True) -> (forall l, Forall req l -> T (map said l)) -> keeps (X := X) T (asks m).
Proof.
  intros S R w. unfold keeps_at, asks. specialize (S (mkGit (ac_asked w) [])). destruct (m _) as [r g].
  destruct S as (new & E & F & _). simpl in *. exists (map said new). rewrite E. split; [done|]. by apply R.
Qed.
(** The state of the engine is not the machine's. *)
Lemma asks_app {A} (m : G A) (w : Actor X D) : ac_app (snd (asks m w)) = ac_app w.
Proof. unfold asks. by destruct (m _). Qed.
End keeps.

(** ** What does not panic

    [proceeds T m]: [m] keeps [T], leaves the actor's own state alone and never
    panics. *)
Definition calm {A} (r : result A failure) : Prop := match r with Err (Panicked _) => False | _ => True end.
Definition calm_op {A} (m : M A) : Prop := forall a, calm (fst (m a)).
Definition tame {X D A} (m : Act X D A) : Prop := forall w, calm (fst (m w)) /\ ac_own (snd (m w)) = ac_own w.
Definition proceeds {X D A} (T : list D -> Prop) (m : Act X D A) : Prop := keeps T m /\ tame m.
Lemma calm_op_bind {A B} (m : M A) (k : A -> M B) : calm_op m -> (forall x, calm_op (k x)) -> calm_op (m_bind m k).
Proof. intros C K a. unfold m_bind. specialize (C a). destruct (m a) as [[x|err] a1]; [apply K|exact C]. Qed.
Lemma calm_store {A} (op : Db -> outcome A) : calm_op (m_store op).
Proof. intros a. unfold m_store. by destruct (op _) as [[x|err] db]. Qed.
Lemma calm_Event `{World} s entity kind message : calm_op (Event s entity kind message).
Proof. apply calm_op_bind; [done|]. intros now. apply calm_store. Qed.

Section proceeds.
Context {X D : Type} `{World} `{Machine} `{Company} `{Speech D} (T : list D -> Prop) `{!Trace T}.
Notation P := (Act X D).

Lemma proceeds_keeps {A} (m : P A) : proceeds T m -> keeps T m.
Proof. by intros []. Qed.
Lemma proceeds_bind {A B} (m : P A) (k : A -> P B) : proceeds T m -> (forall x, proceeds T (k x)) -> proceeds T (m_bind m k).
Proof.
  intros [S C] K. split; [apply (keeps_bind _); [done|apply K]|]. intros w. unfold m_bind. specialize (C w).
  destruct (m w) as [[x|err] w1]; [|exact C]. destruct C as [_ <-]. apply K.
Qed.
Lemma proceeds_try {A} (m : P A) : proceeds T m -> proceeds T (m_try m).
Proof.
  intros [S C]. split; [by apply (keeps_try _)|]. intros w. unfold m_try. specialize (C w). by destruct (m w) as [[x|[]] w1], C.
Qed.
Lemma proceeds_ret {A} (x : A) : proceeds T (@m_ret (Actor X D) A x).
Proof. split; [apply (keeps_ret _)|done]. Qed.
Lemma proceeds_fail {A} err : calm (@Err A _ err) -> proceeds T (@m_fail (Actor X D) A err).
Proof. split; [apply (keeps_fail _)|done]. Qed.
Lemma proceeds_lift {A} (r : result A failure) : calm r -> proceeds T (@m_lift (Actor X D) A r).
Proof. split; [apply (keeps_lift _)|done]. Qed.
Lemma proceeds_lifted {A} (r : result A error) : proceeds (X := X) T (lifted r).
Proof. split; [apply (keeps_lifted _)|]. intros w. by destruct r. Qed.
Lemma proceeds_read {A} (f : Actor X D -> A) : proceeds T (m_read f).
Proof. split; [apply (keeps_read _)|done]. Qed.
Lemma proceeds_enter {A} gated (m : M A) : calm_op m -> proceeds (X := X) T (enter gated m).
Proof.
  intros C. split; [apply (keeps_enter _)|]. intros w. destruct gated; unfold enter, held, shared.
  - specialize (C (ac_app w)). by destruct (m _).
  - specialize (C (beside (ac_turns w) (ac_app w))). by destruct (m _).
Qed.
Lemma proceeds_shared {A} (m : M A) : calm_op m -> proceeds (X := X) T (shared m).
Proof. apply (proceeds_enter false). Qed.
Lemma proceeds_held {A} (m : M A) : calm_op m -> proceeds (X := X) T (held m).
Proof. apply (proceeds_enter true). Qed.
Lemma proceeds_lock : proceeds (X := X) T lock.
Proof. by apply proceeds_shared. Qed.
Lemma proceeds_now : proceeds (X := X) T (shared time_now).
Proof. by apply proceeds_shared. Qed.
Lemma proceeds_broken {A} gated (m : M A) :
  calm_op m -> proceeds (X := X) T (go! n <- m_read ac_turns in
    enter gated (match broken n with Some err => m_fail (Failed err) | None => m end)).
Proof. intros C. apply proceeds_bind; [apply proceeds_read|]. intros n. apply proceeds_enter. by destruct (broken n). Qed.
Lemma proceeds_stored {A} gated (op : Db -> outcome A) : proceeds (X := X) T (stored gated op).
Proof. apply proceeds_broken, calm_store. Qed.
Lemma proceeds_loaded {A} gated (f : Db -> A) : proceeds (X := X) T (loaded gated f).
Proof. by apply proceeds_broken. Qed.
Lemma proceeds_saved {A} gated (op : string -> Db -> outcome A) : proceeds (X := X) T (saved gated op).
Proof.
  apply proceeds_bind; [apply proceeds_read|]. intros n. apply proceeds_enter, calm_op_bind; [done|]. intros now.
  destruct (broken n); [done|apply calm_store].
Qed.
Lemma proceeds_event s gated entity kind message : proceeds (X := X) T (event s gated entity kind message).
Proof.
  apply proceeds_bind; [apply proceeds_read|]. intros n. apply proceeds_bind; [|intros _; apply proceeds_ret].
  apply proceeds_try, proceeds_enter. destruct (broken n); [done|apply calm_Event].
Qed.
Lemma proceeds_now_text : proceeds (X := X) T now_text.
Proof. apply proceeds_bind; [apply proceeds_now|]. intros now. apply proceeds_ret. Qed.
Lemma proceeds_does x : T [x] -> proceeds (X := X) T (does x).
Proof. intros R. split; [by apply (keeps_does _)|done]. Qed.
Lemma proceeds_asks {A} (m : G A) (req : sent -> Prop) :
  says req m (fun _ => True) -> (forall l, Forall req l -> T (map said l)) -> proceeds (X := X) T (asks m).
Proof.
  intros S R. split; [by eapply keeps_asks|]. intros w. unfold asks. by destruct (m _) as [[x|err] g].
Qed.
End proceeds.

(** Two continuations that agree where [m] ends. *)
Lemma bind_ext {X A B} (m : Op X A) (k k' : A -> Op X B) w :
  (forall x w', m w = (Ok x, w') -> k x w' = k' x w') -> m_bind m k w = m_bind m k' w.
Proof. intros E. unfold m_bind. destruct (m w) as [[x|err] w1] eqn:R; [by apply E|done]. Qed.

(** ** Looking under the gate

    A program that only looks at the state [a]. *)
Definition peeks {X D A} (a : App) (m : Act X D A) (Q : A -> Prop) : Prop := forall w, ac_app w = a ->
  ac_app (snd (m w)) = a /\ ac_deeds (snd (m w)) = ac_deeds w /\ forall x, fst (m w) = Ok x -> Q x.
Section peeks.
Context {X D : Type} `{World} `{Machine} `{Company} `{Speech D}.
Notation P := (Act X D).

Lemma peeks_ret {A} a (x : A) (Q : A -> Prop) : Q x -> peeks a (@m_ret (Actor X D) A x) Q.
Proof. intros R w E. split_and!; [done..|]. by intros y [= <-]. Qed.
Lemma peeks_bind {A B} a (m : P A) (k : A -> P B) (Q : B -> Prop) :
  peeks a m (fun x => peeks a (k x) Q) -> peeks a (m_bind m k) Q.
Proof.
  intros S w E. unfold m_bind. destruct (S w E) as (E1 & E2 & R). destruct (m w) as [[x|err] w1]; simpl in *; [|done].
  destruct (R x eq_refl w1 E1) as (E3 & E4 & R'). by rewrite E4, E2.
Qed.
Lemma peeks_held {A} a (f : App -> A) (Q : A -> Prop) : Q (f a) -> peeks (X := X) (D := D) a (held (m_read f)) Q.
Proof. intros R w <-. split_and!; [done..|]. by intros x [= <-]. Qed.
Lemma peeks_loaded {A} a (f : Db -> A) (Q : A -> Prop) : Q (f (app_db a)) -> peeks (X := X) (D := D) a (loaded true f) Q.
Proof.
  intros R w <-. unfold loaded, m_bind, m_read. destruct (broken (ac_turns w)) as [err|]; [done|].
  split_and!; [done..|]. by intros x [= <-].
Qed.
Lemma peeks_try {A} a (m : P A) (Q : A -> Prop) :
  peeks a m Q -> peeks a (m_try m) (fun r => match r with Ok x => Q x | Err _ => True end).
Proof.
  intros S w E. unfold m_try. destruct (S w E) as (E1 & E2 & R). destruct (m w) as [[x|[]] w1]; simpl in *;
    (split_and!; [done..|]); intros y [= <-]; auto.
Qed.
Lemma keeps_peeked {A B} (T : list D -> Prop) `{!Trace T} (m : P A) (k : A -> P B) (Q : App -> A -> Prop) :
  (forall a, peeks a m (Q a)) -> (forall w x, Q (ac_app w) x -> keeps_at T (k x) w) -> keeps T (m_bind m k).
Proof.
  intros R K w. unfold keeps_at, m_bind. destruct (R _ w eq_refl) as (E1 & E2 & F). destruct (m w) as [[x|err] w1]; simpl in *.
  - rewrite <- E1 in F. destruct (K w1 x (F _ eq_refl)) as (new & E & O). exists new. by rewrite E, E2.
  - exists []. rewrite E2, app_nil_r. split; [done|apply trace_nil].
Qed.
(** A reading of the clock changes nothing that is looked at. *)
Lemma keeps_at_now {A} (T : list D -> Prop) (k : instant -> P A) w (R : App -> Prop) :
  R (ac_app w) -> (forall a n, R a -> R (a <| app_reads := n |>)) ->
  (forall now w', R (ac_app w') -> keeps_at T (k now) w') -> keeps_at T (m_bind (held time_now) k) w.
Proof.
  intros Pw Pr K.
  apply (K (clock (app_reads (ac_app w))) (mkActor (ac_own w) ((ac_app w) <| app_reads := S (app_reads (ac_app w)) |>)
    (ac_asked w) (S (ac_turns w)) (ac_deeds w))). by apply Pr.
Qed.
End peeks.

(** ** Automation

    [acting] follows the structure of a program. *)
Create HintDb act.
#[export] Hint Resolve proceeds_ret proceeds_lifted proceeds_read proceeds_shared proceeds_held proceeds_enter proceeds_lock proceeds_now proceeds_stored
  proceeds_loaded proceeds_saved proceeds_event proceeds_now_text : act.
#[export] Hint Extern 0 (Trace _) => exact _ : act.
#[export] Hint Extern 0 (calm_op _) => done : act.
Ltac acting :=
  repeat (intros; first
    [ solve [auto with act nocore]
    | apply (proceeds_bind _)
    | apply (proceeds_try _)
    | apply (proceeds_fail _); exact I
    | match goal with |- proceeds _ (if ?c then _ else _) => destruct c end
    | match goal with |- proceeds _ (match ?x with _ => _ end) => destruct x end ]).
