(* ===== verification/Observe.v ===== *)
(** * Observing the repository on GitHub ([internal/engine/observation.go])

    What the service reads of the default branch and of the open pull requests,
    and under the gate what it keeps of it: an observation counts only while
    the configuration still names the same repository.  These are programs of
    any goroutine beside the rest of the service ([Actor]). *)
From S2P Require Import Prelude GoStrings Utf8 Runes WireJson Enums Types GoErrors Config GoTime Model Samples Strconv Store StoreMerges StoreCapacity StoreTasks Runtime Observations TaskWorkers GitOps GitHub Actor.
Local Open Scope string_scope.
Local Open Scope list_scope.
Local Open Scope N_scope.

Record prSnapshot := mkPRSnapshot {
  snapshot_inventory : OpenPRInventory; snapshot_owned : list PullRequest; snapshot_released : list string }.

Definition overlayOwnedDetails (inventory : OpenPRInventory) (details : list PullRequest) : OpenPRInventory :=
  let byNumber := foldl (fun m detail => <[PullRequest_Number detail := detail]> m)
                    (∅ : gmap N PullRequest) details in
  inventory <| OpenPRInventory_PRs :=
    map (fun observed => default observed (byNumber !! PullRequest_Number observed)) (OpenPRInventory_PRs inventory) |>.

Definition errPRPolicyChanged : error := New "Pull request policy changed during refresh".
Definition errStaleInventory : error := New "Pull request inventory became stale before persistence".

(** The pull request is settled on GitHub and is the task's own. *)
Definition settled_pr (cfg : Config) (branch : string) (detail : PullRequest) : bool :=
  bool_decide (PullRequest_State detail = "closed" \/ PullRequest_State detail = "merged")
  && EqualASCII (PullRequest_HeadRepository detail) (Config_GitHubRepo cfg)
  && EqualASCII (PullRequest_BaseRepository detail) (Config_GitHubRepo cfg)
  && bool_decide (PullRequest_Branch detail = branch).
(** A task whose reservation a settled pull request may release. *)
Definition delivered_task (t : Task) : bool :=
  isSome (Task_OutputCommit t)
  && (bool_decide (Task_Status t = StatusPublished) && isSome (Task_PRNumber t) || bool_decide (Task_Status t = StatusCancelled)).

(** The digest of what planning depends on. *)
Definition observed_part (pr : PullRequest) : string :=
  FormatUint (PullRequest_Number pr) +:+ ":" +:+ PullRequest_Head pr +:+ ":" +:+ PullRequest_Base pr
  +:+ ":" +:+ PullRequest_State pr +:+ ":" +:+ PullRequest_ReviewDecision pr +:+ ":" +:+ PullRequest_CheckStatus pr
  +:+ ":" +:+ PullRequest_Mergeability pr.
Definition contextFingerprint (sha256 : string -> string) (revision : string) (prs : list PullRequest) : string :=
  sha256 (revision +:+ String line_feed (Join (sort_strings (map observed_part prs)) (String line_feed ""))).

Section observe.
Context {X D : Type} `{Unicode} `{World} `{Machine} `{Printable} `{GitHubJson} `{Company} `{Speech D}.
Context (s : Store) (live_config : Db -> Config).
Notation P := (Act X D).

(** [App.Config] and [App.Control]. *)
Definition read_config (gated : bool) : P Config := loaded gated live_config.
Definition read_control (gated : bool) : P Control := loaded gated (liveControl (ControlKey s)).

(** ** The default branch *)

Definition observeDefaultBranch (cfg : Config) (revision observedAt : string) : P unit :=
  go! _ <- lock in
  go! live <- read_config true in
  if negb (SameRemoteIdentity live cfg)
  then m_fail (Failed (New "Configuration identity changed during remote observation"))
  else held (observeLocked cfg revision observedAt).
(** The revision, and the time the read began. *)
Definition defaultBranchSHA (cfg : Config) : P (string * string) :=
  go! observedAt <- now_text in
  go! revision <- asks (RemoteRevision cfg (Config_DefaultBranch cfg)) in
  let revision := default "" revision in
  if bool_decide (revision = "") then
    go! _ <- observeDefaultBranch cfg "" observedAt in
    m_fail (Failed (New "Default branch missing on remote"))
  else m_ret (revision, observedAt).

(** ** The open pull requests *)

(** The pull request of a reservation on GitHub. *)
Definition reservation_pr (cfg : Config) (reservation : PRReservation) (t : Task) : G (option PullRequest) :=
  match Task_PRNumber t with
  | Some number => git! pr <- PR cfg number in g_ret (Some pr)
  | None => PublicationPR cfg (PRReservation_Branch reservation)
  end.
(** Whether GitHub shows the pull request of a reservation settled; an error
    keeps the reservation. *)
Definition remote_settled (cfg : Config) (reservation : PRReservation) (t : Task) : P bool :=
  go! detail <- m_try (asks (reservation_pr cfg reservation t)) in
  match detail with
  | Err _ => m_ret false
  | Ok None => m_ret true
  | Ok (Some detail) =>
    if negb (settled_pr cfg (PRReservation_Branch reservation) detail) then m_ret false else
    if bool_decide (Some (PullRequest_Head detail) = Task_OutputCommit t) then m_ret true else
    go! marker <- m_try (asks (TaskMarker cfg (Task_ID t) detail)) in
    m_ret (match marker with Ok marker => marker | Err _ => false end)
  end.
Definition releasable (cfg : Config) (represented : gset string) (reservation : PRReservation) : P bool :=
  if bool_decide (PRReservation_Branch reservation ∈ represented) then m_ret false else
  go! task <- loaded false (fun db => db_tasks db !! PRReservation_TaskID reservation) in
  match task with
  | Some t => if delivered_task t then remote_settled cfg reservation t else m_ret false
  | None => m_ret false
  end.
Fixpoint release_each (cfg : Config) (represented : gset string) (reservations : list PRReservation) : P (list string) :=
  match reservations with
  | [] => m_ret []
  | reservation :: reservations =>
    go! release <- releasable cfg represented reservation in
    go! released <- release_each cfg represented reservations in
    m_ret (if release then PRReservation_TaskID reservation :: released else released)
  end.
Definition releasableReservations (cfg : Config) (inventory : OpenPRInventory) : P (list string) :=
  go! reservations <- loaded false (reservationRows (Config_GitHubRepo cfg)) in
  release_each cfg (OwnedBranches inventory) reservations.
Definition wrapped {A} (format : string) (m : P A) : P A :=
  go! r <- m_try m in
  match r with
  | Ok x => m_ret x
  | Err (Failed err) => m_fail (Failed (Errorf format [VWrap err]))
  | Err err => m_fail err
  end.
Definition observeOpenPRs (cfg : Config) : P prSnapshot :=
  go! inventory <- wrapped "Open pull request inventory failed: %w" (asks (OpenPRs cfg)) in
  go! owned <- wrapped "Owned pull request refresh failed: %w" (asks (OwnedPRs cfg inventory)) in
  let inventory := overlayOwnedDetails inventory owned in
  go! released <- releasableReservations cfg inventory in
  m_ret (mkPRSnapshot inventory owned released).
Fixpoint record_owned (observed : Config) (owned : list PullRequest) : P unit :=
  match owned with
  | [] => m_ret tt
  | pr :: owned =>
    go! _ <- saved true (fun now db => (Ok tt, RecordPRObservation now (Config_GitHubRepo observed) pr false db)) in
    record_owned observed owned
  end.
Definition savePRsLocked (observed : Config) (snapshot : prSnapshot) : P bool :=
  go! control <- read_control true in
  go! persisted <- stored true (PersistPRInventory s (snapshot_inventory snapshot) (snapshot_released snapshot)) in
  if negb persisted then m_ret false else
  go! _ <- record_owned observed (snapshot_owned snapshot) in
  go! _ <- held (
    go! now <- time_now in
    m_update (fun r =>
      let r := if negb (bool_decide (Control_Mode control = OperatingModePaused))
               then r <| rt_prObservation := Some (mkFreshPRs observed (snapshot_inventory snapshot) now false) |> else r in
      r <| rt_prRefreshError := "" |>)) in
  m_ret true.

(** ** The refresh *)

Definition refresh_body (snapshot : Config) : P unit :=
  go! observed <- observeOpenPRs snapshot in
  go! _ <- lock in
  go! err <- ctx_err in
  match err with
  | Some err => m_fail (Failed err)
  | None =>
    go! live <- read_config true in
    if negb (SamePRPolicy snapshot live) then m_fail (Failed errPRPolicyChanged) else
    go! persisted <- savePRsLocked live observed in
    if negb persisted then m_fail (Failed errStaleInventory) else m_ret tt
  end.
(** An error that says nothing about GitHub. *)
Definition excused (err : failure) : bool :=
  fails_with "context canceled" err || fails_with "Pull request policy changed during refresh" err
  || fails_with "Pull request inventory became stale before persistence" err.
(** The observation the failed refresh replaces, if no other did. *)
Definition unobserve (snapshot : Config) (startedAt : instant) (err : failure) (r : runtimeState) : runtimeState :=
  if match rt_prObservation r with
     | None => true
     | Some o => SamePRPolicy (freshPRs_policy o) snapshot && negb (before startedAt (freshPRs_fetchedAt o))
     end
  then r <| rt_prObservation := None |> <| rt_prRefreshError := redact_error err |> else r.
Definition refresh_failed (snapshot : Config) (startedAt : instant) (err : failure) : P unit :=
  go! done <- ctx_done in
  if done || excused err then m_fail err else
  go! _ <- lock in
  go! live <- m_try (read_config true) in
  if match live with Ok live => negb (SamePRPolicy snapshot live) | Err _ => false end
  then m_fail (Failed errPRPolicyChanged) else
  go! _ <- held (m_update (unobserve snapshot startedAt err)) in
  m_fail err.
Definition refreshPRs (snapshot : Config) : P unit :=
  go! startedAt <- shared time_now in
  go! r <- m_try (refresh_body snapshot) in
  match r with
  | Ok _ => m_ret tt
  | Err err => refresh_failed snapshot startedAt err
  end.
End observe.

(** ** Observing everything *)

(** A pull request of a page of history. *)
Record PRSummary := mkPRSummary { summary_repository : string; summary_number : N }.
Section remote.
Context {X D : Type} `{Unicode} `{World} `{Machine} `{Printable} `{GitHubJson} `{Company} `{Speech D}.
Context (s : Store) (live_config : Db -> Config) (sha256 : string -> string).
(** The page of open pull requests before a cursor, and the cursor of the next. *)
Context (PRPage : option Z -> Db -> list PRSummary * option Z).
Notation P := (Act X D).

(** The pull requests of a page that are no longer open, or [None] when the
    context is done. *)
Fixpoint closed_in (cfg : Config) (open : gset N) (items : list PRSummary) : P (option (list PullRequest)) :=
  match items with
  | [] => m_ret (Some [])
  | item :: items =>
    go! done <- ctx_done in
    if done then m_ret None else
    if negb (EqualASCII (summary_repository item) (Config_GitHubRepo cfg)) || bool_decide (summary_number item ∈ open)
    then closed_in cfg open items else
    go! pr <- asks (PR cfg (summary_number item)) in
    go! rest <- closed_in cfg open items in
    m_ret ((fun rest => pr :: rest) <$> rest)
  end.
Fixpoint closed_pages (fuel : nat) (cfg : Config) (open : gset N) (cursor : option Z) : P (option (list PullRequest)) :=
  match fuel with
  | O => m_ret None
  | S fuel =>
    go! page <- loaded false (PRPage cursor) in
    go! closed <- closed_in cfg open (fst page) in
    match closed, snd page with
    | None, _ => m_ret None
    | Some closed, None => m_ret (Some closed)
    | Some closed, Some next =>
      go! rest <- closed_pages fuel cfg open (Some next) in
      m_ret ((fun rest => closed ++ rest) <$> rest)
    end
  end.
(** Under the gate: what was observed is kept. *)
Definition keep_observed (cfg : Config) (revision observedAt fingerprint : string) (closed : list PullRequest) : P unit :=
  go! _ <- lock in
  go! live <- read_config live_config true in
  if negb (SameRemoteIdentity live cfg) then m_ret tt else
  go! _ <- held (observeLocked cfg revision observedAt) in
  go! _ <- record_owned cfg closed in
  go! control <- read_control s true in
  go! now <- held time_now in
  stored true (fun db => (Ok tt,
    SaveControl s (applyContextFingerprint fingerprint now (Config_CycleIntervalSeconds cfg) control) db)).
Definition observeRemote (fuel : nat) (cfg : Config) : P unit :=
  go! _ <- asks (ValidateRemote cfg) in
  go! refreshed <- m_try (refreshPRs s live_config cfg) in
  go! stop <- match refreshed with
    | Err err =>
      if fails_with "Pull request policy changed during refresh" err then m_ret true else
      if fails_with "Pull request inventory became stale before persistence" err then m_ret false else m_fail err
    | Ok _ => m_ret false
    end in
  if stop then m_ret tt else
  go! inventory <- loaded false (fun db => db_inventories db !! prInventoryKey s) in
  match inventory with
  | None => m_fail (Failed (New "PR refresh did not persist an inventory"))
  | Some inventory =>
    go! closed <- closed_pages fuel cfg (list_to_set (map PullRequest_Number (OpenPRInventory_PRs inventory))) None in
    match closed with
    | None => m_ret tt
    | Some closed =>
      go! observedAt <- now_text in
      go! revision <- asks (RemoteRevision cfg (Config_DefaultBranch cfg)) in
      let revision := default "" revision in
      keep_observed cfg revision observedAt (contextFingerprint sha256 revision (OpenPRInventory_PRs inventory)) closed
    end
  end.
End remote.

(** * Properties *)

(** ** These programs write nothing to the remote *)

Section observe_reads.
Context {X D : Type} `{Unicode} `{World} `{Machine} `{Printable} `{GitHubJson} `{Company} `{Speech D}.
Context (s : Store) (live_config : Db -> Config).
Context (T : list D -> Prop) `{!Trace T} (Rd : forall l, Forall reads_only l -> T (map said l)).
Notation "'reads' m" := (proceeds (X := X) T (asks m)) (at level 10).

Lemma proceeds_reads {A} (m : G A) : says reads_only m (fun _ => True) -> reads m.
Proof. intros S. by eapply (proceeds_asks _). Qed.
Lemma proceeds_RemoteRevision cfg branch : reads (RemoteRevision cfg branch).
Proof. by apply proceeds_reads, says_RemoteRevision. Qed.
Lemma proceeds_OpenPRs cfg : reads (OpenPRs cfg).
Proof. by apply proceeds_reads, says_OpenPRs. Qed.
Lemma proceeds_OwnedPRs cfg inventory : reads (OwnedPRs cfg inventory).
Proof. by apply proceeds_reads, says_owned_prs. Qed.
Lemma proceeds_PR cfg number : reads (PR cfg number).
Proof. by apply proceeds_reads, says_PR. Qed.
Lemma proceeds_TaskMarker cfg id detail : reads (TaskMarker cfg id detail).
Proof. by apply proceeds_reads, says_TaskMarker. Qed.
Lemma proceeds_publication cfg reservation t : reads (reservation_pr cfg reservation t).
Proof.
  apply proceeds_reads. unfold reservation_pr. destruct (Task_PRNumber t) as [number|]; [|by apply says_PublicationPR].
  apply says_bind, says_PR; [done|]. intros pr. by apply says_ret.
Qed.
Lemma proceeds_ctx_err : proceeds (X := X) T ctx_err.
Proof. by apply proceeds_reads, says_ask. Qed.
#[local] Hint Resolve proceeds_RemoteRevision proceeds_OpenPRs proceeds_OwnedPRs proceeds_PR proceeds_TaskMarker proceeds_publication proceeds_ctx_err : act.

Lemma proceeds_ctx_done : proceeds (X := X) T ctx_done.
Proof. unfold ctx_done. acting. Qed.
Lemma calm_observeLocked cfg revision observedAt : calm_op (observeLocked cfg revision observedAt).
Proof.
  unfold observeLocked. destruct (parse_rfc3339 _); [|done]. apply calm_op_bind; [done|]. intros existing.
  by destruct (match existing with Some _ => _ | None => _ end).
Qed.
Lemma proceeds_observeDefaultBranch cfg revision observedAt :
  proceeds (X := X) T (observeDefaultBranch live_config cfg revision observedAt).
Proof. unfold observeDefaultBranch, read_config. acting. apply (proceeds_held _), calm_observeLocked. Qed.
#[local] Hint Resolve proceeds_ctx_done proceeds_observeDefaultBranch : act.
Lemma proceeds_defaultBranchSHA cfg : proceeds (X := X) T (defaultBranchSHA live_config cfg).
Proof. unfold defaultBranchSHA. acting. Qed.
Lemma proceeds_releasable cfg represented reservation : proceeds (X := X) T (releasable cfg represented reservation).
Proof. unfold releasable, remote_settled. acting. Qed.
#[local] Hint Resolve proceeds_releasable : act.
Lemma proceeds_release_each cfg represented reservations : proceeds (X := X) T (release_each cfg represented reservations).
Proof. induction reservations as [|r rs IH]; cbn [release_each]; acting. Qed.
#[local] Hint Resolve proceeds_release_each : act.
Lemma proceeds_observeOpenPRs cfg : proceeds (X := X) T (observeOpenPRs cfg).
Proof.
  assert (forall A format (m : Act X D A), proceeds T m -> proceeds T (wrapped format m)) as W.
  { intros A format m [K C]. unfold wrapped. split.
    - apply (keeps_bind _); [by apply (keeps_try _)|]. intros [x|[]]; (apply (keeps_ret _) || apply (keeps_fail _)).
    - intros w. unfold m_bind, m_try. specialize (C w). by destruct (m w) as [[x|[]] w1]. }
  unfold observeOpenPRs, releasableReservations. acting; apply W; acting.
Qed.
Lemma proceeds_record_owned observed owned : proceeds (X := X) T (record_owned observed owned).
Proof. induction owned as [|pr owned IH]; cbn [record_owned]; acting. Qed.
#[local] Hint Resolve proceeds_observeOpenPRs proceeds_record_owned : act.
Lemma proceeds_savePRsLocked observed snapshot : proceeds (X := X) T (savePRsLocked s observed snapshot).
Proof. unfold savePRsLocked, read_control. acting. Qed.
End observe_reads.

(** ** What releases a reservation *)

Section releases.
Context {X D : Type} `{Unicode} `{World} `{Machine} `{Printable} `{GitHubJson} `{Company} `{Speech D}.
Context (P : Db -> Prop) (steady : forall n a, P (app_db a) -> P (app_db (beside n a))).
Notation Db_ok := (fun w : Actor X D => P (app_db (ac_app w))).

(** What the machine answered at some time. *)
Definition answered {A} (m : G A) (x : A) : Prop := exists g, fst (m g) = Ok x.
(** GitHub showed that the work of a reservation needs its place no longer. *)
Definition remote_evidence (cfg : Config) (reservation : PRReservation) (t : Task) : Prop :=
  answered (reservation_pr cfg reservation t) None
  \/ exists detail, answered (reservation_pr cfg reservation t) (Some detail)
       /\ settled_pr cfg (PRReservation_Branch reservation) detail = true
       /\ (Some (PullRequest_Head detail) = Task_OutputCommit t \/ answered (TaskMarker cfg (Task_ID t) detail) true).
Definition release_evidence (cfg : Config) (represented : gset string) (reservation : PRReservation) : Prop :=
  PRReservation_Branch reservation ∉ represented
  /\ exists db t, P db /\ db_tasks db !! PRReservation_TaskID reservation = Some t /\ delivered_task t = true
       /\ remote_evidence cfg reservation t.

Lemma wp_asks {A} (m : G A) (Q : result A failure -> Actor X D -> Prop) w :
  Db_ok w -> (forall r w', Db_ok w' -> (forall x, r = Ok x -> answered m x) -> Q r w') -> wp (asks m) Q w.
Proof.
  intros O K. unfold wp, asks. destruct (m (mkGit (ac_asked w) [])) as [r g] eqn:E. apply K; [exact O|].
  intros x R. exists (mkGit (ac_asked w) []). rewrite E. destruct r; [by injection R as ->|done].
Qed.
Lemma wp_loaded {A} (f : Db -> A) (Q : result A failure -> Actor X D -> Prop) w :
  Db_ok w -> (forall r w', Db_ok w' -> (forall x, r = Ok x -> exists db, P db /\ x = f db) -> Q r w') -> wp (loaded false f) Q w.
Proof.
  intros O K. unfold wp, loaded, m_bind, m_read, enter, shared. pose proof (steady (ac_turns w) _ O) as O'.
  destruct (broken (ac_turns w)); apply K; [exact O'|by intros x [=]|exact O'|]. intros x [= <-]. eauto.
Qed.
Lemma wp_remote_settled cfg reservation t (Q : result bool failure -> Actor X D -> Prop) w :
  Db_ok w -> (forall r w', Db_ok w' -> (r = Ok true -> remote_evidence cfg reservation t) -> Q r w') ->
  wp (remote_settled cfg reservation t) Q w.
Proof.
  intros O K. unfold remote_settled. apply wp_bind, wp_try, wp_asks; [done|]. intros [[detail|]|err] w1 O1 F; cbv beta iota.
  - specialize (F _ eq_refl). destruct (settled_pr _ _ _) eqn:St; cbn [negb]; [|by apply K].
    case_bool_decide as Hd; [apply K; [done|]; intros _; right; eauto|].
    apply wp_bind, wp_try, wp_asks; [done|]. intros [b|err] w2 O2 Fm; cbv beta iota.
    + apply K; [done|]. intros [= ->]. right. exists detail. eauto.
    + destruct err; apply K; done.
  - apply K; [done|]. intros _. left. by apply F.
  - destruct err; apply K; done.
Qed.
Lemma wp_releasable cfg represented reservation (Q : result bool failure -> Actor X D -> Prop) w :
  Db_ok w -> (forall r w', Db_ok w' -> (r = Ok true -> release_evidence cfg represented reservation) -> Q r w') ->
  wp (releasable cfg represented reservation) Q w.
Proof.
  intros O K. unfold releasable. case_bool_decide as R; [by apply K|]. apply wp_bind, wp_loaded; [done|].
  intros [[t|]|err] w1 O1 F; cbv beta iota; [|by apply K..]. destruct (F _ eq_refl) as (db & Pdb & L).
  destruct (delivered_task t) eqn:De; [|by apply K]. apply wp_remote_settled; [done|]. intros r w2 O2 E.
  apply K; [done|]. intros Er. split; [done|]. exists db, t. eauto.
Qed.
Lemma wp_release_each cfg represented reservations (Q : result (list string) failure -> Actor X D -> Prop) w :
  Db_ok w -> (forall r w', Db_ok w' -> (forall released, r = Ok released -> forall id, id ∈ released ->
    exists reservation, reservation ∈ reservations /\ PRReservation_TaskID reservation = id
      /\ release_evidence cfg represented reservation) -> Q r w') ->
  wp (release_each cfg represented reservations) Q w.
Proof.
  revert Q w. induction reservations as [|reservation reservations IH]; intros Q w O K; cbn [release_each].
  { apply K; [done|]. by intros ? [= <-] id ?%elem_of_nil. }
  apply wp_bind, wp_releasable; [done|]. intros [release|err] w1 O1 F; cbv beta iota; [|by apply K].
  apply wp_bind, IH; [done|]. intros [released|err] w2 O2 R; cbv beta iota; [|by apply K]. apply K; [done|].
  intros l [= <-] id I. destruct release; [apply elem_of_cons in I as [->|I]|].
  - exists reservation. split_and!; [by left|done|by apply F].
  - destruct (R _ eq_refl id I) as (x & Ix & E). exists x. split; [by right|done].
  - destruct (R _ eq_refl id I) as (x & Ix & E). exists x. split; [by right|done].
Qed.
(** C29: a place is given back only for settled work.  Whatever holds of the
    database all along, a reservation that a refresh of the pull requests
    releases was read from such a database; its branch has no open owned pull
    request in the inventory; such a database shows its task published with a
    pull request, or cancelled, with an output commit; and GitHub answered that
    it has no pull request, or that the pull request of the reserved branch is
    closed or merged and carries the task's own output or marker. *)
Theorem releasableReservations_settled cfg inventory (w : Actor X D) released w' :
  P (app_db (ac_app w)) -> releasableReservations cfg inventory w = (Ok released, w') ->
  forall id, id ∈ released -> exists reservation db, P db /\ reservation ∈ reservationRows (Config_GitHubRepo cfg) db
    /\ PRReservation_TaskID reservation = id /\ release_evidence cfg (OwnedBranches inventory) reservation.
Proof.
  intros O E id I.
  eapply (wp_elim _ (fun r _ => r = Ok released -> _) w _ _ ?[W] E eq_refl). Unshelve. unfold releasableReservations.
  apply wp_bind, wp_loaded; [done|]. intros [reservations|err] w1 O1 F; [|done]. destruct (F _ eq_refl) as (db & Pdb & ->).
  apply wp_release_each; [done|]. intros r w2 O2 R Er. destruct (R _ Er id I) as (x & Ix & Id & Ev). eauto 10.
Qed.
End releases.

(** ** Witness *)

#[local] Instance quiet_speech : Speech sent := fun q => q.
#[local] Instance silent_company : Company := { beside := fun _ a => a; broken := fun _ => None }.
#[local] Instance silent_machine : Machine := {
  reply := fun A n q => match q in call A return A with
    | RunMachine _ _ _ _ _ => Ok "" | RunPredicate _ _ _ _ _ _ => Ok true | RunText _ _ _ _ _ _ => Ok ("", true)
    | TrustedGitDir _ => Ok "" | MkdirTemp _ => Ok "" | RemoveAll _ => tt | ReadFile _ => Ok "" | ReleaseCheckout _ _ => tt
    | NowText => "" | Lstat _ | MkdirAll _ _ | Mkdir _ _ | WriteFile _ _ _ | AcquireCheckout _ _ | CtxErr => None end;
  LookupEnv := fun _ => None; environment := []; NotExist := fun _ => false; ToUpper := fun s => s }.
(** GitHub has the pull request of the reserved branch, closed. *)
Definition closed_pull : object :=
  let repo := JObject [("full_name", JString "acme/widgets")] in
  [("number", JNumber "7"); ("state", JString "closed"); ("body", JString "");
   ("head", JObject [("ref", JString "octomus/t"); ("sha", JString "commit"); ("repo", repo)]);
   ("base", JObject [("ref", JString "main"); ("repo", repo)])].
#[local] Instance closed_json : GitHubJson := {
  decode_pages := fun _ => ([Some []], None); decode_object := fun _ => Ok closed_pull; unmarshal_owned := fun _ => None }.
Definition reserved_db : Db :=
  (task_db (published_task "t" "commit")) <| db_reservations := {["t" := mkPRReservation "t" "acme/widgets" "octomus/t" ""]} |>.
Definition reserved_actor : Actor unit sent := mkActor tt (new_app reserved_db) 0 0 [].
Lemma stays_put (n : nat) (a : App) : app_db a = reserved_db -> app_db (beside n a) = reserved_db.
Proof. done. Qed.
Lemma releasableReservations_settled_witness :
  let inventory := mkOpenPRInventory "acme/widgets" "now" [] in
  fst (releasableReservations sample_config inventory reserved_actor) = Ok ["t"]
  /\ exists reservation db, db = reserved_db /\ reservation ∈ reservationRows "acme/widgets" db
    /\ PRReservation_TaskID reservation = "t" /\ release_evidence (fun db => db = reserved_db) sample_config (OwnedBranches inventory) reservation.
Proof.
  cbv zeta. split; [by vm_compute|].
  apply (releasableReservations_settled (fun db => db = reserved_db) stays_put sample_config (mkOpenPRInventory "acme/widgets" "now" [])
    reserved_actor ["t"] (snd (releasableReservations sample_config (mkOpenPRInventory "acme/widgets" "now" []) reserved_actor))).
  - done.
  - by vm_compute.
  - by left.
Defined.
