(* ===== verification/PlanMemory.v ===== *)
(** * What planning remembers ([internal/engine/memory.go])

    The decisions earlier cycles recorded, the rediscoveries an operator asked
    for, and the work already recorded: the queries of the store that find
    them ([store/queries.go], [store/requests.go]) and the rules that keep a
    plan from repeating them. *)
From S2P Require Import Prelude GoStrings Utf8 Runes WireJson Enums Types GoErrors Config GoTime Model Samples Strconv Store StoreTasks Runtime Dependencies PlanRules GitOps Actor.
Local Open Scope string_scope.
Local Open Scope list_scope.
Local Open Scope N_scope.

(** The orders of the queries: rows by [rowid], oldest first. *)
Class Rows := {
  by_rowid : list DecisionRecord -> list DecisionRecord;
  by_rowid_perm rows : by_rowid rows ≡ₚ rows;
  requests_by_rowid : list OperatorRequest -> list OperatorRequest;
  requests_by_rowid_perm rows : requests_by_rowid rows ≡ₚ rows;
}.

(** ** Queries of the store *)

Section queries.
Context `{Unicode} `{TextCases} `{World} `{Rows}.

Definition tasks_of (db : Db) : list Task := (map_to_list (db_tasks db)).*2.
Definition decisions_of (db : Db) : list DecisionRecord := (map_to_list (db_decisions db)).*2.

(** The work an accepted proposal may repeat.  A row is compared with the
    proposals of its own target. *)
Definition recorded_row (repository : string) (proposals : list Proposal) (t : Task) : bool :=
  EqualASCII (Config_GitHubRepo (Task_Config t)) repository
  && negb (bool_decide (Task_Status t = StatusCancelled)) && negb (Archived t)
  && existsb (fun p => bool_decide (Proposal_Decision p = DecisionAccepted)
       && bool_decide (Proposal_Target (Task_Proposal t) = Proposal_Target p)
       && (EqualASCII (TrimSpace (Proposal_Title (Task_Proposal t))) (TrimSpace (Proposal_Title p))
           || bool_decide (Proposal_ProblemIdentity (Task_Proposal t) = Proposal_ProblemIdentity p))) proposals.
(** The targets in the order of their first accepted proposal. *)
Definition accepted_targets (proposals : list Proposal) : list string :=
  foldl (fun order p =>
    if bool_decide (Proposal_Decision p = DecisionAccepted) && negb (bool_decide (Proposal_Target p ∈ order))
    then order ++ [Proposal_Target p] else order) [] proposals.
Definition DuplicateTasks (repository : string) (proposals : list Proposal) (db : Db) : list Task :=
  flat_map (fun target => List.filter (fun t => bool_decide (Proposal_Target (Task_Proposal t) = target)
                                                && recorded_row repository proposals t) (tasks_of db))
    (accepted_targets proposals).

(** [decisionRecords]: an alternative an accepted proposal of its cycle absorbed
    is left out. *)
Definition absorbs (d a : DecisionRecord) : bool :=
  EqualASCII (DecisionRecord_Repository a) (DecisionRecord_Repository d)
  && bool_decide (DecisionRecord_Target a = DecisionRecord_Target d)
  && bool_decide (DecisionRecord_ProblemKey a = DecisionRecord_ProblemKey d)
  && bool_decide (DecisionRecord_CycleID a = DecisionRecord_CycleID d)
  && bool_decide (DecisionRecord_Decision a = DecisionAccepted).
Definition decision_row (repository : string) (db : Db) (d : DecisionRecord) : bool :=
  EqualASCII (DecisionRecord_Repository d) repository && negb (bool_decide (DecisionRecord_ProblemKey d = ""))
  && (bool_decide (DecisionRecord_Decision d = DecisionAccepted) || negb (existsb (absorbs d) (decisions_of db))).
Definition decision_rows (repository : string) (db : Db) (P : DecisionRecord -> bool) : list DecisionRecord :=
  rev (by_rowid (List.filter (fun d => decision_row repository db d && P d) (decisions_of db))).
Definition DecisionMemory (repository : string) (targets : list string) (db : Db) : list DecisionRecord :=
  take 100 (decision_rows repository db (fun d => bool_decide (DecisionRecord_Target d ∈ targets))).
Definition DecisionsForProblem (repository target problem : string) (db : Db) : list DecisionRecord :=
  decision_rows repository db (fun d => bool_decide (DecisionRecord_Target d = target)
                                        && bool_decide (DecisionRecord_ProblemKey d = problem)).

Definition rediscovery_row (repository : string) (t : Task) : bool :=
  EqualASCII (Config_GitHubRepo (Task_Config t)) repository && bool_decide (Task_Status t = StatusCancelled)
  && negb (Archived t) && Task_RediscoveryRequested t && (lenN (Task_SupersededBy t) =? 0).
(** The object the query builds; [id] and [target] are its strings. *)
Definition rediscovery_of (t : Task) : rediscoveryRequest :=
  let p := Task_Proposal t in
  mkRediscoveryRequest (Task_ID t) (Proposal_Target p)
    (JObject [("id", JString (Task_ID t)); ("problem", JString (Proposal_Problem p)); ("scope", JString (Proposal_Scope p));
       ("target", JString (Proposal_Target p)); ("title", JString (Proposal_Title p))]).
Definition RediscoveryRequests (repository : string) (db : Db) : list rediscoveryRequest :=
  map rediscovery_of (take 100 (rev (by_seq (List.filter (rediscovery_row repository) (tasks_of db))))).
Definition PendingRequests (repository : string) (limit : nat) (db : Db) : list OperatorRequest :=
  take limit (requests_by_rowid (map_to_list (pending_requests repository db)).*2).
End queries.

(** ** Decisions *)

(** What planning keeps of earlier cycles; [memory_operator] holds the
    identities of the operator's own proposals. *)
Record decisionMemory := mkDecisionMemory {
  memory_decisions : list DecisionRecord; memory_requests : list rediscoveryRequest; memory_operator : gset string }.
#[export] Instance eta_decisionMemory : Eta decisionMemory := fun r =>
  mkDecisionMemory (memory_decisions r) (memory_requests r) (memory_operator r).

(** [wirejson.GenericMap] of a record, and [json.Marshal] of its paths. *)
Class MemoryJson := {
  generic_map : DecisionRecord -> result (gmap string Json) error;
  marshal_paths : list string -> result string error;
  (** The lower-case hexadecimal SHA-256 of a text. *)
  sha256 : string -> string;
}.

Section decisions.
Context `{Unicode} `{TextCases}.

(** A loop that stops at the first error. *)
Fixpoint each_result {A B} (f : A -> result B error) (l : list A) : result (list B) error :=
  match l with
  | [] => Ok []
  | x :: l => let! y := f x in let! rest := each_result f l in Ok (y :: rest)
  end.
Definition promptEntries `{MemoryJson} (m : decisionMemory) : result (list (gmap string Json)) error :=
  let! decisions := each_result (fun record =>
    let! entry := generic_map record in
    Ok (<["kind" := JString (DecisionRecord_Kind record)]>
          (<["reconsideration_due" := JBool (DecisionRecord_ReconsiderationDue record)]> entry))) (memory_decisions m) in
  Ok (decisions ++ map (fun request =>
    match rediscoveryRequest_entry request with
    | JObject members => foldl (fun entry member => <[fst member := snd member]> entry) {["kind" := JString "rediscovery"]} members
    | _ => {["kind" := JString "rediscovery"]}
    end) (memory_requests m)).

(** Paths that stay inside the repository. *)
Definition relative_path (path : string) : bool :=
  let parts := Split path "/"%char in
  negb (bool_decide (path = "") || HasPrefix path "/")
  && negb (bool_decide (".." ∈ parts)) && negb (bool_decide (parts !! 0%nat = Some ".")).
Definition decisionFingerprint `{Machine} `{Printable} `{MemoryJson} (cfg : Config) (revision : string) (paths : list string) : G string :=
  if 40 <? lenN paths then g_fail (New "Decision has too many relevant paths") else
  if negb (forallb relative_path paths) then g_fail (New "Decision paths must be repository-relative files") else
  match paths with
  | [] => g_ret revision
  | _ =>
    git! output <- Git cfg (Config_Repository cfg) (["--literal-pathspecs"; "ls-tree"; "-r"; revision; "--"] ++ paths) in
    g_ret (sha256 (TrimSpace output))
  end.

(** The pending rediscoveries by identity; a later one replaces an earlier. *)
Definition pending_targets (requests : list rediscoveryRequest) : gmap string string :=
  foldl (fun m request => if bool_decide (rediscoveryRequest_ID request = "") then m
                          else <[rediscoveryRequest_ID request := rediscoveryRequest_Target request]> m) ∅ requests.
Definition check_reconsiders (requests : gmap string string) (proposal : Proposal) (id : string) : result unit error :=
  match requests !! id with
  | None => Err (Errorf "Rediscovery identity or target does not match a pending request: proposal %q reconsiders %q, which is not pending"
                   [VStr (Proposal_ID proposal); VStr id])
  | Some target =>
    guard bool_decide (target = Proposal_Target proposal)
      else Errorf "Rediscovery identity or target does not match a pending request: proposal %q targets %q but request %q targets %q"
             [VStr (Proposal_ID proposal); VStr (Proposal_Target proposal); VStr id; VStr target];
    Ok tt
  end.
(** The decision still stands for work on this target and problem. *)
Definition stands (proposal : Proposal) (record : DecisionRecord) : bool :=
  bool_decide (DecisionRecord_Target record = Proposal_Target proposal)
  && bool_decide (DecisionRecord_ProblemKey record = Proposal_ProblemIdentity proposal)
  && negb (DecisionRecord_ReconsiderationDue record)
  && negb (bool_decide (DecisionRecord_CycleMode record = CycleModeAudit)
           && bool_decide (DecisionRecord_Decision record = DecisionAccepted)).
(** A missing key of the map reads as the empty target. *)
Definition rediscovers (requests : gmap string string) (proposal : Proposal) : bool :=
  existsb (fun id => bool_decide (default "" (requests !! id) = Proposal_Target proposal)) (Proposal_Reconsiders proposal).
Definition check_decision (requests : gmap string string) (proposal : Proposal) (record : DecisionRecord) : result unit error :=
  guard negb (stands proposal record) || rediscovers requests proposal
    else Errorf "Accepted proposal repeats a current recorded decision without an explicit rediscovery request (proposal %q, decision %q)"
           [VStr (Proposal_ID proposal); VStr (DecisionRecord_ID record)];
  Ok tt.
Definition check_memory (memory : decisionMemory) (proposal : Proposal) : result unit error :=
  let requests := pending_targets (memory_requests memory) in
  guard negb (200 <? slen (Proposal_ProblemKey proposal))
    else Errorf "Proposal %q decision metadata exceeds bounds: problem identity is %d bytes (limit 200; an empty problem_key falls back to the title)"
           [VStr (Proposal_ID proposal); VNum (slen (Proposal_ProblemKey proposal))];
  guard negb (100 <? lenN (Proposal_Reconsiders proposal))
    else Errorf "Proposal %q decision metadata exceeds bounds: %d reconsiders (limit 100)"
           [VStr (Proposal_ID proposal); VNum (lenN (Proposal_Reconsiders proposal))];
  guard negb (40 <? lenN (Proposal_RelevantPaths proposal))
    else Errorf "Proposal %q decision metadata exceeds bounds: %d relevant_paths (limit 40)"
           [VStr (Proposal_ID proposal); VNum (lenN (Proposal_RelevantPaths proposal))];
  let! _ := check_each (check_reconsiders requests proposal) (Proposal_Reconsiders proposal) in
  if negb (bool_decide (Proposal_Decision proposal = DecisionAccepted))
     || bool_decide (Proposal_ID proposal ∈ memory_operator memory) then Ok tt else
  check_each (check_decision requests proposal) (memory_decisions memory).
Definition validateDecisionMemory (proposals : list Proposal) (memory : decisionMemory) : result unit error :=
  check_each (check_memory memory) proposals.
End decisions.

(** ** Decisions against the repository as it is *)

(** [at.UTC().Format(time.RFC3339)]. *)
Definition format_rfc3339 (at_ : instant) : string :=
  let s := (unix at_ mod 86400)%Z in
  str (date_chars (unix_day at_) ++ ["T"%char] ++ pad 2 (s / 3600)%Z ++ [":"%char]
       ++ pad 2 ((s / 60) mod 60)%Z ++ [":"%char] ++ pad 2 (s mod 60)%Z ++ ["Z"%char]).
Definition reconsider_after (now : instant) : string := format_rfc3339 (mkInstant (unix now + 30 * 24 * 3600) (nanos now)).
(** The commit a target stands at. *)
Definition target_revision (grounding : Grounding) (target : option PullRequest) : string :=
  match target with Some pr => PullRequest_Head pr | None => Grounding_Revision grounding end.
Definition recordable (record : DecisionRecord) : bool :=
  negb (bool_decide (DecisionRecord_ID record = "") || bool_decide (DecisionRecord_Repository record = "")
        || bool_decide (DecisionRecord_Target record = "") || bool_decide (DecisionRecord_ProblemKey record = "")).
(** The work a proposal is about. *)
Definition problem_key `{Unicode} `{TextCases} (cfg : Config) (proposal : Proposal) : string :=
  ToLower (Config_GitHubRepo cfg) +:+ String "000"%char (Proposal_Target proposal +:+ String "000"%char (Proposal_ProblemIdentity proposal)).
Definition accepted_problems `{Unicode} `{TextCases} (cfg : Config) (proposals : list Proposal) : gset string :=
  list_to_set (map (problem_key cfg) (accepted_of proposals)).
(** The proposals a decision is recorded for. *)
Definition decision_recorded `{Unicode} `{TextCases} (cfg : Config) (proposals : list Proposal) (proposal : Proposal) : bool :=
  bool_decide (Proposal_Decision proposal = DecisionAccepted)
  || negb (bool_decide (problem_key cfg proposal ∈ accepted_problems cfg proposals)).

Section memory.
Context {X D : Type} `{Unicode} `{TextCases} `{World} `{Rows} `{Machine} `{Printable} `{MemoryJson} `{Company} `{Speech D}.
Notation P := (Act X D).

Definition decision_due (record : DecisionRecord) (fingerprint : string) : P bool :=
  let moved := negb (bool_decide (fingerprint = DecisionRecord_ContextFingerprint record)) in
  match parse_rfc3339 (DecisionRecord_ReconsiderAfter record) with
  | Some until => go! now <- shared time_now in m_ret (moved || negb (before now until))
  | None => m_ret moved
  end.
(** The loop, with the fingerprints it has read. *)
Fixpoint current_decisions (cfg : Config) (grounding : Grounding) (fingerprints : gmap (string * string) string)
    (records : list DecisionRecord) : P (list DecisionRecord) :=
  match records with
  | [] => m_ret []
  | record :: records =>
    go! err <- ctx_err in
    match err with
    | Some err => m_fail (Failed err)
    | None =>
      if negb (recordable record) then current_decisions cfg grounding fingerprints records else
      match resolveTarget cfg (Grounding_PRs grounding) (DecisionRecord_Target record) with
      | Err _ => current_decisions cfg grounding fingerprints records
      | Ok target =>
        let revision := target_revision grounding target in
        go! paths <- lifted (marshal_paths (DecisionRecord_RelevantPaths record)) in
        go! fingerprint <- match fingerprints !! (revision, paths) with
          | Some fingerprint => m_ret fingerprint
          | None => asks (decisionFingerprint cfg revision (DecisionRecord_RelevantPaths record))
          end in
        go! due <- decision_due record fingerprint in
        go! rest <- current_decisions cfg grounding (<[(revision, paths) := fingerprint]> fingerprints) records in
        m_ret (record <| DecisionRecord_Kind := "decision" |> <| DecisionRecord_ReconsiderationDue := due |> :: rest)
      end
    end
  end.
Definition currentDecisions (cfg : Config) (grounding : Grounding) (records : list DecisionRecord) : P (list DecisionRecord) :=
  current_decisions cfg grounding ∅ records.
(** The targets planning can use. *)
Definition planning_targets (cfg : Config) (grounding : Grounding) : list string :=
  Config_DefaultBranch cfg :: map PullRequest_Branch (List.filter (fun pr =>
    is_ok (resolveTarget cfg (Grounding_PRs grounding) (PullRequest_Branch pr))
    && negb (bool_decide (PullRequest_Branch pr = Config_DefaultBranch cfg))) (Grounding_PRs grounding)).
Definition planningMemory (cfg : Config) (grounding : Grounding) : P decisionMemory :=
  go! records <- loaded false (DecisionMemory (Config_GitHubRepo cfg) (planning_targets cfg grounding)) in
  go! decisions <- currentDecisions cfg grounding records in
  go! requests <- loaded false (RediscoveryRequests (Config_GitHubRepo cfg)) in
  m_ret (mkDecisionMemory decisions requests ∅).
(** The loop of [enforceDecisionMemory]. *)
Fixpoint enforce_each (cfg : Config) (grounding : Grounding) (memory : decisionMemory) (proposals : list Proposal) : P unit :=
  match proposals with
  | [] => m_ret tt
  | proposal :: proposals =>
    if negb (bool_decide (Proposal_Decision proposal = DecisionAccepted)) then enforce_each cfg grounding memory proposals else
    go! records <- loaded false (DecisionsForProblem (Config_GitHubRepo cfg) (Proposal_Target proposal) (Proposal_ProblemIdentity proposal)) in
    go! decisions <- currentDecisions cfg grounding records in
    let memory := memory <| memory_decisions := decisions |> in
    go! _ <- lifted (validateDecisionMemory [proposal] memory) in
    enforce_each cfg grounding memory proposals
  end.
Definition enforceDecisionMemory (cfg : Config) (grounding : Grounding) (proposals : list Proposal)
    (requests : list rediscoveryRequest) (operator : gset string) : P unit :=
  let memory := mkDecisionMemory [] requests operator in
  go! _ <- lifted (validateDecisionMemory proposals memory) in
  enforce_each cfg grounding memory proposals.

(** The record of a decision. *)
Definition decision_record (cfg : Config) (cycle : Cycle) (proposal : Proposal) (revision fingerprint after : string) : DecisionRecord :=
  mkDecisionRecord "" (Cycle_ID cycle +:+ ":" +:+ Proposal_ID proposal) (Cycle_Mode cycle) (Config_GitHubRepo cfg)
    (Proposal_Target proposal) (Proposal_ProblemIdentity proposal) (Proposal_RelevantPaths proposal)
    (Proposal_Decision proposal) (redact_text (Proposal_Reason proposal)) revision fingerprint after (Cycle_ID cycle) false.
Fixpoint record_each (cfg : Config) (cycle : Cycle) (grounding : Grounding) (proposals : list Proposal) : P (list DecisionRecord) :=
  match proposals with
  | [] => m_ret []
  | proposal :: proposals =>
    if negb (decision_recorded cfg (Cycle_Proposals cycle) proposal) then record_each cfg cycle grounding proposals else
    let revision := match resolveTarget cfg (Grounding_PRs grounding) (Proposal_Target proposal) with
                    | Ok target => target_revision grounding target | Err _ => Grounding_Revision grounding end in
    go! fingerprint <- asks (decisionFingerprint cfg revision (Proposal_RelevantPaths proposal)) in
    go! now <- shared time_now in
    go! rest <- record_each cfg cycle grounding proposals in
    m_ret (decision_record cfg cycle proposal revision fingerprint (reconsider_after now) :: rest)
  end.
Definition recordDecisions (cfg : Config) (cycle : Cycle) : P (list DecisionRecord) :=
  match Cycle_Grounding cycle with
  | None => m_fail (Failed (New "Decision memory requires cycle grounding"))
  | Some grounding => record_each cfg cycle grounding (Cycle_Proposals cycle)
  end.
End memory.

(** * Properties *)

(** ** The queries *)

Section query_facts.
Context `{Unicode} `{TextCases} `{World} `{Rows}.

Lemma elem_of_accepted_of p proposals : p ∈ accepted_of proposals <-> p ∈ proposals /\ Proposal_Decision p = DecisionAccepted.
Proof. unfold accepted_of. rewrite !list_elem_of_In, filter_In, bool_decide_eq_true. done. Qed.
Lemma elem_of_accepted_targets target proposals :
  target ∈ accepted_targets proposals <-> exists p, p ∈ accepted_of proposals /\ Proposal_Target p = target.
Proof.
  unfold accepted_targets. setoid_rewrite elem_of_accepted_of.
  enough (forall order, target ∈ foldl (fun order p =>
    if bool_decide (Proposal_Decision p = DecisionAccepted) && negb (bool_decide (Proposal_Target p ∈ order))
    then order ++ [Proposal_Target p] else order) order proposals
    <-> target ∈ order \/ exists p, (p ∈ proposals /\ Proposal_Decision p = DecisionAccepted) /\ Proposal_Target p = target) as ->
    by (rewrite elem_of_nil; naive_solver).
  induction proposals as [|q l IH]; intros order; simpl; [set_solver|].
  rewrite IH. setoid_rewrite elem_of_cons. do 2 case_bool_decide; simpl; set_solver.
Qed.

Lemma recorded_row_true repository proposals t :
  recorded_row repository proposals t = true <->
  EqualASCII (Config_GitHubRepo (Task_Config t)) repository = true /\ Task_Status t <> StatusCancelled
  /\ Archived t = false /\ exists p, p ∈ accepted_of proposals /\ SameWork (Task_Proposal t) p = true.
Proof.
  unfold recorded_row, SameWork. rewrite !andb_true_iff, existsb_exists, !negb_true_iff, bool_decide_eq_false.
  setoid_rewrite <- list_elem_of_In. setoid_rewrite elem_of_accepted_of. setoid_rewrite andb_true_iff.
  setoid_rewrite andb_true_iff. setoid_rewrite bool_decide_eq_true. naive_solver.
Qed.
(** The lookup finds exactly the live work of the repository that an accepted
    proposal repeats. *)
Lemma elem_of_DuplicateTasks t repository proposals db :
  t ∈ DuplicateTasks repository proposals db <->
  t ∈ tasks_of db /\ EqualASCII (Config_GitHubRepo (Task_Config t)) repository = true
  /\ Task_Status t <> StatusCancelled /\ Archived t = false
  /\ exists p, p ∈ accepted_of proposals /\ SameWork (Task_Proposal t) p = true.
Proof.
  unfold DuplicateTasks. rewrite list_elem_of_In, in_flat_map, <- (recorded_row_true repository proposals t). split.
  - intros (target & _ & [I R]%filter_In). apply andb_true_iff in R as [_ R]. by rewrite list_elem_of_In.
  - intros [I R]. pose proof R as (_ & _ & _ & p & Ip & Sp)%recorded_row_true.
    exists (Proposal_Target p). rewrite <- list_elem_of_In, elem_of_accepted_targets. split; [by exists p|].
    apply filter_In. rewrite <- list_elem_of_In. split; [done|]. apply andb_true_iff. split; [|done].
    by apply andb_true_iff in Sp as [Sp _].
Qed.

Lemma elem_of_decision_rows repository db P d :
  d ∈ decision_rows repository db P <-> d ∈ decisions_of db /\ decision_row repository db d = true /\ P d = true.
Proof.
  unfold decision_rows. rewrite list_elem_of_In, <- in_rev, <- list_elem_of_In, by_rowid_perm, elem_of_bfilter, andb_true_iff. tauto.
Qed.
End query_facts.

(** ** Work that was recorded *)

Section new_work.
Context `{Unicode} `{TextCases}.

(** No accepted proposal repeats a recorded task that is neither cancelled nor
    archived. *)
Lemma acceptable_new cfg proposals grounding db p t :
  plan_acceptable cfg proposals grounding (DuplicateTasks (Config_GitHubRepo cfg) proposals db) ->
  p ∈ accepted_of proposals -> t ∈ tasks_of db ->
  EqualASCII (Config_GitHubRepo (Task_Config t)) (Config_GitHubRepo cfg) = true -> Archived t = false ->
  SameWork (Task_Proposal t) p = true -> Task_Status t = StatusCancelled.
Proof.
  intros V I T R A Sw. destruct (decide (Task_Status t = StatusCancelled)) as [|N]; [done|].
  apply (ready_new _ _ _ _ (plan_ready _ _ _ _ V p I) t); [|done]. apply elem_of_DuplicateTasks. eauto 10.
Qed.
(** C13: an accepted plan repeats nothing.  When the plan check accepts the
    proposals with the history the store looked up for them, no accepted
    proposal is the same work as a task of the repository that is neither
    cancelled nor archived. *)
Theorem accepted_work_is_new cfg proposals grounding db p t :
  validateProposals cfg proposals grounding (DuplicateTasks (Config_GitHubRepo cfg) proposals db) = Some (Ok tt) ->
  p ∈ accepted_of proposals -> t ∈ tasks_of db ->
  EqualASCII (Config_GitHubRepo (Task_Config t)) (Config_GitHubRepo cfg) = true -> Archived t = false ->
  SameWork (Task_Proposal t) p = true -> Task_Status t = StatusCancelled.
Proof. intros V%validateProposals_spec. by eapply acceptable_new. Qed.
End new_work.

(** ** Decisions that stand *)

(** What the memory asks of a proposal. *)
Record remembers `{Unicode} `{TextCases} (memory : decisionMemory) (p : Proposal) : Prop := {
  remembers_bounds : slen (Proposal_ProblemKey p) <= 200 /\ lenN (Proposal_Reconsiders p) <= 100
    /\ lenN (Proposal_RelevantPaths p) <= 40;
  remembers_pending : forall id, id ∈ Proposal_Reconsiders p ->
    pending_targets (memory_requests memory) !! id = Some (Proposal_Target p);
  remembers_decisions : Proposal_Decision p = DecisionAccepted -> Proposal_ID p ∉ memory_operator memory ->
    forall d, d ∈ memory_decisions memory -> stands p d = true -> Proposal_Reconsiders p <> [];
}.
Section decision_facts.
Context `{Unicode} `{TextCases}.

Lemma check_reconsiders_Ok requests p id :
  check_reconsiders requests p id = Ok tt <-> requests !! id = Some (Proposal_Target p).
Proof.
  unfold check_reconsiders. destruct (requests !! id) as [target|]; [|done].
  rewrite guard_Ok, bool_decide_eq_true. naive_solver.
Qed.
Lemma rediscovers_pending requests p :
  (forall id, id ∈ Proposal_Reconsiders p -> requests !! id = Some (Proposal_Target p)) ->
  rediscovers requests p = true <-> Proposal_Reconsiders p <> [].
Proof.
  intros Pe. unfold rediscovers. rewrite existsb_exists. setoid_rewrite <- list_elem_of_In.
  destruct (Proposal_Reconsiders p) as [|id l]; [split; [by intros (? & ?%elem_of_nil & _)|done]|].
  split; [done|]. intros _. exists id. split; [by left|]. rewrite Pe; [|by left]. by apply bool_decide_eq_true.
Qed.
Lemma check_memory_Ok memory p : check_memory memory p = Ok tt <-> remembers memory p.
Proof.
  unfold check_memory. rewrite !guard_Ok, result_bind_Ok, !negb_true_iff, !N.ltb_ge.
  split.
  - intros (B1 & B2 & B3 & [] & Pe & C). rewrite check_each_Ok in Pe. setoid_rewrite check_reconsiders_Ok in Pe. split; [done|done|]. intros A O d I St. apply (rediscovers_pending _ _ Pe).
    rewrite A, bool_decide_eq_true_2, bool_decide_eq_false_2 in C by done.
    pose proof (proj1 (check_each_Ok _ _) C d I) as Cd. apply guard_Ok in Cd as [Cd _]. by rewrite St in Cd.
  - intros [(B1 & B2 & B3) Pe St]. split_and!; try done. exists tt.
    split; [apply check_each_Ok; intros id I; by apply check_reconsiders_Ok, Pe|].
    destruct (bool_decide (Proposal_Decision p = _)) eqn:A; [|done]. destruct (bool_decide (_ ∈ _)) eqn:O; [done|]. bool_hyps.
    apply check_each_Ok. intros d I. apply guard_Ok. split; [|done].
    destruct (stands p d) eqn:Sd; [|done]. by apply (rediscovers_pending _ _ Pe), (St A O d).
Qed.
(** Decisions are remembered.  The memory accepts proposals exactly when
    each is within the bounds, reconsiders only pending rediscoveries of its own
    target, and, where it is accepted and no operator's own request, reconsiders
    one if a recorded decision still stands for its target and problem. *)
Theorem validateDecisionMemory_spec proposals memory :
  validateDecisionMemory proposals memory = Ok tt <-> forall p, p ∈ proposals -> remembers memory p.
Proof. unfold validateDecisionMemory. rewrite check_each_Ok. by setoid_rewrite check_memory_Ok. Qed.
End decision_facts.

(** ** What the programs here do

    They write nothing to the remote. *)
Section memory_programs.
Context {X D : Type} `{Unicode} `{TextCases} `{World} `{Rows} `{Machine} `{Printable} `{MemoryJson} `{Company} `{Speech D}.
Context (T : list D -> Prop) `{!Trace T} (Rd : forall l, Forall reads_only l -> T (map said l)).
Notation proceeds := (proceeds (X := X) T).

Lemma says_decisionFingerprint cfg revision paths : says reads_only (decisionFingerprint cfg revision paths) (fun _ => True).
Proof.
  unfold decisionFingerprint. destruct (_ <? _); [apply says_fail|]. destruct (negb _); [apply says_fail|].
  destruct paths as [|path paths]; [by apply says_ret|]. apply says_bind, says_git; [done..|]. intros out. by apply says_ret.
Qed.
Lemma proceeds_fingerprint cfg revision paths : proceeds (asks (decisionFingerprint cfg revision paths)).
Proof. eapply (proceeds_asks _); [apply says_decisionFingerprint|exact Rd]. Qed.
Lemma proceeds_context : proceeds ctx_err.
Proof. apply (proceeds_asks _ (g_ask CtxErr) reads_only); [by apply says_ask|exact Rd]. Qed.
#[local] Hint Resolve proceeds_fingerprint proceeds_context : act.
Lemma proceeds_decision_due record fingerprint : proceeds (decision_due record fingerprint).
Proof. unfold decision_due. acting. Qed.
#[local] Hint Resolve proceeds_decision_due : act.
Lemma proceeds_current_decisions cfg grounding fingerprints records :
  proceeds (current_decisions cfg grounding fingerprints records).
Proof. revert fingerprints. induction records as [|record records IH]; intros fingerprints; cbn [current_decisions]; acting. Qed.
Lemma proceeds_currentDecisions cfg grounding records : proceeds (currentDecisions cfg grounding records).
Proof. apply proceeds_current_decisions. Qed.
#[local] Hint Resolve proceeds_currentDecisions : act.
Lemma proceeds_planningMemory cfg grounding : proceeds (planningMemory cfg grounding).
Proof. unfold planningMemory. acting. Qed.
Lemma proceeds_enforceDecisionMemory cfg grounding proposals requests operator :
  proceeds (enforceDecisionMemory cfg grounding proposals requests operator).
Proof.
  unfold enforceDecisionMemory. acting. generalize (mkDecisionMemory [] requests operator).
  induction proposals as [|p proposals IH]; intros memory; cbn [enforce_each]; acting.
Qed.

(** *** Which decisions are recorded *)

(** A record of a proposal, at some commit and fingerprint. *)
Definition records (cfg : Config) (cycle : Cycle) (p : Proposal) (d : DecisionRecord) : Prop :=
  exists revision fingerprint after, d = decision_record cfg cycle p revision fingerprint after.
Lemma record_each_spec cfg cycle grounding proposals (w : Actor X D) : exists new,
  ac_deeds (snd (record_each cfg cycle grounding proposals w)) = ac_deeds w ++ new /\ T new
  /\ ac_own (snd (record_each cfg cycle grounding proposals w)) = ac_own w
  /\ match fst (record_each cfg cycle grounding proposals w) with
     | Ok l => Forall2 (records cfg cycle) (List.filter (decision_recorded cfg (Cycle_Proposals cycle)) proposals) l
     | Err err => calm (A := unit) (Err err)
     end.
Proof.
  assert (proceeds (record_each cfg cycle grounding proposals)) as [K C].
  { induction proposals as [|p proposals IH]; cbn [record_each]; acting. }
  destruct (K w) as (new & E & N). exists new. specialize (C w). destruct C as [C1 C2]. split_and!; [done..|]. clear K N E C2 new.
  revert w C1. induction proposals as [|p proposals IH]; intros w C1; [constructor|]. cbn [record_each List.filter] in *.
  destruct (decision_recorded _ _ p); cbn [negb] in *; [|by apply IH].
  unfold m_bind in *. destruct (asks _ w) as [[fp|err] w1]; [|exact C1]. destruct (shared time_now w1) as [[now|err] w2]; [|exact C1].
  specialize (IH w2). destruct (record_each _ _ _ _ w2) as [[l|err] w3]; simpl in *; [|exact C1]. constructor; [by do 3 eexists|by apply IH].
Qed.
End memory_programs.

(** ** Witnesses *)

#[local] Instance memory_cases : TextCases := {| cases_lower := fun s => s |}.
(** A cancelled task leaves its work free to be accepted again. *)
Lemma accepted_work_is_new_witness :
  let old := cancelled_task "t" in
  let p := sample_proposal "t" "main" [] in
  let grounding := mkGrounding "rev" [] [] (mkPRCoverage None true 0 0 0 0 0 0 0 0) Types.JNull false [] in
  validateProposals sample_config [p] grounding (DuplicateTasks "acme/widgets" [p] (task_db old)) = Some (Ok tt)
  /\ SameWork (Task_Proposal old) p = true /\ Task_Status old = StatusCancelled
  /\ validateProposals sample_config [p] grounding (DuplicateTasks "acme/widgets" [p] (task_db (executing_task "t"))) <> Some (Ok tt).
Proof.
  cbv zeta. split; [by vm_compute|]. split; [by vm_compute|]. split; [|by vm_compute].
  apply (accepted_work_is_new sample_config [sample_proposal "t" "main" []]
    (mkGrounding "rev" [] [] (mkPRCoverage None true 0 0 0 0 0 0 0 0) Types.JNull false []) (task_db (cancelled_task "t"))
    (sample_proposal "t" "main" [])); [by vm_compute|by vm_compute; left| |done|done|by vm_compute].
  vm_compute. by left.
Defined.
