(* ===== verification/AutoMerge.v ===== *)
(** * The automatic merge ([internal/engine/automerge.go], [automerge_barriers.go])

    One worker goes over the deliveries whose merge is still to come, decides
    for each from the task, the configuration and GitHub, and requests a squash
    merge for the ready ones.  It shares the state with the rest of the
    service, which may change anything whenever the worker does not hold the
    gate, and the store may refuse any write. *)
From S2P Require Import Prelude GoStrings Utf8 Runes WireJson Enums Types GoErrors Config Paths GoTime Model Samples Redact Strconv Broker Footprint Lifecycle Store StoreMerges StoreTasks StoreBudget StoreCapacity Runtime Observations TaskWorkers Controls GitOps GitHub MergeWire Actor Observe.
Local Open Scope string_scope.
Local Open Scope list_scope.
Local Open Scope N_scope.

(** ** What a merge worker does *)

(** A claim that was accepted: the state it was made in, the authority it
    found, and the record it saved. *)
Record Claim := mkClaim {
  claim_app : App; claim_repository : string; claim_number : N; claim_found : AutoMergeState;
  claim_intent : AutoMergeState; claim_manual : bool }.
(** A delivery looked at, a claim, or a request to the machine. *)
Inductive act :=
| Considered (seq : Z)
| Claimed (c : Claim)
| Asked (q : sent).
#[export] Instance act_speech : Speech act := Asked.
Notation Merger := (Actor unit act).
Notation Mg := (Op Merger).

Definition autoMergeInterval : Z := (30 * Second)%Z.
(** [mergeMutationBound] in seconds. *)
Definition mergeMutationBound : N := 15.
Definition mergePassLimit : nat := 8.
Definition mergePageSize : nat := 8.

(** ** Queries of the store ([store/automerge.go]) *)

Record MergeCandidate := mkMergeCandidate { candidate_seq : Z; candidate_observation : PRObservation }.
(** The rows of [mergeCandidatesQuery]. *)
Definition awaited (o : PRObservation) : bool :=
  match PRObservation_AutoMerge o with
  | Some merge =>
    bool_decide (AutoMergeState_Status merge ∈ [AutoMergeWaiting; AutoMergeMerging; AutoMergeUncertain])
    || is_merge AutoMergeManual merge && AutoMergeState_Authorized merge
  | None => false
  end.
Fixpoint insert_candidate (c : MergeCandidate) (l : list MergeCandidate) : list MergeCandidate :=
  match l with
  | [] => [c]
  | d :: t => if (candidate_seq c <=? candidate_seq d)%Z then c :: l else d :: insert_candidate c t
  end.
(** The rows of [unfinishedBranchWorkQuery]. *)
Definition unfinished (repository branch exceptID : string) (t : Task) : bool :=
  EqualASCII (Config_GitHubRepo (Task_Config t)) repository && negb (bool_decide (Task_ID t = exceptID))
  && negb (Archived t) && bool_decide (Task_Branch t = branch)
  && bool_decide (Task_Status t ∈ [StatusQueued; StatusExecuting; StatusReviewing; StatusRepairing; StatusVerifying;
                                   StatusPublishing; StatusBlocked; StatusFailed]).
Definition UnfinishedBranchWork (repository branch exceptID : string) (db : Db) : bool :=
  existsb (unfinished repository branch exceptID) (map_to_list (db_tasks db)).*2.

Section automerge.
Context `{Unicode} `{World} `{Machine} `{Printable} `{GitHubJson} `{MergeJson} `{Company}.
Context (s : Store) (live_config : Db -> Config).
(** The sequence number of a row of pull requests, and [strings.EqualFold]. *)
Context (row_seq : string -> Z) (EqualFold : string -> string -> bool).

Definition MergeCandidates (afterSeq : Z) (limit : nat) (db : Db) : list MergeCandidate :=
  let rows := List.filter (fun row =>
    (afterSeq <? row_seq row.1)%Z
    && (bool_decide (Store_repo s = "") || EqualASCII (PRObservation_Repository row.2) (Store_repo s))
    && awaited row.2) (db_prs db) in
  take limit (foldr insert_candidate [] (map (fun row => mkMergeCandidate (row_seq row.1) row.2) rows)).
Definition MergeObservation (repository : string) (number : N) (db : Db) : option PRObservation :=
  snd <$> prObservationAt repository number db.

Notation event := (fun entity message => event s false entity EventAutomerge message).

(** ** Barriers ([automerge_barriers.go]) *)

Definition mergeBarrierKey (repository : string) (number : N) : string := ToLower repository +:+ ":" +:+ FormatUint number.
Definition setMergeRecoveryError (key : string) (err : failure) : Mg unit :=
  shared (m_update (fun r => r <| rt_mergeRecoveryErrors := <[key := redact_error err]> (rt_mergeRecoveryErrors r) |>)).
Definition clearMergeRecoveryError (key : string) : Mg unit :=
  shared (m_update (fun r => r <| rt_mergeRecoveryErrors := delete key (rt_mergeRecoveryErrors r) |>)).
Definition setMergePrecheckError (key : string) (pre : mergePrecheck) : Mg unit :=
  shared (m_update (fun r => r <| rt_mergePrecheckErrors := <[key := pre]> (rt_mergePrecheckErrors r) |>)).
Definition clearMergeBarrier (key : string) : Mg unit :=
  go! _ <- clearMergeRecoveryError key in
  shared (m_update (fun r => r <| rt_mergePrecheckErrors := delete key (rt_mergePrecheckErrors r) |>)).
(** The pointers of two prechecks are compared by what they point to. *)
#[local] Instance mergePrecheck_eq_dec : EqDecision mergePrecheck.
Proof. solve_decision. Defined.
Definition clearMergePrecheck (key : string) (pre : mergePrecheck) : Mg bool :=
  shared (
    go! current <- m_runtime (fun r => rt_mergePrecheckErrors r !! key) in
    if negb (bool_decide (current = Some pre)) then m_ret false else
    go! _ <- m_update (fun r => r <| rt_mergePrecheckErrors := delete key (rt_mergePrecheckErrors r) |>) in
    m_ret true).
Definition recordMergeSettlementFailure (key : string) (o : PRObservation) (expected : AutoMergeState)
    (status : AutoMergeStatus) (reason source : string) (commit : option string) (revoke : bool) (err : failure) : Mg unit :=
  if is_merge AutoMergeMerging expected || is_merge AutoMergeUncertain expected
     || bool_decide (status = AutoMergeUncertain)
  then setMergeRecoveryError key err
  else setMergePrecheckError key (mkMergePrecheck (redact_error err) (PRObservation_Repository o)
         (PullRequest_Number (PRObservation_PR o)) expected status reason source commit revoke).
Definition settlement_message (status : AutoMergeStatus) (reason : string) : string :=
  "Automatic merge: " +:+ enum_String status +:+ " — " +:+ reason.
Definition settleMerge (o : PRObservation) (expected : AutoMergeState) (status : AutoMergeStatus)
    (reason source : string) (commit : option string) (revoke : bool) : Mg unit :=
  let number := PullRequest_Number (PRObservation_PR o) in
  let key := mergeBarrierKey (PRObservation_Repository o) number in
  go! applied <- m_try (saved false (fun now =>
    SettleMerge now (PRObservation_Repository o) number expected status reason source commit revoke)) in
  match applied with
  | Err err => recordMergeSettlementFailure key o expected status reason source commit revoke err
  | Ok applied =>
    go! _ <- (if applied then clearMergeBarrier key else m_ret tt) in
    if applied && negb (bool_decide (status = AutoMergeWaiting))
    then event (AutoMergeState_TaskID expected) (settlement_message status reason)
    else m_ret tt
  end.
Definition mergeConfirmed (task : Task) (o : PRObservation) (expected : AutoMergeState) (commit : string) : Mg unit :=
  let number := PullRequest_Number (PRObservation_PR o) in
  let key := mergeBarrierKey (PRObservation_Repository o) number in
  go! ok <- m_try (saved false (fun now => SettleMerge now (PRObservation_Repository o) number expected
    AutoMergeMerged "Squash merged by Octomus" MergeResultConfirmed (Some commit) false)) in
  match ok with
  | Err err => setMergeRecoveryError key err
  | Ok false => setMergeRecoveryError key (Failed (New "The confirmed merge result could not be recorded"))
  | Ok true =>
    go! _ <- clearMergeBarrier key in
    go! _ <- event (Task_ID task) ("Squash merged pull request " +:+ FormatUint number +:+ " at " +:+ commit) in
    go! live <- shared (m_read (fun a => live_config (app_db a))) in
    go! _ <- shared (startPRRefresh s live) in
    go! revision <- m_try (asks (RemoteRevision live (Config_DefaultBranch live))) in
    match revision with
    | Ok (Some revision) =>
      go! now <- now_text in
      go! _ <- m_try (observeDefaultBranch live_config live revision now) in m_ret tt
    | _ => m_ret tt
    end
  end.
Definition mergeBarrierBound (expected merge : AutoMergeState) : bool :=
  same_intent expected merge && bool_decide (AutoMergeState_AttemptID expected = AutoMergeState_AttemptID merge).
(** Whether the barrier was released. *)
Definition recoverMergePrecheck (pre : mergePrecheck) : Mg bool :=
  let key := mergeBarrierKey (pre_repository pre) (pre_number pre) in
  go! observation <- m_try (loaded false (MergeObservation (pre_repository pre) (pre_number pre))) in
  match observation with
  | Err _ => m_ret false
  | Ok observation =>
    match observation ≫= PRObservation_AutoMerge with
    | None => clearMergePrecheck key pre
    | Some merge =>
      if negb (mergeBarrierBound (pre_expected pre) merge) then clearMergePrecheck key pre else
      if negb (bool_decide (merge = pre_expected pre)) then clearMergePrecheck key pre else
      go! applied <- m_try (saved false (fun now => SettleMerge now (pre_repository pre) (pre_number pre)
        (pre_expected pre) (pre_status pre) (pre_reason pre) (pre_source pre) (pre_commit pre) (pre_revoke pre))) in
      match applied with
      | Err _ => m_ret false
      | Ok applied =>
        go! _ <- (if applied && negb (bool_decide (pre_status pre = AutoMergeWaiting))
                  then event (AutoMergeState_TaskID (pre_expected pre)) (settlement_message (pre_status pre) (pre_reason pre))
                  else m_ret tt) in
        clearMergePrecheck key pre
      end
    end
  end.
Fixpoint recover_prechecks (pending : list mergePrecheck) : Mg bool :=
  match pending with
  | [] => m_ret false
  | pre :: pending =>
    go! done <- ctx_done in
    if done then m_ret false else
    go! released <- recoverMergePrecheck pre in
    go! more <- recover_prechecks pending in
    m_ret (released || more)
  end.
(** In the order of the map's keys; the code's order is Go's random one. *)
Definition recoverMergePrechecks : Mg bool :=
  go! pending <- shared (m_runtime (fun r => (map_to_list (rt_mergePrecheckErrors r)).*2)) in
  go! released <- recover_prechecks pending in
  go! _ <- (if released then shared (m_update (fun r => r <| rt_lastMergeCheck := zero_time |>)) else m_ret tt) in
  m_ret released.

(** ** A candidate ([automerge.go]) *)

Definition branch_running (branch exceptID : string) (a : App) : bool :=
  existsb (fun e =>
    negb (bool_decide (fst e = exceptID)) &&
    match app_jobs a !! snd e with Some job => bool_decide (job_branch job = branch) | None => false end)
    (map_to_list (rt_tasks (app_runtime a))).
Definition branchHasUnfinishedWork (gated : bool) (repository branch exceptID : string) : Mg bool :=
  go! running <- enter gated (m_read (branch_running branch exceptID)) in
  if running then m_ret true else loaded gated (UnfinishedBranchWork repository branch exceptID).

(** Why a merge may not proceed, and whether it may later. *)
Definition mergeReadiness (t : Task) (cfg : Config) (status : MergeStatus) : string * bool :=
  if MergeStatus_Draft status then ("The pull request is a draft", false) else
  if MergeStatus_MergeQueue status then ("The repository requires a merge queue", false) else
  if negb (MergeStatus_SquashAllowed status) then ("The repository does not allow squash merging", false) else
  if bool_decide (MergeStatus_ReviewDecision status = Some "REVIEW_REQUIRED")
  then ("Waiting for a required pull request review", true) else
  if isSome (MergeStatus_ReviewDecision status) && negb (bool_decide (MergeStatus_ReviewDecision status = Some "APPROVED"))
  then ("The pull request review requested changes", false) else
  match MergeStatus_CheckState status with
  | None => ("Waiting for check evidence on the reviewed head", true)
  | Some check_state =>
    if bool_decide (check_state = "SUCCESS") && (MergeStatus_CheckContexts status =? 0)
    then ("Waiting for check evidence on the reviewed head", true) else
    if bool_decide (check_state = "EXPECTED") || bool_decide (check_state = "PENDING")
    then ("Waiting for checks to complete on the reviewed head", true) else
    if negb (bool_decide (check_state = "SUCCESS")) then ("Checks failed on the reviewed head", false) else
    if bool_decide (MergeStatus_Mergeable status = "CONFLICTING") then ("The pull request has conflicts", false) else
    if negb (bool_decide (MergeStatus_Mergeable status = "MERGEABLE"))
    then ("Waiting for GitHub to report mergeability", true) else
    if bool_decide (MergeStatus_MergeState status = "UNSTABLE")
    then ("Waiting for checks to complete on the reviewed head", true) else
    if negb (bool_decide (MergeStatus_MergeState status = "CLEAN"))
    then ("GitHub protections block merging: " +:+ ToLower (MergeStatus_MergeState status), false) else
    if MergeStatus_StatsMalformed status then ("GitHub reported malformed footprint statistics", false) else
    match MergeStatus_Additions status, MergeStatus_Deletions status, MergeStatus_ChangedFiles status with
    | Some additions, Some deletions, Some files =>
      if negb (RemoteFootprintWithin additions deletions files (Task_Config t) cfg)
      then ("The full pull request footprint exceeds the automatic merge limits", false) else ("", false)
    | _, _, _ => ("GitHub did not report the pull request footprint", false)
    end
  end.
Definition mergeBaseRevision (cfg : Config) (status : MergeStatus) (merge : AutoMergeState) : G string :=
  git! _ <- Fetch cfg in MergeBase cfg (MergeStatus_BaseOID status) (AutoMergeState_Head merge).

(** The answer of [mergeBlocked]. *)
Inductive verdict :=
| Ready
| Terminal
| Waiting (reason : string)
| Refused (reason : string) (revoke : bool).
Definition waiting_for (what : string) (err : failure) : verdict := Waiting (what +:+ redact_error err).
(** The task still carries the authority. *)
Definition still_authorized (cfg : Config) (t : Task) (merge : AutoMergeState) : option string :=
  if Archived t then Some "The authorizing task was archived" else
  if negb (EqualFold (Config_GitHubRepo (Task_Config t)) (Config_GitHubRepo cfg))
  then Some "The repository configuration changed; the recorded authority no longer applies" else
  if bool_decide (AutoMergeState_HeadBranch merge = "") || bool_decide (AutoMergeState_BaseBranch merge = "")
     || negb (bool_decide (AutoMergeState_HeadBranch merge = Task_Branch t))
     || negb (bool_decide (AutoMergeState_BaseBranch merge = Config_DefaultBranch (Task_Config t)))
  then Some "The recorded merge intent predates immutable branch and base binding" else
  if negb (bool_decide (Task_Status t = StatusPublished)) || negb (bool_decide (Task_OutputCommit t = Some (AutoMergeState_Head merge)))
     || negb (bool_decide (Task_ComparisonBase t = AutoMergeState_ComparisonBase merge))
  then Some "The recorded delivery evidence no longer matches the authorized head" else
  if negb (MaintenanceMergeAuthorized t cfg) then Some (manualMergeReason t cfg) else None.
(** [return reason, waiting, false, false] for a reason that may be empty. *)
Definition readiness_verdict (reason : string) (waiting : bool) : verdict :=
  if waiting then Waiting reason else if bool_decide (reason = "") then Ready else Refused reason false.
Definition mergeBlocked (cfg : Config) (t : Task) (merge : AutoMergeState) : Mg verdict :=
  let number := default 0 (Task_PRNumber t) in
  match still_authorized cfg t merge with
  | Some reason => m_ret (if bool_decide (reason = "") then Ready else Refused reason true)
  | None =>
    go! unfinished <- m_try (branchHasUnfinishedWork false (Config_GitHubRepo cfg) (Task_Branch t) (Task_ID t)) in
    match unfinished with
    | Err err => m_ret (waiting_for "Waiting for the same-branch work check: " err)
    | Ok true => m_ret (Waiting "Waiting for same-branch work to finish")
    | Ok false =>
      go! pr <- m_try (asks (PR cfg number)) in
      match pr with
      | Err err => m_ret (waiting_for "Waiting for a readable pull request: " err)
      | Ok pr =>
        if bool_decide (PullRequest_State pr = "merged") || bool_decide (PullRequest_State pr = "closed") then m_ret Terminal else
        if negb (OwnedOpen pr) || negb (bool_decide (PullRequest_Branch pr = AutoMergeState_HeadBranch merge))
           || negb (bool_decide (PullRequest_Base pr = AutoMergeState_BaseBranch merge))
           || negb (bool_decide (PullRequest_Head pr = AutoMergeState_Head merge))
        then m_ret (Refused "The pull request changed; the recorded authority no longer applies" true) else
        go! marker <- m_try (asks (TaskMarker cfg (Task_ID t) pr)) in
        match marker with
        | Err err => m_ret (waiting_for "Waiting for a readable task marker: " err)
        | Ok false => m_ret (Refused "The pull request does not carry this task's delivery marker" true)
        | Ok true =>
          go! status <- m_try (asks (MaintenanceMergeStatus cfg number)) in
          match status with
          | Err err => m_ret (waiting_for "Waiting for merge status: " err)
          | Ok status =>
            if bool_decide (MergeStatus_State status = "merged") || bool_decide (MergeStatus_State status = "closed")
            then m_ret Terminal else
            if negb (bool_decide (MergeStatus_Head status = AutoMergeState_Head merge))
               || negb (bool_decide (MergeStatus_HeadBranch status = AutoMergeState_HeadBranch merge))
               || negb (bool_decide (MergeStatus_BaseBranch status = AutoMergeState_BaseBranch merge))
            then m_ret (Refused "The pull request head, branch or base changed" true) else
            let '(reason, waiting) := mergeReadiness t cfg status in
            if negb (bool_decide (reason = "")) then m_ret (readiness_verdict reason waiting) else
            go! base <- m_try (asks (mergeBaseRevision cfg status merge)) in
            match base with
            | Err err => m_ret (waiting_for "Waiting for the trusted merge base: " err)
            | Ok base =>
              m_ret (if negb (bool_decide (base = AutoMergeState_ComparisonBase merge))
                     then Refused "The base moved since review; a fresh reviewed delivery is required" true else Ready)
            end
          end
        end
      end
    end
  end.

(** What a remote status settles. *)
Definition reconcileMerge (cfg : Config) (o : PRObservation) (merge : AutoMergeState) : Mg unit :=
  go! status <- m_try (asks (MaintenanceMergeStatus cfg (PullRequest_Number (PRObservation_PR o)))) in
  match status with
  | Err err => settleMerge o merge (AutoMergeState_Status merge)
      ("Merge result is unconfirmed; remote status is unreadable: " +:+ redact_error err) "" None false
  | Ok status =>
    let bound := bool_decide (MergeStatus_Head status = AutoMergeState_Head merge)
      && bool_decide (MergeStatus_HeadBranch status = AutoMergeState_HeadBranch merge)
      && bool_decide (MergeStatus_BaseBranch status = AutoMergeState_BaseBranch merge)
      && EqualFold (MergeStatus_Repository status) (PRObservation_Repository o) in
    if bool_decide (MergeStatus_State status = "merged") then
      if bound then settleMerge o merge AutoMergeMerged "The pull request is merged on the remote"
        MergeResultObserved (MergeStatus_MergeCommit status) false
      else settleMerge o merge AutoMergeManual
        "The pull request merged after its head, branch or base changed; the outcome does not apply to the recorded reviewed head"
        "" None true
    else if bool_decide (MergeStatus_State status = "closed") then
      if bound then settleMerge o merge AutoMergeClosed "The pull request was closed without merging"
        MergeResultObserved None false
      else settleMerge o merge AutoMergeManual
        "The pull request closed after its head, branch or base changed; the outcome does not apply to the recorded reviewed head"
        "" None true
    else if bound && bool_decide (MergeStatus_State status = "open")
    then settleMerge o merge AutoMergeWaiting "The merge attempt was interrupted; fresh checks are required" "" None false
    else settleMerge o merge AutoMergeManual
      "The pull request head changed during the merge attempt; authority is revoked" "" None true
  end.

(** ** The attempt *)

(** The live controls allow merging the task now. *)
Definition controls_allow (control : Control) (live : Config) (t : Task) : bool :=
  negb (Control_Paused control)
  && (bool_decide (Control_Mode control = OperatingModeContinuous) || bool_decide (Control_Mode control = OperatingModeRunOnce))
  && bool_decide (Config_DeliveryMode live = DeliveryModeMaintenance) && MaintenanceMergeAuthorized t live
  && (negb (bool_decide (Control_Mode control = OperatingModeRunOnce))
      || match Control_Batch control with
         | Some batch => bool_decide (Task_RunID t = Some (RunBatch_ID batch))
         | None => false
         end).
(** The saved task is the delivery the authority and the observation are of. *)
Definition delivery_matches (t : Task) (o : PRObservation) (merge : AutoMergeState) : bool :=
  bool_decide (Task_Status t = StatusPublished) && negb (Archived t)
  && bool_decide (Task_OutputCommit t = Some (AutoMergeState_Head merge))
  && bool_decide (Task_ComparisonBase t = AutoMergeState_ComparisonBase merge)
  && bool_decide (Task_PRNumber t = Some (PullRequest_Number (PRObservation_PR o)))
  && negb (bool_decide (AutoMergeState_HeadBranch merge = "")) && negb (bool_decide (AutoMergeState_BaseBranch merge = ""))
  && bool_decide (AutoMergeState_HeadBranch merge = Task_Branch t)
  && bool_decide (AutoMergeState_BaseBranch merge = Config_DefaultBranch (Task_Config t))
  && bool_decide (Task_Branch t = PullRequest_Branch (PRObservation_PR o))
  && bool_decide (PullRequest_Base (PRObservation_PR o) = AutoMergeState_BaseBranch merge)
  && EqualFold (Config_GitHubRepo (Task_Config t)) (PRObservation_Repository o).
(** What is decided under the gate before the claim: the task and the
    configuration, or nothing. *)
Definition mergeable_now (o : PRObservation) (merge : AutoMergeState) : Mg (option (Task * Config)) :=
  go! control <- held (Control_ s) in
  go! live <- held (m_read (fun a => live_config (app_db a))) in
  go! recovering <- held recoveryConflict in
  if isSome recovering then m_ret None else
  go! current <- loaded true (fun db => db_tasks db !! AutoMergeState_TaskID merge) in
  match current with
  | None => m_ret None
  | Some current =>
    if negb (controls_allow control live current) || negb (delivery_matches current o merge) then m_ret None else
    go! cancelled <- loaded true (CancelMarked (AutoMergeState_TaskID merge)) in
    if cancelled then m_ret None else
    go! busy <- branchHasUnfinishedWork true (Config_GitHubRepo live) (Task_Branch current) (Task_ID current) in
    m_ret (if busy then None else Some (current, live))
  end.
Definition attempted (merge : AutoMergeState) (attemptID attemptedAt observedAt : string) : AutoMergeState :=
  merge <| AutoMergeState_Status := AutoMergeMerging |> <| AutoMergeState_AttemptID := Some attemptID |>
        <| AutoMergeState_AttemptedAt := Some attemptedAt |> <| AutoMergeState_Reason := "Squash merge in flight" |>
        <| AutoMergeState_ObservedAt := observedAt |>.
(** The claim, recorded when it is accepted. *)
Definition claim (o : PRObservation) (merge intent : AutoMergeState) (allowManual : bool) : Mg bool :=
  let number := PullRequest_Number (PRObservation_PR o) in
  go! before <- m_read ac_app in
  go! claimed <- saved true (fun now =>
    ClaimMerge redact_text s now (PRObservation_Repository o) number intent allowManual) in
  go! _ <- (if claimed
            then does (Claimed (mkClaim before (PRObservation_Repository o) number merge intent allowManual)) else m_ret tt) in
  m_ret claimed.
Definition bounded (live : Config) : Config :=
  live <| Config_CommandTimeoutSeconds := N.min (Config_CommandTimeoutSeconds live) mergeMutationBound |>.
Definition contains_any (text : string) (markers : list string) : bool := existsb (Contains text) markers.
Definition mergeRefusal (err : failure) : option string :=
  if contains_any (failure_text err) ["HTTP 403"; "HTTP 404"; "HTTP 405"; "HTTP 422"]
  then Some ("GitHub refused the merge request: " +:+ redact_error err) else None.
Definition is_merge_destination : failure -> bool := fails_with "Automatic merge destination is not enforced".
Definition is_merge_unconfirmed : failure -> bool := fails_with "Merge request outcome is unconfirmed".
(** What the answer of the request settles. *)
Definition settle_attempt (t : Task) (o : PRObservation) (expected : AutoMergeState) (r : result string failure) : Mg unit :=
  match r with
  | Ok commit => mergeConfirmed t o expected commit
  | Err err =>
    if is_merge_destination err then settleMerge o expected AutoMergeManual (redact_error err) "" None false else
    match (if is_merge_unconfirmed err then None else mergeRefusal err) with
    | Some refusal => settleMerge o expected AutoMergeManual refusal "" None true
    | None => settleMerge o expected AutoMergeUncertain
        ("The merge request outcome is unconfirmed: " +:+ redact_error err) "" None false
    end
  end.
(** Under the gate: the checks, the claim and the request. *)
Definition attempt_locked (o : PRObservation) (merge : AutoMergeState) (attemptID : string) (allowManual : bool)
    : Mg (option (Task * result string failure)) :=
  go! done <- ctx_done in
  if done then m_ret None else
  go! current <- m_try (mergeable_now o merge) in
  match current with
  | Ok (Some (current, live)) =>
    go! attemptedAt <- held time_now in
    go! observedAt <- held time_now in
    go! claimed <- m_try (claim o merge (attempted merge attemptID (Timestamp attemptedAt) (Timestamp observedAt)) allowManual) in
    match claimed with
    | Ok true =>
      go! merged <- m_try (asks (SquashMerge (bounded live) (PullRequest_Number (PRObservation_PR o))
                                   (AutoMergeState_Head merge) (AutoMergeState_HeadBranch merge))) in
      m_ret (Some (current, merged))
    | _ => m_ret None
    end
  | _ => m_ret None
  end.
Definition mergeAttempt (o : PRObservation) (merge : AutoMergeState) (allowManual : bool) : Mg unit :=
  go! attemptID <- shared new_id in
  go! _ <- lock in
  go! attempted <- attempt_locked o merge attemptID allowManual in
  match attempted with
  | Some (current, merged) =>
    settle_attempt current o
      (merge <| AutoMergeState_Status := AutoMergeMerging |> <| AutoMergeState_AttemptID := Some attemptID |>) merged
  | None => m_ret tt
  end.

(** ** The pass *)

(** The terms of a pass: the configuration and the controls it began with. *)
Record terms := mkTerms {
  terms_cfg : Config; terms_modeOff : bool; terms_paused : bool; terms_continuous : bool; terms_batch : option string }.
Definition pass_terms (cfg : Config) (control : Control) : terms :=
  let modeOff := negb (bool_decide (Config_DeliveryMode cfg = DeliveryModeMaintenance)) in
  let paused := Control_Paused control || bool_decide (Control_Mode control = OperatingModePaused) in
  mkTerms cfg modeOff paused
    (negb modeOff && negb paused && bool_decide (Control_Mode control = OperatingModeContinuous))
    (if negb modeOff && negb paused && bool_decide (Control_Mode control = OperatingModeRunOnce)
     then RunBatch_ID <$> Control_Batch control else None).
(** The work on a candidate whose branch is claimed. *)
Definition merge_claimed (k : terms) (t : Task) (o : PRObservation) (merge : AutoMergeState) : Mg unit :=
  if merge_in_flight merge then reconcileMerge (Task_Config t) o merge else
  if match terms_batch k with Some batch => negb (bool_decide (Task_RunID t = Some batch)) | None => false end
  then m_ret tt else
  if terms_modeOff k then
    if is_merge AutoMergeWaiting merge || is_merge AutoMergeManual merge && AutoMergeState_Authorized merge
    then settleMerge o merge AutoMergeManual "The live delivery mode no longer authorizes automatic merge" "" None true
    else m_ret tt
  else
  if terms_paused k then m_ret tt else
  if is_merge AutoMergeManual merge && negb (terms_continuous k && AutoMergeState_Authorized merge) then m_ret tt else
  go! blocked <- mergeBlocked (terms_cfg k) t merge in
  match blocked with
  | Terminal => reconcileMerge (Task_Config t) o merge
  | Waiting reason => settleMerge o merge AutoMergeWaiting reason "" None false
  | Refused reason revoke => settleMerge o merge AutoMergeManual reason "" None revoke
  | Ready => mergeAttempt o merge (terms_continuous k)
  end.
Definition merge_candidate (k : terms) (o : PRObservation) (merge : AutoMergeState) : Mg unit :=
  go! task <- m_try (loaded false (fun db => db_tasks db !! AutoMergeState_TaskID merge)) in
  match task with
  | Err err => go! _ <- shared (setRecoveryError err) in m_ret tt
  | Ok None =>
    if merge_in_flight merge
    then reconcileMerge ((terms_cfg k) <| Config_GitHubRepo := PRObservation_Repository o |>) o merge
    else settleMerge o merge AutoMergeManual "The authorizing task record is missing" "" None true
  | Ok (Some t) =>
    go! mine <- shared (
      go! busy <- m_runtime (fun r => bool_decide (Task_Branch t ∈ rt_merges r)) in
      if busy then m_ret false else
      go! _ <- m_update (fun r => r <| rt_merges := {[Task_Branch t]} ∪ rt_merges r |>) in m_ret true) in
    if negb mine then m_ret tt else
    go! r <- m_try (merge_claimed k t o merge) in
    go! _ <- shared (m_update (fun r => r <| rt_merges := rt_merges r ∖ {[Task_Branch t]} |>)) in
    m_lift r
  end.
Definition mergeCandidate (k : terms) (o : PRObservation) : Mg unit :=
  match PRObservation_AutoMerge o with
  | Some merge =>
    if negb (Pending (AutoMergeState_Status merge)) && negb (is_merge AutoMergeManual merge) then m_ret tt
    else merge_candidate k o merge
  | None => m_ret tt
  end.

Definition set_cursor (cursor : Z) : Mg unit := shared (m_update (fun r => r <| rt_mergeCursor := cursor |>)).
(** What ends the pass, or the deliveries seen and the number of those done. *)
Inductive progress :=
| Finished
| Continue (seen : list Z) (processed : nat).
(** One page of candidates. *)
Fixpoint merge_page (k : terms) (seen : list Z) (processed : nat) (page : list MergeCandidate) : Mg progress :=
  match page with
  | [] => m_ret (Continue seen processed)
  | c :: page =>
    if bool_decide (candidate_seq c ∈ seen) then go! _ <- set_cursor 0 in m_ret Finished else
    go! _ <- set_cursor (candidate_seq c) in
    go! done <- ctx_done in
    if done then m_ret Finished else
    go! _ <- does (Considered (candidate_seq c)) in
    go! _ <- mergeCandidate k (candidate_observation c) in
    let seen := candidate_seq c :: seen in
    let processed := S processed in
    if Nat.leb mergePassLimit processed then m_ret (Continue seen processed) else merge_page k seen processed page
  end.
Fixpoint merge_loop (fuel : nat) (k : terms) (seen : list Z) (processed : nat) : Mg unit :=
  match fuel with
  | O => m_ret tt
  | S fuel =>
    if negb (Nat.ltb processed mergePassLimit) then m_ret tt else
    go! done <- ctx_done in
    if done then m_ret tt else
    go! cursor <- shared (m_runtime rt_mergeCursor) in
    go! candidates <- m_try (loaded false (MergeCandidates cursor mergePageSize)) in
    match candidates with
    | Err err => go! _ <- shared (setRecoveryError err) in m_ret tt
    | Ok [] =>
      if (cursor =? 0)%Z then m_ret tt else
      go! _ <- set_cursor 0 in merge_loop fuel k seen processed
    | Ok page =>
      go! next <- merge_page k seen processed page in
      match next with
      | Finished => m_ret tt
      | Continue seen processed => merge_loop fuel k seen processed
      end
    end
  end.
Definition mergePass (fuel : nat) (control : Control) : Mg unit :=
  go! cfg <- shared (m_read (fun a => live_config (app_db a))) in
  merge_loop fuel (pass_terms cfg control) [] 0.

(** Whether a worker starts; its goroutine is [merge_worker]. *)
Definition checkMerges : Mg bool :=
  go! free <- shared (
    go! r <- m_runtime id in
    if rt_mergeWorker r then m_ret None else
    go! stop <- stopped in
    if stop then m_ret None else
    go! now <- time_now in
    m_ret (if (Sub now (rt_lastMergeCheck r) <? autoMergeInterval)%Z then None else Some (rt_mergeCursor r))) in
  match free with
  | None => m_ret false
  | Some cursor =>
    go! candidates <- m_try (
      go! page <- loaded false (MergeCandidates cursor mergePageSize) in
      match page with
      | [] => if (cursor =? 0)%Z then m_ret [] else loaded false (MergeCandidates 0 mergePageSize)
      | _ => m_ret page
      end) in
    match candidates with
    | Err err => go! _ <- shared (setRecoveryError err) in m_ret false
    | Ok [] => go! _ <- (if (cursor =? 0)%Z then m_ret tt else set_cursor 0) in m_ret false
    | Ok _ =>
      shared (go! now <- time_now in
              go! _ <- m_update (fun r => r <| rt_lastMergeCheck := now |> <| rt_mergeWorker := true |>) in
              m_ret true)
    end
  end.
Definition merge_worker (fuel : nat) (control : Control) : Mg unit :=
  go! _ <- mergePass fuel control in
  shared (m_update (fun r => r <| rt_mergeWorker := false |>)).
End automerge.

(** * Properties *)

Section safety.
Context `{Unicode} `{World} `{Machine} `{Printable} `{GitHubJson} `{MergeJson} `{Company}.
Context (s : Store) (live_config : Db -> Config) (row_seq : string -> Z) (EqualFold : string -> string -> bool).

(** ** What precedes a merge request *)

(** What the worker found under the gate when its claim was accepted. *)
Record justified (c : Claim) : Prop := {
  justified_task : exists t o, db_tasks (app_db (claim_app c)) !! AutoMergeState_TaskID (claim_found c) = Some t
    /\ PRObservation_Repository o = claim_repository c /\ PullRequest_Number (PRObservation_PR o) = claim_number c
    /\ delivery_matches EqualFold t o (claim_found c) = true
    /\ controls_allow (liveControl (ControlKey s) (app_db (claim_app c))) (live_config (app_db (claim_app c))) t = true
    /\ branch_running (Task_Branch t) (Task_ID t) (claim_app c) = false
    /\ UnfinishedBranchWork (Config_GitHubRepo (live_config (app_db (claim_app c)))) (Task_Branch t) (Task_ID t)
         (app_db (claim_app c)) = false;
  justified_uncancelled : CancelMarked (AutoMergeState_TaskID (claim_found c)) (app_db (claim_app c)) = false;
  justified_barriers : recovery_blocked (app_runtime (claim_app c)) = false;
  justified_intent : exists id at_ seen, claim_intent c = attempted (claim_found c) id at_ seen;
  justified_claim : exists now db, ClaimMerge redact_text s now (claim_repository c) (claim_number c) (claim_intent c)
    (claim_manual c) (app_db (claim_app c)) = (Ok true, db);
}.
(** The request a claim allows. *)
Definition requested (c : Claim) : sent :=
  request (put_call (bounded (live_config (app_db (claim_app c)))) (claim_number c) (AutoMergeState_Head (claim_found c))).
(** Every claim is justified, and whatever writes to the remote is the request
    of the last claim, which no other request has used. *)
Fixpoint obeys (open : option Claim) (l : list act) : Prop :=
  match l with
  | [] => True
  | Considered _ :: l => obeys open l
  | Claimed c :: l => justified c /\ obeys (Some c) l
  | Asked q :: l =>
    if writes_remote q then match open with Some c => q = requested c /\ obeys None l | None => False end
    else obeys open l
  end.

(** The deliveries looked at. *)
Definition considered (l : list act) : list Z := omap (fun x => match x with Considered seq => Some seq | _ => None end) l.

Lemma obeys_app open l l' : obeys open l -> (forall open, obeys open l') -> obeys open (l ++ l').
Proof.
  revert open. induction l as [|[seq|c|q] l IH]; intros open O R; [done|..]; simpl in *; [by apply IH|naive_solver|].
  destruct (writes_remote q); [|by apply IH]. destruct open; naive_solver.
Qed.
Lemma obeys_reads open l : Forall reads_only l -> obeys open (map Asked l).
Proof. induction 1 as [|q l R F IH]; [done|]. simpl. unfold reads_only in R. by rewrite R. Qed.

(** Acts that obey, whatever came before, and look at no further delivery. *)
Record proper (l : list act) : Prop := { proper_obeys : forall open, obeys open l; proper_considered : considered l = [] }.
Lemma proper_app l l' : proper l -> proper l' -> proper (l ++ l').
Proof. intros [O C] [O' C']. split; [intros; by apply obeys_app|]. unfold considered in *. by rewrite omap_app, C, C'. Qed.
Lemma proper_reads l : Forall reads_only l -> proper (map Asked l).
Proof. intros F. split; [intros; by apply obeys_reads|]. by induction F. Qed.
Lemma proper_nil : proper [].
Proof. by split. Qed.
#[local] Instance proper_trace : Trace proper := {| trace_nil := proper_nil; trace_app := proper_app |}.
(** A program whose acts are proper. *)
Notation safe := (keeps (X := unit) proper).
Notation safe_at := (keeps_at (X := unit) proper).
Lemma safe_bind {A B} (m : Mg A) (k : A -> Mg B) : safe m -> (forall x, safe (k x)) -> safe (m_bind m k).
Proof. apply (keeps_bind _). Qed.
Lemma safe_ret {A} (x : A) : safe (m_ret x).
Proof. apply (keeps_ret _). Qed.
Lemma safe_asks {A} (m : G A) : says reads_only m (fun _ => True) -> safe (asks m).
Proof. intros S. eapply keeps_asks; [exact S|]. apply proper_reads. Qed.

(** Follows the structure of a program. *)
#[local] Hint Resolve keeps_ret keeps_lift keeps_read keeps_shared keeps_held keeps_enter keeps_lock keeps_saved keeps_loaded keeps_event : safe.
#[local] Hint Extern 0 (Trace proper) => exact proper_trace : safe.
Ltac safely :=
  repeat (intros; first
    [ solve [auto with safe nocore]
    | apply safe_bind
    | apply keeps_try
    | match goal with |- keeps proper (if ?c then _ else _) => destruct c end
    | match goal with |- keeps proper (match ?x with _ => _ end) => destruct x end ]).

Lemma reads_MaintenanceMergeStatus c number : says reads_only (MaintenanceMergeStatus c number) (fun _ => True).
Proof.
  unfold MaintenanceMergeStatus. destruct (Cut _ _) as [[owner name] found].
  apply says_bind, says_gh; [done..|]. intros out. by apply says_lift.
Qed.
Lemma reads_mergeBaseRevision cfg status merge : says reads_only (mergeBaseRevision cfg status merge) (fun _ => True).
Proof.
  apply says_bind. apply says_bind, says_do; [done|]. apply says_bind, says_try.
  - apply says_bind, says_git; [done..|]. intros out. apply says_ret, says_bind, says_ask; [done|]. intros _.
    apply says_lift. intros _ _. by apply says_git.
  - intros err. apply says_bind, says_ask; [done|]. intros _. by apply says_lift.
Qed.
Lemma reads_PR c number : says reads_only (PR c number) (fun _ => True).
Proof. by apply says_PR. Qed.
Lemma reads_TaskMarker c id p : says reads_only (TaskMarker c id p) (fun _ => True).
Proof. by apply says_TaskMarker. Qed.
Lemma reads_RemoteRevision c branch : says reads_only (RemoteRevision c branch) (fun _ => True).
Proof. by apply says_RemoteRevision. Qed.
Lemma reads_CtxErr : says reads_only (g_ask CtxErr) (fun _ => True).
Proof. by apply says_ask. Qed.
#[local] Hint Resolve safe_asks reads_MaintenanceMergeStatus reads_mergeBaseRevision reads_PR reads_TaskMarker
  reads_RemoteRevision reads_CtxErr : safe.

Lemma safe_ctx_done : safe ctx_done.
Proof. unfold ctx_done, ctx_err. safely. Qed.
#[local] Hint Resolve safe_ctx_done : safe.
Lemma safe_clearMergeBarrier key : safe (clearMergeBarrier key).
Proof. unfold clearMergeBarrier, clearMergeRecoveryError. safely. Qed.
Lemma safe_recordMergeSettlementFailure key o expected status reason source commit revoke err :
  safe (recordMergeSettlementFailure key o expected status reason source commit revoke err).
Proof. unfold recordMergeSettlementFailure, setMergeRecoveryError, setMergePrecheckError. safely. Qed.
#[local] Hint Resolve safe_clearMergeBarrier safe_recordMergeSettlementFailure : safe.
Lemma safe_settleMerge o expected status reason source commit revoke :
  safe (settleMerge s o expected status reason source commit revoke).
Proof. unfold settleMerge. safely. Qed.
Lemma safe_observeDefaultBranch cfg revision observedAt : safe (observeDefaultBranch live_config cfg revision observedAt).
Proof. apply proceeds_keeps, (proceeds_observeDefaultBranch _ proper). Qed.
#[local] Hint Resolve safe_observeDefaultBranch keeps_now_text : safe.
Lemma safe_mergeConfirmed t o expected commit : safe (mergeConfirmed s live_config t o expected commit).
Proof. unfold mergeConfirmed, setMergeRecoveryError. safely. Qed.
Lemma safe_branchHasUnfinishedWork gated repository branch id : safe (branchHasUnfinishedWork gated repository branch id).
Proof. unfold branchHasUnfinishedWork. safely. Qed.
#[local] Hint Resolve safe_settleMerge safe_mergeConfirmed safe_branchHasUnfinishedWork : safe.
Lemma safe_mergeBlocked cfg t merge : safe (mergeBlocked EqualFold cfg t merge).
Proof. unfold mergeBlocked. safely. Qed.
Lemma safe_reconcileMerge cfg o merge : safe (reconcileMerge s EqualFold cfg o merge).
Proof. unfold reconcileMerge. safely. Qed.
Lemma safe_settle_attempt t o expected r : safe (settle_attempt s live_config t o expected r).
Proof. unfold settle_attempt. safely. Qed.
#[local] Hint Resolve safe_mergeBlocked safe_reconcileMerge safe_settle_attempt : safe.

(** ** Under the gate *)

(** What [mergeable_now] found. *)
Record found (a : App) (o : PRObservation) (merge : AutoMergeState) (t : Task) (live : Config) : Prop := {
  found_live : live = live_config (app_db a);
  found_task : db_tasks (app_db a) !! AutoMergeState_TaskID merge = Some t;
  found_delivery : delivery_matches EqualFold t o merge = true;
  found_controls : controls_allow (liveControl (ControlKey s) (app_db a)) live t = true;
  found_idle : branch_running (Task_Branch t) (Task_ID t) a = false;
  found_unfinished : UnfinishedBranchWork (Config_GitHubRepo live) (Task_Branch t) (Task_ID t) (app_db a) = false;
  found_uncancelled : CancelMarked (AutoMergeState_TaskID merge) (app_db a) = false;
  found_barriers : recovery_blocked (app_runtime a) = false;
}.
Lemma peeks_mergeable_now a o merge :
  peeks a (mergeable_now s live_config EqualFold o merge)
    (fun r => match r with Some (t, live) => found a o merge t live | None => True end).
Proof.
  apply peeks_bind, peeks_held, peeks_bind, peeks_held, peeks_bind.
  apply (peeks_held a (fun a => if recovery_blocked (app_runtime a) then Some errRecoveryBlocked else None)).
  destruct (recovery_blocked _) eqn:B; [by apply peeks_ret|]. apply peeks_bind, peeks_loaded.
  destruct (db_tasks _ !! _) as [t|] eqn:T; [|by apply peeks_ret].
  destruct (_ || _) eqn:D; [by apply peeks_ret|]. bool_hyps. apply peeks_bind, peeks_loaded.
  destruct (CancelMarked _ _) eqn:C; [by apply peeks_ret|]. apply peeks_bind, peeks_bind, peeks_held.
  destruct (branch_running _ _ _) eqn:R; [by apply peeks_ret, peeks_ret|]. apply peeks_loaded.
  destruct (UnfinishedBranchWork _ _ _ _) eqn:Un; apply peeks_ret; [done|]. by split.
Qed.

(** The calls of a merge, after the claim that allows its request. *)
Lemma obeys_squash c number head k claimed :
  request (put_call c number head) = requested claimed -> (k <= 4)%nat ->
  obeys (Some claimed) (map Asked (take k (merge_calls c number head))).
Proof.
  intros E L. do 5 (destruct k as [|k]; [by repeat split|]). lia.
Qed.

(** The request of an accepted claim. *)
Lemma safe_squash_of claimed c number head headBranch w :
  request (put_call c number head) = requested claimed ->
  exists new, ac_deeds (snd (asks (X := unit) (SquashMerge c number head headBranch) w)) = ac_deeds w ++ new
    /\ obeys (Some claimed) new /\ considered new = [].
Proof.
  intros E. unfold asks. destruct (SquashMerge_steps c number head headBranch (mkGit (ac_asked w) [])) as (r & k & St & L & _).
  rewrite St. simpl. eexists. split_and!; [done|by apply (obeys_squash c number head k)|].
  generalize (take k (merge_calls c number head)). by induction l.
Qed.
Lemma found_reads o merge t live a n : found a o merge t live -> found (a <| app_reads := n |>) o merge t live.
Proof. by intros []. Qed.
Lemma claim_run o merge intent allowManual w :
  let number := PullRequest_Number (PRObservation_PR o) in
  let c := mkClaim (ac_app w) (PRObservation_Repository o) number merge intent allowManual in
  let '(r, w') := claim s o merge intent allowManual w in
  (r = Ok true /\ ac_deeds w' = ac_deeds w ++ [Claimed c]
   /\ exists now db, ClaimMerge redact_text s now (PRObservation_Repository o) number intent allowManual (app_db (ac_app w)) = (Ok true, db))
  \/ (r <> Ok true /\ ac_deeds w' = ac_deeds w).
Proof.
  unfold claim, saved, enter, held, m_bind, m_read, m_ret, does, m_write, time_now. cbn beta iota zeta.
  destruct (broken (ac_turns w)) as [err|]; [by right|]. unfold m_store. cbn [app_db modify].
  match goal with |- context [ClaimMerge _ _ ?now ?repo ?n ?i ?m ?db] =>
    destruct (ClaimMerge redact_text s now repo n i m db) as [[[|]|err] db'] eqn:C end; [|by right..].
  left. split_and!; [done..|]. by do 2 eexists.
Qed.
Lemma safe_claimed o merge t live id at_ seen allowManual w :
  found (ac_app w) o merge t live ->
  safe_at (go! claimed <- m_try (claim s o merge (attempted merge id at_ seen) allowManual) in
    match claimed with
    | Ok true =>
      go! merged <- m_try (asks (SquashMerge (bounded live) (PullRequest_Number (PRObservation_PR o))
                                   (AutoMergeState_Head merge) (AutoMergeState_HeadBranch merge))) in
      m_ret (Some (t, merged))
    | _ => m_ret None
    end) w.
Proof.
  intros F. pose proof (claim_run o merge (attempted merge id at_ seen) allowManual w) as R. cbv zeta in R.
  unfold keeps_at, m_bind at 1, m_try at 1. destruct (claim _ _ _ _ _ w) as [r w1].
  destruct R as [(-> & A1 & now & db & Cl)|(N & A1)].
  - cbn match. set (c := mkClaim _ _ _ _ _ _) in *.
    destruct (safe_squash_of c (bounded live) (PullRequest_Number (PRObservation_PR o)) (AutoMergeState_Head merge)
      (AutoMergeState_HeadBranch merge) w1) as (new & A2 & O & Co).
    { unfold requested, c. cbn [claim_app claim_number claim_found]. by rewrite <- (found_live _ _ _ _ _ F). }
    exists (Claimed c :: new). split.
    + unfold m_bind, m_try. destruct (asks _ w1) as [[x|[]] w2]; simpl in *; rewrite A2, A1, <- app_assoc; done.
    + split; [|done]. intros open. split; [|done]. destruct F. split; simpl; [exists t, o; split_and!; congruence|done|done|eauto|eauto].
  - exists []. rewrite app_nil_r. split; [by destruct r as [[|]|[]]|by split].
Qed.
Lemma safe_attempt_locked o merge id allowManual : safe (attempt_locked s live_config EqualFold o merge id allowManual).
Proof.
  unfold attempt_locked. apply safe_bind; [auto with safe|]. intros [|]; [auto with safe|].
  eapply (keeps_peeked proper); [intros a; apply peeks_try, peeks_mergeable_now|]. intros w [[[t live]|]|err] F;
    [|by apply (safe_ret None)..].
  apply (keeps_at_now proper _ _ (fun a => found a o merge t live)); [done|intros; by apply found_reads|]. intros n1 w1 F1.
  apply (keeps_at_now proper _ _ (fun a => found a o merge t live)); [done|intros; by apply found_reads|]. intros n2 w2 F2.
  by apply safe_claimed.
Qed.
#[local] Hint Resolve safe_attempt_locked : safe.
Lemma safe_mergeAttempt o merge allowManual : safe (mergeAttempt s live_config EqualFold o merge allowManual).
Proof. unfold mergeAttempt. safely. Qed.
#[local] Hint Resolve safe_mergeAttempt : safe.
Lemma safe_merge_claimed k t o merge : safe (merge_claimed s live_config EqualFold k t o merge).
Proof. unfold merge_claimed. safely. Qed.
#[local] Hint Resolve safe_merge_claimed : safe.
Lemma safe_mergeCandidate k o : safe (mergeCandidate s live_config EqualFold k o).
Proof. unfold mergeCandidate, merge_candidate. safely. Qed.
#[local] Hint Resolve safe_mergeCandidate : safe.

(** ** A pass *)

(** What a part of a pass did, that began with [processed] deliveries [seen]:
    its acts obey and it looked at no delivery again, nor at more than the limit. *)
Definition paced (seen : list Z) (w w' : Merger) : Prop :=
  exists new, ac_deeds w' = ac_deeds w ++ new /\ (forall open, obeys open new)
    /\ NoDup (considered new) /\ (forall seq, seq ∈ considered new -> seq ∉ seen)
    /\ (List.length (considered new) + List.length seen <= Nat.max mergePassLimit (List.length seen))%nat.
Lemma paced_safe {A} seen (m : Mg A) w : safe m -> paced seen w (snd (m w)).
Proof.
  intros S. destruct (S w) as (new & E & O & C). exists new. rewrite C. split_and!; [done|done|constructor| |simpl; lia].
  by intros ? ?%elem_of_nil.
Qed.
(** It went on, and what it has seen now. *)
Definition extends (seen seen' : list Z) (w w' : Merger) : Prop :=
  exists new, ac_deeds w' = ac_deeds w ++ new /\ (forall open, obeys open new)
    /\ NoDup (considered new) /\ (forall seq, seq ∈ considered new -> seq ∉ seen) /\ seen' ≡ₚ considered new ++ seen.
Lemma extends_safe {A} seen (m : Mg A) w : safe m -> extends seen seen w (snd (m w)).
Proof.
  intros S. destruct (S w) as (new & E & O & C). exists new. rewrite C. split_and!; [done|done|constructor| |done].
  by intros ? ?%elem_of_nil.
Qed.
Lemma considered_app l l' : considered (l ++ l') = considered l ++ considered l'.
Proof. apply omap_app. Qed.
Lemma fresh_app seen seen' new more :
  seen' ≡ₚ considered new ++ seen -> NoDup (considered new) -> (forall seq, seq ∈ considered new -> seq ∉ seen) ->
  NoDup (considered more) -> (forall seq, seq ∈ considered more -> seq ∉ seen') ->
  NoDup (considered (new ++ more)) /\ forall seq, seq ∈ considered (new ++ more) -> seq ∉ seen.
Proof.
  intros P N F N2 F2. rewrite considered_app. split.
  - apply NoDup_app. split_and!; [done| |done]. intros seq I J. apply (F2 seq J). rewrite P, elem_of_app. by left.
  - intros seq [I|I]%elem_of_app; [by apply F|]. intros J. apply (F2 seq I). rewrite P, elem_of_app. by right.
Qed.
Lemma sees_trans seen s1 s2 w w1 w2 : extends seen s1 w w1 -> extends s1 s2 w1 w2 -> extends seen s2 w w2.
Proof.
  intros (new & E & O & N & F & P) (more & E2 & O2 & N2 & F2 & P2). exists (new ++ more).
  destruct (fresh_app seen s1 new more P N F N2 F2) as [N' F']. rewrite E2, E, app_assoc.
  split_and!; [done|intros; by apply obeys_app|done|done|].
  by rewrite P2, P, considered_app, app_assoc, (Permutation_app_comm (considered more) (considered new)).
Qed.
(** Later parts begin with what the earlier ones looked at. *)
Lemma paced_trans seen s1 w w1 w2 :
  extends seen s1 w w1 -> (List.length s1 <= mergePassLimit)%nat -> paced s1 w1 w2 -> paced seen w w2.
Proof.
  intros (new & E & O & N & F & P) L (more & E2 & O2 & N2 & F2 & L2). exists (new ++ more).
  destruct (fresh_app seen s1 new more P N F N2 F2) as [N' F']. rewrite E2, E, app_assoc.
  split_and!; [done|intros; by apply obeys_app|done|done|].
  pose proof (Permutation_length P) as Le. rewrite considered_app. rewrite length_app in *. lia.
Qed.
Lemma paced_extends seen s1 w w1 : extends seen s1 w w1 -> (List.length s1 <= mergePassLimit)%nat -> paced seen w w1.
Proof. intros E L. eapply paced_trans; [done..|]. apply (paced_safe s1 (m_ret tt)), safe_ret. Qed.
Lemma extends_considered seen seq w : seq ∉ seen -> extends seen (seq :: seen) w (snd (does (Considered seq) w)).
Proof.
  intros F. exists [Considered seq]. split_and!; [done..|repeat constructor; by intros ?%elem_of_nil| |done].
  by intros ? ->%list_elem_of_singleton.
Qed.

Lemma wp_safe {A} (m : Mg A) seen (Q : result A failure -> Merger -> Prop) w :
  safe m -> (forall r w', extends seen seen w w' -> Q r w') -> wp m Q w.
Proof. intros S R. by apply R, extends_safe. Qed.
(** How a part of a pass ends, begun at [w] with [seen]. *)
Definition page_end (seen : list Z) (least : nat) (w : Merger) (r : result progress failure) (w' : Merger) : Prop :=
  match r with
  | Ok (Continue seen' processed') =>
    List.length seen' = processed' /\ (least <= processed' <= mergePassLimit)%nat /\ extends seen seen' w w'
  | _ => paced seen w w'
  end.
Lemma page_end_trans seen s1 least least' w w1 r w' :
  extends seen s1 w w1 -> (List.length s1 <= mergePassLimit)%nat -> (least <= least')%nat ->
  page_end s1 least' w1 r w' -> page_end seen least w r w'.
Proof.
  intros E L Le P. destruct r as [[|s2 processed]|err]; simpl in *; [by eapply paced_trans| |by eapply paced_trans].
  destruct P as (Le2 & [G1 G2] & E2). split_and!; [done|lia|lia|by eapply sees_trans].
Qed.
Lemma wp_merge_page k page : forall seen w, (List.length seen < mergePassLimit)%nat ->
  wp (merge_page s live_config EqualFold k seen (List.length seen) page)
    (page_end seen (match page with [] => List.length seen | _ => S (List.length seen) end) w) w.
Proof.
  assert (forall seen w w', extends seen seen w w' -> (List.length seen < mergePassLimit)%nat -> paced seen w w') as Stop.
  { intros seen w w' E L. eapply paced_extends; [done|lia]. }
  induction page as [|c page IH]; intros seen w L.
  { apply wp_ret. split_and!; [done|lia|lia|]. by apply (extends_safe seen (m_ret tt)), safe_ret. }
  cbn [merge_page]. destruct (bool_decide _) eqn:D; bool_hyps.
  { apply wp_bind, (wp_safe _ seen); [unfold set_cursor; auto with safe|]. intros [[]|err] w1 E; [apply wp_ret|]; by apply Stop. }
  apply wp_bind, (wp_safe _ seen); [unfold set_cursor; auto with safe|]. intros [[]|err] w1 E1; [|by apply Stop].
  apply wp_bind, (wp_safe _ seen); [auto with safe|]. intros [[|]|err] w2 E2;
    [apply wp_ret; apply Stop; [by eapply sees_trans|done] | |apply Stop; [by eapply sees_trans|done]].
  apply wp_bind, wp_write. set (w3 := w2 <| ac_deeds := _ |>).
  assert (extends seen (candidate_seq c :: seen) w w3) as E3
    by (eapply sees_trans; [by eapply sees_trans|by apply extends_considered]).
  apply wp_bind, (wp_safe _ (candidate_seq c :: seen)); [auto with safe|].
  assert (forall w4, extends (candidate_seq c :: seen) (candidate_seq c :: seen) w3 w4 ->
    extends seen (candidate_seq c :: seen) w w4) as E4 by (intros w4 E; by eapply sees_trans).
  intros [[]|err] w4 E; [|eapply paced_extends; [by apply E4|simpl; lia]].
  destruct (Nat.leb mergePassLimit (S (List.length seen))) eqn:B.
  - apply wp_ret. apply Nat.leb_le in B. split_and!; [done|lia|lia|by apply E4].
  - apply Nat.leb_gt in B. eapply wp_mono; [apply (IH (candidate_seq c :: seen) w4); simpl; lia|].
    intros r w' P. eapply page_end_trans; [by apply E4|simpl; lia| |exact P]. destruct page; simpl; lia.
Qed.
Lemma wp_merge_loop k fuel : forall seen w, (List.length seen <= mergePassLimit)%nat ->
  paced seen w (snd (merge_loop s live_config row_seq EqualFold fuel k seen (List.length seen) w)).
Proof.
  enough (forall seen w, (List.length seen <= mergePassLimit)%nat ->
    wp (merge_loop s live_config row_seq EqualFold fuel k seen (List.length seen)) (fun _ w' => paced seen w w') w) as R
    by exact R.
  induction fuel as [|fuel IH]; intros seen w L; cbn [merge_loop]; [by apply wp_ret, (paced_safe seen (m_ret tt)), safe_ret|].
  destruct (Nat.ltb _ _) eqn:B; [|by apply wp_ret, (paced_safe seen (m_ret tt)), safe_ret]. apply Nat.ltb_lt in B. cbn [negb].
  assert (forall w', extends seen seen w w' -> paced seen w w') as Stop by (intros; by eapply paced_extends).
  apply wp_bind, (wp_safe _ seen); [auto with safe|]. intros [[|]|err] w1 E1; [by apply wp_ret, Stop| |by apply Stop].
  apply wp_bind, (wp_safe _ seen); [auto with safe|]. intros [cursor|err] w2 E2; [|by eapply Stop, sees_trans].
  apply (sees_trans _ _ _ _ _ _ E1) in E2. clear E1.
  apply wp_bind, (wp_safe _ seen); [safely|]. intros [page|err] w3 E3; [|by eapply Stop, sees_trans].
  apply (sees_trans _ _ _ _ _ _ E2) in E3. clear E2. destruct page as [[|c page]|err].
  - destruct (cursor =? 0)%Z; [by apply wp_ret, Stop|].
    apply wp_bind, (wp_safe _ seen); [unfold set_cursor; auto with safe|]. intros [[]|err] w4 E4; [|by eapply Stop, sees_trans].
    eapply wp_mono; [by apply IH|]. intros r w' P. eapply paced_trans; [by eapply sees_trans|done|exact P].
  - apply wp_bind. eapply wp_mono; [by apply wp_merge_page|]. intros [[|seen' processed']|err] w4 P; simpl in P.
    + apply wp_ret. by eapply paced_trans.
    + destruct P as (<- & [G1 G2] & E4). eapply wp_mono; [by apply IH|]. intros r w' P.
      eapply paced_trans; [by eapply sees_trans|done|exact P].
    + by eapply paced_trans.
  - apply wp_bind, (wp_safe _ seen); [auto with safe|]. intros [msg|err'] w4 E4; [apply wp_ret|]; by eapply Stop, sees_trans.
Qed.

Lemma mergePass_paced fuel control w : paced [] w (snd (mergePass s live_config row_seq EqualFold fuel control w)).
Proof.
  enough (wp (mergePass s live_config row_seq EqualFold fuel control) (fun _ w' => paced [] w w') w) as R by exact R.
  apply wp_bind, (wp_safe _ []); [auto with safe|]. intros [cfg|err] w1 E1; [|eapply paced_extends; [done|simpl; lia]].
  eapply paced_trans; [done|simpl; lia|]. apply (wp_merge_loop _ fuel []). simpl. lia.
Qed.
(** C9: nothing is merged without a claim.  Whatever the rest of the service
    does, whatever the store refuses and whatever GitHub answers, the only
    request of a pass that writes to the remote is the squash merge of the last
    accepted claim, once, on the exact reviewed head; and that claim was made
    under the gate while the controls, the saved task, its delivery and the
    barriers allowed it. *)
Theorem mergePass_guarded fuel control w :
  exists new, ac_deeds (snd (mergePass s live_config row_seq EqualFold fuel control w)) = ac_deeds w ++ new /\ obeys None new.
Proof.
  destruct (mergePass_paced fuel control w) as (new & E & O & _). by exists new.
Qed.

(** ** The pass ends *)

(** The iterations that may still come: a page for each delivery, and between
    two pages a return to the first row. *)
Definition need (processed : nat) (rewound : bool) : nat :=
  2 * (mergePassLimit - processed) + (if rewound then 0 else 1).
Lemma page_progress k seen page w seen' processed' w' :
  (List.length seen < mergePassLimit)%nat -> page <> [] ->
  merge_page s live_config EqualFold k seen (List.length seen) page w = (Ok (Continue seen' processed'), w') ->
  List.length seen' = processed' /\ (List.length seen < processed' <= mergePassLimit)%nat.
Proof.
  intros L N E. pose proof (wp_elim _ _ _ _ _ (wp_merge_page k page seen w L) E) as P. destruct page; [done|].
  destruct P as (? & ? & _). by split; [|lia].
Qed.
Lemma cursor_set cursor (w : Merger) :
  set_cursor cursor w = (Ok tt, snd (set_cursor cursor w))
  /\ rt_mergeCursor (app_runtime (ac_app (snd (set_cursor cursor w)))) = cursor.
Proof. done. Qed.
(** Only the pass moves its cursor. *)
Hypothesis steady : forall n a, rt_mergeCursor (app_runtime (beside n a)) = rt_mergeCursor (app_runtime a).
Lemma merge_loop_enough k fuel : forall fuel' seen rewound w,
  (List.length seen <= mergePassLimit)%nat ->
  (rewound = true -> rt_mergeCursor (app_runtime (ac_app w)) = 0%Z) ->
  (need (List.length seen) rewound <= fuel)%nat -> (need (List.length seen) rewound <= fuel')%nat ->
  merge_loop s live_config row_seq EqualFold fuel k seen (List.length seen) w
  = merge_loop s live_config row_seq EqualFold fuel' k seen (List.length seen) w.
Proof.
  induction fuel as [|fuel IH]; intros [|fuel'] seen rewound w L C N N'; [done|..].
  - unfold need in *. assert (List.length seen = mergePassLimit) as E by (destruct rewound; lia).
    cbn [merge_loop]. by rewrite E.
  - unfold need in *. assert (List.length seen = mergePassLimit) as E by (destruct rewound; lia).
    cbn [merge_loop]. by rewrite E.
  - cbn [merge_loop]. destruct (Nat.ltb _ _) eqn:B; [|done]. apply Nat.ltb_lt in B. cbn [negb].
    apply bind_ext. intros [|] w1 R1; [done|]. apply bind_ext. intros cursor w2 R2.
    assert (rewound = true -> cursor = 0%Z) as C2.
    { intros Re. specialize (C Re). unfold ctx_done, ctx_err, m_bind in R1. destruct (asks (g_ask CtxErr) w) as [r wa] eqn:A.
      pose proof (asks_app (g_ask CtxErr) w) as Ap. rewrite A in Ap. simpl in Ap. destruct r; [|done]. injection R1 as _ <-.
      injection R2 as <- _. rewrite steady. by rewrite Ap. }
    apply bind_ext. intros [[|c page]|err] w3 _; [..|done].
    + destruct (Z.eqb_spec cursor 0) as [_|Nz]; [done|]. destruct rewound; [by destruct Nz; auto|].
      apply bind_ext. intros [] w4 R4. apply (IH _ _ true); [done| |unfold need in *; lia..].
      intros _. pose proof (cursor_set 0 w3) as [_ Z]. by rewrite R4 in Z.
    + apply bind_ext. intros [|seen' processed'] w4 R4; [done|]. apply page_progress in R4 as [<- G]; [|done..].
      apply (IH _ _ false); [lia|done|unfold need in *; destruct rewound; lia..].
Qed.

(** C10: a pass ends.  Although its loop is bounded only by what it processed,
    and the rest of the service may add and change deliveries all along, every
    fuel of seventeen turns or more gives the same run, which considers no
    delivery twice and no more than eight. *)
Theorem mergePass_ends fuel control w :
  (17 <= fuel)%nat ->
  mergePass s live_config row_seq EqualFold fuel control w = mergePass s live_config row_seq EqualFold 17 control w
  /\ exists new, ac_deeds (snd (mergePass s live_config row_seq EqualFold fuel control w)) = ac_deeds w ++ new
       /\ NoDup (considered new) /\ (List.length (considered new) <= 8)%nat.
Proof.
  intros L. split.
  - apply bind_ext. intros cfg w1 _. apply (merge_loop_enough _ fuel 17 [] false); unfold need, mergePassLimit; simpl; (lia || done).
  - destruct (mergePass_paced fuel control w) as (new & E & _ & N & _ & Le). exists new. split_and!; [done..|].
    unfold mergePassLimit in Le. simpl in Le. lia.
Qed.
End safety.

(** ** A run

    One delivery is waiting, and GitHub reports it ready: the pass claims it,
    merges it and records the merge. *)
Definition mergeable_task : Task :=
  (published_task "t" sample_oid) <| Task_Config := merging_config |> <| Task_ComparisonBase := merged_oid |>
    <| Task_Sessions := [sample_session "session-r" "reviewer" SessionCompleted] |>
    <| Task_Reviews := [mkReviewRound "session-r" sample_oid merged_oid (mkReview true "No findings." [])
         "2026-01-01T00:10:00Z" (Some (mkMaintenanceAssessment true false "A plain fix.")) true] |>
    <| Task_MaintenanceFootprint := Some (mkMaintenanceFootprint merged_oid sample_oid (Some 3) (Some 1) ["file.go"] true []) |>
    <| Task_Verification := [mkVerification "go test ./..." true "ok" sample_oid "2026-01-01T00:20:00Z" None] |>.
Definition waiting_merge : AutoMergeState :=
  mkAutoMergeState "t" sample_oid "octomus/t" "main" merged_oid "policy" true None AutoMergeWaiting "ready" "now" None None None None.
Definition merging_db : Db :=
  (task_db mergeable_task) <| db_prs := [("acme/widgets:7",
    mkPRObservation "acme/widgets" (sample_pr "open" sample_oid) "now" (Some sample_oid) false (Some waiting_merge))] |>
  <| db_configs := {["config" := merging_config]} |>.
Definition continuous : Control :=
  DefaultControl <| Control_Paused := false |> <| Control_Mode := OperatingModeContinuous |>.
Definition open_pull : mergePull :=
  mkMergePull 7 "https://github.com/acme/widgets/pull/7" "OPEN" "octomus/t" sample_oid (Some "acme/widgets") "main" merged_oid
    (Some "acme/widgets") (Some false) (Some false) (Some "null") "MERGEABLE" "CLEAN" "1" "2" "1" None None
    [mkHeadCommit sample_oid (Some (mkRollup "SUCCESS" (Some 2)))].
Definition open_pr : object :=
  let repo := JObject [("full_name", JString "acme/widgets")] in
  [("number", JNumber "7"); ("state", JString "open"); ("body", JString (taskMarkerFor "t"));
   ("head", JObject [("ref", JString "octomus/t"); ("sha", JString sample_oid); ("repo", repo)]);
   ("base", JObject [("ref", JString "main"); ("repo", repo)])].
#[local] Instance open_json : GitHubJson := {
  decode_pages := fun _ => ([Some []], None); decode_object := fun _ => Ok open_pr; unmarshal_owned := fun _ => None }.
(** The pull request is open until the merge is asked for. *)
#[local] Instance landing_json : MergeJson := {
  unmarshal_status := fun out => Some (mkMergeResponse 0 (Some (mkMergeRepository "acme/widgets" (Some true)
    (Some (if bool_decide (out = "before") then open_pull else merged_pull)))));
  unmarshal_uint := fun _ => Some 1; unmarshal_string := fun _ => None;
  unmarshal_ack := fun _ => Ok (mkMergeAck merged_oid true "");
  unmarshal_user := fun _ => Some (mkMergerUser 5 "User");
  unmarshal_ruleset := fun _ => Some (mkRuleset 9 "branch" "Repository" "acme/widgets" "active" (Some []) ["~ALL"]
    ["refs/heads/main"] [mkRulesetRule "update" (Some false)]) }.
#[local] Instance landing_machine : Machine := {
  reply := fun A n q => match q in call A return A with
    | RunMachine _ args _ _ _ =>
      Ok (if bool_decide ("merge-base" ∈ args) then merged_oid else if Nat.ltb n 12 then "before" else "after")
    | RunPredicate _ _ _ _ _ _ => Ok true | RunText _ _ _ _ _ _ => Ok ("", true)
    | TrustedGitDir _ => Ok "" | MkdirTemp _ => Ok "" | RemoveAll _ => tt | ReadFile _ => Ok "" | ReleaseCheckout _ _ => tt
    | NowText => "" | Lstat _ | MkdirAll _ _ | Mkdir _ _ | WriteFile _ _ _ | AcquireCheckout _ _ | CtxErr => None end;
  LookupEnv := LookupEnv (Machine := merging_machine);
  environment := []; NotExist := fun _ => false; ToUpper := fun s => s }.
#[local] Instance alone : Company := { beside := fun _ a => a; broken := fun _ => None }.
Lemma nothing_moves (n : nat) (a : App) : rt_mergeCursor (app_runtime (beside n a)) = rt_mergeCursor (app_runtime a).
Proof. done. Qed.
Definition merging_app : Merger := mkActor tt (new_app (merging_db <| db_controls := {[ControlKey sample_store := continuous]} |>)) 0 0 [].
Definition merging_pass (fuel : nat) : result unit failure * Merger :=
  mergePass sample_store (fun _ => merging_config) (fun _ => 5%Z) EqualASCII fuel continuous merging_app.
Definition act_name (x : act) : string :=
  match x with Considered _ => "considered" | Claimed _ => "claimed" | Asked q => if writes_remote q then "wrote" else "read" end.
Example merging_run :
  let w := snd (merging_pass 17) in
  List.filter (fun name => negb (bool_decide (name = "read"))) (map act_name (ac_deeds w)) = ["considered"; "claimed"; "wrote"]
  /\ ((fun row => AutoMergeState_Status <$> PRObservation_AutoMerge (snd row)) <$> db_prs (app_db (ac_app w))) = [Some AutoMergeMerged].
Proof. by vm_compute. Qed.
Lemma mergePass_ends_witness :
  (17 <= 40)%nat /\ merging_pass 40 = merging_pass 17.
Proof.
  split; [lia|].
  apply (mergePass_ends sample_store (fun _ => merging_config) (fun _ => 5%Z) EqualASCII nothing_moves 40 continuous merging_app). lia.
Defined.
