(* ===== verification/Planning.v ===== *)
(** * A planning cycle ([internal/engine/planning.go])

    One worker grounds a cycle in the repository, asks the planning roles for
    proposals, reviews and a consolidation, checks what they return, and commits
    the accepted proposals as tasks in one step.  It runs beside the rest of the
    service ([Actor]); its own state is the cycle it plans.

    The sessions of a role run beside the worker: what a role and its siblings
    do to the shared state is part of what the rest of the service does, and
    here a role is one question, whose answer is any. *)
From S2P Require Import Prelude GoStrings Utf8 Runes WireJson Enums Types GoErrors Config GoTime Model Samples Strconv Lifecycle Store StoreMerges StoreTasks StoreBudget StoreCapacity Runtime Observations TaskWorkers Controls Dependencies PlanRules Scheduler Prompts GitOps GitHub Actor Observe PlanMemory.
Local Open Scope string_scope.
Local Open Scope list_scope.
Local Open Scope N_scope.

(** ** What a planning worker does *)

(** A plan that was committed, and the state it was committed in. *)
Record Commit := mkCommit {
  commit_app : App; commit_cycle : Cycle; commit_tasks : list Task; commit_requests : list RequestUpdate }.
(** An answer of a role, the saved state a decision of the plan is based on, the
    rediscoveries recalled, a commit, or a request to the machine. *)
Inductive plan_act :=
| Answered (label role prompt : string) (answer : result string failure)
| Looked (db : Db)
| Recalled (requests : list rediscoveryRequest)
| Committed (c : Commit)
| Sent (q : sent).
#[export] Instance plan_speech : Speech plan_act := Sent.
Notation Planner := (Actor Cycle plan_act).
Notation Pl := (Op Planner).

(** What a role answers: the turn, its label, its role and its prompt. *)
Class Agents := role_answer : nat -> string -> string -> string -> result string failure.
(** [encoding/json] on the documents of planning. *)
Class PlanJson := {
  decode_grounding : string -> result GroundingDocument error;
  decode_proposals : string -> result ProposalDocument error;
  decode_assessments : string -> result AssessmentDocument error;
  assessment_json : AssessmentDocument -> Json;
  marshal_context : Grounding -> list (gmap string Json) -> PRCapacity -> list Json -> result string error;
  marshal_candidates : list Proposal -> result string error;
  marshal_reviews : list Json -> result string error;
  marshal_tiers : gmap string Route -> result string error;
}.

Definition interruptedMsg : string := "Discovery interrupted; incomplete proposals were not dispatched".

(** ** Pure parts *)

(** A pull request at least [threshold] days old. *)
Definition prAgeReached (createdAt : string) (threshold : N) (now : instant) : bool :=
  match parse_rfc3339 createdAt with
  | None => false
  | Some created =>
    if before now created then false else
    let elapsed := (unix now - unix created - (if nanos now <? nanos created then 1 else 0))%Z in
    threshold <=? Z.to_N (elapsed / 86400)
  end.
(** The owned pull requests that maintenance is for. *)
Definition maintenance_targets (cfg : Config) (now : instant) (owned : list PullRequest) : list string :=
  sort_strings (map PullRequest_Branch (List.filter (fun pr =>
    OwnedOpen pr && ((Config_LargePRLines cfg <=? PullRequest_ChangedLines pr)
                     || prAgeReached (PullRequest_CreatedAt pr) (Config_LongLivedPRDays cfg) now)) owned)).

(** The candidate an operator's request seeds. *)
Definition seeded_proposal (redact_text : string -> string) (r : OperatorRequest) : Proposal := {|
  Proposal_ID := Request_ProposalID r; Proposal_Title := redact_text (OperatorRequest_Title r);
  Proposal_Problem := redact_text (OperatorRequest_Description r); Proposal_Evidence := [];
  Proposal_Benefit := "Requested by the operator"; Proposal_Category := ""; Proposal_Target := OperatorRequest_Target r;
  Proposal_Tier := ""; Proposal_Scope := ""; Proposal_Dependencies := [];
  Proposal_Prompt := redact_text (OperatorRequest_Description r); Proposal_Decision := DecisionCandidate;
  Proposal_Reason := "Operator requested this work; assess it against repository evidence";
  Proposal_ProblemKey := ""; Proposal_RelevantPaths := []; Proposal_Reconsiders := [] |}.
Definition rediscovery_proposal (old : Task) : Proposal :=
  (Task_Proposal old) <| Proposal_ID := "rediscover-" +:+ Task_ID old |> <| Proposal_Dependencies := [] |>
    <| Proposal_Reconsiders := [Task_ID old] |> <| Proposal_Decision := DecisionCandidate |>
    <| Proposal_Reason := "Operator requested fresh assessment against current context" |>.

(** The loop over identities of [discover]. *)
Fixpoint check_identities (identities : gset string) (proposals : list Proposal) : result unit error :=
  match proposals with
  | [] => Ok tt
  | proposal :: proposals =>
    guard negb (blank (Proposal_ID proposal)) else New "Discovery returned an empty proposal identity";
    guard negb (bool_decide (Proposal_ID proposal ∈ identities))
      else Errorf "Discovery returned a duplicate proposal identity %q" [VStr (Proposal_ID proposal)];
    check_identities ({[Proposal_ID proposal]} ∪ identities) proposals
  end.
Definition check_discovered (proposals : list Proposal) : result unit error :=
  guard negb (maxPlanningProposals <? Z.of_N (lenN proposals))%Z
    else Errorf "Discovery returned too many proposals: %d candidates (limit %d)"
           [VNum (lenN proposals); VNum (Z.to_N maxPlanningProposals)];
  check_identities ∅ proposals.
Definition check_reserved (proposal : Proposal) : result unit error :=
  guard negb (HasPrefix (Proposal_ID proposal) RequestProposalPrefix)
    else Errorf "Discovery returned reserved proposal identity %q" [VStr (Proposal_ID proposal)];
  Ok tt.

(** The message of a request's assessment. *)
Definition request_message (cycle : Cycle) (assessment : RequestAssessment) : string :=
  let number := FormatUint (Cycle_Number cycle) in
  if bool_decide (Cycle_Mode cycle = CycleModeAudit)
  then "Assessed in audit cycle " +:+ number +:+ ": " +:+ RequestAssessment_Decision assessment else
  if bool_decide (RequestAssessment_Decision assessment = DecisionAccepted)
  then "Accepted in execution cycle " +:+ number else
  if bool_decide (RequestAssessment_Decision assessment = DecisionRejected)
  then "Rejected in execution cycle " +:+ number else "Deferred in execution cycle " +:+ number.

Section settlements.
Context (redact_text : string -> string).
(** [settle] of [requestSettlements]. *)
Definition settle_request (cycle : Cycle) (taskIDs : gmap string string) (now : string) (r : OperatorRequest)
    (decision reason : string) : RequestUpdate :=
  let id := Request_ProposalID r in
  let proposalID := Proposal_ID <$> proposals_by_id (Cycle_Proposals cycle) !! id in
  let next := r <| OperatorRequest_UpdatedAt := now |>
    <| OperatorRequest_Assessment := Some (mkRequestAssessment (Cycle_ID cycle) proposalID (Cycle_Mode cycle) decision
                                             (redact_text reason) now) |> in
  let next :=
    if negb (bool_decide (Cycle_Mode cycle = CycleModeExecution)) then next else
    if bool_decide (decision = DecisionAccepted)
    then next <| OperatorRequest_Status := RequestAccepted |> <| OperatorRequest_TaskID := Some (default "" (taskIDs !! id)) |> else
    if bool_decide (decision = DecisionRejected) then next <| OperatorRequest_Status := RequestRejected |> else next in
  mkRequestUpdate r next.
(** A request no proposal answers has the empty decision. *)
Definition settle_seeded (cycle : Cycle) (taskIDs : gmap string string) (now : string) (r : OperatorRequest) : RequestUpdate :=
  let p := proposals_by_id (Cycle_Proposals cycle) !! Request_ProposalID r in
  settle_request cycle taskIDs now r (default "" (Proposal_Decision <$> p)) (default "" (Proposal_Reason <$> p)).
Definition settle_dismissed `{Printable} (cycle : Cycle) (taskIDs : gmap string string) (now : string) (r : OperatorRequest)
    : RequestUpdate :=
  settle_request cycle taskIDs now r DecisionRejected
    ("Target " +:+ Quote (OperatorRequest_Target r) +:+ " is no longer an owned open pull request or the default branch").
Definition requestSettlements `{Printable} (cycle : Cycle) (seeded dismissed : list OperatorRequest)
    (taskIDs : gmap string string) (now : string) : list RequestUpdate :=
  map (settle_seeded cycle taskIDs now) seeded ++ map (settle_dismissed cycle taskIDs now) dismissed.
End settlements.

Definition no_route : Route := mkRoute BackendCodex "" "" None None.
(** [source], [branch] and the pull request of a new task. *)
Definition newPlannedTask (cfg : Config) (cycle : Cycle) (grounding : Grounding) (original proposal : Proposal)
    (taskID : string) (target : option PullRequest) (now : string) : Task := {|
  Task_ID := taskID; Task_CycleID := Cycle_ID cycle; Task_Proposal := proposal; Task_Status := StatusQueued;
  Task_Route := default no_route (Config_Tiers cfg !! Proposal_Tier original); Task_Config := cfg;
  Task_SourceRevision := target_revision grounding target; Task_ComparisonBase := "";
  Task_DefaultRevision := Grounding_Revision grounding;
  Task_Branch := match target with Some pr => PullRequest_Branch pr | None => Config_BranchPrefix cfg +:+ taskID end;
  Task_Workspace := ""; Task_ExecutionSession := None; Task_RepairSession := None;
  Task_Sessions := []; Task_Reviews := []; Task_Verification := []; Task_OutputCommit := None;
  Task_PRNumber := PullRequest_Number <$> target; Task_PRURL := PullRequest_URL <$> target;
  Task_Attempts := 0; Task_Error := None; Task_CreatedAt := now; Task_UpdatedAt := now;
  Task_AttemptPolicy := Some (PolicyOf cfg); Task_ReviewBaseline := 0; Task_RepairRounds := None;
  Task_RepairProgress := None; Task_BlockedReason := None; Task_RunID := Cycle_RunID cycle; Task_SupersededBy := [];
  Task_Supersedes := Proposal_Reconsiders original; Task_RediscoveryRequested := false; Task_RediscoveryResult := None;
  Task_Lifecycle := mkWorkspaceLifecycle None None; Task_MaintenanceFootprint := None; Task_AutoMergeSnapshot := None |}.
Fixpoint renamed_dependencies (ids : gmap string string) (dependencies : list string) : result (list string) error :=
  match dependencies with
  | [] => Ok []
  | dependency :: dependencies =>
    match ids !! dependency with
    | None => Err (New "Accepted dependency identity vanished")
    | Some id => let! rest := renamed_dependencies ids dependencies in Ok (id :: rest)
    end
  end.

(** ** The worker *)

Section planning.
Context `{Unicode} `{TextCases} `{World} `{Rows} `{Machine} `{Printable} `{GitHubJson} `{MemoryJson} `{PlanJson} `{Agents} `{Company}.
Context (s : Store) (live_config : Db -> Config) (Fingerprint : Config -> result string error).
(** The preflight, the saved page of history, and the two arguments of
    [externalContext]. *)
Context (preflight : Config -> bool -> M unit) (TaskPage : Db -> Json).
Context (Secrets : string -> string) (encoded_length : ExternalPRContext -> result N error).

Definition own : Pl Cycle := m_read ac_own.
Definition set_own (f : Cycle -> Cycle) : Pl unit := m_write (fun w => w <| ac_own := f (ac_own w) |>).
(** [*cycle.Grounding]. *)
Definition own_grounding : Pl Grounding :=
  go! cycle <- own in
  match Cycle_Grounding cycle with
  | Some grounding => m_ret grounding
  | None => m_fail (Panicked "invalid memory address or nil pointer dereference")
  end.
(** A read of the store, which is kept among the deeds. *)
Definition looked {A} (f : Db -> A) : Pl A :=
  go! db <- loaded false (fun db => db) in
  go! _ <- does (Looked db) in
  m_ret (f db).
Definition audit (cycle : Cycle) : bool := bool_decide (Cycle_Mode cycle = CycleModeAudit).
Definition executing (cycle : Cycle) : bool := bool_decide (Cycle_Mode cycle = CycleModeExecution).

(** Sessions are appended by the roles as they finish. *)
Definition saveCycle (gated : bool) : Pl unit :=
  go! cycle <- own in
  go! current <- loaded gated (fun db => db_cycles db !! Cycle_ID cycle) in
  go! _ <- match current with
           | Some current => set_own (fun cycle => cycle <| Cycle_Sessions := Cycle_Sessions current |>)
           | None => m_ret tt
           end in
  go! cycle <- own in
  stored gated (fun db => (Ok tt, put_cycle cycle db)).

(** *** Grounding *)

(** Which heads of external pull requests the checkout holds, and the forks
    whose heads are missing. *)
Fixpoint local_heads (cfg : Config) (external : list ExternalPRContext) : Pl (list ExternalPRContext * list N) :=
  match external with
  | [] => m_ret ([], [])
  | pr :: external =>
    go! head <- m_try (asks (Git cfg (Config_Repository cfg)
      ["rev-parse"; "--verify"; "--end-of-options"; ExternalPRContext_Head pr +:+ "^{commit}"])) in
    go! err <- ctx_err in
    match err with
    | Some err => m_fail (Failed err)
    | None =>
      let available := match head with
                       | Ok head => negb (bool_decide (ExternalPRContext_Head pr = "")) && bool_decide (head = ExternalPRContext_Head pr)
                       | Err _ => false
                       end in
      let missing := negb available && negb (EqualASCII (ExternalPRContext_HeadRepository pr) (Config_GitHubRepo cfg)) in
      go! rest <- local_heads cfg external in
      m_ret (pr <| ExternalPRContext_LocalHeadAvailable := available |> :: fst rest,
             if missing then ExternalPRContext_Number pr :: snd rest else snd rest)
    end
  end.
Definition maintenance_due (cfg : Config) (cycle : Cycle) : Pl bool :=
  if maintenance_mode cfg then m_ret true else
  if Config_MaintenanceEveryCycles cfg =? 0 then m_fail (Panicked "integer divide by zero") else
  m_ret (Cycle_Number cycle mod Config_MaintenanceEveryCycles cfg =? 0).
(** Under the gate: the configuration is still the one of the cycle. *)
Definition same_config (cfg : Config) : Pl unit :=
  go! live <- read_config live_config true in
  go! liveFingerprint <- lifted (Fingerprint live) in
  go! snapshotFingerprint <- lifted (Fingerprint cfg) in
  if negb (bool_decide (liveFingerprint = snapshotFingerprint))
  then m_fail (Failed (New "Configuration changed during planning grounding")) else m_ret tt.
Definition keep_grounding (cfg : Config) (observed : prSnapshot) (grounding : Grounding) : Pl unit :=
  go! _ <- lock in
  go! _ <- same_config cfg in
  go! _ <- savePRsLocked s cfg observed in
  go! _ <- set_own (fun cycle => cycle <| Cycle_Grounding := Some grounding |>) in
  saveCycle true.
(** What is fetched of the external pull requests. *)
Definition ground_external (cfg : Config) (observed : prSnapshot) : Pl (list ExternalPRContext * PRCoverage) :=
  go! _ <- asks (Fetch cfg) in
  go! found <- lifted (externalContext Secrets encoded_length (snapshot_inventory observed)) in
  let forks := map ExternalPRContext_Number (List.filter (fun pr =>
    negb (EqualASCII (ExternalPRContext_HeadRepository pr) (Config_GitHubRepo cfg))) (fst found)) in
  go! _ <- asks (FetchForkHeads cfg forks) in
  go! heads <- local_heads cfg (fst found) in
  go! cycle <- own in
  go! _ <- (match snd heads with
            | [] => m_ret tt
            | missing => event s false (Cycle_ID cycle) EventGrounding
                           ("Fork PR heads unavailable locally: " +:+ show_list (map FormatUint missing))
            end) in
  m_ret (fst heads, snd found).
Definition captureGrounding (cfg : Config) : Pl OpenPRInventory :=
  go! cycle <- own in
  go! _ <- shared (preflight cfg (audit cycle)) in
  go! default_branch <- defaultBranchSHA live_config cfg in
  go! _ <- observeDefaultBranch live_config cfg (fst default_branch) (snd default_branch) in
  go! observed <- observeOpenPRs cfg in
  go! external <- ground_external cfg observed in
  go! history <- loaded false TaskPage in
  go! now <- shared time_now in
  go! due <- maintenance_due cfg cycle in
  go! _ <- keep_grounding cfg observed
    (mkGrounding (fst default_branch) (snapshot_owned observed) (fst external) (snd external) history due
       (maintenance_targets cfg now (snapshot_owned observed))) in
  m_ret (snapshot_inventory observed).

(** *** Roles *)

(** A panic of a role is its error. *)
Definition role_outcome (cfg : Config) (turn : nat) (label role prompt : string) : result string failure :=
  match Config_Roles cfg !! role with
  | None => Err (Failed (Errorf "Missing %s route" [VStr role]))
  | Some _ =>
    match role_answer turn label role prompt with
    | Err (Panicked msg) => Err (Failed (Errorf "Planning role %s panicked: %v" [VStr label; VStr msg]))
    | outcome => outcome
    end
  end.
Definition role (cfg : Config) (label role prompt : string) : Pl (result string failure) :=
  go! turn <- m_read ac_turns in
  let outcome := role_outcome cfg turn label role prompt in
  go! _ <- shared (m_ret tt) in
  go! _ <- does (Answered label role prompt outcome) in
  m_ret outcome.
(** [runRoles]: the outcomes in the order of the labels. *)
Fixpoint runRoles (cfg : Config) (name : string) (asked : list (string * string)) : Pl (list (result string failure)) :=
  match asked with
  | [] => m_ret []
  | (label, prompt) :: asked =>
    go! outcome <- role cfg label name prompt in
    go! outcomes <- runRoles cfg name asked in
    m_ret (outcome :: outcomes)
  end.
(** The answers, or the error of the first role that failed. *)
Fixpoint answers (outcomes : list (result string failure)) : result (list string) failure :=
  match outcomes with
  | [] => Ok []
  | Err err :: _ => Err err
  | Ok answer :: outcomes => match answers outcomes with Ok rest => Ok (answer :: rest) | Err err => Err err end
  end.
Definition attachOutcomes (outcomes : list (result string failure)) : Pl (list string) :=
  go! attached <- m_lift (answers outcomes) in
  go! _ <- saveCycle false in
  m_ret attached.

Definition summarizeGrounding (cfg : Config) (recorded : string) : Pl string :=
  go! outcome <- role cfg "grounding" "orchestrator" (groundingPrompt +:+ planningPolicy redact_text cfg +:+ recorded) in
  go! attached <- attachOutcomes [outcome] in
  go! document <- lifted (decode_grounding (default "" (attached !! 0%nat))) in
  if blank (GroundingDocument_Context document)
  then m_fail (Failed (New "Grounding returned an empty context")) else m_ret (GroundingDocument_Context document).

(** The proposals of the discovery agents, appended in order. *)
Fixpoint append_discovered (answers : list string) : Pl unit :=
  match answers with
  | [] => m_ret tt
  | answer :: answers =>
    go! document <- lifted (decode_proposals answer) in
    go! _ <- lifted (check_each check_reserved (ProposalDocument_Proposals document)) in
    go! _ <- set_own (fun cycle => cycle <| Cycle_Proposals := Cycle_Proposals cycle ++ ProposalDocument_Proposals document |>) in
    append_discovered answers
  end.
Definition discover (cfg : Config) (ground recorded : string) (requested : bool) : Pl unit :=
  let scopes := if maintenance_mode cfg then maintenanceDiscoveryScopes else discoveryScopes in
  if lenN scopes <? Config_DiscoveryAgents cfg
  then m_fail (Failed (Errorf "Discovery supports at most %d agents" [VNum (lenN scopes)])) else
  go! cycle <- own in
  go! grounding <- own_grounding in
  let perAgent := discoveryProposalLimit (Z.of_N (lenN (Cycle_Proposals cycle))) (Config_DiscoveryAgents cfg) in
  let reconsiders := if executing cycle then discoveryReconsidersExecution else discoveryReconsidersAudit in
  let note := if requested then operatorDiscoveryNote else "" in
  go! outcomes <- runRoles cfg "discovery" (map (fun i =>
    ("discovery-" +:+ FormatUint (N.of_nat i),
     discoveryPrompt redact_text cfg grounding i (Z.to_nat perAgent) reconsiders ground recorded +:+ note))
    (seq 0 (N.to_nat (Config_DiscoveryAgents cfg)))) in
  go! attached <- attachOutcomes outcomes in
  go! _ <- append_discovered attached in
  go! cycle <- own in
  go! _ <- lifted (check_discovered (Cycle_Proposals cycle)) in
  saveCycle false.

Definition review_prompt (cfg : Config) (note focus candidates ground recorded : string) : string :=
  focus +:+ planningPolicy redact_text cfg +:+ note +:+ " Candidates: " +:+ candidates +:+ ". Grounding: " +:+ ground
  +:+ ". Context: " +:+ recorded.
(** The prompt of each slot. *)
Fixpoint review_prompts (prompt : string -> string) (slots : list string) : result (list (string * string)) error :=
  match slots with
  | [] => Ok []
  | slot :: slots =>
    match reviewFocus !! slot with
    | None => Err (Errorf "Missing review focus for %s" [VStr slot])
    | Some focus => let! rest := review_prompts prompt slots in Ok ((slot, prompt focus) :: rest)
    end
  end.
(** The assessments of the reviewers, checked and appended in order. *)
Fixpoint append_assessments (slots answers : list string) : Pl unit :=
  match slots, answers with
  | slot :: slots, answer :: answers =>
    go! document <- lifted (decode_assessments answer) in
    go! cycle <- own in
    go! _ <- lifted (checkAssessments slot (Cycle_Proposals cycle) (AssessmentDocument_Assessments document)) in
    go! _ <- set_own (fun cycle => cycle <| Cycle_Assessments := Cycle_Assessments cycle ++ [assessment_json document] |>) in
    append_assessments slots answers
  | _, _ => m_ret tt
  end.
Definition reviewProposals (cfg : Config) (ground recorded : string) (requested : bool) : Pl unit :=
  go! cycle <- own in
  go! candidates <- lifted (marshal_candidates (Cycle_Proposals cycle)) in
  let note := if requested then operatorReviewNote else "" in
  go! prompts <- lifted (review_prompts (fun focus => review_prompt cfg note focus candidates ground recorded) ReviewerSlots) in
  go! outcomes <- runRoles cfg "proposal_reviewer" prompts in
  go! attached <- attachOutcomes outcomes in
  go! _ <- append_assessments ReviewerSlots attached in
  saveCycle false.
Definition consolidate (cfg : Config) (ground recorded : string) (requested : bool) : Pl (list Proposal) :=
  go! cycle <- own in
  go! candidates <- lifted (marshal_candidates (Cycle_Proposals cycle)) in
  go! reviews <- lifted (marshal_reviews (Cycle_Assessments cycle)) in
  go! tiers <- lifted (marshal_tiers (Config_Tiers cfg)) in
  let rediscovery := if executing cycle then rediscoveryExecution else rediscoveryAudit in
  let note := if requested then operatorConsolidationNote else "" in
  go! outcome <- role cfg "consolidation" "orchestrator"
    (consolidationPrompt redact_text cfg rediscovery tiers candidates reviews ground recorded +:+ note) in
  go! attached <- attachOutcomes [outcome] in
  go! document <- lifted (decode_proposals (default "" (attached !! 0%nat))) in
  go! cycle <- own in
  go! _ <- lifted (checkConsolidation (Cycle_Proposals cycle) (ProposalDocument_Proposals document)) in
  m_ret (ProposalDocument_Proposals document).

(** *** The seeds *)

Fixpoint seedRediscoveries (requests : list rediscoveryRequest) : Pl unit :=
  match requests with
  | [] => m_ret tt
  | request :: requests =>
    let id := rediscoveryRequest_ID request in
    if bool_decide (id = "") then m_fail (Failed (New "Missing rediscovery identity")) else
    go! old <- looked (fun db => db_tasks db !! id) in
    match old with
    | None => m_fail (Failed (Errorf "Missing rediscovery task %s" [VStr id]))
    | Some old =>
      go! _ <- set_own (fun cycle => cycle <| Cycle_Proposals := Cycle_Proposals cycle ++ [rediscovery_proposal old] |>) in
      seedRediscoveries requests
    end
  end.
(** The requests whose target is eligible, and the others. *)
Definition eligible (cfg : Config) (grounding : Grounding) (r : OperatorRequest) : bool :=
  is_ok (resolveTarget cfg (Grounding_PRs grounding) (OperatorRequest_Target r)).
Definition seedOperatorRequests (cfg : Config) : Pl (list OperatorRequest * list OperatorRequest) :=
  go! cycle <- own in
  let room := int64 (maxPlanningProposals - Z.of_N (lenN (Cycle_Proposals cycle)) - int64 (Z.of_N (Config_DiscoveryAgents cfg))) in
  let limit := Z.min (Z.of_N RequestSeedLimit) (Z.max room 0) in
  if (limit <=? 0)%Z then m_ret ([], []) else
  go! pending <- looked (PendingRequests (Config_GitHubRepo cfg) (Z.to_nat limit)) in
  match pending with
  | [] => m_ret ([], [])
  | _ =>
    go! grounding <- own_grounding in
    let seeded := List.filter (eligible cfg grounding) pending in
    go! _ <- set_own (fun cycle => cycle <| Cycle_Proposals := Cycle_Proposals cycle ++ map (seeded_proposal redact_text) seeded |>) in
    m_ret (seeded, List.filter (fun r => negb (eligible cfg grounding r)) pending)
  end.

(** *** The commit *)

(** Activity is best-effort after the plan's settlements committed. *)
Fixpoint request_events (cycle : Cycle) (requests : list RequestUpdate) : Pl unit :=
  match requests with
  | [] => m_ret tt
  | update :: requests =>
    go! _ <- match OperatorRequest_Assessment (RequestUpdate_Next update) with
             | None => m_ret tt
             | Some assessment => event s true (OperatorRequest_ID (RequestUpdate_Next update)) EventRequest (request_message cycle assessment)
             end in
    request_events cycle requests
  end.
Definition commitPlan (tasks : list Task) (requests : list RequestUpdate) : Pl unit :=
  go! cycle <- own in
  go! _ <- lock in
  go! stop <- held stopped in
  if stop then m_fail context_canceled else
  go! stop <- held stopped in
  go! before <- m_read ac_app in
  go! _ <- stored true (CommitPlan s (if stop then Some (New "context canceled") else None) cycle tasks requests) in
  go! _ <- does (Committed (mkCommit before cycle tasks requests)) in
  request_events cycle requests.
(** An identity for each accepted proposal. *)
Fixpoint task_ids (ids : gmap string string) (proposals : list Proposal) : Pl (gmap string string) :=
  match proposals with
  | [] => m_ret ids
  | proposal :: proposals =>
    if negb (bool_decide (Proposal_Decision proposal = DecisionAccepted)) then task_ids ids proposals else
    go! id <- shared new_id in
    task_ids (<[Proposal_ID proposal := id]> ids) proposals
  end.
Fixpoint planned_tasks (cfg : Config) (cycle : Cycle) (grounding : Grounding) (ids : gmap string string) (proposals : list Proposal)
    : Pl (list Task) :=
  match proposals with
  | [] => m_ret []
  | original :: proposals =>
    if negb (bool_decide (Proposal_Decision original = DecisionAccepted)) then planned_tasks cfg cycle grounding ids proposals else
    go! dependencies <- lifted (renamed_dependencies ids (Proposal_Dependencies original)) in
    go! target <- lifted (resolveTarget cfg (Grounding_PRs grounding) (Proposal_Target original)) in
    go! now <- now_text in
    let task := newPlannedTask cfg cycle grounding original (original <| Proposal_Dependencies := dependencies |>)
                  (default "" (ids !! Proposal_ID original)) target now in
    go! rest <- planned_tasks cfg cycle grounding ids proposals in
    m_ret (task :: rest)
  end.
(** The status of the planned cycle and the time it was completed. *)
Definition complete_cycle : Pl Cycle :=
  go! completed <- now_text in
  go! _ <- set_own (fun cycle => cycle <| Cycle_Status := plannedStatus (Cycle_Proposals cycle) |>
                                       <| Cycle_CompletedAt := Some completed |>) in
  own.
Definition commitTasks (cfg : Config) (seeded dismissed : list OperatorRequest) : Pl unit :=
  go! cycle <- own in
  match Cycle_Grounding cycle with
  | None => m_fail (Failed (New "Planning cycle is missing its grounding"))
  | Some grounding =>
    go! ids <- task_ids ∅ (Cycle_Proposals cycle) in
    go! planned <- planned_tasks cfg cycle grounding ids (Cycle_Proposals cycle) in
    go! cycle <- complete_cycle in
    go! now <- now_text in
    commitPlan planned (requestSettlements redact_text cycle seeded dismissed ids now)
  end.

(** *** The plan *)

(** An operator's request, as the roles are shown it. *)
Definition requested_json (r : OperatorRequest) : Json :=
  Types.JObject [("description", Types.JString (redact_text (OperatorRequest_Description r))); ("id", Types.JString (Request_ProposalID r));
           ("target", Types.JString (OperatorRequest_Target r)); ("title", Types.JString (redact_text (OperatorRequest_Title r)))].
Definition identified (proposal : Proposal) : Proposal :=
  proposal <| Proposal_ProblemKey := Proposal_ProblemIdentity proposal |>.
(** [validateProposals], whose search never runs out of fuel. *)
Definition valid_proposals (cfg : Config) (proposals : list Proposal) (grounding : Grounding) (history : list Task) : Pl unit :=
  match validateProposals cfg proposals grounding history with
  | Some r => lifted r
  | None => m_fail (Failed (New ""))
  end.
(** The grounded cycle with its seeds: the memory, the requests, and what the
    roles are shown. *)
Definition prepare (cfg : Config) : Pl (decisionMemory * (list OperatorRequest * list OperatorRequest) * string) :=
  go! inventory <- captureGrounding cfg in
  go! grounding <- own_grounding in
  go! memory <- planningMemory cfg grounding in
  go! _ <- does (Recalled (memory_requests memory)) in
  go! cycle <- own in
  go! _ <- (if executing cycle then seedRediscoveries (memory_requests memory) else m_ret tt) in
  go! seeds <- seedOperatorRequests cfg in
  go! reservations <- loaded false (reservationRows (Config_GitHubRepo cfg)) in
  let capacity := fst (capacityOf cfg inventory reservations) in
  go! decisions <- lifted (promptEntries memory) in
  go! context <- lifted (marshal_context grounding decisions capacity (map requested_json (fst seeds))) in
  m_ret (memory, seeds, context).
(** What the roles return. *)
Definition propose (cfg : Config) (context : string) (requested : bool) : Pl (list Proposal) :=
  go! ground <- summarizeGrounding cfg context in
  go! _ <- discover cfg ground context requested in
  go! _ <- reviewProposals cfg ground context requested in
  consolidate cfg ground context requested.
(** The checks of the returned proposals. *)
Definition admit_proposals (cfg : Config) (memory : decisionMemory) (seeded : list OperatorRequest) (proposals : list Proposal)
    : Pl unit :=
  go! grounding <- own_grounding in
  go! history <- looked (DuplicateTasks (Config_GitHubRepo cfg) proposals) in
  go! _ <- valid_proposals cfg proposals grounding history in
  go! _ <- enforceDecisionMemory cfg grounding proposals (memory_requests memory)
             (list_to_set (map Request_ProposalID seeded)) in
  go! cycle <- own in
  go! _ <- (if executing cycle then lifted (checkRediscoveries (memory_requests memory) proposals) else m_ret tt) in
  lifted (checkOperatorRequests seeded proposals).
Definition commit_proposals (cfg : Config) (proposals : list Proposal) (seeded dismissed : list OperatorRequest) : Pl unit :=
  go! _ <- set_own (fun cycle => cycle <| Cycle_Proposals := proposals |>) in
  go! cycle <- own in
  go! decisions <- recordDecisions cfg cycle in
  go! _ <- set_own (fun cycle => cycle <| Cycle_DecisionMemory := decisions |>) in
  if audit cycle then
    go! cycle <- complete_cycle in
    go! now <- now_text in
    commitPlan [] (requestSettlements redact_text cycle seeded dismissed ∅ now)
  else commitTasks cfg seeded dismissed.
Definition plan (cfg : Config) : Pl unit :=
  go! prepared <- prepare cfg in
  let '(memory, (seeded, dismissed), context) := prepared in
  go! returned <- propose cfg context (0 <? lenN seeded) in
  let proposals := map identified returned in
  go! _ <- admit_proposals cfg memory seeded proposals in
  commit_proposals cfg proposals seeded dismissed.

(** *** The cycle *)

(** The cycle of a plan that failed, saved; the error of the save. *)
Definition fail_cycle (shuttingDown : bool) (err : failure) : Pl (option failure) :=
  go! _ <- set_own (fun cycle =>
    if shuttingDown
    then cycle <| Cycle_Status := CycleInterrupted |> <| Cycle_Error := Some interruptedMsg |>
    else cycle <| Cycle_Status := CycleFailed |> <| Cycle_Error := Some (redact_error err) |>) in
  go! completed <- now_text in
  go! _ <- set_own (fun cycle => cycle <| Cycle_CompletedAt := Some completed |>) in
  go! saved <- m_try (saveCycle false) in
  m_ret (match saved with Ok _ => None | Err err => Some err end).
Definition recovery_error (err : option failure) : Pl unit :=
  match err with Some err => go! _ <- held (setRecoveryError err) in m_ret tt | None => m_ret tt end.
Definition release_cycle (cycleID : string) (r : runtimeState) : runtimeState :=
  match rt_cycle r with
  | Some job => if bool_decide (cycleJob_id job = cycleID) then r <| rt_cycle := None |> else r
  | None => r
  end.
Definition save_control (control : Control) : Pl unit := stored true (fun db => (Ok tt, SaveControl s control db)).
(** [pauseLocked]; its error is kept as a recovery error. *)
Definition pause_failed (control : Control) (message : string) : Pl unit :=
  go! paused <- m_try (
    go! _ <- save_control ((SetMode control OperatingModePaused) <| Control_Error := Some message |>) in
    held invalidatePRs) in
  recovery_error (match paused with Ok _ => None | Err err => Some err end).
(** The control after the plan. *)
Definition settle_control (cfg : Config) (cycle : Cycle) (err : option failure) (control : Control) : Pl unit :=
  let message := redact_error <$> err in
  let control := control <| Control_Error := message |> in
  go! control <- (if negb (executing cycle) then m_ret control else
    go! now <- held time_now in
    m_ret (control <| Control_NextCycleAt := int64 (unix now + int64 (Z.of_N
             (idleDelay (Config_CycleIntervalSeconds cfg) (Control_IdleStreak control)))) |>)) in
  go! _ <- match message with
           | Some message =>
             if executing cycle && bool_decide (Control_Mode control = OperatingModeRunOnce)
             then pause_failed control message else go! _ <- m_try (save_control control) in m_ret tt
           | None => go! _ <- m_try (save_control control) in m_ret tt
           end in
  match message with
  | Some message => event s true (Cycle_ID cycle) EventPlanningError message
  | None => m_ret tt
  end.
(** Under the gate: the worker gives up the cycle. *)
Definition finish_cycle (cfg : Config) (shuttingDown : bool) (err terminalErr : option failure) : Pl unit :=
  go! _ <- lock in
  go! _ <- recovery_error terminalErr in
  go! cycle <- own in
  go! _ <- held (m_update (release_cycle (Cycle_ID cycle))) in
  go! control <- m_try (read_control s true) in
  match control with
  | Err loadErr => recovery_error (Some loadErr)
  | Ok control => if shuttingDown then m_ret tt else settle_control cfg cycle err control
  end.
Definition planCycle (cfg : Config) : Pl unit :=
  go! planned <- m_try (plan cfg) in
  match planned with
  | Ok _ => finish_cycle cfg false None None
  | Err err =>
    go! shuttingDown <- shared stopped in
    go! terminalErr <- fail_cycle shuttingDown err in
    finish_cycle cfg shuttingDown (Some err) terminalErr
  end.
End planning.

(** * Properties *)

(** ** What a step of planning does

    [quiet l]: nothing of [l] commits a plan or writes to the remote. *)
Definition quiet_act (x : plan_act) : Prop :=
  match x with Answered _ _ _ _ | Looked _ | Recalled _ => True | Committed _ => False | Sent q => reads_only q end.
Definition quiet : list plan_act -> Prop := Forall quiet_act.
Lemma quiet_app l l' : quiet l -> quiet l' -> quiet (l ++ l').
Proof. apply Forall_app_2. Qed.
#[local] Instance quiet_trace : Trace quiet := {| trace_nil := Forall_nil_2 quiet_act; trace_app := quiet_app |}.
Lemma quiet_requests l : Forall reads_only l -> quiet (map (said (D := plan_act)) l).
Proof. induction 1; constructor; done. Qed.

(** The cycle is still the same one. *)
Record same_cycle (c c' : Cycle) : Prop := {
  same_id : Cycle_ID c' = Cycle_ID c; same_mode : Cycle_Mode c' = Cycle_Mode c; same_run : Cycle_RunID c' = Cycle_RunID c;
  same_number : Cycle_Number c' = Cycle_Number c }.
#[local] Instance same_cycle_preorder : PreOrder same_cycle.
Proof. split; [by split|]. intros a b c [] []. split; congruence. Qed.

(** [runs c m R]: begun with the cycle [c], [m] is quiet and does not panic,
    and what it returns, leaves and did satisfies [R]. *)
Definition ended {A} (c : Cycle) (R : A -> Cycle -> list plan_act -> Prop) (r : result A failure) (c' : Cycle)
    (new : list plan_act) : Prop :=
  same_cycle c c' /\ match r with Ok x => R x c' new | Err err => calm (A := unit) (Err err) end.
Definition runs {A} (c : Cycle) (m : Pl A) (R : A -> Cycle -> list plan_act -> Prop) : Prop := forall w, ac_own w = c ->
  exists new, ac_deeds (snd (m w)) = ac_deeds w ++ new /\ quiet new /\ ended c R (fst (m w)) (ac_own (snd (m w))) new.

Lemma runs_bind {A B} c (m : Pl A) (k : A -> Pl B) (R : B -> Cycle -> list plan_act -> Prop) :
  runs c m (fun x c1 l => runs c1 (k x) (fun y c2 l' => R y c2 (l ++ l'))) -> runs c (m_bind m k) R.
Proof.
  intros S w E. destruct (S w E) as (new & N & O & Sa & K). unfold m_bind.
  destruct (m w) as [[x|err] w1]; simpl in *; [|by exists new].
  destruct (K w1 eq_refl) as (more & N2 & O2 & Sb & K2). exists (new ++ more). rewrite N2, N, app_assoc.
  split; [done|]. split; [by apply quiet_app|]. split; [by etrans|done].
Qed.
Lemma runs_mono {A} c (m : Pl A) (P R : A -> Cycle -> list plan_act -> Prop) :
  runs c m P -> (forall x c' l, same_cycle c c' -> P x c' l -> R x c' l) -> runs c m R.
Proof.
  intros S I w E. destruct (S w E) as (new & N & O & Sa & F). exists new. split_and!; [done..|split; [done|]].
  destruct (fst (m w)); [by apply I|done].
Qed.
Lemma runs_proceeds {A} c (m : Pl A) R : proceeds quiet m -> (forall x l, R x c l) -> runs c m R.
Proof.
  intros [K C] F w <-. destruct (K w) as (new & N & O). exists new. destruct (C w) as [C1 C2].
  split_and!; [done..|]. split; [by rewrite C2|]. destruct (fst (m w)); [|done]. by rewrite C2.
Qed.
Lemma still c (w : Planner) {A} (r : result A failure) (R : A -> Cycle -> list plan_act -> Prop) :
  ac_own w = c -> match r with Ok x => R x c [] | Err err => calm (A := unit) (Err err) end ->
  exists new, ac_deeds w = ac_deeds w ++ new /\ quiet new /\ ended c R r (ac_own w) new.
Proof. intros -> F. exists []. rewrite app_nil_r. split_and!; [done|constructor|by split]. Qed.
Lemma runs_ret {A} c (x : A) (R : A -> Cycle -> list plan_act -> Prop) : R x c [] -> runs c (m_ret x) R.
Proof. intros F w E. by apply still. Qed.
Lemma runs_fail {A} c err (R : A -> Cycle -> list plan_act -> Prop) : calm (A := unit) (Err err) -> runs c (m_fail err) R.
Proof. intros F w E. by apply still. Qed.
Lemma runs_lift {A} c (r : result A failure) (R : A -> Cycle -> list plan_act -> Prop) :
  calm r -> (forall x, r = Ok x -> R x c []) -> runs c (m_lift r) R.
Proof. destruct r; intros C F; [apply runs_ret; auto|by apply runs_fail]. Qed.
Lemma runs_lifted {A} c (r : result A error) (R : A -> Cycle -> list plan_act -> Prop) :
  (forall x, r = Ok x -> R x c []) -> runs c (lifted r) R.
Proof. intros F. apply runs_lift; destruct r; naive_solver. Qed.
Lemma runs_own c (R : Cycle -> Cycle -> list plan_act -> Prop) : R c c [] -> runs c own R.
Proof. intros F w <-. by apply still. Qed.
Lemma runs_set c f (R : unit -> Cycle -> list plan_act -> Prop) : same_cycle c (f c) -> R tt (f c) [] -> runs c (set_own f) R.
Proof. intros S F w <-. exists []. simpl. rewrite app_nil_r. split_and!; [done|constructor|by split]. Qed.
Lemma runs_does c x (R : unit -> Cycle -> list plan_act -> Prop) : quiet_act x -> R tt c [x] -> runs c (does x) R.
Proof. intros Q F w <-. exists [x]. split_and!; [done|by constructor|by split]. Qed.
Ltac runs_go :=
  repeat (cbv beta; match goal with
  | |- runs _ (m_bind _ _) _ => apply runs_bind
  | |- runs _ (m_ret _) _ => apply runs_ret
  | |- runs _ (m_fail _) _ => apply runs_fail; exact I
  | |- runs _ (lifted _) _ => apply runs_lifted; intros ? ?
  | |- runs _ own _ => apply runs_own
  | |- runs _ (set_own _) _ => apply runs_set; [by split|]
  | |- runs _ (does _) _ => apply runs_does; [exact I|]
  | |- forall _, _ => intro
  end).

(** The cycle but for its sessions. *)
Definition with_sessions (c c' : Cycle) : Prop := exists sessions, c' = c <| Cycle_Sessions := sessions |>.

Lemma same_sessions sessions c : same_cycle c (c <| Cycle_Sessions := sessions |>).
Proof. by split. Qed.

(** ** The saved cycle

    [spares m]: the transaction [m] leaves the saved cycles alone. *)
Definition spares {A} (m : Tx A) : Prop := forall db x db', m db = Ok (x, db') -> db_cycles db' = db_cycles db.
Lemma spares_bind {A B} (m : Tx A) (k : A -> Tx B) : spares m -> (forall x, spares (k x)) -> spares (tx_bind m k).
Proof.
  intros S K db y db' E. unfold tx_bind in E. destruct (m db) as [[x db1]|] eqn:M; [|done].
  by rewrite (K _ _ _ _ E), (S _ _ _ M).
Qed.
Lemma spares_ret {A} (x : A) : spares (tx_ret x).
Proof. by intros db y db' [= _ <-]. Qed.
Lemma spares_fail {A} err : spares (@tx_fail A err).
Proof. by intros db y db' E. Qed.
Lemma spares_read {A} (f : Db -> A) : spares (tx_read f).
Proof. by intros db y db' [= _ <-]. Qed.
Lemma spares_lift {A} (r : result A error) : spares (tx_lift r).
Proof. intros db y db' E. unfold tx_lift in E. destruct r; [by injection E as _ <-|done]. Qed.
Lemma spares_write f : (forall db, db_cycles (f db) = db_cycles db) -> spares (tx_write f).
Proof. intros F db y db' [= _ <-]. apply F. Qed.
Lemma spares_iter {A} (f : A -> Tx unit) l : (forall x, spares (f x)) -> spares (tx_iter f l).
Proof. intros F. induction l; [apply spares_ret|by apply spares_bind]. Qed.
Lemma put_task_cycles t db : db_cycles (put_task t db) = db_cycles db.
Proof. unfold put_task. by destruct (terminal_without_output t), (Task_RunID t). Qed.
Lemma put_control_cycles key control db : db_cycles (put_control key control db) = db_cycles db.
Proof. done. Qed.
#[local] Hint Resolve spares_ret spares_fail spares_read spares_lift put_task_cycles put_control_cycles : spares.
Ltac sparing :=
  repeat (intros; first
    [ solve [auto with spares]
    | apply spares_bind
    | apply spares_iter
    | apply spares_write
    | match goal with |- spares (if ?c then _ else _) => destruct c end
    | match goal with |- spares (match ?x with _ => _ end) => destruct x end ]).
Lemma spares_commit_task expected next change : spares (txCommitTask expected next change).
Proof. unfold txCommitTask. sparing. Qed.
Lemma spares_insert t : spares (insertTask t).
Proof. unfold insertTask. sparing. Qed.
#[local] Hint Resolve spares_commit_task spares_insert : spares.
Lemma spares_lineage id f : spares (updateLineageTask id f).
Proof. unfold updateLineageTask. sparing. Qed.
Lemma spares_decision d : spares (putDecision d).
Proof. unfold putDecision. sparing. Qed.
Lemma spares_request u : spares (txUpdateRequest u).
Proof. unfold txUpdateRequest. sparing. Qed.
#[local] Hint Resolve spares_lineage spares_decision spares_request : spares.
Lemma put_cycle_cycles c db : db_cycles (put_cycle c db) = <[Cycle_ID c := c]> (db_cycles db).
Proof. unfold put_cycle. by destruct_cond. Qed.
(** A committed plan saves its cycle. *)
Lemma CommitPlan_saves s cycle tasks requests db db' :
  CommitPlan s None cycle tasks requests db = (Ok tt, db') -> db_cycles db' !! Cycle_ID cycle = Some cycle.
Proof.
  unfold CommitPlan, transaction. destruct (plan_body _ _ _ _ _) as [[[] db1]|] eqn:E; [|done]. intros [= <-].
  unfold plan_body in E. unfold tx_bind at 1, tx_write at 1 in E.
  match type of E with ?m _ = _ => assert (spares m) as S by sparing end.
  by rewrite (S _ _ _ E), put_cycle_cycles, lookup_insert_eq.
Qed.

Section plan_facts.
Context `{Unicode} `{TextCases} `{World} `{Rows} `{Machine} `{Printable} `{GitHubJson} `{MemoryJson} `{PlanJson} `{Agents} `{Company}.
Context (s : Store) (live_config : Db -> Config) (Fingerprint : Config -> result string error).
Context (preflight : Config -> bool -> M unit) (TaskPage : Db -> Json).
Context (Secrets : string -> string) (encoded_length : ExternalPRContext -> result N error).
(** The preflight does not panic, and the configuration was validated. *)
Context (preflight_calm : forall cfg audit, calm_op (preflight cfg audit)).
Context (cfg : Config) (every : Config_MaintenanceEveryCycles cfg <> 0).

Lemma quiet_asks {A} (m : G A) : says reads_only m (fun _ => True) -> proceeds (X := Cycle) quiet (asks m).
Proof. intros S. eapply (proceeds_asks _); [exact S|apply quiet_requests]. Qed.
Lemma quiet_ctx_err : proceeds (X := Cycle) quiet ctx_err.
Proof. by apply quiet_asks, says_ask. Qed.
#[local] Hint Resolve quiet_ctx_err : act.
#[local] Hint Extern 0 (forall l, Forall reads_only l -> quiet (map said l)) => exact quiet_requests : act.

Lemma runs_saveCycle gated c (R : unit -> Cycle -> list plan_act -> Prop) :
  (forall c' l, with_sessions c c' -> R tt c' l) -> runs c (saveCycle gated) R.
Proof.
  intros F. unfold saveCycle. runs_go. apply runs_proceeds; [apply (proceeds_loaded _)|]. intros [current|]; runs_go.
  - apply runs_proceeds; [apply (proceeds_stored _)|]. intros [] l'. apply F. by eexists.
  - apply runs_proceeds; [apply (proceeds_stored _)|]. intros [] l'. apply F. exists (Cycle_Sessions c). by destruct c.
Qed.
Lemma runs_own_grounding c grounding (R : Grounding -> Cycle -> list plan_act -> Prop) :
  Cycle_Grounding c = Some grounding -> R grounding c [] -> runs c own_grounding R.
Proof. intros E F. unfold own_grounding. runs_go. rewrite E. by runs_go. Qed.
(** A read returns what was looked at. *)
Lemma runs_loaded {A} c (f : Db -> A) (R : A -> Cycle -> list plan_act -> Prop) :
  (forall db, R (f db) c []) -> runs c (loaded false f) R.
Proof.
  intros F w <-. destruct (proceeds_loaded (X := Cycle) quiet false f) as [_ C]. destruct (C w) as [C1 C2].
  exists []. rewrite app_nil_r. unfold loaded, m_bind, m_read, enter, shared in *.
  destruct (broken _); (split; [done|]; split; [constructor|]; split; [by rewrite C2|done || apply F]).
Qed.
Lemma runs_looked {A} c (f : Db -> A) (R : A -> Cycle -> list plan_act -> Prop) :
  (forall db, R (f db) c [Looked db]) -> runs c (looked f) R.
Proof. intros F. unfold looked. apply runs_bind, runs_loaded. intros db. runs_go. apply F. Qed.

(** *** Grounding *)

Lemma runs_local_heads c external (R : _ -> Cycle -> list plan_act -> Prop) :
  (forall x l, R x c l) -> runs c (local_heads cfg external) R.
Proof.
  intros F. apply runs_proceeds; [|done]. clear F R. induction external as [|pr external IH]; cbn [local_heads]; acting.
  by apply quiet_asks, says_git.
Qed.
Lemma runs_ground_external c observed (R : _ -> Cycle -> list plan_act -> Prop) :
  (forall x l, R x c l) -> runs c (ground_external s Secrets encoded_length cfg observed) R.
Proof.
  intros F. unfold ground_external. runs_go. apply runs_proceeds; [by apply quiet_asks, says_Fetch|]. intros _. runs_go.
  apply runs_proceeds; [by apply quiet_asks, says_FetchForkHeads|]. intros _. runs_go.
  apply runs_local_heads. intros heads. runs_go. apply runs_proceeds; [|intros _; by runs_go].
  destruct (snd heads); [apply (proceeds_ret _)|apply (proceeds_event _)].
Qed.
Lemma runs_captureGrounding c (R : OpenPRInventory -> Cycle -> list plan_act -> Prop) :
  (forall x grounding c' l, with_sessions (c <| Cycle_Grounding := Some grounding |>) c' -> R x c' l) ->
  runs c (captureGrounding s live_config Fingerprint preflight TaskPage Secrets encoded_length cfg) R.
Proof.
  intros F. unfold captureGrounding. runs_go. apply runs_proceeds; [by apply (proceeds_shared _), preflight_calm|]. intros _.
  runs_go. apply runs_proceeds; [apply (proceeds_defaultBranchSHA _ _), quiet_requests|]. intros default_branch.
  runs_go. apply runs_proceeds; [apply (proceeds_observeDefaultBranch _ _)|]. intros _.
  runs_go. apply runs_proceeds; [apply (proceeds_observeOpenPRs _), quiet_requests|]. intros observed.
  runs_go. apply runs_ground_external. intros external. runs_go. apply runs_proceeds; [apply (proceeds_loaded _)|]. intros history.
  runs_go. apply runs_proceeds; [apply (proceeds_now _)|]. intros now. runs_go. apply runs_proceeds.
  { unfold maintenance_due. apply N.eqb_neq in every. rewrite every. acting. }
  intros due. unfold keep_grounding. runs_go. apply runs_proceeds; [apply (proceeds_lock _)|]. intros _. runs_go.
  apply runs_proceeds; [unfold same_config, read_config; acting|]. intros _. runs_go.
  apply runs_proceeds; [apply (proceeds_savePRsLocked _ _)|]. intros _. runs_go.
  apply runs_saveCycle. intros c' l' W. runs_go. by eapply F.
Qed.

(** *** Roles *)

Lemma role_outcome_calm turn label name prompt : calm (role_outcome cfg turn label name prompt).
Proof. unfold role_outcome. destruct (Config_Roles cfg !! name); [|done]. by destruct (role_answer turn label name prompt) as [|[]]. Qed.
Lemma runs_role c label name prompt (R : result string failure -> Cycle -> list plan_act -> Prop) :
  (forall r, calm r -> R r c [Answered label name prompt r]) -> runs c (role cfg label name prompt) R.
Proof.
  intros F w <-. exists [Answered label name prompt (role_outcome cfg (ac_turns w) label name prompt)].
  split; [done|]. split; [by constructor|]. split; [done|]. apply F, role_outcome_calm.
Qed.
(** The role answered. *)
Definition told (l : list plan_act) (label name answer : string) : Prop :=
  exists prompt, Answered label name prompt (Ok answer) ∈ l.
Lemma runs_runRoles c name asked (R : list (result string failure) -> Cycle -> list plan_act -> Prop) :
  (forall outcomes l, List.length outcomes = List.length asked -> Forall calm outcomes ->
     (forall answers, outcomes = map Ok answers -> Forall2 (fun ask answer => told l ask.1 name answer) asked answers) ->
     R outcomes c l) -> runs c (runRoles cfg name asked) R.
Proof.
  revert R. induction asked as [|[label prompt] asked IH]; intros R F; cbn [runRoles].
  { apply runs_ret, F; [done|constructor|]. intros [|answer answers] E; [constructor|done]. }
  apply runs_bind, runs_role. intros outcome Co. apply runs_bind, IH. intros outcomes l L Cs T. apply runs_ret, F.
  - simpl. by rewrite L.
  - by constructor.
  - intros [|answer answers] E; [done|]. injection E as -> E. constructor.
    + exists prompt. by left.
    + eapply Forall2_impl; [by apply T|]. intros ask a (p & I). exists p. simpl. right. rewrite app_nil_r. exact I.
Qed.
Lemma answers_spec outcomes :
  Forall calm outcomes -> calm (answers outcomes) /\ forall l, answers outcomes = Ok l -> outcomes = map Ok l.
Proof.
  induction 1 as [|[x|err] outcomes C Cs [IH1 IH2]]; simpl; [split; [done|by intros l [= <-]]| |by split].
  destruct (answers outcomes) as [rest|]; split; try done. intros l [= <-]. simpl. by rewrite (IH2 rest).
Qed.
Lemma runs_attachOutcomes c outcomes (R : list string -> Cycle -> list plan_act -> Prop) :
  Forall calm outcomes -> (forall answers c' l, outcomes = map Ok answers -> with_sessions c c' -> R answers c' l) ->
  runs c (attachOutcomes outcomes) R.
Proof.
  intros C F. unfold attachOutcomes. destruct (answers_spec outcomes C) as [A L]. runs_go. apply runs_lift; [done|].
  intros l E. runs_go. apply runs_saveCycle. intros c' l' W. runs_go. by apply F; [apply L|].
Qed.
Lemma runs_summarizeGrounding c recorded (R : string -> Cycle -> list plan_act -> Prop) :
  (forall x c' l, with_sessions c c' -> R x c' l) -> runs c (summarizeGrounding cfg recorded) R.
Proof.
  intros F. unfold summarizeGrounding. runs_go. apply runs_role. intros r Cr. runs_go.
  apply runs_attachOutcomes; [by constructor|]. intros l c' l' _ W. runs_go. destruct (blank _); runs_go. by apply F.
Qed.

(** A cycle with more candidates, and sessions. *)
Record with_candidates (more : list Proposal) (c c' : Cycle) : Prop := {
  candidates_same : same_cycle c c'; candidates_grounding : Cycle_Grounding c' = Cycle_Grounding c;
  candidates_assessments : Cycle_Assessments c' = Cycle_Assessments c;
  candidates_more : Cycle_Proposals c' = Cycle_Proposals c ++ more }.
Lemma with_candidates_trans more more' a b c :
  with_candidates more a b -> with_candidates more' b c -> with_candidates (more ++ more') a c.
Proof. intros [S1 G1 A1 P1] [S2 G2 A2 P2]. split; [by etrans|congruence..|]. by rewrite P2, P1, app_assoc. Qed.
Lemma with_sessions_candidates c c' : with_sessions c c' -> with_candidates [] c c'.
Proof. intros [sessions ->]. split; [by split|done..|]. by rewrite app_nil_r. Qed.
Lemma with_candidates_refl c : with_candidates [] c c.
Proof. split; [done..|]. by rewrite app_nil_r. Qed.
(** What the discovery agents proposed. *)
Definition decoded (documents : list ProposalDocument) (answers : list string) : Prop :=
  Forall2 (fun answer d => decode_proposals answer = Ok d) answers documents.
Definition proposals_of (documents : list ProposalDocument) : list Proposal := concat (map ProposalDocument_Proposals documents).
Lemma runs_append_discovered c answers (R : unit -> Cycle -> list plan_act -> Prop) :
  (forall documents c' l, decoded documents answers -> with_candidates (proposals_of documents) c c' -> R tt c' l) ->
  runs c (append_discovered answers) R.
Proof.
  revert c R. induction answers as [|answer answers IH]; intros c R F; cbn [append_discovered].
  { apply runs_ret, (F []); [constructor|apply with_candidates_refl]. }
  apply runs_bind, runs_lifted. intros d D. apply runs_bind, runs_lifted. intros [] _.
  apply runs_bind, runs_set; [by split|]. apply IH. intros documents c' l Ds W. apply (F (d :: documents)); [by constructor|].
  unfold proposals_of. simpl. eapply with_candidates_trans; [|exact W]. by split.
Qed.
(** A discovery agent answered with the document. *)
Definition discovered (l : list plan_act) (d : ProposalDocument) : Prop :=
  exists label answer, told l label "discovery" answer /\ decode_proposals answer = Ok d.
Lemma told_app_l l l' label name answer : told l label name answer -> told (l ++ l') label name answer.
Proof. intros (p & I). exists p. apply elem_of_app. by left. Qed.
Lemma told_app_r l l' label name answer : told l' label name answer -> told (l ++ l') label name answer.
Proof. intros (p & I). exists p. apply elem_of_app. by right. Qed.
Lemma discovered_told l asked answers documents :
  Forall2 (fun ask answer => told l (fst (A := string) (B := string) ask) "discovery" answer) asked answers ->
  decoded documents answers -> Forall (discovered l) documents.
Proof.
  intros T D. revert asked T. induction D as [|answer d answers documents E D IH]; intros asked T; [constructor|].
  inversion T as [|ask ? ? ? Ta Ts]; subst. constructor; [by eexists _, answer|by eapply IH].
Qed.
Lemma runs_discover c ground recorded requested grounding (R : unit -> Cycle -> list plan_act -> Prop) :
  Cycle_Grounding c = Some grounding ->
  (forall documents c' l, Forall (discovered l) documents -> with_candidates (proposals_of documents) c c' -> R tt c' l) ->
  runs c (discover cfg ground recorded requested) R.
Proof.
  intros G F. unfold discover. destruct (_ <? _); [runs_go|]. apply runs_bind, runs_own, runs_bind.
  eapply runs_own_grounding; [done|]. apply runs_bind, runs_runRoles. intros outcomes l _ C T.
  apply runs_bind, runs_attachOutcomes; [done|]. intros answers c1 l1 -> W1.
  apply runs_bind, runs_append_discovered. intros documents c2 l2 D W2. apply runs_bind, runs_own, runs_bind, runs_lifted. intros [] _.
  apply runs_saveCycle. intros c3 l3 W3. apply (F documents).
  - eapply Forall_impl; [eapply discovered_told; [by apply T|exact D]|].
    intros d (label & answer & Ta & E). exists label, answer. split; [|done]. simpl. by apply told_app_l.
  - rewrite <- (app_nil_r (proposals_of documents)). eapply with_candidates_trans; [|by apply with_sessions_candidates].
    apply (with_candidates_trans [] _ _ c1); [by apply with_sessions_candidates|done].
Qed.

(** *** Reviews and consolidation *)

(** The reviewer of the slot answered with an assessment of the candidates. *)
Definition assessed (candidates : list Proposal) (l : list plan_act) (slot : string) (d : AssessmentDocument) : Prop :=
  checkAssessments slot candidates (AssessmentDocument_Assessments d) = Ok tt
  /\ exists answer, told l slot "proposal_reviewer" answer /\ decode_assessments answer = Ok d.
Record reviewed (l : list plan_act) (slots : list string) (c c' : Cycle) : Prop := {
  reviewed_same : same_cycle c c'; reviewed_grounding : Cycle_Grounding c' = Cycle_Grounding c;
  reviewed_proposals : Cycle_Proposals c' = Cycle_Proposals c;
  reviewed_by : exists documents, Forall2 (assessed (Cycle_Proposals c) l) slots documents
    /\ Cycle_Assessments c' = Cycle_Assessments c ++ map assessment_json documents }.
Lemma runs_append_assessments c slots answers past (R : unit -> Cycle -> list plan_act -> Prop) :
  Forall2 (fun slot answer => told past slot "proposal_reviewer" answer) slots answers ->
  (forall c' l, reviewed past slots c c' -> R tt c' l) -> runs c (append_assessments slots answers) R.
Proof.
  intros T. revert c R. induction T as [|slot answer slots answers Ta T IH]; intros c R F; cbn [append_assessments].
  { apply runs_ret, F. split; [done..|]. exists []. by rewrite app_nil_r. }
  apply runs_bind, runs_lifted. intros d D. apply runs_bind, runs_own, runs_bind, runs_lifted. intros [] A.
  apply runs_bind, runs_set; [by split|]. apply IH. intros c' l [S G P (documents & As & E)]. apply F.
  split; [by etrans; [|exact S]|done..|]. exists (d :: documents). split; [by constructor; [split; [done|by exists answer]|]|].
  rewrite E. simpl. by rewrite <- app_assoc.
Qed.
Lemma review_prompts_slots prompt slots l : review_prompts prompt slots = Ok l -> map fst l = slots.
Proof.
  revert l. induction slots as [|slot slots IH]; intros l E; simpl in E; [by injection E as <-|].
  destruct (reviewFocus !! slot); [|done]. apply result_bind_Ok in E as (rest & E & [= <-]). simpl. by rewrite (IH rest).
Qed.
Lemma reviewed_sessions l l' slots c c1 c2 c3 :
  with_sessions c c1 -> reviewed l slots c1 c2 -> with_sessions c2 c3 -> l ⊆ l' -> reviewed l' slots c c3.
Proof.
  intros [l1 ->] [[] G P (ds & D & E)] [l3 ->] S. split; [by split|done..|]. exists ds. split; [|done].
  eapply Forall2_impl; [exact D|]. intros slot d (Ch & answer & (prompt & I) & De). split; [done|]. exists answer. split; [|done].
  exists prompt. by apply S.
Qed.
Lemma runs_reviewProposals c ground recorded requested (R : unit -> Cycle -> list plan_act -> Prop) :
  (forall c' l, reviewed l ReviewerSlots c c' -> R tt c' l) -> runs c (reviewProposals cfg ground recorded requested) R.
Proof.
  intros F. unfold reviewProposals. apply runs_bind, runs_own, runs_bind, runs_lifted. intros candidates _.
  apply runs_bind, runs_lifted. intros prompts P. apply review_prompts_slots in P. apply runs_bind, runs_runRoles.
  intros outcomes l L C T. apply runs_bind, runs_attachOutcomes; [done|]. intros answers c1 l1 -> W1.
  apply runs_bind, (runs_append_assessments _ _ _ l).
  { rewrite <- P. specialize (T answers eq_refl). clear -T. induction T; by constructor. }
  intros c2 l2 Rv. apply runs_saveCycle. intros c3 l3 W3. apply F. eapply reviewed_sessions; [done..|]. set_solver.
Qed.
(** The orchestrator answered with the document. *)
Definition consolidated (l : list plan_act) (d : ProposalDocument) : Prop :=
  exists answer, told l "consolidation" "orchestrator" answer /\ decode_proposals answer = Ok d.
Lemma runs_consolidate c ground recorded requested (R : list Proposal -> Cycle -> list plan_act -> Prop) :
  (forall d c' l, with_sessions c c' -> consolidated l d ->
     checkConsolidation (Cycle_Proposals c) (ProposalDocument_Proposals d) = Ok tt -> R (ProposalDocument_Proposals d) c' l) ->
  runs c (consolidate cfg ground recorded requested) R.
Proof.
  intros F. unfold consolidate. runs_go. apply runs_role. intros outcome C. runs_go.
  apply runs_attachOutcomes; [by constructor|]. intros answers c1 l1 An W. apply runs_bind, runs_lifted. intros d D.
  apply runs_bind, runs_own, runs_bind, runs_lifted. intros [] Ch. runs_go. apply F; [done| |by destruct W as [sessions ->]].
  destruct answers as [|answer []]; try done. injection An as ->. exists answer. split; [|done]. eexists. simpl. by left.
Qed.
(** What the roles returned, and the reviews of their candidates. *)
Record proposed (l : list plan_act) (c c' : Cycle) (documents : list ProposalDocument) (returned : list Proposal) : Prop := {
  proposed_same : same_cycle c c'; proposed_grounding : Cycle_Grounding c' = Cycle_Grounding c;
  proposed_discovered : Forall (discovered l) documents;
  proposed_reviews : exists reviews, Forall2 (assessed (Cycle_Proposals c ++ proposals_of documents) l) ReviewerSlots reviews
    /\ Cycle_Assessments c' = Cycle_Assessments c ++ map assessment_json reviews;
  proposed_returned : exists d, consolidated l d /\ returned = ProposalDocument_Proposals d
    /\ checkConsolidation (Cycle_Proposals c ++ proposals_of documents) returned = Ok tt }.
Lemma told_mono l l' label name answer : l ⊆ l' -> told l label name answer -> told l' label name answer.
Proof. intros S (prompt & I). exists prompt. by apply S. Qed.
Lemma assessed_mono candidates l l' slot d : l ⊆ l' -> assessed candidates l slot d -> assessed candidates l' slot d.
Proof. intros S (Ch & answer & T & D). split; [done|]. exists answer. split; [by eapply told_mono|done]. Qed.
Lemma discovered_mono l l' d : l ⊆ l' -> discovered l d -> discovered l' d.
Proof. intros S (label & answer & T & D). exists label, answer. split; [by eapply told_mono|done]. Qed.
Lemma consolidated_mono l l' d : l ⊆ l' -> consolidated l d -> consolidated l' d.
Proof. intros S (answer & T & D). exists answer. split; [by eapply told_mono|done]. Qed.
Lemma runs_propose c context requested grounding (R : list Proposal -> Cycle -> list plan_act -> Prop) :
  Cycle_Grounding c = Some grounding -> (forall documents returned c' l, proposed l c c' documents returned -> R returned c' l) ->
  runs c (propose cfg context requested) R.
Proof.
  intros G F. unfold propose. apply runs_bind, runs_summarizeGrounding. intros ground c1 l1 [x1 ->].
  apply runs_bind. eapply runs_discover; [exact G|]. intros documents c2 l2 Dd [S2 G2 A2 P2].
  apply runs_bind, runs_reviewProposals. intros c3 l3 [S3 G3 P3 (reviews & D & A3)].
  apply runs_consolidate. intros d c4 l4 [x4 ->] Co Ch. simpl in P2. rewrite P2 in *. apply (F documents). split.
  - etrans; [apply (same_sessions x1)|]. etrans; [exact S2|]. etrans; [exact S3|]. apply same_sessions.
  - etrans; [exact G3|exact G2].
  - eapply Forall_impl; [exact Dd|]. intros e. apply discovered_mono. set_solver.
  - exists reviews. split; [|etrans; [exact A3|by rewrite A2]]. eapply Forall2_impl; [exact D|]. intros slot e.
    apply assessed_mono. set_solver.
  - exists d. split; [|split; [done|by rewrite <- P3]]. eapply consolidated_mono; [|exact Co]. set_solver.
Qed.

(** *** The seeds *)

(** The tasks of the rediscoveries, as they were saved. *)
Definition rediscovered (l : list plan_act) : list rediscoveryRequest -> list Task -> Prop :=
  Forall2 (fun r old => exists db, Looked db ∈ l /\ db_tasks db !! rediscoveryRequest_ID r = Some old).
Lemma rediscovered_mono l l' requests olds : l ⊆ l' -> rediscovered l requests olds -> rediscovered l' requests olds.
Proof. intros S R. eapply Forall2_impl; [exact R|]. intros r old (db & I & E). exists db. split; [by apply S|done]. Qed.
Lemma runs_seedRediscoveries c requests (R : unit -> Cycle -> list plan_act -> Prop) :
  (forall olds c' l, rediscovered l requests olds -> with_candidates (map rediscovery_proposal olds) c c' -> R tt c' l) ->
  runs c (seedRediscoveries requests) R.
Proof.
  revert c R. induction requests as [|r requests IH]; intros c R F; cbn [seedRediscoveries].
  { apply runs_ret, (F []); [constructor|apply with_candidates_refl]. }
  destruct (bool_decide _); [by runs_go|]. apply runs_bind, runs_looked. intros db.
  destruct (db_tasks db !! _) as [old|] eqn:L; [|by runs_go]. apply runs_bind, runs_set; [by split|]. apply IH.
  intros olds c' l O W. apply (F (old :: olds)).
  - constructor; [exists db; split; [by left|done]|]. eapply rediscovered_mono; [|exact O]. set_solver.
  - apply (with_candidates_trans [rediscovery_proposal old] _ _ (c <| Cycle_Proposals := Cycle_Proposals c ++ [rediscovery_proposal old] |>));
      [by split|done].
Qed.
(** How many requests may be seeded beside the candidates. *)
Definition seed_limit (candidates : list Proposal) : Z :=
  Z.min (Z.of_N RequestSeedLimit)
    (Z.max (int64 (maxPlanningProposals - Z.of_N (lenN candidates) - int64 (Z.of_N (Config_DiscoveryAgents cfg)))) 0).
(** The pending requests: those with an eligible target are seeded, the others
    dismissed. *)
Definition seeds_of (l : list plan_act) (grounding : Grounding) (candidates : list Proposal)
    (seeded dismissed : list OperatorRequest) : Prop :=
  exists pending, seeded = List.filter (eligible cfg grounding) pending
    /\ dismissed = List.filter (fun r => negb (eligible cfg grounding r)) pending
    /\ if (seed_limit candidates <=? 0)%Z then pending = []
       else exists db, Looked db ∈ l /\ pending = PendingRequests (Config_GitHubRepo cfg) (Z.to_nat (seed_limit candidates)) db.
Lemma seeds_of_mono l l' grounding candidates seeded dismissed :
  l ⊆ l' -> seeds_of l grounding candidates seeded dismissed -> seeds_of l' grounding candidates seeded dismissed.
Proof.
  intros S (pending & E & D & P). exists pending. split_and!; [done..|]. destruct (_ <=? _)%Z; [done|].
  destruct P as (db & I & P). exists db. split; [by apply S|done].
Qed.
Lemma runs_seedOperatorRequests c grounding (R : _ -> Cycle -> list plan_act -> Prop) :
  Cycle_Grounding c = Some grounding ->
  (forall seeded dismissed c' l, seeds_of l grounding (Cycle_Proposals c) seeded dismissed ->
     with_candidates (map (seeded_proposal redact_text) seeded) c c' -> R (seeded, dismissed) c' l) ->
  runs c (seedOperatorRequests cfg) R.
Proof.
  intros G F. unfold seedOperatorRequests. apply runs_bind, runs_own. change (Z.min _ _) with (seed_limit (Cycle_Proposals c)).
  unfold seeds_of in F. destruct (seed_limit (Cycle_Proposals c) <=? 0)%Z.
  { apply runs_ret, F; [by exists []|apply with_candidates_refl]. }
  apply runs_bind, runs_looked. intros db. destruct (PendingRequests _ _ db) as [|r pending] eqn:P.
  { apply runs_ret, F; [|apply with_candidates_refl]. exists []. split_and!; [done..|]. exists db. split; [set_solver|done]. }
  apply runs_bind. eapply runs_own_grounding; [exact G|]. apply runs_bind, runs_set; [by split|]. apply runs_ret, F; [|by split].
  exists (r :: pending). split_and!; [done..|]. exists db. split; [set_solver|done].
Qed.
Lemma runs_planningMemory c grounding (R : decisionMemory -> Cycle -> list plan_act -> Prop) :
  (forall memory db l, memory_requests memory = RediscoveryRequests (Config_GitHubRepo cfg) db -> R memory c l) ->
  runs c (planningMemory cfg grounding) R.
Proof.
  intros F. unfold planningMemory. apply runs_bind, runs_proceeds; [apply (proceeds_loaded _)|]. intros records l.
  apply runs_bind, runs_proceeds; [apply (proceeds_currentDecisions _), quiet_requests|]. intros decisions l'.
  apply runs_bind, runs_loaded. intros db. by apply runs_ret, (F _ db).
Qed.
(** The grounded cycle with its seeds. *)
Record prepared (l : list plan_act) (c c' : Cycle) (grounding : Grounding) (requests : list rediscoveryRequest)
    (olds : list Task) (seeded dismissed : list OperatorRequest) : Prop := {
  prepared_same : same_cycle c c'; prepared_grounding : Cycle_Grounding c' = Some grounding;
  prepared_assessments : Cycle_Assessments c' = Cycle_Assessments c;
  prepared_recalled : Recalled requests ∈ l /\ exists db, requests = RediscoveryRequests (Config_GitHubRepo cfg) db;
  prepared_olds : match Cycle_Mode c with CycleModeExecution => rediscovered l requests olds | CycleModeAudit => olds = [] end;
  prepared_seeds : seeds_of l grounding (Cycle_Proposals c ++ map rediscovery_proposal olds) seeded dismissed;
  prepared_proposals : Cycle_Proposals c'
    = (Cycle_Proposals c ++ map rediscovery_proposal olds) ++ map (seeded_proposal redact_text) seeded }.
Lemma runs_prepare c (R : _ -> Cycle -> list plan_act -> Prop) :
  (forall memory seeded dismissed context c' l grounding olds,
     prepared l c c' grounding (memory_requests memory) olds seeded dismissed -> R (memory, (seeded, dismissed), context) c' l) ->
  runs c (prepare s live_config Fingerprint preflight TaskPage Secrets encoded_length cfg) R.
Proof.
  intros F. unfold prepare. apply runs_bind, runs_captureGrounding. intros inventory grounding c1 l1 [x1 ->].
  apply runs_bind. eapply runs_own_grounding; [done|]. apply runs_bind, runs_planningMemory. intros memory mdb l2 Rc.
  apply runs_bind, runs_does; [done|]. apply runs_bind, runs_own, runs_bind.
  set (c1 := c <| Cycle_Grounding := Some grounding |> <| Cycle_Sessions := x1 |>).
  assert (forall R' : _ -> Cycle -> list plan_act -> Prop,
    (forall olds c2 l, match Cycle_Mode c with CycleModeExecution => rediscovered l (memory_requests memory) olds | CycleModeAudit => olds = [] end ->
       with_candidates (map rediscovery_proposal olds) c1 c2 -> R' tt c2 l) ->
    runs c1 (if executing c1 then seedRediscoveries (memory_requests memory) else m_ret tt) R') as Sd.
  { intros R' F'. unfold executing. change (Cycle_Mode c1) with (Cycle_Mode c). case_bool_decide as M.
    - rewrite M in F'. by apply runs_seedRediscoveries.
    - apply runs_ret, (F' []); [by destruct (Cycle_Mode c)|apply with_candidates_refl]. }
  apply Sd. clear Sd. intros olds c2 l3 O [S2 G2 A2 P2]. apply runs_bind. eapply runs_seedOperatorRequests; [exact G2|].
  intros seeded dismissed c3 l4 Se [S3 G3 A3 P3].
  apply runs_bind, runs_loaded. intros db. cbv zeta. apply runs_bind, runs_lifted. intros decisions _.
  apply runs_bind, runs_lifted. intros context _. apply runs_ret. apply (F _ _ _ _ _ _ grounding olds). split.
  - etrans; [|etrans; [exact S2|exact S3]]. by split.
  - etrans; [exact G3|exact G2].
  - etrans; [exact A3|exact A2].
  - split; [set_solver|by exists mdb].
  - destruct (Cycle_Mode c); try exact O. eapply rediscovered_mono; [|exact O]. set_solver.
  - change (Cycle_Proposals c1) with (Cycle_Proposals c) in P2. rewrite P2 in Se. eapply seeds_of_mono; [|exact Se]. set_solver.
  - by rewrite P3, P2.
Qed.

(** *** The checks *)

(** No accepted proposal is the same work as a task of the repository that was
    saved and is neither cancelled nor archived. *)
Definition all_new (proposals : list Proposal) (db : Db) : Prop := forall p t,
  p ∈ accepted_of proposals -> t ∈ tasks_of db ->
  EqualASCII (Config_GitHubRepo (Task_Config t)) (Config_GitHubRepo cfg) = true -> Archived t = false ->
  SameWork (Task_Proposal t) p = true -> Task_Status t = StatusCancelled.
(** What the checks found of the proposals, and the saved tasks they looked
    at. *)
Record admitted (l : list plan_act) (c : Cycle) (grounding : Grounding) (requests : list rediscoveryRequest)
    (seeded : list OperatorRequest) (proposals : list Proposal) : Prop := {
  admitted_plan : exists db, Looked db ∈ l /\ all_new proposals db
    /\ plan_acceptable cfg proposals grounding (DuplicateTasks (Config_GitHubRepo cfg) proposals db);
  admitted_memory : validateDecisionMemory proposals (mkDecisionMemory [] requests
    (list_to_set (map Request_ProposalID seeded))) = Ok tt;
  admitted_rediscoveries : Cycle_Mode c = CycleModeExecution -> checkRediscoveries requests proposals = Ok tt;
  admitted_requests : checkOperatorRequests seeded proposals = Ok tt }.
Lemma runs_enforceDecisionMemory c grounding proposals requests operator (R : unit -> Cycle -> list plan_act -> Prop) :
  (forall l, validateDecisionMemory proposals (mkDecisionMemory [] requests operator) = Ok tt -> R tt c l) ->
  runs c (enforceDecisionMemory cfg grounding proposals requests operator) R.
Proof.
  intros F w <-. destruct (proceeds_enforceDecisionMemory (X := Cycle) quiet quiet_requests cfg grounding proposals requests operator) as [K C].
  destruct (C w) as [C1 C2], (K w) as (new & E & Q). exists new. split; [done|]. split; [done|]. split; [by rewrite C2|].
  unfold enforceDecisionMemory, m_bind, lifted, m_lift in *.
  destruct (validateDecisionMemory _ _) as [[]|]; [|done]. simpl in *. rewrite C2. destruct (fst _) as [[]|]; [by apply F|done].
Qed.
Lemma runs_admit_proposals c memory seeded proposals grounding (R : unit -> Cycle -> list plan_act -> Prop) :
  Cycle_Grounding c = Some grounding ->
  (forall l, admitted l c grounding (memory_requests memory) seeded proposals -> R tt c l) ->
  runs c (admit_proposals cfg memory seeded proposals) R.
Proof.
  intros G F. unfold admit_proposals. apply runs_bind. eapply runs_own_grounding; [exact G|].
  apply runs_bind, runs_looked. intros db. apply runs_bind. unfold valid_proposals.
  destruct (validateProposals _ _ _ _) as [[[]|]|] eqn:V; [|by apply runs_fail..]. apply validateProposals_spec in V. apply runs_ret.
  apply runs_bind, runs_enforceDecisionMemory. intros l M. apply runs_bind, runs_own, runs_bind.
  assert (forall R' : unit -> Cycle -> list plan_act -> Prop,
    (forall l, (Cycle_Mode c = CycleModeExecution -> checkRediscoveries (memory_requests memory) proposals = Ok tt) -> R' tt c l) ->
    runs c (if executing c then lifted (checkRediscoveries (memory_requests memory) proposals) else m_ret tt) R') as Re.
  { intros R' F'. unfold executing. case_bool_decide; [|by apply runs_ret, F']. apply runs_lifted. intros [] Re. by apply F'. }
  apply Re. intros l' Rd. apply runs_lifted. intros [] O. apply F. split; [|done..]. exists db. split; [set_solver|]. split; [|done].
  intros p t. by eapply acceptable_new.
Qed.

(** *** The commit *)

(** [commits c m Q]: begun with the cycle [c], [m] either succeeds, and has
    committed one plan, which satisfies [Q] and is saved, or fails, and has
    committed nothing. *)
Definition one_commit (Q : list plan_act -> Commit -> Prop) (w w' : Planner) (r : result unit failure) : Prop :=
  exists new, ac_deeds w' = ac_deeds w ++ new /\
  match r with
  | Ok _ => exists before x after, new = before ++ Committed x :: after /\ quiet before /\ quiet after /\ Q before x
      /\ db_cycles (app_db (ac_app w')) !! Cycle_ID (ac_own w) = Some (commit_cycle x)
  | Err err => quiet new /\ calm (A := unit) (Err err)
  end.
Definition commits (c : Cycle) (m : Pl unit) (Q : list plan_act -> Commit -> Prop) : Prop := forall w, ac_own w = c ->
  same_cycle c (ac_own (snd (m w))) /\ one_commit Q w (snd (m w)) (fst (m w)).
Lemma commits_bind {A} c (m : Pl A) (k : A -> Pl unit) (Q : list plan_act -> Commit -> Prop) :
  runs c m (fun x c1 l => commits c1 (k x) (fun before y => Q (l ++ before) y)) -> commits c (m_bind m k) Q.
Proof.
  intros S w E. destruct (S w E) as (new & N & O & Sa & K). unfold m_bind. destruct (m w) as [[x|err] w1]; simpl in *; [|split; [done|]; by exists new].
  destruct (K w1 eq_refl) as (Sb & more & N2 & O2). split; [by etrans|]. exists (new ++ more). rewrite N2, N, app_assoc. split; [done|].
  destruct (fst (k x w1)) as [[]|err]; [|destruct O2; split; [by apply quiet_app|done]].
  destruct O2 as (before & y & after & -> & Qb & Qa & Qy & Sv). exists (new ++ before), y, after.
  rewrite <- app_assoc. split_and!; [done|by apply quiet_app|done..|]. rewrite E, <- (same_id _ _ Sa). exact Sv.
Qed.
Lemma commits_fail c err Q : calm (A := unit) (Err err) -> commits c (m_fail err) Q.
Proof. intros C w <-. split; [done|]. exists []. split; [by rewrite app_nil_r|by split; [constructor|]]. Qed.
(** A program under the gate that returns, and leaves the cycles, the worker's
    claim and a recovery barrier as they are. *)
Record rests (w w' : Planner) : Prop := {
  rests_own : ac_own w' = ac_own w; rests_deeds : ac_deeds w' = ac_deeds w;
  rests_cycles : db_cycles (app_db (ac_app w')) = db_cycles (app_db (ac_app w));
  rests_claim : rt_cycle (app_runtime (ac_app w')) = rt_cycle (app_runtime (ac_app w));
  rests_barrier : is_Some (rt_activeRecoveryError (app_runtime (ac_app w))) -> is_Some (rt_activeRecoveryError (app_runtime (ac_app w'))) }.
#[local] Instance rests_preorder : PreOrder rests.
Proof. split; [by split|]. intros a b c [] []. split; first [congruence|auto]. Qed.
Definition resting {A} (m : Pl A) : Prop := forall w, is_ok (fst (m w)) = true /\ rests w (snd (m w)).
Lemma resting_bind {A B} (m : Pl A) (k : A -> Pl B) : resting m -> (forall x, resting (k x)) -> resting (m_bind m k).
Proof.
  intros S K w. destruct (S w) as [O R]. unfold m_bind. destruct (m w) as [[x|err] w1]; [|done].
  destruct (K x w1) as [O2 R2]. split; [done|by etrans].
Qed.
Lemma resting_ret {A} (x : A) : resting (m_ret x).
Proof. by intros w. Qed.
Lemma resting_read {A} (f : Planner -> A) : resting (m_read f).
Proof. by intros w. Qed.
(** An access that touches none of these, if it is not refused. *)
Definition gentle {A} (m : M A) : Prop := forall a, let '(_, a') := m a in
  db_cycles (app_db a') = db_cycles (app_db a) /\ rt_cycle (app_runtime a') = rt_cycle (app_runtime a)
  /\ (is_Some (rt_activeRecoveryError (app_runtime a)) -> is_Some (rt_activeRecoveryError (app_runtime a'))).
(** It does not panic, and may fail. *)
Definition easy {A} (m : Pl A) : Prop := forall w, calm (fst (m w)) /\ rests w (snd (m w)).
Lemma easy_bind {A B} (m : Pl A) (k : A -> Pl B) : easy m -> (forall x, easy (k x)) -> easy (m_bind m k).
Proof.
  intros S K w. destruct (S w) as [O R]. unfold m_bind. destruct (m w) as [[x|err] w1]; [|done].
  destruct (K x w1) as [O2 R2]. split; [done|by etrans].
Qed.
Lemma easy_held {A} (m : M A) : gentle m -> calm_op m -> easy (held m).
Proof.
  intros G C w. specialize (G (ac_app w)). specialize (C (ac_app w)). unfold held.
  destruct (m (ac_app w)) as [r a]. split; [done|]. by destruct G as (? & ? & ?).
Qed.
Lemma resting_try {A} (m : Pl A) : easy m -> resting (m_try m).
Proof. intros S w. destruct (S w) as [C R]. unfold m_try. by destruct (m w) as [[x|[]] w1]. Qed.
Lemma gentle_bind {A B} (m : M A) (k : A -> M B) : gentle m -> (forall x, gentle (k x)) -> gentle (m_bind m k).
Proof.
  intros S K a. specialize (S a). unfold m_bind. destruct (m a) as [[x|err] a1]; [|done]. specialize (K x a1).
  destruct (k x a1) as [r a2], S as (E1 & E2 & E3), K as (F1 & F2 & F3). split_and!; [congruence..|auto].
Qed.
Lemma gentle_store {A} (op : Db -> outcome A) : (forall db, db_cycles (snd (op db)) = db_cycles db) -> gentle (m_store op).
Proof. intros F a. unfold m_store. specialize (F (app_db a)). by destruct (op _) as [[x|err] db]. Qed.
Lemma gentle_Event entity kind message : gentle (Event s entity kind message).
Proof. apply gentle_bind; [done|]. intros now. by apply gentle_store. Qed.
Lemma easy_broken {A} (m : M A) : gentle m -> calm_op m ->
  easy (go! n <- m_read ac_turns in held (match broken n with Some err => m_fail (Failed err) | None => m end)).
Proof. intros G C w. apply (easy_held (match broken (ac_turns w) with Some err => m_fail (Failed err) | None => m end)); by destruct (broken _). Qed.
Lemma resting_event entity kind message : resting (event s true entity kind message).
Proof.
  apply resting_bind; [apply resting_read|]. intros n. apply resting_bind; [|intros; apply resting_ret]. apply resting_try.
  destruct (broken n); [by apply easy_held|]. apply easy_held; [apply gentle_Event|apply calm_Event].
Qed.
Lemma resting_request_events cycle requests : resting (request_events s cycle requests).
Proof.
  induction requests as [|u requests IH]; cbn [request_events]; [apply resting_ret|]. apply resting_bind; [|done].
  destruct (OperatorRequest_Assessment _); [apply resting_event|apply resting_ret].
Qed.
(** What a plan that is committed was checked to be. *)
Definition planned_as (cycle : Cycle) (grounding : Grounding) (ids : gmap string string) (p : Proposal) (t : Task) : Prop :=
  exists dependencies target now,
    renamed_dependencies ids (Proposal_Dependencies p) = Ok dependencies
    /\ resolveTarget cfg (Grounding_PRs grounding) (Proposal_Target p) = Ok target
    /\ t = newPlannedTask cfg cycle grounding p (p <| Proposal_Dependencies := dependencies |>)
             (default "" (ids !! Proposal_ID p)) target now.
Lemma runs_task_ids c ids proposals (R : gmap string string -> Cycle -> list plan_act -> Prop) :
  (forall ids l, R ids c l) -> runs c (task_ids ids proposals) R.
Proof.
  intros F. apply runs_proceeds; [|done]. clear F R. revert ids. induction proposals as [|p proposals IH]; intros ids; cbn [task_ids]; acting.
Qed.
Lemma runs_planned_tasks c cycle grounding ids proposals (R : list Task -> Cycle -> list plan_act -> Prop) :
  (forall l, Forall2 (planned_as cycle grounding ids) (accepted_of proposals) l -> forall l', R l c l') ->
  runs c (planned_tasks cfg cycle grounding ids proposals) R.
Proof.
  revert R. induction proposals as [|p proposals IH]; intros R F; cbn [planned_tasks]; [by apply runs_ret, F|].
  unfold accepted_of in F. cbn [List.filter] in F. destruct (bool_decide (Proposal_Decision p = _)); cbn [negb]; [|by apply IH].
  apply runs_bind, runs_lifted. intros dependencies D. apply runs_bind, runs_lifted. intros target Tg.
  apply runs_bind, runs_proceeds; [apply (proceeds_now_text _)|]. intros now l0. apply runs_bind, IH. intros l L l1.
  apply runs_ret, F. constructor; [|done]. by exists dependencies, target, now.
Qed.
Lemma runs_complete_cycle c (R : Cycle -> Cycle -> list plan_act -> Prop) :
  (forall completed l, let c' := c <| Cycle_Status := plannedStatus (Cycle_Proposals c) |> <| Cycle_CompletedAt := Some completed |> in R c' c' l) ->
  runs c complete_cycle R.
Proof.
  intros F. unfold complete_cycle. apply runs_bind, runs_proceeds; [apply (proceeds_now_text _)|]. intros completed l. runs_go. apply F.
Qed.
Lemma runs_recordDecisions c grounding (R : list DecisionRecord -> Cycle -> list plan_act -> Prop) :
  Cycle_Grounding c = Some grounding ->
  (forall l, Forall2 (records cfg c) (List.filter (decision_recorded cfg (Cycle_Proposals c)) (Cycle_Proposals c)) l -> forall l', R l c l') ->
  runs c (recordDecisions cfg c) R.
Proof.
  intros G F w <-. unfold recordDecisions. rewrite G.
  destruct (record_each_spec (X := Cycle) quiet quiet_requests cfg (ac_own w) grounding (Cycle_Proposals (ac_own w)) w) as (new & E & Q & O & S).
  exists new. split; [done|]. split; [done|]. split; [by rewrite O|]. rewrite O. by destruct (fst _); [apply F|].
Qed.
Lemma commits_commitPlan c tasks requests (Q : list plan_act -> Commit -> Prop) :
  (forall a db, CommitPlan s None c tasks requests (app_db a) = (Ok tt, db) -> forall l, Q l (mkCommit a c tasks requests)) ->
  commits c (commitPlan s tasks requests) Q.
Proof.
  intros F. unfold commitPlan. apply commits_bind, runs_own. apply commits_bind, runs_proceeds; [apply (proceeds_lock _)|]. intros _ l1.
  apply commits_bind, runs_proceeds; [by apply (proceeds_held _)|]. intros [|] l2; [by apply commits_fail|].
  apply commits_bind, runs_proceeds; [by apply (proceeds_held _)|]. intros stop l3 w <-.
  unfold stored, m_bind, m_read, enter, held. destruct (broken (ac_turns w)) as [err|]; cbn.
  { split; [done|]. exists []. split; [by rewrite app_nil_r|by split; [constructor|]]. }
  unfold m_store. destruct (CommitPlan _ _ _ _ _ _) as [[[]|err] db] eqn:C; cbn.
  2: { split; [done|]. exists []. split; [by rewrite app_nil_r|by split; [constructor|]]. }
  destruct stop; [done|].
  match goal with |- context [request_events s _ _ ?w1] => destruct (resting_request_events (ac_own w) requests w1) as [Ok_ [O D Cy _ _]] end.
  cbn in O, D, Cy. split; [by rewrite O|]. eexists. split; [exact D|].
  destruct (fst _) as [[]|]; [|done]. eexists [], _, []. split_and!; [done|constructor|constructor|by eapply F|].
  rewrite Cy. by eapply CommitPlan_saves.
Qed.
(** A commit of the proposals of [c]. *)
Record committed_as (c : Cycle) (grounding : Grounding) (proposals : list Proposal) (seeded dismissed : list OperatorRequest)
    (x : Commit) : Prop := {
  committed_same : same_cycle c (commit_cycle x);
  committed_grounding : Cycle_Grounding (commit_cycle x) = Some grounding;
  committed_assessments : Cycle_Assessments (commit_cycle x) = Cycle_Assessments c;
  committed_proposals : Cycle_Proposals (commit_cycle x) = proposals;
  committed_status : Cycle_Status (commit_cycle x) = plannedStatus proposals;
  committed_decisions : Forall2 (records cfg (commit_cycle x)) (List.filter (decision_recorded cfg proposals) proposals)
    (Cycle_DecisionMemory (commit_cycle x));
  committed_tasks : exists ids now,
    match Cycle_Mode (commit_cycle x) with
    | CycleModeAudit => ids = ∅ /\ commit_tasks x = []
    | CycleModeExecution => Forall2 (planned_as (commit_cycle x) grounding ids) (accepted_of proposals) (commit_tasks x)
    end /\ commit_requests x = requestSettlements redact_text (commit_cycle x) seeded dismissed ids now;
  committed_saved : exists db,
    CommitPlan s None (commit_cycle x) (commit_tasks x) (commit_requests x) (app_db (commit_app x)) = (Ok tt, db);
}.
Lemma records_same c c' p d : same_cycle c c' -> records cfg c p d -> records cfg c' p d.
Proof.
  intros [I M _ _] (revision & fingerprint & after & ->). exists revision, fingerprint, after. unfold decision_record. by rewrite I, M.
Qed.
Lemma planned_as_same c c' grounding ids p t : same_cycle c c' -> planned_as c grounding ids p t -> planned_as c' grounding ids p t.
Proof.
  intros [I _ R _] (dependencies & target & now & D & Tg & ->). exists dependencies, target, now. split_and!; [done..|].
  unfold newPlannedTask. by rewrite I, R.
Qed.
Lemma commits_commit_proposals c grounding proposals seeded dismissed (Q : list plan_act -> Commit -> Prop) :
  Cycle_Grounding c = Some grounding -> (forall x l, committed_as c grounding proposals seeded dismissed x -> Q l x) ->
  commits c (commit_proposals s cfg proposals seeded dismissed) Q.
Proof.
  intros G F. unfold commit_proposals. apply commits_bind, runs_set; [by split|]. apply commits_bind, runs_own, commits_bind.
  eapply runs_recordDecisions; [exact G|]. intros decisions Ds l1. apply commits_bind, runs_set; [by split|].
  set (c1 := c <| Cycle_Proposals := proposals |> <| Cycle_DecisionMemory := decisions |>).
  assert (forall completed, let c2 := c1 <| Cycle_Status := plannedStatus (Cycle_Proposals c1) |> <| Cycle_CompletedAt := Some completed |> in
    same_cycle c c2 /\ Forall2 (records cfg c2) (List.filter (decision_recorded cfg proposals) proposals) decisions) as K.
  { intros completed c2. split; [by split|]. eapply Forall2_impl; [exact Ds|]. intros p d. by apply records_same. }
  unfold audit. destruct (bool_decide (Cycle_Mode _ = _)) eqn:A; bool_hyps.
  - apply commits_bind, runs_complete_cycle. intros completed l2 c2. destruct (K completed) as [S2 D2].
    apply commits_bind, runs_proceeds; [apply (proceeds_now_text _)|]. intros now l3. apply commits_commitPlan. intros a db Sv l4.
    apply F. split; try done; [|by exists db]. exists ∅, now. simpl. change (Cycle_Mode c2) with (Cycle_Mode c).
    by rewrite (A : Cycle_Mode c = _).
  - unfold commitTasks. apply commits_bind, runs_own. change (Cycle_Grounding c1) with (Cycle_Grounding c). rewrite G.
    apply commits_bind, runs_task_ids. intros ids l2. apply commits_bind, runs_planned_tasks. intros l L l3.
    apply commits_bind, runs_complete_cycle. intros completed l4 c2. destruct (K completed) as [S2 D2].
    apply commits_bind, runs_proceeds; [apply (proceeds_now_text _)|]. intros now l5. apply commits_commitPlan. intros a db Sv l6.
    apply F. split; try done; [|by exists db]. exists ids, now. split; [|done]. simpl. change (Cycle_Mode c2) with (Cycle_Mode c).
    change (Cycle_Mode c <> CycleModeAudit) in A. destruct (Cycle_Mode c); [|done]. eapply Forall2_impl; [exact L|]. intros p t. apply planned_as_same. by split.
Qed.
(** *** The plan *)

(** What a committed plan was made from: the rediscoveries recalled and their
    saved tasks, the requests seeded and dismissed, what the discovery agents
    proposed, and what the orchestrator returned. *)
Record sources := mkSources {
  src_requests : list rediscoveryRequest; src_olds : list Task;
  src_seeded : list OperatorRequest; src_dismissed : list OperatorRequest;
  src_discovered : list ProposalDocument; src_returned : ProposalDocument }.
Definition candidates_of (c0 : Cycle) (src : sources) : list Proposal :=
  Cycle_Proposals c0 ++ map rediscovery_proposal (src_olds src)
  ++ map (seeded_proposal redact_text) (src_seeded src) ++ proposals_of (src_discovered src).
(** What a plan was checked to be before it was committed, begun with the cycle
    [c0], after the deeds [l]. *)
Record plan_checked (c0 : Cycle) (l : list plan_act) (x : Commit) (src : sources) (grounding : Grounding) : Prop := {
  checked_same : same_cycle c0 (commit_cycle x);
  checked_grounding : Cycle_Grounding (commit_cycle x) = Some grounding;
  checked_status : Cycle_Status (commit_cycle x) = plannedStatus (Cycle_Proposals (commit_cycle x));
  checked_recalled : Recalled (src_requests src) ∈ l
    /\ exists db, src_requests src = RediscoveryRequests (Config_GitHubRepo cfg) db;
  checked_rediscovered : match Cycle_Mode c0 with
    | CycleModeExecution => rediscovered l (src_requests src) (src_olds src)
    | CycleModeAudit => src_olds src = [] end;
  checked_seeds : seeds_of l grounding (Cycle_Proposals c0 ++ map rediscovery_proposal (src_olds src))
    (src_seeded src) (src_dismissed src);
  checked_discovered : Forall (discovered l) (src_discovered src);
  checked_reviews : exists reviews, Forall2 (assessed (candidates_of c0 src) l) ReviewerSlots reviews
    /\ Cycle_Assessments (commit_cycle x) = Cycle_Assessments c0 ++ map assessment_json reviews;
  checked_returned : checkConsolidation (candidates_of c0 src) (ProposalDocument_Proposals (src_returned src)) = Ok tt
    /\ Cycle_Proposals (commit_cycle x) = map identified (ProposalDocument_Proposals (src_returned src));
  checked_work : exists roles checks db, l = roles ++ checks /\ consolidated roles (src_returned src) /\ Looked db ∈ checks
    /\ all_new (Cycle_Proposals (commit_cycle x)) db
    /\ plan_acceptable cfg (Cycle_Proposals (commit_cycle x)) grounding
         (DuplicateTasks (Config_GitHubRepo cfg) (Cycle_Proposals (commit_cycle x)) db);
  checked_memory : validateDecisionMemory (Cycle_Proposals (commit_cycle x)) (mkDecisionMemory [] (src_requests src)
      (list_to_set (map Request_ProposalID (src_seeded src)))) = Ok tt
    /\ (Cycle_Mode (commit_cycle x) = CycleModeExecution ->
          checkRediscoveries (src_requests src) (Cycle_Proposals (commit_cycle x)) = Ok tt)
    /\ checkOperatorRequests (src_seeded src) (Cycle_Proposals (commit_cycle x)) = Ok tt;
  checked_decisions : Forall2 (records cfg (commit_cycle x))
    (List.filter (decision_recorded cfg (Cycle_Proposals (commit_cycle x))) (Cycle_Proposals (commit_cycle x)))
    (Cycle_DecisionMemory (commit_cycle x));
  checked_tasks : exists ids now, match Cycle_Mode (commit_cycle x) with
    | CycleModeAudit => ids = ∅ /\ commit_tasks x = []
    | CycleModeExecution =>
        Forall2 (planned_as (commit_cycle x) grounding ids) (accepted_of (Cycle_Proposals (commit_cycle x))) (commit_tasks x)
    end /\ commit_requests x = requestSettlements redact_text (commit_cycle x) (src_seeded src) (src_dismissed src) ids now;
  checked_saved : exists db,
    CommitPlan s None (commit_cycle x) (commit_tasks x) (commit_requests x) (app_db (commit_app x)) = (Ok tt, db);
}.
Notation plan := (plan s live_config Fingerprint preflight TaskPage Secrets encoded_length cfg).
Lemma commits_plan c : commits c plan (fun l x => exists src grounding, plan_checked c l x src grounding).
Proof.
  unfold Planning.plan. apply commits_bind, runs_prepare.
  intros memory seeded dismissed context c1 l1 grounding olds [S1 G1 A1 Rc O1 Se1 P1].
  apply commits_bind. eapply runs_propose; [exact G1|]. intros documents returned c2 l2 [S2 G2 Dd (reviews & Rv & A2) (d & Co & -> & Ch)].
  rewrite G1 in G2. apply commits_bind. eapply runs_admit_proposals; [exact G2|].
  intros l3 [(db & Lk & New & V) M Re Rq]. eapply commits_commit_proposals; [exact G2|].
  intros x l4 [S3 G3 A3 P3 St Ds Ts Sv]. rewrite <- P3 in *.
  assert (same_cycle c (commit_cycle x)) as S by (etrans; [exact S1|]; etrans; [exact S2|exact S3]).
  exists (mkSources (memory_requests memory) olds seeded dismissed documents d), grounding.
  assert (Cycle_Proposals c1 ++ proposals_of documents = candidates_of c (mkSources (memory_requests memory) olds seeded dismissed documents d))
    as Cd by (unfold candidates_of; simpl; by rewrite P1, <- !app_assoc).
  rewrite Cd in Ch, Rv. split; simpl; try done.
  - destruct Rc as [Rc Rd]. split; [set_solver|done].
  - destruct (Cycle_Mode c); try exact O1. eapply rediscovered_mono; [|exact O1]. set_solver.
  - eapply seeds_of_mono; [|exact Se1]. set_solver.
  - eapply Forall_impl; [exact Dd|]. intros e. apply discovered_mono. set_solver.
  - exists reviews. split; [|by rewrite A3, A2, A1]. eapply Forall2_impl; [exact Rv|]. intros slot e. apply assessed_mono. set_solver.
  - exists (l1 ++ l2), (l3 ++ l4), db. split_and!; [by rewrite <- app_assoc| |set_solver|done..].
    eapply consolidated_mono; [|exact Co]. set_solver.
  - split; [done|]. split; [|done]. intros E. apply Re. by rewrite <- (same_mode _ _ S3).
Qed.

(** *** The end of the cycle *)

Lemma gentle_recovery_error err : gentle (setRecoveryError err).
Proof. by intros a. Qed.
Lemma resting_recovery_error err : resting (recovery_error err).
Proof.
  destruct err as [err|]; [|apply resting_ret]. apply resting_bind; [|intros; apply resting_ret].
  intros w. split; [done|]. by apply easy_held; [apply gentle_recovery_error|].
Qed.
Lemma easy_stored {A} (op : Db -> outcome A) : (forall db, db_cycles (snd (op db)) = db_cycles db) -> easy (stored true op).
Proof. intros F. apply easy_broken; [by apply gentle_store|apply calm_store]. Qed.
Lemma gentle_invalidatePRs : gentle invalidatePRs.
Proof. intros a. unfold invalidatePRs, m_write. by destruct (rt_prRefresh _). Qed.
Lemma easy_save_control control : easy (save_control s control).
Proof. by apply easy_stored. Qed.
Lemma resting_save_control control : resting (go! _ <- m_try (save_control s control) in m_ret tt).
Proof. apply resting_bind; [apply resting_try, easy_save_control|]. intros r. apply resting_ret. Qed.
Lemma resting_pause_failed control message : resting (pause_failed s control message).
Proof.
  apply resting_bind; [|intros r; apply resting_recovery_error]. apply resting_try, easy_bind; [apply easy_save_control|].
  intros _. by apply easy_held; [apply gentle_invalidatePRs|].
Qed.
Lemma resting_settle_control cycle err control : resting (settle_control s cfg cycle err control).
Proof.
  unfold settle_control. apply resting_bind.
  { destruct (negb (executing cycle)); [apply resting_ret|]. apply resting_bind; [|intros; apply resting_ret].
    intros w. split; [done|]. by apply easy_held. }
  intros control'. apply resting_bind.
  - destruct (redact_error <$> err); [destruct (_ && _); [apply resting_pause_failed|]|]; apply resting_save_control.
  - intros _. destruct (redact_error <$> err); [apply resting_event|apply resting_ret].
Qed.
(** The worker's last step: it returns, its claim is gone, and a failed save is
    a recovery barrier. *)
Definition released (id : string) (w : Planner) : Prop :=
  forall job, rt_cycle (app_runtime (ac_app w)) = Some job -> cycleJob_id job <> id.
Definition barrier (w : Planner) : Prop := is_Some (rt_activeRecoveryError (app_runtime (ac_app w))).
Lemma release_cycle_spec id r :
  match rt_cycle (release_cycle id r) with Some job => cycleJob_id job <> id | None => True end
  /\ rt_activeRecoveryError (release_cycle id r) = rt_activeRecoveryError r.
Proof. unfold release_cycle. destruct (rt_cycle r) as [job|] eqn:E; [|by rewrite E]. case_bool_decide; [done|]. by rewrite E. Qed.
Lemma wp_resting {A} (m : Pl A) (Q : result A failure -> Planner -> Prop) w :
  resting m -> (forall x w', rests w w' -> Q (Ok x) w') -> wp m Q w.
Proof. intros S F. unfold wp. destruct (S w) as [O R]. destruct (fst (m w)); [by apply F|done]. Qed.
Lemma recovery_error_barrier err w : isSome err = true -> barrier (snd (recovery_error err w)).
Proof. destruct err; [|done]. intros _. by eexists. Qed.
Lemma finish_cycle_run shuttingDown err terminalErr w :
  wp (finish_cycle s cfg shuttingDown err terminalErr) (fun r w' =>
    r = Ok tt /\ ac_own w' = ac_own w /\ ac_deeds w' = ac_deeds w
    /\ db_cycles (app_db (ac_app w')) = db_cycles (app_db (beside (ac_turns w) (ac_app w)))
    /\ released (Cycle_ID (ac_own w)) w' /\ (isSome terminalErr = true -> barrier w')) w.
Proof.
  apply wp_bind. set (w1 := snd (lock w)). change (wp lock ?Q w) with (Q (Ok tt) w1). cbv beta iota.
  apply wp_bind. pose proof (recovery_error_barrier terminalErr w1) as B1.
  destruct (resting_recovery_error terminalErr w1) as [O1 R1]. unfold wp at 1.
  destruct (recovery_error terminalErr w1) as [[[]|] w2]; [|done]. cbn [fst snd] in *.
  apply wp_bind. change (wp own ?Q w2) with (Q (Ok (ac_own w2)) w2). cbv beta iota.
  apply wp_bind. set (w3 := snd (held (m_update (release_cycle (Cycle_ID (ac_own w2)))) w2)).
  change (wp (held _) ?Q w2) with (Q (Ok tt) w3). cbv beta iota.
  destruct (release_cycle_spec (Cycle_ID (ac_own w2)) (app_runtime (ac_app w2))) as [Re Ke]. destruct R1 as [Ow1 D1 C1 _ _].
  apply wp_resting.
  { apply resting_bind; [by apply resting_try, easy_broken|]. intros [control|loadErr]; [|apply resting_recovery_error].
    destruct shuttingDown; [apply resting_ret|apply resting_settle_control]. }
  intros [] w' [Ow4 D4 C4 J4 B4]. split_and!.
  - done.
  - etrans; [exact Ow4|exact Ow1].
  - etrans; [exact D4|exact D1].
  - etrans; [exact C4|exact C1].
  - intros job E. rewrite J4 in E. change (rt_cycle (app_runtime (ac_app w3))) with (rt_cycle (release_cycle (Cycle_ID (ac_own w2)) (app_runtime (ac_app w2)))) in E.
    rewrite E in Re. by rewrite <- (Ow1 : ac_own w2 = ac_own w).
  - intros T. apply B4. change (is_Some (rt_activeRecoveryError (release_cycle (Cycle_ID (ac_own w2)) (app_runtime (ac_app w2))))).
    rewrite Ke. by apply B1.
Qed.
Lemma saveCycle_keeps gated w :
  ac_deeds (snd (saveCycle gated w)) = ac_deeds w /\ same_cycle (ac_own w) (ac_own (snd (saveCycle gated w)))
  /\ calm (fst (saveCycle gated w)).
Proof.
  destruct (runs_saveCycle gated (ac_own w) (fun _ _ _ => True) (fun _ _ _ => I) w eq_refl) as (_ & _ & _ & Sa & Ca).
  split_and!; [|done|destruct (fst (saveCycle gated w)); done].
  assert (keeps (fun l => l = []) (saveCycle gated)) as K.
  { assert (Trace (D := plan_act) (fun l => l = [])) as T by (split; [done|by intros l l' -> ->]).
    apply (keeps_bind _); [apply (keeps_read _)|]. intros cycle. apply (keeps_bind _); [apply (keeps_loaded _)|]. intros current.
    apply (keeps_bind _); [destruct current; [apply (keeps_own _)|apply (keeps_ret _)]|]. intros _.
    apply (keeps_bind _); [apply (keeps_read _)|]. intros c. apply (keeps_stored _). }
  destruct (K w) as (new & E & ->). by rewrite E, app_nil_r.
Qed.
(** A save that succeeds stores the worker's own cycle. *)
Lemma saveCycle_saves gated w :
  wp (saveCycle gated) (fun r w' => match r with
    | Ok _ => db_cycles (app_db (ac_app w')) !! Cycle_ID (ac_own w) = Some (ac_own w') /\ with_sessions (ac_own w) (ac_own w')
    | Err _ => True end) w.
Proof.
  apply wp_bind. change (wp own ?Q w) with (Q (Ok (ac_own w)) w). cbv beta iota. apply wp_bind.
  apply wp_intro. intros [current|err] w1 L; [|done].
  assert (ac_own w1 = ac_own w) as Ow by (pose proof (proj2 (proj2 (proceeds_loaded (X := Cycle) quiet gated (fun db => db_cycles db !! Cycle_ID (ac_own w))) w)) as E; by rewrite L in E).
  apply wp_bind.
  assert (forall w2, with_sessions (ac_own w) (ac_own w2) -> wp (go! cycle <- own in stored gated (fun db => (Ok tt, put_cycle cycle db)))
    (fun r w' => match r with
      | Ok _ => db_cycles (app_db (ac_app w')) !! Cycle_ID (ac_own w) = Some (ac_own w') /\ with_sessions (ac_own w) (ac_own w')
      | Err _ => True end) w2) as K.
  { intros w2 W. apply wp_bind. change (wp own ?Q w2) with (Q (Ok (ac_own w2)) w2). cbv beta iota.
    unfold wp, stored, m_bind, m_read, enter, held, shared. destruct gated, (broken (ac_turns w2)); cbn; try done;
      (rewrite put_cycle_cycles; destruct W as [sessions W]; split; [|by exists sessions]); rewrite W; apply lookup_insert_eq. }
  destruct current as [current|]; [|apply wp_ret, K; rewrite Ow; exists (Cycle_Sessions (ac_own w)); by destruct (ac_own w)].
  change (wp (set_own ?f) ?Q w1) with (Q (Ok tt) (w1 <| ac_own := f (ac_own w1) |>)). cbv beta iota. apply K.
  exists (Cycle_Sessions current). cbn. by rewrite Ow.
Qed.
(** A failed plan is saved, or the error of the save is returned. *)
Lemma fail_cycle_run shuttingDown err w :
  wp (fail_cycle shuttingDown err) (fun r w' => exists terminalErr, r = Ok terminalErr
    /\ same_cycle (ac_own w) (ac_own w') /\ ac_deeds w' = ac_deeds w
    /\ (terminalErr = None -> exists c, db_cycles (app_db (ac_app w')) !! Cycle_ID (ac_own w) = Some c /\ Cycle_Status c <> CycleRunning)) w.
Proof.
  set (failed := fun (cycle : Cycle) completed =>
    (if shuttingDown
     then cycle <| Cycle_Status := CycleInterrupted |> <| Cycle_Error := Some interruptedMsg |>
     else cycle <| Cycle_Status := CycleFailed |> <| Cycle_Error := Some (redact_error err) |>) <| Cycle_CompletedAt := Some completed |>).
  set (a := beside (ac_turns w) (ac_app w)). set (completed := Timestamp (clock (app_reads a))).
  set (w1 := mkActor (failed (ac_own w) completed) (a <| app_reads := S (app_reads a) |>) (ac_asked w) (S (ac_turns w)) (ac_deeds w)).
  change (wp (go! saved <- m_try (saveCycle false) in m_ret (match saved with Ok _ => None | Err err => Some err end))
    (fun r w' => exists terminalErr, r = Ok terminalErr
    /\ same_cycle (ac_own w) (ac_own w') /\ ac_deeds w' = ac_deeds w
    /\ (terminalErr = None -> exists c, db_cycles (app_db (ac_app w')) !! Cycle_ID (ac_own w) = Some c /\ Cycle_Status c <> CycleRunning)) w1).
  assert (same_cycle (ac_own w) (ac_own w1)) as S1 by (unfold w1, failed; by destruct shuttingDown).
  assert (Cycle_Status (ac_own w1) <> CycleRunning) as St by (unfold w1, failed; by destruct shuttingDown).
  destruct (saveCycle_keeps false w1) as (D & Sa & C). pose proof (saveCycle_saves false w1) as Sv. unfold wp at 1 in Sv.
  apply wp_bind, wp_try. unfold wp at 1. destruct (saveCycle false w1) as [[[]|err'] w2]; cbn [fst snd] in *.
  - apply wp_ret. eexists. destruct Sv as [L [sessions W]]. split_and!; [done|by etrans|exact D|]. intros _.
    exists (ac_own w2). rewrite <- (same_id _ _ S1). by rewrite L, W.
  - destruct err'; try done; apply wp_ret; eexists; (split_and!; [done|by etrans|exact D|done]).
Qed.

(** Both ends of a cycle. *)
Notation planCycle := (planCycle s live_config Fingerprint preflight TaskPage Secrets encoded_length cfg).
Definition plan_result (w w' : Planner) : Prop := exists new, ac_deeds w' = ac_deeds w ++ new /\
  (quiet new \/ exists before x after, new = before ++ Committed x :: after /\ quiet before /\ quiet after
    /\ exists src grounding, plan_checked (ac_own w) before x src grounding).
(** The rest of the service leaves the status of a saved cycle alone; the
    sessions of its roles may be appended. *)
Definition keeps_status (id : string) (f : App -> App) : Prop := forall a c, db_cycles (app_db a) !! id = Some c ->
  exists c', db_cycles (app_db (f a)) !! id = Some c' /\ Cycle_Status c' = Cycle_Status c.
Definition saved_terminal (id : string) (w : Planner) : Prop :=
  exists c, db_cycles (app_db (ac_app w)) !! id = Some c /\ Cycle_Status c <> CycleRunning.
Lemma plannedStatus_terminal proposals : plannedStatus proposals <> CycleRunning.
Proof. unfold plannedStatus. by destruct (existsb _ _). Qed.
Lemma finish_saved shuttingDown err terminalErr w id (P : Planner -> Prop) :
  Cycle_ID (ac_own w) = id -> ((forall n, keeps_status id (beside n)) -> saved_terminal id w \/ isSome terminalErr = true) ->
  (forall w', ac_deeds w' = ac_deeds w -> P w') ->
  wp (finish_cycle s cfg shuttingDown err terminalErr) (fun r w' => r = Ok tt /\ P w' /\ released id w'
    /\ ((forall n, keeps_status id (beside n)) -> saved_terminal id w' \/ barrier w')) w.
Proof.
  intros I Sv F. eapply wp_mono; [apply finish_cycle_run|]. intros r w' (-> & Ow & D & C & Re & B). rewrite I in Re.
  split_and!; [done|by apply F|done|]. intros K. destruct (Sv K) as [(c & L & N)|T]; [|right; by apply B]. left.
  destruct (K (ac_turns w) _ _ L) as (c' & L' & E). exists c'. by rewrite C, E.
Qed.
Lemma planCycle_run w :
  let id := Cycle_ID (ac_own w) in
  wp planCycle (fun r w' => r = Ok tt /\ plan_result w w' /\ released id w'
    /\ ((forall n, keeps_status id (beside n)) -> saved_terminal id w' \/ barrier w')) w.
Proof.
  cbv zeta. unfold Planning.planCycle. apply wp_bind, wp_try. destruct (commits_plan (ac_own w) w eq_refl) as (Sa & new & E & O). unfold wp at 1.
  destruct (plan w) as [[[]|err] w1]; cbn [fst snd] in *.
  - destruct O as (before & x & after & Ea & Qb & Qa & (src & grounding & Ck) & Sv). apply finish_saved; [apply (same_id _ _ Sa)| |].
    + intros _. left. exists (commit_cycle x). split; [done|]. rewrite (checked_status _ _ _ _ _ Ck). apply plannedStatus_terminal.
    + intros w' D. exists new. split; [by rewrite D|]. right. exists before, x, after. split_and!; [done..|by exists src, grounding].
  - destruct O as [Q C].
    assert (wp (go! shuttingDown <- shared stopped in
                go! terminalErr <- fail_cycle shuttingDown err in finish_cycle s cfg shuttingDown (Some err) terminalErr)
      (fun r w' => r = Ok tt /\ plan_result w w' /\ released (Cycle_ID (ac_own w)) w'
        /\ ((forall n, keeps_status (Cycle_ID (ac_own w)) (beside n)) -> saved_terminal (Cycle_ID (ac_own w)) w' \/ barrier w')) w1)
      as K; [|by destruct err].
    apply wp_bind. set (w2 := snd (shared stopped w1)). set (down := stops (app_reads (beside (ac_turns w1) (ac_app w1)))).
    change (wp (shared stopped) ?Q w1) with (Q (Ok down) w2). cbv beta iota. apply wp_bind.
    eapply wp_mono; [apply fail_cycle_run|]. intros r w3 (terminalErr & -> & Sb & D3 & Sv).
    change (ac_own w2) with (ac_own w1) in Sb, Sv. rewrite (same_id _ _ Sa) in Sv. apply finish_saved.
    + by rewrite (same_id _ _ Sb), (same_id _ _ Sa).
    + intros _. destruct terminalErr as [e|]; [by right|]. left. by apply Sv.
    + intros w' D. exists new. rewrite D, D3. split; [exact E|by left].
Qed.

(** C3: planning is all or nothing.  Whatever the agents answer, the rest of
    the service does and the store refuses, a cycle writes nothing to the remote
    and commits at most one plan, in one step.  The proposals of a committed
    plan are those the orchestrator returned, unchanged but for their keys; they
    consolidate the candidates of the cycle (the recalled rediscoveries, the
    pending requests that were read and what the discovery agents answered),
    which every reviewer answered an assessment of; none of the accepted ones is
    the same work as a live task of the state that was looked at after the
    orchestrator answered; they meet every rule on plans, keep the requests and
    rediscoveries that were read, and the tasks and settlements are made of
    exactly them. *)
Theorem planCycle_commits w : fst (planCycle w) = Ok tt /\ plan_result w (snd (planCycle w)).
Proof. destruct (planCycle_run w) as (R & P & _). by split. Qed.
(** C8: a planning cycle ends.  It always returns; the worker has given up the
    cycle; and the cycle is saved in a final status, or a recovery barrier
    keeps new work out until it is. *)
Theorem planCycle_settles w :
  (forall n, keeps_status (Cycle_ID (ac_own w)) (beside n)) ->
  let w' := snd (planCycle w) in
  fst (planCycle w) = Ok tt /\ released (Cycle_ID (ac_own w)) w'
  /\ (saved_terminal (Cycle_ID (ac_own w)) w' \/ barrier w').
Proof. intros K. destruct (planCycle_run w) as (R & _ & Re & S). split_and!; [done..|by apply S]. Qed.
End plan_facts.

(** ** A cycle, run *)

#[local] Instance same_rows : Rows := {
  by_rowid := fun rows => rows; by_rowid_perm := reflexivity;
  requests_by_rowid := fun rows => rows; requests_by_rowid_perm := reflexivity }.
#[local] Instance same_cases : TextCases := {| cases_lower := fun s => s |}.
Definition planning_oid : string := "1111111111111111111111111111111111111111".
#[local] Instance planning_machine : Machine := {
  reply := fun A n q => match q in call A return A with
    | RunMachine _ args _ _ _ => Ok (if bool_decide ("ls-remote" ∈ args) then planning_oid +:+ String tab (branch_ref "main") else "")
    | RunPredicate _ _ _ _ _ _ => Ok true | RunText _ _ _ _ _ _ => Ok ("", true)
    | TrustedGitDir _ => Ok "" | MkdirTemp _ => Ok "" | RemoveAll _ => tt | ReadFile _ => Ok "" | ReleaseCheckout _ _ => tt
    | NowText => "2026-01-01T00:00:00Z" | Lstat _ | MkdirAll _ _ | Mkdir _ _ | WriteFile _ _ _ | AcquireCheckout _ _ | CtxErr => None end;
  LookupEnv := fun _ => None; environment := []; NotExist := fun _ => false; ToUpper := fun s => s }.
#[local] Instance no_pages : GitHubJson := {
  decode_pages := fun _ => ([Some []], None); decode_object := fun _ => Err (New "");
  unmarshal_owned := fun _ => None }.
#[local] Instance plain_memory : MemoryJson := {
  generic_map := fun _ => Ok ∅; marshal_paths := fun _ => Ok ""; sha256 := fun s => s }.
(** The seeded request is returned as accepted work, and a proposal beside it
    is rejected. *)
Definition requested_work : Proposal :=
  (sample_proposal "request-r1" "main" []) <| Proposal_ID := RequestProposalPrefix +:+ "r1" |>.
Definition other_work (decision : string) : Proposal :=
  (sample_proposal "p-1" "main" []) <| Proposal_Decision := decision |>.
#[local] Instance read_answers : PlanJson := {
  decode_grounding := fun _ => Ok (mkGroundingDocument "The context.");
  decode_proposals := fun answer => Ok (mkProposalDocument
    (if bool_decide (answer = "consolidation") then [other_work DecisionRejected; requested_work] else [other_work DecisionCandidate]));
  decode_assessments := fun _ => Ok (mkAssessmentDocument
    [mkAssessment (Proposal_ID requested_work) DecisionAccepted "sound"; mkAssessment "p-1" DecisionRejected "vague"]);
  assessment_json := fun _ => Types.JNull; marshal_context := fun _ _ _ _ => Ok "{}"; marshal_candidates := fun _ => Ok "[]";
  marshal_reviews := fun _ => Ok "[]"; marshal_tiers := fun _ => Ok "{}" }.
#[local] Instance label_agents : Agents := fun _ label _ _ => Ok label.
#[local] Instance unaccompanied : Company := { beside := fun _ a => a; broken := fun _ => None }.
Definition planning_config : Config := sample_config <| Config_DiscoveryAgents := 1 |>.
Definition planning_db : Db :=
  empty_db <| db_configs := {["config" := planning_config]} |> <| db_cycles := {["cycle-1" := sample_cycle "cycle-1"]} |>
    <| db_requests := {["r1" := sample_request "r1"]} |>.
Definition planning_worker : Actor Cycle plan_act := mkActor (sample_cycle "cycle-1") (new_app planning_db) 0 0 [].
Definition planning_cycle : Actor Cycle plan_act -> result unit failure * Actor Cycle plan_act :=
  planCycle sample_store (fun _ => planning_config) no_fingerprint (fun _ _ => m_ret tt) (fun _ => Types.JArray [])
    (fun s => s) (fun _ => Ok 0) planning_config.
Definition plan_act_name (x : plan_act) : string :=
  match x with Answered label _ _ _ => label | Looked _ | Recalled _ => "" | Committed _ => "commit" | Sent q => if writes_remote q then "wrote" else "" end.
Definition planning_deeds (w : Actor Cycle plan_act) : list string :=
  List.filter (fun name => negb (bool_decide (name = ""))) (map plan_act_name (ac_deeds w)).
Example planning_run :
  let '(r, w) := planning_cycle planning_worker in
  let db := app_db (ac_app w) in
  r = Ok tt
  /\ planning_deeds w = ["grounding"; "discovery-0"; "adversary-a"; "adversary-b"; "consolidation"; "commit"]
  /\ (Cycle_Status <$> db_cycles db) = {["cycle-1" := CycleCompleted]}
  /\ ((fun t => (Task_Status t, Task_SourceRevision t, Proposal_ID (Task_Proposal t))) <$> db_tasks db)
     = {["id" := (StatusQueued, planning_oid, Proposal_ID requested_work)]}
  /\ ((fun r => (OperatorRequest_Status r, OperatorRequest_TaskID r)) <$> db_requests db) = {["r1" := (RequestAccepted, Some "id")]}.
Proof. by vm_compute. Qed.
(** Without the request the reviewers assess a proposal nobody made. *)
Example planning_failed :
  let '(r, w) := planning_cycle (planning_worker <| ac_app := new_app (planning_db <| db_requests := ∅ |>) |>) in
  r = Ok tt
  /\ planning_deeds w = ["grounding"; "discovery-0"; "adversary-a"; "adversary-b"]
  /\ ((fun c => (Cycle_Status c, Cycle_Error c)) <$> db_cycles (app_db (ac_app w))) = {["cycle-1" := (CycleFailed, Some "error")]}
  /\ db_tasks (app_db (ac_app w)) = ∅.
Proof. by vm_compute. Qed.
Lemma nobody_preflights (c : Config) (audit : bool) : calm_op (A := unit) ((fun _ _ => m_ret tt) c audit).
Proof. done. Qed.
Lemma planCycle_commits_witness :
  (forall c audit, calm_op (A := unit) ((fun (_ : Config) (_ : bool) => m_ret tt) c audit))
  /\ Config_MaintenanceEveryCycles planning_config <> 0
  /\ fst (planning_cycle planning_worker) = Ok tt
  /\ plan_result sample_store planning_config planning_worker (snd (planning_cycle planning_worker)).
Proof.
  split; [exact nobody_preflights|]. split; [done|].
  apply (planCycle_commits sample_store (fun _ => planning_config) no_fingerprint (fun _ _ => m_ret tt) (fun _ => Types.JArray [])
    (fun s => s) (fun _ => Ok 0) nobody_preflights planning_config).
  done.
Defined.
Lemma alone_keeps_status (n : nat) : keeps_status "cycle-1" (beside n).
Proof. intros a c L. by exists c. Qed.
Lemma planCycle_settles_witness :
  let w := snd (planning_cycle planning_worker) in
  (forall n, keeps_status "cycle-1" (beside n))
  /\ fst (planning_cycle planning_worker) = Ok tt /\ released "cycle-1" w /\ (saved_terminal "cycle-1" w \/ barrier w).
Proof.
  split; [exact alone_keeps_status|].
  apply (planCycle_settles sample_store (fun _ => planning_config) no_fingerprint (fun _ _ => m_ret tt) (fun _ => Types.JArray [])
    (fun s => s) (fun _ => Ok 0) nobody_preflights planning_config); [done|exact alone_keeps_status].
Defined.
