(* ===== verification/Outbox.v ===== *)
(** * The notification outbox ([internal/store/notifications.go], [chat.go])

    What needs an operator's attention is queued, one row for each enabled
    destination, by the triggers of [schema.sql]; a worker of each destination
    claims the rows that are due and records how their delivery ended.  The
    tables here are those of the outbox alone; the rows are in the order of
    their sequence numbers. *)
From S2P Require Import Prelude GoStrings WireJson Enums Types GoErrors Config GoTime Model.
Local Open Scope string_scope.
Local Open Scope list_scope.
Local Open Scope Z_scope.

(** ** The tables *)

Inductive RowStatus := RowPending | RowDelivered | RowFailed | RowCancelled.
#[export] Instance RowStatus_eq_dec : EqDecision RowStatus.
Proof. solve_decision. Defined.
(** What a row says: [event_id], the time of the event and its subject. *)
Record Notice := mkNotice {
  Notice_Repository : string; Notice_CycleID : option string; Notice_RunID : option string;
  Notice_TaskID : option string; Notice_Category : string; Notice_Action : string }.
Record OutboxRow := mkOutboxRow {
  Row_Seq : Z; Row_EventID : string; Row_Destination : string; Row_CreatedAt : string; Row_Notice : Notice;
  Row_Status : RowStatus; Row_Attempts : Z; Row_NextAttemptAt : Z; Row_LastAttemptAt : option string;
  Row_DeliveredAt : option string; Row_LastError : option string; Row_HTTPStatus : option Z }.
#[export] Instance eta_OutboxRow : Eta OutboxRow := fun r =>
  mkOutboxRow (Row_Seq r) (Row_EventID r) (Row_Destination r) (Row_CreatedAt r) (Row_Notice r) (Row_Status r)
    (Row_Attempts r) (Row_NextAttemptAt r) (Row_LastAttemptAt r) (Row_DeliveredAt r) (Row_LastError r) (Row_HTTPStatus r).
Record Destination := mkDestination {
  Destination_Kind : string; Destination_Target : string; Destination_Enabled : bool; Destination_Cooldown : Z }.
#[export] Instance eta_Destination : Eta Destination := fun r =>
  mkDestination (Destination_Kind r) (Destination_Target r) (Destination_Enabled r) (Destination_Cooldown r).
Record NotifyPolicy := mkNotifyPolicy {
  Policy_Destination : option string; Policy_Enabled : bool; Policy_State : string; Policy_Error : option string }.
(** [outbox_next] is the next number of [AUTOINCREMENT]. *)
Record Outbox := mkOutbox {
  outbox_rows : list OutboxRow; outbox_next : Z; outbox_destinations : gmap string Destination;
  outbox_policy : option NotifyPolicy }.
#[export] Instance eta_Outbox : Eta Outbox := fun r =>
  mkOutbox (outbox_rows r) (outbox_next r) (outbox_destinations r) (outbox_policy r).
Definition empty_outbox : Outbox := mkOutbox [] 1 ∅ None.

Record NotificationDelivery := mkNotificationDelivery {
  Delivery_Seq : Z; Delivery_EventID : string; Delivery_CreatedAt : string; Delivery_Notice : Notice; Delivery_Attempts : Z }.

Definition maxAttempts : Z := 5.
Definition expiry : Z := 24 * 60 * 60.
Definition retryDelays : list Z := [30; 120; 600; 1800; 1800].

(** [UPDATE notification_outbox SET ... WHERE ...] *)
Definition update_rows (P : OutboxRow -> bool) (f : OutboxRow -> OutboxRow) (o : Outbox) : Outbox :=
  o <| outbox_rows := map (fun r => if P r then f r else r) (outbox_rows o) |>.
Definition is_pending (r : OutboxRow) : bool := bool_decide (Row_Status r = RowPending).
Definition settle_row (status : RowStatus) (why : string) (r : OutboxRow) : OutboxRow :=
  r <| Row_Status := status |> <| Row_LastError := Some why |>.
Definition enabled (o : Outbox) (id : string) : bool :=
  match outbox_destinations o !! id with Some d => Destination_Enabled d | None => false end.

(** ** What is queued ([schema.sql]) *)

Definition attention_status (status : Status) : bool := bool_decide (status ∈ [StatusBlocked; StatusFailed]).
Definition noticed_reasons : list string :=
  ["budget_exhausted"; "storage_limit"; "stale_base"; "remote_conflict"; "publication_uncertain"; "runner_unavailable";
   "invalid_review"; "verification_failed"; "dependency_blocked"; "invalid_plan"; "workspace_invalid"; "retry_limit"; "timeout"].
(** [notify_task_insert] and [notify_task_update]. *)
Definition task_notice (old : option Task) (t : Task) : option Notice :=
  let reached (P : Status -> bool) := P (Task_Status t) && negb (match old with Some old => P (Task_Status old) | None => false end) in
  if reached attention_status || reached (fun status => bool_decide (status = StatusPublished)) then
    let reason := default "" (enum_String <$> Task_BlockedReason t) in
    Some (mkNotice (Config_GitHubRepo (Task_Config t)) (Some (Task_CycleID t)) (Task_RunID t) (Some (Task_ID t))
      (if bool_decide (Task_Status t = StatusPublished) then "task_published" else
       if bool_decide (reason ∈ noticed_reasons) then reason else "unknown") "inspect_task")
  else None.
Definition audited (c : Cycle) : bool :=
  bool_decide (Cycle_Mode c = CycleModeAudit) && bool_decide (Cycle_Status c ∈ [CycleCompleted; CycleIdle]).
(** [notify_cycle_insert] and [notify_cycle_update]. *)
Definition cycle_notice (old : option Cycle) (c : Cycle) : option Notice :=
  let failed := bool_decide (Cycle_Status c = CycleFailed) in
  let was := match old with
             | None => false
             | Some old => if failed then bool_decide (Cycle_Status old = CycleFailed) else audited old
             end in
  if (failed || audited c) && negb was then
    Some (mkNotice (Cycle_Repository c) (Some (Cycle_ID c)) (Cycle_RunID c) None
      (if failed then "cycle_failed" else "audit_completed") "inspect_cycle")
  else None.
Definition paused_on_error (c : Control) : bool := Control_Paused c && isSome (Control_Error c).
(** [notify_control_insert] and [notify_control_update]; [repository] is the one
    the control is for. *)
Definition control_notice (repository : string) (old : option Control) (c : Control) : option Notice :=
  if paused_on_error c && negb (match old with Some old => paused_on_error old | None => false end) then
    Some (mkNotice repository (Control_Batch c ≫= RunBatch_CycleID) (RunBatch_ID <$> Control_Batch c) None
      "service_error_paused" "inspect_service")
  else None.

Definition queueLimit : nat := 1000.
(** The rows of one event, an identity for each destination. *)
Definition new_row (seq : Z) (destination eventID createdAt : string) (epoch : Z) (n : Notice) : OutboxRow :=
  mkOutboxRow seq eventID destination createdAt n RowPending 0 epoch None None None None.
Fixpoint new_rows (seq : Z) (destinations : list string) (eventIDs : nat -> string) (createdAt : string) (epoch : Z) (n : Notice)
    : list OutboxRow :=
  match destinations with
  | [] => []
  | destination :: destinations =>
    new_row seq destination (eventIDs O) createdAt epoch n
    :: new_rows (seq + 1) destinations (fun i => eventIDs (S i)) createdAt epoch n
  end.
(** The newest pending rows are kept. *)
Definition overflowing (o : Outbox) : list Z :=
  drop queueLimit (map Row_Seq (rev (List.filter is_pending (outbox_rows o)))).
Definition add_rows (destinations : list string) (eventIDs : nat -> string) (createdAt : string) (epoch : Z) (n : Notice) (o : Outbox)
    : Outbox :=
  o <| outbox_rows := outbox_rows o ++ new_rows (outbox_next o) destinations eventIDs createdAt epoch n |>
    <| outbox_next := outbox_next o + Z.of_nat (List.length destinations) |>.
Definition enqueue (eventIDs : nat -> string) (createdAt : string) (epoch : Z) (n : Notice) (o : Outbox) : Outbox :=
  let destinations := List.filter (enabled o) (map_to_list (outbox_destinations o)).*1 in
  match destinations with
  | [] => o
  | _ =>
    let o := add_rows destinations eventIDs createdAt epoch n o in
    let over := overflowing o in
    update_rows (fun r => bool_decide (Row_Seq r ∈ over)) (settle_row RowFailed "queue_overflow") o
  end.

(** ** Destinations *)

Definition of_kind (kinds : list string) (o : Outbox) (id : string) : bool :=
  match outbox_destinations o !! id with Some d => bool_decide (Destination_Kind d ∈ kinds) | None => false end.
(** A rotated or disabled webhook cancels its own rows and stays as a tombstone. *)
Definition SetNotifyPolicy (destination : option string) (state : string) (errorText : option string) (o : Outbox) : Outbox :=
  let on := bool_decide (state = "enabled") && isSome destination in
  let superseded id := negb on || negb (bool_decide (Some id = destination)) in
  let o := update_rows (fun r => is_pending r && superseded (Row_Destination r) && of_kind ["webhook"] o (Row_Destination r))
             (settle_row RowCancelled "destination_changed") o in
  let o := o <| outbox_destinations := map_imap (fun id d =>
    Some (if bool_decide (Destination_Kind d = "webhook") && superseded id then d <| Destination_Enabled := false |> else d))
      (outbox_destinations o) |> in
  let o := match destination with
           | Some id =>
             if on then o <| outbox_destinations := <[id := match outbox_destinations o !! id with
               | Some d => d <| Destination_Kind := "webhook" |> <| Destination_Enabled := true |>
               | None => mkDestination "webhook" "" true 0 end]> (outbox_destinations o) |>
             else o
           | None => o
           end in
  o <| outbox_policy := Some (mkNotifyPolicy destination on state errorText) |>.

Record ChatDestination := mkChatDestination { ChatDestination_ID : string; ChatDestination_Kind : string; ChatDestination_Target : string }.
Definition drop_destination (id : string) (o : Outbox) : Outbox :=
  let o := update_rows (fun r => is_pending r && bool_decide (Row_Destination r = id))
             (settle_row RowCancelled "destination_changed") o in
  o <| outbox_destinations := delete id (outbox_destinations o) |>.
Definition put_destination (d : ChatDestination) (o : Outbox) : Outbox :=
  o <| outbox_destinations := <[ChatDestination_ID d :=
    mkDestination (ChatDestination_Kind d) (ChatDestination_Target d) true
      (match outbox_destinations o !! ChatDestination_ID d with Some old => Destination_Cooldown old | None => 0 end)]>
      (outbox_destinations o) |>.
Definition SetChatDestinations (destinations : list ChatDestination) (o : Outbox) : Outbox :=
  let keep := map ChatDestination_ID destinations in
  let removed := List.filter (fun id => of_kind ["slack"; "discord"] o id && negb (bool_decide (id ∈ keep)))
                   (map_to_list (outbox_destinations o)).*1 in
  let o := foldl (fun o id => drop_destination id o) o removed in
  foldl (fun o d => put_destination d o) o destinations.

(** ** Deliveries *)

Section delivery.
(** [unixepoch(created_at)], which is null for a text that is no time. *)
Context (unixepoch : string -> option Z).

Definition due (destination : string) (epoch : Z) (r : OutboxRow) : bool :=
  is_pending r && bool_decide (Row_Destination r = destination) && (Row_NextAttemptAt r <=? epoch).
Definition expired (epoch : Z) (r : OutboxRow) : bool :=
  match unixepoch (Row_CreatedAt r) with Some created => created <? epoch - expiry | None => false end.
(** The destination takes a delivery now. *)
Definition open_for (destination : string) (epoch : Z) (o : Outbox) : bool :=
  match outbox_destinations o !! destination with
  | Some d => Destination_Enabled d && (Destination_Cooldown d <=? epoch)
  | None => false
  end.
Definition delay (attempt : Z) : Z := default 0 (retryDelays !! Z.to_nat (attempt - 1)).
Definition claim_row (now : instant) (r : OutboxRow) : OutboxRow :=
  let attempt := Row_Attempts r + 1 in
  r <| Row_Attempts := attempt |> <| Row_LastAttemptAt := Some (Timestamp now) |>
    <| Row_NextAttemptAt := unix now + delay attempt |>.
(** The last settled rows are kept. *)
Definition prune (retain : nat) (o : Outbox) : Outbox :=
  let settled := map Row_Seq (rev (List.filter (fun r => negb (is_pending r)) (outbox_rows o))) in
  let kept := take retain settled in
  o <| outbox_rows := List.filter (fun r => is_pending r || bool_decide (Row_Seq r ∈ kept)) (outbox_rows o) |>.
(** The rows of the destination that will not be tried again are settled
    first.  [retain] is the setting [retain_events] of the configuration. *)
Definition sweep (destination : string) (epoch : Z) (o : Outbox) : Outbox :=
  let o := update_rows (fun r => due destination epoch r && expired epoch r) (settle_row RowFailed "expired") o in
  update_rows (fun r => due destination epoch r && (maxAttempts <=? Row_Attempts r)) (settle_row RowFailed "delivery_uncertain") o.
Definition ClaimDelivery (retain : nat) (destination : string) (now : instant) (o : Outbox)
    : option NotificationDelivery * Outbox :=
  let epoch := unix now in
  let o := sweep destination epoch o in
  match (if open_for destination epoch o then List.find (due destination epoch) (outbox_rows o) else None) with
  | Some d =>
    (Some (mkNotificationDelivery (Row_Seq d) (Row_EventID d) (Row_CreatedAt d) (Row_Notice d) (Row_Attempts d + 1)),
     prune retain (update_rows (fun r => bool_decide (Row_Seq r = Row_Seq d)) (claim_row now) o))
  | None => (None, prune retain o)
  end.
Definition pending_seq (seq : Z) (r : OutboxRow) : bool := bool_decide (Row_Seq r = seq) && is_pending r.
Definition MarkDelivered (seq : Z) (now : instant) (o : Outbox) : Outbox :=
  update_rows (pending_seq seq) (fun r => r <| Row_Status := RowDelivered |> <| Row_DeliveredAt := Some (Timestamp now) |>
    <| Row_LastError := None |> <| Row_HTTPStatus := None |>) o.
(** The second a deadline is rounded up to; the zero time has none. *)
Definition retry_epoch (retryAt : option instant) : Z :=
  match retryAt with Some at_ => if nanos at_ =? 0 then unix at_ else unix at_ + 1 | None => 0 end.
Definition fail_row (category : string) (httpStatus : option Z) (retryable : bool) (retryEpoch : Z) (r : OutboxRow) : OutboxRow :=
  let again := retryable && (Row_Attempts r <? maxAttempts) in
  r <| Row_Status := if again then RowPending else RowFailed |>
    <| Row_NextAttemptAt := if again then Z.max (Row_NextAttemptAt r) retryEpoch else Row_NextAttemptAt r |>
    <| Row_LastError := Some category |> <| Row_HTTPStatus := httpStatus |>.
Definition cool_down (until : Z) (d : Destination) : Destination := d <| Destination_Cooldown := Z.max (Destination_Cooldown d) until |>.
Definition MarkFailedAt (seq : Z) (category : string) (httpStatus : option Z) (retryable : bool) (retryAt : option instant)
    (o : Outbox) : Outbox :=
  let epoch := retry_epoch retryAt in
  let failed := List.find (pending_seq seq) (outbox_rows o) in
  let o := update_rows (pending_seq seq) (fail_row category httpStatus retryable epoch) o in
  match failed with
  | Some r => if epoch <=? 0 then o else
    o <| outbox_destinations := alter (cool_down epoch) (Row_Destination r) (outbox_destinations o) |>
  | None => o
  end.
Definition MarkFailed (seq : Z) (category : string) (httpStatus : option Z) (retryable : bool) : Outbox -> Outbox :=
  MarkFailedAt seq category httpStatus retryable None.

(** *** Health *)

Record NotificationHealth := mkNotificationHealth {
  Health_State : string; Health_Configured : bool; Health_Pending : N; Health_Failed : N;
  Health_LastDeliveredAt : option string; Health_LastError : option string; Health_LastHTTPStatus : option Z }.
(** The rows of the webhook; every row has a destination. *)
Definition webhook_row (o : Outbox) (r : OutboxRow) : bool :=
  of_kind ["webhook"] o (Row_Destination r)
  || match outbox_policy o with Some p => bool_decide (Policy_Destination p = Some (Row_Destination r)) | None => false end.
Definition webhook_rows (o : Outbox) (P : OutboxRow -> bool) : list OutboxRow :=
  List.filter (fun r => P r && webhook_row o r) (outbox_rows o).
(** [MAX] of texts. *)
Definition max_text (l : list string) : option string :=
  foldl (fun m s => Some (match m with Some m => if String.leb s m then m else s | None => s end)) None l.
Definition health (o : Outbox) : NotificationHealth :=
  let has status := webhook_rows o (fun r => bool_decide (Row_Status r = status)) in
  let latest := last (webhook_rows o (fun r => isSome (Row_LastError r) || isSome (Row_HTTPStatus r))) in
  let policyError := outbox_policy o ≫= Policy_Error in
  let lastError := latest ≫= Row_LastError in
  {| Health_State := match outbox_policy o with Some p => Policy_State p | None => "disabled" end;
     Health_Configured := match outbox_policy o with Some p => negb (bool_decide (Policy_State p = "disabled")) | None => false end;
     Health_Pending := lenN (has RowPending); Health_Failed := lenN (has RowFailed);
     Health_LastDeliveredAt := max_text (omap Row_DeliveredAt (has RowDelivered));
     Health_LastError := match policyError with Some err => Some err | None => lastError end;
     Health_LastHTTPStatus :=
       if isSome policyError || negb (bool_decide (lastError = Some "http_status")) then None else latest ≫= Row_HTTPStatus |}.
End delivery.

(** ** Histories *)

Inductive outbox_op :=
| Queue (eventIDs : nat -> string) (createdAt : string) (epoch : Z) (n : Notice)
| Claim (retain : nat) (destination : string) (now : instant)
| Delivered (seq : Z) (now : instant)
| Failed_ (seq : Z) (category : string) (httpStatus : option Z) (retryable : bool) (retryAt : option instant)
| Webhook (destination : option string) (state : string) (errorText : option string)
| Chats (destinations : list ChatDestination).

Section histories.
Context (unixepoch : string -> option Z).
Notation ClaimDelivery := (ClaimDelivery unixepoch).

(** An operation; a claim is its row and its time. *)
Definition outbox_step (op : outbox_op) (o : Outbox) : list (Z * Z) * Outbox :=
  match op with
  | Queue eventIDs createdAt epoch n => ([], enqueue eventIDs createdAt epoch n o)
  | Claim retain destination now =>
    let '(d, o) := ClaimDelivery retain destination now o in
    (match d with Some d => [(Delivery_Seq d, unix now)] | None => [] end, o)
  | Delivered seq now => ([], MarkDelivered seq now o)
  | Failed_ seq category httpStatus retryable retryAt => ([], MarkFailedAt seq category httpStatus retryable retryAt o)
  | Webhook destination state errorText => ([], SetNotifyPolicy destination state errorText o)
  | Chats destinations => ([], SetChatDestinations destinations o)
  end.
Fixpoint outbox_run (ops : list outbox_op) (o : Outbox) : list (Z * Z) * Outbox :=
  match ops with
  | [] => ([], o)
  | op :: ops =>
    let '(claims, o) := outbox_step op o in
    let '(more, o) := outbox_run ops o in (claims ++ more, o)
  end.
(** The times a row was claimed. *)
Definition claims_of (seq : Z) (claims : list (Z * Z)) : list Z :=
  (List.filter (fun c => bool_decide (c.1 = seq)) claims).*2.

(** *** How rows change *)

(** Every change but a claim: a row keeps its attempts, is not due sooner, and
    is pending only if it was. *)
Record ages (r r' : OutboxRow) : Prop := {
  ages_seq : Row_Seq r' = Row_Seq r;
  ages_attempts : Row_Attempts r' = Row_Attempts r;
  ages_next : Row_NextAttemptAt r <= Row_NextAttemptAt r';
  ages_status : Row_Status r <> RowPending -> Row_Status r' = Row_Status r;
}.
#[local] Instance ages_preorder : PreOrder ages.
Proof.
  split; [by intros r; split|]. intros r1 r2 r3 [] []. split; try congruence; [lia|].
  intros N. rewrite ages_status1; [by apply ages_status0|]. by rewrite ages_status0.
Qed.
(** The rows of [o'] are rows of [o], aged; some may be gone. *)
Record aged (o o' : Outbox) : Prop := {
  aged_next : outbox_next o' = outbox_next o;
  aged_seqs : map Row_Seq (outbox_rows o') `sublist_of` map Row_Seq (outbox_rows o);
  aged_rows : forall r', r' ∈ outbox_rows o' -> exists r, r ∈ outbox_rows o /\ ages r r';
}.
#[local] Instance aged_preorder : PreOrder aged.
Proof.
  split; [intros o; split; [done|done|intros r ?; by exists r]|]. intros o1 o2 o3 [N1 S1 R1] [N2 S2 R2].
  split; [congruence|by etrans|]. intros r3 (r2 & I2 & A2)%R2. apply R1 in I2 as (r1 & I1 & A1).
  exists r1. split; [done|by etrans].
Qed.
Lemma aged_rows_update P f o : (forall r, r ∈ outbox_rows o -> P r = true -> ages r (f r)) -> aged o (update_rows P f o).
Proof.
  intros A. split; [done| |].
  - cbn. rewrite map_map. erewrite (map_ext_in _ Row_Seq); [done|]. intros r I%list_elem_of_In.
    destruct (P r) eqn:C; [by destruct (A r I C)|done].
  - intros r' (r & <- & I)%elem_of_map. exists r. split; [done|]. destruct (P r) eqn:C; [by apply A|done].
Qed.
Lemma aged_update P f o : (forall r, P r = true -> ages r (f r)) -> aged o (update_rows P f o).
Proof. intros A. apply aged_rows_update. auto. Qed.
Lemma ages_settle status why r : Row_Status r = RowPending -> ages r (settle_row status why r).
Proof. intros Pe. by split. Qed.
Lemma ages_pending r r' : ages r r' -> Row_Status r' = RowPending -> Row_Status r = RowPending.
Proof. intros A E. destruct (decide (Row_Status r = RowPending)) as [|N]; [done|]. by rewrite <- (ages_status _ _ A N). Qed.
Lemma aged_destinations o f : aged o (o <| outbox_destinations := f |>).
Proof. split; [done..|]. intros r I. by exists r. Qed.
Lemma aged_policy o p : aged o (o <| outbox_policy := p |>).
Proof. split; [done..|]. intros r I. by exists r. Qed.
Lemma aged_prune retain o : aged o (prune retain o).
Proof.
  split; [done| |].
  - cbn. generalize (map Row_Seq (rev (List.filter (fun r => negb (is_pending r)) (outbox_rows o)))). intros settled.
    generalize (take retain settled). intros kept. induction (outbox_rows o) as [|r rows IH]; cbn; [constructor|].
    destruct (is_pending r || _); cbn; by constructor.
  - intros r' I. cbn in I. apply elem_of_bfilter in I as I. destruct I; by exists r'.
Qed.
Lemma due_pending destination epoch r : due destination epoch r = true -> Row_Status r = RowPending.
Proof. unfold due, is_pending. rewrite !andb_true_iff. intros [[P _] _]. by bool_hyps. Qed.
Lemma aged_sweep destination epoch o : aged o (sweep unixepoch destination epoch o).
Proof.
  unfold sweep. etrans; apply aged_update; intros r [D _]%andb_true_iff; by apply ages_settle, (due_pending destination epoch).
Qed.
Lemma aged_fail seq category httpStatus retryable retryAt o : aged o (MarkFailedAt seq category httpStatus retryable retryAt o).
Proof.
  assert (aged o (update_rows (pending_seq seq) (fail_row category httpStatus retryable (retry_epoch retryAt)) o)) as A.
  { apply aged_update. intros r [_ P]%andb_true_iff. unfold is_pending in P. bool_hyps.
    split; [done|done| |done]. cbn. destruct (retryable && _); lia. }
  unfold MarkFailedAt. destruct (List.find _ _); [|done]. destruct (_ <=? 0); [done|]. etrans; [exact A|apply aged_destinations].
Qed.
Lemma aged_delivered seq now o : aged o (MarkDelivered seq now o).
Proof. apply aged_update. intros r [_ P]%andb_true_iff. unfold is_pending in P. bool_hyps. by split. Qed.
Lemma aged_cancel P o : aged o (update_rows (fun r => is_pending r && P r) (settle_row RowCancelled "destination_changed") o).
Proof. apply aged_update. intros r [Pe _]%andb_true_iff. unfold is_pending in Pe. bool_hyps. by apply ages_settle. Qed.
Lemma aged_webhook destination state errorText o : aged o (SetNotifyPolicy destination state errorText o).
Proof.
  unfold SetNotifyPolicy. cbv zeta. etrans; [|apply aged_policy].
  assert (forall o1 (on : bool) f, aged o o1 -> aged o (match destination with
    | Some id => if on then o1 <| outbox_destinations := f id |> else o1 | None => o1 end)) as K.
  { intros o1 on f A. destruct destination; [|done]. destruct on; [|done]. etrans; [exact A|apply aged_destinations]. }
  apply K. etrans; [|apply aged_destinations].
  apply aged_update. intros r [[Pe _]%andb_true_iff _]%andb_true_iff. unfold is_pending in Pe. bool_hyps. by apply ages_settle.
Qed.
Lemma aged_foldl {A} (f : A -> Outbox -> Outbox) l o : (forall x o, aged o (f x o)) -> aged o (foldl (fun o x => f x o) o l).
Proof. intros S. revert o. induction l as [|x l IH]; intros o; cbn; [done|]. etrans; [apply S|apply IH]. Qed.
Lemma aged_chats destinations o : aged o (SetChatDestinations destinations o).
Proof.
  unfold SetChatDestinations. etrans; [apply (aged_foldl drop_destination)|apply (aged_foldl put_destination)].
  - intros id o1. unfold drop_destination. etrans; [|apply aged_destinations]. apply aged_cancel.
  - intros d o1. apply aged_destinations.
Qed.

(** *** What was claimed *)

(** Each claim leaves a row alone for the pause of its attempt. *)
Definition paced (times : list Z) (until : Z) : Prop :=
  forall i at_, times !! i = Some at_ -> at_ + delay (Z.of_nat i + 1) <= default until (times !! S i).
Lemma paced_until times until until' : paced times until -> until <= until' -> paced times until'.
Proof. intros P L i at_ I. specialize (P i at_ I). destruct (times !! S i); simpl in *; lia. Qed.
Lemma paced_snoc times until now : paced times until -> until <= now ->
  paced (times ++ [now]) (now + delay (Z.of_nat (List.length times) + 1)).
Proof.
  intros P L i at_ I. destruct (decide (i < List.length times)%nat) as [Lt|Ge].
  - rewrite lookup_app_l in I by done. specialize (P i at_ I). destruct (decide (S i < List.length times)%nat) as [Lt'|Ge'].
    + rewrite lookup_app_l by done. apply lookup_lt_is_Some in Lt' as [x E]. by rewrite E in *.
    + rewrite (lookup_ge_None_2 times (S i)) in P by lia. simpl in P. rewrite lookup_app_r by lia.
      replace (S i - List.length times)%nat with O by lia. simpl. lia.
  - apply lookup_snoc_Some in I as [[? _]|[-> <-]]; [lia|]. rewrite lookup_ge_None_2; [done|]. rewrite length_app. simpl. lia.
Qed.
Record tracked (o : Outbox) (h : Z -> list Z) : Prop := {
  tracked_seqs : NoDup (map Row_Seq (outbox_rows o));
  tracked_bound : forall r, r ∈ outbox_rows o -> Row_Seq r < outbox_next o;
  tracked_new : forall seq, outbox_next o <= seq -> h seq = [];
  tracked_rows : forall r, r ∈ outbox_rows o ->
    Row_Attempts r = Z.of_nat (List.length (h (Row_Seq r))) /\ paced (h (Row_Seq r)) (Row_NextAttemptAt r);
  tracked_all : forall seq, Z.of_nat (List.length (h seq)) <= maxAttempts /\ exists until, paced (h seq) until;
}.
Lemma tracked_aged o o' h : aged o o' -> tracked o h -> tracked o' h.
Proof.
  intros [N S R] [T1 T2 T3 T4 T5]. split; [by eapply sublist_NoDup| | | |done].
  - intros r' (r & I & A)%R. rewrite N, (ages_seq _ _ A). by apply T2.
  - by rewrite N.
  - intros r' (r & I & A)%R. rewrite (ages_seq _ _ A), (ages_attempts _ _ A). destruct (T4 r I) as [E P].
    split; [done|]. eapply paced_until; [done|apply A].
Qed.
Lemma elem_of_new_rows seq destinations ids createdAt epoch n r :
  r ∈ new_rows seq destinations ids createdAt epoch n ->
  seq <= Row_Seq r < seq + Z.of_nat (List.length destinations) /\ Row_Attempts r = 0.
Proof.
  revert seq ids. induction destinations as [|d ds IH]; intros seq ids; cbn [new_rows List.length]; [by intros ?%elem_of_nil|].
  intros [->|I]%elem_of_cons; [simpl; lia|]. apply IH in I. lia.
Qed.
Lemma NoDup_new_rows seq destinations ids createdAt epoch n : NoDup (map Row_Seq (new_rows seq destinations ids createdAt epoch n)).
Proof.
  revert seq ids. induction destinations as [|d ds IH]; intros seq ids; cbn [new_rows map]; constructor; [|apply IH].
  intros (r & E & I)%elem_of_map. apply elem_of_new_rows in I. simpl in E. lia.
Qed.
Lemma NoDup_seq_inj (rows : list OutboxRow) r r' : NoDup (map Row_Seq rows) -> r ∈ rows -> r' ∈ rows -> Row_Seq r = Row_Seq r' -> r = r'.
Proof.
  intros N (i & I)%list_elem_of_lookup (j & J)%list_elem_of_lookup E.
  assert (i = j) as ->; [|by simplify_eq].
  eapply (NoDup_lookup _ i j (Row_Seq r) N); rewrite lookup_map; [by rewrite I|by rewrite J, E].
Qed.
Lemma overflowing_pending o r : NoDup (map Row_Seq (outbox_rows o)) -> r ∈ outbox_rows o -> Row_Seq r ∈ overflowing o ->
  Row_Status r = RowPending.
Proof.
  intros N I Ov. unfold overflowing in Ov.
  assert (Row_Seq r ∈ map Row_Seq (rev (List.filter is_pending (outbox_rows o)))) as (r' & E & I')%elem_of_map.
  { rewrite <- (take_drop queueLimit (map _ _)). apply elem_of_app. by right. }
  apply list_elem_of_In, in_rev, list_elem_of_In, elem_of_bfilter in I' as [Pe I'].
  apply (NoDup_seq_inj _ _ _ N I' I) in E as ->. unfold is_pending in Pe. by bool_hyps.
Qed.
Lemma tracked_add ds ids createdAt epoch n o h : tracked o h -> tracked (add_rows ds ids createdAt epoch n o) h.
Proof.
  intros [T1 T2 T3 T4 T5]. split; cbn.
  - rewrite map_app. apply NoDup_app. split_and!; [done| |apply NoDup_new_rows].
    intros seq (r & <- & I)%elem_of_map (r' & E & I')%elem_of_map. apply T2 in I. apply elem_of_new_rows in I'. lia.
  - intros r [I|I]%elem_of_app; [apply T2 in I; lia|]. apply elem_of_new_rows in I. lia.
  - intros seq L. apply T3. lia.
  - intros r [I|I]%elem_of_app; [by apply T4|]. apply elem_of_new_rows in I as [L ->]. rewrite T3 by lia. done.
  - done.
Qed.
Lemma enqueue_aged ids createdAt epoch n o h : tracked o h ->
  exists ds, aged (add_rows ds ids createdAt epoch n o) (enqueue ids createdAt epoch n o).
Proof.
  intros T. unfold enqueue. destruct (List.filter _ _) as [|d ds].
  - exists []. split; cbn; [lia|by rewrite app_nil_r|]. intros r I. exists r. by rewrite app_nil_r.
  - exists (d :: ds). apply aged_rows_update. intros r I Ov. bool_hyps. apply ages_settle.
    by eapply overflowing_pending; [eapply tracked_seqs, tracked_add| |].
Qed.
Lemma tracked_queue ids createdAt epoch n o h : tracked o h -> tracked (enqueue ids createdAt epoch n o) h.
Proof.
  intros T. destruct (enqueue_aged ids createdAt epoch n o h T) as [ds A]. eapply tracked_aged; [exact A|]. by apply tracked_add.
Qed.

(** A row that is found after the sweep has attempts left. *)
Lemma sweep_left destination epoch o r : r ∈ outbox_rows (sweep unixepoch destination epoch o) -> due destination epoch r = true ->
  Row_Attempts r < maxAttempts /\ r ∈ outbox_rows o /\ expired unixepoch epoch r = false.
Proof.
  unfold sweep. intros (r1 & E1 & (r2 & E2 & I)%elem_of_map)%elem_of_map D.
  destruct (due destination epoch r1 && (maxAttempts <=? Row_Attempts r1)) eqn:C1.
  { subst r. by apply due_pending in D. }
  subst r1. rewrite D in C1. simpl in C1.
  destruct (due destination epoch r2 && expired unixepoch epoch r2) eqn:C2; subst r; [by apply due_pending in D|].
  rewrite D in C2. simpl in C2. split_and!; [lia|done|done].
Qed.
Lemma find_Some_elem {A} (P : A -> bool) l x : List.find P l = Some x -> x ∈ l /\ P x = true.
Proof. intros F. apply find_some in F as [I ?]. by rewrite list_elem_of_In. Qed.

(** What a claim is.  The row is pending, due, not too old and has attempts
    left, its destination is enabled and not cooling down; the claim counts an
    attempt and postpones the next. *)
Record claimed (destination : string) (now : instant) (o : Outbox) (d : NotificationDelivery) (r : OutboxRow) : Prop := {
  claimed_row : r ∈ outbox_rows o;
  claimed_due : due destination (unix now) r = true;
  claimed_fresh : expired unixepoch (unix now) r = false;
  claimed_left : Row_Attempts r < maxAttempts;
  claimed_open : open_for destination (unix now) o = true;
  claimed_is : d = mkNotificationDelivery (Row_Seq r) (Row_EventID r) (Row_CreatedAt r) (Row_Notice r) (Row_Attempts r + 1);
}.
Lemma ClaimDelivery_claimed retain destination now o d o' : ClaimDelivery retain destination now o = (Some d, o') ->
  exists r, claimed destination now o d r
    /\ aged (update_rows (fun x => bool_decide (Row_Seq x = Row_Seq r)) (claim_row now) (sweep unixepoch destination (unix now) o)) o'.
Proof.
  unfold Outbox.ClaimDelivery. destruct (open_for _ _ _) eqn:Op; [|by intros [=]].
  destruct (List.find _ _) as [r|] eqn:F; [|by intros [=]]. apply find_Some_elem in F as [I D]. intros [= <- <-].
  destruct (sweep_left _ _ _ _ I D) as (L & I' & Ex). exists r. split; [by split|apply aged_prune].
Qed.
Lemma ClaimDelivery_idle retain destination now o o' : ClaimDelivery retain destination now o = (None, o') -> aged o o'.
Proof.
  unfold Outbox.ClaimDelivery. intros E. assert (aged o (prune retain (sweep unixepoch destination (unix now) o))) as A.
  { etrans; [apply aged_sweep|apply aged_prune]. }
  cbv zeta in E. destruct (open_for _ _ _); [destruct (List.find _ _)|]; by simplify_eq.
Qed.
Definition claim_history (h : Z -> list Z) (claims : list (Z * Z)) (seq : Z) : list Z := h seq ++ claims_of seq claims.
Lemma tracked_claim destination now o d r h : tracked o h -> claimed destination now o d r ->
  tracked (update_rows (fun x => bool_decide (Row_Seq x = Row_Seq r)) (claim_row now) (sweep unixepoch destination (unix now) o))
    (claim_history h [(Row_Seq r, unix now)]).
Proof.
  intros T C. pose proof (tracked_aged _ _ _ (aged_sweep destination (unix now) o) T) as T'.
  destruct T' as [T1 T2 T3 T4 T5]. set (o1 := sweep _ _ _ _) in *.
  assert (forall seq, claim_history h [(Row_Seq r, unix now)] seq = if bool_decide (Row_Seq r = seq) then h seq ++ [unix now] else h seq) as Eh.
  { intros seq. unfold claim_history, claims_of. cbn. case_bool_decide; [done|]. apply app_nil_r. }
  destruct (tracked_rows _ _ T r (claimed_row _ _ _ _ _ C)) as [Er Pr].
  pose proof (claimed_left _ _ _ _ _ C) as L. pose proof (claimed_due _ _ _ _ _ C) as D.
  unfold due in D. apply andb_true_iff in D as [_ D]. apply Z.leb_le in D.
  assert (paced (h (Row_Seq r) ++ [unix now]) (unix now + delay (Row_Attempts r + 1))) as Pn.
  { rewrite Er. by eapply paced_snoc. }
  split.
  - cbn. rewrite map_map. erewrite (map_ext _ Row_Seq); [done|]. intros x. by destruct (bool_decide _).
  - intros x (y & <- & I)%elem_of_map. apply T2 in I. by destruct (bool_decide _).
  - intros seq Ge. rewrite Eh. case_bool_decide as E; [|by apply T3]. subst seq.
    pose proof (tracked_bound _ _ T r (claimed_row _ _ _ _ _ C)). cbn in Ge. lia.
  - intros x (y & <- & I)%elem_of_map. rewrite Eh. destruct (T4 y I) as [Ey Py].
    case_bool_decide as E1; cbn.
    + rewrite E1, bool_decide_eq_true_2 by done. rewrite E1 in Ey. rewrite length_app. simpl. split; [lia|].
      by rewrite Ey, <- Er.
    + by rewrite bool_decide_eq_false_2 by congruence.
  - intros seq. rewrite Eh. case_bool_decide as E; [|apply T5]. subst seq. rewrite length_app. simpl. split; [lia|by eexists].
Qed.
Lemma claim_history_app h a b seq : claim_history (claim_history h a) b seq = claim_history h (a ++ b) seq.
Proof. unfold claim_history, claims_of. by rewrite List.filter_app, map_app, app_assoc. Qed.
Lemma tracked_ext o h h' : (forall seq, h seq = h' seq) -> tracked o h -> tracked o h'.
Proof.
  intros E [T1 T2 T3 T4 T5]. split; [done|done| | |].
  - intros seq L. rewrite <- E. by apply T3.
  - intros r I. rewrite <- E. by apply T4.
  - intros seq. rewrite <- E. apply T5.
Qed.
Lemma tracked_still o h : tracked o h -> tracked o (claim_history h []).
Proof. apply tracked_ext. intros seq. unfold claim_history. by rewrite app_nil_r. Qed.
Lemma tracked_step op o h : tracked o h ->
  tracked (snd (outbox_step op o)) (claim_history h (fst (outbox_step op o))).
Proof.
  intros T. destruct op as [ids createdAt epoch n|retain destination now|seq now|seq category st retry at_|destination state err|ds]; cbn [outbox_step fst snd].
  - by apply tracked_still, tracked_queue.
  - destruct (ClaimDelivery retain destination now o) as [[d|] o'] eqn:E; cbn [fst snd].
    + apply ClaimDelivery_claimed in E as (r & C & A). rewrite (claimed_is _ _ _ _ _ C). cbn [Delivery_Seq].
      eapply tracked_aged; [exact A|]. by eapply tracked_claim.
    + apply ClaimDelivery_idle in E. apply tracked_still. by eapply tracked_aged.
  - apply tracked_still. eapply tracked_aged; [apply aged_delivered|done].
  - apply tracked_still. eapply tracked_aged; [apply aged_fail|done].
  - apply tracked_still. eapply tracked_aged; [apply aged_webhook|done].
  - apply tracked_still. eapply tracked_aged; [apply aged_chats|done].
Qed.
Lemma tracked_run ops : forall o h, tracked o h -> tracked (snd (outbox_run ops o)) (claim_history h (fst (outbox_run ops o))).
Proof.
  induction ops as [|op ops IH]; intros o h T; cbn [outbox_run]; [by apply tracked_still|].
  apply (tracked_step op) in T. destruct (outbox_step op o) as [claims o1]. cbn [fst snd] in T. apply IH in T.
  destruct (outbox_run ops o1) as [more o2]. cbn [fst snd] in *.
  eapply tracked_ext; [|exact T]. intros seq. apply claim_history_app.
Qed.
Lemma tracked_empty : tracked empty_outbox (fun _ => []).
Proof.
  split; [constructor|by intros r ?%elem_of_nil|done|by intros r ?%elem_of_nil|]. intros seq. split; [done|]. by exists 0.
Qed.

(** C11: deliveries are paced.  Whatever is queued, however the clock moves, and
    in whatever order deliveries end and destinations change, a notification
    is sent at most five times, and each attempt leaves at least the pause of
    its number before the next. *)
Theorem deliveries_paced ops seq :
  let times := claims_of seq (fst (outbox_run ops empty_outbox)) in
  (List.length times <= 5)%nat
  /\ forall i first next, times !! i = Some first -> times !! S i = Some next -> first + delay (Z.of_nat i + 1) <= next.
Proof.
  cbv zeta. pose proof (tracked_all _ _ (tracked_run ops _ _ tracked_empty) seq) as [L [until P]].
  unfold claim_history in *. simpl in *. split; [unfold maxAttempts in L; lia|]. intros i first next F N. specialize (P i first F). by rewrite N in P.
Qed.

(** *** Settled rows *)

Record settled (seq : Z) (status : RowStatus) (o : Outbox) : Prop := {
  settled_old : seq < outbox_next o;
  settled_rows : forall r, r ∈ outbox_rows o -> Row_Seq r = seq -> Row_Status r = status;
}.
Lemma settled_aged seq status o o' : status <> RowPending -> aged o o' -> settled seq status o -> settled seq status o'.
Proof.
  intros N [An _ Ar] [So Sr]. split; [by rewrite An|]. intros r' (r & I & A)%Ar E. rewrite (ages_seq _ _ A) in E.
  pose proof (Sr r I E) as St. rewrite (ages_status _ _ A); [done|by rewrite St].
Qed.
Lemma settled_step op seq status o h : status <> RowPending -> tracked o h -> settled seq status o ->
  claims_of seq (fst (outbox_step op o)) = [] /\ settled seq status (snd (outbox_step op o)).
Proof.
  intros N T S. assert (forall o', aged o o' -> [] = (@nil Z) /\ settled seq status o') as K by (intros o' A; split; [done|by eapply settled_aged]).
  destruct op as [ids createdAt epoch n|retain destination now|seq' now|seq' category st retry at_|destination state err|ds];
    cbn [outbox_step fst snd]; try (apply K; by (apply aged_delivered || apply aged_fail || apply aged_webhook || apply aged_chats)).
  - split; [done|]. destruct (enqueue_aged ids createdAt epoch n o h T) as [ds A]. eapply settled_aged; [done|exact A|].
    destruct S as [So Sr]. split; [cbn; lia|]. intros r [I|I]%elem_of_app; [by apply Sr|]. apply elem_of_new_rows in I. lia.
  - destruct (ClaimDelivery retain destination now o) as [[d|] o'] eqn:E; cbn [fst snd].
    + apply ClaimDelivery_claimed in E as (r & C & A). rewrite (claimed_is _ _ _ _ _ C). cbn [Delivery_Seq].
      pose proof (due_pending _ _ _ (claimed_due _ _ _ _ _ C)) as Pe.
      assert (Row_Seq r <> seq) as Ne. { intros Eq. apply N. by rewrite <- (settled_rows _ _ _ S r (claimed_row _ _ _ _ _ C) Eq). }
      split; [unfold claims_of; cbn; by rewrite bool_decide_eq_false_2|]. eapply settled_aged; [done|exact A|].
      destruct (settled_aged _ _ _ _ N (aged_sweep destination (unix now) o) S) as [So Sr]. split; [done|].
      intros x (y & <- & I)%elem_of_map. case_bool_decide as Eq; [cbn; intros ?; congruence|by apply Sr].
    + apply ClaimDelivery_idle in E. by apply K.
Qed.
Lemma settled_run ops seq status : status <> RowPending -> forall o h, tracked o h -> settled seq status o ->
  claims_of seq (fst (outbox_run ops o)) = [] /\ settled seq status (snd (outbox_run ops o)).
Proof.
  intros N. induction ops as [|op ops IH]; intros o h T S; cbn [outbox_run]; [done|].
  destruct (settled_step op _ _ _ _ N T S) as [C S1]. apply (tracked_step op) in T. destruct (outbox_step op o) as [claims o1].
  cbn [fst snd] in *. destruct (IH _ _ T S1) as [C2 S2]. destruct (outbox_run ops o1) as [more o2]. cbn [fst snd] in *.
  split; [|done]. unfold claims_of in *. by rewrite List.filter_app, fmap_app, C, C2.
Qed.
(** A settled notification stays settled.  Once a row is delivered, failed
    or cancelled, in whatever history, it is never sent again and its outcome
    never changes. *)
Theorem settled_is_final before after r :
  let o := snd (outbox_run before empty_outbox) in
  r ∈ outbox_rows o -> Row_Status r <> RowPending ->
  claims_of (Row_Seq r) (fst (outbox_run after o)) = []
  /\ forall r', r' ∈ outbox_rows (snd (outbox_run after o)) -> Row_Seq r' = Row_Seq r -> Row_Status r' = Row_Status r.
Proof.
  cbv zeta. intros I N. pose proof (tracked_run before _ _ tracked_empty) as T.
  assert (settled (Row_Seq r) (Row_Status r) (snd (outbox_run before empty_outbox))) as S.
  { split; [by apply (tracked_bound _ _ T)|]. intros r' I' E. f_equal. by eapply (NoDup_seq_inj _ _ _ (tracked_seqs _ _ T)). }
  destruct (settled_run after _ _ N _ _ T S) as [C [_ R]]. by split.
Qed.
End histories.

(** ** An alert, delivered *)

Definition alert : Notice := mkNotice "acme/widgets" (Some "c") None (Some "t") "timeout" "inspect_task".
Definition never (_ : string) : option Z := None.
Definition at_second (n : Z) : instant := mkInstant n 0.
Definition webhook_history : list outbox_op :=
  [Webhook (Some "hook") "enabled" None; Queue (fun _ => "e-1") "now" 100 alert;
   Claim 10 "hook" (at_second 100); Claim 10 "hook" (at_second 110); Failed_ 1 "http_status" (Some 503) true (Some (at_second 500));
   Claim 10 "hook" (at_second 200); Claim 10 "hook" (at_second 500); Delivered 1 (at_second 501)].
Example webhook_claims :
  let '(claims, o) := outbox_run never webhook_history empty_outbox in
  claims = [(1, 100); (1, 500)] /\ map Row_Status (outbox_rows o) = [RowDelivered]
  /\ Health_Failed (health o) = 0%N /\ Health_LastError (health o) = None.
Proof. by vm_compute. Qed.
Lemma settled_is_final_witness :
  let o := snd (outbox_run never webhook_history empty_outbox) in
  exists r, r ∈ outbox_rows o /\ Row_Status r = RowDelivered
  /\ claims_of (Row_Seq r) (fst (outbox_run never webhook_history o)) = [].
Proof.
  cbv zeta. eexists. split_and!; [vm_compute; by left|reflexivity|].
  apply (settled_is_final never webhook_history webhook_history); [vm_compute; by left|done].
Defined.
