(* ===== verification/Notify.v ===== *)
(** * Delivering notifications ([internal/notifications], [internal/chat/notify.go])

    The workers that drain the outbox ([Outbox]): one posts to the webhook, one
    to each chat channel.  A turn of a worker claims a row, sends it and records
    how that ended; it is given here what the claim, the network and the clock
    answer, and returns what it asks of the store.  The HTTP client, the URL
    parser and the JSON encoder are libraries. *)
From S2P Require Import Prelude GoStrings Utf8 Runes WireJson Enums Types GoErrors Config GoTime NetIP Strconv Chat ChatService Outbox.
Local Open Scope string_scope.
Local Open Scope list_scope.
Local Open Scope N_scope.

Definition maxPayloadBytes : N := 8192.
Definition maxRepositoryBytes : N := 256.
Definition maxIDBytes : N := 128.
Definition httpStatusCategory := "http_status".
Definition invalidPayload := "invalid_payload".
Definition timeoutCategory := "timeout".
Definition transportCategory := "transport_error".

(** ** The event that is posted *)

Record attentionEvent := mkAttentionEvent {
  event_schema : N; event_id : string; event_occurred : string; event_notice : Notice }.
Definition payload (marshal : attentionEvent -> result string error) (d : NotificationDelivery) : result string error :=
  let event := mkAttentionEvent 1 (Delivery_EventID d) (Delivery_CreatedAt d) (Delivery_Notice d) in
  let n := Delivery_Notice d in
  guard negb ((maxRepositoryBytes <? slen (Notice_Repository n)) || (maxIDBytes <? slen (Delivery_EventID d))
    || (maxIDBytes <? slen (default "" (Notice_CycleID n))) || (maxIDBytes <? slen (default "" (Notice_RunID n)))
    || (maxIDBytes <? slen (default "" (Notice_TaskID n))) || (maxIDBytes <? slen (Notice_Category n))
    || (maxIDBytes <? slen (Notice_Action n))) else New invalidPayload;
  match marshal event with
  | Err err => Err (Errorf "%s: %w" [VStr invalidPayload; VWrap err])
  | Ok encoded =>
    guard negb (maxPayloadBytes <? slen encoded) else New invalidPayload;
    Ok encoded
  end.
Definition retryable (status : N) : bool := (status =? 408) || (status =? 429) || (500 <=? status).

(** ** The destination *)

(** A parsed URL of the WHATWG parser. *)
Record webURL := mkWebURL {
  url_username : string; url_password : string; url_href : string; url_hostname : string; url_protocol : string }.
Section destination.
Context (parse_url : string -> option webURL) (ParseAddr : string -> option Addr) (sha256 : string -> string).

Definition loopback_host (hostname : string) : bool :=
  match ParseAddr (Trim hostname "[]") with
  | Some (V4 a) => IsLoopback (V4 a)
  | Some addr => bool_decide (addr = V6 1 "")
  | None => false
  end.
Definition webhookDestination (raw : string) : result (string * string) error :=
  guard negb (bool_decide (raw = "") || (8192 <? slen raw))
    else New "Notification webhook URL is empty or exceeds the 8192-byte limit";
  match parse_url raw with
  | None => Err (New "Notification webhook URL is not a valid URL")
  | Some u =>
    guard bool_decide (url_username u = "") && bool_decide (url_password u = "")
      else New "Notification webhook URL must not contain credentials";
    let normalized := url_href u in
    guard negb (char_in "#"%char normalized) else New "Notification webhook URL must not contain a fragment";
    guard negb (bool_decide (url_hostname u = "")) else New "Notification webhook URL must contain a host";
    if bool_decide (url_protocol u = "https:") then Ok (normalized, sha256 normalized) else
    guard bool_decide (url_protocol u = "http:") else New "Notification webhook URL must use https, or http for a loopback IP";
    guard loopback_host (url_hostname u) else New "Plain HTTP notification webhooks require a loopback IP address";
    Ok (normalized, sha256 normalized)
  end.
(** The URL to post to and its identity, both empty when there is none. *)
Definition configure (message : error -> string) (configuredURL : string) (o : Outbox) : (string * string) * Outbox :=
  let raw := TrimSpace configuredURL in
  if bool_decide (raw = "") then (("", ""), SetNotifyPolicy None "disabled" None o) else
  match webhookDestination raw with
  | Err err => (("", ""), SetNotifyPolicy None "invalid" (Some (message err)) o)
  | Ok (url, id) => ((url, id), SetNotifyPolicy (Some id) "enabled" None o)
  end.
End destination.

(** ** The webhook *)

Inductive http_outcome :=
| Responded (status : N) (retryAfter : string)
| TimedOut
| Unsent.
Section webhook.
Context (unixepoch : string -> option Z) (marshal : attentionEvent -> result string error).
Context (parse_http_time : string -> option instant).

(** When the response asks to be tried again; [now] is when it came. *)
Definition retryDeadline (status : N) (retryAfter : string) (now : instant) : option instant :=
  if negb (retryable status) then None else
  let value := TrimSpace retryAfter in
  let seconds := decimal_value (chars value) in
  if is_decimal (chars value) && (seconds <? 4294967296)%Z && (0 <? seconds)%Z then Some (add_seconds now seconds) else
  match parse_http_time value with
  | Some deadline => if before now deadline then Some deadline else None
  | None => None
  end.
(** What is posted, if anything, and how the delivery ended: the status, or the
    category of the failure, and the deadline. *)
Definition deliver (post : string -> http_outcome) (now : instant) (d : NotificationDelivery)
    : option string * (N * string * option instant) :=
  match payload marshal d with
  | Err _ => (None, (0, invalidPayload, None))
  | Ok body =>
    (Some body, match post body with
                | TimedOut => (0, timeoutCategory, None)
                | Unsent => (0, transportCategory, None)
                | Responded status retryAfter => (status, "", retryDeadline status retryAfter now)
                end)
  end.
(** What the store is asked once a delivery ended; nothing when a request was
    interrupted by the shutdown. *)
Definition record_outcome (stopping : bool) (ended : instant) (d : NotificationDelivery) (outcome : N * string * option instant)
    : list outbox_op :=
  let '(status, category, retryAt) := outcome in
  let seq := Delivery_Seq d in
  if negb (bool_decide (category = "")) then
    if stopping then [] else [Failed_ seq category None (negb (bool_decide (category = invalidPayload))) None] else
  if in_range 200 299 status then [Delivered seq ended] else
  [Failed_ seq httpStatusCategory (Some (Z.of_N status)) (retryable status) retryAt].
(** A turn of the worker whose claim the store answers. *)
Record turn := mkTurn { turn_now : instant; turn_post : string -> http_outcome; turn_answered : instant; turn_stopping : bool;
  turn_ended : instant }.
Definition deliverNext (retain : nat) (destination : string) (t : turn) (o : Outbox) : option string * list outbox_op :=
  let claim := Claim retain destination (turn_now t) in
  match fst (ClaimDelivery unixepoch retain destination (turn_now t) o) with
  | None => (None, [claim])
  | Some d =>
    let '(body, outcome) := deliver (turn_post t) (turn_answered t) d in
    (body, claim :: record_outcome (turn_stopping t) (turn_ended t) d outcome)
  end.
End webhook.

(** A warning is printed when it is new: the last one, and what is printed. *)
Definition warn (redact : error -> string) (err : option error) (lastWarning : string) : string * list string :=
  match err with
  | None => (lastWarning, [])
  | Some err =>
    let message := redact err in
    if bool_decide (message = lastWarning) then (lastWarning, [])
    else (message, ["WARN notifications: " +:+ message +:+ String line_feed ""])
  end.

(** ** A chat channel *)

(** [api_retry_after] is in nanoseconds. *)
Record apiError := mkApiError { api_status : Z; api_code : string; api_retry_after : Z }.
Definition rateLimited (e : apiError) : bool :=
  (api_status e =? 429)%Z || bool_decide (api_code e ∈ ["ratelimited"; "rate_limited"]).
Definition transient_codes : list string :=
  ["internal_error"; "fatal_error"; "ratelimited"; "rate_limited"; "service_unavailable"; "request_timeout"].
Definition api_retryable (e : apiError) : bool :=
  bool_decide (api_code e ∈ transient_codes)
  || bool_decide (api_code e = "") && ((api_status e =? 408)%Z || (api_status e =? 429)%Z || (500 <=? api_status e)%Z).
(** [time.Time.Add] of a duration. *)
Definition add_duration (t : instant) (d : Z) : instant :=
  let n := (nanos t + d)%Z in mkInstant (unix t + n / 1000000000) (n mod 1000000000).
Inductive post_outcome := Posted | Refused (e : apiError) | Lost.
(** The answer of a provider; any other error of the call is lost. *)
Definition refusal (p : post_outcome) : option apiError :=
  match p with
  | Refused e => if (0 <? api_status e)%Z || negb (bool_decide (api_code e = "")) then Some e else None
  | _ => None
  end.

Section chat_worker.
Context (unixepoch : string -> option Z) (clean : string -> string).
(** [TaskDetail] of the repository's engine: the title and the URL. *)
Context (task_detail : string -> string -> option (string * option string)).

Definition alert_text (repo category : string) : string :=
  if bool_decide (category = "task_published") then "✅ " +:+ repo +:+ ": task published" else
  if bool_decide (category = "cycle_failed") then "⚠️ " +:+ repo +:+ ": planning cycle failed" else
  if bool_decide (category = "audit_completed") then "🔎 " +:+ repo +:+ ": audit completed" else
  if bool_decide (category = "service_error_paused") then "⏸️ " +:+ repo +:+ ": service paused on error — inspect the dashboard" else
  "⚠️ " +:+ repo +:+ ": task needs attention (" +:+ category +:+ ")".
Definition task_lines (repository id : string) : string :=
  match task_detail repository id with
  | Some (title, url) =>
    String line_feed title +:+ match url with
                               | Some url => if bool_decide (url = "") then "" else String line_feed url
                               | None => ""
                               end
  | None => ""
  end.
Definition alertResponse (d : NotificationDelivery) : Response :=
  let n := Delivery_Notice d in
  let repo := if bool_decide (Notice_Repository n = "") then "Octomus" else Notice_Repository n in
  let text := alert_text repo (Notice_Category n) in
  match Notice_TaskID n with
  | Some id =>
    if bool_decide (id = "") then mkResponse (str (boundText clean text)) [] else
    mkResponse (str (boundText clean (text +:+ task_lines (Notice_Repository n) id)))
      (mkButton "View task" (taskActionValue "view" id)
       :: if bool_decide (Notice_Category n = "task_published") then [] else [mkButton "Retry task" (taskActionValue "retry" id)])
  | None => mkResponse (str (boundText clean text)) []
  end.
(** What the clock and the provider answer in a turn. *)
Record chat_turn := mkChatTurn {
  chat_checked : instant; chat_now : instant; chat_post : Response -> post_outcome; chat_stopping : bool; chat_ended : instant }.
(** The deadline of a rate limit. *)
Definition rate_deadline (e : apiError) (now : instant) : option instant :=
  if rateLimited e && (0 <? api_retry_after e)%Z then Some (add_duration now (api_retry_after e)) else None.
(** What is sent, what the store is asked, and the pause of the worker. *)
Definition chat_deliverNext (retain : nat) (destination : string) (t : chat_turn) (cooldown : instant) (o : Outbox)
    : option Response * list outbox_op * instant :=
  if before (chat_checked t) cooldown then (None, [], cooldown) else
  let claim := Claim retain destination (chat_now t) in
  match fst (ClaimDelivery unixepoch retain destination (chat_now t) o) with
  | None => (None, [claim], cooldown)
  | Some d =>
    let seq := Delivery_Seq d in
    let resp := alertResponse d in
    let outcome := chat_post t resp in
    match outcome with
    | Posted => (Some resp, [claim; Delivered seq (chat_ended t)], cooldown)
    | _ =>
      if chat_stopping t then (Some resp, [claim], cooldown) else
      match refusal outcome with
      | Some e =>
        let status := if bool_decide (api_code e = "") && (0 <? api_status e)%Z then Some (api_status e mod 65536)%Z else None in
        let retryAt := rate_deadline e (chat_ended t) in
        (Some resp, [claim; Failed_ seq "http_status" status (api_retryable e) retryAt],
         match retryAt with Some at_ => if before cooldown at_ then at_ else cooldown | None => cooldown end)
      | None => (Some resp, [claim; Failed_ seq "transport_error" None true None], cooldown)
      end
    end
  end.
End chat_worker.

(** * Properties *)

(** Alerts leave the host in the clear for a loopback address only, and never
    with credentials in the URL. *)
Lemma webhookDestination_safe parse_url ParseAddr sha256 raw url id :
  webhookDestination parse_url ParseAddr sha256 raw = Ok (url, id) ->
  exists u, parse_url raw = Some u /\ url = url_href u /\ id = sha256 url
  /\ url_username u = "" /\ url_password u = "" /\ char_in "#"%char url = false /\ url_hostname u <> ""
  /\ (url_protocol u = "https:" \/ url_protocol u = "http:" /\ loopback_host ParseAddr (url_hostname u) = true).
Proof.
  unfold webhookDestination. destruct (negb _); [|done]. destruct (parse_url raw) as [u|]; [|done].
  rewrite !guard_Ok, !negb_true_iff, !andb_true_iff. intros ([Us Pw] & Ha & Ho & E). bool_hyps. exists u.
  destruct (bool_decide (url_protocol u = "https:")) eqn:Pr; bool_hyps.
  - injection E as <- <-. split_and!; eauto.
  - rewrite !guard_Ok in E. destruct E as (Hp & L & E). bool_hyps. injection E as <- <-. split_and!; eauto.
Qed.
(** A turn posts at most one event, of a row it claimed, within the bound; and
    it claims at most one row. *)
Lemma deliverNext_posts unixepoch marshal parse_http_time retain destination t o body ops :
  deliverNext unixepoch marshal parse_http_time retain destination t o = (body, ops) ->
  exists settle, ops = Claim retain destination (turn_now t) :: settle /\ (forall op, op ∈ settle -> fst (outbox_step unixepoch op o) = [])
  /\ (forall b, body = Some b -> slen b <= maxPayloadBytes /\ exists d r,
        claimed unixepoch destination (turn_now t) o d r /\ payload marshal d = Ok b).
Proof.
  unfold deliverNext. destruct (ClaimDelivery _ _ _ _ _) as [[d|] o1] eqn:C; cbn [fst]; [|intros [= <- <-]; exists []; split_and!; [done|by intros ? ?%elem_of_nil|done]].
  apply ClaimDelivery_claimed in C as (r & Cl & _). destruct (deliver _ _ _ _ _) as [b outcome] eqn:D. intros [= <- <-].
  exists (record_outcome (turn_stopping t) (turn_ended t) d outcome). split; [done|]. split.
  - intros op. unfold record_outcome. destruct outcome as [[status category] retryAt].
    destruct (negb _); [destruct (turn_stopping t)|destruct (in_range _ _ _)];
      first [by intros ?%elem_of_nil | by intros ->%list_elem_of_singleton].
  - intros b' ->. unfold deliver in D. destruct (payload marshal d) as [body|err] eqn:P; [|done]. injection D as -> _.
    split; [|by exists d, r]. unfold payload in P. destruct (negb _); [|done]. destruct (marshal _) as [enc|]; [|done].
    apply guard_Ok in P as [L P]. injection P as ->. by apply N.ltb_ge, negb_true_iff.
Qed.

(** ** A turn *)

Definition hook_turn (status : N) : turn := mkTurn (at_second 100) (fun _ => Responded status "30") (at_second 101) false (at_second 102).
Definition queued : Outbox := snd (outbox_run never (firstn 2 webhook_history) empty_outbox).
Example turn_run :
  let turn status := deliverNext never (fun e => Ok (event_id e)) (fun _ => None) 10 "hook" (hook_turn status) queued in
  turn 204 = (Some "e-1", [Claim 10 "hook" (at_second 100); Delivered 1 (at_second 102)])
  /\ turn 503 = (Some "e-1", [Claim 10 "hook" (at_second 100); Failed_ 1 "http_status" (Some 503%Z) true (Some (at_second 131))])
  /\ turn 404 = (Some "e-1", [Claim 10 "hook" (at_second 100); Failed_ 1 "http_status" (Some 404%Z) false None]).
Proof. by vm_compute. Qed.
