(* ===== verification/Pages.v ===== *)
(** * Pages of history ([internal/store/pages.go])

    The lists an operator pages through: rows of the projection [record_meta],
    newest first, from a cursor.  The projection of a kind is the list of its
    rows in the order of their sequence numbers; the search in a summary and
    its decoding are SQLite's and [encoding/json]'s. *)
From S2P Require Import Prelude GoStrings WireJson Enums Types GoErrors Config Model.
From Stdlib Require Import Sorted.
Local Open Scope string_scope.
Local Open Scope list_scope.
Local Open Scope Z_scope.

Record HistoryQuery := mkHistoryQuery {
  Query_Before : option Z; Query_Limit : option Z; Query_Status : option string; Query_Q : option string;
  Query_Cycle : option string; Query_repository : string }.
#[export] Instance eta_HistoryQuery : Eta HistoryQuery := fun r =>
  mkHistoryQuery (Query_Before r) (Query_Limit r) (Query_Status r) (Query_Q r) (Query_Cycle r) (Query_repository r).
Definition scoped (q : HistoryQuery) (repo : string) : HistoryQuery := q <| Query_repository := repo |>.
Record Page (T : Type) := mkPage { Page_Items : list T; Page_NextCursor : option Z }.
Arguments mkPage {T}.
Arguments Page_Items {T}.
Arguments Page_NextCursor {T}.

Definition limit (q : HistoryQuery) : Z :=
  let limit := default 50 (Query_Limit q) in if limit <? 1 then 1 else if 100 <? limit then 100 else limit.
Definition MaxInt64 : Z := 9223372036854775807.
Definition before (q : HistoryQuery) : Z := default MaxInt64 (Query_Before q).
Definition filterAll (value : option string) : string :=
  match value with Some value => if bool_decide (value = "all") then "" else value | None => "" end.
Definition orEmpty (value : option string) : string := default "" value.

(** A row of [record_meta]. *)
Record MetaRow := mkMetaRow {
  Meta_ID : string; Meta_Seq : Z; Meta_Status : string; Meta_Repository : string; Meta_Archived : bool; Meta_Summary : string }.
Record pageRow := mkPageRow { row_summary : string; row_seq : Z; row_id : string }.

Section pages.
(** Whether a summary of a kind holds a text. *)
Context (holds : string -> string -> string -> bool).

Definition status_matches (status : string) (r : MetaRow) : bool :=
  if bool_decide (status = "") then true else
  if bool_decide (status = "active") then bool_decide (Meta_Status r ∈ map enum_String ActiveStatuses) else
  if bool_decide (status = "attention")
  then bool_decide (Meta_Status r ∈ map enum_String AttentionStatuses) && negb (Meta_Archived r)
  else bool_decide (Meta_Status r = status).
Definition matches (kind : string) (q : HistoryQuery) (r : MetaRow) : bool :=
  status_matches (filterAll (Query_Status q)) r
  && (negb (bool_decide (kind = "cycle")) || bool_decide (filterAll (Query_Cycle q) = "")
      || bool_decide (Some (Meta_ID r) = Query_Cycle q))
  && (bool_decide (Query_repository q = "") || EqualASCII (Meta_Repository r) (Query_repository q))
  && (bool_decide (orEmpty (Query_Q q) = "") || holds kind (Meta_Summary r) (orEmpty (Query_Q q))).
Definition page_row (r : MetaRow) : pageRow := mkPageRow (Meta_Summary r) (Meta_Seq r) (Meta_ID r).
Definition pageRows (rows : list MetaRow) (kind : string) (q : HistoryQuery) (n : Z) : list pageRow :=
  take (Z.to_nat n) (map page_row (rev (List.filter (fun r => (Meta_Seq r <? before q) && matches kind q r) rows))).

Section typed.
Context {T : Type} (decode : string -> result T error) (boundSummary : T -> T).

(** The items of a page in order. *)
Fixpoint decode_items (rows : list pageRow) : result (list T) error :=
  match rows with
  | [] => Ok []
  | r :: rows =>
    match decode (row_summary r) with
    | Err err => Err (Errorf "Saved summary %s is unreadable: %w" [VStr (row_id r); VWrap err])
    | Ok item => let! items := decode_items rows in Ok (boundSummary item :: items)
    end
  end.
(** One row more than the page was asked for shows that there are more. *)
Definition cut (rows : list pageRow) (limit : Z) : list pageRow * option Z :=
  if limit <? Z.of_nat (List.length rows) then
    let rows := take (Z.to_nat limit) rows in (rows, row_seq <$> last rows)
  else (rows, None).
Definition decodePage (rows : list pageRow) (limit : Z) : result (Page T) error :=
  let '(rows, next) := cut rows limit in
  let! items := decode_items rows in
  Ok (mkPage items next).
Definition page (rows : list MetaRow) (kind : string) (q : HistoryQuery) : result (Page T) error :=
  decodePage (pageRows rows kind q (limit q + 1)) (limit q).
(** A reader follows the cursors; other parts write between the pages. *)
Fixpoint walk (fuel : nat) (tables : nat -> list MetaRow) (kind : string) (q : HistoryQuery) : option (result (list T) error) :=
  match fuel with
  | O => None
  | S fuel =>
    match page (tables O) kind q with
    | Err err => Some (Err err)
    | Ok p =>
      match Page_NextCursor p with
      | None => Some (Ok (Page_Items p))
      | Some next =>
        match walk fuel (fun k => tables (S k)) kind (q <| Query_Before := Some next |>) with
        | Some (Ok items) => Some (Ok (Page_Items p ++ items))
        | r => r
        end
      end
    end
  end.
End typed.
End pages.

(** * Properties *)

(** The projection is in the order of its sequence numbers. *)
Definition in_order (rows : list MetaRow) : Prop := StronglySorted (fun a b => Meta_Seq a < Meta_Seq b) rows.
Definition newest_first (rows : list pageRow) : Prop := StronglySorted (fun a b => row_seq b < row_seq a) rows.

Lemma newest_first_app l l' : newest_first l -> newest_first l' -> (forall x y, x ∈ l -> y ∈ l' -> row_seq y < row_seq x) ->
  newest_first (l ++ l').
Proof.
  intros S S' L. induction S as [|x l Sl IH F]; [done|]. simpl. constructor.
  - apply IH. intros y z I. apply L. by right.
  - apply Forall_app. split; [done|]. apply Forall_forall. intros y I. apply L; [by left|done].
Qed.
Lemma newest_first_take n l : newest_first l -> newest_first (take n l).
Proof.
  intros S. revert n. induction S as [|x l S IH F]; intros [|n]; simpl; constructor; [apply IH|by apply Forall_take].
Qed.
(** What comes after the first [n] rows is older than all of them. *)
Lemma newest_first_drop n l x y : newest_first l -> x ∈ take n l -> y ∈ drop n l -> row_seq y < row_seq x.
Proof.
  intros S. revert n. induction S as [|z l S IH F]; intros [|n]; simpl; [by intros ?%elem_of_nil..|].
  intros [->|I]%elem_of_cons J; [|by eapply IH]. rewrite Forall_forall in F. apply F.
  rewrite <- (take_drop n l). apply elem_of_app. by right.
Qed.
Lemma newest_first_last l x z : newest_first l -> last l = Some z -> x ∈ l -> row_seq z <= row_seq x.
Proof.
  intros S. induction S as [|y l S IH F]; [done|]. rewrite last_cons. destruct (last l) as [w|] eqn:L.
  - intros [= <-] [->|I]%elem_of_cons; [|by apply IH]. rewrite Forall_forall in F. apply last_Some_elem_of in L.
    specialize (F w L). simpl in F. lia.
  - intros [= <-]. apply last_None in L as ->. by intros ->%list_elem_of_singleton.
Qed.

Section facts.
Context (holds : string -> string -> string -> bool) {T : Type} (decode : string -> result T error) (boundSummary : T -> T).
Notation matches := (matches holds).
Notation walk := (walk holds decode boundSummary).

(** All the rows a query asks for, newest first. *)
Definition selected (rows : list MetaRow) (kind : string) (q : HistoryQuery) : list pageRow :=
  map page_row (rev (List.filter (fun r => (Meta_Seq r <? before q) && matches kind q r) rows)).
Lemma elem_of_selected rows kind q x : x ∈ selected rows kind q <->
  exists r, r ∈ rows /\ Meta_Seq r < before q /\ matches kind q r = true /\ x = page_row r.
Proof.
  unfold selected. rewrite elem_of_map. split.
  - intros (r & <- & I). apply list_elem_of_In, in_rev, list_elem_of_In, elem_of_bfilter in I as [[B M]%andb_true_iff I].
    exists r. split_and!; [done|lia|done|done].
  - intros (r & I & B & M & ->). exists r. split; [done|].
    apply list_elem_of_In, in_rev. rewrite rev_involutive. apply list_elem_of_In, elem_of_bfilter. split; [|done].
    rewrite M, andb_true_r. by apply Z.ltb_lt.
Qed.
Lemma selected_newest rows kind q : in_order rows -> newest_first (selected rows kind q).
Proof.
  intros S. unfold selected. induction S as [|r rows S IH F]; [constructor|]. cbn [List.filter].
  destruct (_ && _) eqn:C; [|done]. simpl. rewrite map_app. apply newest_first_app; [done|repeat constructor|].
  intros x y I ->%list_elem_of_singleton. apply elem_of_map in I as (r' & <- & I).
  apply list_elem_of_In, in_rev, list_elem_of_In, elem_of_bfilter in I as [_ I]. rewrite Forall_forall in F. by apply F.
Qed.
Lemma limit_bounds q : 1 <= limit q <= 100.
Proof. unfold limit. destruct (_ <? 1) eqn:A; [lia|]. destruct (100 <? _) eqn:B; lia. Qed.

(** A page is the newest of the selected rows, and all of them when it is the
    last. *)
Record page_of (rows : list MetaRow) (kind : string) (q : HistoryQuery) (listed : list pageRow) (next : option Z) : Prop := {
  page_listed : exists n, listed = take n (selected rows kind q);
  page_bound : Z.of_nat (List.length listed) <= 100;
  page_next : match next with
    | None => listed = selected rows kind q
    | Some c => exists z, last listed = Some z /\ c = row_seq z
    end;
}.
Lemma page_is rows kind q r : page holds decode boundSummary rows kind q = r ->
  exists listed next, page_of rows kind q listed next
    /\ r = (let! items := decode_items decode boundSummary listed in Ok (mkPage items next)).
Proof.
  unfold page, decodePage, pageRows. fold (selected rows kind q). pose proof (limit_bounds q) as Lq.
  set (l := selected rows kind q). unfold cut. rewrite length_take. intros <-.
  destruct (limit q <? _) eqn:C.
  - apply Z.ltb_lt in C. exists (take (Z.to_nat (limit q)) l), (row_seq <$> last (take (Z.to_nat (limit q)) l)).
    rewrite take_take, Nat.min_l by lia. split; [|done]. split; [by eexists|rewrite length_take; lia|].
    destruct (last (take _ l)) as [z|] eqn:E; simpl; [by exists z|]. apply last_None in E.
    assert (List.length (take (Z.to_nat (limit q)) l) = 0)%nat as E' by (by rewrite E). rewrite length_take in E'. lia.
  - apply Z.ltb_ge in C. exists l, None. rewrite take_ge by lia. split; [|done]. split; [exists (List.length l); by rewrite take_ge|lia|done].
Qed.
Lemma decode_items_app l l' items items' :
  decode_items decode boundSummary l = Ok items -> decode_items decode boundSummary l' = Ok items' ->
  decode_items decode boundSummary (l ++ l') = Ok (items ++ items').
Proof.
  revert items. induction l as [|r l IH]; intros items; simpl; [by intros [= <-]|]. destruct (decode _) as [x|]; [|done].
  rewrite result_bind_Ok. intros (rest & E & [= <-]) E'. by rewrite (IH _ E E').
Qed.

Lemma walk_shows fuel tables kind q items :
  (forall k, in_order (tables k)) -> walk fuel tables kind q = Some (Ok items) ->
  exists listed, decode_items decode boundSummary listed = Ok items /\ newest_first listed
  /\ (forall x, x ∈ listed -> exists k r, r ∈ tables k /\ Meta_Seq r < before q /\ matches kind q r = true /\ x = page_row r)
  /\ (forall r, (forall k, r ∈ tables k) -> Meta_Seq r < before q -> matches kind q r = true -> page_row r ∈ listed).
Proof.
  revert tables q items. induction fuel as [|fuel IH]; intros tables q items So; [done|]. cbn [Pages.walk].
  destruct (page _ _ _ _ _ _) as [p|err] eqn:P; [|done]. apply page_is in P as (listed & next & Pg & E).
  symmetry in E. apply result_bind_Ok in E as (shown & D & [= <-]). cbn [Page_NextCursor Page_Items].
  pose proof (selected_newest (tables O) kind q (So O)) as Ne. destruct (page_listed _ _ _ _ _ Pg) as [n En].
  assert (newest_first listed) as Nl by (rewrite En; by apply newest_first_take).
  assert (forall x, x ∈ listed -> x ∈ selected (tables O) kind q) as Sub.
  { intros x I. rewrite En in I. rewrite <- (take_drop n (selected _ _ _)). apply elem_of_app. by left. }
  pose proof (page_next _ _ _ _ _ Pg) as Nx. destruct next as [c|].
  - destruct Nx as (z & Lz & ->). destruct (walk fuel _ _ _) as [[rest|]|] eqn:W; [|done..]. intros [= <-].
    apply IH in W as (listed' & D' & N' & O' & C'); [|intros k; apply So].
    exists (listed ++ listed'). split_and!; [by apply decode_items_app| | |].
    + apply newest_first_app; [done..|]. intros x y I J. apply (newest_first_last _ _ _ Nl Lz) in I.
      destruct (O' y J) as (k & r & _ & B & _ & ->). cbn in *. lia.
    + intros x [I|I]%elem_of_app.
      * apply Sub, elem_of_selected in I as (r & I). by exists O, r.
      * destruct (O' x I) as (k & r & Ir & B & M & ->). exists (S k), r. split_and!; try done.
        cbn in B. pose proof (last_Some_elem_of _ _ Lz) as Iz. apply Sub, elem_of_selected in Iz as (rz & _ & Bz & _ & ->). cbn in *. lia.
    + intros r I B M. apply elem_of_app. destruct (decide (Meta_Seq r < row_seq z)) as [L|Ge].
      * right. apply C'; [intros k; apply (I (S k))|done|done].
      * left. assert (page_row r ∈ selected (tables O) kind q) as Is by (apply elem_of_selected; eauto).
        rewrite <- (take_drop n (selected _ _ _)), <- En in Is. apply elem_of_app in Is as [Is|Is]; [done|].
        pose proof (newest_first_drop n _ z (page_row r) Ne) as Dr. rewrite <- En in Dr.
        specialize (Dr (last_Some_elem_of _ _ Lz) Is). cbn in Dr. lia.
  - intros [= <-]. exists listed. split_and!; [done|done| |].
    + intros x (r & I)%Sub%elem_of_selected. by exists O, r.
    + intros r I B M. rewrite Nx. apply elem_of_selected. eauto.
Qed.
Lemma page_cursor rows kind q listed c : page_of rows kind q listed (Some c) ->
  exists r, r ∈ rows /\ Meta_Seq r < before q /\ c = Meta_Seq r.
Proof.
  intros Pg. destruct (page_next _ _ _ _ _ Pg) as (z & Lz & ->). apply last_Some_elem_of in Lz.
  destruct (page_listed _ _ _ _ _ Pg) as [n En].
  assert (z ∈ selected rows kind q) as I by (rewrite <- (take_drop n (selected _ _ _)), <- En; apply elem_of_app; by left).
  apply elem_of_selected in I as (r & I & L & _ & ->). eauto.
Qed.
(** The cursor of a page is below every row it was before. *)
Lemma walk_ends fuel tables kind q : (forall k, in_order (tables k)) -> (forall k r, r ∈ tables k -> 0 <= Meta_Seq r) ->
  0 <= before q < Z.of_nat fuel -> is_Some (walk fuel tables kind q).
Proof.
  revert tables q. induction fuel as [|fuel IH]; intros tables q So Po B; [lia|]. cbn [Pages.walk].
  destruct (page _ _ _ _ _ _) as [p|err] eqn:P; [|by eexists]. apply page_is in P as (listed & next & Pg & E).
  symmetry in E. apply result_bind_Ok in E as (shown & D & [= <-]). cbn [Page_NextCursor Page_Items].
  destruct next as [c|]; [|by eexists]. apply page_cursor in Pg as (r & I & L & ->). apply Po in I.
  destruct (IH (fun k => tables (S k)) (q <| Query_Before := Some (Meta_Seq r) |>)) as [r' W]; [intros k; apply So|intros k; apply Po|cbn; lia|].
  rewrite W. destruct r' as [items|]; by eexists.
Qed.
(** A row that was listed bounds the cursors that follow it. *)
Lemma walk_returns fuel tables kind q newest : (forall k, in_order (tables k)) -> (forall k r, r ∈ tables k -> 0 <= Meta_Seq r) ->
  (forall r, r ∈ tables O -> Meta_Seq r <= newest) -> 0 <= newest -> newest + 1 < Z.of_nat fuel -> is_Some (walk fuel tables kind q).
Proof.
  intros So Po Ne Ge L. destruct fuel as [|fuel]; [lia|]. cbn [Pages.walk].
  destruct (page _ _ _ _ _ _) as [p|err] eqn:P; [|by eexists]. apply page_is in P as (listed & next & Pg & E).
  symmetry in E. apply result_bind_Ok in E as (shown & D & [= <-]). cbn [Page_NextCursor Page_Items].
  destruct next as [c|]; [|by eexists]. apply page_cursor in Pg as (r & I & _ & ->).
  destruct (walk_ends fuel (fun k => tables (S k)) kind (q <| Query_Before := Some (Meta_Seq r) |>)) as [r' W];
    [intros k; apply So|intros k; apply Po|pose proof (Po _ _ I); pose proof (Ne _ I); cbn; lia|].
  rewrite W. destruct r' as [items|]; by eexists.
Qed.
Lemma walk_more fuel : forall fuel' tables kind q r, (fuel <= fuel')%nat -> walk fuel tables kind q = Some r -> walk fuel' tables kind q = Some r.
Proof.
  induction fuel as [|fuel IH]; intros [|fuel'] tables kind q r L; [done|done|lia|]. cbn [Pages.walk].
  destruct (page _ _ _ _ _ _) as [p|err]; [|done]. destruct (Page_NextCursor p) as [next|]; [|done].
  destruct (walk fuel _ _ _) as [r'|] eqn:W; [|done]. apply IH with (fuel' := fuel') in W; [|lia]. by rewrite W.
Qed.

(** C18: paging through a history ends and is complete.  While other parts insert and
    change records between the pages, the rows a reader is shown come newest
    first, so none twice; each was in the history when it was shown and
    matches; and every matching row that stays in the history is shown. *)
Theorem walk_complete tables kind q newest :
  (forall k, in_order (tables k)) -> (forall k r, r ∈ tables k -> 0 <= Meta_Seq r) ->
  0 <= newest -> (forall r, r ∈ tables O -> Meta_Seq r <= newest) ->
  exists outcome, (forall fuel, newest + 1 < Z.of_nat fuel -> walk fuel tables kind q = Some outcome)
  /\ forall items, outcome = Ok items ->
     exists listed, decode_items decode boundSummary listed = Ok items /\ newest_first listed
     /\ (forall x, x ∈ listed -> exists k r, r ∈ tables k /\ Meta_Seq r < before q /\ matches kind q r = true /\ x = page_row r)
     /\ (forall r, (forall k, r ∈ tables k) -> Meta_Seq r < before q -> matches kind q r = true -> page_row r ∈ listed).
Proof.
  intros So Po Ge Ne. destruct (walk_returns (Z.to_nat (newest + 2)) tables kind q newest) as [outcome W]; [done..|lia|].
  exists outcome. split; [intros fuel L; eapply walk_more; [|exact W]; lia|]. intros items ->. by eapply walk_shows.
Qed.
End facts.

(** ** A history of three rows *)

Definition history_row (n : Z) : MetaRow := mkMetaRow "t" n "queued" "acme/widgets" false "{}".
Definition two_a_page : HistoryQuery := mkHistoryQuery None (Some 2) None None None "acme/widgets".
Definition histories (k : nat) : list MetaRow :=
  match k with O => map history_row [1; 2; 3] | _ => map history_row [1; 2; 3; 4] end.
Definition numbered (text : string) : result string error := Ok text.
Lemma histories_in_order k : in_order (histories k).
Proof. destruct k; repeat constructor. Qed.
Lemma histories_counted k r : r ∈ histories k -> 0 <= Meta_Seq r.
Proof. destruct k; cbn; rewrite !elem_of_cons, elem_of_nil; intuition (subst; cbn; lia). Qed.
Lemma walk_complete_witness :
  exists outcome, walk (fun _ _ _ => true) numbered (fun x => x) 6 histories "task" two_a_page = Some outcome
  /\ outcome = Ok ["{}"; "{}"; "{}"].
Proof.
  destruct (walk_complete (fun _ _ _ => true) numbered (fun x => x) histories "task" two_a_page 3) as (outcome & W & _).
  - exact histories_in_order.
  - exact histories_counted.
  - lia.
  - cbn. intros r. rewrite !elem_of_cons, elem_of_nil. intuition (subst; cbn; lia).
  - exists outcome. split; [by apply W|]. specialize (W 6%nat eq_refl). vm_compute in W. by injection W as <-.
Defined.
