(* ===== verification/Repositories.v ===== *)
(** * The repositories of an instance ([internal/store/repositories.go])

    The registry: the repositories in the order they were registered, each with
    the directory below the data directory that holds its workspaces.  Before
    the first registration there is only the repository of the configuration,
    in the data directory itself. *)
From S2P Require Import Prelude GoStrings Utf8 Enums Types GoErrors Config Model Paths Samples Store Runtime.
Local Open Scope string_scope.
Local Open Scope list_scope.
Local Open Scope N_scope.

Record RepositoryEntry := mkRepositoryEntry { RepositoryEntry_GitHubRepo : string; RepositoryEntry_DataDir : string }.
#[export] Instance RepositoryEntry_eq_dec : EqDecision RepositoryEntry.
Proof. solve_decision. Defined.
#[export] Instance eta_RepositoryEntry : Eta RepositoryEntry := fun r =>
  mkRepositoryEntry (RepositoryEntry_GitHubRepo r) (RepositoryEntry_DataDir r).

(** [url.PathEscape]: a byte is kept, or written as two digits. *)
Definition path_safe (c : ascii) : bool :=
  let n := N_of_ascii c in
  in_range 97 122 n || in_range 65 90 n || in_range 48 57 n || char_in c "-_.~$&+=:@".
Definition upperhex (d : N) : ascii := if d <? 10 then ascii_of_N (48 + d) else ascii_of_N (55 + d).
Definition escape_byte (c : ascii) : list ascii :=
  if path_safe c then [c] else ["%"%char; upperhex (N_of_ascii c / 16); upperhex (N_of_ascii c mod 16)].
Definition PathEscape (s : string) : string := str (flat_map escape_byte (chars s)).
Definition RepositorySlug `{Unicode} (repo : string) : string := PathEscape (ToLower repo).

Definition normalizeEntry (e : RepositoryEntry) : result RepositoryEntry error :=
  guard negb (bool_decide (RepositoryEntry_GitHubRepo e = "")) else New "Repository identity must not be empty";
  let dir := if bool_decide (RepositoryEntry_DataDir e = "") then "." else RepositoryEntry_DataDir e in
  let clean := Clean dir in
  guard negb (IsAbs clean || bool_decide (clean = "..") || HasPrefix clean "../")
    else Errorf "Repository data directory %q must stay inside the instance data directory" [VStr dir];
  Ok (e <| RepositoryEntry_DataDir := clean |>).

(** The registry, the saved configuration of the primary repository, and the
    primary repository a store handle has read. *)
Record Registry := mkRegistry { registry_saved : option (list RepositoryEntry); registry_config : option Config; registry_primary : string }.
#[export] Instance eta_Registry : Eta Registry := fun r =>
  mkRegistry (registry_saved r) (registry_config r) (registry_primary r).

(** The one repository of a database that has no registry. *)
Definition legacy (config : option Config) : list RepositoryEntry :=
  match config with
  | Some cfg => if bool_decide (Config_GitHubRepo cfg = "") then [] else [mkRepositoryEntry (Config_GitHubRepo cfg) "."]
  | None => []
  end.
Definition Repositories (r : Registry) : list RepositoryEntry :=
  match registry_saved r with Some entries => entries | None => legacy (registry_config r) end.
Definition RegisteredPrimary (r : Registry) : string :=
  match registry_saved r with Some (entry :: _) => RepositoryEntry_GitHubRepo entry | _ => "" end.
Definition loadPrimary (r : Registry) : Registry :=
  match registry_saved r with
  | Some (entry :: _) => r <| registry_primary := RepositoryEntry_GitHubRepo entry |>
  | _ => match registry_config r with
         | Some cfg => r <| registry_primary := Config_GitHubRepo cfg |>
         | None => r
         end
  end.
(** The entries in order; [Ok None] leaves the registry as it is. *)
Fixpoint register_in (entry : RepositoryEntry) (entries : list RepositoryEntry) : result bool error :=
  match entries with
  | [] => Ok true
  | existing :: entries =>
    if EqualASCII (RepositoryEntry_GitHubRepo existing) (RepositoryEntry_GitHubRepo entry) then Ok false else
    if bool_decide (RepositoryEntry_DataDir existing = RepositoryEntry_DataDir entry)
    then Err (Errorf "Repository data directory %q already belongs to %s"
                [VStr (RepositoryEntry_DataDir entry); VStr (RepositoryEntry_GitHubRepo existing)])
    else register_in entry entries
  end.
Definition RegisterRepository (entry : RepositoryEntry) (r : Registry) : result unit error * Registry :=
  match normalizeEntry entry with
  | Err err => (Err err, r)
  | Ok entry =>
    let entries := Repositories r in
    match register_in entry entries with
    | Err err => (Err err, r)
    | Ok added =>
      let r := if added then r <| registry_saved := Some (entries ++ [entry]) |> else r in
      (Ok tt, if bool_decide (registry_primary r = "") then loadPrimary r else r)
    end
  end.

(** The repository that owns a record, and whether it is known. *)
Definition RecordRepository (kind id : string) (db : Db) : result (string * bool) error :=
  let found (repo : option string) := Ok (match repo with Some repo => (repo, negb (bool_decide (repo = ""))) | None => ("", false) end) in
  if bool_decide (kind = "task") then found ((fun t => Config_GitHubRepo (Task_Config t)) <$> db_tasks db !! id) else
  if bool_decide (kind = "cycle") then found (Cycle_Repository <$> db_cycles db !! id) else
  if bool_decide (kind = "pr") then found (PRObservation_Repository <$> row_get id (db_prs db)) else
  if bool_decide (kind = "baseline") then found ((fun b => Config_GitHubRepo (BaselineCheck_Config b)) <$> db_baselines db !! id) else
  if bool_decide (kind = "request") then found (OperatorRequest_Repository <$> db_requests db !! id) else
  Err (Errorf "Unknown record kind %q" [VStr kind]).

(** * Properties *)

(** ** The slug of a repository *)

(** Reading back one byte. *)
Definition hex_of (c : ascii) : N := let n := N_of_ascii c in if n <? 65 then n - 48 else n - 55.
Definition unescape (l : list ascii) : option (ascii * list ascii) :=
  match l with
  | [] => None
  | c :: rest =>
    if bool_decide (c = "%"%char) then
      match rest with a :: b :: rest => Some (ascii_of_N (hex_of a * 16 + hex_of b), rest) | _ => None end
    else Some (c, rest)
  end.
Lemma unescape_escape c k : unescape (escape_byte c ++ k) = Some (c, k).
Proof. destruct c as [[] [] [] [] [] [] [] []]; reflexivity. Qed.
Lemma escape_inj l l' : flat_map escape_byte l = flat_map escape_byte l' -> l = l'.
Proof.
  revert l'. induction l as [|c l IH]; intros [|c' l'] E; cbn [flat_map] in E; [done| | |].
  - pose proof (unescape_escape c' (flat_map escape_byte l')) as U. by rewrite <- E in U.
  - pose proof (unescape_escape c (flat_map escape_byte l)) as U. by rewrite E in U.
  - pose proof (unescape_escape c (flat_map escape_byte l)) as U. rewrite E, unescape_escape in U.
    injection U as -> U. f_equal. by apply IH.
Qed.
Lemma escape_byte_slash c : slash ∉ escape_byte c.
Proof. destruct c as [[] [] [] [] [] [] [] []]; vm_compute; set_solver. Qed.
(** A slug is one path component, and names one repository up to case. *)
Lemma RepositorySlug_component `{Unicode} repo : no_slash (RepositorySlug repo).
Proof.
  unfold RepositorySlug, PathEscape, no_slash. rewrite chars_str. induction (chars (ToLower repo)) as [|c l IH]; [by intros ?%elem_of_nil|].
  cbn [flat_map]. rewrite elem_of_app. intros [I|I]; [by eapply escape_byte_slash|done].
Qed.
Lemma RepositorySlug_inj `{Unicode} a b : RepositorySlug a = RepositorySlug b -> ToLower a = ToLower b.
Proof.
  unfold RepositorySlug, PathEscape. intros E. apply (f_equal chars) in E. rewrite !chars_str in E. apply escape_inj in E.
  by rewrite <- (str_chars (ToLower a)), E, str_chars.
Qed.

(** ** Directories inside the data directory *)

(** The parts of a cleaned relative path: how far it leads up, then down. *)
Lemma clean_rel_parts parts : Forall no_slash parts ->
  exists up down, clean_parts false parts = repeat ".." up ++ down /\ Forall plain_part down.
Proof.
  intros F. unfold clean_parts.
  assert (forall acc, (exists up down, acc = down ++ repeat ".." up /\ Forall plain_part down) ->
    exists up down, foldl (clean_step false) acc parts = down ++ repeat ".." up /\ Forall plain_part down) as K.
  { induction F as [|a l Na _ IH]; intros acc A; [done|]. cbn [foldl]. apply IH. destruct A as (up & down & -> & D).
    unfold clean_step. destruct (bool_decide (a = "") || _) eqn:E1; [by eauto|]. bool_hyps.
    destruct (bool_decide_reflect (a = "..")) as [->|Nd].
    - destruct D as [|top below Pt Pb]; cbn [app].
      + exists (S up), []. split; [|constructor]. by destruct up.
      + destruct Pt as (_ & _ & _ & Nt). rewrite bool_decide_eq_false_2 by done. by exists up, below.
    - exists up, (a :: down). split; [done|]. constructor; [|done]. by split_and!. }
  destruct (K []) as (up & down & -> & D); [by exists O, []; split; [|constructor]|].
  exists up, (rev down). rewrite rev_app_distr, rev_repeat. split; [done|by apply Forall_rev].
Qed.
(** A directory below the data directory, or the data directory itself. *)
Definition inside (dir : string) : Prop := exists parts, Forall plain_part parts /\ dir = match parts with [] => "." | _ => Join parts "/" end.
Lemma normalizeEntry_inside e e' : normalizeEntry e = Ok e' ->
  inside (RepositoryEntry_DataDir e') /\ RepositoryEntry_GitHubRepo e' = RepositoryEntry_GitHubRepo e /\ RepositoryEntry_GitHubRepo e' <> "".
Proof.
  unfold normalizeEntry. rewrite !guard_Ok, !negb_true_iff, !orb_false_iff. set (dir := if bool_decide (RepositoryEntry_DataDir e = "") then "." else RepositoryEntry_DataDir e).
  intros (Ne & [[Ab Up] Pre] & [= <-]). bool_hyps. split; [|done].
  change (inside (Clean dir)). clearbody dir. unfold Clean in *. destruct (IsAbs dir).
  { unfold IsAbs in Ab. by rewrite HasPrefix_app in Ab. }
  destruct (clean_rel_parts _ (Split_no_slash dir)) as (up & down & E & D). rewrite E in *. destruct up as [|up].
  - by exists down.
  - exfalso. cbn [repeat app] in *. destruct (repeat ".." up ++ down) as [|part rest]; [by apply Up|].
    rewrite Join_cons in Pre. change (".." +:+ "/" +:+ Join (part :: rest) "/") with ("../" +:+ Join (part :: rest) "/") in Pre.
    by rewrite HasPrefix_app in Pre.
Qed.

(** ** The registry *)

Record entries_ok (entries : list RepositoryEntry) : Prop := {
  ok_distinct : forall i j a b, entries !! i = Some a -> entries !! j = Some b ->
    EqualASCII (RepositoryEntry_GitHubRepo a) (RepositoryEntry_GitHubRepo b) = true
    \/ RepositoryEntry_DataDir a = RepositoryEntry_DataDir b -> i = j;
  ok_inside : Forall (fun e => inside (RepositoryEntry_DataDir e) /\ RepositoryEntry_GitHubRepo e <> "") entries;
}.
Lemma register_in_new entry entries : register_in entry entries = Ok true -> forall e, e ∈ entries ->
  EqualASCII (RepositoryEntry_GitHubRepo e) (RepositoryEntry_GitHubRepo entry) = false
  /\ RepositoryEntry_DataDir e <> RepositoryEntry_DataDir entry.
Proof.
  induction entries as [|x l IH]; [by intros _ e ?%elem_of_nil|]. simpl. destruct (EqualASCII _ _) eqn:E; [done|].
  case_bool_decide as D; [done|]. intros R e [->|I]%elem_of_cons; [done|by apply IH].
Qed.
Lemma entries_ok_legacy config : entries_ok (legacy config).
Proof.
  assert (entries_ok []) as E by (split; [done|constructor]). unfold legacy. destruct config as [cfg|]; [|done].
  case_bool_decide; [done|]. split; [by intros [|i] [|j] a b|]. constructor; [|constructor].
  split; [by exists []; split; [constructor|]|done].
Qed.
Lemma entries_ok_snoc entries entry : entries_ok entries -> inside (RepositoryEntry_DataDir entry) ->
  RepositoryEntry_GitHubRepo entry <> "" -> register_in entry entries = Ok true -> entries_ok (entries ++ [entry]).
Proof.
  intros [Di In] I Ne R. pose proof (register_in_new _ _ R) as New. split; [|by apply Forall_app; split; [|repeat constructor]].
  intros i j a b Ia Jb C.
  apply lookup_snoc_Some in Ia as [[Li Ia]|[-> ->]]; apply lookup_snoc_Some in Jb as [[Lj Jb]|[-> ->]]; [by eapply Di| | |done].
  - apply list_elem_of_lookup_2 in Ia. destruct (New _ Ia) as [E D]. destruct C as [C|C]; [by rewrite C in E|done].
  - apply list_elem_of_lookup_2 in Jb. destruct (New _ Jb) as [E D]. destruct C as [C|C]; [|by rewrite C in D].
    rewrite EqualASCII_sym, C in E. done.
Qed.

(** What may happen to a registry. *)
Inductive registry_op := Register (entry : RepositoryEntry) | SaveConfig (cfg : Config) | Reopen.
Definition registry_step (r : Registry) (op : registry_op) : Registry :=
  match op with
  | Register entry => snd (RegisterRepository entry r)
  | SaveConfig cfg => r <| registry_config := Some cfg |>
  | Reopen => loadPrimary (r <| registry_primary := "" |>)
  end.
Definition registry_run : list registry_op -> Registry -> Registry := fun ops r => foldl registry_step r ops.
Lemma loadPrimary_saved r : registry_saved (loadPrimary r) = registry_saved r.
Proof.
  unfold loadPrimary. destruct (registry_saved r) as [[|e l]|] eqn:E; [destruct (registry_config r)|..]; try exact E.
  by destruct (registry_config r).
Qed.
(** One step keeps the entries sound and only appends to a saved registry. *)
Definition sound (r : Registry) : Prop := forall entries, registry_saved r = Some entries -> entries_ok entries.
Lemma registry_step_spec r op : sound r -> sound (registry_step r op)
  /\ forall entries, registry_saved r = Some entries -> exists more, registry_saved (registry_step r op) = Some (entries ++ more).
Proof.
  intros S. assert (forall r', registry_saved r' = registry_saved r -> sound r' /\ forall entries, registry_saved r = Some entries ->
    exists more, registry_saved r' = Some (entries ++ more)) as Same.
  { intros r' E. unfold sound. rewrite E. split; [exact S|]. intros entries ->. exists []. by rewrite app_nil_r. }
  destruct op as [entry|cfg|]; cbn [registry_step]; [|by apply (Same (r <| registry_config := Some cfg |>))|apply Same; by rewrite loadPrimary_saved].
  unfold RegisterRepository. destruct (normalizeEntry entry) as [e|err] eqn:N; [|by apply Same].
  apply normalizeEntry_inside in N as (In & _ & Ne). destruct (register_in e (Repositories r)) as [added|err] eqn:R; [|by apply Same].
  cbn [snd]. assert (forall (b : bool) r', registry_saved (if b then loadPrimary r' else r') = registry_saved r') as L
    by (intros [] r'; [apply loadPrimary_saved|done]).
  destruct added; [|apply Same; by rewrite L]. unfold sound. rewrite L. cbn.
  assert (entries_ok (Repositories r)) as Ok_.
  { unfold Repositories. destruct (registry_saved r) as [l|] eqn:E; [by apply S|apply entries_ok_legacy]. }
  split; [intros l [= <-]; by apply entries_ok_snoc|]. intros l E. unfold Repositories. rewrite E. by eexists.
Qed.
Lemma registry_run_spec ops : forall r, sound r -> sound (registry_run ops r)
  /\ forall entries, registry_saved r = Some entries -> exists more, registry_saved (registry_run ops r) = Some (entries ++ more).
Proof.
  induction ops as [|op ops IH]; intros r S; cbn; [split; [done|]; intros l ->; exists []; by rewrite app_nil_r|].
  destruct (registry_step_spec r op S) as [S1 A1]. destruct (IH _ S1) as [S2 A2]. split; [exact S2|].
  intros l (more & E)%A1. destruct (A2 _ E) as (more' & E'). exists (more ++ more'). by rewrite app_assoc.
Qed.
(** C25: repositories never share a directory.  Whatever is registered, however
    the configuration changes and the service restarts, no two registered
    repositories are the same up to case or have the same directory, every
    directory is the data directory or below it, and an entry keeps its place
    and its directory for good. *)
Theorem registrations_sound config primary ops ops' :
  let r := registry_run ops (mkRegistry None config primary) in
  entries_ok (Repositories r)
  /\ forall entries, registry_saved r = Some entries -> exists more, registry_saved (registry_run ops' r) = Some (entries ++ more).
Proof.
  cbv zeta. destruct (registry_run_spec ops (mkRegistry None config primary)) as [S _]; [done|].
  split; [|by apply registry_run_spec]. unfold Repositories. destruct (registry_saved _) as [l|] eqn:E; [by apply S|apply entries_ok_legacy].
Qed.

(** ** Three repositories *)

Definition registered (ops : list registry_op) : Registry := registry_run ops (mkRegistry None (Some sample_config) "").
Definition three : list registry_op :=
  [Register (mkRepositoryEntry "acme/gears" "repos/acme%2Fgears"); Register (mkRepositoryEntry "ACME/Widgets" "elsewhere");
   Register (mkRepositoryEntry "acme/cogs" "repos/x/../acme%2Fgears"); Register (mkRepositoryEntry "acme/cogs" "../cogs");
   Register (mkRepositoryEntry "acme/cogs" "repos/./acme%2Fcogs/")].
Example three_registered :
  registry_saved (registered three) = Some [mkRepositoryEntry "acme/widgets" "."; mkRepositoryEntry "acme/gears" "repos/acme%2Fgears";
                                            mkRepositoryEntry "acme/cogs" "repos/acme%2Fcogs"]
  /\ registry_primary (registered three) = "acme/widgets" /\ RepositorySlug "Acme/Gears" = "acme%2Fgears".
Proof. by vm_compute. Qed.
Lemma registrations_sound_witness :
  exists more, registry_saved (registered three) = Some (default [] (registry_saved (registered (take 1 three))) ++ more).
Proof. apply (registrations_sound (Some sample_config) "" (take 1 three) (drop 1 three)). by vm_compute. Defined.
