(* ===== verification/Interact.v ===== *)
(** * Programs that act beside others

    A program asks one thing after another and goes on with each answer
    ([prog]).  It can be [perform]ed alone on a state, or held to a rule on
    what it does in every world ([follows]): each of its deeds must be
    permitted by its own earlier ones, whatever it was answered. *)
From S2P Require Import Prelude.
Local Open Scope list_scope.

Inductive prog (E : Type -> Type) (A : Type) : Type :=
| Ret (a : A)
| Call {X : Type} (e : E X) (k : X -> prog E A).
Arguments Ret {E A} a.
Arguments Call {E A X} e k.

Fixpoint prog_bind {E A B} (m : prog E A) (k : A -> prog E B) : prog E B :=
  match m with
  | Ret a => k a
  | Call e h => Call e (fun x => prog_bind (h x) k)
  end.
Definition request {E X} (e : E X) : prog E X := Call e (fun x => Ret x).
Notation "'do!' x <- m 'in' k" := (prog_bind m (fun x => k))
  (at level 10, x name, m at level 100, k at level 200) : go_scope.
Notation "'do!' '_' <- m 'in' k" := (prog_bind m (fun _ => k))
  (at level 10, m at level 100, k at level 200) : go_scope.

(** A program over part of what another can ask. *)
Fixpoint embed {E F A} (f : forall X, E X -> F X) (m : prog E A) : prog F A :=
  match m with
  | Ret a => Ret a
  | Call e k => Call (f _ e) (fun x => embed f (k x))
  end.

(** ** Alone on a state *)

Section perform.
Context {E : Type -> Type} {St : Type} (answer : forall X, E X -> St -> X * St).

Fixpoint perform {A} (m : prog E A) (s : St) : A * St :=
  match m with
  | Ret a => (a, s)
  | Call e k => let '(x, s) := answer _ e s in perform (k x) s
  end.
Lemma perform_bind {A B} (m : prog E A) (k : A -> prog E B) s :
  perform (prog_bind m k) s = let '(a, s') := perform m s in perform (k a) s'.
Proof.
  revert s. induction m as [a|X e h IH]; intros s; simpl; [done|].
  destruct (answer X e s) as [x s']. apply IH.
Qed.
End perform.

(** ** In every world *)

Section follows.
Context {E : Type -> Type} {D : Type} (emits : forall X, E X -> X -> list D) (permitted : list D -> D -> Prop).

Fixpoint admitted (hist ds : list D) : Prop :=
  match ds with
  | [] => True
  | d :: ds => permitted hist d /\ admitted (hist ++ [d]) ds
  end.
Fixpoint follows {A} (hist : list D) (m : prog E A) (Q : list D -> A -> Prop) : Prop :=
  match m with
  | Ret a => Q hist a
  | Call e k => forall x, admitted hist (emits _ e x) /\ follows (hist ++ emits _ e x) (k x) Q
  end.

Lemma follows_mono {A} hist (m : prog E A) (Q R : list D -> A -> Prop) :
  follows hist m Q -> (forall hist a, Q hist a -> R hist a) -> follows hist m R.
Proof.
  revert hist. induction m as [a|X e k IH]; intros hist F I; simpl in *; [by apply I|].
  intros x. destruct (F x) as [Ad F']. split; [done|]. by apply IH.
Qed.
Lemma follows_bind {A B} hist (m : prog E A) (k : A -> prog E B) (Q : list D -> B -> Prop) :
  follows hist m (fun hist a => follows hist (k a) Q) -> follows hist (prog_bind m k) Q.
Proof.
  revert hist. induction m as [a|X e h IH]; intros hist F; simpl in *; [done|].
  intros x. destruct (F x) as [Ad F']. split; [done|]. by apply IH.
Qed.
Lemma follows_step {A B} hist (m : prog E A) (k : A -> prog E B) (P : list D -> A -> Prop) (Q : list D -> B -> Prop) :
  follows hist m P -> (forall hist a, P hist a -> follows hist (k a) Q) -> follows hist (prog_bind m k) Q.
Proof. intros F I. apply follows_bind. by eapply follows_mono. Qed.
End follows.
