(* ===== verification/Leases.v ===== *)
(** * Egress leases ([internal/egress/lease.go])

    The directory that says which proxy credential belongs to which live
    sandbox.  Granting, revoking and reading a lease are programs over the
    calls of the file system; [run_dir] performs one alone on a directory in
    which any call may fail.  SHA-256, its text, and the JSON of a lease are
    libraries; [loginLease] of [cmd/octomus-agent/sandbox.go] is here too. *)
From S2P Require Import Prelude GoStrings GoErrors NetIP Strconv EgressPolicy Interact.
Local Open Scope string_scope.
Local Open Scope list_scope.
Local Open Scope N_scope.

Record Lease := mkLease { Lease_Sandbox : string; Lease_Kind : string }.
#[export] Instance Lease_eq_dec : EqDecision Lease.
Proof. solve_decision. Defined.

Definition proxyUser : string := "sandbox".
Definition tokenBytes : N := 32.
Definition tempPrefix : string := ".lease-".
Definition maxLeaseBytes : N := 4096.

(** The libraries: the hex text of a SHA-256 digest, [json.Marshal] of a lease
    and [wirejson.DecodeRecord] of one. *)
Class LeaseText := {
  sha256_hex : string -> string;
  marshal_lease : Lease -> result string error;
  decode_lease : string -> result Lease error;
  (** A lease reads back, and no error of the decoder is [os.ErrNotExist]. *)
  decode_marshal lease data : marshal_lease lease = Ok data -> decode_lease data = Ok lease;
  decode_error data err : decode_lease data = Err err -> error_is "file does not exist" err = false;
}.

(** The calls of [os] and [crypto/rand] that are made.  [ReadAll name limit]
    opens a file and reads at most [limit] bytes of it. *)
Inductive os : Type -> Type :=
| RandomBytes : os (list ascii)
| CreateTemp (prefix : string) : os (result string error)
| WriteTemp (name data : string) : os (result unit error)
| CloseTemp (name : string) : os (result unit error)
| Rename (from into : string) : os (result unit error)
| RemoveFile (name : string) : os (result unit error)
| ReadDir : os (result (list string) error)
| LstatRegular (name : string) : os (result bool error)
| ReadAll (name : string) (limit : N) : os (result string error)
| StatFile (name : string) : os (result unit error)
| WriteOut (file text : string) : os (result unit error).

Definition ErrNotExist : error := New "file does not exist".
Definition not_exist (err : error) : bool := error_is "file does not exist" err.

Section leases.
Context `{LeaseText}.

Definition leaseFile (token : string) : string := sha256_hex token +:+ ".json".
Definition hex_text (l : list ascii) : string :=
  str (flat_map (fun c => [lowerhex (N_of_ascii c / 16); lowerhex (N_of_ascii c mod 16)]) l).

Definition Grant (sandbox kind : string) : prog os (result string error) :=
  do! secret <- request RandomBytes in
  let token := hex_text secret in
  match marshal_lease (mkLease sandbox kind) with
  | Err err => Ret (Err err)
  | Ok data =>
    do! temp <- request (CreateTemp tempPrefix) in
    match temp with
    | Err err => Ret (Err err)
    | Ok temp =>
      do! wrote <- request (WriteTemp temp data) in
      match wrote with
      | Err err =>
        do! _ <- request (CloseTemp temp) in
        do! _ <- request (RemoveFile temp) in
        Ret (Err err)
      | Ok _ =>
        do! closed <- request (CloseTemp temp) in
        match closed with
        | Err err => do! _ <- request (RemoveFile temp) in Ret (Err err)
        | Ok _ =>
          do! renamed <- request (Rename temp (leaseFile token)) in
          match renamed with
          | Err err => do! _ <- request (RemoveFile temp) in Ret (Err err)
          | Ok _ => Ret (Ok token)
          end
        end
      end
    end
  end.

Definition Revoke (token : string) : prog os (result unit error) :=
  do! removed <- request (RemoveFile (leaseFile token)) in
  match removed with
  | Err err => if not_exist err then Ret (Ok tt) else Ret (Err err)
  | Ok _ => Ret (Ok tt)
  end.

Definition readLease (file : string) : prog os (result Lease error) :=
  do! info <- request (LstatRegular file) in
  match info with
  | Err err => Ret (Err err)
  | Ok false => Ret (Err (New "Egress lease metadata is not a regular file"))
  | Ok true =>
    do! data <- request (ReadAll file (maxLeaseBytes + 1)) in
    match data with
    | Err err => Ret (Err err)
    | Ok data =>
      if maxLeaseBytes <? slen data then Ret (Err (New "Egress lease metadata exceeds its size limit")) else
      match decode_lease data with
      | Err err => Ret (Err err)
      | Ok lease =>
        if bool_decide (Lease_Sandbox lease = "") || bool_decide (Lease_Kind lease = "")
        then Ret (Err (New "Egress lease metadata is incomplete")) else Ret (Ok lease)
      end
    end
  end.

(** [errors.Join]: nil when no error was kept. *)
Definition join_errors (errs : list error) : result unit error :=
  match errs with [] => Ok tt | _ => Err (Errorf "%w" (map VWrap errs)) end.
(** Removing a file that may be gone already. *)
Definition remove_errors (removed : result unit error) : list error :=
  match removed with
  | Err err => if not_exist err then [] else [err]
  | Ok _ => []
  end.
Fixpoint revoke_logins (names : list string) (errs : list error) : prog os (list error) :=
  match names with
  | [] => Ret errs
  | name :: rest =>
    if negb (HasSuffix name ".json") then revoke_logins rest errs else
    do! read <- readLease name in
    match read with
    | Err err =>
      if not_exist err then revoke_logins rest errs
      else revoke_logins rest (errs ++ [Errorf "Inspecting egress lease metadata %s: %w" [VStr name; VWrap err]])
    | Ok lease =>
      if negb (bool_decide (Lease_Sandbox lease = "login")) then revoke_logins rest errs else
      do! removed <- request (RemoveFile name) in
      revoke_logins rest (errs ++ remove_errors removed)
    end
  end.
Definition RevokeLogin : prog os (result unit error) :=
  do! entries <- request ReadDir in
  match entries with
  | Err err => Ret (Err err)
  | Ok names => do! errs <- revoke_logins names [] in Ret (join_errors errs)
  end.

Definition lease_name (name : string) : bool := HasSuffix name ".json" || HasPrefix name tempPrefix.
Fixpoint clear_files (names : list string) (errs : list error) : prog os (list error) :=
  match names with
  | [] => Ret errs
  | name :: rest =>
    if lease_name name then
      do! removed <- request (RemoveFile name) in
      clear_files rest (errs ++ remove_errors removed)
    else clear_files rest errs
  end.
Definition Clear : prog os (result unit error) :=
  do! entries <- request ReadDir in
  match entries with
  | Err err => Ret (Err err)
  | Ok names => do! errs <- clear_files names [] in Ret (join_errors errs)
  end.

(** [hex.DecodeString] succeeds. *)
Definition is_hex (l : list ascii) : bool := Nat.even (List.length l) && forallb hex_digit l.
Definition lookup (token : string) : prog os (option (Lease * string)) :=
  if negb (slen token =? 2 * tokenBytes) then Ret None else
  if negb (is_hex (chars token)) then Ret None else
  let file := leaseFile token in
  do! read <- readLease file in
  match read with
  | Err _ => Ret None
  | Ok lease => Ret (Some (lease, file))
  end.
Definition revoked (file : string) : prog os bool :=
  do! found <- request (StatFile file) in
  Ret match found with Err err => not_exist err | Ok _ => false end.

Definition ProxyURL (proxy token : string) : string :=
  "http://" +:+ proxyUser +:+ ":" +:+ token +:+ "@" +:+ proxy.
Definition ProxyEnv `{Unicode} (proxy token : string) : list string :=
  let address := ProxyURL proxy token in
  flat_map (fun name => [name +:+ "=" +:+ address; ToLower name +:+ "=" +:+ address])
    ["HTTP_PROXY"; "HTTPS_PROXY"; "ALL_PROXY"]
  ++ ["NO_PROXY=localhost,127.0.0.1,::1"; "no_proxy=localhost,127.0.0.1,::1"].

(** [loginLease], its environment read through [envOr] with an empty default. *)
Definition loginLease (envOr : string -> string) : prog os (result unit error) :=
  match List.find (fun key => bool_decide (envOr key = ""))
          ["OCTOMUS_EGRESS_LEASES"; "OCTOMUS_EGRESS_PROXY"; "OCTOMUS_LOGIN_PROXY_FILE"] with
  | Some key => Ret (Err (Errorf "%s is required" [VStr key]))
  | None =>
    do! cleared <- RevokeLogin in
    match cleared with
    | Err err => Ret (Err (Errorf "Revoking the previous runner login egress leases: %w" [VWrap err]))
    | Ok _ =>
      do! granted <- Grant "login" KindRunner in
      match granted with
      | Err err => Ret (Err err)
      | Ok token =>
        do! wrote <- request (WriteOut (envOr "OCTOMUS_LOGIN_PROXY_FILE")
                                (ProxyURL (envOr "OCTOMUS_EGRESS_PROXY") token +:+ str [ascii_of_N 10])) in
        match wrote with
        | Ok _ => Ret (Ok tt)
        | Err err =>
          do! undone <- Revoke token in
          match undone with
          | Err undo => Ret (join_errors [err; Errorf "Revoking the unwritten runner login egress lease failed; retry login or restart the sandbox broker to clear remaining authorization: %w" [VWrap undo]])
          | Ok _ => Ret (Err err)
          end
        end
      end
    end
  end.
End leases.

(** ** The directory *)

(** What a name in the directory is, and the files written elsewhere. *)
Inductive entry := Regular (data : string) | Irregular.
Record LeaseDir := mkLeaseDir { dir_files : gmap string entry; dir_out : gmap string string; dir_calls : nat }.
#[export] Instance eta_LeaseDir : Eta LeaseDir := fun r => mkLeaseDir (dir_files r) (dir_out r) (dir_calls r).

(** The random bytes, the names of temporary files, and which calls fail though
    the file is there.  A failed write is taken to leave the file as it was. *)
Class DirWorld := {
  random_bytes : nat -> list ascii;
  temp_suffix : nat -> string;
  dir_fault : nat -> option error;
  dir_fault_found n err : dir_fault n = Some err -> not_exist err = false;
}.

Section dir.
Context `{DirWorld}.

(** The [n]-th call, none but these writing the directory meanwhile. *)
Definition dir_call (n : nat) {X} (q : os X) (d : LeaseDir) : X * LeaseDir :=
  match q in os X return X * LeaseDir with
  | RandomBytes => (random_bytes n, d)
  | CreateTemp prefix =>
    let name := prefix +:+ temp_suffix n in
    match dir_fault n, dir_files d !! name with
    | Some err, _ => (Err err, d)
    | None, Some _ => (Err (New "file exists"), d)
    | None, None => (Ok name, d <| dir_files := <[name := Regular ""]> (dir_files d) |>)
    end
  | WriteTemp name data =>
    match dir_fault n with
    | Some err => (Err err, d)
    | None => (Ok tt, d <| dir_files := <[name := Regular data]> (dir_files d) |>)
    end
  | CloseTemp _ => (match dir_fault n with Some err => Err err | None => Ok tt end, d)
  | Rename from into =>
    match dir_fault n, dir_files d !! from with
    | Some err, _ => (Err err, d)
    | None, None => (Err ErrNotExist, d)
    | None, Some e => (Ok tt, d <| dir_files := <[into := e]> (delete from (dir_files d)) |>)
    end
  | RemoveFile name =>
    match dir_files d !! name, dir_fault n with
    | None, _ => (Err ErrNotExist, d)
    | Some _, Some err => (Err err, d)
    | Some _, None => (Ok tt, d <| dir_files := delete name (dir_files d) |>)
    end
  | ReadDir =>
    (match dir_fault n with
     | Some err => Err err
     | None => Ok (sort_strings (elements (dom (dir_files d))))
     end, d)
  | LstatRegular name =>
    (match dir_files d !! name, dir_fault n with
     | None, _ => Err ErrNotExist
     | Some _, Some err => Err err
     | Some e, None => Ok (match e with Regular _ => true | Irregular => false end)
     end, d)
  | ReadAll name limit =>
    (match dir_files d !! name, dir_fault n with
     | None, _ => Err ErrNotExist
     | Some _, Some err => Err err
     | Some (Regular data), None => Ok (str (take (N.to_nat limit) (chars data)))
     | Some Irregular, None => Err (New "is a directory")
     end, d)
  | StatFile name =>
    (match dir_files d !! name, dir_fault n with
     | None, _ => Err ErrNotExist
     | Some _, Some err => Err err
     | Some _, None => Ok tt
     end, d)
  | WriteOut file text =>
    match dir_fault n with
    | Some err => (Err err, d)
    | None => (Ok tt, d <| dir_out := <[file := text]> (dir_out d) |>)
    end
  end.
Definition dir_answer (X : Type) (q : os X) (d : LeaseDir) : X * LeaseDir :=
  let '(x, d') := dir_call (dir_calls d) q d in (x, d' <| dir_calls := S (dir_calls d) |>).
Definition run_dir {A} (m : prog os A) (d : LeaseDir) : A * LeaseDir := perform dir_answer m d.
End dir.

(** ** What the programs do to a directory *)

#[local] Arguments prog_bind : simpl never.
#[local] Arguments readLease : simpl never.
#[local] Arguments run_dir : simpl never.

Section facts.
Context `{LeaseText} `{DirWorld}.

(** The lease the file [name] holds. *)
Definition lease_at (files : gmap string entry) (name : string) : option Lease :=
  match files !! name with
  | Some (Regular data) =>
    match decode_lease data with
    | Ok lease =>
      if (slen data <=? maxLeaseBytes) && negb (bool_decide (Lease_Sandbox lease = "")) && negb (bool_decide (Lease_Kind lease = ""))
      then Some lease else None
    | Err _ => None
    end
  | _ => None
  end.
(** A login authorization the gateway would honour. *)
Definition login_at (files : gmap string entry) (name : string) : Prop :=
  HasSuffix name ".json" = true /\ exists lease, lease_at files name = Some lease /\ Lease_Sandbox lease = "login".

Lemma run_bind {A B} (m : prog os A) (k : A -> prog os B) d :
  run_dir (prog_bind m k) d = let '(a, d') := run_dir m d in run_dir (k a) d'.
Proof. apply perform_bind. Qed.
Lemma run_request {X} (q : os X) d :
  run_dir (request q) d = let '(x, d') := dir_call (dir_calls d) q d in (x, d' <| dir_calls := S (dir_calls d) |>).
Proof. unfold run_dir, dir_answer. simpl. by destruct (dir_call _ _ _). Qed.
Lemma slen_str l : slen (str l) = lenN l.
Proof. unfold slen, lenN. by rewrite <- length_chars, chars_str. Qed.
(** A file read within the limit was read whole. *)
Lemma read_whole data :
  slen (str (take (N.to_nat (maxLeaseBytes + 1)) (chars data))) <= maxLeaseBytes ->
  str (take (N.to_nat (maxLeaseBytes + 1)) (chars data)) = data /\ slen data <= maxLeaseBytes.
Proof.
  rewrite slen_str. unfold lenN, slen, maxLeaseBytes. rewrite length_take, length_chars. intros L.
  split; [|lia]. rewrite take_ge; [apply str_chars|]. rewrite length_chars. lia.
Qed.
(** Reading is quiet, and says what the file holds. *)
Lemma readLease_run name d r d' :
  run_dir (readLease name) d = (r, d') ->
  (dir_files d', dir_out d') = (dir_files d, dir_out d)
  /\ match r with
     | Ok lease => lease_at (dir_files d) name = Some lease
     | Err err => not_exist err = true -> dir_files d !! name = None
     end.
Proof.
  unfold readLease, lease_at. rewrite run_bind, run_request. simpl.
  destruct (dir_files d !! name) as [e|] eqn:F; [|by intros [= <- <-]].
  destruct (dir_fault (dir_calls d)) as [err|] eqn:X.
  { intros [= <- <-]. split; [done|]. by rewrite (dir_fault_found _ _ X). }
  destruct e as [data|]; [|by intros [= <- <-]]. rewrite run_bind, run_request. simpl. rewrite F.
  destruct (dir_fault (S (dir_calls d))) as [err|] eqn:X'.
  { intros [= <- <-]. split; [done|]. by rewrite (dir_fault_found _ _ X'). }
  destruct (N.ltb_spec maxLeaseBytes (slen (str (take (N.to_nat (maxLeaseBytes + 1)) (chars data))))) as [L|L];
    [by intros [= <- <-]|]. destruct (read_whole data L) as [-> W]. apply N.leb_le in W as ->.
  destruct (decode_lease data) as [lease|err] eqn:D.
  - destruct (bool_decide (Lease_Sandbox lease = "") || bool_decide (Lease_Kind lease = "")) eqn:B; intros [= <- <-];
      (split; [done|]); [done|]. by apply orb_false_iff in B as [-> ->].
  - intros [= <- <-]. split; [done|]. by rewrite (decode_error _ _ D : not_exist err = false).
Qed.

Lemma remove_run name d r d' :
  run_dir (request (RemoveFile name)) d = (r, d') ->
  dir_out d' = dir_out d
  /\ (remove_errors r = [] -> dir_files d' = delete name (dir_files d))
  /\ (dir_files d' = dir_files d \/ dir_files d' = delete name (dir_files d)).
Proof.
  rewrite run_request. simpl. destruct (dir_files d !! name) as [e|] eqn:F.
  - destruct (dir_fault (dir_calls d)) as [err|] eqn:X; intros [= <- <-]; simpl.
    + rewrite (dir_fault_found _ _ X). split; [done|]. split; [done|by left].
    + split; [done|]. split; [done|by right].
  - intros [= <- <-]. simpl. rewrite delete_id by done. split; [done|]. split; [done|by left].
Qed.

(** [revoke_logins] removes login leases and nothing else, and every one of
    those it was given unless it keeps an error. *)
Lemma revoke_logins_run names errs d errs' d' :
  run_dir (revoke_logins names errs) d = (errs', d') ->
  dir_out d' = dir_out d
  /\ (forall name, dir_files d' !! name = dir_files d !! name \/ (login_at (dir_files d) name /\ dir_files d' !! name = None))
  /\ (errs' = [] -> errs = [] /\ forall name, name ∈ names -> ~ login_at (dir_files d') name).
Proof.
  revert errs d. induction names as [|name rest IH]; simpl; intros errs d.
  { intros [= <- <-]. split; [done|]. split; [by left|]. intros ->. split; [done|]. by intros ? ?%not_elem_of_nil. }
  (* The rest, from a directory that only lost login leases. *)
  assert (forall errs1 d1, run_dir (revoke_logins rest errs1) d1 = (errs', d') ->
    dir_out d1 = dir_out d ->
    (dir_files d1 = dir_files d \/ (login_at (dir_files d) name /\ dir_files d1 = delete name (dir_files d))) ->
    (errs1 = [] -> errs = [] /\ ~ login_at (dir_files d1) name) ->
    dir_out d' = dir_out d
    /\ (forall n, dir_files d' !! n = dir_files d !! n \/ (login_at (dir_files d) n /\ dir_files d' !! n = None))
    /\ (errs' = [] -> errs = [] /\ forall n, n ∈ name :: rest -> ~ login_at (dir_files d') n)) as K.
  { intros errs1 d1 R O F N. destruct (IH _ _ R) as (O' & F' & N').
    assert (forall n, login_at (dir_files d') n -> login_at (dir_files d1) n) as Back.
    { intros n (S & l & L & E). split; [done|]. exists l. split; [|done]. unfold lease_at in *.
      destruct (F' n) as [<-|[_ Z]]; [done|]. by rewrite Z in L. }
    split; [by rewrite O'|]. split.
    - intros n. destruct F as [F|[A F]]; rewrite ?F in F'; [by apply F'|].
      destruct (decide (n = name)) as [->|Ne].
      + right. split; [done|]. destruct (F' name) as [->|[_ ->]]; [|done]. by rewrite lookup_delete_eq.
      + destruct (F' n) as [->|[(S & l & L & E) ->]]; rewrite ?lookup_delete_ne by done; [by left|].
        right. split; [|done]. split; [done|]. exists l. split; [|done]. unfold lease_at in *.
        by rewrite lookup_delete_ne in L by done.
    - intros E. destruct (N' E) as [E1 G]. destruct (N E1) as [-> Gn]. split; [done|].
      intros n [->|I]%elem_of_cons; [by intros L%Back|by apply G]. }
  destruct (HasSuffix name ".json") eqn:S; cycle 1; simpl.
  { intros R. apply (K _ _ R); [done|by left|]. intros ->. split; [done|]. intros [S' _]. congruence. }
  rewrite run_bind. destruct (run_dir (readLease name) d) as [r d1] eqn:Rd.
  apply readLease_run in Rd as [[= F1 O1] V]. destruct r as [lease|err].
  - destruct (bool_decide (Lease_Sandbox lease = "login")) eqn:B; simpl; cycle 1.
    { intros R. apply (K _ _ R); [done|by left|]. intros ->. split; [done|]. rewrite F1.
      intros (_ & l & L & E). rewrite V in L. injection L as ->. by apply bool_decide_eq_false in B. }
    rewrite run_bind. destruct (run_dir (request (RemoveFile name)) d1) as [x d2] eqn:Rm.
    apply remove_run in Rm as (O2 & Gone & F2). intros R.
    apply bool_decide_eq_true in B. apply (K _ _ R); [congruence| |].
    + rewrite F1 in F2. destruct F2 as [F2|F2]; [by left|]. right. split; [|done]. split; [done|]. by exists lease.
    + intros [-> X]%app_eq_nil. split; [done|]. rewrite (Gone X). intros (_ & l & L & _). unfold lease_at in L.
      by rewrite lookup_delete_eq in L.
  - destruct (not_exist err) eqn:X; intros R; apply (K _ _ R); rewrite ?F1; try done; try by left.
    + intros ->. split; [done|]. intros (_ & l & L & _). unfold lease_at in L. by rewrite V in L.
    + by intros [_ ?]%app_eq_nil.
Qed.

(** A grant that succeeds adds one file, named by the token, and leaves no
    temporary file. *)
Lemma Grant_run sandbox kind d token d' :
  run_dir (Grant sandbox kind) d = (Ok token, d') ->
  dir_out d' = dir_out d
  /\ exists data, marshal_lease (mkLease sandbox kind) = Ok data
     /\ dir_files d' = <[leaseFile token := Regular data]> (dir_files d).
Proof.
  unfold Grant. rewrite run_bind, run_request. cbn [dir_call].
  destruct (marshal_lease (mkLease sandbox kind)) as [data|err]; [|done].
  rewrite run_bind, run_request. cbn [dir_call]. simpl.
  set (temp := tempPrefix +:+ temp_suffix _).
  destruct (dir_fault _); [done|]. destruct (dir_files d !! temp) as [e|] eqn:F; [done|].
  rewrite run_bind, run_request. cbn [dir_call]. simpl. destruct (dir_fault _).
  { repeat (rewrite run_bind, run_request; simpl). by repeat case_match. }
  rewrite run_bind, run_request. cbn [dir_call]. simpl. destruct (dir_fault _).
  { repeat (rewrite run_bind, run_request; simpl). by repeat case_match. }
  rewrite run_bind, run_request. cbn [dir_call]. simpl. rewrite insert_insert_eq, lookup_insert_eq.
  destruct (dir_fault _).
  { repeat (rewrite run_bind, run_request; simpl). by repeat case_match. }
  intros [= <- <-]. split; [done|]. exists data. split; [done|]. simpl. f_equal.
  rewrite delete_insert_eq. by apply delete_id.
Qed.
Lemma revokeLogin_run d d' :
  run_dir RevokeLogin d = (Ok tt, d') ->
  dir_out d' = dir_out d
  /\ (forall name, dir_files d' !! name = dir_files d !! name \/ (login_at (dir_files d) name /\ dir_files d' !! name = None))
  /\ forall name, ~ login_at (dir_files d') name.
Proof.
  unfold RevokeLogin. rewrite run_bind, run_request. cbn [dir_call]. destruct (dir_fault _); [done|].
  set (d1 := d <| dir_calls := _ |>). rewrite run_bind.
  destruct (run_dir (revoke_logins _ []) d1) as [errs d2] eqn:R. intros E.
  assert (errs = [] /\ d2 = d') as [-> <-] by (destruct errs; [by injection E as <-|done]).
  apply revoke_logins_run in R as (O & F & N). split; [done|]. split; [done|].
  intros name L. destruct (N eq_refl) as [_ G]. apply (G name); [|done].
  rewrite elem_of_sort_strings, elem_of_elements, elem_of_dom.
  change (dir_files d1) with (dir_files d) in F.
  destruct (F name) as [<-|[_ Z]]; destruct L as (_ & l & L & _); unfold lease_at in L; [|by rewrite Z in L].
  by destruct (dir_files d2 !! name).
Qed.

(** C32: a successful login lease leaves exactly one login authorization, the
    one whose proxy URL was written for the login: the credential in the
    proxy file names a readable lease of a runner called [login], no other
    lease file of the directory is one, whatever earlier logins left behind
    and whichever calls failed, and the lease of every other sandbox is as it
    was. *)
Theorem loginLease_exclusive envOr d d' :
  run_dir (loginLease envOr) d = (Ok tt, d') ->
  (forall data, marshal_lease (mkLease "login" KindRunner) = Ok data -> slen data <= maxLeaseBytes) ->
  exists token,
    dir_out d' = <[envOr "OCTOMUS_LOGIN_PROXY_FILE" := ProxyURL (envOr "OCTOMUS_EGRESS_PROXY") token +:+ str [ascii_of_N 10]]> (dir_out d)
    /\ lease_at (dir_files d') (leaseFile token) = Some (mkLease "login" KindRunner)
    /\ (forall name, login_at (dir_files d') name -> name = leaseFile token)
    /\ (forall name lease, lease_at (dir_files d) name = Some lease -> Lease_Sandbox lease <> "login" ->
        name <> leaseFile token -> dir_files d' !! name = dir_files d !! name).
Proof.
  intros R Small. unfold loginLease in R. destruct (List.find _ _); [done|]. rewrite run_bind in R.
  destruct (run_dir RevokeLogin d) as [[[]|err] d1] eqn:C; [|done]. apply revokeLogin_run in C as (O1 & F1 & N1).
  rewrite run_bind in R. destruct (run_dir (Grant "login" KindRunner) d1) as [[token|err] d2] eqn:G; [|done].
  apply Grant_run in G as (O2 & data & M & F2). rewrite run_bind, run_request in R. cbn [dir_call] in R.
  destruct (dir_fault (dir_calls d2)) as [err|].
  { unfold Revoke in R. rewrite !run_bind, run_request in R. cbn [dir_call] in R. simpl in R. by repeat case_match. }
  injection R as <-. exists token. simpl. rewrite O2, O1, F2. split; [done|]. split; [|split].
  - unfold lease_at. rewrite lookup_insert_eq, (decode_marshal _ _ M). apply Small, N.leb_le in M. by rewrite M.
  - intros name L. destruct (decide (name = leaseFile token)) as [|Ne]; [done|]. destruct (N1 name).
    destruct L as (S & l & L & E). split; [done|]. exists l. split; [|done]. unfold lease_at in *.
    by rewrite lookup_insert_ne in L.
  - intros name lease L E Ne. rewrite lookup_insert_ne by done. destruct (F1 name) as [|[(_ & l & L' & E') _]]; [done|].
    congruence.
Qed.
End facts.

(** A login after an interrupted one, beside a sandbox's lease. *)
#[local, program] Instance sample_text : LeaseText := {
  sha256_hex := fun token => "sum-" +:+ token;
  marshal_lease := fun l => if bool_decide (Lease_Kind l = KindRunner) then Ok (Lease_Sandbox l) else Err (New "kind");
  decode_lease := fun data => Ok (mkLease data KindRunner);
}.
Next Obligation. intros [sb kd] data. simpl. case_bool_decide; [|done]. subst. by intros [= ->]. Qed.
Next Obligation. done. Qed.
#[local, program] Instance sample_world : DirWorld := {
  random_bytes := fun _ => chars "z";
  temp_suffix := fun _ => "1";
  dir_fault := fun n => None;
}.
Next Obligation. done. Qed.
Definition sample_dir : LeaseDir :=
  mkLeaseDir (<["sum-old.json" := Regular "login"]> (<["sum-a.json" := Regular "task"]> ∅)) ∅ 0.
Definition sample_login (key : string) : string :=
  if bool_decide (key = "OCTOMUS_EGRESS_PROXY") then "egress:3128" else "/f".
Lemma loginLease_exclusive_witness :
  exists token, dir_out (snd (run_dir (loginLease sample_login) sample_dir)) !! "/f" = Some (ProxyURL "egress:3128" token +:+ str [ascii_of_N 10])
  /\ dir_files (snd (run_dir (loginLease sample_login) sample_dir)) !! "sum-old.json" = None.
Proof.
  destruct (loginLease_exclusive sample_login sample_dir (snd (run_dir (loginLease sample_login) sample_dir))) as (token & O & L & _).
  - vm_compute. reflexivity.
  - vm_compute. intros data [= <-]. discriminate.
  - exists token. split; [rewrite O; apply lookup_insert_eq|vm_compute; reflexivity].
Defined.
(** The credential is the hex text of the secret. *)
Example login_run :
  dir_out (snd (run_dir (loginLease sample_login) sample_dir)) !! "/f" = Some ("http://sandbox:7a@egress:3128" +:+ str [ascii_of_N 10]).
Proof. vm_compute. reflexivity. Qed.
