(* ===== verification/Gateway.v ===== *)
(** * The state of the egress gateway ([internal/egress/gateway.go], [serve.go])

    What the gateway keeps of each sandbox, and its critical sections: each is
    a function on the whole state, taken under one of its two mutexes with one
    reading of the clock.  The summaries and the tunnels are heap objects
    several goroutines hold, so they are named by numbers.  The bound on client
    connections of [serve.go] is here too; the goroutines are in
    [GatewayServe]. *)
From S2P Require Import Prelude GoStrings GoErrors GoTime Runtime Config NetIP Wire EgressPolicy Leases.
Local Open Scope string_scope.
Local Open Scope list_scope.
Local Open Scope N_scope.

Definition tunnelLimit : N := 64.
Definition halfCloseIdle : Z := (2 * Minute)%Z.
Definition maxTunnelLifetime : Z := (7 * 24 * Hour)%Z.
Definition collectedFor : Z := (2 * Minute)%Z.
Definition revokedGrace : Z := (2 * Minute)%Z.
Definition refusalLogBurst : N := 20.
Definition tunnelLogBurst : N := 120.
Definition logWindow : Z := Minute.
Definition logBudgetKeys : N := 1024.
(** [model.SandboxHostLimit] *)
Definition summaryHostLimit : N := 64.
Definition foldedNameLimit : N := 1024.

(** ** Data *)

(** A logged decision, but its time. *)
Record Decision := mkDecision {
  D_Sandbox : string; D_Kind : string; D_Host : string; D_Port : N; D_Decision : string; D_Reason : string;
  D_Tunnel : N; D_BytesUp : Z; D_BytesDown : Z; D_Millis : Z; D_Suppressed : N }.
#[export] Instance eta_Decision : Eta Decision := fun r =>
  mkDecision (D_Sandbox r) (D_Kind r) (D_Host r) (D_Port r) (D_Decision r) (D_Reason r)
    (D_Tunnel r) (D_BytesUp r) (D_BytesDown r) (D_Millis r) (D_Suppressed r).
Definition no_decision : Decision := mkDecision "" "" "" 0 "" "" 0 0 0 0 0.

(** A summary: how often each host was allowed, denied, failed. *)
Record Summary := mkSummary {
  Summary_Allowed : gmap string N; Summary_Denied : gmap string N; Summary_Failed : gmap string N;
  Summary_GatewayStarted : option instant; Summary_Incomplete : bool }.
#[export] Instance eta_Summary : Eta Summary := fun r =>
  mkSummary (Summary_Allowed r) (Summary_Denied r) (Summary_Failed r) (Summary_GatewayStarted r) (Summary_Incomplete r).
Definition emptySummary : Summary := mkSummary ∅ ∅ ∅ None false.

Record collection := mkCollection { collected_at : instant; collected_incomplete : bool }.
Record usage := mkUsage {
  u_summary : Summary; u_lease : string; u_revoked : option instant; u_pending : Z; u_named : gset string }.
#[export] Instance eta_usage : Eta usage := fun r =>
  mkUsage (u_summary r) (u_lease r) (u_revoked r) (u_pending r) (u_named r).
Record logBudget := mkLogBudget {
  lb_start : instant; lb_logged : N; lb_suppressed : N; lb_class : string; lb_sandbox : string; lb_kind : string }.
#[export] Instance eta_logBudget : Eta logBudget := fun r =>
  mkLogBudget (lb_start r) (lb_logged r) (lb_suppressed r) (lb_class r) (lb_sandbox r) (lb_kind r).
Record tunnel := mkTunnel { t_lease : string; t_cause : option string }.

Record Gateway := mkGateway {
  g_log : option (list (instant * Decision));
  g_budgets : gmap string logBudget;
  g_usages : gmap N usage;           (* every usage made *)
  g_stats : gmap string N;           (* sandbox to usage *)
  g_collected : gmap string collection;
  g_open : gmap string N;
  g_conns : gmap N tunnel;           (* every tunnel made *)
  g_tunnels : option (gset N);       (* nil once stopping *)
  g_running : Z;
  g_tunnelIDs : N;
  g_started : instant }.
#[export] Instance eta_Gateway : Eta Gateway := fun r =>
  mkGateway (g_log r) (g_budgets r) (g_usages r) (g_stats r) (g_collected r) (g_open r) (g_conns r) (g_tunnels r)
    (g_running r) (g_tunnelIDs r) (g_started r).
(** [New]: the parts that change. *)
Definition NewGateway (logging : bool) (now : instant) : Gateway :=
  mkGateway (if logging then Some [] else None) ∅ ∅ ∅ ∅ ∅ ∅ (Some ∅) 0 0 now.
(** The next object of a heap. *)
Definition fresh_key {V} (m : gmap N V) : N := fresh (dom m).

(** ** The log ([logMu]) *)

Definition writeLocked (now : instant) (d : Decision) (g : Gateway) : Gateway :=
  match g_log g with
  | Some lines => g <| g_log := Some (lines ++ [(now, d)]) |>
  | None => g
  end.
Definition flushLocked (now : instant) (budget : logBudget) (g : Gateway) : logBudget * Gateway :=
  if 0 <? lb_suppressed budget then
    (budget <| lb_suppressed := 0 |>,
     writeLocked now (no_decision <| D_Sandbox := lb_sandbox budget |> <| D_Kind := lb_kind budget |>
       <| D_Decision := "suppressed" |> <| D_Reason := lb_class budget +:+ " over the log budget" |>
       <| D_Suppressed := lb_suppressed budget |>) g)
  else (budget, g).
(** The budget that pays for a line, and its key. *)
Definition budget_of (now : instant) (class source : string) (d : Decision) (g : Gateway) : string * logBudget :=
  let key := class +:+ " " +:+ source in
  match g_budgets g !! key with
  | Some budget => (key, budget)
  | None =>
    if logBudgetKeys <=? N.of_nat (size (g_budgets g)) then
      (class, match g_budgets g !! class with
              | Some budget => budget
              | None => mkLogBudget now 0 0 class "" ""
              end)
    else (key, mkLogBudget now 0 0 class (D_Sandbox d) (D_Kind d))
  end.
Definition spendLocked (now : instant) (class source : string) (burst : N) (d : Decision) (g : Gateway) : bool * Gateway :=
  let '(key, budget) := budget_of now class source d g in
  let '(budget, g) :=
    if (logWindow <=? Sub now (lb_start budget))%Z then
      let '(budget, g) := flushLocked now budget g in
      (budget <| lb_start := now |> <| lb_logged := 0 |>, g)
    else (budget, g) in
  let put budget := g <| g_budgets := <[key := budget]> (g_budgets g) |> in
  if burst <=? lb_logged budget then (false, put (budget <| lb_suppressed := lb_suppressed budget + 1 |>))
  else (true, put (budget <| lb_logged := lb_logged budget + 1 |>)).
Definition logRefusal (now : instant) (d : Decision) (source : string) (unnamed : bool) (g : Gateway) : Gateway :=
  if unnamed then writeLocked now d g else
  let '(may, g) := spendLocked now "refusals" source refusalLogBurst d g in
  if may then writeLocked now d g else g.
Definition logOpened (now : instant) (d : Decision) (unnamed : bool) (g : Gateway) : bool * Gateway :=
  if unnamed then (true, writeLocked now d g) else
  let '(may, g) := spendLocked now "tunnels" ("sandbox " +:+ D_Sandbox d) tunnelLogBurst d g in
  if may then (true, writeLocked now d g) else (false, g).
(** Go's order of a map's keys is not specified; here it is [map_to_list]'s. *)
Definition flushBudgets (now : instant) (all : bool) (g : Gateway) : Gateway :=
  foldl (fun g '(key, budget) =>
    if all || (logWindow <=? Sub now (lb_start budget))%Z then
      let '(_, g) := flushLocked now budget g in
      g <| g_budgets := delete key (g_budgets g) |>
    else g) g (map_to_list (g_budgets g)).

(** ** Summaries ([statsMu]) *)

(** [net.JoinHostPort]. *)
Definition JoinHostPort (host port : string) : string :=
  if Contains host ":" then "[" +:+ host +:+ "]:" +:+ port else host +:+ ":" +:+ port.
Definition summaryKey (host : string) (port : N) : string :=
  if port =? 0 then host else JoinHostPort host (FormatUint port).

(** The sandbox's usage, made under this lease if it has none. *)
Definition entry_of (sandbox lease : string) (g : Gateway) : N * Gateway :=
  match g_stats g !! sandbox with
  | Some id => (id, g)
  | None =>
    let id := fresh_key (g_usages g) in
    (id, g <| g_usages := <[id := mkUsage emptySummary lease None 0 ∅]> (g_usages g) |>
           <| g_stats := <[sandbox := id]> (g_stats g) |>)
  end.
Definition change_usage (id : N) (f : usage -> usage) (g : Gateway) : Gateway :=
  g <| g_usages := alter f id (g_usages g) |>.
Definition begin_request (sandbox lease : string) (g : Gateway) : option N * Gateway :=
  match g_collected g !! sandbox with
  | Some _ => (None, g)
  | None =>
    let '(id, g) := entry_of sandbox lease g in
    (Some id, change_usage id (fun u => u <| u_pending := (u_pending u + 1)%Z |>) g)
  end.
Definition settle (id : N) (g : Gateway) : Gateway :=
  change_usage id (fun u => u <| u_pending := (u_pending u - 1)%Z |>) g.
Definition abandon (id : N) (g : Gateway) : Gateway :=
  change_usage id (fun u => u <| u_summary := (u_summary u) <| Summary_Incomplete := true |> |>) (settle id g).

Definition target_of (decision : string) (s : Summary) : gmap string N :=
  if bool_decide (decision = "allowed") then Summary_Allowed s else
  if bool_decide (decision = "failed") then Summary_Failed s else Summary_Denied s.
Definition set_target (decision : string) (m : gmap string N) (s : Summary) : Summary :=
  if bool_decide (decision = "allowed") then s <| Summary_Allowed := m |> else
  if bool_decide (decision = "failed") then s <| Summary_Failed := m |> else s <| Summary_Denied := m |>.
(** The decision's count in a usage: the key it is counted under, whether the
    log must name its host, and the usage. *)
Definition count_in (d : Decision) (u : usage) : string * bool * usage :=
  let target := target_of (D_Decision d) (u_summary u) in
  let key := summaryKey (D_Host d) (D_Port d) in
  let folds := negb (bool_decide (is_Some (target !! key))) && (summaryHostLimit <=? N.of_nat (size target)) in
  let folded := D_Decision d +:+ " " +:+ key in
  let unnamed := folds && negb (bool_decide (folded ∈ u_named u))
                 && (N.of_nat (size (u_named u)) <? foldedNameLimit) in
  let key := if folds then "other" else key in
  let n := default 0 (target !! key) + 1 in
  (key, unnamed,
   u <| u_named := if unnamed then {[folded]} ∪ u_named u else u_named u |>
     <| u_summary := set_target (D_Decision d) (<[key := n]> target) (u_summary u) |>).
(** [count]: the usage and the key a decision was counted under, and whether
    the log must name its host. *)
Definition count (d : Decision) (lease : string) (pending : option N) (g : Gateway) : option N * string * bool * Gateway :=
  let g := match pending with Some id => settle id g | None => g end in
  if bool_decide (D_Sandbox d = "") || bool_decide (D_Host d = "") then (None, "", false, g) else
  match g_collected g !! D_Sandbox d with
  | Some _ => (None, "", false, g)
  | None =>
    let '(id, g) := entry_of (D_Sandbox d) lease g in
    match g_usages g !! id with
    | Some u => let '(key, unnamed, u) := count_in d u in
                (Some id, key, unnamed, g <| g_usages := <[id := u]> (g_usages g) |>)
    | None => (Some id, "", false, g)
    end
  end.
(** [collect]: the usage forgotten and its summary. *)
Definition collect (now : instant) (sandbox : string) (g : Gateway) : option N * Summary * Gateway :=
  let entry := g_stats g !! sandbox in
  let g := g <| g_stats := delete sandbox (g_stats g) |> in
  let summary :=
    match entry ≫= fun id => g_usages g !! id with
    | Some u => (u_summary u) <| Summary_Incomplete := Summary_Incomplete (u_summary u) || (0 <? u_pending u)%Z |>
    | None => emptySummary
    end in
  let before := match g_collected g !! sandbox with Some c => collected_incomplete c | None => false end in
  let summary := summary <| Summary_Incomplete := Summary_Incomplete summary || before |> in
  (entry, summary <| Summary_GatewayStarted := Some (g_started g) |>,
   g <| g_collected := <[sandbox := mkCollection now (Summary_Incomplete summary)]> (g_collected g) |>).

(** ** Tunnels *)

Definition open_of (sandbox : string) (g : Gateway) : N := default 0 (g_open g !! sandbox).
Definition reserve (sandbox : string) (g : Gateway) : bool * Gateway :=
  if tunnelLimit <=? open_of sandbox g then (false, g)
  else (true, g <| g_open := <[sandbox := open_of sandbox g + 1]> (g_open g) |>).
Definition release (sandbox : string) (g : Gateway) : Gateway :=
  if open_of sandbox g <=? 1 then g <| g_open := delete sandbox (g_open g) |>
  else g <| g_open := <[sandbox := open_of sandbox g - 1]> (g_open g) |>.
Definition track (lease : string) (g : Gateway) : option N * Gateway :=
  match g_tunnels g with
  | None => (None, g)
  | Some open =>
    let id := fresh_key (g_conns g) in
    (Some id, g <| g_conns := <[id := mkTunnel lease None]> (g_conns g) |>
                <| g_tunnels := Some ({[id]} ∪ open) |> <| g_running := (g_running g + 1)%Z |>)
  end.
Definition untrack (id : N) (g : Gateway) : Gateway :=
  g <| g_tunnels := match g_tunnels g with Some open => Some (open ∖ {[id]}) | None => None end |>
    <| g_running := (g_running g - 1)%Z |>.
(** [cut]: whether it closed the tunnel's connections. *)
Definition cut (id : N) (reason : string) (g : Gateway) : bool * Gateway :=
  match g_conns g !! id with
  | Some (mkTunnel lease None) => (true, g <| g_conns := <[id := mkTunnel lease (Some reason)]> (g_conns g) |>)
  | _ => (false, g)
  end.
Definition tunnel_reason (id : N) (g : Gateway) : string :=
  match g_conns g !! id with Some t => default "" (t_cause t) | None => "" end.
Definition next_tunnel (g : Gateway) : N * Gateway :=
  let id := u64_add (g_tunnelIDs g) 1 in (id, g <| g_tunnelIDs := id |>).

(** ** The sweep ([serve.go]) *)

Definition tracked (g : Gateway) : list N := elements (default ∅ (g_tunnels g)).
Definition tunnel_lease (g : Gateway) (id : N) : option string := t_lease <$> g_conns g !! id.
(** The leases the first critical section lists. *)
Definition sweep_leases (g : Gateway) : list string :=
  elements (list_to_set (omap (tunnel_lease g) (tracked g)
    ++ omap (fun '(_, id) => u_lease <$> g_usages g !! id) (map_to_list (g_stats g))) : gset string).
Definition sweep_entry (now : instant) (gone : list string) (g : Gateway) (entry : string * N) : Gateway :=
  let '(name, id) := entry in
  match g_usages g !! id with
  | None => g
  | Some u =>
    if negb (bool_decide (u_lease u ∈ gone)) then g else
    match u_revoked u with
    | None => change_usage id (fun u => u <| u_revoked := Some now |>) g
    | Some at_ =>
      if (revokedGrace <=? Sub now at_)%Z && (open_of name g =? 0) && (u_pending u =? 0)%Z
      then g <| g_stats := delete name (g_stats g) |> else g
    end
  end.
(** The second: the tunnels whose lease is gone, and what is forgotten. *)
Definition sweep_forget (now : instant) (gone : list string) (g : Gateway) : list N * Gateway :=
  let lost := List.filter (fun id => match tunnel_lease g id with Some l => bool_decide (l ∈ gone) | None => false end) (tracked g) in
  let g := foldl (sweep_entry now gone) g (map_to_list (g_stats g)) in
  (lost, g <| g_collected := filter (fun '(_, c) => (Sub now (collected_at c) < collectedFor)%Z) (g_collected g) |>).
(** The first of [stop]: no tunnel is tracked any more. *)
Definition stop_tunnels (g : Gateway) : list N * Gateway := (tracked g, g <| g_tunnels := None |>).

(** ** Client connections ([limitConnections]) *)

Definition maxConnections : Z := 4096.
Definition perSourceLimit : Z := 256.
Record limitedListener := mkLimitedListener { ll_open : Z; ll_bySource : gmap string Z }.
#[export] Instance eta_limitedListener : Eta limitedListener := fun r => mkLimitedListener (ll_open r) (ll_bySource r).

Section listener.
Context (total perSource : Z).

Definition from_source (source : string) (l : limitedListener) : Z := default 0%Z (ll_bySource l !! source).
Definition admit_source (source : string) (l : limitedListener) : bool * limitedListener :=
  if (total <=? ll_open l)%Z || (perSource <=? from_source source l)%Z then (false, l)
  else (true, mkLimitedListener (ll_open l + 1) (<[source := (from_source source l + 1)%Z]> (ll_bySource l))).
Definition release_source (source : string) (l : limitedListener) : limitedListener :=
  let n := (from_source source l - 1)%Z in
  mkLimitedListener (ll_open l - 1)
    (if (n <=? 0)%Z then delete source (ll_bySource l) else <[source := n]> (ll_bySource l)).
(** The source of a remote address. *)
Definition conn_source (remote : string) : string :=
  match SplitHostPort remote with Some (host, _) => host | None => remote end.

(** The listener and its open connections: one arrives, one is closed, any
    number of times ([sync.OnceFunc]). *)
Inductive conn_event := Incoming (remote : string) | CloseConn (id : N).
Record accepting := mkAccepting { ac_listener : limitedListener; ac_open : gmap N string }.
Definition conn_step (a : accepting) (e : conn_event) : accepting :=
  match e with
  | Incoming remote =>
    let source := conn_source remote in
    let '(ok, l) := admit_source source (ac_listener a) in
    if ok then mkAccepting l (<[fresh_key (ac_open a) := source]> (ac_open a)) else a
  | CloseConn id =>
    match ac_open a !! id with
    | Some source => mkAccepting (release_source source (ac_listener a)) (delete id (ac_open a))
    | None => a
    end
  end.

Definition from_count (source : string) (open : gmap N string) : Z :=
  Z.of_nat (size (filter (fun '(_, s) => s = source) open)).
Lemma from_insert source id s (open : gmap N string) :
  open !! id = None -> from_count source (<[id := s]> open) = (from_count source open + (if bool_decide (s = source) then 1 else 0))%Z.
Proof.
  intros N. unfold from_count. case_bool_decide as E.
  - rewrite map_filter_insert_True by done. rewrite map_size_insert_None; [lia|].
    apply map_lookup_filter_None. by left.
  - rewrite map_filter_insert_False by done. rewrite delete_id by done. lia.
Qed.
Lemma from_delete source id s (open : gmap N string) :
  open !! id = Some s -> from_count source open = (from_count source (delete id open) + (if bool_decide (s = source) then 1 else 0))%Z.
Proof.
  intros E. rewrite <- (from_insert source id s) by apply lookup_delete_eq. by rewrite insert_delete_id.
Qed.
Record counts_open (a : accepting) : Prop := {
  co_open : ll_open (ac_listener a) = Z.of_nat (size (ac_open a));
  co_source source : from_source source (ac_listener a) = from_count source (ac_open a);
  co_total : (ll_open (ac_listener a) <= total)%Z;
  co_each source : (from_source source (ac_listener a) <= perSource)%Z;
}.
Lemma conn_step_counts a e : counts_open a -> counts_open (conn_step a e).
Proof.
  intros [O Sr T Ea]. destruct e as [remote|id]; simpl.
  - unfold admit_source. set (source := conn_source remote).
    destruct (Z.leb_spec total (ll_open (ac_listener a))) as [|Lt]; [done|].
    destruct (Z.leb_spec perSource (from_source source (ac_listener a))) as [|Le]; [done|]. simpl.
    assert (ac_open a !! fresh_key (ac_open a) = None) as F by (apply not_elem_of_dom; apply is_fresh).
    assert (forall s, from_source s (mkLimitedListener (ll_open (ac_listener a) + 1)
      (<[source := (from_source source (ac_listener a) + 1)%Z]> (ll_bySource (ac_listener a))))
      = (from_source s (ac_listener a) + (if bool_decide (source = s) then 1 else 0))%Z) as B.
    { intros s. unfold from_source at 1. simpl. case_bool_decide as E.
      - subst s. by rewrite lookup_insert_eq.
      - rewrite lookup_insert_ne by done. unfold from_source. lia. }
    split; simpl.
    + rewrite map_size_insert_None by done. lia.
    + intros s. by rewrite B, from_insert, Sr by done.
    + lia.
    + intros s. rewrite B. case_bool_decide as E; [subst s; lia|]. specialize (Ea s). lia.
  - destruct (ac_open a !! id) as [source|] eqn:E; [|done]. simpl.
    assert (forall s, from_source s (release_source source (ac_listener a))
      = (from_source s (ac_listener a) - (if bool_decide (source = s) then 1 else 0))%Z) as B.
    { intros s. unfold release_source, from_source at 1. simpl. pose proof (Sr source) as P.
      rewrite (from_delete _ _ _ _ E), bool_decide_eq_true_2 in P by done. unfold from_count in P.
      destruct (Z.leb_spec (from_source source (ac_listener a) - 1) 0); case_bool_decide as X.
      - subst s. rewrite lookup_delete_eq. simpl. lia.
      - rewrite lookup_delete_ne by done. unfold from_source. lia.
      - subst s. by rewrite lookup_insert_eq.
      - rewrite lookup_insert_ne by done. unfold from_source. lia. }
    split; simpl.
    + rewrite O. rewrite <- (insert_delete_id (ac_open a) id source E) at 1.
      rewrite map_size_insert_None by apply lookup_delete_eq. lia.
    + intros s. rewrite B, Sr, (from_delete s _ _ _ E). lia.
    + lia.
    + intros s. rewrite B. specialize (Ea s). case_bool_decide; lia.
Qed.
(** However connections come and go, at most [total] are open, at most
    [perSource] of one source, and the listener's counts are exact. *)
Lemma connections_counted events :
  (0 <= total)%Z -> (0 <= perSource)%Z ->
  counts_open (foldl conn_step (mkAccepting (mkLimitedListener 0 ∅) ∅) events).
Proof.
  intros T P. rewrite <- (rev_involutive events). induction (rev events) as [|e l IH]; simpl.
  - by split.
  - rewrite foldl_app. by apply conn_step_counts.
Qed.
End listener.
