(* ===== verification/GatewayServe.v ===== *)
(** * The goroutines of the egress gateway ([internal/egress/gateway.go], [serve.go], [collector.go])

    A request, the collector's answer, the sweep and the stop are programs: they
    enter the critical sections of [Gateway], read the directory of leases and
    ask the network.  [run] interleaves any number of them in any order, one
    call at a time, in any world; what they do is kept in order as deeds. *)
From S2P Require Import Prelude GoStrings Utf8 GoErrors GoTime Config NetIP Wire EgressPolicy ClientHello Interact Leases Gateway.
Local Open Scope string_scope.
Local Open Scope list_scope.
Local Open Scope N_scope.

(** ** What a goroutine asks *)

Inductive hijacked := NoHijacker | HijackFailed | Hijacked.
(** What the [select] of [splice] receives. *)
Inductive selected := UpDone (n : Z) | DownDone (n : Z) | LifetimeReached | IdleTick.

Inductive ev : Type -> Type :=
(* the directory of leases *)
| File {X} (q : os X) : ev X
(* critical sections *)
| LogRefusal (d : Decision) (source : string) (unnamed : bool) : ev unit
| LogOpened (d : Decision) (unnamed : bool) : ev bool
| LogDecision (d : Decision) : ev unit
| FlushBudgets (all : bool) : ev unit
| Begin_ (sandbox lease : string) : ev (option N)
| Abandon_ (id : N) : ev unit
| Count_ (d : Decision) (lease : string) (pending : option N) : ev (option N * string * bool)
| Collect_ (sandbox : string) : ev (option N * Summary)
| Reserve (sandbox : string) : ev bool
| Release_ (sandbox : string) : ev unit
| Track (lease : string) : ev (option N)
| Untrack (id : N) : ev unit
| Cut_ (id : N) (reason : string) : ev unit
| CauseOf (id : N) : ev string
| NextTunnel : ev N
| SweepLeases : ev (list string)
| SweepForget (gone : list string) : ev (list N)
| StopTunnels : ev (list N)
(* the network, the clock and the client *)
| WaitRunning : ev unit
| LookupNetIP (host : string) : ev (result (list Addr) error)
| RequestErr : ev (option error)
| Dial (address : Addr) (port : N) (share : nat) : ev (result unit error)
| Hijack : ev hijacked
| SetDeadline (on : bool) : ev (result unit error)
| WriteEstablished : ev (result unit error)
| ClientSends : ev (list ascii * bool)
| Forward (hello : list ascii) : ev unit
| Select (idle : bool) : ev selected
| IdleFor : ev Z
| SinceMillis : ev Z
| CloseClient : ev unit
| CloseUpstream : ev unit
| Respond (status : N) (text : string) : ev unit.
Notation P := (prog ev).

(** ** Requests *)

(** [http.Request]: the URL is its host name, scheme and port. *)
Record ProxyRequest := mkProxyRequest {
  rq_method : string; rq_url : option (string * string * string); rq_host : string; rq_remote : string; rq_auth : string }.

(** [netip.ParseAddr], [Addr.String]. *)
Class AddrText := {
  ParseAddr : string -> option Addr;
  addr_text : Addr -> string;
  addr_text_some addr : addr_text addr <> "";
}.

(** [base64.StdEncoding.DecodeString]. *)
Definition base64_digit (c : ascii) : option N :=
  let n := N_of_ascii c in
  if in_range 65 90 n then Some (n - 65) else
  if in_range 97 122 n then Some (n - 71) else
  if in_range 48 57 n then Some (n + 4) else
  if n =? 43 then Some 62 else if n =? 47 then Some 63 else None.
Fixpoint base64_quads (l : list ascii) : option (list ascii) :=
  match l with
  | [] => Some []
  | a :: b :: c :: d :: rest =>
    match base64_digit a, base64_digit b with
    | Some a, Some b =>
      let first := byte_of (a * 4 + b / 16) in
      if bool_decide (c = "="%char) then
        if bool_decide (d = "="%char) && bool_decide (rest = []) then Some [first] else None
      else
      match base64_digit c with
      | None => None
      | Some c =>
        let second := byte_of (b * 16 + c / 4) in
        if bool_decide (d = "="%char) then if bool_decide (rest = []) then Some [first; second] else None else
        match base64_digit d, base64_quads rest with
        | Some d, Some more => Some (first :: second :: byte_of (c * 64 + d) :: more)
        | _, _ => None
        end
      end
    | _, _ => None
    end
  | _ => None
  end.
Definition base64_decode (s : string) : option (list ascii) :=
  base64_quads (List.filter (fun c => negb ((N_of_ascii c =? 10) || (N_of_ascii c =? 13))) (chars s)).

Section serve.
Context `{Unicode} `{LeaseText} `{AddrText} (policy : Policy).

(** [Gateway.lease]. *)
Definition lease_of (header : string) : P (option (Lease * string)) :=
  let '(encoded, ok) := CutPrefix header "Basic " in
  if negb ok then Ret None else
  match base64_decode (TrimSpace encoded) with
  | None => Ret None
  | Some decoded =>
    let '(user, token, ok) := Cut (str decoded) ":"%char in
    if negb ok || negb (bool_decide (user = proxyUser)) then Ret None
    else embed (@File) (Leases.lookup token)
  end.
Definition without_zone (addr : Addr) : Addr := match addr with V6 a _ => V6 a "" | _ => addr end.
Definition refusedHost (text : string) : string :=
  match NormalizeHost text with
  | Ok host => host
  | Err _ =>
    match ParseAddr (Trim text "[]") with
    | Some addr => addr_text (Unmap (without_zone addr))
    | None =>
      let label := TrimSuffix (ToLower text) "." in
      if ValidLabel label then label else "(invalid host)"
    end
  end.
Definition error_text (e : error) : string := match e with New msg => msg | _ => "" end.

Section admitted.
(** A request under a lease: its sandbox, the lease's file, its usage. *)
Context (lease : Lease) (file : string) (pending : N).

Definition decided (decision host : string) (port : N) (reason : string) : Decision :=
  no_decision <| D_Sandbox := Lease_Sandbox lease |> <| D_Kind := Lease_Kind lease |> <| D_Host := host |>
    <| D_Port := port |> <| D_Decision := decision |> <| D_Reason := reason |>.
Definition recordRefusal (decision host : string) (port : N) (reason : string) : P unit :=
  let d := decided decision host port reason in
  do! counted <- request (Count_ d file (Some pending)) in
  request (LogRefusal d ("sandbox " +:+ Lease_Sandbox lease) (snd counted)).
(** Whether the request is settled is what the rest of a handler returns. *)
Definition refused (decision host : string) (port : N) (reason : string) : P bool :=
  do! _ <- recordRefusal decision host port reason in Ret true.
Definition refuse (decision : string) (status : N) (host : string) (port : N) (reason : string) : P bool :=
  do! _ <- recordRefusal decision host port reason in
  do! _ <- request (Respond status ("Octomus egress blocked this connection: " +:+ reason)) in
  Ret true.
Definition deny := refuse "denied".
Definition fail := refuse "failed".

(** The addresses not yet tried, and the last dial's error. *)
Fixpoint dialAddresses (addresses : list Addr) (port : N) (last : option error) : P (result bool error) :=
  match addresses with
  | [] => Ret match last with Some err => Err err | None => Ok false end
  | address :: rest =>
    do! cancelled <- request RequestErr in
    match cancelled with
    | Some err => Ret (Err err)
    | None =>
      do! dialed <- request (Dial address port (List.length addresses)) in
      match dialed with
      | Ok _ => Ret (Ok true)
      | Err err => dialAddresses rest port (Some err)
      end
    end
  end.

(** The rounds of [splice]'s loop: both directions, the lifetime, and a tick of
    each quarter of [halfCloseIdle] within it. *)
Definition splice_rounds : nat := N.to_nat (3 + Z.to_N (maxTunnelLifetime / (halfCloseIdle / 4))).
Fixpoint splice_loop (rounds : nat) (t : N) (pending : nat) (idle : bool) (up down : Z) : P (Z * Z) :=
  match rounds, pending with
  | O, _ | _, O => Ret (up, down)
  | S rounds, S others =>
    do! got <- request (Select idle) in
    (* the first direction to end starts the idle ticker *)
    match got with
    | UpDone n => splice_loop rounds t others (idle || (others =? 1)%nat) n down
    | DownDone n => splice_loop rounds t others (idle || (others =? 1)%nat) up n
    | LifetimeReached =>
      do! _ <- request (Cut_ t "tunnel lifetime reached") in
      splice_loop rounds t pending idle up down
    | IdleTick =>
      if negb idle then splice_loop rounds t pending idle up down else
      do! quiet <- request IdleFor in
      if (halfCloseIdle <=? quiet)%Z then
        do! _ <- request (Cut_ t "idle after one side closed") in
        splice_loop rounds t pending idle up down
      else splice_loop rounds t pending idle up down
    end
  end.
Definition splice (t : N) (hello : list ascii) : P (Z * Z) :=
  do! _ <- request (Forward hello) in
  do! moved <- splice_loop splice_rounds t 2 false 0 0 in
  do! _ <- request CloseClient in
  do! _ <- request CloseUpstream in
  Ret moved.

(** A client that was told the tunnel is open: its ClientHello, then both ways. *)
Definition inspect (t : N) (host : string) (port : N) : P bool :=
  do! limited <- request (SetDeadline true) in
  match limited with
  | Err _ => refused "failed" host port "setting TLS inspection deadline failed"
  | Ok _ =>
    do! wrote <- request WriteEstablished in
    match wrote with
    | Err _ => refused "failed" host port "client went away"
    | Ok _ =>
      do! sent <- request ClientSends in
      let '(bytes, timed_out) := sent in
      match readClientHello bytes host with
      | Some (Ok (hello, _)) =>
        do! cleared <- request (SetDeadline false) in
        match cleared with
        | Err _ => refused "failed" host port "clearing TLS inspection deadline failed"
        | Ok _ =>
          do! id <- request NextTunnel in
          let d := (decided "allowed" host port "") <| D_Tunnel := id |> in
          do! counted <- request (Count_ d file (Some pending)) in
          do! logged <- request (LogOpened d (snd counted)) in
          do! moved <- splice t hello in
          if negb logged then Ret true else
          do! cause <- request (CauseOf t) in
          do! ms <- request SinceMillis in
          do! _ <- request (LogDecision (d <| D_Decision := "closed" |> <| D_Reason := cause |>
                     <| D_BytesUp := fst moved |> <| D_BytesDown := snd moved |> <| D_Millis := ms |>)) in
          Ret true
        end
      | Some (Err err) =>
        (* an I/O error of the connection is no refusal *)
        if negb (error_is "EOF" err || error_is "unexpected EOF" err)
        then refused "denied" host port (error_text err) else
        do! cause <- request (CauseOf t) in
        refused "failed" host port
          (if negb (bool_decide (cause = "")) then cause else
           if timed_out then "TLS ClientHello deadline exceeded" else "TLS ClientHello was not completed")
      | None => refused "failed" host port "TLS ClientHello was not completed"
      end
    end
  end.
Definition hijack (host : string) (port : N) : P bool :=
  do! taken <- request Hijack in
  match taken with
  | NoHijacker => fail 500 host port "tunnel unsupported"
  | HijackFailed => Ret false
  | Hijacked =>
    do! t <- request (Track file) in
    do! settled <-
      match t with
      | None => Ret false
      | Some t =>
        do! settled <- inspect t host port in
        do! _ <- request (Untrack t) in
        Ret settled
      end in
    do! _ <- request CloseClient in
    Ret settled
  end.
Definition connect (host : string) (port : N) : P bool :=
  do! looked <- request (LookupNetIP (host +:+ ".")) in
  match looked with
  | Err _ => fail 502 host port "name did not resolve"
  | Ok addresses =>
    let targets := map Unmap (List.filter publicAddress addresses) in
    if bool_decide (targets = []) then deny 403 host port "name resolves only to non-public addresses" else
    do! upstream <- dialAddresses targets port None in
    match upstream with
    | Err _ => fail 502 host port "upstream connection failed"
    | Ok _ =>
      do! settled <- hijack host port in
      do! _ <- request CloseUpstream in
      Ret settled
    end
  end.
Definition tunnel_request (r : ProxyRequest) : P bool :=
  if negb (bool_decide (rq_method r = "CONNECT")) then
    let '(host, port) := match rq_url r with
      | None => ("(invalid host)", 80)
      | Some (hostname, scheme, port) =>
        (refusedHost hostname,
         match ParseUint port 16 with Some p => p | None => if bool_decide (scheme = "https") then 443 else 80 end)
      end in
    deny 403 host port "only HTTPS tunnels are allowed"
  else
  match SplitHostPort (rq_host r) with
  | None => deny 400 "(malformed target)" 0 "malformed tunnel target"
  | Some (hostText, portText) =>
    match ParseUint portText 16 with
    | None | Some 0 => deny 400 (refusedHost hostText) 0 "malformed tunnel target"
    | Some port =>
      match NormalizeHost hostText with
      | Err err => deny 403 (refusedHost hostText) port ("target is not an allowlisted host name (" +:+ error_text err +:+ ")")
      | Ok host =>
        if negb (allows policy (Lease_Kind lease) host port)
        then deny 403 host port ("host is not on the " +:+ Lease_Kind lease +:+ " allowlist") else
        do! reserved <- request (Reserve (Lease_Sandbox lease)) in
        if negb reserved then fail 429 host port "too many open tunnels" else
        do! settled <- connect host port in
        do! _ <- request (Release_ (Lease_Sandbox lease)) in
        Ret settled
      end
    end
  end.
End admitted.

Definition ServeHTTP (r : ProxyRequest) : P unit :=
  do! found <- lease_of (rq_auth r) in
  match found with
  | None =>
    let source := match SplitHostPort (rq_remote r) with Some (host, _) => host | None => "" end in
    do! _ <- request (LogRefusal (no_decision <| D_Decision := "denied" |> <| D_Reason := "no sandbox credential" |>)
                        ("source " +:+ source) false) in
    request (Respond 407 "Octomus egress: only sandboxes with a live lease may connect")
  | Some (lease, file) =>
    do! pending <- request (Begin_ (Lease_Sandbox lease) file) in
    match pending with
    | None =>
      do! _ <- request (LogRefusal (no_decision <| D_Sandbox := Lease_Sandbox lease |> <| D_Kind := Lease_Kind lease |>
                          <| D_Decision := "denied" |> <| D_Reason := "sandbox evidence already collected" |>)
                        ("sandbox " +:+ Lease_Sandbox lease) false) in
      request (Respond 403 "Octomus egress: this sandbox's evidence has already been collected")
    | Some id =>
      do! settled <- tunnel_request lease file id r in
      if settled then Ret tt else request (Abandon_ id)
    end
  end.

(** ** The collector, the sweep, the stop *)

Definition summary_handler (name : string) : P unit :=
  if bool_decide (name = "") || (128 <? slen name) then request (Respond 400 "sandbox required") else
  do! _ <- request (Collect_ name) in request (Respond 200 "").
Fixpoint gone_leases (leases : list string) (gone : list string) : P (list string) :=
  match leases with
  | [] => Ret gone
  | l :: rest =>
    do! lost <- embed (@File) (revoked l) in
    gone_leases rest (if lost : bool then gone ++ [l] else gone)
  end.
Fixpoint cut_all (tunnels : list N) (reason : string) : P unit :=
  match tunnels with
  | [] => Ret tt
  | t :: rest => do! _ <- request (Cut_ t reason) in cut_all rest reason
  end.
Definition sweep : P unit :=
  do! leases <- request SweepLeases in
  do! gone <- gone_leases leases [] in
  do! lost <- request (SweepForget gone) in
  do! _ <- cut_all lost "lease revoked" in
  request (FlushBudgets false).
Definition stop : P unit :=
  do! open <- request StopTunnels in
  do! _ <- cut_all open "gateway stopped" in
  do! _ <- request WaitRunning in
  request (FlushBudgets true).

(** ** Deeds *)

Inductive deed :=
| FileRead (file data : string)
| Began (sandbox : string) (id : N)
| Abandoned (id : N)
| Counted (pending into : option N) (d : Decision)
| Collected (sandbox : string) (entry : option N) (summary : Summary)
| Reserved (sandbox : string)
| Released (sandbox : string)
| LookedUp (name : string) (addresses : list Addr)
| Dialing (address : Addr) (port : N)
| Connected (address : Addr) (port : N)
| Sent (bytes : list ascii)
| Forwarded (hello : list ascii).

Definition emits (X : Type) (e : ev X) : X -> list deed :=
  match e in ev X return X -> list deed with
  | File q =>
    match q in os X return X -> list deed with
    | ReadAll file _ => fun r => match r with Ok data => [FileRead file data] | Err _ => [] end
    | _ => fun _ => []
    end
  | Begin_ sandbox _ => fun r => match r with Some id => [Began sandbox id] | None => [] end
  | Abandon_ id => fun _ => [Abandoned id]
  | Count_ d _ pending => fun r => [Counted pending (fst (fst r)) d]
  | Collect_ sandbox => fun r => [Collected sandbox (fst r) (snd r)]
  | Reserve sandbox => fun r => if r then [Reserved sandbox] else []
  | Release_ sandbox => fun _ => [Released sandbox]
  | LookupNetIP name => fun r => match r with Ok addresses => [LookedUp name addresses] | Err _ => [LookedUp name []] end
  | Dial address port _ => fun r => match r with Ok _ => [Dialing address port; Connected address port] | Err _ => [Dialing address port] end
  | ClientSends => fun r => [Sent (fst r)]
  | Forward hello => fun _ => [Forwarded hello]
  | _ => fun _ => []
  end.

(** ** Interleaving *)

(** What the outside answers to the [n]-th call, and the clock at it. *)
Class GatewayWorld := {
  replies : forall X, nat -> ev X -> X;
  gw_clock : nat -> instant;
}.
Context `{GatewayWorld}.

Definition section_call (n : nat) {X} (e : ev X) (g : Gateway) : X * Gateway :=
  let now := gw_clock n in
  match e in ev X return X * Gateway with
  | LogRefusal d source unnamed => (tt, logRefusal now d source unnamed g)
  | LogOpened d unnamed => logOpened now d unnamed g
  | LogDecision d => (tt, writeLocked now d g)
  | FlushBudgets all => (tt, flushBudgets now all g)
  | Begin_ sandbox lease => begin_request sandbox lease g
  | Abandon_ id => (tt, abandon id g)
  | Count_ d lease pending => count d lease pending g
  | Collect_ sandbox => collect now sandbox g
  | Reserve sandbox => reserve sandbox g
  | Release_ sandbox => (tt, release sandbox g)
  | Track lease => track lease g
  | Untrack id => (tt, untrack id g)
  | Cut_ id reason => (tt, snd (cut id reason g))
  | CauseOf id => (tunnel_reason id g, g)
  | NextTunnel => next_tunnel g
  | SweepLeases => (sweep_leases g, g)
  | SweepForget gone => sweep_forget now gone g
  | StopTunnels => stop_tunnels g
  | q => (replies _ n q, g)
  end.

Record Sys := mkSys { sy_gw : Gateway; sy_threads : list (P unit); sy_calls : nat; sy_deeds : list (nat * deed) }.
Inductive label := Arrive (r : ProxyRequest) | CollectFor (name : string) | SweepTick | StopNow | Go (t : nat).
Definition spawn (p : P unit) (s : Sys) : Sys := mkSys (sy_gw s) (sy_threads s ++ [p]) (sy_calls s) (sy_deeds s).
Definition step (s : Sys) (l : label) : Sys :=
  match l with
  | Arrive r => spawn (ServeHTTP r) s
  | CollectFor name => spawn (summary_handler name) s
  | SweepTick => spawn sweep s
  | StopNow => spawn stop s
  | Go t =>
    match sy_threads s !! t with
    | Some (Call e k) =>
      let '(x, g) := section_call (sy_calls s) e (sy_gw s) in
      mkSys g (<[t := k x]> (sy_threads s)) (S (sy_calls s)) (sy_deeds s ++ map (fun d => (t, d)) (emits _ e x))
    | _ => s
    end
  end.
Definition run (labels : list label) (s : Sys) : Sys := foldl step s labels.
Definition idle_gateway (logging : bool) (now : instant) : Sys := mkSys (NewGateway logging now) [] 0 [].
End serve.
