(* ===== verification/GatewayFacts.v ===== *)
(** * What the egress gateway never does, and what it never forgets

    The rules each goroutine of [GatewayServe] follows in every world
    ([permitted]), and the invariants of the interleaving: the number of open
    tunnels of a sandbox, and the evidence that is collected of it. *)
From S2P Require Import Prelude GoStrings Utf8 GoErrors GoTime Config NetIP Wire EgressPolicy ClientHello Interact Leases Gateway GatewayServe.
Local Open Scope string_scope.
Local Open Scope list_scope.
Local Open Scope N_scope.

#[local] Arguments prog_bind : simpl never.
#[local] Arguments follows : simpl never.

(** ** The rules of one goroutine *)

(** The usage and sandbox a goroutine has begun a request of and not settled. *)
Definition owed_step (o : option (string * N)) (d : deed) : option (string * N) :=
  match d with
  | Began sandbox id => Some (sandbox, id)
  | Counted (Some _) _ _ | Abandoned _ => None
  | _ => o
  end.
Definition owed (hist : list deed) : option (string * N) := foldl owed_step None hist.
(** The sandbox whose tunnel slot it holds. *)
Definition slot_step (o : option string) (d : deed) : option string :=
  match d with
  | Reserved sandbox => Some sandbox
  | Released _ => None
  | _ => o
  end.
Definition slot (hist : list deed) : option string := foldl slot_step None hist.

Section rules.
Context `{Unicode} `{LeaseText} `{AddrText} (policy : Policy).

(** A live lease was read, a request begun under it, the host and port are on
    its allowlist, and one of its sandbox's slots is held. *)
Record cleared (hist : list deed) (lease : Lease) (host : string) (port : N) : Prop := {
  cleared_lease : exists file data, FileRead file data ∈ hist /\ decode_lease data = Ok lease;
  cleared_begun : exists id, Began (Lease_Sandbox lease) id ∈ hist;
  cleared_host : canonical host;
  cleared_allowed : allows policy (Lease_Kind lease) host port = true;
  cleared_slot : slot hist = Some (Lease_Sandbox lease);
}.
(** And the address is a public one the name was looked up to. *)
Definition vetted (hist : list deed) (lease : Lease) (host : string) (port : N) (address : Addr) : Prop :=
  cleared hist lease host port
  /\ exists addresses addr, LookedUp (host +:+ ".") addresses ∈ hist /\ addr ∈ addresses
     /\ publicAddress addr = true /\ address = Unmap addr.
(** What a goroutine may do next, given what it did. *)
Definition permitted (hist : list deed) (d : deed) : Prop :=
  match d with
  | Began sandbox _ => owed hist = None /\ sandbox <> ""
  | Abandoned id => exists sandbox, owed hist = Some (sandbox, id)
  | Counted pending _ d =>
    exists id, pending = Some id /\ owed hist = Some (D_Sandbox d, id) /\ D_Sandbox d <> "" /\ D_Host d <> ""
  | Reserved _ => slot hist = None
  | Released sandbox => slot hist = Some sandbox
  | LookedUp name _ => exists lease host port, cleared hist lease host port /\ name = host +:+ "."
  | Dialing address port => exists lease host, vetted hist lease host port address
  | Connected address port => Dialing address port ∈ hist
  | Forwarded hello =>
    exists lease host port address bytes rest,
      vetted hist lease host port address /\ Connected address port ∈ hist
      /\ Sent bytes ∈ hist /\ readClientHello bytes host = Some (Ok (hello, rest))
      /\ exists id into d, Counted (Some id) into d ∈ hist /\ D_Decision d = "allowed"
         /\ D_Sandbox d = Lease_Sandbox lease /\ D_Host d = host /\ D_Port d = port
  | _ => True
  end.
Notation runs hist m Q := (follows emits permitted hist m Q).

Lemma owed_app hist ds : owed (hist ++ ds) = foldl owed_step (owed hist) ds.
Proof. apply foldl_app. Qed.
Lemma slot_app hist ds : slot (hist ++ ds) = foldl slot_step (slot hist) ds.
Proof. apply foldl_app. Qed.

Lemma runs_ask {X A} (e : ev X) (k : X -> P A) hist Q :
  (forall x, emits X e x = []) -> (forall x, runs hist (k x) Q) -> runs hist (prog_bind (request e) k) Q.
Proof. intros E F x. rewrite E, app_nil_r. split; [done|apply F]. Qed.
Lemma runs_act {X A} (e : ev X) (k : X -> P A) hist Q :
  (forall x, admitted permitted hist (emits X e x) /\ runs (hist ++ emits X e x) (k x) Q) ->
  runs hist (prog_bind (request e) k) Q.
Proof. intros F x. apply F. Qed.
Lemma runs_last {X} (e : ev X) hist (Q : list deed -> X -> Prop) :
  (forall x, emits X e x = []) -> (forall x, Q hist x) -> runs hist (request e) Q.
Proof. intros E F x. rewrite E, app_nil_r. split; [done|apply F]. Qed.
Lemma runs_then {A B} hist (m : P A) (k : A -> P B) (R : list deed -> A -> Prop) (Q : list deed -> B -> Prop) :
  runs hist m R -> (forall hist a, R hist a -> runs hist (k a) Q) -> runs hist (prog_bind m k) Q.
Proof. apply follows_step. Qed.
Lemma runs_end {A} hist (a : A) (Q : list deed -> A -> Prop) : Q hist a -> runs hist (Ret a) Q.
Proof. done. Qed.

Lemma cleared_more hist hist' lease host port :
  cleared hist lease host port -> hist `prefix_of` hist' -> slot hist' = slot hist -> cleared hist' lease host port.
Proof.
  intros [(f & data & R & D) (id & B) C A S] [more ->] E.
  split; [exists f, data|exists id|done|done|by rewrite E]; rewrite ?elem_of_app; auto.
Qed.
Lemma vetted_more hist hist' lease host port address :
  vetted hist lease host port address -> hist `prefix_of` hist' -> slot hist' = slot hist ->
  vetted hist' lease host port address.
Proof.
  intros [C (addresses & addr & L & I & P)] E S. split; [by eapply cleared_more|].
  exists addresses, addr. split; [|done]. destruct E as [more ->]. rewrite elem_of_app. auto.
Qed.

(** ** Reading a lease *)

Lemma lookup_runs hist token :
  runs hist (embed (@File) (Leases.lookup token)) (fun hist' r =>
    owed hist' = owed hist /\ slot hist' = slot hist /\
    match r with
    | Some (lease, _) => Lease_Sandbox lease <> "" /\ exists file data, FileRead file data ∈ hist' /\ decode_lease data = Ok lease
    | None => True
    end).
Proof.
  unfold Leases.lookup. destruct (negb (slen token =? 2 * tokenBytes)); [by apply runs_end|].
  destruct (negb (is_hex (chars token))); [by apply runs_end|].
  apply (runs_ask (File (LstatRegular _))); [done|]. intros [[]|err]; [|by apply runs_end..].
  apply (runs_act (File (ReadAll _ _))). intros [data|err]; cbn [emits]; [|rewrite app_nil_r; split; [done|by apply runs_end]].
  split; [by simpl|].
  assert (owed (hist ++ [FileRead (leaseFile token) data]) = owed hist /\ slot (hist ++ [FileRead (leaseFile token) data]) = slot hist)
    as [O S] by (rewrite owed_app, slot_app; done).
  cbn -[maxLeaseBytes slen follows]. destruct (maxLeaseBytes <? slen data); [by apply runs_end|].
  destruct (decode_lease data) as [lease|err] eqn:D; [|by apply runs_end].
  destruct (_ || _) eqn:B; [by apply runs_end|]. apply orb_false_iff in B as [B _]. apply bool_decide_eq_false in B.
  apply runs_end. split; [done|]. split; [done|]. split; [done|]. exists (leaseFile token), data.
  rewrite elem_of_app, !list_elem_of_singleton. auto.
Qed.
Lemma lease_of_runs hist header :
  runs hist (lease_of header) (fun hist' r =>
    owed hist' = owed hist /\ slot hist' = slot hist /\
    match r with
    | Some (lease, _) => Lease_Sandbox lease <> "" /\ exists file data, FileRead file data ∈ hist' /\ decode_lease data = Ok lease
    | None => True
    end).
Proof.
  unfold lease_of. destruct (CutPrefix header "Basic ") as [encoded ok]. destruct ok; [|done]. simpl.
  destruct (base64_decode _) as [decoded|]; [|done]. destruct (Cut _ _) as [[user token] ok].
  destruct (negb ok || _); [done|]. apply lookup_runs.
Qed.
Lemma refusedHost_some text : refusedHost text <> "".
Proof.
  unfold refusedHost. destruct (NormalizeHost text) as [host|] eqn:N.
  - apply NormalizeHost_Ok in N as [[L _] _ _ _]. by intros ->.
  - destruct (ParseAddr _); [apply addr_text_some|]. destruct (ValidLabel _) eqn:V; [|done].
    intros E. by rewrite E in V.
Qed.

(** ** A request under a lease *)

Section admitted.
Context (lease : Lease) (file : string) (id : N).
Hypothesis named : Lease_Sandbox lease <> "".

(** The request settled or not, the slot as it was. *)
Definition ends (held : option string) (hist : list deed) (settled : bool) : Prop :=
  owed hist = (if settled then None else Some (Lease_Sandbox lease, id)) /\ slot hist = held.

Lemma counted_permitted hist into d :
  owed hist = Some (Lease_Sandbox lease, id) -> D_Sandbox d = Lease_Sandbox lease -> D_Host d <> "" ->
  admitted permitted hist [Counted (Some id) into d].
Proof. intros O S N. split; [|done]. exists id. rewrite S. auto. Qed.
Lemma recordRefusal_runs hist decision host port reason :
  owed hist = Some (Lease_Sandbox lease, id) -> host <> "" ->
  runs hist (recordRefusal lease file id decision host port reason) (fun hist' _ => ends (slot hist) hist' true).
Proof.
  intros O N. apply runs_act. intros [[into key] unnamed]. cbn [emits fst].
  split; [by apply counted_permitted|]. apply runs_last; [done|]. intros _.
  split; [by rewrite owed_app|by rewrite slot_app].
Qed.
Lemma refused_runs hist decision host port reason :
  owed hist = Some (Lease_Sandbox lease, id) -> host <> "" ->
  runs hist (refused lease file id decision host port reason) (ends (slot hist)).
Proof. intros O N. eapply runs_then; [by apply recordRefusal_runs|]. intros h [] E. by apply runs_end. Qed.
Lemma refuse_runs hist decision status host port reason :
  owed hist = Some (Lease_Sandbox lease, id) -> host <> "" ->
  runs hist (refuse lease file id decision status host port reason) (ends (slot hist)).
Proof.
  intros O N. eapply runs_then; [by apply recordRefusal_runs|]. intros h [] E.
  apply runs_ask; [done|]. intros _. by apply runs_end.
Qed.

Lemma splice_loop_runs hist rounds t pending idle up down :
  runs hist (splice_loop rounds t pending idle up down) (fun hist' _ => hist' = hist).
Proof.
  revert pending idle up down. induction rounds as [|rounds IH]; intros pending idle up down; [by apply runs_end|].
  destruct pending as [|others]; [by apply runs_end|]. cbn [splice_loop]. apply runs_ask; [done|]. intros [n|n| |].
  - apply IH.
  - apply IH.
  - apply runs_ask; [done|]. intros _. apply IH.
  - destruct idle; [|apply IH]. apply runs_ask; [done|]. intros quiet. destruct (_ <=? _)%Z; [|apply IH].
    apply runs_ask; [done|]. intros _. apply IH.
Qed.
Lemma splice_runs hist t hello :
  permitted hist (Forwarded hello) ->
  runs hist (splice t hello) (fun hist' _ => owed hist' = owed hist /\ slot hist' = slot hist).
Proof.
  intros F. apply runs_act. intros []. cbn [emits]. split; [by split|].
  eapply runs_then; [apply splice_loop_runs|]. intros h moved ->.
  apply runs_ask; [done|]. intros _. apply runs_ask; [done|]. intros _. apply runs_end.
  by rewrite owed_app, slot_app.
Qed.
Lemma inspect_runs hist t host port address :
  owed hist = Some (Lease_Sandbox lease, id) -> vetted hist lease host port address -> Connected address port ∈ hist ->
  runs hist (inspect lease file id t host port) (ends (slot hist)).
Proof.
  intros O V C. assert (host <> "") as N.
  { destruct V as [[_ _ [[L _] _ _ _] _ _] _]. by intros ->. }
  unfold inspect. apply runs_ask; [done|]. intros [[]|err]; [|by apply refused_runs].
  apply runs_ask; [done|]. intros [[]|err]; [|by apply refused_runs].
  apply runs_act. intros [bytes timed_out]. cbn [emits fst]. split; [by split|].
  set (hist1 := hist ++ [Sent bytes]).
  assert (owed hist1 = Some (Lease_Sandbox lease, id)) as O1 by (unfold hist1; by rewrite owed_app, O).
  assert (slot hist1 = slot hist) as S1 by (unfold hist1; by rewrite slot_app).
  assert (hist `prefix_of` hist1) as E1 by (by exists [Sent bytes]).
  rewrite <- S1. destruct (readClientHello bytes host) as [[[hello rest]|err]|] eqn:R; [| |by apply refused_runs]; cycle 1.
  { destruct (negb _); [by apply refused_runs|]. apply runs_ask; [done|]. intros cause. by apply refused_runs. }
  apply runs_ask; [done|]. intros [[]|err]; [|by apply refused_runs].
  apply runs_ask; [done|]. intros tid. apply runs_act. intros [[into key] unnamed]. cbn [emits fst snd].
  split; [by apply counted_permitted|]. set (d := _ <| D_Tunnel := tid |>).
  set (hist2 := hist1 ++ [Counted (Some id) into d]).
  assert (owed hist2 = None) as O2 by (unfold hist2; by rewrite owed_app, O1).
  assert (slot hist2 = slot hist1) as S2 by (unfold hist2; by rewrite slot_app).
  apply runs_ask; [done|]. intros logged. eapply runs_then; [apply splice_runs|].
  - exists lease, host, port, address, bytes, rest. split; [|split; [|split; [|split]]].
    + eapply vetted_more; [exact V| |congruence].
      exists ([Sent bytes] ++ [Counted (Some id) into d]). unfold hist2, hist1. by rewrite <- app_assoc.
    + unfold hist2, hist1. rewrite !elem_of_app. auto.
    + unfold hist2, hist1. rewrite !elem_of_app, !list_elem_of_singleton. auto.
    + done.
    + exists id, into, d. unfold hist2. rewrite elem_of_app, !list_elem_of_singleton. auto.
  - intros h moved [O3 S3]. assert (ends (slot hist1) h true) by (split; congruence).
    destruct logged; [|by apply runs_end]. apply runs_ask; [done|]. intros cause. apply runs_ask; [done|]. intros ms.
    apply runs_ask; [done|]. intros _. by apply runs_end.
Qed.
Lemma hijack_runs hist host port address :
  owed hist = Some (Lease_Sandbox lease, id) -> vetted hist lease host port address -> Connected address port ∈ hist ->
  runs hist (hijack lease file id host port) (ends (slot hist)).
Proof.
  intros O V C. assert (host <> "") as N.
  { destruct V as [[_ _ [[L _] _ _ _] _ _] _]. by intros ->. }
  apply runs_ask; [done|]. intros [| |]; [by apply refuse_runs|by apply runs_end|].
  apply runs_ask; [done|]. intros [t|]; (eapply runs_then; [|intros h b E; apply runs_ask; [done|]; intros _; apply runs_end, E]).
  - eapply runs_then; [by eapply inspect_runs|]. intros h b E. apply runs_ask; [done|]. intros _. by apply runs_end.
  - by apply runs_end.
Qed.

(** What dialing the vetted addresses leaves. *)
Lemma dialAddresses_runs hist addresses host port last :
  (forall a, a ∈ addresses -> vetted hist lease host port a) ->
  runs hist (dialAddresses addresses port last) (fun hist' r =>
    owed hist' = owed hist /\ slot hist' = slot hist
    /\ (is_ok r = true -> (addresses = [] /\ last = None)
        \/ exists address, vetted hist' lease host port address /\ Connected address port ∈ hist')).
Proof.
  revert hist last. induction addresses as [|address rest IH]; intros hist last V.
  { apply runs_end. split; [done|]. split; [done|]. destruct last; [done|]. by left. }
  cbn [dialAddresses]. apply runs_ask; [done|]. intros [err|]; [by apply runs_end|].
  assert (vetted hist lease host port address) as Va by (apply V; by left).
  apply runs_act. intros [[]|err]; cbn [emits].
  - split; [split; [by exists lease, host|]; split; [|done]|].
    { cbn [permitted]. rewrite elem_of_app, list_elem_of_singleton. auto. }
    apply runs_end. split; [by rewrite owed_app|]. split; [by rewrite slot_app|]. intros _. right. exists address.
    split; [eapply vetted_more; [exact Va|by eexists|by rewrite slot_app]|]. rewrite elem_of_app. right. right. by left.
  - split; [by split; [exists lease, host|]|]. set (hist1 := hist ++ _).
    assert (slot hist1 = slot hist) as S1 by (unfold hist1; by rewrite slot_app).
    eapply follows_mono; [apply IH|].
    + intros a I. eapply vetted_more; [apply V; by right|by eexists|done].
    + intros h r (O & S & C). split; [rewrite O; unfold hist1; by rewrite owed_app|]. split; [congruence|].
      intros E. destruct (C E) as [[_ ?]|?]; [done|]. by right.
Qed.
Lemma connect_runs hist host port :
  owed hist = Some (Lease_Sandbox lease, id) -> cleared hist lease host port ->
  runs hist (connect lease file id host port) (ends (slot hist)).
Proof.
  intros O C. assert (host <> "") as N. { destruct C as [_ _ [[L _] _ _ _] _ _]. by intros ->. }
  apply runs_act. intros looked.
  assert (forall addresses, owed (hist ++ [LookedUp (host +:+ ".") addresses]) = Some (Lease_Sandbox lease, id)) as O1
    by (intros; by rewrite owed_app, O).
  assert (forall addresses, slot (hist ++ [LookedUp (host +:+ ".") addresses]) = slot hist) as S1
    by (intros; by rewrite slot_app).
  destruct looked as [addresses|err]; cbn [emits]; (split; [split; [|done]; exists lease, host, port; done|]); cycle 1.
  { erewrite <- S1. by apply refuse_runs. }
  rewrite <- (S1 addresses). specialize (O1 addresses). specialize (S1 addresses). set (hist1 := hist ++ _) in *.
  destruct (bool_decide _) eqn:E; [by apply refuse_runs|].
  eapply runs_then; [apply (dialAddresses_runs hist1 _ host port None)|].
  - intros a (addr & <- & I)%elem_of_map. apply elem_of_bfilter in I as [P I]. split.
    + eapply cleared_more; [exact C|by eexists|done].
    + exists addresses, addr. split; [|done]. unfold hist1. rewrite elem_of_app, list_elem_of_singleton. auto.
  - intros h r (Oh & Sh & Ch). rewrite <- Sh. assert (owed h = Some (Lease_Sandbox lease, id)) as O2 by by congruence.
    destruct r as [b|err]; [|by apply refuse_runs].
    destruct (Ch eq_refl) as [[Z _]|(address & V & K)]; [by apply bool_decide_eq_false in E|].
    eapply runs_then; [by eapply hijack_runs|]. intros h2 settled En. apply runs_ask; [done|]. intros _. by apply runs_end.
Qed.
Lemma tunnel_request_runs hist r :
  owed hist = Some (Lease_Sandbox lease, id) -> slot hist = None -> Began (Lease_Sandbox lease) id ∈ hist ->
  (exists file data, FileRead file data ∈ hist /\ decode_lease data = Ok lease) ->
  runs hist (tunnel_request policy lease file id r) (ends None).
Proof.
  intros O S B L. rewrite <- S. unfold tunnel_request. destruct (negb _).
  { destruct (rq_url r) as [[[hostname scheme] port]|]; apply refuse_runs; try done. apply refusedHost_some. }
  destruct (SplitHostPort (rq_host r)) as [[hostText portText]|]; [|by apply refuse_runs].
  destruct (ParseUint portText 16) as [[|p]|]; [by apply refuse_runs, refusedHost_some| |by apply refuse_runs, refusedHost_some].
  set (port := N.pos p). destruct (NormalizeHost hostText) as [host|err] eqn:NH; [|by apply refuse_runs, refusedHost_some].
  apply NormalizeHost_Ok in NH. assert (host <> "") as N. { destruct NH as [[Ln _] _ _ _]. by intros ->. }
  destruct (allows policy (Lease_Kind lease) host port) eqn:A; [|by apply refuse_runs].
  apply runs_act. intros [|]; cbn [emits]; cycle 1.
  { rewrite app_nil_r. split; [done|]. by apply refuse_runs. }
  split; [by split|]. set (hist1 := hist ++ _).
  assert (slot hist1 = Some (Lease_Sandbox lease)) as S1 by (unfold hist1; by rewrite slot_app).
  eapply runs_then; [apply connect_runs|].
  - unfold hist1. by rewrite owed_app, O.
  - destruct L as (f & data & R & D). split; [exists f, data|exists id| | |]; try done; unfold hist1; rewrite elem_of_app; auto.
  - intros h settled [O2 S2]. apply runs_act. intros []. cbn [emits]. split; [split; [|done]; cbn [permitted]; congruence|].
    apply runs_end. split; [by rewrite owed_app, O2; destruct settled|]. by rewrite slot_app, S.
Qed.
End admitted.

(** ** Every goroutine *)

(** At rest: nothing owed, no slot held. *)
Definition at_rest (hist : list deed) (_ : unit) : Prop := owed hist = None /\ slot hist = None.
Lemma ServeHTTP_runs r : runs [] (ServeHTTP policy r) at_rest.
Proof.
  unfold ServeHTTP. eapply runs_then; [apply lease_of_runs|]. intros h [[lease file]|] (O & S & L); cycle 1.
  { apply runs_ask; [done|]. intros _. by apply runs_last. }
  destruct L as (N & L). apply runs_act. intros [id|]; cbn [emits]; cycle 1.
  { rewrite app_nil_r. split; [done|]. apply runs_ask; [done|]. intros _. by apply runs_last. }
  split; [by split|]. set (h1 := h ++ _). eapply runs_then; [apply tunnel_request_runs|].
  - done.
  - unfold h1. by rewrite owed_app.
  - unfold h1. by rewrite slot_app, S.
  - unfold h1. rewrite elem_of_app, list_elem_of_singleton. auto.
  - destruct L as (f & data & R & D). exists f, data. unfold h1. rewrite elem_of_app. auto.
  - intros h2 [|] [O2 S2]; [by apply runs_end|]. intros []. cbn [emits]. split; [split; [by eexists|done]|].
    apply runs_end. split; [by rewrite owed_app|by rewrite slot_app].
Qed.
Lemma summary_handler_runs name : runs [] (summary_handler name) at_rest.
Proof.
  unfold summary_handler. destruct (_ || _); [by apply runs_last|]. apply runs_act. intros [entry s]. cbn [emits].
  split; [by split|]. by apply runs_last.
Qed.
Lemma cut_all_runs hist tunnels reason : runs hist (cut_all tunnels reason) (fun hist' _ => hist' = hist).
Proof. induction tunnels as [|t rest IH]; [by apply runs_end|]. apply runs_ask; [done|]. by intros _. Qed.
Lemma gone_leases_runs hist leases gone : runs hist (gone_leases leases gone) (fun hist' _ => hist' = hist).
Proof.
  revert gone. induction leases as [|l rest IH]; intros gone; [by apply runs_end|]. cbn [gone_leases].
  eapply (runs_then _ _ _ (fun h _ => h = hist)); [|intros h b ->; apply IH].
  apply (runs_ask (File (StatFile l))); [done|]. intros r. by apply runs_end.
Qed.
Lemma sweep_runs : runs [] sweep at_rest.
Proof.
  apply runs_ask; [done|]. intros leases. eapply runs_then; [apply gone_leases_runs|]. intros h gone ->.
  apply runs_ask; [done|]. intros lost. eapply runs_then; [apply cut_all_runs|]. intros h [] ->. by apply runs_last.
Qed.
Lemma stop_runs : runs [] stop at_rest.
Proof.
  apply runs_ask; [done|]. intros open. eapply runs_then; [apply cut_all_runs|]. intros h [] ->.
  apply runs_ask; [done|]. intros _. by apply runs_last.
Qed.
End rules.
