(* ===== verification/GatewayInv.v ===== *)
(** * The interleaved gateway

    Invariants of [GatewayServe.run], for any goroutines in any order: each
    keeps the rules of [GatewayFacts], a sandbox never holds more than its
    tunnels, and a summary collected as complete accounts for every request
    begun under it. *)
From S2P Require Import Prelude GoStrings Utf8 GoErrors GoTime Config NetIP Wire EgressPolicy ClientHello Interact Leases Gateway GatewayServe GatewayFacts.
Local Open Scope string_scope.
Local Open Scope list_scope.
Local Open Scope N_scope.

(** ** Histories *)

(** What goroutine [t] did. *)
Definition own (t : nat) (ds : list (nat * deed)) : list deed := map snd (List.filter (fun d => (fst d =? t)%nat) ds).
Lemma own_snoc t ds t' d : own t (ds ++ [(t', d)]) = if (t' =? t)%nat then own t ds ++ [d] else own t ds.
Proof. unfold own. rewrite List.filter_app, map_app. simpl. destruct (t' =? t)%nat; [done|apply app_nil_r]. Qed.
Lemma own_same t ds d : own t (ds ++ [(t, d)]) = own t ds ++ [d].
Proof. by rewrite own_snoc, Nat.eqb_refl. Qed.
Lemma own_other t t' ds d : t <> t' -> own t (ds ++ [(t', d)]) = own t ds.
Proof. intros N. rewrite own_snoc. destruct (Nat.eqb_spec t' t); [by subst|done]. Qed.

(** How many of the first [n] goroutines satisfy [f], and how many deeds [p]. *)
Definition b2n (b : bool) : N := if b then 1 else 0.
Fixpoint tally (f : nat -> bool) (n : nat) : N :=
  match n with O => 0 | S n => b2n (f n) + tally f n end.
Definition number (p : deed -> bool) (ds : list (nat * deed)) : N := lenN (List.filter (fun d => p (snd d)) ds).
Lemma tally_ext f f' n : (forall t, (t < n)%nat -> f' t = f t) -> tally f' n = tally f n.
Proof. induction n as [|n IH]; intros E; [done|]. simpl. rewrite E, IH by auto with lia. done. Qed.
Lemma tally_change f f' n t :
  (t < n)%nat -> (forall i, i <> t -> f' i = f i) -> tally f' n + b2n (f t) = tally f n + b2n (f' t).
Proof.
  intros L E. induction n as [|n IH]; [lia|]. simpl. destruct (decide (t = n)) as [->|N].
  - rewrite (tally_ext f f' n) by (intros i Li; apply E; lia). lia.
  - rewrite (E n) by done. assert (tally f' n + b2n (f t) = tally f n + b2n (f' t)) by (apply IH; lia). lia.
Qed.
Lemma tally_zero f n t : tally f n = 0 -> (t < n)%nat -> f t = false.
Proof.
  induction n as [|n IH]; [lia|]. simpl. intros Z L. destruct (decide (t = n)) as [->|]; [|apply IH; lia].
  destruct (f n); [simpl in Z; lia|done].
Qed.
Lemma number_snoc p ds t d : number p (ds ++ [(t, d)]) = number p ds + b2n (p d).
Proof. unfold number, lenN. rewrite List.filter_app, length_app. simpl. destruct (p d); simpl; lia. Qed.

(** Which goroutines owe the usage [id], which hold a slot of [sandbox]. *)
Definition owes (ds : list (nat * deed)) (id : N) (t : nat) : bool :=
  match owed (own t ds) with Some (_, i) => i =? id | None => false end.
Definition holds (ds : list (nat * deed)) (sandbox : string) (t : nat) : bool :=
  bool_decide (slot (own t ds) = Some sandbox).
Lemma owed_snoc t ds d : owed (own t (ds ++ [(t, d)])) = owed_step (owed (own t ds)) d.
Proof. by rewrite own_same, owed_app. Qed.
Lemma slot_snoc t ds d : slot (own t (ds ++ [(t, d)])) = slot_step (slot (own t ds)) d.
Proof. by rewrite own_same, slot_app. Qed.
Lemma owes_other t t' ds d id : t <> t' -> owes (ds ++ [(t', d)]) id t = owes ds id t.
Proof. intros N. unfold owes. by rewrite own_other. Qed.
Lemma holds_other t t' ds d sb : t <> t' -> holds (ds ++ [(t', d)]) sb t = holds ds sb t.
Proof. intros N. unfold holds. by rewrite own_other. Qed.

(** ** Deeds that concern a usage *)

Definition is_began (id : N) (d : deed) : bool := match d with Began _ i => i =? id | _ => false end.
Definition is_abandoned (id : N) (d : deed) : bool := match d with Abandoned i => i =? id | _ => false end.
(** An outcome of one of its requests counted in it; counted elsewhere; any counted in it. *)
Definition is_within (id : N) (d : deed) : bool :=
  match d with Counted (Some i) (Some j) _ => (i =? id) && (j =? id) | _ => false end.
Definition is_astray (id : N) (d : deed) : bool :=
  match d with
  | Counted (Some i) into _ => (i =? id) && negb (bool_decide (into = Some id))
  | _ => false
  end.
Definition is_into (id : N) (d : deed) : bool := match d with Counted _ (Some j) _ => j =? id | _ => false end.
(** The decisions a summary counts. *)
Definition total (s : Summary) : N :=
  map_sum (fun _ n => n) (Summary_Allowed s) + map_sum (fun _ n => n) (Summary_Denied s) + map_sum (fun _ n => n) (Summary_Failed s).

Lemma total_set decision m s :
  total (set_target decision m s) + map_sum (fun _ n => n) (target_of decision s) = total s + map_sum (fun _ n => n) m.
Proof.
  unfold total, set_target, target_of. destruct s. repeat case_bool_decide; simpl; lia.
Qed.
Lemma sum_bump (m : gmap string N) key :
  map_sum (fun _ n => n) (<[key := default 0 (m !! key) + 1]> m) = map_sum (fun _ n => n) m + 1.
Proof.
  destruct (m !! key) as [n|] eqn:E; simpl.
  - pose proof (map_sum_insert_Some (fun _ n => n) m key (n + 1) n E). simpl in *. lia.
  - rewrite map_sum_insert_None by done. lia.
Qed.
Lemma count_in_total d u :
  let u' := snd (count_in d u) in
  total (u_summary u') = total (u_summary u) + 1 /\ u_pending u' = u_pending u
  /\ Summary_Incomplete (u_summary u') = Summary_Incomplete (u_summary u).
Proof.
  unfold count_in. simpl. set (key := if _ && _ then "other" else _).
  pose proof (total_set (D_Decision d) (<[key := default 0 (target_of (D_Decision d) (u_summary u) !! key) + 1]>
    (target_of (D_Decision d) (u_summary u))) (u_summary u)) as T. rewrite sum_bump in T. simpl.
  split; [lia|]. split; [done|]. unfold set_target. by repeat case_bool_decide.
Qed.

(** ** The accounts *)

(** What the evidence of [n] goroutines with these deeds is, in a gateway; the
    usage [debt] has settled a request whose deed is still to come. *)
Record accounts (debt : option N) (g : Gateway) (n : nat) (ds : list (nat * deed)) : Prop := {
  ac_stats sb id : g_stats g !! sb = Some id -> is_Some (g_usages g !! id);
  ac_one sb sb' id : g_stats g !! sb = Some id -> g_stats g !! sb' = Some id -> sb = sb';
  ac_collected sb : is_Some (g_collected g !! sb) -> g_stats g !! sb = None;
  ac_pending id u : g_usages g !! id = Some u ->
    u_pending u = (Z.of_N (tally (owes ds id) n) - (if bool_decide (debt = Some id) then 1 else 0))%Z;
  ac_debt id : debt = Some id -> is_Some (g_usages g !! id);
  ac_owed t sb id : owed (own t ds) = Some (sb, id) ->
    (t < n)%nat /\ is_Some (g_usages g !! id) /\ forall sb', g_stats g !! sb' = Some id -> sb' = sb;
  ac_balance id : number (is_began id) ds
    = tally (owes ds id) n + number (is_within id) ds + number (is_astray id) ds + number (is_abandoned id) ds;
  ac_new id : g_usages g !! id = None -> number (is_began id) ds = 0 /\ number (is_into id) ds = 0;
  ac_live sb id u : g_stats g !! sb = Some id -> g_usages g !! id = Some u ->
    number (is_astray id) ds = 0 /\ total (u_summary u) = number (is_into id) ds
    /\ (Summary_Incomplete (u_summary u) = false -> number (is_abandoned id) ds = 0);
  ac_done t sb id s : (t, Collected sb (Some id) s) ∈ ds -> Summary_Incomplete s = false ->
    is_Some (g_usages g !! id) /\ (forall sb', g_stats g !! sb' <> Some id) /\ tally (owes ds id) n = 0
    /\ number (is_began id) ds = number (is_within id) ds /\ total s = number (is_into id) ds;
}.

(** What the accounts see of a usage. *)
Definition seen (u : usage) : Summary * Z := (u_summary u, u_pending u).
(** A gateway that only forgot. *)
Record forgets (g g' : Gateway) : Prop := {
  fg_usages id : seen <$> g_usages g' !! id = seen <$> g_usages g !! id;
  fg_stats : g_stats g' ⊆ g_stats g;
  fg_collected sb : is_Some (g_collected g' !! sb) -> is_Some (g_collected g !! sb);
}.
Lemma forgets_refl g : forgets g g.
Proof. by split. Qed.
Lemma forgets_trans g1 g2 g3 : forgets g1 g2 -> forgets g2 g3 -> forgets g1 g3.
Proof. intros [U S C] [U' S' C']. split; [intros; by rewrite U'|by transitivity (g_stats g2)|auto]. Qed.
Lemma forgets_same g g' :
  g_usages g' = g_usages g -> g_stats g' = g_stats g -> g_collected g' = g_collected g -> forgets g g'.
Proof. intros U S C. split; [by rewrite U|by rewrite S|by rewrite C]. Qed.
Lemma forgets_some g g' id : forgets g g' -> is_Some (g_usages g' !! id) <-> is_Some (g_usages g !! id).
Proof. intros [U _ _]. specialize (U id). rewrite <- !(fmap_is_Some seen). by rewrite U. Qed.
Lemma forgets_lookup g g' id u : forgets g g' -> g_usages g' !! id = Some u -> exists u0, g_usages g !! id = Some u0 /\ seen u0 = seen u.
Proof.
  intros [U _ _] E. specialize (U id). rewrite E in U. destruct (g_usages g !! id) as [u0|]; [|done].
  exists u0. split; [done|]. simpl in U. congruence.
Qed.
Lemma accounts_forget debt g g' n ds : accounts debt g n ds -> forgets g g' -> accounts debt g' n ds.
Proof.
  intros [St One Co Pe De Ow Ba Ne Li Do] F. pose proof F as [U S C].
  assert (forall sb id, g_stats g' !! sb = Some id -> g_stats g !! sb = Some id) as S'
    by (intros sb id E; by eapply lookup_weaken).
  split.
  - intros sb id E%S'%St. by apply (forgets_some _ _ _ F).
  - intros sb sb' id E%S' E'%S'. by eapply One.
  - intros sb E%C%Co. by eapply lookup_weaken_None.
  - intros id u E. destruct (forgets_lookup _ _ _ _ F E) as (u0 & E0 & [= _ <-]). by apply Pe.
  - intros id D. by apply (forgets_some _ _ _ F), De.
  - intros t sb id E. destruct (Ow t sb id E) as (L & I & W). split; [done|]. split; [by apply (forgets_some _ _ _ F)|].
    intros sb' E'%S'. by apply W.
  - done.
  - intros id E. apply Ne. apply eq_None_not_Some. intros X. apply (forgets_some _ _ _ F) in X. rewrite E in X. by destruct X.
  - intros sb id u E%S' E'. destruct (forgets_lookup _ _ _ _ F E') as (u0 & E0 & [= <- _]). by eapply Li.
  - intros t sb id s E I. destruct (Do t sb id s E I) as (X & W & R). split; [by apply (forgets_some _ _ _ F)|]. split; [|done].
    intros sb' E'%S'. by apply W in E'.
Qed.

(** ** One deed *)

Lemma deeds_snoc (ds : list (nat * deed)) t d t' d' : (t', d') ∈ ds ++ [(t, d)] -> (t', d') ∈ ds \/ (t' = t /\ d' = d).
Proof. rewrite elem_of_app, list_elem_of_singleton. intros [|[= -> ->]]; auto. Qed.
Lemma tally_owes n ds t d id :
  (t < n)%nat ->
  tally (owes (ds ++ [(t, d)]) id) n + b2n (owes ds id t) = tally (owes ds id) n + b2n (owes (ds ++ [(t, d)]) id t).
Proof. intros L. apply tally_change; [done|]. intros i N. by apply owes_other. Qed.
Lemma owed_before t t' ds d : t <> t' -> owed (own t (ds ++ [(t', d)])) = owed (own t ds).
Proof. intros N. by rewrite own_other. Qed.

Definition inert (d : deed) : bool :=
  match d with Began _ _ | Abandoned _ | Counted _ _ _ | Collected _ _ _ => false | _ => true end.
Lemma accounts_inert debt g n ds t d : inert d = true -> accounts debt g n ds -> accounts debt g n (ds ++ [(t, d)]).
Proof.
  intros I [St One Co Pe De Ow Ba Ne Li Do].
  assert (forall t', owed (own t' (ds ++ [(t, d)])) = owed (own t' ds)) as O.
  { intros t'. destruct (decide (t' = t)) as [->|N]; [|by apply owed_before]. rewrite owed_snoc. by destruct d. }
  assert (forall id, tally (owes (ds ++ [(t, d)]) id) n = tally (owes ds id) n) as T.
  { intros id. apply tally_ext. intros t' _. unfold owes. by rewrite O. }
  assert (forall id, number (is_began id) (ds ++ [(t, d)]) = number (is_began id) ds
    /\ number (is_within id) (ds ++ [(t, d)]) = number (is_within id) ds
    /\ number (is_astray id) (ds ++ [(t, d)]) = number (is_astray id) ds
    /\ number (is_abandoned id) (ds ++ [(t, d)]) = number (is_abandoned id) ds
    /\ number (is_into id) (ds ++ [(t, d)]) = number (is_into id) ds) as N.
  { intros id. rewrite !number_snoc. destruct d; simpl; try done; lia. }
  split; try done.
  - intros id u E. rewrite T. by apply Pe.
  - intros t' sb id E. rewrite O in E. by eapply Ow.
  - intros id. destruct (N id) as (-> & -> & -> & -> & _). by rewrite T.
  - intros id E. destruct (N id) as (-> & _ & _ & _ & ->). by apply Ne.
  - intros sb id u E E'. destruct (N id) as (_ & _ & -> & -> & ->). by eapply Li.
  - intros t' sb id s E Z. destruct (N id) as (-> & -> & _ & _ & ->). rewrite T.
    apply deeds_snoc in E as [E|[_ E]]; [by eapply Do|]. by subst d.
Qed.

(** A usage known to be live, with the accounts as they are. *)
Lemma entry_of_accounts debt g n ds sb lease :
  accounts debt g n ds -> g_collected g !! sb = None ->
  exists g' id u, entry_of sb lease g = (id, g') /\ accounts debt g' n ds /\ g_stats g' !! sb = Some id /\ g_usages g' !! id = Some u
    /\ g_collected g' = g_collected g /\ (forall sb', sb' <> sb -> g_stats g' !! sb' = g_stats g !! sb')
    /\ (forall id0, g_stats g !! sb = Some id0 -> id = id0) /\ (g_usages g !! id = None \/ g' = g).
Proof.
  intros A C. pose proof A as [St One Co Pe De Ow Ba Ne Li Do]. unfold entry_of.
  destruct (g_stats g !! sb) as [id|] eqn:E.
  { destruct (St _ _ E) as [u U]. exists g, id, u. split; [done|]. split; [done|].
    split; [done|]. split; [done|]. split; [done|]. split; [done|]. split; [congruence|by right]. }
  set (id := fresh_key (g_usages g)).
  assert (g_usages g !! id = None) as F.
  { apply not_elem_of_dom. unfold id, fresh_key. apply is_fresh. }
  set (u := Gateway.mkUsage _ _ _ _ _). set (g' := g <| g_usages := _ |> <| g_stats := _ |>).
  assert (forall sb', g_stats g !! sb' <> Some id) as Out.
  { intros sb' E'%St. rewrite F in E'. by destruct E'. }
  destruct (Ne id F) as [Nb Ni]. pose proof (Ba id) as Bi. rewrite Nb in Bi.
  exists g', id, u. split; [done|]. split; [|split; [apply lookup_insert_eq|split; [apply lookup_insert_eq|]]].
  - split; simpl.
    + intros sb' i [[-> <-]|[N L]]%lookup_insert_Some; [rewrite lookup_insert_eq; by eexists|].
      destruct (St _ _ L) as [u' U']. rewrite lookup_insert_ne by (intros ->; congruence). by eexists.
    + intros s1 s2 i [[-> <-]|[N1 L1]]%lookup_insert_Some [[E2 E2']|[N2 L2]]%lookup_insert_Some; try done.
      * by apply Out in L2.
      * subst. by apply Out in L1.
      * by eapply One.
    + intros sb' I. rewrite lookup_insert_ne; [by apply Co|]. intros ->. rewrite C in I. by destruct I.
    + intros i u' [[<- <-]|[N L]]%lookup_insert_Some; [simpl; replace (tally (owes ds id) n) with 0 by lia; rewrite bool_decide_eq_false_2; [done|]; intros D; apply De in D; rewrite F in D; by destruct D|]. by apply Pe.
    + intros i D. destruct (De i D) as [u' U']. rewrite lookup_insert_ne by (intros <-; congruence). by eexists.
    + intros t sb' i O. destruct (Ow _ _ _ O) as (L & [u' U'] & W). split; [done|].
      assert (i <> id) as Ni' by (intros ->; congruence). rewrite lookup_insert_ne by done. split; [by eexists|].
      intros s2 [[-> E2]|[N2 L2]]%lookup_insert_Some; [by subst|by apply W].
    + done.
    + intros i [L _]%lookup_insert_None. by apply Ne.
    + intros sb' i u' [[-> <-]|[N L]]%lookup_insert_Some U'.
      * rewrite lookup_insert_eq in U'. injection U' as <-. simpl. split; [lia|]. split; [rewrite Ni; done|]. lia.
      * destruct (St _ _ L) as [u0 U0]. rewrite lookup_insert_ne in U' by (intros <-; congruence). by eapply Li.
    + intros t sb' i s I Z. destruct (Do _ _ _ _ I Z) as ([u' U'] & W & R). assert (i <> id) by (intros ->; congruence).
      rewrite lookup_insert_ne by done. split; [by eexists|]. split; [|done].
      intros s2 [[-> E2]|[N2 L2]]%lookup_insert_Some; [by subst|by apply W in L2].
  - split; [done|]. split; [intros sb' N; simpl; by rewrite lookup_insert_ne|]. split; [done|by left].
Qed.

(** Changing one usage. *)
Lemma change_lookup id f g i u :
  g_usages (change_usage id f g) !! i = Some u ->
  (i = id /\ exists u0, g_usages g !! id = Some u0 /\ u = f u0) \/ (i <> id /\ g_usages g !! i = Some u).
Proof.
  simpl. destruct (decide (i = id)) as [->|N].
  - rewrite lookup_alter_eq. intros E. left. split; [done|]. destruct (g_usages g !! id) as [u0|]; [|done].
    injection E as <-. by exists u0.
  - rewrite lookup_alter_ne by done. by right.
Qed.
Lemma change_some id f g i : is_Some (g_usages (change_usage id f g) !! i) <-> is_Some (g_usages g !! i).
Proof.
  simpl. destruct (decide (i = id)) as [->|N]; [rewrite lookup_alter_eq|by rewrite lookup_alter_ne].
  apply fmap_is_Some.
Qed.
Lemma change_none id f g i : g_usages (change_usage id f g) !! i = None -> g_usages g !! i = None.
Proof. rewrite !eq_None_not_Some. intros N S. by apply N, change_some. Qed.

Lemma settle_accounts g n ds id : accounts None g n ds -> is_Some (g_usages g !! id) -> accounts (Some id) (settle id g) n ds.
Proof.
  intros [St One Co Pe De Ow Ba Ne Li Do] I. unfold settle. split; try done.
  - intros sb i E. apply change_some. by eapply St.
  - intros i u [(-> & u0 & E & ->)|[N E]]%change_lookup.
    + rewrite bool_decide_eq_true_2 by done. apply Pe in E. rewrite bool_decide_eq_false_2 in E by done. simpl. lia.
    + rewrite bool_decide_eq_false_2 by congruence. apply Pe in E. by rewrite bool_decide_eq_false_2 in E.
  - intros i [= <-]. by apply change_some.
  - intros t sb i E. destruct (Ow t sb i E) as (L & X & W). split; [done|]. split; [by apply change_some|done].
  - intros i E%change_none. by apply Ne.
  - intros sb i u E [(-> & u0 & E' & ->)|[N E']]%change_lookup; exact (Li _ _ _ E E').
  - intros t sb i s E Z. destruct (Do t sb i s E Z) as (X & R). split; [by apply change_some|done].
Qed.

Section deed.
Context (g : Gateway) (n : nat) (ds : list (nat * deed)) (t : nat).

Lemma accounts_began sb id u :
  accounts None g n ds -> (t < n)%nat -> owed (own t ds) = None ->
  g_stats g !! sb = Some id -> g_usages g !! id = Some u ->
  accounts None (change_usage id (fun u => u <| u_pending := (u_pending u + 1)%Z |>) g) n (ds ++ [(t, Began sb id)]).
Proof.
  intros [St One Co Pe De Ow Ba Ne Li Do] L O E U.
  assert (forall i, owes ds i t = false) as O0 by (intros i; unfold owes; by rewrite O).
  assert (forall i, tally (owes (ds ++ [(t, Began sb id)]) i) n = tally (owes ds i) n + b2n (id =? i)) as T.
  { intros i. pose proof (tally_owes n ds t (Began sb id) i L) as T. rewrite O0 in T. unfold owes at 3 in T.
    rewrite owed_snoc in T. simpl in T. lia. }
  split; try done.
  - intros sb' i E'. apply change_some. by eapply St.
  - intros i u' [(-> & u0 & E' & ->)|[N E']]%change_lookup; rewrite T; apply Pe in E'; simpl in *.
    + rewrite N.eqb_refl. simpl. lia.
    + rewrite (proj2 (N.eqb_neq id i)) by done. simpl. lia.
  - intros t' sb' i. destruct (decide (t' = t)) as [->|N].
    + rewrite owed_snoc. simpl. intros [= <- <-]. split; [done|]. split; [apply change_some; by eexists|].
      intros sb' E'. by eapply One.
    + rewrite owed_before by done. intros O'. destruct (Ow _ _ _ O') as (L' & X & W). split; [done|].
      split; [by apply change_some|done].
  - intros i. rewrite !number_snoc, T, Ba. simpl. lia.
  - intros i E'%change_none. rewrite !number_snoc. simpl. destruct (N.eqb_spec id i) as [->|]; [congruence|].
    simpl. rewrite !N.add_0_r. by apply Ne.
  - intros sb' i u' E' [(-> & u0 & E2 & ->)|[N E2]]%change_lookup; rewrite !number_snoc; simpl; rewrite !N.add_0_r;
      exact (Li _ _ _ E' E2).
  - intros t' sb' i s I Z. apply deeds_snoc in I as [I|[_ ?]]; [|done].
    destruct (Do _ _ _ _ I Z) as (X & W & R). assert (id <> i) by (intros ->; by eapply W).
    split; [by apply change_some|]. split; [done|]. rewrite T, !number_snoc. simpl.
    rewrite (proj2 (N.eqb_neq id i)) by done. simpl. by rewrite !N.add_0_r.
Qed.

(** The goroutine that owed [id] no longer does. *)
Lemma tally_settled sb id d i :
  (t < n)%nat -> owed (own t ds) = Some (sb, id) -> owed_step (Some (sb, id)) d = None ->
  tally (owes (ds ++ [(t, d)]) i) n + b2n (id =? i) = tally (owes ds i) n.
Proof.
  intros L O S. pose proof (tally_owes n ds t d i L) as T. unfold owes at 2 4 in T. rewrite owed_snoc, O, S in T.
  simpl in T. lia.
Qed.
(** So it has not been collected as complete. *)
Lemma owed_not_done debt sb id t' sb' s :
  accounts debt g n ds -> owed (own t ds) = Some (sb, id) -> (t', Collected sb' (Some id) s) ∈ ds ->
  Summary_Incomplete s = false -> False.
Proof.
  intros A O I Z. destruct (ac_owed _ _ _ _ A _ _ _ O) as (L & _). destruct (ac_done _ _ _ _ A _ _ _ _ I Z) as (_ & _ & T & _).
  apply (tally_zero _ _ t) in T; [|done]. unfold owes in T. by rewrite O, N.eqb_refl in T.
Qed.
Lemma accounts_abandoned sb id :
  accounts (Some id) g n ds -> owed (own t ds) = Some (sb, id) ->
  accounts None (change_usage id (fun u => u <| u_summary := (u_summary u) <| Summary_Incomplete := true |> |>) g) n
    (ds ++ [(t, Abandoned id)]).
Proof.
  intros A O. pose proof A as [St One Co Pe De Ow Ba Ne Li Do]. destruct (Ow _ _ _ O) as (L & I & W).
  pose proof (fun i => tally_settled sb id (Abandoned id) i L O eq_refl) as T. split; try done.
  - intros sb' i E. apply change_some. by eapply St.
  - intros i u' E'. specialize (T i). apply change_lookup in E' as [(-> & u0 & E & ->)|[N E]]; apply Pe in E; simpl in *.
    + rewrite bool_decide_eq_true_2 in E by done. rewrite N.eqb_refl in T. simpl in T. lia.
    + rewrite bool_decide_eq_false_2 in E by congruence. rewrite (proj2 (N.eqb_neq id i)) in T by done. simpl in T. lia.
  - intros t' sb' i. destruct (decide (t' = t)) as [->|N]; [by rewrite owed_snoc|].
    rewrite owed_before by done. intros O'. destruct (Ow _ _ _ O') as (L' & X & W'). split; [done|].
    split; [by apply change_some|done].
  - intros i. specialize (T i). rewrite !number_snoc, Ba. simpl. lia.
  - intros i E%change_none. rewrite !number_snoc. simpl. rewrite !N.add_0_r. by apply Ne.
  - intros sb' i u' E [(-> & u0 & E2 & ->)|[N E2]]%change_lookup; rewrite !number_snoc; simpl; rewrite !N.add_0_r;
      destruct (Li _ _ _ E E2) as (S1 & S2 & S3); [done|]. rewrite (proj2 (N.eqb_neq id i)) by done. simpl.
    by rewrite N.add_0_r.
  - intros t' sb' i s E Z. apply deeds_snoc in E as [E|[_ ?]]; [|done].
    assert (id <> i) by (intros ->; by eapply owed_not_done).
    destruct (Do _ _ _ _ E Z) as (X & W' & R1 & R2 & R3). split; [by apply change_some|]. split; [done|].
    specialize (T i). rewrite !number_snoc. simpl. rewrite (proj2 (N.eqb_neq id i)) in T by done. simpl in T.
    rewrite !N.add_0_r. split; [lia|done].
Qed.

(** The decision counted in the sandbox's usage, if it still has one. *)
Definition counted_in (into : option N) (d : Decision) (g : Gateway) : Gateway :=
  match into with Some j => change_usage j (fun u => snd (count_in d u)) g | None => g end.
Lemma counted_lookup into d i u :
  g_usages (counted_in into d g) !! i = Some u ->
  exists u0, g_usages g !! i = Some u0 /\ u_pending u = u_pending u0
    /\ Summary_Incomplete (u_summary u) = Summary_Incomplete (u_summary u0)
    /\ total (u_summary u) = total (u_summary u0) + b2n (bool_decide (into = Some i)).
Proof.
  unfold counted_in. destruct into as [j|]; [|intros E; exists u; simpl; split; [done|]; split; [done|]; split; [done|lia]].
  intros [(-> & u0 & E & ->)|[N E]]%change_lookup.
  - exists u0. rewrite bool_decide_eq_true_2 by done. destruct (count_in_total d u0) as (T & Q & I).
    split; [exact E|]. split; [exact Q|]. split; [exact I|exact T].
  - exists u. rewrite bool_decide_eq_false_2 by congruence. simpl. split; [done|]. split; [done|]. split; [done|lia].
Qed.
Lemma counted_some into d i : is_Some (g_usages (counted_in into d g) !! i) <-> is_Some (g_usages g !! i).
Proof. destruct into; [apply change_some|done]. Qed.
Lemma counted_stats into d : g_stats (counted_in into d g) = g_stats g /\ g_collected (counted_in into d g) = g_collected g.
Proof. by destruct into. Qed.
Lemma accounts_counted sb id into d :
  accounts (Some id) g n ds -> owed (own t ds) = Some (sb, id) -> g_stats g !! sb = into ->
  accounts None (counted_in into d g) n (ds ++ [(t, Counted (Some id) into d)]).
Proof.
  intros A O E0. pose proof A as [St One Co Pe De Ow Ba Ne Li Do]. destruct (Ow _ _ _ O) as (L & I & W).
  pose proof (fun i => tally_settled sb id (Counted (Some id) into d) i L O eq_refl) as T.
  destruct (counted_stats into d) as [Es Ec].
  (* an outcome of [i] that is counted elsewhere has no live usage to leave *)
  assert (forall sb' i, g_stats g !! sb' = Some i -> is_astray i (Counted (Some id) into d) = false) as Stay.
  { intros sb' i E. simpl. destruct (N.eqb_spec id i) as [->|]; [|done]. simpl.
    assert (sb' = sb) as -> by (by apply W). rewrite bool_decide_eq_true_2 by congruence. done. }
  assert (forall i, b2n (is_into i (Counted (Some id) into d)) = b2n (bool_decide (into = Some i))) as Into.
  { intros i. simpl. destruct into as [j|]; [|done]. destruct (N.eqb_spec j i) as [->|].
    - by rewrite bool_decide_eq_true_2.
    - by rewrite bool_decide_eq_false_2 by congruence. }
  split; rewrite ?Es, ?Ec; try done.
  - intros sb' i E. apply counted_some. by eapply St.
  - intros i u' E'. specialize (T i). apply counted_lookup in E' as (u0 & E & -> & _). apply Pe in E.
    destruct (N.eqb_spec id i) as [->|N]; simpl in *.
    + rewrite bool_decide_eq_true_2 in E by done. lia.
    + rewrite bool_decide_eq_false_2 in E by congruence. lia.
  - intros t' sb' i. destruct (decide (t' = t)) as [->|N]; [by rewrite owed_snoc|].
    rewrite owed_before by done. intros O'. destruct (Ow _ _ _ O') as (L' & X & W'). split; [done|].
    split; [by apply counted_some|done].
  - intros i. specialize (T i). rewrite !number_snoc, Ba.
    assert (b2n (id =? i) = b2n (is_within i (Counted (Some id) into d)) + b2n (is_astray i (Counted (Some id) into d))) as Sp.
    { simpl. destruct (N.eqb_spec id i) as [->|N]; [|by destruct into]. destruct into as [j|]; [|done]. simpl.
      destruct (N.eqb_spec j i) as [->|]; [by rewrite bool_decide_eq_true_2|by rewrite bool_decide_eq_false_2 by congruence]. }
    simpl in *. lia.
  - intros i E. assert (g_usages g !! i = None) as E'.
    { apply eq_None_not_Some. intros X. apply (counted_some into d) in X. rewrite E in X. by destruct X. }
    destruct (Ne i E') as [N1 N2]. rewrite !number_snoc, Into. simpl. split; [lia|].
    rewrite bool_decide_eq_false_2; [simpl; lia|]. intros ->. destruct (St _ _ E0) as [? ?]. congruence.
  - intros sb' i u' E E'. rewrite !number_snoc, Into, (Stay _ _ E).
    apply counted_lookup in E' as (u0 & E' & _ & -> & ->). destruct (Li _ _ _ E E') as (S1 & S2 & S3). simpl.
    split; [lia|]. split; [lia|]. intros Z. apply S3 in Z. lia.
  - intros t' sb' i s E Z. apply deeds_snoc in E as [E|[_ ?]]; [|done].
    assert (id <> i) by (intros ->; by eapply owed_not_done).
    destruct (Do _ _ _ _ E Z) as (X & W' & R1 & R2 & R3). split; [by apply counted_some|]. split; [done|].
    specialize (T i). rewrite !number_snoc, Into. rewrite bool_decide_eq_false_2 by (intros ->; by eapply W').
    assert (is_within i (Counted (Some id) into d) = false) as ->.
    { simpl. rewrite (proj2 (N.eqb_neq id i)) by done. by destruct into. }
    rewrite (proj2 (N.eqb_neq id i)) in T by done. simpl in *. split; [lia|]. split; lia.
Qed.

Lemma accounts_collected now sb entry s g' :
  accounts None g n ds -> collect now sb g = (entry, s, g') ->
  accounts None g' n (ds ++ [(t, Collected sb entry s)]).
Proof.
  intros [St One Co Pe De Ow Ba Ne Li Do] E. unfold collect in E. injection E as <- Es <-. simpl in Es.
  set (d := Collected sb _ s).
  assert (forall t', owed (own t' (ds ++ [(t, d)])) = owed (own t' ds)) as O.
  { intros t'. destruct (decide (t' = t)) as [->|N]; [by rewrite owed_snoc|by apply owed_before]. }
  assert (forall i, tally (owes (ds ++ [(t, d)]) i) n = tally (owes ds i) n) as T.
  { intros i. apply tally_ext. intros t' _. unfold owes. by rewrite O. }
  assert (forall i, number (is_began i) (ds ++ [(t, d)]) = number (is_began i) ds
    /\ number (is_within i) (ds ++ [(t, d)]) = number (is_within i) ds
    /\ number (is_astray i) (ds ++ [(t, d)]) = number (is_astray i) ds
    /\ number (is_abandoned i) (ds ++ [(t, d)]) = number (is_abandoned i) ds
    /\ number (is_into i) (ds ++ [(t, d)]) = number (is_into i) ds) as N.
  { intros i. rewrite !number_snoc. simpl. by rewrite !N.add_0_r. }
  split; simpl.
  - intros sb' i [_ L]%lookup_delete_Some. by eapply St.
  - intros s1 s2 i [_ L1]%lookup_delete_Some [_ L2]%lookup_delete_Some. by eapply One.
  - intros sb' C. apply lookup_delete_None. destruct (decide (sb = sb')) as [|Ns]; [by left|right].
    rewrite lookup_insert_ne in C by done. by apply Co.
  - intros i u E. rewrite T. by apply Pe.
  - done.
  - intros t' sb' i. rewrite O. intros O'. destruct (Ow _ _ _ O') as (L & X & W). split; [done|]. split; [done|].
    intros s2 [_ L2]%lookup_delete_Some. by apply W.
  - intros i. destruct (N i) as (-> & -> & -> & -> & _). by rewrite T.
  - intros i E. destruct (N i) as (-> & _ & _ & _ & ->). by apply Ne.
  - intros sb' i u [_ E]%lookup_delete_Some E'. destruct (N i) as (_ & _ & -> & -> & ->). by eapply Li.
  - intros t' sb' i s' I Z. destruct (N i) as (-> & -> & _ & _ & ->). rewrite T. apply deeds_snoc in I as [I|[_ I]].
    + destruct (Do _ _ _ _ I Z) as (X & W & R). split; [done|]. split; [|done]. intros s2 [_ L2]%lookup_delete_Some. by apply W in L2.
    + injection I as <- E <-. destruct (St _ _ (eq_sym E)) as [u U]. rewrite <- E in Es. simpl in Es. rewrite U in Es.
      subst s'. simpl in Z. apply orb_false_iff in Z as [[Zu Zp]%orb_false_iff _].
      pose proof (Pe _ _ U) as P. rewrite bool_decide_eq_false_2 in P by done. apply Z.ltb_ge in Zp.
      destruct (Li _ _ _ (eq_sym E) U) as (S1 & S2 & S3). pose proof (Ba i) as B. rewrite S1, (S3 Zu) in B.
      split; [by eexists|]. split; [|split; [lia|split; [lia|]]].
      * intros s2 [Ns L2]%lookup_delete_Some. by apply Ns, (One _ _ i).
      * rewrite <- S2. by destruct u as [[] ? ? ? ?].
Qed.
End deed.

(** ** What leaves the evidence and the slots alone *)

Record untouched (g g' : Gateway) : Prop := {
  un_usages : g_usages g' = g_usages g;
  un_stats : g_stats g' = g_stats g;
  un_collected : g_collected g' = g_collected g;
  un_open : g_open g' = g_open g;
}.
Lemma untouched_trans g1 g2 g3 : untouched g1 g2 -> untouched g2 g3 -> untouched g1 g3.
Proof. intros [] []. split; congruence. Qed.
Lemma untouched_forgets g g' : untouched g g' -> forgets g g'.
Proof. intros [U S C _]. by apply forgets_same. Qed.
Lemma writeLocked_untouched now d g : untouched g (writeLocked now d g).
Proof. unfold writeLocked. by destruct (g_log g). Qed.
Lemma flushLocked_untouched now budget g : untouched g (snd (flushLocked now budget g)).
Proof. unfold flushLocked. destruct (0 <? _); [apply writeLocked_untouched|done]. Qed.
Lemma spendLocked_untouched now class source burst d g : untouched g (snd (spendLocked now class source burst d g)).
Proof.
  unfold spendLocked. destruct (budget_of now class source d g) as [key budget].
  pose proof (flushLocked_untouched now budget g) as F. destruct (flushLocked now budget g) as [b g1]. simpl in F.
  destruct (_ <=? _)%Z; destruct (_ <=? _); simpl; try done; by destruct F.
Qed.
Lemma logRefusal_untouched now d source unnamed g : untouched g (logRefusal now d source unnamed g).
Proof.
  unfold logRefusal. destruct unnamed; [apply writeLocked_untouched|].
  pose proof (spendLocked_untouched now "refusals" source refusalLogBurst d g) as S.
  destruct (spendLocked _ _ _ _ _ _) as [[|] g1]; [|done]. eapply untouched_trans; [exact S|apply writeLocked_untouched].
Qed.
Lemma logOpened_untouched now d unnamed g : untouched g (snd (logOpened now d unnamed g)).
Proof.
  unfold logOpened. destruct unnamed; [apply writeLocked_untouched|].
  pose proof (spendLocked_untouched now "tunnels" ("sandbox " +:+ D_Sandbox d) tunnelLogBurst d g) as S.
  destruct (spendLocked _ _ _ _ _ _) as [[|] g1]; [|done]. eapply untouched_trans; [exact S|apply writeLocked_untouched].
Qed.
Lemma flushBudgets_untouched now all g : untouched g (flushBudgets now all g).
Proof.
  unfold flushBudgets. generalize (map_to_list (g_budgets g)). intros l. revert g.
  induction l as [|[key budget] l IH]; intros g; [done|]. simpl. eapply untouched_trans; [|apply IH].
  destruct (_ || _); [|done]. pose proof (flushLocked_untouched now budget g) as F.
  by destruct (flushLocked now budget g) as [b g1], F.
Qed.

(** A sweep only forgets, and only usages nothing is pending of. *)
Lemma sweep_entry_forgets now gone g e : forgets g (sweep_entry now gone g e) /\ g_open (sweep_entry now gone g e) = g_open g.
Proof.
  destruct e as [name id]. unfold sweep_entry. destruct (g_usages g !! id) as [u|] eqn:U; [|by split; [apply forgets_refl|]].
  destruct (negb _); [by split; [apply forgets_refl|]|]. destruct (u_revoked u).
  - destruct (_ && _); [|by split; [apply forgets_refl|]]. split; [|done]. split; simpl; [done|apply delete_subseteq|done].
  - split; [|done]. split; [|done|done]. intros i. simpl. destruct (decide (i = id)) as [->|N].
    + rewrite lookup_alter_eq. by destruct (g_usages g !! id).
    + by rewrite lookup_alter_ne.
Qed.
Lemma sweep_forget_forgets now gone g :
  forgets g (snd (sweep_forget now gone g)) /\ g_open (snd (sweep_forget now gone g)) = g_open g.
Proof.
  unfold sweep_forget. simpl. generalize (map_to_list (g_stats g)). intros l.
  assert (forgets g (foldl (sweep_entry now gone) g l) /\ g_open (foldl (sweep_entry now gone) g l) = g_open g) as [F O].
  { revert g. induction l as [|e l IH]; intros g; [by split; [apply forgets_refl|]|]. simpl.
    destruct (sweep_entry_forgets now gone g e) as [F O]. destruct (IH (sweep_entry now gone g e)) as [F' O'].
    split; [by eapply forgets_trans|congruence]. }
  split; [|exact O]. eapply forgets_trans; [exact F|]. split; simpl; [done|done|].
  intros sb [c E]. apply map_lookup_filter_Some in E as [E _]. by eexists.
Qed.

(** ** Slots *)

Definition slots (g : Gateway) (n : nat) (ds : list (nat * deed)) : Prop :=
  forall sb, open_of sb g = tally (holds ds sb) n /\ open_of sb g <= tunnelLimit.
Definition slotless (d : deed) : bool := match d with Reserved _ | Released _ => false | _ => true end.
Lemma tally_holds n ds t d sb :
  (t < n)%nat ->
  tally (holds (ds ++ [(t, d)]) sb) n + b2n (holds ds sb t) = tally (holds ds sb) n + b2n (holds (ds ++ [(t, d)]) sb t).
Proof. intros L. apply tally_change; [done|]. intros i N. by apply holds_other. Qed.
Lemma slots_quiet g g' n ds t d : slotless d = true -> g_open g' = g_open g -> slots g n ds -> slots g' n (ds ++ [(t, d)]).
Proof.
  intros Q O S sb. destruct (S sb) as [T L]. unfold open_of in *. rewrite O. split; [|done]. rewrite T. apply tally_ext.
  intros t' _. destruct (decide (t' = t)) as [->|N]; [|by rewrite holds_other].
  unfold holds. rewrite slot_snoc. by destruct d.
Qed.
Lemma open_insert sb sb' v g : open_of sb (g <| g_open := <[sb' := v]> (g_open g) |>) = if bool_decide (sb' = sb) then v else open_of sb g.
Proof.
  unfold open_of. simpl. case_bool_decide as E; [by rewrite E, lookup_insert_eq|by rewrite lookup_insert_ne].
Qed.
Lemma open_delete sb sb' g : open_of sb (g <| g_open := delete sb' (g_open g) |>) = if bool_decide (sb' = sb) then 0 else open_of sb g.
Proof.
  unfold open_of. simpl. case_bool_decide as E; [by rewrite E, lookup_delete_eq|by rewrite lookup_delete_ne].
Qed.
Lemma slots_reserve g g' n ds t sb :
  (t < n)%nat -> slot (own t ds) = None -> reserve sb g = (true, g') -> slots g n ds -> slots g' n (ds ++ [(t, Reserved sb)]).
Proof.
  intros L F E S. unfold reserve in E. destruct (N.leb_spec tunnelLimit (open_of sb g)) as [|Lt]; [done|].
  injection E as <-. intros sb'. rewrite open_insert. destruct (S sb') as [T Le].
  pose proof (tally_holds n ds t (Reserved sb) sb' L) as C. unfold holds at 2 4 in C. rewrite slot_snoc, F in C. simpl in C.
  destruct (decide (sb = sb')) as [<-|X].
  - rewrite bool_decide_eq_true_2 by done. rewrite (bool_decide_eq_true_2 (Some sb = Some sb)) in C by done. simpl in C. split; lia.
  - rewrite bool_decide_eq_false_2 by done. rewrite (bool_decide_eq_false_2 (Some sb = Some sb')) in C by congruence. simpl in C. split; lia.
Qed.
Lemma slots_release g n ds t sb :
  (t < n)%nat -> slot (own t ds) = Some sb -> slots g n ds -> slots (release sb g) n (ds ++ [(t, Released sb)]).
Proof.
  intros L F S sb'. destruct (S sb') as [T Le].
  pose proof (tally_holds n ds t (Released sb) sb' L) as C. unfold holds at 2 4 in C. rewrite slot_snoc, F in C. simpl in C.
  assert (open_of sb' (release sb g) = if bool_decide (sb = sb') then open_of sb' g - 1 else open_of sb' g) as R.
  { unfold release. destruct (N.leb_spec (open_of sb g) 1); rewrite ?open_insert, ?open_delete; destruct (decide (sb = sb')) as [<-|X];
      rewrite ?(bool_decide_eq_true_2 (sb = sb)), ?(bool_decide_eq_false_2 (sb = sb')) by done; lia. }
  rewrite R. destruct (decide (sb = sb')) as [<-|X].
  - rewrite bool_decide_eq_true_2 by done. rewrite (bool_decide_eq_true_2 (Some sb = Some sb)) in C by done. simpl in C. split; lia.
  - rewrite bool_decide_eq_false_2 by done. rewrite (bool_decide_eq_false_2 (Some sb = Some sb')) in C by congruence. simpl in C. split; lia.
Qed.

(** ** The system *)

Section system.
Context `{Unicode} `{LeaseText} `{AddrText} (policy : Policy) `{GatewayWorld}.

(** The deeds of [t] that follow. *)
Definition tagged (t : nat) (es : list deed) : list (nat * deed) := map (fun d => (t, d)) es.
Lemma tagged_snoc t ds d es : ds ++ tagged t (d :: es) = (ds ++ [(t, d)]) ++ tagged t es.
Proof. by rewrite <- app_assoc. Qed.
Definition kept (g : Gateway) (n : nat) (ds : list (nat * deed)) : Prop := accounts None g n ds /\ slots g n ds.
Lemma kept_quiet g g' n ds t es :
  kept g n ds -> forgets g g' -> g_open g' = g_open g -> forallb (fun d => inert d && slotless d) es = true ->
  kept g' n (ds ++ tagged t es).
Proof.
  intros [A S] F O Q.
  assert (kept g' n ds) as K.
  { split; [by eapply accounts_forget|]. intros sb. destruct (S sb) as [T L]. unfold open_of in *. by rewrite O. }
  clear A S F O. revert ds K. induction es as [|d es IH]; intros ds K; [by rewrite app_nil_r|].
  simpl in Q. apply andb_true_iff in Q as [[Q1 Q2]%andb_true_iff Q]. rewrite tagged_snoc. apply IH; [done|].
  destruct K as [A S]. split; [by apply accounts_inert|by eapply slots_quiet].
Qed.
Lemma begin_keeps n ds t g sb lease x g' :
  (t < n)%nat -> kept g n ds -> begin_request sb lease g = (x, g') ->
  admitted (permitted policy) (own t ds) (emits _ (Begin_ sb lease) x) ->
  kept g' n (ds ++ tagged t (emits _ (Begin_ sb lease) x)).
Proof.
  intros L [A S] E Ad. unfold begin_request in E. destruct (g_collected g !! sb) eqn:C.
  { injection E as <- <-. apply (kept_quiet g); [done|apply forgets_refl|done|done]. }
  destruct (entry_of_accounts None g n ds sb lease A C) as (g1 & id & u & Ee & A1 & St & U & _ & _ & _ & Same).
  rewrite Ee in E. injection E as <- <-. cbn [emits] in *. destruct Ad as [[O _] _].
  assert (g_open g1 = g_open g) as Op.
  { unfold entry_of in Ee. destruct (g_stats g !! sb); injection Ee as _ <-; done. }
  split; [by eapply accounts_began|]. by eapply slots_quiet.
Qed.
Lemma count_keeps n ds t g d lease pending x g' :
  (t < n)%nat -> kept g n ds -> count d lease pending g = (x, g') ->
  admitted (permitted policy) (own t ds) (emits _ (Count_ d lease pending) x) ->
  kept g' n (ds ++ tagged t (emits _ (Count_ d lease pending) x)).
Proof.
  intros L [A S] E [(id & -> & O & Ns & Nh) _]. unfold count in E.
  rewrite !bool_decide_eq_false_2 in E by done. cbn [orb] in E.
  pose proof (settle_accounts _ _ _ id A (proj1 (proj2 (ac_owed _ _ _ _ A _ _ _ O)))) as A1.
  set (g1 := settle id g) in *. destruct (g_collected g1 !! D_Sandbox d) as [c|] eqn:C.
  { injection E as <- <-. cbn [emits fst]. split; [|by eapply slots_quiet].
    apply (accounts_counted g1 n ds t (D_Sandbox d) id None d A1 O). eapply ac_collected; [exact A1|by eexists]. }
  destruct (entry_of_accounts (Some id) g1 n ds (D_Sandbox d) lease A1 C) as (g2 & j & u & Ee & A2 & St & U & _).
  assert (g_open g2 = g_open g) as Op.
  { unfold entry_of in Ee. destruct (g_stats g1 !! D_Sandbox d); injection Ee as _ <-; done. }
  rewrite Ee, U in E. destruct (count_in d u) as [[key unnamed] u'] eqn:Cu. injection E as <- <-. cbn [emits fst].
  pose proof (accounts_counted g2 n ds t (D_Sandbox d) id (Some j) d A2 O St) as A3. split; [|by eapply slots_quiet].
  eapply accounts_forget; [exact A3|]. split; [|done|done]. intros i.
  change (seen <$> <[j := u']> (g_usages g2) !! i = seen <$> alter (fun u => snd (count_in d u)) j (g_usages g2) !! i).
  destruct (decide (i = j)) as [->|N]; [rewrite lookup_insert_eq, lookup_alter_eq, U; cbn [fmap option_fmap option_map]; by rewrite Cu|].
  by rewrite lookup_insert_ne, lookup_alter_ne.
Qed.

(** The events that neither settle requests nor take slots. *)
Definition quiet_event {X} (e : ev X) : bool :=
  match e with
  | Begin_ _ _ | Abandon_ _ | Count_ _ _ _ | Collect_ _ | Reserve _ | Release_ _ => false
  | _ => true
  end.
Lemma quiet_emits {X} (e : ev X) x :
  quiet_event e = true -> forallb (fun d => inert d && slotless d) (emits X e x) = true.
Proof.
  destruct e; try done.
  - intros _. match goal with q : os _ |- _ => destruct q end; try done. simpl. by destruct x.
  - intros _. simpl. by destruct x.
  - intros _. simpl. by destruct x.
Qed.
Lemma quiet_forgets calls {X} (e : ev X) g x g' :
  quiet_event e = true -> section_call calls e g = (x, g') -> forgets g g' /\ g_open g' = g_open g.
Proof.
  assert (forall g1, untouched g g1 -> forgets g g1 /\ g_open g1 = g_open g) as T
    by (intros g1 U; split; [by apply untouched_forgets|by destruct U]).
  destruct e; try done; cbn [section_call]; intros _ E;
    try (injection E as <- <-; by apply T);
    try (injection E as <- <-; apply T;
      solve [apply logRefusal_untouched|apply writeLocked_untouched|apply flushBudgets_untouched]).
  - pose proof (logOpened_untouched (gw_clock calls) d unnamed g) as U. rewrite E in U. by apply T.
  - unfold track in E. destruct (g_tunnels g); injection E as <- <-; by apply T.
  - unfold cut in E. injection E as <- <-. apply T. destruct (g_conns g !! id) as [[l [r|]]|]; done.
  - pose proof (sweep_forget_forgets (gw_clock calls) gone g) as F. by rewrite E in F.
Qed.
Lemma section_keeps calls {X} (e : ev X) g x g' n ds t :
  section_call calls e g = (x, g') -> kept g n ds -> (t < n)%nat ->
  admitted (permitted policy) (own t ds) (emits X e x) -> kept g' n (ds ++ tagged t (emits X e x)).
Proof.
  intros E K L Ad. destruct (quiet_event e) eqn:Q.
  { destruct (quiet_forgets _ _ _ _ _ Q E) as [F O]. eapply kept_quiet; [exact K|done..|by apply quiet_emits]. }
  destruct e; try done; cbn [section_call] in E.
  - by eapply begin_keeps.
  - injection E as <- <-. destruct K as [A S], Ad as [[sb O] _]. split; [|by eapply slots_quiet].
    eapply accounts_abandoned; [|exact O]. apply settle_accounts; [done|].
    exact (proj1 (proj2 (ac_owed _ _ _ _ A _ _ _ O))).
  - by eapply count_keeps.
  - destruct x as [entry s]. destruct K as [A S]. split; [by eapply accounts_collected|].
    eapply slots_quiet; [done| |exact S]. unfold collect in E. by injection E as _ _ <-.
  - destruct K as [A S]. destruct x; cbn [emits] in *.
    + destruct Ad as [F _]. split; [|by eapply slots_reserve]. apply accounts_inert; [done|].
      eapply accounts_forget; [exact A|]. unfold reserve in E. destruct (_ <=? _); [done|]. by injection E as <-.
    + unfold reserve in E. destruct (_ <=? _); [|done]. injection E as <-. apply (kept_quiet g); [done|apply forgets_refl|done|done].
  - injection E as <- <-. destruct K as [A S], Ad as [F _]. split; [|by apply slots_release]. apply accounts_inert; [done|].
    eapply accounts_forget; [exact A|]. unfold release. by destruct (_ <=? _).
Qed.

(** Every deed was permitted by its goroutine's earlier ones. *)
Definition lawful (ds : list (nat * deed)) : Prop :=
  forall pre t d post, ds = pre ++ (t, d) :: post -> permitted policy (own t pre) d.
Lemma lawful_more t es ds :
  lawful ds -> admitted (permitted policy) (own t ds) es -> lawful (ds ++ tagged t es).
Proof.
  revert ds. induction es as [|d es IH]; intros ds W Ad; [by rewrite app_nil_r|]. destruct Ad as [Pd Ad].
  rewrite tagged_snoc. apply IH; [|by rewrite own_same]. intros pre t' d' post E.
  destruct post as [|x post _] using rev_ind.
  - apply app_inj_tail in E as [<- [= <- <-]]. exact Pd.
  - rewrite app_comm_cons, app_assoc in E. apply app_inj_tail in E as [-> _]. by eapply W.
Qed.

(** Each usage is one sandbox's. *)
Record owned (owner : N -> string) (g : Gateway) (ds : list (nat * deed)) : Prop := {
  ow_stats sb id : g_stats g !! sb = Some id -> owner id = sb;
  ow_began t sb id : (t, Began sb id) ∈ ds -> owner id = sb /\ is_Some (g_usages g !! id);
  ow_collected t sb id s : (t, Collected sb (Some id) s) ∈ ds -> owner id = sb /\ is_Some (g_usages g !! id);
}.
Definition anonymous (d : deed) : bool := match d with Began _ _ | Collected _ (Some _) _ => false | _ => true end.
Lemma owned_quiet owner g g' ds t es :
  owned owner g ds -> g_stats g' ⊆ g_stats g -> (forall id, is_Some (g_usages g !! id) -> is_Some (g_usages g' !! id)) ->
  forallb anonymous es = true -> owned owner g' (ds ++ tagged t es).
Proof.
  intros [St Be Co] S U Q. rewrite forallb_forall in Q.
  assert (forall t' d, (t', d) ∈ ds ++ tagged t es -> anonymous d = false -> (t', d) ∈ ds) as In.
  { intros t' d [I|I]%elem_of_app N; [done|]. apply elem_of_map in I as (d' & [= -> ->] & I%list_elem_of_In).
    apply Q in I. congruence. }
  split.
  - intros sb id E. apply St. by eapply lookup_weaken.
  - intros t' sb id I. apply In in I; [|done]. apply Be in I as [? ?]. auto.
  - intros t' sb id s I. apply In in I; [|done]. apply Co in I as [? ?]. auto.
Qed.
Lemma owned_entry owner g ds sb lease id g' :
  (forall sb id, g_stats g !! sb = Some id -> is_Some (g_usages g !! id)) -> owned owner g ds -> entry_of sb lease g = (id, g') ->
  exists owner', owned owner' g' ds /\ owner' id = sb.
Proof.
  intros A [St Be Co] E. unfold entry_of in E. destruct (g_stats g !! sb) as [i|] eqn:L.
  { injection E as <- <-. exists owner. split; [by split|by apply St]. }
  set (i := fresh_key (g_usages g)) in E.
  assert (g_usages g !! i = None) as F by (apply not_elem_of_dom; unfold i, fresh_key; apply is_fresh).
  injection E as <- <-. exists (fun j => if j =? i then sb else owner j).
  assert (forall j, is_Some (g_usages g !! j) -> (j =? i) = false) as N.
  { intros j [u U]. apply N.eqb_neq. intros ->. congruence. }
  split; [|by rewrite N.eqb_refl]. split; simpl.
  - intros sb' j [[<- <-]|[Ns Lj]]%lookup_insert_Some; [by rewrite N.eqb_refl|].
    rewrite N by (by eapply A). by apply St.
  - intros t sb' j I. apply Be in I as [O X]. rewrite (N _ X). split; [done|]. destruct X as [u X].
    rewrite lookup_insert_is_Some. destruct (decide (i = j)); [by left|right]. split; [done|by eexists].
  - intros t sb' j s I. apply Co in I as [O X]. rewrite (N _ X). split; [done|]. destruct X as [u X].
    rewrite lookup_insert_is_Some. destruct (decide (i = j)); [by left|right]. split; [done|by eexists].
Qed.
Lemma section_owned calls {X} (e : ev X) g x g' n ds t owner :
  section_call calls e g = (x, g') -> accounts None g n ds -> owned owner g ds ->
  exists owner', owned owner' g' (ds ++ tagged t (emits X e x)).
Proof.
  intros E A O. destruct (quiet_event e) eqn:Q.
  { destruct (quiet_forgets _ _ _ _ _ Q E) as [F _]. exists owner. eapply owned_quiet; [exact O|apply F| |].
    - intros id. apply (forgets_some _ _ _ F).
    - pose proof (quiet_emits e x Q) as I. rewrite forallb_forall in *. intros d Id. apply I in Id. by destruct d. }
  destruct e; try done; cbn [section_call] in E.
  - unfold begin_request in E. destruct (g_collected g !! sandbox) eqn:C.
    { injection E as <- <-. exists owner. by eapply owned_quiet. }
    destruct (entry_of sandbox lease g) as [id g1] eqn:Ee. injection E as <- <-.
    destruct (owned_entry _ _ _ _ _ _ _ (ac_stats _ _ _ _ A) O Ee) as (owner' & [St Be Co] & Own). exists owner'. cbn [emits].
    assert (is_Some (g_usages g1 !! id)) as U.
    { destruct (entry_of_accounts None g n ds sandbox lease A C) as (g2 & id2 & u & Ee' & _ & _ & U & _).
      rewrite Ee in Ee'. injection Ee' as <- <-. by eexists. }
    split; [done| |].
    + intros t' sb i I. apply deeds_snoc in I as [I|[_ [= -> ->]]]; [|by rewrite change_some].
      rewrite change_some. by apply (Be t').
    + intros t' sb i s I. apply deeds_snoc in I as [I|[_ ?]]; [|done]. rewrite change_some. by apply (Co t' sb i s).
  - injection E as <- <-. exists owner. apply (owned_quiet owner g); [done|done| |done].
    intros i I. by apply change_some, change_some.
  - unfold count in E. set (g1 := match pending with Some id => settle id g | None => g end) in E.
    assert (forall sb id, g_stats g1 !! sb = Some id -> is_Some (g_usages g1 !! id)) as Stats.
    { intros sb id L. unfold g1 in *. destruct pending; [apply change_some|]; by eapply (ac_stats _ _ _ _ A). }
    assert (owned owner g1 ds) as O1.
    { rewrite <- (app_nil_r ds). apply (owned_quiet owner g g1 ds t []); [done| | |done].
      - unfold g1. by destruct pending.
      - intros i I. unfold g1. destruct pending; [by apply change_some|done]. }
    assert (exists owner', owned owner' g' ds) as [owner' O'].
    { destruct (_ || _); [injection E as <- <-; by exists owner|].
      destruct (g_collected g1 !! D_Sandbox d); [injection E as <- <-; by exists owner|].
      destruct (entry_of (D_Sandbox d) lease g1) as [id g2] eqn:Ee.
      destruct (owned_entry owner g1 ds _ _ _ _ Stats O1 Ee) as (owner' & O2 & _). exists owner'.
      destruct (g_usages g2 !! id) as [u|]; [|by injection E as <- <-].
      destruct (count_in d u) as [[key unnamed] u']. injection E as <- <-.
      rewrite <- (app_nil_r ds). apply (owned_quiet owner' g2 _ ds t []); [done|done| |done].
      intros i I. simpl. rewrite lookup_insert_is_Some. destruct (decide (id = i)); [by left|by right]. }
    exists owner'. by apply (owned_quiet owner' g').
  - unfold collect in E. injection E as <- <-. exists owner. destruct O as [St Be Co]. cbn [emits fst snd]. split; simpl.
    + intros sb i [_ L]%lookup_delete_Some. by apply St.
    + intros t' sb i I. apply deeds_snoc in I as [I|[_ ?]]; [|done]. by apply (Be t').
    + intros t' sb i s I. apply deeds_snoc in I as [I|[_ [= -> Ei _]]]; [by apply (Co t' sb i s)|].
      symmetry in Ei. split; [by apply St|by eapply ac_stats].
  - exists owner. unfold reserve in E. apply (owned_quiet owner g); [done|..].
    + destruct (_ <=? _); by injection E as <- <-.
    + destruct (_ <=? _); by injection E as <- <-.
    + by destruct x.
  - injection E as <- <-. exists owner. unfold release. by apply (owned_quiet owner g); [done|destruct (_ <=? _)..|].
Qed.

(** ** Reachable states *)

Record sound (s : Sys) : Prop := {
  so_new t : (List.length (sy_threads s) <= t)%nat -> own t (sy_deeds s) = [];
  so_runs t p : sy_threads s !! t = Some p -> follows emits (permitted policy) (own t (sy_deeds s)) p at_rest;
  so_lawful : lawful (sy_deeds s);
  so_kept : kept (sy_gw s) (List.length (sy_threads s)) (sy_deeds s);
  so_owned : exists owner, owned owner (sy_gw s) (sy_deeds s);
}.
Lemma idle_sound logging now : sound (idle_gateway logging now).
Proof.
  split; simpl; try done.
  - by intros [|pre] ? ? ?.
  - split; [split|]; simpl; try done.
    intros t sb id s I. by apply not_elem_of_nil in I.
  - exists (fun _ => ""). split; simpl; [done| |]; intros t sb id; [intros I|intros s I]; by apply not_elem_of_nil in I.
Qed.
Lemma spawn_sound p s : follows emits (permitted policy) [] p at_rest -> sound s -> sound (spawn p s).
Proof.
  intros F [Nw Ru La [Ac Sl] Ow]. unfold spawn.
  assert (forall f : nat -> bool, f (List.length (sy_threads s)) = false ->
    tally f (List.length (sy_threads s ++ [p])) = tally f (List.length (sy_threads s))) as T.
  { intros f E. rewrite length_app, Nat.add_1_r. simpl. by rewrite E. }
  pose proof (Nw _ (le_n _)) as Z.
  assert (forall id, owes (sy_deeds s) id (List.length (sy_threads s)) = false) as Zo by (intros; unfold owes; by rewrite Z).
  assert (forall sb, holds (sy_deeds s) sb (List.length (sy_threads s)) = false) as Zh by (intros; unfold holds; by rewrite Z).
  split; simpl; [| |done| |done].
  - intros t L. apply Nw. rewrite length_app in L. lia.
  - intros t q [L|[L E]]%lookup_app_Some; [by apply Ru|].
    apply list_lookup_singleton_Some in E as [E <-]. by rewrite Nw.
  - split.
    + destruct Ac as [St One Co Pe De Owd Ba Ne Li Do]. split; try done.
      * intros id u E. rewrite T by done. by apply Pe.
      * intros t sb id O. destruct (Owd _ _ _ O) as (L & R). split; [rewrite length_app; lia|done].
      * intros id. rewrite T by done. apply Ba.
      * intros t sb id s' I E. rewrite T by done. by eapply Do.
    + intros sb. rewrite T by done. apply Sl.
Qed.
Lemma step_sound s l : sound s -> sound (step policy s l).
Proof.
  intros S. destruct l as [r|name| | |t]; cbn [step].
  - by apply spawn_sound; [apply ServeHTTP_runs|].
  - by apply spawn_sound; [apply summary_handler_runs|].
  - by apply spawn_sound; [apply sweep_runs|].
  - by apply spawn_sound; [apply stop_runs|].
  - destruct (sy_threads s !! t) as [[[]|X e k]|] eqn:E; [done| |done].
    destruct (section_call (sy_calls s) e (sy_gw s)) as [x g] eqn:C.
    destruct S as [Nw Ru La Ke [owner Ow]]. pose proof (lookup_lt_Some _ _ _ E) as L.
    destruct (Ru _ _ E x) as [Ad F]. fold (tagged t (emits X e x)).
    assert (forall t', own t' (sy_deeds s ++ tagged t (emits X e x))
      = if (t =? t')%nat then own t (sy_deeds s) ++ emits X e x else own t' (sy_deeds s)) as Own.
    { intros t'. unfold own. rewrite List.filter_app, map_app. unfold tagged.
      destruct (Nat.eqb_spec t t') as [<-|Nt]; [f_equal|rewrite <- (app_nil_r (map snd _)) at 2; f_equal];
        generalize (emits X e x); intros es; induction es as [|d es IH]; simpl; try done.
      - rewrite Nat.eqb_refl. simpl. by f_equal.
      - by rewrite (proj2 (Nat.eqb_neq t t')). }
    split; simpl; rewrite ?length_insert.
    + intros t' L'. rewrite Own. destruct (Nat.eqb_spec t t'); [exfalso; subst; exact (Nat.lt_irrefl _ (Nat.lt_le_trans _ _ _ L L'))|by apply Nw].
    + intros t' p [[<- [<- _]]|[Nt E']]%list_lookup_insert_Some; rewrite Own.
      * by rewrite Nat.eqb_refl.
      * rewrite (proj2 (Nat.eqb_neq t t')) by done. by apply Ru.
    + by apply lawful_more.
    + by eapply section_keeps.
    + eapply section_owned; [exact C|apply Ke|exact Ow].
Qed.
Lemma run_sound labels logging now : sound (run policy labels (idle_gateway logging now)).
Proof.
  unfold run. rewrite <- (rev_involutive labels). generalize (rev labels). clear labels. intros labels.
  induction labels as [|l labels IH]; [apply idle_sound|]. simpl. rewrite foldl_app. by apply step_sound.
Qed.

(** C7: nothing leaves by the gateway but what it vetted, in any world and
    any interleaving of requests, sweeps, collections and stops: a name is
    looked up only for a request that read a live lease, was begun in its
    sandbox's evidence, holds one of its slots, and names a canonical host
    whose port the lease's allowlist allows, and it is that host's rooted name;
    an address is dialed only when it is a public one that lookup answered; and
    bytes are forwarded only over such a connection, when they are exactly the
    ClientHello records the client sent and they name the host, after the
    allowed tunnel was counted.  No request is settled twice, or counted
    without a sandbox and a host, and no slot is taken twice. *)
Theorem tunnels_confined labels logging now pre t d post :
  sy_deeds (run policy labels (idle_gateway logging now)) = pre ++ (t, d) :: post ->
  permitted policy (own t pre) d.
Proof. apply (so_lawful _ (run_sound labels logging now)). Qed.

(** C6: evidence that is not marked incomplete is complete: when the broker
    is given such a summary of a sandbox's usage, every request begun under the
    usage was that sandbox's, none is still open, and each has its outcome in
    that very usage; the decisions the summary counts are all those ever
    counted in it.  So neither a request in flight, nor an abandoned one, nor
    one whose outcome came after a collection or a sweep, can be missing from
    evidence that looks complete. *)
Theorem evidence_complete labels logging now t sb id summary :
  let ds := sy_deeds (run policy labels (idle_gateway logging now)) in
  (t, Collected sb (Some id) summary) ∈ ds -> Summary_Incomplete summary = false ->
  (forall t' sb', (t', Began sb' id) ∈ ds -> sb' = sb)
  /\ (forall t' sb', owed (own t' ds) <> Some (sb', id))
  /\ number (is_began id) ds = number (is_within id) ds
  /\ total summary = number (is_into id) ds.
Proof.
  intros ds I Z. destruct (run_sound labels logging now) as [_ _ _ [A _] [owner O]].
  destruct (ac_done _ _ _ _ A _ _ _ _ I Z) as (_ & _ & T & B & S).
  destruct (ow_collected _ _ _ O _ _ _ _ I) as [<- _]. split; [|split; [|done]].
  - intros t' sb' I'. by destruct (ow_began _ _ _ O _ _ _ I').
  - intros t' sb' E. destruct (ac_owed _ _ _ _ A _ _ _ E) as (L & _). eapply tally_zero in T; [|exact L].
    unfold owes in T. unfold ds in E. by rewrite E, N.eqb_refl in T.
Qed.

(** A sandbox never holds more than 64 tunnel slots, whatever runs beside
    it, the gateway's count of them is exact, and a goroutine that has ended
    holds no slot and owes no outcome. *)
Theorem tunnels_bounded labels logging now :
  let s := run policy labels (idle_gateway logging now) in
  (forall sb, tally (holds (sy_deeds s) sb) (List.length (sy_threads s)) <= 64
    /\ open_of sb (sy_gw s) = tally (holds (sy_deeds s) sb) (List.length (sy_threads s)))
  /\ forall t, sy_threads s !! t = Some (Ret tt) -> owed (own t (sy_deeds s)) = None /\ slot (own t (sy_deeds s)) = None.
Proof.
  intros s. destruct (run_sound labels logging now) as [_ R _ [_ S] _]. split.
  - intros sb. destruct (S sb) as [E L]. fold s in E, L. split; [by rewrite <- E|done].
  - intros t E. exact (R _ _ E).
Qed.
End system.

(** ** A run *)

#[local, program] Instance run_text : LeaseText := {
  sha256_hex := fun token => "sum";
  marshal_lease := fun l => Err (New "unused");
  decode_lease := fun data => Ok (mkLease data KindRunner);
}.
Next Obligation. done. Qed.
Next Obligation. done. Qed.
#[local, program] Instance run_addr : AddrText := { ParseAddr := fun _ => None; addr_text := fun _ => "literal" }.
Next Obligation. done. Qed.
Definition sample_policy : Policy := mkPolicy [mkRule "api.example.com" false 443] [].
(** A world in which the lease is task-1's, the host resolves to a private and
    a public address, and the client sends a hello that names it. *)
#[local] Instance run_world : GatewayWorld := {
  gw_clock := fun n => mkInstant (Z.of_nat n) 0;
  replies := fun X n e =>
    match e in ev X return X with
    | File q =>
      match q in os X return X with
      | RandomBytes => [] | CreateTemp _ => Ok "" | WriteTemp _ _ => Ok tt | CloseTemp _ => Ok tt
      | Rename _ _ => Ok tt | RemoveFile _ => Ok tt | ReadDir => Ok [] | LstatRegular _ => Ok true
      | ReadAll _ _ => Ok "task-1" | StatFile _ => Ok tt | WriteOut _ _ => Ok tt
      end
    | LogRefusal _ _ _ => tt | LogOpened _ _ => true | LogDecision _ => tt | FlushBudgets _ => tt
    | Begin_ _ _ => None | Abandon_ _ => tt | Count_ _ _ _ => (None, "", false) | Collect_ _ => (None, emptySummary)
    | Reserve _ => true | Release_ _ => tt | Track _ => None | Untrack _ => tt | Cut_ _ _ => tt | CauseOf _ => ""
    | NextTunnel => 0 | SweepLeases => [] | SweepForget _ => [] | StopTunnels => []
    | WaitRunning => tt
    | LookupNetIP _ => Ok [V4 (ip4 10 0 0 1); V6 (N.shiftl 65535 32 + ip4 8 8 8 8) ""]
    | RequestErr => None | Dial _ _ _ => Ok tt | Hijack => Hijacked | SetDeadline _ => Ok tt | WriteEstablished => Ok tt
    | ClientSends => (wire sample_records ++ chars "more", false)
    | Forward _ => tt | Select _ => if Nat.even n then UpDone 5 else DownDone 7
    | IdleFor => 0%Z | SinceMillis => 9%Z | CloseClient => tt | CloseUpstream => tt | Respond _ _ => tt
    end;
}.
(** [Basic] and the base64 of [sandbox:] and 64 hex digits. *)
Definition sample_connect (target : string) : ProxyRequest :=
  mkProxyRequest "CONNECT" None target "10.1.0.9:4000"
    ("Basic c2FuZGJveDow" +:+ str (flat_map (fun _ => chars "MDAw") (seq 0 21))).
(** A tunnel, a refusal while it is open, and a collection after both. *)
Definition sample_run : list label :=
  [Arrive (sample_connect "api.example.com:443"); Arrive (sample_connect "other.example.com:443")]
  ++ flat_map (fun _ => [Go 0; Go 1]) (seq 0 40) ++ [CollectFor "task-1"; Go 2; Go 2].
Notation sample_deeds := (sy_deeds (run sample_policy sample_run (idle_gateway true (mkInstant 0 0)))).
Example sample_forwarded :
  map fst sample_deeds = [0; 1; 0; 1; 0; 1; 0; 0; 0; 0; 0; 0; 0; 2]%nat
  /\ nth_error sample_deeds 7 = Some (0%nat, Dialing (V4 (ip4 8 8 8 8)) 443)
  /\ nth_error sample_deeds 11 = Some (0%nat, Forwarded (wire sample_records)).
Proof. vm_compute. auto. Qed.
Lemma tunnels_confined_witness :
  exists pre post, sample_deeds = pre ++ (0%nat, Forwarded (wire sample_records)) :: post
  /\ permitted sample_policy (own 0 pre) (Forwarded (wire sample_records)).
Proof.
  exists (firstn 11 sample_deeds), (skipn 12 sample_deeds).
  assert (sample_deeds = firstn 11 sample_deeds ++ (0%nat, Forwarded (wire sample_records)) :: skipn 12 sample_deeds) as E
    by (vm_compute; reflexivity).
  split; [exact E|]. exact (tunnels_confined sample_policy sample_run true (mkInstant 0 0) _ _ _ _ E).
Defined.
(** Both requests are in the evidence: one allowed, one denied. *)
Definition sample_summary : Summary :=
  mkSummary {[ "api.example.com:443" := 1 ]} {[ "other.example.com:443" := 1 ]} ∅ (Some (mkInstant 0 0)) false.
Lemma evidence_complete_witness :
  In (2%nat, Collected "task-1" (Some 0) sample_summary) sample_deeds
  /\ number (is_began 0) sample_deeds = number (is_within 0) sample_deeds
  /\ total sample_summary = number (is_into 0) sample_deeds /\ total sample_summary = 2.
Proof.
  assert (In (2%nat, Collected "task-1" (Some 0) sample_summary) sample_deeds) as I
    by (apply (nth_error_In sample_deeds 13); vm_compute; reflexivity).
  split; [exact I|].
  destruct (evidence_complete sample_policy sample_run true (mkInstant 0 0) 2 "task-1" 0 sample_summary) as (_ & _ & B & T);
    [by apply list_elem_of_In|done|]. split; [exact B|]. split; [exact T|vm_compute; reflexivity].
Defined.
